(* ===== verification/_CoqProject ===== *)
-Q . S2P
Prelude.v
Bytes.v
Bitmap.v
FsDefs.v
Sync.v
Cache.v
CacheLaws.v
LogLaws.v
Commit.v
Recovery.v
Crash.v
Reserve.v
Transactions.v
Recent.v
Console.v
CString.v
Format.v
ListNode.v
Mem.v
PageTable.v
AddrSpace.v
UserMem.v
Paging.v
Fork.v
BlockCache.v
Inode.v
InodeLaws.v
InodeWrite.v
InodeProps.v
InodePut.v
Directory.v
Path.v
KernelPt.v
RbTree.v
RbRotate.v
RbFix.v
RbInsert.v
RbEraseFix.v
RbErase.v
Timer.v
Sched.v
Proc.v
ProcTree.v
ProcWait.v
ProcExit.v
ProcLife.v
ProcStart.v
ProcSpec.v
Pipe.v
File.v
SysFd.v
FdWorld.v
SysPath.v
Create.v
Mkfs.v
MkfsLaws.v
MkfsSpec.v
Exec.v
ExecLaws.v
ExecImage.v
ExecSegs.v
ExecLoad.v
ExecStack.v
Trap.v
Virtio.v
VirtioInit.v
VirtioSafe.v
Shell.v
