(* ===== verification/Prelude.v ===== *)
(** * A verified model of the FDU2024 honor-lab kernel

    The program is a small aarch64 operating system in C: a crash-safe file
    system (block cache with a write-ahead log, inodes, directories, paths,
    open files, pipes), processes with a scheduler, timers and demand paging,
    system calls, a console, a memory allocator with page tables, kernel data
    structures (lists, queues, red-black trees, bitmaps, locks), formatted
    output and a few user programs, of which the shell has a parser. Every file of the
    development models some of its files; paths are below src/src/.

    ** How the code is modelled

    A C function is a function in the monad [M S] of this file: from a state it
    returns a value and a new state, reaches [PANIC()] or a failed [ASSERT],
    sleeps on a semaphore, or leaves the defined behaviour of C (an access
    outside an array or through a dead pointer). The state of a component is
    a record of its static variables; memory behind pointers is a finite map
    from addresses. [wp c Q s] is total correctness: from [s], [c] returns and
    [Q] holds of its result; so each [wp] theorem also says that the call ends,
    does not panic and does not sleep. Integers are [Z] with the wrap-around
    of their C type written out ([u32], [u64], [wrap]). Between two calls of a
    component one thread runs; interleavings are modelled where the code
    relies on them, by step relations (Sync.v for spinlocks and semaphores,
    ListNode.v for the lock-free list, Transactions.v for the calls of the
    clients of the log, Virtio.v for the processes, the device and the
    interrupt handler around the queue of requests).

    ** The files, and the code they model

    - Prelude.v: the monad, [wp], loops and their rules, list and integer
      lemmas, hints. Bytes.v: little-endian words. Bitmap.v: common/bitmap.h.
    - FsDefs.v: fs/defines.h, the structures on disk and their memory images.
    - Sync.v: common/rc.c, common/spinlock.c, common/sem.c.
    - Cache.v: fs/cache.c ([CacheState] are its static variables, the device
      is [Device]); CacheLaws.v, LogLaws.v, Commit.v, Recovery.v, Crash.v,
      Reserve.v, Transactions.v: its invariants and theorems. Recent.v: which
      blocks stay in the cache after they are released.
    - BlockCache.v: the struct of function pointers of fs/cache.h as a record,
      the contract [BlockCacheSpec] of a cache, and the proof that cache.c
      keeps it. Inode.v (fs/inode.c without directories), Directory.v and
      Path.v (the rest) are written and proved against this contract;
      InodeLaws.v, InodeWrite.v, InodeProps.v, InodePut.v hold the proofs.
    - Console.v: kernel/console.c. CString.v: common/string.c. ListNode.v:
      common/list.c. Format.v: common/format.c and kernel/printk.c.
    - Mem.v: kernel/mem.c. PageTable.v: kernel/pt.c and the walk of the mmu.
      KernelPt.v: the constant tables of aarch64/kernel_pt.c.
    - AddrSpace.v: address spaces (page table, pages and sections of a
      process). Paging.v: kernel/paging.c. Fork.v: the copy of the address
      space in [fork] of kernel/proc.c, and [copyout]. UserMem.v: the checks of
      user addresses of kernel/syscall.c and [get_free_vm] of kernel/sysfile.c.
    - RbTree.v: common/rbtree.c on a heap of nodes; RbRotate.v, RbFix.v,
      RbInsert.v, RbEraseFix.v and RbErase.v: its theorems.
    - Timer.v: the timers of kernel/cpu.c on the tree, and driver/clock.c.
      Sched.v: kernel/sched.c over the run queue, the processes and the CPUs.
    - Proc.v: kernel/proc.c over the scheduler; ProcTree.v, ProcWait.v,
      ProcExit.v, ProcLife.v, ProcStart.v, ProcSpec.v: its invariant (a tree
      of processes in the lists of children) and theorems.
    - Pipe.v: fs/pipe.c. File.v: fs/file.c over the interface [InodeTree] of
      the inode layer (fs/inode.h).
    - SysFd.v: the system calls on descriptors of kernel/sysfile.c, FdWorld.v:
      many processes that run them with [fork] and [exit]. SysPath.v: the system
      calls on paths; Create.v: the theorem about [create].
    - Mkfs.v: the formatter user/mkfs/main.c; MkfsLaws.v and MkfsSpec.v: the
      image it makes, read with the definitions of the kernel's inode layer.
    - Exec.v: kernel/exec.c, whole; ExecLaws.v, ExecImage.v, ExecSegs.v,
      ExecLoad.v and ExecStack.v: the image and the stack it builds.
    - Trap.v: aarch64/trap.c, driver/interrupt.c, [syscall_entry] of
      kernel/syscall.c and kernel/sysproc.c.
    - Virtio.v: driver/virtio_blk.c and fs/block_device.c; VirtioInit.v: the
      start of the device; VirtioSafe.v: the protocol of its queue.
    - Shell.v: the parser of user/sh/main.c.

    ** What the theorems show

    - The log (Crash.v, Transactions.v): a commit is atomic whenever the
      machine stops, recovery may be interrupted and run again; whatever calls
      are made (reads, writes, allocation, freeing, writes without an
      operation), the disk changes only when the last operation in progress
      ends or a block is written without an operation; an operation inside its
      budget never panics and at most six run at once; the allocator of blocks
      takes the first free one and panics when there is none.
    - Inodes (InodeProps.v, InodePut.v): reading and writing are reading and
      writing of the bytes of the file, allocation takes the first free inode,
      one in-memory copy for each inode, the last reference frees the blocks,
      the indirect ones too. A write through an indirect block that has to
      allocate is excluded: the code loses the address.
      Directories and paths (Directory.v, Path.v): lookup, insertion and
      removal of entries; a path leads where its elements lead, and every
      reference taken on the way is given back.
    - Data structures: doubly linked rings and the queue, the lock-free list
      with one thread that fetches (and the run in which two threads that fetch
      take the same node), overlapping memmove, red-black insertion with all
      invariants, red-black removal, search.
    - Processes: [fork], [exit], [wait] and [kill] keep the tree of processes,
      never fail an assertion and give back or hand over what they should;
      [exit] waits for ever when closing a file needs the scheduler, whose lock
      it holds. The scheduler keeps its lock and queue right; timers fire in
      order.
    - Memory: the heap is partitioned into allocated and free blocks at all
      times (for blocks up to 4072 bytes; larger ones corrupt the allocator),
      mapping a page makes the mmu find it and moves no other page, the
      kernel's tables are the direct map they are meant to be; page faults and
      [sbrk] map and drop the pages of the sections and no other; the child of
      [fork] reads what the parent read.
    - Locks: mutual exclusion, conservation of semaphore counts (as [int]s,
      with waiters that are alerted or killed), wake-ups.
    - Console, pipes, files: lines typed are lines read, pipes are bounded
      queues across the wrap of their counters, files read at their offset;
      integers print as the digits that read back as them.
    - System calls: whatever the processes do, every descriptor names an open
      file whose count of references is the number of its descriptors (a
      store through a pointer outside the sections of the process is undefined);
      [close] drops one; what is written to one end of a pipe is read from the other;
      [create] makes exactly one new inode and one new name.
    - The formatter: the kernel finds every input file under its name in the
      root directory of the image, with its bytes, and the bitmap marks the
      blocks in use.
    - Loading of programs: every byte of every segment of the file is at its
      address, text cannot be written, the bytes past the file are zero (but
      for the first page of a segment without bytes that starts off a page,
      which is not mapped), and the stack holds argc, argv, envp and the strings
      they point to, up to 31 of each.
    - Traps: the result of a system call is in x0 of the caller, and a process
      that has been killed does not return to user space.
    - The disk: however processes, device and interrupts interleave, a request
      the device reports as done has moved exactly its block, at most five are
      in flight, one more than the queue has room for panics, and so does the
      next interrupt after the device has reported an error (a sector beyond
      its capacity, or any other).
    - The shell: parsing ends on every line, and the words of a command are
      exactly the words of the line.

    Where the code does not do what it says, a theorem states what it does
    ([indirect_address_lost], [inode_remove_spec], [ctrl_u_keeps_first_byte],
    [full_console_hangs], [console_stale_read], [lockfree_aba_double_fetch],
    [kfree_whole_page_out_of_bounds], [overloaded_never_runs],
    [user_access_wraps], [get_free_vm_after_sbrk], [pipe2_leaks],
    [new_file_not_closed], [virtio_submit], [execve_missing],
    [env_unterminated], [syscall_out_of_table]).

    ** Fuel

    Loops whose end is not structural take fuel, and running out is the
    outcome [Undefined] (or [PFuel] in the parser), which the theorems exclude:
    the number of bytes for loops over file blocks, the length of the path for
    [namex], the size of the heap for walks in a tree, the value of the
    semaphore for waits, four calls for each character for the parser, the
    number of timers of a CPU, the length of the run queue, the number of
    processes for the search of a pid, the length of the format string, the
    number of pages of a section, the bytes of a directory for [isdirempty],
    the number of vectors for writev, the pages of a segment and the bytes
    copied out for [execve], the descriptors of a chain and the entries of the
    ring of used ones for the disk.

    ** Not modelled

    gicv3.c, uart.c, the registers of the timer and aarch64/intrinsic.h,
    [set_cpu_on], [set_cpu_off]: register accesses with no logic of their own.
    The assembly files. [mmap] and [munmap] of kernel/sysfile.c.
    [kernel_entry] and [idle_entry] of kernel/core.c, and the printing of
    [init_block_device]. The other user programs and src/test only exercise
    the system. *)
From Stdlib Require Import ZArith Lia.
From stdpp Require Import base gmap numbers list.

#[global] Open Scope Z_scope.

(** * Notations of the development *)

Declare Scope kernel_scope.
Delimit Scope kernel_scope with kernel.
#[global] Open Scope kernel_scope.

(** * The effect monad

    Kernel functions run in a state [S] and end in one of four ways: they
    return, they reach [PANIC()] or a failed [ASSERT] (src/common/defines.h:
    the cpu spins for ever), they sleep on a semaphore that the run itself
    can no longer post, or they leave the defined behaviour of C (a read or
    write outside an array, a dereference of a null or freed pointer). *)

Inductive outcome (S A : Type) : Type :=
| Done (a : A) (s : S)
| Panicked (s : S)
| Blocked (s : S)
| Undefined.
Arguments Done {S A} a s.
Arguments Panicked {S A} s.
Arguments Blocked {S A} s.
Arguments Undefined {S A}.

Definition M (S A : Type) : Type := S -> outcome S A.

#[global] Instance M_ret S : MRet (M S) := fun A a s => Done a s.

#[global] Instance M_bind S : MBind (M S) := fun A B k c s =>
  match c s with
  | Done a s' => k a s'
  | Panicked s' => Panicked s'
  | Blocked s' => Blocked s'
  | Undefined => Undefined
  end.

Definition PANIC {S A} : M S A := fun s => Panicked s.

Definition ASSERT {S} (b : bool) : M S unit := fun s =>
  if b then Done tt s else Panicked s.

Definition sleep {S A} : M S A := fun s => Blocked s.

Definition undefined {S A} : M S A := fun _ => Undefined.

Definition gets {S A} (f : S -> A) : M S A := fun s => Done (f s) s.

(** The whole state, for code that reads several variables. *)
Definition get_state {S} : M S S := fun s => Done s s.

Definition modify {S} (f : S -> S) : M S unit := fun s => Done tt (f s).

(** An access through a pointer or an index: undefined when there is
    nothing there. *)
Definition deref {S A} (o : option A) : M S A := fun s =>
  match o with Some a => Done a s | None => Undefined end.

(** [for (i = lo; n more times; i++) body(i)], left early with a value when
    the body returns [Some]. *)
Fixpoint for_loop {S R : Type} (n : nat) (i : Z) (body : Z -> M S (option R)) :
    M S (option R) :=
  match n with
  | O => mret None
  | Datatypes.S n' =>
      r ← body i;
      match r with
      | Some x => mret (Some x)
      | None => for_loop n' (i + 1) body
      end
  end.

(** The same loop when nothing leaves it early. *)
Fixpoint for_each {S : Type} (n : nat) (i : Z) (body : Z -> M S unit) : M S unit :=
  match n with
  | O => mret tt
  | Datatypes.S n' => body i ;; for_each n' (i + 1) body
  end.

(** ** Total correctness

    [wp c Q s]: run from [s], [c] returns (it does not panic, sleep or leave
    the defined behaviour) and its result and final state satisfy [Q]. *)
Definition wp {S A} (c : M S A) (Q : A -> S -> Prop) (s : S) : Prop :=
  match c s with
  | Done a s' => Q a s'
  | _ => False
  end.

Lemma wp_done {S A} (c : M S A) Q s :
  wp c Q s <-> exists a s', c s = Done a s' /\ Q a s'.
Proof.
  unfold wp. split; [destruct (c s); naive_solver|].
  intros (a & s' & -> & HQ). done.
Qed.

Lemma wp_ret {S A} (a : A) (Q : A -> S -> Prop) s : Q a s -> wp (mret a) Q s.
Proof. done. Qed.

Lemma wp_bind {S A B} (c : M S A) (k : A -> M S B) Q s :
  wp c (fun a s' => wp (k a) Q s') s -> wp (a ← c; k a) Q s.
Proof. unfold wp, mbind, M_bind. by destruct (c s). Qed.

(** A bind whose first command is known to return. *)
Lemma bind_eq {S A B} (c : M S A) (k : A -> M S B) s a s' :
  c s = Done a s' -> (c ≫= k) s = k a s'.
Proof. unfold mbind, M_bind. by intros ->. Qed.

Lemma wp_mono {S A} (c : M S A) (Q Q' : A -> S -> Prop) s :
  wp c Q s -> (forall a s', Q a s' -> Q' a s') -> wp c Q' s.
Proof. unfold wp. destruct (c s); auto. Qed.

Lemma wp_and {S A} (c : M S A) (Q Q' : A -> S -> Prop) s :
  wp c Q s -> wp c Q' s -> wp c (fun a s' => Q a s' /\ Q' a s') s.
Proof. unfold wp. destruct (c s); auto. Qed.

Lemma wp_gets {S A} (f : S -> A) (Q : A -> S -> Prop) s :
  Q (f s) s -> wp (gets f) Q s.
Proof. done. Qed.

Lemma wp_get_state {S} (Q : S -> S -> Prop) s : Q s s -> wp get_state Q s.
Proof. done. Qed.

Lemma wp_modify {S} (f : S -> S) (Q : unit -> S -> Prop) s :
  Q tt (f s) -> wp (modify f) Q s.
Proof. done. Qed.

Lemma wp_assert {S} (b : bool) (Q : unit -> S -> Prop) s :
  b = true -> Q tt s -> wp (ASSERT b) Q s.
Proof. intros ->. done. Qed.

Lemma wp_deref {S A} (o : option A) a (Q : A -> S -> Prop) s :
  o = Some a -> Q a s -> wp (deref o) Q s.
Proof. intros ->. done. Qed.

(** A computation on a part of the state, read by [get] and written by [put]. *)
Definition zoom {S T A} (get : S -> T) (put : T -> S -> S) (c : M T A) : M S A := fun s =>
  match c (get s) with
  | Done a x => Done a (put x s)
  | Panicked x => Panicked (put x s)
  | Blocked x => Blocked (put x s)
  | Undefined => Undefined
  end.

Lemma wp_zoom {S T A} (get : S -> T) (put : T -> S -> S) (c : M T A) (Q : A -> S -> Prop) s :
  wp c (fun a x => Q a (put x s)) (get s) -> wp (zoom get put c) Q s.
Proof. unfold wp, zoom. by destruct (c (get s)). Qed.

(** [panics c P s]: run from [s], [c] reaches [PANIC()] in a state in [P]. *)
Definition panics {S A} (c : M S A) (P : S -> Prop) (s : S) : Prop :=
  match c s with
  | Panicked s' => P s'
  | _ => False
  end.

Lemma panics_bind {S A B} (c : M S A) (k : A -> M S B) P s :
  wp c (fun a s' => panics (k a) P s') s -> panics (a ← c; k a) P s.
Proof. unfold wp, panics, mbind, M_bind. by destruct (c s). Qed.

Lemma panics_bind_l {S A B} (c : M S A) (k : A -> M S B) P s :
  panics c P s -> panics (a ← c; k a) P s.
Proof. unfold panics, mbind, M_bind. by destruct (c s). Qed.

(** Loop rule: an invariant indexed by the loop variable. *)
Lemma wp_for_each {S} (I : Z -> S -> Prop) (n : nat) (lo : Z) (body : Z -> M S unit) s :
  I lo s ->
  (forall i s, lo <= i < lo + Z.of_nat n -> I i s -> wp (body i) (fun _ s' => I (i + 1) s') s) ->
  wp (for_each n lo body) (fun _ s' => I (lo + Z.of_nat n) s') s.
Proof.
  revert lo s. induction n as [|n IH]; intros lo s HI Hb; simpl.
  - apply wp_ret. by rewrite Z.add_0_r.
  - apply wp_bind. eapply wp_mono; [apply Hb; [lia|done]|].
    intros [] s' HI'. eapply wp_mono; [apply (IH (lo + 1)); [done|]|].
    + intros i s1 Hi. apply Hb. lia.
    + intros [] s2. by replace (lo + 1 + Z.of_nat n) with (lo + Z.of_nat (Datatypes.S n)) by lia.
Qed.

(** Loop rule with early exit: [I] holds while looping, [E] at an exit. *)
Lemma wp_for_loop {S R} (I : Z -> S -> Prop) (Q : option R -> S -> Prop)
    (n : nat) (lo : Z) (body : Z -> M S (option R)) s :
  I lo s ->
  (forall i s, lo <= i < lo + Z.of_nat n -> I i s ->
     wp (body i) (fun r s' => match r with
                              | Some x => Q (Some x) s'
                              | None => I (i + 1) s'
                              end) s) ->
  (forall s, I (lo + Z.of_nat n) s -> Q None s) ->
  wp (for_loop n lo body) Q s.
Proof.
  revert lo s. induction n as [|n IH]; intros lo s HI Hb HQ; simpl.
  - apply wp_ret, HQ. by rewrite Z.add_0_r.
  - apply wp_bind. eapply wp_mono; [apply Hb; [lia|done]|].
    intros [x|] s' Hs'; [done|]. apply (IH (lo + 1)); [done| |].
    + intros i s1 Hi. apply Hb. lia.
    + intros s2 Hs2. apply HQ.
      by replace (lo + Z.of_nat (Datatypes.S n)) with (lo + 1 + Z.of_nat n) by lia.
Qed.

(** One step of symbolic execution. *)
Ltac wp_step :=
  first
    [ apply wp_bind
    | apply wp_ret
    | apply wp_gets
    | apply wp_get_state
    | apply wp_modify
    | (eapply wp_assert; [first [reflexivity | eassumption] | ])
    | (eapply wp_deref; [first [reflexivity | eassumption] | ]) ].
Ltac wp_steps := repeat wp_step.

(** * Machine integers *)

(** Reduction of a value to an unsigned type of [w] bits. *)
Definition wrap (w v : Z) : Z := v mod 2 ^ w.
Definition u8 (v : Z) : Z := wrap 8 v.
Definition u16 (v : Z) : Z := wrap 16 v.
Definition u32 (v : Z) : Z := wrap 32 v.
Definition u64 (v : Z) : Z := wrap 64 v.

Lemma wrap_bounds w v : 0 <= w -> 0 <= wrap w v < 2 ^ w.
Proof. intros. apply Z.mod_pos_bound. apply Z.pow_pos_nonneg; lia. Qed.

Lemma wrap_small w v : 0 <= v < 2 ^ w -> wrap w v = v.
Proof. apply Z.mod_small. Qed.

(** * Lists *)

Section lists.
Context {A : Type}.
Implicit Types l k : list A.

(** [n] elements from position [off]. *)
Definition slice (off n : nat) (l : list A) : list A := take n (drop off l).

(** [memcpy(l + off, k, length k)]: [k] written over [l] at [off]. *)
Definition splice (l : list A) (off : nat) (k : list A) : list A :=
  take off l ++ k ++ drop (off + length k) l.

Lemma length_slice off n l : (off + n <= length l)%nat -> length (slice off n l) = n.
Proof. intros. unfold slice. rewrite length_take, length_drop. lia. Qed.

Lemma lookup_slice off n l i :
  (i < n)%nat -> slice off n l !! i = l !! (off + i)%nat.
Proof. intros. unfold slice. rewrite lookup_take_lt by done. by rewrite lookup_drop. Qed.

Lemma length_splice l off k :
  (off + length k <= length l)%nat -> length (splice l off k) = length l.
Proof. intros. unfold splice. rewrite !length_app, length_take, length_drop. lia. Qed.

Lemma lookup_splice_in l off k i :
  (off + length k <= length l)%nat -> (off <= i < off + length k)%nat ->
  splice l off k !! i = k !! (i - off)%nat.
Proof.
  intros. unfold splice. rewrite lookup_app_r; rewrite length_take; [|lia].
  rewrite lookup_app_l by lia. f_equal. lia.
Qed.

Lemma lookup_splice_out l off k i :
  (off + length k <= length l)%nat -> (i < off \/ off + length k <= i)%nat ->
  splice l off k !! i = l !! i.
Proof.
  intros Hb [Hi|Hi]; unfold splice.
  - rewrite lookup_app_l by (rewrite length_take; lia). by rewrite lookup_take_lt.
  - rewrite lookup_app_r; rewrite length_take; [|lia].
    rewrite lookup_app_r by lia. rewrite lookup_drop. f_equal. lia.
Qed.

Lemma slice_splice_same l off k :
  (off + length k <= length l)%nat -> slice off (length k) (splice l off k) = k.
Proof.
  intros. apply list_eq. intros i. destruct (decide (i < length k)%nat).
  - rewrite lookup_slice, lookup_splice_in by lia. f_equal. lia.
  - rewrite !lookup_ge_None_2; [done|lia|].
    rewrite length_slice; [lia|]. rewrite length_splice; lia.
Qed.

Lemma slice_splice_disjoint l off k off' n :
  (off + length k <= length l)%nat ->
  (off' + n <= off \/ off + length k <= off')%nat ->
  slice off' n (splice l off k) = slice off' n l.
Proof.
  intros Hb Hd. apply list_eq. intros i. destruct (decide (i < n)%nat).
  - rewrite !lookup_slice by lia. apply lookup_splice_out; [done|lia].
  - unfold slice. rewrite !lookup_ge_None_2; rewrite ?length_take; auto; lia.
Qed.

Lemma slice_all l : slice 0 (length l) l = l.
Proof. unfold slice. rewrite drop_0. apply take_ge. done. Qed.

Lemma splice_self l off n :
  (off + n <= length l)%nat -> splice l off (slice off n l) = l.
Proof.
  intros Hb. pose proof (length_slice off n l Hb) as Hl. apply list_eq. intros i.
  destruct (decide (off <= i < off + n)%nat).
  - rewrite lookup_splice_in by lia. rewrite lookup_slice by lia. f_equal. lia.
  - apply lookup_splice_out; lia.
Qed.
End lists.

Lemma Forall_slice {A} (P : A -> Prop) off n l : Forall P l -> Forall P (slice off n l).
Proof. intros. unfold slice. by apply Forall_take, Forall_drop. Qed.

Lemma Forall_splice {A} (P : A -> Prop) l off k :
  Forall P l -> Forall P k -> Forall P (splice l off k).
Proof.
  intros. unfold splice. apply Forall_app. split; [by apply Forall_take|].
  apply Forall_app. split; [done|by apply Forall_drop].
Qed.

(** ** Searching a list by an integer key

    The C code walks its intrusive lists and stops at the first element whose
    field has a given value; with distinct keys this is a finite map. *)
Section find_key.
Context {A : Type} (key : A -> Z).
Implicit Types l : list A.

Lemma find_key_None l k :
  List.find (fun x => key x =? k) l = None <-> forall x, x ∈ l -> key x <> k.
Proof.
  induction l as [|y l IH]; simpl.
  - split; [intros _ x Hx; inversion Hx|done].
  - destruct (Z.eqb_spec (key y) k); [split; [done|]|].
    + intros H. exfalso. apply (H y); [left|done].
    + rewrite IH. split; intros H x; [|intros Hx; apply H; by right].
      rewrite elem_of_cons. intros [->|]; auto.
Qed.

Lemma find_key_elem l k x :
  List.find (fun x => key x =? k) l = Some x -> x ∈ l /\ key x = k.
Proof.
  intros H. apply List.find_some in H as [Hin Hk]. split; [by apply list_elem_of_In|lia].
Qed.

Lemma find_key_Some l k x :
  NoDup (map key l) ->
  List.find (fun x => key x =? k) l = Some x <-> x ∈ l /\ key x = k.
Proof.
  intros Hnd. split; [apply find_key_elem|]. intros [Hin <-].
  destruct (List.find (fun x0 => key x0 =? key x) l) as [y|] eqn:E.
  - apply find_key_elem in E as [Hy Hk]. f_equal.
    revert Hnd Hin Hy Hk. clear. induction l as [|z l IH]; [inversion 2|].
    simpl. rewrite NoDup_cons. intros [Hz Hnd].
    assert (forall w, w ∈ l -> key z <> key w) as Hzl.
    { intros w Hw Hk. apply Hz. rewrite Hk. apply list_elem_of_In, in_map. by apply list_elem_of_In. }
    rewrite !elem_of_cons. intros [->|Hx] [->|Hy] Hk; auto; exfalso; eapply Hzl; eauto.
  - rewrite find_key_None in E. exfalso. by apply (E x).
Qed.

(** Updating the element with a given key, its key unchanged. *)
Definition update_key (k : Z) (f : A -> A) l : list A :=
  map (fun x => if key x =? k then f x else x) l.

Context (f : A -> A) (Hf : forall x, key (f x) = key x).

Lemma map_key_update k l : map key (update_key k f l) = map key l.
Proof.
  unfold update_key. rewrite map_map. apply map_ext. intros x. destruct (key x =? k); auto.
Qed.

Lemma elem_of_update_key k l x :
  x ∈ update_key k f l <->
  (x ∈ l /\ key x <> k) \/ (exists y, y ∈ l /\ key y = k /\ x = f y).
Proof.
  unfold update_key. rewrite list_elem_of_In, in_map_iff. split.
  - intros (y & Hy & Hin). apply list_elem_of_In in Hin.
    destruct (Z.eqb_spec (key y) k); subst; eauto.
  - intros [[Hin Hk]|(y & Hin & Hk & ->)].
    + exists x. rewrite (proj2 (Z.eqb_neq _ _) Hk). by rewrite <- list_elem_of_In.
    + exists y. rewrite (proj2 (Z.eqb_eq _ _) Hk). by rewrite <- list_elem_of_In.
Qed.

Lemma find_update_key k l :
  List.find (fun x => key x =? k) (update_key k f l) =
  f <$> List.find (fun x => key x =? k) l.
Proof.
  induction l as [|x l IH]; [done|]. unfold update_key in *. simpl.
  destruct (key x =? k) eqn:E; [by rewrite Hf, E|]. by rewrite E, IH.
Qed.

Lemma update_key_compose g k l :
  update_key k g (update_key k f l) = update_key k (fun x => g (f x)) l.
Proof.
  unfold update_key. rewrite map_map. apply map_ext. intros x.
  destruct (key x =? k) eqn:E; [by rewrite Hf, E|by rewrite E].
Qed.
End find_key.

Lemma filter_key_permutation {A} (key : A -> Z) (l : list A) x :
  NoDup (map key l) -> x ∈ l ->
  x :: List.filter (fun y => negb (key y =? key x)) l ≡ₚ l.
Proof.
  induction l as [|y l IH]; [inversion 2|]. simpl. rewrite NoDup_cons, elem_of_cons.
  intros [Hy Hnd] [->|Hin].
  - rewrite Z.eqb_refl. simpl. constructor.
    assert (List.filter (fun z => negb (key z =? key y)) l = l) as ->; [|done].
    clear IH Hnd. induction l as [|z l IH]; [done|]. simpl in *.
    rewrite not_elem_of_cons in Hy. destruct Hy as [Hz Hy].
    rewrite (proj2 (Z.eqb_neq (key z) (key y))) by congruence. simpl. by rewrite IH.
  - assert (key y <> key x).
    { intros E. apply Hy. rewrite E. apply list_elem_of_In, in_map. by apply list_elem_of_In. }
    rewrite (proj2 (Z.eqb_neq (key y) (key x))) by done. simpl.
    rewrite Permutation_swap. constructor. by apply IH.
Qed.

Lemma NoDup_map_sublist {A} (key : A -> Z) (l k : list A) :
  l `sublist_of` k -> NoDup (map key k) -> NoDup (map key l).
Proof.
  intros Hs Hnd. eapply sublist_NoDup; [exact Hnd|]. change (key <$> l `sublist_of` key <$> k).
  by apply fmap_sublist.
Qed.

Lemma sublist_rev {A} (l k : list A) : l `sublist_of` k -> rev l `sublist_of` rev k.
Proof.
  induction 1 as [|x l k _ IH|x l k _ IH]; simpl; [done| |].
  - by apply sublist_app.
  - by apply sublist_inserts_r.
Qed.

Lemma elem_of_rev {A} (l : list A) x : x ∈ rev l <-> x ∈ l.
Proof. rewrite !list_elem_of_In. symmetry. apply in_rev. Qed.

Create HintDb kernel.
#[export] Hint Resolve Forall_slice Forall_splice : kernel.
#[export] Hint Rewrite @length_app @length_take @length_drop @length_replicate : kernel.
