(* ===== verification/Bytes.v ===== *)
(** Bytes and the little-endian layout of C integers on aarch64.

    Every on-disk structure of the file system (src/fs/defines.h) and the
    bitmap are byte arrays that the code reads through casts; this file holds
    the layout functions and their round trips, shared by the components. *)
From Stdlib Require Import ZArith Lia.
From stdpp Require Import base numbers list.
From S2P Require Import Prelude.

Definition is_byte (b : Z) : Prop := 0 <= b < 256.
#[export] Instance is_byte_dec b : Decision (is_byte b).
Proof. unfold is_byte. apply _. Defined.

(** The [n] bytes of [v], least significant first. *)
Fixpoint le_bytes (n : nat) (v : Z) : list Z :=
  match n with
  | O => []
  | S n' => v mod 256 :: le_bytes n' (v / 256)
  end.

(** The value of a little-endian byte sequence. *)
Fixpoint le_val (l : list Z) : Z :=
  match l with
  | [] => 0
  | b :: l' => b + 256 * le_val l'
  end.

Lemma length_le_bytes n v : length (le_bytes n v) = n.
Proof. revert v. induction n; intros; simpl; auto. Qed.

Lemma le_bytes_bytes n v : Forall is_byte (le_bytes n v).
Proof.
  revert v. induction n; intros; simpl; constructor; auto.
  unfold is_byte. apply Z.mod_pos_bound. lia.
Qed.

Lemma le_val_bytes n v : 0 <= v < 256 ^ Z.of_nat n -> le_val (le_bytes n v) = v.
Proof.
  revert v. induction n as [|n IH]; intros v Hv.
  - simpl in *. lia.
  - cbn [le_bytes le_val]. rewrite Nat2Z.inj_succ, Z.pow_succ_r in Hv by lia.
    rewrite IH; [pose proof (Z.div_mod v 256); lia|].
    split; [apply Z.div_pos; lia|]. apply Z.div_lt_upper_bound; lia.
Qed.

Lemma le_bytes_val l : Forall is_byte l -> le_bytes (length l) (le_val l) = l.
Proof.
  induction 1 as [|b l Hb Hl IH]; simpl; [done|].
  unfold is_byte in Hb. f_equal.
  - rewrite (Z.mul_comm 256), Z_mod_plus_full. apply Z.mod_small. lia.
  - rewrite (Z.mul_comm 256), Z.div_add by lia. rewrite Z.div_small by lia. exact IH.
Qed.

Lemma le_val_bounds l : Forall is_byte l -> 0 <= le_val l < 256 ^ Z.of_nat (length l).
Proof.
  induction 1 as [|b l Hb Hl IH]; [simpl; lia|].
  cbn [length le_val]. rewrite Nat2Z.inj_succ, Z.pow_succ_r by lia. unfold is_byte in Hb. lia.
Qed.

Lemma le_val_inj l k :
  Forall is_byte l -> Forall is_byte k -> length l = length k -> le_val l = le_val k -> l = k.
Proof.
  intros Hl Hk Hlen Hv. rewrite <- (le_bytes_val l), <- (le_bytes_val k) by done. by f_equal.
Qed.

Lemma byte_cons_testbit b v i :
  is_byte b -> 0 <= i ->
  Z.testbit (b + 256 * v) i = if decide (i < 8) then Z.testbit b i else Z.testbit v (i - 8).
Proof.
  unfold is_byte. intros Hb Hi. case_decide.
  - rewrite <- (Z.mod_pow2_bits_low _ 8) by lia. f_equal.
    change (2 ^ 8) with 256. rewrite (Z.mul_comm 256), Z_mod_plus_full. by apply Z.mod_small.
  - replace i with (i - 8 + 8) at 1 by lia. rewrite <- Z.div_pow2_bits by lia. f_equal.
    change (2 ^ 8) with 256. rewrite (Z.mul_comm 256), Z.div_add by lia.
    rewrite Z.div_small by lia. done.
Qed.

(** Bit [i] of a little-endian value is bit [i mod 8] of byte [i / 8]. *)
Lemma le_val_testbit l (i : Z) :
  Forall is_byte l -> 0 <= i ->
  Z.testbit (le_val l) i = Z.testbit (default 0 (l !! Z.to_nat (i / 8))) (i mod 8).
Proof.
  intros Hl. revert i. induction Hl as [|b l Hb Hl IH]; intros i Hi.
  - simpl. by rewrite !Z.bits_0.
  - cbn [le_val]. rewrite byte_cons_testbit by done. case_decide.
    + by rewrite Z.div_small, Z.mod_small by lia.
    + rewrite IH by lia.
      replace (i - 8) with (i + (-1) * 8) by lia. rewrite Z.div_add, Z_mod_plus_full by lia.
      assert (1 <= i / 8) by (apply Z.div_le_lower_bound; lia).
      by replace (Z.to_nat (i / 8)) with (S (Z.to_nat (i / 8 + -1))) by lia.
Qed.

(** ** Arrays of integers

    The memory of an array of [k]-byte unsigned integers, and the array read
    through a cast of [n * k] bytes. *)
Definition words_bytes (k : nat) (ws : list Z) : list Z := ws ≫= le_bytes k.

Fixpoint bytes_words (k n : nat) (l : list Z) : list Z :=
  match n with
  | O => []
  | S n' => le_val (take k l) :: bytes_words k n' (drop k l)
  end.

Definition is_word (k : nat) (w : Z) : Prop := 0 <= w < 256 ^ Z.of_nat k.

Lemma words_bytes_cons k w ws : words_bytes k (w :: ws) = le_bytes k w ++ words_bytes k ws.
Proof. done. Qed.

Lemma length_words_bytes k ws : length (words_bytes k ws) = (k * length ws)%nat.
Proof.
  induction ws as [|w ws IH]; [simpl; lia|].
  rewrite words_bytes_cons, length_app, length_le_bytes, IH. simpl. lia.
Qed.

Lemma words_bytes_bytes k ws : Forall is_byte (words_bytes k ws).
Proof.
  induction ws as [|w ws IH]; [constructor|].
  rewrite words_bytes_cons. apply Forall_app. split; [apply le_bytes_bytes|done].
Qed.

Lemma length_bytes_words k n l : length (bytes_words k n l) = n.
Proof. revert l. induction n; intros; simpl; auto. Qed.

Lemma bytes_words_app k ws r :
  Forall (is_word k) ws -> bytes_words k (length ws) (words_bytes k ws ++ r) = ws.
Proof.
  induction 1 as [|w ws Hw _ IH]; [done|].
  rewrite words_bytes_cons. cbn [length bytes_words]. rewrite <- app_assoc.
  rewrite take_app_length', drop_app_length' by (by rewrite length_le_bytes).
  by rewrite le_val_bytes, IH.
Qed.

Lemma bytes_words_bytes k ws :
  Forall (is_word k) ws -> bytes_words k (length ws) (words_bytes k ws) = ws.
Proof. intros H. rewrite <- (app_nil_r (words_bytes k ws)). by apply bytes_words_app. Qed.

Lemma words_bytes_words k n l :
  length l = (k * n)%nat -> Forall is_byte l -> words_bytes k (bytes_words k n l) = l.
Proof.
  revert l. induction n as [|n IH]; intros l Hl Hb.
  - destruct l; [done|simpl in Hl; lia].
  - cbn [bytes_words]. rewrite words_bytes_cons, IH;
      [|rewrite length_drop; lia|by apply Forall_drop].
    assert (length (take k l) = k) as Ek by (rewrite length_take; lia).
    pose proof (le_bytes_val (take k l) (Forall_take _ _ _ Hb)) as E. rewrite Ek in E.
    rewrite E. apply take_drop.
Qed.

Lemma bytes_words_word k n l :
  (k * n <= length l)%nat -> Forall is_byte l -> Forall (is_word k) (bytes_words k n l).
Proof.
  revert l. induction n as [|n IH]; intros l Hl Hb; [constructor|].
  cbn [bytes_words]. constructor.
  - pose proof (le_val_bounds (take k l) (Forall_take _ _ _ Hb)) as E.
    rewrite length_take in E. by replace (k `min` length l)%nat with k in E by lia.
  - apply IH; [rewrite length_drop; lia|by apply Forall_drop].
Qed.

Lemma bytes_words_lookup k n l i :
  (i < n)%nat -> bytes_words k n l !! i = Some (le_val (slice (k * i) k l)).
Proof.
  revert l i. induction n as [|n IH]; intros l i Hi; [lia|].
  cbn [bytes_words]. destruct i as [|i]; simpl.
  - unfold slice. by rewrite Nat.mul_0_r, drop_0.
  - rewrite IH by lia. unfold slice. rewrite drop_drop.
    by replace (k + k * i)%nat with (k * S i)%nat by lia.
Qed.

(** Storing element [i] rewrites its [k] bytes and no other. *)
Lemma words_bytes_insert k ws i w :
  (i < length ws)%nat ->
  words_bytes k (<[i := w]> ws) = splice (words_bytes k ws) (k * i) (le_bytes k w).
Proof.
  revert i. induction ws as [|v ws IH]; intros i Hi; simpl in Hi; [lia|].
  unfold splice. rewrite length_le_bytes. destruct i as [|i].
  - simpl (<[_:=_]> _). rewrite !words_bytes_cons, Nat.mul_0_r, take_0, Nat.add_0_l. simpl.
    by rewrite drop_app_length' by (by rewrite length_le_bytes).
  - simpl (<[_:=_]> _). rewrite !words_bytes_cons, IH by lia. unfold splice.
    rewrite length_le_bytes. replace (k * S i)%nat with (length (le_bytes k v) + k * i)%nat
      by (rewrite length_le_bytes; lia).
    rewrite take_app_add, <- Nat.add_assoc, drop_app_add. by rewrite <- !app_assoc.
Qed.

(** Reading the next field of a struct. *)
Definition get_le (k : nat) (l : list Z) : Z * list Z := (le_val (take k l), drop k l).

Lemma get_le_app k v r : is_word k v -> get_le k (le_bytes k v ++ r) = (v, r).
Proof.
  intros. unfold get_le. rewrite take_app_length', drop_app_length' by (by rewrite length_le_bytes).
  by rewrite le_val_bytes.
Qed.

#[export] Hint Resolve le_bytes_bytes words_bytes_bytes : kernel.
#[export] Hint Rewrite length_le_bytes length_words_bytes length_bytes_words : kernel.
