(* ===== verification/Bitmap.v ===== *)
(** Bitmaps (src/common/bitmap.h).

    A bitmap is an array of 64-bit cells. The block cache overlays one on the
    512 bytes of the bitmap block, so the file also relates the cell view with
    the byte view, in which mkfs writes the initial bitmap. *)
From Stdlib Require Import ZArith Lia.
From stdpp Require Import base numbers list.
From S2P Require Import Prelude Bytes.

Definition BITMAP_BITS_PER_CELL : Z := 64.

Definition is_cell (c : Z) : Prop := 0 <= c < 2 ^ 64.

(** [BIT(i)]: [1ull << i]. *)
Definition BIT (i : Z) : Z := wrap 64 (Z.shiftl 1 i).

(** [BITMAP_PARSE_INDEX]: the cell and the offset of the bit in it. *)
Definition BITMAP_PARSE_INDEX (index : Z) : nat * Z :=
  (Z.to_nat (index / BITMAP_BITS_PER_CELL), index mod BITMAP_BITS_PER_CELL).

(** A cell outside the array is an out-of-bounds access: [None]. *)
Definition bitmap_get (bitmap : list Z) (index : Z) : option bool :=
  let '(idx, offset) := BITMAP_PARSE_INDEX index in
  cell ← bitmap !! idx;
  Some (negb (Z.land (Z.shiftr cell offset) 1 =? 0)).

Definition bitmap_set (bitmap : list Z) (index : Z) : option (list Z) :=
  let '(idx, offset) := BITMAP_PARSE_INDEX index in
  cell ← bitmap !! idx;
  Some (<[idx := Z.lor cell (BIT offset)]> bitmap).

Definition bitmap_clear (bitmap : list Z) (index : Z) : option (list Z) :=
  let '(idx, offset) := BITMAP_PARSE_INDEX index in
  cell ← bitmap !! idx;
  Some (<[idx := Z.land cell (wrap 64 (Z.lnot (BIT offset)))]> bitmap).

(** The cast [(BitmapCell * )data] and the bytes behind it. *)
Definition as_cells (l : list Z) : list Z := bytes_words 8 (length l / 8) l.

Definition as_bytes (cells : list Z) : list Z := words_bytes 8 cells.

(** ** Bits of a cell *)

Lemma parse_index_inj i j :
  0 <= i -> 0 <= j -> BITMAP_PARSE_INDEX i = BITMAP_PARSE_INDEX j -> i = j.
Proof.
  unfold BITMAP_PARSE_INDEX, BITMAP_BITS_PER_CELL. intros Hi Hj [= Hd Hm].
  apply Z2Nat.inj in Hd; [|by apply Z.div_pos..].
  rewrite (Z.div_mod i 64), (Z.div_mod j 64) by lia. lia.
Qed.

Lemma parse_offset_bound i : 0 <= (BITMAP_PARSE_INDEX i).2 < 64.
Proof. apply Z.mod_pos_bound. unfold BITMAP_BITS_PER_CELL. lia. Qed.

Lemma BIT_pow2 i : 0 <= i < 64 -> BIT i = 2 ^ i.
Proof.
  intros. unfold BIT. rewrite Z.shiftl_1_l. apply wrap_small.
  split; [lia|]. apply Z.pow_lt_mono_r; lia.
Qed.

Lemma cell_bit_get cell offset :
  0 <= offset -> negb (Z.land (Z.shiftr cell offset) 1 =? 0) = Z.testbit cell offset.
Proof.
  intros Ho. change 1 with (Z.ones 1). rewrite Z.land_ones by lia. change (2 ^ 1) with 2.
  rewrite <- Z.bit0_mod, Z.shiftr_spec, Z.add_0_l by lia. by destruct (Z.testbit cell offset).
Qed.

Lemma testbit_cell_set cell o o' :
  0 <= o < 64 -> 0 <= o' ->
  Z.testbit (Z.lor cell (BIT o)) o' = if decide (o = o') then true else Z.testbit cell o'.
Proof.
  intros Ho Ho'. rewrite Z.lor_spec, BIT_pow2 by done. case_decide.
  - subst. by rewrite Z.pow2_bits_true, orb_true_r by lia.
  - by rewrite Z.pow2_bits_false, orb_false_r by done.
Qed.

Lemma testbit_cell_clear cell o o' :
  0 <= o < 64 -> 0 <= o' < 64 ->
  Z.testbit (Z.land cell (wrap 64 (Z.lnot (BIT o)))) o' =
  if decide (o = o') then false else Z.testbit cell o'.
Proof.
  intros Ho Ho'. unfold wrap. rewrite Z.land_spec, Z.mod_pow2_bits_low by lia.
  rewrite Z.lnot_spec, BIT_pow2 by lia. case_decide.
  - subst. by rewrite Z.pow2_bits_true, andb_false_r by lia.
  - by rewrite Z.pow2_bits_false, andb_true_r by done.
Qed.

Lemma is_cell_lor a b : is_cell a -> is_cell b -> is_cell (Z.lor a b).
Proof.
  unfold is_cell. intros Ha Hb. split; [apply Z.lor_nonneg; lia|].
  destruct (decide (a = 0)) as [->|]; [rewrite Z.lor_0_l; lia|].
  destruct (decide (b = 0)) as [->|]; [rewrite Z.lor_0_r; lia|].
  assert (0 <= Z.lor a b) by (apply Z.lor_nonneg; lia).
  assert (Z.lor a b <> 0) by (rewrite Z.lor_eq_0_iff; lia).
  apply Z.log2_lt_pow2; [lia|]. rewrite Z.log2_lor by lia.
  apply Z.max_lub_lt; apply Z.log2_lt_pow2; lia.
Qed.

Lemma is_cell_land a b : is_cell a -> 0 <= b -> is_cell (Z.land a b).
Proof.
  unfold is_cell. intros Ha Hb. split; [apply Z.land_nonneg; lia|].
  destruct (decide (Z.land a b = 0)) as [->|]; [lia|].
  assert (0 <= Z.land a b) by (apply Z.land_nonneg; lia).
  assert (a <> 0) by (intros ->; by rewrite Z.land_0_l in *).
  apply Z.log2_lt_pow2; [lia|]. eapply Z.le_lt_trans; [apply Z.log2_land; lia|].
  apply Z.min_lt_iff. left. apply Z.log2_lt_pow2; lia.
Qed.

Lemma is_cell_BIT o : is_cell (BIT o).
Proof. apply wrap_bounds. lia. Qed.

(** ** Reading after writing *)

Section operations.
Context (bitmap : list Z) (Hcells : Forall is_cell bitmap).

Lemma bitmap_get_spec i :
  0 <= i -> bitmap_get bitmap i =
  (fun cell => Z.testbit cell (BITMAP_PARSE_INDEX i).2) <$> bitmap !! (BITMAP_PARSE_INDEX i).1.
Proof.
  intros. unfold bitmap_get. pose proof (parse_offset_bound i).
  destruct (BITMAP_PARSE_INDEX i) as [idx o]. simpl in *.
  destruct (bitmap !! idx); simpl; [|done]. rewrite cell_bit_get by lia. done.
Qed.

Lemma bitmap_in_range i :
  0 <= i < BITMAP_BITS_PER_CELL * Z.of_nat (length bitmap) ->
  is_Some (bitmap !! (BITMAP_PARSE_INDEX i).1).
Proof.
  unfold BITMAP_PARSE_INDEX, BITMAP_BITS_PER_CELL. intros Hi. simpl.
  apply lookup_lt_is_Some.
  assert (i / 64 < Z.of_nat (length bitmap)) by (apply Z.div_lt_upper_bound; lia).
  assert (0 <= i / 64) by (apply Z.div_pos; lia). lia.
Qed.

Lemma bitmap_set_get bitmap' i j :
  0 <= i -> 0 <= j -> bitmap_set bitmap i = Some bitmap' ->
  bitmap_get bitmap' j = if decide (i = j) then Some true else bitmap_get bitmap j.
Proof.
  intros Hi Hj Hset. pose proof (parse_offset_bound i). pose proof (parse_offset_bound j).
  unfold bitmap_set in Hset. destruct (BITMAP_PARSE_INDEX i) as [idx o] eqn:Ei.
  destruct (bitmap !! idx) as [cell|] eqn:Ec; [|done]. simpl in Hset, H. simplify_eq.
  unfold bitmap_get. destruct (BITMAP_PARSE_INDEX j) as [jdx o'] eqn:Ej. simpl in H0.
  destruct (decide (idx = jdx)) as [->|Hne].
  - rewrite list_lookup_insert_eq by (by eapply lookup_lt_Some). rewrite Ec. simpl.
    rewrite !cell_bit_get, testbit_cell_set by lia.
    destruct (decide (o = o')) as [->|].
    + rewrite decide_True; [done|]. apply parse_index_inj; congruence.
    + rewrite decide_False; [done|]. intros ->. congruence.
  - rewrite list_lookup_insert_ne by done. rewrite decide_False; [done|].
    intros ->. congruence.
Qed.

Lemma bitmap_clear_get bitmap' i j :
  0 <= i -> 0 <= j -> bitmap_clear bitmap i = Some bitmap' ->
  bitmap_get bitmap' j = if decide (i = j) then Some false else bitmap_get bitmap j.
Proof.
  intros Hi Hj Hset. pose proof (parse_offset_bound i). pose proof (parse_offset_bound j).
  unfold bitmap_clear in Hset. destruct (BITMAP_PARSE_INDEX i) as [idx o] eqn:Ei.
  destruct (bitmap !! idx) as [cell|] eqn:Ec; [|done]. simpl in Hset, H. simplify_eq.
  unfold bitmap_get. destruct (BITMAP_PARSE_INDEX j) as [jdx o'] eqn:Ej. simpl in H0.
  destruct (decide (idx = jdx)) as [->|Hne].
  - rewrite list_lookup_insert_eq by (by eapply lookup_lt_Some). rewrite Ec. simpl.
    rewrite !cell_bit_get, testbit_cell_clear by lia.
    destruct (decide (o = o')) as [->|].
    + rewrite decide_True; [done|]. apply parse_index_inj; congruence.
    + rewrite decide_False; [done|]. intros ->. congruence.
  - rewrite list_lookup_insert_ne by done. rewrite decide_False; [done|].
    intros ->. congruence.
Qed.

(** Both writes keep the array's length and the cells' width. *)
Lemma bitmap_set_wf bitmap' i :
  bitmap_set bitmap i = Some bitmap' ->
  Forall is_cell bitmap' /\ length bitmap' = length bitmap.
Proof.
  unfold bitmap_set. destruct (BITMAP_PARSE_INDEX i) as [idx o].
  destruct (bitmap !! idx) as [cell|] eqn:E; [|done]. simpl. intros ?; simplify_eq.
  split; [|apply length_insert]. apply Forall_insert; [done|].
  apply is_cell_lor; [by eapply Forall_lookup_1|apply is_cell_BIT].
Qed.

Lemma bitmap_clear_wf bitmap' i :
  bitmap_clear bitmap i = Some bitmap' ->
  Forall is_cell bitmap' /\ length bitmap' = length bitmap.
Proof.
  unfold bitmap_clear. destruct (BITMAP_PARSE_INDEX i) as [idx o].
  destruct (bitmap !! idx) as [cell|] eqn:E; [|done]. simpl. intros ?; simplify_eq.
  split; [|apply length_insert]. apply Forall_insert; [done|].
  apply is_cell_land; [by eapply Forall_lookup_1|]. apply wrap_bounds. lia.
Qed.
End operations.

Lemma bitmap_set_is_some bitmap i :
  0 <= i < BITMAP_BITS_PER_CELL * Z.of_nat (length bitmap) -> is_Some (bitmap_set bitmap i).
Proof.
  intros Hi. destruct (bitmap_in_range bitmap i Hi) as [c Hc]. unfold bitmap_set.
  destruct (BITMAP_PARSE_INDEX i). simpl in Hc. rewrite Hc. simpl. eauto.
Qed.

Lemma bitmap_clear_is_some bitmap i :
  0 <= i < BITMAP_BITS_PER_CELL * Z.of_nat (length bitmap) -> is_Some (bitmap_clear bitmap i).
Proof.
  intros Hi. destruct (bitmap_in_range bitmap i Hi) as [c Hc]. unfold bitmap_clear.
  destruct (BITMAP_PARSE_INDEX i). simpl in Hc. rewrite Hc. simpl. eauto.
Qed.

(** ** The byte view *)

Lemma as_cells_spec n l :
  length l = (8 * n)%nat -> Forall is_byte l ->
  length (as_cells l) = n /\ Forall is_cell (as_cells l) /\ as_bytes (as_cells l) = l.
Proof.
  intros Hl Hb. unfold as_cells. rewrite Hl, Nat.mul_comm, Nat.div_mul by lia.
  split_and!; [apply length_bytes_words|apply (bytes_words_word 8); [lia|done]|].
  by apply words_bytes_words.
Qed.

Lemma as_cells_as_bytes cells : Forall is_cell cells -> as_cells (as_bytes cells) = cells.
Proof.
  intros. unfold as_cells, as_bytes. rewrite length_words_bytes, Nat.mul_comm, Nat.div_mul by lia.
  by apply (bytes_words_bytes 8).
Qed.

Lemma as_cells_lookup n l k :
  length l = (8 * n)%nat -> (k < n)%nat -> as_cells l !! k = Some (le_val (slice (8 * k) 8 l)).
Proof.
  intros Hl Hk. unfold as_cells. rewrite Hl, Nat.mul_comm, Nat.div_mul by lia.
  by apply bytes_words_lookup.
Qed.

(** The bit the kernel reads through 64-bit cells is the bit of the byte that
    holds it: [buf[i / 8] & (1 << (i % 8))], the form mkfs writes. *)
Lemma bitmap_get_byte n l i :
  length l = (8 * n)%nat -> Forall is_byte l -> 0 <= i < 64 * Z.of_nat n ->
  bitmap_get (as_cells l) i =
  (fun b => Z.testbit b (i mod 8)) <$> l !! Z.to_nat (i / 8).
Proof.
  intros Hl Hb Hi. rewrite bitmap_get_spec by lia.
  unfold BITMAP_PARSE_INDEX, BITMAP_BITS_PER_CELL. cbn [fst snd].
  assert (0 <= i / 64 < Z.of_nat n).
  { split; [apply Z.div_pos; lia|apply Z.div_lt_upper_bound; lia]. }
  rewrite (as_cells_lookup n) by lia. cbn [fmap option_fmap option_map].
  pose proof (Z.mod_pos_bound i 64). rewrite le_val_testbit by (auto with kernel; lia).
  assert (i / 8 = 8 * (i / 64) + i mod 64 / 8) as E8.
  { rewrite (Z.div_mod i 64) at 1 by lia. replace (64 * (i / 64)) with (8 * (i / 64) * 8) by lia.
    by rewrite Z.div_add_l by lia. }
  assert (i mod 64 mod 8 = i mod 8) as ->.
  { symmetry. rewrite (Z.div_mod i 64) at 1 by lia.
    replace (64 * (i / 64)) with (8 * (i / 64) * 8) by lia.
    by rewrite Z.add_comm, Z_mod_plus_full. }
  assert (0 <= i mod 64 / 8 < 8).
  { split; [apply Z.div_pos; lia|apply Z.div_lt_upper_bound; lia]. }
  rewrite lookup_slice by lia.
  replace (8 * Z.to_nat (i / 64) + Z.to_nat (i mod 64 / 8))%nat with (Z.to_nat (i / 8)) by lia.
  assert (Z.to_nat (i / 8) < length l)%nat as [b Hlk]%lookup_lt_is_Some_2 by lia.
  by rewrite Hlk.
Qed.
