(* ===== verification/FsDefs.v ===== *)
(** On-disk structures of the file system (src/fs/defines.h).

    Each C struct is a record; [encode_*] is its memory image (the bytes that
    [memcpy] moves to and from a block) and [decode_*] reads a record through
    the cast of a byte array. *)
From Stdlib Require Import ZArith Lia.
From stdpp Require Import base numbers list.
From S2P Require Import Prelude Bytes.

Definition BLOCK_SIZE : Z := 512.
(** [(BLOCK_SIZE - sizeof(usize)) / sizeof(usize)]. *)
Definition LOG_MAX_SIZE : Z := (BLOCK_SIZE - 8) / 8.

Definition INODE_NUM_DIRECT : Z := 12.
Definition INODE_NUM_INDIRECT : Z := BLOCK_SIZE / 4.
(** [BLOCK_SIZE / sizeof(InodeEntry)], the struct has 64 bytes. *)
Definition INODE_PER_BLOCK : Z := BLOCK_SIZE / 64.
Definition INODE_MAX_BLOCKS : Z := INODE_NUM_DIRECT + INODE_NUM_INDIRECT.
Definition INODE_MAX_BYTES : Z := INODE_MAX_BLOCKS * BLOCK_SIZE.
Definition FILE_NAME_MAX_LENGTH : Z := 14.

Definition INODE_INVALID : Z := 0.
Definition INODE_DIRECTORY : Z := 1.
Definition INODE_REGULAR : Z := 2.
Definition INODE_DEVICE : Z := 3.
Definition ROOT_INODE_NO : Z := 1.
Definition BIT_PER_BLOCK : Z := BLOCK_SIZE * 8.

(** The contents of a disk block. *)
Definition is_block (d : list Z) : Prop := length d = 512%nat /\ Forall is_byte d.

Definition zero_block : list Z := replicate 512 0.

Record SuperBlock := mkSuperBlock {
  sb_num_blocks : Z;
  sb_num_data_blocks : Z;
  sb_num_inodes : Z;
  sb_num_log_blocks : Z;
  sb_log_start : Z;
  sb_inode_start : Z;
  sb_bitmap_start : Z;
}.

Record InodeEntry := mkInodeEntry {
  ie_type : Z;
  ie_major : Z;
  ie_minor : Z;
  ie_num_links : Z;
  ie_num_bytes : Z;
  ie_addrs : list Z;
  ie_indirect : Z;
}.

Record DirEntry := mkDirEntry {
  de_inode_no : Z;
  de_name : list Z;
}.

Record LogHeader := mkLogHeader {
  h_num_blocks : Z;
  h_block_no : list Z;
}.

(** ** Well-formedness: the width of each field. *)

Definition wf_inode (e : InodeEntry) : Prop :=
  is_word 2 (ie_type e) /\ is_word 2 (ie_major e) /\ is_word 2 (ie_minor e) /\
  is_word 2 (ie_num_links e) /\ is_word 4 (ie_num_bytes e) /\
  length (ie_addrs e) = 12%nat /\ Forall (is_word 4) (ie_addrs e) /\ is_word 4 (ie_indirect e).

Definition wf_dirent (e : DirEntry) : Prop :=
  is_word 2 (de_inode_no e) /\ length (de_name e) = 14%nat /\ Forall is_byte (de_name e).

Definition wf_header (h : LogHeader) : Prop :=
  is_word 8 (h_num_blocks h) /\ length (h_block_no h) = 63%nat /\ Forall (is_word 8) (h_block_no h).

(** ** Memory images *)

Definition encode_super (sb : SuperBlock) : list Z :=
  words_bytes 4 [sb_num_blocks sb; sb_num_data_blocks sb; sb_num_inodes sb;
                 sb_num_log_blocks sb; sb_log_start sb; sb_inode_start sb; sb_bitmap_start sb].

Definition decode_super (l : list Z) : SuperBlock :=
  let f i := le_val (slice (4 * i) 4 l) in
  mkSuperBlock (f 0%nat) (f 1%nat) (f 2%nat) (f 3%nat) (f 4%nat) (f 5%nat) (f 6%nat).

Definition encode_inode (e : InodeEntry) : list Z :=
  le_bytes 2 (ie_type e) ++ le_bytes 2 (ie_major e) ++ le_bytes 2 (ie_minor e) ++
  le_bytes 2 (ie_num_links e) ++ le_bytes 4 (ie_num_bytes e) ++
  words_bytes 4 (ie_addrs e) ++ le_bytes 4 (ie_indirect e).

Definition decode_inode (l : list Z) : InodeEntry :=
  let '(type, l) := get_le 2 l in
  let '(major, l) := get_le 2 l in
  let '(minor, l) := get_le 2 l in
  let '(num_links, l) := get_le 2 l in
  let '(num_bytes, l) := get_le 4 l in
  let addrs := bytes_words 4 12 l in
  let '(indirect, _) := get_le 4 (drop 48 l) in
  mkInodeEntry type major minor num_links num_bytes addrs indirect.

Definition encode_dirent (e : DirEntry) : list Z := le_bytes 2 (de_inode_no e) ++ de_name e.

Definition decode_dirent (l : list Z) : DirEntry :=
  let '(inode_no, l) := get_le 2 l in mkDirEntry inode_no (take 14 l).

Definition encode_header (h : LogHeader) : list Z :=
  le_bytes 8 (h_num_blocks h) ++ words_bytes 8 (h_block_no h).

Definition decode_header (l : list Z) : LogHeader :=
  let '(num_blocks, l) := get_le 8 l in mkLogHeader num_blocks (bytes_words 8 63 l).

(** ** Sizes: [sizeof(InodeEntry) = 64], [sizeof(DirEntry) = 16] and a log
    header fills a block. *)

Lemma length_encode_inode e : wf_inode e -> length (encode_inode e) = 64%nat.
Proof.
  intros (_ & _ & _ & _ & _ & H & _). unfold encode_inode.
  rewrite !length_app, !length_le_bytes, length_words_bytes, H. done.
Qed.

Lemma length_encode_dirent e : wf_dirent e -> length (encode_dirent e) = 16%nat.
Proof.
  intros (_ & H & _). unfold encode_dirent. rewrite length_app, length_le_bytes, H. done.
Qed.

Lemma encode_header_block h : wf_header h -> is_block (encode_header h).
Proof.
  intros (_ & H & _). unfold encode_header, is_block.
  rewrite length_app, length_le_bytes, length_words_bytes, H. split; [done|].
  apply Forall_app. auto with kernel.
Qed.

(** ** Round trips *)

(** Consumes the fields a decoder reads, one [get_le] at a time. *)
Ltac decode_fields :=
  rewrite <- ?app_assoc; repeat (rewrite get_le_app by done; cbn beta iota zeta).

Lemma decode_encode_inode e r : wf_inode e -> decode_inode (encode_inode e ++ r) = e.
Proof.
  destruct e. intros (H1 & H2 & H3 & H4 & H5 & H6 & H7 & H8).
  cbn [ie_type ie_major ie_minor ie_num_links ie_num_bytes ie_addrs ie_indirect] in *.
  unfold decode_inode, encode_inode.
  cbn [ie_type ie_major ie_minor ie_num_links ie_num_bytes ie_addrs ie_indirect].
  decode_fields. rewrite drop_app_length' by (rewrite length_words_bytes; lia).
  decode_fields. rewrite <- H6, bytes_words_app by done. done.
Qed.

Lemma decode_encode_dirent e r : wf_dirent e -> decode_dirent (encode_dirent e ++ r) = e.
Proof.
  destruct e. intros (H1 & H2 & H3). cbn [de_inode_no de_name] in *.
  unfold decode_dirent, encode_dirent. cbn [de_inode_no de_name].
  decode_fields. by rewrite take_app_length'.
Qed.

Lemma decode_encode_header h : wf_header h -> decode_header (encode_header h) = h.
Proof.
  destruct h. intros (H1 & H2 & H3). cbn [h_num_blocks h_block_no] in *.
  unfold decode_header, encode_header. cbn [h_num_blocks h_block_no].
  decode_fields. rewrite <- H2, bytes_words_bytes by done. done.
Qed.

Lemma decode_inode_wf l : Forall is_byte l -> (64 <= length l)%nat -> wf_inode (decode_inode l).
Proof.
  intros Hb Hl.
  assert (forall k l', Forall is_byte l' -> (k <= length l')%nat ->
            is_word k (le_val (take k l'))) as Hw.
  { intros k l' Hb' Hk. pose proof (le_val_bounds _ (Forall_take _ k _ Hb')) as Hv.
    rewrite length_take in Hv. by replace (k `min` length l')%nat with k in Hv by lia. }
  unfold decode_inode, get_le, wf_inode. cbn [ie_type ie_major ie_minor ie_num_links
    ie_num_bytes ie_addrs ie_indirect].
  split_and!; try (apply Hw; [repeat apply Forall_drop; done|rewrite ?length_drop; lia]).
  - apply length_bytes_words.
  - apply bytes_words_word; [rewrite !length_drop; lia|repeat apply Forall_drop; done].
Qed.

Lemma decode_header_wf l : is_block l -> wf_header (decode_header l).
Proof.
  intros [Hl Hb]. unfold decode_header, get_le, wf_header. cbn [h_num_blocks h_block_no].
  split_and!.
  - pose proof (le_val_bounds _ (Forall_take _ 8 _ Hb)) as Hv. rewrite length_take in Hv.
    by replace (8 `min` length l)%nat with 8%nat in Hv by lia.
  - apply length_bytes_words.
  - apply bytes_words_word; [rewrite length_drop; lia|by apply Forall_drop].
Qed.

Lemma decode_dirent_wf l : Forall is_byte l -> (16 <= length l)%nat -> wf_dirent (decode_dirent l).
Proof.
  intros Hb Hl. unfold decode_dirent, get_le, wf_dirent. cbn [de_inode_no de_name].
  split_and!.
  - pose proof (le_val_bounds _ (Forall_take _ 2 _ Hb)) as Hv. rewrite length_take in Hv.
    by replace (2 `min` length l)%nat with 2%nat in Hv by lia.
  - rewrite length_take, length_drop. lia.
  - by apply Forall_take, Forall_drop.
Qed.

Lemma encode_decode_dirent l : Forall is_byte l -> length l = 16%nat -> encode_dirent (decode_dirent l) = l.
Proof.
  intros Hb Hl. unfold encode_dirent, decode_dirent, get_le. cbn [de_inode_no de_name].
  rewrite <- (take_drop 2 l) at 3. f_equal.
  - rewrite <- (le_bytes_val (take 2 l)) at 2 by (by apply Forall_take). rewrite length_take, Hl. done.
  - apply take_ge. rewrite length_drop. lia.
Qed.

Lemma zero_block_block : is_block zero_block.
Proof. split; [done|]. apply Forall_replicate. unfold is_byte. lia. Qed.

#[export] Hint Resolve encode_header_block decode_header_wf decode_inode_wf decode_dirent_wf
  zero_block_block : kernel.
