(* ===== verification/Sync.v ===== *)
(** Reference counts, spinlocks and semaphores
    (src/common/rc.c, src/common/spinlock.c, src/common/sem.c).

    The sleep list of a semaphore is the list of waiting processes from
    [sleeplist.next] to [sleeplist.prev]; [_insert_into_list] puts a new waiter
    in front and [_post_sem] takes the last one. *)
From Stdlib Require Import ZArith Lia.
From stdpp Require Import base numbers gmap relations list.
From S2P Require Import Prelude.

(** * Reference counts *)
Module Rc.

(** [RefCount]: an [i64], changed by atomic read-modify-write. *)
Definition i64 (v : Z) : Z := wrap 64 (v + 2 ^ 63) - 2 ^ 63.

Definition init_rc : Z := 0.
Definition increment_rc (count : Z) : Z := i64 (count + 1).
Definition decrement_rc (count : Z) : bool * Z :=
  let r := i64 (count - 1) in (r <=? 0, r).

Lemma i64_small v : - 2 ^ 63 <= v < 2 ^ 63 -> i64 v = v.
Proof. intros. unfold i64. rewrite wrap_small; lia. Qed.

End Rc.

(** * Spinlocks *)
Module Spin.

(** Where a cpu is in [acquire_spinlock]: outside, between the plain read of
    [locked] and the [__atomic_test_and_set], or past it. *)
Inductive pc := Outside | SawFree | Holding.
#[global] Instance pc_eq_dec : EqDecision pc.
Proof. solve_decision. Defined.

Record config := mkConfig { locked : bool; cpu : nat -> pc }.

Definition set_pc (c : nat) (p : pc) (f : nat -> pc) : nat -> pc :=
  fun c' => if decide (c' = c) then p else f c'.

Definition init_spinlock : config := mkConfig false (fun _ => Outside).

(** One atomic action of one cpu. *)
Inductive step : config -> config -> Prop :=
| step_read_free c s :
    cpu s c = Outside -> locked s = false -> step s (mkConfig (locked s) (set_pc c SawFree (cpu s)))
| step_read_busy c s :
    cpu s c = Outside -> locked s = true -> step s s
| step_tas_won c s :
    cpu s c = SawFree -> locked s = false -> step s (mkConfig true (set_pc c Holding (cpu s)))
| step_tas_lost c s :
    cpu s c = SawFree -> locked s = true -> step s (mkConfig true (set_pc c Outside (cpu s)))
| step_release c s :
    cpu s c = Holding -> step s (mkConfig false (set_pc c Outside (cpu s))).

Definition reachable (s : config) : Prop := rtc step init_spinlock s.

Definition inv (s : config) : Prop :=
  (forall c, cpu s c = Holding -> locked s = true) /\
  (forall c c', cpu s c = Holding -> cpu s c' = Holding -> c = c').

Lemma spin_inv_step s s' : inv s -> step s s' -> inv s'.
Proof.
  intros [Hl Hu] Hs. destruct Hs as [c s Hc Hf|c s Hc Hf|c s Hc Hf|c s Hc Hf|c s Hc];
    split; unfold set_pc; simpl; intros; repeat case_decide; subst; try done;
    try (exfalso; pose proof (Hl _ ltac:(eassumption)); congruence); eauto.
Qed.

Lemma spin_inv_reachable s : reachable s -> inv s.
Proof.
  unfold reachable. intros H.
  assert (inv init_spinlock) as Hi by (split; done).
  revert Hi. induction H as [|s1 s2 s3 Hs _ IH]; eauto using spin_inv_step.
Qed.

End Spin.

(** * Semaphores *)
Module Sem.

Abbreviation proc := Z (only parsing).

(** The value is an [int]: an operation whose result is not [is_int] is undefined
    in C. The operations below compute it exactly; [step] keeps to the range. *)
Definition is_int (v : Z) : Prop := - 2 ^ 31 <= v < 2 ^ 31.

Record Semaphore := mkSem { val : Z; sleeplist : list proc }.
#[global] Instance Semaphore_eq_dec : EqDecision Semaphore.
Proof. solve_decision. Defined.

Definition init_sem (v : Z) : Semaphore := mkSem v [].

Definition _get_sem (sem : Semaphore) : bool * Semaphore :=
  if 0 <? val sem then (true, mkSem (val sem - 1) (sleeplist sem)) else (false, sem).

Definition _query_sem (sem : Semaphore) : Z := val sem.

Definition get_all_sem (sem : Semaphore) : Z * Semaphore :=
  if 0 <? val sem then (val sem, mkSem 0 (sleeplist sem)) else (0, sem).

(** [_post_sem]: the woken process, if any; [None] when the assertion that the
    sleep list is not empty fails. *)
Definition _post_sem (sem : Semaphore) : option (option proc * Semaphore) :=
  let v := val sem + 1 in
  if v <=? 0 then
    w ← last (sleeplist sem);
    Some (Some w, mkSem v (removelast (sleeplist sem)))
  else Some (None, mkSem v (sleeplist sem)).

(** [_wait_sem] up to [sched]: [true] when the caller got the semaphore and
    returns, [false] when it is on the sleep list and gives up the cpu. *)
Definition _wait_sem_enter (p : proc) (sem : Semaphore) : bool * Semaphore :=
  let v := val sem - 1 in
  if 0 <=? v then (true, mkSem v (sleeplist sem))
  else (false, mkSem v (p :: sleeplist sem)).

(** [_wait_sem] after [sched] returned: [up] is [wait->up]. [None] is the
    failed [ASSERT(++sem->val <= 0)]. *)
Definition _wait_sem_leave (p : proc) (up : bool) (sem : Semaphore) : option (bool * Semaphore) :=
  if up then Some (true, sem)
  else
    let v := val sem + 1 in
    if v <=? 0 then Some (false, mkSem v (list_difference (sleeplist sem) [p])) else None.

(** [post_all_sem]: [do _post_sem, ret++ while (!_get_sem)]. The result lists
    the woken processes in order. *)
Fixpoint post_all_loop (fuel : nat) (ret : Z) (woken : list proc) (sem : Semaphore) :
    option (Z * list proc * Semaphore) :=
  match fuel with
  | O => None
  | S fuel' =>
      '(w, sem1) ← _post_sem sem;
      let woken' := woken ++ option_list w in
      match _get_sem sem1 with
      | (true, sem2) => Some (ret + 1, woken', sem2)
      | (false, sem2) => post_all_loop fuel' (ret + 1) woken' sem2
      end
  end.

Definition post_all_sem (sem : Semaphore) : option (Z * list proc * Semaphore) :=
  post_all_loop (S (length (sleeplist sem))) (-1) [] sem.

(** The value counts the sleepers when it is negative. *)
Definition wf (sem : Semaphore) : Prop :=
  Z.of_nat (length (sleeplist sem)) = Z.max 0 (- val sem).

Lemma post_sem_spec sem :
  wf sem ->
  exists w sem', _post_sem sem = Some (w, sem') /\ wf sem' /\ val sem' = val sem + 1 /\
    sleeplist sem = sleeplist sem' ++ option_list w /\ (w = None <-> 0 <= val sem).
Proof.
  destruct sem as [v sl]. unfold wf, _post_sem. simpl. intros Hwf.
  destruct (Z.leb_spec (v + 1) 0).
  - destruct sl as [|x sl'] using rev_ind; [simpl in *; lia|]. clear IHsl'.
    rewrite last_snoc, removelast_last. simpl.
    eexists _, _. split; [done|]. rewrite length_app in Hwf. simpl in *.
    split_and!; [lia|lia|done|naive_solver lia].
  - exists None, (mkSem (v + 1) sl). simpl. split_and!; [done|lia|lia|by rewrite app_nil_r|].
    split; [lia|done].
Qed.

Lemma post_all_loop_spec fuel : forall ret woken sem,
  wf sem -> (length (sleeplist sem) < fuel)%nat ->
  post_all_loop fuel ret woken sem =
  Some (ret + 1 + Z.of_nat (length (sleeplist sem)), woken ++ rev (sleeplist sem),
        mkSem (Z.max 0 (val sem)) []).
Proof.
  induction fuel as [|fuel IH]; intros ret woken sem Hwf Hf; [lia|].
  destruct (post_sem_spec sem Hwf) as (w & sem1 & Hp & Hwf1 & Hv & Hsl & Hw).
  cbn [post_all_loop]. rewrite Hp. simpl. unfold _get_sem. rewrite Hv.
  destruct (Z.ltb_spec 0 (val sem + 1)).
  - assert (w = None) as -> by (apply Hw; lia). simpl in *. rewrite app_nil_r in *.
    unfold wf in Hwf. assert (sleeplist sem = []) as Hnil by (apply nil_length_inv; lia).
    rewrite Hnil in *. destruct sem1 as [v1 sl1]. simpl in *. subst sl1 v1.
    rewrite app_nil_r. f_equal. f_equal; f_equal; lia.
  - destruct w as [p|]; [|exfalso; assert (0 <= val sem) by (by apply Hw); lia].
    simpl in *. rewrite Hsl in *. rewrite length_app in Hf. simpl in Hf.
    rewrite IH by (done || lia). rewrite length_app, rev_app_distr. simpl.
    rewrite <- app_assoc. simpl. f_equal. f_equal; f_equal; lia.
Qed.

(** ** The semaphore under concurrent processes

    A process runs, sleeps in [sched], or has been made runnable again and
    will finish [_wait_sem] with the value of [wait->up]. *)
Inductive status := Runs | Sleeps (alertable : bool) | Wakes (up : bool).
#[global] Instance status_eq_dec : EqDecision status.
Proof. solve_decision. Defined.

(** [posts] and [granted] are history variables: the calls of [_post_sem] and
    the waits that were or will be answered with [true]. *)
Record config := mkConfig {
  sem : Semaphore;
  stat : proc -> status;
  posts : nat;
  granted : nat;
}.

Definition set_stat (p : proc) (x : status) (f : proc -> status) : proc -> status :=
  fun q => if decide (q = p) then x else f q.

Definition init (v : Z) : config := mkConfig (init_sem v) (fun _ => Runs) 0 0.

(** A killed process does not sleep, whether alertable or not: [sched] returns at
    once and [_wait_sem] goes on with [wait->up] still false. *)
Inductive step : config -> config -> Prop :=
| step_wait_now p c s' :
    stat c p = Runs -> _wait_sem_enter p (sem c) = (true, s') ->
    step c (mkConfig s' (stat c) (posts c) (S (granted c)))
| step_wait_sleep p al c s' :
    stat c p = Runs -> is_int (val (sem c) - 1) -> _wait_sem_enter p (sem c) = (false, s') ->
    step c (mkConfig s' (set_stat p (Sleeps al) (stat c)) (posts c) (granted c))
| step_wait_killed p c s' :
    stat c p = Runs -> is_int (val (sem c) - 1) -> _wait_sem_enter p (sem c) = (false, s') ->
    step c (mkConfig s' (set_stat p (Wakes false) (stat c)) (posts c) (granted c))
| step_get c s' :
    _get_sem (sem c) = (true, s') ->
    step c (mkConfig s' (stat c) (posts c) (S (granted c)))
| step_get_all c n s' :
    get_all_sem (sem c) = (n, s') ->
    step c (mkConfig s' (stat c) (posts c) (granted c + Z.to_nat n))
| step_post c s' :
    is_int (val (sem c) + 1) -> _post_sem (sem c) = Some (None, s') ->
    step c (mkConfig s' (stat c) (S (posts c)) (granted c))
| step_post_wake p c s' :
    _post_sem (sem c) = Some (Some p, s') ->
    step c (mkConfig s' (set_stat p (Wakes true) (stat c)) (S (posts c)) (S (granted c)))
| step_alert p c :
    stat c p = Sleeps true ->
    step c (mkConfig (sem c) (set_stat p (Wakes false) (stat c)) (posts c) (granted c))
| step_leave p up c r s' :
    stat c p = Wakes up -> _wait_sem_leave p up (sem c) = Some (r, s') ->
    step c (mkConfig s' (set_stat p Runs (stat c)) (posts c) (granted c)).

Definition reachable (v : Z) (c : config) : Prop := rtc step (init v) c.

Definition waiting (x : status) : bool :=
  match x with Runs => false | Sleeps _ => true | Wakes up => negb up end.

Definition inv (v : Z) (c : config) : Prop :=
  wf (sem c) /\ is_int (val (sem c)) /\ NoDup (sleeplist (sem c)) /\
  (forall p, p ∈ sleeplist (sem c) <-> waiting (stat c p) = true) /\
  v + Z.of_nat (posts c) = Z.of_nat (granted c) + Z.max 0 (val (sem c)).

Lemma sem_inv_init v : 0 <= v < 2 ^ 31 -> inv v (init v).
Proof.
  intros. split_and!; simpl; [unfold wf; simpl; lia|unfold is_int; lia|constructor| |lia].
  intros p. split; [inversion 1|done].
Qed.

Lemma list_difference_one (p : proc) (sl : list proc) :
  NoDup sl -> p ∈ sl ->
  S (length (list_difference sl [p])) = length sl /\ NoDup (list_difference sl [p]) /\
  forall q, q ∈ list_difference sl [p] <-> q ∈ sl /\ q <> p.
Proof.
  intros Hnd Hin.
  assert (forall q, q ∈ list_difference sl [p] <-> q ∈ sl /\ q <> p) as Hq.
  { intros q. rewrite list_elem_of_difference, list_elem_of_singleton. done. }
  assert (NoDup (list_difference sl [p])) as Hnd' by by apply NoDup_list_difference.
  split_and!; [|done|done].
  symmetry. apply (Permutation_length (l' := p :: list_difference sl [p])).
  apply NoDup_Permutation; [done|constructor; [rewrite Hq; naive_solver|done]|].
  intros q. rewrite elem_of_cons, Hq. destruct (decide (q = p)); naive_solver.
Qed.

(** A process that goes on the sleep list, asleep or not. *)
Lemma sem_inv_enter v c p x s' :
  inv v c -> stat c p = Runs -> is_int (val (sem c) - 1) -> _wait_sem_enter p (sem c) = (false, s') -> waiting x = true ->
  inv v (mkConfig s' (set_stat p x (stat c)) (posts c) (granted c)).
Proof.
  intros (Hwf & Hi & Hnd & Hw & Hc) Hr Hb He Hx. unfold _wait_sem_enter in He. destruct (Z.leb_spec 0 (val (sem c) - 1)); simplify_eq.
  unfold inv, wf, is_int in *. simpl. split_and!; [lia|lia|lia| | |lia].
  - constructor; [|done]. intros Hin%Hw. by rewrite Hr in Hin.
  - intros q. rewrite elem_of_cons, Hw. unfold set_stat. case_decide; naive_solver.
Qed.

Lemma sem_inv_step v c c' : inv v c -> step c c' -> inv v c'.
Proof.
  intros (Hwf & Hi & Hnd & Hw & Hc) Hs.
  destruct Hs as [p c s' Hr He|p al c s' Hr Hb He|p c s' Hr Hb He|c s' Hg|c n s' Hg|c s' Hb Hp|p c s' Hp|p c Ha|p up c r s' Hu Hl];
    unfold inv; simpl.
  - unfold _wait_sem_enter in He. destruct (Z.leb_spec 0 (val (sem c) - 1)); simplify_eq.
    unfold wf, is_int in *. simpl. split_and!; done || lia.
  - by apply (sem_inv_enter _ c p).
  - by apply (sem_inv_enter _ c p).
  - unfold _get_sem in Hg. destruct (Z.ltb_spec 0 (val (sem c))); simplify_eq.
    unfold wf, is_int in *. simpl. split_and!; done || lia.
  - unfold get_all_sem in Hg. destruct (Z.ltb_spec 0 (val (sem c))); simplify_eq;
      unfold wf, is_int in *; simpl; split_and!; done || lia.
  - destruct (post_sem_spec _ Hwf) as (w & s1 & Hp' & Hwf' & Hv & Hsl & Hn). simplify_eq.
    simpl in Hsl. rewrite app_nil_r in Hsl. rewrite <- Hsl, Hv. assert (0 <= val (sem c)) by (by apply Hn).
    split_and!; [done|done|done|done|lia].
  - destruct (post_sem_spec _ Hwf) as (w & s1 & Hp' & Hwf' & Hv & Hsl & Hn). simplify_eq.
    assert (~ 0 <= val (sem c)) by (rewrite <- Hn; done).
    simpl in Hsl. rewrite Hsl in Hnd, Hw. apply NoDup_app in Hnd as (Hnd1 & Hd & _). rewrite Hv. unfold is_int in *.
    split_and!; [done|lia|lia|done| |lia].
    intros q. specialize (Hw q). rewrite elem_of_app, list_elem_of_singleton in Hw.
    unfold set_stat. case_decide; [|naive_solver]. subst. split; [|done].
    intros Hq. apply Hd in Hq. rewrite list_elem_of_singleton in Hq. done.
  - split_and!; [done|done|done| |done]. intros q. rewrite Hw. unfold set_stat.
    case_decide; [|done]. subst. by rewrite Ha.
  - destruct up; unfold _wait_sem_leave in Hl.
    + simplify_eq. split_and!; [done|done|done| |done]. intros q. rewrite Hw. unfold set_stat.
      case_decide; [|done]. subst. by rewrite Hu.
    + destruct (Z.leb_spec (val (sem c) + 1) 0); simplify_eq. simpl.
      assert (p ∈ sleeplist (sem c)) as Hin by (apply Hw; by rewrite Hu).
      destruct (list_difference_one p _ Hnd Hin) as (Hlen & Hnd' & Hq).
      unfold wf, is_int in *. simpl. split_and!; [lia|lia|lia|done| |lia].
      intros q. rewrite Hq, Hw. unfold set_stat. case_decide; naive_solver.
Qed.

Lemma sem_inv_reachable v c : 0 <= v < 2 ^ 31 -> reachable v c -> inv v c.
Proof.
  intros Hv H. pose proof (sem_inv_init v Hv) as Hi. unfold reachable in H.
  revert Hi. induction H as [|c1 c2 c3 Hs _ IH]; eauto using sem_inv_step.
Qed.

End Sem.

(** * Properties *)

(** Mutual exclusion. Whatever the interleaving of [acquire_spinlock] and
    [release_spinlock] on any number of cpus (the plain read and the
    test-and-set are separate steps), at most one cpu is past the acquire, and
    the lock word is set while it is. *)
Theorem spinlock_mutual_exclusion s c c' :
  Spin.reachable s -> Spin.cpu s c = Spin.Holding -> Spin.cpu s c' = Spin.Holding ->
  c = c' /\ Spin.locked s = true.
Proof. intros [Hl Hu]%Spin.spin_inv_reachable Hc Hc'. eauto. Qed.

Lemma spinlock_mutual_exclusion_witness :
  0%nat = 0%nat /\ Spin.locked (Spin.mkConfig true
    (Spin.set_pc 0 Spin.Holding (Spin.set_pc 0 Spin.SawFree (fun _ => Spin.Outside)))) = true.
Proof.
  apply (spinlock_mutual_exclusion _ 0 0); [|reflexivity|reflexivity].
  eapply rtc_l; [apply (Spin.step_read_free 0); reflexivity|].
  eapply rtc_l; [apply (Spin.step_tas_won 0); reflexivity|]. apply rtc_refl.
Defined.



(** the assertions of sem.c hold in every interleaving: [_post_sem] finds a
    sleeper whenever the counter says so, and a process that wakes up without
    having been posted finds the counter negative. *)
Theorem semaphore_assertions v c :
  0 <= v < 2 ^ 31 -> Sem.reachable v c ->
  is_Some (Sem._post_sem (Sem.sem c)) /\
  forall p up, Sem.stat c p = Sem.Wakes up -> is_Some (Sem._wait_sem_leave p up (Sem.sem c)).
Proof.
  intros Hv (Hwf & _ & Hnd & Hw & Hc)%Sem.sem_inv_reachable; [|done]. split.
  - destruct (Sem.post_sem_spec _ Hwf) as (w & s' & E & _). by rewrite E.
  - intros p [] Hp; unfold Sem._wait_sem_leave; [done|].
    assert (p ∈ Sem.sleeplist (Sem.sem c)) as Hin by (apply Hw; by rewrite Hp).
    destruct (Sem.sleeplist (Sem.sem c)) as [|x l] eqn:E; [by apply elem_of_nil in Hin|].
    unfold Sem.wf in Hwf. rewrite E in Hwf. simpl in Hwf.
    rewrite (proj2 (Z.leb_le _ 0)) by lia. done.
Qed.

Lemma semaphore_assertions_witness :
  let c := Sem.mkConfig (Sem.mkSem (-1) [5]) (Sem.set_stat 5 (Sem.Wakes false)
             (Sem.set_stat 5 (Sem.Sleeps true) (fun _ => Sem.Runs))) 0 0 in
  is_Some (Sem._post_sem (Sem.sem c)) /\
  forall p up, Sem.stat c p = Sem.Wakes up -> is_Some (Sem._wait_sem_leave p up (Sem.sem c)).
Proof.
  intros c. apply (semaphore_assertions 0 c); [lia|].
  eapply rtc_l; [by apply (Sem.step_wait_sleep 5 true (Sem.init 0) (Sem.mkSem (-1) [5]))|].
  apply rtc_once.
  apply (Sem.step_alert 5 (Sem.mkConfig (Sem.mkSem (-1) [5])
    (Sem.set_stat 5 (Sem.Sleeps true) (fun _ => Sem.Runs)) 0 0)). reflexivity.
Defined.

(** [post_all_sem] returns, wakes every sleeper in the order in which they
    went to sleep, reports how many, and leaves a counter that was positive as
    it was and any other at zero. *)
Theorem post_all_wakes_all sem :
  Sem.wf sem ->
  Sem.post_all_sem sem =
  Some (Z.of_nat (length (Sem.sleeplist sem)), rev (Sem.sleeplist sem),
        Sem.mkSem (Z.max 0 (Sem.val sem)) []).
Proof.
  intros Hwf. unfold Sem.post_all_sem. rewrite Sem.post_all_loop_spec by (done || lia).
  simpl. by rewrite Z.add_0_l.
Qed.

Lemma post_all_wakes_all_witness :
  Sem.post_all_sem (Sem.mkSem (-2) [8; 3]) = Some (2, [3; 8], Sem.mkSem 0 []).
Proof. apply (post_all_wakes_all (Sem.mkSem (-2) [8; 3])). reflexivity. Defined.
