(* ===== verification/Cache.v ===== *)
(** The block cache and its write-ahead log (src/fs/cache.c, src/fs/cache.h).

    The state is what cache.c keeps in static variables, plus the block device
    and the [OpContext]s of the operations in progress. A [Block *] is the
    address [kalloc] returned; a pointer to a block that was evicted and freed
    has no block behind it and its use is [Undefined]. The blocks are listed in
    ring order from [head.next]. Sleeping operations run to completion or end
    in [Blocked]: this is one thread of the kernel between two of its calls. *)
From Stdlib Require Import ZArith Lia.
From stdpp Require Import base numbers gmap list.
From S2P Require Import Prelude Bytes Bitmap Sync FsDefs.
Import Sem.

Definition OP_MAX_NUM_BLOCKS : Z := 10.
Definition EVICTION_THRESHOLD : Z := 20.

Record Block := mkBlock {
  b_addr : Z;
  b_block_no : Z;
  b_acquired : bool;
  b_pinned : bool;
  b_lock : Semaphore;
  b_valid : bool;
  b_data : list Z;
}.
#[export] Instance Block_eq_dec : EqDecision Block.
Proof. solve_decision. Defined.

(** The device: its contents at boot and every block write since, oldest
    first. A crash keeps a prefix of the writes. *)
Record Device := mkDevice { dev_disk0 : Z -> list Z; dev_writes : list (Z * list Z) }.

Definition disk_write (d : Z -> list Z) (w : Z * list Z) : Z -> list Z :=
  fun b => if b =? w.1 then w.2 else d b.

Definition apply_writes (d : Z -> list Z) (ws : list (Z * list Z)) : Z -> list Z :=
  foldl disk_write d ws.

Definition dev_disk (dev : Device) : Z -> list Z := apply_writes (dev_disk0 dev) (dev_writes dev).

Record CacheState := mkCache {
  c_lock : bool;
  c_log_lock : bool;
  c_bitmap_lock : bool;
  c_blocks : list Block;
  c_header : LogHeader;
  c_block_num : Z;
  c_outstanding : Z;
  c_log_sem : Semaphore;
  c_ops : gmap Z Z;
  c_dev : Device;
  c_next : Z;
}.

Definition c_disk (s : CacheState) : Z -> list Z := dev_disk (c_dev s).

(** ** Assignments to the static variables *)

Definition set_lock (v : bool) (s : CacheState) : CacheState :=
  mkCache v (c_log_lock s) (c_bitmap_lock s) (c_blocks s) (c_header s) (c_block_num s)
    (c_outstanding s) (c_log_sem s) (c_ops s) (c_dev s) (c_next s).
Definition set_log_lock (v : bool) (s : CacheState) : CacheState :=
  mkCache (c_lock s) v (c_bitmap_lock s) (c_blocks s) (c_header s) (c_block_num s)
    (c_outstanding s) (c_log_sem s) (c_ops s) (c_dev s) (c_next s).
Definition set_bitmap_lock (v : bool) (s : CacheState) : CacheState :=
  mkCache (c_lock s) (c_log_lock s) v (c_blocks s) (c_header s) (c_block_num s)
    (c_outstanding s) (c_log_sem s) (c_ops s) (c_dev s) (c_next s).
Definition set_blocks (v : list Block) (s : CacheState) : CacheState :=
  mkCache (c_lock s) (c_log_lock s) (c_bitmap_lock s) v (c_header s) (c_block_num s)
    (c_outstanding s) (c_log_sem s) (c_ops s) (c_dev s) (c_next s).
Definition set_header (v : LogHeader) (s : CacheState) : CacheState :=
  mkCache (c_lock s) (c_log_lock s) (c_bitmap_lock s) (c_blocks s) v (c_block_num s)
    (c_outstanding s) (c_log_sem s) (c_ops s) (c_dev s) (c_next s).
Definition set_block_num (v : Z) (s : CacheState) : CacheState :=
  mkCache (c_lock s) (c_log_lock s) (c_bitmap_lock s) (c_blocks s) (c_header s) v
    (c_outstanding s) (c_log_sem s) (c_ops s) (c_dev s) (c_next s).
Definition set_outstanding (v : Z) (s : CacheState) : CacheState :=
  mkCache (c_lock s) (c_log_lock s) (c_bitmap_lock s) (c_blocks s) (c_header s) (c_block_num s)
    v (c_log_sem s) (c_ops s) (c_dev s) (c_next s).
Definition set_log_sem (v : Semaphore) (s : CacheState) : CacheState :=
  mkCache (c_lock s) (c_log_lock s) (c_bitmap_lock s) (c_blocks s) (c_header s) (c_block_num s)
    (c_outstanding s) v (c_ops s) (c_dev s) (c_next s).
Definition set_ops (v : gmap Z Z) (s : CacheState) : CacheState :=
  mkCache (c_lock s) (c_log_lock s) (c_bitmap_lock s) (c_blocks s) (c_header s) (c_block_num s)
    (c_outstanding s) (c_log_sem s) v (c_dev s) (c_next s).
Definition set_dev (v : Device) (s : CacheState) : CacheState :=
  mkCache (c_lock s) (c_log_lock s) (c_bitmap_lock s) (c_blocks s) (c_header s) (c_block_num s)
    (c_outstanding s) (c_log_sem s) (c_ops s) v (c_next s).
Definition set_next (v : Z) (s : CacheState) : CacheState :=
  mkCache (c_lock s) (c_log_lock s) (c_bitmap_lock s) (c_blocks s) (c_header s) (c_block_num s)
    (c_outstanding s) (c_log_sem s) (c_ops s) (c_dev s) v.

(** ** Locks and semaphores of this file *)

(** [acquire_spinlock] spins for ever when the caller already holds the lock. *)
Definition acquire_spinlock (get : CacheState -> bool) (set : bool -> CacheState -> CacheState) :
    M CacheState unit := fun s => if get s then Blocked s else Done tt (set true s).
Definition release_spinlock (set : bool -> CacheState -> CacheState) : M CacheState unit :=
  modify (set false).

Definition lock : M CacheState unit := acquire_spinlock c_lock set_lock.
Definition unlock : M CacheState unit := release_spinlock set_lock.
Definition log_lock : M CacheState unit := acquire_spinlock c_log_lock set_log_lock.
Definition log_unlock : M CacheState unit := release_spinlock set_log_lock.
Definition bitmap_lock : M CacheState unit := acquire_spinlock c_bitmap_lock set_bitmap_lock.
Definition bitmap_unlock : M CacheState unit := release_spinlock set_bitmap_lock.

(** ** Blocks behind pointers *)

Definition find_no (b : Z) (l : list Block) : option Block := List.find (fun blk => b_block_no blk =? b) l.
Definition find_addr (p : Z) (l : list Block) : option Block := List.find (fun blk => b_addr blk =? p) l.

Definition block_at (p : Z) : M CacheState Block :=
  s ← get_state; deref (find_addr p (c_blocks s)).

Definition update_at (p : Z) (f : Block -> Block) : M CacheState unit :=
  _ ← block_at p;
  modify (fun s => set_blocks (update_key b_addr p f (c_blocks s)) s).

Definition set_acquired (v : bool) (b : Block) : Block :=
  mkBlock (b_addr b) (b_block_no b) v (b_pinned b) (b_lock b) (b_valid b) (b_data b).
Definition set_pinned (v : bool) (b : Block) : Block :=
  mkBlock (b_addr b) (b_block_no b) (b_acquired b) v (b_lock b) (b_valid b) (b_data b).
Definition set_block_lock (v : Semaphore) (b : Block) : Block :=
  mkBlock (b_addr b) (b_block_no b) (b_acquired b) (b_pinned b) v (b_valid b) (b_data b).
Definition set_data (v : list Z) (b : Block) : Block :=
  mkBlock (b_addr b) (b_block_no b) (b_acquired b) (b_pinned b) (b_lock b) (b_valid b) v.

(** [block->data] read and written through the pointer. *)
Definition block_data (p : Z) : M CacheState (list Z) := blk ← block_at p; mret (b_data blk).
Definition block_store (p : Z) (d : list Z) : M CacheState unit := update_at p (set_data d).

(** [wait_sem(&block->lock)]: the thread sleeps when another holder exists. *)
Definition wait_block (p : Z) : M CacheState unit :=
  blk ← block_at p;
  match _wait_sem_enter 0 (b_lock blk) with
  | (true, sem) => update_at p (set_block_lock sem)
  | (false, sem) => update_at p (set_block_lock sem) ;; sleep
  end.

Definition post_block (p : Z) : M CacheState unit :=
  blk ← block_at p;
  match _post_sem (b_lock blk) with
  | Some (_, sem) => update_at p (set_block_lock sem)
  | None => PANIC
  end.

(** ** Device access *)

Definition device_read_no (b : Z) : M CacheState (list Z) := gets (fun s => c_disk s b).
Definition device_write_no (b : Z) (d : list Z) : M CacheState unit :=
  modify (fun s => set_dev (mkDevice (dev_disk0 (c_dev s)) (dev_writes (c_dev s) ++ [(b, d)])) s).

Definition device_write (p : Z) : M CacheState unit :=
  blk ← block_at p; device_write_no (b_block_no blk) (b_data blk).

Section cache.
Variable sblock : SuperBlock.

Definition read_header : M CacheState unit :=
  d ← device_read_no (sb_log_start sblock); modify (set_header (decode_header d)).

Definition write_header : M CacheState unit :=
  s ← get_state; device_write_no (sb_log_start sblock) (encode_header (c_header s)).

Definition init_block (addr : Z) : Block :=
  mkBlock addr 0 false false (init_sem 1) false (replicate 512 0).

Definition get_num_cached_blocks : M CacheState Z := gets c_block_num.

(** [manage_block_num]: from [head.prev] towards the head, drop blocks nobody
    uses while there are too many. [evict] works on the reversed ring. *)
Fixpoint evict (ring : list Block) (n : Z) : list Block * Z :=
  match ring with
  | [] => ([], n)
  | blk :: ring' =>
      if EVICTION_THRESHOLD <=? n then
        if negb (b_acquired blk) && negb (b_pinned blk) then evict ring' (n - 1)
        else let '(r, n') := evict ring' n in (blk :: r, n')
      else (ring, n)
  end.

Definition manage_block_num : M CacheState unit :=
  modify (fun s =>
    let '(r, n) := evict (rev (c_blocks s)) (c_block_num s) in
    set_block_num n (set_blocks (rev r) s)).

(** [kalloc(sizeof(Block))]: memory not in use. *)
Definition kalloc_block : M CacheState Z :=
  s ← get_state; modify (set_next (c_next s + 1)) ;; mret (c_next s).

(** [_detach_from_list] then [_insert_into_list(&head, .)]. *)
Definition move_to_front (p : Z) : M CacheState unit :=
  blk ← block_at p;
  modify (fun s => set_blocks
    (blk :: List.filter (fun x => negb (b_addr x =? p)) (c_blocks s)) s).

Definition cache_acquire (block_no : Z) : M CacheState Z :=
  lock ;;
  s ← get_state;
  match find_no block_no (c_blocks s) with
  | Some blk =>
      let p := b_addr blk in
      update_at p (set_acquired true) ;;
      unlock ;;
      wait_block p ;;
      lock ;;
      move_to_front p ;;
      unlock ;;
      mret p
  | None =>
      manage_block_num ;;
      p ← kalloc_block;
      let blk := init_block p in
      (* wait_sem on the fresh lock, then the fields *)
      match _wait_sem_enter 0 (b_lock blk) with
      | (true, sem) =>
          modify (fun s => set_block_num (c_block_num s + 1) s) ;;
          unlock ;;
          d ← device_read_no block_no;
          lock ;;
          modify (fun s => set_blocks
            (mkBlock p block_no true (b_pinned blk) sem true d :: c_blocks s) s) ;;
          unlock ;;
          mret p
      | (false, _) => sleep
      end
  end.

Definition cache_release (p : Z) : M CacheState unit :=
  lock ;;
  update_at p (set_acquired false) ;;
  post_block p ;;
  unlock.

(** The loop of [cache_begin_op]; a round that finds the log too full waits on
    [log_sem], and goes on only while the semaphore has units left. *)
Fixpoint begin_wait (fuel : nat) : M CacheState unit :=
  s ← get_state;
  if LOG_MAX_SIZE <=? u64 (h_num_blocks (c_header s) + (c_outstanding s + 1) * OP_MAX_NUM_BLOCKS) then
    log_unlock ;;
    match _wait_sem_enter 0 (c_log_sem s), fuel with
    | (true, sem), S fuel' => modify (set_log_sem sem) ;; log_lock ;; begin_wait fuel'
    | (_, sem), _ => modify (set_log_sem sem) ;; sleep
    end
  else mret tt.

Definition cache_begin_op (ctx : Z) : M CacheState unit :=
  log_lock ;;
  modify (fun s => set_ops (<[ctx := OP_MAX_NUM_BLOCKS]> (c_ops s)) s) ;;
  s ← get_state;
  begin_wait (Z.to_nat (val (c_log_sem s))) ;;
  modify (fun s => set_outstanding (c_outstanding s + 1) s) ;;
  log_unlock.

(** [header.block_no[i]]. *)
Definition header_entry (i : Z) : M CacheState Z :=
  s ← get_state; deref (h_block_no (c_header s) !! Z.to_nat i).

(** [cache_sync]; [ctx = 0] is the null context. *)
Definition cache_sync (ctx p : Z) : M CacheState unit :=
  if ctx =? 0 then device_write p
  else
    log_lock ;;
    update_at p (set_pinned true) ;;
    blk ← block_at p;
    s ← get_state;
    exist ← for_loop (Z.to_nat (h_num_blocks (c_header s))) 0 (fun i =>
      x ← header_entry i;
      mret (if b_block_no blk =? x then Some tt else None));
    match exist with
    | Some _ => mret tt
    | None =>
        let n := h_num_blocks (c_header s) in
        _ ← header_entry n;
        modify (set_header (mkLogHeader (n + 1)
          (<[Z.to_nat n := b_block_no blk]> (h_block_no (c_header s))))) ;;
        rm ← deref (c_ops s !! ctx);
        (if (rm <=? 0) || (LOG_MAX_SIZE <=? n + 1) then PANIC else mret tt) ;;
        modify (fun s => set_ops (<[ctx := rm - 1]> (c_ops s)) s)
    end ;;
    log_unlock.

Definition copy_block (from_block_no to_block_no : Z) : M CacheState unit :=
  from ← cache_acquire from_block_no;
  to ← cache_acquire to_block_no;
  d ← block_data from;
  block_store to d ;;
  device_write to ;;
  cache_release from ;;
  cache_release to.

Definition post_log_sem : M CacheState unit :=
  s ← get_state;
  match _post_sem (c_log_sem s) with
  | Some (_, sem) => modify (set_log_sem sem)
  | None => PANIC
  end.

Definition post_all_log_sem : M CacheState unit :=
  s ← get_state;
  match post_all_sem (c_log_sem s) with
  | Some (_, _, sem) => modify (set_log_sem sem)
  | None => PANIC
  end.

(** One round of the install loop of [cache_end_op]. *)
Definition install_block (i : Z) : M CacheState unit :=
  b ← header_entry i;
  p ← cache_acquire b;
  log_unlock ;;
  device_write p ;;
  log_lock ;;
  update_at p (set_pinned false) ;;
  cache_release p.

Definition cache_end_op (ctx : Z) : M CacheState unit :=
  log_lock ;;
  (* the caller's context ends here *)
  modify (fun s => set_ops (delete ctx (c_ops s)) s) ;;
  modify (fun s => set_outstanding (c_outstanding s - 1) s) ;;
  s ← get_state;
  if 0 <? c_outstanding s then post_log_sem ;; log_unlock
  else
    for_each (Z.to_nat (h_num_blocks (c_header s))) 0 (fun i =>
      b ← header_entry i; copy_block b (sb_log_start sblock + i + 1)) ;;
    write_header ;;
    for_each (Z.to_nat (h_num_blocks (c_header s))) 0 install_block ;;
    modify (fun s => set_header (mkLogHeader 0 (h_block_no (c_header s))) s) ;;
    write_header ;;
    post_all_log_sem ;;
    log_unlock.

(** [memset(header.block_no, 0, LOG_MAX_SIZE)] clears [LOG_MAX_SIZE] bytes of
    the array. *)
Definition memset_block_no (h : LogHeader) : LogHeader :=
  mkLogHeader (h_num_blocks h)
    (bytes_words 8 63 (splice (words_bytes 8 (h_block_no h)) 0
                         (replicate (Z.to_nat LOG_MAX_SIZE) 0))).

Definition init_bcache : M CacheState unit :=
  modify (set_block_num 0) ;;
  unlock ;; bitmap_unlock ;;
  modify (set_log_sem (init_sem 0)) ;; log_unlock ;;
  modify (set_outstanding 0) ;; modify (set_blocks []) ;;
  read_header ;;
  s ← get_state;
  for_each (Z.to_nat (h_num_blocks (c_header s))) 0 (fun i =>
    b ← header_entry i; copy_block (sb_log_start sblock + i + 1) b) ;;
  modify (fun s => set_header (mkLogHeader 0 (h_block_no (c_header s))) s) ;;
  modify (fun s => set_header (memset_block_no (c_header s)) s) ;;
  write_header.

(** [cache_alloc]; [None] at the end of the scan is its [PANIC()]. *)
Definition cache_alloc (ctx : Z) : M CacheState Z :=
  bitmap_lock ;;
  p ← cache_acquire (sb_bitmap_start sblock);
  r ← for_loop (Z.to_nat (sb_num_blocks sblock)) 0 (fun i =>
    d ← block_data p;
    used ← deref (bitmap_get (as_cells d) i);
    if (used : bool) then mret None
    else
      cells ← deref (bitmap_set (as_cells d) i);
      block_store p (as_bytes cells) ;;
      cache_sync ctx p ;;
      cache_release p ;;
      q ← cache_acquire i;
      block_store q zero_block ;;
      cache_sync ctx q ;;
      cache_release q ;;
      bitmap_unlock ;;
      mret (Some i));
  match r with
  | Some i => mret i
  | None => cache_release p ;; bitmap_unlock ;; PANIC
  end.

Definition cache_free (ctx block_no : Z) : M CacheState unit :=
  bitmap_lock ;;
  p ← cache_acquire (sb_bitmap_start sblock);
  d ← block_data p;
  cells ← deref (bitmap_clear (as_cells d) block_no);
  block_store p (as_bytes cells) ;;
  cache_sync ctx p ;;
  cache_release p ;;
  bitmap_unlock.
End cache.
