(* ===== verification/CacheLaws.v ===== *)
(** The invariant of the block cache and what each of its operations does to
    the contents a client sees (src/fs/cache.c).

    [view s b] is the contents of block [b] for the callers of the cache: the
    cached copy, or the disk's. Every operation is specified by its effect on
    [view], on the set of pinned blocks and on the device. *)
From Stdlib Require Import ZArith Lia.
From stdpp Require Import base numbers gmap sets list.
From S2P Require Import Prelude Bytes Bitmap Sync FsDefs Cache.
Import Sem.

Definition view (s : CacheState) (b : Z) : list Z :=
  match find_no b (c_blocks s) with
  | Some blk => b_data blk
  | None => c_disk s b
  end.

(** Block [b] is cached at address [p]. *)
Definition holds (s : CacheState) (p b : Z) : Prop :=
  exists blk, blk ∈ c_blocks s /\ b_addr blk = p /\ b_block_no blk = b.

Definition pinned (s : CacheState) (b : Z) : Prop :=
  exists blk, blk ∈ c_blocks s /\ b_block_no blk = b /\ b_pinned blk = true.

(** What the cache operations below the log leave alone. *)
Definition frame (s s' : CacheState) : Prop :=
  c_log_lock s' = c_log_lock s /\ c_bitmap_lock s' = c_bitmap_lock s /\
  c_header s' = c_header s /\ c_outstanding s' = c_outstanding s /\
  c_log_sem s' = c_log_sem s /\ c_ops s' = c_ops s.

#[export] Instance frame_preorder : PreOrder frame.
Proof. unfold frame. split; [intros ?|intros ???]; naive_solver congruence. Qed.

Section laws.
Context (sblock : SuperBlock).
Abbreviation log_start := (sb_log_start sblock).

(** A cached block; [hs] are the addresses of the blocks that are acquired.
    A block that is neither pinned nor acquired equals the disk's. *)
Record blk_ok (hs : gset Z) (next : Z) (disk : Z -> list Z) (blk : Block) : Prop := {
  ok_data : is_block (b_data blk);
  ok_acquired : b_acquired blk = bool_decide (b_addr blk ∈ hs);
  ok_lock : b_lock blk = mkSem (if bool_decide (b_addr blk ∈ hs) then 0 else 1) [];
  ok_fresh : b_addr blk < next;
  ok_no : b_block_no blk <> log_start;
  ok_clean : b_pinned blk = false -> b_addr blk ∉ hs -> b_data blk = disk (b_block_no blk);
}.

Record cinv (hs : gset Z) (s : CacheState) : Prop := {
  inv_no : NoDup (map b_block_no (c_blocks s));
  inv_addr : NoDup (map b_addr (c_blocks s));
  inv_num : c_block_num s = Z.of_nat (length (c_blocks s));
  inv_blk : forall blk, blk ∈ c_blocks s -> blk_ok hs (c_next s) (c_disk s) blk;
  inv_disk : forall b, is_block (c_disk s b);
  inv_held : forall q, q ∈ hs -> q < c_next s;
}.

Definition inv (hs : gset Z) (s : CacheState) : Prop := cinv hs s /\ c_lock s = false.

(** ** Cached blocks as a map *)

Lemma view_cached s blk :
  NoDup (map b_block_no (c_blocks s)) -> blk ∈ c_blocks s -> view s (b_block_no blk) = b_data blk.
Proof.
  intros Hnd Hin. unfold view.
  assert (find_no (b_block_no blk) (c_blocks s) = Some blk) as ->; [|done].
  by apply find_key_Some.
Qed.

Lemma view_uncached s b :
  (forall blk, blk ∈ c_blocks s -> b_block_no blk <> b) -> view s b = c_disk s b.
Proof. intros H. unfold view, find_no. by rewrite (proj2 (find_key_None _ _ _) H). Qed.

(** Two states with the same blocks up to changes that keep [view]. *)
Lemma view_ext s s' b :
  NoDup (map b_block_no (c_blocks s)) -> NoDup (map b_block_no (c_blocks s')) ->
  (forall blk, blk ∈ c_blocks s -> b_block_no blk = b -> (exists blk', blk' ∈ c_blocks s' /\
     b_block_no blk' = b /\ b_data blk' = b_data blk) \/
     ((forall blk', blk' ∈ c_blocks s' -> b_block_no blk' <> b) /\ b_data blk = c_disk s' b)) ->
  ((forall blk, blk ∈ c_blocks s -> b_block_no blk <> b) ->
     forall blk', blk' ∈ c_blocks s' -> b_block_no blk' = b -> b_data blk' = c_disk s b) ->
  ((forall blk, blk ∈ c_blocks s -> b_block_no blk <> b) -> c_disk s' b = c_disk s b) ->
  view s' b = view s b.
Proof.
  intros Hnd Hnd' H1 H2 H3. unfold view at 2.
  destruct (find_no b (c_blocks s)) as [blk|] eqn:E.
  - apply find_key_elem in E as [Hin Hb].
    destruct (H1 _ Hin Hb) as [(blk' & Hin' & Hb' & Hd)|[Hnone Hd]].
    + rewrite <- Hb'. by rewrite view_cached.
    + rewrite view_uncached; done.
  - pose proof (proj1 (find_key_None _ _ _) E) as Hn.
    unfold view. destruct (find_no b (c_blocks s')) as [blk'|] eqn:E'.
    + apply find_key_elem in E' as [Hin' Hb']. by apply H2.
    + by apply H3.
Qed.

Lemma holds_find s p b :
  NoDup (map b_addr (c_blocks s)) -> holds s p b ->
  exists blk, find_addr p (c_blocks s) = Some blk /\ blk ∈ c_blocks s /\
    b_addr blk = p /\ b_block_no blk = b.
Proof.
  intros Hnd (blk & Hin & Ha & Hb). exists blk. split_and!; try done. by apply find_key_Some.
Qed.

Lemma holds_fresh hs s p b : cinv hs s -> holds s p b -> p < c_next s.
Proof. intros Hi (blk & Hin & <- & _). apply (ok_fresh _ _ _ _ (inv_blk _ _ Hi blk Hin)). Qed.

Lemma holds_inj_no hs s p b b' : cinv hs s -> holds s p b -> holds s p b' -> b = b'.
Proof.
  intros Hi H1 H2. apply holds_find in H1 as (x & Hx & _ & _ & <-); [|apply Hi].
  apply holds_find in H2 as (y & Hy & _ & _ & <-); [|apply Hi]. congruence.
Qed.

Lemma holds_inj_addr hs s p q b : cinv hs s -> holds s p b -> holds s q b -> p = q.
Proof.
  intros Hi (x & Hx & <- & Hb) (y & Hy & <- & Hb'). subst.
  assert (find_no (b_block_no x) (c_blocks s) = Some x) as E1
    by (apply find_key_Some; [apply Hi|done]).
  assert (find_no (b_block_no x) (c_blocks s) = Some y) as E2
    by (apply find_key_Some; [apply Hi|done]).
  congruence.
Qed.

Lemma wp_block_at hs s p b Q :
  cinv hs s -> holds s p b ->
  (forall blk, blk ∈ c_blocks s -> b_addr blk = p -> b_block_no blk = b ->
     b_data blk = view s b -> Q blk s) ->
  wp (block_at p) Q s.
Proof.
  intros Hi Hh HQ. destruct (holds_find s p b) as (blk & E & Hin & Ha & Hb); [apply Hi|done|].
  unfold block_at. wp_step. wp_step. eapply wp_deref; [done|]. apply HQ; auto.
  rewrite <- Hb, view_cached; [done|apply Hi|done].
Qed.

(** ** Field updates through a pointer *)

Section update.
Context (f : Block -> Block).
Context (Hfa : forall x, b_addr (f x) = b_addr x) (Hfn : forall x, b_block_no (f x) = b_block_no x).

Definition upd (p : Z) (s : CacheState) : CacheState :=
  set_blocks (update_key b_addr p f (c_blocks s)) s.

Lemma wp_update_at hs s p b Q :
  cinv hs s -> holds s p b -> Q tt (upd p s) -> wp (update_at p f) Q s.
Proof.
  intros Hi Hh HQ. unfold update_at. wp_step. eapply wp_block_at; eauto.
Qed.

Lemma upd_cinv hs hs' s p :
  cinv hs s ->
  (forall x, x ∈ c_blocks s -> b_addr x = p -> blk_ok hs' (c_next s) (c_disk s) (f x)) ->
  (forall q, q <> p -> q ∈ hs' <-> q ∈ hs) ->
  p < c_next s ->
  cinv hs' (upd p s).
Proof.
  intros Hi Hx Hq Hp. split; simpl.
  - assert (map b_block_no (update_key b_addr p f (c_blocks s)) = map b_block_no (c_blocks s)) as ->.
    { unfold update_key. rewrite map_map. apply map_ext. intros x. by destruct (b_addr x =? p). }
    apply Hi.
  - rewrite map_key_update by done. apply Hi.
  - unfold update_key. rewrite length_map. apply Hi.
  - intros blk [[Hin Hne]|(y & Hin & Ha & ->)]%elem_of_update_key; [|by apply Hx].
    pose proof (inv_blk _ _ Hi blk Hin) as [H1 H2 H3 H4 H5 H6].
    assert (bool_decide (b_addr blk ∈ hs') = bool_decide (b_addr blk ∈ hs)) as E
      by (apply bool_decide_ext; auto).
    split; rewrite ?E; auto. intros Hpin Hn. apply H6; [done|]. by rewrite <- Hq.
  - apply Hi.
  - intros q Hq'. destruct (decide (q = p)) as [->|]; [done|].
    apply (inv_held _ _ Hi). by apply Hq.
Qed.

Lemma upd_holds s p q b : holds (upd p s) q b <-> holds s q b.
Proof.
  unfold holds. simpl. split.
  - intros (x & [[Hin Hne]|(y & Hin & Ha & ->)]%elem_of_update_key & Hq & Hb); [by eauto|].
    exists y. rewrite <- Hfa, <- Hfn. auto.
  - intros (x & Hin & Hq & Hb). destruct (decide (b_addr x = p)).
    + exists (f x). rewrite Hfa, Hfn. split_and!; auto. apply elem_of_update_key. eauto.
    + exists x. split_and!; auto. apply elem_of_update_key. eauto.
Qed.

Lemma upd_frame p s : frame s (upd p s).
Proof. by unfold frame. Qed.

Lemma upd_view hs s p b b' :
  cinv hs s -> holds s p b ->
  view (upd p s) b' =
  if decide (b' = b) then match find_addr p (c_blocks s) with
                          | Some blk => b_data (f blk)
                          | None => []
                          end
  else view s b'.
Proof.
  intros Hi Hh. pose proof Hh as Hh'.
  apply holds_find in Hh as (blk & E & Hin & Ha & Hb); [|apply Hi].
  assert (NoDup (map b_block_no (update_key b_addr p f (c_blocks s)))) as Hnd.
  { replace (map b_block_no _) with (map b_block_no (c_blocks s)); [apply Hi|].
    unfold update_key. rewrite map_map. apply map_ext. intros x. by destruct (b_addr x =? p). }
  assert (forall x, x ∈ c_blocks s -> b_addr x = p -> x = blk) as Huniq.
  { intros x Hx Hxa. assert (find_addr p (c_blocks s) = Some x)
      by (apply find_key_Some; [apply Hi|done]). congruence. }
  rewrite E. case_decide.
  - subst b'. rewrite <- Hb, <- Hfn, <- (view_cached (upd p s) (f blk)); [done|done|].
    apply elem_of_update_key. eauto.
  - unfold view, upd. simpl.
    destruct (find_no b' (c_blocks s)) as [x|] eqn:Ex.
    + apply find_key_elem in Ex as [Hx Hxb].
      assert (find_no b' (update_key b_addr p f (c_blocks s)) = Some x) as ->; [|done].
      apply find_key_Some; [done|]. split; [|done]. apply elem_of_update_key. left.
      split; [done|]. intros Hxp. apply Huniq in Hxp; [|done]. congruence.
    + assert (find_no b' (update_key b_addr p f (c_blocks s)) = None) as ->; [|done].
      pose proof (proj1 (find_key_None _ _ _) Ex) as Hn. apply find_key_None.
      intros y [[Hy Hne]|(z & Hz & Hzp & ->)]%elem_of_update_key; [by apply Hn|].
      rewrite Hfn. by apply Hn.
Qed.

Lemma upd_pinned hs s p b b' :
  cinv hs s -> holds s p b ->
  pinned (upd p s) b' <->
  if decide (b' = b) then exists blk, find_addr p (c_blocks s) = Some blk /\ b_pinned (f blk) = true
  else pinned s b'.
Proof.
  intros Hi Hh. apply holds_find in Hh as (blk & E & Hin & Ha & Hb); [|apply Hi].
  assert (forall x, x ∈ c_blocks s -> b_addr x = p -> x = blk) as Huniq.
  { intros x Hx Hxa. assert (find_addr p (c_blocks s) = Some x)
      by (apply find_key_Some; [apply Hi|done]). congruence. }
  assert (forall x, x ∈ c_blocks s -> b_block_no x = b -> x = blk) as Huniq'.
  { intros x Hx Hxb. assert (find_no b (c_blocks s) = Some x)
      by (apply find_key_Some; [apply Hi|done]).
    assert (find_no b (c_blocks s) = Some blk)
      by (apply find_key_Some; [apply Hi|done]). congruence. }
  unfold pinned. simpl. case_decide.
  - subst b'. split.
    + intros (x & [[Hx Hne]|(y & Hy & Hyp & ->)]%elem_of_update_key & Hxb & Hp).
      * apply Huniq' in Hxb; [|done]. congruence.
      * apply Huniq in Hyp; [|done]. subst. eauto.
    + intros (x & Ex & Hp). assert (x = blk) as -> by congruence. exists (f blk). rewrite Hfn. split_and!; auto.
      apply elem_of_update_key. eauto.
  - split.
    + intros (x & [[Hx Hne]|(y & Hy & Hyp & ->)]%elem_of_update_key & Hxb & Hp); [by eauto|].
      apply Huniq in Hyp; [|done]. subst. rewrite Hfn in *. done.
    + intros (x & Hx & Hxb & Hp). exists x. split_and!; auto. apply elem_of_update_key. left.
      split; [done|]. intros Hxp. apply Huniq in Hxp; [|done]. congruence.
Qed.
End update.

(** ** The operations below the log *)

Lemma wp_block_data hs s p b Q :
  cinv hs s -> holds s p b -> Q (view s b) s -> wp (block_data p) Q s.
Proof.
  intros Hi Hh HQ. unfold block_data. wp_step. eapply wp_block_at; eauto.
  intros blk _ _ _ E. wp_step. by rewrite E.
Qed.

(** [memcpy(block->data, d, BLOCK_SIZE)] on an acquired block. *)
Lemma wp_block_store hs s p b d Q :
  cinv hs s -> p ∈ hs -> holds s p b -> is_block d ->
  (forall s', cinv hs s' -> frame s s' -> c_lock s' = c_lock s -> c_dev s' = c_dev s ->
     (forall b', view s' b' = if decide (b' = b) then d else view s b') ->
     (forall q b', holds s' q b' <-> holds s q b') ->
     (forall b', pinned s' b' <-> pinned s b') -> Q tt s') ->
  wp (block_store p d) Q s.
Proof.
  intros Hi Hp Hh Hd HQ. unfold block_store.
  eapply (wp_update_at _ hs); eauto.
  pose proof Hh as (blk & E & Hin & Ha & Hb)%holds_find; [|apply Hi].
  apply HQ; try done.
  - eapply upd_cinv; eauto using holds_fresh. intros x Hx Hxp.
    destruct (inv_blk _ _ Hi x Hx). split; simpl; auto.
    intros _ Hn. by rewrite Hxp in Hn.
  - intros b'. rewrite (upd_view (set_data d) (fun _ => eq_refl) hs _ _ b) by eauto. by rewrite E.
  - intros q b'. by apply upd_holds.
  - intros b'. rewrite (upd_pinned (set_data d) (fun _ => eq_refl) hs _ _ b) by eauto.
    case_decide; [|done]. subst b'. simpl. split.
    + intros (x & Hx & Hpx). exists x. apply find_key_elem in Hx as [Hx Hxp].
      split_and!; auto. assert (x = blk) as ->; [|done].
      assert (find_addr p (c_blocks s) = Some x) by (apply find_key_Some; [apply Hi|done]).
      congruence.
    + intros (x & Hx & Hxb & Hpx). exists x. split; [|done].
      apply find_key_Some; [apply Hi|]. split; [done|].
      eapply (holds_inj_addr hs); eauto. by exists x.
Qed.

(** Changing the pin of an acquired block, or pinning any block. *)
Lemma wp_set_pinned hs s p b v Q :
  cinv hs s -> holds s p b -> (v = true \/ p ∈ hs) ->
  (forall s', cinv hs s' -> frame s s' -> c_lock s' = c_lock s -> c_dev s' = c_dev s ->
     (forall b', view s' b' = view s b') ->
     (forall q b', holds s' q b' <-> holds s q b') ->
     (forall b', pinned s' b' <-> if decide (b' = b) then v = true else pinned s b') -> Q tt s') ->
  wp (update_at p (set_pinned v)) Q s.
Proof.
  intros Hi Hh Hv HQ. eapply (wp_update_at _ hs); eauto.
  pose proof Hh as (blk & E & Hin & Ha & Hb)%holds_find; [|apply Hi].
  apply HQ; try done.
  - eapply upd_cinv; eauto using holds_fresh. intros x Hx Hxp.
    destruct (inv_blk _ _ Hi x Hx). split; simpl; auto.
    intros -> Hn. destruct Hv; [done|]. by rewrite Hxp in Hn.
  - intros b'. rewrite (upd_view (set_pinned v) (fun _ => eq_refl) hs _ _ b) by eauto. rewrite E.
    case_decide; [|done]. subst. simpl. symmetry. apply view_cached; [apply Hi|done].
  - intros q b'. by apply upd_holds.
  - intros b'. rewrite (upd_pinned (set_pinned v) (fun _ => eq_refl) hs _ _ b) by eauto.
    case_decide; [|done]. simpl. rewrite E. naive_solver.
Qed.

Lemma dev_write_disk dev b d b' :
  dev_disk (mkDevice (dev_disk0 dev) (dev_writes dev ++ [(b, d)])) b' =
  if decide (b' = b) then d else dev_disk dev b'.
Proof.
  unfold dev_disk, apply_writes. simpl. rewrite foldl_app. simpl. unfold disk_write at 1. simpl.
  case_decide; [by rewrite (proj2 (Z.eqb_eq _ _))|by rewrite (proj2 (Z.eqb_neq _ _))].
Qed.

Definition push_write (s : CacheState) (b : Z) (d : list Z) : Device :=
  mkDevice (dev_disk0 (c_dev s)) (dev_writes (c_dev s) ++ [(b, d)]).

(** Writing an acquired block to the device: no client sees a change. *)
Lemma wp_device_write hs s p b Q :
  cinv hs s -> p ∈ hs -> holds s p b ->
  (forall s', cinv hs s' -> frame s s' -> c_lock s' = c_lock s ->
     c_dev s' = push_write s b (view s b) ->
     (forall b', view s' b' = view s b') ->
     (forall q b', holds s' q b' <-> holds s q b') ->
     (forall b', pinned s' b' <-> pinned s b') -> Q tt s') ->
  wp (device_write p) Q s.
Proof.
  intros Hi Hp Hh HQ. unfold device_write. wp_step. eapply wp_block_at; eauto.
  intros blk Hin Ha Hb Hd. unfold device_write_no. wp_step. rewrite Hb, Hd.
  assert (forall b', c_disk (set_dev (push_write s b (view s b)) s) b' =
            if decide (b' = b) then view s b else c_disk s b') as Hdisk
    by (intros b'; apply dev_write_disk).
  apply HQ; try done.
  - split; simpl; try apply Hi.
    + intros x Hx. destruct (inv_blk _ _ Hi x Hx). split; auto.
      intros Hpx Hnx. rewrite Hdisk. destruct (decide (b_block_no x = b)); [|auto]. exfalso. apply Hnx.
      assert (b_addr x = p) as ->; [|done]. eapply (holds_inj_addr hs); eauto. by exists x.
    + intros b'. rewrite Hdisk. case_decide; [|apply Hi]. rewrite <- Hd. by apply (inv_blk _ _ Hi).
  - intros b'. unfold view at 1. simpl. destruct (find_no b' (c_blocks s)) as [x|] eqn:E.
    + unfold view. by rewrite E.
    + rewrite Hdisk. case_decide; [by subst|]. unfold view. by rewrite E.
Qed.

(** Writing a block that is never cached, the log header. *)
Lemma wp_write_log_start hs s d Q :
  cinv hs s -> is_block d ->
  (forall s', cinv hs s' -> frame s s' -> c_lock s' = c_lock s ->
     c_dev s' = push_write s log_start d ->
     (forall b', view s' b' = if decide (b' = log_start) then d else view s b') ->
     (forall q b', holds s' q b' <-> holds s q b') ->
     (forall b', pinned s' b' <-> pinned s b') -> Q tt s') ->
  wp (device_write_no log_start d) Q s.
Proof.
  intros Hi Hd HQ. unfold device_write_no. wp_step.
  assert (forall b', c_disk (set_dev (push_write s log_start d) s) b' =
            if decide (b' = log_start) then d else c_disk s b') as Hdisk
    by (intros b'; apply dev_write_disk).
  apply HQ; try done.
  - split; simpl; try apply Hi.
    + intros x Hx. destruct (inv_blk _ _ Hi x Hx). split; auto.
      intros Hpx Hnx. rewrite Hdisk. rewrite decide_False by done. auto.
    + intros b'. rewrite Hdisk. case_decide; [done|apply Hi].
  - intros b'. unfold view at 1. simpl. destruct (find_no b' (c_blocks s)) as [x|] eqn:E.
    + apply find_key_elem in E as E'. destruct E' as [Hx <-].
      rewrite decide_False by apply (ok_no _ _ _ _ (inv_blk _ _ Hi x Hx)).
      unfold view. by rewrite E.
    + rewrite Hdisk. case_decide; [done|]. unfold view. by rewrite E.
Qed.

(** [post_block] on an acquired block that [set_acquired false] has marked. *)
Definition released (b : Block) : Block := set_block_lock (mkSem 1 []) (set_acquired false b).
Definition taken (b : Block) : Block := set_block_lock (mkSem 0 []) (set_acquired true b).

Lemma upd_upd f g p s :
  (forall x, b_addr (f x) = b_addr x) -> upd g p (upd f p s) = upd (fun x => g (f x)) p s.
Proof. intros Hf. unfold upd. simpl. by rewrite update_key_compose. Qed.

Lemma find_addr_upd f p s :
  (forall x, b_addr (f x) = b_addr x) ->
  find_addr p (c_blocks (upd f p s)) = f <$> find_addr p (c_blocks s).
Proof. intros Hf. unfold upd. simpl. by apply find_update_key. Qed.

Lemma wp_update_at' f s p blk Q :
  find_addr p (c_blocks s) = Some blk -> Q tt (upd f p s) -> wp (update_at p f) Q s.
Proof. intros E HQ. unfold update_at, block_at. wp_step. wp_step. wp_step. by eapply wp_deref. Qed.

Lemma wp_lock s Q : c_lock s = false -> Q tt (set_lock true s) -> wp lock Q s.
Proof. intros E HQ. unfold wp, lock, acquire_spinlock. by rewrite E. Qed.

Lemma wp_unlock s Q : Q tt (set_lock false s) -> wp unlock Q s.
Proof. done. Qed.

Lemma wp_cache_release hs s p b Q :
  inv hs s -> p ∈ hs -> holds s p b -> (pinned s b \/ view s b = c_disk s b) ->
  (forall s', inv (hs ∖ {[p]}) s' -> frame s s' -> c_dev s' = c_dev s ->
     (forall b', view s' b' = view s b') ->
     (forall q b', holds s' q b' <-> holds s q b') ->
     (forall b', pinned s' b' <-> pinned s b') -> Q tt s') ->
  wp (cache_release p) Q s.
Proof.
  intros [Hi Hl] Hp Hh Hc HQ.
  pose proof Hh as (blk & E & Hin & Ha & Hb)%holds_find; [|apply Hi].
  pose proof (ok_lock _ _ _ _ (inv_blk _ _ Hi blk Hin)) as Hlk.
  rewrite Ha, bool_decide_eq_true_2 in Hlk by done.
  unfold cache_release. wp_step. apply wp_lock; [done|]. wp_step.
  eapply (wp_update_at' (set_acquired false)); [exact E|]. wp_step.
  unfold post_block, block_at. do 3 wp_step. eapply wp_deref.
  { rewrite find_addr_upd by done. cbn [c_blocks set_lock]. by rewrite E. }
  simpl. rewrite Hlk. simpl. eapply (wp_update_at' (set_block_lock _)).
  { rewrite find_addr_upd by done. cbn [c_blocks set_lock]. by rewrite E. }
  rewrite upd_upd by done. apply wp_unlock.
  change (Q tt (set_lock false (upd released p (set_lock true s)))).
  assert (cinv hs (set_lock true s)) as Hi' by (destruct Hi; by split).
  assert (holds (set_lock true s) p b) as Hh' by done.
  assert (E' : find_addr p (c_blocks (set_lock true s)) = Some blk) by done.
  apply HQ; try done.
  - split; [|done]. cut (cinv (hs ∖ {[p]}) (upd released p (set_lock true s))).
    { intros []. by split. }
    eapply upd_cinv; [done|done|exact Hi'| |set_solver|by eapply holds_fresh].
    intros x Hx Hxp. destruct (inv_blk _ _ Hi x Hx).
    assert (bool_decide (b_addr x ∈ hs ∖ {[p]}) = false) as Eb
      by (apply bool_decide_eq_false_2; set_solver).
    split; simpl; rewrite ?Eb; auto. intros Hpx _.
    assert (x = blk) as ->.
    { assert (find_addr p (c_blocks s) = Some x) by (apply find_key_Some; [apply Hi|done]). congruence. }
    destruct Hc as [(y & Hy & Hyb & Hyp)|Hc].
    + assert (y = blk) as ->; [|congruence].
      assert (find_no b (c_blocks s) = Some y) by (apply find_key_Some; [apply Hi|done]).
      assert (find_no b (c_blocks s) = Some blk) by (apply find_key_Some; [apply Hi|done]).
      congruence.
    + change (c_disk (set_lock true s)) with (c_disk s).
      rewrite Hb, <- Hc, <- Hb. symmetry. apply view_cached; [apply Hi|done].
  - intros b'. change (view (upd released p (set_lock true s)) b' = view (set_lock true s) b').
    rewrite (upd_view released (fun _ => eq_refl) hs _ _ b) by eauto. rewrite E'.
    case_decide; [|done]. subst b'. rewrite <- Hb. by rewrite (view_cached (set_lock true s) blk); [|apply Hi'|].
  - intros q b'. change (holds (upd released p (set_lock true s)) q b' <-> holds (set_lock true s) q b').
    by apply upd_holds.
  - intros b'. change (pinned (upd released p (set_lock true s)) b' <-> pinned (set_lock true s) b').
    rewrite (upd_pinned released (fun _ => eq_refl) hs _ _ b) by eauto. rewrite E'.
    case_decide; [|done]. subst b'. split.
    + intros (x & [= <-] & Hpx). by exists blk.
    + intros (x & Hx & Hxb & Hpx). exists x. split; [|done].
      assert (find_addr p (c_blocks s) = Some x) as <-; [|done].
      apply find_key_Some; [apply Hi|]. split; [done|]. eapply (holds_inj_addr hs); eauto. by exists x.
Qed.

(** *** [cache_acquire] on a cached block *)

Lemma view_blocks s s' :
  c_dev s' = c_dev s -> NoDup (map b_block_no (c_blocks s)) -> c_blocks s' ≡ₚ c_blocks s ->
  forall b, view s' b = view s b.
Proof.
  intros Hd Hnd Hp b.
  assert (NoDup (map b_block_no (c_blocks s'))) as Hnd' by (by rewrite Hp).
  apply view_ext; [done|done| | |].
  - intros blk Hin Hb. left. exists blk. by rewrite Hp.
  - intros Hn blk Hin Hb. rewrite Hp in Hin. by apply Hn in Hin.
  - intros _. unfold c_disk. by rewrite Hd.
Qed.

Lemma cinv_perm hs s l : cinv hs s -> l ≡ₚ c_blocks s -> cinv hs (set_blocks l s).
Proof.
  intros Hi Hp. split; simpl; rewrite ?Hp; try apply Hi.
  intros blk Hin. rewrite Hp in Hin. by apply Hi.
Qed.

Lemma wp_move_to_front hs s p b Q :
  cinv hs s -> holds s p b ->
  (forall l, l ≡ₚ c_blocks s -> Q tt (set_blocks l s)) -> wp (move_to_front p) Q s.
Proof.
  intros Hi Hh HQ. unfold move_to_front. wp_step. eapply wp_block_at; eauto.
  intros blk Hin <- _ _. wp_step. apply HQ. apply filter_key_permutation; [apply Hi|done].
Qed.

(** *** Eviction *)

Lemma evict_spec ring n :
  let '(r, n') := evict ring n in
  r `sublist_of` ring /\ n' - Z.of_nat (length r) = n - Z.of_nat (length ring) /\
  (forall x, x ∈ ring -> b_acquired x = true \/ b_pinned x = true -> x ∈ r).
Proof.
  revert n. induction ring as [|x ring IH]; intros n; simpl.
  - split_and!; [done|lia|done].
  - destruct (EVICTION_THRESHOLD <=? n); [|split_and!; [done|simpl; lia|done]].
    destruct (b_acquired x) eqn:Ea; [|destruct (b_pinned x) eqn:Ep]; simpl.
    + specialize (IH n). destruct (evict ring n) as [r n']. destruct IH as (H1 & H2 & H3).
      split_and!; [by constructor|simpl; lia|]. intros y [->|Hy]%elem_of_cons Hp; [by left|].
      right. by apply H3.
    + specialize (IH n). destruct (evict ring n) as [r n']. destruct IH as (H1 & H2 & H3).
      split_and!; [by constructor|simpl; lia|]. intros y [->|Hy]%elem_of_cons Hp; [by left|].
      right. by apply H3.
    + specialize (IH (n - 1)). destruct (evict ring (n - 1)) as [r n']. destruct IH as (H1 & H2 & H3).
      split_and!; [by constructor|lia|]. intros y [->|Hy]%elem_of_cons Hp; [destruct Hp; congruence|].
      by apply H3.
Qed.

(** Eviction drops blocks that are clean and not in use: no client sees it. *)
Lemma wp_manage_block_num hs s Q :
  cinv hs s ->
  (forall s', cinv hs s' -> frame s s' -> c_lock s' = c_lock s -> c_dev s' = c_dev s ->
     c_next s' = c_next s ->
     (forall blk, blk ∈ c_blocks s' -> blk ∈ c_blocks s) ->
     (forall b, view s' b = view s b) ->
     (forall q b, q ∈ hs -> holds s q b -> holds s' q b) ->
     (forall b, pinned s' b <-> pinned s b) -> Q tt s') ->
  wp manage_block_num Q s.
Proof.
  intros Hi HQ. unfold manage_block_num. wp_step.
  pose proof (evict_spec (rev (c_blocks s)) (c_block_num s)) as Hev.
  destruct (evict (rev (c_blocks s)) (c_block_num s)) as [r n].
  destruct Hev as (Hsub & Hn & Hkeep).
  assert (rev r `sublist_of` c_blocks s) as Hsub'.
  { rewrite <- (rev_involutive (c_blocks s)). by apply sublist_rev. }
  assert (forall x, x ∈ rev r -> x ∈ c_blocks s) as Hin.
  { intros x Hx. eapply sublist_subseteq; eauto. }
  assert (forall x, x ∈ c_blocks s -> b_acquired x = true \/ b_pinned x = true -> x ∈ rev r) as Hk.
  { intros x Hx Hp. apply elem_of_rev, Hkeep; [by apply elem_of_rev|done]. }
  assert (NoDup (map b_block_no (rev r))) as Hnd by (eapply NoDup_map_sublist; [done|apply Hi]).
  apply HQ; try done; simpl.
  - split; simpl.
    + done.
    + eapply NoDup_map_sublist; [done|apply Hi].
    + rewrite length_rev in *. pose proof (inv_num _ _ Hi). lia.
    + intros blk Hblk. apply (inv_blk _ _ Hi). auto.
    + apply Hi.
    + apply Hi.
  - intros b. apply view_ext; try done; [apply Hi| |].
    + intros blk Hblk Hb. simpl. destruct (decide (blk ∈ rev r)); [left; by exists blk|right].
      split.
      * intros blk' Hblk' Hb'. assert (blk' = blk) as ->; [|done].
        assert (find_no b (c_blocks s) = Some blk) by (apply find_key_Some; [apply Hi|done]).
        assert (find_no b (c_blocks s) = Some blk') by (apply find_key_Some; [apply Hi|auto]).
        congruence.
      * destruct (inv_blk _ _ Hi blk Hblk) as [_ Hacq _ _ _ Hcl].
        destruct (b_pinned blk) eqn:Ep; [exfalso; auto|].
        destruct (b_acquired blk) eqn:Ea; [exfalso; auto|].
        symmetry in Hacq. apply bool_decide_eq_false_1 in Hacq.
        rewrite (Hcl eq_refl Hacq). by rewrite Hb.
    + simpl. intros Hnone blk Hblk Hb. apply Hin, Hnone in Hblk. done.
  - intros q b Hq (blk & Hblk & Ha & Hb). exists blk. split_and!; auto. apply Hk; [done|]. left.
    rewrite (ok_acquired _ _ _ _ (inv_blk _ _ Hi blk Hblk)). rewrite Ha. by apply bool_decide_eq_true_2.
  - intros b. split; intros (blk & Hblk & Hb & Hp); exists blk; split_and!; auto.
Qed.

(** *** [cache_acquire] on a block that is read from disk *)

Definition add_block (b : Z) (s : CacheState) : CacheState :=
  set_lock false (set_blocks
    (mkBlock (c_next s) b true false (mkSem 0 []) true (c_disk s b) :: c_blocks s)
    (set_block_num (c_block_num s + 1) (set_next (c_next s + 1) s))).

Lemma add_block_spec hs s b :
  cinv hs s -> b <> log_start -> (forall blk, blk ∈ c_blocks s -> b_block_no blk <> b) ->
  cinv ({[c_next s]} ∪ hs) (add_block b s) /\ holds (add_block b s) (c_next s) b /\
  (forall b', view (add_block b s) b' = view s b') /\
  (forall q b', holds s q b' -> holds (add_block b s) q b') /\
  (forall b', pinned (add_block b s) b' <-> pinned s b').
Proof.
  intros Hi Hb Hnone.
  assert (forall blk, blk ∈ c_blocks s -> b_addr blk < c_next s) as Hfresh
    by (intros blk Hblk; apply (ok_fresh _ _ _ _ (inv_blk _ _ Hi blk Hblk))).
  assert (NoDup (b :: map b_block_no (c_blocks s))) as Hnd.
  { constructor; [|apply Hi]. intros (x & Hx & Hin)%list_elem_of_In%in_map_iff.
    apply (Hnone x); [by apply list_elem_of_In|done]. }
  split_and!.
  - split; simpl.
    + done.
    + constructor; [|apply Hi]. intros (x & Hx & Hin)%list_elem_of_In%in_map_iff.
      apply list_elem_of_In, Hfresh in Hin. lia.
    + pose proof (inv_num _ _ Hi). lia.
    + intros x [->|Hx]%elem_of_cons.
      * split; simpl; auto; [apply Hi|by rewrite bool_decide_eq_true_2 by set_solver
          |by rewrite bool_decide_eq_true_2 by set_solver|lia].
      * pose proof (Hfresh x Hx). destruct (inv_blk _ _ Hi x Hx).
        assert (bool_decide (b_addr x ∈ {[c_next s]} ∪ hs) = bool_decide (b_addr x ∈ hs)) as E.
        { apply bool_decide_ext. rewrite elem_of_union, elem_of_singleton. split; [|by auto].
          intros [?|?]; [lia|done]. }
        split; rewrite ?E; auto; [lia|]. intros Hp Hn. apply ok_clean0; set_solver.
    + apply Hi.
    + intros q [->%elem_of_singleton|Hq]%elem_of_union; [lia|].
      apply (inv_held _ _ Hi) in Hq. lia.
  - eexists. split; [left|done].
  - intros b'. apply view_ext; simpl; [apply Hi|done| | |done].
    + intros blk Hin Hbb. left. exists blk. split_and!; auto. by right.
    + intros Hn blk [->|Hin]%elem_of_cons Hbb; [by simpl in *; subst|].
      by apply Hn in Hin.
  - intros q b' (x & Hx & Hq). exists x. split; [by right|done].
  - intros b'. split.
    + intros (x & [->|Hx]%elem_of_cons & Hxb & Hp); [done|by exists x].
    + intros (x & Hx & Hxb & Hp). exists x. split_and!; auto. by right.
Qed.

(** [cache_acquire]: the caller holds the block with its current contents. *)
Lemma wp_cache_acquire hs s b Q :
  inv hs s -> b <> log_start -> (forall p, holds s p b -> p ∉ hs) ->
  (forall p s', inv ({[p]} ∪ hs) s' -> frame s s' -> c_dev s' = c_dev s -> p ∉ hs ->
     holds s' p b ->
     (forall b', view s' b' = view s b') ->
     (forall q b', q ∈ hs -> holds s q b' -> holds s' q b') ->
     (forall b', pinned s' b' <-> pinned s b') -> Q p s') ->
  wp (cache_acquire b) Q s.
Proof.
  intros [Hi Hl] Hb Hnh HQ. unfold cache_acquire. wp_step. apply wp_lock; [done|]. do 2 wp_step.
  assert (cinv hs (set_lock true s)) as Hi' by (destruct Hi; by split).
  destruct (find_no b (c_blocks (set_lock true s))) as [blk|] eqn:E; simpl in E.
  - (* cached *)
    apply find_key_elem in E as E1. destruct E1 as [Hin Hbb].
    set (p := b_addr blk).
    assert (holds s p b) as Hh by (by exists blk).
    assert (p ∉ hs) as Hp by auto.
    assert (find_addr p (c_blocks s) = Some blk) as Ea by (by apply find_key_Some; [apply Hi|]).
    pose proof (ok_lock _ _ _ _ (inv_blk _ _ Hi blk Hin)) as Hlk.
    rewrite bool_decide_eq_false_2 in Hlk by done.
    wp_step. eapply (wp_update_at' (set_acquired true)); [exact Ea|].
    wp_step. apply wp_unlock. wp_step. unfold wait_block, block_at. do 3 wp_step.
    eapply wp_deref.
    { cbn [c_blocks set_lock]. rewrite find_addr_upd by done. cbn [c_blocks set_lock]. by rewrite Ea. }
    simpl. rewrite Hlk. simpl. eapply (wp_update_at' (set_block_lock _)).
    { cbn [c_blocks set_lock]. rewrite find_addr_upd by done. cbn [c_blocks set_lock]. by rewrite Ea. }
    wp_step. apply wp_lock; [done|]. wp_step.
    set (s1 := set_lock true (upd (set_block_lock {| val := 1 - 1; sleeplist := [] |}) p
                 (set_lock false (upd (set_acquired true) p (set_lock true s))))).
    assert (s1 = upd taken p (set_lock true s)) as Es1.
    { unfold s1, upd, taken. simpl. f_equal. unfold set_blocks, set_lock. simpl.
      rewrite update_key_compose by done. done. }
    rewrite Es1. clearbody s1. clear s1 Es1.
    assert (cinv ({[p]} ∪ hs) (upd taken p (set_lock true s))) as Hi1.
    { eapply upd_cinv; [done|done|exact Hi'| |set_solver|by eapply holds_fresh].
      intros x Hx Hxp. destruct (inv_blk _ _ Hi x Hx).
      assert (bool_decide (b_addr x ∈ {[p]} ∪ hs) = true) as Eb
        by (apply bool_decide_eq_true_2; set_solver).
      split; simpl; rewrite ?Eb; auto. intros _ Hn. set_solver. }
    eapply wp_move_to_front; [exact Hi1|by apply upd_holds|]. intros l Hperm.
    wp_step. apply wp_unlock. wp_step.
    assert (E' : find_addr p (c_blocks (set_lock true s)) = Some blk) by done.
    assert (Hh' : holds (set_lock true s) p b) by done.
    assert (Hmem : forall x, x ∈ l <-> x ∈ c_blocks (upd taken p (set_lock true s)))
      by (intros x; by rewrite Hperm).
    assert (Hholds : forall q b', holds (set_blocks l (upd taken p (set_lock true s))) q b' <-> holds s q b').
    { intros q b'. rewrite <- (upd_holds taken (fun _ => eq_refl) (fun _ => eq_refl) (set_lock true s) p q b').
      unfold holds. simpl. by setoid_rewrite Hmem. }
    apply HQ; try done.
    + split; [|done]. pose proof (cinv_perm _ _ _ Hi1 Hperm) as []. by split.
    + by apply Hholds.
    + intros b'. transitivity (view (upd taken p (set_lock true s)) b').
      * apply view_blocks; [done|apply Hi1|done].
      * rewrite (upd_view taken (fun _ => eq_refl) hs _ _ b) by eauto. rewrite E'.
        case_decide; [|done]. subst b'. rewrite <- Hbb.
        by rewrite (view_cached s blk); [|apply Hi|].
    + intros q b' _ Hq. by apply Hholds.
    + intros b'. transitivity (pinned (upd taken p (set_lock true s)) b').
      * unfold pinned. simpl. by setoid_rewrite Hmem.
      * rewrite (upd_pinned taken (fun _ => eq_refl) hs _ _ b) by eauto. rewrite E'.
        case_decide; [|done]. subst b'. split.
        -- intros (x & [= <-] & Hpx). by exists blk.
        -- intros (x & Hx & Hxb & Hpx). exists x. split; [|done].
           assert (find_no b (c_blocks s) = Some x) by (apply find_key_Some; [apply Hi|done]).
           congruence.
  - (* not cached *)
    wp_step. eapply wp_manage_block_num; [exact Hi'|].
    intros s1 Hi1 Hf1 Hl1 Hd1 Hn1 Hsub Hv1 Hh1 Hp1. wp_step. unfold kalloc_block. do 5 wp_step.
    change (Q (c_next s1) (add_block b s1)).
    pose proof (proj1 (find_key_None _ _ _) E) as Hnone.
    destruct (add_block_spec hs s1 b Hi1 Hb) as (Hi2 & Hh2 & Hv2 & Hk2 & Hp2); [by auto|].
    apply HQ; try done.
    + intros Hp%(inv_held _ _ Hi1). lia.
    + intros b'. by rewrite Hv2, Hv1.
    + intros q b' Hq Hqb. by apply Hk2, Hh1.
    + intros b'. by rewrite Hp2, Hp1.
Qed.
End laws.
