(* ===== verification/LogLaws.v ===== *)
(** The write-ahead log of the block cache: [cache_sync], [cache_end_op] and
    the recovery of [init_bcache] (src/fs/cache.c).

    The main lemmas give the exact sequence of device writes of a commit and
    of a recovery; crash atomicity follows from them in Crash.v. *)
From Stdlib Require Import ZArith Lia.
From stdpp Require Import base numbers gmap sets list.
From S2P Require Import Prelude Bytes Bitmap Sync FsDefs Cache CacheLaws.
Import Sem.

Lemma LOG_MAX_SIZE_eq : LOG_MAX_SIZE = 63.
Proof. reflexivity. Qed.

Section log.
Context (sblock : SuperBlock).
Abbreviation log_start := (sb_log_start sblock).
Abbreviation inv := (CacheLaws.inv sblock).
Abbreviation cinv := (CacheLaws.cinv sblock).

(** The log area: the header block and [LOG_MAX_SIZE - 1] slots. *)
Definition in_log (b : Z) : Prop := log_start <= b < log_start + LOG_MAX_SIZE.

(** A block number the log may carry. *)
Definition loggable (b : Z) : Prop := is_word 8 b /\ ~ in_log b.

Definition header_entries (h : LogHeader) : list Z := take (Z.to_nat (h_num_blocks h)) (h_block_no h).

Definition entries (s : CacheState) : list Z := header_entries (c_header s).

(** A log header in use: at most [LOG_MAX_SIZE - 1] distinct blocks. *)
Record header_ok (h : LogHeader) : Prop := {
  hd_wf : wf_header h;
  hd_max : 0 <= h_num_blocks h < LOG_MAX_SIZE;
  hd_nodup : NoDup (header_entries h);
  hd_loggable : Forall loggable (header_entries h);
}.

(** The in-memory header lists the pinned blocks. *)
Record log_ok (s : CacheState) : Prop := {
  lg_header : header_ok (c_header s);
  lg_pinned : forall b, pinned s b <-> b ∈ entries s;
}.

(** The header on disk is empty: no commit is in progress. *)
Definition disk_header_empty (d : Z -> list Z) : Prop :=
  h_num_blocks (decode_header (d log_start)) = 0.

Lemma length_header_entries h :
  header_ok h -> length (header_entries h) = Z.to_nat (h_num_blocks h).
Proof.
  intros [(_ & Hl & _) Hm _ _]. unfold header_entries. rewrite length_take, Hl.
  rewrite LOG_MAX_SIZE_eq in Hm. lia.
Qed.

Lemma header_entries_lookup h i b :
  header_entries h !! i = Some b ->
  h_block_no h !! i = Some b /\ (i < Z.to_nat (h_num_blocks h))%nat.
Proof. unfold header_entries. rewrite lookup_take_Some. done. Qed.

(** With nothing acquired, a block is pinned or equal to the disk's. *)
Lemma settled hs s b :
  cinv hs s -> (forall p, holds s p b -> p ∉ hs) -> pinned s b \/ view s b = c_disk s b.
Proof.
  intros Hi Hn. destruct (find_no b (c_blocks s)) as [blk|] eqn:E.
  - apply find_key_elem in E as E'. destruct E' as [Hin Hb].
    destruct (b_pinned blk) eqn:Ep; [left; by exists blk|right].
    rewrite <- Hb, (view_cached s blk); [|apply Hi|done].
    apply (ok_clean _ _ _ _ _ (inv_blk _ _ _ Hi blk Hin)); [done|]. apply Hn. by exists blk.
  - right. unfold view. by rewrite E.
Qed.

Lemma view_block hs s b : cinv hs s -> is_block (view s b).
Proof.
  intros Hi. unfold view. destruct (find_no b (c_blocks s)) as [blk|] eqn:E; [|apply Hi].
  apply find_key_elem in E as [Hin _]. apply (inv_blk _ _ _ Hi blk Hin).
Qed.

(** ** [copy_block] *)

Lemma wp_copy_block s f t Q :
  inv ∅ s -> f <> log_start -> t <> log_start -> f <> t ->
  (forall s', inv ∅ s' -> frame s s' -> c_dev s' = push_write s t (view s f) ->
     (forall b, view s' b = if decide (b = t) then view s f else view s b) ->
     (forall b, pinned s' b <-> pinned s b) -> Q tt s') ->
  wp (copy_block f t) Q s.
Proof.
  intros Hi Hf Ht Hne HQ. unfold copy_block.
  wp_step. eapply wp_cache_acquire; [done|done|set_solver|].
  intros p s1 Hi1 Hf1 Hd1 _ Hh1 Hv1 _ Hp1.
  wp_step. eapply wp_cache_acquire; [done|done| |].
  { intros q Hq Hin. assert (q = p) as -> by set_solver.
    apply Hne. eapply holds_inj_no; [apply Hi1|done|done]. }
  intros q s2 Hi2 Hf2 Hd2 Hq2 Hh2 Hv2 Hk2 Hp2.
  assert (holds s2 p f) as Hpf by (apply Hk2; [set_solver|done]).
  wp_step. eapply wp_block_data; [apply Hi2|done|]. rewrite Hv2, Hv1.
  wp_step. eapply wp_block_store; [apply Hi2|set_solver|done| |].
  { eapply view_block, Hi. }
  intros s3 Hi3 Hf3 Hl3 Hd3 Hv3 Hh3 Hp3.
  wp_step. eapply wp_device_write; [apply Hi3|set_solver|by apply Hh3|].
  intros s4 Hi4 Hf4 Hl4 Hd4 Hv4 Hh4 Hp4.
  assert (view s3 t = view s f) as Ht3 by (rewrite Hv3; by rewrite decide_True).
  assert (forall b, c_disk s4 b = if decide (b = t) then view s f else c_disk s b) as Hdisk.
  { intros b. unfold c_disk. rewrite Hd4. unfold push_write. rewrite dev_write_disk, Ht3.
    case_decide; [done|]. by rewrite Hd3, Hd2, Hd1. }
  assert (c_lock s4 = false) as Hlk by (rewrite Hl4, Hl3; apply Hi2).
  wp_step. eapply (wp_cache_release _ ({[q]} ∪ ({[p]} ∪ ∅))); [by split|set_solver|by apply Hh4, Hh3| |].
  { rewrite Hdisk, decide_False by done. rewrite Hp4, Hp3, Hp2, Hp1, Hv4, Hv3, decide_False by done.
    rewrite Hv2, Hv1. eapply settled; [apply Hi|]. set_solver. }
  intros s5 Hi5 Hf5 Hd5 Hv5 Hh5 Hp5.
  eapply wp_cache_release; [exact Hi5| |by apply Hh5, Hh4, Hh3| |].
  { assert (q <> p) by (intros ->; set_solver). set_solver. }
  { right. rewrite Hv5, Hv4, Ht3. unfold c_disk. rewrite Hd5. fold (c_disk s4).
    rewrite Hdisk. by rewrite decide_True. }
  intros s6 Hi6 Hf6 Hd6 Hv6 Hh6 Hp6. apply HQ.
  - replace ∅ with (({[q]} ∪ ({[p]} ∪ ∅)) ∖ {[p]} ∖ {[q]} : gset Z) by set_solver. done.
  - etransitivity; [exact Hf1|]. etransitivity; [exact Hf2|]. etransitivity; [exact Hf3|].
    etransitivity; [exact Hf4|]. by etransitivity.
  - rewrite Hd6, Hd5, Hd4, Ht3. unfold push_write. by rewrite Hd3, Hd2, Hd1.
  - intros b. rewrite Hv6, Hv5, Hv4, Hv3, Hv2, Hv1. done.
  - intros b. by rewrite Hp6, Hp5, Hp4, Hp3, Hp2, Hp1.
Qed.

(** ** [cache_sync] *)

Lemma wp_header_entry s i b Q :
  h_block_no (c_header s) !! Z.to_nat i = Some b -> Q b s -> wp (header_entry i) Q s.
Proof. intros E HQ. unfold header_entry. do 2 wp_step. by eapply wp_deref. Qed.

Lemma wp_exist s b n Q :
  (n <= length (h_block_no (c_header s)))%nat ->
  (b ∈ take n (h_block_no (c_header s)) -> Q (Some tt) s) ->
  (b ∉ take n (h_block_no (c_header s)) -> Q None s) ->
  wp (for_loop n 0 (fun i => x ← header_entry i; mret (if b =? x then Some tt else None))) Q s.
Proof.
  intros Hn H1 H2. set (l := h_block_no (c_header s)) in *.
  apply (wp_for_loop (fun i s' => s' = s /\ b ∉ take (Z.to_nat i) l)).
  - split; [done|]. rewrite take_0. set_solver.
  - intros i s' Hi [-> Hb]. destruct (lookup_lt_is_Some_2 l (Z.to_nat i)) as [x Hx]; [lia|].
    wp_step. eapply wp_header_entry; [done|]. wp_step. destruct (Z.eqb_spec b x).
    + subst. apply H1. apply list_elem_of_lookup. exists (Z.to_nat i).
      rewrite lookup_take_lt by lia. done.
    + split; [done|]. replace (Z.to_nat (i + 1)) with (S (Z.to_nat i)) by lia.
      rewrite (take_S_r _ _ x) by done. rewrite elem_of_app, list_elem_of_singleton. naive_solver.
  - intros s' [-> Hb]. apply H2. by rewrite Z.add_0_l, Nat2Z.id in Hb.
Qed.

Lemma wp_log_lock s Q : c_log_lock s = false -> Q tt (set_log_lock true s) -> wp log_lock Q s.
Proof. intros E HQ. unfold wp, log_lock, acquire_spinlock. by rewrite E. Qed.

Lemma cinv_ext hs s s' :
  cinv hs s -> c_blocks s' = c_blocks s -> c_block_num s' = c_block_num s ->
  c_dev s' = c_dev s -> c_next s' = c_next s -> cinv hs s'.
Proof.
  intros Hi E1 E2 E3 E4. destruct Hi. split; rewrite ?E1, ?E2, ?E4; unfold c_disk; rewrite ?E3; done.
Qed.

(** The header with one more block. *)
Definition header_add (h : LogHeader) (b : Z) : LogHeader :=
  mkLogHeader (h_num_blocks h + 1) (<[Z.to_nat (h_num_blocks h) := b]> (h_block_no h)).

Lemma header_add_entries h b :
  header_ok h -> header_entries (header_add h b) = header_entries h ++ [b].
Proof.
  intros [(_ & Hl & _) Hm _ _]. unfold header_entries, header_add. simpl.
  rewrite LOG_MAX_SIZE_eq in Hm.
  replace (Z.to_nat (h_num_blocks h + 1)) with (S (Z.to_nat (h_num_blocks h))) by lia.
  rewrite (take_S_r _ _ b) by (apply list_lookup_insert_eq; lia).
  by rewrite take_insert_ge by lia.
Qed.

Lemma header_add_ok h b :
  header_ok h -> loggable b -> b ∉ header_entries h -> h_num_blocks h + 1 < LOG_MAX_SIZE ->
  header_ok (header_add h b).
Proof.
  intros Hh Hb Hn Hm. pose proof (header_add_entries h b Hh) as E.
  destruct Hh as [(H1 & H2 & H3) H4 H5 H6].
  split; rewrite ?E.
  - unfold header_add. split_and!; simpl.
    + unfold is_word in *. rewrite LOG_MAX_SIZE_eq in Hm.
      split; [lia|]. eapply Z.lt_trans; [|apply (Z.pow_lt_mono_r 256 1 8); lia]. lia.
    + by rewrite length_insert.
    + apply Forall_insert; [done|]. apply Hb.
  - simpl. lia.
  - apply NoDup_app. split_and!; [done| |apply NoDup_singleton].
    intros x Hx ->%list_elem_of_singleton. done.
  - apply Forall_app. auto.
Qed.

Lemma wp_cache_sync hs s ctx p b rm Q :
  inv hs s -> log_ok s -> c_log_lock s = false -> holds s p b -> loggable b ->
  ctx <> 0 -> c_ops s !! ctx = Some rm ->
  (b ∈ entries s \/ (0 < rm /\ h_num_blocks (c_header s) + 1 < LOG_MAX_SIZE)) ->
  (forall s', inv hs s' -> log_ok s' -> c_log_lock s' = false ->
     c_bitmap_lock s' = c_bitmap_lock s -> c_outstanding s' = c_outstanding s ->
     c_log_sem s' = c_log_sem s -> c_dev s' = c_dev s ->
     (forall b', view s' b' = view s b') -> (forall q b', holds s' q b' <-> holds s q b') ->
     (if decide (b ∈ entries s) then c_header s' = c_header s /\ c_ops s' = c_ops s
      else c_header s' = header_add (c_header s) b /\ c_ops s' = <[ctx := rm - 1]> (c_ops s)) ->
     Q tt s') ->
  wp (cache_sync ctx p) Q s.
Proof.
  intros [Hi Hl] [Hh Hpin] Hlg Hp Hb Hctx Hrm Hroom HQ. unfold cache_sync.
  rewrite (proj2 (Z.eqb_neq ctx 0)) by done.
  wp_step. apply wp_log_lock; [done|]. wp_step.
  assert (cinv hs (set_log_lock true s)) as Hi' by (by eapply cinv_ext).
  eapply (wp_set_pinned _ hs _ p b); [exact Hi'|done|by left|].
  intros s1 Hi1 Hf1 Hl1 Hd1 Hv1 Hh1 Hp1.
  destruct Hf1 as (F1 & F2 & F3 & F4 & F5 & F6). simpl in *.
  wp_step. eapply wp_block_at; [exact Hi1|by apply Hh1|].
  intros blk _ _ Hbb _. do 2 wp_step. rewrite Hbb.
  assert (Z.to_nat (h_num_blocks (c_header s1)) <= length (h_block_no (c_header s1)))%nat as Hlen.
  { rewrite F3. destruct Hh as [(_ & H2 & _) Hm _ _]. rewrite LOG_MAX_SIZE_eq in Hm. lia. }
  wp_step. eapply wp_exist; [done| |]; rewrite F3; intros Hin.
  - (* already in the log *)
    do 3 wp_step. apply HQ; simpl; try done.
    + split; [by eapply cinv_ext|]. simpl. congruence.
    + split; simpl; [by rewrite F3|]. intros b'.
      change (pinned s1 b' <-> b' ∈ header_entries (c_header s1)). rewrite Hp1, F3.
      destruct (decide (b' = b)) as [->|]; [by split|]. apply Hpin.
    + rewrite decide_True by done. by rewrite F3, F6.
  - assert (b ∉ entries s) as Hnin by done.
    destruct Hroom as [?|[Hrm0 Hmax]]; [done|].
    destruct (lookup_lt_is_Some_2 (h_block_no (c_header s1)) (Z.to_nat (h_num_blocks (c_header s))))
      as [x Hx].
    { rewrite F3. destruct Hh as [(_ & H2 & _) _ _ _]. rewrite LOG_MAX_SIZE_eq in Hmax. lia. }
    wp_step.
    wp_step. eapply wp_header_entry; [exact Hx|]. do 3 wp_step.
    eapply wp_deref; [rewrite F6; exact Hrm|]. wp_step.
    rewrite (proj2 (Z.leb_gt rm 0)) by done.
    rewrite (proj2 (Z.leb_gt LOG_MAX_SIZE _)) by done. simpl. wp_step. wp_step. wp_step.
    assert (header_ok (header_add (c_header s) b)) as Hh2 by by apply header_add_ok.
    apply HQ; simpl; try done.
    + split; [by eapply cinv_ext|]. simpl. congruence.
    + split; simpl; [done|]. intros b'.
      change (pinned s1 b' <-> b' ∈ header_entries (header_add (c_header s) b)).
      rewrite header_add_entries by done.
      rewrite Hp1, elem_of_app, list_elem_of_singleton.
      destruct (decide (b' = b)) as [->|]; [split; auto|]. change (pinned s b' <-> b' ∈ entries s \/ b' = b).
      rewrite Hpin. split; [by left|by intros [|]].
    + rewrite decide_False by done. by rewrite F6.
Qed.
End log.
