(* ===== verification/Commit.v ===== *)
(** The commit and the recovery of the block cache's log, as the sequence of
    device writes they perform ([cache_end_op] and [init_bcache] of
    src/fs/cache.c).

    A commit copies every logged block to its slot of the log, writes the
    header, installs the blocks at home, and clears the header; the lemmas
    below show that it returns and that its device writes are exactly these,
    in this order. *)
From Stdlib Require Import ZArith Lia.
From stdpp Require Import base numbers gmap sets list.
From S2P Require Import Prelude Bytes Bitmap Sync FsDefs Cache CacheLaws LogLaws.

Section commit.
Context (sblock : SuperBlock).
Abbreviation log_start := (sb_log_start sblock).
Abbreviation inv := (CacheLaws.inv sblock).
Abbreviation in_log := (LogLaws.in_log sblock).
Abbreviation loggable := (LogLaws.loggable sblock).
Abbreviation header_ok := (LogLaws.header_ok sblock).
Abbreviation log_ok := (LogLaws.log_ok sblock).

(** ** The writes of a commit *)

(** Logging: entry [j] goes to slot [log_start + 1 + j]. *)
Definition log_writes (v : Z -> list Z) (es : list Z) : list (Z * list Z) :=
  imap (fun j b => (log_start + Z.of_nat j + 1, v b)) es.

(** Installing: every entry goes home. *)
Definition home_writes (v : Z -> list Z) (es : list Z) : list (Z * list Z) :=
  map (fun b => (b, v b)) es.

Definition clear_header (h : LogHeader) : LogHeader := mkLogHeader 0 (h_block_no h).

Definition commit_writes (v : Z -> list Z) (h : LogHeader) : list (Z * list Z) :=
  log_writes v (header_entries h) ++ [(log_start, encode_header h)] ++
  home_writes v (header_entries h) ++ [(log_start, encode_header (clear_header h))].

Lemma log_writes_snoc v es b :
  log_writes v (es ++ [b]) = log_writes v es ++ [(log_start + Z.of_nat (length es) + 1, v b)].
Proof. unfold log_writes. rewrite imap_app. simpl. by rewrite Nat.add_0_r. Qed.

Lemma home_writes_snoc v es b : home_writes v (es ++ [b]) = home_writes v es ++ [(b, v b)].
Proof. unfold home_writes. by rewrite map_app. Qed.

(** How far a commit has got: the writes so far, and the blocks still pinned. *)
Record progress (s s' : CacheState) (ws : list (Z * list Z)) (P : Z -> Prop) : Prop := {
  pg_inv : inv ∅ s';
  pg_frame : frame s s';
  pg_dev : c_dev s' = mkDevice (dev_disk0 (c_dev s)) (dev_writes (c_dev s) ++ ws);
  pg_view : forall b, ~ in_log b -> view s' b = view s b;
  pg_pinned : forall b, pinned s' b <-> P b;
}.

Lemma progress_refl s : inv ∅ s -> progress s s [] (pinned s).
Proof.
  intros Hi. split; try done. rewrite app_nil_r. by destruct (c_dev s).
Qed.

Lemma progress_trans s s1 s2 ws1 ws2 P1 P2 :
  progress s s1 ws1 P1 -> progress s1 s2 ws2 P2 -> progress s s2 (ws1 ++ ws2) P2.
Proof.
  intros [H1 H2 H3 H4 H5] [G1 G2 G3 G4 G5]. split; try done.
  - by etransitivity.
  - rewrite G3, H3. simpl. by rewrite app_assoc.
  - intros b Hb. by rewrite G4, H4.
Qed.

Lemma progress_pinned s s' ws P P' :
  progress s s' ws P -> (forall b, P b <-> P' b) -> progress s s' ws P'.
Proof. intros [] HP. split; try done. intros b. by rewrite pg_pinned0. Qed.

(** ** The entries of a header *)

Lemma header_entry_at h (i : Z) :
  header_ok h -> 0 <= i < h_num_blocks h ->
  exists b, h_block_no h !! Z.to_nat i = Some b /\ header_entries h !! Z.to_nat i = Some b /\
    loggable b /\ take (Z.to_nat (i + 1)) (header_entries h) = take (Z.to_nat i) (header_entries h) ++ [b].
Proof.
  intros Hh Hi. pose proof (length_header_entries _ _ Hh) as Hl.
  destruct (lookup_lt_is_Some_2 (header_entries h) (Z.to_nat i)) as [b Hb]; [lia|].
  exists b. split_and!; [by apply header_entries_lookup|done| |].
  - eapply Forall_lookup_1; [apply Hh|done].
  - replace (Z.to_nat (i + 1)) with (S (Z.to_nat i)) by lia. by apply take_S_r.
Qed.

Lemma slot_in_log h i :
  header_ok h -> 0 <= i < h_num_blocks h -> in_log (log_start + i + 1).
Proof. intros [_ Hm _ _] Hi. unfold LogLaws.in_log. lia. Qed.

Lemma log_start_in_log : in_log log_start.
Proof. unfold LogLaws.in_log. rewrite LOG_MAX_SIZE_eq. lia. Qed.

(** ** Copying the blocks to the log *)

Lemma wp_write_log s h Q :
  inv ∅ s -> c_header s = h -> header_ok h ->
  (forall s', progress s s' (log_writes (view s) (header_entries h)) (pinned s) -> Q tt s') ->
  wp (for_each (Z.to_nat (h_num_blocks h)) 0 (fun i =>
        b ← header_entry i; copy_block b (log_start + i + 1))) Q s.
Proof.
  intros Hi Eh Hh HQ. pose proof (length_header_entries _ _ Hh) as Hl.
  pose proof (hd_max _ _ Hh) as Hm.
  eapply wp_mono; [eapply (wp_for_each (fun i s' =>
    progress s s' (log_writes (view s) (take (Z.to_nat i) (header_entries h))) (pinned s)))|].
  - rewrite take_0. by apply progress_refl.
  - intros i s' Hr Hp. destruct (header_entry_at h i) as (b & Hb & Hb' & Hlg & Et); [done|lia|].
    wp_step. eapply wp_header_entry.
    { destruct (pg_frame _ _ _ _ Hp) as (_ & _ & -> & _). by rewrite Eh. }
    pose proof (slot_in_log h i Hh ltac:(lia)) as Hs.
    eapply (wp_copy_block sblock); [apply Hp| | | |].
    { intros ->. by apply Hlg, log_start_in_log. }
    { unfold LogLaws.in_log in Hs. lia. }
    { intros ->. by apply Hlg. }
    intros s2 Hi2 Hf2 Hd2 Hv2 Hp2. rewrite Et, log_writes_snoc.
    rewrite (pg_view _ _ _ _ Hp) in Hd2, Hv2 by apply Hlg.
    eapply progress_trans; [exact Hp|]. split; try done.
    + rewrite Hd2. unfold push_write. rewrite length_take. do 4 f_equal. lia.
    + intros b' Hb2. rewrite Hv2. rewrite decide_False; [done|]. by intros ->.
    + intros b'. by rewrite Hp2, (pg_pinned _ _ _ _ Hp).
  - intros [] s' Hp. apply HQ. rewrite take_ge in Hp by lia. done.
Qed.

(** ** Installing the blocks *)

Lemma wp_install_block s h i Q :
  inv ∅ s -> c_header s = h -> header_ok h -> c_log_lock s = true -> 0 <= i < h_num_blocks h ->
  (forall s' b, header_entries h !! Z.to_nat i = Some b ->
     progress s s' [(b, view s b)] (fun b' => b' <> b /\ pinned s b') -> Q tt s') ->
  wp (install_block i) Q s.
Proof.
  intros Hi Eh Hh Hlk Hr HQ. destruct (header_entry_at h i) as (b & Hb & Hb' & Hlg & _); [done|done|].
  unfold install_block. wp_step. eapply wp_header_entry; [by rewrite Eh|].
  assert (b <> log_start) by (intros ->; by apply Hlg, log_start_in_log).
  wp_step. eapply wp_cache_acquire; [done|done|set_solver|].
  intros p s1 [Hi1 Hl1] Hf1 Hd1 _ Hh1 Hv1 _ Hp1. wp_step. apply wp_modify. wp_step.
  assert (cinv sblock ({[p]} ∪ ∅) (set_log_lock false s1)) as Hi1' by (by eapply cinv_ext).
  eapply wp_device_write; [exact Hi1'|set_solver|exact Hh1|].
  intros s2 Hi2 Hf2 Hl2 Hd2 Hv2 Hh2 Hp2.
  wp_step. apply wp_log_lock; [by destruct Hf2 as (-> & _)|]. wp_step.
  assert (cinv sblock ({[p]} ∪ ∅) (set_log_lock true s2)) as Hi2' by (by eapply cinv_ext).
  assert (holds (set_log_lock true s2) p b) as Hh2' by (by apply Hh2).
  eapply wp_set_pinned; [exact Hi2'|exact Hh2'|right; set_solver|].
  intros s3 Hi3 Hf3 Hl3 Hd3 Hv3 Hh3 Hp3.
  assert (forall b', view s3 b' = view s b') as Hv.
  { intros b'. rewrite Hv3. change (view s2 b' = view s b'). rewrite Hv2.
    change (view s1 b' = view s b'). apply Hv1. }
  assert (c_dev s3 = push_write s b (view s b)) as Hd.
  { rewrite Hd3. simpl. rewrite Hd2. unfold push_write. simpl. rewrite Hd1.
    change (view (set_log_lock false s1) b) with (view s1 b). by rewrite Hv1. }
  eapply wp_cache_release; [split; [exact Hi3|]|set_solver|by apply Hh3| |].
  { rewrite Hl3. simpl. rewrite Hl2. done. }
  { right. unfold c_disk. rewrite Hd, Hv. unfold push_write. rewrite dev_write_disk. by rewrite decide_True. }
  intros s4 Hi4 Hf4 Hd4 Hv4 Hh4 Hp4. apply (HQ _ b); [done|]. split.
  - by replace ∅ with (({[p]} ∪ ∅) ∖ {[p]} : gset Z) by set_solver.
  - destruct Hf1 as (A1 & A2 & A3 & A4 & A5 & A6), Hf2 as (B1 & B2 & B3 & B4 & B5 & B6),
      Hf3 as (C1 & C2 & C3 & C4 & C5 & C6), Hf4 as (D1 & D2 & D3 & D4 & D5 & D6).
    unfold frame. simpl in *. split_and!; congruence.
  - by rewrite Hd4, Hd.
  - intros b' _. by rewrite Hv4.
  - intros b'. rewrite Hp4, Hp3. destruct (decide (b' = b)) as [->|]; [naive_solver|].
    change (pinned (set_log_lock true s2) b') with (pinned s2 b'). rewrite Hp2.
    change (pinned (set_log_lock false s1) b') with (pinned s1 b'). rewrite Hp1. naive_solver.
Qed.

Lemma wp_install s h Q :
  inv ∅ s -> c_header s = h -> header_ok h -> c_log_lock s = true ->
  (forall b, pinned s b <-> b ∈ header_entries h) ->
  (forall s', progress s s' (home_writes (view s) (header_entries h)) (fun _ => False) -> Q tt s') ->
  wp (for_each (Z.to_nat (h_num_blocks h)) 0 install_block) Q s.
Proof.
  intros Hi Eh Hh Hlk Hpin HQ. pose proof (length_header_entries _ _ Hh) as Hl.
  pose proof (hd_max _ _ Hh) as Hm.
  eapply wp_mono; [eapply (wp_for_each (fun i s' =>
    progress s s' (home_writes (view s) (take (Z.to_nat i) (header_entries h)))
      (fun b => b ∈ drop (Z.to_nat i) (header_entries h))))|].
  - rewrite take_0, drop_0. eapply progress_pinned; [by apply progress_refl|done].
  - intros i s' Hr Hp. destruct (pg_frame _ _ _ _ Hp) as (F1 & _ & F3 & _).
    eapply wp_install_block; [apply Hp|by rewrite F3|done|congruence|lia|].
    intros s2 b Hb Hp2. destruct (header_entry_at h i) as (b2 & _ & Hb' & Hlg & Et); [done|lia|].
    assert (b2 = b) as -> by congruence.
    rewrite Et, home_writes_snoc. rewrite (pg_view _ _ _ _ Hp) in Hp2 by apply Hlg.
    eapply progress_trans; [exact Hp|]. eapply progress_pinned; [exact Hp2|].
    intros b'. simpl. rewrite (pg_pinned _ _ _ _ Hp).
    rewrite (drop_S _ _ _ Hb), elem_of_cons. replace (Z.to_nat (i + 1)) with (S (Z.to_nat i)) by lia.
    split; [naive_solver|]. intros Hin. split; [|by right]. intros ->.
    pose proof (hd_nodup _ _ Hh) as Hnd. rewrite <- (take_drop (Z.to_nat i) (header_entries h)) in Hnd.
    rewrite (drop_S _ _ _ Hb) in Hnd. apply NoDup_app in Hnd as (_ & _ & Hnd).
    apply NoDup_cons in Hnd. naive_solver.
  - intros [] s' Hp. apply HQ. rewrite take_ge, drop_ge in Hp by lia.
    eapply progress_pinned; [exact Hp|]. set_solver.
Qed.
(** ** The header *)

Lemma clear_header_ok h : header_ok h -> header_ok (clear_header h).
Proof.
  intros [(H1 & H2 & H3) H4 _ _]. split; unfold clear_header, header_entries; simpl.
  - split_and!; simpl; [unfold is_word; lia|done|done].
  - rewrite LOG_MAX_SIZE_eq. lia.
  - constructor.
  - constructor.
Qed.

Lemma wp_write_header s h Q :
  inv ∅ s -> c_header s = h -> wf_header h ->
  (forall s', progress s s' [(log_start, encode_header h)] (pinned s) ->
     (forall b, b <> log_start -> view s' b = view s b) -> Q tt s') ->
  wp (write_header sblock) Q s.
Proof.
  intros [Hi Hl] Eh Hh HQ. unfold write_header. do 2 wp_step. rewrite Eh.
  eapply wp_write_log_start; [exact Hi|by apply encode_header_block|].
  intros s' Hi' Hf Hl' Hd Hv Hh' Hp.
  assert (forall b, b <> log_start -> view s' b = view s b) as Hv'
    by (intros b Hb; by rewrite Hv, decide_False).
  apply HQ; [|done]. split; try done.
  - split; [done|congruence].
  - intros b Hb. apply Hv'. intros ->. by apply Hb, log_start_in_log.
Qed.

(** ** [cache_end_op] *)

Lemma home_writes_ext v v' es :
  Forall loggable es -> (forall b, ~ in_log b -> v b = v' b) -> home_writes v es = home_writes v' es.
Proof.
  intros Hes Hv. unfold home_writes. induction Hes as [|b es Hb _ IH]; [done|].
  simpl. rewrite IH, Hv; [done|apply Hb].
Qed.

(** With nothing acquired and nothing pinned the disk is what clients see. *)
Lemma unpinned_disk s b : inv ∅ s -> ~ pinned s b -> view s b = c_disk s b.
Proof.
  intros [Hi _] Hp. destruct (settled sblock ∅ s b Hi) as [?|?]; [set_solver|done|done].
Qed.

(** The state a commit ends in. *)
Record committed (ctx : Z) (s s' : CacheState) : Prop := {
  cm_inv : inv ∅ s';
  cm_log : log_ok s';
  cm_header : c_header s' = clear_header (c_header s);
  cm_log_lock : c_log_lock s' = false;
  cm_bitmap_lock : c_bitmap_lock s' = c_bitmap_lock s;
  cm_outstanding : c_outstanding s' = c_outstanding s - 1;
  cm_sem : c_log_sem s' = Sem.mkSem (Z.max 0 (Sem.val (c_log_sem s))) [];
  cm_ops : c_ops s' = delete ctx (c_ops s);
  cm_dev : c_dev s' = mkDevice (dev_disk0 (c_dev s))
             (dev_writes (c_dev s) ++ commit_writes (view s) (c_header s));
  cm_view : forall b, ~ in_log b -> view s' b = view s b;
  cm_clean : forall b, view s' b = c_disk s' b;
}.

Lemma wp_end_op_commit ctx s Q :
  inv ∅ s -> log_ok s -> c_log_lock s = false -> c_outstanding s <= 1 -> Sem.wf (c_log_sem s) ->
  (forall s', committed ctx s s' -> Q tt s') ->
  wp (cache_end_op sblock ctx) Q s.
Proof.
  intros [Hi Hl] [Hh Hpin] Hlk Hout Hsem HQ. unfold cache_end_op.
  wp_step. apply wp_log_lock; [done|]. do 6 wp_step.
  set (s0 := set_outstanding _ _).
  assert (inv ∅ s0) as Hi0 by (split; [by eapply cinv_ext|done]).
  change (c_outstanding s0) with (c_outstanding s - 1).
  rewrite (proj2 (Z.ltb_ge 0 _)) by lia. set (h := c_header s) in *.
  change (c_header s0) with h.
  wp_step. eapply (wp_write_log s0 h); [done|done|done|]. intros s1 P1.
  pose proof (pg_frame _ _ _ _ P1) as F1.
  wp_step. eapply (wp_write_header s1 h); [apply P1|by destruct F1 as (_ & _ & -> & _)|apply Hh|].
  intros s2 P2 _. pose proof (progress_trans _ _ _ _ _ _ _ P1 P2) as P12.
  pose proof (pg_frame _ _ _ _ P12) as (L2 & _ & H2 & _).
  wp_step. eapply (wp_install s2 h); [apply P12|by rewrite H2|done|by rewrite L2| |].
  { intros b. rewrite (pg_pinned _ _ _ _ P12), (pg_pinned _ _ _ _ P1). apply Hpin. }
  intros s3 P3. rewrite (home_writes_ext _ (view s0)) in P3; [|apply Hh|apply P12].
  pose proof (progress_trans _ _ _ _ _ _ _ P12 P3) as P123. clear P1 F1 P2 P12 L2 H2 P3 s1 s2.
  do 2 wp_step. pose proof (pg_inv _ _ _ _ P123) as [Hi3 Hl3].
  pose proof (pg_frame _ _ _ _ P123) as (A1 & A2 & A3 & A4 & A5 & A6).
  set (s4 := set_header (clear_header h) s3).
  assert (set_header (mkLogHeader 0 (h_block_no (c_header s3))) s3 = s4) as -> by (by rewrite A3).
  wp_step. eapply (wp_write_header s4 (clear_header h)); [split; [by eapply cinv_ext|done]|done| |].
  { apply clear_header_ok, Hh. }
  intros s5 [[Hi5 Hl5] (B1 & B2 & B3 & B4 & B5 & B6) Hd5 Hv5 Hp5] _.
  unfold post_all_log_sem. do 3 wp_step. simpl in *.
  assert (c_log_sem s5 = c_log_sem s) as Es by congruence.
  unfold Sem.post_all_sem. rewrite Es, Sem.post_all_loop_spec by (done || lia).
  do 2 wp_step.
  assert (forall b, ~ pinned s5 b) as Hnp.
  { intros b. rewrite Hp5. change (~ pinned s3 b). rewrite (pg_pinned _ _ _ _ P123). tauto. }
  assert (forall b, view s5 b = c_disk s5 b) as Hcl.
  { intros b. apply unpinned_disk; [by split|done]. }
  apply HQ. split; try done.
  - split; [by eapply cinv_ext|done].
  - split; simpl; [rewrite B3; by apply clear_header_ok|]. intros b.
    change (pinned s5 b <-> b ∈ header_entries (c_header s5)). rewrite B3.
    unfold header_entries, clear_header. simpl. split; [intros []%Hnp|]. rewrite take_0. set_solver.
  - simpl. congruence.
  - simpl. congruence.
  - simpl. congruence.
  - simpl. rewrite Hd5. simpl. rewrite (pg_dev _ _ _ _ P123). simpl.
    unfold commit_writes. by rewrite <- !app_assoc.
  - intros b Hb. simpl. change (view s5 b = view s b). rewrite Hv5 by done.
    change (view s3 b = view s b). by rewrite (pg_view _ _ _ _ P123).
Qed.

(** An operation that is not the last one leaves the log alone. *)
Lemma wp_end_op_wait ctx s Q :
  inv ∅ s -> c_log_lock s = false -> 1 < c_outstanding s -> Sem.wf (c_log_sem s) ->
  (forall s' w sem', Sem._post_sem (c_log_sem s) = Some (w, sem') ->
     s' = set_log_lock false (set_log_sem sem' (set_outstanding (c_outstanding s - 1)
            (set_ops (delete ctx (c_ops s)) (set_log_lock true s)))) -> Q tt s') ->
  wp (cache_end_op sblock ctx) Q s.
Proof.
  intros Hi Hlk Hout Hsem HQ. unfold cache_end_op.
  wp_step. apply wp_log_lock; [done|]. do 6 wp_step. simpl.
  rewrite (proj2 (Z.ltb_lt 0 _)) by lia.
  destruct (Sem.post_sem_spec _ Hsem) as (w & sem' & E & _).
  wp_step. unfold post_log_sem. do 3 wp_step. simpl. rewrite E. do 2 wp_step. by eapply HQ.
Qed.
End commit.
