(* ===== verification/Crash.v ===== *)
(** Crash atomicity of the log: what is on the disk after a crash at any
    point of a commit or of a recovery, and the next [init_bcache]
    (src/fs/cache.c).

    The device writes one block atomically; a crash keeps a prefix of the
    writes. *)
From Stdlib Require Import ZArith Lia.
From stdpp Require Import base numbers gmap sets list.
From S2P Require Import Prelude Bytes Bitmap Sync FsDefs Cache CacheLaws LogLaws Commit Recovery.

(** ** Sequences of block writes *)

Lemma apply_writes_app d ws1 ws2 :
  apply_writes d (ws1 ++ ws2) = apply_writes (apply_writes d ws1) ws2.
Proof. apply foldl_app. Qed.

Lemma apply_writes_other d ws b :
  (forall w, w ∈ ws -> w.1 <> b) -> apply_writes d ws b = d b.
Proof.
  revert d. induction ws as [|w ws IH]; intros d Hn; [done|].
  cbn [apply_writes foldl]. fold (apply_writes (disk_write d w) ws). rewrite IH.
  - unfold disk_write. rewrite (proj2 (Z.eqb_neq b w.1)); [done|]. symmetry. apply Hn. left.
  - intros w' Hw'. apply Hn. by right.
Qed.

Lemma apply_writes_last d ws b x : apply_writes d (ws ++ [(b, x)]) b = x.
Proof. rewrite apply_writes_app. cbn. unfold disk_write. cbn. by rewrite Z.eqb_refl. Qed.

(** All writes to [b] carry the same contents, and there is one. *)
Lemma apply_writes_same d ws b x :
  (forall w, w ∈ ws -> w.1 = b -> w.2 = x) -> (exists w, w ∈ ws /\ w.1 = b) ->
  apply_writes d ws b = x.
Proof.
  induction ws as [|w ws IH] using rev_ind; intros Hsame (w' & Hin & Hb).
  - by apply elem_of_nil in Hin.
  - rewrite apply_writes_app. cbn [apply_writes foldl]. unfold disk_write at 1.
    destruct (Z.eqb_spec b w.1) as [->|Hne].
    + apply Hsame; [|done]. apply elem_of_app. right. by apply list_elem_of_singleton.
    + apply IH.
      * intros w1 Hw1. apply Hsame. apply elem_of_app. by left.
      * exists w'. split; [|done]. apply elem_of_app in Hin as [?| ->%list_elem_of_singleton]; [done|congruence].
Qed.

(** The prefixes of a sequence in four parts. *)
Lemma take_phases {A} (k : nat) (l1 l2 : list A) x y :
  (exists m, take k (l1 ++ [x] ++ l2 ++ [y]) = take m l1 /\ (k <= length l1)%nat) \/
  (exists m, take k (l1 ++ [x] ++ l2 ++ [y]) = l1 ++ [x] ++ take m l2 /\ (k <= S (length l1 + length l2))%nat) \/
  (take k (l1 ++ [x] ++ l2 ++ [y]) = l1 ++ [x] ++ l2 ++ [y] /\ (S (length l1 + length l2) < k)%nat).
Proof.
  destruct (decide (k <= length l1)%nat); [left|right].
  - exists k. by rewrite take_app_le.
  - destruct (decide (k <= S (length l1 + length l2))%nat); [left|right].
    + exists (k - S (length l1))%nat. split; [|done]. rewrite take_app_ge by lia. f_equal.
      destruct (k - length l1)%nat as [|m] eqn:E; [lia|]. simpl. f_equal.
      rewrite take_app_le by lia. f_equal. lia.
    + split; [|lia]. apply take_ge. rewrite !length_app. simpl. lia.
Qed.

Section crash.
Context (sblock : SuperBlock).
Abbreviation log_start := (sb_log_start sblock).
Abbreviation inv := (CacheLaws.inv sblock).
Abbreviation in_log := (LogLaws.in_log sblock).
Abbreviation header_ok := (LogLaws.header_ok sblock).
Abbreviation log_ok := (LogLaws.log_ok sblock).
Abbreviation log_writes := (Commit.log_writes sblock).
Abbreviation commit_writes := (Commit.commit_writes sblock).
Abbreviation replay_writes := (Recovery.replay_writes sblock).
Abbreviation recovery_writes := (Recovery.recovery_writes sblock).
Abbreviation disk_header := (Recovery.disk_header sblock).

(** The disk after recovery. *)
Definition recover (d : Z -> list Z) : Z -> list Z := apply_writes d (recovery_writes d).

(** The disk with the blocks [es] replaced. *)
Definition installed (d v : Z -> list Z) (es : list Z) (b : Z) : list Z :=
  if decide (b ∈ es) then v b else d b.

(** ** Where the writes go *)

Lemma elem_of_log_writes v es w :
  w ∈ log_writes v es <->
  exists j b, es !! j = Some b /\ w = (log_start + Z.of_nat j + 1, v b).
Proof.
  unfold Commit.log_writes. rewrite elem_of_lookup_imap. naive_solver.
Qed.

Lemma elem_of_replay_writes d es w :
  w ∈ replay_writes d es <->
  exists j b, es !! j = Some b /\ w = (b, d (log_start + Z.of_nat j + 1)).
Proof.
  unfold Recovery.replay_writes. rewrite elem_of_lookup_imap. naive_solver.
Qed.

Lemma elem_of_home_writes v es w : w ∈ home_writes v es <-> exists b, b ∈ es /\ w = (b, v b).
Proof.
  unfold home_writes. rewrite list_elem_of_In, in_map_iff. setoid_rewrite <- list_elem_of_In. naive_solver.
Qed.

Lemma elem_of_take {A} (l : list A) k x : x ∈ take k l -> x ∈ l.
Proof. intros H. rewrite <- (take_drop k l). apply elem_of_app. by left. Qed.

Lemma entries_home h b : header_ok h -> b ∈ header_entries h -> ~ in_log b.
Proof.
  intros Hh Hb. pose proof (hd_loggable _ _ Hh) as Hl. rewrite Forall_forall in Hl.
  by apply Hl in Hb as [_ ?].
Qed.

Lemma log_slot h v w :
  header_ok h -> w ∈ log_writes v (header_entries h) -> in_log w.1 /\ w.1 <> log_start.
Proof.
  intros Hh (j & b & Hj & ->)%elem_of_log_writes. simpl.
  apply lookup_lt_Some in Hj. rewrite (length_header_entries _ _ Hh) in Hj.
  pose proof (hd_max _ _ Hh). unfold LogLaws.in_log. lia.
Qed.

Lemma empty_header_ok h : wf_header h -> h_num_blocks h = 0 -> header_ok h.
Proof.
  intros Hw E. split; [done|rewrite E, LOG_MAX_SIZE_eq; lia| |];
    unfold header_entries; rewrite E; constructor.
Qed.

(** ** Recovery, outside the log *)

(** [n] is what the header on disk says. *)
Lemma recover_empty d b :
  h_num_blocks (disk_header d) = 0 -> ~ in_log b -> recover d b = d b.
Proof.
  intros E Hb. unfold recover, Recovery.recovery_writes, header_entries. rewrite E. simpl.
  apply (apply_writes_other d [_]). intros w ->%list_elem_of_singleton. simpl. intros <-.
  by apply Hb, log_start_in_log.
Qed.

Lemma recover_replay d v h b :
  header_ok h -> disk_header d = h ->
  (forall j e, header_entries h !! j = Some e -> d (log_start + Z.of_nat j + 1) = v e) ->
  ~ in_log b -> recover d b = installed d v (header_entries h) b.
Proof.
  intros Hh Eh Hslots Hb. unfold recover, Recovery.recovery_writes. rewrite Eh, apply_writes_app.
  rewrite apply_writes_other.
  2: { intros w ->%list_elem_of_singleton. simpl. intros <-. by apply Hb, log_start_in_log. }
  unfold installed. case_decide as Hin.
  - apply apply_writes_same.
    + intros w (j & e & Hj & ->)%elem_of_replay_writes <-. simpl. by apply Hslots.
    + apply list_elem_of_lookup in Hin as [j Hj].
      eexists. split; [apply elem_of_replay_writes; eauto|done].
  - apply apply_writes_other. intros w (j & e & Hj & ->)%elem_of_replay_writes. simpl. intros ->.
    apply Hin. by eapply list_elem_of_lookup_2.
Qed.

(** ** A crash during a commit *)

Section one_commit.
Context (d v : Z -> list Z) (h : LogHeader).
Context (Hh : header_ok h) (Hempty : h_num_blocks (disk_header d) = 0).

Abbreviation es := (header_entries h).
Abbreviation logged := (log_writes v es ++ [(log_start, encode_header h)]).

Lemma logged_outside b : ~ in_log b -> apply_writes d logged b = d b.
Proof.
  intros Hb. apply apply_writes_other. intros w [Hw| ->%list_elem_of_singleton]%elem_of_app.
  - apply log_slot in Hw as [Hw _]; [|done]. by intros <-.
  - simpl. intros <-. by apply Hb, log_start_in_log.
Qed.

Lemma logged_header : disk_header (apply_writes d logged) = h.
Proof.
  unfold Recovery.disk_header. rewrite apply_writes_app. simpl. unfold disk_write. simpl.
  rewrite Z.eqb_refl. apply decode_encode_header, Hh.
Qed.

Lemma logged_slots j e : es !! j = Some e -> apply_writes d logged (log_start + Z.of_nat j + 1) = v e.
Proof.
  intros Hj. rewrite apply_writes_app. rewrite apply_writes_other.
  2: { intros w ->%list_elem_of_singleton. simpl. lia. }
  apply apply_writes_same.
  - intros w (i & b & Hi & ->)%elem_of_log_writes. simpl. intros E.
    assert (i = j) as -> by lia. congruence.
  - eexists. split; [apply elem_of_log_writes; eauto|done].
Qed.

(** Before the header is written nothing has happened. *)
Lemma crash_before m b :
  ~ in_log b -> recover (apply_writes d (take m (log_writes v es))) b = d b.
Proof.
  intros Hb.
  assert (forall b', (in_log b' -> b' = log_start) ->
            apply_writes d (take m (log_writes v es)) b' = d b') as E.
  { intros b' Hb'. apply apply_writes_other. intros w Hw%elem_of_take.
    apply log_slot in Hw as [Hw Hne]; [|done]. intros <-. by apply Hne, Hb'. }
  rewrite recover_empty; [by apply E|unfold Recovery.disk_header; by rewrite E|done].
Qed.

Lemma crash_before_header m :
  h_num_blocks (disk_header (apply_writes d (take m (log_writes v es)))) = 0.
Proof.
  unfold Recovery.disk_header. rewrite apply_writes_other; [done|].
  intros w Hw%elem_of_take. by apply log_slot in Hw as [_ Hw].
Qed.

(** While the blocks are installed. *)
Lemma home_prefix_log m d' b :
  in_log b -> apply_writes d' (take m (home_writes v es)) b = d' b.
Proof.
  intros Hb. apply apply_writes_other. intros w (e & He & ->)%elem_of_take%elem_of_home_writes.
  simpl. intros ->. by eapply entries_home.
Qed.

Lemma crash_during m b :
  ~ in_log b ->
  recover (apply_writes d (logged ++ take m (home_writes v es))) b = installed d v es b.
Proof.
  intros Hb. rewrite apply_writes_app. set (d1 := apply_writes d logged).
  rewrite (recover_replay _ v h); [|done| | |done].
  - unfold installed. case_decide as Hin; [done|]. rewrite apply_writes_other; [by apply logged_outside|].
    intros w (e & He & ->)%elem_of_take%elem_of_home_writes. simpl. by intros ->.
  - unfold Recovery.disk_header. rewrite home_prefix_log by apply log_start_in_log. apply logged_header.
  - intros j e Hj. rewrite home_prefix_log; [by apply logged_slots|].
    eapply (log_slot h v (_, _)); [done|]. apply elem_of_log_writes. eauto.
Qed.

Lemma crash_after_disk b :
  ~ in_log b -> apply_writes d (commit_writes v h) b = installed d v es b.
Proof.
  intros Hb. unfold Commit.commit_writes. rewrite !app_assoc, apply_writes_app.
  rewrite apply_writes_other.
  2: { intros w ->%list_elem_of_singleton. simpl. intros <-. by apply Hb, log_start_in_log. }
  rewrite apply_writes_app. unfold installed. case_decide as Hin.
  - apply apply_writes_same.
    + by intros w (e & He & ->)%elem_of_home_writes <-.
    + eexists. split; [apply elem_of_home_writes; eauto|done].
  - rewrite apply_writes_other; [by apply logged_outside|].
    intros w (e & He & ->)%elem_of_home_writes. simpl. by intros ->.
Qed.

Lemma crash_after_header : disk_header (apply_writes d (commit_writes v h)) = clear_header h.
Proof.
  unfold Recovery.disk_header, Commit.commit_writes. rewrite !app_assoc, apply_writes_app. simpl.
  unfold disk_write at 1. simpl. rewrite Z.eqb_refl. apply decode_encode_header.
  apply (clear_header_ok sblock h Hh).
Qed.

(** At every prefix of the commit the header on disk is fit for recovery. *)
Lemma crash_commit k :
  is_block (d log_start) -> header_ok (disk_header (apply_writes d (take k (commit_writes v h)))).
Proof.
  intros Hd. unfold Commit.commit_writes.
  destruct (take_phases k (log_writes v es) (home_writes v es) (log_start, encode_header h)
    (log_start, encode_header (clear_header h))) as [(m & -> & _)|[(m & -> & _)|(-> & _)]].
  - apply empty_header_ok; [|apply crash_before_header]. unfold Recovery.disk_header.
    apply decode_header_wf. rewrite apply_writes_other; [done|].
    intros w Hw%elem_of_take. by apply log_slot in Hw as [_ Hw].
  - rewrite app_assoc, apply_writes_app. unfold Recovery.disk_header.
    rewrite home_prefix_log by apply log_start_in_log.
    fold (disk_header (apply_writes d logged)). by rewrite logged_header.
  - fold (commit_writes v h). rewrite crash_after_header. by apply clear_header_ok.
Qed.

Lemma recover_commit k :
  let d' := apply_writes d (take k (commit_writes v h)) in
  ((forall b, ~ in_log b -> recover d' b = d b) \/
   (forall b, ~ in_log b -> recover d' b = installed d v es b)) /\
  ((length es < k)%nat -> forall b, ~ in_log b -> recover d' b = installed d v es b).
Proof.
  cbn zeta. unfold Commit.commit_writes.
  assert (length (log_writes v es) = length es) as Hl1 by apply length_imap.
  destruct (take_phases k (log_writes v es) (home_writes v es) (log_start, encode_header h)
    (log_start, encode_header (clear_header h))) as [(m & -> & Hk)|[(m & -> & _)|(-> & _)]].
  - split; [left; apply crash_before|lia].
  - rewrite app_assoc. split; [right|intros _]; apply crash_during.
  - fold (commit_writes v h).
    assert (forall b, ~ in_log b ->
      recover (apply_writes d (commit_writes v h)) b = installed d v es b) as H.
    { intros b Hb. rewrite recover_empty; [by apply crash_after_disk| |done].
      by rewrite crash_after_header. }
    split; [by right|done].
Qed.
End one_commit.
(** ** A crash during recovery *)

Lemma recover_slot d j e :
  header_ok (disk_header d) -> header_entries (disk_header d) !! j = Some e ->
  recover d e = d (log_start + Z.of_nat j + 1).
Proof.
  intros Hh Hj. unfold recover, Recovery.recovery_writes. rewrite apply_writes_app.
  rewrite apply_writes_other.
  2: { intros w ->%list_elem_of_singleton. simpl. intros <-.
       eapply entries_home; [exact Hh|by eapply list_elem_of_lookup_2|apply log_start_in_log]. }
  apply apply_writes_same.
  - intros w (i & b & Hi & ->)%elem_of_replay_writes. simpl. intros ->.
    assert (i = j) as ->; [|done]. by eapply NoDup_lookup; [apply Hh| |].
  - eexists. split; [apply elem_of_replay_writes; eauto|done].
Qed.

Lemma recover_header d :
  header_ok (disk_header d) -> h_num_blocks (disk_header (recover d)) = 0.
Proof.
  intros Hh. unfold recover, Recovery.recovery_writes at 1.
  rewrite (eq_refl : disk_header (apply_writes d _) = decode_header (apply_writes d _ log_start)).
  rewrite apply_writes_last, decode_encode_header; [done|].
  apply memset_block_no_wf, (clear_header_ok sblock _ Hh).
Qed.

Lemma recover_prefix_header d k :
  header_ok (disk_header d) -> is_block (d log_start) ->
  header_ok (disk_header (apply_writes d (take k (recovery_writes d)))).
Proof.
  intros Hh Hd. set (h := disk_header d) in *. set (es := header_entries h).
  destruct (decide (k <= length es)%nat).
  - unfold Recovery.recovery_writes. fold h. fold es.
    rewrite take_app_le by (unfold Recovery.replay_writes; by rewrite length_imap).
    unfold Recovery.disk_header at 1. rewrite apply_writes_other; [done|].
    intros w (j & e & Hj & ->)%elem_of_take%elem_of_replay_writes. simpl. intros ->.
    eapply entries_home; [exact Hh|by eapply list_elem_of_lookup_2|apply log_start_in_log].
  - rewrite take_ge.
    2: { unfold Recovery.recovery_writes, Recovery.replay_writes. rewrite length_app, length_imap. simpl.
         fold h. fold es. lia. }
    unfold Recovery.disk_header, Recovery.recovery_writes. rewrite apply_writes_last, decode_encode_header.
    + apply memset_block_no_ok; [|done]. apply (clear_header_ok sblock _ Hh).
    + apply memset_block_no_wf, (clear_header_ok sblock _ Hh).
Qed.

Lemma recover_prefix d k b :
  header_ok (disk_header d) -> ~ in_log b ->
  recover (apply_writes d (take k (recovery_writes d))) b = recover d b.
Proof.
  intros Hh Hb. set (h := disk_header d) in *. set (es := header_entries h).
  destruct (decide (k <= length es)%nat).
  - unfold Recovery.recovery_writes at 1. fold h. fold es.
    rewrite take_app_le by (unfold Recovery.replay_writes; by rewrite length_imap).
    set (d' := apply_writes d (take k (replay_writes d es))).
    assert (forall b', in_log b' -> d' b' = d b') as Hlog.
    { intros b' Hb'. apply apply_writes_other.
      intros w (j & e & Hj & ->)%elem_of_take%elem_of_replay_writes. simpl. intros ->.
      eapply entries_home; [exact Hh|by eapply list_elem_of_lookup_2|done]. }
    rewrite (recover_replay d' (recover d) h); [|done| | |done].
    + unfold installed. case_decide as Hin; [done|].
      rewrite (recover_replay d (recover d) h); [|done|done| |done].
      * unfold installed. rewrite decide_False by done. apply apply_writes_other.
        intros w (j & e & Hj & ->)%elem_of_take%elem_of_replay_writes. simpl. intros ->.
        apply Hin. by eapply list_elem_of_lookup_2.
      * intros j e Hj. symmetry. by apply recover_slot.
    + unfold Recovery.disk_header. by rewrite Hlog by apply log_start_in_log.
    + intros j e Hj. rewrite Hlog; [symmetry; by apply recover_slot|].
      eapply (log_slot h d (_, _)); [done|]. apply elem_of_log_writes. eauto.
  - rewrite take_ge.
    2: { unfold Recovery.recovery_writes, Recovery.replay_writes. rewrite length_app, length_imap. simpl.
         fold h. fold es. lia. }
    fold (recover d). apply recover_empty; [|done].
    by rewrite recover_header.
Qed.

(** ** Blocks stay blocks *)

Lemma apply_writes_block d ws :
  (forall b, is_block (d b)) -> Forall (fun w => is_block w.2) ws ->
  forall b, is_block (apply_writes d ws b).
Proof.
  intros Hd Hws. revert d Hd. induction Hws as [|w ws Hw _ IH]; intros d Hd b; [done|].
  apply IH. intros b'. unfold disk_write. by destruct (b' =? w.1).
Qed.

Lemma commit_writes_block v h :
  header_ok h -> (forall b, is_block (v b)) -> Forall (fun w => is_block w.2) (commit_writes v h).
Proof.
  intros Hh Hv. unfold Commit.commit_writes. rewrite !Forall_app, !Forall_singleton. simpl. split_and!.
  - apply Forall_forall. intros w (j & b & _ & ->)%elem_of_log_writes. apply Hv.
  - apply encode_header_block, Hh.
  - apply Forall_forall. intros w (b & _ & ->)%elem_of_home_writes. apply Hv.
  - apply encode_header_block, (clear_header_ok sblock h Hh).
Qed.

Lemma recovery_writes_block d :
  header_ok (disk_header d) -> (forall b, is_block (d b)) ->
  Forall (fun w => is_block w.2) (recovery_writes d).
Proof.
  intros Hh Hd. unfold Recovery.recovery_writes. rewrite Forall_app, Forall_singleton. simpl. split.
  - apply Forall_forall. intros w (j & b & _ & ->)%elem_of_replay_writes. apply Hd.
  - apply encode_header_block, memset_block_no_wf, (clear_header_ok sblock _ Hh).
Qed.

Lemma dev_disk_after dev ws :
  dev_disk (mkDevice (dev_disk0 dev) (dev_writes dev ++ ws)) = apply_writes (dev_disk dev) ws.
Proof. apply apply_writes_app. Qed.

(** A boot on disk [d] shows the recovered disk. *)
Lemma wp_boot boot Q :
  (forall b, is_block (c_disk boot b)) -> header_ok (disk_header (c_disk boot)) ->
  (forall s', inv ∅ s' -> log_ok s' -> disk_header_empty sblock (c_disk s') ->
     (forall b, view s' b = recover (c_disk boot) b) -> Q tt s') ->
  wp (init_bcache sblock) Q boot.
Proof.
  intros Hb Hh HQ. apply wp_init_bcache; [done|done|]. intros s' [].
  assert (c_disk s' = recover (c_disk boot)) as E
    by (unfold c_disk at 1; rewrite bt_dev; apply dev_disk_after).
  apply HQ; [done|done| |].
  - unfold disk_header_empty. rewrite E. by apply recover_header.
  - intros b. by rewrite bt_view, E.
Qed.

(** What is in the log is what clients see beyond the disk. *)
Lemma installed_view s b :
  inv ∅ s -> log_ok s -> installed (c_disk s) (view s) (entries s) b = view s b.
Proof.
  intros Hi [_ Hp]. unfold installed. case_decide as Hin; [done|]. symmetry.
  apply (unpinned_disk sblock); [done|]. by rewrite Hp.
Qed.
End crash.

(** * Properties *)

(** C1: Crash atomicity of a commit. When the last operation in progress ends
    (nothing is acquired, no commit is under way on the disk),
    [cache_end_op] returns, and if the machine stops after any number [k] of
    its device writes, the next [init_bcache] returns with a good cache in
    which the blocks outside the log are all as they were on the disk before
    the commit, or all as the clients of the cache saw them; the latter for
    every [k] beyond the writes of the log slots. *)
Theorem commit_crash_atomic sblock ctx s :
  CacheLaws.inv sblock ∅ s -> log_ok sblock s -> c_log_lock s = false -> c_outstanding s = 1 ->
  Sem.wf (c_log_sem s) -> disk_header_empty sblock (c_disk s) ->
  wp (cache_end_op sblock ctx) (fun _ s' =>
    exists ws, c_dev s' = mkDevice (dev_disk0 (c_dev s)) (dev_writes (c_dev s) ++ ws) /\
    forall k boot,
      c_dev boot = mkDevice (dev_disk0 (c_dev s)) (dev_writes (c_dev s) ++ take k ws) ->
      wp (init_bcache sblock) (fun _ s'' =>
        CacheLaws.inv sblock ∅ s'' /\ log_ok sblock s'' /\ disk_header_empty sblock (c_disk s'') /\
        ((forall b, ~ in_log sblock b -> view s'' b = c_disk s b) \/
         (forall b, ~ in_log sblock b -> view s'' b = view s b)) /\
        ((length (entries s) < k)%nat -> forall b, ~ in_log sblock b -> view s'' b = view s b)) boot) s.
Proof.
  intros Hi Hlg Hlk Hout Hsem Hempty. pose proof (lg_header _ _ Hlg) as Hh.
  pose proof Hi as [Hci _].
  apply wp_end_op_commit; [done|done|done|lia|done|]. intros s' Hc.
  eexists. split; [apply Hc|]. intros k boot Hboot.
  set (ws := take k _) in Hboot.
  assert (c_disk boot = apply_writes (c_disk s) ws) as Ed
    by (unfold c_disk at 1; rewrite Hboot; apply dev_disk_after).
  apply wp_boot.
  - rewrite Ed. apply apply_writes_block; [apply Hci|]. apply Forall_take, commit_writes_block; [done|].
    intros b. by eapply view_block.
  - rewrite Ed. apply crash_commit; [done|done|apply Hci].
  - intros s'' Hi2 Hl2 He2 Hv2. destruct (recover_commit sblock (c_disk s) (view s) (c_header s) Hh Hempty k)
      as [Hor Hlate]. fold ws in Hor, Hlate. rewrite <- Ed in Hor, Hlate.
    split_and!; try done.
    + destruct Hor as [H|H]; [left|right]; intros b Hb; rewrite Hv2, H by done; [done|].
      by apply (installed_view sblock).
    + intros Hk b Hb. rewrite Hv2, Hlate by done. by apply (installed_view sblock).
Qed.

(** C22: Recovery may itself be interrupted. A disk on which [init_bcache] was
    stopped after any number of its device writes is recovered by the next
    [init_bcache] to the same contents outside the log. *)
Theorem recovery_idempotent sblock boot k boot' :
  (forall b, is_block (c_disk boot b)) -> header_ok sblock (disk_header sblock (c_disk boot)) ->
  wp (init_bcache sblock) (fun _ s1 =>
    exists ws, c_dev s1 = mkDevice (dev_disk0 (c_dev boot)) (dev_writes (c_dev boot) ++ ws) /\
    (c_dev boot' = mkDevice (dev_disk0 (c_dev boot)) (dev_writes (c_dev boot) ++ take k ws) ->
     wp (init_bcache sblock) (fun _ s2 =>
       CacheLaws.inv sblock ∅ s2 /\ forall b, ~ in_log sblock b -> view s2 b = view s1 b) boot')) boot.
Proof.
  intros Hb Hh. apply wp_init_bcache; [done|done|]. intros s1 Hs1.
  eexists. split; [apply Hs1|]. intros Hboot.
  set (ws := take k _) in Hboot.
  assert (c_disk boot' = apply_writes (c_disk boot) ws) as Ed
    by (unfold c_disk at 1; rewrite Hboot; apply dev_disk_after).
  assert (c_disk s1 = recover sblock (c_disk boot)) as E1
    by (unfold c_disk at 1; rewrite (bt_dev _ _ _ Hs1); apply dev_disk_after).
  apply wp_boot.
  - rewrite Ed. apply apply_writes_block; [done|]. by apply Forall_take, recovery_writes_block.
  - rewrite Ed. by apply recover_prefix_header.
  - intros s2 Hi2 _ _ Hv2. split; [done|]. intros b Hbl.
    rewrite Hv2, (bt_view _ _ _ Hs1), E1, Ed. by apply recover_prefix.
Qed.

(** ** Examples

    A file system of 1000 blocks whose log starts at block 2, all zeroes; block
    100 has been overwritten with ones by the only operation in progress. *)
Definition example_sb : SuperBlock := mkSuperBlock 1000 900 200 63 2 65 90.
Definition example_block : Block :=
  mkBlock 0 100 false true (Sem.mkSem 1 []) true (replicate 512 1).
Definition example_header : LogHeader := mkLogHeader 1 (100 :: replicate 62 0).
Definition example_state : CacheState :=
  mkCache false false false [example_block] example_header 1 1 (Sem.init_sem 0) {[7 := 9]}
    (mkDevice (fun _ => zero_block) []) 1.

Lemma ones_block : is_block (replicate 512 1).
Proof. split; [reflexivity|]. apply Forall_replicate. unfold is_byte. lia. Qed.

Lemma example_inv : CacheLaws.inv example_sb ∅ example_state.
Proof.
  split; [|done]. split; simpl; try done.
  - apply NoDup_singleton.
  - apply NoDup_singleton.
  - intros blk ->%list_elem_of_singleton. split; simpl; try done. apply ones_block.
  - intros b. apply zero_block_block.
Qed.

Lemma example_header_ok : header_ok example_sb example_header.
Proof.
  split.
  - split_and!; [unfold is_word; simpl; lia|done|].
    constructor; [unfold is_word; simpl; lia|]. apply Forall_replicate. unfold is_word. simpl. lia.
  - rewrite LOG_MAX_SIZE_eq. simpl. lia.
  - apply NoDup_singleton.
  - constructor; [|constructor]. split; [unfold is_word; simpl; lia|].
    unfold in_log. rewrite LOG_MAX_SIZE_eq. simpl. lia.
Qed.

Lemma example_log_ok : log_ok example_sb example_state.
Proof.
  split; [apply example_header_ok|]. intros b. change (entries example_state) with [100].
  rewrite list_elem_of_singleton. split.
  - intros (blk & ->%list_elem_of_singleton & <- & _). done.
  - intros ->. exists example_block. split_and!; [left|done|done].
Qed.

Lemma commit_crash_atomic_witness :
  wp (cache_end_op example_sb 7) (fun _ s' =>
    exists ws, c_dev s' = mkDevice (fun _ => zero_block) ([] ++ ws) /\
    forall k boot, c_dev boot = mkDevice (fun _ => zero_block) ([] ++ take k ws) ->
      wp (init_bcache example_sb) (fun _ s'' =>
        CacheLaws.inv example_sb ∅ s'' /\ log_ok example_sb s'' /\
        disk_header_empty example_sb (c_disk s'') /\
        ((forall b, ~ in_log example_sb b -> view s'' b = c_disk example_state b) \/
         (forall b, ~ in_log example_sb b -> view s'' b = view example_state b)) /\
        ((1 < k)%nat -> forall b, ~ in_log example_sb b -> view s'' b = view example_state b)) boot)
    example_state.
Proof.
  apply (commit_crash_atomic example_sb 7 example_state);
    [apply example_inv|apply example_log_ok|reflexivity|reflexivity|reflexivity|reflexivity].
Defined.

Lemma recovery_idempotent_witness :
  let boot := set_dev (mkDevice (fun b => if b =? 2 then encode_header example_header else replicate 512 1) [])
                example_state in
  wp (init_bcache example_sb) (fun _ s1 =>
    exists ws, c_dev s1 = mkDevice (dev_disk0 (c_dev boot)) (dev_writes (c_dev boot) ++ ws) /\
    (c_dev boot = mkDevice (dev_disk0 (c_dev boot)) (dev_writes (c_dev boot) ++ take 0 ws) ->
     wp (init_bcache example_sb) (fun _ s2 =>
       CacheLaws.inv example_sb ∅ s2 /\
       forall b, ~ in_log example_sb b -> view s2 b = view s1 b) boot)) boot.
Proof.
  intros boot. apply (recovery_idempotent example_sb boot 0 boot).
  - intros b. unfold c_disk, dev_disk. simpl. destruct (b =? 2); [|apply ones_block].
    apply encode_header_block, example_header_ok.
  - change (disk_header example_sb (c_disk boot)) with (decode_header (encode_header example_header)).
    rewrite decode_encode_header; apply example_header_ok.
Defined.
