(* ===== verification/Reserve.v ===== *)
(** Log reservation and block allocation ([cache_begin_op], [cache_sync],
    [cache_alloc], [cache_free] of src/fs/cache.c).

    [cache_begin_op] lets an operation in only when the log has room for all
    the blocks the operations in progress may still sync; the invariant
    [room] makes this precise, and with it [cache_sync] never meets a full
    log. *)
From Stdlib Require Import ZArith Lia.
From stdpp Require Import base numbers gmap sets list fin_maps.
From S2P Require Import Prelude Bytes Bitmap Sync FsDefs Cache CacheLaws LogLaws Crash.

(** ** The blocks the operations in progress may still add to the log *)

Definition rm_sum (ops : gmap Z Z) : Z := map_fold (fun _ r acc => r + acc) 0 ops.

Lemma rm_sum_insert ops ctx r :
  ops !! ctx = None -> rm_sum (<[ctx := r]> ops) = r + rm_sum ops.
Proof.
  intros E. unfold rm_sum. rewrite map_fold_insert_L; [done| |done]. intros. lia.
Qed.

Lemma rm_sum_delete ops ctx r :
  ops !! ctx = Some r -> rm_sum (delete ctx ops) = rm_sum ops - r.
Proof.
  intros E. rewrite <- (insert_delete_id ops ctx r E) at 2.
  rewrite rm_sum_insert by apply lookup_delete_eq. lia.
Qed.

Lemma rm_sum_update ops ctx r r' :
  ops !! ctx = Some r -> rm_sum (<[ctx := r']> ops) = rm_sum ops - r + r'.
Proof.
  intros E. rewrite <- insert_delete_eq, rm_sum_insert by apply lookup_delete_eq.
  rewrite (rm_sum_delete _ _ r) by done. lia.
Qed.

Lemma rm_sum_bounds ops :
  (forall ctx r, ops !! ctx = Some r -> 0 <= r <= OP_MAX_NUM_BLOCKS) ->
  0 <= rm_sum ops <= OP_MAX_NUM_BLOCKS * Z.of_nat (size ops).
Proof.
  induction ops as [|ctx r ops E IH] using map_ind; intros Hr.
  - unfold rm_sum. rewrite map_fold_empty, map_size_empty. unfold OP_MAX_NUM_BLOCKS. lia.
  - rewrite rm_sum_insert, map_size_insert_None by done.
    assert (0 <= r <= OP_MAX_NUM_BLOCKS) by (apply (Hr ctx); apply lookup_insert_eq).
    assert (0 <= rm_sum ops <= OP_MAX_NUM_BLOCKS * Z.of_nat (size ops)).
    { apply IH. intros c x Hc. apply (Hr c). rewrite lookup_insert_ne; [done|]. congruence. }
    unfold OP_MAX_NUM_BLOCKS in *. lia.
Qed.

Record room (s : CacheState) : Prop := {
  ro_outstanding : c_outstanding s = Z.of_nat (size (c_ops s));
  ro_range : forall ctx r, c_ops s !! ctx = Some r -> 0 <= r <= OP_MAX_NUM_BLOCKS;
  ro_room : 0 <= h_num_blocks (c_header s) /\
            h_num_blocks (c_header s) + rm_sum (c_ops s) < LOG_MAX_SIZE;
  ro_few : c_outstanding s * OP_MAX_NUM_BLOCKS < LOG_MAX_SIZE;
}.

Lemma room_slot s ctx rm :
  room s -> c_ops s !! ctx = Some rm -> 0 < rm -> h_num_blocks (c_header s) + 1 < LOG_MAX_SIZE.
Proof.
  intros [_ Hr Hm _] E Hrm.
  assert (rm <= rm_sum (c_ops s)); [|lia].
  assert (0 <= rm_sum (delete ctx (c_ops s))).
  { apply rm_sum_bounds. intros c r Hc. apply (Hr c). apply lookup_delete_Some in Hc. tauto. }
  rewrite (rm_sum_delete _ _ rm) in H by done. lia.
Qed.

(** ** [cache_begin_op] *)

Section begin_op.

(** The reservation test of the loop, as a number of the log's slots. *)
Definition full (s : CacheState) : Prop :=
  LOG_MAX_SIZE <= h_num_blocks (c_header s) + (c_outstanding s + 1) * OP_MAX_NUM_BLOCKS.

Lemma begin_wait_spec fuel s :
  c_log_lock s = true -> 0 <= h_num_blocks (c_header s) < 2 ^ 60 -> 0 <= c_outstanding s < 2 ^ 31 ->
  Z.to_nat (Sem.val (c_log_sem s)) = fuel ->
  match begin_wait fuel s with
  | Done _ s' => s' = s /\ ~ full s
  | Blocked s' => full s /\ c_log_lock s' = false /\ c_header s' = c_header s /\
                  c_outstanding s' = c_outstanding s /\ c_ops s' = c_ops s /\
                  Sem.val (c_log_sem s') < 0
  | _ => False
  end.
Proof.
  intros Hlk Hh Ho Hf.
  assert (u64 (h_num_blocks (c_header s) + (c_outstanding s + 1) * OP_MAX_NUM_BLOCKS) =
          h_num_blocks (c_header s) + (c_outstanding s + 1) * OP_MAX_NUM_BLOCKS) as Eu.
  { apply wrap_small. unfold OP_MAX_NUM_BLOCKS. lia. }
  revert s Hlk Hh Ho Hf Eu. induction fuel as [|fuel IH]; intros s Hlk Hh Ho Hf Eu;
    cbn [begin_wait]; unfold get_state, mbind, M_bind; rewrite Eu;
    (destruct (Z.leb_spec LOG_MAX_SIZE (h_num_blocks (c_header s) + (c_outstanding s + 1) * OP_MAX_NUM_BLOCKS));
      [|split; [done|unfold full; lia]]); unfold Sem._wait_sem_enter.
  - rewrite (proj2 (Z.leb_gt 0 _)) by lia. simpl. unfold full. split_and!; try done. lia.
  - rewrite (proj2 (Z.leb_le 0 _)) by lia. simpl.
    set (s1 := set_log_lock true _).
    specialize (IH s1 eq_refl Hh Ho).
    assert (Z.to_nat (Sem.val (c_log_sem s1)) = fuel) as Hf1 by (simpl; lia).
    specialize (IH Hf1 Eu). destruct (begin_wait fuel s1); try done.
    destruct IH as [_ Hn]. unfold full in Hn. simpl in Hn. lia.
Qed.

Lemma begin_op_spec ctx s :
  room s -> c_log_lock s = false -> c_ops s !! ctx = None ->
  match cache_begin_op ctx s with
  | Done _ s' => ~ full s /\ room s' /\
      s' = set_log_lock false (set_outstanding (c_outstanding s + 1)
             (set_ops (<[ctx := OP_MAX_NUM_BLOCKS]> (c_ops s)) (set_log_lock true s)))
  | Blocked s' => full s /\ c_log_lock s' = false /\ c_header s' = c_header s /\
      c_outstanding s' = c_outstanding s /\ Sem.val (c_log_sem s') < 0
  | _ => False
  end.
Proof.
  intros [H1 H2 H3 H4] Hlk Hctx.
  unfold cache_begin_op, log_lock, acquire_spinlock, modify, get_state, mbind, M_bind.
  rewrite Hlk. set (s1 := set_ops _ _).
  pose proof (rm_sum_bounds _ H2) as Hsum. rewrite LOG_MAX_SIZE_eq in *. unfold OP_MAX_NUM_BLOCKS in *.
  pose proof (begin_wait_spec (Z.to_nat (Sem.val (c_log_sem s1))) s1) as Hw.
  destruct (begin_wait _ s1) as [[] s2| |s2|]; simpl in Hw.
  - destruct Hw as [-> Hf]; [done|lia|lia|done|]. unfold full in Hf. simpl in Hf.
    unfold OP_MAX_NUM_BLOCKS in Hf. rewrite LOG_MAX_SIZE_eq in Hf.
    split; [unfold full, OP_MAX_NUM_BLOCKS; rewrite LOG_MAX_SIZE_eq; lia|]. split; [|done].
    split; simpl; unfold OP_MAX_NUM_BLOCKS; rewrite ?LOG_MAX_SIZE_eq.
    + rewrite map_size_insert_None by done. lia.
    + intros c r. rewrite lookup_insert_Some. intros [[_ <-]|[_ Hc]]; [lia|by apply (H2 c)].
    + rewrite rm_sum_insert by done. lia.
    + lia.
  - apply Hw; [done|lia|lia|done].
  - destruct Hw as (Hf & A1 & A2 & A3 & A4 & A5); [done|lia|lia|done|]. done.
  - apply Hw; [done|lia|lia|done].
Qed.
End begin_op.

(** ** [cache_sync] *)

Section sync.
Context (sblock : SuperBlock).
Abbreviation log_start := (sb_log_start sblock).
Abbreviation inv := (CacheLaws.inv sblock).
Abbreviation log_ok := (LogLaws.log_ok sblock).
Abbreviation loggable := (LogLaws.loggable sblock).

(** The budget of an operation after it synced block [b]. *)
Definition spend (s : CacheState) (b rm : Z) : Z := if decide (b ∈ entries s) then rm else rm - 1.

Lemma room_sync s s' ctx rm b :
  room s -> header_ok sblock (c_header s) -> c_ops s !! ctx = Some rm -> (b ∈ entries s \/ 0 < rm) ->
  c_outstanding s' = c_outstanding s ->
  (if decide (b ∈ entries s) then c_header s' = c_header s /\ c_ops s' = c_ops s
   else c_header s' = header_add (c_header s) b /\ c_ops s' = <[ctx := rm - 1]> (c_ops s)) ->
  room s' /\ c_ops s' !! ctx = Some (spend s b rm) /\ b ∈ entries s' /\
  (forall b', b' ∈ entries s' <-> b' = b \/ b' ∈ entries s).
Proof.
  intros Hroom Hh E Hb Ho Hs. pose proof (room_slot s ctx rm Hroom E) as Hsl.
  destruct Hroom as [H1 H2 H3 H4]. unfold spend.
  destruct (decide (b ∈ entries s)) as [Hin|Hin]; destruct Hs as [Eh Eo].
  - unfold entries. rewrite Eh, Eo. fold (entries s). split_and!; [|done|done|].
    + split; rewrite ?Ho, ?Eo, ?Eh; done.
    + intros b'. split; [by right|]. by intros [->|].
  - destruct Hb as [Hb|Hrm]; [done|].
    assert (entries s' = entries s ++ [b]) as Ee.
    { unfold entries. rewrite Eh. by eapply header_add_entries. }
    rewrite Ee. split_and!.
    + split; rewrite ?Ho, ?Eo, ?Eh; simpl.
      * rewrite H1. rewrite map_size_insert_Some; eauto.
      * intros c r. rewrite lookup_insert_Some. intros [[-> <-]|[_ Hc]]; [|by apply (H2 c)].
        apply H2 in E. lia.
      * rewrite (rm_sum_update _ _ rm) by done. lia.
      * done.
    + rewrite Eo. apply lookup_insert_eq.
    + set_solver.
    + set_solver.
Qed.

(** What syncing leaves alone. *)
Definition sync_frame (s s' : CacheState) : Prop :=
  c_log_lock s' = false /\ c_bitmap_lock s' = c_bitmap_lock s /\
  c_outstanding s' = c_outstanding s /\ c_log_sem s' = c_log_sem s /\ c_dev s' = c_dev s.

Lemma wp_sync hs s ctx p b rm Q :
  inv hs s -> log_ok s -> room s -> c_log_lock s = false -> holds s p b -> loggable b ->
  ctx <> 0 -> c_ops s !! ctx = Some rm -> (b ∈ entries s \/ 0 < rm) ->
  (forall s', inv hs s' -> log_ok s' -> room s' -> sync_frame s s' ->
     (forall b', view s' b' = view s b') -> (forall q b', holds s' q b' <-> holds s q b') ->
     c_ops s' !! ctx = Some (spend s b rm) ->
     (forall b', b' ∈ entries s' <-> b' = b \/ b' ∈ entries s) -> Q tt s') ->
  wp (cache_sync ctx p) Q s.
Proof.
  intros Hi Hlg Hroom Hlk Hp Hb Hctx Hrm Hor HQ.
  eapply (wp_cache_sync sblock); try done.
  { destruct Hor as [|Hrm0]; [by left|right]. split; [done|]. by eapply room_slot. }
  intros s' Hi' Hlg' L1 L2 L3 L4 L5 Hv Hh Hs.
  destruct (room_sync s s' ctx rm b) as (R1 & R2 & _ & R3); try done; [apply Hlg|].
  by apply HQ.
Qed.

(** ** [cache_alloc] and [cache_free] *)

Lemma wp_bitmap_lock s Q :
  c_bitmap_lock s = false -> Q tt (set_bitmap_lock true s) -> wp bitmap_lock Q s.
Proof. intros E HQ. unfold wp, bitmap_lock, acquire_spinlock. by rewrite E. Qed.

(** Bit [i] of the bitmap block [d]. *)
Definition bit_of (d : list Z) (i : Z) : option bool := bitmap_get (as_cells d) i.

Definition bitmap_put (v : bool) : list Z -> Z -> option (list Z) :=
  if v then bitmap_set else bitmap_clear.

Definition set_bit (d : list Z) (i : Z) (v : bool) : list Z :=
  default d (as_bytes <$> bitmap_put v (as_cells d) i).

Lemma set_bit_spec d i v :
  is_block d -> 0 <= i < BIT_PER_BLOCK ->
  bitmap_put v (as_cells d) i = Some (as_cells (set_bit d i v)) /\
  as_bytes (as_cells (set_bit d i v)) = set_bit d i v /\
  is_block (set_bit d i v) /\
  forall j, 0 <= j -> bit_of (set_bit d i v) j = if decide (i = j) then Some v else bit_of d j.
Proof.
  intros [Hl Hb] Hi. change BIT_PER_BLOCK with 4096 in Hi.
  destruct (as_cells_spec 64 d) as (Hn & Hc & Ha); [done|done|].
  assert (is_Some (bitmap_put v (as_cells d) i)) as [cells E].
  { destruct v; [apply bitmap_set_is_some|apply bitmap_clear_is_some];
      rewrite Hn; unfold BITMAP_BITS_PER_CELL; lia. }
  assert (Forall is_cell cells /\ length cells = 64%nat) as [Hc' Hn'].
  { rewrite <- Hn. destruct v; [by eapply bitmap_set_wf|by eapply bitmap_clear_wf]. }
  unfold set_bit. rewrite E. simpl. unfold bit_of. rewrite as_cells_as_bytes by done.
  split_and!; [done|done| |].
  - split; [unfold as_bytes; by rewrite length_words_bytes, Hn'|apply words_bytes_bytes].
  - intros j Hj. destruct v; [eapply bitmap_set_get|eapply bitmap_clear_get]; eauto; lia.
Qed.

Lemma bit_of_some d i : is_block d -> 0 <= i < BIT_PER_BLOCK -> is_Some (bit_of d i).
Proof.
  intros [Hl Hb] Hi. change BIT_PER_BLOCK with 4096 in Hi. unfold bit_of.
  destruct (as_cells_spec 64 d) as (Hn & Hc & Ha); [done|done|].
  rewrite bitmap_get_spec by lia. apply fmap_is_Some, bitmap_in_range. rewrite Hn.
  unfold BITMAP_BITS_PER_CELL. lia.
Qed.

(** ** Operations that hold one block at a time

    The clients of the cache acquire a block, change it, sync it and release
    it before they acquire the next; [tx_ok hs] is the state between two of
    their calls while they hold [hs]. *)
Record tx_ok (hs : gset Z) (s : CacheState) : Prop := {
  tx_inv : inv hs s;
  tx_log : log_ok s;
  tx_room : room s;
  tx_lock : c_log_lock s = false;
}.

Lemma entries_frame s s' : frame s s' -> entries s' = entries s.
Proof. intros (_ & _ & E & _). unfold entries. by rewrite E. Qed.

Lemma tx_frame hs hs' s s' :
  tx_ok hs s -> inv hs' s' -> frame s s' -> (forall b, pinned s' b <-> pinned s b) -> tx_ok hs' s'.
Proof.
  intros [_ [G1 G2] [R1 R2 R3 R4] Hlk] Hi Hf Hp. pose proof (entries_frame _ _ Hf) as Ee.
  destruct Hf as (F1 & F2 & F3 & F4 & F5 & F6). split; [done| | |congruence].
  - split; [by rewrite F3|]. intros b. by rewrite Hp, Ee.
  - split; rewrite ?F3, ?F4, ?F6; done.
Qed.

Lemma loggable_not_start b : loggable b -> b <> log_start.
Proof. intros [_ Hb] ->. by apply Hb, Commit.log_start_in_log. Qed.

Lemma wp_tx_acquire s b Q :
  tx_ok ∅ s -> b <> log_start ->
  (forall p s', tx_ok {[p]} s' -> frame s s' -> c_dev s' = c_dev s -> holds s' p b ->
     (forall b', view s' b' = view s b') -> Q p s') ->
  wp (cache_acquire b) Q s.
Proof.
  intros Ht Hb HQ. eapply (wp_cache_acquire sblock ∅); [apply Ht|done|set_solver|].
  intros p s1 Hi1 Hf1 Hd1 _ Hh1 Hv1 _ Hp1. rewrite union_empty_r_L in Hi1.
  apply HQ; auto. by eapply tx_frame.
Qed.

Lemma wp_tx_data s p b Q :
  tx_ok {[p]} s -> holds s p b -> Q (view s b) s -> wp (block_data p) Q s.
Proof. intros [[Hi _] _ _ _]. eapply wp_block_data; exact Hi. Qed.

(** Releasing a block that was only read. *)
Lemma wp_tx_release s p b Q :
  tx_ok {[p]} s -> holds s p b -> (b ∈ entries s \/ view s b = c_disk s b) ->
  (forall s', tx_ok ∅ s' -> frame s s' -> c_dev s' = c_dev s ->
     (forall b', view s' b' = view s b') -> Q tt s') ->
  wp (cache_release p) Q s.
Proof.
  intros Ht Hh Hc HQ. eapply (wp_cache_release sblock); [apply Ht|set_solver|exact Hh| |].
  { destruct Hc as [Hc|Hc]; [left; by apply (tx_log _ _ Ht)|by right]. }
  intros s1 Hi1 Hf1 Hd1 Hv1 Hh1 Hp1. apply HQ; auto. eapply tx_frame; [exact Ht| |done|done].
  by replace ∅ with ({[p]} ∖ {[p]} : gset Z) by set_solver.
Qed.

(** The effect of syncing block [b] with contents [d] in operation [ctx]. *)
Record synced (ctx b : Z) (d : list Z) (s s' : CacheState) : Prop := {
  sy_frame : sync_frame s s';
  sy_view : forall b', view s' b' = if decide (b' = b) then d else view s b';
  sy_rm : forall rm, c_ops s !! ctx = Some rm -> c_ops s' !! ctx = Some (spend s b rm);
  sy_entries : forall b', b' ∈ entries s' <-> b' = b \/ b' ∈ entries s;
}.

(** Storing into an acquired block, syncing and releasing it. *)
Lemma wp_tx_store_sync_release {A} s ctx p b rm d (k : M CacheState A) Q :
  tx_ok {[p]} s -> holds s p b -> loggable b ->
  ctx <> 0 -> c_ops s !! ctx = Some rm -> (b ∈ entries s \/ 0 < rm) -> is_block d ->
  (forall s', tx_ok ∅ s' -> synced ctx b d s s' -> wp k Q s') ->
  wp (block_store p d ;; cache_sync ctx p ;; cache_release p ;; k) Q s.
Proof.
  intros Ht Hp Hb Hctx Hrm Hor Hd HQ. pose proof (tx_inv _ _ Ht) as [Hi Hl].
  wp_step. eapply wp_block_store; [exact Hi|set_solver|exact Hp|done|].
  intros s1 Hi1 Hf1 Hl1 Hd1 Hv1 Hh1 Hp1.
  assert (tx_ok {[p]} s1) as Ht1 by (eapply tx_frame; [exact Ht|split; [done|congruence]|done|done]).
  pose proof (entries_frame _ _ Hf1) as Ee. destruct Hf1 as (A1 & A2 & A3 & A4 & A5 & A6).
  wp_step. eapply (wp_sync {[p]} s1 ctx p b rm); try apply Ht1; try done.
  - by apply Hh1.
  - by rewrite A6.
  - by rewrite Ee.
  - intros s2 Hi2 Hlg2 Hr2 (B1 & B2 & B3 & B4 & B5) Hv2 Hh2 Ho2 He2.
    wp_step. eapply wp_tx_release; [by split|by apply Hh2, Hh1| |].
    { left. apply He2. by left. }
    intros s3 Ht3 Hf3 Hd3 Hv3. pose proof (entries_frame _ _ Hf3) as Ee3.
    destruct Hf3 as (C1 & C2 & C3 & C4 & C5 & C6). apply HQ; [done|]. split.
    + unfold sync_frame. split_and!; congruence.
    + intros b'. by rewrite Hv3, Hv2, Hv1.
    + intros rm' E. assert (rm' = rm) as -> by congruence. rewrite C6, Ho2. unfold spend. by rewrite Ee.
    + intros b'. by rewrite Ee3, He2, Ee.
Qed.

Lemma spend_ge s b rm : rm - 1 <= spend s b rm.
Proof. unfold spend. case_decide; lia. Qed.

(** ** [cache_alloc] and [cache_free] *)

(** The first clear bit, below [n]. *)
Definition first_free (d : list Z) (n i : Z) : Prop :=
  0 <= i < n /\ bit_of d i = Some false /\ forall j, 0 <= j < i -> bit_of d j = Some true.

Abbreviation bm := (sb_bitmap_start sblock).

Lemma tx_bitmap_lock v hs s : tx_ok hs s -> tx_ok hs (set_bitmap_lock v s).
Proof.
  intros [[Hi Hl] [] [] Hlk]. split; [split; [by eapply cinv_ext|done]|done|done|done].
Qed.

(** The effect of [cache_alloc] returning [i]. *)
Record allocated (ctx i : Z) (s s' : CacheState) : Prop := {
  al_frame : sync_frame s s';
  al_view : forall b, view s' b = if decide (b = i) then zero_block
                                  else if decide (b = bm) then set_bit (view s bm) i true
                                  else view s b;
  al_rm : forall rm, c_ops s !! ctx = Some rm -> exists rm', c_ops s' !! ctx = Some rm' /\ rm - 2 <= rm';
  al_entries : forall b, b ∈ entries s' <-> b = i \/ b = bm \/ b ∈ entries s;
}.

Lemma wp_alloc_found s ctx rm i p Q :
  tx_ok {[p]} s -> holds s p bm -> c_bitmap_lock s = true -> loggable bm -> loggable i -> i <> bm ->
  ctx <> 0 -> c_ops s !! ctx = Some rm -> 2 <= rm -> 0 <= i < BIT_PER_BLOCK ->
  (forall s', tx_ok ∅ s' -> allocated ctx i (set_bitmap_lock false s) s' -> Q (Some i) s') ->
  wp (block_store p (set_bit (view s bm) i true) ;; cache_sync ctx p ;; cache_release p ;;
      q ← cache_acquire i;
      block_store q zero_block ;; cache_sync ctx q ;; cache_release q ;;
      bitmap_unlock ;; mret (Some i)) Q s.
Proof.
  intros Ht Hp Hbl Hbm Hil Hne Hctx Hrm Hrm2 Hi HQ.
  destruct (set_bit_spec (view s bm) i true) as (_ & _ & Hblk & _); [|done|].
  { eapply view_block, Ht. }
  eapply (wp_tx_store_sync_release s ctx p bm rm); auto; [right; lia|].
  intros s2 Ht2 [(B1 & B2 & B3 & B4 & B5) Hv2 Ho2 He2].
  pose proof (Ho2 rm Hrm) as Hrm'. pose proof (spend_ge s bm rm) as Hsp1.
  wp_step. apply wp_tx_acquire; [done|by apply loggable_not_start|].
  intros q s3 Ht3 Hf3 Hd3 Hh3 Hv3. pose proof (entries_frame _ _ Hf3) as Ee3.
  destruct Hf3 as (C1 & C2 & C3 & C4 & C5 & C6).
  eapply (wp_tx_store_sync_release s3 ctx q i (spend s bm rm)); auto with kernel.
  { by rewrite C6. }
  { right. lia. }
  intros s4 Ht4 [(D1 & D2 & D3 & D4 & D5) Hv4 Ho4 He4].
  wp_step. apply wp_modify. wp_step. apply HQ; [by apply tx_bitmap_lock|].
  split; simpl.
  - unfold sync_frame. simpl. split_and!; congruence.
  - intros b. change (view s4 b = if decide (b = i) then zero_block
      else if decide (b = bm) then set_bit (view s bm) i true else view s b).
    by rewrite Hv4, Hv3, Hv2.
  - intros rm' E. assert (rm' = rm) as -> by congruence. rewrite <- C6 in Hrm'.
    rewrite (Ho4 _ Hrm'). eexists. split; [done|]. pose proof (spend_ge s3 i (spend s bm rm)). lia.
  - intros b. change (b ∈ entries s4 <-> b = i \/ b = bm \/ b ∈ entries s).
    by rewrite He4, Ee3, He2.
Qed.

Lemma wp_cache_alloc ctx s rm i Q :
  tx_ok ∅ s -> c_bitmap_lock s = false -> ctx <> 0 -> c_ops s !! ctx = Some rm -> 2 <= rm ->
  sb_num_blocks sblock <= BIT_PER_BLOCK -> loggable bm ->
  first_free (view s bm) (sb_num_blocks sblock) i -> loggable i -> i <> bm ->
  (forall s', tx_ok ∅ s' -> allocated ctx i s s' -> Q i s') ->
  wp (cache_alloc sblock ctx) Q s.
Proof.
  intros Ht Hbl Hctx Hrm Hrm2 Hn Hbm (Hir & Hfree & Hused) Hil Hne HQ.
  unfold cache_alloc. wp_step. apply wp_bitmap_lock; [done|]. wp_step.
  apply wp_tx_acquire; [by apply tx_bitmap_lock|by apply loggable_not_start|].
  intros p s1 Ht1 Hf1 Hd1 Hh1 Hv1. change (forall b', view s1 b' = view s b') in Hv1.
  pose proof (entries_frame _ _ Hf1 : entries s1 = entries s) as Ee1.
  destruct Hf1 as (A1 & A2 & A3 & A4 & A5 & A6). simpl in *.
  wp_step. apply (wp_for_loop (fun j s' => s' = s1 /\ j <= i)); [split; [done|lia]| |].
  2: { intros s' [_ Hle]. lia. }
  intros j s' Hj [-> Hji]. wp_step. eapply wp_tx_data; [exact Ht1|exact Hh1|]. wp_step.
  destruct (decide (j = i)) as [->|Hji'].
  2: { eapply wp_deref; [rewrite Hv1; apply Hused; lia|]. wp_step. split; [done|lia]. }
  eapply wp_deref; [rewrite Hv1; exact Hfree|].
  destruct (set_bit_spec (view s1 bm) i true) as (Eset & Eby & _); [eapply view_block, Ht1|lia|].
  wp_step. eapply wp_deref; [exact Eset|]. rewrite Eby.
  eapply (wp_alloc_found s1 ctx rm i p); auto; [by rewrite A6|lia|].
  intros s2 Ht2 [G1 G2 G3 G4]. wp_step. apply HQ; [done|]. split.
  - unfold sync_frame in *. simpl in *. destruct G1 as (? & ? & ? & ? & ?). split_and!; congruence.
  - intros b. rewrite G2.
    change (view (set_bitmap_lock false s1)) with (view s1). by rewrite !Hv1.
  - intros rm' E. apply G3. simpl. by rewrite A6.
  - intros b. rewrite G4. change (entries (set_bitmap_lock false s1)) with (entries s1). by rewrite Ee1.
Qed.

(** No free bit: the allocator gives back the bitmap block and panics. *)
Lemma cache_alloc_full ctx s :
  tx_ok ∅ s -> c_bitmap_lock s = false -> sb_num_blocks sblock <= BIT_PER_BLOCK -> loggable bm ->
  (forall i, 0 <= i < sb_num_blocks sblock -> bit_of (view s bm) i = Some true) ->
  panics (cache_alloc sblock ctx) (fun s' => tx_ok ∅ s' /\ c_dev s' = c_dev s) s.
Proof.
  intros Ht Hbl Hn Hbm Hused.
  unfold cache_alloc. apply panics_bind, wp_bitmap_lock; [done|]. apply panics_bind.
  apply wp_tx_acquire; [by apply tx_bitmap_lock|by apply loggable_not_start|].
  intros p s1 Ht1 Hf1 Hd1 Hh1 Hv1. change (forall b', view s1 b' = view s b') in Hv1.
  pose proof (entries_frame _ _ Hf1 : entries s1 = entries s) as Ee1.
  apply panics_bind. apply (wp_for_loop (fun j s' => s' = s1)); [done| |].
  - intros j s' Hj ->. wp_step. eapply wp_tx_data; [exact Ht1|exact Hh1|]. wp_step.
    eapply wp_deref; [rewrite Hv1; apply Hused; lia|]. by wp_step.
  - intros s' ->. apply panics_bind. eapply wp_tx_release; [done|done| |].
    { destruct (settled sblock ∅ s bm) as [Hp|Hp]; [apply Ht|set_solver| |].
      - left. rewrite Ee1. by apply (tx_log _ _ Ht).
      - right. rewrite Hv1, Hp. unfold c_disk. by rewrite Hd1. }
    intros s2 Ht2 _ Hd2 _. apply panics_bind, wp_modify. split; [by apply tx_bitmap_lock|].
    simpl. by rewrite Hd2, Hd1.
Qed.

(** [cache_free] clears the bit of the block and leaves its contents. *)
Lemma wp_cache_free ctx s rm i Q :
  tx_ok ∅ s -> c_bitmap_lock s = false -> ctx <> 0 -> c_ops s !! ctx = Some rm ->
  (bm ∈ entries s \/ 0 < rm) -> loggable bm -> 0 <= i < BIT_PER_BLOCK ->
  (forall s', tx_ok ∅ s' -> synced ctx bm (set_bit (view s bm) i false) s s' -> Q tt s') ->
  wp (cache_free sblock ctx i) Q s.
Proof.
  intros Ht Hbl Hctx Hrm Hor Hbm Hi HQ.
  unfold cache_free. wp_step. apply wp_bitmap_lock; [done|]. wp_step.
  apply wp_tx_acquire; [by apply tx_bitmap_lock|by apply loggable_not_start|].
  intros p s1 Ht1 Hf1 Hd1 Hh1 Hv1. change (forall b', view s1 b' = view s b') in Hv1.
  pose proof (entries_frame _ _ Hf1 : entries s1 = entries s) as Ee1.
  destruct Hf1 as (A1 & A2 & A3 & A4 & A5 & A6). simpl in *.
  wp_step. eapply wp_tx_data; [exact Ht1|exact Hh1|]. wp_step. rewrite Hv1.
  destruct (set_bit_spec (view s bm) i false) as (Eset & Eby & Hblk & _); [eapply view_block, Ht|lia|].
  eapply wp_deref; [exact Eset|]. rewrite Eby.
  eapply (wp_tx_store_sync_release s1 ctx p bm rm); auto; [by rewrite A6|by rewrite Ee1|].
  intros s2 Ht2 [(B1 & B2 & B3 & B4 & B5) G2 G3 G4]. apply wp_modify. apply HQ; [by apply tx_bitmap_lock|].
  split.
  - unfold sync_frame. simpl. split_and!; congruence.
  - intros b. change (view (set_bitmap_lock false s2)) with (view s2). by rewrite G2, Hv1.
  - intros rm' E. simpl. unfold spend. rewrite <- Ee1. apply G3. by rewrite A6.
  - intros b. change (entries (set_bitmap_lock false s2)) with (entries s2). by rewrite G4, Ee1.
Qed.
End sync.
