(* ===== verification/Transactions.v ===== *)
(** The block cache as its clients use it: sequences of atomic operations
    (src/fs/cache.h, the contract of [BlockCache]; src/fs/cache.c).

    A client opens an operation, reads and rewrites blocks, allocates and
    frees blocks, and closes the operation. The steps below are the calls of
    cache.c; the invariant shows that with the reservation of
    [cache_begin_op] no call panics as long as each operation stays within
    its budget, and that the disk outside the log changes only at a commit or
    where a block is written without an operation. *)
From Stdlib Require Import ZArith Lia.
From stdpp Require Import base numbers gmap sets list relations.
From S2P Require Import Prelude Bytes Bitmap Sync FsDefs Cache CacheLaws LogLaws Commit Recovery Crash Reserve.

Section transactions.
Context (sblock : SuperBlock).
Abbreviation tx_ok := (Reserve.tx_ok sblock).
Abbreviation in_log := (LogLaws.in_log sblock).
Abbreviation loggable := (LogLaws.loggable sblock).

(** How the file system reads and rewrites a block. *)
Definition read_block (b : Z) : M CacheState (list Z) :=
  p ← cache_acquire b; d ← block_data p; cache_release p ;; mret d.

Definition write_block (ctx b : Z) (d : list Z) : M CacheState unit :=
  p ← cache_acquire b; block_store p d ;; cache_sync ctx p ;; cache_release p ;; mret tt.

Abbreviation bm := (sb_bitmap_start sblock).

(** One bitmap block, outside the log, for all blocks of the disk. *)
Definition bitmap_ok : Prop := sb_num_blocks sblock <= BIT_PER_BLOCK /\ loggable bm.

(** A call that returned, with the conditions the contract puts on callers.
    [step_write_now] syncs with no context; the block [cache_alloc] finds is
    not one of the log or of the bitmap, which the bitmap marks as used. *)
Inductive step : CacheState -> CacheState -> Prop :=
| step_begin ctx s s' :
    ctx <> 0 -> c_ops s !! ctx = None -> cache_begin_op ctx s = Done tt s' -> step s s'
| step_read b d s s' :
    b <> sb_log_start sblock -> read_block b s = Done d s' -> step s s'
| step_write ctx b d rm s s' :
    ctx <> 0 -> c_ops s !! ctx = Some rm -> loggable b -> is_block d -> (b ∈ entries s \/ 0 < rm) ->
    write_block ctx b d s = Done tt s' -> step s s'
| step_write_now b d s s' :
    loggable b -> is_block d -> write_block 0 b d s = Done tt s' -> step s s'
| step_alloc ctx rm i s s' :
    ctx <> 0 -> c_ops s !! ctx = Some rm -> 2 <= rm -> bitmap_ok ->
    first_free (view s bm) (sb_num_blocks sblock) i -> loggable i -> i <> bm ->
    cache_alloc sblock ctx s = Done i s' -> step s s'
| step_free ctx rm i s s' :
    ctx <> 0 -> c_ops s !! ctx = Some rm -> (bm ∈ entries s \/ 0 < rm) -> bitmap_ok -> 0 <= i < BIT_PER_BLOCK ->
    cache_free sblock ctx i s = Done tt s' -> step s s'
| step_end ctx s s' :
    ctx <> 0 -> is_Some (c_ops s !! ctx) -> cache_end_op sblock ctx s = Done tt s' -> step s s'.

(** Between two calls. *)
Record quiet (s : CacheState) : Prop := {
  qu_tx : tx_ok ∅ s;
  qu_sem : Sem.wf (c_log_sem s);
  qu_disk : disk_header_empty sblock (c_disk s);
  qu_bitmap : c_bitmap_lock s = false;
}.

(** A computation that returns keeps what its [wp] says. *)
Lemma wp_result {S A} (c : M S A) Q s a s' : wp c Q s -> c s = Done a s' -> Q a s'.
Proof. unfold wp. intros H E. by rewrite E in H. Qed.

(** Reading returns the contents and changes nothing clients can see. *)
Lemma wp_read_block s b Q :
  tx_ok ∅ s -> b <> sb_log_start sblock ->
  (forall s', tx_ok ∅ s' -> frame s s' -> c_dev s' = c_dev s -> (forall b', view s' b' = view s b') ->
     Q (view s b) s') ->
  wp (read_block b) Q s.
Proof.
  intros Ht Hb HQ. unfold read_block. wp_step. eapply wp_tx_acquire; [done|done|].
  intros p s1 Ht1 Hf1 Hd1 Hh1 Hv1.
  wp_step. eapply wp_tx_data; [exact Ht1|exact Hh1|]. wp_step.
  eapply wp_tx_release; [exact Ht1|exact Hh1| |].
  { rewrite (entries_frame _ _ Hf1), Hv1. unfold c_disk. rewrite Hd1.
    destruct (settled sblock ∅ s b) as [Hp|Hp]; [apply Ht|set_solver| |by right].
    left. by apply (tx_log _ _ _ Ht). }
  intros s2 Ht2 Hf2 Hd2 Hv2. wp_step. rewrite Hv1. apply HQ.
  - done.
  - by etransitivity.
  - congruence.
  - intros b'. by rewrite Hv2.
Qed.

Lemma wp_write_block s ctx b d rm Q :
  tx_ok ∅ s -> ctx <> 0 -> c_ops s !! ctx = Some rm -> loggable b -> is_block d ->
  (b ∈ entries s \/ 0 < rm) ->
  (forall s', tx_ok ∅ s' -> synced ctx b d s s' -> Q tt s') ->
  wp (write_block ctx b d) Q s.
Proof.
  intros Ht Hctx Hrm Hb Hd Hor HQ. unfold write_block.
  wp_step. eapply wp_tx_acquire; [done|by eapply loggable_not_start|].
  intros p s1 Ht1 Hf1 Hd1 Hh1 Hv1. pose proof (entries_frame _ _ Hf1) as Ee.
  destruct Hf1 as (A1 & A2 & A3 & A4 & A5 & A6).
  eapply (wp_tx_store_sync_release sblock s1 ctx p b rm); auto; [by rewrite A6|by rewrite Ee|].
  intros s2 Ht2 [(B1 & B2 & B3 & B4 & B5) G2 G3 G4]. apply HQ; [done|]. split.
  - unfold sync_frame. split_and!; congruence.
  - intros b'. rewrite G2. by rewrite Hv1.
  - intros rm' E. unfold spend. rewrite <- Ee. apply G3. by rewrite A6.
  - intros b'. by rewrite G4, Ee.
Qed.

(** Without a context the block goes to the device at once. *)
Lemma wp_write_now s b d Q :
  tx_ok ∅ s -> loggable b -> is_block d ->
  (forall s', tx_ok ∅ s' -> frame s s' -> c_dev s' = push_write s b d ->
     (forall b', view s' b' = if decide (b' = b) then d else view s b') -> Q tt s') ->
  wp (write_block 0 b d) Q s.
Proof.
  intros Ht Hb Hd HQ. unfold write_block.
  wp_step. eapply wp_tx_acquire; [done|by eapply loggable_not_start|].
  intros p s1 Ht1 Hf1 Hd1 Hh1 Hv1. pose proof (tx_inv _ _ _ Ht1) as [Hi1 Hl1].
  wp_step. eapply wp_block_store; [exact Hi1|set_solver|exact Hh1|done|].
  intros s2 Hi2 Hf2 Hl2 Hd2 Hv2 Hh2 Hp2.
  wp_step. change (cache_sync 0 p) with (device_write p).
  eapply wp_device_write; [exact Hi2|set_solver|by apply Hh2|].
  intros s3 Hi3 Hf3 Hl3 Hd3 Hv3 Hh3 Hp3.
  assert (view s2 b = d) as E2 by (rewrite Hv2; by rewrite decide_True). rewrite E2 in Hd3.
  assert (tx_ok {[p]} s3) as Ht3.
  { eapply tx_frame; [exact Ht1|split; [done|congruence]|by etransitivity|intros b'; by rewrite Hp3]. }
  wp_step. eapply wp_tx_release; [exact Ht3|by apply Hh3, Hh2| |].
  { right. unfold c_disk. rewrite Hv3, E2, Hd3. unfold push_write. rewrite dev_write_disk. by rewrite decide_True. }
  intros s4 Ht4 Hf4 Hd4 Hv4. wp_step. apply HQ; [done| | |].
  - by do 3 (etransitivity; [eassumption|]).
  - rewrite Hd4, Hd3. unfold push_write. congruence.
  - intros b'. by rewrite Hv4, Hv3, Hv2, Hv1.
Qed.

Lemma write_now_header s s' b d :
  disk_header_empty sblock (c_disk s) -> loggable b -> c_dev s' = push_write s b d -> disk_header_empty sblock (c_disk s').
Proof.
  intros He Hb Hd. unfold disk_header_empty, disk_header in *. unfold c_disk. rewrite Hd. unfold push_write. rewrite dev_write_disk.
  rewrite decide_False; [done|]. intros E. by apply (loggable_not_start sblock b Hb).
Qed.

(** Closing an operation frees its reservation. *)
Lemma room_end ctx s s' :
  room s -> is_Some (c_ops s !! ctx) -> c_ops s' = delete ctx (c_ops s) ->
  c_outstanding s' = c_outstanding s - 1 ->
  0 <= h_num_blocks (c_header s') <= h_num_blocks (c_header s) -> room s'.
Proof.
  intros [H1 H2 H3 H4] [r Hr] Eo Eout Hn. assert (0 <= r <= OP_MAX_NUM_BLOCKS) by by apply (H2 ctx).
  assert (size (c_ops s) <> 0%nat).
  { rewrite map_size_ne_0_lookup. eauto. }
  split; rewrite ?Eo, ?Eout.
  - rewrite map_size_delete. rewrite Hr. lia.
  - intros c x Hx. apply lookup_delete_Some in Hx as [_ Hx]. by apply (H2 c).
  - rewrite (rm_sum_delete _ _ r) by done. lia.
  - unfold OP_MAX_NUM_BLOCKS in *. lia.
Qed.

Lemma end_op_cases ctx s s' :
  quiet s -> is_Some (c_ops s !! ctx) -> cache_end_op sblock ctx s = Done tt s' ->
  quiet s' /\ (forall b, ~ in_log b -> view s' b = view s b) /\
  (if decide (c_outstanding s = 1) then committed sblock ctx s s'
   else c_dev s' = c_dev s).
Proof.
  intros [[Hi Hlg Hroom Hlk] Hsem Hdisk Hbm] Hctx E.
  assert (1 <= c_outstanding s) as Hout.
  { rewrite (ro_outstanding _ Hroom). destruct Hctx as [r Hr].
    assert (size (c_ops s) <> 0%nat); [|lia]. rewrite map_size_ne_0_lookup. eauto. }
  destruct (decide (c_outstanding s = 1)) as [E1|E1].
  - apply (wp_result _ (fun _ => committed sblock ctx s)) in E;
      [|apply (wp_end_op_commit sblock); try done; lia].
    destruct E. split_and!; [|done|by split]. split.
    + split; try done. eapply room_end; [exact Hroom|done|done|done|].
      rewrite cm_header. simpl. pose proof (ro_room _ Hroom). lia.
    + rewrite cm_sem. unfold Sem.wf. simpl. lia.
    + unfold disk_header_empty, c_disk. rewrite cm_dev, dev_disk_after.
      fold (disk_header sblock (apply_writes (dev_disk (c_dev s)) (commit_writes sblock (view s) (c_header s)))).
      rewrite (crash_after_header sblock) by apply Hlg. done.
    + congruence.
  - set (Q := fun (_ : unit) s1 => exists w sem', Sem._post_sem (c_log_sem s) = Some (w, sem') /\
      s1 = set_log_lock false (set_log_sem sem' (set_outstanding (c_outstanding s - 1)
             (set_ops (delete ctx (c_ops s)) (set_log_lock true s))))).
    apply (wp_result _ Q) in E; [|apply (wp_end_op_wait sblock); try done; [lia|intros s1 w sem' H1 H2; by exists w, sem']].
    destruct E as (w & sem' & Hp & ->). split_and!; [|done|done].
    destruct (Sem.post_sem_spec _ Hsem) as (w' & sem1 & Hp' & Hwf & _).
    assert (sem1 = sem') as -> by congruence.
    split; [|done|done|done]. split; [|by destruct Hlg| |done].
    + destruct Hi. split; [by eapply cinv_ext|done].
    + eapply room_end; [exact Hroom|done|done|done|]. simpl. pose proof (ro_room _ Hroom). lia.
Qed.

(** What a call does to the device: closing the last operation writes, and
    syncing without a context. *)
Definition commits (s s' : CacheState) : Prop :=
  exists ctx, cache_end_op sblock ctx s = Done tt s' /\ c_outstanding s = 1.

Definition writes_now (s s' : CacheState) : Prop :=
  exists b d, write_block 0 b d s = Done tt s' /\ c_dev s' = push_write s b d /\ entries s' = entries s /\
    forall b', view s' b' = if decide (b' = b) then d else view s b'.

Lemma quiet_synced s s' (P : Prop) : quiet s -> tx_ok ∅ s' -> sync_frame s s' -> quiet s' /\ (c_dev s' = c_dev s \/ P).
Proof.
  intros [Ht Hsem Hdisk Hbl] T (S1 & S2 & S3 & S4 & S5). split; [|by left].
  split; [done|by rewrite S4|unfold c_disk; by rewrite S5|congruence].
Qed.

Lemma step_quiet s s' :
  quiet s -> step s s' -> quiet s' /\ (c_dev s' = c_dev s \/ commits s s' \/ writes_now s s').
Proof.
  intros Hq Hs. pose proof Hq as [Ht Hsem Hdisk Hbl]. pose proof (tx_room _ _ _ Ht) as Hroom.
  destruct Hs as [ctx s s' H0 Hctx E|b d s s' Hb E|ctx b d rm s s' H0 Hrm Hb Hd Hor E|b d s s' Hb Hd E
    |ctx rm i s s' H0 Hrm H2 [Hn Hbm] Hf Hi Hne E|ctx rm i s s' H0 Hrm Hor [Hn Hbm] Hi E|ctx s s' H0 Hctx E].
  - pose proof (begin_op_spec ctx s Hroom (tx_lock _ _ _ Ht) Hctx) as Hbegin. rewrite E in Hbegin.
    destruct Hbegin as (_ & Hr' & ->). split; [|by left]. destruct Ht as [[Hi Hl] [] _ _].
    split; [|done|done|done]. split; [split; [by eapply cinv_ext|done]|done|done|done].
  - apply (wp_result _ (fun _ s1 => tx_ok ∅ s1 /\ frame s s1 /\ c_dev s1 = c_dev s)) in E;
      [|by apply wp_read_block].
    destruct E as (T & (F1 & F2 & F3 & F4 & F5 & F6) & D). split; [|by left].
    split; [done|by rewrite F5|unfold c_disk; by rewrite D|congruence].
  - apply (wp_result _ (fun _ s1 => tx_ok ∅ s1 /\ synced ctx b d s s1)) in E;
      [|by eapply wp_write_block].
    destruct E as [T [F _ _ _]]. by eapply quiet_synced.
  - pose proof E as E'. apply (wp_result _ (fun _ s1 => tx_ok ∅ s1 /\ frame s s1 /\ c_dev s1 = push_write s b d /\
      forall b', view s1 b' = if decide (b' = b) then d else view s b')) in E; [|by eapply wp_write_now].
    destruct E as (T & (F1 & F2 & F3 & F4 & F5 & F6) & D & V). split; [|right; right; exists b, d; split_and!; [done|done|unfold entries; by rewrite F3|done]].
    split; [done|by rewrite F5|by eapply write_now_header|congruence].
  - apply (wp_result _ (fun _ s1 => tx_ok ∅ s1 /\ allocated sblock ctx i s s1)) in E; [|by eapply wp_cache_alloc].
    destruct E as [T [F _ _ _]]. by eapply quiet_synced.
  - apply (wp_result _ (fun _ s1 => tx_ok ∅ s1 /\ synced ctx bm (set_bit (view s bm) i false) s s1)) in E; [|by eapply wp_cache_free].
    destruct E as [T [F _ _ _]]. by eapply quiet_synced.
  - destruct (end_op_cases ctx s s' Hq Hctx E) as (Hq' & _ & Hcase). split; [done|].
    destruct (decide (c_outstanding s = 1)); [|by left]. right; left. by exists ctx.
Qed.

(** The states the clients can bring the cache to, from [init_bcache] on. *)
Definition reachable (boot s : CacheState) : Prop :=
  exists s0, init_bcache sblock boot = Done tt s0 /\ c_ops s0 = ∅ /\ rtc step s0 s.

Lemma booted_quiet boot s0 :
  (forall b, is_block (c_disk boot b)) -> header_ok sblock (disk_header sblock (c_disk boot)) ->
  init_bcache sblock boot = Done tt s0 -> c_ops s0 = ∅ -> quiet s0.
Proof.
  intros Hb Hh E Ho.
  pose proof E as E'. apply (wp_result _ (fun _ => booted sblock boot)) in E'; [|by apply wp_init_bcache].
  assert (disk_header_empty sblock (c_disk s0)) as He.
  { apply (wp_result _ (fun _ s1 => disk_header_empty sblock (c_disk s1))) in E; [done|by apply wp_boot]. }
  destruct E'. split; [|by rewrite bt_sem|done|done]. split; [done|done| |done].
  split; rewrite ?Ho, ?bt_outstanding.
  - done.
  - intros ctx r. by rewrite lookup_empty.
  - unfold rm_sum. rewrite map_fold_empty. pose proof (hd_max _ _ (lg_header _ _ bt_log)). lia.
  - unfold OP_MAX_NUM_BLOCKS. rewrite LOG_MAX_SIZE_eq. lia.
Qed.

Lemma reachable_quiet boot s :
  (forall b, is_block (c_disk boot b)) -> header_ok sblock (disk_header sblock (c_disk boot)) ->
  reachable boot s -> quiet s.
Proof.
  intros Hb Hh (s0 & E & Ho & Hs). pose proof (booted_quiet boot s0 Hb Hh E Ho) as Hq.
  revert Hq. clear E Ho. induction Hs as [|s1 s2 s3 Hs _ IH]; [done|].
  intros Hq. apply IH. by apply (step_quiet s1 s2).
Qed.
End transactions.

(** * Properties *)

(** C23: In every state the clients can bring the cache to, rewriting a block
    within the budget of an operation returns (the log never fills up and no
    assertion fails), the block then reads as what was written and every other
    block as before; at most six operations are in progress. *)
Theorem write_never_panics sblock boot s ctx rm b d :
  (forall b', is_block (c_disk boot b')) -> header_ok sblock (disk_header sblock (c_disk boot)) ->
  reachable sblock boot s ->
  ctx <> 0 -> c_ops s !! ctx = Some rm -> loggable sblock b -> is_block d ->
  (b ∈ entries s \/ 0 < rm) ->
  0 <= c_outstanding s <= 6 /\
  exists s', write_block ctx b d s = Done tt s' /\ step sblock s s' /\
    (forall b', view s' b' = if decide (b' = b) then d else view s b') /\ c_dev s' = c_dev s.
Proof.
  intros Hb Hh Hr Hctx Hrm Hlog Hd Hor. pose proof (reachable_quiet sblock boot s Hb Hh Hr) as [Ht _ _ _].
  split.
  { pose proof (ro_few _ (tx_room _ _ _ Ht)) as Hf. rewrite LOG_MAX_SIZE_eq in Hf.
    rewrite (ro_outstanding _ (tx_room _ _ _ Ht)) in *. unfold OP_MAX_NUM_BLOCKS in Hf. lia. }
  assert (wp (write_block ctx b d) (fun _ s1 => tx_ok sblock ∅ s1 /\ synced ctx b d s s1) s) as Hw
    by (by eapply (wp_write_block sblock)).
  apply wp_done in Hw as ([] & s' & E & _ & [(_ & _ & _ & _ & S5) S6 _ _]).
  exists s'. split_and!; try done. by eapply step_write.
Qed.


(** A crash between two calls loses the open operations and nothing else:
    at every reachable state the next boot shows the disk, which (by the
    previous theorem) is what the last commit wrote. *)
Theorem crash_between_calls sblock boot s boot' :
  (forall b, is_block (c_disk boot b)) -> header_ok sblock (disk_header sblock (c_disk boot)) ->
  reachable sblock boot s -> c_dev boot' = c_dev s ->
  wp (init_bcache sblock) (fun _ s' =>
    CacheLaws.inv sblock ∅ s' /\ forall b, ~ in_log sblock b -> view s' b = c_disk s b) boot'.
Proof.
  intros Hb Hh Hr Hdev. destruct (reachable_quiet sblock boot s Hb Hh Hr) as [Ht _ He _].
  assert (c_disk boot' = c_disk s) as Ed by (unfold c_disk; by rewrite Hdev).
  pose proof (tx_inv _ _ _ Ht) as [Hi _].
  apply wp_boot.
  - rewrite Ed. apply Hi.
  - rewrite Ed. apply empty_header_ok; [|done]. apply decode_header_wf, Hi.
  - intros s' Hi' _ _ Hv. split; [done|]. intros b Hbl. rewrite Hv, Ed. by apply recover_empty.
Qed.

(** [cache_begin_op] admits an operation exactly when the log has room for
    all blocks the operations in progress may still sync, [OP_MAX_NUM_BLOCKS]
    for the new one included, and keeps that reservation; otherwise the caller
    waits, with the log lock released. *)
Theorem begin_op_reserves ctx s :
  room s -> c_log_lock s = false -> c_ops s !! ctx = None ->
  match cache_begin_op ctx s with
  | Done _ s' => ~ full s /\ room s' /\ c_ops s' !! ctx = Some OP_MAX_NUM_BLOCKS /\
                 c_outstanding s' = c_outstanding s + 1 /\ c_log_lock s' = false
  | Blocked s' => full s /\ c_log_lock s' = false /\ c_outstanding s' = c_outstanding s /\
                  Sem.val (c_log_sem s') < 0
  | _ => False
  end.
Proof.
  intros Hr Hl Hc. pose proof (begin_op_spec ctx s Hr Hl Hc) as H.
  destruct (cache_begin_op ctx s) as [[] s'|s'|s'|]; try done.
  - destruct H as (Hf & Hr' & ->). split_and!; try done. apply lookup_insert_eq.
  - naive_solver.
Qed.

(** [cache_sync] is the only place that can exhaust an operation: when the
    block is not in the log yet and the context has no budget left it panics. *)
Theorem sync_without_budget_panics ctx s p blk :
  ctx <> 0 -> c_log_lock s = false -> find_addr p (c_blocks s) = Some blk -> c_ops s !! ctx = Some 0 ->
  wf_header (c_header s) -> 0 <= h_num_blocks (c_header s) < 63 -> b_block_no blk ∉ entries s ->
  panics (cache_sync ctx p) (fun s' => c_dev s' = c_dev s) s.
Proof.
  intros Hctx Hlk Hp Hrm (_ & Hlen & _) Hn Hnin. unfold cache_sync.
  rewrite (proj2 (Z.eqb_neq ctx 0)) by done.
  apply panics_bind, wp_log_lock; [done|]. apply panics_bind.
  eapply wp_update_at'; [exact Hp|]. apply panics_bind. unfold block_at. do 2 wp_step.
  eapply wp_deref; [rewrite find_addr_upd by done; simpl; by rewrite Hp|].
  apply panics_bind, wp_get_state, panics_bind.
  apply wp_exist; [simpl; lia|done|]. intros _. apply panics_bind_l.
  destruct (lookup_lt_is_Some_2 (h_block_no (c_header s)) (Z.to_nat (h_num_blocks (c_header s))))
    as [x Hx]; [lia|].
  apply panics_bind. eapply wp_header_entry; [exact Hx|]. apply panics_bind, wp_modify, panics_bind.
  eapply wp_deref; [exact Hrm|]. apply panics_bind_l. done.
Qed.

(** [cache_alloc] returns the first block whose bitmap bit is clear, marks
    it, hands it out zeroed and logs both blocks; every other block is
    unchanged, and no other bit of the bitmap changes. *)
Theorem alloc_first_free sblock ctx s rm i :
  tx_ok sblock ∅ s -> c_bitmap_lock s = false -> ctx <> 0 -> c_ops s !! ctx = Some rm -> 2 <= rm ->
  sb_num_blocks sblock <= BIT_PER_BLOCK -> loggable sblock (sb_bitmap_start sblock) ->
  first_free (view s (sb_bitmap_start sblock)) (sb_num_blocks sblock) i ->
  loggable sblock i -> i <> sb_bitmap_start sblock ->
  wp (cache_alloc sblock ctx) (fun r s' =>
    r = i /\ tx_ok sblock ∅ s' /\ c_bitmap_lock s' = false /\
    view s' i = zero_block /\ i ∈ entries s' /\ sb_bitmap_start sblock ∈ entries s' /\
    (forall b, b <> i -> b <> sb_bitmap_start sblock -> view s' b = view s b) /\
    (forall j, 0 <= j -> bit_of (view s' (sb_bitmap_start sblock)) j =
       if decide (i = j) then Some true else bit_of (view s (sb_bitmap_start sblock)) j)) s.
Proof.
  intros Ht Hbl Hctx Hrm Hrm2 Hn Hbm Hf Hil Hne.
  eapply (wp_cache_alloc sblock); try done. intros s' Ht' [(F1 & F2 & _) Hv _ He].
  pose proof Hf as (Hi & _ & _).
  split_and!; try done.
  - congruence.
  - rewrite Hv. by rewrite decide_True.
  - apply He. by left.
  - apply He. by right; left.
  - intros b Hb1 Hb2. rewrite Hv. by rewrite !decide_False.
  - intros j Hj. rewrite Hv, decide_False, decide_True by done.
    apply set_bit_spec; [|lia|done]. eapply view_block, Ht.
Qed.

(** With every block in use [cache_alloc] panics, after it has given back the
    bitmap block and its lock; the device is untouched. *)
Theorem alloc_full_panics sblock ctx s :
  tx_ok sblock ∅ s -> c_bitmap_lock s = false -> sb_num_blocks sblock <= BIT_PER_BLOCK ->
  loggable sblock (sb_bitmap_start sblock) ->
  (forall i, 0 <= i < sb_num_blocks sblock -> bit_of (view s (sb_bitmap_start sblock)) i = Some true) ->
  panics (cache_alloc sblock ctx) (fun s' => tx_ok sblock ∅ s' /\ c_dev s' = c_dev s) s.
Proof. apply cache_alloc_full. Qed.

(** [cache_free] makes a block available again: exactly its bit of the bitmap
    is cleared, no other block changes. *)
Theorem free_clears_bit sblock ctx s rm i :
  tx_ok sblock ∅ s -> c_bitmap_lock s = false -> ctx <> 0 -> c_ops s !! ctx = Some rm -> 1 <= rm ->
  loggable sblock (sb_bitmap_start sblock) -> 0 <= i < BIT_PER_BLOCK ->
  wp (cache_free sblock ctx i) (fun _ s' =>
    tx_ok sblock ∅ s' /\ c_bitmap_lock s' = false /\
    (forall b, b <> sb_bitmap_start sblock -> view s' b = view s b) /\
    (forall j, 0 <= j -> bit_of (view s' (sb_bitmap_start sblock)) j =
       if decide (i = j) then Some false else bit_of (view s (sb_bitmap_start sblock)) j)) s.
Proof.
  intros Ht Hbl Hctx Hrm Hrm1 Hbm Hi.
  eapply (wp_cache_free sblock); try done; [right; lia|]. intros s' Ht' [(F1 & F2 & _) Hv _ _].
  split_and!; try done.
  - congruence.
  - intros b Hb. rewrite Hv. by rewrite decide_False.
  - intros j Hj. rewrite Hv, decide_True by done. apply set_bit_spec; [|lia|done]. eapply view_block, Ht.
Qed.

(** ** Examples: an empty disk, booted, with operation 7 in progress *)

Definition example_boot : CacheState :=
  mkCache false false false [] (mkLogHeader 0 []) 0 0 (Sem.init_sem 0) ∅
    (mkDevice (fun _ => zero_block) []) 1.

Definition run {S A} (c : M S A) (s : S) : S := match c s with Done _ s' => s' | _ => s end.

Definition example_s0 : CacheState := run (init_bcache example_sb) example_boot.
Definition example_s1 : CacheState := run (cache_begin_op 7) example_s0.
Definition example_s2 : CacheState := run (write_block 7 100 (replicate 512 1)) example_s1.
Definition example_s3 : CacheState := run (cache_end_op example_sb 7) example_s2.

Lemma example_boot_blocks b : is_block (c_disk example_boot b).
Proof. apply zero_block_block. Qed.

Lemma example_boot_header : header_ok example_sb (disk_header example_sb (c_disk example_boot)).
Proof. apply empty_header_ok; [apply decode_header_wf, zero_block_block|reflexivity]. Qed.

Lemma example_loggable b : is_word 8 b -> ~ (2 <= b < 65) -> loggable example_sb b.
Proof. intros. split; [done|]. unfold in_log. rewrite LOG_MAX_SIZE_eq. simpl. lia. Qed.

Lemma example_100 : loggable example_sb 100.
Proof. apply example_loggable; [unfold is_word; simpl; lia|lia]. Qed.

Lemma example_reachable1 : reachable example_sb example_boot example_s1.
Proof.
  exists example_s0. split_and!; [vm_compute; reflexivity|vm_compute; reflexivity|].
  apply rtc_once. apply (step_begin _ 7); [lia|vm_compute; reflexivity|vm_compute; reflexivity].
Qed.

Lemma example_step2 : step example_sb example_s1 example_s2.
Proof.
  apply (step_write _ 7 100 (replicate 512 1) 10);
    [lia|vm_compute; reflexivity|apply example_100|apply ones_block|right; lia|vm_compute; reflexivity].
Qed.

Lemma example_reachable2 : reachable example_sb example_boot example_s2.
Proof.
  destruct example_reachable1 as (s0 & E & Ho & Hs). exists s0. split_and!; [done|done|].
  eapply rtc_r; [exact Hs|apply example_step2].
Qed.

Lemma example_step3 : step example_sb example_s2 example_s3.
Proof.
  apply (step_end _ 7); [lia|vm_compute; eauto|vm_compute; reflexivity].
Qed.

Lemma example_tx1 : tx_ok example_sb ∅ example_s1.
Proof.
  apply (reachable_quiet example_sb example_boot);
    [apply example_boot_blocks|apply example_boot_header|apply example_reachable1].
Qed.

Lemma write_never_panics_witness :
  0 <= c_outstanding example_s1 <= 6 /\
  exists s', write_block 7 100 (replicate 512 1) example_s1 = Done tt s' /\ step example_sb example_s1 s' /\
    (forall b', view s' b' = if decide (b' = 100) then replicate 512 1 else view example_s1 b') /\
    c_dev s' = c_dev example_s1.
Proof.
  apply (write_never_panics example_sb example_boot example_s1 7 10 100);
    [apply example_boot_blocks|apply example_boot_header|apply example_reachable1
    |lia|vm_compute; reflexivity|apply example_100|apply ones_block|right; lia].
Defined.


Lemma crash_between_calls_witness :
  wp (init_bcache example_sb) (fun _ s' =>
    CacheLaws.inv example_sb ∅ s' /\
    forall b, ~ in_log example_sb b -> view s' b = c_disk example_s2 b) example_s2.
Proof.
  apply (crash_between_calls example_sb example_boot example_s2 example_s2);
    [apply example_boot_blocks|apply example_boot_header|apply example_reachable2|reflexivity].
Defined.

Lemma begin_op_reserves_witness :
  match cache_begin_op 8 example_s1 with
  | Done _ s' => ~ full example_s1 /\ room s' /\ c_ops s' !! 8 = Some OP_MAX_NUM_BLOCKS /\
                 c_outstanding s' = c_outstanding example_s1 + 1 /\ c_log_lock s' = false
  | Blocked s' => full example_s1 /\ c_log_lock s' = false /\
                  c_outstanding s' = c_outstanding example_s1 /\ Sem.val (c_log_sem s') < 0
  | _ => False
  end.
Proof.
  apply (begin_op_reserves 8 example_s1); [apply example_tx1|reflexivity|reflexivity].
Defined.

Lemma sync_without_budget_panics_witness :
  let s := set_ops {[7 := 0]} (set_header (mkLogHeader 0 (replicate 63 0))
      (set_blocks [mkBlock 1 100 true false (Sem.mkSem 0 []) true zero_block] example_boot)) in
  panics (cache_sync 7 1) (fun s' => c_dev s' = c_dev s) s.
Proof.
  intros s. eapply (sync_without_budget_panics 7 s 1); [lia|reflexivity|reflexivity|reflexivity| | |].
  - split_and!; [unfold is_word; simpl; lia|reflexivity|]. apply Forall_replicate. unfold is_word. simpl. lia.
  - simpl. lia.
  - apply not_elem_of_nil.
Defined.

Lemma alloc_first_free_witness :
  wp (cache_alloc example_sb 7) (fun r s' =>
    r = 0 /\ tx_ok example_sb ∅ s' /\ c_bitmap_lock s' = false /\
    view s' 0 = zero_block /\ 0 ∈ entries s' /\ 90 ∈ entries s' /\
    (forall b, b <> 0 -> b <> 90 -> view s' b = view example_s1 b) /\
    (forall j, 0 <= j -> bit_of (view s' 90) j =
       if decide (0 = j) then Some true else bit_of (view example_s1 90) j)) example_s1.
Proof.
  apply (alloc_first_free example_sb 7 example_s1 10 0);
    [apply example_tx1|reflexivity|lia|vm_compute; reflexivity|lia|vm_compute; discriminate| | | |done].
  - apply example_loggable; [unfold is_word; simpl; lia|simpl; lia].
  - split_and!; [lia|vm_compute; reflexivity|vm_compute; reflexivity|lia].
  - apply example_loggable; [unfold is_word; simpl; lia|simpl; lia].
Defined.

(** A disk of two blocks, both in use. *)
Definition example_full_sb : SuperBlock := mkSuperBlock 2 0 0 63 2 65 90.

Lemma example_full_tx :
  tx_ok example_full_sb ∅ (set_dev (mkDevice (fun b => if b =? 90 then replicate 512 255 else zero_block) [])
    example_s0).
Proof.
  assert (forall b, is_block (if b =? 90 then replicate 512 255 else zero_block)) as Hb.
  { intros b. destruct (b =? 90); [|apply zero_block_block]. split; [reflexivity|].
    apply Forall_replicate. unfold is_byte. lia. }
  split; [| | |reflexivity].
  - split; [|reflexivity]. split; try done; try constructor; intros; try set_solver.
  - split.
    + apply empty_header_ok; [|reflexivity]. apply memset_block_no_wf.
      split_and!; [unfold is_word; simpl; lia|reflexivity|].
      apply bytes_words_word; [vm_compute; lia|]. apply Forall_drop, zero_block_block.
    + intros b. split; [|set_solver]. intros (blk & Hin & _). set_solver.
  - split; [reflexivity|done|vm_compute; split; [discriminate|reflexivity]|reflexivity].
Qed.

Lemma alloc_full_panics_witness :
  let s := set_dev (mkDevice (fun b => if b =? 90 then replicate 512 255 else zero_block) []) example_s0 in
  panics (cache_alloc example_full_sb 7)
    (fun s' => tx_ok example_full_sb ∅ s' /\ c_dev s' = c_dev s) s.
Proof.
  intros s. apply (alloc_full_panics example_full_sb 7 s);
    [apply example_full_tx|reflexivity|vm_compute; discriminate| |].
  - apply example_loggable; [unfold is_word; simpl; lia|simpl; lia].
  - intros i Hi. simpl in Hi. assert (i = 0 \/ i = 1) as [->| ->] by lia; vm_compute; reflexivity.
Defined.

Lemma free_clears_bit_witness :
  wp (cache_free example_sb 7 100) (fun _ s' =>
    tx_ok example_sb ∅ s' /\ c_bitmap_lock s' = false /\
    (forall b, b <> 90 -> view s' b = view example_s1 b) /\
    (forall j, 0 <= j -> bit_of (view s' 90) j =
       if decide (100 = j) then Some false else bit_of (view example_s1 90) j)) example_s1.
Proof.
  apply (free_clears_bit example_sb 7 example_s1 10 100);
    [apply example_tx1|reflexivity|lia|vm_compute; reflexivity|lia| |vm_compute; split; [discriminate|reflexivity]].
  apply example_loggable; [unfold is_word; simpl; lia|simpl; lia].
Defined.
