(* ===== verification/Recent.v ===== *)
(** The block that was acquired last, after its release (src/fs/cache.c,
    [manage_block_num], [cache_acquire], [cache_free]).

    inode.c keeps reading an indirect block through its pointer after it has
    released it, while it frees other blocks. The block is still in memory then
    when the log holds fewer than 19 blocks: eviction starts from the oldest
    block and stops below [EVICTION_THRESHOLD]. *)
From Stdlib Require Import ZArith Lia.
From stdpp Require Import base numbers gmap sets list.
From S2P Require Import Prelude Bytes Bitmap Sync FsDefs Cache CacheLaws LogLaws Commit Reserve.
Import Sem.

(** [p] is the first block of the ring. *)
Definition front (p : Z) (s : CacheState) : Prop := exists x l, c_blocks s = x :: l /\ b_addr x = p.

Definition in_use (x : Block) : bool := b_acquired x || b_pinned x.

(** The block at the far end survives when few others are in use. *)
Lemma evict_last x l n k :
  n = k + Z.of_nat (length l) + 1 -> k + Z.of_nat (length (List.filter in_use l)) < EVICTION_THRESHOLD - 1 ->
  x ∈ (evict (l ++ [x]) n).1.
Proof.
  revert n k. induction l as [|y l IH]; intros n k -> Hk; cbn [app evict length List.filter] in *.
  - destruct (Z.leb_spec EVICTION_THRESHOLD (k + Z.of_nat 0 + 1)); [lia|]. simpl. left.
  - destruct (Z.leb_spec EVICTION_THRESHOLD (k + Z.of_nat (Datatypes.S (length l)) + 1)) as [Hle|Hgt].
    2: { simpl. right. apply elem_of_app. right. left. }
    unfold in_use in Hk at 1. rewrite <- negb_orb. destruct (b_acquired y || b_pinned y); cbn [negb length] in *.
    + destruct (evict (l ++ [x]) _) as [r n'] eqn:E. simpl. right. change r with (r, n').1. rewrite <- E. apply (IH _ (k + 1)); lia.
    + apply (IH _ k); lia.
Qed.

Section recent.
Context (sblock : SuperBlock).
Abbreviation tx_ok := (Reserve.tx_ok sblock).
Abbreviation bm := (sb_bitmap_start sblock).

(** Between two calls only the blocks of the log are in use. *)
Lemma in_use_logged s l : tx_ok ∅ s -> l `sublist_of` c_blocks s -> (length (List.filter in_use l) <= length (entries s))%nat.
Proof.
  intros Ht Hl. pose proof (tx_inv _ _ _ Ht) as [Hi _].
  assert (List.filter in_use l `sublist_of` l) as Hf.
  { clear. induction l as [|x l IH]; simpl; [done|]. destruct (in_use x); [by apply sublist_skip|by apply sublist_cons]. }
  assert (NoDup (map b_block_no (List.filter in_use l))) as Hnd by (eapply NoDup_map_sublist; [etransitivity; eassumption|apply Hi]).
  rewrite <- (length_map b_block_no). apply submseteq_length, NoDup_submseteq; [done|]. intros b Hb.
  apply list_elem_of_In, in_map_iff in Hb as (x & <- & Hx). apply List.filter_In in Hx as [Hx Hu].
  assert (x ∈ c_blocks s) as Hin by (eapply sublist_subseteq; [exact Hl|by apply list_elem_of_In]).
  destruct (inv_blk _ _ _ Hi x Hin) as [_ Ha _ _ _ _]. rewrite bool_decide_eq_false_2 in Ha by set_solver.
  unfold in_use in Hu. rewrite Ha in Hu. simpl in Hu. apply (lg_pinned _ _ (tx_log _ _ _ Ht)). by exists x.
Qed.

(** What an acquire does to the other blocks: none leaves the cache when the
    block is cached, and the first of the ring does not when few are in use. *)
Definition kept (b : Z) (s : CacheState) (p : Z) (s' : CacheState) : Prop :=
  front p s' /\ forall q b', holds s q b' -> (exists q0, holds s q0 b) \/ front q s /\ Z.of_nat (length (entries s)) < EVICTION_THRESHOLD - 1 -> holds s' q b'.

Lemma acquire_kept s b : tx_ok ∅ s -> wp (cache_acquire b) (kept b s) s.
Proof.
  intros Ht. pose proof (tx_inv _ _ _ Ht) as [Hi Hl]. unfold cache_acquire. wp_step. apply wp_lock; [done|]. do 2 wp_step.
  destruct (find_no b (c_blocks (set_lock true s))) as [blk|] eqn:E; simpl in E.
  - apply find_key_elem in E as [Hin Hbb]. set (p := b_addr blk).
    assert (find_addr p (c_blocks s) = Some blk) as Ea by (by apply find_key_Some; [apply Hi|]).
    pose proof (ok_lock _ _ _ _ _ (inv_blk _ _ _ Hi blk Hin)) as Hlk. rewrite bool_decide_eq_false_2 in Hlk by set_solver.
    wp_step. eapply (wp_update_at' (set_acquired true)); [exact Ea|].
    wp_step. apply wp_unlock. wp_step. unfold wait_block, block_at. do 3 wp_step. eapply wp_deref.
    { cbn [c_blocks set_lock]. rewrite find_addr_upd by done. cbn [c_blocks set_lock]. by rewrite Ea. }
    simpl. rewrite Hlk. simpl. eapply (wp_update_at' (set_block_lock _)).
    { cbn [c_blocks set_lock]. rewrite find_addr_upd by done. cbn [c_blocks set_lock]. by rewrite Ea. }
    wp_step. apply wp_lock; [done|]. wp_step. unfold move_to_front, block_at. do 3 wp_step. eapply wp_deref.
    { cbn [c_blocks set_lock]. rewrite find_addr_upd by done. cbn [c_blocks set_lock]. rewrite find_addr_upd by done. cbn [c_blocks set_lock]. by rewrite Ea. }
    do 4 (try wp_step). split; [by eexists _, _|]. intros q b' (x & Hx & <- & <-) _. unfold holds.
    cbn [c_blocks set_blocks set_lock]. setoid_rewrite elem_of_cons. destruct (decide (b_addr x = p)) as [Exp|Hne].
    + assert (x = blk) as -> by (assert (find_addr p (c_blocks s) = Some x) by (by apply find_key_Some; [apply Hi|]); congruence). eexists. split; [by left|done].
    + exists x. split; [|done]. right. apply list_elem_of_In, List.filter_In. split; [|by rewrite (proj2 (Z.eqb_neq _ _) Hne)].
      apply list_elem_of_In, elem_of_update_key; left. split; [|done]. apply elem_of_update_key; left. done.
  - pose proof (proj1 (find_key_None _ _ _) E) as Hnone. wp_step. unfold manage_block_num. wp_step. wp_step. unfold kalloc_block. do 5 wp_step.
    cbn [c_blocks set_lock c_block_num]. destruct (evict (rev (c_blocks s)) (c_block_num s)) as [r n] eqn:Er. cbn [wp]. split; [by eexists _, _|].
    intros q b' (x & Hx & <- & <-) [(q0 & y & Hy & _ & Hyb)|[(z & l & El & Hz) Hn]]; [by apply Hnone in Hy|].
    exists x. split; [|done]. cbn [c_blocks set_blocks set_block_num set_next set_lock]. right. apply elem_of_rev. change r with (r, n).1. rewrite <- Er.
    assert (x = z) as ->.
    { assert (find_addr (b_addr x) (c_blocks s) = Some x) as E1 by (by apply find_key_Some; [apply Hi|]).
      rewrite El in E1. simpl in E1. rewrite Hz, Z.eqb_refl in E1. by injection E1. }
    rewrite El. simpl. apply (evict_last z (rev l) _ 0); [rewrite length_rev, (inv_num _ _ _ Hi), El; simpl; lia|].
    pose proof (in_use_logged s (rev (rev l)) Ht) as Hc. rewrite rev_involutive, El in Hc. specialize (Hc (sublist_cons _ _ _ (reflexivity _))).
    rewrite List.filter_rev, length_rev. lia.
Qed.

(** Block [b] at [p] is in memory, and stays there while bits of the bitmap are
    cleared. *)
Definition recent (p b : Z) (s : CacheState) : Prop :=
  holds s p b /\ ((exists q, holds s q bm) \/ front p s /\ Z.of_nat (length (entries s)) < EVICTION_THRESHOLD - 1).

Lemma front_upd f p q s : (forall x, b_addr (f x) = b_addr x) -> front q s -> front q (upd f p s).
Proof.
  intros Hf (x & l & E & Hx). unfold front, upd. cbn [c_blocks set_blocks]. rewrite E. unfold update_key. cbn [map].
  eexists _, _. split; [done|]. destruct (b_addr x =? p); by rewrite ?Hf.
Qed.

Lemma release_front s p b : tx_ok {[p]} s -> holds s p b -> front p s -> wp (cache_release p) (fun _ s' => front p s' /\ holds s' p b /\ entries s' = entries s) s.
Proof.
  intros Ht Hh Hf. pose proof (tx_inv _ _ _ Ht) as [Hi Hl]. pose proof Hh as (blk & E & Hin & Ha & Hb)%holds_find; [|apply Hi].
  pose proof (ok_lock _ _ _ _ _ (inv_blk _ _ _ Hi blk Hin)) as Hlk. rewrite Ha, bool_decide_eq_true_2 in Hlk by set_solver.
  unfold cache_release. wp_step. apply wp_lock; [done|]. wp_step. eapply (wp_update_at' (set_acquired false)); [exact E|]. wp_step.
  unfold post_block, block_at. do 3 wp_step. eapply wp_deref.
  { rewrite find_addr_upd by done. cbn [c_blocks set_lock]. by rewrite E. }
  simpl. rewrite Hlk. simpl. eapply (wp_update_at' (set_block_lock _)).
  { rewrite find_addr_upd by done. cbn [c_blocks set_lock]. by rewrite E. }
  apply wp_unlock. split; [by apply (front_upd (set_block_lock _)), (front_upd (set_acquired false))|]. split; [|done].
  apply (upd_holds (set_block_lock _) (fun _ => eq_refl) (fun _ => eq_refl)), (upd_holds (set_acquired false) (fun _ => eq_refl) (fun _ => eq_refl)). exact Hh.
Qed.

Lemma free_recent s ctx rm i p b :
  tx_ok ∅ s -> c_bitmap_lock s = false -> ctx <> 0 -> c_ops s !! ctx = Some rm -> (bm ∈ entries s \/ 0 < rm) -> loggable sblock bm ->
  0 <= i < BIT_PER_BLOCK -> recent p b s -> wp (cache_free sblock ctx i) (fun _ s' => recent p b s') s.
Proof.
  intros Ht Hbl Hctx Hrm Hor Hbm Hi [Hh Hk]. unfold cache_free. wp_step. apply wp_bitmap_lock; [done|]. wp_step.
  assert (tx_ok ∅ (set_bitmap_lock true s)) as Ht0 by (by apply tx_bitmap_lock).
  eapply wp_mono; [apply wp_and; [by apply acquire_kept|apply (wp_tx_acquire _ _ _ (fun q s1 => tx_ok {[q]} s1 /\ frame (set_bitmap_lock true s) s1 /\ holds s1 q bm /\ forall b', view s1 b' = view s b') Ht0 (loggable_not_start _ _ Hbm))]|].
  { intros q s1 T1 F1 _ H1 V1. done. }
  intros q s1 [[_ K1] (Ht1 & Hf1 & Hq1 & Hv1)]. specialize (K1 p b Hh Hk).
  pose proof (entries_frame _ _ Hf1 : entries s1 = entries s) as Ee1. destruct Hf1 as (A1 & A2 & A3 & A4 & A5 & A6). simpl in *.
  wp_step. eapply wp_tx_data; [exact Ht1|exact Hq1|]. wp_step. rewrite Hv1.
  destruct (set_bit_spec (view s bm) i false) as (Eset & Eby & Hblk & _); [eapply view_block, Ht|lia|].
  eapply wp_deref; [exact Eset|]. rewrite Eby. pose proof (tx_inv _ _ _ Ht1) as [Hi1 Hl1].
  wp_step. eapply wp_block_store; [exact Hi1|set_solver|exact Hq1|done|]. intros s2 Hi2 Hf2 Hl2 Hd2 Hv2 Hh2 Hp2.
  assert (tx_ok {[q]} s2) as Ht2 by (eapply tx_frame; [exact Ht1|split; [done|congruence]|done|done]).
  pose proof (entries_frame _ _ Hf2) as Ee2. destruct Hf2 as (B1 & B2 & B3 & B4 & B5 & B6).
  wp_step. eapply (wp_sync sblock {[q]} s2 ctx q bm rm); try apply Ht2; try done; [by apply Hh2|congruence|by rewrite Ee2, Ee1|].
  intros s3 Hi3 Hlg3 Hr3 (C1 & C2 & C3 & C4 & C5) Hv3 Hh3 Ho3 He3.
  wp_step. eapply (wp_cache_release sblock {[q]}); [exact Hi3|set_solver|by apply Hh3, Hh2| |].
  { left. apply (lg_pinned _ _ Hlg3), He3. by left. }
  intros s4 Hi4 Hf4 Hd4 Hv4 Hh4 Hp4. apply wp_modify. change (recent p b s4).
  split; [by apply Hh4, Hh3, Hh2|left]. exists q. by apply Hh4, Hh3, Hh2.
Qed.
End recent.
