(* ===== verification/Console.v ===== *)
(** The console (src/kernel/console.c, src/kernel/console.h).

    The input buffer is a ring of [INPUT_BUF] bytes with three indices: bytes
    up to [write_idx] are ready for readers, bytes from there to [edit_idx]
    are the line being typed. [cs_out] is what went to the uart. The inode
    lock that [console_read] and [console_write] give up and take again is
    the caller's, in Inode.v. *)
From Stdlib Require Import ZArith Lia.
From stdpp Require Import base numbers list.
From S2P Require Import Prelude Sync.

Definition INPUT_BUF : Z := 128.
Definition BACKSPACE : Z := 127.
(** [C(x)]: [x - '@']. *)
Definition CTRL (x : Z) : Z := x - 64.
Definition CTRL_C : Z := CTRL 67.
Definition CTRL_D : Z := CTRL 68.
Definition CTRL_U : Z := CTRL 85.
Definition NEWLINE : Z := 10.

Record Console := mkConsole {
  cs_lock : bool;
  cs_sem : Sem.Semaphore;
  cs_buf : list Z;
  cs_read : Z;
  cs_write : Z;
  cs_edit : Z;
  cs_out : list Z;
  cs_pid : Z;            (* thisproc()->pid *)
  cs_kills : list Z;     (* the processes killed *)
}.

Definition set_sem (v : Sem.Semaphore) (s : Console) : Console :=
  mkConsole (cs_lock s) v (cs_buf s) (cs_read s) (cs_write s) (cs_edit s) (cs_out s) (cs_pid s) (cs_kills s).
Definition set_cons_lock (v : bool) (s : Console) : Console :=
  mkConsole v (cs_sem s) (cs_buf s) (cs_read s) (cs_write s) (cs_edit s) (cs_out s) (cs_pid s) (cs_kills s).
Definition set_read (v : Z) (s : Console) : Console :=
  mkConsole (cs_lock s) (cs_sem s) (cs_buf s) v (cs_write s) (cs_edit s) (cs_out s) (cs_pid s) (cs_kills s).
Definition set_write (v : Z) (s : Console) : Console :=
  mkConsole (cs_lock s) (cs_sem s) (cs_buf s) (cs_read s) v (cs_edit s) (cs_out s) (cs_pid s) (cs_kills s).
Definition set_edit (v : Z) (s : Console) : Console :=
  mkConsole (cs_lock s) (cs_sem s) (cs_buf s) (cs_read s) (cs_write s) v (cs_out s) (cs_pid s) (cs_kills s).
Definition set_buf (v : list Z) (s : Console) : Console :=
  mkConsole (cs_lock s) (cs_sem s) v (cs_read s) (cs_write s) (cs_edit s) (cs_out s) (cs_pid s) (cs_kills s).
Definition set_out (v : list Z) (s : Console) : Console :=
  mkConsole (cs_lock s) (cs_sem s) (cs_buf s) (cs_read s) (cs_write s) (cs_edit s) v (cs_pid s) (cs_kills s).
Definition set_kills (v : list Z) (s : Console) : Console :=
  mkConsole (cs_lock s) (cs_sem s) (cs_buf s) (cs_read s) (cs_write s) (cs_edit s) (cs_out s) (cs_pid s) v.

Definition console_init (s : Console) : Console := set_sem (Sem.init_sem 0) (set_cons_lock false s).

Definition cons_lock : M Console unit := fun s =>
  if cs_lock s then Blocked s else Done tt (set_cons_lock true s).
Definition cons_unlock : M Console unit := modify (set_cons_lock false).

Definition uart_put_char (c : Z) : M Console unit := modify (fun s => set_out (cs_out s ++ [c]) s).

(** [cons.buf[i]], read and written. *)
Definition buf_get (i : Z) : M Console Z := s ← get_state; deref (cs_buf s !! Z.to_nat i).
Definition buf_put (i c : Z) : M Console unit :=
  _ ← buf_get i; modify (fun s => set_buf (<[Z.to_nat i := c]> (cs_buf s)) s).

Definition post_cons_sem : M Console unit :=
  s ← get_state;
  match Sem._post_sem (cs_sem s) with
  | Some (_, sem) => modify (set_sem sem)
  | None => PANIC
  end.

Fixpoint put_all (buf : list Z) : M Console unit :=
  match buf with
  | [] => mret tt
  | c :: buf' => uart_put_char (c mod INPUT_BUF) ;; put_all buf'
  end.

(** [console_write] of the [n] bytes [buf]. *)
Definition console_write (buf : list Z) : M Console Z :=
  cons_lock ;; put_all buf ;; cons_unlock ;; mret (Z.of_nat (length buf)).

(** The loop of [console_read]: [n] bytes still wanted of [target]; [acc] are
    the bytes stored so far. The result is the bytes stored. *)
Fixpoint read_loop (fuel : nat) (target n : Z) (acc : list Z) : M Console (list Z) :=
  match fuel with
  | O => mret acc
  | S fuel' =>
      if 0 <? n then
        s ← get_state;
        (if cs_read s =? cs_write s then
           cons_unlock ;;
           match Sem._wait_sem_enter 0 (cs_sem s) with
           | (true, sem) => modify (set_sem sem) ;; cons_lock
           | (false, sem) => modify (set_sem sem) ;; sleep
           end
         else mret tt) ;;
        modify (fun s => set_read (u64 (cs_read s + 1) mod INPUT_BUF) s) ;;
        s ← get_state;
        c ← buf_get (cs_read s);
        if c =? CTRL_D then
          (if n <? target then modify (fun s => set_read (u64 (cs_read s - 1)) s) else mret tt) ;;
          mret acc
        else if c =? NEWLINE then mret (acc ++ [c])
        else read_loop fuel' target (n - 1) (acc ++ [c])
      else mret acc
  end.

(** Each round takes one of the [n] bytes, so [n] rounds are enough. *)
Definition console_read (n : Z) : M Console (list Z) :=
  cons_lock ;; r ← read_loop (S (Z.to_nat n)) n n []; cons_unlock ;; mret r.

Definition erase : M Console unit :=
  modify (fun s => set_edit (u64 (cs_edit s - 1) mod INPUT_BUF) s) ;;
  uart_put_char 8 ;; uart_put_char 32 ;; uart_put_char 8.

(** The loop for control-U; [fuel] bounds the distance of the two indices. *)
Fixpoint kill_line (fuel : nat) : M Console unit :=
  s ← get_state;
  if cs_edit s =? cs_write s then mret tt
  else
    c ← buf_get (u64 (cs_edit s - 1) mod INPUT_BUF);
    if c =? NEWLINE then mret tt
    else match fuel with
         | O => sleep
         | S fuel' => erase ;; kill_line fuel'
         end.

Definition commit_line : M Console unit :=
  modify (fun s => set_write (cs_edit s) s) ;; post_cons_sem.

(** [cons.buf[++edit]] = c, echoed. *)
Definition put_input (c : Z) : M Console unit :=
  modify (fun s => set_edit (u64 (cs_edit s + 1) mod INPUT_BUF) s) ;;
  s ← get_state;
  buf_put (cs_edit s) c ;;
  uart_put_char c.

(** [console_intr]; with a full buffer the [continue] goes back to the loop
    condition with nothing changed, and the cpu stays in the loop. *)
Definition console_intr (c : Z) : M Console unit :=
  cons_lock ;;
  (if c =? 255 then mret tt
   else
     let c := if c =? 13 then NEWLINE else c in
     s ← get_state;
     let full := u64 (cs_edit s + 1) mod INPUT_BUF =? cs_read s in
     if c =? BACKSPACE then
       if cs_edit s =? cs_write s then mret tt else erase
     else if c =? CTRL_U then kill_line (Z.to_nat INPUT_BUF)
     else if c =? CTRL_D then
       if full then sleep else put_input c ;; commit_line
     else if c =? CTRL_C then
       uart_put_char 94 ;; uart_put_char 67 ;;
       (if (cs_pid s =? -1) || (cs_pid s =? 0) || (cs_pid s =? 1) then mret tt
        else modify (fun s => set_kills (cs_kills s ++ [cs_pid s]) s))
     else
       if full then sleep
       else
         put_input c ;;
         s ← get_state;
         if (c =? NEWLINE) || (u64 (cs_edit s + 1) mod INPUT_BUF =? cs_read s)
         then commit_line else mret tt) ;;
  cons_unlock.

(** ** The console as two queues *)

(** [com] is ready for readers, [ed] is the line being typed. *)
Record repr (s : Console) (com ed : list Z) : Prop := {
  rp_len : length (cs_buf s) = 128%nat;
  rp_read : 0 <= cs_read s < 128;
  rp_room : (length com + length ed < 128)%nat;
  rp_write : cs_write s = (cs_read s + Z.of_nat (length com)) mod 128;
  rp_edit : cs_edit s = (cs_read s + Z.of_nat (length com + length ed)) mod 128;
  rp_data : forall k c, (com ++ ed) !! k = Some c ->
              cs_buf s !! Z.to_nat ((cs_read s + 1 + Z.of_nat k) mod 128) = Some c;
}.

(** An index before the wrap-around, reduced. *)
Lemma u64_small v : 0 <= v < 2 ^ 64 -> u64 v = v.
Proof. apply wrap_small. Qed.

Lemma u64_pred_mod v : 0 <= v < 128 -> u64 (v - 1) mod 128 = (v - 1) mod 128.
Proof.
  intros Hv. destruct (decide (v = 0)) as [->|]; [reflexivity|]. rewrite u64_small; [done|lia].
Qed.

Lemma mod128_range v : 0 <= v mod 128 < 128.
Proof. apply Z.mod_pos_bound. lia. Qed.

Lemma mod128_inj r i j :
  0 <= i < 128 -> 0 <= j < 128 -> (r + i) mod 128 = (r + j) mod 128 -> i = j.
Proof.
  intros Hi Hj E. pose proof (Z.div_mod (r + i) 128). pose proof (Z.div_mod (r + j) 128). lia.
Qed.

Lemma mod128_add a b : (a mod 128 + b) mod 128 = (a + b) mod 128.
Proof. apply Zplus_mod_idemp_l. Qed.

Section repr_lemmas.
Context (s : Console) (com ed : list Z) (H : repr s com ed).

Lemma repr_edit_range : 0 <= cs_edit s < 128.
Proof. rewrite (rp_edit _ _ _ H). apply mod128_range. Qed.

Lemma repr_empty_edit : cs_edit s = cs_write s <-> ed = [].
Proof.
  rewrite (rp_edit _ _ _ H), (rp_write _ _ _ H). pose proof (rp_room _ _ _ H). split.
  - intros E. apply mod128_inj in E; [|lia|lia]. destruct ed; [done|simpl in E; lia].
  - intros ->. simpl. by rewrite Nat.add_0_r.
Qed.

Lemma repr_empty_com : cs_read s = cs_write s <-> com = [].
Proof.
  rewrite (rp_write _ _ _ H). pose proof (rp_room _ _ _ H). pose proof (rp_read _ _ _ H). split.
  - intros E. rewrite <- (Z.mod_small (cs_read s) 128) in E at 1 by lia.
    rewrite <- (Z.add_0_r (cs_read s)) in E at 1. apply mod128_inj in E; [|lia|lia].
    destruct com; [done|simpl in E; lia].
  - intros ->. simpl. rewrite Z.add_0_r. by rewrite Z.mod_small by lia.
Qed.

Lemma repr_full : u64 (cs_edit s + 1) mod 128 = cs_read s <-> (length com + length ed = 127)%nat.
Proof.
  pose proof repr_edit_range. pose proof (rp_room _ _ _ H). pose proof (rp_read _ _ _ H).
  rewrite u64_small by lia. rewrite (rp_edit _ _ _ H), mod128_add.
  replace (cs_read s + Z.of_nat (length com + length ed) + 1)
    with (cs_read s + (Z.of_nat (length com + length ed) + 1)) by lia. split.
  - intros E. rewrite <- (Z.mod_small (cs_read s) 128) in E at 2 by lia.
    rewrite <- (Z.add_0_r (cs_read s)) in E at 2.
    destruct (decide (length com + length ed = 127)%nat); [done|].
    apply mod128_inj in E; lia.
  - intros ->. replace (cs_read s + (Z.of_nat 127 + 1)) with (cs_read s + 1 * 128) by lia.
    rewrite Z.mod_add by lia. by apply Z.mod_small.
Qed.
End repr_lemmas.

(** ** One operation on the ring *)

(** What the editing operations leave alone. *)
Definition same_rest (s s' : Console) : Prop :=
  cs_lock s' = cs_lock s /\ cs_read s' = cs_read s /\ cs_pid s' = cs_pid s /\ cs_kills s' = cs_kills s.

Lemma wp_buf_get s i c Q :
  cs_buf s !! Z.to_nat i = Some c -> Q c s -> wp (buf_get i) Q s.
Proof. intros E HQ. unfold buf_get. do 2 wp_step. by eapply wp_deref. Qed.

Lemma repr_put s com ed c s' :
  repr s com ed -> (length com + length ed < 127)%nat ->
  cs_read s' = cs_read s -> cs_write s' = cs_write s ->
  cs_edit s' = u64 (cs_edit s + 1) mod 128 ->
  cs_buf s' = <[Z.to_nat (cs_edit s') := c]> (cs_buf s) -> repr s' com (ed ++ [c]).
Proof.
  intros H Hroom Er Ew Ee Eb. pose proof (repr_edit_range _ _ _ H) as Hed.
  destruct H as [H1 H2 H3 H4 H5 H6].
  assert (cs_edit s' = (cs_read s + 1 + Z.of_nat (length com + length ed)) mod 128) as Ee'.
  { rewrite Ee, u64_small by lia. rewrite H5, mod128_add. f_equal. lia. }
  split; rewrite ?Er, ?Ew, ?length_app; simpl; try done.
  - by rewrite Eb, length_insert.
  - lia.
  - rewrite Ee'. f_equal. lia.
  - intros k x Hk. rewrite Eb, Ee'. rewrite app_assoc in Hk. apply lookup_app_Some in Hk as [Hk|[Hk Hx]].
    + rewrite list_lookup_insert_ne; [by apply H6|]. intros E.
      apply lookup_lt_Some in Hk. rewrite length_app in Hk.
      apply Z2Nat.inj in E; [|apply mod128_range|apply mod128_range].
      apply mod128_inj in E; lia.
    + apply list_lookup_singleton_Some in Hx as [Hk0 <-]. rewrite length_app in *.
      replace k with (length com + length ed)%nat by lia. apply list_lookup_insert_eq.
      rewrite H1. pose proof (mod128_range (cs_read s + 1 + Z.of_nat (length com + length ed))). lia.
Qed.

Lemma wp_put_input s com ed c Q :
  repr s com ed -> (length com + length ed < 127)%nat ->
  (forall s', repr s' com (ed ++ [c]) -> same_rest s s' -> cs_sem s' = cs_sem s ->
     cs_out s' = cs_out s ++ [c] -> Q tt s') ->
  wp (put_input c) Q s.
Proof.
  intros H Hroom HQ. unfold put_input. do 4 wp_step. wp_step. unfold buf_put. wp_step.
  set (s1 := set_edit _ s).
  destruct (lookup_lt_is_Some_2 (cs_buf s1) (Z.to_nat (cs_edit s1))) as [x Hx].
  { simpl. rewrite (rp_len _ _ _ H). unfold INPUT_BUF. pose proof (mod128_range (u64 (cs_edit s + 1))). lia. }
  eapply wp_buf_get; [exact Hx|]. do 2 wp_step. apply HQ; try done.
  by apply (repr_put s com ed c).
Qed.

Lemma repr_erase s com ed x s' :
  repr s com (ed ++ [x]) -> cs_read s' = cs_read s -> cs_write s' = cs_write s ->
  cs_edit s' = u64 (cs_edit s - 1) mod 128 -> cs_buf s' = cs_buf s -> repr s' com ed.
Proof.
  intros H Er Ew Ee Eb. pose proof (repr_edit_range _ _ _ H) as Hed.
  destruct H as [H1 H2 H3 H4 H5 H6]. rewrite length_app in *. simpl in *.
  split; rewrite ?Er, ?Ew, ?Eb; try done.
  - lia.
  - rewrite Ee, u64_pred_mod by done. rewrite H5.
    replace (_ mod 128 - 1) with ((cs_read s + Z.of_nat (length com + (length ed + 1))) mod 128 + -1) by lia.
    rewrite mod128_add. f_equal. lia.
  - intros k c Hk. apply H6. rewrite app_assoc. by apply lookup_app_l_Some.
Qed.

Lemma wp_erase s com ed x Q :
  repr s com (ed ++ [x]) ->
  (forall s', repr s' com ed -> same_rest s s' -> cs_sem s' = cs_sem s -> cs_buf s' = cs_buf s ->
     cs_write s' = cs_write s -> cs_out s' = cs_out s ++ [8; 32; 8] -> Q tt s') ->
  wp erase Q s.
Proof.
  intros H HQ. unfold erase, uart_put_char. do 7 wp_step. apply HQ; try done.
  - by apply (repr_erase s com ed x).
  - simpl. by rewrite <- !app_assoc.
Qed.

Lemma repr_commit s com ed s' :
  repr s com ed -> cs_read s' = cs_read s -> cs_write s' = cs_edit s -> cs_edit s' = cs_edit s ->
  cs_buf s' = cs_buf s -> repr s' (com ++ ed) [].
Proof.
  intros [H1 H2 H3 H4 H5 H6] Er Ew Ee Eb.
  split; rewrite ?Er, ?Ew, ?Ee, ?Eb, ?length_app, ?app_nil_r; simpl; rewrite ?Nat.add_0_r; done.
Qed.

Lemma wp_commit_line s com ed Q :
  repr s com ed -> Sem.wf (cs_sem s) ->
  (forall s', repr s' (com ++ ed) [] -> same_rest s s' -> cs_out s' = cs_out s ->
     Sem.wf (cs_sem s') -> Sem.val (cs_sem s') = Sem.val (cs_sem s) + 1 -> Q tt s') ->
  wp commit_line Q s.
Proof.
  intros H Hwf HQ. unfold commit_line, post_cons_sem. do 4 wp_step. simpl.
  destruct (Sem.post_sem_spec _ Hwf) as (w & sem' & E & Hwf' & Hv & _). rewrite E. wp_step.
  apply HQ; try done. by apply (repr_commit s com ed).
Qed.

(** Taking the next ready byte. *)
Lemma repr_take s c com ed s' :
  repr s (c :: com) ed -> cs_read s' = u64 (cs_read s + 1) mod 128 -> cs_write s' = cs_write s ->
  cs_edit s' = cs_edit s -> cs_buf s' = cs_buf s ->
  repr s' com ed /\ cs_buf s' !! Z.to_nat (cs_read s') = Some c.
Proof.
  intros [H1 H2 H3 H4 H5 H6] Er Ew Ee Eb. simpl in *. rewrite u64_small in Er by lia.
  split; [split|]; rewrite ?Er, ?Ew, ?Ee, ?Eb; try done.
  - apply mod128_range.
  - lia.
  - rewrite H4, mod128_add. f_equal. lia.
  - rewrite H5, mod128_add. f_equal. lia.
  - intros k x Hk. rewrite <- (H6 (S k) x) by done. do 2 f_equal.
    rewrite <- Z.add_assoc, mod128_add. f_equal. lia.
  - rewrite <- (H6 0%nat c) by done. by rewrite Z.add_0_r.
Qed.

(** ** Interrupts *)

Lemma wp_cons_lock s Q : cs_lock s = false -> Q tt (set_cons_lock true s) -> wp cons_lock Q s.
Proof. intros E HQ. unfold wp, cons_lock. by rewrite E. Qed.

Lemma repr_lock v s com ed : repr s com ed -> repr (set_cons_lock v s) com ed.
Proof. intros []. by split. Qed.

(** A byte that is stored as it is. *)
Definition plain (c : Z) : bool :=
  negb (existsb (Z.eqb c) [255; 13; NEWLINE; BACKSPACE; CTRL_U; CTRL_D; CTRL_C]).

Lemma plain_spec c :
  plain c = true ->
  (c =? 255) = false /\ (c =? 13) = false /\ (c =? NEWLINE) = false /\ (c =? BACKSPACE) = false /\
  (c =? CTRL_U) = false /\ (c =? CTRL_D) = false /\ (c =? CTRL_C) = false.
Proof.
  unfold plain. simpl. rewrite negb_true_iff, !orb_false_iff. tauto.
Qed.

Record idle (s : Console) : Prop := { id_lock : cs_lock s = false; id_sem : Sem.wf (cs_sem s) }.

(** The effect of typing [c], for plain bytes and newline. *)
Definition typed (c : Z) (com ed : list Z) : list Z * list Z :=
  if (c =? NEWLINE) || (length com + length ed =? 126)%nat then (com ++ ed ++ [c], [])
  else (com, ed ++ [c]).

Definition keeps (s s' : Console) : Prop := cs_pid s' = cs_pid s /\ cs_kills s' = cs_kills s.

Lemma wp_intr_char s com ed c Q :
  idle s -> repr s com ed -> (plain c = true \/ c = NEWLINE) -> (length com + length ed < 127)%nat ->
  (forall s', idle s' -> repr s' (typed c com ed).1 (typed c com ed).2 ->
     cs_out s' = cs_out s ++ [c] -> keeps s s' ->
     Sem.val (cs_sem s') = Sem.val (cs_sem s) + (if decide ((typed c com ed).2 = []) then 1 else 0) ->
     Q tt s') ->
  wp (console_intr c) Q s.
Proof.
  intros [Hl Hs] H Hc Hroom HQ.
  assert ((c =? 255) = false /\ (c =? 13) = false /\ (c =? BACKSPACE) = false /\
    (c =? CTRL_U) = false /\ (c =? CTRL_D) = false /\ (c =? CTRL_C) = false) as (E1 & E2 & E4 & E5 & E6 & E7).
  { destruct Hc as [Hc%plain_spec| ->]; [tauto|done]. }
  pose proof (repr_lock true s com ed H) as H1. set (s1 := set_cons_lock true s) in *.
  unfold console_intr. wp_step. apply wp_cons_lock; [done|]. wp_step.
  rewrite E1, E2. wp_step. apply wp_get_state. cbn zeta. rewrite E4, E5, E6, E7.
  change INPUT_BUF with 128. fold s1.
  rewrite (proj2 (Z.eqb_neq (u64 (cs_edit s1 + 1) mod 128) (cs_read s1))).
  2: { intros E%(repr_full s1 com ed H1). lia. }
  wp_step. eapply wp_put_input; [exact H1|lia|]. intros s2 H2 (F1 & F2 & F3 & F4) F5 F6.
  change (cs_pid s2 = cs_pid s) in F3. change (cs_kills s2 = cs_kills s) in F4.
  wp_step. apply wp_get_state. unfold typed in HQ.
  assert ((u64 (cs_edit s2 + 1) mod 128 =? cs_read s2) = (length com + length ed =? 126)%nat) as Ef.
  { pose proof (repr_full _ _ _ H2) as Hf. rewrite length_app in Hf. simpl in Hf.
    destruct (Nat.eqb_spec (length com + length ed) 126); [apply Z.eqb_eq, Hf; lia|].
    apply Z.eqb_neq. intros E%Hf. lia. }
  rewrite Ef. destruct ((c =? NEWLINE) || (length com + length ed =? 126)%nat) eqn:Ec.
  - eapply wp_commit_line; [exact H2|by rewrite F5|]. intros s3 H3 (G1 & G2 & G3 & G4) G5 G6 G7.
    apply wp_modify. apply HQ; simpl.
    + by split.
    + by apply repr_lock.
    + by rewrite G5, F6.
    + split; simpl; congruence.
    + by rewrite G7, F5.
  - wp_step. apply wp_modify. apply HQ; simpl.
    + split; [done|]. simpl. by rewrite F5.
    + by apply repr_lock.
    + by rewrite F6.
    + split; simpl; congruence.
    + rewrite F5. rewrite decide_False; [simpl; lia|]. by destruct ed.
Qed.

(** Backspace. *)
Lemma wp_intr_backspace s com ed Q :
  idle s -> repr s com ed ->
  (forall s', idle s' -> repr s' com (removelast ed) -> keeps s s' ->
     cs_out s' = cs_out s ++ (if decide (ed = []) then [] else [8; 32; 8]) -> Q tt s') ->
  wp (console_intr BACKSPACE) Q s.
Proof.
  intros [Hl Hs] H HQ. pose proof (repr_lock true s com ed H) as H1. set (s1 := set_cons_lock true s) in *.
  unfold console_intr. wp_step. apply wp_cons_lock; [done|]. wp_step. cbn [Z.eqb]. wp_step.
  apply wp_get_state. cbn zeta. simpl.
  pose proof (repr_empty_edit _ _ _ H1) as He. simpl in He.
  destruct (Z.eqb_spec (cs_edit s) (cs_write s)) as [E|E].
  - apply He in E. subst ed. wp_step. apply wp_modify. apply HQ; [by split|by apply repr_lock|done|].
    simpl. by rewrite app_nil_r.
  - destruct ed as [|x ed'] using rev_ind; [exfalso; by apply E, He|]. clear IHed'.
    eapply wp_erase; [exact H1|]. intros s2 H2 (F1 & F2 & F3 & F4) F5 F6 F7 F8.
    change (cs_pid s2 = cs_pid s) in F3. change (cs_kills s2 = cs_kills s) in F4.
    apply wp_modify. apply HQ; simpl.
    + split; [done|]. simpl. by rewrite F5.
    + rewrite removelast_last. by apply repr_lock.
    + split; simpl; congruence.
    + rewrite F8. rewrite decide_False; [done|]. by destruct ed'.
Qed.

(** Control-U looks at the byte before the last one typed. *)
Definition line_kept (before : Z) (ed : list Z) : list Z :=
  if before =? NEWLINE then take 1 ed else [].

Lemma repr_before s com ed x :
  repr s com (ed ++ [x]) ->
  exists before, cs_buf s !! Z.to_nat (cs_write s) = Some before /\
    cs_buf s !! Z.to_nat (u64 (cs_edit s - 1) mod 128) = Some (default before (last ed)).
Proof.
  intros H. pose proof (repr_edit_range _ _ _ H) as Her. rewrite u64_pred_mod by done.
  destruct H as [H1 H2 H3 H4 H5 H6]. rewrite length_app in *. simpl in *.
  assert (0 <= cs_write s < 128) as Hw by (rewrite H4; apply mod128_range).
  destruct (lookup_lt_is_Some_2 (cs_buf s) (Z.to_nat (cs_write s))) as [before Hb]; [lia|].
  exists before. split; [done|].
  assert ((cs_edit s - 1) mod 128 = (cs_read s + Z.of_nat (length com + length ed)) mod 128) as ->.
  { rewrite H5. replace (_ mod 128 - 1)
      with ((cs_read s + Z.of_nat (length com + (length ed + 1))) mod 128 + -1) by lia.
    rewrite mod128_add. f_equal. lia. }
  destruct ed as [|y ed'] using rev_ind; simpl.
  - rewrite Nat.add_0_r, <- H4. done.
  - clear IHed'. rewrite last_snoc, length_app in *. simpl in *.
    rewrite <- (H6 (length com + length ed')%nat y).
    + do 2 f_equal. f_equal. lia.
    + rewrite lookup_app_r by lia. rewrite <- app_assoc, lookup_app_r by lia.
      by replace (length com + length ed' - length com - length ed')%nat with 0%nat by lia.
Qed.

Lemma wp_kill_line fuel s com ed before Q :
  repr s com ed -> (length ed <= fuel)%nat -> cs_buf s !! Z.to_nat (cs_write s) = Some before ->
  NEWLINE ∉ ed ->
  (forall s', repr s' com (line_kept before ed) -> cs_lock s' = cs_lock s -> cs_sem s' = cs_sem s ->
     keeps s s' -> Q tt s') ->
  wp (kill_line fuel) Q s.
Proof.
  revert s ed. induction fuel as [|fuel IH]; intros s ed H Hf Hb Hn HQ; cbn [kill_line];
    wp_step; apply wp_get_state; pose proof (repr_empty_edit _ _ _ H) as He;
    (destruct (Z.eqb_spec (cs_edit s) (cs_write s)) as [E|E];
      [apply He in E; subst ed; apply HQ; [|done|done|done]; unfold line_kept; by destruct (before =? NEWLINE)|]).
  - destruct ed; [by exfalso; apply E, He|simpl in Hf; lia].
  - destruct ed as [|x ed'] using rev_ind; [by exfalso; apply E, He|]. clear IHed'.
    destruct (repr_before s com ed' x H) as (before' & Hb' & Hlast).
    assert (before' = before) as -> by congruence.
    wp_step. change INPUT_BUF with 128. eapply wp_buf_get; [exact Hlast|].
    rewrite elem_of_app, list_elem_of_singleton in Hn.
    destruct (Z.eqb_spec (default before (last ed')) NEWLINE) as [Ec|Ec].
    + destruct (last ed') as [y|] eqn:El; simpl in Ec.
      { subst y. exfalso. apply Hn. left. rewrite last_lookup in El. by eapply list_elem_of_lookup_2. }
      apply last_None in El. subst ed'. wp_step. apply HQ; try done.
      unfold line_kept. by rewrite (proj2 (Z.eqb_eq _ _)).
    + wp_step. eapply wp_erase; [exact H|]. intros s2 H2 (F1 & F2 & F3 & F4) F5 F6 F7 F8.
      rewrite length_app in Hf. simpl in Hf.
      eapply IH; [exact H2|lia|by rewrite F6, F7|tauto|]. intros s3 H3 G1 G2 [G3 G4].
      apply HQ; [|congruence|congruence|split; congruence].
      unfold line_kept in *. destruct ed' as [|y ed']; [|done]. simpl in Ec.
      by rewrite (proj2 (Z.eqb_neq _ _) Ec) in *.
Qed.

(** ** Reading *)

(** A line without control-D in it, as far as readers are concerned. *)
Definition in_line (c : Z) : Prop := c <> NEWLINE /\ c <> CTRL_D.

Lemma wp_read_loop fuel s l com ed target n acc Q :
  repr s (l ++ NEWLINE :: com) ed -> Forall in_line l ->
  Z.of_nat (length l) < n -> (length l < fuel)%nat ->
  (forall s', repr s' com ed -> cs_lock s' = cs_lock s -> cs_sem s' = cs_sem s -> cs_out s' = cs_out s ->
     Q (acc ++ l ++ [NEWLINE]) s') ->
  wp (read_loop fuel target n acc) Q s.
Proof.
  revert s l n acc. induction fuel as [|fuel IH]; intros s l n acc H Hl Hn Hf HQ; [lia|].
  cbn [read_loop]. rewrite (proj2 (Z.ltb_lt 0 n)) by lia. wp_step. apply wp_get_state.
  assert (cs_read s <> cs_write s) as Hne.
  { intros E%(repr_empty_com _ _ _ H). by destruct l. }
  rewrite (proj2 (Z.eqb_neq _ _) Hne). do 4 wp_step. wp_step. apply wp_get_state.
  set (s1 := set_read _ s). wp_step. destruct l as [|c l]; simpl in H.
  - destruct (repr_take s NEWLINE com ed s1 H) as [H1 Hc]; try done.
    eapply wp_buf_get; [exact Hc|]. simpl. wp_step. by apply HQ.
  - destruct (repr_take s c (l ++ NEWLINE :: com) ed s1 H) as [H1 Hc]; try done.
    apply Forall_cons in Hl as [[Hc1 Hc2] Hl]. simpl in Hn, Hf.
    eapply wp_buf_get; [exact Hc|]. rewrite (proj2 (Z.eqb_neq _ _) Hc2), (proj2 (Z.eqb_neq _ _) Hc1).
    eapply (IH s1 l); [exact H1|done|lia|lia|]. intros s2 H2 F1 F2 F3. rewrite <- app_assoc. by apply HQ.
Qed.

(** Typing a whole line. *)
Fixpoint type_all (l : list Z) : M Console unit :=
  match l with
  | [] => mret tt
  | c :: l' => console_intr c ;; type_all l'
  end.

Lemma wp_type_plain l s com ed Q :
  idle s -> repr s com ed -> Forall (fun c => plain c = true) l ->
  (length com + length ed + length l < 127)%nat ->
  (forall s', idle s' -> repr s' com (ed ++ l) -> cs_out s' = cs_out s ++ l -> keeps s s' ->
     Sem.val (cs_sem s') = Sem.val (cs_sem s) -> Q tt s') ->
  wp (type_all l) Q s.
Proof.
  revert s ed. induction l as [|c l IH]; intros s ed Hid H Hl Hroom HQ; simpl.
  - wp_step. apply HQ; rewrite ?app_nil_r; done.
  - apply Forall_cons in Hl as [Hc Hl]. simpl in Hroom. wp_step.
    eapply wp_intr_char; [done|exact H|by left|lia|]. unfold typed.
    pose proof (plain_spec c Hc) as (_ & _ & -> & _).
    rewrite (proj2 (Nat.eqb_neq (length com + length ed) 126)) by lia. simpl.
    rewrite decide_False by (by destruct ed). intros s1 Hid1 H1 O1 [K1 K2] V1.
    eapply IH; [done|exact H1|done|rewrite length_app; simpl; lia|].
    intros s2 Hid2 H2 O2 [K3 K4] V2. rewrite <- app_assoc in H2.
    apply HQ; [done|done|by rewrite O2, O1, <- app_assoc|split; congruence|lia].
Qed.

(** * Properties *)

(** What is typed is what is read. From any state of the console whose
    buffer has room, typing the bytes of a line and return makes the line
    ready behind what was ready before, echoes it and posts one unit; if
    nothing else was ready, [console_read] with a large enough buffer then
    returns exactly the line with its newline. *)
Theorem console_line_roundtrip s com ed l n :
  idle s -> repr s com ed -> Forall (fun c => plain c = true) l ->
  (length com + length ed + length l < 127)%nat ->
  wp (type_all l ;; console_intr 13) (fun _ s1 =>
    idle s1 /\ repr s1 (com ++ ed ++ l ++ [NEWLINE]) [] /\ cs_out s1 = cs_out s ++ l ++ [NEWLINE] /\
    Sem.val (cs_sem s1) = Sem.val (cs_sem s) + 1 /\
    (com = [] -> Forall in_line ed -> Z.of_nat (length ed + length l) < n ->
     wp (console_read n) (fun r s2 =>
       r = ed ++ l ++ [NEWLINE] /\ idle s2 /\ repr s2 [] [] /\ cs_sem s2 = cs_sem s1) s1)) s.
Proof.
  intros Hid H Hl Hroom. wp_step. eapply wp_type_plain; [done|exact H|done|done|].
  intros s1 Hid1 H1 O1 _ V1.
  assert (console_intr 13 = console_intr NEWLINE) as -> by done.
  eapply wp_intr_char; [done|exact H1|by right|rewrite length_app; lia|].
  unfold typed. simpl. intros s2 Hid2 H2 O2 _ V2. rewrite <- app_assoc in H2.
  split_and!; [done|done|by rewrite O2, O1, <- app_assoc|lia|].
  intros -> Hed Hn. simpl in H2. unfold console_read. wp_step.
  destruct Hid2 as [Hl2 Hs2]. apply wp_cons_lock; [done|]. wp_step.
  eapply (wp_read_loop _ _ (ed ++ l) [] []).
  - rewrite <- app_assoc. apply repr_lock, H2.
  - apply Forall_app. split; [done|]. eapply Forall_impl; [exact Hl|].
    intros c (_ & _ & E1 & _ & _ & E2 & _)%plain_spec. split; lia.
  - rewrite length_app. lia.
  - rewrite length_app. lia.
  - intros s3 H3 F1 F2 F3. wp_step. apply wp_modify. wp_step.
    split_and!; [by rewrite <- app_assoc|split; [done|simpl; by rewrite F2]|by apply repr_lock|done].
Qed.

Definition example_console : Console :=
  mkConsole false (Sem.init_sem 0) (replicate 128 0) 0 0 0 [] 5 [].

Lemma example_repr : repr example_console [] [].
Proof. split; try done; simpl; try lia. Qed.

Lemma console_line_roundtrip_witness :
  wp (type_all [108; 115] ;; console_intr 13) (fun _ s1 =>
    idle s1 /\ repr s1 ([] ++ [] ++ [108; 115] ++ [NEWLINE]) [] /\
    cs_out s1 = cs_out example_console ++ [108; 115] ++ [NEWLINE] /\
    Sem.val (cs_sem s1) = Sem.val (cs_sem example_console) + 1 /\
    (@nil Z = [] -> Forall in_line [] -> Z.of_nat 2 < 100 ->
     wp (console_read 100) (fun r s2 =>
       r = [] ++ [108; 115] ++ [NEWLINE] /\ idle s2 /\ repr s2 [] [] /\ cs_sem s2 = cs_sem s1) s1))
    example_console.
Proof.
  apply (console_line_roundtrip example_console [] [] [108; 115] 100);
    [by split|apply example_repr|repeat constructor|simpl; lia].
Defined.

(** editing. Backspace takes back the last byte of the line being typed, and
    never one that readers may have seen; with nothing typed it does nothing. *)
Theorem backspace_edits_line s com ed :
  idle s -> repr s com ed ->
  wp (console_intr BACKSPACE) (fun _ s' => idle s' /\ repr s' com (removelast ed) /\ keeps s s') s.
Proof. intros Hid H. eapply wp_intr_backspace; [done|exact H|]. by intros s'. Qed.

Lemma backspace_edits_line_witness :
  wp (console_intr BACKSPACE) (fun _ s' =>
    idle s' /\ repr s' [] (removelast []) /\ keeps example_console s') example_console.
Proof. apply (backspace_edits_line example_console [] []); [by split|apply example_repr]. Defined.

(** control-U, meant to kill the line being typed, keeps its first byte
    whenever the byte before the line (where [write_idx] points) is a newline:
    the loop tests the byte before the last one instead of the last one. *)
Theorem ctrl_u_keeps_first_byte s com ed before :
  idle s -> repr s com ed -> NEWLINE ∉ ed -> cs_buf s !! Z.to_nat (cs_write s) = Some before ->
  wp (console_intr CTRL_U) (fun _ s' =>
    idle s' /\ repr s' com (if before =? NEWLINE then take 1 ed else []) /\ keeps s s') s.
Proof.
  intros [Hl Hs] H Hn Hb. pose proof (repr_lock true s com ed H) as H1.
  unfold console_intr. wp_step. apply wp_cons_lock; [done|]. wp_step.
  change (CTRL_U =? 255) with false. wp_step. apply wp_get_state.
  change (CTRL_U =? 13) with false. change (CTRL_U =? BACKSPACE) with false.
  change (CTRL_U =? CTRL_U) with true. cbn iota zeta.
  eapply wp_kill_line; [exact H1| |exact Hb|done|].
  { pose proof (rp_room _ _ _ H). unfold INPUT_BUF. lia. }
  intros s2 H2 F1 F2 F3. apply wp_modify. split_and!.
  - split; [done|]. simpl. by rewrite F2.
  - by apply repr_lock.
  - done.
Qed.

(** The state after "a", return, "bc": [b] survives control-U. *)
Lemma ctrl_u_keeps_first_byte_witness :
  let s := match (type_all [97; 13; 98; 99]) example_console with Done _ s => s | _ => example_console end in
  wp (console_intr CTRL_U) (fun _ s' =>
    idle s' /\ repr s' [97; 10] (if 10 =? NEWLINE then take 1 [98; 99] else []) /\ keeps s s') s.
Proof.
  intros s. apply (ctrl_u_keeps_first_byte s [97; 10] [98; 99] 10).
  - by split.
  - split; try reflexivity; [vm_compute; split; discriminate || reflexivity|vm_compute; lia|].
    intros k c Hk. do 4 (destruct k as [|k]; [vm_compute in Hk |- *; done|]). done.
  - rewrite !not_elem_of_cons. split_and!; try done. apply not_elem_of_nil.
  - reflexivity.
Defined.

(** with the buffer full, an input byte that needs room never gets out of
    [console_intr]: it stays in the loop, with the console lock held. *)
Theorem full_console_hangs s com ed c :
  idle s -> repr s com ed -> (plain c = true \/ c = NEWLINE \/ c = CTRL_D) ->
  (length com + length ed = 127)%nat ->
  exists s', console_intr c s = Blocked s' /\ cs_lock s' = true /\ repr s' com ed.
Proof.
  intros [Hl Hs] H Hc Hfull. exists (set_cons_lock true s).
  pose proof (repr_lock true s com ed H) as H1.
  split; [|by split]. unfold console_intr, cons_lock, mbind, M_bind, get_state. rewrite Hl.
  assert ((u64 (cs_edit (set_cons_lock true s) + 1) mod INPUT_BUF =? cs_read (set_cons_lock true s)) = true) as Ef
    by (by apply Z.eqb_eq, (repr_full _ _ _ H1)).
  destruct Hc as [(E1 & E2 & E3 & E4 & E5 & E6 & E7)%plain_spec|Hc].
  - by rewrite E1, E2, E4, E5, E6, E7, Ef.
  - assert ((c =? 255) = false /\ (c =? 13) = false /\ (c =? BACKSPACE) = false /\
      (c =? CTRL_U) = false /\ (c =? CTRL_C) = false) as (E1 & E2 & E3 & E4 & E5)
      by (destruct Hc as [->| ->]; done).
    rewrite E1, E2, E3, E4, E5, Ef. by destruct (c =? CTRL_D).
Qed.

Lemma full_console_hangs_witness :
  let s := match (type_all (replicate 127 97)) example_console with Done _ s => s | _ => example_console end in
  exists s', console_intr 98 s = Blocked s' /\ cs_lock s' = true /\ repr s' (replicate 127 97) [].
Proof.
  intros s. apply (full_console_hangs s (replicate 127 97) [] 98); [|split|left; reflexivity|reflexivity].
  - by split.
  - reflexivity.
  - vm_compute. split; [discriminate|reflexivity].
  - vm_compute. lia.
  - reflexivity.
  - reflexivity.
  - rewrite app_nil_r. intros k c [-> Hk]%lookup_replicate.
    assert (exists j, cs_read s + 1 + Z.of_nat k = Z.of_nat j /\ (j < 128)%nat /\ (1 <= j)%nat) as (j & Ej & Hj & Hj1).
    { exists (S k). change (cs_read s) with 0. lia. }
    rewrite Ej. rewrite Z.mod_small by lia. rewrite Nat2Z.id.
    change (cs_buf s) with (0 :: replicate 127 97). destruct j as [|j]; [lia|].
    change (replicate 127 97 !! j = Some 97). apply lookup_replicate_2. lia.
Defined.

(** the units of the console semaphore are not tied to the bytes: a line
    that was read without waiting leaves its unit behind, and the next
    [console_read] on the empty buffer does not wait but returns a stale byte
    (here the zero the buffer was initialised with, after the line "a"). *)
Theorem console_stale_read :
  match (type_all [97; 13] ;; console_read 10) example_console with
  | Done r s1 => r = [97; 10] /\ repr s1 [] [] /\
      match console_read 1 s1 with
      | Done r2 s2 => r2 = [0] /\ cs_read s2 <> cs_write s2
      | _ => False
      end
  | _ => False
  end.
Proof.
  vm_compute. split_and!; try done. split; try done; simpl; lia || done.
Qed.
