(* ===== verification/CString.v ===== *)
(** Memory and string functions (src/common/string.c).

    A pointer argument is the list of bytes it points to, up to the end of its
    array; for [memmove], whose arguments may overlap, both pointers are
    positions in one array. An access past the end of an array is [None].
    [char] is unsigned on this machine. *)
From Stdlib Require Import ZArith Lia.
From stdpp Require Import base numbers list.
From S2P Require Import Prelude.

(** [p[i] = c] *)
Definition store (l : list Z) (i : nat) (c : Z) : option (list Z) :=
  if decide (i < length l)%nat then Some (<[i := c]> l) else None.

Fixpoint memset_loop (n i : nat) (l : list Z) (c : Z) : option (list Z) :=
  match n with
  | O => Some l
  | S n' => l' ← store l i (Z.land c 255); memset_loop n' (S i) l' c
  end.
Definition memset (l : list Z) (c : Z) (n : nat) : option (list Z) := memset_loop n 0 l c.

Fixpoint memcpy_loop (n i : nat) (dest src : list Z) : option (list Z) :=
  match n with
  | O => Some dest
  | S n' => c ← src !! i; dest' ← store dest i c; memcpy_loop n' (S i) dest' src
  end.
Definition memcpy (dest src : list Z) (n : nat) : option (list Z) := memcpy_loop n 0 dest src.

Fixpoint memcmp_loop (n i : nat) (s1 s2 : list Z) : option Z :=
  match n with
  | O => Some 0
  | S n' =>
      c1 ← s1 !! i; c2 ← s2 !! i;
      if c1 =? c2 then memcmp_loop n' (S i) s1 s2 else Some (c1 - c2)
  end.
Definition memcmp (s1 s2 : list Z) (n : nat) : option Z := memcmp_loop n 0 s1 s2.

(** [while (n-- > 0) *--d = *--s] and [while (n-- > 0) *d++ = *s++]. *)
Fixpoint move_down (n : nat) (mem : list Z) (d s : nat) : option (list Z) :=
  match n with
  | O => Some mem
  | S n' => c ← mem !! pred s; mem' ← store mem (pred d) c; move_down n' mem' (pred d) (pred s)
  end.

Fixpoint move_up (n : nat) (mem : list Z) (d s : nat) : option (list Z) :=
  match n with
  | O => Some mem
  | S n' => c ← mem !! s; mem' ← store mem d c; move_up n' mem' (S d) (S s)
  end.

Definition memmove (mem : list Z) (d s n : nat) : option (list Z) :=
  if ((s <? d) && (d - s <? n))%nat then move_down n mem (d + n) (s + n) else move_up n mem d s.

(** The two loops of [strncpy] and the first one of [strncpy_fast]. *)
Fixpoint zero_loop (n i : nat) (dest : list Z) : option (list Z) :=
  match n with
  | O => Some dest
  | S n' => dest' ← store dest i 0; zero_loop n' (S i) dest'
  end.

Fixpoint strncpy_loop (n i : nat) (dest src : list Z) : option (list Z) :=
  match n with
  | O => Some dest
  | S n' =>
      c ← src !! i;
      if c =? 0 then zero_loop n i dest
      else dest' ← store dest i c; strncpy_loop n' (S i) dest' src
  end.
Definition strncpy (dest src : list Z) (n : nat) : option (list Z) := strncpy_loop n 0 dest src.

Fixpoint strncpy_fast_loop (n i : nat) (dest src : list Z) : option (list Z) :=
  match n with
  | O => Some dest
  | S n' =>
      c ← src !! i;
      if c =? 0 then store dest i 0
      else dest' ← store dest i c; strncpy_fast_loop n' (S i) dest' src
  end.
Definition strncpy_fast (dest src : list Z) (n : nat) : option (list Z) := strncpy_fast_loop n 0 dest src.

Fixpoint strncmp_loop (n i : nat) (s1 s2 : list Z) : option Z :=
  match n with
  | O => Some 0
  | S n' =>
      c1 ← s1 !! i; c2 ← s2 !! i;
      if c1 =? c2 then if (c1 =? 0) || (c2 =? 0) then Some 0 else strncmp_loop n' (S i) s1 s2
      else Some (c1 - c2)
  end.
Definition strncmp (s1 s2 : list Z) (n : nat) : option Z := strncmp_loop n 0 s1 s2.

(** [strlen]; the loop ends at the NUL, or runs off the array. *)
Fixpoint strlen (s : list Z) : option nat :=
  match s with
  | [] => None
  | c :: s' => if c =? 0 then Some 0%nat else S <$> strlen s'
  end.

(** ** What the functions compute *)

Lemma store_spec l i c : (i < length l)%nat -> store l i c = Some (<[i := c]> l).
Proof. intros. unfold store. by rewrite decide_True. Qed.

(** A write of one byte, then of the bytes behind it. *)
Lemma splice_cons (l : list Z) i c k :
  (i + S (length k) <= length l)%nat -> splice (<[i := c]> l) (S i) k = splice l i (c :: k).
Proof.
  intros Hl. apply list_eq. intros j. destruct (decide (i <= j < i + S (length k))%nat) as [Hj|Hj].
  - rewrite (lookup_splice_in l i (c :: k)) by (simpl; lia). destruct (decide (j = i)) as [->|].
    + rewrite lookup_splice_out; [|rewrite length_insert; lia|lia].
      rewrite list_lookup_insert_eq by lia. by rewrite Nat.sub_diag.
    + rewrite lookup_splice_in; [|rewrite length_insert; lia|lia].
      replace (j - i)%nat with (S (j - S i)) by lia. done.
  - rewrite !lookup_splice_out; [|simpl; lia|simpl; lia|rewrite length_insert; lia|lia].
    rewrite list_lookup_insert_ne by lia. done.
Qed.

Lemma splice_nil (l : list Z) i : splice l i [] = l.
Proof. unfold splice. simpl. rewrite Nat.add_0_r. apply take_drop. Qed.

Lemma memset_loop_spec n i l c :
  (i + n <= length l)%nat -> memset_loop n i l c = Some (splice l i (replicate n (Z.land c 255))).
Proof.
  revert i l. induction n as [|n IH]; intros i l Hl; simpl.
  - by rewrite splice_nil.
  - rewrite store_spec by lia. simpl. rewrite IH by (rewrite length_insert; lia).
    rewrite splice_cons; [done|rewrite length_replicate; lia].
Qed.

Lemma slice_S (l : list Z) i n c : l !! i = Some c -> slice i (S n) l = c :: slice (S i) n l.
Proof. intros E. unfold slice. by rewrite (drop_S _ _ _ E). Qed.

Lemma memcpy_loop_spec n i dest src :
  (i + n <= length dest)%nat -> (i + n <= length src)%nat ->
  memcpy_loop n i dest src = Some (splice dest i (slice i n src)).
Proof.
  revert i dest. induction n as [|n IH]; intros i dest Hd Hs; simpl.
  - unfold slice. simpl. by rewrite splice_nil.
  - destruct (lookup_lt_is_Some_2 src i) as [c Hc]; [lia|]. rewrite Hc. simpl.
    rewrite store_spec by lia. simpl. rewrite IH by (rewrite ?length_insert; lia).
    rewrite splice_cons by (rewrite length_slice; lia). by rewrite (slice_S _ _ _ _ Hc).
Qed.

Lemma memcmp_loop_spec n i s1 s2 :
  (i + n <= length s1)%nat -> (i + n <= length s2)%nat ->
  exists r, memcmp_loop n i s1 s2 = Some r /\ (r = 0 <-> slice i n s1 = slice i n s2).
Proof.
  revert i. induction n as [|n IH]; intros i H1 H2; simpl.
  - exists 0. by unfold slice.
  - destruct (lookup_lt_is_Some_2 s1 i) as [c1 E1]; [lia|].
    destruct (lookup_lt_is_Some_2 s2 i) as [c2 E2]; [lia|].
    rewrite E1, E2, (slice_S _ _ _ _ E1), (slice_S _ _ _ _ E2). simpl.
    destruct (Z.eqb_spec c1 c2) as [->|Hne].
    + destruct (IH (S i)) as (r & Hr & Hiff); [lia|lia|]. exists r. split; [done|].
      rewrite Hiff. split; congruence.
    + exists (c1 - c2). split; [done|]. split; [lia|congruence].
Qed.

(** [move_up] when the bytes still to be read are not overwritten. *)
Lemma move_up_spec n mem d s :
  (d + n <= length mem)%nat -> (s + n <= length mem)%nat -> (d <= s \/ s + n <= d)%nat ->
  move_up n mem d s = Some (splice mem d (slice s n mem)).
Proof.
  revert mem d s. induction n as [|n IH]; intros mem d s Hd Hs Ho; simpl.
  - unfold slice. simpl. by rewrite splice_nil.
  - destruct (lookup_lt_is_Some_2 mem s) as [c Hc]; [lia|]. rewrite Hc. simpl.
    rewrite store_spec by lia. simpl. rewrite IH by (rewrite ?length_insert; lia).
    rewrite (slice_S _ _ _ _ Hc).
    replace (slice (S s) n (<[d := c]> mem)) with (slice (S s) n mem).
    + rewrite splice_cons; [done|]. rewrite length_slice; lia.
    + unfold slice. apply list_eq. intros j. destruct (decide (j < n)%nat).
      * rewrite !lookup_take_lt, !lookup_drop by done. rewrite list_lookup_insert_ne; [done|lia].
      * rewrite !lookup_ge_None_2; [done| |]; rewrite length_take; lia.
Qed.

Lemma splice_snoc (l : list Z) i c k :
  (i + S (length k) <= length l)%nat ->
  splice (<[(i + length k)%nat := c]> l) i k = splice l i (k ++ [c]).
Proof.
  intros Hl. apply list_eq. intros j. destruct (decide (i <= j < i + S (length k))%nat) as [Hj|Hj].
  - rewrite (lookup_splice_in l i (k ++ [c])) by (rewrite length_app; simpl; lia).
    destruct (decide (j = i + length k)%nat) as [->|].
    + rewrite lookup_splice_out; [|rewrite length_insert; lia|lia].
      rewrite list_lookup_insert_eq by lia. rewrite lookup_app_r by lia.
      by replace (i + length k - i - length k)%nat with 0%nat by lia.
    + rewrite lookup_splice_in; [|rewrite length_insert; lia|lia]. rewrite lookup_app_l by lia. done.
  - rewrite !lookup_splice_out; rewrite ?length_app, ?length_insert; simpl; try lia.
    rewrite list_lookup_insert_ne by lia. done.
Qed.

Lemma slice_snoc (l : list Z) i n c : l !! (i + n)%nat = Some c -> slice i (S n) l = slice i n l ++ [c].
Proof. intros E. unfold slice. apply take_S_r. by rewrite lookup_drop. Qed.

Lemma move_down_spec n mem d s :
  (d + n <= length mem)%nat -> (s <= d)%nat ->
  move_down n mem (d + n) (s + n) = Some (splice mem d (slice s n mem)).
Proof.
  revert mem. induction n as [|n IH]; intros mem Hd Hs; simpl.
  - unfold slice. simpl. by rewrite splice_nil.
  - rewrite !Nat.add_succ_r. simpl.
    destruct (lookup_lt_is_Some_2 mem (s + n)) as [c Hc]; [lia|]. rewrite Hc. simpl.
    rewrite store_spec by lia. simpl. rewrite IH by (rewrite ?length_insert; lia).
    rewrite (slice_snoc _ _ _ _ Hc).
    replace (slice s n (<[(d + n)%nat := c]> mem)) with (slice s n mem).
    + pose proof (splice_snoc mem d c (slice s n mem)) as E. rewrite length_slice in E by lia.
      by rewrite E by lia.
    + apply list_eq. intros j. destruct (decide (j < n)%nat).
      * rewrite !lookup_slice by done. rewrite list_lookup_insert_ne; [done|lia].
      * unfold slice. rewrite !lookup_ge_None_2; [done| |]; rewrite length_take; lia.
Qed.

(** ** C strings *)

(** The bytes before the NUL. *)
Fixpoint cstr (s : list Z) : list Z :=
  match s with
  | [] => []
  | c :: s' => if c =? 0 then [] else c :: cstr s'
  end.

(** A string that may be read [n] bytes far: it has a NUL or [n] bytes. *)
Definition readable (s : list Z) (n : nat) : Prop := 0 ∈ s \/ (n <= length s)%nat.

Lemma readable_drop s i n c :
  readable (drop i s) (S n) -> s !! i = Some c -> c <> 0 -> readable (drop (S i) s) n.
Proof.
  intros H E Hc. rewrite (drop_S _ _ _ E) in H. destruct H as [H|H]; [left|right; simpl in H; lia].
  apply elem_of_cons in H. destruct H; [congruence|done].
Qed.

Lemma readable_lookup s i n : readable (drop i s) (S n) -> exists c, s !! i = Some c.
Proof.
  intros H. apply lookup_lt_is_Some_2. destruct H as [H|H].
  - apply list_elem_of_lookup in H as [j Hj]. apply lookup_lt_Some in Hj. rewrite length_drop in Hj. lia.
  - rewrite length_drop in H. lia.
Qed.

(** [strncmp] decides equality of the first [n] bytes of two strings. *)
Lemma strncmp_loop_spec n i s1 s2 :
  readable (drop i s1) n -> readable (drop i s2) n ->
  exists r, strncmp_loop n i s1 s2 = Some r /\
    (r = 0 <-> take n (cstr (drop i s1)) = take n (cstr (drop i s2))).
Proof.
  revert i. induction n as [|n IH]; intros i R1 R2; simpl; [by exists 0|].
  destruct (readable_lookup _ _ _ R1) as [c1 E1]. destruct (readable_lookup _ _ _ R2) as [c2 E2].
  pose proof (readable_drop _ _ _ _ R1 E1) as R1'. pose proof (readable_drop _ _ _ _ R2 E2) as R2'.
  rewrite E1, E2, (drop_S _ _ _ E1), (drop_S _ _ _ E2). simpl.
  destruct (Z.eqb_spec c1 c2) as [->|Hne].
  - destruct (Z.eqb_spec c2 0) as [->|Hz]; simpl; [by exists 0|].
    destruct (IH (S i)) as (r & Hr & Hiff); [auto|auto|]. exists r. split; [done|]. rewrite Hiff.
    split; congruence.
  - exists (c1 - c2). split; [done|]. split; [lia|].
    destruct (Z.eqb_spec c1 0), (Z.eqb_spec c2 0); subst; simpl; congruence.
Qed.

Lemma zero_loop_spec n i dest :
  (i + n <= length dest)%nat -> zero_loop n i dest = Some (splice dest i (replicate n 0)).
Proof.
  revert i dest. induction n as [|n IH]; intros i dest Hl; simpl.
  - by rewrite splice_nil.
  - rewrite store_spec by lia. simpl. rewrite IH by (rewrite length_insert; lia).
    rewrite splice_cons; [done|rewrite length_replicate; lia].
Qed.

(** The first [n] bytes of a string, padded with zeroes. *)
Definition padded (n : nat) (s : list Z) : list Z := take n (cstr s ++ replicate n 0).

Lemma length_padded n s : length (padded n s) = n.
Proof. unfold padded. rewrite length_take, length_app, length_replicate. lia. Qed.

Lemma strncpy_loop_spec n i dest src :
  (i + n <= length dest)%nat -> readable (drop i src) n ->
  strncpy_loop n i dest src = Some (splice dest i (padded n (drop i src))).
Proof.
  revert i dest. induction n as [|n IH]; intros i dest Hd R.
  - simpl. unfold padded. simpl. by rewrite splice_nil.
  - cbn [strncpy_loop]. destruct (readable_lookup _ _ _ R) as [c E]. rewrite E. simpl.
    destruct (Z.eqb_spec c 0) as [->|Hz].
    + change (zero_loop (S n) i dest = Some (splice dest i (padded (S n) (drop i src)))).
      rewrite zero_loop_spec by lia. unfold padded. rewrite (drop_S _ _ _ E). cbn [cstr Z.eqb app].
      by rewrite take_ge by (rewrite length_replicate; lia).
    + rewrite store_spec by lia. simpl. rewrite IH; [|rewrite length_insert; lia|by eapply readable_drop].
      rewrite splice_cons by (rewrite length_padded; lia). unfold padded. rewrite (drop_S _ _ _ E).
      cbn [cstr]. rewrite (proj2 (Z.eqb_neq c 0)) by done. cbn [app take]. do 3 f_equal.
      symmetry. rewrite (replicate_S_end n), app_assoc. apply take_app_le.
      rewrite length_app, length_replicate. lia.
Qed.

Lemma strlen_spec s : 0 ∈ s -> strlen s = Some (length (cstr s)).
Proof.
  induction s as [|c s IH]; intros H; [by apply elem_of_nil in H|]. simpl.
  destruct (Z.eqb_spec c 0); [done|]. rewrite IH; [done|].
  apply elem_of_cons in H. destruct H; [congruence|done].
Qed.

(** A padded name compares as the string it was made from. *)
Lemma cstr_padded n s : cstr (padded n s) = take n (cstr s).
Proof.
  unfold padded. revert n. induction s as [|c s IH]; intros n.
  - simpl. rewrite take_nil. induction n; [done|]. by simpl.
  - simpl. destruct (Z.eqb_spec c 0).
    + rewrite take_nil. simpl. destruct n; done.
    + destruct n as [|n]; [done|]. cbn [app take cstr]. rewrite (proj2 (Z.eqb_neq c 0)) by done. f_equal.
      rewrite <- IH. f_equal. rewrite (replicate_S_end n), app_assoc. apply take_app_le.
      rewrite length_app, length_replicate. lia.
Qed.

Lemma readable_padded n s : readable (padded n s) n.
Proof. right. by rewrite length_padded. Qed.

(** * Properties *)

(** [memmove] copies the source as it was before the call, whether or not the
    two regions overlap; everything else is unchanged. *)
Theorem memmove_overlap mem d s n :
  (d + n <= length mem)%nat -> (s + n <= length mem)%nat ->
  memmove mem d s n = Some (splice mem d (slice s n mem)).
Proof.
  intros Hd Hs. unfold memmove.
  destruct (Nat.ltb_spec s d); simpl; [destruct (Nat.ltb_spec (d - s) n)|].
  - apply move_down_spec; lia.
  - apply move_up_spec; lia.
  - apply move_up_spec; lia.
Qed.

Lemma memmove_overlap_witness :
  memmove [1; 2; 3; 4; 5] 1 0 3 = Some (splice [1; 2; 3; 4; 5] 1 (slice 0 3 [1; 2; 3; 4; 5])).
Proof. apply (memmove_overlap [1; 2; 3; 4; 5] 1 0 3); simpl; lia. Defined.

(** [strncpy] writes exactly [n] bytes, the string and then zeroes, and the
    copy compares equal ([strncmp] with the same bound) to the original: a file
    name written into a directory entry is found again. *)
Theorem strncpy_strncmp dest src n :
  (n <= length dest)%nat -> readable src n ->
  exists dest', strncpy dest src n = Some dest' /\ length dest' = length dest /\
    drop n dest' = drop n dest /\ strncmp dest' src n = Some 0.
Proof.
  intros Hd R. pose proof (strncpy_loop_spec n 0 dest src) as E. rewrite drop_0 in E.
  assert (length (splice dest 0 (padded n src)) = length dest) as Hlen
    by (rewrite length_splice; rewrite ?length_padded; lia).
  exists (splice dest 0 (padded n src)). split_and!; [by apply E|done| |].
  - unfold splice. rewrite take_0. simpl. rewrite drop_app_ge; rewrite length_padded; [|done].
    by rewrite Nat.sub_diag.
  - destruct (strncmp_loop_spec n 0 (splice dest 0 (padded n src)) src) as (r & Hr & Hiff).
    + rewrite drop_0. right. lia.
    + by rewrite drop_0.
    + unfold strncmp. rewrite Hr. f_equal. apply Hiff. rewrite !drop_0.
      unfold splice. rewrite take_0, length_padded. cbn [app plus].
      rewrite <- (cstr_padded n src). clear.
      assert (forall k l m, length l = k -> take k (cstr (l ++ m)) = take k (cstr l)) as H.
      { induction k as [|k IH]; intros l m Hl; [done|]. destruct l as [|c l]; [done|]. simpl.
        destruct (c =? 0); [done|]. simpl. f_equal. apply IH. simpl in Hl. lia. }
      rewrite H by apply length_padded. rewrite take_ge; [done|].
      rewrite cstr_padded, length_take. lia.
Qed.

Lemma strncpy_strncmp_witness :
  exists dest', strncpy (replicate 14 7) [97; 98; 0] 14 = Some dest' /\ length dest' = 14%nat /\
    drop 14 dest' = drop 14 (replicate 14 7) /\ strncmp dest' [97; 98; 0] 14 = Some 0.
Proof.
  apply (strncpy_strncmp (replicate 14 7) [97; 98; 0] 14); [reflexivity|].
  left. rewrite !elem_of_cons. auto.
Defined.
