(* ===== verification/Format.v ===== *)
(** Formatted output (src/common/format.c, src/kernel/printk.c).

    [put_char] is the callback, a step of a context of any type. A string is
    the list of its characters, with the NUL behind it. An argument is a word
    (a register or a stack slot of the caller, of which [va_arg] takes the low
    bits) or a pointer to a string. *)
From Stdlib Require Import ZArith Lia.
From stdpp Require Import base numbers list.
From S2P Require Import Prelude CString.

(** [static char digit[]] *)
Definition digit : list Z := [48; 49; 50; 51; 52; 53; 54; 55; 56; 57; 97; 98; 99; 100; 101; 102].

Inductive vararg := AWord (bits : Z) | AStr (s : option (list Z)).

(** [va_arg(arg, type)]: the value and the arguments left. *)
Definition va_word (args : list vararg) : option (Z * list vararg) :=
  match args with AWord v :: l => Some (v, l) | _ => None end.
Definition va_string (args : list vararg) : option (option (list Z) * list vararg) :=
  match args with AStr p :: l => Some (p, l) | _ => None end.

(** The value of the low [w] bits as a signed integer. *)
Definition signed (w v : Z) : Z := let u := wrap w v in if u <? 2 ^ (w - 1) then u else u - 2 ^ w.

(** The conversions [_INT_CASE]: the letters, the width of the type, whether
    the type is signed, the base. *)
Record int_case := mkCase { ident : list Z; width : Z; is_signed : bool; base : Z }.
Definition int_cases : list int_case := [
  mkCase [117] 32 false 10; mkCase [108; 108; 117] 64 false 10;
  mkCase [100] 32 true 10; mkCase [108; 108; 100] 64 true 10;
  mkCase [120] 32 false 16; mkCase [108; 108; 120] 64 false 16;
  mkCase [112] 64 false 16; mkCase [122; 117] 64 false 10; mkCase [122; 100] 64 true 10].

(** [(i64)va_arg(arg, type)] *)
Definition case_value (k : int_case) (bits : Z) : Z := signed 64 (if is_signed k then signed (width k) bits else wrap (width k) bits).

(** ["(null)"] *)
Definition null_text : list Z := [40; 110; 117; 108; 108; 41].

Section format.
Context {S : Type} (put_char : S -> Z -> S).

(** The static buffer of [_print_int], and the context. *)
Record Fmt := mkFmt { fm_buf : list Z; fm_ctx : S }.

Definition put (c : Z) : M Fmt unit := modify (fun s => mkFmt (fm_buf s) (put_char (fm_ctx s) c)).
Definition store_buf (pos : nat) (c : Z) : M Fmt unit :=
  s ← get_state; b ← deref (store (fm_buf s) pos c); modify (fun s => mkFmt b (fm_ctx s)).
Definition load_buf (pos : nat) : M Fmt Z := s ← get_state; deref (fm_buf s !! pos).

(** [do *pos++ = digit[v % base]; while (v /= base)]; it leaves the buffer when
    there are more digits than fuel. *)
Fixpoint fill_digits (fuel : nat) (v base : Z) (pos : nat) : M Fmt nat :=
  match fuel with
  | O => undefined
  | Datatypes.S fuel' =>
      c ← deref (digit !! Z.to_nat (v mod base));
      store_buf pos c ;;
      if v / base =? 0 then mret (Datatypes.S pos) else fill_digits fuel' (v / base) base (Datatypes.S pos)
  end.

(** [do put_char(ctx, *(--pos)); while (pos != buf)] *)
Fixpoint put_digits (pos : nat) : M Fmt unit :=
  match pos with
  | O => undefined
  | Datatypes.S pos' =>
      c ← load_buf pos'; put c ;;
      match pos' with O => mret tt | _ => put_digits pos' end
  end.

Definition _print_int (u base : Z) (is_signed : bool) : M Fmt unit :=
  let v := u64 u in
  v ← (if is_signed && (u <? 0) then put 45 ;; mret (u64 (- v)) else mret v);
  pos ← fill_digits 64 v base 0;
  put_digits pos.

Fixpoint put_string (s : list Z) : M Fmt unit :=
  match s with
  | [] => mret tt
  | c :: s' => put c ;; put_string s'
  end.

(** The chain of [_INT_CASE]s at [pos], the string behind the percent sign: the
    rest of the string and the arguments left, or [None] when none applies. *)
Fixpoint try_int_cases (ks : list int_case) (pos : list Z) (args : list vararg) : M Fmt (option (list Z * list vararg)) :=
  match ks with
  | [] => mret None
  | k :: ks' =>
      r ← deref (strncmp (pos ++ [0]) (ident k ++ [0]) (length (ident k)));
      if r =? 0 then
        a ← deref (va_word args);
        _print_int (case_value k a.1) (base k) (is_signed k) ;;
        mret (Some (drop (length (ident k)) pos, a.2))
      else try_int_cases ks' pos args
  end.

(** What follows a percent sign. *)
Definition conversion (pos : list Z) (args : list vararg) : M Fmt (option (list Z * list vararg)) :=
  let c := default 0 (head pos) in
  if c =? 37 then put 37 ;; mret (Some (tail pos, args))
  else if c =? 99 then a ← deref (va_word args); put (u8 a.1) ;; mret (Some (tail pos, a.2))
  else if c =? 115 then a ← deref (va_string args); put_string (default null_text a.1) ;; mret (Some (tail pos, a.2))
  else try_int_cases int_cases pos args.

Fixpoint vformat_loop (fuel : nat) (pos : list Z) (args : list vararg) : M Fmt unit :=
  match fuel with
  | O => undefined
  | Datatypes.S fuel' =>
      match pos with
      | [] => mret tt
      | c :: pos' =>
          r ← (if c =? 37 then conversion pos' args else mret None);
          match r with
          | Some (pos'', args') => vformat_loop fuel' pos'' args'
          | None => put c ;; vformat_loop fuel' pos' args
          end
      end
  end.

Definition vformat (fmt : list Z) (args : list vararg) : M Fmt unit := vformat_loop (Datatypes.S (length fmt)) fmt args.

(** [format] is [vformat] with the arguments behind [fmt]. *)
Definition format (fmt : list Z) (args : list vararg) : M Fmt unit := vformat fmt args.
End format.
Arguments Fmt : clear implicits.
Arguments mkFmt {S}.

(** ** printk *)

(** [printk_lock], the buffer and what went to the uart. *)
Record Printk := mkPrintk { pk_lock : bool; pk_fmt : Fmt (list Z) }.

Definition printk_init : M Printk unit := modify (fun s => mkPrintk false (pk_fmt s)).
Definition _put_char (out : list Z) (c : Z) : list Z := out ++ [c].
Definition _vprintf (fmt : list Z) (args : list vararg) : M Printk unit :=
  (fun s => if pk_lock s then Blocked s else Done tt (mkPrintk true (pk_fmt s))) ;;
  zoom pk_fmt (fun v s => mkPrintk (pk_lock s) v) (vformat _put_char fmt args) ;;
  modify (fun s => mkPrintk false (pk_fmt s)).
Definition printk (fmt : list Z) (args : list vararg) : M Printk unit := _vprintf fmt args.

(** ** Integers *)

(** The text of an integer, read back: the value of digits in a base, and of
    an optional sign and digits. *)
Definition digit_value (c : Z) : Z := if c <? 58 then c - 48 else c - 87.
Definition read_nat (base : Z) (l : list Z) : Z := fold_left (fun a c => a * base + digit_value c) l 0.
Definition read_int (base : Z) (l : list Z) : Z :=
  match l with c :: l' => if c =? 45 then - read_nat base l' else read_nat base l | [] => 0 end.

(** A number as it is written: its digits, in the base, without a zero in
    front except for the number zero itself. *)
Definition numeral (base : Z) (l : list Z) : Prop :=
  Forall (fun c => c ∈ take (Z.to_nat base) digit) l /\ l <> [] /\ (head l = Some 48 -> l = [48]).

Lemma digit_lookup d : 0 <= d < 16 -> exists c, digit !! Z.to_nat d = Some c /\ digit_value c = d /\ (c = 48 <-> d = 0) /\ c <> 45.
Proof.
  intros Hd. assert (d = 0 \/ d = 1 \/ d = 2 \/ d = 3 \/ d = 4 \/ d = 5 \/ d = 6 \/ d = 7 \/ d = 8 \/ d = 9 \/ d = 10 \/ d = 11 \/ d = 12 \/ d = 13 \/ d = 14 \/ d = 15) as Hin by lia.
  destruct Hin as [->|[->|[->|[->|[->|[->|[->|[->|[->|[->|[->|[->|[->|[->|[->| ->]]]]]]]]]]]]]]];
  eexists; (split; [reflexivity|]); (split; [reflexivity|]); (split; [split; done|done]).
Qed.

Lemma digit_in_base d base c : 0 <= d < base -> digit !! Z.to_nat d = Some c -> c ∈ take (Z.to_nat base) digit.
Proof. intros Hd E. apply (list_elem_of_lookup_2 _ (Z.to_nat d)). rewrite lookup_take_lt by lia. done. Qed.

Section correct.
Context {S : Type} (put_char : S -> Z -> S).
Notation emit := (fold_left put_char).

(** What has been printed: [l] went to the context, in this order. *)
Definition printed (l : list Z) (s s' : Fmt S) : Prop := length (fm_buf s') = length (fm_buf s) /\ fm_ctx s' = emit l (fm_ctx s).

Lemma printed_app l1 l2 s1 s2 s3 : printed l1 s1 s2 -> printed l2 s2 s3 -> printed (l1 ++ l2) s1 s3.
Proof. intros [E1 H1] [E2 H2]. split; [congruence|]. by rewrite fold_left_app, H2, H1. Qed.

Lemma wp_put c s : wp (put put_char c) (fun _ s' => printed [c] s s') s.
Proof. done. Qed.

Lemma wp_put_string l : forall s, wp (put_string put_char l) (fun _ s' => printed l s s') s.
Proof.
  induction l as [|c l IH]; intros s; simpl; [by apply wp_ret|]. apply wp_bind. eapply wp_mono; [apply wp_put|].
  intros [] s1 H1. eapply wp_mono; [apply IH|]. intros [] s2 H2. by apply (printed_app [c] l s s1 s2).
Qed.

Lemma wp_store_buf pos c (s : Fmt S) (Q : unit -> Fmt S -> Prop) :
  (pos < length (fm_buf s))%nat -> Q tt (mkFmt (<[pos := c]> (fm_buf s)) (fm_ctx s)) -> wp (store_buf pos c) Q s.
Proof. intros Hp HQ. apply wp_bind, wp_get_state. apply wp_bind. eapply wp_deref; [by apply store_spec|]. by apply wp_modify. Qed.

(** The digits go to the buffer from the last to the first. *)
Lemma wp_fill_digits fuel : forall base v pos (s : Fmt S), 2 <= base <= 16 -> 0 <= v < 2 ^ Z.of_nat fuel -> (0 < fuel)%nat ->
  (pos + fuel <= length (fm_buf s))%nat ->
  wp (fill_digits fuel v base pos) (fun pos' s' => exists l, length (fm_buf s') = length (fm_buf s) /\ fm_ctx s' = fm_ctx s /\
    pos' = (pos + length l)%nat /\ take pos' (fm_buf s') = take pos (fm_buf s) ++ l /\
    numeral base (reverse l) /\ read_nat base (reverse l) = v /\ head (reverse l) <> Some 45) s.
Proof.
  induction fuel as [|fuel IH]; intros base v pos s Hb Hv Hf Hl; [lia|]. cbn [fill_digits].
  pose proof (Z.mod_pos_bound v base). pose proof (Z.div_mod v base).
  destruct (digit_lookup (v mod base)) as (c & Ec & Hcv & Hc0 & Hc45); [lia|].
  apply wp_bind. eapply wp_deref; [exact Ec|]. apply wp_bind, wp_store_buf; [lia|].
  assert (take (Datatypes.S pos) (<[pos := c]> (fm_buf s)) = take pos (fm_buf s) ++ [c]) as Et.
  { rewrite (take_S_r _ _ c) by (rewrite list_lookup_insert_eq by lia; done). by rewrite take_insert_ge by lia. }
  assert (c ∈ take (Z.to_nat base) digit) as Hcb by (apply (digit_in_base (v mod base)); [lia|done]).
  destruct (Z.eqb_spec (v / base) 0) as [E0|Hn0].
  - apply wp_ret. exists [c]. cbn [fm_buf fm_ctx]. rewrite length_insert. split_and!; try done; [simpl; lia| | |].
    + change (reverse [c]) with [c]. split_and!; [by constructor|done|]. by intros [= ->].
    + change (reverse [c]) with [c]. unfold read_nat. simpl. lia.
    + simpl. congruence.
  - assert (0 < v / base) as Hpos by (pose proof (Z.div_pos v base); lia).
    assert (v / base < 2 ^ Z.of_nat fuel) as Hlt.
    { apply Z.div_lt_upper_bound; [lia|]. rewrite Nat2Z.inj_succ, Z.pow_succ_r in Hv by lia. nia. }
    destruct fuel as [|fuel]; [simpl in Hlt; lia|].
    eapply wp_mono; [apply IH; cbn [fm_buf]; rewrite ?length_insert; lia|]. cbn [fm_buf fm_ctx].
    intros pos' s' (l & E1 & E2 & Ep & Etk & (Hnum & Hne & Hz) & Hval & H45). rewrite length_insert in E1. exists (c :: l). split_and!; try done.
    + simpl. lia.
    + rewrite Etk, Et. by rewrite <- app_assoc.
    + rewrite reverse_cons. split_and!; [apply Forall_app; split; [done|by constructor]|by destruct (reverse l)|].
      destruct (reverse l) as [|d r] eqn:Er; [done|]. simpl. intros [= ->]. specialize (Hz eq_refl). simplify_eq.
    + rewrite reverse_cons. unfold read_nat. rewrite fold_left_app. fold (read_nat base (reverse l)). simpl. rewrite Hval, Hcv. lia.
    + rewrite reverse_cons. destruct (reverse l) as [|d r] eqn:Er; [done|]. done.
Qed.

Lemma wp_put_digits pos : forall s : Fmt S, (0 < pos <= length (fm_buf s))%nat ->
  wp (put_digits put_char pos) (fun _ s' => printed (reverse (take pos (fm_buf s))) s s') s.
Proof.
  induction pos as [|pos IH]; intros s Hp; [lia|]. cbn [put_digits].
  destruct (lookup_lt_is_Some_2 (fm_buf s) pos) as [c Ec]; [lia|].
  apply wp_bind. unfold load_buf. apply wp_bind, wp_get_state. eapply wp_deref; [exact Ec|]. apply wp_bind, wp_modify.
  rewrite (take_S_r _ _ _ Ec), reverse_app. destruct pos as [|pos]; [by apply wp_ret|].
  eapply wp_mono; [apply IH; cbn [fm_buf]; lia|]. cbn [fm_buf fm_ctx]. intros [] s' [E1 E2]. by split.
Qed.

(** The text of an integer: a numeral that reads back as the value, a minus
    sign in front when it is negative. *)
Definition int_text (base : Z) (v : Z) (l : list Z) : Prop :=
  read_int base l = v /\
  if v <? 0 then exists n, l = 45 :: n /\ numeral base n else numeral base l.

Lemma wp_print_int u base sg (s : Fmt S) : 2 <= base <= 16 -> - 2 ^ 63 <= u < 2 ^ 63 -> length (fm_buf s) = 64%nat ->
  wp (_print_int put_char u base sg) (fun _ s' => exists l, int_text base (if sg then u else u64 u) l /\ printed l s s') s.
Proof.
  intros Hb Hu Hl. unfold _print_int. cbv zeta.
  assert (forall v s0, 0 <= v < 2 ^ 64 -> length (fm_buf s0) = 64%nat ->
    wp (pos ← fill_digits 64 v base 0; put_digits put_char pos)
      (fun _ s' => exists l, numeral base l /\ read_nat base l = v /\ head l <> Some 45 /\ printed l s0 s') s0) as Hgo.
  { intros v s0 Hv Hl0. apply wp_bind. eapply wp_mono; [apply wp_fill_digits; lia|].
    intros pos s1 (l & E1 & E2 & -> & Et & Hnum & Hval & H45). simpl in Et |- *.
    assert (0 < length l <= length (fm_buf s1))%nat as Hll.
    { apply (f_equal length) in Et. rewrite length_take in Et. split; [|lia]. destruct Hnum as (_ & Hne & _).
      destruct l; [done|simpl; lia]. }
    eapply wp_mono; [apply wp_put_digits; done|]. intros [] s2 [E3 E4]. rewrite Et in E4. exists (reverse l). split_and!; try done.
    split; [congruence|]. rewrite E4, E2. done. }
  assert (wrap 64 u = if u <? 0 then u + 2 ^ 64 else u) as Ew.
  { unfold wrap. destruct (Z.ltb_spec u 0); [|apply Z.mod_small; lia].
    rewrite <- (Z.mod_add u 1 (2 ^ 64)) by lia. rewrite Z.mod_small; lia. }
  assert (forall v l, 0 <= v -> numeral base l -> read_nat base l = v -> head l <> Some 45 -> int_text base v l) as Htext.
  { intros v l H0 Hn Hr H45. unfold int_text. rewrite (proj2 (Z.ltb_ge v 0)) by lia. split; [|done].
    destruct l as [|c l]; [done|]. unfold read_int. destruct (Z.eqb_spec c 45) as [->|]; done. }
  destruct (sg && (u <? 0)) eqn:Es.
  - apply andb_true_iff in Es as [-> Hneg]. rewrite Hneg in Ew. apply Z.ltb_lt in Hneg.
    assert (u64 (- u64 u) = - u) as E64.
    { unfold u64. rewrite Ew. unfold wrap. rewrite <- (Z.mod_add _ 1 (2 ^ 64)) by lia. rewrite Z.mod_small; lia. }
    apply wp_bind, wp_bind. eapply wp_mono; [apply wp_put|]. intros [] s1 [H1 H2]. apply wp_ret. rewrite E64.
    eapply wp_mono; [apply Hgo; lia|]. intros [] s2 (l & Hn & Hr & H45 & Hp). exists (45 :: l). split.
    + unfold int_text. rewrite (proj2 (Z.ltb_lt u 0)) by lia. split; [simpl; lia|by exists l].
    + by apply (printed_app [45] l s s1 s2).
  - apply wp_bind, wp_ret. pose proof (Z.mod_pos_bound u (2 ^ 64)). fold (wrap 64 u) in H. fold (u64 u) in H.
    eapply wp_mono; [apply (Hgo (u64 u) s); lia|]. intros [] s2 (l & Hn & Hr & H45 & Hp). exists l. split; [|done].
    destruct sg; [|apply Htext; try done; lia]. simpl in Es. rewrite Es in Ew. apply Z.ltb_ge in Es.
    unfold u64 in Hr. apply Htext; try done; lia.
Qed.

(** ** Format strings *)

(** A format string is a sequence of pieces, each with its argument. *)
Inductive piece := Lit (c : Z) | Percent | Char (v : Z) | Str (p : option (list Z)) | Int (k : int_case) (bits : Z).

Definition piece_fmt (p : piece) : list Z :=
  match p with
  | Lit c => [c]
  | Percent => [37; 37]
  | Char _ => [37; 99]
  | Str _ => [37; 115]
  | Int k _ => 37 :: ident k
  end.

Definition piece_args (p : piece) : list vararg :=
  match p with
  | Lit _ | Percent => []
  | Char v => [AWord v]
  | Str p => [AStr p]
  | Int _ bits => [AWord bits]
  end.

Definition piece_ok (p : piece) : Prop :=
  match p with
  | Lit c => c <> 37
  | Int k _ => k ∈ int_cases
  | _ => True
  end.

(** The integer a conversion stands for: the low bits of the argument, at the
    width and with the sign of the type. *)
Definition int_value (k : int_case) (bits : Z) : Z := if is_signed k then signed (width k) bits else wrap (width k) bits.

Definition piece_text (p : piece) (l : list Z) : Prop :=
  match p with
  | Lit c => l = [c]
  | Percent => l = [37]
  | Char v => l = [u8 v]
  | Str p => l = default null_text p
  | Int k bits => int_text (base k) (int_value k bits) l
  end.

Lemma signed_range w v : 0 < w -> - 2 ^ (w - 1) <= signed w v < 2 ^ (w - 1).
Proof.
  intros Hw. unfold signed, wrap. assert (2 ^ w = 2 * 2 ^ (w - 1)) as E by (rewrite <- Z.pow_succ_r by lia; f_equal; lia).
  pose proof (Z.mod_pos_bound v (2 ^ w)). destruct (Z.ltb_spec (v mod 2 ^ w) (2 ^ (w - 1))); lia.
Qed.

Lemma signed_small v : - 2 ^ 63 <= v < 2 ^ 63 -> signed 64 v = v.
Proof.
  intros Hv. unfold signed, wrap. change (64 - 1) with 63. cbv zeta. destruct (decide (0 <= v)).
  - rewrite Z.mod_small by lia. rewrite (proj2 (Z.ltb_lt v (2 ^ 63))) by lia. done.
  - assert (v mod 2 ^ 64 = v + 2 ^ 64) as ->.
    { rewrite <- (Z.mod_add v 1) by lia. rewrite Z.mod_small; lia. }
    rewrite (proj2 (Z.ltb_ge _ (2 ^ 63))) by lia. lia.
Qed.

Lemma u64_signed v : u64 (signed 64 v) = u64 v.
Proof.
  unfold u64, signed, wrap. cbv zeta. destruct (_ <? _); [apply Z.mod_mod; lia|].
  rewrite <- (Z.mod_add _ 1 (2 ^ 64)) by lia. replace (v mod 2 ^ 64 - 2 ^ 64 + 1 * 2 ^ 64) with (v mod 2 ^ 64) by lia. apply Z.mod_mod; lia.
Qed.

(** The conversion to [i64] and back in [_print_int] does not change it. *)
Lemma case_value_spec k bits : k ∈ int_cases ->
  - 2 ^ 63 <= case_value k bits < 2 ^ 63 /\ (if is_signed k then case_value k bits else u64 (case_value k bits)) = int_value k bits /\ 2 <= base k <= 16.
Proof.
  intros Hk. unfold case_value, int_value.
  assert ((width k = 32 \/ width k = 64) /\ 2 <= base k <= 16) as [Hw Hb].
  { unfold int_cases in Hk. repeat (apply elem_of_cons in Hk as [->|Hk]; [simpl; lia|]). by apply elem_of_nil in Hk. }
  split_and!; [apply (signed_range 64); lia|apply (signed_range 64); lia| |lia..].
  pose proof (signed_range (width k) bits) as Hs. destruct (is_signed k).
  - apply signed_small. destruct Hw as [E|E]; rewrite E in *; simpl in Hs; lia.
  - rewrite u64_signed. unfold u64, wrap. pose proof (Z.mod_pos_bound bits (2 ^ width k)).
    apply Z.mod_small. destruct Hw as [E|E]; rewrite E in *; lia.
Qed.

(** The letters of the conversions are a prefix code, so the chain of cases
    finds the right one. *)
Lemma try_int_cases_find k rest bits args : k ∈ int_cases ->
  try_int_cases put_char int_cases (ident k ++ rest) (AWord bits :: args) =
  (_print_int put_char (case_value k bits) (base k) (is_signed k) ;; mret (Some (rest, args))).
Proof.
  intros Hk. unfold int_cases in Hk.
  repeat (apply elem_of_cons in Hk as [->|Hk]; [reflexivity|]). by apply elem_of_nil in Hk.
Qed.

Lemma conversion_int k rest bits args : k ∈ int_cases ->
  conversion put_char (ident k ++ rest) (AWord bits :: args) =
  (_print_int put_char (case_value k bits) (base k) (is_signed k) ;; mret (Some (rest, args))).
Proof.
  intros Hk. rewrite <- try_int_cases_find by done. unfold int_cases in Hk.
  repeat (apply elem_of_cons in Hk as [->|Hk]; [reflexivity|]). by apply elem_of_nil in Hk.
Qed.

(** One turn of the loop prints one piece. *)
Lemma vformat_piece fuel p rest args (s : Fmt S) Q : piece_ok p -> length (fm_buf s) = 64%nat ->
  (forall l s', piece_text p l -> printed l s s' -> wp (vformat_loop put_char fuel rest args) Q s') ->
  wp (vformat_loop put_char (Datatypes.S fuel) (piece_fmt p ++ rest) (piece_args p ++ args)) Q s.
Proof.
  intros Hok Hb HQ. cbn [vformat_loop].
  destruct p as [c| |v|o|k bits]; cbn [piece_fmt piece_args app].
  - rewrite (proj2 (Z.eqb_neq c 37)) by done. apply wp_bind, wp_ret. apply wp_bind. eapply wp_mono; [apply wp_put|]. intros [] s'. by apply HQ.
  - rewrite Z.eqb_refl. do 2 apply wp_bind. eapply wp_mono; [apply wp_put|].
    intros [] s' Hp. apply wp_ret. by apply (HQ [37]).
  - rewrite Z.eqb_refl. do 2 apply wp_bind. eapply wp_deref; [reflexivity|]. apply wp_bind. eapply wp_mono; [apply wp_put|].
    intros [] s' Hp. apply wp_ret. by apply (HQ [u8 v]).
  - rewrite Z.eqb_refl. do 2 apply wp_bind. eapply wp_deref; [reflexivity|]. apply wp_bind. eapply wp_mono; [apply wp_put_string|].
    intros [] s' Hp. apply wp_ret. by apply (HQ (default null_text o)).
  - rewrite Z.eqb_refl. apply wp_bind. rewrite conversion_int by done. destruct (case_value_spec k bits Hok) as (Hr & Hv & Hba).
    apply wp_bind. eapply wp_mono; [by apply wp_print_int|]. intros [] s' (l & Hl & Hp). apply wp_ret.
    apply (HQ l); [|done]. simpl. rewrite <- Hv. done.
Qed.

Lemma wp_vformat_loop ps : forall fuel args (s : Fmt S), Forall piece_ok ps -> length (fm_buf s) = 64%nat -> (length ps < fuel)%nat ->
  wp (vformat_loop put_char fuel (concat (piece_fmt <$> ps)) (concat (piece_args <$> ps) ++ args))
    (fun _ s' => exists ls, Forall2 piece_text ps ls /\ printed (concat ls) s s') s.
Proof.
  induction ps as [|p ps IH]; intros fuel args s Hok Hb Hf; (destruct fuel as [|fuel]; [simpl in Hf; lia|]).
  - apply wp_ret. exists []. split; [constructor|done].
  - apply Forall_cons in Hok as [Hp Hps]. cbn [fmap list_fmap concat]. rewrite <- app_assoc. apply vformat_piece; [done..|].
    intros l s1 Hl H1. eapply wp_mono; [apply IH; [done|destruct H1; congruence|simpl in Hf; lia]|].
    intros [] s2 (ls & Hls & H2). exists (l :: ls). split; [by constructor|]. by apply (printed_app l (concat ls) s s1 s2).
Qed.

Lemma pieces_fuel ps : (length ps <= length (concat (piece_fmt <$> ps)))%nat.
Proof.
  induction ps as [|p ps IH]; [done|]. cbn [fmap list_fmap concat]. rewrite length_app. change (length (p :: ps)) with (Datatypes.S (length ps)).
  assert (0 < length (piece_fmt p))%nat by (destruct p; simpl; lia). lia.
Qed.

Lemma wp_vformat ps args (s : Fmt S) : Forall piece_ok ps -> length (fm_buf s) = 64%nat ->
  wp (vformat put_char (concat (piece_fmt <$> ps)) (concat (piece_args <$> ps) ++ args))
    (fun _ s' => exists ls, Forall2 piece_text ps ls /\ printed (concat ls) s s') s.
Proof. intros Hok Hb. apply wp_vformat_loop; [done..|]. pose proof (pieces_fuel ps). lia. Qed.

(** C27: [_print_int] prints every 64-bit integer in every base up to sixteen, its
    buffer of 64 characters is large enough, and the text reads back as the
    integer: the number itself when it is printed signed (the least one
    included), and its unsigned value otherwise. *)
Theorem print_int_roundtrip u base sg (s : Fmt S) : 2 <= base <= 16 -> - 2 ^ 63 <= u < 2 ^ 63 -> length (fm_buf s) = 64%nat ->
  wp (_print_int put_char u base sg) (fun _ s' => exists l, read_int base l = (if sg then u else u64 u) /\
    (l = [48] \/ head l <> Some 48) /\ printed l s s') s.
Proof.
  intros Hb Hu Hl. eapply wp_mono; [by apply wp_print_int|]. intros [] s' (l & [Hr Hn] & Hp). exists l. split_and!; try done.
  destruct (_ <? 0); [destruct Hn as (n & -> & _); by right|]. destruct Hn as (_ & _ & H0).
  destruct (decide (head l = Some 48)); [left; auto|by right].
Qed.
End correct.

(** A call of [printk] with arguments that fit its format string sends the text
    of each piece to the uart, in order, and gives the lock back. *)
Theorem printk_spec ps args out buf : Forall piece_ok ps -> length buf = 64%nat ->
  wp (printk (concat (piece_fmt <$> ps)) (concat (piece_args <$> ps) ++ args))
    (fun _ s' => exists ls, Forall2 piece_text ps ls /\ fm_ctx (pk_fmt s') = out ++ concat ls /\
      pk_lock s' = false /\ length (fm_buf (pk_fmt s')) = 64%nat)
    (mkPrintk false (mkFmt buf out)).
Proof.
  intros Hok Hb. unfold printk, _vprintf. apply wp_bind. unfold wp at 1. cbn [pk_lock pk_fmt].
  apply wp_bind, wp_zoom. cbn [pk_fmt]. eapply wp_mono; [by apply (wp_vformat _put_char ps args)|].
  intros [] s' (ls & Hls & Hl & Hc). apply wp_modify. exists ls. cbn [pk_fmt pk_lock fm_ctx fm_buf] in *. split_and!; try done; [|congruence].
  rewrite Hc. generalize (concat ls) out. clear. intros l. induction l as [|c l IH]; intros out; simpl; [by rewrite app_nil_r|].
  rewrite IH. unfold _put_char. by rewrite <- app_assoc.
Qed.

(** ["%d%%\n"] of -5 and ["%s"] of a null pointer. *)
Definition example_pieces : list piece := [Int (mkCase [100] 32 true 10) 4294967291; Percent; Lit 10; Str None].

Lemma print_int_roundtrip_witness :
  wp (_print_int _put_char (- 2 ^ 63) 10 true) (fun _ s' => exists l, read_int 10 l = (if true then - 2 ^ 63 else u64 (- 2 ^ 63)) /\
    (l = [48] \/ head l <> Some 48) /\ printed _put_char l (mkFmt (replicate 64 0) []) s') (mkFmt (replicate 64 0) []).
Proof. apply (print_int_roundtrip _put_char (- 2 ^ 63) 10 true (mkFmt (replicate 64 0) [])); [lia|lia|reflexivity]. Defined.

Lemma printk_spec_witness :
  wp (printk (concat (piece_fmt <$> example_pieces)) (concat (piece_args <$> example_pieces) ++ []))
    (fun _ s' => exists ls, Forall2 piece_text example_pieces ls /\ fm_ctx (pk_fmt s') = [] ++ concat ls /\
      pk_lock s' = false /\ length (fm_buf (pk_fmt s')) = 64%nat)
    (mkPrintk false (mkFmt (replicate 64 0) [])).
Proof.
  apply (printk_spec example_pieces [] [] (replicate 64 0)); [|reflexivity].
  unfold example_pieces. repeat constructor; simpl; done.
Defined.

(** The text itself: [-5%], a new line and [(null)]; a percent sign before
    anything else is printed as it is. *)
Example printk_text :
  printk ([37; 100; 37; 37; 10; 37; 115; 37; 113]) [AWord 4294967291; AStr None] (mkPrintk false (mkFmt (replicate 64 0) [])) =
  Done tt (mkPrintk false (mkFmt (53 :: replicate 63 0) ([45; 53; 37; 10] ++ null_text ++ [37; 113]))).
Proof. vm_compute. reflexivity. Qed.
