(* ===== verification/ListNode.v ===== *)
(** Intrusive circular lists, queues and the lock-free list
    (src/common/list.c, src/common/list.h).

    Memory is a finite map from addresses to nodes; address 0 is the null
    pointer. [ring h hd l] says that the nodes [l], in order from
    [hd->next], and [hd] form one circular list. *)
From Stdlib Require Import ZArith Lia.
From stdpp Require Import base numbers gmap relations list.
From S2P Require Import Prelude.

Record ListNode := mkNode { prev : Z; next : Z }.
Abbreviation heap := (gmap Z ListNode).

(** ** The code *)

Definition get_next (h : heap) (a : Z) : option Z := next <$> h !! a.
Definition get_prev (h : heap) (a : Z) : option Z := prev <$> h !! a.
Definition set_next (h : heap) (a v : Z) : option heap :=
  n ← h !! a; Some (<[a := mkNode (prev n) v]> h).
Definition set_prev (h : heap) (a v : Z) : option heap :=
  n ← h !! a; Some (<[a := mkNode v (next n)]> h).

Definition init_list_node (h : heap) (node : Z) : option heap :=
  h ← set_prev h node node; set_next h node node.

Definition _merge_list (h : heap) (node1 node2 : Z) : option (Z * heap) :=
  if node1 =? 0 then Some (node2, h)
  else if node2 =? 0 then Some (node1, h)
  else
    node3 ← get_next h node1;
    node4 ← get_prev h node2;
    h ← set_next h node1 node2;
    h ← set_prev h node2 node1;
    h ← set_next h node4 node3;
    h ← set_prev h node3 node4;
    Some (node1, h).

Definition _insert_into_list (h : heap) (list node : Z) : option (Z * heap) :=
  h ← init_list_node h node; _merge_list h list node.

Definition _detach_from_list (h : heap) (node : Z) : option (Z * heap) :=
  p ← get_prev h node;
  n ← get_next h node;
  h ← set_next h p n;
  n ← get_next h node;
  p' ← get_prev h node;
  h ← set_prev h n p';
  h ← init_list_node h node;
  Some (if p =? node then 0 else p, h).

Definition _empty_list (h : heap) (list : Z) : option bool :=
  n ← get_next h list; Some (n =? list).

(** [_for_in_list] visits the nodes from [list->next] on and ends with [list]
    itself; [fuel] bounds the length of the ring. *)
Fixpoint for_in_list (fuel : nat) (h : heap) (flag p : Z) : option (list Z) :=
  match fuel with
  | O => None
  | S fuel' =>
      if p =? flag then Some [p]
      else n ← get_next h p; r ← for_in_list fuel' h flag n; Some (p :: r)
  end.

(** ** Circular lists *)

Definition link (h : heap) (a b : Z) : Prop := get_next h a = Some b /\ get_prev h b = Some a.

(** Each node of the list is linked to the next one. *)
Fixpoint path (h : heap) (l : list Z) : Prop :=
  match l with
  | x :: l' => match l' with y :: _ => link h x y | [] => True end /\ path h l'
  | [] => True
  end.

Record ring (h : heap) (hd : Z) (l : list Z) : Prop := {
  ring_nodup : NoDup (hd :: l);
  ring_path : path h (hd :: l ++ [hd]);
}.

Lemma path_split h l1 x y l2 :
  path h (l1 ++ x :: y :: l2) <-> path h (l1 ++ [x]) /\ link h x y /\ path h (y :: l2).
Proof.
  induction l1 as [|z l1 IH]; [simpl; tauto|]. cbn [app path]. rewrite IH.
  destruct l1; simpl; tauto.
Qed.

Lemma path_frame h h' l :
  path h l ->
  (forall x, x ∈ removelast l -> get_next h' x = get_next h x) ->
  (forall x, x ∈ tail l -> get_prev h' x = get_prev h x) -> path h' l.
Proof.
  induction l as [|x l IH]; intros Hs Hn Hp; [done|]. destruct l as [|y l]; [done|].
  destruct Hs as [[H1 H2] Hs]. split.
  - unfold link. rewrite Hn, Hp; [done|left|left].
  - apply IH; [done| |]; intros z Hz.
    + apply Hn. by right.
    + apply Hp. cbn [tail] in *. by right.
Qed.

(** Fields after an assignment. *)
Lemma set_next_some h a v n : get_next h a = Some n -> exists h', set_next h a v = Some h' /\
  (forall x, get_next h' x = if decide (x = a) then Some v else get_next h x) /\
  (forall x, get_prev h' x = get_prev h x).
Proof.
  unfold get_next, get_prev, set_next. intros E. destruct (h !! a) as [nd|] eqn:Ea; [|done]. simpl.
  eexists. split; [done|]. split; intros x; destruct (decide (x = a)) as [->|Hne].
  - by rewrite lookup_insert_eq.
  - by rewrite lookup_insert_ne.
  - by rewrite lookup_insert_eq, Ea.
  - by rewrite lookup_insert_ne.
Qed.

Lemma set_prev_some h a v n : get_prev h a = Some n -> exists h', set_prev h a v = Some h' /\
  (forall x, get_prev h' x = if decide (x = a) then Some v else get_prev h x) /\
  (forall x, get_next h' x = get_next h x).
Proof.
  unfold get_next, get_prev, set_prev. intros E. destruct (h !! a) as [nd|] eqn:Ea; [|done]. simpl.
  eexists. split; [done|]. split; intros x; destruct (decide (x = a)) as [->|Hne].
  - by rewrite lookup_insert_eq.
  - by rewrite lookup_insert_ne.
  - by rewrite lookup_insert_eq, Ea.
  - by rewrite lookup_insert_ne.
Qed.

Lemma next_prev_some h a : is_Some (get_next h a) <-> is_Some (get_prev h a).
Proof. unfold get_next, get_prev. by rewrite !fmap_is_Some. Qed.

Lemma init_list_node_spec h node :
  is_Some (h !! node) ->
  exists h', init_list_node h node = Some h' /\ ring h' node [] /\
    (forall x, x <> node -> get_next h' x = get_next h x /\ get_prev h' x = get_prev h x).
Proof.
  intros [nd E]. assert (get_prev h node = Some (prev nd)) as Ep by (unfold get_prev; by rewrite E).
  destruct (set_prev_some h node node _ Ep) as (h1 & E1 & P1 & N1).
  assert (get_next h1 node = Some (next nd)) as En by (rewrite N1; unfold get_next; by rewrite E).
  destruct (set_next_some h1 node node _ En) as (h2 & E2 & N2 & P2).
  exists h2. split; [unfold init_list_node; by rewrite E1|]. split.
  - split; [apply NoDup_singleton|]. split; [split|done].
    + rewrite N2. by rewrite decide_True.
    + rewrite P2, P1. by rewrite decide_True.
  - intros x Hx. rewrite N2, P2, P1, N1. by rewrite !decide_False.
Qed.

(** The two ends of a ring, as the merge finds them. *)
Lemma ring_ends h hd l :
  ring h hd l ->
  exists first rest front back,
    l ++ [hd] = first :: rest /\ hd :: l = front ++ [back] /\
    get_next h hd = Some first /\ get_prev h hd = Some back /\
    is_Some (get_prev h first) /\ is_Some (get_next h back) /\
    first ∉ rest /\ back ∉ front /\ first ∈ hd :: l /\ back ∈ hd :: l.
Proof.
  intros [Hnd Hp].
  destruct (l ++ [hd]) as [|first rest] eqn:E1; [by destruct l|].
  destruct (hd :: l) as [|back front _] eqn:E2 using rev_ind; [done|].
  exists first, rest, front, back. cbn in Hp.
  assert (NoDup (first :: rest)) as Hnd'.
  { by rewrite <- E1, <- Permutation_cons_append, E2. }
  assert (hd :: l ++ [hd] = front ++ back :: hd :: []) as E3.
  { change (hd :: l ++ [hd]) with ((hd :: l) ++ [hd]). rewrite E2. by rewrite <- app_assoc. }
  assert (path h (hd :: first :: rest)) as Hp' by done.
  rewrite <- E1 in Hp'. change (path h (hd :: l ++ [hd])) in Hp'. rewrite E3 in Hp'.
  apply path_split in Hp' as (_ & [Hb1 Hb2] & _). destruct Hp as [[Hf1 Hf2] _].
  apply NoDup_cons in Hnd' as [? _]. rewrite NoDup_app in Hnd. destruct Hnd as (_ & Hnd & _).
  split_and!; eauto.
  - intros Hin. apply (Hnd _ Hin). by apply list_elem_of_singleton.
  - rewrite <- E2. assert (first ∈ l ++ [hd]) as Hin by (rewrite E1; left). set_solver.
  - rewrite elem_of_app, list_elem_of_singleton. by right.
Qed.

(** [_merge_list]: the second ring goes behind [node1]. *)
Lemma merge_spec h a l1 b l2 :
  a <> 0 -> b <> 0 -> ring h a l1 -> ring h b l2 -> (forall x, x ∈ a :: l1 -> x ∉ b :: l2) ->
  exists h', _merge_list h a b = Some (a, h') /\ ring h' a (b :: l2 ++ l1) /\
    (forall x, x ∉ a :: l1 -> x ∉ b :: l2 -> get_next h' x = get_next h x /\ get_prev h' x = get_prev h x).
Proof.
  intros Ha Hb R1 R2 Hdis.
  destruct (ring_ends _ _ _ R1) as (n3 & k1 & f1 & e1 & L1 & M1 & E3 & _ & S3 & _ & D3 & _ & I3 & _).
  destruct (ring_ends _ _ _ R2) as (g2 & k2 & f2 & n4 & L2 & M2 & _ & E4 & _ & S4 & _ & D4 & _ & I4).
  destruct (set_next_some h a b _ E3) as (h1 & F1 & N1 & P1).
  assert (get_prev h1 b = Some n4) as Hpb1 by (by rewrite P1).
  destruct (set_prev_some h1 b a _ Hpb1) as (h2 & F2 & P2 & N2).
  assert (is_Some (get_next h2 n4)) as [y Hy] by (rewrite N2, N1; by case_decide).
  destruct (set_next_some h2 n4 n3 _ Hy) as (h3 & F3 & N3 & P3).
  assert (is_Some (get_prev h3 n3)) as [w Hw] by (rewrite P3, P2; case_decide; [done|by rewrite P1]).
  destruct (set_prev_some h3 n3 n4 _ Hw) as (h4 & F4 & P4 & N4).
  assert (forall x, get_next h4 x = if decide (x = n4) then Some n3 else
            if decide (x = a) then Some b else get_next h x) as HN
    by (intros z; by rewrite N4, N3, N2, N1).
  assert (forall x, get_prev h4 x = if decide (x = n3) then Some n4 else
            if decide (x = b) then Some a else get_prev h x) as HP
    by (intros z; by rewrite P4, P3, P2, P1).
  destruct R1 as [Hnd1 Hp1], R2 as [Hnd2 Hp2].
  exists h4. split_and!.
  - unfold _merge_list. rewrite (proj2 (Z.eqb_neq a 0)), (proj2 (Z.eqb_neq b 0)) by done.
    rewrite E3, E4. simpl. rewrite F1. simpl. rewrite F2. simpl. rewrite F3. simpl. by rewrite F4.
  - split.
    + rewrite app_comm_cons, (Permutation_app_comm (b :: l2) l1), app_comm_cons.
      apply NoDup_app. split_and!; [done|set_solver|done].
    + simpl. rewrite <- app_assoc, L1.
      change (link h4 a b /\ path h4 ((b :: l2) ++ n3 :: k1)). split.
      { unfold link. rewrite HN, HP.
        rewrite (decide_False (P := a = n4)) by (intros ->; set_solver). rewrite decide_True by done.
        rewrite (decide_False (P := b = n3)) by (intros ->; set_solver). by rewrite decide_True. }
      rewrite M2, <- app_assoc. apply path_split. split_and!.
      * rewrite <- M2. apply (path_frame h).
        { change (b :: l2 ++ [b]) with ((b :: l2) ++ [b]) in Hp2. rewrite M2, <- app_assoc in Hp2.
          apply path_split in Hp2 as [Hp2 _]. by rewrite M2. }
        { intros x. rewrite M2, removelast_last. intros Hx. rewrite HN, !decide_False; [done| |].
          - intros ->. assert (a ∈ b :: l2) by (rewrite M2; set_solver). set_solver.
          - by intros ->. }
        { intros x Hx. simpl in Hx. apply NoDup_cons in Hnd2 as [Hb2 _].
          rewrite HP, !decide_False; [done| |]; [by intros ->|]. intros ->. set_solver. }
      * split; [rewrite HN|rewrite HP]; by rewrite decide_True.
      * rewrite <- L1. apply (path_frame h); [by destruct Hp1 as [_ Hp1]| |].
        { intros x. rewrite removelast_last. intros Hx. apply NoDup_cons in Hnd1 as [Ha1 _].
          rewrite HN, !decide_False; [done| |]; [by intros ->|]. intros ->. set_solver. }
        { intros x. rewrite L1. simpl. intros Hx. rewrite HP, !decide_False; [done| |by intros ->].
          intros ->. assert (b ∈ l1 ++ [a]) by (rewrite L1; set_solver). set_solver. }
  - intros x Hx1 Hx2. rewrite HN, HP, !decide_False; [done| | | |]; intros ->; set_solver.
Qed.

Lemma insert_spec h hd l node :
  ring h hd l -> hd <> 0 -> node <> 0 -> node ∉ hd :: l -> is_Some (h !! node) ->
  exists h', _insert_into_list h hd node = Some (hd, h') /\ ring h' hd (node :: l) /\
    (forall x, x ∉ hd :: l -> x <> node -> get_next h' x = get_next h x /\ get_prev h' x = get_prev h x).
Proof.
  intros R Hhd Hnode Hin Hh.
  destruct (init_list_node_spec h node Hh) as (h1 & E1 & R1 & F1).
  assert (ring h1 hd l) as R'.
  { destruct R as [Hnd Hp]. split; [done|]. apply (path_frame h); [done| |].
    - intros x Hx. apply F1. intros ->. apply Hin.
      change (hd :: l ++ [hd]) with ((hd :: l) ++ [hd]) in Hx. by rewrite removelast_last in Hx.
    - intros x Hx. apply F1. intros ->. apply Hin. simpl in Hx. set_solver. }
  destruct (merge_spec h1 hd l node []) as (h2 & E2 & R2 & F2); try done.
  { intros x Hx. rewrite list_elem_of_singleton. intros ->. done. }
  exists h2. split_and!; [unfold _insert_into_list; by rewrite E1|done|].
  intros x Hx1 Hx2. destruct (F2 x) as [-> ->]; [done|set_solver|]. by apply F1.
Qed.

(** A ring may be seen from any of its nodes. *)
Lemma ring_rotate h hd l1 y l2 : ring h hd (l1 ++ y :: l2) -> ring h y (l2 ++ hd :: l1).
Proof.
  intros [Hnd Hp]. split.
  - assert (hd :: l1 ++ y :: l2 ≡ₚ y :: l2 ++ hd :: l1) as <-; [|done].
    rewrite (app_comm_cons l1), (Permutation_app_comm (hd :: l1)). done.
  - destruct (l2 ++ [hd]) as [|n r] eqn:E2; [by destruct l2|].
    assert (hd :: (l1 ++ y :: l2) ++ [hd] = (hd :: l1) ++ y :: n :: r) as E
      by (rewrite <- E2, <- app_assoc; done).
    rewrite E in Hp. apply path_split in Hp as (H1 & H2 & H3).
    assert (y :: (l2 ++ hd :: l1) ++ [y] = y :: l2 ++ hd :: (l1 ++ [y])) as -> by (rewrite <- app_assoc; done).
    destruct (l1 ++ [y]) as [|m t] eqn:E1; [by destruct l1|].
    assert (path h (hd :: m :: t)) as H1' by (rewrite <- E1; exact H1).
    change (y :: l2 ++ hd :: m :: t) with ((y :: l2) ++ hd :: m :: t). apply path_split.
    destruct H1' as [H1a H1b]. split_and!; [|done|done].
    change ((y :: l2) ++ [hd]) with (y :: (l2 ++ [hd])). rewrite E2. by split.
Qed.

Lemma detach_spec h hd l1 node l2 :
  ring h hd (l1 ++ node :: l2) ->
  exists h', _detach_from_list h node = Some (default hd (last l1), h') /\
    ring h' hd (l1 ++ l2) /\ ring h' node [] /\
    (forall x, x ∉ hd :: l1 ++ node :: l2 -> get_next h' x = get_next h x /\ get_prev h' x = get_prev h x).
Proof.
  intros [Hnd Hp].
  destruct (hd :: l1) as [|p f _] eqn:E1 using rev_ind; [done|].
  destruct (l2 ++ [hd]) as [|n r] eqn:E2; [by destruct l2|].
  assert (default hd (last l1) = p) as Edef.
  { destruct l1 as [|q l1'] using rev_ind; simpl.
    - destruct f; [by injection E1|by destruct f].
    - rewrite last_snoc. simpl. change (hd :: l1' ++ [q]) with ((hd :: l1') ++ [q]) in E1.
      by apply app_inj_tail in E1 as [_ ->]. }
  rewrite Edef. clear Edef.
  assert (hd :: (l1 ++ node :: l2) ++ [hd] = f ++ p :: node :: n :: r) as EL.
  { rewrite <- E2, <- app_assoc. change (hd :: l1 ++ (node :: l2) ++ [hd]) with ((hd :: l1) ++ node :: l2 ++ [hd]).
    rewrite E1, <- app_assoc. done. }
  rewrite EL in Hp. apply path_split in Hp as (P1 & [Lp1 Lp2] & [[Ln1 Ln2] P2]).
  assert (NoDup ((hd :: l1) ++ node :: l2)) as Hnd' by exact Hnd. rewrite E1 in Hnd'.
  rewrite !NoDup_app in Hnd'. destruct Hnd' as ((Nf & Nfp & _) & Nd & Nn).
  rewrite NoDup_cons in Nn. destruct Nn as [Nn N2].
  assert (forall x, x ∈ f ++ [p] <-> x = hd \/ x ∈ l1) as I1 by (intros x; rewrite <- E1; set_solver).
  assert (forall x, x ∈ n :: r <-> x ∈ l2 \/ x = hd) as I2 by (intros x; rewrite <- E2; set_solver).
  assert (p ∈ f ++ [p]) as Ip by set_solver. assert (n ∈ n :: r) as In_ by set_solver.
  assert (node <> p) as Hpn by (intros ->; apply (Nd p Ip); left).
  assert (node <> n) as Hnn.
  { intros ->. apply I2 in In_ as [?| ->]; [done|]. apply (Nd hd); [by apply I1; left|left]. }
  assert (n ∉ r) as Hnr.
  { assert (NoDup (n :: r)) as Hx; [|by apply NoDup_cons in Hx as [? _]].
    rewrite <- E2. apply NoDup_app. split_and!; [done| |apply NoDup_singleton].
    intros x Hx ->%list_elem_of_singleton. apply (Nd hd); [by apply I1; left|by right]. }
  destruct (set_next_some h p n _ Lp1) as (h1 & F1 & N1 & Q1).
  assert (get_prev h1 n = Some node) as Hpn1 by (by rewrite Q1).
  destruct (set_prev_some h1 n p _ Hpn1) as (h2 & F2 & Q2 & M2).
  assert (is_Some (h2 !! node)) as Hs2.
  { assert (get_next h2 node = Some n) as Hx by (rewrite M2, N1, decide_False by done; done).
    unfold get_next in Hx. destruct (h2 !! node); done. }
  destruct (init_list_node_spec h2 node Hs2) as (h3 & F3 & R3 & G3).
  assert (forall x, x <> node -> get_next h3 x = if decide (x = p) then Some n else get_next h x) as HN
    by (intros x Hx; destruct (G3 x Hx) as [-> _]; by rewrite M2, N1).
  assert (forall x, x <> node -> get_prev h3 x = if decide (x = n) then Some p else get_prev h x) as HP
    by (intros x Hx; destruct (G3 x Hx) as [_ ->]; by rewrite Q2, Q1).
  assert (node ∉ f ++ [p]) as Hnf by (intros Hx; apply (Nd node Hx); left).
  exists h3. split_and!; [| |done|].
  - unfold _detach_from_list. rewrite Lp2, Ln1. simpl. rewrite F1. simpl.
    rewrite N1, decide_False by done. rewrite Ln1. simpl. rewrite Q1, Lp2. simpl. rewrite F2. simpl.
    rewrite F3. simpl. by rewrite (proj2 (Z.eqb_neq p node)).
  - split.
    + assert (NoDup ((f ++ [p]) ++ l2)) as Hx; [|by rewrite <- E1 in Hx].
      apply NoDup_app. split_and!; [|intros x Hx Hy; apply (Nd x Hx); by right|done].
      apply NoDup_app. split_and!; [done|done|apply NoDup_singleton].
    + assert (hd :: (l1 ++ l2) ++ [hd] = f ++ p :: n :: r) as ->.
      { rewrite <- E2, <- app_assoc. change (hd :: l1 ++ l2 ++ [hd]) with ((hd :: l1) ++ l2 ++ [hd]).
        by rewrite E1, <- app_assoc. }
      apply path_split. split_and!.
      * apply (path_frame h); [done| |].
        -- rewrite removelast_last. intros x Hx. rewrite HN, decide_False; [done| |].
           ++ intros ->. apply (Nfp p Hx). by apply list_elem_of_singleton.
           ++ intros ->. apply Hnf. set_solver.
        -- intros x Hx. rewrite <- E1 in Hx. simpl in Hx.
           assert (x ∈ f ++ [p]) as Hx' by (apply I1; by right).
           rewrite HP, decide_False; [done| |].
           ++ intros ->. apply I2 in In_ as [Hl2| ->]; [apply (Nd n Hx'); by right|].
              apply NoDup_cons in Hnd as [Hhd _]. apply Hhd. set_solver.
           ++ by intros ->.
      * split; [rewrite HN by done|rewrite HP by done]; by rewrite decide_True.
      * apply (path_frame h); [done| |].
        -- rewrite <- E2, removelast_last. intros x Hx. rewrite HN, decide_False; [done| |].
           ++ intros ->. apply (Nd p Ip). by right.
           ++ by intros ->.
        -- intros x Hx. simpl in Hx. rewrite HP, decide_False; [done|by intros ->|].
           intros ->. assert (node ∈ n :: r) as Hx' by (by right). apply I2 in Hx' as [?| ->]; [done|].
           apply (Nd hd); [by apply I1; left|left].
  - intros x Hx. assert (x <> node) by set_solver.
    assert (x <> n) by (intros ->; apply I2 in In_; set_solver).
    assert (x <> p) by (intros ->; apply I1 in Ip; set_solver).
    by rewrite HN, HP, !decide_False.
Qed.

(** [_for_in_list] on a ring. *)
Lemma for_in_list_spec fuel h hd l :
  path h (l ++ [hd]) -> hd ∉ l -> (length l < fuel)%nat ->
  for_in_list fuel h hd (default hd (head l)) = Some (l ++ [hd]).
Proof.
  revert l. induction fuel as [|fuel IH]; intros l Hp Hn Hf; [lia|].
  destruct l as [|x l]; simpl.
  - by rewrite Z.eqb_refl.
  - rewrite (proj2 (Z.eqb_neq x hd)) by set_solver. simpl in Hp, Hf.
    assert (get_next h x = Some (default hd (head l))) as E by (destruct l; simpl in *; by destruct Hp as [[? _] _]).
    rewrite E. simpl. rewrite IH; [done|by destruct Hp|set_solver|lia].
Qed.

(** ** Queues *)

Record Queue := mkQueue { q_begin : Z; q_end : Z; q_sz : Z }.
Record QState := mkQState { qs_heap : heap; qs_queue : Queue }.

(** A list operation on the heap. *)
Definition on_heap {A} (f : heap -> option (A * heap)) : M QState A := fun s =>
  match f (qs_heap s) with
  | Some (a, h) => Done a (mkQState h (qs_queue s))
  | None => Undefined
  end.
Definition set_queue (q : Queue) : M QState unit := modify (fun s => mkQState (qs_heap s) q).

Definition queue_init : M QState unit := set_queue (mkQueue 0 0 0).

Definition queue_push (item : Z) : M QState unit :=
  on_heap (fun h => pair tt <$> init_list_node h item) ;;
  x ← gets qs_queue;
  if q_sz x =? 0 then set_queue (mkQueue item item (q_sz x + 1))
  else on_heap (fun h => _merge_list h (q_end x) item) ;; set_queue (mkQueue (q_begin x) item (q_sz x + 1)).

Definition queue_pop : M QState unit :=
  x ← gets qs_queue;
  if q_sz x =? 0 then PANIC
  else if q_sz x =? 1 then set_queue (mkQueue 0 0 (q_sz x - 1))
  else
    b ← on_heap (fun h => (fun n => (n, h)) <$> get_next h (q_begin x));
    _ ← on_heap (fun h => _detach_from_list h (q_begin x));
    set_queue (mkQueue b (q_end x) (q_sz x - 1)).

Definition queue_front : M QState Z :=
  x ← gets qs_queue; if q_begin x =? 0 then PANIC else mret (q_begin x).

Definition queue_empty : M QState bool := gets (fun s => q_sz (qs_queue s) =? 0).

(** The queue holds the nodes [l], oldest first. *)
Definition queue_of (s : QState) (l : list Z) : Prop :=
  q_sz (qs_queue s) = Z.of_nat (length l) /\ 0 ∉ l /\
  match l with
  | [] => q_begin (qs_queue s) = 0 /\ q_end (qs_queue s) = 0
  | x :: l' => q_begin (qs_queue s) = x /\ q_end (qs_queue s) = default x (last l') /\
               ring (qs_heap s) x l'
  end.

Lemma ring_frame h h' hd l :
  ring h hd l -> (forall x, x ∈ hd :: l -> get_next h' x = get_next h x /\ get_prev h' x = get_prev h x) ->
  ring h' hd l.
Proof.
  intros [Hnd Hp] Hf. split; [done|]. apply (path_frame h); [done| |].
  - intros x Hx. apply Hf. change (hd :: l ++ [hd]) with ((hd :: l) ++ [hd]) in Hx.
    by rewrite removelast_last in Hx.
  - intros x Hx. apply Hf. simpl in Hx. set_solver.
Qed.

Lemma wp_on_heap {A} (f : heap -> option (A * heap)) s a h Q :
  f (qs_heap s) = Some (a, h) -> Q a (mkQState h (qs_queue s)) -> wp (on_heap f) Q s.
Proof. intros E HQ. unfold wp, on_heap. by rewrite E. Qed.

Lemma queue_push_spec s l item Q :
  queue_of s l -> item <> 0 -> item ∉ l -> is_Some (qs_heap s !! item) ->
  (forall s', queue_of s' (l ++ [item]) -> Q tt s') -> wp (queue_push item) Q s.
Proof.
  intros (Hsz & H0 & Hq) Hi0 Hil Hh HQ.
  destruct (init_list_node_spec _ _ Hh) as (h1 & E1 & R1 & F1).
  unfold queue_push. wp_step. eapply wp_on_heap; [by rewrite E1|]. wp_step. apply wp_gets.
  cbn [qs_queue]. set (q0 := qs_queue s) in *.
  destruct l as [|x l'].
  - simpl in Hsz. rewrite Hsz. simpl. apply wp_modify, HQ. split_and!; simpl; try done. set_solver.
  - destruct Hq as (Hb & He & R). rewrite (proj2 (Z.eqb_neq (q_sz q0) 0)) by (rewrite Hsz; simpl; lia).
    assert (ring h1 x l') as R' by (eapply ring_frame; [exact R|intros y Hy; apply F1; by intros ->]).
    assert (exists m, l' ++ [item] = m /\
      exists h2, _merge_list h1 (q_end q0) item = Some (q_end q0, h2) /\ ring h2 x (l' ++ [item])) as (_ & _ & h2 & E2 & R2).
    { eexists. split; [done|]. rewrite He. destruct l' as [|e mid _] using rev_ind; simpl.
      - destruct (merge_spec h1 x [] item []) as (h2 & E2 & R2 & _); try done; [set_solver..|eauto].
      - rewrite last_snoc. simpl. pose proof (ring_rotate _ _ _ _ _ R') as Re. simpl in Re.
        destruct (merge_spec h1 e (x :: mid) item []) as (h2 & E2 & R2 & _); try done; [set_solver..|].
        exists h2. split; [done|]. simpl in R2.
        apply (ring_rotate _ e [item] x mid) in R2. by rewrite <- app_assoc. }
    wp_step. eapply wp_on_heap; [exact E2|]. apply wp_modify. apply HQ. split_and!; simpl.
    + rewrite Hsz. simpl. rewrite length_app. simpl. lia.
    + set_solver.
    + split_and!; [done|by rewrite last_snoc|done].
Qed.

Lemma queue_pop_spec s x l Q :
  queue_of s (x :: l) -> (forall s', queue_of s' l -> Q tt s') -> wp queue_pop Q s.
Proof.
  intros (Hsz & H0 & Hb & He & R) HQ. unfold queue_pop. wp_step. apply wp_gets.
  simpl in Hsz. rewrite (proj2 (Z.eqb_neq (q_sz (qs_queue s)) 0)) by lia.
  destruct l as [|y l].
  - rewrite Hsz. simpl. apply wp_modify, HQ. split_and!; simpl; try done. set_solver.
  - rewrite (proj2 (Z.eqb_neq (q_sz (qs_queue s)) 1)) by (simpl in Hsz; lia).
    apply (ring_rotate _ x [] y l) in R as R2. simpl in R2.
    destruct (detach_spec _ y l x [] R2) as (h' & E & R' & _ & _). rewrite app_nil_r in R'.
    assert (get_next (qs_heap s) x = Some y) as En by (destruct R as [_ [[? _] _]]; done).
    rewrite Hb. wp_step. eapply wp_on_heap; [by rewrite En|]. wp_step.
    eapply wp_on_heap; [exact E|]. apply wp_modify. apply HQ.
    split_and!; simpl; [simpl in Hsz; lia|set_solver|done| |done]. rewrite He, last_cons. by destruct (last l).
Qed.

(** ** The lock-free list *)
Module LockFree.

(** Where a thread is in [add_to_queue] or [fetch_from_queue]: about to read
    the head, about to read [node->next], about to compare and exchange. *)
Inductive pc :=
| Idle
| AddLoad (node : Z)
| AddCas (node seen : Z)
| FetchLoad
| FetchNext (node : Z)
| FetchCas (node succ : Z).

(** [owned] are the nodes outside the list, held by no call. *)
Record config := mkConfig { head : Z; nexts : gmap Z Z; pcs : nat -> pc; owned : list Z }.

Definition set_pc (t : nat) (p : pc) (f : nat -> pc) : nat -> pc :=
  fun t' => if decide (t' = t) then p else f t'.

Definition fetching (p : pc) : Prop :=
  match p with FetchLoad | FetchNext _ | FetchCas _ _ => True | _ => False end.

(** One atomic action of thread [t]. With [excl] a fetch starts only when no
    other thread is in one, as under a lock; a compare-and-exchange may fail
    for no reason. *)
Inductive step (excl : bool) : config -> config -> Prop :=
| add_start t n c o1 o2 :
    pcs c t = Idle -> n <> 0 -> owned c = o1 ++ n :: o2 ->
    step excl c (mkConfig (head c) (nexts c) (set_pc t (AddLoad n) (pcs c)) (o1 ++ o2))
| add_load t n c :
    pcs c t = AddLoad n ->
    step excl c (mkConfig (head c) (<[n := head c]> (nexts c)) (set_pc t (AddCas n (head c)) (pcs c)) (owned c))
| add_cas t n c :
    pcs c t = AddCas n (head c) ->
    step excl c (mkConfig n (nexts c) (set_pc t Idle (pcs c)) (owned c))
| add_cas_fail t n h c :
    pcs c t = AddCas n h ->
    step excl c (mkConfig (head c) (<[n := head c]> (nexts c)) (set_pc t (AddLoad n) (pcs c)) (owned c))
| fetch_start t c :
    pcs c t = Idle -> (excl = true -> forall t', ~ fetching (pcs c t')) ->
    step excl c (mkConfig (head c) (nexts c) (set_pc t FetchLoad (pcs c)) (owned c))
| fetch_null t c :
    pcs c t = FetchLoad -> head c = 0 ->
    step excl c (mkConfig (head c) (nexts c) (set_pc t Idle (pcs c)) (owned c))
| fetch_load t c :
    pcs c t = FetchLoad -> head c <> 0 ->
    step excl c (mkConfig (head c) (nexts c) (set_pc t (FetchNext (head c)) (pcs c)) (owned c))
| fetch_next t n v c :
    pcs c t = FetchNext n -> nexts c !! n = Some v ->
    step excl c (mkConfig (head c) (nexts c) (set_pc t (FetchCas n v) (pcs c)) (owned c))
| fetch_cas t v c :
    pcs c t = FetchCas (head c) v ->
    step excl c (mkConfig v (nexts c) (set_pc t Idle (pcs c)) (head c :: owned c))
| fetch_cas_fail t n v c :
    pcs c t = FetchCas n v ->
    step excl c (mkConfig (head c) (nexts c) (set_pc t FetchLoad (pcs c)) (owned c)).

Definition init (nodes : list Z) : config := mkConfig 0 ∅ (fun _ => Idle) nodes.

Definition reachable (excl : bool) (nodes : list Z) (c : config) : Prop := rtc (step excl) (init nodes) c.

(** The list from [a] on. *)
Fixpoint chain (nx : gmap Z Z) (a : Z) (l : list Z) : Prop :=
  match l with
  | [] => a = 0
  | x :: l' => a = x /\ x <> 0 /\ exists b, nx !! x = Some b /\ chain nx b l'
  end.

Lemma chain_insert nx a l n v : chain nx a l -> n ∉ l -> chain (<[n := v]> nx) a l.
Proof.
  revert a. induction l as [|x l IH]; intros a; simpl; [done|].
  intros (-> & Hx & b & Hb & Hl) Hn. split_and!; [done|done|]. exists b.
  split; [rewrite lookup_insert_ne; set_solver|]. apply IH; set_solver.
Qed.

(** The node a thread is adding. *)
Definition adding (p : pc) : option Z :=
  match p with AddLoad n | AddCas n _ => Some n | _ => None end.

Record inv (nodes : list Z) (c : config) : Prop := {
  iv_list : exists l, chain (nexts c) (head c) l /\ NoDup (l ++ owned c) /\
    (forall t n, adding (pcs c t) = Some n -> n ∉ l ++ owned c /\ n ∈ nodes /\ n <> 0) /\
    (forall n, n ∈ l ++ owned c -> n ∈ nodes) /\
    (forall t n, pcs c t = FetchNext n -> n ∈ l) /\
    (forall t n v, pcs c t = FetchCas n v -> n ∈ l /\ nexts c !! n = Some v) /\
    (forall n, n ∈ nodes -> n ∈ l ++ owned c \/ exists t, adding (pcs c t) = Some n);
  iv_adding : forall t t' n, adding (pcs c t) = Some n -> adding (pcs c t') = Some n -> t = t';
  iv_cas : forall t n h, pcs c t = AddCas n h -> nexts c !! n = Some h;
  iv_excl : forall t t', fetching (pcs c t) -> fetching (pcs c t') -> t = t';
}.

(** A change of one thread's position, seen from every thread. *)
Ltac other_threads :=
  unfold set_pc in *; simpl in *; intros;
  repeat match goal with
  | H : context [decide (?a = ?b)] |- _ => destruct (decide (a = b)); simplify_eq/=
  | |- context [decide (?a = ?b)] => destruct (decide (a = b)); simplify_eq/=
  end; try done; eauto.

Lemma lockfree_inv_init nodes : NoDup nodes -> inv nodes (init nodes).
Proof.
  intros Hnd. split; simpl; try done. exists []. split_and!; simpl; try done. by left.
Qed.

(** Steps that change neither the list nor what is owned. *)
Lemma lockfree_inv_move nodes c t p :
  inv nodes c -> adding p = adding (pcs c t) ->
  (forall n h, p = AddCas n h -> nexts c !! n = Some h) ->
  (fetching p -> forall t', t' <> t -> ~ fetching (pcs c t')) ->
  (forall l, chain (nexts c) (head c) l -> (forall n, p = FetchNext n -> n ∈ l \/ pcs c t = FetchNext n) /\
     (forall n v, p = FetchCas n v -> pcs c t = FetchNext n /\ nexts c !! n = Some v)) ->
  inv nodes (mkConfig (head c) (nexts c) (set_pc t p (pcs c)) (owned c)).
Proof.
  intros [(l & H1 & H2 & H3 & H4 & H5 & H6 & H7) G1 G2 G3] Ha Hc Hf Hl. destruct (Hl l H1) as [L1 L2].
  split; simpl.
  - exists l. split_and!; try done.
    + intros t' n. unfold set_pc. case_decide; [subst; rewrite Ha|]; apply H3.
    + intros t' n. unfold set_pc. case_decide; [|apply H5]. intros ->.
      destruct (L1 n eq_refl) as [?|E]; [done|]. by apply H5 in E.
    + intros t' n v. unfold set_pc. case_decide; [|apply H6]. intros ->.
      destruct (L2 n v eq_refl) as [E ?]. split; [by apply H5 in E|done].
    + intros n Hn. destruct (H7 n Hn) as [?|[t' Ht']]; [by left|right]. exists t'. unfold set_pc. case_decide; [|done]. subst. by rewrite Ha.
  - intros t1 t2 n. unfold set_pc. repeat case_decide; subst; rewrite ?Ha; auto; apply G1.
  - intros t' n h. unfold set_pc. case_decide; [apply Hc|apply G2].
  - intros t1 t2. unfold set_pc. repeat case_decide; subst; auto.
    + intros F1 F2. exfalso. by eapply Hf.
    + intros F1 F2. exfalso. by eapply Hf.
Qed.

(** A thread takes a node it owns to add it. *)
Lemma lockfree_inv_add_start nodes c t n o1 o2 :
  inv nodes c -> pcs c t = Idle -> n <> 0 -> owned c = o1 ++ n :: o2 ->
  inv nodes (mkConfig (head c) (nexts c) (set_pc t (AddLoad n) (pcs c)) (o1 ++ o2)).
Proof.
  intros [(l & H1 & H2 & H3 & H4 & H5 & H6 & H7) G1 G2 G3] Hp Hn Ho. rewrite Ho in *.
  assert (NoDup ((n :: l) ++ o1 ++ o2)) as Hnd.
  { assert (l ++ o1 ++ n :: o2 ≡ₚ (n :: l) ++ o1 ++ o2) as <-; [|done].
    rewrite <- Permutation_middle. simpl. by rewrite <- Permutation_middle. }
  simpl in Hnd. apply NoDup_cons in Hnd as [Hnn Hnd].
  split; simpl.
  - exists l. split_and!; [done|done| | | | |].
    + intros t' m. unfold set_pc. case_decide; simpl.
      * intros [= <-]. split_and!; [done|apply H4; set_solver|done].
      * intros Ha. destruct (H3 t' m Ha) as (? & ? & ?). split_and!; [set_solver|done|done].
    + intros m Hm. apply H4. set_solver.
    + other_threads.
    + other_threads.
    + intros m Hm. destruct (decide (m = n)) as [->|Hmn]; [right; exists t; unfold set_pc; by rewrite decide_True|].
      destruct (H7 m Hm) as [?|[t' Ht']]; [left; set_solver|right]. exists t'. unfold set_pc. rewrite decide_False; [done|]. intros ->. by rewrite Hp in Ht'.
  - intros t1 t2 m. unfold set_pc. repeat case_decide; subst; auto; simpl.
    + intros [= <-] Ha. exfalso. destruct (H3 t2 n Ha) as (Hx & _). set_solver.
    + intros Ha [= <-]. exfalso. destruct (H3 t1 n Ha) as (Hx & _). set_solver.
    + apply G1.
  - other_threads.
  - intros t1 t2. unfold set_pc. repeat case_decide; subst; simpl; tauto || auto.
Qed.

(** [node->next] of a node being added is set to the head. *)
Lemma lockfree_inv_add_next nodes c t n p :
  inv nodes c -> adding (pcs c t) = Some n -> p = AddLoad n \/ p = AddCas n (head c) ->
  inv nodes (mkConfig (head c) (<[n := head c]> (nexts c)) (set_pc t p (pcs c)) (owned c)).
Proof.
  intros [(l & H1 & H2 & H3 & H4 & H5 & H6 & H7) G1 G2 G3] Hp Hq.
  assert (adding p = Some n) as Hap by (by destruct Hq as [->| ->]).
  assert (~ fetching p) as Hfp by (destruct Hq as [->| ->]; simpl; tauto).
  destruct (H3 t n Hp) as (Hx & Hy & Hz). split; simpl.
  - exists l. split_and!; [apply chain_insert; [done|set_solver]|done| |done| | |].
    + intros t' m. unfold set_pc. case_decide; [|apply H3]. rewrite Hap. intros [= <-]. done.
    + intros t' m. unfold set_pc. case_decide; [|apply H5]. intros ->. simpl in Hfp. tauto.
    + intros t' m v. unfold set_pc. case_decide; [intros ->; simpl in Hfp; tauto|].
      intros Hf. destruct (H6 t' m v Hf).
      split; [done|]. rewrite lookup_insert_ne; [done|]. set_solver.
    + intros m Hm. destruct (H7 m Hm) as [?|[t' Ht']]; [by left|right]. exists t'. unfold set_pc. case_decide; [|done]. subst. congruence.
  - intros t1 t2 m. unfold set_pc. repeat case_decide; subst; auto; rewrite ?Hap.
    + intros [= <-] Ha. by apply (G1 _ _ n).
    + intros Ha [= <-]. by apply (G1 _ _ n).
    + apply G1.
  - intros t' m h. unfold set_pc. case_decide.
    + intros ->. destruct Hq as [?|[= -> ->]]; [done|]. apply lookup_insert_eq.
    + intros Hm. rewrite lookup_insert_ne; [by eapply G2|]. intros ->.
      apply H. apply (G1 _ _ m); [by rewrite Hm|done].
  - intros t1 t2. unfold set_pc. repeat case_decide; subst; simpl; tauto || auto.
Qed.

(** A node enters the list. *)
Lemma lockfree_inv_add_cas nodes c t n :
  inv nodes c -> pcs c t = AddCas n (head c) ->
  inv nodes (mkConfig n (nexts c) (set_pc t Idle (pcs c)) (owned c)).
Proof.
  intros [(l & H1 & H2 & H3 & H4 & H5 & H6 & H7) G1 G2 G3] Hp.
  destruct (H3 t n) as (Hx & Hy & Hz); [by rewrite Hp|]. pose proof (G2 _ _ _ Hp) as Hnx.
  split; simpl.
  - exists (n :: l). split_and!; simpl.
    + split_and!; [done|done|]. eauto.
    + apply NoDup_cons. done.
    + intros t' m. unfold set_pc. case_decide; [done|]. intros Ha.
      destruct (H3 t' m Ha) as (? & ? & ?). split_and!; [|done|done].
      rewrite not_elem_of_cons. split; [|done]. intros ->. apply H.
      apply (G1 _ _ n); [done|by rewrite Hp].
    + intros m [->|Hm]%elem_of_cons; auto.
    + intros t' m. unfold set_pc. case_decide; [done|]. intros Hf. right. by eapply H5.
    + intros t' m v. unfold set_pc. case_decide; [done|]. intros Hf. destruct (H6 t' m v Hf).
      split; [by right|done].
    + intros m Hm. destruct (H7 m Hm) as [?|[t' Ht']]; [left; by right|]. destruct (decide (t' = t)) as [->|].
      * rewrite Hp in Ht'. injection Ht' as <-. left. left.
      * right. exists t'. unfold set_pc. by rewrite decide_False.
  - intros t1 t2 m. unfold set_pc. repeat case_decide; subst; simpl; try done. apply G1.
  - intros t' m h. unfold set_pc. case_decide; [done|]. apply G2.
  - intros t1 t2. unfold set_pc. repeat case_decide; subst; simpl; tauto || auto.
Qed.

(** The fetching thread takes the first node. *)
Lemma lockfree_inv_fetch_cas nodes c t v :
  inv nodes c -> pcs c t = FetchCas (head c) v ->
  inv nodes (mkConfig v (nexts c) (set_pc t Idle (pcs c)) (head c :: owned c)).
Proof.
  intros [(l & H1 & H2 & H3 & H4 & H5 & H6 & H7) G1 G2 G3] Hp.
  destruct (H6 t (head c) v Hp) as [Hin Hnx].
  destruct l as [|x l]; [by apply elem_of_nil in Hin|]. simpl in H1.
  destruct H1 as (Hx & Hx0 & b & Hb & Hch). rewrite Hx in *. assert (b = v) as -> by congruence.
  assert (l ++ x :: owned c ≡ₚ (x :: l) ++ owned c) as Hperm by (by rewrite <- Permutation_middle).
  split; simpl.
  - exists l. split_and!; [done|by rewrite Hperm| | | | |].
    + intros t' m. unfold set_pc. case_decide; [done|]. intros Ha. rewrite Hperm. by apply (H3 t').
    + intros m. rewrite Hperm. apply H4.
    + intros t' m. unfold set_pc. case_decide; [done|]. intros Hf. exfalso. apply H.
      apply G3; [by rewrite Hf|by rewrite Hp].
    + intros t' m w. unfold set_pc. case_decide; [done|]. intros Hf. exfalso. apply H.
      apply G3; [by rewrite Hf|by rewrite Hp].
    + intros m Hm. rewrite Hperm. destruct (H7 m Hm) as [?|[t' Ht']]; [by left|right]. exists t'. unfold set_pc. rewrite decide_False; [done|]. intros ->. by rewrite Hp in Ht'.
  - intros t1 t2 m. unfold set_pc. repeat case_decide; subst; simpl; try done. apply G1.
  - intros t' m h. unfold set_pc. case_decide; [done|]. apply G2.
  - intros t1 t2. unfold set_pc. repeat case_decide; subst; simpl; tauto || auto.
Qed.

Lemma lockfree_inv_step nodes c c' : inv nodes c -> step true c c' -> inv nodes c'.
Proof.
  intros Hi Hs. pose proof (iv_excl _ _ Hi) as G3.
  destruct Hs as [t n c o1 o2 Hp Hn Ho|t n c Hp|t n c Hp|t n h c Hp|t c Hp He|t c Hp Hh|t c Hp Hh
    |t n v c Hp Hv|t v c Hp|t n v c Hp].
  - by apply lockfree_inv_add_start.
  - apply lockfree_inv_add_next; [done|by rewrite Hp|by right].
  - by apply lockfree_inv_add_cas.
  - apply lockfree_inv_add_next; [done|by rewrite Hp|by left].
  - apply lockfree_inv_move; try done; [by rewrite Hp|]. intros _ t' _. by apply He.
  - apply lockfree_inv_move; try done. by rewrite Hp.
  - apply lockfree_inv_move; try done; [by rewrite Hp| |].
    + intros _ t' Ht' Hf. apply Ht'. apply G3; [done|]. by rewrite Hp.
    + intros l' Hl'. split; [|done]. intros n [= <-]. left.
      destruct l' as [|x l']; simpl in Hl'; [done|]. destruct Hl' as [-> _]. left.
  - apply lockfree_inv_move; try done; [by rewrite Hp| |].
    + intros _ t' Ht' Hf. apply Ht'. apply G3; [done|]. by rewrite Hp.
    + intros l' Hl'. split; [done|]. intros m w [= <- <-]. done.
  - by apply lockfree_inv_fetch_cas.
  - apply lockfree_inv_move; try done; [by rewrite Hp|].
    intros _ t' Ht' Hf. apply Ht'. apply G3; [done|]. by rewrite Hp.
Qed.

Lemma lockfree_inv_reachable nodes c : NoDup nodes -> reachable true nodes c -> inv nodes c.
Proof.
  intros Hnd Hr. pose proof (lockfree_inv_init nodes Hnd) as Hi. unfold reachable in Hr.
  revert Hi. induction Hr as [|c1 c2 c3 Hs _ IH]; eauto using lockfree_inv_step.
Qed.
(** The steps as a function: thread [t] adds [Some n] or fetches, or goes on. *)
Definition exec (c : config) (a : nat * option Z) : option config :=
  let '(t, arg) := a in
  match pcs c t, arg with
  | Idle, Some n =>
      if decide (n <> 0 /\ n ∈ owned c)
      then '(i, _) ← list_find (eq n) (owned c);
           Some (mkConfig (head c) (nexts c) (set_pc t (AddLoad n) (pcs c)) (delete i (owned c)))
      else None
  | Idle, None => Some (mkConfig (head c) (nexts c) (set_pc t FetchLoad (pcs c)) (owned c))
  | AddLoad n, _ =>
      Some (mkConfig (head c) (<[n := head c]> (nexts c)) (set_pc t (AddCas n (head c)) (pcs c)) (owned c))
  | AddCas n h, _ =>
      if decide (h = head c) then Some (mkConfig n (nexts c) (set_pc t Idle (pcs c)) (owned c))
      else Some (mkConfig (head c) (<[n := head c]> (nexts c)) (set_pc t (AddLoad n) (pcs c)) (owned c))
  | FetchLoad, _ =>
      if decide (head c = 0) then Some (mkConfig (head c) (nexts c) (set_pc t Idle (pcs c)) (owned c))
      else Some (mkConfig (head c) (nexts c) (set_pc t (FetchNext (head c)) (pcs c)) (owned c))
  | FetchNext n, _ =>
      v ← nexts c !! n; Some (mkConfig (head c) (nexts c) (set_pc t (FetchCas n v) (pcs c)) (owned c))
  | FetchCas n v, _ =>
      if decide (n = head c) then Some (mkConfig v (nexts c) (set_pc t Idle (pcs c)) (head c :: owned c))
      else Some (mkConfig (head c) (nexts c) (set_pc t FetchLoad (pcs c)) (owned c))
  end.

Lemma exec_step c a c' : exec c a = Some c' -> step false c c'.
Proof.
  destruct a as [t arg]. unfold exec. intros E.
  destruct (pcs c t) as [|n|n h| |n|n v] eqn:Hp.
  - destruct arg as [n|]; [|simplify_eq; by apply fetch_start].
    case_decide as Hn; [|done]. destruct (list_find (eq n) (owned c)) as [[i x]|] eqn:Ef; [|done].
    simpl in E. simplify_eq. apply list_find_Some in Ef as (Hi & <- & _).
    rewrite delete_take_drop. apply add_start; [done|apply Hn|]. symmetry. by apply take_drop_middle.
  - destruct arg; simplify_eq; by apply add_load.
  - destruct arg; case_decide; simplify_eq; by (apply add_cas || eapply add_cas_fail).
  - destruct arg; case_decide; simplify_eq; by (apply fetch_null || apply fetch_load).
  - destruct (nexts c !! n) as [v|] eqn:Ev; destruct arg; simpl in E; simplify_eq; by apply fetch_next.
  - destruct arg; case_decide; simplify_eq; by (apply fetch_cas || eapply fetch_cas_fail).
Qed.

Fixpoint exec_all (c : config) (l : list (nat * option Z)) : option config :=
  match l with
  | [] => Some c
  | a :: l' => c' ← exec c a; exec_all c' l'
  end.

Lemma exec_all_steps l c c' : exec_all c l = Some c' -> rtc (step false) c c'.
Proof.
  revert c. induction l as [|a l IH]; intros c; simpl.
  - intros [= ->]. done.
  - destruct (exec c a) as [c1|] eqn:E; simpl; [|done]. intros H.
    eapply rtc_l; [by eapply exec_step|by apply IH].
Qed.
End LockFree.

(** * Properties *)

(** [_insert_into_list] and [_detach_from_list] keep circular lists: a new
    node goes right behind the head, a detached node leaves the others in
    order and becomes a list of its own, and no node outside the two lists is
    touched; [_for_in_list] visits exactly the nodes, in order. *)
Theorem list_insert_detach h hd l1 l2 node :
  ring h hd (l1 ++ l2) -> hd <> 0 -> node <> 0 -> node ∉ hd :: l1 ++ l2 -> is_Some (h !! node) ->
  exists h1 h2, _insert_into_list h hd node = Some (hd, h1) /\ ring h1 hd (node :: l1 ++ l2) /\
    for_in_list (2 + length (l1 ++ l2)) h1 hd node = Some (node :: (l1 ++ l2) ++ [hd]) /\
    _detach_from_list h1 node = Some (hd, h2) /\ ring h2 hd (l1 ++ l2) /\ ring h2 node [] /\
    (forall x, x ∉ hd :: node :: l1 ++ l2 -> get_next h2 x = get_next h x /\ get_prev h2 x = get_prev h x).
Proof.
  intros R Hhd Hn Hin Hh. destruct (insert_spec h hd (l1 ++ l2) node) as (h1 & E1 & R1 & F1); try done.
  destruct (detach_spec h1 hd [] node (l1 ++ l2) R1) as (h2 & E2 & R2 & R3 & F2).
  exists h1, h2. split_and!; try done.
  - destruct R1 as [Hnd [_ Hp]]. apply NoDup_cons in Hnd as [Hnd _].
    pose proof (for_in_list_spec (2 + length (l1 ++ l2)) h1 hd (node :: l1 ++ l2)) as Hf.
    apply Hf; [done|done|simpl; lia].
  - intros x Hx. destruct (F2 x) as [-> ->]; [set_solver|]. apply F1; set_solver.
Qed.

Definition example_heap : heap := {[ 8 := mkNode 8 8; 9 := mkNode 0 0 ]}.

Lemma list_insert_detach_witness :
  exists h1 h2, _insert_into_list example_heap 8 9 = Some (8, h1) /\ ring h1 8 (9 :: [] ++ []) /\
    for_in_list 2 h1 8 9 = Some (9 :: ([] ++ []) ++ [8]) /\
    _detach_from_list h1 9 = Some (8, h2) /\ ring h2 8 ([] ++ []) /\ ring h2 9 [] /\
    (forall x, x ∉ 8 :: 9 :: [] ++ [] ->
       get_next h2 x = get_next example_heap x /\ get_prev h2 x = get_prev example_heap x).
Proof.
  apply (list_insert_detach example_heap 8 [] [] 9); [|lia|lia|set_solver|by eexists].
  split; [apply NoDup_singleton|]. by repeat split.
Defined.

(** A [Queue] is first in, first out: pushing puts a node behind the ones
    that wait, the front is the oldest node and popping takes it out. *)
Theorem queue_fifo s l item :
  queue_of s l -> item <> 0 -> item ∉ l -> is_Some (qs_heap s !! item) ->
  wp (queue_push item) (fun _ s1 =>
    queue_of s1 (l ++ [item]) /\
    wp queue_front (fun x s2 => x = default item (head l) /\ s2 = s1) s1 /\
    wp queue_pop (fun _ s2 => queue_of s2 (tail (l ++ [item]))) s1) s.
Proof.
  intros Hq H0 Hi Hh. eapply queue_push_spec; [exact Hq|done|done|done|]. intros s1 Hq1.
  split_and!; [done| |].
  - destruct Hq1 as (_ & Hz & Hb). unfold queue_front. wp_step. apply wp_gets.
    destruct l as [|x l]; simpl in *; destruct Hb as (-> & _);
      rewrite (proj2 (Z.eqb_neq _ 0)) by set_solver; done.
  - destruct l as [|x l]; (eapply queue_pop_spec; [exact Hq1|done]).
Qed.

Lemma queue_fifo_witness :
  let s := mkQState example_heap (mkQueue 8 8 1) in
  wp (queue_push 9) (fun _ s1 =>
    queue_of s1 ([8] ++ [9]) /\
    wp queue_front (fun x s2 => x = default 9 (head [8]) /\ s2 = s1) s1 /\
    wp queue_pop (fun _ s2 => queue_of s2 (tail ([8] ++ [9]))) s1) s.
Proof.
  intros s. apply (queue_fifo s [8] 9); [|lia|set_solver|by eexists].
  split_and!; try done; [set_solver|]. split; [apply NoDup_singleton|]. by repeat split.
Defined.

(** C32: The lock-free list is safe when at most one thread fetches at a time
    (any number may add): every node is in the list, owned, or being added, never
    in two of these places, by one thread only, and none gets lost or is handed
    out twice. *)
Theorem lockfree_single_fetcher nodes c :
  NoDup nodes -> LockFree.reachable true nodes c ->
  exists l, LockFree.chain (LockFree.nexts c) (LockFree.head c) l /\
    NoDup (l ++ LockFree.owned c) /\
    (forall n, n ∈ nodes <-> n ∈ l ++ LockFree.owned c \/ exists t, LockFree.adding (LockFree.pcs c t) = Some n) /\
    (forall t n, LockFree.adding (LockFree.pcs c t) = Some n -> n ∉ l ++ LockFree.owned c) /\
    (forall t t' n, LockFree.adding (LockFree.pcs c t) = Some n -> LockFree.adding (LockFree.pcs c t') = Some n -> t = t').
Proof.
  intros Hnd Hr. destruct (LockFree.lockfree_inv_reachable nodes c Hnd Hr)
    as [(l & H1 & H2 & H3 & H4 & _ & _ & H7) G1 _ _].
  exists l. split_and!; try done.
  - intros n. split; [apply H7|]. intros [Hn|[t Ht]]; [by apply H4|by apply (H3 t)].
  - intros t n Ha. by apply (H3 t).
Qed.

(** Thread 0 has put 6 into the list and is adding 5; 7 is still owned. *)
Lemma lockfree_single_fetcher_witness :
  exists c, LockFree.reachable true [5; 6; 7] c /\ LockFree.head c = 6 /\ LockFree.owned c = [7] /\ LockFree.adding (LockFree.pcs c 0) = Some 5 /\
  exists l, LockFree.chain (LockFree.nexts c) 6 l /\ NoDup (l ++ [7]) /\
    forall n, n ∈ [5; 6; 7] <-> n ∈ l ++ [7] \/ exists t, LockFree.adding (LockFree.pcs c t) = Some n.
Proof.
  assert (exists c, LockFree.reachable true [5; 6; 7] c /\ LockFree.head c = 6 /\ LockFree.owned c = [7] /\ LockFree.adding (LockFree.pcs c 0) = Some 5) as (c & Hr & E1 & E2 & E3).
  { eexists. split.
    - eapply rtc_l; [by apply (LockFree.add_start true 0 6 (LockFree.init [5; 6; 7]) [5] [7])|].
      eapply rtc_l; [by apply (LockFree.add_load true 0 6)|]. eapply rtc_l; [by apply (LockFree.add_cas true 0 6)|].
      apply rtc_once. by apply (LockFree.add_start true 0 5 _ [] [7]).
    - split_and!; reflexivity. }
  exists c. split_and!; [exact Hr|exact E1|exact E2|exact E3|].
  destruct (lockfree_single_fetcher [5; 6; 7] c) as (l & H1 & H2 & H3 & _ & _); [by apply (bool_decide_unpack _)|exact Hr|].
  exists l. rewrite E1 in H1. rewrite E2 in H2, H3. split_and!; assumption.
Defined.

(** The calls of a run: thread [t] adds a node (three steps), or fetches one
    (four steps), without being interrupted. *)
Definition adds (t : nat) (n : Z) : list (nat * option Z) := [(t, Some n); (t, None); (t, None)].
Definition fetches (t : nat) : list (nat * option Z) := replicate 4 (t, None).

(** Thread 0 has read the head, 1, and its successor, 2, when thread 1 fetches
    1 and 2 and adds 1 back. *)
Definition aba_run : list (nat * option Z) :=
  adds 0 3 ++ adds 0 2 ++ adds 0 1 ++ replicate 3 (0%nat, None) ++
  fetches 1 ++ fetches 1 ++ adds 1 1 ++ [(0%nat, None)] ++ fetches 0.

(** with two threads in [fetch_from_queue] at once the list breaks (the ABA
    problem): a thread that has read [node->next] can be overtaken by another
    one that fetches [node] and its successor and adds [node] back; its
    compare-and-exchange then succeeds and puts the successor, which is in
    use, back into the list. The run hands out node 2 twice. *)
Theorem lockfree_aba_double_fetch :
  exists c, LockFree.reachable false [1; 2; 3] c /\ LockFree.owned c = [2; 1; 2].
Proof.
  assert (is_Some (LockFree.exec_all (LockFree.init [1; 2; 3]) aba_run)) as [c E]
    by (vm_compute; eauto).
  exists c. split; [by eapply LockFree.exec_all_steps|].
  assert (LockFree.owned <$> LockFree.exec_all (LockFree.init [1; 2; 3]) aba_run = Some [2; 1; 2]) as H
    by (vm_compute; reflexivity).
  rewrite E in H. by injection H.
Qed.
