(* ===== verification/Mem.v ===== *)
(** The physical page allocator and the kernel heap (src/kernel/mem.c).

    Free pages are a list ([nodes]); [free] has 256 lists, list [i] of free
    blocks of [16 * (i + 1)] bytes. The lists are the lock-free lists of
    ListNode.v, here by their contents. [m_hdr] is the [int] at the start of
    a block that is in use; linking a block into a list overwrites it. *)
From Stdlib Require Import ZArith Lia.
From stdpp Require Import base numbers gmap relations list.
From S2P Require Import Prelude.

Definition PAGE_SIZE : Z := 4096.
Definition EXTMEM : Z := 0x40000000.
Definition PHYSTOP : Z := 0x80000000.
Definition KSPACE_MASK : Z := 0xFFFF000000000000.
Definition K2P (addr : Z) : Z := u64 (addr - KSPACE_MASK).
Definition P2K (addr : Z) : Z := u64 (addr + KSPACE_MASK).
Definition KSPACE (addr : Z) : Z := Z.lor addr KSPACE_MASK.
Definition PAGE_BASE (addr : Z) : Z := Z.land addr (u64 (Z.lnot (PAGE_SIZE - 1))).
Definition PAGE_INDEX (page_base : Z) : Z := u64 (KSPACE page_base - P2K EXTMEM) / PAGE_SIZE.

Record Mem := mkMem {
  m_lock : bool;
  m_nodes : list Z;
  m_free : list (list Z);
  m_hdr : gmap Z Z;
  m_ref : gmap Z Z;
  m_kalloc_page_cnt : Z;
  m_left_page_cnt : Z;
  m_zero_page : Z;
}.

Definition set_mem_lock (v : bool) (s : Mem) : Mem :=
  mkMem v (m_nodes s) (m_free s) (m_hdr s) (m_ref s) (m_kalloc_page_cnt s) (m_left_page_cnt s) (m_zero_page s).
Definition set_nodes (v : list Z) (s : Mem) : Mem :=
  mkMem (m_lock s) v (m_free s) (m_hdr s) (m_ref s) (m_kalloc_page_cnt s) (m_left_page_cnt s) (m_zero_page s).
Definition set_free (v : list (list Z)) (s : Mem) : Mem :=
  mkMem (m_lock s) (m_nodes s) v (m_hdr s) (m_ref s) (m_kalloc_page_cnt s) (m_left_page_cnt s) (m_zero_page s).
Definition set_hdr (v : gmap Z Z) (s : Mem) : Mem :=
  mkMem (m_lock s) (m_nodes s) (m_free s) v (m_ref s) (m_kalloc_page_cnt s) (m_left_page_cnt s) (m_zero_page s).
Definition set_ref (v : gmap Z Z) (s : Mem) : Mem :=
  mkMem (m_lock s) (m_nodes s) (m_free s) (m_hdr s) v (m_kalloc_page_cnt s) (m_left_page_cnt s) (m_zero_page s).
Definition set_cnt (k l : Z) (s : Mem) : Mem :=
  mkMem (m_lock s) (m_nodes s) (m_free s) (m_hdr s) (m_ref s) k l (m_zero_page s).
Definition set_zero_page (v : Z) (s : Mem) : Mem :=
  mkMem (m_lock s) (m_nodes s) (m_free s) (m_hdr s) (m_ref s) (m_kalloc_page_cnt s) (m_left_page_cnt s) v.

Definition mem_lock : M Mem unit := fun s =>
  if m_lock s then Blocked s else Done tt (set_mem_lock true s).
Definition mem_unlock : M Mem unit := modify (set_mem_lock false).

(** [pages_ref[i]]: the array has an entry per physical page below [PHYSTOP]. *)
Definition page_num (p : Z) : Z := K2P p / PAGE_SIZE.
Definition ref_index (i : Z) : M Mem unit :=
  if (0 <=? i) && (i <? PHYSTOP / PAGE_SIZE) then mret tt else undefined.
Definition ref_get (i : Z) : M Mem Z := ref_index i ;; gets (fun s => default 0 (m_ref s !! i)).
Definition ref_set (i v : Z) : M Mem unit :=
  ref_index i ;; modify (fun s => set_ref (<[i := v]> (m_ref s)) s).

(** [add_to_queue(&nodes, p)] and [fetch_from_queue(&nodes)]; 0 is NULL. *)
Definition add_page (p : Z) : M Mem unit :=
  modify (fun s => set_nodes (p :: m_nodes s) (set_hdr (delete p (m_hdr s)) s)).
Definition fetch_page : M Mem Z :=
  s ← get_state;
  match m_nodes s with
  | [] => mret 0
  | p :: l => modify (set_nodes l) ;; mret p
  end.

(** The same on [free[i]]. *)
Definition add_block (i p : Z) : M Mem unit :=
  s ← get_state;
  l ← deref (if i <? 0 then None else m_free s !! Z.to_nat i);
  modify (fun s => set_free (<[Z.to_nat i := p :: l]> (m_free s)) (set_hdr (delete p (m_hdr s)) s)).
Definition fetch_block (i : Z) : M Mem Z :=
  s ← get_state;
  l ← deref (if i <? 0 then None else m_free s !! Z.to_nat i);
  match l with
  | [] => mret 0
  | p :: l' => modify (set_free (<[Z.to_nat i := l']> (m_free s))) ;; mret p
  end.

Definition left_page_cnt : M Mem Z := gets m_left_page_cnt.

Definition kalloc_page : M Mem Z :=
  modify (fun s => set_cnt (m_kalloc_page_cnt s + 1) (m_left_page_cnt s - 1) s) ;;
  ret ← fetch_page;
  ref_set (page_num ret) 0 ;;
  mret ret.

Definition kfree_page (p : Z) : M Mem unit :=
  modify (fun s => set_cnt (m_kalloc_page_cnt s - 1) (m_left_page_cnt s) s) ;;
  r ← ref_get (page_num p);
  ref_set (page_num p) (r - 1) ;;
  if r - 1 <=? 0 then
    add_page p ;;
    modify (fun s => set_cnt (m_kalloc_page_cnt s) (m_left_page_cnt s + 1) s)
  else mret tt.

(** [init_page]: every page from [base] while it is below [limit]. *)
Fixpoint init_page (fuel : nat) (p limit : Z) : M Mem unit :=
  match fuel with
  | O => mret tt
  | S fuel' =>
      if p <? limit then
        add_page p ;;
        modify (fun s => set_cnt (m_kalloc_page_cnt s) (m_left_page_cnt s + 1) s) ;;
        init_page fuel' (p + 4096) limit
      else mret tt
  end.

(** [sizeof(struct page)] is 16: an [i64] and a lock. *)
Definition PAGES_REF_SIZE : Z := 16 * (PHYSTOP / PAGE_SIZE).

(** [kinit], the kernel image ending at [end_]. *)
Definition kinit (end_ : Z) : M Mem unit :=
  modify (set_cnt 0 0) ;; mem_unlock ;; modify (set_zero_page 0) ;;
  init_page (Z.to_nat (PHYSTOP / PAGE_SIZE)) (PAGE_BASE end_) (P2K PHYSTOP - PAGES_REF_SIZE) ;;
  z ← kalloc_page;
  modify (set_zero_page z) ;;
  ref_set (page_num z) 1.

Definition get_zero_page : M Mem Z := gets m_zero_page.

Definition get_page_ref (addr : Z) : M Mem Z :=
  mem_lock ;; r ← ref_get (PAGE_INDEX (PAGE_BASE addr)); mem_unlock ;; mret r.

(** *(int * )node = v *)
Definition put_header (node v : Z) : M Mem unit :=
  modify (fun s => set_hdr (<[node := v]> (m_hdr s)) s).

(** The units of 16 bytes a request takes, with its header; [number] is an
    [int]. *)
Definition int_of (v : Z) : Z := wrap 32 (v + 2 ^ 31) - 2 ^ 31.
Definition units_for (size : Z) : Z :=
  let size := u64 (size + 8) in int_of (if size mod 16 =? 0 then size / 16 else size / 16 + 1).

Definition kalloc (size : Z) : M Mem Z :=
  mem_lock ;;
  let number := units_for size in
  if number =? 256 then
    node ← kalloc_page;
    put_header node 256 ;; mem_unlock ;; mret (node + 8)
  else
    r ← for_loop (Z.to_nat (256 - (number - 1))) (number - 1) (fun i =>
      s ← get_state;
      l ← deref (if i <? 0 then None else m_free s !! Z.to_nat i);
      match l with
      | [] => mret None
      | _ :: _ =>
          node ← fetch_block i;
          let freeblock := node + number * 16 in
          let freenumber := i + 1 - number in
          (if freenumber =? 0 then mret tt else add_block (freenumber - 1) freeblock) ;;
          put_header node (number - 1) ;; mem_unlock ;; mret (Some (node + 8))
      end);
    match r with
    | Some p => mret p
    | None =>
        node ← kalloc_page;
        let freeblock := node + number * 16 in
        let freenumber := 256 - number in
        add_block (freenumber - 1) freeblock ;;
        put_header node (number - 1) ;; mem_unlock ;; mret (node + 8)
    end.

Definition kfree (ptr : Z) : M Mem unit :=
  let p := ptr - 8 in
  s ← get_state;
  h ← deref (m_hdr s !! p);
  add_block h p.

(** ** Blocks as units of 16 bytes *)

Definition units (b : Z * Z) : list Z := (fun k => b.1 + 16 * Z.of_nat k) <$> seq 0 (Z.to_nat b.2).

Definition all_units (bs : list (Z * Z)) : list Z := bs ≫= units.

Lemma units_split a n m :
  0 <= m <= n -> units (a, n) = units (a, m) ++ units (a + 16 * m, n - m).
Proof.
  intros Hm. unfold units. simpl. replace (Z.to_nat n) with (Z.to_nat m + Z.to_nat (n - m))%nat by lia.
  rewrite seq_app, fmap_app. f_equal. simpl.
  apply list_eq. intros i. rewrite !list_lookup_fmap.
  destruct (decide (i < Z.to_nat (n - m))%nat).
  - rewrite !lookup_seq_lt by lia. simpl. f_equal. lia.
  - rewrite !lookup_seq_ge by lia. done.
Qed.

Lemma elem_of_units a n u : u ∈ units (a, n) <-> exists k, 0 <= k < n /\ u = a + 16 * k.
Proof.
  unfold units. rewrite list_elem_of_fmap. simpl. split.
  - intros (k & -> & Hk). apply elem_of_seq in Hk. exists (Z.of_nat k). lia.
  - intros (k & Hk & ->). exists (Z.to_nat k). split; [lia|]. apply elem_of_seq. lia.
Qed.

Lemma units_nodup a n : NoDup (units (a, n)).
Proof. apply NoDup_fmap_2; [intros x y E; simpl in E; lia|apply NoDup_seq]. Qed.

#[export] Instance all_units_perm : Proper ((≡ₚ) ==> (≡ₚ)) all_units.
Proof. intros l1 l2 H. unfold all_units. by rewrite H. Qed.

Lemma all_units_cons b bs : all_units (b :: bs) = units b ++ all_units bs.
Proof. done. Qed.

Lemma all_units_app bs1 bs2 : all_units (bs1 ++ bs2) = all_units bs1 ++ all_units bs2.
Proof. apply bind_app. Qed.

(** The blocks of the free lists, with their sizes. *)
Fixpoint sized (i : Z) (fs : list (list Z)) : list (Z * Z) :=
  match fs with
  | [] => []
  | l :: fs' => map (fun a => (a, i)) l ++ sized (i + 1) fs'
  end.

Definition free_blocks (fs : list (list Z)) : list (Z * Z) := sized 1 fs.

Lemma sized_insert j fs i l k :
  fs !! i = Some l ->
  sized j (<[i := k]> fs) ++ map (fun a => (a, j + Z.of_nat i)) l ≡ₚ
  sized j fs ++ map (fun a => (a, j + Z.of_nat i)) k.
Proof.
  revert j i. induction fs as [|x fs IH]; intros j [|i] E; simpl in *; [done|done| |].
  - injection E as ->. rewrite Z.add_0_r. solve_Permutation.
  - specialize (IH (j + 1) i E).
    replace (j + Z.of_nat (S i)) with (j + 1 + Z.of_nat i) by lia.
    rewrite <- !app_assoc. by rewrite IH.
Qed.

Lemma free_blocks_push fs i l a :
  fs !! i = Some l -> free_blocks (<[i := a :: l]> fs) ≡ₚ (a, Z.of_nat i + 1) :: free_blocks fs.
Proof.
  intros E. pose proof (sized_insert 1 fs i l (a :: l) E) as H. simpl in H.
  unfold free_blocks. apply (Permutation_app_inv_r (map (fun a0 => (a0, 1 + Z.of_nat i)) l)).
  rewrite H, <- Permutation_middle. replace (Z.of_nat i + 1) with (1 + Z.of_nat i) by lia. done.
Qed.

Lemma free_blocks_pop fs i l a :
  fs !! i = Some (a :: l) -> free_blocks fs ≡ₚ (a, Z.of_nat i + 1) :: free_blocks (<[i := l]> fs).
Proof.
  intros E.
  assert ((<[i := l]> fs) !! i = Some l) as E'.
  { apply list_lookup_insert_eq. by eapply lookup_lt_Some. }
  rewrite <- (free_blocks_push _ _ _ a E'). rewrite list_insert_insert_eq.
  by rewrite list_insert_id.
Qed.

(** ** The invariant of the heap

    [pool] are the pages the allocator was given, [A] the heap blocks in use,
    [P] the pages in use. Cutting and returning blocks only regroups units. *)
Definition whole (ps : list Z) : list (Z * Z) := map (fun p => (p, 256)) ps.

Record heap_ok (pool : list Z) (A : list (Z * Z)) (P : list Z) (s : Mem) : Prop := {
  ho_lock : m_lock s = false;
  ho_free : length (m_free s) = 256%nat;
  ho_perm : all_units (whole (m_nodes s) ++ free_blocks (m_free s) ++ A ++ whole P) ≡ₚ
            all_units (whole pool);
  ho_pages : forall p, p ∈ m_nodes s \/ p ∈ P -> p ∈ pool;
  ho_hdr : forall a n, (a, n) ∈ A -> 1 <= n <= 255 /\ m_hdr s !! a = Some (n - 1);
}.

(** The pages the allocator may be given. *)
Record pool_ok (pool : list Z) : Prop := {
  po_nodup : NoDup (all_units (whole pool));
  po_page : forall p, p ∈ pool -> p mod 16 = 0 /\ p <> 0 /\ 0 <= page_num p < PHYSTOP / PAGE_SIZE;
}.

(** The address of a block is its first unit. *)
Lemma units_start a n : 1 <= n -> a ∈ units (a, n).
Proof. intros. apply elem_of_units. exists 0. lia. Qed.

Lemma all_units_start b bs : b ∈ bs -> 1 <= b.2 -> b.1 ∈ all_units bs.
Proof.
  intros Hb Hn. unfold all_units. apply list_elem_of_bind. exists b. split; [|done].
  destruct b. by apply units_start.
Qed.

Lemma all_units_disjoint b bs a n :
  NoDup (all_units (b :: bs)) -> (a, n) ∈ bs -> 1 <= n -> a ∉ units b.
Proof.
  intros Hnd Hin Hn Hu. rewrite all_units_cons in Hnd. apply NoDup_app in Hnd as (_ & Hd & _).
  apply (Hd _ Hu). by apply (all_units_start (a, n)).
Qed.

Lemma unit_of_pool pool u :
  pool_ok pool -> u ∈ all_units (whole pool) -> u mod 16 = 0.
Proof.
  intros Hpool Hin. unfold all_units in Hin. apply list_elem_of_bind in Hin as ([q n] & Hu & Hq).
  unfold whole in Hq. apply list_elem_of_In, in_map_iff in Hq as (q' & [= -> <-] & Hq).
  apply elem_of_units in Hu as (k & Hk & ->). apply list_elem_of_In, (po_page _ Hpool) in Hq as (Hq & _).
  rewrite Z.mul_comm, Z.mod_add by lia. done.
Qed.

Section allocator.
Context (pool : list Z) (Hpool : pool_ok pool).

(** The blocks of a good heap do not overlap. *)
Lemma heap_disjoint A P s :
  heap_ok pool A P s ->
  NoDup (all_units (whole (m_nodes s) ++ free_blocks (m_free s) ++ A ++ whole P)).
Proof. intros H. rewrite (ho_perm _ _ _ _ H). apply Hpool. Qed.

(** [number] units of the free block [(a, n)] are taken into use, the others
    stay free. *)
Lemma heap_take A P s s' a n number rest :
  heap_ok pool A P s -> 1 <= number <= 255 -> number <= n ->
  whole (m_nodes s) ++ free_blocks (m_free s) ≡ₚ (a, n) :: rest ->
  m_lock s' = false -> length (m_free s') = 256%nat ->
  whole (m_nodes s') ++ free_blocks (m_free s') ≡ₚ
    (if n =? number then [] else [(a + 16 * number, n - number)]) ++ rest ->
  (forall p, p ∈ m_nodes s' -> p ∈ m_nodes s) ->
  m_hdr s' !! a = Some (number - 1) ->
  (forall a', a' <> a -> (n <> number -> a' <> a + 16 * number) -> m_hdr s' !! a' = m_hdr s !! a') ->
  heap_ok pool ((a, number) :: A) P s'.
Proof.
  intros H Hnum Hn Hs Hl Hlen Hs' Hnodes Hh1 Hh2. pose proof (heap_disjoint _ _ _ H) as Hnd.
  rewrite app_assoc, Hs in Hnd. simpl in Hnd. split; [done|done| | |].
  - rewrite <- (ho_perm _ _ _ _ H), !app_assoc, Hs, Hs'. simpl.
    rewrite !all_units_app, !all_units_cons, (units_split a n number) by lia.
    destruct (Z.eqb_spec n number) as [->|Hne]; simpl.
    + rewrite Z.sub_diag. unfold units at 3. simpl. rewrite app_nil_r. solve_Permutation.
    + rewrite ?app_nil_r. solve_Permutation.
  - intros p [Hp|Hp]; apply (ho_pages _ _ _ _ H); auto.
  - intros a' n' [[= -> ->]|Hin]%elem_of_cons; [split; [lia|done]|].
    destruct (ho_hdr _ _ _ _ H a' n' Hin) as [Hn' Hh]. split; [done|].
    assert ((a', n') ∈ rest ++ A ++ whole P) as Hin' by set_solver.
    assert (a' ∉ units (a, n)) as Hd by (eapply all_units_disjoint; [exact Hnd|exact Hin'|lia]).
    rewrite Hh2; [done| |].
    + intros ->. apply Hd, units_start. lia.
    + intros Hne ->. apply Hd, elem_of_units. exists number. lia.
Qed.

Lemma wp_add_block s i p l Q :
  0 <= i -> m_free s !! Z.to_nat i = Some l ->
  Q tt (set_free (<[Z.to_nat i := p :: l]> (m_free s)) (set_hdr (delete p (m_hdr s)) s)) ->
  wp (add_block i p) Q s.
Proof.
  intros Hi E HQ. unfold add_block. wp_step. apply wp_get_state. wp_step.
  rewrite (proj2 (Z.ltb_ge i 0)) by done. eapply wp_deref; [exact E|]. by wp_step.
Qed.

Lemma wp_fetch_block s i p l Q :
  0 <= i -> m_free s !! Z.to_nat i = Some (p :: l) ->
  Q p (set_free (<[Z.to_nat i := l]> (m_free s)) s) -> wp (fetch_block i) Q s.
Proof.
  intros Hi E HQ. unfold fetch_block. wp_step. apply wp_get_state. wp_step.
  rewrite (proj2 (Z.ltb_ge i 0)) by done. eapply wp_deref; [exact E|]. by wp_step.
Qed.

(** Cutting [number] units off a block of [free[i]]. *)
Lemma wp_cut A P s i a l number Q :
  heap_ok pool A P s -> 1 <= number <= 255 -> number - 1 <= i < 256 ->
  m_free s !! Z.to_nat i = Some (a :: l) ->
  (forall s', heap_ok pool ((a, number) :: A) P s' -> Q (Some (a + 8)) s') ->
  wp (node ← fetch_block i;
      (if i + 1 - number =? 0 then mret tt else add_block (i + 1 - number - 1) (node + number * 16)) ;;
      put_header node (number - 1) ;; mem_unlock ;; mret (Some (node + 8))) Q (set_mem_lock true s).
Proof.
  intros H Hnum Hi E HQ. pose proof (ho_free _ _ _ _ H) as Hlen.
  wp_step. eapply wp_fetch_block; [lia|exact E|].
  set (fs := <[Z.to_nat i := l]> (m_free s)).
  assert (length fs = 256%nat) as Hlen' by (unfold fs; by rewrite length_insert).
  assert (whole (m_nodes s) ++ free_blocks (m_free s) ≡ₚ
            (a, i + 1) :: whole (m_nodes s) ++ free_blocks fs) as Hs.
  { rewrite (free_blocks_pop _ _ _ _ E). fold fs.
    replace (Z.of_nat (Z.to_nat i) + 1) with (i + 1) by lia. by rewrite Permutation_middle. }
  destruct (Z.eqb_spec (i + 1 - number) 0) as [E0|E0].
  - wp_steps. apply HQ.
    eapply (heap_take A P s _ a (i + 1) number _ H); [done|lia|exact Hs|done|done| |done| |].
    + rewrite (proj2 (Z.eqb_eq (i + 1) number)) by lia. done.
    + apply lookup_insert_eq.
    + intros a' Ha' _. simpl. by rewrite lookup_insert_ne.
  - destruct (lookup_lt_is_Some_2 fs (Z.to_nat (i + 1 - number - 1))) as [l2 E2]; [lia|].
    wp_step. eapply wp_add_block; [lia|exact E2|]. wp_steps. apply HQ.
    eapply (heap_take A P s _ a (i + 1) number _ H); [done|lia|exact Hs|done| | |done| |].
    + simpl. by rewrite length_insert.
    + cbn. fold fs. rewrite (free_blocks_push _ _ _ _ E2). rewrite (proj2 (Z.eqb_neq (i + 1) number)) by lia.
      replace (Z.of_nat (Z.to_nat (i + 1 - number - 1)) + 1) with (i + 1 - number) by lia.
      replace (a + number * 16) with (a + 16 * number) by lia. simpl. by rewrite Permutation_middle.
    + apply lookup_insert_eq.
    + intros a' Ha' Hb'. simpl. rewrite lookup_insert_ne by done. rewrite lookup_delete_ne; [done|].
      intros E3. apply Hb'; lia.
Qed.

Lemma wp_kalloc_page_raw s p l Q :
  m_nodes s = p :: l -> 0 <= page_num p < PHYSTOP / PAGE_SIZE ->
  Q p (set_ref (<[page_num p := 0]> (m_ref s))
        (set_nodes l (set_cnt (m_kalloc_page_cnt s + 1) (m_left_page_cnt s - 1) s))) ->
  wp kalloc_page Q s.
Proof.
  intros E Hp HQ. unfold kalloc_page. wp_step. apply wp_modify. wp_step. unfold fetch_page.
  wp_step. apply wp_get_state. simpl. rewrite E. wp_step. apply wp_modify. wp_step. wp_step.
  unfold ref_set, ref_index. wp_step. rewrite (proj2 (Z.leb_le 0 _)), (proj2 (Z.ltb_lt _ _)) by lia.
  simpl. wp_step. apply wp_modify. by wp_step.
Qed.

Lemma units_for_small size :
  0 <= size <= 4072 -> let n := units_for size in 1 <= n <= 255 /\ size + 8 <= 16 * n < size + 8 + 16.
Proof.
  intros Hs. unfold units_for, u64, int_of. rewrite (wrap_small 64) by lia.
  pose proof (Z.div_mod (size + 8) 16 ltac:(lia)). pose proof (Z.mod_pos_bound (size + 8) 16 ltac:(lia)).
  assert (0 <= (size + 8) / 16 <= 255) by lia.
  destruct (Z.eqb_spec ((size + 8) mod 16) 0); cbn zeta; rewrite wrap_small; lia.
Qed.

Lemma wp_kalloc A P s size Q :
  heap_ok pool A P s -> 0 <= size <= 4072 ->
  (m_nodes s <> [] \/ exists i a l, units_for size - 1 <= Z.of_nat i /\ m_free s !! i = Some (a :: l)) ->
  (forall a s', heap_ok pool ((a, units_for size) :: A) P s' -> Q (a + 8) s') ->
  wp (kalloc size) Q s.
Proof.
  intros H Hsize Hav HQ. destruct (units_for_small size Hsize) as [Hnum Hfit].
  unfold kalloc. wp_step. unfold mem_lock at 1, wp. rewrite (ho_lock _ _ _ _ H).
  cbn zeta. set (number := units_for size) in *.
  rewrite (proj2 (Z.eqb_neq number 256)) by lia.
  match goal with |- match ?c ?s with _ => _ end => change (wp c Q s) end. wp_step.
  apply (wp_for_loop (fun i s' => s' = set_mem_lock true s /\
    forall j, number - 1 <= Z.of_nat j < i -> m_free s !! j = Some [])).
  - split; [done|]. lia.
  - intros i s' Hi [-> Hempty]. wp_step. apply wp_get_state. wp_step.
    destruct (lookup_lt_is_Some_2 (m_free s) (Z.to_nat i)) as [l El]; [rewrite (ho_free _ _ _ _ H); lia|].
    rewrite (proj2 (Z.ltb_ge i 0)) by lia. eapply wp_deref; [exact El|]. destruct l as [|a l].
    + wp_step. split; [done|]. intros j Hj. destruct (decide (Z.of_nat j < i)); [apply Hempty; lia|].
      by replace j with (Z.to_nat i) by lia.
    + eapply wp_cut; [exact H|done|lia|exact El|]. intros s2 H2. wp_step. by apply HQ.
  - intros s' [-> Hempty]. replace (number - 1 + Z.of_nat (Z.to_nat (256 - (number - 1)))) with 256 in Hempty by lia.
    destruct (m_nodes s) as [|p ps] eqn:En.
    { destruct Hav as [?|(i & a & l & Hi & El)]; [done|]. pose proof (lookup_lt_Some _ _ _ El) as Hlt.
      rewrite (ho_free _ _ _ _ H) in Hlt. rewrite Hempty in El by lia. done. }
    destruct (po_page _ Hpool p) as (_ & _ & Hpn); [apply (ho_pages _ _ _ _ H); left; rewrite En; left|].
    wp_step. eapply wp_kalloc_page_raw; [exact En|done|].
    destruct (lookup_lt_is_Some_2 (m_free s) (Z.to_nat (256 - number - 1))) as [l2 E2];
      [rewrite (ho_free _ _ _ _ H); lia|].
    wp_step. eapply wp_add_block; [lia|exact E2|]. wp_steps. apply HQ.
    eapply (heap_take A P s _ p 256 number (whole ps ++ free_blocks (m_free s)) H); [done|lia| |done| | | | |].
    + by rewrite En.
    + simpl. rewrite length_insert. apply H.
    + rewrite (proj2 (Z.eqb_neq 256 number)) by lia. cbn. rewrite (free_blocks_push _ _ _ _ E2).
      replace (Z.of_nat (Z.to_nat (256 - number - 1)) + 1) with (256 - number) by lia.
      replace (p + number * 16) with (p + 16 * number) by lia.
      by rewrite Permutation_middle.
    + intros q Hq. rewrite En. by right.
    + apply lookup_insert_eq.
    + intros a' Ha' Hb'. simpl. rewrite lookup_insert_ne by done. rewrite lookup_delete_ne; [done|].
      intros E3. apply Hb'; lia.
Qed.

Lemma wp_kfree A1 a n A2 P s Q :
  heap_ok pool (A1 ++ (a, n) :: A2) P s ->
  (forall s', heap_ok pool (A1 ++ A2) P s' -> Q tt s') ->
  wp (kfree (a + 8)) Q s.
Proof.
  intros H HQ. destruct (ho_hdr _ _ _ _ H a n) as [Hn Hh]; [set_solver|].
  pose proof (heap_disjoint _ _ _ H) as Hnd.
  unfold kfree. cbn zeta. replace (a + 8 - 8) with a by lia. wp_step. apply wp_get_state. wp_step.
  eapply wp_deref; [exact Hh|].
  destruct (lookup_lt_is_Some_2 (m_free s) (Z.to_nat (n - 1))) as [l El]; [rewrite (ho_free _ _ _ _ H); lia|].
  eapply wp_add_block; [lia|exact El|]. apply HQ. split; simpl.
  - apply H.
  - rewrite length_insert. apply H.
  - rewrite <- (ho_perm _ _ _ _ H). rewrite (free_blocks_push _ _ _ _ El).
    replace (Z.of_nat (Z.to_nat (n - 1)) + 1) with n by lia. apply all_units_perm. solve_Permutation.
  - apply H.
  - intros a' n' Hin. destruct (ho_hdr _ _ _ _ H a' n') as [Hn' Hh']; [set_solver|]. split; [done|].
    rewrite lookup_delete_ne; [done|]. intros <-.
    assert (whole (m_nodes s) ++ free_blocks (m_free s) ++ (A1 ++ (a, n) :: A2) ++ whole P ≡ₚ
      (a, n) :: whole (m_nodes s) ++ free_blocks (m_free s) ++ (A1 ++ A2) ++ whole P) as Hperm by solve_Permutation.
    rewrite Hperm in Hnd. apply (all_units_disjoint _ _ a n') in Hnd; [|set_solver|lia].
    apply Hnd, units_start. lia.
Qed.
End allocator.

(** ** Extents of memory *)

Lemma disjoint_extents a n a' n' :
  a mod 16 = 0 -> a' mod 16 = 0 -> 1 <= n -> 1 <= n' ->
  a ∉ units (a', n') -> a' ∉ units (a, n) -> a + 16 * n <= a' \/ a' + 16 * n' <= a.
Proof.
  intros Ha Ha' Hn Hn' H1 H2. pose proof (Z.div_mod a 16). pose proof (Z.div_mod a' 16).
  destruct (decide (a' < a)).
  - right. destruct (decide (a' + 16 * n' <= a)); [done|]. exfalso. apply H1, elem_of_units.
    exists (a / 16 - a' / 16). lia.
  - left. destruct (decide (a + 16 * n <= a')); [done|]. exfalso. apply H2, elem_of_units.
    exists (a' / 16 - a / 16). lia.
Qed.

(** The blocks in use of a good heap: aligned, and pairwise disjoint. *)
Lemma heap_blocks pool A P s a n A1 A2 :
  pool_ok pool -> heap_ok pool A P s -> A = A1 ++ (a, n) :: A2 ->
  a mod 16 = 0 /\ forall a' n', (a', n') ∈ A1 ++ A2 -> a + 16 * n <= a' \/ a' + 16 * n' <= a.
Proof.
  intros Hpool H ->. pose proof (heap_disjoint pool Hpool _ _ _ H) as Hnd.
  assert (forall x m, (x, m) ∈ A1 ++ (a, n) :: A2 -> 1 <= m /\ x mod 16 = 0) as Hal.
  { intros x m Hx. destruct (ho_hdr _ _ _ _ H x m Hx) as [Hm _]. split; [lia|].
    apply (unit_of_pool pool); [done|]. rewrite <- (ho_perm _ _ _ _ H).
    apply (all_units_start (x, m)); [|simpl; lia]. rewrite !elem_of_app in *. tauto. }
  assert (forall B1 x m B2 y k, A1 ++ (a, n) :: A2 = B1 ++ (x, m) :: B2 -> (y, k) ∈ B1 ++ B2 -> y ∉ units (x, m)) as Hdis.
  { intros B1 x m B2 y k EB Hy. rewrite EB in Hnd.
    assert (whole (m_nodes s) ++ free_blocks (m_free s) ++ (B1 ++ (x, m) :: B2) ++ whole P ≡ₚ
      (x, m) :: (B1 ++ B2) ++ whole (m_nodes s) ++ free_blocks (m_free s) ++ whole P) as Hperm
      by solve_Permutation.
    rewrite Hperm in Hnd. eapply all_units_disjoint; [exact Hnd|rewrite elem_of_app; left; exact Hy|].
    apply (Hal y k). rewrite EB. set_solver. }
  destruct (Hal a n) as [Hn Ha]; [set_solver|]. split; [done|]. intros a' n' Hin.
  destruct (Hal a' n') as [Hn' Ha']; [set_solver|].
  apply disjoint_extents; try done; [|by apply (Hdis A1 a n A2 a' n')].
  apply elem_of_app in Hin as [Hin|Hin]; apply list_elem_of_split in Hin as (C1 & C2 & ->).
  - apply (Hdis C1 a' n' (C2 ++ (a, n) :: A2) a n); [by rewrite <- app_assoc|set_solver].
  - apply (Hdis (A1 ++ (a, n) :: C1) a' n' C2 a n); [by rewrite <- app_assoc|set_solver].
Qed.

(** * Properties *)

(** The blocks in use after a sequence of calls of [kalloc] (of sizes that fit a
    page with their header) and [kfree] (of blocks in use). *)
Inductive heap_step : list (Z * Z) * Mem -> list (Z * Z) * Mem -> Prop :=
| step_kalloc size p A s s' :
    0 <= size <= 4072 ->
    m_nodes s <> [] \/ (exists i a l, units_for size - 1 <= Z.of_nat i /\ m_free s !! i = Some (a :: l)) ->
    kalloc size s = Done p s' -> heap_step (A, s) ((p - 8, units_for size) :: A, s')
| step_kfree a n A1 A2 s s' :
    kfree (a + 8) s = Done tt s' -> heap_step (A1 ++ (a, n) :: A2, s) (A1 ++ A2, s').

Lemma heap_step_ok pool P x y :
  pool_ok pool -> heap_ok pool x.1 P x.2 -> heap_step x y -> heap_ok pool y.1 P y.2.
Proof.
  intros Hpool H Hs. destruct Hs as [size p A s s' Hsz Hav E|a n A1 A2 s s' E]; simpl in *.
  - assert (wp (kalloc size) (fun p s' => heap_ok pool ((p - 8, units_for size) :: A) P s') s) as Hw.
    { eapply (wp_kalloc pool Hpool); [exact H|done|done|]. intros a s1 H1.
      by replace (a + 8 - 8) with a by lia. }
    unfold wp in Hw. by rewrite E in Hw.
  - assert (wp (kfree (a + 8)) (fun _ s' => heap_ok pool (A1 ++ A2) P s') s) as Hw
      by (by eapply (wp_kfree pool Hpool)).
    unfold wp in Hw. by rewrite E in Hw.
Qed.

(** C18: The kernel heap neither loses nor overlaps memory. After any sequence of
    [kalloc] of at most 4072 bytes, while there is memory, and [kfree] of blocks in
    use, the 16-byte units of the free pages, the free blocks
    and the blocks in use are exactly those of the pages the allocator started
    with; the blocks in use are aligned and pairwise disjoint. (Greater
    sizes are excluded: from 4073 to 4088 bytes [kalloc] takes a whole page, whose
    [kfree] writes outside the free lists, see kfree_whole_page_out_of_bounds;
    above, the block does not fit in a page and nothing checks that.) *)
Theorem heap_conservation pool s0 A s a n A1 A2 :
  pool_ok pool -> heap_ok pool [] [] s0 -> rtc heap_step ([], s0) (A, s) ->
  A = A1 ++ (a, n) :: A2 ->
  all_units (whole (m_nodes s) ++ free_blocks (m_free s) ++ A) ≡ₚ all_units (whole pool) /\
  a mod 16 = 0 /\ forall a' n', (a', n') ∈ A1 ++ A2 -> a + 16 * n <= a' \/ a' + 16 * n' <= a.
Proof.
  intros Hpool H0 Hs EA.
  assert (heap_ok pool A [] s) as H.
  { enough (forall x y, rtc heap_step x y ->
      heap_ok pool x.1 [] x.2 -> heap_ok pool y.1 [] y.2) as Hgen by exact (Hgen _ _ Hs H0).
    induction 1 as [x|x y z Hxy _ IH]; [done|]. intros Hx. apply IH. by eapply heap_step_ok. }
  split; [|by eapply (heap_blocks pool)].
  pose proof (ho_perm _ _ _ _ H) as Hp. simpl in Hp. by rewrite app_nil_r in Hp.
Qed.

(** [kalloc] of a size up to 4072 returns while there is memory: the address
    of a block that holds the size behind its 8-byte header, 16-byte aligned
    less the header and disjoint from every block in use. *)
Theorem kalloc_fresh pool A P s size :
  pool_ok pool -> heap_ok pool A P s -> 0 <= size <= 4072 -> m_nodes s <> [] ->
  wp (kalloc size) (fun p s' => exists a n,
    p = a + 8 /\ heap_ok pool ((a, n) :: A) P s' /\ a mod 16 = 0 /\ p + size <= a + 16 * n /\
    forall a' n', (a', n') ∈ A -> a + 16 * n <= a' \/ a' + 16 * n' <= a) s.
Proof.
  intros Hpool H Hsize Hn. eapply (wp_kalloc pool Hpool); [exact H|done|by left|].
  intros a s' H'. exists a, (units_for size). split; [done|]. split; [done|].
  destruct (heap_blocks pool _ _ _ a (units_for size) [] A Hpool H' eq_refl) as [Ha Hd].
  split_and!; [done| |exact Hd]. destruct (units_for_small size Hsize). lia.
Qed.

(** [kfree] undoes [kalloc]: the block is free again, and the next request of
    the same class gets it back. *)
Theorem kfree_kalloc pool A P s a n size :
  pool_ok pool -> heap_ok pool ((a, n) :: A) P s -> 0 <= size <= 4072 -> units_for size = n ->
  wp (kfree (a + 8)) (fun _ s1 =>
    heap_ok pool A P s1 /\
    wp (kalloc size) (fun p s2 => p = a + 8 /\ heap_ok pool ((a, n) :: A) P s2) s1) s.
Proof.
  intros Hpool H Hsize En. destruct (ho_hdr _ _ _ _ H a n) as [Hn Hh]; [left|].
  destruct (lookup_lt_is_Some_2 (m_free s) (Z.to_nat (n - 1))) as [l El]; [rewrite (ho_free _ _ _ _ H); lia|].
  assert (wp (kfree (a + 8)) (fun _ s1 => heap_ok pool A P s1 /\ m_free s1 !! Z.to_nat (n - 1) = Some (a :: l)) s) as Hw.
  { apply wp_and; [by eapply (wp_kfree pool Hpool [])|].
    unfold kfree. cbn zeta. replace (a + 8 - 8) with a by lia. wp_step. apply wp_get_state. wp_step.
    eapply wp_deref; [exact Hh|]. eapply wp_add_block; [lia|exact El|]. simpl.
    apply list_lookup_insert_eq. rewrite (ho_free _ _ _ _ H). lia. }
  eapply wp_mono; [exact Hw|]. intros [] s1 [H1 E1]. split; [done|].
  unfold kalloc. wp_step. unfold mem_lock at 1, wp. rewrite (ho_lock _ _ _ _ H1). cbn zeta. rewrite En.
  rewrite (proj2 (Z.eqb_neq n 256)) by lia.
  replace (Z.to_nat (256 - (n - 1))) with (S (Z.to_nat (256 - n))) by lia. cbn [for_loop].
  match goal with |- match ?c ?s with _ => _ end => change (wp c (fun p s2 => p = a + 8 /\ heap_ok pool ((a, n) :: A) P s2) s) end.
  do 3 wp_step. apply wp_get_state. wp_step. rewrite (proj2 (Z.ltb_ge (n - 1) 0)) by lia.
  eapply wp_deref; [exact E1|]. eapply (wp_cut pool Hpool A P s1 (n - 1)); [exact H1|done|lia|exact E1|].
  intros s2 H2. by do 2 wp_step.
Qed.

(** a block of a whole page cannot be given back. For the sizes 4073 to 4088
    [kalloc] succeeds and stores the class 256 in the header, and [kfree] of the
    block then indexes [free[256]], past the end of the array. *)
Theorem kfree_whole_page_out_of_bounds pool A P s size :
  pool_ok pool -> heap_ok pool A P s -> m_nodes s <> [] -> 4073 <= size <= 4088 ->
  wp (kalloc size) (fun p s' => kfree p s' = Undefined) s.
Proof.
  intros Hpool H Hn Hsize.
  assert (units_for size = 256) as En.
  { unfold units_for, u64, int_of. rewrite (wrap_small 64) by lia.
    pose proof (Z.div_mod (size + 8) 16 ltac:(lia)). pose proof (Z.mod_pos_bound (size + 8) 16 ltac:(lia)).
    destruct (Z.eqb_spec ((size + 8) mod 16) 0); rewrite wrap_small; lia. }
  destruct (m_nodes s) as [|p ps] eqn:Enodes; [done|].
  destruct (po_page _ Hpool p) as (_ & _ & Hpn); [apply (ho_pages _ _ _ _ H); left; rewrite Enodes; left|].
  unfold kalloc. wp_step. unfold mem_lock at 1, wp. rewrite (ho_lock _ _ _ _ H). cbn zeta. rewrite En.
  change (256 =? 256) with true. cbn iota.
  match goal with |- match ?c ?s with _ => _ end => change (wp c (fun p s' => kfree p s' = Undefined) s) end.
  wp_step. eapply wp_kalloc_page_raw; [exact Enodes|done|]. wp_step. unfold put_header. wp_steps.
  unfold kfree. cbn zeta. replace (p + 8 - 8) with p by lia.
  set (s1 := set_mem_lock false _). assert (m_hdr s1 !! p = Some 256) as Eh by apply lookup_insert_eq.
  assert (m_free s1 !! Z.to_nat 256 = None) as Ef.
  { apply lookup_ge_None_2. change (m_free s1) with (m_free s). by rewrite (ho_free _ _ _ _ H). }
  unfold mbind, M_bind, get_state, deref, add_block. rewrite Eh. unfold mbind, M_bind, deref, get_state.
  change (256 <? 0) with false. cbn iota. by rewrite Ef.
Qed.

(** ** Examples: two pages, the first one cut once *)

Definition example_page : Z := P2K 0x40100000.
Definition example_mem : Mem :=
  mkMem false [example_page] (replicate 256 []) ∅ ∅ 0 1 0.

Lemma example_pool : pool_ok [example_page].
Proof.
  split.
  - change (NoDup (units (example_page, 256) ++ [])). rewrite app_nil_r. apply units_nodup.
  - intros p ->%list_elem_of_singleton. vm_compute. split_and!; congruence.
Qed.

Lemma example_heap_ok : heap_ok [example_page] [] [] example_mem.
Proof.
  split; [done|done|done| |].
  - intros p [Hp|Hp]; [done|]. by apply elem_of_nil in Hp.
  - intros a n Hin. by apply elem_of_nil in Hin.
Qed.

Definition example_mem1 : Mem := match kalloc 100 example_mem with Done _ s => s | _ => example_mem end.

Lemma example_kalloc : kalloc 100 example_mem = Done (example_page + 8) example_mem1.
Proof. vm_compute. reflexivity. Qed.

Lemma example_step : heap_step ([], example_mem) ([(example_page, 7)], example_mem1).
Proof.
  pose proof (step_kalloc 100 (example_page + 8) [] example_mem example_mem1) as H.
  apply H; [lia|by left|apply example_kalloc].
Qed.

Lemma example_heap1 : heap_ok [example_page] [(example_page, 7)] [] example_mem1.
Proof.
  apply (heap_step_ok _ _ ([], example_mem) _ example_pool example_heap_ok example_step).
Qed.

Lemma heap_conservation_witness :
  all_units (whole (m_nodes example_mem1) ++ free_blocks (m_free example_mem1) ++ [(example_page, 7)])
    ≡ₚ all_units (whole [example_page]) /\
  example_page mod 16 = 0 /\
  forall a' n', (a', n') ∈ @nil (Z * Z) -> example_page + 16 * 7 <= a' \/ a' + 16 * n' <= example_page.
Proof.
  apply (heap_conservation [example_page] example_mem [(example_page, 7)] example_mem1 example_page 7 [] []);
    [apply example_pool|apply example_heap_ok| |reflexivity].
  apply rtc_once, example_step.
Defined.

Lemma kalloc_fresh_witness :
  wp (kalloc 100) (fun p s' => exists a n,
    p = a + 8 /\ heap_ok [example_page] ((a, n) :: []) [] s' /\ a mod 16 = 0 /\ p + 100 <= a + 16 * n /\
    forall a' n', (a', n') ∈ @nil (Z * Z) -> a + 16 * n <= a' \/ a' + 16 * n' <= a) example_mem.
Proof.
  apply (kalloc_fresh [example_page] [] [] example_mem 100);
    [apply example_pool|apply example_heap_ok|lia|discriminate].
Defined.

Lemma kfree_kalloc_witness :
  wp (kfree (example_page + 8)) (fun _ s1 =>
    heap_ok [example_page] [] [] s1 /\
    wp (kalloc 100) (fun p s2 => p = example_page + 8 /\
      heap_ok [example_page] [(example_page, 7)] [] s2) s1) example_mem1.
Proof.
  apply (kfree_kalloc [example_page] [] [] example_mem1 example_page 7 100);
    [apply example_pool|apply example_heap1|lia|reflexivity].
Defined.

Lemma kfree_whole_page_out_of_bounds_witness :
  wp (kalloc 4080) (fun p s' => kfree p s' = Undefined) example_mem.
Proof.
  apply (kfree_whole_page_out_of_bounds [example_page] [] [] example_mem 4080);
    [apply example_pool|apply example_heap_ok|discriminate|lia].
Defined.
