(* ===== verification/PageTable.v ===== *)
(** Page tables (src/kernel/pt.c, src/aarch64/mmu.h).

    A table is a page of 512 entries, found by its kernel address. [get_pte]
    walks the four levels and creates missing tables; [translate] is what the
    mmu does with the result. *)
From Stdlib Require Import ZArith Lia.
From stdpp Require Import base numbers gmap list.
From S2P Require Import Prelude Mem.

Definition N_PTE_PER_TABLE : Z := 512.
Definition PTE_VALID : Z := 1.
Definition PTE_TABLE : Z := 3.
Definition PTE_PAGE : Z := 3.
Definition PTE_USER : Z := Z.shiftl 1 6.
Definition PTE_RO : Z := Z.shiftl 1 7.
Definition PTE_NORMAL : Z := Z.lor (Z.lor (Z.shiftl 1 2) (Z.shiftl 1 10)) (Z.shiftl 2 8).
Definition PTE_USER_DATA : Z := Z.lor (Z.lor PTE_USER PTE_NORMAL) PTE_PAGE.

(** [pte & ~0xFFFF000000000FFF] and the fields of a virtual address. *)
Definition PTE_ADDRESS (pte : Z) : Z := Z.land pte 0x0000FFFFFFFFF000.
Definition PTE_FLAGS (pte : Z) : Z := Z.land pte 0xFFFF000000000FFF.
Definition VA_OFFSET (va : Z) : Z := Z.land va 0xFFF.
Definition VA_PART0 (va : Z) : Z := Z.shiftr (Z.land va 0xFF8000000000) 39.
Definition VA_PART1 (va : Z) : Z := Z.shiftr (Z.land va 0x7FC0000000) 30.
Definition VA_PART2 (va : Z) : Z := Z.shiftr (Z.land va 0x3FE00000) 21.
Definition VA_PART3 (va : Z) : Z := Z.shiftr (Z.land va 0x1FF000) 12.

Definition is_valid (pte : Z) : bool := negb (Z.land pte PTE_VALID =? 0).

(** The allocator, the contents of the table pages, and [pgdir->pt]. *)
Record PtState := mkPt { pt_mem : Mem; pt_tabs : gmap Z (list Z); pt_root : Z }.

Definition on_mem {A} (c : M Mem A) : M PtState A := fun s =>
  match c (pt_mem s) with
  | Done a m => Done a (mkPt m (pt_tabs s) (pt_root s))
  | Panicked m => Panicked (mkPt m (pt_tabs s) (pt_root s))
  | Blocked m => Blocked (mkPt m (pt_tabs s) (pt_root s))
  | Undefined => Undefined
  end.

(** [pt[i]] *)
Definition pte_get (pt i : Z) : M PtState Z :=
  s ← get_state; t ← deref (pt_tabs s !! pt); deref (t !! Z.to_nat i).
Definition pte_set (pt i v : Z) : M PtState unit :=
  s ← get_state; t ← deref (pt_tabs s !! pt); _ ← deref (t !! Z.to_nat i);
  modify (fun s => mkPt (pt_mem s) (<[pt := <[Z.to_nat i := v]> t]> (pt_tabs s)) (pt_root s)).

Definition empty_table : list Z := replicate (Z.to_nat N_PTE_PER_TABLE) 0.
#[global] Arguments empty_table : simpl never.

(** [kalloc_page] and [memset(pt, 0, PAGE_SIZE)]. *)
Definition new_table : M PtState Z :=
  p ← on_mem kalloc_page;
  modify (fun s => mkPt (pt_mem s) (<[p := empty_table]> (pt_tabs s)) (pt_root s)) ;;
  mret p.

(** One level: the table behind entry [i] of [pt]. *)
Definition next_table (alloc : bool) (pt i : Z) : M PtState (option Z) :=
  e ← pte_get pt i;
  if is_valid e then mret (Some (P2K (PTE_ADDRESS e)))
  else if alloc then
    t ← new_table;
    pte_set pt i (Z.lor (K2P t) PTE_TABLE) ;;
    mret (Some t)
  else mret None.

(** [get_pte]: the table and index of the entry for [va], or NULL. *)
Definition get_pte (va : Z) (alloc : bool) : M PtState (option (Z * Z)) :=
  s ← get_state;
  (if pt_root s =? 0 then
     if alloc then
       t ← new_table; modify (fun s => mkPt (pt_mem s) (pt_tabs s) t) ;; mret true
     else mret false
   else mret true) ≫= fun ok : bool =>
  if ok then
    s ← get_state;
    r1 ← next_table alloc (pt_root s) (VA_PART0 va);
    match r1 with None => mret None | Some pt1 =>
    r2 ← next_table alloc pt1 (VA_PART1 va);
    match r2 with None => mret None | Some pt2 =>
    r3 ← next_table alloc pt2 (VA_PART2 va);
    match r3 with None => mret None | Some pt3 => mret (Some (pt3, VA_PART3 va)) end end end
  else mret None.

(** The table part of [init_pgdir]. *)
Definition init_pgdir : M PtState unit :=
  t ← new_table; modify (fun s => mkPt (pt_mem s) (pt_tabs s) t).

(** [vmmap]: the entry is overwritten and the page gets one more reference. *)
Definition vmmap (va ka flags : Z) : M PtState unit :=
  r ← get_pte va true;
  e ← deref r;
  let ka0 := PAGE_BASE ka in
  pte_set e.1 e.2 (K2P ka0) ;;
  v ← pte_get e.1 e.2;
  pte_set e.1 e.2 (Z.lor v flags) ;;
  n ← on_mem (ref_get (page_num ka0));
  on_mem (ref_set (page_num ka0) (n + 1)).

(** What the mmu finds for [va]: the last-level entry. *)
Definition walk_level (tabs : gmap Z (list Z)) (pt i : Z) : option Z :=
  t ← tabs !! pt; e ← t !! Z.to_nat i; if is_valid e then Some (P2K (PTE_ADDRESS e)) else None.

Definition find_entry (s : PtState) (va : Z) : option Z :=
  pt1 ← walk_level (pt_tabs s) (pt_root s) (VA_PART0 va);
  pt2 ← walk_level (pt_tabs s) pt1 (VA_PART1 va);
  pt3 ← walk_level (pt_tabs s) pt2 (VA_PART2 va);
  t ← pt_tabs s !! pt3; t !! Z.to_nat (VA_PART3 va).

Definition translate (s : PtState) (va : Z) : option Z :=
  e ← find_entry s va; if is_valid e then Some (PTE_ADDRESS e + VA_OFFSET va) else None.

(** ** Bits of addresses and entries *)

(** The mask of bits [lo] to [lo + w - 1]. *)
Lemma land_field v lo w :
  0 <= v -> 0 <= lo -> 0 <= w ->
  Z.shiftr (Z.land v (Z.shiftl (Z.ones w) lo)) lo = (v / 2 ^ lo) mod 2 ^ w.
Proof.
  intros Hv Hlo Hw. rewrite Z.shiftr_land, Z.shiftr_shiftl_l by lia. rewrite Z.sub_diag.
  rewrite Z.shiftl_0_r, Z.land_ones by lia.
  by rewrite Z.shiftr_div_pow2.
Qed.

Lemma VA_PARTS va :
  0 <= va ->
  VA_PART0 va = (va / 2 ^ 39) mod 512 /\ VA_PART1 va = (va / 2 ^ 30) mod 512 /\
  VA_PART2 va = (va / 2 ^ 21) mod 512 /\ VA_PART3 va = (va / 2 ^ 12) mod 512 /\ VA_OFFSET va = va mod 4096.
Proof.
  intros Hv. split_and!.
  - exact (land_field va 39 9 Hv ltac:(lia) ltac:(lia)).
  - exact (land_field va 30 9 Hv ltac:(lia) ltac:(lia)).
  - exact (land_field va 21 9 Hv ltac:(lia) ltac:(lia)).
  - exact (land_field va 12 9 Hv ltac:(lia) ltac:(lia)).
  - exact (Z.land_ones va 12 ltac:(lia)).
Qed.

Lemma VA_PART_range va :
  0 <= va -> 0 <= VA_PART0 va < 512 /\ 0 <= VA_PART1 va < 512 /\ 0 <= VA_PART2 va < 512 /\ 0 <= VA_PART3 va < 512.
Proof.
  intros Hv. destruct (VA_PARTS va Hv) as (-> & -> & -> & -> & _).
  split_and!; try apply Z.mod_pos_bound; lia.
Qed.

(** Two addresses of one page have the same indices, and conversely (below 2^48). *)
Lemma VA_PARTS_inj va va' :
  0 <= va < 2 ^ 48 -> 0 <= va' < 2 ^ 48 ->
  VA_PART0 va = VA_PART0 va' -> VA_PART1 va = VA_PART1 va' -> VA_PART2 va = VA_PART2 va' ->
  VA_PART3 va = VA_PART3 va' -> va / 4096 = va' / 4096.
Proof.
  intros Hv Hv'. destruct (VA_PARTS va) as (-> & -> & -> & -> & _); [lia|].
  destruct (VA_PARTS va') as (-> & -> & -> & -> & _); [lia|].
  assert (forall v, 0 <= v < 2 ^ 48 -> v / 4096 =
    (((v / 2 ^ 39) mod 512 * 512 + (v / 2 ^ 30) mod 512) * 512 + (v / 2 ^ 21) mod 512) * 512 + (v / 2 ^ 12) mod 512) as E.
  { intros v Hr. change 4096 with (2 ^ 12).
    replace (v / 2 ^ 39) with (v / 2 ^ 12 / 512 / 512 / 512) by (rewrite !Z.div_div by lia; done).
    replace (v / 2 ^ 30) with (v / 2 ^ 12 / 512 / 512) by (rewrite !Z.div_div by lia; done).
    replace (v / 2 ^ 21) with (v / 2 ^ 12 / 512) by (rewrite !Z.div_div by lia; done).
    assert (0 <= v / 2 ^ 12 < 2 ^ 36) as Hb by (split; [apply Z.div_pos; lia|apply Z.div_lt_upper_bound; lia]).
    set (x := v / 2 ^ 12) in *. clearbody x.
    pose proof (Z.div_mod x 512). pose proof (Z.div_mod (x / 512) 512). pose proof (Z.div_mod (x / 512 / 512) 512).
    assert (0 <= x / 512 / 512 / 512 < 512) as Hs.
    { rewrite !Z.div_div by lia. split; [apply Z.div_pos; lia|apply Z.div_lt_upper_bound; lia]. }
    rewrite (Z.mod_small (x / 512 / 512 / 512)) by lia. lia. }
  intros E0 E1 E2 E3. rewrite (E va), (E va') by lia. congruence.
Qed.

(** A page below 2^48, by its physical address. *)
Definition page_at (pa : Z) : Prop := 0 <= pa < 2 ^ 48 /\ pa mod 4096 = 0.

Lemma PTE_ADDRESS_page pa f : page_at pa -> 0 <= f < 4096 -> PTE_ADDRESS (pa + f) = pa.
Proof.
  intros [Hp Hm] Hf. unfold PTE_ADDRESS.
  change 0x0000FFFFFFFFF000 with (Z.shiftl (Z.ones 36) 12).
  pose proof (land_field (pa + f) 12 36 ltac:(lia) ltac:(lia) ltac:(lia)) as E.
  assert (Z.land (pa + f) (Z.shiftl (Z.ones 36) 12) = (pa + f) / 2 ^ 12 * 2 ^ 12) as ->.
  { apply Z.bits_inj'. intros n Hn. rewrite Z.land_spec, Z.shiftl_spec by done.
    rewrite <- (Z.shiftl_mul_pow2 _ 12), <- (Z.shiftr_div_pow2 _ 12) by lia.
    rewrite Z.shiftl_spec by done. destruct (decide (n < 12)).
    - rewrite !(Z.testbit_neg_r _ (n - 12)) by lia. by rewrite andb_false_r.
    - rewrite Z.shiftr_spec by lia. replace (n - 12 + 12) with n by lia.
      destruct (decide (n < 48)).
      + rewrite Z.ones_spec_low by lia. by rewrite andb_true_r.
      + rewrite Z.ones_spec_high by lia. rewrite andb_false_r.
        symmetry. apply Z.bits_above_log2; [lia|].
        destruct (decide (pa + f = 0)) as [->|]; [simpl; lia|]. apply Z.log2_lt_pow2; [lia|].
        pose proof (Z.div_mod pa 4096). assert (2 ^ 48 <= 2 ^ n) by (apply Z.pow_le_mono_r; lia). lia. }
  change (2 ^ 12) with 4096. pose proof (Z.div_mod pa 4096).
  replace (pa + f) with (f + pa / 4096 * 4096) by lia. rewrite Z.div_add by lia.
  rewrite (Z.div_small f) by lia. lia.
Qed.

Lemma lor_low a f k : 0 <= k -> a mod 2 ^ k = 0 -> 0 <= f < 2 ^ k -> Z.lor a f = a + f.
Proof.
  intros Hk Ha Hf. rewrite <- Z.add_lor_land. enough (Z.land a f = 0) as -> by lia.
  apply Z.bits_inj'. intros n Hn. rewrite Z.land_spec, Z.bits_0.
  destruct (decide (n < k)).
  - rewrite <- (Z.mod_pow2_bits_low a k n) by lia. rewrite Ha. by rewrite Z.bits_0.
  - destruct (decide (f = 0)) as [->|]; [by rewrite Z.bits_0, andb_false_r|].
    rewrite (Z.bits_above_log2 f n), andb_false_r; [done|lia|].
    apply Z.log2_lt_pow2; [lia|]. assert (2 ^ k <= 2 ^ n) by (apply Z.pow_le_mono_r; lia). lia.
Qed.

(** An entry made of a page and flags in the low twelve bits. *)
Lemma table_entry pa f :
  page_at pa -> 0 <= f < 4096 -> PTE_ADDRESS (Z.lor pa f) = pa.
Proof.
  intros Hp Hf. rewrite (lor_low pa f 12) by (lia || apply Hp). by apply PTE_ADDRESS_page.
Qed.

Lemma is_valid_lor a f : is_valid f = true -> is_valid (Z.lor a f) = true.
Proof.
  unfold is_valid, PTE_VALID. rewrite !negb_true_iff, !Z.eqb_neq. intros Hf H. apply Hf.
  rewrite Z.land_lor_distr_l in H. apply Z.lor_eq_0_iff in H. tauto.
Qed.

Lemma P2K_K2P a : KSPACE_MASK <= a < 2 ^ 64 -> P2K (K2P a) = a.
Proof.
  unfold P2K, K2P, KSPACE_MASK, u64. intros Ha. rewrite (wrap_small 64 (a - _)) by lia.
  rewrite wrap_small; lia.
Qed.

(** ** The tree of tables *)

(** A kernel page: where [kalloc_page] finds its pages. *)
Definition kpage (t : Z) : Prop :=
  KSPACE_MASK <= t < 2 ^ 64 /\ page_at (K2P t) /\ 0 <= page_num t < PHYSTOP / PAGE_SIZE /\ t <> 0.

(** [T] gives the table of each path of indices from the root. *)
Record pt_ok (T : gmap (list Z) Z) (s : PtState) : Prop := {
  po_root : T !! [] = Some (pt_root s);
  po_inj : forall p q t, T !! p = Some t -> T !! q = Some t -> p = q;
  po_tab : forall p t, T !! p = Some t ->
    (length p <= 3)%nat /\ kpage t /\ exists l, pt_tabs s !! t = Some l /\ length l = 512%nat;
  po_child : forall p t l i e, T !! p = Some t -> pt_tabs s !! t = Some l -> (length p < 3)%nat ->
    0 <= i < 512 -> l !! Z.to_nat i = Some e ->
    T !! (p ++ [i]) = if is_valid e then Some (P2K (PTE_ADDRESS e)) else None;
  po_prefix : forall p i t, T !! (p ++ [i]) = Some t -> 0 <= i < 512 /\ is_Some (T !! p);
  po_free : NoDup (m_nodes (pt_mem s)) /\
    forall q, q ∈ m_nodes (pt_mem s) -> kpage q /\ forall p, T !! p <> Some q;
}.

Lemma po_root_nonzero T s : pt_ok T s -> pt_root s <> 0.
Proof. intros H. destruct (po_tab _ _ H [] _ (po_root _ _ H)) as (_ & (_ & _ & _ & ?) & _). done. Qed.

(** A table read through [pte_get]. *)
Lemma po_entry T s p t i :
  pt_ok T s -> T !! p = Some t -> 0 <= i < 512 ->
  exists l e, pt_tabs s !! t = Some l /\ length l = 512%nat /\ l !! Z.to_nat i = Some e.
Proof.
  intros H Ht Hi. destruct (po_tab _ _ H p t Ht) as (_ & _ & l & El & Hl).
  destruct (lookup_lt_is_Some_2 l (Z.to_nat i)) as [e Ee]; [lia|]. eauto.
Qed.

Lemma wp_pte_get s t i l e Q :
  pt_tabs s !! t = Some l -> l !! Z.to_nat i = Some e -> Q e s -> wp (pte_get t i) Q s.
Proof.
  intros E1 E2 HQ. unfold pte_get. wp_step. apply wp_get_state. wp_step.
  eapply wp_deref; [exact E1|]. by eapply wp_deref.
Qed.

Lemma wp_pte_set s t i v l e Q :
  pt_tabs s !! t = Some l -> l !! Z.to_nat i = Some e ->
  Q tt (mkPt (pt_mem s) (<[t := <[Z.to_nat i := v]> l]> (pt_tabs s)) (pt_root s)) ->
  wp (pte_set t i v) Q s.
Proof.
  intros E1 E2 HQ. unfold pte_set. wp_step. apply wp_get_state. wp_step.
  eapply wp_deref; [exact E1|]. wp_step. eapply wp_deref; [exact E2|]. by wp_step.
Qed.

Lemma wp_on_mem {A} (c : M Mem A) s Q :
  wp c (fun a m => Q a (mkPt m (pt_tabs s) (pt_root s))) (pt_mem s) -> wp (on_mem c) Q s.
Proof. unfold wp, on_mem. by destruct (c (pt_mem s)). Qed.

Lemma wp_new_table s q ps Q :
  m_nodes (pt_mem s) = q :: ps -> kpage q ->
  (forall m, m_nodes m = ps ->
     Q q (mkPt m (<[q := empty_table]> (pt_tabs s)) (pt_root s))) ->
  wp new_table Q s.
Proof.
  intros E (_ & _ & Hq & _) HQ. unfold new_table. wp_step. apply wp_on_mem.
  eapply wp_kalloc_page_raw; [exact E|done|]. wp_step. wp_step. wp_step. by apply HQ.
Qed.

Lemma empty_table_lookup i e : empty_table !! i = Some e -> e = 0.
Proof. unfold empty_table. by intros [-> _]%lookup_replicate. Qed.

(** The path [p ++ [i]] gets the fresh table [q]. *)
Lemma pt_ok_grow T s p t l i e q ps m :
  pt_ok T s -> T !! p = Some t -> (length p < 3)%nat -> 0 <= i < 512 ->
  pt_tabs s !! t = Some l -> l !! Z.to_nat i = Some e -> is_valid e = false ->
  m_nodes (pt_mem s) = q :: ps -> m_nodes m = ps ->
  pt_ok (<[p ++ [i] := q]> T)
    (mkPt m (<[t := <[Z.to_nat i := Z.lor (K2P q) PTE_TABLE]> l]> (<[q := empty_table]> (pt_tabs s))) (pt_root s)).
Proof.
  intros H Ht Hp Hi El Ee Hv Eq Em. pose proof (po_free _ _ H) as [Hnd Hfree]. rewrite Eq in Hnd, Hfree.
  apply NoDup_cons in Hnd as [Hqn Hnd]. destruct (Hfree q) as [Hkq Hnq]; [left|].
  pose proof (po_child _ _ H p t l i e Ht El Hp Hi Ee) as Hnone. rewrite Hv in Hnone.
  destruct (po_tab _ _ H p t Ht) as (_ & _ & l' & El' & Hlen). assert (l' = l) as -> by congruence.
  assert (t <> q) as Htq by (intros ->; by apply (Hnq p)).
  assert (p <> p ++ [i]) as Hne by (intros E; apply (f_equal length) in E; rewrite length_app in E; simpl in E; lia).
  split; simpl.
  - rewrite lookup_insert_ne; [apply H|]. by destruct p.
  - intros a b x Ha Hb. apply lookup_insert_Some in Ha as [[<- <-]|[Ha1 Ha]];
      apply lookup_insert_Some in Hb as [[<- Hx]|[Hb1 Hb]]; subst; try done.
    + by apply Hnq in Hb.
    + by apply Hnq in Ha.
    + by eapply po_inj.
  - intros a x Ha. apply lookup_insert_Some in Ha as [[<- <-]|[Ha1 Ha]].
    + split_and!; [rewrite length_app; simpl; lia|done|]. exists (empty_table).
      rewrite lookup_insert_ne by done. by rewrite lookup_insert_eq.
    + destruct (po_tab _ _ H a x Ha) as (La & Ka & k & Ek & Lk). split_and!; [done|done|].
      destruct (decide (x = t)) as [->|].
      * exists (<[Z.to_nat i := Z.lor (K2P q) PTE_TABLE]> l). rewrite lookup_insert_eq.
        split; [done|]. by rewrite length_insert.
      * exists k. rewrite !lookup_insert_ne; [done| |done]. intros ->. by apply Hnq in Ha.
  - intros a x k j f Ha Ek La Hj Ef. apply lookup_insert_Some in Ha as [[<- <-]|[Ha1 Ha]].
    + (* the new table is empty *)
      rewrite lookup_insert_ne, lookup_insert_eq in Ek by done. simplify_eq.
      apply empty_table_lookup in Ef as ->. change (is_valid 0) with false.
      rewrite lookup_insert_ne; [|intros E; apply (f_equal length) in E; rewrite !length_app in E; simpl in E; lia].
      destruct (T !! ((p ++ [i]) ++ [j])) as [z|] eqn:Ez; [|done].
      destruct (po_prefix _ _ H _ _ _ Ez) as [_ [? ?]]. congruence.
    + assert (x <> q) as Hxq by (intros ->; by apply Hnq in Ha).
      destruct (decide (x = t)) as [->|Hxt].
      * assert (a = p) as -> by (by eapply po_inj). rewrite lookup_insert_eq in Ek. simplify_eq.
        destruct (decide (j = i)) as [->|Hji].
        { rewrite list_lookup_insert_eq in Ef by lia. simplify_eq. rewrite lookup_insert_eq.
          rewrite is_valid_lor by done. destruct Hkq as (Hr & Hpg & _). rewrite table_entry by (done || lia).
          by rewrite P2K_K2P. }
        rewrite list_lookup_insert_ne in Ef by lia.
        rewrite lookup_insert_ne by (intros E%app_inj_2; [naive_solver|done]).
        by eapply po_child.
      * rewrite !lookup_insert_ne in Ek by done.
        rewrite lookup_insert_ne. { by eapply po_child. }
        intros [E _]%app_inj_2; [|done]. subst a. congruence.
  - intros a j x. rewrite lookup_insert_Some. intros [[E%app_inj_2 _]|[_ Hx]]; [|done|].
    + destruct E as [<- E]. injection E as <-. split; [done|]. rewrite lookup_insert_ne by done. eauto.
    + destruct (po_prefix _ _ H _ _ _ Hx) as [? [y Ey]]. split; [done|].
      destruct (decide (p ++ [i] = a)) as [<-|]; [rewrite lookup_insert_eq; eauto|rewrite lookup_insert_ne by done; eauto].
  - rewrite Em. split; [done|]. intros y Hy. destruct (Hfree y) as [Hky Hny]; [by right|].
    split; [done|]. intros a. rewrite lookup_insert_Some. intros [[_ ->]|[_ Ha]]; [done|by apply (Hny a)].
Qed.

(** ** Growing the tree *)

(** At most [n] free pages have become tables; last-level tables that existed
    keep their entries, and new ones are empty. *)
Record grows (n : nat) (T : gmap (list Z) Z) (s : PtState) (T' : gmap (list Z) Z) (s' : PtState) : Prop := {
  g_tree : T ⊆ T';
  g_root : pt_root s' = pt_root s;
  g_leaf : forall p t, length p = 3%nat -> T' !! p = Some t ->
    (T !! p = Some t /\ pt_tabs s' !! t = pt_tabs s !! t) \/
    (T !! p = None /\ pt_tabs s' !! t = Some empty_table);
  g_nodes : exists used, m_nodes (pt_mem s) = used ++ m_nodes (pt_mem s') /\ (length used <= n)%nat;
  g_ref : forall i, (forall q, q ∈ m_nodes (pt_mem s) -> page_num q <> i) ->
    m_ref (pt_mem s') !! i = m_ref (pt_mem s) !! i;
  g_new : forall p t, T' !! p = Some t -> T !! p = Some t \/ t ∈ m_nodes (pt_mem s);
  g_frame : forall x, (forall p, T' !! p <> Some x) -> pt_tabs s' !! x = pt_tabs s !! x;
}.

Lemma grows_refl n T s : grows n T s T s.
Proof. split; [done|done|eauto| |done|eauto|done]. exists []. simpl. split; [done|lia]. Qed.

Lemma grows_trans n1 n2 T s T1 s1 T2 s2 :
  grows n1 T s T1 s1 -> grows n2 T1 s1 T2 s2 -> grows (n1 + n2) T s T2 s2.
Proof.
  intros A B. destruct (g_nodes _ _ _ _ _ A) as (u1 & E1 & L1). destruct (g_nodes _ _ _ _ _ B) as (u2 & E2 & L2).
  split.
  - etrans; [apply A|apply B].
  - etrans; [apply B|apply A].
  - intros p t Hp Ht. destruct (g_leaf _ _ _ _ _ B p t Hp Ht) as [[H1 E]|[H1 E]].
    + rewrite E. by apply A.
    + right. split; [|done]. destruct (T !! p) as [x|] eqn:Ex; [|done].
      pose proof (lookup_weaken _ _ _ _ Ex (g_tree _ _ _ _ _ A)). congruence.
  - exists (u1 ++ u2). rewrite E1, E2, app_assoc, length_app. split; [done|lia].
  - intros i Hi. rewrite (g_ref _ _ _ _ _ B); [by apply A|].
    intros q Hq. apply Hi. rewrite E1. apply elem_of_app. by right.
  - intros p t Ht. destruct (g_new _ _ _ _ _ B p t Ht) as [H1|H1]; [by apply A|right]. rewrite E1. apply elem_of_app. by right.
  - intros x Hx. rewrite (g_frame _ _ _ _ _ B) by done. apply A. intros p Hp. apply (Hx p). eapply lookup_weaken; [exact Hp|apply B].
Qed.

Lemma wp_next_table T s p t i :
  pt_ok T s -> T !! p = Some t -> (length p < 3)%nat -> 0 <= i < 512 -> m_nodes (pt_mem s) <> [] ->
  wp (next_table true t i) (fun r s' => exists T' t', r = Some t' /\ pt_ok T' s' /\
    T' !! (p ++ [i]) = Some t' /\ grows 1 T s T' s') s.
Proof.
  intros H Ht Hp Hi Hn. destruct (po_entry T s p t i H Ht Hi) as (l & e & El & Hl & Ee).
  pose proof (po_child _ _ H p t l i e Ht El Hp Hi Ee) as Hc.
  unfold next_table. wp_step. eapply wp_pte_get; [exact El|exact Ee|].
  destruct (is_valid e) eqn:Ev.
  { wp_step. exists T, (P2K (PTE_ADDRESS e)). split_and!; [done|done|done|apply grows_refl]. }
  destruct (m_nodes (pt_mem s)) as [|q ps] eqn:En; [done|].
  pose proof (po_free _ _ H) as [_ Hf]. rewrite En in Hf. destruct (Hf q) as [Kq Nq]; [left|].
  assert (q <> t) as Hqt by (intros ->; by apply (Nq p)).
  wp_step. unfold new_table. wp_step. apply wp_on_mem. eapply wp_kalloc_page_raw; [exact En|apply Kq|].
  wp_step. wp_step. apply wp_ret. apply wp_bind. eapply (wp_pte_set _ t i _ l e); [|exact Ee|].
  { simpl. by rewrite lookup_insert_ne. }
  wp_step. eexists (<[p ++ [i] := q]> T), q. split_and!; [done| |apply lookup_insert_eq|].
  { simpl. by eapply pt_ok_grow. }
  split; simpl; [by apply insert_subseteq|done| |by exists [q]| | |].
  - intros a x La Ha. apply lookup_insert_Some in Ha as [[<- <-]|[Hne Ha]].
    + right. split; [done|]. rewrite lookup_insert_ne by done. apply lookup_insert_eq.
    + left. split; [done|]. rewrite !lookup_insert_ne; [done| |].
      * intros ->. by apply (Nq a).
      * intros <-. assert (a = p) as -> by (by eapply po_inj). lia.
  - intros j Hj. apply lookup_insert_ne. apply Hj. rewrite En. left.
  - intros a x [[<- <-]|[_ Ha]]%lookup_insert_Some; [right; rewrite En; left|by left].
  - intros x Hx. rewrite !lookup_insert_ne; [done| |].
    + intros <-. apply (Hx (p ++ [i])). apply lookup_insert_eq.
    + intros <-. apply (Hx p). rewrite lookup_insert_ne; [done|]. intros E. apply (f_equal length) in E. rewrite length_app in E. simpl in E. lia.
Qed.

(** The path of the last-level table of an address. *)
Definition path_of (va : Z) : list Z := [VA_PART0 va; VA_PART1 va; VA_PART2 va].

Lemma grows_nonempty n k T s T' s' :
  grows n T s T' s' -> (n + k < length (m_nodes (pt_mem s)))%nat -> (k < length (m_nodes (pt_mem s')))%nat.
Proof. intros [_ _ _ (u & E & L) _]. rewrite E, length_app. lia. Qed.

Lemma wp_get_pte T s va :
  pt_ok T s -> 0 <= va -> (3 <= length (m_nodes (pt_mem s)))%nat ->
  wp (get_pte va true) (fun r s' => exists T' t, r = Some (t, VA_PART3 va) /\ pt_ok T' s' /\
    T' !! path_of va = Some t /\ grows 3 T s T' s') s.
Proof.
  intros H Hv Hn. destruct (VA_PART_range va Hv) as (R0 & R1 & R2 & _).
  unfold get_pte. wp_step. apply wp_get_state.
  rewrite (proj2 (Z.eqb_neq _ _) (po_root_nonzero _ _ H)). apply wp_bind, wp_ret. cbn iota.
  apply wp_bind, wp_get_state. apply wp_bind. eapply wp_mono.
  { apply (wp_next_table T s [] _ _ H (po_root _ _ H)); [simpl; lia|done|]. by destruct (m_nodes (pt_mem s)); simpl in *; [lia|]. }
  simpl. intros r s1 (T1 & t1 & -> & H1 & L1 & G1). pose proof (grows_nonempty 1 1 _ _ _ _ G1 ltac:(lia)) as N1.
  apply wp_bind. eapply wp_mono.
  { apply (wp_next_table T1 s1 _ _ _ H1 L1); [simpl; lia|done|]. by destruct (m_nodes (pt_mem s1)); simpl in *; [lia|]. }
  simpl. intros r s2 (T2 & t2 & -> & H2 & L2 & G2). pose proof (grows_nonempty 1 0 _ _ _ _ G2 ltac:(lia)) as N2.
  apply wp_bind. eapply wp_mono.
  { apply (wp_next_table T2 s2 _ _ _ H2 L2); [simpl; lia|done|]. by destruct (m_nodes (pt_mem s2)); simpl in *; [lia|]. }
  simpl. intros r s3 (T3 & t3 & -> & H3 & L3 & G3). wp_step. exists T3, t3. split_and!; [done|done|done|].
  exact (grows_trans 1 2 _ _ _ _ _ _ G1 (grows_trans 1 1 _ _ _ _ _ _ G2 G3)).
Qed.

(** ** What the mmu sees *)

Lemma walk_level_tree T s p t i :
  pt_ok T s -> T !! p = Some t -> (length p < 3)%nat -> 0 <= i < 512 ->
  walk_level (pt_tabs s) t i = T !! (p ++ [i]).
Proof.
  intros H Ht Hp Hi. destruct (po_entry T s p t i H Ht Hi) as (l & e & El & _ & Ee).
  unfold walk_level. rewrite El. simpl. rewrite Ee. simpl. by rewrite (po_child _ _ H p t l i e).
Qed.

(** A path that has no table has no table below it. *)
Lemma po_closed T s p i : pt_ok T s -> T !! p = None -> T !! (p ++ [i]) = None.
Proof.
  intros H Hn. destruct (T !! (p ++ [i])) eqn:E; [|done]. apply (po_prefix _ _ H) in E as [_ [? ?]]. congruence.
Qed.

Lemma find_entry_tree T s va :
  pt_ok T s -> 0 <= va ->
  find_entry s va = t ← T !! path_of va; l ← pt_tabs s !! t; l !! Z.to_nat (VA_PART3 va).
Proof.
  intros H Hv. destruct (VA_PART_range va Hv) as (R0 & R1 & R2 & _). unfold find_entry, path_of.
  rewrite (walk_level_tree T s [] _ _ H (po_root _ _ H)) by (simpl; lia). simpl.
  destruct (T !! [VA_PART0 va]) as [t1|] eqn:E1; simpl.
  2:{ pose proof (po_closed T s _ (VA_PART1 va) H E1) as E2. simpl in E2.
      pose proof (po_closed T s _ (VA_PART2 va) H E2) as E3. simpl in E3. by rewrite E3. }
  rewrite (walk_level_tree T s _ _ _ H E1) by (simpl; lia). simpl.
  destruct (T !! [VA_PART0 va; VA_PART1 va]) as [t2|] eqn:E2; simpl.
  2:{ pose proof (po_closed T s _ (VA_PART2 va) H E2) as E3. simpl in E3. by rewrite E3. }
  by rewrite (walk_level_tree T s _ _ _ H E2) by (simpl; lia).
Qed.

Lemma find_entry_grows n T s T' s' va e :
  pt_ok T s -> pt_ok T' s' -> grows n T s T' s' -> 0 <= va -> find_entry s va = Some e -> find_entry s' va = Some e.
Proof.
  intros H H' G Hv. rewrite (find_entry_tree T s va H Hv), (find_entry_tree T' s' va H' Hv). destruct (T !! path_of va) as [t|] eqn:E; [|done].
  pose proof (lookup_weaken _ _ _ _ E (g_tree _ _ _ _ _ G)) as E'. rewrite E'. destruct (g_leaf _ _ _ _ _ G (path_of va) t eq_refl E') as [[_ E2]|[E2 _]]; [simpl; by rewrite E2|congruence].
Qed.

Lemma translate_grows n T s T' s' va :
  pt_ok T s -> pt_ok T' s' -> grows n T s T' s' -> 0 <= va -> translate s' va = translate s va.
Proof.
  intros H H' G Hv. unfold translate. rewrite (find_entry_tree T s va H Hv), (find_entry_tree T' s' va H' Hv).
  destruct (T' !! path_of va) as [t|] eqn:E'.
  - destruct (g_leaf _ _ _ _ _ G (path_of va) t eq_refl E') as [[E Et]|[E Et]]; rewrite E; simpl; rewrite Et; [done|].
    simpl. destruct (empty_table !! Z.to_nat (VA_PART3 va)) eqn:Ee; [|done].
    by apply empty_table_lookup in Ee as ->.
  - destruct (T !! path_of va) as [t|] eqn:E; [|done].
    pose proof (lookup_weaken _ _ _ _ E (g_tree _ _ _ _ _ G)). congruence.
Qed.

(** Writing a last-level entry keeps the tree. *)
Lemma pt_ok_leaf T s p t l i v :
  pt_ok T s -> T !! p = Some t -> length p = 3%nat -> pt_tabs s !! t = Some l ->
  pt_ok T (mkPt (pt_mem s) (<[t := <[i := v]> l]> (pt_tabs s)) (pt_root s)).
Proof.
  intros H Ht Hp El. destruct (po_tab _ _ H p t Ht) as (_ & _ & l0 & El0 & Hl0). assert (l0 = l) as -> by congruence.
  split; simpl; try apply H.
  - intros a x Ha. destruct (po_tab _ _ H a x Ha) as (La & Ka & k & Ek & Lk). split_and!; [done|done|].
    destruct (decide (x = t)) as [->|].
    + exists (<[i := v]> l). by rewrite lookup_insert_eq, length_insert.
    + exists k. by rewrite lookup_insert_ne.
  - intros a x k j e Ha Ek La. rewrite lookup_insert_ne in Ek; [by intros; eapply (po_child _ _ H)|].
    intros <-. assert (a = p) as -> by (by eapply po_inj). lia.
Qed.

Lemma pt_ok_mem T s m :
  pt_ok T s -> m_nodes m = m_nodes (pt_mem s) -> pt_ok T (mkPt m (pt_tabs s) (pt_root s)).
Proof. intros H E. split; simpl; try apply H. rewrite E. apply H. Qed.

(** A change that leaves the tables of the tree alone. *)
Lemma pt_ok_frame T s s' u :
  pt_ok T s -> (forall p t, T !! p = Some t -> pt_tabs s' !! t = pt_tabs s !! t) -> pt_root s' = pt_root s ->
  m_nodes (pt_mem s) = u ++ m_nodes (pt_mem s') -> pt_ok T s'.
Proof.
  intros [H1 H2 H3 H4 H5 [H6 H7]] Ht Er En. rewrite En in H6, H7. split; try done.
  - by rewrite Er.
  - intros p t E. rewrite (Ht p t E). by apply H3.
  - intros p t l i e E El. rewrite (Ht p t E) in El. by apply (H4 p t l i e).
  - split; [by apply NoDup_app in H6 as (_ & _ & ?)|]. intros q Hq. apply H7. apply elem_of_app. by right.
Qed.

Lemma page_num_inj a b : kpage a -> kpage b -> page_num a = page_num b -> a = b.
Proof.
  intros (Ra & (_ & Aa) & _) (Rb & (_ & Ab) & _). unfold page_num, PAGE_SIZE. intros E.
  rewrite <- (P2K_K2P a), <- (P2K_K2P b) by done. f_equal.
  pose proof (Z.div_mod (K2P a) 4096). pose proof (Z.div_mod (K2P b) 4096). lia.
Qed.

Lemma PTE_ADDRESS_lor pa f : page_at pa -> PTE_ADDRESS f = 0 -> PTE_ADDRESS (Z.lor pa f) = pa.
Proof.
  intros Hp Hf. pose proof (PTE_ADDRESS_page pa 0 Hp ltac:(lia)) as E. rewrite Z.add_0_r in E.
  unfold PTE_ADDRESS in *. rewrite Z.land_lor_distr_l, E, Hf. apply Z.lor_0_r.
Qed.

Lemma wp_ref_get i s Q :
  0 <= i < PHYSTOP / PAGE_SIZE -> Q (default 0 (m_ref s !! i)) s -> wp (ref_get i) Q s.
Proof.
  intros Hi HQ. unfold ref_get, ref_index. rewrite (proj2 (Z.leb_le 0 _)), (proj2 (Z.ltb_lt _ _)) by lia. done.
Qed.

Lemma wp_ref_set i v s Q :
  0 <= i < PHYSTOP / PAGE_SIZE -> Q tt (set_ref (<[i := v]> (m_ref s)) s) -> wp (ref_set i v) Q s.
Proof.
  intros Hi HQ. unfold ref_set, ref_index. rewrite (proj2 (Z.leb_le 0 _)), (proj2 (Z.ltb_lt _ _)) by lia. done.
Qed.

(** ** Mapping a page *)

(** The entry of [va] holds [v]; every other entry is as before. *)
Lemma find_entry_leaf T s va t l v va' :
  pt_ok T s -> T !! path_of va = Some t -> pt_tabs s !! t = Some l ->
  0 <= va < 2 ^ 48 -> 0 <= va' < 2 ^ 48 ->
  find_entry (mkPt (pt_mem s) (<[t := <[Z.to_nat (VA_PART3 va) := v]> l]> (pt_tabs s)) (pt_root s)) va' =
  if va' / 4096 =? va / 4096 then Some v else find_entry s va'.
Proof.
  intros H Ht El Hv Hv'. pose proof (pt_ok_leaf T s _ t l (Z.to_nat (VA_PART3 va)) v H Ht eq_refl El) as H'.
  rewrite (find_entry_tree T _ va' H'), (find_entry_tree T s va' H) by lia. simpl.
  destruct (po_tab _ _ H _ _ Ht) as (_ & _ & l0 & El0 & Hl). assert (l0 = l) as -> by congruence.
  pose proof (VA_PART_range va ltac:(lia)) as (_ & _ & _ & R3). pose proof (VA_PART_range va' ltac:(lia)) as (_ & _ & _ & R3').
  destruct (Z.eqb_spec (va' / 4096) (va / 4096)) as [E|E].
  - assert (path_of va' = path_of va /\ VA_PART3 va' = VA_PART3 va) as [-> ->].
    { unfold path_of. destruct (VA_PARTS va) as (-> & -> & -> & -> & _); [lia|].
      destruct (VA_PARTS va') as (-> & -> & -> & -> & _); [lia|].
      change (2 ^ 39) with (4096 * 2 ^ 27). change (2 ^ 30) with (4096 * 2 ^ 18).
      change (2 ^ 21) with (4096 * 2 ^ 9). change (2 ^ 12) with 4096. rewrite <- !Z.div_div by lia. by rewrite E. }
    rewrite Ht. simpl. rewrite lookup_insert_eq. simpl. apply list_lookup_insert_eq. lia.
  - destruct (T !! path_of va') as [t'|] eqn:E'; [|done]. simpl.
    destruct (decide (t' = t)) as [->|]; [|by rewrite lookup_insert_ne].
    assert (path_of va' = path_of va) as Ep by (by eapply po_inj). rewrite lookup_insert_eq, El. simpl.
    apply list_lookup_insert_ne. intros E3. apply E. injection Ep as P0 P1 P2. apply VA_PARTS_inj; try done.
    apply Z2Nat.inj; lia.
Qed.

Lemma insert_insert_tab (m : gmap Z (list Z)) t i u v (l : list Z) :
  <[t := <[i := v]> (<[i := u]> l)]> (<[t := <[i := u]> l]> m) = <[t := <[i := v]> l]> m.
Proof. by rewrite insert_insert_eq, list_insert_insert_eq. Qed.

(** What [vmmap] does: the last-level table [t] of [va], with entries [l], is
    in the tree, which has grown by free pages. *)
Record vmmapped (T : gmap (list Z) Z) (s : PtState) (va q flags : Z) (T' : gmap (list Z) Z) (t : Z) (l : list Z) (s' : PtState) : Prop := {
  vm_ok : pt_ok T' s';
  vm_tree : T ⊆ T';
  vm_table : T' !! path_of va = Some t;
  vm_entries : pt_tabs s' !! t = Some l;
  vm_entry : l !! Z.to_nat (VA_PART3 va) = Some (Z.lor (K2P q) flags);
  vm_translate : forall va', 0 <= va' < 2 ^ 48 -> translate s' va' =
       if va' / 4096 =? va / 4096 then Some (K2P q + VA_OFFSET va') else translate s va';
  vm_others : forall va' e, 0 <= va' < 2 ^ 48 -> va' / 4096 <> va / 4096 -> find_entry s va' = Some e -> find_entry s' va' = Some e;
  vm_nodes : exists u, m_nodes (pt_mem s) = u ++ m_nodes (pt_mem s') /\ (length u <= 3)%nat;
  vm_new : forall p t, T' !! p = Some t -> T !! p = Some t \/ t ∈ m_nodes (pt_mem s);
  vm_frame : forall x, (forall p, T' !! p <> Some x) -> pt_tabs s' !! x = pt_tabs s !! x;
  vm_root : pt_root s' = pt_root s;
  vm_refs : forall i, i <> page_num q -> (forall x, x ∈ m_nodes (pt_mem s) -> page_num x <> i) -> m_ref (pt_mem s') !! i = m_ref (pt_mem s) !! i;
  vm_ref : m_ref (pt_mem s') !! page_num q = Some (default 0 (m_ref (pt_mem s) !! page_num q) + 1);
}.

Lemma wp_vmmap T s va ka flags :
  pt_ok T s -> 0 <= va < 2 ^ 48 -> (3 <= length (m_nodes (pt_mem s)))%nat ->
  kpage (PAGE_BASE ka) -> PAGE_BASE ka ∉ m_nodes (pt_mem s) -> PTE_ADDRESS flags = 0 -> is_valid flags = true ->
  wp (vmmap va ka flags) (fun _ s' => exists T' t l, vmmapped T s va (PAGE_BASE ka) flags T' t l s') s.
Proof.
  intros H Hv Hn Hk Hf Hfl Hval. unfold vmmap. apply wp_bind. eapply wp_mono; [apply (wp_get_pte T s va H); lia|].
  intros r s1 (T1 & t & -> & H1 & Ht & G). simpl. apply wp_bind. eapply wp_deref; [done|]. cbn zeta. simpl fst. simpl snd.
  pose proof (VA_PART_range va ltac:(lia)) as (_ & _ & _ & R3).
  destruct (po_entry T1 s1 _ t _ H1 Ht R3) as (l & e & El & Hl & Ee).
  set (ka0 := PAGE_BASE ka) in *.
  apply wp_bind. eapply wp_pte_set; [exact El|exact Ee|]. apply wp_bind. eapply wp_pte_get; [simpl; apply lookup_insert_eq| |].
  { apply list_lookup_insert_eq. lia. }
  apply wp_bind. eapply wp_pte_set; [simpl; apply lookup_insert_eq|apply list_lookup_insert_eq; lia|]. simpl.
  rewrite insert_insert_tab. destruct Hk as (Kr & Kp & Kn & Kz).
  apply wp_bind, wp_on_mem. apply wp_ref_get; [done|]. apply wp_on_mem. apply wp_ref_set; [done|]. simpl.
  pose proof (pt_ok_leaf T1 s1 _ t l (Z.to_nat (VA_PART3 va)) (Z.lor (K2P ka0) flags) H1 Ht eq_refl El) as H2.
  exists T1, t, (<[Z.to_nat (VA_PART3 va) := Z.lor (K2P ka0) flags]> l). split.
  - by apply (pt_ok_mem T1 _ _ H2).
  - apply G.
  - done.
  - apply lookup_insert_eq.
  - apply list_lookup_insert_eq. lia.
  - intros va' Hv'. rewrite <- (translate_grows _ T s T1 s1 va' H H1 G) by lia. unfold translate.
    change (find_entry _ va') with (find_entry (mkPt (pt_mem s1)
      (<[t:=<[Z.to_nat (VA_PART3 va):=Z.lor (K2P ka0) flags]> l]> (pt_tabs s1)) (pt_root s1)) va') at 1.
    rewrite (find_entry_leaf T1 s1 va t l _ va' H1 Ht El Hv Hv'). destruct (va' / 4096 =? va / 4096); [|done]. simpl.
    by rewrite is_valid_lor, PTE_ADDRESS_lor.
  - intros va' e' Hv' Hne Ee'. change (find_entry _ va') with (find_entry (mkPt (pt_mem s1)
      (<[t:=<[Z.to_nat (VA_PART3 va):=Z.lor (K2P ka0) flags]> l]> (pt_tabs s1)) (pt_root s1)) va').
    rewrite (find_entry_leaf T1 s1 va t l _ va' H1 Ht El Hv Hv'), (proj2 (Z.eqb_neq _ _) Hne). apply (find_entry_grows 3 T s T1); try done; lia.
  - apply (g_nodes _ _ _ _ _ G).
  - apply (g_new _ _ _ _ _ G).
  - intros x Hx. simpl. rewrite lookup_insert_ne by (intros <-; by apply (Hx (path_of va))). by apply (g_frame _ _ _ _ _ G).
  - apply (g_root _ _ _ _ _ G).
  - intros i Hi Hq. simpl. rewrite lookup_insert_ne by done. by apply (g_ref _ _ _ _ _ G).
  - simpl. rewrite lookup_insert_eq, (g_ref _ _ _ _ _ G); [done|]. intros q Hq E. apply Hf.
    destruct (po_free _ _ H) as [_ Hfr]. destruct (Hfr q Hq) as [Kq _].
    by rewrite (page_num_inj ka0 q).
Qed.

(** C21: [vmmap] maps the page of [va] to the physical page of [ka] and counts
    one more reference to it; every other address of the 48-bit space is
    translated as before, and the tables stay a tree. It needs at most three
    free pages. *)
Theorem vmmap_translate T s va ka flags :
  pt_ok T s -> 0 <= va < 2 ^ 48 -> (3 <= length (m_nodes (pt_mem s)))%nat ->
  kpage (PAGE_BASE ka) -> PAGE_BASE ka ∉ m_nodes (pt_mem s) -> PTE_ADDRESS flags = 0 -> is_valid flags = true ->
  wp (vmmap va ka flags) (fun _ s' =>
    (exists T', pt_ok T' s' /\ T ⊆ T') /\
    (forall va', 0 <= va' < 2 ^ 48 -> translate s' va' =
       if va' / 4096 =? va / 4096 then Some (K2P (PAGE_BASE ka) + VA_OFFSET va') else translate s va') /\
    let n := page_num (PAGE_BASE ka) in
    m_ref (pt_mem s') !! n = Some (default 0 (m_ref (pt_mem s) !! n) + 1)) s.
Proof.
  intros. eapply wp_mono; [by apply (wp_vmmap T)|]. intros _ s' (T' & t & l & []). split_and!; try done. by exists T'.
Qed.

(** [get_pte] without [alloc] only looks. *)
Lemma next_table_lookup T s p t i :
  pt_ok T s -> T !! p = Some t -> (length p < 3)%nat -> 0 <= i < 512 ->
  next_table false t i s = Done (T !! (p ++ [i])) s.
Proof.
  intros H Ht Hp Hi. destruct (po_entry T s p t i H Ht Hi) as (l & e & El & _ & Ee).
  rewrite (po_child _ _ H p t l i e) by done.
  unfold next_table, pte_get, mbind, M_bind, get_state, deref. rewrite El, Ee. by destruct (is_valid e).
Qed.

(** Nor does it with [alloc] when the tables are there. *)
Lemma next_table_present T s p t i t' alloc :
  pt_ok T s -> T !! p = Some t -> (length p < 3)%nat -> 0 <= i < 512 -> T !! (p ++ [i]) = Some t' ->
  next_table alloc t i s = Done (Some t') s.
Proof.
  intros H Ht Hp Hi Ht'. destruct (po_entry T s p t i H Ht Hi) as (l & e & El & _ & Ee).
  rewrite (po_child _ _ H p t l i e) in Ht' by done. destruct (is_valid e) eqn:Ev; [|done]. injection Ht' as <-.
  unfold next_table, pte_get, mbind, M_bind, get_state, deref. by rewrite El, Ee, Ev.
Qed.

Lemma get_pte_present T s va t alloc :
  pt_ok T s -> 0 <= va -> T !! path_of va = Some t -> get_pte va alloc s = Done (Some (t, VA_PART3 va)) s.
Proof.
  intros H Hv Ht. destruct (VA_PART_range va Hv) as (R0 & R1 & R2 & R3). unfold path_of in Ht.
  destruct (po_prefix _ _ H [VA_PART0 va; VA_PART1 va] (VA_PART2 va) t Ht) as (_ & t2 & E2).
  destruct (po_prefix _ _ H [VA_PART0 va] (VA_PART1 va) t2 E2) as (_ & t1 & E1).
  unfold get_pte. erewrite bind_eq by done. cbn beta. rewrite (proj2 (Z.eqb_neq _ _) (po_root_nonzero _ _ H)).
  erewrite bind_eq by done. cbn beta iota. erewrite bind_eq by done. cbn beta.
  erewrite bind_eq by (eapply (next_table_present T s [] _ _ t1 _ H (po_root _ _ H)); simpl; try lia; done). cbn beta iota.
  erewrite bind_eq by (eapply (next_table_present T s [VA_PART0 va] _ _ t2 _ H E1); simpl; try lia; done). cbn beta iota.
  erewrite bind_eq by (eapply (next_table_present T s [VA_PART0 va; VA_PART1 va] _ _ t _ H E2); simpl; try lia; done). done.
Qed.

(** without [alloc], [get_pte] changes nothing, and finds an entry exactly
    when the three tables above it exist; with [alloc] it returns the entry
    the mmu reads, having turned at most three free pages into tables and
    changed no translation. *)
Theorem get_pte_spec T s va :
  pt_ok T s -> 0 <= va ->
  get_pte va false s = Done ((fun t => (t, VA_PART3 va)) <$> T !! path_of va) s /\
  ((3 <= length (m_nodes (pt_mem s)))%nat ->
   wp (get_pte va true) (fun r s' => exists T' t e, r = Some (t, VA_PART3 va) /\ pt_ok T' s' /\
     pte_get t (VA_PART3 va) s' = Done e s' /\ find_entry s' va = Some e /\
     (length (m_nodes (pt_mem s)) <= 3 + length (m_nodes (pt_mem s')))%nat /\
     forall va', 0 <= va' -> translate s' va' = translate s va') s).
Proof.
  intros H Hv. destruct (VA_PART_range va Hv) as (R0 & R1 & R2 & R3). split.
  - unfold get_pte, path_of. erewrite bind_eq by done. cbn beta.
    rewrite (proj2 (Z.eqb_neq _ _) (po_root_nonzero _ _ H)).
    erewrite bind_eq by done. cbn beta iota. erewrite bind_eq by done. cbn beta.
    erewrite bind_eq by (eapply (next_table_lookup T s [] _ _ H (po_root _ _ H)); simpl in *; lia). cbn [app].
    destruct (T !! [VA_PART0 va]) as [t1|] eqn:E1.
    2:{ pose proof (po_closed T s _ (VA_PART1 va) H E1) as E2. simpl in E2.
        pose proof (po_closed T s _ (VA_PART2 va) H E2) as E3. simpl in E3. by rewrite E3. }
    erewrite bind_eq by (apply (next_table_lookup T s _ _ _ H E1); simpl in *; lia). cbn [app].
    destruct (T !! [VA_PART0 va; VA_PART1 va]) as [t2|] eqn:E2.
    2:{ pose proof (po_closed T s _ (VA_PART2 va) H E2) as E3. simpl in E3. by rewrite E3. }
    erewrite bind_eq by (apply (next_table_lookup T s _ _ _ H E2); simpl in *; lia). cbn [app].
    by destruct (T !! [VA_PART0 va; VA_PART1 va; VA_PART2 va]).
  - intros Hn. eapply wp_mono; [apply (wp_get_pte T s va H Hv Hn)|].
    intros r s' (T' & t & -> & H' & Ht & G). destruct (po_entry T' s' _ t _ H' Ht R3) as (l & e & El & Hl & Ee).
    exists T', t, e. split_and!; [done|done| | | |].
    + unfold pte_get, mbind, M_bind, get_state, deref. by rewrite El, Ee.
    + rewrite (find_entry_tree T' s' va H' Hv), Ht. simpl. by rewrite El.
    + destruct (g_nodes _ _ _ _ _ G) as (u & -> & Hu). rewrite length_app. lia.
    + intros va' Hv'. by apply (translate_grows 3 T s T').
Qed.

(** ** Example: a fresh directory and four free pages *)

Definition example_pt : PtState :=
  mkPt (mkMem false [P2K 0x40101000; P2K 0x40102000; P2K 0x40103000; P2K 0x40104000] (replicate 256 []) ∅ ∅ 0 4 0)
       {[P2K 0x40100000 := empty_table]} (P2K 0x40100000).

Lemma example_pt_ok : pt_ok {[ [] := P2K 0x40100000 ]} example_pt.
Proof.
  split.
  - done.
  - intros p q t. rewrite !lookup_singleton_Some. naive_solver.
  - intros p t. rewrite lookup_singleton_Some. intros [<- <-]. split; [simpl; lia|]. split.
    { vm_compute. intuition discriminate. }
    by exists empty_table.
  - intros p t l i e. rewrite lookup_singleton_Some. intros [<- <-] E _ _ Ee.
    simpl in E. apply lookup_singleton_Some in E as [_ <-]. apply empty_table_lookup in Ee as ->. change (is_valid 0) with false. by rewrite lookup_singleton_ne.
  - intros p i t. rewrite lookup_singleton_Some. intros [E _]. by destruct p.
  - split.
    { apply (bool_decide_unpack _). vm_compute. exact I. }
    intros q Hq. simpl in Hq. rewrite !elem_of_cons, elem_of_nil in Hq.
    split; [destruct Hq as [->|[->|[->|[->|[]]]]]; vm_compute; intuition discriminate|].
    intros p. rewrite lookup_singleton_Some. intros [_ E].
    destruct Hq as [->|[->|[->|[->|[]]]]]; vm_compute in E; discriminate.
Qed.

Lemma get_pte_spec_witness :
  0 <= 0x8000 /\ get_pte 0x8000 false example_pt = Done None example_pt.
Proof.
  split; [lia|]. rewrite (proj1 (get_pte_spec _ example_pt 0x8000 example_pt_ok ltac:(lia))). reflexivity.
Defined.

Lemma vmmap_translate_witness :
  exists s', vmmap 0x8000 (P2K 0x40300010) PTE_USER_DATA example_pt = Done tt s' /\
    translate s' 0x8123 = Some 0x40300123 /\ translate s' 0x9000 = None.
Proof.
  pose proof (vmmap_translate _ example_pt 0x8000 (P2K 0x40300010) PTE_USER_DATA example_pt_ok
    ltac:(lia) ltac:(simpl; lia) ltac:(vm_compute; intuition discriminate)
    ltac:(apply (bool_decide_unpack _); vm_compute; exact I) ltac:(reflexivity) ltac:(reflexivity)) as H.
  apply wp_done in H as ([] & s' & E & _ & H & _). exists s'. split; [exact E|]. split.
  - rewrite H by lia. reflexivity.
  - rewrite H by lia. reflexivity.
Defined.
