(* ===== verification/AddrSpace.v ===== *)
(** The user pages of a page directory: the pages it maps are neither free nor
    tables, and the count of references of a page is at least the number of
    times it is mapped. [vmmap], [kfree_page] and clearing an entry keep
    this; between freeing a page and removing or replacing its entry the
    virtual page is the [hole]. *)
From Stdlib Require Import ZArith Lia.
From stdpp Require Import base numbers gmap list.
From S2P Require Import Prelude Mem PageTable.

(** The virtual page [v] is mapped to the page at [q]. *)
Definition maps (s : PtState) (v q : Z) : Prop := exists pa, translate s (4096 * v) = Some pa /\ q = P2K pa.
Definition vpage (v : Z) : Prop := 0 <= v < 2 ^ 36.
Abbreviation nodes s := (m_nodes (pt_mem s)).
Abbreviation refs s q := (default 0 (m_ref (pt_mem s) !! page_num q)).

Record space_ok (hole : option Z) (T : gmap (list Z) Z) (s : PtState) : Prop := {
  so_pt : pt_ok T s;
  so_page : forall v q, vpage v -> hole <> Some v -> maps s v q -> kpage q /\ q ∉ nodes s /\ forall p, T !! p <> Some q;
  so_ref : forall q l, l <> [] -> NoDup l -> (forall v, v ∈ l -> vpage v /\ hole <> Some v /\ maps s v q) -> Z.of_nat (length l) <= refs s q;
}.

Lemma vpage_range v : vpage v -> 0 <= 4096 * v < 2 ^ 48.
Proof. unfold vpage. lia. Qed.

Lemma space_hole v T s : space_ok None T s -> space_ok (Some v) T s.
Proof.
  intros [H1 H2 H3]. split; [done|intros w q Hw _; by apply H2|]. intros q l Hn Hl Hm. apply H3; [done|done|]. intros w Hw. destruct (Hm w Hw) as (? & _ & ?). done.
Qed.

(** A step after which every page is mapped as before, some free pages are no
    longer free, and the counts of the mapped pages are the same. *)
Lemma space_keep hole T s T' s' :
  space_ok hole T s -> pt_ok T' s' -> (forall v, vpage v -> hole <> Some v -> translate s' (4096 * v) = translate s (4096 * v)) ->
  (forall x, x ∈ nodes s' -> x ∈ nodes s) -> (forall p t, T' !! p = Some t -> T !! p = Some t \/ t ∈ nodes s) ->
  (forall v q, vpage v -> hole <> Some v -> maps s v q -> m_ref (pt_mem s') !! page_num q = m_ref (pt_mem s) !! page_num q) ->
  space_ok hole T' s'.
Proof.
  intros [H1 H2 H3] Hpt Htr Hnodes Hnew Hr.
  assert (forall v q, vpage v -> hole <> Some v -> maps s' v q -> maps s v q) as Hm.
  { intros v q Hv Hh (pa & E & ->). exists pa. by rewrite <- Htr. }
  split; [done| |].
  - intros v q Hv Hh Hq. apply Hm in Hq; [|done..]. destruct (H2 v q Hv Hh Hq) as (Kq & Nq & Tq). split_and!; [done|by intros ?%Hnodes|].
    intros p Ht. destruct (Hnew p q Ht) as [?|?]; [by apply (Tq p)|done].
  - intros q l Hn Hl Hall. destruct l as [|v l]; [done|]. destruct (Hall v ltac:(by left)) as (Hv & Hh & Hq).
    rewrite (Hr v q Hv Hh (Hm v q Hv Hh Hq)). apply H3; [done|done|]. intros w Hw. destruct (Hall w Hw) as (? & ? & ?). split_and!; try done. by apply Hm.
Qed.

(** The count of a mapped page is not that of a free one. *)
Lemma mapped_ref hole T s v q x : space_ok hole T s -> vpage v -> hole <> Some v -> maps s v q -> x ∈ nodes s -> page_num x <> page_num q.
Proof.
  intros [H1 H2 _] Hv Hh Hq Hx E. destruct (H2 v q Hv Hh Hq) as (Kq & Nq & _). destruct (po_free _ _ H1) as [_ Hf]. destruct (Hf x Hx) as [Kx _].
  apply Nq. by rewrite <- (page_num_inj x q Kx Kq E).
Qed.

Lemma space_step hole T s T' s' :
  space_ok hole T s -> pt_ok T' s' -> (forall v, vpage v -> hole <> Some v -> translate s' (4096 * v) = translate s (4096 * v)) ->
  (exists u, nodes s = u ++ nodes s') -> (forall p t, T' !! p = Some t -> T !! p = Some t \/ t ∈ nodes s) ->
  (forall i, (forall q, q ∈ nodes s -> page_num q <> i) -> m_ref (pt_mem s') !! i = m_ref (pt_mem s) !! i) ->
  space_ok hole T' s'.
Proof.
  intros H Hpt Htr (u & Hu) Hnew Href. apply (space_keep hole T s); try done.
  - intros x Hx. rewrite Hu. apply elem_of_app. by right.
  - intros v q Hv Hh Hq. apply Href. intros x Hx. by eapply mapped_ref.
Qed.

Lemma wp_space_get_pte hole T s va :
  space_ok hole T s -> 0 <= va -> (3 <= length (nodes s))%nat ->
  wp (get_pte va true) (fun r s' => exists T' t, r = Some (t, VA_PART3 va) /\ space_ok hole T' s' /\ T' !! path_of va = Some t /\
    (forall va', 0 <= va' -> translate s' va' = translate s va') /\ (exists u, nodes s = u ++ nodes s' /\ (length u <= 3)%nat) /\
    find_entry s' va = Some (default 0 (find_entry s va))) s.
Proof.
  intros H Hv Hn. eapply wp_mono; [apply (wp_get_pte T s va (so_pt _ _ _ H) Hv Hn)|].
  intros r s' (T' & t & -> & H' & Ht & G). exists T', t. split_and!; [done| |done| |apply (g_nodes _ _ _ _ _ G)|].
  - apply (space_step hole T s); try done.
    + intros v Hp _. apply (translate_grows 3 T s T'); [apply H|done|done|apply vpage_range in Hp; lia].
    + destruct (g_nodes _ _ _ _ _ G) as (u & E & _). by exists u.
    + apply (g_new _ _ _ _ _ G).
    + apply (g_ref _ _ _ _ _ G).
  - intros va' Hv'. apply (translate_grows 3 T s T'); [apply H|done|done|done].
  - pose proof (VA_PART_range va Hv) as (_ & _ & _ & R3). rewrite (find_entry_tree T' s' va H' Hv), (find_entry_tree T s va (so_pt _ _ _ H) Hv), Ht. simpl.
    destruct (g_leaf _ _ _ _ _ G (path_of va) t eq_refl Ht) as [[E1 E2]|[E1 E2]]; rewrite E1, E2; simpl.
    + destruct (po_entry T s _ t _ (so_pt _ _ _ H) E1 R3) as (l & e & El & _ & Ee). rewrite El. simpl. by rewrite Ee.
    + unfold empty_table. rewrite lookup_replicate_2; [done|]. unfold N_PTE_PER_TABLE. lia.
Qed.

(** A page of one's own: not free, not a table, not mapped. *)
Record own (T : gmap (list Z) Z) (s : PtState) (hole : option Z) (q : Z) : Prop := {
  ow_page : kpage q;
  ow_free : q ∉ nodes s;
  ow_tab : forall p, T !! p <> Some q;
  ow_maps : forall v, vpage v -> hole <> Some v -> ~ maps s v q;
}.

Definition without_page (q : Z) (ps : list Z) (m : Mem) : Mem :=
  set_ref (<[page_num q := 0]> (m_ref m)) (Mem.set_nodes ps (set_cnt (m_kalloc_page_cnt m + 1) (m_left_page_cnt m - 1) m)).

Lemma space_kalloc hole T s q ps :
  space_ok hole T s -> nodes s = q :: ps ->
  let s' := mkPt (without_page q ps (pt_mem s)) (pt_tabs s) (pt_root s) in space_ok hole T s' /\ own T s' hole q /\ refs s' q = 0.
Proof.
  intros H En s'. pose proof (po_free _ _ (so_pt _ _ _ H)) as [Hnd Hf]. rewrite En in Hnd, Hf. apply NoDup_cons in Hnd as [Hq Hnd].
  destruct (Hf q) as [Kq Tq]; [by left|]. assert (nodes s' = ps) as En' by done.
  assert (pt_ok T s') as Hpt.
  { destruct (so_pt _ _ _ H). split; try done. rewrite En'. split; [done|]. intros x Hx. apply Hf. by right. }
  assert (forall v, vpage v -> hole <> Some v -> ~ maps s v q) as Hm.
  { intros v Hv Hh Hm. destruct (so_page _ _ _ H v q Hv Hh Hm) as (_ & Nq & _). apply Nq. rewrite En. by left. }
  split_and!; [|done|cbn; by rewrite lookup_insert_eq]. apply (space_step hole T s); try done.
  - exists [q]. by rewrite En.
  - intros p t Ht. by left.
  - intros i Hi. cbn. apply lookup_insert_ne. apply Hi. rewrite En. by left.
Qed.

Lemma wp_kalloc_pt s q ps (Q : Z -> PtState -> Prop) : nodes s = q :: ps -> kpage q -> Q q (mkPt (without_page q ps (pt_mem s)) (pt_tabs s) (pt_root s)) -> wp (on_mem kalloc_page) Q s.
Proof. intros En Kq HQ. apply wp_on_mem. eapply wp_kalloc_page_raw; [exact En|apply Kq|done]. Qed.

Lemma wp_space_kalloc hole T s q ps (Q : Z -> PtState -> Prop) :
  space_ok hole T s -> nodes s = q :: ps ->
  (forall s', space_ok hole T s' -> own T s' hole q -> refs s' q = 0 -> pt_tabs s' = pt_tabs s -> pt_root s' = pt_root s -> nodes s' = ps -> Q q s') ->
  wp (on_mem kalloc_page) Q s.
Proof.
  intros H En HQ. destruct (space_kalloc hole T s q ps H En) as (H1 & H2 & H3). apply (wp_kalloc_pt _ q ps); [done|apply H2|]. by apply HQ.
Qed.

Lemma filter_ne_length (v : Z) l : NoDup l -> (length l <= S (length (filter (fun w => w <> v) l)))%nat.
Proof.
  induction 1 as [|x l Hx Hl IH]; [simpl; lia|]. rewrite filter_cons. destruct (decide (x <> v)) as [Hne|Hn]; simpl; [lia|]. apply dec_stable in Hn as ->.
  enough (length (filter (fun w => w <> v) l) = length l) by lia. clear IH Hl. induction l as [|y l IH]; [done|]. apply not_elem_of_cons in Hx as [Hy Hx]. rewrite filter_cons, decide_True by done. simpl. by rewrite IH.
Qed.

(** Mapping a page at the hole; it may be mapped elsewhere too. *)
Lemma wp_space_vmmap_shared hole T s va ka flags :
  let v := va / 4096 in
  space_ok hole T s -> (forall w, hole = Some w -> w = v) -> 0 <= va < 2 ^ 48 -> (3 <= length (nodes s))%nat ->
  kpage (PAGE_BASE ka) -> PAGE_BASE ka ∉ nodes s -> (forall p, T !! p <> Some (PAGE_BASE ka)) ->
  0 <= refs s (PAGE_BASE ka) -> PTE_ADDRESS flags = 0 -> is_valid flags = true ->
  wp (vmmap va ka flags) (fun _ s' => exists T' t l, space_ok None T' s' /\ vmmapped T s va (PAGE_BASE ka) flags T' t l s') s.
Proof.
  intros v H Hhole Hva Hn Kq Nq Tq Hr0 Hfl Hval. set (q := PAGE_BASE ka) in *.
  eapply wp_mono; [apply (wp_vmmap T s va ka flags (so_pt _ _ _ H)); try done|]. fold q.
  intros _ s' (T' & t & l & Hvm). exists T', t, l. split; [|done].
  destruct Hvm as [Hpt Hsub Ht El Ee Htr _ (u & Eu & _) Hnew _ _ Href Hrq]. fold v in Htr.
  assert (vpage v) as Hv by (unfold vpage, v; split; [apply Z.div_pos; lia|apply Z.div_lt_upper_bound; lia]).
  assert (forall w, vpage w -> w <> v -> hole <> Some w) as Hw by (intros w _ Hne E; apply Hne; by apply Hhole).
  assert (forall w x, vpage w -> w <> v -> maps s' w x -> maps s w x) as Hold.
  { intros w x Hp Hne (pa & E & ->). exists pa. split; [|done]. rewrite Htr in E by (by apply vpage_range).
    replace (4096 * w / 4096) with w in E by (rewrite Z.mul_comm, Z.div_mul; lia). by rewrite (proj2 (Z.eqb_neq w v)) in E by done. }
  assert (forall x, maps s' v x -> x = q) as Hnewm.
  { intros x (pa & E & ->). rewrite Htr in E by (by apply vpage_range). replace (4096 * v / 4096) with v in E by (rewrite Z.mul_comm, Z.div_mul; lia).
    rewrite Z.eqb_refl in E. injection E as <-. destruct (VA_PARTS (4096 * v)) as (_ & _ & _ & _ & ->); [apply vpage_range in Hv; lia|].
    rewrite (Z.mul_comm 4096), Z.mod_mul, Z.add_0_r by lia. apply P2K_K2P. apply Kq. }
  assert (forall x, x ∈ nodes s' -> x ∈ nodes s) as Hnodes by (intros x Hx; rewrite Eu; apply elem_of_app; by right).
  split; [done| |].
  - intros w x Hp _ Hm. destruct (decide (w = v)) as [->|Hne].
    + rewrite (Hnewm x Hm). split_and!; [done|by intros ?%Hnodes|]. intros p Ep. destruct (Hnew p q Ep) as [?|?]; [by apply (Tq p)|done].
    + apply Hold in Hm; [|done..]. destruct (so_page _ _ _ H w x Hp (Hw w Hp Hne) Hm) as (Kx & Nx & Tx). split_and!; [done|by intros ?%Hnodes|].
      intros p Ep. destruct (Hnew p x Ep) as [?|?]; [by apply (Tx p)|done].
  - intros x l' Hne Hnd Hall.
    assert (forall w, w ∈ l' -> w <> v -> vpage w /\ hole <> Some w /\ maps s w x) as Hrest.
    { intros w Hin Hwv. destruct (Hall w Hin) as (Hp & _ & Hm). split_and!; [done|by apply Hw|by apply Hold]. }
    destruct (decide (x = q)) as [->|Hxq].
    + rewrite Hrq. cbn [default from_option id]. pose proof (filter_ne_length v l' Hnd) as Hlen. set (r := filter (fun w => w <> v) l') in *.
      destruct r as [|w r'] eqn:Er; [simpl in Hlen; lia|]. rewrite <- Er in Hlen.
      enough (Z.of_nat (length r) <= refs s q) by (rewrite Er in *; lia). apply (so_ref _ _ _ H); [by rewrite Er|by apply NoDup_filter|].
      intros w' [Hwv Hin]%list_elem_of_filter. by apply Hrest.
    + assert (forall w, w ∈ l' -> w <> v) as Hwv by (intros w Hin ->; apply Hxq, Hnewm; apply (Hall v Hin)).
      destruct l' as [|w l']; [done|]. destruct (Hrest w ltac:(by left) (Hwv w ltac:(by left))) as (Hp & Hh & Hm).
      destruct (so_page _ _ _ H w x Hp Hh Hm) as (Kx & Nx & _). rewrite Href.
      * apply (so_ref _ _ _ H); [done|done|]. intros w' Hin. by apply Hrest, Hwv.
      * intros E. apply Hxq. by apply page_num_inj.
      * intros y Hy E. destruct (po_free _ _ (so_pt _ _ _ H)) as [_ Hf]. destruct (Hf y Hy) as [Ky _]. apply Nx. by rewrite <- (page_num_inj y x Ky Kx E).
Qed.

(** Mapping a page of one's own at the hole. *)
Lemma wp_space_vmmap hole T s va ka flags :
  let v := va / 4096 in
  space_ok hole T s -> (forall w, hole = Some w -> w = v) -> 0 <= va < 2 ^ 48 -> (3 <= length (nodes s))%nat ->
  own T s hole (PAGE_BASE ka) -> 0 <= refs s (PAGE_BASE ka) -> PTE_ADDRESS flags = 0 -> is_valid flags = true ->
  wp (vmmap va ka flags) (fun _ s' => exists T' t l, space_ok None T' s' /\ vmmapped T s va (PAGE_BASE ka) flags T' t l s') s.
Proof. intros v H Hh Hva Hn [Kq Nq Tq _]. by apply (wp_space_vmmap_shared hole). Qed.

(** Freeing a mapped page: it goes back to the free pages only when nothing else
    maps it. *)
Lemma wp_space_kfree T s v q (Q : unit -> PtState -> Prop) :
  space_ok None T s -> vpage v -> maps s v q ->
  (forall s', space_ok (Some v) T s' -> pt_tabs s' = pt_tabs s -> pt_root s' = pt_root s -> (length (nodes s) <= length (nodes s'))%nat ->
    (forall x, x ∈ nodes s' -> x = q \/ x ∈ nodes s) -> (forall x, kpage x -> x <> q -> refs s' x = refs s x) -> Q tt s') ->
  wp (on_mem (kfree_page q)) Q s.
Proof.
  intros H Hv Hm HQ. destruct (so_page _ _ _ H v q Hv ltac:(done) Hm) as (Kq & Nq & Tq). set (r := refs s q).
  assert (forall l, NoDup (v :: l) -> (forall w, w ∈ l -> vpage w /\ maps s w q) -> Z.of_nat (length l) + 1 <= r) as Hcount.
  { intros l Hnd Hl. pose proof (so_ref _ _ _ H q (v :: l) ltac:(done) Hnd) as Hr. simpl length in Hr. enough (Z.of_nat (S (length l)) <= r) by lia. apply Hr.
    intros w [->|Hw]%elem_of_cons; [done|]. destruct (Hl w Hw). done. }
  assert (forall m, m_ref m = <[page_num q := r - 1]> (m_ref (pt_mem s)) ->
    m_nodes m = nodes s \/ (r - 1 <= 0 /\ m_nodes m = q :: nodes s) -> space_ok (Some v) T (mkPt m (pt_tabs s) (pt_root s))) as Hok.
  { intros m Er En. destruct (po_free _ _ (so_pt _ _ _ H)) as [Hnd Hf].
    assert (forall w x, vpage w -> w <> v -> maps s w x -> kpage x /\ x ∉ m_nodes m /\ forall p, T !! p <> Some x) as Hpage.
    { intros w x Hp Hne Hx. destruct (so_page _ _ _ H w x Hp ltac:(done) Hx) as (Kx & Nx & Tx). split_and!; try done.
      destruct En as [->|[Hr ->]]; [done|]. intros [->|?]%elem_of_cons; [|done].
      pose proof (Hcount [w] ltac:(apply NoDup_cons; split; [by intros ->%list_elem_of_singleton|apply NoDup_singleton]) ltac:(by intros w' ->%list_elem_of_singleton)) as Hc.
      simpl in Hc. lia. }
    split.
    - destruct (so_pt _ _ _ H). split; try done. cbn. destruct En as [->|[_ ->]]; [done|]. split; [by apply NoDup_cons|]. intros x [->|Hx]%elem_of_cons; [done|by apply Hf].
    - intros w x Hp Hh Hx. apply (Hpage w x Hp); [congruence|exact Hx].
    - intros x l Hn Hl Hall. cbn. rewrite Er. destruct (decide (x = q)) as [->|Hne].
      + rewrite lookup_insert_eq. cbn [default from_option id]. enough (Z.of_nat (length l) + 1 <= r) by lia. apply Hcount.
        * apply NoDup_cons. split; [|done]. intros Hin. destruct (Hall v Hin) as (_ & ? & _). done.
        * intros w Hw. destruct (Hall w Hw) as (? & _ & ?). done.
      + destruct l as [|w l]; [done|]. destruct (Hall w ltac:(by left)) as (Hp & Hh & Hx). destruct (so_page _ _ _ H w x Hp ltac:(done) Hx) as (Kx & _ & _).
        rewrite lookup_insert_ne by (intros E; apply Hne; symmetry; by apply page_num_inj). apply (so_ref _ _ _ H); [done|done|].
        intros w' Hw'. destruct (Hall w' Hw') as (? & _ & ?). done. }
  apply wp_on_mem. unfold kfree_page. apply wp_bind, wp_modify. apply wp_bind, wp_ref_get; [apply Kq|]. apply wp_bind, wp_ref_set; [apply Kq|]. cbn [set_cnt m_ref]. fold r.
  assert (forall x, kpage x -> x <> q -> default 0 (<[page_num q := r - 1]> (m_ref (pt_mem s)) !! page_num x) = refs s x) as Href.
  { intros x Kx Hne. rewrite lookup_insert_ne; [done|]. intros E. apply Hne. symmetry. by apply page_num_inj. }
  destruct (r - 1 <=? 0) eqn:Er.
  - apply wp_bind, wp_modify, wp_modify. apply HQ; try done; [|cbn; lia|]. { apply Hok; [done|]. right. split; [lia|done]. }
    intros x Hx. cbn in Hx. by apply elem_of_cons in Hx.
  - apply wp_ret. apply HQ; try done; [|by right]. apply Hok; [done|by left].
Qed.

(** Clearing the entry of the hole. *)
Lemma space_unmap T s va t l :
  let s' := mkPt (pt_mem s) (<[t := <[Z.to_nat (VA_PART3 va) := 0]> l]> (pt_tabs s)) (pt_root s) in
  space_ok (Some (va / 4096)) T s -> 0 <= va < 2 ^ 48 -> T !! path_of va = Some t -> pt_tabs s !! t = Some l ->
  space_ok None T s' /\ forall va', 0 <= va' < 2 ^ 48 -> translate s' va' = if va' / 4096 =? va / 4096 then None else translate s va'.
Proof.
  intros s' H Hva Ht El.
  assert (forall va', 0 <= va' < 2 ^ 48 -> translate s' va' = if va' / 4096 =? va / 4096 then None else translate s va') as Htr.
  { intros va' Hv'. unfold translate. unfold s'. rewrite (find_entry_leaf T s va t l 0 va' (so_pt _ _ _ H) Ht El Hva Hv'). by destruct (va' / 4096 =? va / 4096). }
  split; [|done].
  assert (forall w x, vpage w -> maps s' w x -> w <> va / 4096 /\ maps s w x) as Hm.
  { intros w x Hp (pa & E & ->). rewrite Htr in E by (by apply vpage_range). replace (4096 * w / 4096) with w in E by (rewrite Z.mul_comm, Z.div_mul; lia).
    destruct (Z.eqb_spec w (va / 4096)) as [|Hne]; [done|]. split; [done|]. by exists pa. }
  split.
  - apply (pt_ok_leaf T s (path_of va) t l); try done. apply (so_pt _ _ _ H).
  - intros w x Hp _ Hx. destruct (Hm w x Hp Hx) as [Hne Hx']. apply (so_page _ _ _ H w x Hp); [congruence|done].
  - intros x l' Hn Hl Hall. apply (so_ref _ _ _ H x l' Hn Hl). intros w Hw. destruct (Hall w Hw) as (Hp & _ & Hx). destruct (Hm w x Hp Hx) as [Hne Hx']. split_and!; [done|congruence|done].
Qed.

Lemma kpage_base q : kpage q -> PAGE_BASE q = q.
Proof.
  intros (Hr & (_ & Hm) & _). unfold PAGE_BASE, PAGE_SIZE. change (u64 (Z.lnot (4096 - 1))) with (Z.shiftl (Z.ones 52) 12).
  assert (q mod 2 ^ 12 = 0) as Hq.
  { unfold K2P, u64 in Hm. rewrite wrap_small in Hm by (unfold KSPACE_MASK in *; lia). change (2 ^ 12) with 4096.
    replace q with ((q - KSPACE_MASK) + 0xFFFF000000000 * 4096) by (unfold KSPACE_MASK; lia). rewrite Z.mod_add by lia. done. }
  apply Z.bits_inj'. intros n Hn. rewrite Z.land_spec, Z.shiftl_spec by lia. destruct (decide (n < 12)) as [Hlt|Hge].
  - rewrite (Z.testbit_neg_r _ (n - 12)), andb_false_r by lia. rewrite <- (Z.mod_pow2_bits_low q 12 n) by lia. by rewrite Hq, Z.bits_0.
  - destruct (decide (n < 64)) as [H64|H64].
    + rewrite Z.ones_spec_low by lia. by rewrite andb_true_r.
    + rewrite Z.ones_spec_high by lia. rewrite andb_false_r. symmetry. rewrite <- (Z.mod_small q (2 ^ 64)) by (unfold KSPACE_MASK in *; lia). apply Z.mod_pow2_bits_high. lia.
Qed.

(** ** An empty directory *)
Section empty.
Context (m : Mem) (tabs : gmap Z (list Z)) (root : Z).
Hypothesis (Hroot : tabs !! root = Some empty_table) (Hpage : kpage root) (Hnodup : NoDup (m_nodes m)).
Hypothesis Hfree : forall q, q ∈ m_nodes m -> kpage q /\ q <> root.

Lemma empty_dir_pt : pt_ok {[ [] := root ]} (mkPt m tabs root).
Proof using All.
  split.
  - done.
  - intros p q t. rewrite !lookup_singleton_Some. naive_solver.
  - intros p t. rewrite lookup_singleton_Some. intros [<- <-]. split; [simpl; lia|]. split; [done|]. by exists empty_table.
  - intros p t l i e. rewrite lookup_singleton_Some. intros [<- <-] E _ _ Ee. cbn [pt_tabs] in E. rewrite Hroot in E. injection E as <-.
    apply empty_table_lookup in Ee as ->. change (is_valid 0) with false. by rewrite lookup_singleton_ne.
  - intros p i t. rewrite lookup_singleton_Some. intros [E _]. by destruct p.
  - split; [done|]. intros q Hq. destruct (Hfree q Hq) as [? Hne]. split; [done|]. intros p [_ ?]%lookup_singleton_Some. congruence.
Qed.

Lemma empty_dir_entry va : 0 <= va -> find_entry (mkPt m tabs root) va = None.
Proof using All. intros Hv. rewrite (find_entry_tree _ _ _ empty_dir_pt Hv). by rewrite lookup_singleton_ne. Qed.

Lemma empty_dir_maps v q : vpage v -> ~ maps (mkPt m tabs root) v q.
Proof using All. intros Hv (pa & E & _). unfold translate in E. rewrite empty_dir_entry in E; [done|]. apply vpage_range in Hv. lia. Qed.

Lemma empty_dir_ok : space_ok None {[ [] := root ]} (mkPt m tabs root).
Proof using All.
  split; [apply empty_dir_pt| |].
  - intros v q Hv _ Hm. by destruct (empty_dir_maps v q).
  - intros q l Hn _ Hall. destruct l as [|v l]; [done|]. destruct (Hall v ltac:(by left)) as (Hv & _ & Hm). by destruct (empty_dir_maps v q).
Qed.
End empty.
