(* ===== verification/UserMem.v ===== *)
(** The sections of a user address space, and the checks of user addresses in
    src/kernel/syscall.c and src/kernel/sysfile.c.

    The list of sections of a page directory is a list, in the order
    [_for_in_list] visits it. *)
From Stdlib Require Import ZArith Lia.
From stdpp Require Import base numbers list.
From S2P Require Import Prelude Sync Mem.

Definition ST_FILE : Z := 1.
Definition ST_SWAP : Z := Z.shiftl 1 1.
Definition ST_RO : Z := Z.shiftl 1 2.
Definition ST_HEAP : Z := Z.shiftl 1 3.
Definition ST_TEXT : Z := Z.lor ST_FILE ST_RO.

Record section := mkSection {
  se_flags : Z;
  se_begin : Z;
  se_end : Z;
  se_lock : Sem.Semaphore;
  se_fp : Z;
  se_offset : Z;
  se_length : Z;
  se_prot : Z;
}.

(** [flags & f] as a condition. *)
Definition flag (flags f : Z) : bool := negb (Z.land flags f =? 0).

(** ** Checks of user addresses *)

(** [(u64)start + size] wraps around. *)
Definition covers (st : section) (start size : Z) : bool := (se_begin st <=? start) && (u64 (start + size) <? se_end st).

Fixpoint scan_readable (secs : list section) (start size : Z) : bool :=
  match secs with
  | [] => false
  | st :: secs' => if covers st start size then true else scan_readable secs' start size
  end.

Definition user_readable (secs : list section) (start size : Z) : bool :=
  if KSPACE_MASK <=? start then true else scan_readable secs start size.

Fixpoint scan_writeable (secs : list section) (start size : Z) : bool :=
  match secs with
  | [] => false
  | st :: secs' =>
      if flag (se_flags st) ST_RO then scan_writeable secs' start size
      else if covers st start size then true else scan_writeable secs' start size
  end.

Definition user_writeable (secs : list section) (start size : Z) : bool :=
  if KSPACE_MASK <=? start then true else scan_writeable secs start size.

(** [user_strlen(str, maxlen)] from index [i]; [mem] are the bytes of memory. *)
Fixpoint strlen_from (secs : list section) (mem : Z -> Z) (str : Z) (n : nat) (i : Z) : Z :=
  match n with
  | O => 0
  | S n' =>
      if user_readable secs (u64 (str + i)) 1 then
        if mem (u64 (str + i)) =? 0 then i + 1 else strlen_from secs mem str n' (i + 1)
      else 0
  end.

Definition user_strlen (secs : list section) (mem : Z -> Z) (str maxlen : Z) : Z :=
  strlen_from secs mem str (Z.to_nat maxlen) 0.

(** ** Finding room for a mapping *)

Definition USER_SPACE_START : Z := 0x40000000.
Definition USER_SPACE_END : Z := 0x80000000.
Definition KMASK : Z := 0xffff000000000000.
Definition PAGE_ALIGN_UP (x : Z) : Z := Z.land (u64 (x + PAGE_SIZE - 1)) (u64 (Z.lnot (PAGE_SIZE - 1))).
Definition PAGE_ALIGN_DOWN (x : Z) : Z := Z.land x (u64 (Z.lnot (PAGE_SIZE - 1))).

(** One round: [sec->begin] and [sec->end] against [*begin] and [*end]. *)
Definition free_vm_step (sec : Z * Z) (be : Z * Z) : Z * Z :=
  let '(sb, se) := sec in
  if (KMASK <=? sb) || (KMASK <=? se) then be
  else if (sb =? 0) && (se =? 0) then be
  else
    let b := if be.1 <? se then PAGE_ALIGN_UP se else be.1 in
    let e := if sb <? be.2 then PAGE_ALIGN_DOWN sb else be.2 in
    (b, e).

(** The walk does not leave out the head of the list, which it takes for a
    section whose [begin] is [pgdir->pt] and whose [end] is the lock. *)
Definition get_free_vm (pt lock : Z) (secs : list section) (length : Z) : Z * Z :=
  let be := foldl (fun be sec => free_vm_step sec be) (USER_SPACE_START, USER_SPACE_END)
              (((fun st => (se_begin st, se_end st)) <$> secs) ++ [(pt, lock)]) in
  (u64 (be.2 - length), be.2).

(** ** The checks *)

(** The section holds the addresses from [start] to [start + size], the last
    one included. *)
Definition holds (st : section) (start size : Z) : Prop := forall a, start <= a <= start + size -> se_begin st <= a < se_end st.

Lemma covers_holds st start size : 0 <= start -> 0 <= size -> start + size < 2 ^ 64 -> covers st start size = true <-> holds st start size.
Proof.
  intros H1 H2 H3. unfold covers, holds, u64. rewrite wrap_small by lia. rewrite andb_true_iff, Z.leb_le, Z.ltb_lt. split; [intros [? ?] a; lia|].
  intros H. pose proof (H start ltac:(lia)). pose proof (H (start + size) ltac:(lia)). lia.
Qed.

Lemma scan_readable_spec secs start size : scan_readable secs start size = true <-> exists st, st ∈ secs /\ covers st start size = true.
Proof.
  induction secs as [|st secs IH]; simpl; [split; [done|intros (? & ?%elem_of_nil & _); done]|].
  destruct (covers st start size) eqn:E; [split; [intros _; exists st; split; [by left|done]|done]|].
  rewrite IH. split; intros (x & Hx & Hc); exists x; (split; [|done]); [by right|]. apply elem_of_cons in Hx as [->|?]; [congruence|done].
Qed.

Lemma scan_writeable_spec secs start size :
  scan_writeable secs start size = true <-> exists st, st ∈ secs /\ flag (se_flags st) ST_RO = false /\ covers st start size = true.
Proof.
  assert (scan_writeable secs start size = scan_readable (filter (fun st => flag (se_flags st) ST_RO = false) secs) start size) as ->.
  { induction secs as [|st secs IH]; simpl; [done|]. rewrite filter_cons. destruct (flag (se_flags st) ST_RO); destruct (decide _); try done; simpl; by rewrite IH. }
  rewrite scan_readable_spec. setoid_rewrite list_elem_of_filter. naive_solver.
Qed.

(** [user_readable] and [user_writeable], for a range that does not wrap
    around, accept exactly the kernel addresses and the ranges that lie, with
    the byte after them, inside one section, which must not be read-only for
    writing. So every byte of an accepted user range is in a section, and the
    last byte of a section is never accepted. *)
Theorem user_access_spec secs start size :
  0 <= start -> 0 <= size -> start + size < 2 ^ 64 ->
  (user_readable secs start size = true <-> KSPACE_MASK <= start \/ exists st, st ∈ secs /\ holds st start size) /\
  (user_writeable secs start size = true <->
     KSPACE_MASK <= start \/ exists st, st ∈ secs /\ flag (se_flags st) ST_RO = false /\ holds st start size).
Proof.
  intros H1 H2 H3. pose proof (fun st => covers_holds st start size H1 H2 H3) as Hc. unfold user_readable, user_writeable.
  destruct (Z.leb_spec KSPACE_MASK start) as [Hk|Hk]; [naive_solver|].
  rewrite scan_readable_spec, scan_writeable_spec. setoid_rewrite Hc. split; (split; [intros ?; by right|intros [?|?]; [lia|done]]).
Qed.

(** A range that wraps around is accepted although almost all of it lies
    outside of every section: [start + size] is computed modulo 2^64. *)
Theorem user_access_wraps :
  let st := mkSection 0 0x400000 0x401000 (Sem.init_sem 1) 0 0 0 0 in
  let size := 2 ^ 64 - 0x1000 in
  user_readable [st] 0x400800 size = true /\ user_writeable [st] 0x400800 size = true /\ ~ holds st 0x400800 0x10000.
Proof. split_and!; [vm_compute; reflexivity..|]. intros H. specialize (H 0x402000 ltac:(lia)). simpl in H. lia. Qed.

Lemma strlen_from_spec secs mem str n : forall i,
  0 <= i -> 0 <= str -> str + i + Z.of_nat n < 2 ^ 64 ->
  let r := strlen_from secs mem str n i in
  let ok j := user_readable secs (str + j) 1 = true in
  (0 < r -> i < r <= i + Z.of_nat n /\ mem (str + (r - 1)) = 0 /\ ok (r - 1) /\ forall j, i <= j < r - 1 -> ok j /\ mem (str + j) <> 0) /\
  (r <= 0 -> r = 0 /\ exists k, i <= k <= i + Z.of_nat n /\ (forall j, i <= j < k -> ok j /\ mem (str + j) <> 0) /\ (k = i + Z.of_nat n \/ ~ ok k)).
Proof.
  induction n as [|n IH]; intros i H1 H2 H3 r ok; simpl in r; subst r.
  - split; [lia|]. intros _. split; [done|]. exists i. split_and!; [lia|lia|lia|left; lia].
  - assert (u64 (str + i) = str + i) as E by (unfold u64; apply wrap_small; lia). rewrite E. destruct (user_readable secs (str + i) 1) eqn:Er.
    + destruct (Z.eqb_spec (mem (str + i)) 0) as [E0|E0].
      * split; [|lia]. intros _. replace (i + 1 - 1) with i by lia. split_and!; [lia|lia|done|done|lia].
      * destruct (IH (i + 1) ltac:(lia) H2 ltac:(lia)) as [P1 P2]. split.
        -- intros Hr. destruct (P1 Hr) as (Q1 & Q2 & Q3 & Q4). split_and!; [lia|lia|done|done|]. intros j Hj. destruct (decide (j = i)) as [->|]; [done|]. apply Q4. lia.
        -- intros Hr. destruct (P2 Hr) as (Q1 & k & Q2 & Q3 & Q4). split; [done|]. exists k. split_and!; [lia|lia| |destruct Q4; [left; lia|by right]].
           intros j Hj. destruct (decide (j = i)) as [->|]; [done|]. apply Q3. lia.
    + split; [lia|]. intros _. split; [done|]. exists i. split_and!; [lia|lia|lia|]. right. unfold ok. congruence.
Qed.

(** [user_strlen] returns the length of the string with its NUL when the NUL
    is among the first [maxlen] bytes and every byte up to it is readable, and
    0 otherwise; it never looks past the NUL or an unreadable byte. *)
Theorem user_strlen_spec secs mem str maxlen :
  0 <= str -> 0 <= maxlen -> str + maxlen < 2 ^ 64 ->
  let r := user_strlen secs mem str maxlen in
  let ok j := user_readable secs (str + j) 1 = true in
  (0 < r -> r <= maxlen /\ mem (str + (r - 1)) = 0 /\ ok (r - 1) /\ forall j, 0 <= j < r - 1 -> ok j /\ mem (str + j) <> 0) /\
  (r <= 0 -> r = 0 /\ exists k, 0 <= k <= maxlen /\ (forall j, 0 <= j < k -> ok j /\ mem (str + j) <> 0) /\ (k = maxlen \/ ~ ok k)).
Proof.
  intros H1 H2 H3. destruct (strlen_from_spec secs mem str (Z.to_nat maxlen) 0 ltac:(lia) H1 ltac:(lia)) as [P1 P2]. rewrite Z2Nat.id in P1, P2 by lia.
  unfold user_strlen. cbv zeta in P1, P2 |- *. split; [|exact P2]. intros Hr. destruct (P1 Hr) as (? & ?). split; [lia|done].
Qed.

(** ** Room for a mapping *)

Lemma align_down x : 0 <= x < 2 ^ 64 -> PAGE_ALIGN_DOWN x = x / 4096 * 4096.
Proof.
  intros Hx. unfold PAGE_ALIGN_DOWN, PAGE_SIZE. change (u64 (Z.lnot (4096 - 1))) with (Z.shiftl (Z.ones 52) 12). apply Z.bits_inj'. intros n Hn.
  rewrite Z.land_spec, Z.shiftl_spec by lia. change 4096 with (2 ^ 12). rewrite <- Z.shiftl_mul_pow2, <- Z.shiftr_div_pow2 by lia.
  rewrite Z.shiftl_spec by lia. destruct (decide (n < 12)) as [Hlt|Hge].
  - by rewrite !(Z.testbit_neg_r _ (n - 12)), andb_false_r by lia.
  - rewrite Z.shiftr_spec by lia. replace (n - 12 + 12) with n by lia. destruct (decide (n < 64)) as [H64|H64].
    + rewrite Z.ones_spec_low by lia. by rewrite andb_true_r.
    + rewrite Z.ones_spec_high by lia. rewrite andb_false_r. symmetry. rewrite <- (Z.mod_small x (2 ^ 64)) by lia. apply Z.mod_pow2_bits_high. lia.
Qed.

(** A section that the search looks at. *)
Definition user_section (st : section) : Prop := se_begin st < KMASK /\ se_end st < KMASK /\ ~ (se_begin st = 0 /\ se_end st = 0).

Lemma free_vm_fold l : forall be, 0 <= be.2 < 2 ^ 64 -> be.2 mod 4096 = 0 -> Forall (fun st : section => 0 <= se_begin st < 2 ^ 64) l ->
  let e := (foldl (fun be sec => free_vm_step sec be) be ((fun st => (se_begin st, se_end st)) <$> l)).2 in
  0 <= e <= be.2 /\ e mod 4096 = 0 /\ (forall st, st ∈ l -> user_section st -> e <= se_begin st).
Proof.
  induction l as [|st l IH]; intros be Hb Hm Hl e; [split_and!; try (simpl in e; unfold e; lia); by intros st ?%elem_of_nil|].
  apply Forall_cons in Hl as [Hst Hl]. cbn [fmap list_fmap foldl] in e. set (be1 := free_vm_step (se_begin st, se_end st) be) in e.
  assert (0 <= be1.2 <= be.2 /\ be1.2 mod 4096 = 0 /\ (user_section st -> be1.2 <= se_begin st)) as (B1 & B2 & B3).
  { unfold be1, free_vm_step, user_section. destruct (Z.leb_spec KMASK (se_begin st)), (Z.leb_spec KMASK (se_end st)); cbn [orb]; try (split_and!; [lia|lia|done|lia]).
    destruct (Z.eqb_spec (se_begin st) 0), (Z.eqb_spec (se_end st) 0); cbn [andb snd]; try (split_and!; [lia|lia|done|tauto]);
      (pose proof (Z.div_mod (se_begin st) 4096 ltac:(lia)); pose proof (Z.mod_pos_bound (se_begin st) 4096 ltac:(lia)); pose proof (Z.div_pos (se_begin st) 4096 ltac:(lia) ltac:(lia));
       destruct (Z.ltb_spec (se_begin st) be.2); [rewrite align_down by lia|]; split_and!; try lia; by rewrite Z.mod_mul). }
  destruct (IH be1 ltac:(lia) B2 Hl) as (I1 & I2 & I3). fold e in I1, I2, I3. split_and!; [lia|lia|done|]. intros x [->|Hx]%elem_of_cons Hu; [pose proof (B3 Hu); lia|by apply I3].
Qed.

(** [get_free_vm] gives the [length] bytes that end at the highest page
    boundary below the user space end and below every section it looks at: the
    range overlaps none of them, provided that there are [length] bytes below
    that boundary. The head of the list, which it takes for a section, is
    skipped because the address of the page table is a kernel address. *)
Theorem get_free_vm_spec pt lock secs length :
  KMASK <= pt -> Forall (fun st => 0 <= se_begin st < 2 ^ 64) secs -> 0 < length < 2 ^ 64 ->
  let '(b, e) := get_free_vm pt lock secs length in
  b = u64 (e - length) /\ 0 <= e <= USER_SPACE_END /\ e mod 4096 = 0 /\
  (length <= e -> forall st, st ∈ secs -> user_section st -> forall a, b <= a < e -> ~ (se_begin st <= a < se_end st)).
Proof.
  intros Hpt Hs Hlen. unfold get_free_vm. rewrite foldl_app. cbn [foldl].
  destruct (free_vm_fold secs (USER_SPACE_START, USER_SPACE_END) ltac:(unfold USER_SPACE_END; simpl; lia) ltac:(reflexivity) Hs) as (H1 & H2 & H3).
  set (be := foldl _ _ _) in *. assert (free_vm_step (pt, lock) be = be) as -> by (unfold free_vm_step; by rewrite (proj2 (Z.leb_le KMASK pt))).
  split_and!; try done; try apply H1. intros Hle st Hin Hu a Ha. pose proof (H3 st Hin Hu). unfold u64 in Ha. simpl in H1. unfold USER_SPACE_END in H1. rewrite wrap_small in Ha; lia.
Qed.

(** Once the heap, which begins at address 0, is not empty, [get_free_vm]
    answers with a range at the very end of the address space, in the kernel's
    half: nothing checks that there is room below the lowest section. *)
Theorem get_free_vm_after_sbrk pt lock fp off len prot sem length :
  KMASK <= pt -> 0 < length < 2 ^ 48 ->
  get_free_vm pt lock [mkSection ST_HEAP 0 4096 sem fp off len prot] length = (2 ^ 64 - length, 0) /\ KMASK <= 2 ^ 64 - length.
Proof.
  intros Hpt Hl. unfold get_free_vm. cbn [fmap list_fmap app foldl se_begin se_end]. rewrite <- (Z.leb_le KMASK pt) in Hpt. split; [|unfold KMASK; lia].
  change (free_vm_step (0, 4096) (USER_SPACE_START, USER_SPACE_END)) with (USER_SPACE_START, 0). unfold free_vm_step. rewrite Hpt. cbn [orb snd].
  f_equal. unfold u64, wrap. symmetry. apply (Z.mod_unique _ _ (-1)); lia.
Qed.

(** ** Concrete instances *)

Definition example_sections : list section :=
  [mkSection ST_TEXT 0x400000 0x402000 (Sem.init_sem 1) 0 0 0 0; mkSection ST_FILE 0x403000 0x405000 (Sem.init_sem 1) 0 0 0 0].

Lemma user_access_spec_witness :
  user_writeable example_sections 0x403010 16 = true /\ (KSPACE_MASK <= 0x403010 \/
    exists st, st ∈ example_sections /\ flag (se_flags st) ST_RO = false /\ holds st 0x403010 16).
Proof.
  split; [vm_compute; reflexivity|].
  apply (proj2 (user_access_spec example_sections 0x403010 16 ltac:(lia) ltac:(lia) ltac:(lia))). vm_compute. reflexivity.
Defined.

Lemma user_strlen_spec_witness :
  let mem a := if a =? 0x400005 then 0 else 65 in
  user_strlen example_sections mem 0x400002 256 = 4 /\ (0 < user_strlen example_sections mem 0x400002 256 -> user_strlen example_sections mem 0x400002 256 <= 256).
Proof.
  intros mem. split; [vm_compute; reflexivity|]. intros Hr.
  apply (proj1 (user_strlen_spec example_sections mem 0x400002 256 ltac:(lia) ltac:(lia) ltac:(lia)) Hr).
Defined.

Lemma get_free_vm_spec_witness :
  get_free_vm 0xffff000040100000 0 example_sections 0x3000 = (0x3fd000, 0x400000) /\
  let '(b, e) := get_free_vm 0xffff000040100000 0 example_sections 0x3000 in b = u64 (e - 0x3000).
Proof.
  split; [vm_compute; reflexivity|].
  pose proof (get_free_vm_spec 0xffff000040100000 0 example_sections 0x3000 ltac:(unfold KMASK; lia)
    ltac:(repeat (constructor; [simpl; lia|]); constructor) ltac:(lia)) as H.
  destruct (get_free_vm 0xffff000040100000 0 example_sections 0x3000) as [b e]. exact (proj1 H).
Defined.

Lemma get_free_vm_after_sbrk_witness :
  get_free_vm 0xffff000040100000 0 [mkSection ST_HEAP 0 4096 (Sem.init_sem 1) 0 0 0 0] 8192 = (2 ^ 64 - 8192, 0) /\ KMASK <= 2 ^ 64 - 8192.
Proof. apply (get_free_vm_after_sbrk 0xffff000040100000 0 0 0 0 0 (Sem.init_sem 1) 8192 ltac:(unfold KMASK; lia) ltac:(lia)). Defined.
