(* ===== verification/Paging.v ===== *)
(** Demand paging (src/kernel/paging.c) and the copy of an address space in
    [fork] (src/kernel/proc.c).

    The state is the page tables and the allocator of PageTable.v, the contents
    of the pages, and the sections with the addresses of their structures.
    Calls of the file layer are recorded. Flushing the TLB has no effect here:
    [translate] reads the tables. *)
From Stdlib Require Import ZArith Lia.
From stdpp Require Import base numbers gmap list.
From S2P Require Import Prelude Sync Mem PageTable AddrSpace UserMem.

Inductive file_call := Close_file (f : Z) | Dup_file (f : Z).

Record AS := mkAS {
  as_pt : PtState;
  as_pages : Z -> list Z;             (* the bytes of the page at a kernel address *)
  as_secs : list (Z * section);       (* pgdir->section_head *)
  as_calls : list file_call;
}.
Definition set_pt (v : PtState) (s : AS) : AS := mkAS v (as_pages s) (as_secs s) (as_calls s).
Definition set_pages (v : Z -> list Z) (s : AS) : AS := mkAS (as_pt s) v (as_secs s) (as_calls s).
Definition set_secs (v : list (Z * section)) (s : AS) : AS := mkAS (as_pt s) (as_pages s) v (as_calls s).
Definition add_file_call (c : file_call) (s : AS) : AS := mkAS (as_pt s) (as_pages s) (as_secs s) (as_calls s ++ [c]).

Definition set_send (v : Z) (st : section) : section :=
  mkSection (se_flags st) (se_begin st) v (se_lock st) (se_fp st) (se_offset st) (se_length st) (se_prot st).
Definition set_sflags (v : Z) (st : section) : section :=
  mkSection v (se_begin st) (se_end st) (se_lock st) (se_fp st) (se_offset st) (se_length st) (se_prot st).
Definition set_slock (v : Sem.Semaphore) (st : section) : section :=
  mkSection (se_flags st) (se_begin st) (se_end st) v (se_fp st) (se_offset st) (se_length st) (se_prot st).

Abbreviation U := (M AS).
Definition on_pt {A} (c : M PtState A) : U A := zoom as_pt set_pt c.
Definition page_write (q : Z) (off : nat) (bs : list Z) : U unit :=
  modify (fun s => set_pages (fun x => if x =? q then splice (as_pages s q) off bs else as_pages s x) s).

(** [*entry]: the entry is its table and index. *)
Definition entry_get (e : Z * Z) : U Z := on_pt (pte_get e.1 e.2).
Definition entry_set (e : Z * Z) (v : Z) : U unit := on_pt (pte_set e.1 e.2 v).

Definition section_at (i : nat) : U (Z * section) := s ← get_state; deref (as_secs s !! i).
Definition store_section (i : nat) (a : Z) (st : section) : U unit := modify (fun s => set_secs (<[i := (a, st)]> (as_secs s)) s).

(** [for(u64 va = ...; va < end; va += PAGE_SIZE)] *)
Fixpoint each_page (fuel : nat) (va end_ : Z) (body : Z -> U unit) : U unit :=
  if va <? end_ then
    match fuel with
    | O => undefined
    | S fuel' => body va ;; each_page fuel' (u64 (va + PAGE_SIZE)) end_ body
    end
  else mret tt.
Definition pages_in (b e : Z) : nat := Z.to_nat ((e - b) / PAGE_SIZE + 1).

Section device.
(** The block device: the 512 bytes of a block. *)
Context (read : Z -> list Z).

Definition swap_in (i : nat) : U unit :=
  '(a, st) ← section_at i;
  ASSERT (flag (se_flags st) ST_SWAP) ;;
  match Sem._wait_sem_enter 0 (se_lock st) with
  | (false, sem) => store_section i a (set_slock sem st) ;; sleep
  | (true, sem) =>
      store_section i a (set_slock sem st) ;;
      each_page (pages_in (se_begin st) (se_end st)) (se_begin st) (se_end st) (fun addr =>
        r ← on_pt (get_pte addr false);
        match r with
        | None => mret tt
        | Some e =>
            v ← entry_get e;
            if v =? 0 then mret tt
            else
              let bno := u32 (Z.shiftr v 12) in
              ka ← on_pt (on_mem kalloc_page);
              for_each 8 0 (fun j => page_write ka (Z.to_nat (j * 512)) (read (u32 (bno + j)))) ;;
              on_pt (vmmap addr ka PTE_USER_DATA)
        end) ;;
      '(a, st) ← section_at i;
      match Sem._post_sem (se_lock st) with
      | None => PANIC
      | Some (_, sem) =>
          store_section i a (set_sflags (Z.land (se_flags st) (u64 (Z.lnot ST_SWAP))) (set_slock sem st))
      end
  end.

(** [sizeof(struct section)] *)
Definition sizeof_section : Z := 96.

(** [init_sections]; [junk] are the fields the code does not set. *)
Definition init_sections (junk : section) : U unit :=
  a ← on_pt (on_mem (kalloc sizeof_section));
  modify (fun s => set_secs ((a, mkSection ST_HEAP 0 0 (Sem.init_sem 1) (se_fp junk) (se_offset junk) (se_length junk) (se_prot junk)) :: as_secs s) s).

(** One section of [free_sections], the first of the list. *)
Definition free_section (a : Z) (st : section) : U unit :=
  (if flag (se_flags st) ST_SWAP then swap_in 0 else mret tt) ;;
  each_page (pages_in (PAGE_BASE (se_begin st)) (se_end st)) (PAGE_BASE (se_begin st)) (se_end st) (fun i =>
    r ← on_pt (get_pte i false);
    match r with
    | None => mret tt
    | Some e =>
        v ← entry_get e;
        if is_valid v then on_pt (on_mem (kfree_page (P2K (PTE_ADDRESS v)))) else mret tt
    end) ;;
  (if negb (se_fp st =? 0) then modify (add_file_call (Close_file (se_fp st))) else mret tt) ;;
  modify (fun s => set_secs (drop 1 (as_secs s)) s) ;;
  on_pt (on_mem (kfree a)).

Fixpoint free_sections_loop (secs : list (Z * section)) : U unit :=
  match secs with
  | [] => mret tt
  | (a, st) :: secs' => free_section a st ;; free_sections_loop secs'
  end.
Definition free_sections : U unit := s ← get_state; free_sections_loop (as_secs s).

(** [free_pgdir]: the sections, then the tables, from the last level up. *)
Definition free_pgdir : U unit :=
  s ← get_state;
  let pt0 := pt_root (as_pt s) in
  if pt0 =? 0 then mret tt
  else
    free_sections ;;
    for_each (Z.to_nat N_PTE_PER_TABLE) 0 (fun i =>
      e0 ← on_pt (pte_get pt0 i);
      if is_valid e0 then
        let pt1 := P2K (PTE_ADDRESS e0) in
        for_each (Z.to_nat N_PTE_PER_TABLE) 0 (fun j =>
          e1 ← on_pt (pte_get pt1 j);
          if is_valid e1 then
            let pt2 := P2K (PTE_ADDRESS e1) in
            for_each (Z.to_nat N_PTE_PER_TABLE) 0 (fun k =>
              e2 ← on_pt (pte_get pt2 k);
              if is_valid e2 then on_pt (on_mem (kfree_page (P2K (PTE_ADDRESS e2)))) else mret tt) ;;
            on_pt (on_mem (kfree_page pt2))
          else mret tt) ;;
        on_pt (on_mem (kfree_page pt1))
      else mret tt) ;;
    on_pt (on_mem (kfree_page pt0)) ;;
    modify (fun s => set_pt (mkPt (pt_mem (as_pt s)) (pt_tabs (as_pt s)) 0) s).

(** The section [sbrk] uses: the first heap section, else the last one. *)
Fixpoint heap_from (secs : list (Z * section)) (i : nat) (st : option nat) : option nat :=
  match secs with
  | [] => st
  | (_, x) :: secs' => if flag (se_flags x) ST_HEAP then Some i else heap_from secs' (S i) (Some i)
  end.

(** The body of its loop: the page of [va], if there is one, is freed and its
    entry cleared. *)
Definition drop_page (va : Z) : U unit :=
  r ← on_pt (get_pte va false);
  match r with
  | None => mret tt
  | Some e =>
      v ← entry_get e;
      if is_valid v then on_pt (on_mem (kfree_page (P2K (PTE_ADDRESS v)))) ;; entry_set e 0 else mret tt
  end.

Definition sbrk (size : Z) : U Z :=
  s ← get_state;
  match heap_from (as_secs s) 0 None with
  | None => PANIC
  | Some i =>
      '(a, st) ← section_at i;
      let ret := se_end st in
      (if 0 <=? size then store_section i a (set_send (u64 (se_end st + size * PAGE_SIZE)) st)
       else
         ASSERT (u64 (u64 (- size) * PAGE_SIZE) <=? u64 (se_end st - se_begin st)) ;;
         store_section i a (set_send (u64 (se_end st + size * PAGE_SIZE)) st) ;;
         (if flag (se_flags st) ST_SWAP then swap_in i else mret tt) ;;
         for_each (Z.to_nat (- size)) 0 (fun k =>
           '(_, st) ← section_at i;
           drop_page (u64 (se_end st + int_of (k * PAGE_SIZE))))) ;;
      mret ret
  end.

(** The first section that holds the address, if any. *)
Fixpoint section_of (secs : list (Z * section)) (addr : Z) (i : nat) : option nat :=
  match secs with
  | [] => None
  | (_, st) :: secs' => if (se_begin st <=? addr) && (addr <? se_end st) then Some i else section_of secs' addr (S i)
  end.

(** [pgfault_handler] for the fault address [addr]. When no section holds it an
    assertion fails. *)
Definition pgfault_handler (addr : Z) : U Z :=
  s ← get_state;
  match section_of (as_secs s) addr 0 with
  | None => PANIC
  | Some i =>
      '(_, st) ← section_at i;
      (if flag (se_flags st) ST_SWAP then swap_in i else mret tt) ;;
      r ← on_pt (get_pte addr true);
      e ← deref r;
      v ← entry_get e;
      (if v =? 0 then
         new_page ← on_pt (on_mem kalloc_page);
         on_pt (vmmap addr new_page PTE_USER_DATA)
       else if flag (PTE_FLAGS v) PTE_RO then
         new_page ← on_pt (on_mem kalloc_page);
         let old_page := P2K (PTE_ADDRESS v) in
         s ← get_state;
         page_write new_page 0 (as_pages s old_page) ;;
         on_pt (on_mem (kfree_page old_page)) ;;
         on_pt (vmmap addr new_page PTE_USER_DATA)
       else mret tt) ;;
      v ← entry_get e;
      if is_valid (PTE_FLAGS v) then mret 0 else PANIC
  end.

(** ** Copying an address space *)

(** [copy_sections] onto the list [to]: each copy goes to its front. *)
Fixpoint copy_sections (from to : list (Z * section)) : U (list (Z * section)) :=
  match from with
  | [] => mret to
  | (_, st) :: from' =>
      a ← on_pt (on_mem (kalloc sizeof_section));
      (if negb (se_fp st =? 0) then modify (add_file_call (Dup_file (se_fp st))) else mret tt) ;;
      copy_sections from' ((a, st) :: to)
  end.

(** A call on the page directory with root [root]; the root it leaves. *)
Definition with_root {A} (root : Z) (c : M PtState A) : U (A * Z) := fun s =>
  let s1 := as_pt s in
  match c (mkPt (pt_mem s1) (pt_tabs s1) root) with
  | Done a x => Done (a, pt_root x) (set_pt (mkPt (pt_mem x) (pt_tabs x) (pt_root s1)) s)
  | Panicked x => Panicked (set_pt (mkPt (pt_mem x) (pt_tabs x) (pt_root s1)) s)
  | Blocked x => Blocked (set_pt (mkPt (pt_mem x) (pt_tabs x) (pt_root s1)) s)
  | Undefined => Undefined
  end.

(** [copyout(pd, va, p, len)] of a list of bytes. Each round copies a byte at
    least. *)
Fixpoint copyout_loop (fuel : nat) (root va : Z) (p : list Z) : U Z :=
  match p with
  | [] => mret root
  | _ =>
      match fuel with
      | O => undefined
      | S fuel' =>
          let va_off := PAGE_BASE va in
          let n := Nat.min (length p) (Z.to_nat (PAGE_SIZE - (va - va_off))) in
          '(r, root) ← with_root root (r ← get_pte va true; e ← deref r; pte_get e.1 e.2);
          page_write (P2K (PTE_ADDRESS r)) (Z.to_nat (va - va_off)) (take n p) ;;
          copyout_loop fuel' root (u64 (va + Z.of_nat n)) (drop n p)
      end
  end.
Definition copyout (root va : Z) (p : list Z) : U Z := copyout_loop (length p) root va p.

(** The loop of [fork] over the sections of the caller, for the directory of
    the child with root [child]. *)
Definition fork_page (child : Z) (va : Z) : U Z :=
  r ← on_pt (get_pte va false);
  match r with
  | None => mret child
  | Some e =>
      v ← entry_get e;
      if is_valid v then
        new_page ← on_pt (on_mem kalloc_page);
        '(_, child) ← with_root child (vmmap va new_page (PTE_FLAGS v));
        s ← get_state;
        copyout child va (as_pages s (P2K (PTE_ADDRESS v)))
      else mret child
  end.

Fixpoint fork_range (fuel : nat) (child va end_ : Z) : U Z :=
  if va <? end_ then
    match fuel with
    | O => undefined
    | S fuel' => child ← fork_page child va; fork_range fuel' child (u64 (va + PAGE_SIZE)) end_
    end
  else mret child.

Fixpoint fork_memory (secs : list (Z * section)) (child : Z) : U Z :=
  match secs with
  | [] => mret child
  | (_, st) :: secs' =>
      child ← fork_range (pages_in (PAGE_BASE (se_begin st)) (se_end st)) child (PAGE_BASE (se_begin st)) (se_end st);
      fork_memory secs' child
  end.
End device.

(** ** Entries *)

Lemma find_entry_page s va va' : 0 <= va -> 0 <= va' -> va / 4096 = va' / 4096 -> find_entry s va = find_entry s va'.
Proof.
  intros H H' E. destruct (VA_PARTS va H) as (A0 & A1 & A2 & A3 & _). destruct (VA_PARTS va' H') as (B0 & B1 & B2 & B3 & _).
  assert (forall k, 12 <= k -> va / 2 ^ k = va' / 2 ^ k) as Hk.
  { intros k Hk. replace (2 ^ k) with (4096 * 2 ^ (k - 12)) by (change 4096 with (2 ^ 12); rewrite <- Z.pow_add_r by lia; f_equal; lia).
    rewrite <- !Z.div_div by (try lia; apply Z.pow_pos_nonneg; lia). by rewrite E. }
  unfold find_entry. by rewrite A0, A1, A2, A3, B0, B1, B2, B3, !Hk by lia.
Qed.

Lemma translate_entry s va e : find_entry s va = Some e -> translate s va = if is_valid e then Some (PTE_ADDRESS e + VA_OFFSET va) else None.
Proof. intros E. unfold translate. by rewrite E. Qed.

Lemma page_start va : 0 <= va < 2 ^ 48 -> vpage (va / 4096) /\ 0 <= 4096 * (va / 4096) /\ 4096 * (va / 4096) / 4096 = va / 4096 /\ VA_OFFSET (4096 * (va / 4096)) = 0.
Proof.
  intros Hv. assert (0 <= va / 4096 < 2 ^ 36) as Hp by (split; [apply Z.div_pos; lia|apply Z.div_lt_upper_bound; lia]). split_and!; [done|lia|rewrite Z.mul_comm, Z.div_mul; lia|].
  destruct (VA_PARTS (4096 * (va / 4096))) as (_ & _ & _ & _ & ->); [lia|]. rewrite Z.mul_comm. by apply Z.mod_mul.
Qed.

Lemma entry_maps s va e : 0 <= va < 2 ^ 48 -> find_entry s va = Some e -> is_valid e = true -> maps s (va / 4096) (P2K (PTE_ADDRESS e)).
Proof.
  intros Hv E Hval. destruct (page_start va Hv) as (_ & H1 & H2 & H3). exists (PTE_ADDRESS e). split; [|done].
  rewrite (translate_entry _ _ e), Hval, H3, Z.add_0_r; [done|]. rewrite (find_entry_page _ _ va) by lia. done.
Qed.

Lemma wp_entry_get s t i l e (Q : Z -> AS -> Prop) : pt_tabs (as_pt s) !! t = Some l -> l !! Z.to_nat i = Some e -> Q e s -> wp (entry_get (t, i)) Q s.
Proof. intros E1 E2 HQ. apply wp_zoom. eapply wp_pte_get; [exact E1|exact E2|]. by destruct s. Qed.

(** ** Shrinking the heap *)

(** The translation after the pages [lo] to [hi - 1] are gone. *)
Definition cut_pages (lo hi : Z) (s s' : PtState) : Prop :=
  forall va, 0 <= va < 2 ^ 48 -> translate s' va = if decide (lo <= va / 4096 < hi) then None else translate s va.

Lemma wp_drop_page T s va :
  space_ok None T (as_pt s) -> 0 <= va < 2 ^ 48 ->
  wp (drop_page va) (fun _ s' => exists p, s' = set_pt p s /\ space_ok None T p /\ cut_pages (va / 4096) (va / 4096 + 1) (as_pt s) p) s.
Proof.
  intros H Hv. unfold drop_page. apply wp_bind, wp_zoom.
  assert (set_pt (as_pt s) s = s) as Es by (by destruct s).
  unfold wp. rewrite (proj1 (get_pte_spec T (as_pt s) va (so_pt _ _ _ H) ltac:(lia))). rewrite Es.
  assert (translate (as_pt s) va = None -> cut_pages (va / 4096) (va / 4096 + 1) (as_pt s) (as_pt s)) as Hnone.
  { intros E va' Hv'. destruct (decide _) as [Hp|]; [|done]. unfold translate in *. rewrite (find_entry_page _ va' va) by lia.
    destruct (find_entry (as_pt s) va) as [e|]; [|done]. simpl in *. by destruct (is_valid e). }
  pose proof (find_entry_tree T (as_pt s) va (so_pt _ _ _ H) ltac:(lia)) as Ef. destruct (T !! path_of va) as [t|] eqn:Et; cbn [fmap option_fmap option_map mbind option_bind] in *.
  2: { apply wp_ret. exists (as_pt s). rewrite Es. split_and!; try done. apply Hnone. unfold translate. by rewrite Ef. }
  pose proof (VA_PART_range va ltac:(lia)) as (_ & _ & _ & R3). destruct (po_entry T (as_pt s) _ t _ (so_pt _ _ _ H) Et R3) as (l & e & El & Hl & Ee).
  rewrite El in Ef. cbn in Ef. rewrite Ee in Ef. apply wp_bind, (wp_entry_get _ t _ l e); [done|done|]. destruct (is_valid e) eqn:Ev.
  2: { apply wp_ret. exists (as_pt s). rewrite Es. split_and!; try done. apply Hnone. by rewrite (translate_entry _ _ _ Ef), Ev. }
  destruct (page_start va Hv) as (Hp & _). apply wp_bind, wp_zoom. apply (wp_space_kfree T (as_pt s) (va / 4096) (P2K (PTE_ADDRESS e))); [done|done|by apply entry_maps|].
  intros p Hok Etab Er _ _ _. apply wp_zoom. cbn [as_pt set_pt]. eapply wp_pte_set; [rewrite Etab; exact El|exact Ee|]. cbn [fst snd].
  rewrite Etab. eexists. split; [by destruct s|].
  destruct (space_unmap T p va t l) as [Hok' Htr]; [done|done|done|by rewrite Etab|]. rewrite Etab in Hok', Htr. split; [done|].
  intros va' Hv'. rewrite Htr by done. assert (translate p va' = translate (as_pt s) va') as -> by (unfold translate, find_entry; by rewrite Etab, Er).
  destruct (Z.eqb_spec (va' / 4096) (va / 4096)); destruct (decide _); try done; lia.
Qed.

Lemma wp_section_at s i a st (Q : Z * section -> AS -> Prop) : as_secs s !! i = Some (a, st) -> Q (a, st) s -> wp (section_at i) Q s.
Proof. intros E HQ. apply wp_bind, wp_get_state. by eapply wp_deref. Qed.

Section sbrk.
Context (read : Z -> list Z).

(** C37: [sbrk] takes its argument as a number of pages, not of bytes as its comment
    ("a multiple of PAGE_SIZE") and its callers in pagingtest.c take it: it returns
    the old end of the heap and moves it by [size] times PAGE_SIZE. When
    the heap shrinks, exactly the pages above the new end lose their
    translation, and a page goes back to the allocator only when nothing else
    maps it; otherwise no translation changes. Shrinking below the start fails
    an assertion. *)
Theorem sbrk_spec T s size i a st :
  space_ok None T (as_pt s) -> heap_from (as_secs s) 0 None = Some i -> as_secs s !! i = Some (a, st) ->
  0 <= se_begin st <= se_end st -> se_end st <= 2 ^ 48 -> flag (se_flags st) ST_SWAP = false -> - 2 ^ 19 < size ->
  let e' := se_end st + size * PAGE_SIZE in
  e' < 2 ^ 64 ->
  (se_begin st <= e' -> wp (sbrk read size) (fun r s' => r = se_end st /\
     as_secs s' = <[i := (a, set_send e' st)]> (as_secs s) /\ as_pages s' = as_pages s /\ as_calls s' = as_calls s /\
     space_ok None T (as_pt s') /\ cut_pages (e' / 4096) (e' / 4096 - size) (as_pt s) (as_pt s')) s) /\
  (e' < se_begin st -> panics (sbrk read size) (fun s' => s' = s) s).
Proof.
  intros H Hi Est Hb He Hsw Hsz e' Hlim. unfold PAGE_SIZE in *. assert (se_begin st <= e' -> u64 e' = e') as Eu by (intros; unfold u64; apply wrap_small; lia).
  split.
  - intros Hle. specialize (Eu Hle). unfold sbrk. apply wp_bind, wp_get_state. rewrite Hi. apply wp_bind, (wp_section_at _ _ a st); [done|]. fold e'. apply wp_bind.
    destruct (Z.leb_spec 0 size) as [Hs|Hs].
    + apply wp_modify, wp_ret. cbn. unfold PAGE_SIZE. fold e'. rewrite Eu. split_and!; try done. intros va _. destruct (decide _); [lia|done].
    + apply wp_bind, wp_assert. { unfold u64, PAGE_SIZE. rewrite !(wrap_small 64) by (rewrite ?wrap_small; lia). apply Z.leb_le. lia. }
      apply wp_bind, wp_modify. rewrite Hsw. apply wp_bind, wp_ret. unfold PAGE_SIZE. fold e'. rewrite Eu. set (s1 := set_secs _ s).
      eapply wp_mono; [apply (wp_for_each (fun k s' => exists p, s' = set_pt p s1 /\ space_ok None T p /\ cut_pages (e' / 4096) (e' / 4096 + k) (as_pt s) p))|].
      * exists (as_pt s). split_and!; [by destruct s|done|]. intros va _. destruct (decide _); [lia|done].
      * intros k s' Hk (p & -> & Hok & Hcut). apply wp_bind, (wp_section_at _ _ a (set_send e' st)).
        { cbn. apply list_lookup_insert_eq. by eapply lookup_lt_Some. }
        assert (int_of (k * 4096) = k * 4096) as Ek by (unfold int_of; rewrite wrap_small; lia). cbn [se_end set_send].
        assert (u64 (e' + int_of (k * 4096)) = e' + k * 4096) as -> by (rewrite Ek; unfold u64; apply wrap_small; lia).
        eapply wp_mono; [apply (wp_drop_page T (set_pt p s1)); [done|lia]|]. intros [] s' (p' & -> & Hok' & Hcut'). exists p'. split_and!; [done|done|].
        intros va Hv. rewrite Hcut' by done. cbn [as_pt set_pt]. rewrite Hcut by done. rewrite Z.div_add by lia.
        repeat destruct (decide _); try done; lia.
      * intros [] s' (p & -> & Hok & Hcut). apply wp_ret. cbn. split_and!; try done. rewrite Z2Nat.id in Hcut by lia.
        replace (e' / 4096 - size) with (e' / 4096 + - size) by lia. done.
  - intros Hlt. unfold sbrk. eapply panics_bind, wp_get_state. rewrite Hi. eapply panics_bind, wp_section_at; [done|].
    rewrite (proj2 (Z.leb_gt 0 size)) by lia. eapply panics_bind_l, panics_bind_l. unfold ASSERT.
    assert ((u64 (u64 (- size) * PAGE_SIZE) <=? u64 (se_end st - se_begin st)) = false) as ->; [|done].
    unfold u64, PAGE_SIZE. rewrite !(wrap_small 64) by (rewrite ?wrap_small; lia). apply Z.leb_gt. lia.
Qed.
End sbrk.

(** ** Page faults *)

(** The page of [va] is now the page at [q], readable and writable; nothing else
    changes. *)
Record remapped (va q : Z) (s s' : PtState) : Prop := {
  re_entry : find_entry s' va = Some (Z.lor (K2P q) PTE_USER_DATA);
  re_translate : forall va', 0 <= va' < 2 ^ 48 -> translate s' va' = if va' / 4096 =? va / 4096 then Some (K2P q + VA_OFFSET va') else translate s va';
}.

Lemma wp_map_new hole T s va q (Q : unit -> AS -> Prop) :
  space_ok hole T (as_pt s) -> (forall w, hole = Some w -> w = va / 4096) -> 0 <= va < 2 ^ 48 -> (3 <= length (nodes (as_pt s)))%nat ->
  own T (as_pt s) hole q -> 0 <= refs (as_pt s) q ->
  (forall p T', space_ok None T' p -> T ⊆ T' -> remapped va q (as_pt s) p -> Q tt (set_pt p s)) ->
  wp (on_pt (vmmap va q PTE_USER_DATA)) Q s.
Proof.
  intros H Hh Hv Hn Hq Hr HQ. pose proof (kpage_base q (ow_page _ _ _ _ Hq)) as Eb. apply wp_zoom.
  eapply wp_mono; [apply (wp_space_vmmap hole T (as_pt s) va q PTE_USER_DATA); try done; by rewrite Eb|].
  rewrite Eb. intros [] p (T' & t & l & Hok & [_ Hsub Ht El Ee Htr _ _ _ _ _ _ _]). apply (HQ p T'); [done|done|]. split; [|done].
  rewrite (find_entry_tree T' p va (so_pt _ _ _ Hok) ltac:(lia)), Ht. simpl. by rewrite El.
Qed.

Lemma flags_valid v : is_valid (PTE_FLAGS v) = is_valid v.
Proof. unfold is_valid, PTE_FLAGS, PTE_VALID. by rewrite <- Z.land_assoc. Qed.

(** A directory entry, read where [get_pte] said it is. *)
Lemma wp_entry_found T s va t e (Q : Z -> AS -> Prop) :
  pt_ok T (as_pt s) -> 0 <= va -> T !! path_of va = Some t -> find_entry (as_pt s) va = Some e -> Q e s -> wp (entry_get (t, VA_PART3 va)) Q s.
Proof.
  intros H Hv Ht Ef HQ. pose proof (VA_PART_range va Hv) as (_ & _ & _ & R3). destruct (po_entry T (as_pt s) _ t _ H Ht R3) as (l & e' & El & _ & Ee).
  rewrite (find_entry_tree T _ va H Hv), Ht in Ef. simpl in Ef. rewrite El in Ef. simpl in Ef. apply (wp_entry_get _ t _ l e); [done|congruence|done].
Qed.

Section pgfault.
Context (read : Z -> list Z).

(** What a fault at [addr] does, by the entry [e] of the page. *)
Definition faulted (s : AS) (addr e : Z) (s' : AS) : Prop :=
  if e =? 0 then exists q, q ∈ nodes (as_pt s) /\ remapped addr q (as_pt s) (as_pt s') /\ as_pages s' = as_pages s
  else if flag (PTE_FLAGS e) PTE_RO then exists q, q ∈ nodes (as_pt s) /\ remapped addr q (as_pt s) (as_pt s') /\
    as_pages s' q = as_pages s (P2K (PTE_ADDRESS e)) /\ forall x, x <> q -> as_pages s' x = as_pages s x
  else as_pages s' = as_pages s /\ forall va, 0 <= va -> translate (as_pt s') va = translate (as_pt s) va.

Lemma wp_fault_entry T s addr t e :
  space_ok None T (as_pt s) -> 0 <= addr < 2 ^ 48 -> (4 <= length (nodes (as_pt s)))%nat -> (forall q, length (as_pages s q) = 4096%nat) ->
  T !! path_of addr = Some t -> find_entry (as_pt s) addr = Some e -> e = 0 \/ is_valid e = true ->
  wp (if e =? 0 then
         new_page ← on_pt (on_mem kalloc_page);
         on_pt (vmmap addr new_page PTE_USER_DATA)
       else if flag (PTE_FLAGS e) PTE_RO then
         new_page ← on_pt (on_mem kalloc_page);
         let old_page := P2K (PTE_ADDRESS e) in
         s ← get_state;
         page_write new_page 0 (as_pages s old_page) ;;
         on_pt (on_mem (kfree_page old_page)) ;;
         on_pt (vmmap addr new_page PTE_USER_DATA)
       else mret tt) (fun _ s' => as_secs s' = as_secs s /\ as_calls s' = as_calls s /\ faulted s addr e s' /\
         exists T' e', space_ok None T' (as_pt s') /\ T' !! path_of addr = Some t /\ find_entry (as_pt s') addr = Some e' /\ is_valid e' = true) s.
Proof.
  intros H Hv Hn Hpages Ht Ef Hval. unfold faulted.
  destruct (nodes (as_pt s)) as [|q ps] eqn:En; [simpl in Hn; lia|]. simpl in Hn.
  assert (is_valid (Z.lor (K2P q) PTE_USER_DATA) = true) as Hvu by (by apply is_valid_lor).
  destruct (Z.eqb_spec e 0) as [E0|E0].
  - apply wp_bind, wp_zoom. apply (wp_space_kalloc None T (as_pt s) q ps); [done|done|]. intros p1 H1 Hq Hr Etab Eroot En1.
    apply (wp_map_new None T (set_pt p1 s) addr q); try done; [cbn; rewrite En1; lia|cbn; lia|].
    intros p2 T2 H2 Hsub [R1 R2]. split_and!; try done.
    + exists q. split_and!; [by left| |done]. split; [done|]. intros va' Hv'. rewrite R2 by done. cbn [as_pt set_pt]. unfold translate, find_entry. by rewrite Etab, Eroot.
    + exists T2, (Z.lor (K2P q) PTE_USER_DATA). split_and!; try done. by eapply lookup_weaken.
  - destruct Hval as [|Hval]; [done|]. destruct (flag (PTE_FLAGS e) PTE_RO).
    + set (old := P2K (PTE_ADDRESS e)). apply wp_bind, wp_zoom. apply (wp_space_kalloc None T (as_pt s) q ps); [done|done|]. intros p1 H1 Hq Hr Etab Eroot En1.
      apply wp_bind, wp_get_state. apply wp_bind, wp_modify. apply wp_bind, wp_zoom. cbn [as_pt set_pt set_pages].
      assert (forall va, find_entry p1 va = find_entry (as_pt s) va) as Efe by (intros va; unfold find_entry; by rewrite Etab, Eroot).
      destruct (page_start addr Hv) as (Hp & _).
      assert (maps p1 (addr / 4096) old) as Hm by (apply entry_maps; [done|by rewrite Efe|done]).
      assert (q <> old) as Hqo by (intros ->; by apply (ow_maps _ _ _ _ Hq (addr / 4096))).
      apply (wp_space_kfree T p1 (addr / 4096) old); [done|done|done|]. intros p2 H2 Etab2 Eroot2 Hlen Hnodes Hrefs.
      assert (forall w x, maps p2 w x -> maps p1 w x) as Hm2 by (intros w x (pa & E & ->); exists pa; split; [|done]; unfold translate, find_entry in *; by rewrite Etab2, Eroot2 in E).
      match goal with |- wp _ _ ?st => set (s2 := st) end.
      apply (wp_map_new (Some (addr / 4096)) T s2 addr q); try done.
      * intros w [= ->]. done.
      * cbn. rewrite En1 in Hlen. lia.
      * destruct Hq as [K1 K2 K3 K4]. split; try done; cbn.
        -- intros Hin. destruct (Hnodes q Hin) as [->|?]; done.
        -- intros w Hw _ Hx. apply (K4 w Hw ltac:(done)). by apply Hm2.
      * cbn. rewrite Hrefs; [lia|apply Hq|done].
      * intros p3 T3 H3 Hsub [R1 R2]. split_and!; try done.
        -- exists q. split_and!; [by left| | |].
           ++ split; [done|]. intros va' Hv'. rewrite R2 by done. change (as_pt s2) with p2. unfold translate, find_entry. by rewrite Etab2, Eroot2, Etab, Eroot.
           ++ cbn. rewrite Z.eqb_refl. unfold splice. rewrite Hpages. cbn [take]. rewrite drop_ge by (rewrite Hpages; lia). cbn. by rewrite app_nil_r.
           ++ intros x Hx. cbn. by rewrite (proj2 (Z.eqb_neq x q)).
        -- exists T3, (Z.lor (K2P q) PTE_USER_DATA). split_and!; try done. by eapply lookup_weaken.
    + apply wp_ret. split_and!; try done. by exists T, e.
Qed.

(** C36: A page fault at an address that lies in a section returns to the user
    with the address mapped, and keeps the invariant of the address space: a
    page that was never touched gets a page of its own from the free ones
    (with whatever the memory held), a read-only page is replaced by a
    writable copy with the same bytes, whatever the section allows, and the
    old one goes back to the allocator only when nothing else maps it; a fault
    at a writable page changes nothing. No other translation and no other
    page changes. A fault outside of every section fails an assertion. *)
Theorem pgfault_spec T s addr :
  space_ok None T (as_pt s) -> 0 <= addr < 2 ^ 48 ->
  match section_of (as_secs s) addr 0 with
  | None => panics (pgfault_handler read addr) (fun s' => s' = s) s
  | Some i => forall a st, as_secs s !! i = Some (a, st) -> flag (se_flags st) ST_SWAP = false -> (7 <= length (nodes (as_pt s)))%nat ->
      (forall q, length (as_pages s q) = 4096%nat) ->
      let e := default 0 (find_entry (as_pt s) addr) in
      e = 0 \/ is_valid e = true ->
      wp (pgfault_handler read addr) (fun r s' => r = 0 /\ as_secs s' = as_secs s /\ as_calls s' = as_calls s /\ faulted s addr e s' /\
        exists T', space_ok None T' (as_pt s')) s
  end.
Proof.
  intros H Hv. destruct (section_of (as_secs s) addr 0) as [i|] eqn:Ei.
  2: { unfold pgfault_handler. eapply panics_bind, wp_get_state. by rewrite Ei. }
  intros a st Est Hsw Hn Hpages e Hval. unfold pgfault_handler. apply wp_bind, wp_get_state. rewrite Ei. apply wp_bind, (wp_section_at _ _ a st); [done|].
  rewrite Hsw. apply wp_bind, wp_ret. apply wp_bind, wp_zoom.
  eapply wp_mono; [apply (wp_space_get_pte None T (as_pt s) addr H ltac:(lia)); lia|].
  intros r p1 (T1 & t & -> & H1 & Ht & Htr & (u & Eu & Hu) & Ef). fold e in Ef. apply wp_bind. eapply wp_deref; [done|].
  set (s1 := set_pt p1 s). apply wp_bind, (wp_entry_found T1 s1 addr t e); [apply H1|lia|done|done|].
  assert (length (nodes (as_pt s)) <= 3 + length (nodes p1))%nat as Hlen by (rewrite Eu, length_app; lia).
  apply wp_bind. eapply wp_mono; [apply (wp_fault_entry T1 s1 addr t e H1 Hv); try done; cbn; lia|].
  intros [] s2 (E1 & E2 & Hf & T2 & e' & H2 & Ht2 & Ef2 & Hv2).
  apply wp_bind, (wp_entry_found T2 s2 addr t e'); [apply H2|lia|done|done|]. rewrite flags_valid, Hv2. apply wp_ret. split_and!; try done; [|by exists T2].
  assert (forall q, q ∈ nodes p1 -> q ∈ nodes (as_pt s)) as Hnodes by (intros q Hq; rewrite Eu; apply elem_of_app; by right).
  assert (forall q, remapped addr q p1 (as_pt s2) -> remapped addr q (as_pt s) (as_pt s2)) as Hre.
  { intros q [R1 R2]. split; [done|]. intros va' Hv'. rewrite R2 by done. destruct (va' / 4096 =? addr / 4096); [done|]. apply Htr. lia. }
  unfold faulted in *. destruct (e =? 0); [|destruct (flag (PTE_FLAGS e) PTE_RO)].
  - destruct Hf as (q & ? & ? & ?). exists q. split_and!; auto.
  - destruct Hf as (q & ? & ? & ? & ?). exists q. split_and!; auto.
  - destruct Hf as (? & Hf). split; [done|]. intros va Hva. rewrite Hf by done. by apply Htr.
Qed.
End pgfault.

(** ** Concrete instances *)

(** An empty directory, eight free pages and a heap of two pages. *)
Definition example_root_table : Z := P2K 0x40100000.
Definition example_free : list Z := (fun k => P2K (0x40101000 + 4096 * k)) <$> seqZ 0 8.
Definition example_dir : PtState :=
  mkPt (mkMem false example_free (replicate 256 []) ∅ ∅ 0 8 0) {[example_root_table := empty_table]} example_root_table.
Definition example_heap_section : section := mkSection ST_HEAP 0 8192 (Sem.init_sem 1) 0 0 0 0.
Definition example_as : AS := mkAS example_dir (fun _ => replicate 4096 0) [(1, example_heap_section)] [].

Lemma example_free_pages q : q ∈ example_free -> kpage q /\ q <> example_root_table.
Proof.
  intros (k & -> & Hk)%list_elem_of_fmap. apply elem_of_seqZ in Hk.
  assert (k = 0 \/ k = 1 \/ k = 2 \/ k = 3 \/ k = 4 \/ k = 5 \/ k = 6 \/ k = 7) as [->|[->|[->|[->|[->|[->|[->| ->]]]]]]] by lia; vm_compute; intuition discriminate.
Qed.

Lemma example_root_page : kpage example_root_table.
Proof. vm_compute. intuition discriminate. Qed.

Lemma example_free_nodup : NoDup example_free.
Proof. apply (bool_decide_unpack _). vm_compute. exact I. Qed.

Lemma example_unmapped va : 0 <= va -> find_entry example_dir va = None.
Proof. apply empty_dir_entry; [apply lookup_singleton_eq|apply example_root_page|apply example_free_nodup|apply example_free_pages]. Qed.

Lemma example_dir_ok : space_ok None {[ [] := example_root_table ]} example_dir.
Proof. apply empty_dir_ok; [apply lookup_singleton_eq|apply example_root_page|apply example_free_nodup|apply example_free_pages]. Qed.

Lemma sbrk_spec_witness : wp (sbrk (fun _ => []) (-1)) (fun r s' => r = 8192 /\ as_secs s' = [(1, set_send 4096 example_heap_section)]) example_as.
Proof.
  destruct (sbrk_spec (fun _ => []) _ example_as (-1) 0 1 example_heap_section example_dir_ok ltac:(reflexivity) ltac:(reflexivity) ltac:(simpl; lia) ltac:(simpl; lia) ltac:(reflexivity) ltac:(lia)
    ltac:(simpl; unfold PAGE_SIZE; lia)) as [H _].
  eapply wp_mono; [apply H; simpl; unfold PAGE_SIZE; lia|]. intros r s' (-> & -> & _). split; reflexivity.
Defined.

Lemma pgfault_spec_witness : wp (pgfault_handler (fun _ => []) 0x1234) (fun r s' => r = 0 /\ faulted example_as 0x1234 0 s') example_as.
Proof.
  pose proof (pgfault_spec (fun _ => []) _ example_as 0x1234 example_dir_ok ltac:(lia)) as H. change (section_of (as_secs example_as) 0x1234 0) with (Some 0%nat) in H. cbv iota in H.
  specialize (H 1 example_heap_section ltac:(reflexivity) ltac:(reflexivity) ltac:(vm_compute; lia) ltac:(intros q; apply length_replicate)).
  cbv zeta in H. change (as_pt example_as) with example_dir in H. rewrite (example_unmapped 0x1234) in H by lia. eapply wp_mono; [apply H; by left|]. intros r s' (-> & _ & _ & Hf & _). split; [reflexivity|exact Hf].
Defined.
