(* ===== verification/Fork.v ===== *)
(** The copy of the address space in [fork] (src/kernel/proc.c): the loop over
    the sections of Paging.v gives the child the same pages with the same
    bytes, in pages of its own. *)
From Stdlib Require Import ZArith Lia.
From stdpp Require Import base numbers gmap list.
From S2P Require Import Prelude Sync Mem PageTable AddrSpace UserMem Paging.

Abbreviation child_of s r := (mkPt (pt_mem s) (pt_tabs s) r).

(** Two directories over the same memory: that of the caller, which is the
    current one, and that of the child with root [r]. *)
Record dual (T0 T1 : gmap (list Z) Z) (r : Z) (s : PtState) : Prop := {
  du_parent : space_ok None T0 s;
  du_child : space_ok None T1 (child_of s r);
  du_apart : forall p p' t, T0 !! p = Some t -> T1 !! p' <> Some t;
  du_cross : forall v w q, vpage v -> vpage w -> maps (child_of s r) v q -> ~ maps s w q;
}.

Lemma wp_with_root {A} root (c : M PtState A) (Q : A * Z -> AS -> Prop) s :
  wp c (fun a x => Q (a, pt_root x) (set_pt (mkPt (pt_mem x) (pt_tabs x) (pt_root (as_pt s))) s)) (child_of (as_pt s) root) -> wp (with_root root c) Q s.
Proof. unfold wp, with_root. by destruct (c _). Qed.

Lemma page_base_aligned va : 0 <= va < 2 ^ 64 -> va mod 4096 = 0 -> PAGE_BASE va = va.
Proof. intros Hv Hm. change (PAGE_BASE va) with (PAGE_ALIGN_DOWN va). rewrite align_down by done. pose proof (Z.div_mod va 4096). lia. Qed.

(** Copying one page out to an aligned address that is mapped. *)
Lemma wp_copyout_page T s r va t e bs (Q : Z -> AS -> Prop) :
  pt_ok T (child_of (as_pt s) r) -> T !! path_of va = Some t -> find_entry (child_of (as_pt s) r) va = Some e ->
  0 <= va < 2 ^ 48 -> va mod 4096 = 0 -> Z.of_nat (length bs) = PAGE_SIZE ->
  (let q := P2K (PTE_ADDRESS e) in Q r (set_pages (fun x => if x =? q then splice (as_pages s q) 0 bs else as_pages s x) s)) ->
  wp (copyout r va bs) Q s.
Proof.
  intros H Ht Ef Hv Hm Hlen HQ. unfold copyout. destruct bs as [|b bs]; [done|]. set (p := b :: bs) in *.
  change (length p) with (S (length bs)). cbn [copyout_loop p]. fold p.
  rewrite (page_base_aligned va) by (done || lia). rewrite Z.sub_diag, Z.sub_0_r.
  assert (Nat.min (length p) (Z.to_nat PAGE_SIZE) = length p) as -> by lia. rewrite firstn_all, drop_all.
  pose proof (VA_PART_range va ltac:(lia)) as (_ & _ & _ & R3). destruct (po_entry T _ _ t _ H Ht R3) as (l & e' & El & _ & Ee).
  rewrite (find_entry_tree T _ va H ltac:(lia)), Ht in Ef. cbn [mbind option_bind] in Ef. rewrite El in Ef. cbn [mbind option_bind] in Ef. rewrite Ee in Ef. injection Ef as ->.
  apply wp_bind, wp_with_root. apply wp_bind. unfold wp at 1. rewrite (get_pte_present T _ va t true H ltac:(lia) Ht). apply wp_bind. eapply wp_deref; [done|].
  eapply wp_pte_get; [exact El|exact Ee|]. cbn [pt_mem pt_tabs pt_root fst snd]. apply wp_bind, wp_modify.
  assert (forall n r' va', copyout_loop n r' va' [] = mret r') as -> by (by intros []).
  apply wp_ret. destruct s as [[] ? ? ?]. exact HQ.
Qed.

Lemma flags_address v : PTE_ADDRESS (PTE_FLAGS v) = 0.
Proof. unfold PTE_ADDRESS, PTE_FLAGS. rewrite <- Z.land_assoc. change (Z.land 0xFFFF000000000FFF 0x0000FFFFFFFFF000) with 0. apply Z.land_0_r. Qed.

(** Mapping a page of one's own in the child's directory. *)
Lemma dual_vmmap T0 T1 r s va q flags T1' t l s' :
  dual T0 T1 r s -> own T0 s None q -> own T1 (child_of s r) None q -> 0 <= va < 2 ^ 48 -> vmmapped T1 (child_of s r) va q flags T1' t l s' -> space_ok None T1' s' ->
  dual T0 T1' r (child_of s' (pt_root s)) /\ (forall va', 0 <= va' -> find_entry (child_of s' (pt_root s)) va' = find_entry s va').
Proof.
  intros [D1 D2 D3 D4] Hq0 Hq1 Hva Hvm Hok. pose proof (vm_root _ _ _ _ _ _ _ _ _ Hvm) as Er. cbn [pt_root] in Er.
  destruct (vm_nodes _ _ _ _ _ _ _ _ _ Hvm) as (u & Eu & _). cbn [pt_mem] in Eu.
  assert (forall p p' x, T0 !! p = Some x -> T1' !! p' <> Some x) as Hap.
  { intros p p' x E0 E1. destruct (vm_new _ _ _ _ _ _ _ _ _ Hvm p' x E1) as [E|Hin]; [by apply (D3 p p' x)|]. cbn in Hin.
    destruct (po_free _ _ (so_pt _ _ _ D1)) as [_ Hf]. by apply (proj2 (Hf x Hin) p). }
  set (s1 := child_of s' (pt_root s)).
  assert (forall p x, T0 !! p = Some x -> pt_tabs s1 !! x = pt_tabs s !! x) as Htab.
  { intros p x Ex. apply (vm_frame _ _ _ _ _ _ _ _ _ Hvm). intros p'. by apply (Hap p p' x). }
  assert (pt_ok T0 s1) as Hpt by (by apply (pt_ok_frame T0 s s1 u (so_pt _ _ _ D1))).
  assert (forall va', 0 <= va' -> find_entry s1 va' = find_entry s va') as Hfe.
  { intros va' Hv'. rewrite (find_entry_tree T0 s1 va' Hpt Hv'), (find_entry_tree T0 s va' (so_pt _ _ _ D1) Hv'). destruct (T0 !! path_of va') as [x|] eqn:Ex; [|done].
    cbn [mbind option_bind]. by rewrite (Htab _ _ Ex). }
  assert (forall v x, vpage v -> maps s1 v x <-> maps s v x) as Hm.
  { intros v x Hv. apply vpage_range in Hv. unfold maps, translate. rewrite Hfe by lia. done. }
  split; [|done]. split.
  - apply (space_keep None T0 s); try done.
    + intros v Hv _. apply vpage_range in Hv. unfold translate. rewrite Hfe by lia. done.
    + intros x Hx. rewrite Eu. apply elem_of_app. by right.
    + intros p x Ex. by left.
    + intros v x Hv _ Hx. apply (vm_refs _ _ _ _ _ _ _ _ _ Hvm); cbn [pt_mem].
      * intros E. apply (ow_maps _ _ _ _ Hq0 v Hv ltac:(done)). destruct (so_page _ _ _ D1 v x Hv ltac:(done) Hx) as (Kx & _). by rewrite (page_num_inj q x (ow_page _ _ _ _ Hq0) Kx (eq_sym E)).
      * intros y Hy. by apply (mapped_ref None T0 s v x y).
  - change (child_of s1 r) with (child_of s' r). destruct s' as [m tb rt]. cbn in *. by subst rt.
  - done.
  - intros v w x Hv Hw Hc Hx. apply Hm in Hx; [|done]. assert (maps s' v x) as Hc' by (destruct s' as [m tb rt]; cbn in *; by subst rt).
    destruct Hc' as (pa & E & ->). pose proof (vpage_range v Hv) as Hr. rewrite (vm_translate _ _ _ _ _ _ _ _ _ Hvm) in E by done.
    destruct (Z.eqb_spec (4096 * v / 4096) (va / 4096)) as [Ep|Ep].
    + injection E as <-. apply (ow_maps _ _ _ _ Hq0 w Hw ltac:(done)).
      replace q with (P2K (K2P q + VA_OFFSET (4096 * v))); [done|]. destruct (VA_PARTS (4096 * v)) as (_ & _ & _ & _ & ->); [lia|].
      rewrite (Z.mul_comm 4096), Z.mod_mul, Z.add_0_r by lia. apply P2K_K2P. apply (ow_page _ _ _ _ Hq0).
    + apply (D4 v w (P2K pa) Hv Hw); [by exists pa|done].
Qed.

(** What copying the page of [va] does. *)
Definition page_copied (r va : Z) (s s' : AS) : Prop :=
  match find_entry (as_pt s) va with
  | Some e =>
      if is_valid e then exists q, q ∈ nodes (as_pt s) /\ kpage q /\ find_entry (child_of (as_pt s') r) va = Some (Z.lor (K2P q) (PTE_FLAGS e)) /\
        (forall va', 0 <= va' < 2 ^ 48 -> translate (child_of (as_pt s') r) va' =
           if va' / 4096 =? va / 4096 then Some (K2P q + VA_OFFSET va') else translate (child_of (as_pt s) r) va') /\
        (forall va' e', 0 <= va' < 2 ^ 48 -> va' / 4096 <> va / 4096 -> find_entry (child_of (as_pt s) r) va' = Some e' -> find_entry (child_of (as_pt s') r) va' = Some e') /\
        as_pages s' q = as_pages s (P2K (PTE_ADDRESS e)) /\ forall x, x <> q -> as_pages s' x = as_pages s x
      else s' = s
  | None => s' = s
  end.

Definition whole_pages (s : AS) : Prop := forall q, Z.of_nat (length (as_pages s q)) = PAGE_SIZE.

Lemma wp_fork_page T0 T1 r s va :
  dual T0 T1 r (as_pt s) -> 0 <= va < 2 ^ 48 -> va mod 4096 = 0 -> (4 <= length (nodes (as_pt s)))%nat -> whole_pages s ->
  wp (fork_page r va) (fun r' s' => r' = r /\ (exists T1', dual T0 T1' r (as_pt s')) /\ as_secs s' = as_secs s /\ as_calls s' = as_calls s /\ whole_pages s' /\
    (forall va', 0 <= va' -> find_entry (as_pt s') va' = find_entry (as_pt s) va') /\ pt_root (as_pt s') = pt_root (as_pt s) /\
    (length (nodes (as_pt s)) <= 4 + length (nodes (as_pt s')))%nat /\ page_copied r va s s') s.
Proof.
  intros D Hv Hm Hn Hw. unfold page_copied. pose proof (so_pt _ _ _ (du_parent _ _ _ _ D)) as Hpt. assert (set_pt (as_pt s) s = s) as Es by (by destruct s).
  unfold fork_page. apply wp_bind, wp_zoom. unfold wp at 1. rewrite (proj1 (get_pte_spec T0 (as_pt s) va Hpt ltac:(lia))). rewrite Es.
  pose proof (find_entry_tree T0 (as_pt s) va Hpt ltac:(lia)) as Ef. destruct (T0 !! path_of va) as [t|] eqn:Et; cbn [fmap option_fmap option_map mbind option_bind] in *.
  2: { apply wp_ret. rewrite Ef. split_and!; try done; [by exists T1|lia]. }
  pose proof (VA_PART_range va ltac:(lia)) as (_ & _ & _ & R3). destruct (po_entry T0 (as_pt s) _ t _ Hpt Et R3) as (l & e & El & Hl & Ee).
  rewrite El in Ef. cbn [mbind option_bind] in Ef. rewrite Ee in Ef. apply wp_bind, (wp_entry_get _ t _ l e); [done|done|]. rewrite Ef. destruct (is_valid e) eqn:Ev.
  2: { apply wp_ret. split_and!; try done; [by exists T1|lia]. }
  destruct (nodes (as_pt s)) as [|q ps] eqn:En; [simpl in Hn; lia|]. simpl in Hn.
  destruct (space_kalloc None T0 (as_pt s) q ps (du_parent _ _ _ _ D) En) as (A1 & A2 & A3).
  destruct (space_kalloc None T1 (child_of (as_pt s) r) q ps (du_child _ _ _ _ D) En) as (B1 & B2 & B3).
  apply wp_bind, wp_zoom. apply (wp_kalloc_pt _ q ps); [done|apply A2|]. set (p1 := mkPt _ _ _) in A1, A2, A3 |- *.
  assert (dual T0 T1 r p1) as D1 by (split; [done|done|apply (du_apart _ _ _ _ D)|apply (du_cross _ _ _ _ D)]).
  pose proof (kpage_base q (ow_page _ _ _ _ A2)) as Eb.
  apply wp_bind, wp_with_root. cbn [as_pt set_pt]. eapply wp_mono; [apply (wp_space_vmmap None T1 (child_of p1 r) va q (PTE_FLAGS e))|].
  { exact B1. } { done. } { done. } { cbn. lia. } { by rewrite Eb. } { rewrite Eb. change (refs (child_of p1 r) q) with (refs p1 q). rewrite A3. lia. } { apply flags_address. } { by rewrite flags_valid. }
  rewrite Eb. intros [] p2 (T1' & t1 & l1 & Hok & Hvm). destruct (dual_vmmap T0 T1 r p1 va q (PTE_FLAGS e) T1' t1 l1 p2 D1 A2 B2 Hv Hvm Hok) as [D2 Hfe].
  pose proof (vm_root _ _ _ _ _ _ _ _ _ Hvm) as Er. cbn [pt_root] in Er. rewrite Er. set (p3 := child_of p2 (pt_root p1)) in *.
  assert (child_of p3 r = p2) as Ec by (destruct p2 as [m tb rt]; cbn in *; by subst rt).
  assert (find_entry (child_of p3 r) va = Some (Z.lor (K2P q) (PTE_FLAGS e))) as Efc.
  { rewrite Ec, (find_entry_tree T1' p2 va (so_pt _ _ _ Hok) ltac:(lia)), (vm_table _ _ _ _ _ _ _ _ _ Hvm). cbn [mbind option_bind]. rewrite (vm_entries _ _ _ _ _ _ _ _ _ Hvm). cbn [mbind option_bind]. apply (vm_entry _ _ _ _ _ _ _ _ _ Hvm). }
  assert (P2K (PTE_ADDRESS (Z.lor (K2P q) (PTE_FLAGS e))) = q) as Eq.
  { destruct (ow_page _ _ _ _ A2) as (Hr & Hp & _). rewrite PTE_ADDRESS_lor by (done || apply flags_address). by apply P2K_K2P. }
  apply wp_bind, wp_get_state. cbn [as_pages set_pt].
  apply (wp_copyout_page T1' _ r va t1 (Z.lor (K2P q) (PTE_FLAGS e))); [| | |done|done|apply Hw|].
  { cbn [as_pt set_pt]. rewrite Ec. apply Hok. } { apply (vm_table _ _ _ _ _ _ _ _ _ Hvm). } { exact Efc. }
  cbv zeta. rewrite Eq. cbn [as_pages as_pt set_pages set_pt as_secs as_calls].
  assert (forall x, splice (as_pages s q) 0 (as_pages s x) = as_pages s x) as Hsp.
  { intros x. unfold splice. cbn [take]. rewrite drop_ge; [cbn; by rewrite app_nil_r|]. pose proof (Hw q). pose proof (Hw x). lia. }
  rewrite Hsp. destruct (vm_nodes _ _ _ _ _ _ _ _ _ Hvm) as (u & Eu & Hu).
  split_and!; try done.
  - by exists T1'.
  - intros x. cbn. destruct (x =? q); apply Hw.
  - simpl. change (m_nodes (pt_mem (child_of p1 r))) with ps in Eu. change (m_nodes (pt_mem p3)) with (m_nodes (pt_mem p2)). rewrite Eu, length_app. lia.
  - exists q. split_and!; [by left|apply A2|exact Efc| | | |].
    + intros va' Hv'. rewrite Ec. apply (vm_translate _ _ _ _ _ _ _ _ _ Hvm va' Hv').
    + intros va' e' Hv' Hne Ee'. rewrite Ec. by apply (vm_others _ _ _ _ _ _ _ _ _ Hvm).
    + cbn. by rewrite Z.eqb_refl.
    + intros x Hx. cbn. by rewrite (proj2 (Z.eqb_neq x q)).
Qed.

(** ** The whole copy *)

(** The virtual page [v] of the child is a copy of that of the caller, as it was
    in [s0]. *)
Definition copy_of (s0 : AS) (r v : Z) (s : AS) : Prop :=
  match find_entry (as_pt s0) (4096 * v) with
  | Some e => is_valid e = true -> exists q, kpage q /\ find_entry (child_of (as_pt s) r) (4096 * v) = Some (Z.lor (K2P q) (PTE_FLAGS e)) /\
      as_pages s q = as_pages s0 (P2K (PTE_ADDRESS e))
  | None => True
  end.
Definition mapped_at (s : PtState) (v : Z) : Prop := translate s (4096 * v) <> None.

(** The pages in [P] are copied, the others are as they were. *)
Record copying (T0 : gmap (list Z) Z) (s0 : AS) (r : Z) (P : Z -> Prop) (s : AS) : Prop := {
  cp_dual : exists T1, dual T0 T1 r (as_pt s);
  cp_secs : as_secs s = as_secs s0;
  cp_calls : as_calls s = as_calls s0;
  cp_whole : whole_pages s;
  cp_entry : forall va, 0 <= va -> find_entry (as_pt s) va = find_entry (as_pt s0) va;
  cp_pages : forall v q, vpage v -> maps (as_pt s0) v q -> as_pages s q = as_pages s0 q;
  cp_done : forall v, vpage v -> P v -> copy_of s0 r v s;
  cp_rest : forall v, vpage v -> ~ (P v /\ mapped_at (as_pt s0) v) -> translate (child_of (as_pt s) r) (4096 * v) = translate (child_of (as_pt s0) r) (4096 * v);
}.

Lemma copy_maps s0 r v s e : vpage v -> find_entry (as_pt s0) (4096 * v) = Some e -> is_valid e = true -> copy_of s0 r v s ->
  exists q, kpage q /\ find_entry (child_of (as_pt s) r) (4096 * v) = Some (Z.lor (K2P q) (PTE_FLAGS e)) /\
    as_pages s q = as_pages s0 (P2K (PTE_ADDRESS e)) /\ maps (child_of (as_pt s) r) v q.
Proof.
  intros Hv Ee Hval Hc. unfold copy_of in Hc. rewrite Ee in Hc. destruct (Hc Hval) as (q & Kq & Ef & Ep). exists q. split_and!; try done.
  pose proof (vpage_range v Hv) as Hr. pose proof (entry_maps (child_of (as_pt s) r) (4096 * v) _ Hr Ef ltac:(apply is_valid_lor; by rewrite flags_valid)) as Hm.
  rewrite PTE_ADDRESS_lor in Hm by (apply Kq || apply flags_address). rewrite P2K_K2P in Hm by apply Kq.
  replace (4096 * v / 4096) with v in Hm by (rewrite Z.mul_comm, Z.div_mul; lia). done.
Qed.

Lemma copying_step T0 s0 r P s s' v0 :
  vpage v0 -> copying T0 s0 r P s -> (exists T1', dual T0 T1' r (as_pt s')) -> as_secs s' = as_secs s -> as_calls s' = as_calls s -> whole_pages s' ->
  (forall va', 0 <= va' -> find_entry (as_pt s') va' = find_entry (as_pt s) va') -> page_copied r (4096 * v0) s s' ->
  copying T0 s0 r (fun v => P v \/ v = v0) s'.
Proof.
  intros Hv0 [(T1 & D) C2 C3 C4 C5 C6 C7 C8] D' Es Ec Hw Hfe Hpc. pose proof (vpage_range v0 Hv0) as Hr0. unfold page_copied in Hpc. rewrite C5 in Hpc by lia.
  assert (forall v, 4096 * v / 4096 = v) as Hdiv by (intros v; rewrite Z.mul_comm, Z.div_mul; lia).
  assert (forall v q, vpage v -> maps (as_pt s0) v q -> maps (as_pt s) v q) as Hm0.
  { intros v q Hv. pose proof (vpage_range v Hv). unfold maps, translate. by rewrite C5 by lia. }
  destruct (find_entry (as_pt s0) (4096 * v0)) as [e|] eqn:Ee; [destruct (is_valid e) eqn:Ev|].
  - destruct Hpc as (q & Hq & Kq & Efq & Htr & Hoth & Epg & Epgs).
    assert (forall v x, vpage v -> maps (as_pt s) v x -> x <> q) as N0.
    { intros v x Hv Hx ->. by destruct (so_page _ _ _ (du_parent _ _ _ _ D) v q Hv ltac:(done) Hx) as (_ & ? & _). }
    assert (forall v x, vpage v -> maps (child_of (as_pt s) r) v x -> x <> q) as N1.
    { intros v x Hv Hx ->. by destruct (so_page _ _ _ (du_child _ _ _ _ D) v q Hv ltac:(done) Hx) as (_ & ? & _). }
    split; try congruence; try done.
    + intros va Hva. rewrite Hfe by done. by apply C5.
    + intros v x Hv Hx. rewrite Epgs; [by apply (C6 v)|]. apply (N0 v x Hv). by apply Hm0.
    + intros v Hv HP. destruct (decide (v = v0)) as [->|Hne].
      * unfold copy_of. rewrite Ee. intros _. exists q. split_and!; [done|done|]. rewrite Epg. apply (C6 v0 _ Hv0). rewrite <- (Hdiv v0). apply entry_maps; [done|by rewrite ?Hdiv|done].
      * destruct HP as [HP| ->]; [|done]. unfold copy_of. destruct (find_entry (as_pt s0) (4096 * v)) as [e'|] eqn:Ee'; [|done]. intros Ev'.
        destruct (copy_maps s0 r v s e' Hv Ee' Ev' (C7 v Hv HP)) as (x & Kx & Ex & Epx & Hmx). exists x. split_and!; [done| |].
        -- apply Hoth; [by apply vpage_range|by rewrite !Hdiv|done].
        -- rewrite Epgs by (by apply (N1 v)). done.
    + intros v Hv HP. assert (v <> v0) as Hne.
      { intros ->. apply HP. split; [by right|]. unfold mapped_at, translate. rewrite Ee. cbn. by rewrite Ev. }
      rewrite Htr by (by apply vpage_range). rewrite !Hdiv, (proj2 (Z.eqb_neq v v0)) by done. apply C8; [done|]. intros [HP1 HP2]. apply HP. by split; [left|].
  - subst s'. split; try done.
    + intros v Hv [HP| ->]; [by apply C7|]. unfold copy_of. rewrite Ee. congruence.
    + intros v Hv HP. apply C8; [done|]. intros [HP1 HP2]. apply HP. by split; [left|].
  - subst s'. split; try done.
    + intros v Hv [HP| ->]; [by apply C7|]. unfold copy_of. by rewrite Ee.
    + intros v Hv HP. apply C8; [done|]. intros [HP1 HP2]. apply HP. by split; [left|].
Qed.

Lemma copying_ext T0 s0 r (P P' : Z -> Prop) s : (forall v, vpage v -> P v <-> P' v) -> copying T0 s0 r P s -> copying T0 s0 r P' s.
Proof. intros HP []. split; try done; intros v Hv; rewrite <- HP by done; auto. Qed.

Lemma wp_fork_range T0 s0 r end_ fuel : forall v P s,
  copying T0 s0 r P s -> 0 <= v -> 4096 * v <= 2 ^ 48 -> end_ <= 2 ^ 48 -> end_ <= 4096 * v + 4096 * Z.of_nat fuel -> (4 * fuel <= length (nodes (as_pt s)))%nat ->
  wp (fork_range fuel r (4096 * v) end_) (fun r' s' => r' = r /\ copying T0 s0 r (fun w => P w \/ v <= w /\ 4096 * w < end_) s' /\
    (length (nodes (as_pt s)) <= 4 * fuel + length (nodes (as_pt s')))%nat) s.
Proof.
  induction fuel as [|fuel IH]; intros v P s HC Hv Hv2 He Hf Hn; cbn [fork_range].
  - rewrite (proj2 (Z.ltb_ge _ _)) by lia. apply wp_ret. split_and!; [done| |lia]. apply (copying_ext T0 s0 r P); [|done]. intros w Hw. split; [by left|]. intros [?|?]; [done|lia].
  - destruct (Z.ltb_spec (4096 * v) end_) as [Hlt|Hge].
    2: { apply wp_ret. split_and!; [done| |lia]. apply (copying_ext T0 s0 r P); [|done]. intros w Hw. split; [by left|]. intros [?|?]; [done|lia]. }
    destruct (cp_dual _ _ _ _ _ HC) as (T1 & D). assert (vpage v) as Hvp by (unfold vpage; lia). apply wp_bind.
    eapply wp_mono; [apply (wp_fork_page T0 T1 r s (4096 * v) D); [lia|rewrite Z.mul_comm; by apply Z.mod_mul|lia|apply HC]|].
    intros r' s' (-> & D' & E1 & E2 & Hw & Hfe & _ & Hlen & Hpc). assert (u64 (4096 * v + PAGE_SIZE) = 4096 * (v + 1)) as -> by (unfold u64, PAGE_SIZE; rewrite wrap_small; lia).
    eapply wp_mono; [apply (IH (v + 1) (fun w => P w \/ w = v) s'); try lia; by apply (copying_step T0 s0 r P s s' v)|].
    intros r' s2 (-> & HC2 & Hlen2). split_and!; [done| |lia]. apply (copying_ext T0 s0 r (fun w => (P w \/ w = v) \/ v + 1 <= w /\ 4096 * w < end_)); [|done].
    intros w Hw'. split; [intros [[?| ->]|?]; [by left|right; lia|right; lia]|]. intros [?|?]; [by left; left|]. destruct (decide (w = v)) as [->|]; [left; by right|right; lia].
Qed.

(** The virtual page lies in one of the sections. *)
Definition in_sections (secs : list (Z * section)) (v : Z) : Prop :=
  exists a st, (a, st) ∈ secs /\ PAGE_BASE (se_begin st) <= 4096 * v < se_end st.

(** The free pages the copy may take: for each page one for its bytes and three
    for tables. *)
Definition fork_need (secs : list (Z * section)) : nat :=
  list_sum ((fun x => 4 * pages_in (PAGE_BASE (se_begin x.2)) (se_end x.2))%nat <$> secs).

Lemma wp_fork_memory T0 s0 r secs : forall P s,
  copying T0 s0 r P s -> Forall (fun x => 0 <= se_begin x.2 <= 2 ^ 48 /\ se_end x.2 <= 2 ^ 48) secs -> (fork_need secs <= length (nodes (as_pt s)))%nat ->
  wp (fork_memory secs r) (fun r' s' => r' = r /\ copying T0 s0 r (fun w => P w \/ in_sections secs w) s') s.
Proof.
  induction secs as [|[a st] secs IH]; intros P s HC Hs Hn; cbn [fork_memory].
  - apply wp_ret. split; [done|]. apply (copying_ext T0 s0 r P); [|done]. intros w Hw. split; [by left|]. intros [?|(a & st & ?%elem_of_nil & _)]; done.
  - apply Forall_cons in Hs as [[Hb He] Hs]. unfold fork_need in Hn. cbn [fmap list_fmap list_sum foldr snd] in Hn, Hb, He.
    assert (exists v, 0 <= v /\ PAGE_BASE (se_begin st) = 4096 * v /\ 4096 * v <= 2 ^ 48) as (v & Hv & Ev & Hv2).
    { change (PAGE_BASE (se_begin st)) with (PAGE_ALIGN_DOWN (se_begin st)). rewrite align_down by lia. exists (se_begin st / 4096).
      pose proof (Z.div_mod (se_begin st) 4096 ltac:(lia)). pose proof (Z.mod_pos_bound (se_begin st) 4096 ltac:(lia)). split_and!; [apply Z.div_pos|..]; lia. }
    apply wp_bind. rewrite Ev in Hn |- *. eapply wp_mono; [apply (wp_fork_range T0 s0 r (se_end st) _ v P s HC Hv Hv2 He)|].
    { unfold pages_in, PAGE_SIZE. pose proof (Z.div_mod (se_end st - 4096 * v) 4096 ltac:(lia)). pose proof (Z.mod_pos_bound (se_end st - 4096 * v) 4096 ltac:(lia)). lia. }
    { unfold list_sum in Hn. lia. }
    intros r' s' (-> & HC' & Hlen). eapply wp_mono; [apply (IH _ s' HC' Hs); unfold fork_need, list_sum in *; lia|].
    intros r' s2 (-> & HC2). split; [done|]. apply (copying_ext T0 s0 r (fun w => (P w \/ v <= w /\ 4096 * w < se_end st) \/ in_sections secs w)); [|done].
    intros w Hw. unfold in_sections. setoid_rewrite elem_of_cons. split.
    + intros [[?|?]|(b & st' & ? & ?)]; [by left|right|right]; [exists a, st; split; [by left|lia]|exists b, st'; split; [by right|done]].
    + intros [?|(b & st' & [[= -> ->]|?] & ?)]; [by left; left|left; right; lia|right; by exists b, st'].
Qed.

(** C35: The loop of [fork] copies the address space: for every page of a section
    that the caller has mapped, the child, whose directory is empty before,
    maps the same virtual page, with the same flags, to a page with the same
    bytes; the child has no other page. The caller's translations and bytes
    do not change, no page is mapped by both, and the directories stay
    well-formed. *)
Theorem fork_memory_spec T0 T1 r s :
  dual T0 T1 r (as_pt s) -> (forall v, vpage v -> translate (child_of (as_pt s) r) (4096 * v) = None) ->
  Forall (fun x => 0 <= se_begin x.2 <= 2 ^ 48 /\ se_end x.2 <= 2 ^ 48) (as_secs s) -> whole_pages s ->
  (fork_need (as_secs s) <= length (nodes (as_pt s)))%nat ->
  wp (fork_memory (as_secs s) r) (fun r' s' => r' = r /\ (exists T1', dual T0 T1' r (as_pt s')) /\
    (forall va, 0 <= va -> find_entry (as_pt s') va = find_entry (as_pt s) va) /\
    (forall v q, vpage v -> maps (as_pt s) v q -> as_pages s' q = as_pages s q) /\
    (forall v, vpage v -> in_sections (as_secs s) v -> copy_of s r v s') /\
    (forall v, vpage v -> ~ (in_sections (as_secs s) v /\ mapped_at (as_pt s) v) -> translate (child_of (as_pt s') r) (4096 * v) = None)) s.
Proof.
  intros D Hempty Hs Hw Hn. assert (copying T0 s r (fun _ => False) s) as HC by (split; try done; by exists T1).
  eapply wp_mono; [apply (wp_fork_memory T0 s r (as_secs s) _ s HC Hs Hn)|]. intros r' s' (-> & [C1 C2 C3 C4 C5 C6 C7 C8]). split_and!; try done.
  - intros v Hv Hin. apply C7; [done|by right].
  - intros v Hv Hno. rewrite C8; [by apply Hempty|done|]. intros [[[]|?] ?]. by apply Hno.
Qed.

(** ** A concrete instance: two directories, the caller's with one page *)

Lemma dual_sym T0 T1 r s : dual T0 T1 r s -> dual T1 T0 (pt_root s) (child_of s r).
Proof.
  intros [D1 D2 D3 D4]. split; [done|by destruct s| |].
  - intros p p' t E1 E2. by apply (D3 p' p t).
  - intros v w q Hv Hw H1 H2. apply (D4 w v q Hw Hv H2). by destruct s.
Qed.

Definition root_a : Z := P2K 0x40100000.
Definition root_b : Z := P2K 0x40101000.
Definition ex_pool : list Z := (fun k => P2K (0x40102000 + 4096 * k)) <$> seqZ 0 16.
Definition ex_two : PtState :=
  mkPt (mkMem false ex_pool (replicate 256 []) ∅ ∅ 0 16 0) {[root_a := empty_table; root_b := empty_table]} root_a.

Definition usable (q : Z) : bool :=
  bool_decide (KSPACE_MASK <= q < 2 ^ 64 /\ (0 <= K2P q < 2 ^ 48 /\ K2P q mod 4096 = 0) /\ 0 <= page_num q < PHYSTOP / PAGE_SIZE /\ q <> 0 /\ q <> root_a /\ q <> root_b).

Lemma ex_pool_pages q : q ∈ ex_pool -> kpage q /\ q <> root_a /\ q <> root_b.
Proof.
  intros Hq. assert (forallb usable ex_pool = true) as Hall by (vm_compute; reflexivity).
  rewrite List.forallb_forall in Hall. specialize (Hall q (proj1 (list_elem_of_In _ _) Hq)). apply bool_decide_eq_true in Hall. unfold kpage, page_at. tauto.
Qed.

Lemma ex_pool_nodup : NoDup ex_pool.
Proof. apply (bool_decide_unpack _). vm_compute. exact I. Qed.

Lemma ex_two_a : space_ok None {[ [] := root_a ]} ex_two.
Proof. apply empty_dir_ok; [apply lookup_insert_eq|vm_compute; intuition discriminate|apply ex_pool_nodup|intros q Hq; by destruct (ex_pool_pages q Hq) as (? & ? & ?)]. Qed.

Lemma ex_two_b : space_ok None {[ [] := root_b ]} (child_of ex_two root_b).
Proof. apply empty_dir_ok; [reflexivity|vm_compute; intuition discriminate|apply ex_pool_nodup|intros q Hq; by destruct (ex_pool_pages q Hq) as (? & ? & ?)]. Qed.

Lemma ex_two_none va : 0 <= va -> find_entry ex_two va = None.
Proof. apply empty_dir_entry; [apply lookup_insert_eq|vm_compute; intuition discriminate|apply ex_pool_nodup|intros q Hq; by destruct (ex_pool_pages q Hq) as (? & ? & ?)]. Qed.

Lemma ex_two_dual : dual {[ [] := root_a ]} {[ [] := root_b ]} root_b ex_two.
Proof.
  split; [apply ex_two_a|apply ex_two_b| |].
  - intros p p' t [_ <-]%lookup_singleton_Some [_ E]%lookup_singleton_Some. by vm_compute in E.
  - intros v w q Hv Hw _ (pa & E & _). apply vpage_range in Hw. unfold translate in E. by rewrite ex_two_none in E by lia.
Qed.

(** The caller maps its first page at 0x5000. *)
Definition ex_page : Z := P2K 0x40102000.
Definition ex_before : PtState := mkPt (without_page ex_page (tail ex_pool) (pt_mem ex_two)) (pt_tabs ex_two) root_a.
Definition ex_caller : PtState :=
  match vmmap 0x5000 ex_page PTE_USER_DATA (child_of ex_before root_b) with Done _ s => s | _ => ex_before end.

Lemma ex_caller_ok :
  (exists T0, dual T0 {[ [] := root_a ]} root_a ex_caller) /\ (12 <= length (nodes ex_caller))%nat /\
  (forall v, vpage v -> translate (child_of ex_caller root_a) (4096 * v) = None) /\ mapped_at ex_caller 5.
Proof.
  destruct (space_kalloc None _ ex_two ex_page (tail ex_pool) ex_two_a ltac:(reflexivity)) as (A1 & A2 & A3).
  destruct (space_kalloc None _ (child_of ex_two root_b) ex_page (tail ex_pool) ex_two_b ltac:(reflexivity)) as (B1 & B2 & B3).
  fold ex_before in A1, A2, A3. change (mkPt _ _ _) with (child_of ex_before root_b) in B1, B2, B3.
  assert (dual {[ [] := root_a ]} {[ [] := root_b ]} root_b ex_before) as D by (split; [exact A1|exact B1|apply (du_apart _ _ _ _ ex_two_dual)|apply (du_cross _ _ _ _ ex_two_dual)]).
  assert (PAGE_BASE ex_page = ex_page) as Eb by (apply kpage_base; apply (ow_page _ _ _ _ A2)).
  assert (wp (vmmap 0x5000 ex_page PTE_USER_DATA) (fun _ s' => exists T' t l, space_ok None T' s' /\ vmmapped {[ [] := root_b ]} (child_of ex_before root_b) 0x5000 ex_page PTE_USER_DATA T' t l s') (child_of ex_before root_b)) as Hrun.
  { pose proof (wp_space_vmmap None {[ [] := root_b ]} (child_of ex_before root_b) 0x5000 ex_page PTE_USER_DATA) as Hw. cbv zeta in Hw. rewrite Eb in Hw. apply Hw; [exact B1|done|lia|by vm_compute; lia|exact B2|rewrite B3; lia|reflexivity|reflexivity]. }
  unfold wp in Hrun. unfold ex_caller. destruct (vmmap _ _ _ _) as [u s'|?|?|?]; try done. destruct Hrun as (T' & t & l & Hok & Hvm).
  destruct (dual_vmmap _ _ root_b ex_before 0x5000 ex_page PTE_USER_DATA T' t l s' D A2 B2 ltac:(lia) Hvm Hok) as [D' Hfe].
  pose proof (vm_root _ _ _ _ _ _ _ _ _ Hvm) as Er. pose proof (dual_sym _ _ _ _ D') as Ds. cbn [pt_root pt_mem pt_tabs] in Er, Ds.
  assert (child_of s' root_b = s') as Es by (destruct s'; cbn in *; by subst). change (pt_root ex_before) with root_a in Ds, Hfe. rewrite Es in Ds.
  split_and!; [by exists T'| | |].
  - destruct (vm_nodes _ _ _ _ _ _ _ _ _ Hvm) as (n & En & Hn). assert (length (nodes (child_of ex_before root_b)) = 15%nat) as Hl by reflexivity. cbn [pt_mem] in En. change (length (m_nodes (pt_mem ex_before)) = 15%nat) in Hl. rewrite En, length_app in Hl. lia.
  - intros v Hv. apply vpage_range in Hv. unfold translate. rewrite Hfe by lia. change (find_entry ex_before (4096 * v)) with (find_entry ex_two (4096 * v)). by rewrite (ex_two_none (4096 * v)) by lia.
  - unfold mapped_at. rewrite (vm_translate _ _ _ _ _ _ _ _ _ Hvm) by lia. change (4096 * 5 / 4096 =? 0x5000 / 4096) with true. done.
Qed.
#[local] Opaque ex_caller.

Definition ex_data : section := mkSection ST_HEAP 0x5000 0x6000 (Sem.init_sem 1) 0 0 0 0.
Definition ex_proc : AS := mkAS ex_caller (fun q => if q =? ex_page then replicate 4096 7 else replicate 4096 0) [(1, ex_data)] [].

Lemma fork_memory_spec_witness :
  mapped_at (as_pt ex_proc) 5 /\ wp (fork_memory (as_secs ex_proc) root_a) (fun r s' => r = root_a /\ copy_of ex_proc root_a 5 s') ex_proc.
Proof.
  destruct ex_caller_ok as ((T0 & D) & Hn & Hempty & Hm). split; [exact Hm|].
  eapply wp_mono; [apply (fork_memory_spec T0 {[ [] := root_a ]} root_a ex_proc)|].
  - exact D.
  - exact Hempty.
  - repeat constructor; simpl; lia.
  - intros q. cbn [as_pages ex_proc]. destruct (q =? ex_page); rewrite length_replicate; reflexivity.
  - change (8 <= length (nodes ex_caller))%nat. lia.
  - intros r s' (-> & _ & _ & _ & Hc & _). split; [done|]. apply Hc; [unfold vpage; lia|]. exists 1, ex_data. split; [by left|]. vm_compute. intuition discriminate.
Defined.
