(* ===== verification/BlockCache.v ===== *)
(** The block cache as the inode layer sees it (src/fs/cache.h, the struct
    [BlockCache] of function pointers that [init_inodes] receives).

    [BlockCacheSpec] is what a cache promises to a client that holds one
    block at a time inside an operation; [bcache_spec] shows that the cache of
    cache.c keeps the promise. *)
From Stdlib Require Import ZArith Lia.
From stdpp Require Import base numbers gmap sets list.
From S2P Require Import Prelude Bytes Bitmap Sync FsDefs Cache CacheLaws LogLaws Crash Reserve Transactions Recent.

(** The struct of function pointers, and [block->data] behind a [Block *]. *)
Record BlockCache (S : Type) := mkBlockCache {
  bc_get_num_cached_blocks : M S Z;
  bc_acquire : Z -> M S Z;
  bc_release : Z -> M S unit;
  bc_begin_op : Z -> M S unit;
  bc_sync : Z -> Z -> M S unit;
  bc_end_op : Z -> M S unit;
  bc_alloc : Z -> M S Z;
  bc_free : Z -> Z -> M S unit;
  bc_data : Z -> M S (list Z);
  bc_store : Z -> list Z -> M S unit;
}.
Arguments bc_get_num_cached_blocks {S}.
Arguments bc_acquire {S}.
Arguments bc_release {S}.
Arguments bc_begin_op {S}.
Arguments bc_sync {S}.
Arguments bc_end_op {S}.
Arguments bc_alloc {S}.
Arguments bc_free {S}.
Arguments bc_data {S}.
Arguments bc_store {S}.

(** The global instance [bcache]. *)
Definition bcache (sblock : SuperBlock) : BlockCache CacheState :=
  mkBlockCache CacheState get_num_cached_blocks cache_acquire cache_release cache_begin_op cache_sync
    (cache_end_op sblock) (cache_alloc sblock) (cache_free sblock) block_data block_store.

(** What clients observe of a cache: the contents of the blocks, what an
    operation may still add to the log, and the blocks already in it. *)
Record Volume := mkVolume {
  v_block : Z -> list Z;
  v_rm : gmap Z Z;
  v_logged : list Z;
}.

(** Block [b] becomes [d] in operation [ctx]; a block new to the log costs one
    unit of the budget. *)
Definition v_write (ctx b : Z) (d : list Z) (v v' : Volume) : Prop :=
  (forall b', v_block v' b' = if decide (b' = b) then d else v_block v b') /\
  (forall b', b' ∈ v_logged v' <-> b' = b \/ b' ∈ v_logged v) /\
  (forall rm, v_rm v !! ctx = Some rm ->
     v_rm v' !! ctx = Some (if decide (b ∈ v_logged v) then rm else rm - 1)).

(** The same contents, budgets and log. *)
Definition v_same (v v' : Volume) : Prop :=
  (forall b, v_block v' b = v_block v b) /\ v_rm v' = v_rm v /\ v_logged v' = v_logged v.

#[export] Instance v_same_preorder : PreOrder v_same.
Proof. unfold v_same. split; [intros ?|intros ???]; naive_solver congruence. Qed.

(** An operation may sync [b]. *)
Definition v_can (ctx b : Z) (v : Volume) : Prop :=
  ctx <> 0 /\ exists rm, v_rm v !! ctx = Some rm /\ (b ∈ v_logged v \/ 0 < rm).

Class BlockCacheSpec {S : Type} (sblock : SuperBlock) (C : BlockCache S) := {
  (** Block numbers clients may use. *)
  bc_usable : Z -> Prop;
  bc_volume : S -> Volume;
  (** Between two calls, no block acquired. *)
  bc_ok : S -> Prop;
  (** The client has acquired [b] at [p] and not changed it. *)
  bc_held : Z -> Z -> S -> Prop;
  bc_block_wf : forall s b, bc_ok s -> is_block (v_block (bc_volume s) b);
  bc_acquire_spec : forall s b Q, bc_ok s -> bc_usable b ->
    (forall p s', bc_held p b s' -> v_same (bc_volume s) (bc_volume s') -> Q p s') ->
    wp (bc_acquire C b) Q s;
  bc_data_spec : forall s p b Q, bc_held p b s -> Q (v_block (bc_volume s) b) s -> wp (bc_data C p) Q s;
  (** After the release the pointer still reads the block. *)
  bc_release_spec : forall s p b Q, bc_held p b s ->
    (forall s', bc_ok s' -> v_same (bc_volume s) (bc_volume s') ->
       bc_data C p s' = Done (v_block (bc_volume s) b) s' -> Q tt s') ->
    wp (bc_release C p) Q s;
  bc_update_spec : forall A s p b ctx d (k : M S A) Q, bc_held p b s -> bc_usable b ->
    v_can ctx b (bc_volume s) -> is_block d ->
    (forall s', bc_ok s' -> v_write ctx b d (bc_volume s) (bc_volume s') -> wp k Q s') ->
    wp (bc_store C p d ;; bc_sync C ctx p ;; bc_release C p ;; k) Q s;
  bc_alloc_spec : forall s ctx rm i Q, bc_ok s -> ctx <> 0 -> v_rm (bc_volume s) !! ctx = Some rm -> 2 <= rm ->
    sb_num_blocks sblock <= BIT_PER_BLOCK -> bc_usable (sb_bitmap_start sblock) ->
    first_free (v_block (bc_volume s) (sb_bitmap_start sblock)) (sb_num_blocks sblock) i ->
    bc_usable i -> i <> sb_bitmap_start sblock ->
    (forall s', bc_ok s' ->
       (forall b, v_block (bc_volume s') b = if decide (b = i) then zero_block
          else if decide (b = sb_bitmap_start sblock)
               then set_bit (v_block (bc_volume s) (sb_bitmap_start sblock)) i true
               else v_block (bc_volume s) b) ->
       (exists rm', v_rm (bc_volume s') !! ctx = Some rm' /\ rm - 2 <= rm') ->
       (forall b, b ∈ v_logged (bc_volume s') <-> b = i \/ b = sb_bitmap_start sblock \/ b ∈ v_logged (bc_volume s)) ->
       Q i s') ->
    wp (bc_alloc C ctx) Q s;
  bc_free_spec : forall s ctx i Q, bc_ok s -> v_can ctx (sb_bitmap_start sblock) (bc_volume s) ->
    bc_usable (sb_bitmap_start sblock) -> 0 <= i < BIT_PER_BLOCK ->
    (forall s', bc_ok s' ->
       v_write ctx (sb_bitmap_start sblock)
         (set_bit (v_block (bc_volume s) (sb_bitmap_start sblock)) i false) (bc_volume s) (bc_volume s') -> Q tt s') ->
    wp (bc_free C ctx i) Q s;
  (** Block [b] was released at [p] and no block but the bitmap was used since;
      with few blocks in the log it can still be read there. *)
  bc_recent : Z -> Z -> S -> Prop;
  bc_recent_data : forall s p b, bc_recent p b s -> bc_data C p s = Done (v_block (bc_volume s) b) s;
  bc_release_recent : forall s p b, bc_held p b s ->
    Z.of_nat (length (v_logged (bc_volume s))) < EVICTION_THRESHOLD - 1 -> wp (bc_release C p) (fun _ s' => bc_recent p b s') s;
  bc_free_recent : forall s p b ctx i, bc_recent p b s -> v_can ctx (sb_bitmap_start sblock) (bc_volume s) ->
    bc_usable (sb_bitmap_start sblock) -> 0 <= i < BIT_PER_BLOCK -> wp (bc_free C ctx i) (fun _ s' => bc_recent p b s') s;
}.

(** ** The cache of cache.c keeps the contract *)

Section instance.
Context (sblock : SuperBlock).
Abbreviation tx_ok := (Reserve.tx_ok sblock).

Definition volume (s : CacheState) : Volume := mkVolume (view s) (c_ops s) (entries s).

Definition cache_ok (s : CacheState) : Prop := tx_ok ∅ s /\ c_bitmap_lock s = false.

Definition cache_held (p b : Z) (s : CacheState) : Prop :=
  tx_ok {[p]} s /\ holds s p b /\ c_bitmap_lock s = false /\ (b ∈ entries s \/ view s b = c_disk s b) /\ front p s.

Definition cache_recent (p b : Z) (s : CacheState) : Prop := cache_ok s /\ recent sblock p b s.

Lemma volume_frame s s' :
  frame s s' -> (forall b, view s' b = view s b) -> v_same (volume s) (volume s').
Proof.
  intros Hf Hv. pose proof (entries_frame _ _ Hf). destruct Hf as (_ & _ & _ & _ & _ & E). by split_and!.
Qed.

Lemma volume_synced ctx b d s s' :
  synced ctx b d s s' -> v_write ctx b d (volume s) (volume s').
Proof. intros [_ Hv Hr He]. split_and!; [done|done|]. intros rm E. exact (Hr rm E). Qed.

Lemma wp_held_acquire s b Q :
  cache_ok s -> loggable sblock b ->
  (forall p s', cache_held p b s' -> v_same (volume s) (volume s') -> Q p s') -> wp (cache_acquire b) Q s.
Proof.
  intros [Ht Hl] Hb HQ. eapply wp_mono; [apply wp_and; [by apply (acquire_kept sblock)|
    apply (wp_tx_acquire sblock s b (fun p s1 => tx_ok {[p]} s1 /\ frame s s1 /\ c_dev s1 = c_dev s /\ holds s1 p b /\ forall b', view s1 b' = view s b'));
      [done|by eapply loggable_not_start|done]]|].
  intros p s1 [[Hfr _] (Ht1 & Hf1 & Hd1 & Hh1 & Hv1)]. apply HQ; [|by apply volume_frame].
  pose proof (entries_frame _ _ Hf1) as Ee. destruct Hf1 as (_ & F & _).
  split_and!; [done|done|congruence| |done]. rewrite Ee, Hv1. unfold c_disk. rewrite Hd1.
  destruct (settled sblock ∅ s b) as [Hp|Hp]; [apply Ht|set_solver| |by right].
  left. by apply (tx_log _ _ _ Ht).
Qed.

Lemma wp_held_release s p b Q :
  cache_held p b s ->
  (forall s', cache_ok s' -> v_same (volume s) (volume s') ->
     block_data p s' = Done (view s b) s' -> Q tt s') ->
  wp (cache_release p) Q s.
Proof.
  intros (Ht & Hh & Hl & Hc & _) HQ. eapply (wp_cache_release sblock); [apply Ht|set_solver|exact Hh| |].
  { destruct Hc as [Hc|Hc]; [left; by apply (tx_log _ _ _ Ht)|by right]. }
  intros s1 Hi1 Hf1 Hd1 Hv1 Hh1 Hp1.
  assert (tx_ok ∅ s1) as Ht1.
  { eapply tx_frame; [exact Ht| |done|done]. by replace ∅ with ({[p]} ∖ {[p]} : gset Z) by set_solver. }
  apply HQ; [split; [done|]|by apply volume_frame|].
  { destruct Hf1 as (_ & F & _). congruence. }
  assert (wp (block_data p) (fun d s2 => d = view s b /\ s2 = s1) s1) as Hd.
  { eapply wp_block_data; [apply Ht1|by apply Hh1|]. by rewrite Hv1. }
  apply wp_done in Hd as (d & s2 & E & -> & ->). done.
Qed.

Lemma recent_data s p b : cache_recent p b s -> block_data p s = Done (view s b) s.
Proof.
  intros [[Ht _] [Hh _]].
  assert (wp (block_data p) (fun d s2 => d = view s b /\ s2 = s) s) as Hd by (eapply wp_block_data; [apply Ht|exact Hh|done]).
  apply wp_done in Hd as (d & s2 & E & -> & ->). done.
Qed.

Lemma release_recent s p b :
  cache_held p b s -> Z.of_nat (length (entries s)) < EVICTION_THRESHOLD - 1 -> wp (cache_release p) (fun _ s' => cache_recent p b s') s.
Proof.
  intros Hc Hn. pose proof Hc as (Ht & Hh & Hl & Hcl & Hfr).
  eapply wp_mono; [apply wp_and; [by apply (release_front sblock s p b)|apply (wp_held_release s p b (fun _ s' => cache_ok s')); [done|done]]|].
  intros [] s1 [(F1 & H1 & E1) Ok1]. split; [done|]. split; [done|]. right. split; [done|]. by rewrite E1.
Qed.

#[export] Program Instance bcache_spec : BlockCacheSpec sblock (bcache sblock) := {
  bc_usable := loggable sblock;
  bc_volume := volume;
  bc_ok := cache_ok;
  bc_held := cache_held;
  bc_recent := cache_recent;
}.
Next Obligation. intros s b [Ht _]. simpl. eapply view_block, Ht. Qed.
Next Obligation. intros s b Q. apply wp_held_acquire. Qed.
Next Obligation. intros s p b Q (Ht & Hh & _) HQ. by eapply wp_tx_data. Qed.
Next Obligation. intros s p b Q. apply wp_held_release. Qed.
Next Obligation.
  intros A s p b ctx d k Q (Ht & Hh & Hl & _) Hb (Hctx & rm & Hrm & Hor) Hd HQ.
  eapply wp_tx_store_sync_release; try done. intros s1 Ht1 Hs1. apply HQ; [|by apply volume_synced].
  split; [done|]. destruct Hs1 as [(_ & F & _) _ _ _]. congruence.
Qed.
Next Obligation.
  intros s ctx rm i Q [Ht Hl] Hctx Hrm Hr2 Hn Hbm Hff Hi Hne HQ. eapply wp_cache_alloc; try done.
  intros s1 Ht1 [F Hv Hr He]. apply HQ; [|done|by apply Hr|done].
  split; [done|]. destruct F as (_ & F & _). congruence.
Qed.
Next Obligation.
  intros s ctx i Q [Ht Hl] (Hctx & rm & Hrm & Hor) Hbm Hi HQ. eapply wp_cache_free; try done.
  intros s1 Ht1 Hs1. apply HQ; [|by apply volume_synced].
  split; [done|]. destruct Hs1 as [(_ & F & _) _ _ _]. congruence.
Qed.
Next Obligation. intros s p b. apply recent_data. Qed.
Next Obligation. intros s p b. apply release_recent. Qed.
Next Obligation.
  intros s p b ctx i [[Ht Hl] Hr] (Hctx & rm & Hrm & Hor) Hbm Hi.
  eapply wp_mono; [apply wp_and; [by eapply (free_recent sblock s ctx rm i p b)|
    apply (wp_cache_free sblock ctx s rm i (fun _ s1 => cache_ok s1)); try done]|by intros [] s1 [R1 Ok1]].
  intros s1 Ht1 Hs1. split; [done|]. destruct Hs1 as [(_ & F & _) _ _ _]. congruence.
Qed.
End instance.
