(* ===== verification/Inode.v ===== *)
(** The inode layer (src/fs/inode.c, src/fs/inode.h): definitions.

    The layer is written against the interface of the block cache: [cache] is
    the struct of function pointers [init_inodes] was given. An [Inode *] is
    the address [kalloc] returned, 0 is NULL; [f_ring] lists the in-memory
    inodes from [head.next]. A context is the address of an [OpContext], 0 is
    NULL. *)
From Stdlib Require Import ZArith Lia.
From stdpp Require Import base numbers gmap list.
From S2P Require Import Prelude Bytes Sync FsDefs Console CString BlockCache.

Record Inode := mkInode {
  i_lock : Sem.Semaphore;
  i_rc : Z;
  i_inode_no : Z;
  i_valid : bool;
  i_entry : InodeEntry;
}.

Definition set_rc (v : Z) (i : Inode) : Inode := mkInode (i_lock i) v (i_inode_no i) (i_valid i) (i_entry i).
Definition set_ilock (v : Sem.Semaphore) (i : Inode) : Inode :=
  mkInode v (i_rc i) (i_inode_no i) (i_valid i) (i_entry i).
Definition set_entry (v : InodeEntry) (i : Inode) : Inode :=
  mkInode (i_lock i) (i_rc i) (i_inode_no i) (i_valid i) v.
Definition set_loaded (v : InodeEntry) (i : Inode) : Inode :=
  mkInode (i_lock i) (i_rc i) (i_inode_no i) true v.

(** Fields of the entry. *)
Definition set_type (v : Z) (e : InodeEntry) : InodeEntry :=
  mkInodeEntry v (ie_major e) (ie_minor e) (ie_num_links e) (ie_num_bytes e) (ie_addrs e) (ie_indirect e).
Definition set_num_bytes (v : Z) (e : InodeEntry) : InodeEntry :=
  mkInodeEntry (ie_type e) (ie_major e) (ie_minor e) (ie_num_links e) v (ie_addrs e) (ie_indirect e).
Definition set_addrs (v : list Z) (e : InodeEntry) : InodeEntry :=
  mkInodeEntry (ie_type e) (ie_major e) (ie_minor e) (ie_num_links e) (ie_num_bytes e) v (ie_indirect e).
Definition set_indirect (v : Z) (e : InodeEntry) : InodeEntry :=
  mkInodeEntry (ie_type e) (ie_major e) (ie_minor e) (ie_num_links e) (ie_num_bytes e) (ie_addrs e) v.

Record FsState (S : Type) := mkFs {
  f_cache : S;
  f_lock : bool;
  f_ring : list Z;
  f_heap : gmap Z Inode;
  f_next : Z;
  f_root : Z;            (* inodes.root *)
  f_cwd : Z;             (* thisproc()->cwd *)
  f_console : Console;
}.
Arguments mkFs {S}.
Arguments f_cache {S}.
Arguments f_lock {S}.
Arguments f_ring {S}.
Arguments f_heap {S}.
Arguments f_next {S}.
Arguments f_root {S}.
Arguments f_cwd {S}.
Arguments f_console {S}.

Definition NULL : Z := 0.

Section inode.
Context {S : Type} (sblock : SuperBlock) (cache : BlockCache S).
Abbreviation F := (M (FsState S)).

Definition set_fcache (c : S) (s : FsState S) : FsState S :=
  mkFs c (f_lock s) (f_ring s) (f_heap s) (f_next s) (f_root s) (f_cwd s) (f_console s).
Definition set_flock (v : bool) (s : FsState S) : FsState S :=
  mkFs (f_cache s) v (f_ring s) (f_heap s) (f_next s) (f_root s) (f_cwd s) (f_console s).
Definition set_ring (v : list Z) (s : FsState S) : FsState S :=
  mkFs (f_cache s) (f_lock s) v (f_heap s) (f_next s) (f_root s) (f_cwd s) (f_console s).
Definition set_heap (v : gmap Z Inode) (s : FsState S) : FsState S :=
  mkFs (f_cache s) (f_lock s) (f_ring s) v (f_next s) (f_root s) (f_cwd s) (f_console s).
Definition set_fnext (v : Z) (s : FsState S) : FsState S :=
  mkFs (f_cache s) (f_lock s) (f_ring s) (f_heap s) v (f_root s) (f_cwd s) (f_console s).
Definition set_root (v : Z) (s : FsState S) : FsState S :=
  mkFs (f_cache s) (f_lock s) (f_ring s) (f_heap s) (f_next s) v (f_cwd s) (f_console s).
Definition set_console (v : Console) (s : FsState S) : FsState S :=
  mkFs (f_cache s) (f_lock s) (f_ring s) (f_heap s) (f_next s) (f_root s) (f_cwd s) v.

(** Calls into the cache and the console. *)
Definition on_cache {A} (c : M S A) : F A := fun s =>
  match c (f_cache s) with
  | Done a x => Done a (set_fcache x s)
  | Panicked x => Panicked (set_fcache x s)
  | Blocked x => Blocked (set_fcache x s)
  | Undefined => Undefined
  end.
Definition on_console {A} (c : M Console A) : F A := fun s =>
  match c (f_console s) with
  | Done a x => Done a (set_console x s)
  | Panicked x => Panicked (set_console x s)
  | Blocked x => Blocked (set_console x s)
  | Undefined => Undefined
  end.

Definition fs_lock : F unit := fun s => if f_lock s then Blocked s else Done tt (set_flock true s).
Definition fs_unlock : F unit := modify (set_flock false).

(** Fields of the inode behind a pointer. *)
Definition inode_at (p : Z) : F Inode := s ← get_state; deref (f_heap s !! p).
Definition update_inode (p : Z) (f : Inode -> Inode) : F unit :=
  i ← inode_at p; modify (fun s => set_heap (<[p := f i]> (f_heap s)) s).
Definition update_entry (p : Z) (f : InodeEntry -> InodeEntry) : F unit :=
  update_inode p (fun i => set_entry (f (i_entry i)) i).

Definition to_block_no (inode_no : Z) : Z := u64 (sb_inode_start sblock + inode_no / INODE_PER_BLOCK).

(** The offset of [get_entry] in the block, in bytes. *)
Definition get_entry (inode_no : Z) : nat := Z.to_nat (64 * (inode_no mod INODE_PER_BLOCK)).

(** [get_addrs(block)[i]], read and written through a [Block *]. *)
Definition addrs_get (p i : Z) : F Z :=
  d ← on_cache (bc_data cache p);
  if i <? INODE_NUM_INDIRECT then mret (le_val (slice (Z.to_nat (4 * i)) 4 d)) else undefined.
Definition addrs_set (p i v : Z) : F unit :=
  d ← on_cache (bc_data cache p);
  if i <? INODE_NUM_INDIRECT then
    on_cache (bc_store cache p (splice d (Z.to_nat (4 * i)) (le_bytes 4 (u32 v))))
  else undefined.

Definition init_inode : Inode :=
  mkInode (Sem.init_sem 1) Rc.init_rc 0 false (mkInodeEntry 0 0 0 0 0 (replicate 12 0) 0).

Definition inode_alloc (ctx type : Z) : F Z :=
  ASSERT (negb (type =? INODE_INVALID)) ;;
  fs_lock ;;
  r ← for_loop (Z.to_nat (sb_num_inodes sblock - 1)) 1 (fun inode_no =>
    p ← on_cache (bc_acquire cache (to_block_no inode_no));
    d ← on_cache (bc_data cache p);
    let off := get_entry inode_no in
    if le_val (slice off 2 d) =? INODE_INVALID then
      (* memset of the entry, then its type *)
      on_cache (bc_store cache p (splice d off (le_bytes 2 (u16 type) ++ replicate 62 0)) ;;
                bc_sync cache ctx p ;; bc_release cache p ;; mret tt) ;;
      fs_unlock ;;
      mret (Some inode_no)
    else on_cache (bc_release cache p) ;; mret None);
  match r with
  | Some inode_no => mret inode_no
  | None => fs_unlock ;; PANIC
  end.

Definition inode_lock (p : Z) : F unit :=
  i ← inode_at p;
  ASSERT (0 <? i_rc i) ;;
  match Sem._wait_sem_enter 0 (i_lock i) with
  | (true, sem) => update_inode p (set_ilock sem)
  | (false, sem) => update_inode p (set_ilock sem) ;; sleep
  end.

Definition inode_unlock (p : Z) : F unit :=
  i ← inode_at p;
  ASSERT (0 <? i_rc i) ;;
  match Sem._post_sem (i_lock i) with
  | Some (_, sem) => update_inode p (set_ilock sem)
  | None => PANIC
  end.

Definition inode_sync (ctx p : Z) (do_write : bool) : F unit :=
  i ← inode_at p;
  let off := get_entry (i_inode_no i) in
  if i_valid i && do_write then
    blk ← on_cache (bc_acquire cache (to_block_no (i_inode_no i)));
    d ← on_cache (bc_data cache blk);
    on_cache (bc_store cache blk (splice d off (encode_inode (i_entry i))) ;;
              bc_sync cache ctx blk ;; bc_release cache blk ;; mret tt)
  else if negb (i_valid i) && negb do_write then
    blk ← on_cache (bc_acquire cache (to_block_no (i_inode_no i)));
    d ← on_cache (bc_data cache blk);
    update_inode p (set_loaded (decode_inode (slice off 64 d))) ;;
    on_cache (bc_release cache blk)
  else if i_valid i && negb do_write then mret tt
  else PANIC.

(** The first in-memory inode with this number, in ring order. *)
Definition find_inode (inode_no : Z) (s : FsState S) : option Z :=
  List.find (fun p => match f_heap s !! p with Some i => i_inode_no i =? inode_no | None => false end) (f_ring s).

Definition inode_get (inode_no : Z) : F Z :=
  if inode_no =? 0 then mret NULL
  else
    ASSERT (0 <? inode_no) ;;
    ASSERT (inode_no <? sb_num_inodes sblock) ;;
    s ← get_state;
    match find_inode inode_no s with
    | Some p =>
        update_inode p (fun i => set_rc (Rc.increment_rc (i_rc i)) i) ;;
        fs_unlock ;;
        mret p
    | None =>
        let p := f_next s in
        modify (set_fnext (p + 1)) ;;
        modify (fun s => set_heap (<[p := mkInode (i_lock init_inode) (i_rc init_inode) inode_no
                                             (i_valid init_inode) (i_entry init_inode)]> (f_heap s)) s) ;;
        update_inode p (fun i => set_rc (Rc.increment_rc (i_rc i)) i) ;;
        inode_lock p ;;
        inode_sync NULL p false ;;
        inode_unlock p ;;
        modify (fun s => set_ring (p :: f_ring s) s) ;;
        mret p
    end.

Definition init_inodes : F unit :=
  fs_unlock ;; modify (set_ring []) ;;
  if ROOT_INODE_NO <? sb_num_inodes sblock then
    p ← inode_get ROOT_INODE_NO; modify (set_root p)
  else mret tt.

Definition inode_clear (ctx p : Z) : F unit :=
  fs_lock ;;
  i ← inode_at p;
  (if ie_indirect (i_entry i) =? 0 then mret tt
   else
     let indirect := ie_indirect (i_entry i) in
     blk ← on_cache (bc_acquire cache indirect);
     on_cache (bc_release cache blk) ;;
     for_each (Z.to_nat INODE_NUM_INDIRECT) 0 (fun k =>
       a ← addrs_get blk k;
       if a =? 0 then mret tt else on_cache (bc_free cache ctx a)) ;;
     on_cache (bc_free cache ctx indirect) ;;
     update_entry p (set_indirect 0)) ;;
  for_each (Z.to_nat INODE_NUM_DIRECT) 0 (fun k =>
    i ← inode_at p;
    a ← deref (ie_addrs (i_entry i) !! Z.to_nat k);
    if a =? 0 then mret tt
    else
      on_cache (bc_free cache ctx a) ;;
      update_entry p (fun e => set_addrs (<[Z.to_nat k := 0]> (ie_addrs e)) e)) ;;
  update_entry p (set_num_bytes 0) ;;
  inode_sync ctx p true ;;
  fs_unlock.

Definition inode_share (p : Z) : F Z :=
  update_inode p (fun i => set_rc (Rc.increment_rc (i_rc i)) i) ;; mret p.

Definition inode_put (ctx p : Z) : F unit :=
  update_inode p (fun i => set_rc (Rc.decrement_rc (i_rc i)).2 i) ;;
  i ← inode_at p;
  if (i_rc i =? 0) && (ie_num_links (i_entry i) =? 0) then
    update_entry p (set_type INODE_INVALID) ;;
    inode_clear ctx p ;;
    modify (fun s => set_ring (List.filter (fun q => negb (q =? p)) (f_ring s)) s) ;;
    modify (fun s => set_heap (delete p (f_heap s)) s)
  else mret tt.

(** [inode_map]: the block of block index [offset], and [*modified]. *)
Definition inode_map (ctx p offset : Z) : F (Z * bool) :=
  i ← inode_at p;
  if offset <? INODE_NUM_DIRECT then
    a ← deref (ie_addrs (i_entry i) !! Z.to_nat offset);
    if a =? 0 then
      if ctx =? NULL then mret (0, false)
      else
        b ← on_cache (bc_alloc cache ctx);
        update_entry p (fun e => set_addrs (<[Z.to_nat offset := u32 b]> (ie_addrs e)) e) ;;
        inode_sync ctx p true ;;
        i ← inode_at p;
        a ← deref (ie_addrs (i_entry i) !! Z.to_nat offset);
        mret (a, true)
    else mret (a, false)
  else
    let indirect_index := offset - INODE_NUM_DIRECT in
    (if ie_indirect (i_entry i) =? 0 then
       b ← on_cache (bc_alloc cache ctx);
       update_entry p (set_indirect (u32 b))
     else mret tt) ;;
    i ← inode_at p;
    blk ← on_cache (bc_acquire cache (ie_indirect (i_entry i)));
    on_cache (bc_release cache blk) ;;
    a ← addrs_get blk indirect_index;
    if a =? 0 then
      if ctx =? NULL then mret (0, false)
      else
        b ← on_cache (bc_alloc cache ctx);
        addrs_set blk indirect_index b ;;
        inode_sync ctx p true ;;
        a ← addrs_get blk indirect_index;
        mret (a, true)
    else mret (a, false).

(** The loop of [inode_read]: [have] bytes are in [dest]; each round reads at
    least one byte. The result is [dest] and [modified] after the loop. *)
Fixpoint read_blocks (fuel : nat) (p : Z) (dest : list Z) (offset count have : Z) (modified : bool) :
    F (list Z * bool) :=
  if have <? count then
    match fuel with
    | O => undefined
    | Datatypes.S fuel' =>
        r ← inode_map NULL p (offset / BLOCK_SIZE);
        blk ← on_cache (bc_acquire cache r.1);
        let sz := if count - have <? BLOCK_SIZE - offset mod BLOCK_SIZE then count - have
                  else BLOCK_SIZE - offset mod BLOCK_SIZE in
        d ← on_cache (bc_data cache blk);
        let dest' := splice dest (Z.to_nat have) (slice (Z.to_nat (offset mod BLOCK_SIZE)) (Z.to_nat sz) d) in
        on_cache (bc_release cache blk) ;;
        read_blocks fuel' p dest' (offset + sz) count (have + sz) r.2
    end
  else mret (dest, modified).

(** [inode_read]: the count it returns and the buffer [dest] afterwards. *)
Definition inode_read (p : Z) (dest : list Z) (offset count : Z) : F (Z * list Z) :=
  i ← inode_at p;
  let entry := i_entry i in
  if ie_type entry =? INODE_DEVICE then
    ASSERT (ie_major entry =? 1) ;;
    inode_unlock p ;;
    r ← on_console (console_read count);
    inode_lock p ;;
    mret (Z.of_nat (length r), splice dest 0 r)
  else
    let count := if ie_num_bytes entry <? u64 (count + offset) then u64 (ie_num_bytes entry - offset) else count in
    let end_ := u64 (offset + count) in
    ASSERT (offset <=? ie_num_bytes entry) ;;
    ASSERT (end_ <=? ie_num_bytes entry) ;;
    ASSERT (offset <=? end_) ;;
    r ← read_blocks (Z.to_nat count) p dest offset count 0 false;
    ASSERT (negb r.2) ;;
    mret (count, r.1).

(** The loop of [inode_write]; [src] are the bytes still to write. *)
Fixpoint write_blocks (fuel : nat) (ctx p : Z) (src : list Z) (offset end_ written : Z) : F Z :=
  if offset <? end_ then
    match fuel with
    | O => undefined
    | Datatypes.S fuel' =>
        let block_index := offset / BLOCK_SIZE in
        let block_offset := offset mod BLOCK_SIZE in
        let n := Z.min (BLOCK_SIZE - block_offset) (end_ - offset) in
        r ← inode_map ctx p block_index;
        ASSERT (negb (r.1 =? 0)) ;;
        blk ← on_cache (bc_acquire cache r.1);
        d ← on_cache (bc_data cache blk);
        on_cache (bc_store cache blk (splice d (Z.to_nat block_offset) (take (Z.to_nat n) src)) ;;
                  bc_sync cache ctx blk ;; bc_release cache blk ;; mret tt) ;;
        write_blocks fuel' ctx p (drop (Z.to_nat n) src) (offset + n) end_ (written + n)
    end
  else mret written.

(** [inode_write] of the bytes [src], [count] of them. *)
Definition inode_write (ctx p : Z) (src : list Z) (offset count : Z) : F Z :=
  i ← inode_at p;
  let entry := i_entry i in
  if ie_type entry =? INODE_DEVICE then
    ASSERT (ie_major entry =? 1) ;;
    inode_unlock p ;;
    r ← on_console (console_write (take (Z.to_nat count) src));
    inode_lock p ;;
    mret r
  else
    let end_ := u64 (offset + count) in
    ASSERT (offset <=? ie_num_bytes entry) ;;
    ASSERT (end_ <=? INODE_MAX_BYTES) ;;
    ASSERT (offset <=? end_) ;;
    (if ie_num_bytes entry <? end_ then
       update_entry p (set_num_bytes (u32 end_)) ;; inode_sync ctx p true
     else mret tt) ;;
    write_blocks (Z.to_nat count) ctx p src offset end_ 0.
End inode.
