(* ===== verification/InodeLaws.v ===== *)
(** Laws of the inode layer (src/fs/inode.c): loading and storing inodes,
    mapping file offsets to blocks, reading and writing file contents.

    Everything here is proved against the interface [BlockCacheSpec]. *)
From Stdlib Require Import ZArith Lia.
From stdpp Require Import base numbers gmap list.
From S2P Require Import Prelude Bytes Bitmap Sync FsDefs Console CString Reserve BlockCache Inode.

Section laws.
Context {S : Type} (sblock : SuperBlock) (cache : BlockCache S) `{!BlockCacheSpec sblock cache}.

(** What the layer sees of the disk. *)
Definition vol (s : FsState S) : Volume := bc_volume (f_cache s).

Lemma wp_on_cache {A} (c : M S A) (s : FsState S) Q :
  wp c (fun a x => Q a (set_fcache x s)) (f_cache s) -> wp (on_cache c) Q s.
Proof. unfold wp, on_cache. by destruct (c (f_cache s)). Qed.

Lemma wp_inode_at (s : FsState S) p i Q : f_heap s !! p = Some i -> Q i s -> wp (inode_at p) Q s.
Proof. intros E HQ. unfold inode_at. apply wp_bind, wp_get_state. by eapply wp_deref. Qed.

Lemma wp_update_inode (s : FsState S) p f i Q :
  f_heap s !! p = Some i -> Q tt (set_heap (<[p := f i]> (f_heap s)) s) -> wp (update_inode p f) Q s.
Proof. intros E HQ. unfold update_inode. apply wp_bind. eapply wp_inode_at; [done|]. by apply wp_modify. Qed.

Lemma wp_update_entry (s : FsState S) p f i Q :
  f_heap s !! p = Some i -> Q tt (set_heap (<[p := set_entry (f (i_entry i)) i]> (f_heap s)) s) ->
  wp (update_entry p f) Q s.
Proof. apply (wp_update_inode s p (fun i => set_entry (f (i_entry i)) i)). Qed.

(** ** Inodes on disk *)

(** The inode area: block and offset of an inode, with [inode_no / 8] blocks. *)
Abbreviation inode_block := (to_block_no sblock).

Definition disk_entry (v : Volume) (n : Z) : InodeEntry :=
  decode_inode (slice (get_entry n) 64 (v_block v (inode_block n))).

(** Inode numbers of the volume; their blocks are ordinary blocks. *)
Definition inode_range (n : Z) : Prop := 0 <= n < sb_num_inodes sblock.

Record layout_ok : Prop := {
  lo_start : 0 <= sb_inode_start sblock;
  lo_inodes : 0 <= sb_num_inodes sblock < 2 ^ 32 /\ sb_inode_start sblock < 2 ^ 32;
  lo_usable : forall n, inode_range n -> bc_usable (inode_block n);
  lo_blocks : 0 <= sb_num_blocks sblock <= BIT_PER_BLOCK;
  lo_bitmap : bc_usable (sb_bitmap_start sblock);
  lo_apart : forall n, inode_range n -> inode_block n <> sb_bitmap_start sblock;
}.
Context (Hlayout : layout_ok).

Lemma get_entry_bound n : 0 <= n -> (get_entry n + 64 <= 512)%nat.
Proof.
  intros Hn. unfold get_entry. change INODE_PER_BLOCK with 8. pose proof (Z.mod_pos_bound n 8). lia.
Qed.

(** Two inodes of one block do not overlap. *)
Lemma entry_apart n m :
  inode_range n -> inode_range m -> inode_block n = inode_block m -> n <> m ->
  (get_entry n + 64 <= get_entry m)%nat \/ (get_entry m + 64 <= get_entry n)%nat.
Proof.
  intros Hn Hm E Hne. unfold inode_range in *. destruct (lo_inodes Hlayout). pose proof (lo_start Hlayout).
  unfold to_block_no, get_entry, u64 in *. change INODE_PER_BLOCK with 8 in *.
  assert (forall k, 0 <= k < sb_num_inodes sblock -> 0 <= k / 8 < 2 ^ 32) as Hb.
  { intros k Hk. split; [apply Z.div_pos; lia|apply Z.div_lt_upper_bound; lia]. }
  pose proof (Hb n Hn). pose proof (Hb m Hm). rewrite !wrap_small in E by lia.
  pose proof (Z.div_mod n 8). pose proof (Z.div_mod m 8).
  pose proof (Z.mod_pos_bound n 8). pose proof (Z.mod_pos_bound m 8). lia.
Qed.

(** Storing 64 bytes at the place of inode [n]. *)
Lemma disk_entry_store v v' n d :
  inode_range n -> is_block (v_block v (inode_block n)) -> length d = 64%nat ->
  v_block v' (inode_block n) = splice (v_block v (inode_block n)) (get_entry n) d ->
  (forall m, inode_range m -> inode_block m <> inode_block n -> v_block v' (inode_block m) = v_block v (inode_block m)) ->
  disk_entry v' n = decode_inode d /\
  forall m, inode_range m -> m <> n -> disk_entry v' m = disk_entry v m.
Proof.
  intros Hn [Hb _] Hd E Ho. unfold disk_entry.
  pose proof (get_entry_bound n ltac:(unfold inode_range in Hn; lia)). split.
  - rewrite E. rewrite <- Hd. by rewrite slice_splice_same by lia.
  - intros m Hm Hmn. destruct (decide (inode_block m = inode_block n)) as [Em|Em].
    + rewrite Em, E. pose proof (entry_apart n m Hn Hm (eq_sym Em) (not_eq_sym Hmn)).
      rewrite slice_splice_disjoint; [done|lia|lia].
    + by rewrite Ho.
Qed.

(** A state that differs from [s] in the cache only, where the cache is between
    two calls. *)
Definition recached (s s' : FsState S) : Prop := exists x, s' = set_fcache x s /\ bc_ok x.

Lemma vol_fcache x (s : FsState S) : vol (set_fcache x s) = bc_volume x.
Proof. done. Qed.

(** Acquire, read, release. *)
Lemma wp_peek {A} (s : FsState S) b (k : Z -> list Z -> M (FsState S) A) Q :
  bc_ok (f_cache s) -> bc_usable b ->
  (forall p s', recached s s' -> v_same (vol s) (vol s') ->
     bc_data cache p (f_cache s') = Done (v_block (vol s) b) (f_cache s') ->
     wp (k p (v_block (vol s) b)) Q s') ->
  wp (p ← on_cache (bc_acquire cache b); d ← on_cache (bc_data cache p);
      on_cache (bc_release cache p) ;; k p d) Q s.
Proof.
  intros Hok Hb HQ. apply wp_bind, wp_on_cache. apply (bc_acquire_spec _ b); [done|done|].
  intros p x Hx Vx. apply wp_bind, wp_on_cache. eapply bc_data_spec; [exact Hx|].
  apply wp_bind, wp_on_cache. eapply bc_release_spec; [exact Hx|].
  intros x' Ok' Vx' Ed. pose proof (proj1 Vx b) as Eb. simpl in *. rewrite Eb in *.
  apply HQ; [by exists x'|unfold vol; simpl; by etransitivity|exact Ed].
Qed.

(** Acquire, read, store, sync, release. *)
Lemma cache_rewrite (x : S) ctx b (f : list Z -> list Z) (R : S -> Prop) :
  bc_ok x -> bc_usable b -> v_can ctx b (bc_volume x) -> is_block (f (v_block (bc_volume x) b)) ->
  (forall x', bc_ok x' -> v_write ctx b (f (v_block (bc_volume x) b)) (bc_volume x) (bc_volume x') -> R x') ->
  wp (bc_acquire cache b) (fun p => wp (bc_data cache p) (fun d =>
    wp (bc_store cache p (f d) ;; bc_sync cache ctx p ;; bc_release cache p ;; mret tt) (fun _ => R))) x.
Proof.
  intros Hok Hb Hcan Hf HQ. apply (bc_acquire_spec _ b); [done|done|].
  intros p x1 Hx Vx. eapply bc_data_spec; [exact Hx|].
  destruct Vx as (Vb & Vr & Vl). rewrite (Vb b).
  eapply (bc_update_spec (C := cache)); [exact Hx|exact Hb| |exact Hf|].
  { destruct Hcan as (H0 & rm & E & Hor). split; [done|]. exists rm. by rewrite Vr, Vl. }
  intros x' Ok' (W1 & W2 & W3). apply wp_ret. apply HQ; [done|].
  split_and!.
  - intros b'. rewrite W1. destruct (decide (b' = b)); [done|apply Vb].
  - intros b'. rewrite W2. by rewrite Vl.
  - intros rm E. rewrite Vr, Vl in W3. by apply W3.
Qed.

Lemma recached_heap s s' : recached s s' -> f_heap s' = f_heap s.
Proof. by intros (x & -> & _). Qed.

Lemma recached_trans s1 s2 s3 : recached s1 s2 -> recached s2 s3 -> recached s1 s3.
Proof. intros (x & -> & _) (y & -> & Hy). by exists y. Qed.

Lemma recached_ok s s' : recached s s' -> bc_ok (f_cache s').
Proof. by intros (x & -> & H). Qed.

Lemma wp_bind_ret {T A} (c : M T A) Q s : wp (a ← c; mret a) Q s -> wp c Q s.
Proof. unfold wp, mbind, M_bind. by destruct (c s). Qed.

(** Storing into a block keeps it a block. *)
Lemma splice_block d off k :
  is_block d -> (off + length k <= 512)%nat -> Forall is_byte k -> is_block (splice d off k).
Proof. intros [Hl Hb] Ho Hk. split; [by rewrite length_splice; lia|by apply Forall_splice]. Qed.

Lemma encode_inode_bytes e : Forall is_byte (encode_inode e).
Proof. unfold encode_inode. rewrite !Forall_app. auto 10 with kernel. Qed.

(** Inode [n] of the disk becomes [e]; nothing else changes. *)
Record entry_written (ctx n : Z) (e : InodeEntry) (v v' : Volume) : Prop := {
  ew_entry : disk_entry v' n = e;
  ew_others : forall m, inode_range m -> m <> n -> disk_entry v' m = disk_entry v m;
  ew_blocks : forall b, b <> inode_block n -> v_block v' b = v_block v b;
  ew_logged : forall b, b ∈ v_logged v' <-> b = inode_block n \/ b ∈ v_logged v;
  ew_rm : forall rm, v_rm v !! ctx = Some rm ->
    v_rm v' !! ctx = Some (if decide (inode_block n ∈ v_logged v) then rm else rm - 1);
}.

Lemma v_write_entry ctx n d v v' :
  inode_range n -> is_block (v_block v (inode_block n)) -> length d = 64%nat ->
  v_write ctx (inode_block n) (splice (v_block v (inode_block n)) (get_entry n) d) v v' ->
  entry_written ctx n (decode_inode d) v v'.
Proof.
  intros Hn Hb Hd (W1 & W2 & W3).
  destruct (disk_entry_store v v' n d Hn Hb Hd) as [E1 E2].
  { rewrite W1. by rewrite decide_True. }
  { intros m Hm Hne. rewrite W1. by rewrite decide_False. }
  split; [done|done| |done|done]. intros b Hbn. rewrite W1. by rewrite decide_False.
Qed.

Lemma wp_inode_sync_write s ctx p i :
  bc_ok (f_cache s) -> f_heap s !! p = Some i -> i_valid i = true -> wf_inode (i_entry i) ->
  inode_range (i_inode_no i) -> v_can ctx (inode_block (i_inode_no i)) (vol s) ->
  wp (inode_sync sblock cache ctx p true) (fun _ s' => recached s s' /\
    entry_written ctx (i_inode_no i) (i_entry i) (vol s) (vol s')) s.
Proof.
  intros Hok Ei Hv Hwf Hn Hcan. unfold inode_sync. apply wp_bind. eapply wp_inode_at; [done|].
  rewrite Hv. simpl andb. cbn iota.
  pose proof (length_encode_inode _ Hwf) as Hl. pose proof (bc_block_wf (f_cache s) (inode_block (i_inode_no i)) Hok) as Hb.
  pose proof (get_entry_bound (i_inode_no i) ltac:(unfold inode_range in Hn; lia)) as Hge.
  apply wp_bind, wp_on_cache. eapply wp_mono; [apply (cache_rewrite _ ctx (inode_block (i_inode_no i))
    (fun d => splice d (get_entry (i_inode_no i)) (encode_inode (i_entry i)))
    (fun x' => recached s (set_fcache x' s) /\
       entry_written ctx (i_inode_no i) (i_entry i) (vol s) (vol (set_fcache x' s)))); try done|].
  - by apply Hlayout.
  - apply splice_block; [done|lia|apply encode_inode_bytes].
  - intros x' Ok' W. split; [by exists x'|]. rewrite <- (decode_encode_inode (i_entry i) [] Hwf) at 1.
    rewrite app_nil_r. by apply v_write_entry.
  - intros blk x1 H1. apply wp_bind, wp_on_cache. simpl. eapply wp_mono; [exact H1|].
    intros d x2 H2. apply wp_on_cache. simpl. by eapply wp_mono; [exact H2|].
Qed.

Lemma set_heap_fcache x h (s : FsState S) : set_heap h (set_fcache x s) = set_fcache x (set_heap h s).
Proof. done. Qed.

(** Loading an inode. *)
Lemma wp_inode_sync_read s ctx p i :
  bc_ok (f_cache s) -> f_heap s !! p = Some i -> i_valid i = false -> inode_range (i_inode_no i) ->
  wp (inode_sync sblock cache ctx p false) (fun _ s' =>
    recached (set_heap (<[p := set_loaded (disk_entry (vol s) (i_inode_no i)) i]> (f_heap s)) s) s' /\
    v_same (vol s) (vol s')) s.
Proof.
  intros Hok Ei Hv Hn. unfold inode_sync. apply wp_bind. eapply wp_inode_at; [done|].
  rewrite Hv. simpl andb. cbn iota. apply wp_bind, wp_on_cache.
  apply (bc_acquire_spec _ (inode_block (i_inode_no i))); [done|by apply Hlayout|].
  intros blk x Hx Vx. apply wp_bind, wp_on_cache. eapply bc_data_spec; [exact Hx|].
  apply wp_bind. eapply wp_update_inode; [exact Ei|]. apply wp_on_cache. eapply bc_release_spec; [exact Hx|].
  intros x' Ok' Vx' _. simpl. rewrite (proj1 Vx). split; [by exists x'|]. unfold vol. simpl. by etransitivity.
Qed.

Lemma wp_inode_lock s p i sem :
  f_heap s !! p = Some i -> 0 < i_rc i -> Sem._wait_sem_enter 0 (i_lock i) = (true, sem) ->
  wp (inode_lock (S := S) p) (fun _ s' => s' = set_heap (<[p := set_ilock sem i]> (f_heap s)) s) s.
Proof.
  intros Ei Hrc Es. unfold inode_lock. apply wp_bind. eapply wp_inode_at; [done|].
  apply wp_bind, wp_assert; [by apply Z.ltb_lt|]. rewrite Es. by eapply wp_update_inode.
Qed.

Lemma wp_inode_unlock s p i w sem :
  f_heap s !! p = Some i -> 0 < i_rc i -> Sem._post_sem (i_lock i) = Some (w, sem) ->
  wp (inode_unlock (S := S) p) (fun _ s' => s' = set_heap (<[p := set_ilock sem i]> (f_heap s)) s) s.
Proof.
  intros Ei Hrc Es. unfold inode_unlock. apply wp_bind. eapply wp_inode_at; [done|].
  apply wp_bind, wp_assert; [by apply Z.ltb_lt|]. rewrite Es. by eapply wp_update_inode.
Qed.

(** ** [inode_get] *)

(** In-memory inodes: each number at most once, addresses below [f_next]. *)
Record ring_ok (s : FsState S) : Prop := {
  rg_heap : forall p, p ∈ f_ring s -> is_Some (f_heap s !! p);
  rg_next : forall p, is_Some (f_heap s !! p) -> 0 < p < f_next s;
  rg_unique : forall p q i j, p ∈ f_ring s -> q ∈ f_ring s -> f_heap s !! p = Some i -> f_heap s !! q = Some j ->
    i_inode_no i = i_inode_no j -> p = q;
  rg_rc : forall p i, f_heap s !! p = Some i -> 0 <= i_rc i;
  rg_pos : 0 < f_next s;
}.

Lemma find_inode_some n (s : FsState S) p :
  find_inode n s = Some p -> p ∈ f_ring s /\ exists i, f_heap s !! p = Some i /\ i_inode_no i = n.
Proof.
  unfold find_inode. intros E. apply List.find_some in E as [Hin E]. split; [by apply list_elem_of_In|].
  destruct (f_heap s !! p) as [i|]; [|done]. exists i. split; [done|by apply Z.eqb_eq].
Qed.

Lemma find_inode_none n (s : FsState S) p i :
  find_inode n s = None -> p ∈ f_ring s -> f_heap s !! p = Some i -> i_inode_no i <> n.
Proof.
  unfold find_inode. intros E Hin Hp. apply list_elem_of_In in Hin. pose proof (List.find_none _ _ E p Hin) as H.
  simpl in H. rewrite Hp in H. by apply Z.eqb_neq.
Qed.

Lemma increment_rc_small r : 0 <= r < 2 ^ 63 - 1 -> Rc.increment_rc r = r + 1.
Proof. intros. apply Rc.i64_small. lia. Qed.

(** The effect of [inode_get n] returning [p]. *)
Record got (n p : Z) (s s' : FsState S) : Prop := {
  gt_inode : exists i', f_heap s' !! p = Some i' /\ i_inode_no i' = n /\ p ∈ f_ring s' /\
    match find_inode n s with
    | Some q => q = p /\ exists i, f_heap s !! p = Some i /\ i' = set_rc (i_rc i + 1) i
    | None => f_heap s !! p = None /\ i' = mkInode (Sem.init_sem 1) 1 n true (disk_entry (vol s) n)
    end;
  gt_others : forall q, q <> p -> f_heap s' !! q = f_heap s !! q;
  gt_ring : ring_ok s';
  gt_cache : bc_ok (f_cache s') /\ v_same (vol s) (vol s');
  gt_keep : forall q, q ∈ f_ring s -> q ∈ f_ring s';
  gt_rest : f_cwd s' = f_cwd s /\ (f_lock s = false -> f_lock s' = false);
}.

Lemma wp_inode_get_found s n p i :
  ring_ok s -> bc_ok (f_cache s) -> 0 < n < sb_num_inodes sblock -> find_inode n s = Some p ->
  f_heap s !! p = Some i -> i_rc i < 2 ^ 63 - 1 ->
  wp (inode_get sblock cache n) (fun p' s' => p' = p /\ got n p s s') s.
Proof.
  intros Hr Hok Hn Ef Ei Hrc. pose proof (rg_rc _ Hr p i Ei).
  destruct (find_inode_some n s p Ef) as (Hin & i0 & Ei0 & En). assert (i0 = i) as -> by congruence.
  unfold inode_get. rewrite (proj2 (Z.eqb_neq n 0)) by lia.
  apply wp_bind, wp_assert; [apply Z.ltb_lt; lia|]. apply wp_bind, wp_assert; [apply Z.ltb_lt; lia|].
  apply wp_bind, wp_get_state. rewrite Ef. apply wp_bind. eapply wp_update_inode; [done|].
  apply wp_bind, wp_modify, wp_ret. rewrite increment_rc_small by lia. split; [done|]. split; simpl.
  - exists (set_rc (i_rc i + 1) i). rewrite lookup_insert_eq, Ef. split_and!; [done|done|done|done|]. by exists i.
  - intros q Hq. by rewrite lookup_insert_ne.
  - split; simpl.
    + intros q Hq. destruct (decide (q = p)) as [->|]; [rewrite lookup_insert_eq; eauto|].
      rewrite lookup_insert_ne by done. by apply Hr.
    + intros q [j Hj]. apply lookup_insert_Some in Hj as [[<- _]|[_ Hj]]; apply Hr; eauto.
    + intros q1 q2 j1 j2 H1 H2 L1 L2 E.
      apply lookup_insert_Some in L1 as [[<- <-]|[_ L1]]; apply lookup_insert_Some in L2 as [[<- <-]|[_ L2]]; try done;
        eapply (rg_unique _ Hr); eauto.
    + intros q j Hj. apply lookup_insert_Some in Hj as [[_ <-]|[_ Hj]]; [simpl; lia|by eapply Hr].
    + exact (rg_pos _ Hr).
  - split; [done|reflexivity].
  - done.
  - done.
Qed.

Lemma wp_inode_get_new s n :
  ring_ok s -> bc_ok (f_cache s) -> 0 < n < sb_num_inodes sblock -> find_inode n s = None ->
  wp (inode_get sblock cache n) (fun p s' => p = f_next s /\ got n p s s' /\ f_ring s' = p :: f_ring s) s.
Proof.
  intros Hr Hok Hn Ef. set (p := f_next s).
  assert (f_heap s !! p = None) as Hfresh.
  { destruct (f_heap s !! p) eqn:E; [|done]. pose proof (rg_next _ Hr p (mk_is_Some _ _ E)). unfold p in *. lia. }
  unfold inode_get. rewrite (proj2 (Z.eqb_neq n 0)) by lia.
  apply wp_bind, wp_assert; [apply Z.ltb_lt; lia|]. apply wp_bind, wp_assert; [apply Z.ltb_lt; lia|].
  apply wp_bind, wp_get_state. rewrite Ef. fold p. cbn zeta. apply wp_bind, wp_modify. apply wp_bind, wp_modify.
  apply wp_bind. eapply wp_update_inode; [apply lookup_insert_eq|]. simpl. rewrite insert_insert_eq.
  change (Rc.increment_rc Rc.init_rc) with 1. unfold set_rc. simpl.
  apply wp_bind. eapply wp_mono; [eapply wp_inode_lock; [apply lookup_insert_eq|simpl; lia|reflexivity]|].
  intros [] s1 ->. simpl. rewrite insert_insert_eq.
  apply wp_bind. eapply wp_mono; [eapply wp_inode_sync_read; [done|apply lookup_insert_eq|done|]|].
  { unfold inode_range. simpl. lia. }
  intros [] s2 ((x & -> & Hx) & Hv). simpl in *. rewrite insert_insert_eq.
  apply wp_bind. eapply wp_mono; [eapply wp_inode_unlock; [apply lookup_insert_eq|simpl; lia|reflexivity]|].
  intros [] s3 ->. simpl. rewrite insert_insert_eq. apply wp_bind, wp_modify, wp_ret. split; [done|]. split; [|done].
  unfold set_loaded, set_ilock. simpl. pose proof (rg_pos _ Hr) as Hpos.
  split; simpl.
  - eexists. rewrite lookup_insert_eq, Ef. split_and!; [done|done|left|done|done].
  - intros q Hq. by rewrite lookup_insert_ne.
  - split; simpl.
    + intros q Hq. destruct (decide (q = p)) as [->|]; [rewrite lookup_insert_eq; eauto|].
      rewrite lookup_insert_ne by done. apply Hr. apply elem_of_cons in Hq. by destruct Hq.
    + intros q [j Hj]. apply lookup_insert_Some in Hj as [[<- _]|[_ Hj]]; [unfold p; lia|].
      pose proof (rg_next _ Hr q (mk_is_Some _ _ Hj)). unfold p. lia.
    + intros q1 q2 j1 j2 H1 H2 L1 L2 E. apply elem_of_cons in H1, H2.
      apply lookup_insert_Some in L1 as [[<- <-]|[N1 L1]]; apply lookup_insert_Some in L2 as [[<- <-]|[N2 L2]]; try done.
      * destruct H2 as [->|H2]; [done|]. by destruct (find_inode_none n s q2 j2 Ef H2 L2).
      * destruct H1 as [->|H1]; [done|]. by destruct (find_inode_none n s q1 j1 Ef H1 L1).
      * destruct H1 as [->|H1]; [done|]. destruct H2 as [->|H2]; [done|]. eapply (rg_unique _ Hr); eauto.
    + intros q j Hj. apply lookup_insert_Some in Hj as [[_ <-]|[_ Hj]]; [simpl; lia|by eapply Hr].
    + unfold p. lia.
  - split; [done|]. exact Hv.
  - intros q Hq. by right.
  - done.
Qed.

(** ** [inode_alloc] *)

(** A new inode of type [type]. *)
Definition fresh_entry (type : Z) : InodeEntry := mkInodeEntry type 0 0 0 0 (replicate 12 0) 0.

Lemma fresh_entry_image type : le_bytes 2 type ++ replicate 62 0 = encode_inode (fresh_entry type).
Proof. reflexivity. Qed.

Lemma fresh_entry_wf type : is_word 2 type -> wf_inode (fresh_entry type).
Proof.
  intros H. unfold wf_inode, fresh_entry, is_word in *. cbn [ie_type ie_major ie_minor ie_num_links ie_num_bytes ie_addrs ie_indirect].
  split_and!; try lia; [done|]. apply Forall_replicate. lia.
Qed.

Lemma disk_type v n :
  le_val (slice (get_entry n) 2 (v_block v (inode_block n))) = ie_type (disk_entry v n).
Proof. unfold disk_entry, decode_inode, get_le, slice. cbn [ie_type]. by rewrite take_take. Qed.

(** The first free inode number. *)
Definition first_free_inode (v : Volume) (n : Z) : Prop :=
  1 <= n < sb_num_inodes sblock /\ ie_type (disk_entry v n) = INODE_INVALID /\
  forall m, 1 <= m < n -> ie_type (disk_entry v m) <> INODE_INVALID.

Lemma wp_inode_alloc s ctx type n :
  bc_ok (f_cache s) -> f_lock s = false -> is_word 2 type -> type <> INODE_INVALID ->
  first_free_inode (vol s) n -> v_can ctx (inode_block n) (vol s) ->
  wp (inode_alloc sblock cache ctx type) (fun r s' => r = n /\ recached s s' /\
    entry_written ctx n (fresh_entry type) (vol s) (vol s')) s.
Proof.
  intros Hok Hlk Hty Hinv (Hn & Hfree & Hused) Hcan.
  unfold inode_alloc. apply wp_bind, wp_assert; [by apply negb_true_iff, Z.eqb_neq|].
  apply wp_bind. unfold fs_lock. unfold wp at 1. rewrite Hlk. fold (@wp (FsState S) Z).
  apply wp_bind.
  apply (wp_for_loop (fun j s' => recached (set_flock true s) s' /\ v_same (vol s) (vol s') /\ j <= n)).
  { split; [by exists (f_cache s)|]. split; [reflexivity|lia]. }
  2:{ intros s' (_ & _ & Hj). lia. }
  intros j s' Hj (Hrc & Hv & Hjn). pose proof (recached_ok _ _ Hrc) as Hok'.
  assert (inode_range j) as Hjr by (unfold inode_range; lia).
  pose proof (bc_block_wf (f_cache s') (inode_block j) Hok') as Hblk.
  destruct Hrc as (x0 & -> & Hx0). simpl in Hok'.
  apply wp_bind, wp_on_cache. apply (bc_acquire_spec _ (inode_block j)); [done|by apply Hlayout|].
  intros blk x Hx Vx. apply wp_bind, wp_on_cache. eapply bc_data_spec; [exact Hx|].
  assert (v_same (vol s) (bc_volume x)) as Vsx by (unfold vol in *; simpl in *; by etransitivity).
  cbn [f_cache set_fcache]. cbn zeta. rewrite (proj1 Vsx (inode_block j)), disk_type.
  destruct (decide (j = n)) as [->|Hne].
  - rewrite Hfree. change (INODE_INVALID =? INODE_INVALID) with true. cbn iota.
    unfold u16. rewrite wrap_small by done. rewrite fresh_entry_image.
    apply wp_bind, wp_on_cache. cbn [f_cache set_fcache].
    eapply (bc_update_spec (C := cache)); [exact Hx|by apply Hlayout| | |].
    { destruct Vsx as (_ & Vr & Vl). destruct Hcan as (H0 & rm & E & Hor). split; [done|]. exists rm. by rewrite Vr, Vl. }
    { apply splice_block; [|rewrite length_encode_inode by (by apply fresh_entry_wf); apply get_entry_bound; lia|apply encode_inode_bytes].
      rewrite <- (proj1 Hv). exact Hblk. }
    intros x' Ok' (W1 & W2 & W3). apply wp_ret. apply wp_bind, wp_modify, wp_ret, wp_ret. split; [done|]. split.
    { exists x'. split; [|done]. destruct s; simpl in *. by rewrite Hlk. }
    rewrite <- (decode_encode_inode (fresh_entry type) [] (fresh_entry_wf _ Hty)), app_nil_r.
    apply v_write_entry; [done| |by apply length_encode_inode, fresh_entry_wf|].
    { rewrite <- (proj1 Hv). exact Hblk. }
    destruct Vsx as (Vb & Vr & Vl). unfold vol in *. simpl in *. split_and!.
    + intros b'. rewrite W1. destruct (decide (b' = inode_block n)); [done|apply Vb].
    + intros b'. by rewrite W2, Vl.
    + intros rm E. rewrite Vr, Vl in W3. by apply W3.
  - rewrite (proj2 (Z.eqb_neq _ _) (Hused j ltac:(lia))). cbn iota. apply wp_bind, wp_on_cache.
    eapply bc_release_spec; [exact Hx|]. intros x' Ok' Vx' _. apply wp_ret. split; [by exists x'|]. split; [|lia].
    unfold vol in *. simpl in *. by etransitivity.
Qed.

(** With no free inode the layer gives back its lock and panics. *)
Lemma inode_alloc_full s ctx type :
  bc_ok (f_cache s) -> f_lock s = false -> type <> INODE_INVALID ->
  (forall m, 1 <= m < sb_num_inodes sblock -> ie_type (disk_entry (vol s) m) <> INODE_INVALID) ->
  panics (inode_alloc sblock cache ctx type) (fun s' => recached s s' /\ v_same (vol s) (vol s')) s.
Proof.
  intros Hok Hlk Hinv Hused.
  unfold inode_alloc. apply panics_bind, wp_assert; [by apply negb_true_iff, Z.eqb_neq|].
  apply panics_bind. unfold fs_lock, wp. rewrite Hlk. fold (@panics (FsState S) Z). apply panics_bind.
  apply (wp_for_loop (fun j s' => recached (set_flock true s) s' /\ v_same (vol s) (vol s'))).
  { split; [by exists (f_cache s)|reflexivity]. }
  - intros j s' Hj (Hrc & Hv). pose proof (recached_ok _ _ Hrc) as Hok'. destruct Hrc as (x0 & -> & Hx0). simpl in Hok'.
    assert (inode_range j) as Hjr by (unfold inode_range; lia).
    apply wp_bind, wp_on_cache. apply (bc_acquire_spec _ (inode_block j)); [done|by apply Hlayout|].
    intros blk x Hx Vx. apply wp_bind, wp_on_cache. eapply bc_data_spec; [exact Hx|].
    assert (v_same (vol s) (bc_volume x)) as Vsx by (unfold vol in *; simpl in *; by etransitivity).
    cbn [f_cache set_fcache]. cbn zeta. rewrite (proj1 Vsx (inode_block j)), disk_type.
    rewrite (proj2 (Z.eqb_neq _ _) (Hused j ltac:(lia))). cbn iota. apply wp_bind, wp_on_cache.
    eapply bc_release_spec; [exact Hx|]. intros x' Ok' Vx' _. apply wp_ret. split; [by exists x'|].
    unfold vol in *. simpl in *. by etransitivity.
  - intros s' ((x & -> & Hx) & Hv). apply panics_bind, wp_modify. split; [|done].
    exists x. split; [|done]. destruct s; simpl in *. by rewrite Hlk.
Qed.

(** ** File contents *)

(** The block of block index [k], 0 when there is none. *)
Definition block_of (v : Volume) (e : InodeEntry) (k : Z) : Z :=
  if k <? INODE_NUM_DIRECT then default 0 (ie_addrs e !! Z.to_nat k)
  else if ie_indirect e =? 0 then 0
  else le_val (slice (Z.to_nat (4 * (k - INODE_NUM_DIRECT))) 4 (v_block v (ie_indirect e))).

(** The byte at offset [o], and [n] bytes from [off]. *)
Definition byte_of (v : Volume) (e : InodeEntry) (o : Z) : Z :=
  default 0 (v_block v (block_of v e (o / BLOCK_SIZE)) !! Z.to_nat (o mod BLOCK_SIZE)).
Definition file_bytes (v : Volume) (e : InodeEntry) (off : Z) (n : nat) : list Z :=
  (fun k => byte_of v e (off + Z.of_nat k)) <$> seq 0 n.

(** Every block of the file below its size exists. *)
Record mapped (v : Volume) (e : InodeEntry) : Prop := {
  mp_wf : wf_inode e;
  mp_size : ie_num_bytes e <= INODE_MAX_BYTES;
  mp_block : forall k, 0 <= k -> k * BLOCK_SIZE < ie_num_bytes e -> block_of v e k <> 0 /\ bc_usable (block_of v e k);
  mp_indirect : ie_indirect e <> 0 -> bc_usable (ie_indirect e);
}.

Lemma block_of_same v v' e k : v_same v v' -> block_of v' e k = block_of v e k.
Proof. intros [E _]. unfold block_of. by rewrite E. Qed.

Lemma byte_of_same v v' e o : v_same v v' -> byte_of v' e o = byte_of v e o.
Proof. intros H. unfold byte_of. rewrite (block_of_same v v') by done. by rewrite (proj1 H). Qed.

Lemma mapped_same v v' e : v_same v v' -> mapped v e -> mapped v' e.
Proof.
  intros H [? ? Hm ?]. split; [done|done| |done]. intros k. rewrite (block_of_same v v') by done. apply Hm.
Qed.

Lemma length_file_bytes v e off n : length (file_bytes v e off n) = n.
Proof. unfold file_bytes. by rewrite length_fmap, length_seq. Qed.

Lemma lookup_file_bytes v e off n i :
  (i < n)%nat -> file_bytes v e off n !! i = Some (byte_of v e (off + Z.of_nat i)).
Proof. intros Hi. unfold file_bytes. rewrite list_lookup_fmap, lookup_seq_lt by done. done. Qed.

Lemma file_bytes_app v e off n m :
  file_bytes v e off (n + m) = file_bytes v e off n ++ file_bytes v e (off + Z.of_nat n) m.
Proof.
  apply list_eq. intros i. destruct (decide (i < n)%nat).
  - rewrite lookup_app_l by (by rewrite length_file_bytes). by rewrite !lookup_file_bytes by lia.
  - rewrite lookup_app_r by (rewrite length_file_bytes; lia). rewrite length_file_bytes.
    destruct (decide (i < n + m)%nat).
    + rewrite !lookup_file_bytes by lia. do 2 f_equal. lia.
    + rewrite !lookup_ge_None_2; [done| |]; rewrite length_file_bytes; lia.
Qed.

(** A piece of one block. *)
Lemma file_bytes_block v e off n :
  0 <= off -> off mod BLOCK_SIZE + Z.of_nat n <= BLOCK_SIZE ->
  is_block (v_block v (block_of v e (off / BLOCK_SIZE))) ->
  slice (Z.to_nat (off mod BLOCK_SIZE)) n (v_block v (block_of v e (off / BLOCK_SIZE))) = file_bytes v e off n.
Proof.
  intros Ho Hn [Hl _]. unfold BLOCK_SIZE in *. pose proof (Z.mod_pos_bound off 512). pose proof (Z.div_mod off 512).
  assert (Z.to_nat (off mod 512) + n <= 512)%nat by lia.
  apply list_eq. intros i. destruct (decide (i < n)%nat) as [Hi|Hi].
  - rewrite lookup_slice, lookup_file_bytes by done. unfold byte_of, BLOCK_SIZE.
    assert ((off + Z.of_nat i) / 512 = off / 512 /\ (off + Z.of_nat i) mod 512 = off mod 512 + Z.of_nat i) as [-> ->].
    { split; symmetry; [apply (Z.div_unique _ _ _ (off mod 512 + Z.of_nat i))|apply (Z.mod_unique _ _ (off / 512))]; lia. }
    destruct (lookup_lt_is_Some_2 (v_block v (block_of v e (off / 512))) (Z.to_nat (off mod 512) + i)) as [c Ec]; [lia|].
    rewrite Ec. replace (Z.to_nat (off mod 512 + Z.of_nat i)) with (Z.to_nat (off mod 512) + i)%nat by lia. by rewrite Ec.
  - rewrite !lookup_ge_None_2; [done| |].
    + rewrite length_file_bytes. lia.
    + unfold slice. rewrite length_take. lia.
Qed.

(** Writing two adjacent pieces of a buffer. *)
Lemma splice_splice_adjacent {A} (l a b : list A) off :
  (off + length a + length b <= length l)%nat ->
  splice (splice l off a) (off + length a) b = splice l off (a ++ b).
Proof.
  intros H. apply list_eq. intros i.
  assert (length (splice l off a) = length l) as Hl by (rewrite length_splice; lia).
  destruct (decide (off + length a <= i < off + length a + length b)%nat).
  - rewrite lookup_splice_in by lia. rewrite lookup_splice_in by (rewrite length_app; lia).
    rewrite lookup_app_r by lia. f_equal. lia.
  - rewrite lookup_splice_out by lia. destruct (decide (off <= i < off + length a)%nat).
    + rewrite !lookup_splice_in by (rewrite ?length_app; lia). rewrite lookup_app_l by lia. done.
    + rewrite !lookup_splice_out by (rewrite ?length_app; lia). done.
Qed.

(** Reading through a pointer whose contents are known. *)
Lemma wp_on_data (s : FsState S) blk d Q :
  bc_data cache blk (f_cache s) = Done d (f_cache s) -> Q d s -> wp (on_cache (bc_data cache blk)) Q s.
Proof. intros E HQ. unfold wp, on_cache. rewrite E. by destruct s. Qed.

Lemma wp_addrs_get (s : FsState S) blk i d Q :
  bc_data cache blk (f_cache s) = Done d (f_cache s) -> i < INODE_NUM_INDIRECT ->
  Q (le_val (slice (Z.to_nat (4 * i)) 4 d)) s -> wp (addrs_get cache blk i) Q s.
Proof.
  intros E Hi HQ. unfold addrs_get. apply wp_bind. eapply wp_on_data; [done|].
  by rewrite (proj2 (Z.ltb_lt _ _) Hi).
Qed.

(** A block that exists is found, and nothing changes. *)
Lemma wp_inode_map_mapped s ctx p i k :
  bc_ok (f_cache s) -> f_heap s !! p = Some i -> length (ie_addrs (i_entry i)) = 12%nat ->
  (ie_indirect (i_entry i) <> 0 -> bc_usable (ie_indirect (i_entry i))) ->
  0 <= k < INODE_MAX_BLOCKS -> block_of (vol s) (i_entry i) k <> 0 ->
  wp (inode_map sblock cache ctx p k) (fun r s' => r = (block_of (vol s) (i_entry i) k, false) /\
    recached s s' /\ v_same (vol s) (vol s')) s.
Proof.
  intros Hok Ei Hlen Hind Hk Hb. unfold inode_map. apply wp_bind. eapply wp_inode_at; [done|].
  unfold block_of in *. change INODE_MAX_BLOCKS with 140 in Hk. change INODE_NUM_DIRECT with 12 in *.
  destruct (Z.ltb_spec k 12).
  - destruct (lookup_lt_is_Some_2 (ie_addrs (i_entry i)) (Z.to_nat k)) as [a Ea]; [lia|].
    rewrite Ea in *. simpl in Hb. apply wp_bind. eapply wp_deref; [done|].
    rewrite (proj2 (Z.eqb_neq a 0)) by done. apply wp_ret. split; [done|].
    split; [exists (f_cache s); by destruct s|reflexivity].
  - destruct (Z.eqb_spec (ie_indirect (i_entry i)) 0) as [E0|E0]; [done|].
    apply wp_bind, wp_ret. apply wp_bind. eapply wp_inode_at; [done|].
    apply wp_bind, wp_on_cache. apply (bc_acquire_spec _ (ie_indirect (i_entry i))); [done|by apply Hind|].
    intros blk x Hx Vx. apply wp_bind, wp_on_cache. eapply bc_release_spec; [exact Hx|].
    intros x' Ok' Vx' Ed. cbn [f_cache set_fcache] in *. rewrite (proj1 Vx) in Ed.
    apply wp_bind. eapply wp_addrs_get; [exact Ed|change INODE_NUM_INDIRECT with 128; lia|].
    unfold vol in *. rewrite (proj2 (Z.eqb_neq _ 0)) by done.
    apply wp_ret. split; [done|]. split; [by exists x'|]. simpl. by etransitivity.
Qed.

Lemma wp_read_blocks fuel s p i dest offset count have m :
  bc_ok (f_cache s) -> f_heap s !! p = Some i -> mapped (vol s) (i_entry i) ->
  0 <= have <= count -> count - have <= Z.of_nat fuel -> 0 <= offset ->
  offset + (count - have) <= ie_num_bytes (i_entry i) -> (Z.to_nat count <= length dest)%nat ->
  wp (read_blocks sblock cache fuel p dest offset count have m) (fun r s' =>
    r.1 = splice dest (Z.to_nat have) (file_bytes (vol s) (i_entry i) offset (Z.to_nat (count - have))) /\
    (m = false -> r.2 = false) /\ recached s s' /\ v_same (vol s) (vol s')) s.
Proof.
  revert s dest offset have m. induction fuel as [|fuel IH]; intros s dest offset have m Hok Ei Hm Hh Hf Ho Hsz Hd;
    cbn [read_blocks].
  - rewrite (proj2 (Z.ltb_ge have count)) by lia. apply wp_ret. replace (count - have) with 0 by lia.
    simpl. split_and!; [|done|exists (f_cache s); by destruct s|reflexivity].
    symmetry. apply splice_nil.
  - destruct (Z.ltb_spec have count) as [Hlt|Hge].
    2:{ apply wp_ret. replace (count - have) with 0 by lia. simpl.
        split_and!; [|done|exists (f_cache s); by destruct s|reflexivity].
        symmetry. apply splice_nil. }
    pose proof (mp_size _ _ Hm) as Hmax. change INODE_MAX_BYTES with (140 * 512) in Hmax.
    pose proof (Z.div_mod offset 512). pose proof (Z.mod_pos_bound offset 512).
    assert (0 <= offset / 512) by (apply Z.div_pos; lia).
    destruct (mp_block _ _ Hm (offset / BLOCK_SIZE)) as [Hb Hu]; [done|unfold BLOCK_SIZE; lia|].
    apply wp_bind. eapply wp_mono; [apply (wp_inode_map_mapped s NULL p i (offset / BLOCK_SIZE)); try done|].
    { destruct (mp_wf _ _ Hm) as (_ & _ & _ & _ & _ & L & _). done. }
    { apply Hm. }
    { change INODE_MAX_BLOCKS with 140. unfold BLOCK_SIZE. lia. }
    intros r s1 (-> & (x1 & -> & Hx1) & Hv1). simpl fst. simpl snd.
    apply wp_bind, wp_on_cache. apply (bc_acquire_spec _ (block_of (vol s) (i_entry i) (offset / BLOCK_SIZE))); [done|done|].
    intros blk x Hx Vx. cbn zeta. apply wp_bind, wp_on_cache. eapply bc_data_spec; [exact Hx|].
    apply wp_bind, wp_on_cache. eapply bc_release_spec; [exact Hx|]. intros x' Ok' Vx' _.
    cbn [f_cache set_fcache] in *. change (v_same (vol s) (bc_volume x1)) in Hv1.
    rewrite (proj1 Vx), (proj1 Hv1).
    set (sz := if count - have <? BLOCK_SIZE - offset mod BLOCK_SIZE then count - have
               else BLOCK_SIZE - offset mod BLOCK_SIZE).
    assert (0 < sz <= count - have /\ offset mod 512 + sz <= 512) as [Hsz1 Hsz2].
    { unfold sz, BLOCK_SIZE. destruct (Z.ltb_spec (count - have) (512 - offset mod 512)); lia. }
    rewrite file_bytes_block; [|done|unfold BLOCK_SIZE; lia|by apply bc_block_wf].
    set (s2 := set_fcache x' _). assert (v_same (vol s) (vol s2)) as Hv2.
    { unfold vol in *. simpl. etransitivity; [exact Hv1|]. by etransitivity. }
    eapply wp_mono; [apply (IH s2); try done|].
    { by eapply mapped_same. }
    { lia. } { lia. } { lia. } { lia. }
    { rewrite length_splice; rewrite ?length_file_bytes; lia. }
    intros r s3 (E1 & E2 & (x3 & -> & Hx3) & V3). split_and!; [|intros _; by apply E2|by exists x3|by etransitivity].
    rewrite E1. assert (file_bytes (vol s2) (i_entry i) (offset + sz) (Z.to_nat (count - (have + sz))) =
      file_bytes (vol s) (i_entry i) (offset + sz) (Z.to_nat (count - (have + sz)))) as ->.
    { unfold file_bytes. apply list_fmap_ext. intros j y _. by apply byte_of_same. }
    replace (Z.to_nat (have + sz)) with (Z.to_nat have + length (file_bytes (vol s) (i_entry i) offset (Z.to_nat sz)))%nat
      by (rewrite length_file_bytes; lia).
    rewrite splice_splice_adjacent by (rewrite !length_file_bytes; lia). f_equal.
    replace (Z.to_nat (count - have)) with (Z.to_nat sz + Z.to_nat (count - (have + sz)))%nat by lia.
    rewrite file_bytes_app. do 2 f_equal. lia.
Qed.

(** The number of bytes [inode_read] reads. *)
Definition clipped (e : InodeEntry) (offset count : Z) : Z := Z.min count (ie_num_bytes e - offset).

Lemma wp_inode_read s p i dest offset count :
  bc_ok (f_cache s) -> f_heap s !! p = Some i -> mapped (vol s) (i_entry i) ->
  ie_type (i_entry i) <> INODE_DEVICE -> 0 <= offset <= ie_num_bytes (i_entry i) -> 0 <= count < 2 ^ 63 ->
  (Z.to_nat (clipped (i_entry i) offset count) <= length dest)%nat ->
  wp (inode_read sblock cache p dest offset count) (fun r s' =>
    r = (clipped (i_entry i) offset count,
         splice dest 0 (file_bytes (vol s) (i_entry i) offset (Z.to_nat (clipped (i_entry i) offset count)))) /\
    recached s s' /\ v_same (vol s) (vol s')) s.
Proof.
  intros Hok Ei Hm Hty Ho Hc Hd. unfold inode_read. apply wp_bind. eapply wp_inode_at; [done|]. cbn zeta.
  rewrite (proj2 (Z.eqb_neq _ _) Hty).
  pose proof (mp_size _ _ Hm) as Hmax. change INODE_MAX_BYTES with (140 * 512) in Hmax.
  assert ((if ie_num_bytes (i_entry i) <? u64 (count + offset) then u64 (ie_num_bytes (i_entry i) - offset) else count)
          = clipped (i_entry i) offset count) as ->.
  { unfold clipped, u64. rewrite (wrap_small 64 (count + offset)), (wrap_small 64 (_ - _)) by lia.
    destruct (Z.ltb_spec (ie_num_bytes (i_entry i)) (count + offset)); lia. }
  assert (0 <= clipped (i_entry i) offset count <= ie_num_bytes (i_entry i) - offset) as Hcl by (unfold clipped; lia).
  unfold u64. rewrite (wrap_small 64 (offset + _)) by lia.
  do 3 (apply wp_bind, wp_assert; [apply Z.leb_le; lia|]).
  apply wp_bind. eapply wp_mono; [apply (wp_read_blocks _ s p i); try done; lia|].
  intros [d m] s' (E1 & E2 & H1 & H2). simpl in *. rewrite E2 by done. apply wp_bind, wp_assert; [done|].
  apply wp_ret. rewrite E1, Z.sub_0_r. done.
Qed.
End laws.
