(* ===== verification/InodeWrite.v ===== *)
(** Writing files ([inode_map] with allocation and [inode_write] of
    src/fs/inode.c).

    [wrote] is what a write does to the volume: the bytes of the range, no
    other byte of the file, no other inode and no block of another file. *)
From Stdlib Require Import ZArith Lia.
From stdpp Require Import base numbers gmap sets list.
From S2P Require Import Prelude Bytes Bitmap Sync FsDefs Console CString Reserve BlockCache Inode InodeLaws.

Section write.
Context {S : Type} (sblock : SuperBlock) (cache : BlockCache S) `{!BlockCacheSpec sblock cache}.
Abbreviation bm := (sb_bitmap_start sblock).
Abbreviation inode_block := (to_block_no sblock).
Abbreviation inode_range := (InodeLaws.inode_range sblock).
Abbreviation disk_entry := (InodeLaws.disk_entry sblock).
Abbreviation vol := (InodeLaws.vol sblock cache).
Abbreviation recached := (InodeLaws.recached sblock cache).
Context (Hlayout : layout_ok sblock cache).

(** ** Blocks of files *)

Definition in_use (v : Volume) (b : Z) : Prop := bit_of (v_block v bm) b = Some true.
Definition is_free (v : Volume) (b : Z) : Prop := bit_of (v_block v bm) b = Some false.

(** A block that may hold file data. *)
Record ordinary (b : Z) : Prop := {
  or_usable : bc_usable b;
  or_range : 0 < b < BIT_PER_BLOCK;
  or_bitmap : b <> bm;
  or_inode : forall n, inode_range n -> b <> inode_block n;
}.

Definition data_block (v : Volume) (b : Z) : Prop := ordinary b /\ in_use v b.

(** The blocks of a file are in use, ordinary and distinct, and free blocks are
    ordinary blocks: the bits of the log, the inodes and the bitmap are set. *)
Record blocks_ok (v : Volume) (e : InodeEntry) : Prop := {
  bo_wf : wf_inode e;
  bo_volume : forall b, is_block (v_block v b);
  bo_data : forall k, 0 <= k < INODE_MAX_BLOCKS -> block_of v e k <> 0 -> data_block v (block_of v e k);
  bo_inj : forall k k', 0 <= k < INODE_MAX_BLOCKS -> 0 <= k' < INODE_MAX_BLOCKS ->
    block_of v e k <> 0 -> block_of v e k = block_of v e k' -> k = k';
  bo_indirect : ie_indirect e <> 0 -> data_block v (ie_indirect e) /\
    forall k, 0 <= k < INODE_MAX_BLOCKS -> block_of v e k <> ie_indirect e;
  bo_free : forall b, 0 <= b < sb_num_blocks sblock -> is_free v b -> ordinary b;
}.

Lemma in_use_same v v' b : v_same v v' -> in_use v' b <-> in_use v b.
Proof. intros [E _]. unfold in_use. by rewrite E. Qed.

Lemma blocks_ok_same v v' e : v_same v v' -> blocks_ok v e -> blocks_ok v' e.
Proof.
  intros H [B0 B1 B2 B3 B4 B5]. pose proof (fun k => block_of_same v v' e k H) as Eb.
  pose proof (fun b => in_use_same v v' b H) as Eu. unfold data_block in *.
  split.
  - done.
  - intros b. rewrite (proj1 H). apply B1.
  - intros k. rewrite Eb. intros Hk Hn. destruct (B2 k Hk Hn). split; [done|by apply Eu].
  - intros k k'. rewrite !Eb. apply B3.
  - intros Hi. destruct (B4 Hi) as [[? ?] Hk]. split; [split; [done|by apply Eu]|].
    intros k. rewrite Eb. apply Hk.
  - intros b Hb Hf. apply B5; [done|]. unfold is_free in *. by rewrite <- (proj1 H).
Qed.

(** ** What a write does *)

(** The bytes [src] at [off] of inode [n], whose entry goes from [e] to [e']. *)
Record wrote (n off : Z) (src : list Z) (v : Volume) (e : InodeEntry) (v' : Volume) (e' : InodeEntry) : Prop := {
  w_entry : e' = set_addrs (ie_addrs e') e;
  w_map : forall k, 0 <= k < INODE_MAX_BLOCKS ->
    block_of v' e' k = block_of v e k \/
    (block_of v e k = 0 /\ block_of v' e' k <> 0 /\ ~ in_use v (block_of v' e' k));
  w_new : forall o, off <= o < off + Z.of_nat (length src) -> block_of v' e' (o / BLOCK_SIZE) <> 0;
  w_in : forall o, off <= o < off + Z.of_nat (length src) ->
    src !! Z.to_nat (o - off) = Some (byte_of v' e' o);
  w_out : forall o, 0 <= o < INODE_MAX_BYTES -> (o < off \/ off + Z.of_nat (length src) <= o) ->
    block_of v e (o / BLOCK_SIZE) <> 0 -> byte_of v' e' o = byte_of v e o;
  w_bits : forall b, 0 <= b -> in_use v b -> in_use v' b;
  w_disk : disk_entry v n = e -> disk_entry v' n = e';
  w_others : forall m, inode_range m -> m <> n -> disk_entry v' m = disk_entry v m;
  w_blocks : forall b, data_block v b -> (forall k, 0 <= k < INODE_MAX_BLOCKS -> block_of v e k <> b) ->
    v_block v' b = v_block v b /\ data_block v' b;
  w_ok : blocks_ok v' e';
}.

Lemma block_index o : 0 <= o < INODE_MAX_BYTES -> 0 <= o / BLOCK_SIZE < INODE_MAX_BLOCKS.
Proof.
  change INODE_MAX_BYTES with (140 * 512). change INODE_MAX_BLOCKS with 140. unfold BLOCK_SIZE.
  intros Ho. split; [apply Z.div_pos; lia|apply Z.div_lt_upper_bound; lia].
Qed.

Lemma wrote_same n off v e v' : v_same v v' -> blocks_ok v e -> wrote n off [] v e v' e.
Proof.
  intros H Hok. pose proof (fun k => block_of_same v v' e k H) as Eb.
  assert (forall m, disk_entry v' m = disk_entry v m) as Ed.
  { intros m. unfold InodeLaws.disk_entry. by rewrite (proj1 H). }
  split; simpl.
  - by destruct e.
  - intros k _. left. apply Eb.
  - intros. lia.
  - intros. lia.
  - intros o _ _ _. by apply byte_of_same.
  - intros b _. by apply (in_use_same v v').
  - by rewrite Ed.
  - intros m _ _. apply Ed.
  - intros b [Ho Hu] _. split; [apply H|]. split; [done|]. by apply (in_use_same v v').
  - by apply (blocks_ok_same v).
Qed.

Lemma wrote_trans n off src1 src2 v e v1 e1 v2 e2 :
  0 <= off -> off + Z.of_nat (length src1) + Z.of_nat (length src2) <= INODE_MAX_BYTES ->
  wrote n off src1 v e v1 e1 -> wrote n (off + Z.of_nat (length src1)) src2 v1 e1 v2 e2 ->
  wrote n off (src1 ++ src2) v e v2 e2.
Proof.
  intros Hoff Hmax A B. split; rewrite ?length_app.
  - rewrite (w_entry _ _ _ _ _ _ _ B), (w_entry _ _ _ _ _ _ _ A). done.
  - intros k Hk. destruct (w_map _ _ _ _ _ _ _ A k Hk) as [E1|(E1 & N1 & U1)].
    + rewrite <- E1. destruct (w_map _ _ _ _ _ _ _ B k Hk) as [E2|(E2 & N2 & U2)]; [by left|right].
      split_and!; [done|done|]. intros U. apply U2.
      apply (w_bits _ _ _ _ _ _ _ A); [|done].
      destruct (bo_data _ _ (w_ok _ _ _ _ _ _ _ B) k Hk N2) as [[_ ? _ _] _]. lia.
    + right. destruct (w_map _ _ _ _ _ _ _ B k Hk) as [E2|(E2 & _)]; [|congruence]. by rewrite E2.
  - intros o Ho. destruct (decide (o < off + Z.of_nat (length src1))) as [Hlt|Hge].
    + pose proof (w_new _ _ _ _ _ _ _ A o ltac:(lia)) as N1.
      destruct (w_map _ _ _ _ _ _ _ B (o / BLOCK_SIZE)) as [E2|(E2 & _)]; [apply block_index; lia|by rewrite E2|congruence].
    + apply (w_new _ _ _ _ _ _ _ B). lia.
  - intros o Ho. destruct (decide (o < off + Z.of_nat (length src1))) as [Hlt|Hge].
    + rewrite lookup_app_l by lia. rewrite (w_in _ _ _ _ _ _ _ A) by lia. f_equal. symmetry.
      apply (w_out _ _ _ _ _ _ _ B); [lia|lia|]. apply (w_new _ _ _ _ _ _ _ A). lia.
    + rewrite lookup_app_r by lia. rewrite <- (w_in _ _ _ _ _ _ _ B) by lia. f_equal. lia.
  - intros o Hr Ho Hb. rewrite (w_out _ _ _ _ _ _ _ B); [apply (w_out _ _ _ _ _ _ _ A); auto; lia|lia|lia|].
    destruct (w_map _ _ _ _ _ _ _ A (o / BLOCK_SIZE)) as [E1|(E1 & _)]; [apply block_index; lia|by rewrite E1|congruence].
  - intros b H0 Hb. apply (w_bits _ _ _ _ _ _ _ B); [done|]. by apply (w_bits _ _ _ _ _ _ _ A).
  - intros E. by apply (w_disk _ _ _ _ _ _ _ B), (w_disk _ _ _ _ _ _ _ A).
  - intros m Hm Hne. rewrite (w_others _ _ _ _ _ _ _ B) by done. by apply (w_others _ _ _ _ _ _ _ A).
  - intros b Hb Hk. destruct (w_blocks _ _ _ _ _ _ _ A b Hb Hk) as [E1 D1].
    destruct (w_blocks _ _ _ _ _ _ _ B b D1) as [E2 D2]; [|split; [congruence|done]].
    intros k Hr. destruct (w_map _ _ _ _ _ _ _ A k Hr) as [E|(E & N & U)]; [rewrite E; by apply Hk|].
    intros <-. by apply U, Hb.
  - apply B.
Qed.

(** ** Storing into a block of the file *)

Lemma in_use_other v v' b d : (forall b', v_block v' b' = if decide (b' = b) then d else v_block v b') -> b <> bm ->
  v_block v' bm = v_block v bm.
Proof. intros E Hb. rewrite E. by rewrite decide_False. Qed.

Lemma wrote_store n ctx off src v e v' :
  blocks_ok v e -> 0 <= off -> 0 < Z.of_nat (length src) -> off mod BLOCK_SIZE + Z.of_nat (length src) <= BLOCK_SIZE ->
  off + Z.of_nat (length src) <= INODE_MAX_BYTES -> inode_range n -> Forall is_byte src ->
  let b := block_of v e (off / BLOCK_SIZE) in
  b <> 0 -> v_write ctx b (splice (v_block v b) (Z.to_nat (off mod BLOCK_SIZE)) src) v v' ->
  wrote n off src v e v' e.
Proof.
  intros Hok Hoff Hlen Hfit Hmax Hn Hsrc b Hb (W1 & W2 & W3).
  pose proof (block_index off ltac:(lia)) as Hk. pose proof (bo_data _ _ Hok _ Hk Hb) as [Hord Huse]. fold b in Hord, Huse.
  pose proof (in_use_other v v' b _ W1 (or_bitmap _ Hord)) as Ebm.
  assert (forall k, 0 <= k < INODE_MAX_BLOCKS -> block_of v' e k = block_of v e k) as Eb.
  { intros k Hkr. unfold block_of. destruct (k <? INODE_NUM_DIRECT); [done|].
    destruct (Z.eqb_spec (ie_indirect e) 0) as [|Hi]; [done|]. rewrite W1, decide_False; [done|].
    intros E. by apply (proj2 (bo_indirect _ _ Hok Hi) _ Hk). }
  assert (forall m, inode_range m -> disk_entry v' m = disk_entry v m) as Ed.
  { intros m Hm. unfold InodeLaws.disk_entry. rewrite W1, decide_False; [done|]. by apply not_eq_sym, Hord. }
  assert (forall x, in_use v' x <-> in_use v x) as Eu by (intros x; unfold in_use; by rewrite Ebm).
  pose proof (bo_volume _ _ Hok b) as Hblk. unfold BLOCK_SIZE in *.
  pose proof (Z.mod_pos_bound off 512). pose proof (Z.div_mod off 512).
  assert (Z.to_nat (off mod 512) + length src <= length (v_block v b))%nat as Hfit' by (rewrite (proj1 Hblk); lia).
  split.
  - by destruct e.
  - intros k Hkr. left. by apply Eb.
  - intros o Ho. rewrite Eb by (apply block_index; lia). replace (o / BLOCK_SIZE) with (off / 512); [done|].
    unfold BLOCK_SIZE. apply (Z.div_unique _ _ _ (o - off + off mod 512)); lia.
  - intros o Ho. assert (o / 512 = off / 512 /\ o mod 512 = o - off + off mod 512) as [E1 E2].
    { split; symmetry; [apply (Z.div_unique _ _ _ (o - off + off mod 512))|apply (Z.mod_unique _ _ (off / 512))]; lia. }
    unfold byte_of, BLOCK_SIZE. rewrite Eb by (apply (block_index o); lia). rewrite E1, E2. fold b. rewrite W1, decide_True by done.
    rewrite lookup_splice_in by lia.
    replace (Z.to_nat (o - off + off mod 512) - Z.to_nat (off mod 512))%nat with (Z.to_nat (o - off)) by lia.
    destruct (lookup_lt_is_Some_2 src (Z.to_nat (o - off))) as [c Ec]; [lia|]. by rewrite Ec.
  - intros o Ho Hout Hbo. pose proof (block_index o Ho) as Hko. unfold byte_of, BLOCK_SIZE in *. rewrite Eb by done. rewrite W1.
    destruct (decide (block_of v e (o / 512) = b)) as [E|]; [|done].
    pose proof (bo_inj _ _ Hok _ _ Hko Hk Hbo E) as Ek. rewrite E. rewrite lookup_splice_out; [done|lia|].
    pose proof (Z.mod_pos_bound o 512). pose proof (Z.div_mod o 512). lia.
  - intros x _. by apply Eu.
  - intros E. by rewrite Ed.
  - intros m Hm _. by apply Ed.
  - intros x [Ho Hu] Hx. rewrite W1, decide_False by (intros ->; by apply (Hx _ Hk)). split; [done|]. split; [done|by apply Eu].
  - destruct Hok as [B0 B1 B2 B3 B4 B5]. split; [done| | | | |].
    + intros x. rewrite W1. destruct (decide (x = b)); [|done]. apply splice_block; [done|lia|done].
    + intros k Hkr. rewrite Eb by done. intros Hx. destruct (B2 k Hkr Hx). split; [done|by apply Eu].
    + intros k k' Hr Hr'. rewrite !Eb by done. by apply B3.
    + intros Hi. destruct (B4 Hi) as [[? ?] Hx]. split; [split; [done|by apply Eu]|]. intros k Hkr. rewrite Eb by done. by apply Hx.
    + intros x Hx Hf. apply B5; [done|]. unfold is_free in *. by rewrite <- Ebm.
Qed.

(** ** A new block for a direct address *)

Lemma free_not_used v b : is_free v b -> ~ in_use v b.
Proof. unfold is_free, in_use. congruence. Qed.

Definition with_block (k b : Z) (e : InodeEntry) : InodeEntry := set_addrs (<[Z.to_nat k := b]> (ie_addrs e)) e.

Lemma with_block_wf k b e : wf_inode e -> 0 <= b < BIT_PER_BLOCK -> wf_inode (with_block k b e).
Proof.
  intros (H1 & H2 & H3 & H4 & H5 & H6 & H7 & H8) Hb. unfold wf_inode, with_block, set_addrs.
  cbn [ie_type ie_major ie_minor ie_num_links ie_num_bytes ie_addrs ie_indirect].
  split_and!; try done; [by rewrite length_insert|]. apply Forall_insert; [done|].
  unfold is_word. change BIT_PER_BLOCK with 4096 in Hb. lia.
Qed.

Lemma block_of_direct v e k : 0 <= k < INODE_NUM_DIRECT -> block_of v e k = default 0 (ie_addrs e !! Z.to_nat k).
Proof. intros Hk. unfold block_of. by rewrite (proj2 (Z.ltb_lt k _)) by lia. Qed.

Section alloc.
Context (n ctx k i : Z) (v v1 v2 : Volume) (e : InodeEntry).
Hypothesis Hok : blocks_ok v e.
Hypothesis Hn : inode_range n.
Hypothesis Hk : 0 <= k < INODE_NUM_DIRECT.
Hypothesis Hhole : block_of v e k = 0.
Hypothesis Hi : 0 <= i < sb_num_blocks sblock.
Hypothesis Hfree : is_free v i.
Hypothesis Halloc : forall b, v_block v1 b = if decide (b = i) then zero_block
  else if decide (b = bm) then set_bit (v_block v bm) i true else v_block v b.
Abbreviation e' := (with_block k i e).
Hypothesis Hentry : entry_written sblock ctx n e' v1 v2.
Hypothesis Hv2 : forall b, is_block (v_block v2 b).

Lemma alloc_ordinary : ordinary i.
Proof. by apply (bo_free _ _ Hok). Qed.

Lemma alloc_bitmap : v_block v2 bm = set_bit (v_block v bm) i true.
Proof.
  rewrite (ew_blocks _ _ _ _ _ _ Hentry) by (apply not_eq_sym; by apply (lo_apart _ _ Hlayout)).
  rewrite Halloc, decide_False by (apply not_eq_sym, or_bitmap, alloc_ordinary). by rewrite decide_True.
Qed.

Lemma alloc_bit b : 0 <= b -> bit_of (v_block v2 bm) b = if decide (i = b) then Some true else bit_of (v_block v bm) b.
Proof.
  intros Hb. rewrite alloc_bitmap. destruct (set_bit_spec (v_block v bm) i true) as (_ & _ & _ & H);
    [apply Hok| |by apply H]. pose proof (lo_blocks _ _ Hlayout). lia.
Qed.

Lemma alloc_block b : ordinary b -> b <> i -> v_block v2 b = v_block v b.
Proof.
  intros Ho Hb. rewrite (ew_blocks _ _ _ _ _ _ Hentry) by (by apply Ho).
  rewrite Halloc, decide_False by done. rewrite decide_False; [done|apply Ho].
Qed.

Lemma alloc_new : v_block v2 i = zero_block.
Proof.
  rewrite (ew_blocks _ _ _ _ _ _ Hentry) by (by apply alloc_ordinary). by rewrite Halloc, decide_True.
Qed.

Lemma alloc_data b : data_block v b -> data_block v2 b /\ v_block v2 b = v_block v b.
Proof.
  intros [Ho Hu]. assert (b <> i) as Hb by (intros ->; by apply (free_not_used v i)).
  split; [split; [done|]|by apply alloc_block]. unfold in_use. rewrite alloc_bit by (destruct Ho; lia).
  by rewrite decide_False.
Qed.

Lemma alloc_map j : 0 <= j < INODE_MAX_BLOCKS -> block_of v2 e' j = if decide (j = k) then i else block_of v e j.
Proof.
  intros Hj. destruct (bo_wf _ _ Hok) as (_ & _ & _ & _ & _ & Hlen & _).
  destruct (decide (j = k)) as [->|Hne].
  - rewrite block_of_direct by done. unfold with_block. cbn [ie_addrs set_addrs].
    rewrite list_lookup_insert_eq; [done|]. change INODE_NUM_DIRECT with 12 in Hk. lia.
  - unfold block_of, with_block. cbn [ie_addrs ie_indirect set_addrs].
    destruct (j <? INODE_NUM_DIRECT) eqn:Ej.
    + rewrite list_lookup_insert_ne; [done|]. lia.
    + destruct (Z.eqb_spec (ie_indirect e) 0) as [|Hind]; [done|].
      destruct (bo_indirect _ _ Hok Hind) as [Hd _]. by rewrite (proj2 (alloc_data _ Hd)).
Qed.

Lemma hole_other j : block_of v e j <> 0 -> j <> k.
Proof. by intros H ->. Qed.

Lemma alloc_blocks_ok : blocks_ok v2 e'.
Proof.
  pose proof alloc_ordinary as Hoi. pose proof Hok as [B0 B1 B2 B3 B4 B5].
  assert (forall j, 0 <= j < INODE_MAX_BLOCKS -> block_of v e j <> 0 -> block_of v e j <> i) as Hni.
  { intros j Hj Hne E. apply (free_not_used v i Hfree). rewrite <- E. by apply B2. }
  split.
  - apply with_block_wf; [done|]. pose proof (lo_blocks _ _ Hlayout). lia.
  - done.
  - intros j Hj. rewrite alloc_map by done. destruct (decide (j = k)) as [->|Hne].
    + intros _. split; [done|]. unfold in_use. rewrite alloc_bit by lia. by rewrite decide_True.
    + intros Hx. by apply alloc_data, B2.
  - intros j j' Hj Hj'. rewrite !alloc_map by done.
    destruct (decide (j = k)) as [->|], (decide (j' = k)) as [->|]; try done; [| |by apply B3].
    + intros H0 E. exfalso. apply (Hni j' Hj'); [|done]. rewrite <- E. done.
    + intros H0 E. exfalso. by apply (Hni j Hj).
  - intros Hind. change (ie_indirect e') with (ie_indirect e) in *. destruct (B4 Hind) as [Hd Hx].
    split; [by apply alloc_data|]. intros j Hj. rewrite alloc_map by done.
    destruct (decide (j = k)); [|by apply Hx]. intros E. apply (free_not_used v i Hfree). rewrite E. apply Hd.
  - intros b Hb Hf. apply B5; [done|]. unfold is_free in *. rewrite alloc_bit in Hf by lia.
    by destruct (decide (i = b)).
Qed.

Lemma wrote_alloc off : wrote n off [] v e v2 e'.
Proof.
  split; simpl.
  - done.
  - intros j Hj. rewrite alloc_map by done. destruct (decide (j = k)) as [->|]; [right|by left].
    split_and!; [done|destruct alloc_ordinary; lia|by apply free_not_used].
  - intros. lia.
  - intros. lia.
  - intros o Ho _ Hb. unfold byte_of. pose proof (block_index o Ho) as Hj. rewrite alloc_map by done.
    rewrite decide_False by (by apply hole_other). by rewrite (proj2 (alloc_data _ (bo_data _ _ Hok _ Hj Hb))).
  - intros b H0 Hb. unfold in_use in *. rewrite alloc_bit by done. by destruct (decide (i = b)).
  - intros _. apply Hentry.
  - intros m Hm Hne. rewrite (ew_others _ _ _ _ _ _ Hentry) by done. unfold InodeLaws.disk_entry.
    rewrite Halloc, decide_False by (apply not_eq_sym; by apply alloc_ordinary).
    by rewrite decide_False by (by apply (lo_apart _ _ Hlayout)).
  - intros b Hb _. split; by apply alloc_data.
  - apply alloc_blocks_ok.
Qed.
End alloc.

(** ** Free blocks *)

#[local] Instance is_free_dec v b : Decision (is_free v b).
Proof. unfold is_free. apply _. Defined.

Definition free_list (v : Volume) : list Z := filter (is_free v) (seqZ 0 (sb_num_blocks sblock)).

Lemma first_free_exists v :
  (forall b, is_block (v_block v b)) -> free_list v <> [] ->
  exists i, first_free (v_block v bm) (sb_num_blocks sblock) i.
Proof.
  intros Hb Hne. destruct (free_list v) as [|b l] eqn:E; [done|].
  assert (b ∈ free_list v) as Hin by (rewrite E; left). unfold free_list in Hin.
  apply list_elem_of_filter in Hin as [Hf Hin]. apply elem_of_seqZ in Hin.
  pose proof (lo_blocks _ _ Hlayout) as Hn. clear E l Hne.
  assert (forall m, 0 <= m -> (exists b, 0 <= b < m /\ m <= sb_num_blocks sblock /\ is_free v b) ->
    exists i, 0 <= i < sb_num_blocks sblock /\ is_free v i /\ forall j, 0 <= j < i -> ~ is_free v j) as H.
  { apply (natlike_ind (fun m => (exists b, 0 <= b < m /\ m <= sb_num_blocks sblock /\ is_free v b) -> _)).
    - intros (x & Hx & _). lia.
    - intros m Hm IH (x & Hx & Hmx & Hfx).
      destruct (decide (Exists (is_free v) (seqZ 0 m))) as [(y & Hy & Hfy)%Exists_exists|Hno]; [|rewrite Exists_exists in Hno].
      + apply elem_of_seqZ in Hy. apply IH. exists y. split_and!; [lia|lia|lia|done].
      + assert (x = m) as ->.
        { destruct (decide (x = m)); [done|]. exfalso. apply Hno. exists x. split; [apply elem_of_seqZ; lia|done]. }
        exists m. split_and!; [lia|lia|done|]. intros j Hj Hfj. apply Hno. exists j. split; [apply elem_of_seqZ; lia|done]. }
  destruct (H (sb_num_blocks sblock)) as (i & Hi & Hfi & Hmin); [lia|exists b; split_and!; [lia|lia|lia|done]|].
  exists i. split_and!; [lia|lia|done|]. intros j Hj.
  destruct (bit_of_some (v_block v bm) j (Hb bm)) as [[] Ej]; [lia|done|]. by destruct (Hmin j Hj).
Qed.

Lemma free_list_same v v' : v_block v' bm = v_block v bm -> free_list v' = free_list v.
Proof. intros E. unfold free_list. apply list_filter_iff. intros b. unfold is_free. by rewrite E. Qed.

(** Setting one bit takes at most one block from the list. *)
Lemma free_list_alloc v v' i :
  (forall b, 0 <= b -> bit_of (v_block v' bm) b = if decide (i = b) then Some true else bit_of (v_block v bm) b) ->
  (length (free_list v) <= Datatypes.S (length (free_list v')))%nat.
Proof.
  intros H. unfold free_list.
  assert (forall l, NoDup l -> (forall b, b ∈ l -> 0 <= b) ->
    (length (filter (is_free v) l) <= Datatypes.S (length (filter (is_free v') l)))%nat /\
    (i ∉ l -> length (filter (is_free v) l) = length (filter (is_free v') l))) as G.
  { induction l as [|b l IH]; intros Hnd Hpos; [simpl; split; [lia|done]|].
    apply NoDup_cons in Hnd as [Hb Hnd]. destruct (IH Hnd) as [IH1 IH2]; [intros x Hx; apply Hpos; by right|].
    assert (0 <= b) as Hb0 by (apply Hpos; left). rewrite !filter_cons.
    assert (i <> b -> is_free v' b <-> is_free v b) as Hsame.
    { intros Hib. unfold is_free. rewrite H by done. by rewrite decide_False. }
    destruct (decide (i = b)) as [<-|Hib].
    - specialize (IH2 Hb). split; [|intros Hni; exfalso; apply Hni; left].
      destruct (decide (is_free v i)), (decide (is_free v' i)); simpl; lia.
    - specialize (Hsame Hib). split.
      + destruct (decide (is_free v b)), (decide (is_free v' b)); simpl; try lia; tauto.
      + intros Hni. rewrite not_elem_of_cons in Hni. destruct Hni as [_ Hni]. specialize (IH2 Hni).
        destruct (decide (is_free v b)), (decide (is_free v' b)); simpl; try lia; tauto. }
  apply G; [apply NoDup_seqZ|]. intros b Hb%elem_of_seqZ. lia.
Qed.

(** ** The budget of a write *)

Definition inode_cost (n : Z) (v : Volume) : Z := if decide (inode_block n ∈ v_logged v) then 0 else 1.

(** Enough to sync the inode and, [c] times, a new block and the bitmap. *)
Definition budget (ctx n c : Z) (v : Volume) : Prop :=
  exists rm, v_rm v !! ctx = Some rm /\ 2 * c + inode_cost n v <= rm.

Lemma inode_cost_bounds n v : 0 <= inode_cost n v <= 1.
Proof. unfold inode_cost. case_decide; lia. Qed.

Lemma budget_same ctx n c v v' : v_same v v' -> budget ctx n c v -> budget ctx n c v'.
Proof. intros (_ & Er & El) (rm & E & H). exists rm. unfold inode_cost in *. by rewrite Er, El. Qed.

(** After [inode_map] found block [b]: what is left pays for [c - 1] more
    blocks, and for [b] unless it is in the log. *)
Definition budget_for (ctx n c b : Z) (v : Volume) : Prop :=
  exists rm, v_rm v !! ctx = Some rm /\
    2 * (c - 1) + inode_cost n v + (if decide (b ∈ v_logged v) then 0 else 1) <= rm.

Lemma budget_for_can ctx n c b v : ctx <> 0 -> 1 <= c -> budget_for ctx n c b v -> v_can ctx b v.
Proof.
  intros H0 Hc (rm & E & H). split; [done|]. exists rm. split; [done|]. pose proof (inode_cost_bounds n v).
  destruct (decide (b ∈ v_logged v)); [by left|right]. lia.
Qed.

Lemma budget_for_write ctx n c b d v v' :
  budget_for ctx n c b v -> v_write ctx b d v v' -> budget ctx n (c - 1) v'.
Proof.
  intros (rm & E & H) (_ & W2 & W3). exists (if decide (b ∈ v_logged v) then rm else rm - 1).
  split; [by apply W3|]. assert (inode_cost n v' <= inode_cost n v).
  { unfold inode_cost at 2. destruct (decide (inode_block n ∈ v_logged v)) as [Hl|Hl]; [|apply inode_cost_bounds].
    unfold inode_cost. rewrite decide_True; [lia|]. apply W2. by right. }
  destruct (decide (b ∈ v_logged v)); lia.
Qed.

Lemma wp_inode_map s ctx p i k c off :
  bc_ok (f_cache s) -> f_heap s !! p = Some i -> i_valid i = true -> inode_range (i_inode_no i) ->
  blocks_ok (vol s) (i_entry i) -> 0 <= k < INODE_MAX_BLOCKS ->
  (k < INODE_NUM_DIRECT \/ block_of (vol s) (i_entry i) k <> 0) ->
  ctx <> 0 -> 1 <= c -> budget ctx (i_inode_no i) c (vol s) -> free_list (vol s) <> [] ->
  wp (inode_map sblock cache ctx p k) (fun r s' => exists e', r.1 = block_of (vol s') e' k /\ r.1 <> 0 /\
    recached (set_heap (<[p := set_entry e' i]> (f_heap s)) s) s' /\
    wrote (i_inode_no i) off [] (vol s) (i_entry i) (vol s') e' /\
    budget_for ctx (i_inode_no i) c r.1 (vol s') /\
    (length (free_list (vol s)) <= Datatypes.S (length (free_list (vol s'))))%nat) s.
Proof.
  intros Hok Ei Hval Hn Hbok Hk Hkm Hctx Hc Hbud Hfl. pose proof (bo_wf _ _ Hbok) as Hwf.
  destruct Hwf as (_ & _ & _ & _ & _ & Hlen & _). pose proof (inode_cost_bounds (i_inode_no i) (vol s)) as Hic.
  destruct (decide (block_of (vol s) (i_entry i) k = 0)) as [Hz|Hz].
  2:{ eapply wp_mono; [apply (wp_inode_map_mapped sblock cache s ctx p i k); try done|].
      { intros Hind. by apply (bo_indirect _ _ Hbok). }
      intros r s1 (-> & (x & -> & Hx) & Hv). exists (i_entry i). simpl. split_and!.
      - symmetry. by apply block_of_same.
      - done.
      - exists x. split; [|done]. assert (set_entry (i_entry i) i = i) as -> by (by destruct i).
        rewrite insert_id by done. by destruct s.
      - by apply wrote_same.
      - destruct Hbud as (rm & E & H). destruct Hv as (Hvb & Hvr & Hvl). exists rm. rewrite Hvr, Hvl.
        split; [done|]. unfold inode_cost in *. rewrite Hvl.
        destruct (decide (block_of (vol s) (i_entry i) k ∈ v_logged (vol s))); lia.
      - rewrite (free_list_same (vol s) (vol (set_fcache x s))) by apply Hv. lia. }
  destruct Hkm as [Hd|]; [|done]. change INODE_NUM_DIRECT with 12 in Hd.
  destruct (first_free_exists (vol s) (bo_volume _ _ Hbok) Hfl) as (b & Hff).
  pose proof Hff as (Hbr & Hbf & _). pose proof (lo_blocks _ _ Hlayout) as Hnb. change BIT_PER_BLOCK with 4096 in Hnb.
  pose proof (bo_free _ _ Hbok b Hbr Hbf) as Hord.
  unfold inode_map. apply wp_bind. eapply wp_inode_at; [done|].
  change INODE_NUM_DIRECT with 12. rewrite (proj2 (Z.ltb_lt k 12)) by lia.
  rewrite block_of_direct in Hz by (change INODE_NUM_DIRECT with 12; lia).
  destruct (lookup_lt_is_Some_2 (ie_addrs (i_entry i)) (Z.to_nat k)) as [a Ea]; [lia|].
  rewrite Ea in Hz. simpl in Hz. subst a. apply wp_bind. eapply wp_deref; [done|].
  change (0 =? 0) with true. cbn iota. rewrite (proj2 (Z.eqb_neq ctx NULL)) by done.
  destruct Hbud as (rm & Erm & Hrm). apply wp_bind, wp_on_cache.
  eapply (bc_alloc_spec (C := cache) _ ctx rm b); try done; [lia|change BIT_PER_BLOCK with 4096; lia|apply Hlayout|apply Hord|apply Hord|].
  intros x1 Ok1 A1 (rm1 & Erm1 & Hrm1) A3. apply wp_bind. eapply wp_update_entry; [exact Ei|].
  unfold u32. rewrite wrap_small by lia. fold (with_block k b (i_entry i)).
  set (e' := with_block k b (i_entry i)). set (s1 := set_heap _ _).
  assert (wf_inode e') as Hwf' by (apply with_block_wf; [apply Hbok|change BIT_PER_BLOCK with 4096; lia]).
  assert (inode_block (i_inode_no i) ∈ v_logged (bc_volume x1) <-> inode_block (i_inode_no i) ∈ v_logged (vol s)) as Hlg.
  { rewrite A3. split; [|by auto]. intros [E|[E|E]]; [|by apply (lo_apart _ _ Hlayout) in E|done].
    by destruct (or_inode _ Hord _ Hn). }
  assert (inode_cost (i_inode_no i) (bc_volume x1) = inode_cost (i_inode_no i) (vol s)) as Eic.
  { unfold inode_cost. destruct (decide (inode_block (i_inode_no i) ∈ v_logged (vol s)));
      destruct (decide (inode_block (i_inode_no i) ∈ v_logged (bc_volume x1))); tauto. }
  apply wp_bind. eapply wp_mono.
  { apply (wp_inode_sync_write sblock cache Hlayout s1 ctx p (set_entry e' i)); try done.
    - apply lookup_insert_eq.
    - split; [done|]. exists rm1. split; [done|]. unfold inode_cost in Eic. simpl.
      change (vol s1) with (bc_volume x1).
      destruct (decide (inode_block (i_inode_no i) ∈ v_logged (bc_volume x1))) as [|Hnl]; [by left|right].
      unfold inode_cost in Hrm. rewrite <- Eic in Hrm. lia. }
  intros [] s2 ((x2 & -> & Hx2) & Hew). cbn [i_inode_no set_entry i_entry] in Hew.
  apply wp_bind. eapply wp_inode_at; [apply lookup_insert_eq|]. apply wp_bind.
  assert (ie_addrs e' !! Z.to_nat k = Some b) as Eb by (apply list_lookup_insert_eq; lia).
  eapply wp_deref; [exact Eb|]. apply wp_ret. exists e'. cbn [fst].
  change (vol s1) with (bc_volume x1) in Hew. change (vol (set_fcache x2 s1)) with (bc_volume x2) in *.
  assert (forall y, is_block (v_block (bc_volume x2) y)) as Hv2 by (intros y; by apply (bc_block_wf x2)).
  assert (block_of (vol s) (i_entry i) k = 0) as Hz.
  { rewrite block_of_direct by (change INODE_NUM_DIRECT with 12; lia). by rewrite Ea. }
  assert (0 <= k < INODE_NUM_DIRECT) as Hkd by (change INODE_NUM_DIRECT with 12; lia).
  split_and!.
  - rewrite block_of_direct by done. by rewrite Eb.
  - destruct Hord. lia.
  - exists x2. split; [|done]. done.
  - by eapply (wrote_alloc (i_inode_no i) ctx k b (vol s) (bc_volume x1) (bc_volume x2) (i_entry i)).
  - exists (if decide (inode_block (i_inode_no i) ∈ v_logged (bc_volume x1)) then rm1 else rm1 - 1).
    split; [by apply (ew_rm _ _ _ _ _ _ Hew)|].
    assert (inode_cost (i_inode_no i) (bc_volume x2) = 0) as ->.
    { unfold inode_cost. rewrite decide_True; [done|]. apply (ew_logged _ _ _ _ _ _ Hew). by left. }
    rewrite (decide_True (P := b ∈ _)) by (apply (ew_logged _ _ _ _ _ _ Hew); right; apply A3; by left).
    unfold inode_cost in Hrm, Eic. rewrite <- Eic in Hrm.
    destruct (decide (inode_block (i_inode_no i) ∈ v_logged (bc_volume x1))); lia.
  - eapply (free_list_alloc _ _ b). intros y Hy.
    by eapply (alloc_bit (i_inode_no i) ctx k b (vol s) (bc_volume x1) (bc_volume x2) (i_entry i)).
Qed.

(** ** The loop *)

(** The blocks a range touches. *)
Definition chunks (off end_ : Z) : Z :=
  if off <? end_ then (end_ - 1) / BLOCK_SIZE - off / BLOCK_SIZE + 1 else 0.

Lemma chunks_step off end_ :
  0 <= off < end_ -> let n := Z.min (BLOCK_SIZE - off mod BLOCK_SIZE) (end_ - off) in
  0 < n /\ chunks off end_ = chunks (off + n) end_ + 1.
Proof.
  intros H. unfold chunks, BLOCK_SIZE. cbn zeta. rewrite (proj2 (Z.ltb_lt off end_)) by lia.
  pose proof (Z.div_mod off 512). pose proof (Z.mod_pos_bound off 512).
  destruct (Z.ltb_spec (off + Z.min (512 - off mod 512) (end_ - off)) end_).
  - assert ((off + Z.min (512 - off mod 512) (end_ - off)) / 512 = off / 512 + 1) as ->.
    { symmetry. apply (Z.div_unique _ _ _ 0); lia. }
    lia.
  - assert ((end_ - 1) / 512 = off / 512) as ->.
    { symmetry. apply (Z.div_unique _ _ _ (end_ - 1 - 512 * (off / 512))); lia. }
    lia.
Qed.

Lemma chunks_nonneg off end_ : 0 <= chunks off end_.
Proof.
  unfold chunks, BLOCK_SIZE. destruct (Z.ltb_spec off end_); [|lia].
  assert (off / 512 <= (end_ - 1) / 512) by (apply Z.div_le_mono; lia). lia.
Qed.

Lemma wp_write_blocks fuel s ctx p i src offset end_ written :
  bc_ok (f_cache s) -> f_heap s !! p = Some i -> i_valid i = true -> inode_range (i_inode_no i) ->
  blocks_ok (vol s) (i_entry i) -> 0 <= offset -> end_ <= INODE_MAX_BYTES ->
  Z.of_nat (length src) = end_ - offset -> end_ - offset <= Z.of_nat fuel -> Forall is_byte src ->
  (forall o, offset <= o < end_ -> o / BLOCK_SIZE < INODE_NUM_DIRECT \/ block_of (vol s) (i_entry i) (o / BLOCK_SIZE) <> 0) ->
  ctx <> 0 -> budget ctx (i_inode_no i) (chunks offset end_) (vol s) ->
  chunks offset end_ <= Z.of_nat (length (free_list (vol s))) ->
  wp (write_blocks sblock cache fuel ctx p src offset end_ written) (fun r s' => exists e',
    r = written + (end_ - offset) /\
    recached (set_heap (<[p := set_entry e' i]> (f_heap s)) s) s' /\
    wrote (i_inode_no i) offset src (vol s) (i_entry i) (vol s') e') s.
Proof.
  revert s i src offset written.
  induction fuel as [|fuel IH]; intros s i src offset written Hok Ei Hval Hn Hbok Ho Hmax Hlen Hf Hby Hmap Hctx Hbud Hfree;
    cbn [write_blocks]; (destruct (Z.ltb_spec offset end_) as [Hlt|Hge]; [try lia|]).
  1,3: apply wp_ret; exists (i_entry i); destruct src; [|simpl in Hlen; lia];
    (split_and!; [lia| |apply wrote_same; [reflexivity|done]]);
    exists (f_cache s); (split; [|done]); assert (set_entry (i_entry i) i = i) as -> by (by destruct i);
    rewrite insert_id by done; by destruct s.
  destruct (chunks_step offset end_ ltac:(lia)) as [Hn0 Hch]. cbn zeta in Hn0, Hch.
  set (m := Z.min (BLOCK_SIZE - offset mod BLOCK_SIZE) (end_ - offset)) in *.
  pose proof (chunks_nonneg (offset + m) end_) as Hcn. assert (m <= end_ - offset) as Hme by (unfold m; lia).
  pose proof (block_index offset ltac:(lia)) as Hk.
  apply wp_bind. eapply wp_mono; [apply (wp_inode_map s ctx p i (offset / BLOCK_SIZE) (chunks offset end_) offset); try done|].
  { apply Hmap. lia. } { lia. }
  { intros E. rewrite E in Hfree. simpl in Hfree. lia. }
  intros r s1 (e1 & Er & Hr0 & (x1 & -> & Hx1) & W1 & Hb1 & Hfl1). cbn zeta.
  set (s1 := set_fcache x1 _) in *.
  apply wp_bind, wp_assert; [by apply negb_true_iff, Z.eqb_neq|].
  pose proof (w_ok _ _ _ _ _ _ _ W1) as Hbok1.
  assert (length (take (Z.to_nat m) src) = Z.to_nat m) as Htk by (rewrite length_take; lia).
  assert (offset mod BLOCK_SIZE + m <= BLOCK_SIZE /\ 0 <= offset mod BLOCK_SIZE) as [Hfit Hm0].
  { unfold m, BLOCK_SIZE. pose proof (Z.mod_pos_bound offset 512). lia. }
  destruct (bo_data _ _ Hbok1 (offset / BLOCK_SIZE) Hk) as [Hord1 _]; [by rewrite <- Er|]. rewrite <- Er in Hord1.
  apply wp_bind, wp_on_cache. eapply wp_mono; [apply (cache_rewrite sblock cache (f_cache s1) ctx r.1
    (fun d => splice d (Z.to_nat (offset mod BLOCK_SIZE)) (take (Z.to_nat m) src))
    (fun x' => bc_ok x' /\ v_write ctx r.1 (splice (v_block (vol s1) r.1) (Z.to_nat (offset mod BLOCK_SIZE))
       (take (Z.to_nat m) src)) (vol s1) (bc_volume x')))|]; try done.
  { apply Hord1. }
  { eapply budget_for_can; [done| |exact Hb1]. lia. }
  { apply splice_block; [by apply bc_block_wf|unfold BLOCK_SIZE in *; lia|by apply Forall_take]. }
  intros blk y1 H1. apply wp_bind, wp_on_cache. cbn [f_cache set_fcache]. eapply wp_mono; [exact H1|].
  intros d y2 H2. apply wp_bind, wp_on_cache. cbn [f_cache set_fcache]. eapply wp_mono; [exact H2|].
  intros [] x2 [Ok2 Wv]. rewrite Er in Wv.
  set (s2 := set_fcache x2 _).
  assert (wrote (i_inode_no i) offset (take (Z.to_nat m) src) (vol s1) e1 (vol s2) e1) as W2.
  { eapply wrote_store; try done; [lia|lia|lia|by apply Forall_take|by rewrite <- Er]. }
  assert (wrote (i_inode_no i) offset (take (Z.to_nat m) src) (vol s) (i_entry i) (vol s2) e1) as W12.
  { apply (wrote_trans _ _ [] (take (Z.to_nat m) src) _ _ (vol s1) e1); [lia|change (Z.of_nat (length [])) with 0; rewrite Htk; lia|done|]. change (Z.of_nat (length [])) with 0. by rewrite Z.add_0_r. }
  rewrite <- Er in Wv.
  eapply wp_mono; [apply (IH s2 (set_entry e1 i)); try done|].
  - apply lookup_insert_eq.
  - apply W12.
  - lia.
  - rewrite length_drop. lia.
  - lia.
  - by apply Forall_drop.
  - intros o Hor. destruct (Hmap o ltac:(lia)) as [|Hmo]; [by left|right].
    change (i_entry (set_entry e1 i)) with e1.
    destruct (w_map _ _ _ _ _ _ _ W12 (o / BLOCK_SIZE)) as [E|(E & _)]; [apply block_index; lia|by rewrite E|congruence].
  - replace (chunks (offset + m) end_) with (chunks offset end_ - 1) by lia. by eapply budget_for_write.
  - rewrite (free_list_same (vol s1) (vol s2)); [lia|]. destruct Wv as [Wb _].
    eapply in_use_other; [exact Wb|]. apply Hord1.
  - intros r' s3 (e3 & -> & (x3 & -> & Hx3) & W3). exists e3. split_and!; [lia| |].
    + exists x3. split; [|done]. unfold s2, s1. simpl. by rewrite insert_insert_eq.
    + rewrite <- (take_drop (Z.to_nat m) src). eapply wrote_trans; [lia| |exact W12|].
      * rewrite length_drop, Htk. lia.
      * by rewrite Htk, Z2Nat.id by lia.
Qed.

(** ** The size *)

Lemma block_of_size v e sz k : block_of v (set_num_bytes sz e) k = block_of v e k.
Proof. done. Qed.

Lemma byte_of_size v e sz o : byte_of v (set_num_bytes sz e) o = byte_of v e o.
Proof. done. Qed.

Lemma set_num_bytes_wf e sz : wf_inode e -> 0 <= sz < 2 ^ 32 -> wf_inode (set_num_bytes sz e).
Proof.
  intros (H1 & H2 & H3 & H4 & H5 & H6 & H7 & H8) Hs. unfold wf_inode.
  cbn [ie_type ie_major ie_minor ie_num_links ie_num_bytes ie_addrs ie_indirect set_num_bytes]. by split_and!.
Qed.

(** Rewriting the entry of the inode leaves its blocks alone. *)
Lemma wrote_entry n ctx off v e v1 :
  blocks_ok v e -> inode_range n -> (forall b, is_block (v_block v1 b)) ->
  entry_written sblock ctx n e v v1 -> wrote n off [] v e v1 e.
Proof.
  intros Hok Hn Hv1 Hew.
  assert (forall b, ordinary b -> v_block v1 b = v_block v b) as Eo.
  { intros b Ho. apply (ew_blocks _ _ _ _ _ _ Hew). by apply Ho. }
  assert (v_block v1 bm = v_block v bm) as Ebm.
  { apply (ew_blocks _ _ _ _ _ _ Hew). apply not_eq_sym. by apply (lo_apart _ _ Hlayout). }
  assert (forall k, block_of v1 e k = block_of v e k) as Eb.
  { intros k. unfold block_of. destruct (k <? INODE_NUM_DIRECT); [done|].
    destruct (Z.eqb_spec (ie_indirect e) 0) as [|Hi]; [done|]. rewrite Eo; [done|]. by apply (bo_indirect _ _ Hok). }
  assert (forall b, in_use v1 b <-> in_use v b) as Eu by (intros b; unfold in_use; by rewrite Ebm).
  split; simpl.
  - by destruct e.
  - intros k _. by left.
  - intros. lia.
  - intros. lia.
  - intros o Ho _ Hb. unfold byte_of. rewrite Eb. rewrite Eo; [done|].
    by apply (bo_data _ _ Hok _ (block_index o Ho)).
  - intros b _. by apply Eu.
  - intros _. apply Hew.
  - intros m Hm Hne. by apply Hew.
  - intros b [Ho Hu] _. split; [by apply Eo|]. split; [done|by apply Eu].
  - destruct Hok as [B0 B1 B2 B3 B4 B5]. split; [done|done| | | |].
    + intros k Hk. rewrite Eb. intros Hx. destruct (B2 k Hk Hx). split; [done|by apply Eu].
    + intros k k'. rewrite !Eb. apply B3.
    + intros Hi. destruct (B4 Hi) as [[? ?] Hx]. split; [split; [done|by apply Eu]|]. intros k. rewrite Eb. apply Hx.
    + intros b Hb Hf. apply B5; [done|]. unfold is_free in *. by rewrite <- Ebm.
Qed.

Lemma blocks_ok_size v e sz : 0 <= sz < 2 ^ 32 -> blocks_ok v e -> blocks_ok v (set_num_bytes sz e).
Proof. intros Hs [B0 B1 B2 B3 B4 B5]. split; try done. by apply set_num_bytes_wf. Qed.

(** The effect of [inode_write] on the file of inode [n]. *)
Record written_file (n off : Z) (src : list Z) (v : Volume) (e : InodeEntry) (v' : Volume) (e' : InodeEntry) : Prop := {
  wf_size : ie_num_bytes e' = Z.max (ie_num_bytes e) (off + Z.of_nat (length src));
  wf_meta : ie_type e' = ie_type e /\ ie_major e' = ie_major e /\ ie_minor e' = ie_minor e /\
            ie_num_links e' = ie_num_links e /\ ie_indirect e' = ie_indirect e;
  wf_bytes : forall o, 0 <= o < ie_num_bytes e' -> byte_of v' e' o =
    if decide (off <= o < off + Z.of_nat (length src)) then default 0 (src !! Z.to_nat (o - off)) else byte_of v e o;
  wf_disk : disk_entry v n = e -> disk_entry v' n = e';
  wf_others : forall m, inode_range m -> m <> n -> disk_entry v' m = disk_entry v m;
  wf_blocks : forall b, data_block v b -> (forall k, 0 <= k < INODE_MAX_BLOCKS -> block_of v e k <> b) ->
    v_block v' b = v_block v b /\ data_block v' b;
  wf_mapped : mapped sblock cache v' e';
  wf_ok : blocks_ok v' e';
}.

Lemma wrote_file n off src v e v' e' :
  let sz := Z.max (ie_num_bytes e) (off + Z.of_nat (length src)) in
  mapped sblock cache v e -> 0 <= off <= ie_num_bytes e -> off + Z.of_nat (length src) <= INODE_MAX_BYTES ->
  wrote n off src v (set_num_bytes sz e) v' e' -> (disk_entry v n = e -> disk_entry v' n = e') ->
  written_file n off src v e v' e'.
Proof.
  intros sz [M0 M1 M2 M3] Hoff Hmax W Hd. pose proof (w_entry _ _ _ _ _ _ _ W) as Ee.
  assert (ie_num_bytes e' = sz) as Esz by (by rewrite Ee).
  assert (sz <= INODE_MAX_BYTES) as Hszm by (unfold sz; lia).
  assert (forall o, 0 <= o < ie_num_bytes e -> block_of v e (o / BLOCK_SIZE) <> 0) as Hold.
  { intros o Ho. apply M2; [apply Z.div_pos; unfold BLOCK_SIZE; lia|]. unfold BLOCK_SIZE.
    pose proof (Z.div_mod o 512). pose proof (Z.mod_pos_bound o 512). lia. }
  assert (forall k, 0 <= k < INODE_MAX_BLOCKS -> block_of v e k <> 0 -> block_of v' e' k = block_of v e k) as Hkeep.
  { intros k Hk Hb. destruct (w_map _ _ _ _ _ _ _ W k Hk) as [E|(E & _)]; [done|]. by rewrite block_of_size in E. }
  split; try done.
  - by rewrite Ee.
  - rewrite Esz. intros o Ho. destruct (decide (off <= o < off + Z.of_nat (length src))) as [Hin|Hout].
    + by rewrite (w_in _ _ _ _ _ _ _ W o Hin).
    + rewrite (w_out _ _ _ _ _ _ _ W); [done|lia|lia|]. apply Hold. unfold sz in Ho. lia.
  - apply (w_others _ _ _ _ _ _ _ W).
  - apply (w_blocks _ _ _ _ _ _ _ W).
  - pose proof (w_ok _ _ _ _ _ _ _ W) as Hok. split.
    + apply Hok.
    + lia.
    + rewrite Esz. intros k Hk Hks. change INODE_MAX_BYTES with (140 * 512) in Hszm. unfold BLOCK_SIZE in Hks.
      assert (0 <= k < INODE_MAX_BLOCKS) as Hkr by (change INODE_MAX_BLOCKS with 140; lia).
      assert (block_of v' e' k <> 0) as Hnz.
      { destruct (decide (k * 512 < ie_num_bytes e)) as [Hlt|Hge].
        - specialize (M2 k Hk Hlt) as [Hb _]. by rewrite Hkeep.
        - replace k with (k * 512 / BLOCK_SIZE) by (unfold BLOCK_SIZE; by rewrite Z.div_mul).
          apply (w_new _ _ _ _ _ _ _ W). unfold sz in Hks. lia. }
      split; [done|]. by apply (bo_data _ _ Hok).
    + intros Hi. by apply (bo_indirect _ _ Hok).
  - apply W.
Qed.

Lemma max_bytes_small : INODE_MAX_BYTES < 2 ^ 32.
Proof. vm_compute. reflexivity. Qed.

Lemma wp_inode_write s ctx p i src offset :
  bc_ok (f_cache s) -> f_heap s !! p = Some i -> i_valid i = true -> inode_range (i_inode_no i) ->
  blocks_ok (vol s) (i_entry i) -> mapped sblock cache (vol s) (i_entry i) ->
  ie_type (i_entry i) <> INODE_DEVICE -> Forall is_byte src ->
  0 <= offset <= ie_num_bytes (i_entry i) -> offset + Z.of_nat (length src) <= INODE_MAX_BYTES ->
  (forall o, offset <= o < offset + Z.of_nat (length src) ->
     o / BLOCK_SIZE < INODE_NUM_DIRECT \/ block_of (vol s) (i_entry i) (o / BLOCK_SIZE) <> 0) ->
  ctx <> 0 -> budget ctx (i_inode_no i) (chunks offset (offset + Z.of_nat (length src))) (vol s) ->
  chunks offset (offset + Z.of_nat (length src)) <= Z.of_nat (length (free_list (vol s))) ->
  wp (inode_write sblock cache ctx p src offset (Z.of_nat (length src))) (fun r s' => exists e',
    r = Z.of_nat (length src) /\
    recached (set_heap (<[p := set_entry e' i]> (f_heap s)) s) s' /\
    written_file (i_inode_no i) offset src (vol s) (i_entry i) (vol s') e') s.
Proof.
  intros Hok Ei Hval Hn Hbok Hm Hty Hby Ho Hmax Hmap Hctx Hbud Hfree. pose proof max_bytes_small as Hmb.
  unfold inode_write. apply wp_bind. eapply wp_inode_at; [done|]. cbn zeta.
  rewrite (proj2 (Z.eqb_neq _ _) Hty). unfold u64. rewrite wrap_small by lia.
  set (end_ := offset + Z.of_nat (length src)) in *.
  do 3 (apply wp_bind, wp_assert; [apply Z.leb_le; lia|]). apply wp_bind.
  set (sz := Z.max (ie_num_bytes (i_entry i)) end_). set (e0 := set_num_bytes sz (i_entry i)).
  assert (0 <= sz < 2 ^ 32) as Hsz by (pose proof (mp_size _ _ _ _ Hm); unfold sz; lia).
  assert (blocks_ok (vol s) e0) as Hbok0 by (by apply blocks_ok_size).
  assert (forall s1, recached (set_heap (<[p := set_entry e0 i]> (f_heap s)) s) s1 ->
    wrote (i_inode_no i) offset [] (vol s) e0 (vol s1) e0 ->
    (disk_entry (vol s) (i_inode_no i) = i_entry i -> disk_entry (vol s1) (i_inode_no i) = e0) ->
    budget ctx (i_inode_no i) (chunks offset end_) (vol s1) -> v_block (vol s1) bm = v_block (vol s) bm ->
    wp (write_blocks sblock cache (Z.to_nat (Z.of_nat (length src))) ctx p src offset end_ 0)
      (fun r s' => exists e', r = Z.of_nat (length src) /\
        recached (set_heap (<[p := set_entry e' i]> (f_heap s)) s) s' /\
        written_file (i_inode_no i) offset src (vol s) (i_entry i) (vol s') e') s1) as Hloop.
  { intros s1 (x1 & -> & Hx1) W1 Hd1 Hb1 Ebm. set (s1 := set_fcache x1 _) in *.
    eapply wp_mono; [apply (wp_write_blocks _ s1 ctx p (set_entry e0 i)); try done|].
    - apply lookup_insert_eq.
    - apply W1.
    - lia.
    - unfold end_. lia.
    - unfold end_. lia.
    - intros o Hor. destruct (Hmap o Hor) as [|Hb]; [by left|right]. change (i_entry (set_entry e0 i)) with e0.
      destruct (w_map _ _ _ _ _ _ _ W1 (o / BLOCK_SIZE)) as [E|(E & _)]; [apply block_index; lia| |].
      + rewrite E. by unfold e0.
      + by unfold e0 in E.
    - by rewrite (free_list_same (vol s) (vol s1)).
    - intros r s2 (e2 & -> & (x2 & -> & Hx2) & W2). exists e2. split_and!; [unfold end_; lia| |].
      + exists x2. split; [|done]. unfold s1. simpl. by rewrite insert_insert_eq.
      + apply wrote_file; [done|done|done| |].
        * fold end_ sz e0. apply (wrote_trans _ _ [] src _ _ (vol s1) e0); [lia| |done|].
          { change (Z.of_nat (length [])) with 0. unfold end_ in Hmax. lia. }
          change (Z.of_nat (length [])) with 0. by rewrite Z.add_0_r.
        * intros E. by apply (w_disk _ _ _ _ _ _ _ W2), Hd1. }
  destruct (Z.ltb_spec (ie_num_bytes (i_entry i)) end_) as [Hgrow|Hfit].
  - apply wp_bind. eapply wp_update_entry; [exact Ei|]. unfold u32. rewrite wrap_small by lia.
    replace end_ with sz at 1 by (unfold sz; lia). fold e0. set (s0 := set_heap _ _).
    destruct Hbud as (rm & Erm & Hrm). pose proof (chunks_nonneg offset end_) as Hcn.
    eapply wp_mono; [apply (wp_inode_sync_write sblock cache Hlayout s0 ctx p (set_entry e0 i)); try done|].
    + apply lookup_insert_eq.
    + apply Hbok0.
    + split; [done|]. exists rm. split; [done|]. unfold inode_cost in Hrm. simpl.
      change (vol s0) with (vol s).
      destruct (decide (inode_block (i_inode_no i) ∈ v_logged (vol s))); [by left|right; lia].
    + intros [] s1 (Hrc1 & Hew). change (vol s0) with (vol s) in Hew. cbn [i_inode_no set_entry i_entry] in Hew.
      apply Hloop; [done| | | |].
      * eapply (wrote_entry _ ctx); [done|done| |done]. intros b. apply bc_block_wf. by eapply recached_ok.
      * intros _. apply Hew.
      * exists (if decide (inode_block (i_inode_no i) ∈ v_logged (vol s)) then rm else rm - 1).
        split; [by apply (ew_rm _ _ _ _ _ _ Hew)|].
        assert (inode_cost (i_inode_no i) (vol s1) = 0) as ->.
        { unfold inode_cost. rewrite decide_True; [done|]. apply (ew_logged _ _ _ _ _ _ Hew). by left. }
        unfold inode_cost in Hrm. destruct (decide (inode_block (i_inode_no i) ∈ v_logged (vol s))); lia.
      * apply (ew_blocks _ _ _ _ _ _ Hew). apply not_eq_sym. by apply (lo_apart _ _ Hlayout).
  - assert (e0 = i_entry i) as E0.
    { unfold e0. replace sz with (ie_num_bytes (i_entry i)) by (unfold sz; lia). by destruct (i_entry i). }
    apply wp_ret. apply Hloop; try done.
    + exists (f_cache s). split; [|done]. rewrite E0. assert (set_entry (i_entry i) i = i) as -> by (by destruct i).
      rewrite insert_id by done. by destruct s.
    + by apply wrote_same.
    + by rewrite E0.
Qed.
End write.
