(* ===== verification/InodeProps.v ===== *)
(** Properties of the inode layer (src/fs/inode.c): allocation, loading, file
    contents. *)
From Stdlib Require Import ZArith Lia.
From stdpp Require Import base numbers gmap sets list.
From S2P Require Import Prelude Bytes Bitmap Sync FsDefs Console CString Cache CacheLaws.
From S2P Require Import LogLaws Crash Reserve Transactions BlockCache Inode InodeLaws InodeWrite.

Section props.
Context {S : Type} (sblock : SuperBlock) (cache : BlockCache S) `{!BlockCacheSpec sblock cache}.
Context (Hlayout : layout_ok sblock cache).
Abbreviation vol := (InodeLaws.vol sblock cache).
Abbreviation recached := (InodeLaws.recached sblock cache).


(** C25: [inode_read] fills the buffer with the bytes of the file from [offset],
    as many as asked for or as the file has, and changes nothing. *)
Theorem inode_read_spec s p i dest offset count :
  bc_ok (f_cache s) -> f_heap s !! p = Some i -> mapped sblock cache (vol s) (i_entry i) ->
  ie_type (i_entry i) <> INODE_DEVICE -> 0 <= offset <= ie_num_bytes (i_entry i) -> 0 <= count < 2 ^ 63 ->
  (Z.to_nat count <= length dest)%nat ->
  wp (inode_read sblock cache p dest offset count) (fun r s' =>
    let n := Z.min count (ie_num_bytes (i_entry i) - offset) in
    r.1 = n /\ length r.2 = length dest /\
    (forall k, 0 <= k < n -> r.2 !! Z.to_nat k = Some (byte_of (vol s) (i_entry i) (offset + k))) /\
    (forall k, n <= k -> r.2 !! Z.to_nat k = dest !! Z.to_nat k) /\
    recached s s' /\ v_same (vol s) (vol s')) s.
Proof.
  intros Hok Ei Hm Hty Ho Hc Hd. cbn zeta. fold (clipped (i_entry i) offset count).
  assert (0 <= clipped (i_entry i) offset count <= count) as Hcl by (unfold clipped; lia).
  eapply wp_mono; [apply (wp_inode_read sblock cache s p i dest offset count); try done; lia|].
  intros r s' (-> & Hrc & Hv). simpl. set (l := file_bytes _ _ _ _).
  assert (length l = Z.to_nat (clipped (i_entry i) offset count)) as Hl by apply length_file_bytes.
  split_and!; [done|rewrite length_splice; lia| | |done|done].
  - intros k Hk. rewrite lookup_splice_in by lia. unfold l. rewrite lookup_file_bytes by lia. do 2 f_equal. lia.
  - intros k Hk. rewrite lookup_splice_out; [done|lia|lia].
Qed.

(** [inode_alloc] returns the first free inode number and makes it, on
    disk, an empty inode of the given type; no other inode changes. *)
Theorem inode_alloc_spec s ctx type n :
  bc_ok (f_cache s) -> f_lock s = false -> is_word 2 type -> type <> INODE_INVALID ->
  first_free_inode sblock (vol s) n -> v_can ctx (to_block_no sblock n) (vol s) ->
  wp (inode_alloc sblock cache ctx type) (fun r s' => r = n /\ recached s s' /\
    entry_written sblock ctx n (fresh_entry type) (vol s) (vol s')) s.
Proof. apply wp_inode_alloc; done. Qed.

(** [inode_get] gives the in-memory inode of a number: the one in the list,
    with one more reference, or a new one loaded from disk with one
    reference; there is never a second in-memory inode of one number. *)
Theorem inode_get_spec s n :
  ring_ok s -> bc_ok (f_cache s) -> 0 < n < sb_num_inodes sblock ->
  (forall p i, f_heap s !! p = Some i -> i_rc i < 2 ^ 63 - 1) ->
  wp (inode_get sblock cache n) (fun p s' => p <> NULL /\ got sblock cache n p s s') s.
Proof.
  intros Hr Hok Hn Hrc. destruct (find_inode n s) as [p|] eqn:Ef.
  - destruct (find_inode_some n s p Ef) as (Hin & i & Ei & _).
    eapply wp_mono; [eapply (wp_inode_get_found sblock cache s n p i); eauto|].
    intros p' s' [-> Hg]. split; [|done]. pose proof (rg_next _ Hr p (mk_is_Some _ _ Ei)). unfold NULL. lia.
  - eapply wp_mono; [by apply (wp_inode_get_new sblock cache Hlayout)|].
    intros p s' (-> & Hg & _). split; [|done]. pose proof (rg_pos _ Hr). unfold NULL. lia.
Qed.
End props.

(** ** Examples: a disk with blocks 0 to 99 in use, operation 7 in progress *)

Definition example_bitmap : list Z := replicate 12 255 ++ 15 :: replicate 499 0.
Definition example_file : InodeEntry := mkInodeEntry INODE_REGULAR 0 0 1 0 (replicate 12 0) 0.
Definition example_root : InodeEntry := mkInodeEntry INODE_DIRECTORY 0 0 1 0 (replicate 12 0) 0.
Definition example_inodes : list Z :=
  replicate 64 0 ++ encode_inode example_root ++ encode_inode example_file ++ replicate 320 0.
Definition example_disk (b : Z) : list Z :=
  if b =? 90 then example_bitmap else if b =? 65 then example_inodes else zero_block.
Definition example_cache : CacheState := set_dev (mkDevice example_disk []) example_s1.

Lemma bytes_dec_block l : bool_decide (length l = 512%nat /\ Forall (fun b => 0 <= b < 256) l) = true -> is_block l.
Proof. intros H. by apply bool_decide_eq_true in H. Qed.

Lemma example_disk_blocks b : is_block (example_disk b).
Proof.
  unfold example_disk. destruct (b =? 90); [|destruct (b =? 65); [|apply zero_block_block]];
    apply bytes_dec_block; vm_compute; reflexivity.
Qed.

Lemma example_cache_ok : cache_ok example_sb example_cache.
Proof.
  pose proof example_tx1 as [[[I1 I2 I3 I4 I5 I6] Hl] [L1 L2] [R1 R2 R3 R4] Hlk].
  split; [|reflexivity]. split; [split; [split|]|split|split|]; try done.
  - intros blk Hin. assert (c_blocks example_cache = []) as E by (vm_compute; reflexivity). rewrite E in Hin.
    by apply elem_of_nil in Hin.
  - intros b. apply example_disk_blocks.
Qed.

(** The layer with inode 2 in memory at address 1. *)
Definition example_inode : Inode := mkInode (Sem.init_sem 1) 1 2 true example_file.
Definition example_fs : FsState CacheState :=
  mkFs example_cache false [1] {[1 := example_inode]} 2 0 0 (mkConsole false (Sem.init_sem 0) [] 0 0 0 [] 0 []).

Lemma example_view b : view example_cache b = example_disk b.
Proof. reflexivity. Qed.

Lemma example_inode_block n : 0 <= n < 200 -> 65 <= to_block_no example_sb n < 90.
Proof.
  intros Hn. unfold to_block_no, u64. change INODE_PER_BLOCK with 8. simpl sb_inode_start.
  assert (0 <= n / 8 < 25) by (split; [apply Z.div_pos; lia|apply Z.div_lt_upper_bound; lia]).
  rewrite wrap_small; lia.
Qed.

Lemma example_usable b : 65 <= b < 2 ^ 32 -> bc_usable (BlockCacheSpec := bcache_spec example_sb) b.
Proof. intros Hb. apply example_loggable; [unfold is_word; simpl; lia|lia]. Qed.

Lemma example_layout : layout_ok example_sb (bcache example_sb).
Proof.
  split; simpl; try lia.
  - intros n Hn. apply example_usable. pose proof (example_inode_block n Hn). lia.
  - vm_compute. split; congruence.
  - apply example_usable. lia.
  - intros n Hn. pose proof (example_inode_block n Hn). simpl. lia.
Qed.

Lemma example_used : Forall (fun b => bit_of example_bitmap b = Some true) (seqZ 0 100).
Proof. apply (bool_decide_unpack _). vm_compute. exact I. Qed.

Lemma example_ordinary b : 100 <= b < 1000 -> ordinary example_sb (bcache example_sb) b.
Proof.
  intros Hb. split.
  - apply example_usable. lia.
  - change BIT_PER_BLOCK with 4096. lia.
  - simpl. lia.
  - intros n Hn. pose proof (example_inode_block n Hn). lia.
Qed.

Lemma example_no_block v k : block_of v example_file k = 0.
Proof.
  unfold block_of. destruct (k <? INODE_NUM_DIRECT); [|done].
  change (ie_addrs example_file) with (replicate 12 0).
  destruct (replicate 12 0 !! Z.to_nat k) eqn:E; [|reflexivity]. by apply lookup_replicate in E as [-> _].
Qed.

Lemma example_file_wf : wf_inode example_file.
Proof.
  unfold wf_inode, example_file, is_word, INODE_REGULAR. cbn [ie_type ie_major ie_minor ie_num_links ie_num_bytes ie_addrs ie_indirect].
  split_and!; try lia; [reflexivity|]. apply Forall_replicate. lia.
Qed.

Lemma example_blocks_ok : blocks_ok example_sb (bcache example_sb) (volume example_cache) example_file.
Proof.
  split.
  - apply example_file_wf.
  - intros b. apply example_disk_blocks.
  - intros k _ H. by rewrite example_no_block in H.
  - intros k k' _ _ H. by rewrite example_no_block in H.
  - done.
  - intros b Hb Hf. apply example_ordinary. destruct (decide (b < 100)) as [Hlt|]; [|simpl in Hb; lia].
    pose proof example_used as H. rewrite Forall_forall in H. specialize (H b).
    unfold is_free in Hf. change (v_block (volume example_cache) (sb_bitmap_start example_sb)) with example_bitmap in Hf.
    rewrite H in Hf; [done|]. apply elem_of_seqZ. lia.
Qed.

Lemma example_mapped : mapped example_sb (bcache example_sb) (volume example_cache) example_file.
Proof.
  split.
  - apply example_file_wf.
  - vm_compute. discriminate.
  - intros k Hk Hlt. simpl in Hlt. unfold BLOCK_SIZE in Hlt. lia.
  - done.
Qed.

Lemma example_direct o :
  0 <= o < 0 + Z.of_nat (length [104; 105]) ->
  o / BLOCK_SIZE < INODE_NUM_DIRECT \/ block_of (volume example_cache) example_file (o / BLOCK_SIZE) <> 0.
Proof.
  intros Ho. left. simpl in Ho. change INODE_NUM_DIRECT with 12. unfold BLOCK_SIZE. apply Z.div_lt_upper_bound; lia.
Qed.

Lemma example_budget : budget example_sb 7 2 1 (volume example_cache).
Proof. exists 10. split; [reflexivity|]. vm_compute. discriminate. Qed.

Lemma example_free : 1 <= Z.of_nat (length (free_list example_sb (volume example_cache))).
Proof.
  assert (100 ∈ free_list example_sb (volume example_cache)) as Hin.
  { apply list_elem_of_filter. split; [vm_compute; reflexivity|]. apply elem_of_seqZ. simpl. lia. }
  destruct (free_list _ _); [by apply elem_of_nil in Hin|simpl; lia].
Qed.


Lemma inode_read_spec_witness :
  wp (inode_read example_sb (bcache example_sb) 1 [1; 2; 3] 0 3) (fun r s' =>
    let n := Z.min 3 (ie_num_bytes example_file - 0) in
    r.1 = n /\ length r.2 = 3%nat /\
    (forall k, 0 <= k < n -> r.2 !! Z.to_nat k = Some (byte_of (volume example_cache) example_file (0 + k))) /\
    (forall k, n <= k -> r.2 !! Z.to_nat k = [1; 2; 3] !! Z.to_nat k) /\
    InodeLaws.recached example_sb (bcache example_sb) example_fs s' /\
    v_same (volume example_cache) (InodeLaws.vol example_sb (bcache example_sb) s')) example_fs.
Proof.
  apply (inode_read_spec example_sb (bcache example_sb) (BlockCacheSpec0 := bcache_spec example_sb) example_fs 1 example_inode [1; 2; 3] 0 3 example_cache_ok).
  - reflexivity.
  - exact example_mapped.
  - discriminate.
  - simpl. lia.
  - lia.
  - simpl. lia.
Defined.

Lemma inode_alloc_spec_witness :
  wp (inode_alloc example_sb (bcache example_sb) 7 INODE_REGULAR) (fun r s' => r = 3 /\ InodeLaws.recached example_sb (bcache example_sb) example_fs s' /\
    entry_written example_sb 7 3 (fresh_entry INODE_REGULAR) (volume example_cache)
      (InodeLaws.vol example_sb (bcache example_sb) s')) example_fs.
Proof.
  apply (inode_alloc_spec example_sb (bcache example_sb) example_layout example_fs 7 INODE_REGULAR 3 example_cache_ok).
  - reflexivity.
  - unfold is_word, INODE_REGULAR. lia.
  - discriminate.
  - split; [simpl; lia|]. split; [vm_compute; reflexivity|]. intros m Hm.
    assert (m = 1 \/ m = 2) as [->| ->] by lia; vm_compute; discriminate.
  - split; [lia|]. exists 10. split; [reflexivity|right; lia].
Defined.

Lemma example_ring : ring_ok example_fs.
Proof.
  split; simpl.
  - intros p ->%list_elem_of_singleton. eauto.
  - intros p [i Hi]. apply lookup_singleton_Some in Hi as [<- _]. lia.
  - intros p q i j ->%list_elem_of_singleton ->%list_elem_of_singleton. done.
  - intros p i Hi. apply lookup_singleton_Some in Hi as [_ <-]. simpl. lia.
  - lia.
Qed.

Lemma inode_get_spec_witness :
  wp (inode_get example_sb (bcache example_sb) 1) (fun p s' => p <> NULL /\
    got example_sb (bcache example_sb) 1 p example_fs s') example_fs.
Proof.
  apply (inode_get_spec example_sb (bcache example_sb) example_layout example_fs 1 example_ring example_cache_ok).
  - simpl. lia.
  - intros p i Hi. simpl in Hi. apply lookup_singleton_Some in Hi as [_ <-]. simpl. lia.
Defined.
