(* ===== verification/InodePut.v ===== *)
(** Truncating and releasing inodes ([inode_clear], [inode_put] of
    src/fs/inode.c). *)
From Stdlib Require Import ZArith Lia.
From stdpp Require Import base numbers gmap sets list.
From S2P Require Import Prelude Bytes Bitmap Sync FsDefs Console CString Cache CacheLaws.
From S2P Require Import LogLaws Crash Reserve Transactions BlockCache Inode InodeLaws InodeWrite InodeProps.

Section put.
Context {S : Type} (sblock : SuperBlock) (cache : BlockCache S) `{!BlockCacheSpec sblock cache}.
Context (Hlayout : layout_ok sblock cache).
Abbreviation vol := (InodeLaws.vol sblock cache).
Abbreviation recached := (InodeLaws.recached sblock cache).
Abbreviation bm := (sb_bitmap_start sblock).
Abbreviation inode_block := (to_block_no sblock).

(** What syncing the bitmap would cost. *)
Definition bitmap_cost (v : Volume) : Z := if decide (bm ∈ v_logged v) then 0 else 1.

(** The bits of the blocks in [l] are cleared and nothing else changes; the
    bitmap costs at most one log block. *)
Record freed (ctx : Z) (l : list Z) (v v' : Volume) : Prop := {
  fr_bit : forall b, 0 <= b -> bit_of (v_block v' bm) b =
    if decide (b ∈ l /\ b <> 0) then Some false else bit_of (v_block v bm) b;
  fr_blocks : forall b, b <> bm -> v_block v' b = v_block v b;
  fr_logged : forall b, b <> bm -> b ∈ v_logged v' <-> b ∈ v_logged v;
  fr_rm : forall rm, v_rm v !! ctx = Some rm ->
    v_rm v' !! ctx = Some (rm - bitmap_cost v + bitmap_cost v');
}.

Lemma freed_nil ctx v v' : v_same v v' -> freed ctx [] v v'.
Proof.
  intros (Eb & Er & El). split.
  - intros b _. rewrite Eb, decide_False by (intros [H _]; by apply elem_of_nil in H). done.
  - auto.
  - intros b _. by rewrite El.
  - intros rm E. unfold bitmap_cost. rewrite Er, El, E. f_equal. lia.
Qed.

Lemma freed_zero ctx l v v' : freed ctx l v v' -> freed ctx (l ++ [0]) v v'.
Proof.
  intros [F1 F2 F3 F4]. split; try done. intros b Hb. rewrite F1 by done.
  destruct (decide (b ∈ l /\ b <> 0)) as [[H1 H2]|H].
  - rewrite decide_True; [done|]. split; [apply elem_of_app; by left|done].
  - rewrite decide_False; [done|]. intros [H1 H2]. apply H. split; [|done].
    apply elem_of_app in H1 as [|H1]; [done|]. apply list_elem_of_singleton in H1. done.
Qed.

Lemma freed_one ctx l a v v1 v2 :
  is_block (v_block v1 bm) -> 0 < a < BIT_PER_BLOCK ->
  freed ctx l v v1 -> v_write ctx bm (set_bit (v_block v1 bm) a false) v1 v2 -> freed ctx (l ++ [a]) v v2.
Proof.
  intros Hblk Ha [F1 F2 F3 F4] (W1 & W2 & W3). split.
  - intros b Hb. rewrite W1, decide_True by done.
    destruct (set_bit_spec (v_block v1 bm) a false Hblk) as (_ & _ & _ & Hs); [lia|]. rewrite Hs, F1 by done.
    destruct (decide (a = b)) as [->|Hne].
    + rewrite decide_True; [done|]. split; [apply elem_of_app; right; left|lia].
    + destruct (decide (b ∈ l /\ b <> 0)) as [[H1 H2]|H].
      * rewrite decide_True; [done|]. split; [apply elem_of_app; by left|done].
      * rewrite decide_False; [done|]. intros [H1 H2]. apply H. split; [|done].
        apply elem_of_app in H1 as [|H1]; [done|]. apply list_elem_of_singleton in H1. congruence.
  - intros b Hb. rewrite W1, decide_False by done. by apply F2.
  - intros b Hb. rewrite W2. rewrite (F3 b Hb). tauto.
  - intros rm E. assert (bitmap_cost v2 = 0) as ->.
    { unfold bitmap_cost. rewrite decide_True; [done|]. apply W2. by left. }
    rewrite (W3 _ (F4 rm E)). f_equal. unfold bitmap_cost at 2 4.
    destruct (decide (bm ∈ v_logged v1)); lia.
Qed.

(** The budget for clearing: the bitmap and the inode. *)
Definition clear_budget (ctx n : Z) (v : Volume) : Prop :=
  ctx <> 0 /\ exists rm, v_rm v !! ctx = Some rm /\ bitmap_cost v + inode_cost sblock n v <= rm.

Lemma freed_can ctx n l v v' : clear_budget ctx n v -> freed ctx l v v' -> v_can ctx bm v'.
Proof.
  intros (H0 & rm & E & Hrm) F. split; [done|]. pose proof (inode_cost_bounds sblock n v).
  eexists. split; [by apply (fr_rm _ _ _ _ F)|]. unfold bitmap_cost at 2.
  destruct (decide (bm ∈ v_logged v')); [by left|right; lia].
Qed.

Lemma freed_inode_can ctx n l v v' :
  inode_range sblock n -> clear_budget ctx n v -> freed ctx l v v' -> v_can ctx (inode_block n) v'.
Proof.
  intros Hn (H0 & rm & E & Hrm) F. split; [done|].
  assert (inode_block n <> bm) as Hb by (by apply (lo_apart _ _ Hlayout)).
  pose proof (fr_logged _ _ _ _ F _ Hb) as Hlg. eexists. split; [by apply (fr_rm _ _ _ _ F)|].
  unfold inode_cost in Hrm. destruct (decide (inode_block n ∈ v_logged v)); [left; by apply Hlg|right].
  unfold bitmap_cost at 2. destruct (decide (bm ∈ v_logged v')); lia.
Qed.

(** The first [k] addresses cleared. *)
Definition zeroed (k : nat) (e : InodeEntry) : InodeEntry :=
  set_addrs (replicate k 0 ++ drop k (ie_addrs e)) e.

Lemma zeroed_step k e a :
  ie_addrs e !! k = Some a -> set_addrs (<[k := 0]> (ie_addrs (zeroed k e))) (zeroed k e) = zeroed (Datatypes.S k) e.
Proof.
  intros Ha. unfold zeroed, set_addrs. cbn [ie_type ie_major ie_minor ie_num_links ie_num_bytes ie_addrs ie_indirect]. f_equal. rewrite (drop_S _ _ _ Ha).
  rewrite insert_app_r_alt by (rewrite length_replicate; lia). rewrite length_replicate, Nat.sub_diag.
  by rewrite replicate_S_end, <- app_assoc.
Qed.

Lemma zeroed_skip k e : ie_addrs e !! k = Some 0 -> zeroed k e = zeroed (Datatypes.S k) e.
Proof.
  intros Ha. unfold zeroed. f_equal. rewrite (drop_S _ _ _ Ha). by rewrite replicate_S_end, <- app_assoc.
Qed.

(** The entry after [inode_clear]. *)
Definition cleared (e : InodeEntry) : InodeEntry := set_num_bytes 0 (set_addrs (replicate 12 0) (set_indirect 0 e)).

Lemma cleared_wf e : wf_inode e -> wf_inode (cleared e).
Proof.
  intros (H1 & H2 & H3 & H4 & H5 & H6 & H7 & H8). unfold wf_inode, cleared.
  cbn [ie_type ie_major ie_minor ie_num_links ie_num_bytes ie_addrs ie_indirect set_num_bytes set_addrs set_indirect].
  split_and!; try done; try (apply Forall_replicate); unfold is_word; lia.
Qed.

(** Freeing block [a] next, 0 being no block. *)
Lemma wp_free_next ctx n l v a x (Q : unit -> S -> Prop) :
  clear_budget ctx n v -> bc_ok x -> freed ctx l v (bc_volume x) -> a = 0 \/ 0 < a < BIT_PER_BLOCK ->
  (forall x', bc_ok x' -> freed ctx (l ++ [a]) v (bc_volume x') -> Q tt x') ->
  wp (if a =? 0 then mret tt else bc_free cache ctx a) Q x.
Proof.
  intros Hbud Hok F Hr HQ. destruct (Z.eqb_spec a 0) as [->|Ha].
  - apply wp_ret, HQ; [done|by apply freed_zero].
  - assert (0 < a < BIT_PER_BLOCK) as Har by (by destruct Hr).
    apply (bc_free_spec (C := cache)); [done|by eapply freed_can|apply Hlayout|lia|]. intros x' Ok' W. apply HQ; [done|].
    eapply freed_one; [by apply (bc_block_wf x)|done|exact F|exact W].
Qed.

(** The loop over the direct addresses. *)
Lemma wp_clear_direct s ctx p i l0 v0 :
  bc_ok (f_cache s) -> f_heap s !! p = Some i -> wf_inode (i_entry i) ->
  (forall b, b ∈ ie_addrs (i_entry i) -> b = 0 \/ 0 < b < BIT_PER_BLOCK) ->
  clear_budget ctx (i_inode_no i) v0 -> freed ctx l0 v0 (vol s) ->
  wp (for_each (Z.to_nat INODE_NUM_DIRECT) 0 (fun k =>
        i ← inode_at p;
        a ← deref (ie_addrs (i_entry i) !! Z.to_nat k);
        if a =? 0 then mret tt
        else
          on_cache (bc_free cache ctx a) ;;
          update_entry p (fun e => set_addrs (<[Z.to_nat k := 0]> (ie_addrs e)) e)))
    (fun _ s' => recached (set_heap (<[p := set_entry (set_addrs (replicate 12 0) (i_entry i)) i]> (f_heap s)) s) s' /\
       freed ctx (l0 ++ ie_addrs (i_entry i)) v0 (vol s')) s.
Proof.
  intros Hok Ei Hwf Hr Hbud F0. destruct Hwf as (_ & _ & _ & _ & _ & Hlen & _).
  set (l := ie_addrs (i_entry i)) in *.
  eapply wp_mono.
  { apply (wp_for_each (fun k s' =>
      recached (set_heap (<[p := set_entry (zeroed (Z.to_nat k) (i_entry i)) i]> (f_heap s)) s) s' /\
      freed ctx (l0 ++ take (Z.to_nat k) l) v0 (vol s'))).
    - split; [|by rewrite take_0, app_nil_r]. exists (f_cache s). split; [|done].
      assert (set_entry (zeroed (Z.to_nat 0) (i_entry i)) i = i) as -> by (by destruct i as [? ? ? ? []]).
      rewrite insert_id by done. by destruct s.
    - intros k s' Hk ((x & -> & Hx) & F). change INODE_NUM_DIRECT with 12 in Hk.
      destruct (lookup_lt_is_Some_2 l (Z.to_nat k)) as [a Ea]; [lia|].
      replace (Z.to_nat (k + 1)) with (Datatypes.S (Z.to_nat k)) by lia. rewrite (take_S_r _ _ _ Ea), app_assoc.
      apply wp_bind. eapply wp_inode_at; [apply lookup_insert_eq|]. apply wp_bind. eapply wp_deref.
      { simpl. rewrite lookup_app_r by (rewrite length_replicate; lia). rewrite length_replicate, Nat.sub_diag.
        rewrite lookup_drop, Nat.add_0_r. exact Ea. }
      pose proof (wp_free_next ctx _ _ _ a x (fun _ x' => bc_ok x' /\ freed ctx ((l0 ++ take (Z.to_nat k) l) ++ [a]) v0 (bc_volume x')) Hbud Hx F) as Hw.
      specialize (Hw (Hr a ltac:(by eapply list_elem_of_lookup_2)) ltac:(done)).
      destruct (Z.eqb_spec a 0) as [->|Ha].
      + apply wp_ret. split; [|apply Hw]. exists x. split; [|done]. by rewrite (zeroed_skip _ _ Ea).
      + apply wp_bind, wp_on_cache. eapply wp_mono; [exact Hw|]. intros [] x' [Ok' F']. eapply wp_update_entry; [apply lookup_insert_eq|]. simpl.
        rewrite insert_insert_eq. split; [|exact F'].
        exists x'. split; [|done]. pose proof (zeroed_step _ _ _ Ea) as Ez. unfold set_entry. simpl.
        rewrite <- Ez. done. }
  intros [] s' (H1 & H2). simpl in H1, H2. change (Z.to_nat (0 + Z.of_nat (Z.to_nat INODE_NUM_DIRECT))) with 12%nat in *.
  rewrite take_ge in H2 by lia. split; [|done]. unfold zeroed in H1. rewrite drop_ge in H1 by (fold l; lia).
  by rewrite app_nil_r in H1.
Qed.

(** The addresses in the indirect block, and all blocks of a file in the order in
    which they are freed. *)
Definition indirect_addrs (d : list Z) : list Z := (fun k => le_val (slice (4 * k) 4 d)) <$> seq 0 128.
Definition file_blocks (v : Volume) (e : InodeEntry) : list Z :=
  (if ie_indirect e =? 0 then [] else indirect_addrs (v_block v (ie_indirect e)) ++ [ie_indirect e]) ++ ie_addrs e.

Lemma indirect_addrs_lookup d k : (k < 128)%nat -> indirect_addrs d !! k = Some (le_val (slice (4 * k) 4 d)).
Proof. intros Hk. unfold indirect_addrs. by rewrite list_lookup_fmap, lookup_seq_lt. Qed.

(** The loop over the addresses of an indirect block that was released. *)
Lemma wp_clear_indirect s ctx n blk b d v0 :
  bc_ok (f_cache s) -> bc_recent blk b (f_cache s) -> b <> bm -> v_block v0 b = d ->
  (forall a, a ∈ indirect_addrs d -> a = 0 \/ 0 < a < BIT_PER_BLOCK) ->
  clear_budget ctx n v0 -> freed ctx [] v0 (vol s) ->
  wp (for_each (Z.to_nat INODE_NUM_INDIRECT) 0 (fun k =>
        a ← addrs_get cache blk k;
        if a =? 0 then mret tt else on_cache (bc_free cache ctx a)))
    (fun _ s' => recached s s' /\ freed ctx (indirect_addrs d) v0 (vol s')) s.
Proof.
  intros Hok Hrec Hb Hd Hr Hbud F0. eapply wp_mono.
  { apply (wp_for_each (fun k s' => recached s s' /\ bc_recent blk b (f_cache s') /\ freed ctx (take (Z.to_nat k) (indirect_addrs d)) v0 (vol s'))).
    - split_and!; [|done|done]. exists (f_cache s). by destruct s.
    - intros k s' Hk ((x & -> & Hx) & R & F). change (Z.of_nat (Z.to_nat INODE_NUM_INDIRECT)) with 128 in Hk.
      pose proof (indirect_addrs_lookup d (Z.to_nat k) ltac:(lia)) as Ea. set (a := le_val _) in Ea.
      replace (Z.to_nat (k + 1)) with (Datatypes.S (Z.to_nat k)) by lia. rewrite (take_S_r _ _ _ Ea).
      apply wp_bind. eapply wp_addrs_get; [by apply bc_recent_data|change INODE_NUM_INDIRECT with 128; lia|].
      cbn [f_cache set_fcache]. rewrite (fr_blocks _ _ _ _ F) by done. rewrite Hd.
      replace (Z.to_nat (4 * k)) with (4 * Z.to_nat k)%nat by lia. fold a.
      assert (a = 0 \/ 0 < a < BIT_PER_BLOCK) as Har by (apply Hr; by eapply list_elem_of_lookup_2).
      pose proof (wp_free_next ctx _ _ _ a x (fun _ x' => bc_ok x' /\ freed ctx (take (Z.to_nat k) (indirect_addrs d) ++ [a]) v0 (bc_volume x')) Hbud Hx F Har ltac:(done)) as Hw.
      destruct (Z.eqb_spec a 0) as [E0|Ha].
      + apply wp_ret. split_and!; [by exists x|done|apply Hw].
      + apply wp_on_cache. cbn [f_cache set_fcache]. eapply wp_mono; [apply wp_and; [exact Hw|apply (bc_free_recent x blk b ctx a R)]|].
        * by eapply freed_can.
        * apply Hlayout.
        * lia.
        * intros [] x' [[Ok' F'] R']. split_and!; [by exists x'|done|done]. }
  intros [] s' (H1 & _ & H2). split; [done|]. change (Z.to_nat (0 + Z.of_nat (Z.to_nat INODE_NUM_INDIRECT))) with 128%nat in H2.
  rewrite take_ge in H2; [done|]. unfold indirect_addrs. by rewrite length_fmap, length_seq.
Qed.

(** The first part of [inode_clear]: the indirect block and the blocks it names.
    The code reads it after the release, which needs room in the cache. *)
Definition indirect_ok (v : Volume) (e : InodeEntry) : Prop :=
  ie_indirect e <> 0 -> bc_usable (ie_indirect e) /\ ie_indirect e <> bm /\ Z.of_nat (length (v_logged v)) < EVICTION_THRESHOLD - 1.

Lemma wp_clear_head s ctx p i :
  bc_ok (f_cache s) -> f_heap s !! p = Some i -> indirect_ok (vol s) (i_entry i) ->
  (forall b, b ∈ file_blocks (vol s) (i_entry i) -> b = 0 \/ 0 < b < BIT_PER_BLOCK) ->
  clear_budget ctx (i_inode_no i) (vol s) ->
  wp (if ie_indirect (i_entry i) =? 0 then mret tt
      else
        let indirect := ie_indirect (i_entry i) in
        blk ← on_cache (bc_acquire cache indirect);
        on_cache (bc_release cache blk) ;;
        for_each (Z.to_nat INODE_NUM_INDIRECT) 0 (fun k =>
          a ← addrs_get cache blk k;
          if a =? 0 then mret tt else on_cache (bc_free cache ctx a)) ;;
        on_cache (bc_free cache ctx indirect) ;;
        update_entry p (set_indirect 0))
    (fun _ s' => recached (set_heap (<[p := set_entry (set_indirect 0 (i_entry i)) i]> (f_heap s)) s) s' /\
       freed ctx (if ie_indirect (i_entry i) =? 0 then [] else indirect_addrs (v_block (vol s) (ie_indirect (i_entry i))) ++ [ie_indirect (i_entry i)]) (vol s) (vol s')) s.
Proof.
  intros Hok Ei Hind Hr Hbud. unfold file_blocks in Hr. unfold indirect_ok in Hind. set (b := ie_indirect (i_entry i)) in *. destruct (Z.eqb_spec b 0) as [E0|E0].
  - apply wp_ret. split; [|by apply freed_nil]. exists (f_cache s). split; [|done].
    assert (set_entry (set_indirect 0 (i_entry i)) i = i) as -> by (unfold b in E0; destruct i as [? ? ? ? []]; unfold set_entry, set_indirect; simpl in *; by rewrite E0).
    rewrite insert_id by done. by destruct s.
  - destruct (Hind E0) as (Hus & Hbm & Hlog). cbv zeta. apply wp_bind, wp_on_cache. apply (bc_acquire_spec _ b); [done|done|].
    intros blk x Hx Vx. apply wp_bind, wp_on_cache. cbn [f_cache set_fcache].
    eapply wp_mono; [apply wp_and; [apply (bc_release_recent _ blk b Hx)|
      apply (bc_release_spec _ blk b (fun _ x' => bc_ok x' /\ v_same (bc_volume x) (bc_volume x')) Hx); by intros]|].
    { destruct Vx as (_ & _ & ->). exact Hlog. }
    intros [] x1 (Hrec & Ok1 & V1). assert (v_same (vol s) (bc_volume x1)) as V01 by (by etransitivity).
    apply wp_bind. eapply wp_mono; [apply (wp_clear_indirect _ ctx (i_inode_no i) blk b (v_block (vol s) b) (vol s)); [exact Ok1|exact Hrec|done|done| |done|by apply freed_nil]|].
    { intros a Ha. apply Hr. apply elem_of_app. left. apply elem_of_app. by left. }
    intros [] s2 ((x2 & -> & Ok2) & F2). apply wp_bind, wp_on_cache.
    destruct (Hr b) as [|Hbr]; [apply elem_of_app; left; apply elem_of_app; right; left|done|].
    pose proof (wp_free_next ctx _ _ _ b x2 (fun _ x' => bc_ok x' /\ freed ctx (indirect_addrs (v_block (vol s) b) ++ [b]) (vol s) (bc_volume x')) Hbud Ok2 F2 (or_intror Hbr) ltac:(done)) as Hw.
    rewrite (proj2 (Z.eqb_neq b 0)) in Hw by done. cbn [f_cache set_fcache]. eapply wp_mono; [exact Hw|]. intros [] x3 [Ok3 F3].
    eapply wp_update_entry; [exact Ei|]. split; [|exact F3]. by exists x3.
Qed.

(** The volume after the blocks [l] were freed and inode [n] became [e']. *)
Record truncated (ctx n : Z) (l : list Z) (e' : InodeEntry) (v v' : Volume) : Prop := {
  tr_bit : forall b, 0 <= b -> bit_of (v_block v' bm) b =
    if decide (b ∈ l /\ b <> 0) then Some false else bit_of (v_block v bm) b;
  tr_entry : disk_entry sblock v' n = e';
  tr_others : forall m, inode_range sblock m -> m <> n -> disk_entry sblock v' m = disk_entry sblock v m;
  tr_blocks : forall b, b <> bm -> b <> inode_block n -> v_block v' b = v_block v b;
}.

Lemma wp_inode_clear s ctx p i :
  bc_ok (f_cache s) -> f_lock s = false -> f_heap s !! p = Some i -> i_valid i = true ->
  inode_range sblock (i_inode_no i) -> wf_inode (i_entry i) -> indirect_ok (vol s) (i_entry i) ->
  (forall b, b ∈ file_blocks (vol s) (i_entry i) -> b = 0 \/ 0 < b < BIT_PER_BLOCK) ->
  clear_budget ctx (i_inode_no i) (vol s) ->
  wp (inode_clear sblock cache ctx p) (fun _ s' =>
    recached (set_heap (<[p := set_entry (cleared (i_entry i)) i]> (f_heap s)) s) s' /\
    truncated ctx (i_inode_no i) (file_blocks (vol s) (i_entry i)) (cleared (i_entry i)) (vol s) (vol s')) s.
Proof.
  intros Hok Hlk Ei Hval Hn Hwf Hind Hr Hbud. unfold inode_clear.
  apply wp_bind. unfold fs_lock. unfold wp at 1. rewrite Hlk. fold (@wp (FsState S) unit).
  apply wp_bind. eapply wp_inode_at; [exact Ei|]. apply wp_bind.
  eapply wp_mono; [apply (wp_clear_head (set_flock true s) ctx p i); try done|].
  intros [] s0 ((x0 & -> & Hx0) & F0). apply wp_bind. change (vol (set_flock true s)) with (vol s) in F0.
  set (l0 := if ie_indirect (i_entry i) =? 0 then [] else _) in F0.
  eapply wp_mono; [apply (wp_clear_direct _ ctx p (set_entry (set_indirect 0 (i_entry i)) i) l0 (vol s)); [exact Hx0|apply lookup_insert_eq| | |done|exact F0]|].
  { destruct Hwf as (W1 & W2 & W3 & W4 & W5 & W6 & W7 & W8). unfold wf_inode. cbn. split_and!; try done; unfold is_word in *; lia. }
  { intros b Hb. apply Hr. apply elem_of_app. by right. }
  intros [] s1 ((x1 & -> & Hx1) & F). apply wp_bind. eapply wp_update_entry; [apply lookup_insert_eq|].
  cbn [i_entry set_entry ie_addrs set_indirect] in F |- *. change (l0 ++ ie_addrs (i_entry i)) with (file_blocks (vol s) (i_entry i)) in F.
  change (set_num_bytes 0 _) with (cleared (i_entry i)). simpl f_heap. rewrite !insert_insert_eq.
  match goal with |- wp _ _ ?x => set (s1 := x) end. apply wp_bind. eapply wp_mono.
  { apply (wp_inode_sync_write sblock cache Hlayout s1 ctx p (set_entry (cleared (i_entry i)) i)); try done.
    - apply lookup_insert_eq.
    - by apply cleared_wf.
    - by eapply freed_inode_can. }
  intros [] s2 ((x2 & -> & Hx2) & Hew). cbn [i_inode_no i_entry set_entry] in Hew. apply wp_modify.
  change (vol s1) with (bc_volume x1) in Hew.
  change (vol (set_fcache x1 _)) with (bc_volume x1) in F.
  change (vol (set_fcache x2 s1)) with (bc_volume x2) in Hew.
  assert (inode_block (i_inode_no i) <> bm) as Hib by (by apply (lo_apart _ _ Hlayout)).
  split; [exists x2; split; [|done]; destruct s; simpl in *; by rewrite Hlk|]. split.
  - intros b Hb. change (bit_of (v_block (bc_volume x2) bm) b =
      if decide (b ∈ file_blocks (vol s) (i_entry i) /\ b <> 0) then Some false else bit_of (v_block (vol s) bm) b). rewrite (ew_blocks _ _ _ _ _ _ Hew) by (by apply not_eq_sym).
    by apply (fr_bit _ _ _ _ F).
  - apply Hew.
  - intros m Hm Hne. change (disk_entry sblock (bc_volume x2) m = disk_entry sblock (vol s) m).
    rewrite (ew_others _ _ _ _ _ _ Hew) by done. unfold InodeLaws.disk_entry.
    by rewrite (fr_blocks _ _ _ _ F) by (by apply (lo_apart _ _ Hlayout)).
  - intros b Hb1 Hb2. change (v_block (bc_volume x2) b = v_block (vol s) b). rewrite (ew_blocks _ _ _ _ _ _ Hew) by done. by apply (fr_blocks _ _ _ _ F).
Qed.

End put.

(** ** Examples *)

(** A file with block 99, an empty indirect block 95 and no links left. *)
Definition example_unlinked : Inode :=
  mkInode (Sem.init_sem 1) 1 2 true (mkInodeEntry INODE_REGULAR 0 0 0 10 (99 :: replicate 11 0) 95).
Definition example_put_fs : FsState CacheState := set_heap {[1 := example_unlinked]} example_fs.


(** A file whose indirect block is 95. *)
Definition example_big : Inode :=
  mkInode (Sem.init_sem 1) 1 2 true (mkInodeEntry INODE_REGULAR 0 0 1 6144 (replicate 12 99) 95).
Definition example_big_fs : FsState CacheState := set_heap {[1 := example_big]} example_fs.

(** an address put into an indirect block is lost. [inode_map] gives a
    file its thirteenth block (100) and reports it, but the indirect block (95)
    was released before and is not synced: when the operation is committed the
    bitmap has the block as used, and the indirect block on disk does not
    mention it. *)
Theorem indirect_address_lost :
  exists s1 c2, inode_map example_sb (bcache example_sb) 7 1 12 example_big_fs = Done (100, true) s1 /\
    cache_end_op example_sb 7 (f_cache s1) = Done tt c2 /\ entries c2 = [] /\
    bit_of (c_disk c2 90) 100 = Some true /\ c_disk c2 95 = zero_block.
Proof. vm_compute. eexists _, _. split_and!; reflexivity. Qed.
