(* ===== verification/Directory.v ===== *)
(** Directories ([inode_lookup], [inode_insert], [inode_remove] of
    src/fs/inode.c).

    A directory is a file of 16-byte entries. The local variable [dir_entry]
    starts with whatever is on the stack, [stack] below; it keeps its contents
    from one round of a loop to the next. *)
From Stdlib Require Import ZArith Lia.
From stdpp Require Import base numbers gmap sets list.
From S2P Require Import Prelude Bytes Bitmap Sync FsDefs Console CString Cache CacheLaws.
From S2P Require Import LogLaws Crash Reserve Transactions BlockCache Inode InodeLaws InodeWrite InodeProps.

(** [sizeof(DirEntry)] *)
Definition dsize : Z := 16.

Section directory.
Context {S : Type} (sblock : SuperBlock) (cache : BlockCache S) (stack : list Z).
Abbreviation F := (M (FsState S)).

(** The loop of [inode_lookup] from offset [i]: the inode number and the offset
    stored through [index], or 0. *)
Fixpoint lookup_loop (fuel : nat) (p : Z) (name : list Z) (i : Z) (dir_entry : list Z) : F (Z * option Z) :=
  inode ← inode_at p;
  if i <? ie_num_bytes (i_entry inode) then
    match fuel with
    | O => undefined
    | Datatypes.S fuel' =>
        r ← inode_read sblock cache p dir_entry i dsize;
        let e := decode_dirent r.2 in
        c ← deref (strncmp (de_name e) name (Z.to_nat FILE_NAME_MAX_LENGTH));
        if (c =? 0) && negb (de_inode_no e =? 0) then mret (de_inode_no e, Some i)
        else lookup_loop fuel' p name (i + dsize) r.2
    end
  else mret (0, None).

Definition inode_lookup (p : Z) (name : list Z) : F (Z * option Z) :=
  inode ← inode_at p;
  ASSERT (ie_type (i_entry inode) =? INODE_DIRECTORY) ;;
  lookup_loop (Z.to_nat (ie_num_bytes (i_entry inode))) p name 0 stack.

(** The loop of [inode_insert]: the first free entry, or the end. *)
Fixpoint free_slot (fuel : nat) (p : Z) (i : Z) (dir_entry : list Z) : F (Z * list Z) :=
  inode ← inode_at p;
  if i <? ie_num_bytes (i_entry inode) then
    match fuel with
    | O => undefined
    | Datatypes.S fuel' =>
        r ← inode_read sblock cache p dir_entry i dsize;
        if de_inode_no (decode_dirent r.2) =? 0 then mret (i, r.2)
        else free_slot fuel' p (u32 (i + dsize)) r.2
    end
  else mret (i, dir_entry).

(** [(usize)-1] *)
Definition MINUS_ONE : Z := u64 (-1).

Definition inode_insert (ctx p : Z) (name : list Z) (inode_no : Z) : F Z :=
  inode ← inode_at p;
  ASSERT (ie_type (i_entry inode) =? INODE_DIRECTORY) ;;
  found ← inode_lookup p name;
  if negb (found.1 =? 0) then mret MINUS_ONE
  else
    r ← free_slot (Z.to_nat (ie_num_bytes (i_entry inode))) p 0 stack;
    name' ← deref (strncpy (de_name (decode_dirent r.2)) name (Z.to_nat FILE_NAME_MAX_LENGTH));
    inode_write sblock cache ctx p (encode_dirent (mkDirEntry (u16 inode_no) name')) r.1 dsize ;;
    mret r.1.

Definition inode_remove (ctx p index : Z) : F unit :=
  inode ← inode_at p;
  ASSERT (ie_type (i_entry inode) =? INODE_DIRECTORY) ;;
  ASSERT (index <? ie_num_bytes (i_entry inode)) ;;
  r ← inode_read sblock cache p stack index dsize;
  if de_inode_no (decode_dirent r.2) =? 0 then mret tt
  else
    let last := u64 (ie_num_bytes (i_entry inode) - dsize) in
    r ← inode_read sblock cache p r.2 last dsize;
    inode_write sblock cache ctx p r.2 index dsize ;;
    update_entry p (fun e => set_num_bytes (u32 (ie_num_bytes e - dsize)) e).
End directory.

(** ** What a directory holds *)

(** The entry at offset [off]. *)
Definition dirent (v : Volume) (e : InodeEntry) (off : Z) : DirEntry := decode_dirent (file_bytes v e off 16).

(** Names are compared up to their NUL and 14 bytes at most. *)
Definition same_name (a b : list Z) : Prop := take 14 (cstr a) = take 14 (cstr b).
#[export] Instance same_name_dec a b : Decision (same_name a b).
Proof. unfold same_name. apply _. Defined.

Definition matches (v : Volume) (e : InodeEntry) (name : list Z) (off : Z) : bool :=
  bool_decide (same_name (de_name (dirent v e off)) name) && negb (de_inode_no (dirent v e off) =? 0).

(** [n] offsets from [off]. *)
Definition offsets (off : Z) (n : nat) : list Z := (fun j => off + 16 * Z.of_nat j) <$> seq 0 n.

Lemma offsets_S off n : offsets off (S n) = off :: offsets (off + 16) n.
Proof.
  unfold offsets. simpl. f_equal; [lia|]. rewrite <- fmap_S_seq, <- list_fmap_compose. apply list_fmap_ext.
  intros i x _. simpl. lia.
Qed.

Lemma elem_of_offsets x off n : x ∈ offsets off n <-> exists j, (j < n)%nat /\ x = off + 16 * Z.of_nat j.
Proof.
  unfold offsets. rewrite list_elem_of_fmap. split.
  - intros (j & -> & Hj). apply elem_of_seq in Hj. exists j. split; [lia|done].
  - intros (j & Hj & ->). exists j. split; [done|]. apply elem_of_seq. lia.
Qed.

(** The inode number and offset a lookup finds. *)
Definition dir_lookup (v : Volume) (e : InodeEntry) (name : list Z) : option (Z * Z) :=
  (fun off => (de_inode_no (dirent v e off), off)) <$>
    List.find (matches v e name) (offsets 0 (Z.to_nat (ie_num_bytes e / 16))).

Section laws.
Context {S : Type} (sblock : SuperBlock) (cache : BlockCache S) (stack : list Z) `{!BlockCacheSpec sblock cache}.
Abbreviation vol := (InodeLaws.vol sblock cache).
Abbreviation recached := (InodeLaws.recached sblock cache).

(** A directory: whole entries, all of its blocks there. *)
Record dir_ok (v : Volume) (e : InodeEntry) : Prop := {
  do_mapped : mapped sblock cache v e;
  do_type : ie_type e = INODE_DIRECTORY;
  do_size : ie_num_bytes e mod 16 = 0 /\ 0 <= ie_num_bytes e;
}.

Lemma dir_not_device e : ie_type e = INODE_DIRECTORY -> ie_type e <> INODE_DEVICE.
Proof. intros ->. discriminate. Qed.

Lemma dir_ok_same v v' e : v_same v v' -> dir_ok v e -> dir_ok v' e.
Proof. intros H [M T Z]. split; [by eapply mapped_same|done|done]. Qed.

Lemma file_bytes_same v v' e off n : v_same v v' -> file_bytes v' e off n = file_bytes v e off n.
Proof. intros H. unfold file_bytes. apply list_fmap_ext. intros i x _. by apply byte_of_same. Qed.

Lemma dirent_same v v' e off : v_same v v' -> dirent v' e off = dirent v e off.
Proof. intros H. unfold dirent. by rewrite (file_bytes_same v v'). Qed.

Lemma matches_same v v' e name off : v_same v v' -> matches v' e name off = matches v e name off.
Proof. intros H. unfold matches. by rewrite (dirent_same v v'). Qed.

(** Reading the entry at [off]. *)
Lemma wp_read_dirent s p i buf off :
  bc_ok (f_cache s) -> f_heap s !! p = Some i -> dir_ok (vol s) (i_entry i) -> length buf = 16%nat ->
  0 <= off -> off + 16 <= ie_num_bytes (i_entry i) ->
  wp (inode_read sblock cache p buf off dsize) (fun r s' =>
    r.2 = file_bytes (vol s) (i_entry i) off 16 /\ recached s s' /\ v_same (vol s) (vol s')) s.
Proof.
  intros Hok Ei [Hm Hty Hsz] Hb Ho Hl. unfold dsize.
  assert (clipped (i_entry i) off 16 = 16) as Hcl by (unfold clipped; lia).
  eapply wp_mono; [apply (wp_inode_read sblock cache s p i buf off 16); try done|].
  - by apply dir_not_device.
  - lia.
  - rewrite Hcl, Hb. lia.
  - intros r s' (-> & Hrc & Hv). split; [|done]. simpl. rewrite Hcl. change (Z.to_nat 16) with 16%nat.
    unfold splice. rewrite take_0, length_file_bytes, drop_ge by lia. by rewrite app_nil_r.
Qed.

Lemma byte_of_byte v e o : (forall b, is_block (v_block v b)) -> is_byte (byte_of v e o).
Proof.
  intros Hb. unfold byte_of. destruct (v_block v (block_of v e (o / BLOCK_SIZE)) !! Z.to_nat (o mod BLOCK_SIZE)) as [c|] eqn:E.
  - destruct (Hb (block_of v e (o / BLOCK_SIZE))) as [_ H]. rewrite Forall_lookup in H. by apply (H _ _ E).
  - unfold is_byte. simpl. lia.
Qed.

Lemma file_bytes_bytes v e off n : (forall b, is_block (v_block v b)) -> Forall is_byte (file_bytes v e off n).
Proof. intros Hb. apply Forall_fmap, Forall_true. intros k. by apply byte_of_byte. Qed.

Lemma dirent_wf v e off : (forall b, is_block (v_block v b)) -> wf_dirent (dirent v e off).
Proof. intros Hb. apply decode_dirent_wf; [by apply file_bytes_bytes|]. by rewrite length_file_bytes. Qed.

Lemma strncmp_name a name :
  length a = 14%nat -> readable name 14 ->
  exists c, strncmp a name (Z.to_nat FILE_NAME_MAX_LENGTH) = Some c /\ (c = 0 <-> same_name a name).
Proof.
  intros Ha Hn. destruct (strncmp_loop_spec 14 0 a name) as (c & E & H); [rewrite drop_0; right; lia|by rewrite drop_0|].
  exists c. split; [exact E|]. by rewrite !drop_0 in H.
Qed.

Lemma wp_lookup_loop fuel n s p i name off buf :
  bc_ok (f_cache s) -> f_heap s !! p = Some i -> dir_ok (vol s) (i_entry i) -> length buf = 16%nat ->
  readable name 14 -> 0 <= off -> off + 16 * Z.of_nat n = ie_num_bytes (i_entry i) -> (n <= fuel)%nat ->
  wp (lookup_loop sblock cache fuel p name off buf) (fun r s' =>
    r = match List.find (matches (vol s) (i_entry i) name) (offsets off n) with
        | Some o => (de_inode_no (dirent (vol s) (i_entry i) o), Some o)
        | None => (0, None)
        end /\ recached s s' /\ v_same (vol s) (vol s')) s.
Proof.
  revert n s off buf. induction fuel as [|fuel IH]; intros n s off buf Hok Ei Hd Hb Hr Ho Hn Hf;
    cbn [lookup_loop]; apply wp_bind; (eapply wp_inode_at; [exact Ei|]).
  { rewrite (proj2 (Z.ltb_ge off _)) by lia. destruct n; [|lia]. apply wp_ret. simpl.
    split_and!; [done|exists (f_cache s); by destruct s|reflexivity]. }
  destruct n as [|n].
  { rewrite (proj2 (Z.ltb_ge off _)) by lia. apply wp_ret. simpl.
    split_and!; [done|exists (f_cache s); by destruct s|reflexivity]. }
  rewrite (proj2 (Z.ltb_lt off _)) by lia. apply wp_bind.
  eapply wp_mono; [apply (wp_read_dirent s p i); try done; lia|].
  intros r s1 (-> & (x1 & -> & Hx1) & V1). fold (dirent (vol s) (i_entry i) off). cbn zeta.
  assert (wf_dirent (dirent (vol s) (i_entry i) off)) as (_ & Hl & _)
    by (apply dirent_wf; intros b; by apply bc_block_wf).
  destruct (strncmp_name _ name Hl Hr) as (c & Ec & Hc). apply wp_bind. eapply wp_deref; [exact Ec|].
  rewrite offsets_S. cbn [List.find]. unfold matches at 1.
  rewrite <- (bool_decide_ext (c = 0) _ Hc), bool_decide_decide.
  replace (if decide (c = 0) then true else false) with (c =? 0) by (destruct (Z.eqb_spec c 0), (decide (c = 0)); done).
  destruct ((c =? 0) && negb (de_inode_no (dirent (vol s) (i_entry i) off) =? 0)).
  { apply wp_ret. split_and!; [done|by exists x1|done]. }
  set (s1 := set_fcache x1 s) in *.
  eapply wp_mono; [apply (IH n s1); try done|].
  - by eapply dir_ok_same.
  - unfold dsize. lia.
  - unfold dsize. lia.
  - lia.
  - intros r' s2 (-> & (x2 & -> & Hx2) & V2). split_and!; [|by exists x2|by etransitivity]. unfold dsize.
    assert (List.find (matches (vol s1) (i_entry i) name) (offsets (off + 16) n) =
            List.find (matches (vol s) (i_entry i) name) (offsets (off + 16) n)) as ->.
    { generalize (offsets (off + 16) n). intros l. induction l as [|o l IHl]; [done|]. simpl.
      rewrite (matches_same (vol s) (vol s1)) by done. by rewrite IHl. }
    destruct (List.find _ _); [|done]. by rewrite (dirent_same (vol s) (vol s1)).
Qed.

Lemma dir_count v e : dir_ok v e -> 16 * Z.of_nat (Z.to_nat (ie_num_bytes e / 16)) = ie_num_bytes e.
Proof.
  intros [_ _ [Hm H0]]. pose proof (Z.div_mod (ie_num_bytes e) 16).
  assert (0 <= ie_num_bytes e / 16) by (apply Z.div_pos; lia). lia.
Qed.

Lemma wp_inode_lookup s p i name :
  length stack = 16%nat -> bc_ok (f_cache s) -> f_heap s !! p = Some i -> dir_ok (vol s) (i_entry i) -> readable name 14 ->
  wp (inode_lookup sblock cache stack p name) (fun r s' =>
    r = match dir_lookup (vol s) (i_entry i) name with Some (n, o) => (n, Some o) | None => (0, None) end /\
    recached s s' /\ v_same (vol s) (vol s')) s.
Proof.
  intros Hstack Hok Ei Hd Hr. unfold inode_lookup. apply wp_bind. eapply wp_inode_at; [exact Ei|].
  apply wp_bind, wp_assert; [rewrite (do_type _ _ Hd); done|].
  pose proof (dir_count _ _ Hd) as Hc.
  eapply wp_mono; [apply (wp_lookup_loop _ (Z.to_nat (ie_num_bytes (i_entry i) / 16)) s p i); try done; lia|].
  intros r s' (-> & H1 & H2). split; [|done]. unfold dir_lookup. by destruct (List.find _ _).
Qed.

(** ** Inserting *)

Definition free_at (v : Volume) (e : InodeEntry) (off : Z) : bool := de_inode_no (dirent v e off) =? 0.

(** Where [inode_insert] writes. *)
Definition slot (v : Volume) (e : InodeEntry) : Z :=
  default (ie_num_bytes e) (List.find (free_at v e) (offsets 0 (Z.to_nat (ie_num_bytes e / 16)))).

Lemma find_ext {A} (f g : A -> bool) l : (forall x, x ∈ l -> f x = g x) -> List.find f l = List.find g l.
Proof.
  induction l as [|a l IH]; intros H; [done|]. simpl. rewrite (H a) by left. destruct (g a); [done|].
  apply IH. intros x Hx. apply H. by right.
Qed.

Lemma find_snoc {A} (f : A -> bool) l a :
  List.find f (l ++ [a]) = match List.find f l with Some x => Some x | None => if f a then Some a else None end.
Proof. induction l as [|b l IH]; simpl; [done|]. destruct (f b); [done|exact IH]. Qed.

Lemma find_only {A} (f : A -> bool) l a : a ∈ l -> (forall x, x ∈ l -> f x = true <-> x = a) -> List.find f l = Some a.
Proof.
  induction l as [|b l IH]; intros Hin H; [by apply elem_of_nil in Hin|]. simpl. destruct (f b) eqn:Eb.
  - f_equal. apply (H b); [left|done].
  - apply elem_of_cons in Hin as [->|Hin]; [|apply IH; [done|intros x Hx; apply H; by right]].
    assert (f b = true) by (apply H; [left|done]). congruence.
Qed.

Lemma offsets_snoc off n : offsets off (Datatypes.S n) = offsets off n ++ [off + 16 * Z.of_nat n].
Proof. unfold offsets. by rewrite seq_S, fmap_app. Qed.

Lemma wp_free_slot fuel n s p i off buf :
  bc_ok (f_cache s) -> f_heap s !! p = Some i -> dir_ok (vol s) (i_entry i) -> length buf = 16%nat ->
  0 <= off -> off + 16 * Z.of_nat n = ie_num_bytes (i_entry i) -> (n <= fuel)%nat ->
  wp (free_slot sblock cache fuel p off buf) (fun r s' =>
    r.1 = default (ie_num_bytes (i_entry i)) (List.find (free_at (vol s) (i_entry i)) (offsets off n)) /\
    length r.2 = 16%nat /\ recached s s' /\ v_same (vol s) (vol s')) s.
Proof.
  revert n s off buf. induction fuel as [|fuel IH]; intros n s off buf Hok Ei Hd Hb Ho Hn Hf;
    cbn [free_slot]; apply wp_bind; (eapply wp_inode_at; [exact Ei|]).
  { rewrite (proj2 (Z.ltb_ge off _)) by lia. destruct n; [|lia]. apply wp_ret. simpl.
    split_and!; [lia|done|exists (f_cache s); by destruct s|reflexivity]. }
  destruct n as [|n].
  { rewrite (proj2 (Z.ltb_ge off _)) by lia. apply wp_ret. simpl.
    split_and!; [lia|done|exists (f_cache s); by destruct s|reflexivity]. }
  rewrite (proj2 (Z.ltb_lt off _)) by lia. apply wp_bind.
  eapply wp_mono; [apply (wp_read_dirent s p i); try done; lia|].
  intros r s1 (-> & (x1 & -> & Hx1) & V1). fold (dirent (vol s) (i_entry i) off).
  rewrite offsets_S. cbn [List.find]. fold (free_at (vol s) (i_entry i) off). destruct (free_at (vol s) (i_entry i) off).
  { apply wp_ret. split_and!; [done|apply length_file_bytes|by exists x1|done]. }
  set (s1 := set_fcache x1 s) in *.
  pose proof (mp_size _ _ _ _ (do_mapped _ _ Hd)) as Hmax. pose proof max_bytes_small.
  unfold dsize, u32. rewrite wrap_small by lia.
  eapply wp_mono; [apply (IH n s1); try done|].
  - by eapply dir_ok_same.
  - lia.
  - lia.
  - lia.
  - intros r' s2 (-> & Hl & (x2 & -> & Hx2) & V2). split_and!; [|done|by exists x2|by etransitivity].
    f_equal. apply find_ext. intros o _. unfold free_at. by rewrite (dirent_same (vol s) (vol s1)).
Qed.

(** The new entry. *)
Definition new_dirent (name : list Z) (inode_no : Z) : DirEntry := mkDirEntry inode_no (padded 14 name).

Lemma strncpy_padded dest name :
  length dest = 14%nat -> readable name 14 ->
  strncpy dest name (Z.to_nat FILE_NAME_MAX_LENGTH) = Some (padded 14 name).
Proof.
  intros Hd Hr. unfold strncpy. change (Z.to_nat FILE_NAME_MAX_LENGTH) with 14%nat.
  rewrite strncpy_loop_spec by (rewrite ?drop_0; done || lia). rewrite drop_0. f_equal.
  unfold splice. rewrite take_0, length_padded, drop_ge by lia. simpl. by rewrite app_nil_r.
Qed.

Lemma cstr_bytes l : Forall is_byte l -> Forall is_byte (cstr l).
Proof. induction 1 as [|c l Hc _ IH]; simpl; [constructor|]. destruct (c =? 0); by constructor. Qed.

Lemma padded_bytes n name : Forall is_byte name -> Forall is_byte (padded n name).
Proof.
  intros H. unfold padded. apply Forall_take, Forall_app. split; [by apply cstr_bytes|].
  apply Forall_replicate. unfold is_byte. lia.
Qed.

Lemma new_dirent_wf name ino : Forall is_byte (padded 14 name) -> is_word 2 ino -> wf_dirent (new_dirent name ino).
Proof. intros Hn Hi. split_and!; [done|apply length_padded|done]. Qed.

Lemma same_name_padded name other : same_name (padded 14 name) other <-> same_name name other.
Proof. unfold same_name. rewrite cstr_padded, take_take. done. Qed.

(** The entries after a write of one entry at an entry's place. *)
Lemma dirent_written n off d v e v' e' o :
  written_file sblock cache n off (encode_dirent d) v e v' e' -> wf_dirent d -> off mod 16 = 0 -> o mod 16 = 0 ->
  0 <= o -> o + 16 <= ie_num_bytes e' ->
  dirent v' e' o = if decide (o = off) then d else dirent v e o.
Proof.
  intros W Hd Hoff Ho H0 Hle. pose proof (length_encode_dirent _ Hd) as Hl. unfold dirent.
  pose proof (Z.div_mod o 16). pose proof (Z.div_mod off 16).
  assert (forall k, (k < 16)%nat -> byte_of v' e' (o + Z.of_nat k) =
    if decide (o = off) then default 0 (encode_dirent d !! k) else byte_of v e (o + Z.of_nat k)) as Hbyte.
  { intros k Hk. rewrite (wf_bytes _ _ _ _ _ _ _ _ _ W) by lia. rewrite Hl.
    destruct (decide (o = off)) as [->|Hne].
    - rewrite decide_True by lia. do 2 f_equal. lia.
    - rewrite decide_False; [done|]. lia. }
  destruct (decide (o = off)) as [->|Hne].
  - rewrite <- (decode_encode_dirent d [] Hd), app_nil_r. f_equal. apply list_eq. intros k.
    destruct (decide (k < 16)%nat).
    + rewrite lookup_file_bytes, Hbyte by done. destruct (lookup_lt_is_Some_2 (encode_dirent d) k) as [c Ec]; [lia|].
      by rewrite Ec.
    + rewrite !lookup_ge_None_2; [done|lia|rewrite length_file_bytes; lia].
  - f_equal. apply list_eq. intros k. destruct (decide (k < 16)%nat).
    + by rewrite !lookup_file_bytes, Hbyte by done.
    + rewrite !lookup_ge_None_2; [done| |]; rewrite length_file_bytes; lia.
Qed.

Lemma slot_spec v e :
  dir_ok v e -> slot v e mod 16 = 0 /\
  ((slot v e ∈ offsets 0 (Z.to_nat (ie_num_bytes e / 16)) /\ free_at v e (slot v e) = true /\ 0 <= slot v e /\
    slot v e + 16 <= ie_num_bytes e) \/ slot v e = ie_num_bytes e).
Proof.
  intros Hd. pose proof (dir_count _ _ Hd) as Hc. unfold slot.
  destruct (List.find _ _) as [o|] eqn:E; simpl; [|split; [apply Hd|by right]].
  apply List.find_some in E as [Hin Hf]. apply list_elem_of_In in Hin.
  pose proof Hin as (j & Hj & ->)%elem_of_offsets. split.
  - replace (0 + 16 * Z.of_nat j) with (Z.of_nat j * 16) by lia. by apply Z.mod_mul.
  - left. split_and!; [done|done|lia|lia].
Qed.

(** After the write of the new entry: the name is found at the slot, and every
    other name as before. *)
Lemma insert_lookup n v e v' e' name ino :
  dir_ok v e -> written_file sblock cache n (slot v e) (encode_dirent (new_dirent name ino)) v e v' e' ->
  Forall is_byte (padded 14 name) -> is_word 2 ino -> ino <> 0 -> dir_lookup v e name = None ->
  dir_ok v' e' /\ dir_lookup v' e' name = Some (ino, slot v e) /\
  forall other, ~ same_name name other -> dir_lookup v' e' other = dir_lookup v e other.
Proof.
  intros Hd W Hname Hino Hino0 Hnone. pose proof (new_dirent_wf name ino Hname Hino) as Hwf.
  pose proof (length_encode_dirent _ Hwf) as Hlen. pose proof (dir_count _ _ Hd) as Hc.
  destruct (slot_spec v e Hd) as [Hsm Hs]. pose proof (do_size _ _ Hd) as [Hm16 H0].
  pose proof (wf_size _ _ _ _ _ _ _ _ _ W) as Hsz. rewrite Hlen in Hsz.
  set (k := Z.to_nat (ie_num_bytes e / 16)) in *.
  assert (exists k', Z.to_nat (ie_num_bytes e' / 16) = k' /\ slot v e ∈ offsets 0 k' /\
    ie_num_bytes e' = 16 * Z.of_nat k' /\
    (offsets 0 k' = offsets 0 k \/ (offsets 0 k' = offsets 0 k ++ [slot v e]))) as (k' & Ek' & Hin & Hsz' & Hoffs).
  { destruct Hs as [(Hin & _ & Hs0 & Hle)|Heq].
    - exists k. replace (ie_num_bytes e') with (ie_num_bytes e) by lia. split_and!; [done|done|lia|by left].
    - exists (Datatypes.S k). assert (ie_num_bytes e' = 16 * Z.of_nat (Datatypes.S k)) as E by lia.
      assert (slot v e = 0 + 16 * Z.of_nat k) as Es by lia. split_and!.
      + rewrite E, Z.mul_comm, Z.div_mul by lia. lia.
      + apply elem_of_offsets. exists k. split; [lia|done].
      + done.
      + right. rewrite offsets_snoc. by rewrite Es. }
  assert (forall o, o ∈ offsets 0 k' -> dirent v' e' o = if decide (o = slot v e) then new_dirent name ino else dirent v e o) as Hent.
  { intros o (j & Hj & ->)%elem_of_offsets. apply (dirent_written n); try done; [|lia|lia].
    replace (0 + 16 * Z.of_nat j) with (Z.of_nat j * 16) by lia. by apply Z.mod_mul. }
  assert (forall o, o ∈ offsets 0 k -> matches v e name o = false) as Hno.
  { intros o Ho. unfold dir_lookup in Hnone. fold k in Hnone. destruct (List.find _ _) as [x|] eqn:E; [done|].
    apply (List.find_none _ _ E). by apply list_elem_of_In. }
  assert (forall o, o ∈ offsets 0 k' -> o <> slot v e -> o ∈ offsets 0 k) as Hback.
  { intros o Ho Hne. destruct Hoffs as [E|E]; rewrite E in Ho; [done|].
    apply elem_of_app in Ho as [|Ho]; [done|]. by apply list_elem_of_singleton in Ho. }
  split_and!.
  - split; [apply W| |].
    + destruct (wf_meta _ _ _ _ _ _ _ _ _ W) as (-> & _). apply Hd.
    + rewrite Hsz'. split; [|lia]. rewrite Z.mul_comm. by apply Z.mod_mul.
  - unfold dir_lookup. rewrite Ek'. rewrite (find_only _ _ (slot v e)); [|done|].
    + cbn [fmap option_fmap option_map]. rewrite Hent, decide_True by done. done.
    + intros o Ho. unfold matches. rewrite Hent by done. destruct (decide (o = slot v e)) as [->|Hne].
      * split; [done|]. intros _. apply andb_true_iff. split; [|by apply negb_true_iff, Z.eqb_neq].
        apply bool_decide_eq_true, same_name_padded. done.
      * split; [|done]. intros Hmt. fold (matches v e name o) in Hmt. rewrite Hno in Hmt; [done|by apply Hback].
  - intros other Hother. unfold dir_lookup. rewrite Ek'. fold k.
    assert (matches v' e' other (slot v e) = false) as Hns.
    { unfold matches. rewrite Hent, decide_True by done. apply andb_false_iff. left.
      apply bool_decide_eq_false. change (de_name (new_dirent name ino)) with (padded 14 name). by rewrite same_name_padded. }
    assert (forall o, o ∈ offsets 0 k -> matches v' e' other o = matches v e other o) as Hsame.
    { intros o Ho. destruct (decide (o = slot v e)) as [->|Hne].
      - rewrite Hns. destruct Hs as [(_ & Hf & _)|Heq].
        + unfold matches. unfold free_at in Hf. rewrite Hf. by rewrite andb_false_r.
        + exfalso. apply elem_of_offsets in Ho as (j & Hj & Ej). lia.
      - unfold matches. rewrite Hent, decide_False; [done|done|]. destruct Hoffs as [->| ->]; [done|].
        apply elem_of_app. by left. }
    assert (List.find (matches v' e' other) (offsets 0 k') = List.find (matches v e other) (offsets 0 k)) as ->.
    { destruct Hoffs as [->| ->]; [by apply find_ext|]. rewrite find_snoc. rewrite (find_ext _ _ _ Hsame).
      destruct (List.find (matches v e other) (offsets 0 k)); [done|]. by rewrite Hns. }
    destruct (List.find (matches v e other) (offsets 0 k)) as [o|] eqn:E; [|done]. cbn [fmap option_fmap option_map]. do 2 f_equal.
    apply List.find_some in E as [Ho Hmt]. apply list_elem_of_In in Ho. rewrite Hent.
    + rewrite decide_False; [done|]. intros ->. rewrite <- Hsame in Hmt by done. congruence.
    + destruct Hoffs as [->| ->]; [done|]. apply elem_of_app. by left.
Qed.

Lemma dir_lookup_nonzero v e name n o : dir_lookup v e name = Some (n, o) -> n <> 0.
Proof.
  unfold dir_lookup. destruct (List.find _ _) as [x|] eqn:E; [|done]. cbn [fmap option_fmap option_map]. intros [= <- <-].
  apply List.find_some in E as [_ E]. unfold matches in E. apply andb_true_iff in E as [_ E].
  by apply negb_true_iff, Z.eqb_neq in E.
Qed.

Lemma chunk_of_slot off : 0 <= off -> off mod 16 = 0 -> chunks off (off + 16) = 1.
Proof.
  intros H0 Hm. unfold chunks, BLOCK_SIZE. rewrite (proj2 (Z.ltb_lt off _)) by lia.
  pose proof (Z.div_mod off 16). pose proof (Z.div_mod off 512). pose proof (Z.mod_pos_bound off 512).
  assert ((off + 16 - 1) / 512 = off / 512) as ->; [|lia].
  symmetry. apply (Z.div_unique _ _ _ (off mod 512 + 15)); lia.
Qed.

Lemma block_of_slot off o : 0 <= off -> off mod 16 = 0 -> off <= o < off + 16 -> o / BLOCK_SIZE = off / BLOCK_SIZE.
Proof.
  intros H0 Hm Ho. unfold BLOCK_SIZE. pose proof (Z.div_mod off 16). pose proof (Z.div_mod off 512).
  pose proof (Z.mod_pos_bound off 512). symmetry. apply (Z.div_unique _ _ _ (off mod 512 + (o - off))); lia.
Qed.
End laws.

Section props.
Context {S : Type} (sblock : SuperBlock) (cache : BlockCache S) (stack : list Z) `{!BlockCacheSpec sblock cache}.
Context (Hlayout : layout_ok sblock cache) (Hstack : length stack = 16%nat).
Abbreviation vol := (InodeLaws.vol sblock cache).
Abbreviation recached := (InodeLaws.recached sblock cache).

(** C30: [inode_lookup] returns the inode number and the offset of the first used
    entry with the name, or 0, and changes nothing; a file that is not a
    directory is a panic. *)
Theorem inode_lookup_spec s p i name :
  bc_ok (f_cache s) -> f_heap s !! p = Some i -> readable name 14 ->
  (dir_ok sblock cache (vol s) (i_entry i) ->
   wp (inode_lookup sblock cache stack p name) (fun r s' =>
     r = match dir_lookup (vol s) (i_entry i) name with Some (n, o) => (n, Some o) | None => (0, None) end /\
     recached s s' /\ v_same (vol s) (vol s')) s) /\
  (ie_type (i_entry i) <> INODE_DIRECTORY -> panics (inode_lookup sblock cache stack p name) (fun s' => s' = s) s).
Proof.
  intros Hok Ei Hr. split; [intros Hd; by apply wp_inode_lookup|].
  intros Hty. unfold inode_lookup. apply panics_bind. eapply wp_inode_at; [exact Ei|].
  rewrite (proj2 (Z.eqb_neq _ _) Hty). done.
Qed.

Lemma wp_inode_insert s ctx p i name ino :
  bc_ok (f_cache s) -> f_heap s !! p = Some i -> i_valid i = true -> inode_range sblock (i_inode_no i) ->
  dir_ok sblock cache (vol s) (i_entry i) -> blocks_ok sblock cache (vol s) (i_entry i) ->
  readable name 14 -> Forall is_byte (padded 14 name) -> is_word 2 ino -> ino <> 0 ->
  (slot (vol s) (i_entry i) / BLOCK_SIZE < INODE_NUM_DIRECT \/
   block_of (vol s) (i_entry i) (slot (vol s) (i_entry i) / BLOCK_SIZE) <> 0) ->
  slot (vol s) (i_entry i) + 16 <= INODE_MAX_BYTES ->
  ctx <> 0 -> budget sblock ctx (i_inode_no i) 1 (vol s) -> free_list sblock (vol s) <> [] ->
  wp (inode_insert sblock cache stack ctx p name ino) (fun r s' =>
    match dir_lookup (vol s) (i_entry i) name with
    | Some _ => r = MINUS_ONE /\ recached s s' /\ v_same (vol s) (vol s')
    | None => exists e', r = slot (vol s) (i_entry i) /\
        recached (set_heap (<[p := set_entry e' i]> (f_heap s)) s) s' /\
        dir_ok sblock cache (vol s') e' /\
        dir_lookup (vol s') e' name = Some (ino, slot (vol s) (i_entry i)) /\
        (forall other, ~ same_name name other -> dir_lookup (vol s') e' other = dir_lookup (vol s) (i_entry i) other) /\
        exists vm, v_same (vol s) vm /\
          written_file sblock cache (i_inode_no i) (slot (vol s) (i_entry i)) (encode_dirent (new_dirent name ino)) vm (i_entry i) (vol s') e'
    end) s.
Proof.
  intros Hok Ei Hval Hn Hd Hbok Hr Hby Hino Hino0 Hmap Hmax Hctx Hbud Hfl.
  unfold inode_insert. apply wp_bind. eapply wp_inode_at; [exact Ei|].
  apply wp_bind, wp_assert; [rewrite (do_type _ _ _ _ Hd); done|].
  apply wp_bind. eapply wp_mono; [by apply (wp_inode_lookup sblock cache stack s p i name)|].
  intros r s1 (-> & (x1 & -> & Hx1) & V1). set (s1 := set_fcache x1 s) in *.
  destruct (dir_lookup (vol s) (i_entry i) name) as [[n o]|] eqn:El.
  { simpl fst. rewrite (proj2 (Z.eqb_neq n 0)) by (by eapply dir_lookup_nonzero). apply wp_ret.
    split_and!; [done|by exists x1|done]. }
  simpl fst. change (negb (0 =? 0)) with false. cbn iota. pose proof (dir_count sblock cache _ _ Hd) as Hc.
  apply wp_bind. eapply wp_mono.
  { apply (wp_free_slot sblock cache _ (Z.to_nat (ie_num_bytes (i_entry i) / 16)) s1 p i 0 stack); try done;
      [by eapply dir_ok_same|lia]. }
  intros [o buf] s2 (Eo & Hl & (x2 & -> & Hx2) & V2). cbn [fst snd] in *. set (s2 := set_fcache x2 s1) in *.
  assert (v_same (vol s) (vol s2)) as V by (by etransitivity).
  assert (o = slot (vol s) (i_entry i)) as ->.
  { rewrite Eo. unfold slot. f_equal. apply find_ext. intros y _. unfold free_at. by rewrite (dirent_same (vol s) (vol s1)). }
  clear Eo. destruct (slot_spec sblock cache (vol s) (i_entry i) Hd) as [Hsm Hs].
  assert (0 <= slot (vol s) (i_entry i) <= ie_num_bytes (i_entry i)) as Hsr.
  { destruct (do_size _ _ _ _ Hd). destruct Hs as [(_ & _ & ? & ?)|]; lia. }
  apply wp_bind. eapply wp_deref; [apply strncpy_padded; [|done]|].
  { unfold decode_dirent, get_le. simpl. rewrite length_take, length_drop. lia. }
  unfold u16. rewrite wrap_small by done. fold (new_dirent name ino).
  pose proof (new_dirent_wf name ino Hby Hino) as Hwf. pose proof (length_encode_dirent _ Hwf) as Hlen.
  assert (dsize = Z.of_nat (length (encode_dirent (new_dirent name ino)))) as -> by (by rewrite Hlen).
  apply wp_bind. eapply wp_mono; [apply (wp_inode_write sblock cache Hlayout s2 ctx p i); try done|].
  - by apply (blocks_ok_same sblock cache (vol s)).
  - apply (mapped_same sblock cache (vol s)); [done|apply Hd].
  - by apply dir_not_device, (do_type _ _ _ _ Hd).
  - unfold encode_dirent. apply Forall_app. split; [auto with kernel|apply Hwf].
  - by rewrite Hlen.
  - rewrite Hlen. intros y Hy. rewrite (block_of_slot (slot (vol s) (i_entry i)) y) by (done || lia).
    rewrite (block_of_same (vol s) (vol s2)) by done. done.
  - rewrite Hlen. change (Z.of_nat 16) with 16. rewrite chunk_of_slot by (done || lia). by apply (budget_same sblock _ _ _ (vol s)).
  - rewrite Hlen. change (Z.of_nat 16) with 16. rewrite chunk_of_slot by (done || lia).
    rewrite (free_list_same sblock (vol s) (vol s2)) by apply V. destruct (free_list sblock (vol s)); [done|simpl; lia].
  - intros r s3 (e' & -> & (x3 & -> & Hx3) & W). apply wp_ret. exists e'. split; [done|]. split; [by exists x3|].
    set (s3 := set_fcache x3 _) in *.
    assert (slot (vol s2) (i_entry i) = slot (vol s) (i_entry i)) as Es.
    { unfold slot. f_equal. apply find_ext. intros y _. unfold free_at. by rewrite (dirent_same (vol s) (vol s2)). }
    assert (forall nm, dir_lookup (vol s2) (i_entry i) nm = dir_lookup (vol s) (i_entry i) nm) as Edl.
    { intros nm. unfold dir_lookup. rewrite (find_ext _ (matches (vol s) (i_entry i) nm)).
      - destruct (List.find _ _); [|done]. cbn [fmap option_fmap option_map]. by rewrite (dirent_same (vol s) (vol s2)).
      - intros y _. by apply matches_same. }
    rewrite <- Es in W |- *.
    destruct (insert_lookup sblock cache (i_inode_no i) (vol s2) (i_entry i) (vol s3) e' name ino) as (R1 & R2 & R3);
      try done; [by eapply dir_ok_same|by rewrite Edl|]. split_and!; [done|done| |].
    + intros other Ho. rewrite <- Edl. by apply R3.
    + exists (vol s2). split; [done|exact W].
Qed.

End props.

(** ** Removing *)

Section remove.
Context {S : Type} (sblock : SuperBlock) (cache : BlockCache S) (stack : list Z) `{!BlockCacheSpec sblock cache}.
Context (Hlayout : layout_ok sblock cache) (Hstack : length stack = 16%nat).
Abbreviation vol := (InodeLaws.vol sblock cache).
Abbreviation recached := (InodeLaws.recached sblock cache).

(** [inode_remove] of a used entry moves the last entry into its place and
    shortens the directory by one entry; the other entries stay. The shorter
    size is only in memory: the inode on disk keeps the old one. *)
Theorem inode_remove_spec s ctx p i index :
  bc_ok (f_cache s) -> f_heap s !! p = Some i -> i_valid i = true -> inode_range sblock (i_inode_no i) ->
  dir_ok sblock cache (vol s) (i_entry i) -> blocks_ok sblock cache (vol s) (i_entry i) ->
  0 <= index < ie_num_bytes (i_entry i) -> index mod 16 = 0 ->
  de_inode_no (dirent (vol s) (i_entry i) index) <> 0 ->
  ctx <> 0 -> budget sblock ctx (i_inode_no i) 1 (vol s) -> free_list sblock (vol s) <> [] ->
  disk_entry sblock (vol s) (i_inode_no i) = i_entry i ->
  wp (inode_remove sblock cache stack ctx p index) (fun _ s' => exists e',
    let last := ie_num_bytes (i_entry i) - 16 in
    recached (set_heap (<[p := set_entry e' i]> (f_heap s)) s) s' /\
    ie_num_bytes e' = last /\
    (forall o, 0 <= o < last -> o mod 16 = 0 -> dirent (vol s') e' o =
       if decide (o = index) then dirent (vol s) (i_entry i) last else dirent (vol s) (i_entry i) o) /\
    ie_num_bytes (disk_entry sblock (vol s') (i_inode_no i)) = ie_num_bytes (i_entry i)) s.
Proof.
  intros Hok Ei Hval Hn Hd Hbok Hix Hix16 Hused Hctx Hbud Hfl Hdisk.
  pose proof (dir_count sblock cache _ _ Hd) as Hc. pose proof (mp_size _ _ _ _ (do_mapped _ _ _ _ Hd)) as Hmx.
  pose proof max_bytes_small as Hms. pose proof (Z.div_mod index 16).
  set (nb := ie_num_bytes (i_entry i)) in *.
  assert (16 <= nb /\ index + 16 <= nb) as [Hnb Hin16] by lia.
  unfold inode_remove. apply wp_bind. eapply wp_inode_at; [exact Ei|].
  apply wp_bind, wp_assert; [rewrite (do_type _ _ _ _ Hd); done|].
  apply wp_bind, wp_assert; [apply Z.ltb_lt; lia|].
  apply wp_bind. eapply wp_mono; [apply (wp_read_dirent sblock cache s p i stack index); try done; lia|].
  intros [n1 r1] s1 (E1 & (x1 & -> & Hx1) & V1). cbn [snd] in *. subst r1. set (s1 := set_fcache x1 s) in *.
  fold (dirent (vol s) (i_entry i) index). rewrite (proj2 (Z.eqb_neq _ _) Hused). cbn zeta.
  fold nb. assert (u64 (nb - dsize) = nb - 16) as -> by (unfold dsize, u64; apply wrap_small; lia).
  apply wp_bind. eapply wp_mono; [apply (wp_read_dirent sblock cache s1 p i _ (nb - 16)); try done|].
  { by eapply dir_ok_same. } { lia. } { fold nb. lia. }
  intros [n2 r2] s2 (E2 & (x2 & -> & Hx2) & V2). cbn [snd] in *. subst r2. set (s2 := set_fcache x2 s1) in *.
  assert (v_same (vol s) (vol s2)) as V by (by etransitivity).
  rewrite (file_bytes_same (vol s) (vol s1)) by done.
  set (d := dirent (vol s) (i_entry i) (nb - 16)).
  assert (wf_dirent d) as Hwf by (apply dirent_wf; apply Hbok).
  assert (file_bytes (vol s) (i_entry i) (nb - 16) 16 = encode_dirent d) as Eenc.
  { unfold d, dirent. symmetry. apply encode_decode_dirent; [|apply length_file_bytes].
    apply file_bytes_bytes, Hbok. }
  rewrite Eenc. pose proof (length_encode_dirent _ Hwf) as Hlen.
  assert (dsize = Z.of_nat (length (encode_dirent d))) as Eds by (by rewrite Hlen).
  apply wp_bind. rewrite Eds at 1. eapply wp_mono; [apply (wp_inode_write sblock cache Hlayout s2 ctx p i); try done|].
  - by apply (blocks_ok_same sblock cache (vol s)).
  - apply (mapped_same sblock cache (vol s)); [done|apply Hd].
  - by apply dir_not_device, (do_type _ _ _ _ Hd).
  - unfold encode_dirent. apply Forall_app. split; [auto with kernel|apply Hwf].
  - fold nb. lia.
  - rewrite Hlen. lia.
  - rewrite Hlen. intros y Hy. right. rewrite (block_of_same (vol s) (vol s2)) by done.
    apply (mp_block _ _ _ _ (do_mapped _ _ _ _ Hd)); [apply Z.div_pos; unfold BLOCK_SIZE; lia|]. fold nb.
    unfold BLOCK_SIZE. pose proof (Z.div_mod y 512). pose proof (Z.mod_pos_bound y 512). lia.
  - rewrite Hlen. change (Z.of_nat 16) with 16. rewrite chunk_of_slot by (done || lia). by apply (budget_same sblock _ _ _ (vol s)).
  - rewrite Hlen. change (Z.of_nat 16) with 16. rewrite chunk_of_slot by (done || lia).
    rewrite (free_list_same sblock (vol s) (vol s2)) by apply V. destruct (free_list sblock (vol s)); [done|simpl; lia].
  - intros r s3 (e3 & -> & (x3 & -> & Hx3) & W). set (s3 := set_fcache x3 _) in *.
    pose proof (wf_size _ _ _ _ _ _ _ _ _ W) as Hsz. rewrite Hlen in Hsz. fold nb in Hsz.
    assert (ie_num_bytes e3 = nb) as Hnb3 by lia.
    eapply wp_update_entry; [apply lookup_insert_eq|]. cbn [i_entry set_entry]. rewrite Hnb3.
    unfold dsize, u32. rewrite wrap_small by lia.
    exists (set_num_bytes (nb - 16) e3). cbn zeta. split_and!.
    + exists x3. split; [|done]. simpl. rewrite insert_insert_eq. done.
    + done.
    + intros o Ho Ho16. change (dirent (vol s3) e3 o = if decide (o = index) then d else dirent (vol s) (i_entry i) o).
      pose proof (Z.div_mod o 16). pose proof (Z.div_mod nb 16). destruct (do_size _ _ _ _ Hd) as [Hm _]. fold nb in Hm.
      rewrite (dirent_written sblock cache (i_inode_no i) index d (vol s2) (i_entry i) (vol s3) e3 o W) by (done || lia).
      destruct (decide (o = index)); [done|]. by apply dirent_same.
    + change (ie_num_bytes (disk_entry sblock (vol s3) (i_inode_no i)) = nb).
      rewrite (wf_disk _ _ _ _ _ _ _ _ _ W); [done|]. rewrite <- Hdisk. unfold disk_entry. by rewrite (proj1 V).
Qed.
End remove.

(** ** Examples: the empty root directory at address 1 *)

Definition example_rootdir : Inode := mkInode (Sem.init_sem 1) 1 1 true example_root.
Definition example_dir_fs : FsState CacheState := set_heap {[1 := example_rootdir]} example_fs.
Definition example_stack : list Z := replicate 16 7.

Lemma example_root_wf : wf_inode example_root.
Proof.
  unfold wf_inode, example_root, is_word, INODE_DIRECTORY.
  cbn [ie_type ie_major ie_minor ie_num_links ie_num_bytes ie_addrs ie_indirect].
  split_and!; try lia; [reflexivity|]. apply Forall_replicate. lia.
Qed.

Lemma example_root_ok : dir_ok example_sb (bcache example_sb) (volume example_cache) example_root.
Proof.
  split; [|reflexivity|split; [reflexivity|simpl; lia]]. split.
  - apply example_root_wf.
  - vm_compute. discriminate.
  - intros k Hk Hlt. simpl in Hlt. unfold BLOCK_SIZE in Hlt. lia.
  - done.
Qed.

Lemma example_root_blocks : blocks_ok example_sb (bcache example_sb) (volume example_cache) example_root.
Proof.
  pose proof example_blocks_ok as [_ B1 _ _ _ B5].
  assert (forall k, block_of (volume example_cache) example_root k = 0) as Hz by apply (example_no_block (volume example_cache)).
  split; [apply example_root_wf|done| | |done|done].
  - intros k _ H. by rewrite Hz in H.
  - intros k k' _ _ H. by rewrite Hz in H.
Qed.

Lemma example_name : readable [97; 0] 14.
Proof. left. right. left. Qed.

Lemma inode_lookup_spec_witness :
  wp (inode_lookup example_sb (bcache example_sb) example_stack 1 [97; 0]) (fun r s' =>
    r = (0, None) /\ InodeLaws.recached example_sb (bcache example_sb) example_dir_fs s' /\
    v_same (volume example_cache) (InodeLaws.vol example_sb (bcache example_sb) s')) example_dir_fs.
Proof.
  apply (inode_lookup_spec example_sb (bcache example_sb) example_stack (BlockCacheSpec0 := bcache_spec example_sb)
    ltac:(reflexivity) example_dir_fs 1 example_rootdir [97; 0] example_cache_ok ltac:(reflexivity) example_name).
  exact example_root_ok.
Defined.


(** A directory with one entry, [a] for inode 2, in block 95. *)
Definition example_used_entry : InodeEntry := mkInodeEntry INODE_DIRECTORY 0 0 1 16 (95 :: replicate 11 0) 0.
Definition example_used_disk (b : Z) : list Z :=
  if b =? 95 then encode_dirent (mkDirEntry 2 (97 :: replicate 13 0)) ++ replicate 496 0
  else if b =? 65 then replicate 64 0 ++ encode_inode example_used_entry ++ encode_inode example_file ++ replicate 320 0
  else example_disk b.
Definition example_used_cache : CacheState := set_dev (mkDevice example_used_disk []) example_s1.
Definition example_used_inode : Inode := mkInode (Sem.init_sem 1) 1 1 true example_used_entry.
Definition example_used_fs : FsState CacheState :=
  mkFs example_used_cache false [1] {[1 := example_used_inode]} 2 0 0 (f_console example_fs).

Lemma example_used_blocks b : is_block (example_used_disk b).
Proof.
  unfold example_used_disk. destruct (b =? 95); [apply bytes_dec_block; vm_compute; reflexivity|].
  destruct (b =? 65); [apply bytes_dec_block; vm_compute; reflexivity|apply example_disk_blocks].
Qed.

Lemma example_used_cache_ok : cache_ok example_sb example_used_cache.
Proof.
  pose proof example_tx1 as [[[I1 I2 I3 I4 I5 I6] Hl] [L1 L2] [R1 R2 R3 R4] Hlk].
  split; [|reflexivity]. split; [split; [split|]|split|split|]; try done.
  - intros blk Hin. assert (c_blocks example_used_cache = []) as E by (vm_compute; reflexivity). rewrite E in Hin.
    by apply elem_of_nil in Hin.
  - intros b. apply example_used_blocks.
Qed.

Lemma example_used_wf : wf_inode example_used_entry.
Proof.
  unfold wf_inode, example_used_entry, is_word, INODE_DIRECTORY.
  cbn [ie_type ie_major ie_minor ie_num_links ie_num_bytes ie_addrs ie_indirect].
  split_and!; try lia; [reflexivity|]. constructor; [lia|]. apply Forall_replicate. lia.
Qed.

Lemma example_used_block k :
  block_of (volume example_used_cache) example_used_entry k = if decide (k <= 0) then 95 else 0.
Proof.
  unfold block_of. destruct (decide (k <= 0)) as [Hk|Hk].
  - rewrite (proj2 (Z.ltb_lt k _)) by (change INODE_NUM_DIRECT with 12; lia).
    replace (Z.to_nat k) with 0%nat by lia. reflexivity.
  - destruct (k <? INODE_NUM_DIRECT); [|reflexivity].
    change (ie_addrs example_used_entry) with (95 :: replicate 11 0).
    destruct (Z.to_nat k) as [|j] eqn:E; [lia|]. cbn [lookup list_lookup].
    change ((replicate 11 0) !! j) with (replicate 11 0 !! j).
    destruct (replicate 11 0 !! j) eqn:Ej; [|reflexivity]. by apply lookup_replicate in Ej as [-> _].
Qed.

Lemma example_95 : data_block example_sb (bcache example_sb) (volume example_used_cache) 95.
Proof.
  split.
  - split; [apply example_usable; lia|change BIT_PER_BLOCK with 4096; lia|simpl; lia|].
    intros n Hn. pose proof (example_inode_block n Hn). lia.
  - vm_compute. reflexivity.
Qed.

Lemma example_used_blocks_ok :
  blocks_ok example_sb (bcache example_sb) (volume example_used_cache) example_used_entry.
Proof.
  pose proof example_blocks_ok as [_ _ _ _ _ B5].
  split; [apply example_used_wf|apply example_used_blocks| | |done|done].
  - intros k _. rewrite example_used_block. destruct (decide (k <= 0)); [|done]. intros _. apply example_95.
  - intros k k' Hk Hk'. rewrite !example_used_block.
    destruct (decide (k <= 0)), (decide (k' <= 0)); try done. lia.
Qed.

Lemma example_used_ok : dir_ok example_sb (bcache example_sb) (volume example_used_cache) example_used_entry.
Proof.
  split; [|reflexivity|split; [reflexivity|simpl; lia]]. split.
  - apply example_used_wf.
  - vm_compute. discriminate.
  - intros k Hk Hlt. change (ie_num_bytes example_used_entry) with 16 in Hlt. unfold BLOCK_SIZE in Hlt.
    rewrite example_used_block, decide_True by lia. split; [lia|]. apply example_usable. lia.
  - done.
Qed.

Lemma inode_remove_spec_witness :
  wp (inode_remove example_sb (bcache example_sb) example_stack 7 1 0) (fun _ s' => exists e',
    let last := ie_num_bytes example_used_entry - 16 in
    InodeLaws.recached example_sb (bcache example_sb)
      (set_heap (<[1 := set_entry e' example_used_inode]> (f_heap example_used_fs)) example_used_fs) s' /\
    ie_num_bytes e' = last /\
    (forall o, 0 <= o < last -> o mod 16 = 0 -> dirent (InodeLaws.vol example_sb (bcache example_sb) s') e' o =
       if decide (o = 0) then dirent (volume example_used_cache) example_used_entry last
       else dirent (volume example_used_cache) example_used_entry o) /\
    ie_num_bytes (disk_entry example_sb (InodeLaws.vol example_sb (bcache example_sb) s') 1) =
      ie_num_bytes example_used_entry) example_used_fs.
Proof.
  apply (inode_remove_spec example_sb (bcache example_sb) example_stack example_layout ltac:(reflexivity)
    example_used_fs 7 1 example_used_inode 0 example_used_cache_ok).
  - reflexivity.
  - reflexivity.
  - split; simpl; lia.
  - exact example_used_ok.
  - exact example_used_blocks_ok.
  - simpl. lia.
  - reflexivity.
  - vm_compute. discriminate.
  - lia.
  - exists 10. split; [reflexivity|]. vm_compute. discriminate.
  - pose proof example_free as Hf. change (free_list example_sb (volume example_cache) <> []).
    intros E. rewrite E in Hf. simpl in Hf. lia.
  - vm_compute. reflexivity.
Defined.
