(* ===== verification/Path.v ===== *)
(** Path names ([skipelem], [namex], [namei], [nameiparent], [stati] of
    src/fs/inode.c).

    A path is the list of its characters up to the NUL; [name] is a buffer of
    [FILE_NAME_MAX_LENGTH] bytes. *)
From Stdlib Require Import ZArith Lia.
From stdpp Require Import base numbers gmap sets list.
From S2P Require Import Prelude Bytes Bitmap Sync FsDefs Console CString Cache CacheLaws LogLaws.
From S2P Require Import Crash Reserve Transactions BlockCache Inode InodeLaws InodeWrite InodeProps InodePut Directory.

Definition SLASH : Z := 47.

(** [while ( *path == '/') path++] *)
Fixpoint skip_slashes (path : list Z) : list Z :=
  match path with
  | [] => []
  | c :: path' => if c =? SLASH then skip_slashes path' else path
  end.

(** [while ( *path != '/' && *path != 0) path++]: what was passed, and the rest. *)
Fixpoint span_elem (path : list Z) : list Z * list Z :=
  match path with
  | [] => ([], [])
  | c :: path' => if c =? SLASH then ([], path) else let '(s, r) := span_elem path' in (c :: s, r)
  end.

(** The rest of the path and the buffer [name]; [None] is NULL. *)
Definition skipelem (path name : list Z) : option (list Z * list Z) :=
  match skip_slashes path with
  | [] => None
  | path1 =>
      let '(s, path2) := span_elem path1 in
      let len := Z.of_nat (length s) in
      let name' :=
        if FILE_NAME_MAX_LENGTH <=? len then splice name 0 (take (Z.to_nat FILE_NAME_MAX_LENGTH) s)
        else splice name 0 (s ++ [0]) in
      Some (skip_slashes path2, name')
  end.

Section namex.
Context {S : Type} (sblock : SuperBlock) (cache : BlockCache S) (stack : list Z).
Abbreviation F := (M (FsState S)).

(** The loop of [namex]: the inode and the buffer. Each round removes a
    character of the path at least. *)
Fixpoint namex_loop (fuel : nat) (path : list Z) (nameiparent : bool) (name : list Z) (ctx ans : Z) :
    F (Z * list Z) :=
  match skipelem path name with
  | None =>
      if nameiparent then inode_put sblock cache ctx ans ;; mret (NULL, name) else mret (ans, name)
  | Some (path, name) =>
      match fuel with
      | O => undefined
      | Datatypes.S fuel' =>
          inode_lock ans ;;
          i ← inode_at ans;
          if negb (ie_type (i_entry i) =? INODE_DIRECTORY) then
            inode_unlock ans ;; inode_put sblock cache ctx ans ;; mret (NULL, name)
          else if nameiparent && bool_decide (path = []) then
            inode_unlock ans ;; mret (ans, name)
          else
            found ← inode_lookup sblock cache stack ans name;
            next ← inode_get sblock cache found.1;
            if next =? NULL then
              inode_unlock ans ;; inode_put sblock cache ctx ans ;; mret (NULL, name)
            else
              inode_unlock ans ;; inode_put sblock cache ctx ans ;;
              namex_loop fuel' path nameiparent name ctx next
      end
  end.

Definition namex (path : list Z) (nameiparent : bool) (name : list Z) (ctx : Z) : F (Z * list Z) :=
  ans ← match path with
        | c :: _ => if c =? SLASH then inode_get sblock cache ROOT_INODE_NO
                    else s ← get_state; inode_share (f_cwd s)
        | [] => s ← get_state; inode_share (f_cwd s)
        end;
  namex_loop (length path) path nameiparent name ctx ans.

(** [name] is an array on the stack of [namei]. *)
Definition namei (path : list Z) (ctx : Z) (name : list Z) : F Z :=
  r ← namex path false name ctx; mret r.1.

Definition nameiparent (path name : list Z) (ctx : Z) : F (Z * list Z) := namex path true name ctx.

(** [struct stat]; the fields [stati] sets. *)
Record stat := mkStat { st_dev : Z; st_ino : Z; st_nlink : Z; st_size : Z; st_mode : Z }.
Definition S_IFREG : Z := 0x8000.
Definition S_IFDIR : Z := 0x4000.

Definition stati (p : Z) : F stat :=
  i ← inode_at p;
  let e := i_entry i in
  let st := mkStat 1 (i_inode_no i) (ie_num_links e) (ie_num_bytes e) in
  if ie_type e =? INODE_REGULAR then mret (st S_IFREG)
  else if ie_type e =? INODE_DIRECTORY then mret (st S_IFDIR)
  else if ie_type e =? INODE_DEVICE then mret (st 0)
  else PANIC.
End namex.

(** ** Path elements *)

(** The elements of a path: the pieces between the slashes that are not empty;
    [cur] is the piece being read. *)
Definition flush (cur : list Z) (l : list (list Z)) : list (list Z) := match cur with [] => l | _ => cur :: l end.

Fixpoint elems (cur path : list Z) : list (list Z) :=
  match path with
  | [] => flush cur []
  | c :: path' => if c =? SLASH then flush cur (elems [] path') else elems (cur ++ [c]) path'
  end.

Definition elements (path : list Z) : list (list Z) := elems [] path.

Lemma elements_skip path : elements (skip_slashes path) = elements path.
Proof.
  unfold elements. induction path as [|c path IH]; [done|]. simpl. destruct (c =? SLASH) eqn:E; [done|]. simpl. by rewrite E.
Qed.

Lemma elems_nonempty cur path : cur <> [] -> elems cur path <> [].
Proof.
  revert cur. induction path as [|c path IH]; intros cur Hc; simpl; [by destruct cur|].
  destruct (c =? SLASH); [by destruct cur|]. apply IH. by destruct cur.
Qed.

Lemma skip_slashes_nil path : skip_slashes path = [] <-> elements path = [].
Proof.
  rewrite <- elements_skip. split; [by intros ->|].
  destruct (skip_slashes path) as [|c p] eqn:E; [done|].
  assert (c =? SLASH = false) as Hc.
  { clear -E. induction path as [|d path IH]; [done|]. simpl in E. destruct (d =? SLASH) eqn:Ed; [by apply IH|].
    injection E as -> _. done. }
  unfold elements. simpl. rewrite Hc. intros H. by apply elems_nonempty in H.
Qed.

Lemma span_elem_spec path s r :
  span_elem path = (s, r) -> path = s ++ r /\ Forall (fun c => c <> SLASH) s /\
  (r = [] \/ exists r', r = SLASH :: r').
Proof.
  revert s r. induction path as [|c path IH]; intros s r E; simpl in E.
  - injection E as <- <-. split_and!; [done|constructor|by left].
  - destruct (Z.eqb_spec c SLASH) as [->|Hc].
    + injection E as <- <-. split_and!; [done|constructor|right; by eexists].
    + destruct (span_elem path) as [s1 r1]. injection E as <- <-.
      destruct (IH s1 r1 eq_refl) as (-> & Hs & Hr). split_and!; [done|by constructor|done].
Qed.

Lemma elems_span cur s r : Forall (fun c => c <> SLASH) s -> elems cur (s ++ r) = elems (cur ++ s) r.
Proof.
  intros Hs. revert cur. induction Hs as [|c s Hc _ IH]; intros cur; simpl; [by rewrite app_nil_r|].
  rewrite (proj2 (Z.eqb_neq c SLASH)) by done. rewrite IH, <- app_assoc. done.
Qed.

Lemma elements_span s r :
  s <> [] -> Forall (fun c => c <> SLASH) s -> (r = [] \/ exists r', r = SLASH :: r') ->
  elements (s ++ r) = s :: elements r.
Proof.
  intros Hne Hs Hr. unfold elements. rewrite elems_span by done. cbn [app].
  destruct Hr as [->|[r' ->]]; by destruct s.
Qed.

(** The buffer after an element was copied into it. *)
Definition holds_name (e name : list Z) : Prop := length name = 14%nat /\ same_name name e.

Lemma cstr_app_zero s r : Forall (fun c => c <> 0) s -> cstr (s ++ 0 :: r) = s.
Proof. induction 1 as [|c s Hc _ IH]; simpl; [done|]. rewrite (proj2 (Z.eqb_neq c 0)) by done. by rewrite IH. Qed.

Lemma cstr_nonzero s : Forall (fun c => c <> 0) s -> cstr s = s.
Proof. induction 1 as [|c s Hc _ IH]; simpl; [done|]. rewrite (proj2 (Z.eqb_neq c 0)) by done. by rewrite IH. Qed.

Lemma name_buffer s name :
  length name = 14%nat -> Forall (fun c => c <> 0) s ->
  holds_name s (if FILE_NAME_MAX_LENGTH <=? Z.of_nat (length s) then splice name 0 (take (Z.to_nat FILE_NAME_MAX_LENGTH) s)
                else splice name 0 (s ++ [0])).
Proof.
  intros Hn Hs. change FILE_NAME_MAX_LENGTH with 14. unfold holds_name, same_name.
  rewrite (cstr_nonzero s) by done. destruct (Z.leb_spec 14 (Z.of_nat (length s))).
  - rewrite length_splice; [|rewrite length_take; lia]. split; [done|].
    change (Z.to_nat 14) with 14%nat. unfold splice. rewrite take_0. cbn [app].
    rewrite drop_ge by (rewrite length_take; lia). rewrite app_nil_r, cstr_nonzero by (by apply Forall_take).
    by rewrite take_take.
  - rewrite length_splice; [|rewrite length_app; simpl; lia]. split; [done|].
    unfold splice. rewrite take_0. cbn [app]. rewrite <- app_assoc. cbn [app]. by rewrite cstr_app_zero.
Qed.

(** [skipelem] takes the first element off. *)
Lemma skipelem_elements path name :
  length name = 14%nat -> Forall (fun c => c <> 0) path ->
  match skipelem path name with
  | None => elements path = []
  | Some (rest, name') => exists e, elements path = e :: elements rest /\ holds_name e name' /\
      (length rest < length path)%nat /\ Forall (fun c => c <> 0) rest /\ (rest = [] <-> elements rest = [])
  end.
Proof.
  intros Hn Hz. unfold skipelem. destruct (skip_slashes path) as [|c p] eqn:Es.
  { by apply skip_slashes_nil. }
  destruct (span_elem (c :: p)) as [s r] eqn:Esp.
  assert (exists l, path = l ++ c :: p) as [l El].
  { clear -Es. induction path as [|d path IH]; [done|]. simpl in Es. destruct (d =? SLASH).
    - destruct (IH Es) as [l ->]. by exists (d :: l).
    - exists []. simpl. congruence. }
  assert (c <> SLASH) as Hc.
  { clear -Es. induction path as [|d path IH]; [done|]. simpl in Es. destruct (Z.eqb_spec d SLASH); [by apply IH|]. congruence. }
  assert (s <> []) as Hs0.
  { simpl in Esp. rewrite (proj2 (Z.eqb_neq c SLASH)) in Esp by done. destruct (span_elem p). injection Esp as <- _. done. }
  destruct (span_elem_spec _ _ _ Esp) as (Ep & Hs & Hr).
  assert (Forall (fun c => c <> 0) (s ++ r)) as Hz'.
  { rewrite <- Ep. rewrite El in Hz. by apply Forall_app in Hz as [_ ?]. }
  apply Forall_app in Hz' as [Hzs Hzr].
  assert (forall q, exists k, q = k ++ skip_slashes q) as Hsk.
  { clear. induction q as [|d q [k IH]]; [by exists []|]. simpl. destruct (d =? SLASH); [|by exists []].
    exists (d :: k). simpl. by rewrite <- IH. }
  destruct (Hsk r) as [k Ek]. exists s. split_and!.
  - rewrite <- elements_skip, Es, Ep, elements_skip. by apply elements_span.
  - by apply name_buffer.
  - rewrite El, Ep, !length_app. rewrite Ek at 2. rewrite length_app. destruct s; [done|]. simpl. lia.
  - rewrite Ek in Hzr. by apply Forall_app in Hzr as [_ ?].
  - rewrite skip_slashes_nil, elements_skip. done.
Qed.

(** ** Resolving a path *)

Section resolve.
Context {S : Type} (sblock : SuperBlock) (cache : BlockCache S) (stack : list Z) `{!BlockCacheSpec sblock cache}.
Context (Hlayout : layout_ok sblock cache) (Hstack : length stack = 16%nat).
Abbreviation vol := (InodeLaws.vol sblock cache).
Abbreviation disk_entry := (InodeLaws.disk_entry sblock).

(** The inode number a path leads to from inode [n]. *)
Fixpoint resolve (v : Volume) (n : Z) (es : list (list Z)) : option Z :=
  match es with
  | [] => Some n
  | e :: es' =>
      if ie_type (disk_entry v n) =? INODE_DIRECTORY then
        match dir_lookup v (disk_entry v n) e with
        | Some (m, _) => resolve v m es'
        | None => None
        end
      else None
  end.

Definition inode_number (n : Z) : Prop := 0 < n < sb_num_inodes sblock.

(** Directories are well-formed, and name inodes that are in use and have links. *)
Definition tree_ok (v : Volume) : Prop :=
  forall n, inode_number n -> ie_type (disk_entry v n) = INODE_DIRECTORY ->
    dir_ok sblock cache v (disk_entry v n) /\
    forall name m o, dir_lookup v (disk_entry v n) name = Some (m, o) ->
      inode_number m /\ ie_num_links (disk_entry v m) <> 0 /\ ie_type (disk_entry v m) <> INODE_INVALID.

(** The in-memory inodes: loaded, in use, equal to the disk's, [refs p] references to
    the one at [p], the one at [locked] locked and no other. *)
Record coherent (v : Volume) (refs : Z -> Z) (locked : Z) (s : FsState S) : Prop := {
  co_ring : ring_ok s;
  co_ok : bc_ok (f_cache s);
  co_vol : v_same v (vol s);
  co_lock : f_lock s = false;
  co_heap : forall p i, f_heap s !! p = Some i ->
    p ∈ f_ring s /\ inode_number (i_inode_no i) /\
    i = mkInode (Sem.mkSem (if p =? locked then 0 else 1) []) (refs p) (i_inode_no i) true (disk_entry v (i_inode_no i));
  co_refs : forall p, refs p <> 0 -> is_Some (f_heap s !! p);
  co_live : forall p i, f_heap s !! p = Some i -> ie_type (disk_entry v (i_inode_no i)) <> INODE_INVALID;
}.

Definition bump (p d : Z) (refs : Z -> Z) : Z -> Z := fun q => if q =? p then refs q + d else refs q.

Lemma coherent_ext v refs refs' locked s :
  (forall q, refs' q = refs q) -> coherent v refs locked s -> coherent v refs' locked s.
Proof. intros E [C1 C2 C3 C4 C5 C6 C7]. split; try done; intros p; rewrite E; auto. Qed.

(** Changing one inode in place. *)
Lemma coherent_update v refs locked refs' locked' s p i i' :
  coherent v refs locked s -> f_heap s !! p = Some i -> i_inode_no i' = i_inode_no i ->
  i' = mkInode (Sem.mkSem (if p =? locked' then 0 else 1) []) (refs' p) (i_inode_no i) true (disk_entry v (i_inode_no i)) ->
  0 <= refs' p -> (forall q, q <> p -> refs' q = refs q) ->
  (forall q, q <> p -> 0 < q -> (q =? locked') = (q =? locked)) ->
  coherent v refs' locked' (set_heap (<[p := i']> (f_heap s)) s).
Proof.
  intros [[R1 R2 R3 R4 R5] C2 C3 C4 C5 C6 C7] Ei En Ei' Hr Ho Hl. destruct (C5 p i Ei) as (Hin & Hn & _).
  assert (forall q j, <[p := i']> (f_heap s) !! q = Some j -> exists j0, f_heap s !! q = Some j0 /\ i_inode_no j = i_inode_no j0) as Hback.
  { intros q j Hj. apply lookup_insert_Some in Hj as [[<- <-]|[_ Hj]]; eauto. }
  split; simpl; try done.
  - split; simpl; try done.
    + intros q Hq. destruct (decide (q = p)) as [->|]; [rewrite lookup_insert_eq; eauto|]. rewrite lookup_insert_ne by done. by apply R1.
    + intros q [j Hj]. destruct (Hback q j Hj) as (j0 & Hj0 & _). apply R2. eauto.
    + intros q1 q2 j1 j2 H1 H2 L1 L2 E. destruct (Hback _ _ L1) as (k1 & K1 & E1). destruct (Hback _ _ L2) as (k2 & K2 & E2).
      eapply R3; eauto. congruence.
    + intros q j Hj. apply lookup_insert_Some in Hj as [[_ <-]|[_ Hj]]; [by rewrite Ei'|by eapply R4].
  - intros q j Hj. apply lookup_insert_Some in Hj as [[<- <-]|[Hne Hj]].
    + rewrite En. by split_and!.
    + destruct (C5 q j Hj) as (? & ? & Ej). pose proof (R2 q (mk_is_Some _ _ Hj)).
      rewrite Ho, Hl by (done || lia). by split_and!.
  - intros q Hq. destruct (decide (q = p)) as [->|Hne]; [rewrite lookup_insert_eq; eauto|].
    rewrite lookup_insert_ne by done. apply C6. by rewrite <- Ho.
  - intros q j Hj. destruct (Hback q j Hj) as (j0 & Hj0 & ->). by apply (C7 q).
Qed.

Lemma coherent_recached v refs locked s s' :
  coherent v refs locked s -> recached sblock cache s s' -> v_same (vol s) (vol s') -> coherent v refs locked s'.
Proof.
  intros [[R1 R2 R3 R4 R5] C2 C3 C4 C5 C6 C7] (x & -> & Hx) Hv. split; try done. by etransitivity.
Qed.

(** What [coherent] says of one inode. *)
Lemma coherent_inode v refs locked s p i :
  coherent v refs locked s -> f_heap s !! p = Some i ->
  0 < p /\ inode_number (i_inode_no i) /\ i_lock i = Sem.mkSem (if p =? locked then 0 else 1) [] /\
  i_rc i = refs p /\ i_valid i = true /\ i_entry i = disk_entry v (i_inode_no i) /\ 0 <= refs p.
Proof.
  intros C Ei. destruct (co_heap _ _ _ _ C p i Ei) as (_ & Hn & E).
  pose proof (rg_next _ (co_ring _ _ _ _ C) p (mk_is_Some _ _ Ei)).
  pose proof (rg_rc _ (co_ring _ _ _ _ C) p i Ei).
  destruct i as [lk rc n vld e]; simpl in *. injection E as -> -> -> ->. split_and!; try done; lia.
Qed.

Lemma wp_lock_coherent v refs s p i :
  coherent v refs 0 s -> f_heap s !! p = Some i -> 0 < refs p ->
  wp (inode_lock (S := S) p) (fun _ s' => coherent v refs p s' /\
    exists i', f_heap s' !! p = Some i' /\ i_inode_no i' = i_inode_no i) s.
Proof.
  intros C Ei Hr. destruct (coherent_inode _ _ _ _ _ _ C Ei) as (Hp & _ & El & Erc & Ev & Ee & _).
  eapply wp_mono; [eapply (wp_inode_lock s p i (Sem.mkSem 0 [])); [done|by rewrite Erc|]|].
  { rewrite El, (proj2 (Z.eqb_neq p 0)) by lia. done. }
  intros [] s' ->. split.
  - eapply coherent_update; [exact C|exact Ei|done| |lia|done|].
    + rewrite Z.eqb_refl, <- Erc, <- Ev, <- Ee. done.
    + intros q Hq Hq0. rewrite (proj2 (Z.eqb_neq q p)), (proj2 (Z.eqb_neq q 0)) by (done || lia). done.
  - eexists. simpl. by rewrite lookup_insert_eq.
Qed.

Lemma wp_unlock_coherent v refs s p i :
  coherent v refs p s -> f_heap s !! p = Some i -> 0 < refs p ->
  wp (inode_unlock (S := S) p) (fun _ s' => coherent v refs 0 s' /\
    exists i', f_heap s' !! p = Some i' /\ i_inode_no i' = i_inode_no i) s.
Proof.
  intros C Ei Hr. destruct (coherent_inode _ _ _ _ _ _ C Ei) as (Hp & _ & El & Erc & Ev & Ee & _).
  rewrite Z.eqb_refl in El.
  eapply wp_mono; [eapply (wp_inode_unlock s p i None (Sem.mkSem 1 [])); [done|by rewrite Erc|by rewrite El]|].
  intros [] s' ->. split.
  - eapply coherent_update; [exact C|exact Ei|done| |lia|done|].
    + rewrite (proj2 (Z.eqb_neq p 0)), <- Erc, <- Ev, <- Ee by lia. done.
    + intros q Hq Hq0. rewrite (proj2 (Z.eqb_neq q p)), (proj2 (Z.eqb_neq q 0)) by (done || lia). done.
  - eexists. simpl. by rewrite lookup_insert_eq.
Qed.

(** Dropping a reference of an inode that has links. *)
Lemma wp_put_coherent v refs s ctx p i :
  coherent v refs 0 s -> f_heap s !! p = Some i -> 0 < refs p < 2 ^ 63 ->
  ie_num_links (disk_entry v (i_inode_no i)) <> 0 ->
  wp (inode_put sblock cache ctx p) (fun _ s' => coherent v (bump p (-1) refs) 0 s' /\
    forall q j, f_heap s !! q = Some j -> exists j', f_heap s' !! q = Some j' /\ i_inode_no j' = i_inode_no j) s.
Proof.
  intros C Ei Hr Hl. destruct (coherent_inode _ _ _ _ _ _ C Ei) as (Hp & _ & El & Erc & Ev & Ee & _).
  unfold inode_put. apply wp_bind. eapply wp_update_inode; [exact Ei|].
  assert ((Rc.decrement_rc (i_rc i)).2 = refs p - 1) as -> by (rewrite Erc; apply Rc.i64_small; lia).
  apply wp_bind. eapply wp_inode_at; [apply lookup_insert_eq|]. cbn [i_rc i_entry set_rc]. rewrite Ee.
  rewrite (proj2 (Z.eqb_neq _ 0) Hl), andb_false_r. apply wp_ret. split.
  - eapply coherent_update; [exact C|exact Ei|done| | | |done].
    + unfold set_rc, bump. rewrite Z.eqb_refl, El, Ev, Ee. done.
    + unfold bump. rewrite Z.eqb_refl. lia.
    + intros q Hq. unfold bump. by rewrite (proj2 (Z.eqb_neq q p)).
  - intros q j Hj. simpl. destruct (decide (q = p)) as [->|]; [rewrite lookup_insert_eq|rewrite lookup_insert_ne by done; eauto].
    eexists. split; [done|]. simpl. congruence.
Qed.

Lemma wp_get_coherent v refs locked s n :
  coherent v refs locked s -> locked < f_next s -> inode_number n -> ie_type (disk_entry v n) <> INODE_INVALID -> (forall p, 0 <= refs p < 2 ^ 63 - 1) ->
  wp (inode_get sblock cache n) (fun p s' => 0 < p /\ coherent v (bump p 1 refs) locked s' /\ locked < f_next s' /\
    (exists i, f_heap s' !! p = Some i /\ i_inode_no i = n) /\
    forall q j, f_heap s !! q = Some j -> exists j', f_heap s' !! q = Some j' /\ i_inode_no j' = i_inode_no j) s.
Proof.
  intros C Hlk Hn Hlive Hr. pose proof (co_ring _ _ _ _ C) as Hring. pose proof (co_ok _ _ _ _ C) as Hok.
  destruct (find_inode n s) as [p|] eqn:Ef.
  - destruct (find_inode_some n s p Ef) as (Hin & i & Ei & En).
    destruct (coherent_inode _ _ _ _ _ _ C Ei) as (Hp & Hnum & El & Erc & Ev & Ee & _).
    unfold inode_get. rewrite (proj2 (Z.eqb_neq n 0)) by (unfold inode_number in Hn; lia).
    apply wp_bind, wp_assert; [apply Z.ltb_lt; apply Hn|]. apply wp_bind, wp_assert; [apply Z.ltb_lt; apply Hn|].
    apply wp_bind, wp_get_state. rewrite Ef. apply wp_bind. eapply wp_update_inode; [done|].
    apply wp_bind, wp_modify, wp_ret. rewrite increment_rc_small by (rewrite Erc; apply Hr).
    pose proof (co_lock _ _ _ _ C) as Hfl. split_and!; [done| |done| |].
    + assert (coherent v (bump p 1 refs) locked (set_heap (<[p := set_rc (i_rc i + 1) i]> (f_heap s)) s)) as C'.
      { eapply coherent_update; [exact C|exact Ei|done| | | |done].
        - unfold set_rc, bump. rewrite Z.eqb_refl, El, Erc, Ev, Ee. done.
        - unfold bump. rewrite Z.eqb_refl. specialize (Hr p). lia.
        - intros q Hq. unfold bump. by rewrite (proj2 (Z.eqb_neq q p)). }
      destruct C' as [[] ? ? ? ? ? ?]. split; try done.
    + eexists. simpl. by rewrite lookup_insert_eq.
    + intros q j Hj. simpl. destruct (decide (q = p)) as [->|]; [rewrite lookup_insert_eq|rewrite lookup_insert_ne by done; eauto].
      eexists. split; [done|]. simpl. congruence.
  - eapply wp_mono; [by apply (wp_inode_get_new sblock cache Hlayout)|].
    intros p s' (-> & [(i' & Hi' & En & Hin' & Hnew) Hoth Hr' (Hok' & Hv') Hkeep (_ & Hl')] & _).
    rewrite Ef in Hnew. destruct Hnew as [Hfresh ->]. pose proof (rg_pos _ Hring) as Hpos.
    assert (refs (f_next s) = 0) as Hr0.
    { destruct (decide (refs (f_next s) = 0)) as [|Hne]; [done|]. apply (co_refs _ _ _ _ C) in Hne as [? ?]. congruence. }
    pose proof (rg_next _ Hr' (f_next s) (mk_is_Some _ _ Hi')) as Hnx. split_and!; [done| |lia| |].
    + split.
      * done.
      * done.
      * etransitivity; [apply C|done].
      * apply Hl', C.
      * intros q j Hj. destruct (decide (q = f_next s)) as [->|Hne].
        -- rewrite Hi' in Hj. injection Hj as <-. split; [done|]. split; [done|]. simpl. unfold bump.
           rewrite Z.eqb_refl, Hr0, (proj2 (Z.eqb_neq (f_next s) locked)) by lia. f_equal.
           unfold InodeLaws.disk_entry. by rewrite (proj1 (co_vol _ _ _ _ C)).
        -- rewrite Hoth in Hj by done. destruct (co_heap _ _ _ _ C q j Hj) as (? & ? & ?). split; [by apply Hkeep|].
           split; [done|]. unfold bump. by rewrite (proj2 (Z.eqb_neq q (f_next s))).
      * intros q. unfold bump. destruct (decide (q = f_next s)) as [->|Hne]; [eauto|].
        rewrite (proj2 (Z.eqb_neq q (f_next s))) by done. intros Hq. rewrite Hoth by done. by apply (co_refs _ _ _ _ C).
      * intros q j Hj. destruct (decide (q = f_next s)) as [->|Hne]; [rewrite Hi' in Hj; by injection Hj as <-|].
        rewrite Hoth in Hj by done. by apply (co_live _ _ _ _ C q).
    + eauto.
    + intros q j Hj. exists j. split; [|done]. rewrite Hoth; [done|]. intros ->. congruence.
Qed.

(** What [namex] looks for: the inode of the path, or the directory of its last
    element. *)
Definition target (v : Volume) (n : Z) (parent : bool) (es : list (list Z)) : option Z :=
  if parent then
    match es with
    | [] => None
    | _ => m ← resolve v n (removelast es);
           if ie_type (disk_entry v m) =? INODE_DIRECTORY then Some m else None
    end
  else resolve v n es.

Lemma target_step v n parent e es m o :
  ie_type (disk_entry v n) = INODE_DIRECTORY -> dir_lookup v (disk_entry v n) e = Some (m, o) ->
  (parent = true -> es <> []) -> target v n parent (e :: es) = target v m parent es.
Proof.
  intros Ht Hl Hp. unfold target. destruct parent.
  - destruct es as [|e2 es]; [by destruct Hp|]. change (removelast (e :: e2 :: es)) with (e :: removelast (e2 :: es)).
    cbn [resolve]. rewrite Ht. change (INODE_DIRECTORY =? INODE_DIRECTORY) with true. cbn iota. by rewrite Hl.
  - cbn [resolve]. rewrite Ht. change (INODE_DIRECTORY =? INODE_DIRECTORY) with true. cbn iota. by rewrite Hl.
Qed.

Lemma target_none v n parent e es :
  ie_type (disk_entry v n) = INODE_DIRECTORY -> dir_lookup v (disk_entry v n) e = None ->
  (parent = true -> es <> []) -> target v n parent (e :: es) = None.
Proof.
  intros Ht Hl Hp. unfold target. destruct parent.
  - destruct es as [|e2 es]; [by destruct Hp|]. change (removelast (e :: e2 :: es)) with (e :: removelast (e2 :: es)).
    cbn [resolve]. rewrite Ht. change (INODE_DIRECTORY =? INODE_DIRECTORY) with true. cbn iota. by rewrite Hl.
  - cbn [resolve]. rewrite Ht. change (INODE_DIRECTORY =? INODE_DIRECTORY) with true. cbn iota. by rewrite Hl.
Qed.

Lemma target_not_dir v n parent e es :
  ie_type (disk_entry v n) <> INODE_DIRECTORY -> target v n parent (e :: es) = None.
Proof.
  intros Ht. apply Z.eqb_neq in Ht. unfold target. destruct parent; cbn [resolve]; [|by rewrite Ht].
  destruct es as [|e2 es]; [cbn [removelast resolve mbind option_bind]; by rewrite Ht|].
  change (removelast (e :: e2 :: es)) with (e :: removelast (e2 :: es)). cbn [resolve]. by rewrite Ht.
Qed.

Lemma dir_lookup_name v e a b : same_name a b -> dir_lookup v e a = dir_lookup v e b.
Proof.
  intros H. unfold dir_lookup. f_equal. apply find_ext. intros o _. unfold matches. f_equal.
  apply bool_decide_ext. unfold same_name in *. by rewrite H.
Qed.

Lemma holds_name_readable e name : holds_name e name -> readable name 14.
Proof. intros [Hl _]. right. lia. Qed.

Lemma bump_bump p refs q : bump p (-1) (bump p 1 refs) q = refs q.
Proof. unfold bump. destruct (q =? p); lia. Qed.

Lemma bump_swap p q refs x : bump q 1 refs x = bump p (-1) (bump q 1 (bump p 1 refs)) x.
Proof. unfold bump. destruct (x =? p), (x =? q); lia. Qed.

Lemma wp_seq {T A} (c d : M T unit) (k : M T A) Q s : wp (c ;; d) (fun _ s' => wp k Q s') s -> wp (c ;; d ;; k) Q s.
Proof. unfold wp, mbind, M_bind. destruct (c s) as [? s1| | |]; [|done..]. by destruct (d s1). Qed.

Definition found_inode (s : FsState S) (p n : Z) : Prop := exists i, f_heap s !! p = Some i /\ i_inode_no i = n.

(** Unlock and drop the directory. *)
Lemma wp_leave v refs s ctx p n :
  coherent v refs p s -> found_inode s p n -> 0 < refs p < 2 ^ 63 -> ie_num_links (disk_entry v n) <> 0 ->
  wp (inode_unlock (S := S) p ;; inode_put sblock cache ctx p) (fun _ s' => coherent v (bump p (-1) refs) 0 s' /\
    forall q m, found_inode s q m -> found_inode s' q m) s.
Proof.
  intros C (i & Ei & En) Hr Hl. apply wp_bind.
  assert (forall q m, found_inode s q m -> q <> p -> exists j, f_heap s !! q = Some j /\ i_inode_no j = m) as Hq by auto.
  destruct (coherent_inode _ _ _ _ _ _ C Ei) as (Hp & _ & El & Erc & Ev & Ee & _). rewrite Z.eqb_refl in El.
  eapply wp_mono; [apply wp_and; [eapply (wp_unlock_coherent v refs s p i); [done|done|lia]|
    eapply (wp_inode_unlock s p i None (Sem.mkSem 1 [])); [done|rewrite Erc; lia|by rewrite El]]|].
  intros [] s1 [(C1 & i1 & Ei1 & En1) Es1]. eapply wp_mono; [eapply (wp_put_coherent v refs s1 ctx p i1); try done|].
  { by rewrite En1, En. }
  intros [] s2 (C2 & Hk). split; [done|]. intros q m (j & Ej & Em).
  destruct (decide (q = p)) as [->|Hne].
  - destruct (Hk p i1 Ei1) as (j' & Ej' & Em'). exists j'. split; [done|]. congruence.
  - destruct (Hk q j) as (j' & Ej' & Em'); [rewrite Es1; simpl; by rewrite lookup_insert_ne|]. exists j'. split; [done|congruence].
Qed.


Lemma dir_lookup_same v v' e name : v_same v v' -> dir_lookup v' e name = dir_lookup v e name.
Proof.
  intros H. unfold dir_lookup. rewrite (find_ext _ (matches v e name)).
  - destruct (List.find _ _); [|done]. cbn [fmap option_fmap option_map]. by rewrite (dirent_same v v').
  - intros o _. by apply matches_same.
Qed.

Lemma wp_lookup_coherent v refs s p n name :
  tree_ok v -> coherent v refs p s -> found_inode s p n -> inode_number n ->
  ie_type (disk_entry v n) = INODE_DIRECTORY -> readable name 14 ->
  wp (inode_lookup sblock cache stack p name) (fun r s' =>
    r.1 = match dir_lookup v (disk_entry v n) name with Some (m, _) => m | None => 0 end /\
    coherent v refs p s' /\ found_inode s' p n) s.
Proof.
  intros Htree C (i & Ei & En) Hn Hty Hr. destruct (coherent_inode _ _ _ _ _ _ C Ei) as (_ & _ & _ & _ & _ & Ee & _).
  pose proof (co_vol _ _ _ _ C) as Hv. rewrite En in Ee.
  eapply wp_mono; [apply (wp_inode_lookup sblock cache stack s p i name); try done; [apply C|]|].
  { rewrite Ee. eapply dir_ok_same; [exact Hv|]. by apply Htree. }
  intros r s' (-> & Hrc & Hv'). split_and!.
  - rewrite Ee, (dir_lookup_same v (vol s)) by done. by destruct (dir_lookup _ _ _) as [[]|].
  - by eapply coherent_recached.
  - exists i. by rewrite (recached_heap _ _ _ _ Hrc).
Qed.

Lemma wp_get_zero (Q : Z -> FsState S -> Prop) s : Q NULL s -> wp (inode_get sblock cache 0) Q s.
Proof. intros H. unfold inode_get. by apply wp_ret. Qed.

(** The result of [namex]: a new reference to the target, or none. *)
Definition arrived (v : Volume) (refs0 : Z -> Z) (goal : option Z) (r : Z * list Z) (s : FsState S) : Prop :=
  match goal with
  | None => r.1 = NULL /\ coherent v refs0 0 s
  | Some m => r.1 <> NULL /\ coherent v (bump r.1 1 refs0) 0 s /\ found_inode s r.1 m
  end.

(** The path does not lead on: the reference to the directory is dropped. *)
Lemma wp_leave_none v refs0 s ctx p n name :
  coherent v (bump p 1 refs0) p s -> found_inode s p n -> (forall q, 0 <= refs0 q < 2 ^ 62) ->
  ie_num_links (disk_entry v n) <> 0 ->
  wp (inode_unlock (S := S) p ;; inode_put sblock cache ctx p ;; mret (NULL, name)) (arrived v refs0 None) s.
Proof.
  intros C Hf Hr Hl. apply wp_seq.
  eapply wp_mono; [eapply (wp_leave v (bump p 1 refs0) s ctx p n); try done|].
  { unfold bump. rewrite Z.eqb_refl. specialize (Hr p). lia. }
  intros [] s' (C' & _). apply wp_ret. split; [done|]. eapply coherent_ext; [|exact C']. intros q. by rewrite bump_bump.
Qed.
(** No element is left. *)
Lemma wp_namex_end v refs0 path (parent : bool) name ctx ans n s :
  elements path = [] -> coherent v (bump ans 1 refs0) 0 s -> found_inode s ans n -> ie_num_links (disk_entry v n) <> 0 ->
  (forall p, 0 <= refs0 p < 2 ^ 62) ->
  wp (if parent then inode_put sblock cache ctx ans ;; mret (NULL, name) else mret (ans, name)) (fun r s' =>
    arrived v refs0 (target v n parent (elements path)) r s' /\
    (parent = true -> r.1 <> NULL -> exists e, last (elements path) = Some e /\ holds_name e r.2)) s.
Proof.
  intros -> C Hf Hl Hr. pose proof Hf as (i & Ei & En). destruct (coherent_inode _ _ _ _ _ _ C Ei) as (Hpos & _).
  destruct parent.
  - apply wp_bind. eapply wp_mono; [apply (wp_put_coherent v (bump ans 1 refs0) s ctx ans i); try done|].
    + unfold bump. rewrite Z.eqb_refl. specialize (Hr ans). lia.
    + by rewrite En.
    + intros [] s' (C' & _). apply wp_ret. split; [|intros _ ?; done]. split; [done|].
      eapply coherent_ext; [|exact C']. intros q. by rewrite bump_bump.
  - apply wp_ret. split; [|done]. split; [cbn; unfold NULL; lia|]. by split.
Qed.

Lemma target_last v n e :
  ie_type (disk_entry v n) = INODE_DIRECTORY -> target v n true [e] = Some n.
Proof. intros Ht. unfold target. cbn [removelast resolve mbind option_bind]. by rewrite Ht. Qed.

Lemma wp_namex_loop v refs0 fuel path parent name ctx ans n s :
  tree_ok v -> coherent v (bump ans 1 refs0) 0 s -> found_inode s ans n -> ie_num_links (disk_entry v n) <> 0 ->
  (forall p, 0 <= refs0 p < 2 ^ 62) -> length name = 14%nat -> Forall (fun c => c <> 0) path -> (length path <= fuel)%nat ->
  wp (namex_loop sblock cache stack fuel path parent name ctx ans) (fun r s' =>
    arrived v refs0 (target v n parent (elements path)) r s' /\
    (parent = true -> r.1 <> NULL -> exists e, last (elements path) = Some e /\ holds_name e r.2)) s.
Proof.
  intros Htree. revert path name ans n s.
  induction fuel as [|fuel IH]; intros path name ans n s C Hf Hl Hr Hname Hz Hfuel; cbn [namex_loop];
    pose proof (skipelem_elements path name Hname Hz) as Hsk; destruct (skipelem path name) as [[rest name']|] eqn:Esk.
  { destruct Hsk as (e & _ & _ & Hlt & _). lia. }
  1, 3: by apply wp_namex_end.
  destruct Hsk as (e & Hel & Hname' & Hlt & Hzr & Hnil). rewrite Hel.
  destruct Hf as (i & Ei & En). destruct (coherent_inode _ _ _ _ _ _ C Ei) as (Hpos & Hn & _ & Erc & _ & _ & _).
  assert (0 < bump ans 1 refs0 ans) as Hra by (unfold bump; rewrite Z.eqb_refl; specialize (Hr ans); lia).
  apply wp_bind. eapply wp_mono; [by eapply wp_lock_coherent|]. intros [] s1 (C1 & i1 & Ei1 & En1).
  assert (found_inode s1 ans n) as Hf1 by (exists i1; split; congruence).
  destruct (coherent_inode _ _ _ _ _ _ C1 Ei1) as (_ & _ & _ & _ & _ & Ee1 & _).
  apply wp_bind. eapply wp_inode_at; [exact Ei1|]. rewrite Ee1, En1, En. rewrite En in Hn.
  destruct (Z.eqb_spec (ie_type (disk_entry v n)) INODE_DIRECTORY) as [Hty|Hty]; cbn [negb].
  2: { rewrite target_not_dir by done. eapply wp_mono; [by eapply wp_leave_none|]. intros r s' Ha. split; [done|].
       destruct Ha. intros _ ?. done. }
  destruct (parent && bool_decide (rest = [])) eqn:Elast.
  { apply andb_true_iff in Elast as [-> Hrest]. apply bool_decide_eq_true in Hrest as ->.
    change (elements []) with (@nil (list Z)). rewrite target_last by done.
    apply wp_bind. eapply wp_mono; [by eapply wp_unlock_coherent|]. intros [] s2 (C2 & i2 & Ei2 & En2).
    apply wp_ret. split; [|intros _ _; by exists e]. split; [cbn; unfold NULL; lia|]. split; [done|]. exists i2. split; [done|]. congruence. }
  assert (parent = true -> elements rest <> []) as Hrest.
  { intros ->. cbn in Elast. apply bool_decide_eq_false in Elast. by rewrite <- Hnil. }
  apply wp_bind. eapply wp_mono; [eapply (wp_lookup_coherent v (bump ans 1 refs0) s1 ans n name'); try done; by eapply holds_name_readable|].
  intros fd s2 (Hfd & C2 & Hf2). rewrite Hfd. rewrite (dir_lookup_name _ _ name' e) by apply Hname'.
  apply wp_bind. destruct (dir_lookup v (disk_entry v n) e) as [[m o]|] eqn:Edl.
  - destruct (Htree n Hn Hty) as [_ Hm]. destruct (Hm e m o Edl) as (Hmn & Hml & Hmt).
    eapply wp_mono; [eapply (wp_get_coherent v (bump ans 1 refs0) ans s2 m); try done|].
    { destruct Hf2 as (j & Ej & _). pose proof (rg_next _ (co_ring _ _ _ _ C2) ans (mk_is_Some _ _ Ej)). lia. }
    { intros p. unfold bump. specialize (Hr p). destruct (p =? ans); lia. }
    intros q s3 (Hq & C3 & _ & Hfq & Hk). rewrite (proj2 (Z.eqb_neq q NULL)) by (unfold NULL; lia).
    assert (found_inode s3 ans n) as Hf3.
    { destruct Hf2 as (j & Ej & Ejn). destruct (Hk ans j Ej) as (j' & ? & ?). exists j'. split; [done|congruence]. }
    apply wp_seq. eapply wp_mono; [eapply (wp_leave v (bump q 1 (bump ans 1 refs0)) s3 ctx ans n); try done|].
    { unfold bump. rewrite Z.eqb_refl. pose proof (Hr ans). destruct (ans =? q); lia. }
    intros [] s4 (C4 & Hk4). rewrite (target_step v n parent e (elements rest) m o) by done.
    eapply wp_mono; [apply (IH rest name' q m s4); try done|].
    + eapply coherent_ext; [|exact C4]. intros p. apply bump_swap.
    + by apply Hk4.
    + apply Hname'.
    + lia.
    + intros r s' [Ha Hb]. split; [done|]. intros Hp Hr1. destruct (Hb Hp Hr1) as (e' & He' & Hh). exists e'. split; [|done].
      rewrite <- He'. destruct (elements rest); [by destruct Hrest|done].
  - apply wp_get_zero. cbn [Z.eqb]. rewrite target_none by done. eapply wp_mono; [by eapply wp_leave_none|].
    intros r s' Ha. split; [done|]. destruct Ha. intros _ ?. done.
Qed.

Lemma wp_share_coherent v refs s p n :
  coherent v refs 0 s -> found_inode s p n -> 0 <= refs p < 2 ^ 63 - 1 ->
  wp (inode_share (S := S) p) (fun q s' => q = p /\ coherent v (bump p 1 refs) 0 s' /\ found_inode s' p n) s.
Proof.
  intros C (i & Ei & En) Hr. destruct (coherent_inode _ _ _ _ _ _ C Ei) as (Hp & _ & El & Erc & Ev & Ee & _).
  unfold inode_share. apply wp_bind. eapply wp_update_inode; [exact Ei|]. apply wp_ret.
  rewrite increment_rc_small by (by rewrite Erc). split_and!; [done| |].
  - eapply coherent_update; [exact C|exact Ei|done| | | |done].
    + unfold set_rc, bump. rewrite Z.eqb_refl, El, Erc, Ev, Ee. done.
    + unfold bump. rewrite Z.eqb_refl. lia.
    + intros q Hq. unfold bump. by rewrite (proj2 (Z.eqb_neq q p)).
  - eexists. simpl. by rewrite lookup_insert_eq.
Qed.

Lemma wp_namex v refs s path parent name ctx nc :
  tree_ok v -> coherent v refs 0 s -> inode_number ROOT_INODE_NO -> ie_num_links (disk_entry v ROOT_INODE_NO) <> 0 -> ie_type (disk_entry v ROOT_INODE_NO) <> INODE_INVALID ->
  found_inode s (f_cwd s) nc -> ie_num_links (disk_entry v nc) <> 0 -> (forall p, 0 <= refs p < 2 ^ 62) ->
  length name = 14%nat -> Forall (fun c => c <> 0) path ->
  let start := if bool_decide (head path = Some SLASH) then ROOT_INODE_NO else nc in
  wp (namex sblock cache stack path parent name ctx) (fun r s' =>
    match target v start parent (elements path) with
    | None => r.1 = NULL /\ coherent v refs 0 s'
    | Some m => coherent v (bump r.1 1 refs) 0 s' /\ found_inode s' r.1 m /\
        (parent = true -> exists e, last (elements path) = Some e /\ holds_name e r.2)
    end) s.
Proof.
  intros Htree C Hroot Hrl Hrt Hcwd Hcl Hr Hname Hz start.
  enough (wp (namex sblock cache stack path parent name ctx) (fun r s' =>
    arrived v refs (target v start parent (elements path)) r s' /\
    (parent = true -> r.1 <> NULL -> exists e, last (elements path) = Some e /\ holds_name e r.2)) s) as H.
  { eapply wp_mono; [exact H|]. intros r s' [Ha Hb]. unfold arrived in Ha.
    destruct (target v start parent (elements path)); [|done]. destruct Ha as (Hn & ? & ?). split_and!; [done|done|]. auto. }
  unfold namex. apply wp_bind.
  assert (forall ans s', coherent v (bump ans 1 refs) 0 s' -> found_inode s' ans start ->
    wp (namex_loop sblock cache stack (length path) path parent name ctx ans) (fun r s' =>
      arrived v refs (target v start parent (elements path)) r s' /\
      (parent = true -> r.1 <> NULL -> exists e, last (elements path) = Some e /\ holds_name e r.2)) s') as Hloop.
  { intros ans s' C' Hf. apply wp_namex_loop; try done. subst start. by destruct (bool_decide _). }
  assert (start = nc -> wp (s0 ← get_state; inode_share (S := S) (f_cwd s0)) (fun ans s' =>
    coherent v (bump ans 1 refs) 0 s' /\ found_inode s' ans start) s) as Hshare.
  { intros ->. apply wp_bind, wp_get_state. eapply wp_mono; [apply (wp_share_coherent v refs s _ nc); try done|].
    - specialize (Hr (f_cwd s)). lia.
    - intros q s' (-> & ? & ?). done. }
  destruct path as [|c path]; [eapply wp_mono; [by apply Hshare|]; intros ans s' [? ?]; by apply Hloop|].
  cbn [head] in start. destruct (Z.eqb_spec c SLASH) as [->|Hc].
  - eapply wp_mono; [apply (wp_get_coherent v refs 0 s ROOT_INODE_NO); try done|].
    + pose proof (rg_pos _ (co_ring _ _ _ _ C)). lia.
    + intros p. specialize (Hr p). lia.
    + intros ans s' (_ & C' & _ & Hf & _). by apply Hloop.
  - eapply wp_mono; [apply Hshare|intros ans s' [? ?]; by apply Hloop].
    subst start. rewrite bool_decide_eq_false_2; [done|]. congruence.
Qed.

(** C11: [namex] resolves a path: with the tree on disk well-formed, from the
    root for a path that begins with a slash and else from the current
    directory, it returns (with one new reference) the inode the elements of
    the path lead to, or NULL when an element is missing or not a directory.
    As [nameiparent] it stops at the directory of the last element and leaves
    that element in [name]. Every reference taken on the way is given back,
    no inode stays locked, and the call always ends. *)
Theorem namex_resolves v refs s path parent name ctx nc :
  tree_ok v -> coherent v refs 0 s -> inode_number ROOT_INODE_NO -> ie_num_links (disk_entry v ROOT_INODE_NO) <> 0 -> ie_type (disk_entry v ROOT_INODE_NO) <> INODE_INVALID ->
  found_inode s (f_cwd s) nc -> ie_num_links (disk_entry v nc) <> 0 -> (forall p, 0 <= refs p < 2 ^ 62) ->
  length name = 14%nat -> Forall (fun c => c <> 0) path ->
  let start := if bool_decide (head path = Some SLASH) then ROOT_INODE_NO else nc in
  wp (namex sblock cache stack path parent name ctx) (fun r s' =>
    match target v start parent (elements path) with
    | None => r.1 = NULL /\ coherent v refs 0 s'
    | Some m => coherent v (bump r.1 1 refs) 0 s' /\ found_inode s' r.1 m /\
        (parent = true -> exists e, last (elements path) = Some e /\ holds_name e r.2)
    end) s.
Proof. apply wp_namex. Qed.
End resolve.

(** C31: [skipelem] splits a path as the reference definition [elements] does:
    it returns NULL exactly when no element is left, else it puts the first
    element into [name] (cut to fourteen bytes, NUL-terminated when shorter)
    and returns a strictly shorter rest that holds the other elements. *)
Theorem skipelem_spec path name :
  length name = 14%nat -> Forall (fun c => c <> 0) path ->
  match skipelem path name with
  | None => elements path = []
  | Some (rest, name') => exists e, elements path = e :: elements rest /\ holds_name e name' /\
      (length rest < length path)%nat
  end.
Proof.
  intros Hn Hz. pose proof (skipelem_elements path name Hn Hz) as H. destruct (skipelem path name) as [[rest name']|]; [|done].
  destruct H as (e & ? & ? & ? & _). by exists e.
Qed.

(** ** Concrete instances *)

Lemma skipelem_spec_witness :
  exists e, elements [47; 97; 47; 47; 98] = e :: elements [98] /\ holds_name e (97 :: 0 :: replicate 12 7) /\ (1 < 5)%nat.
Proof. apply (skipelem_spec [47; 97; 47; 47; 98] (replicate 14 7)); [reflexivity|]. repeat constructor; lia. Defined.

Definition example_refs (p : Z) : Z := if p =? 1 then 1 else 0.
Definition example_cwd_fs : FsState CacheState :=
  mkFs example_used_cache false [1] {[1 := example_used_inode]} 2 0 1 (f_console example_fs).

Lemma example_dirs n : inode_number example_sb n ->
  ie_type (disk_entry example_sb (volume example_used_cache) n) = INODE_DIRECTORY -> n = 1.
Proof.
  intros Hn. unfold inode_number in Hn. change (sb_num_inodes example_sb) with 200 in Hn.
  assert (forallb (fun k => let n := Z.of_nat k in (n =? 1) ||
    negb (ie_type (disk_entry example_sb (volume example_used_cache) n) =? INODE_DIRECTORY)) (seq 0 200) = true) as H
    by (vm_compute; reflexivity).
  rewrite forallb_forall in H. specialize (H (Z.to_nat n)). rewrite in_seq, Z2Nat.id in H by lia. specialize (H ltac:(lia)).
  intros Ht. apply orb_true_iff in H as [H|H]; [by apply Z.eqb_eq|]. rewrite Ht in H. done.
Qed.

Lemma example_used_read : disk_entry example_sb (volume example_used_cache) 1 = example_used_entry.
Proof. vm_compute. reflexivity. Qed.

Lemma example_tree : tree_ok example_sb (bcache example_sb) (volume example_used_cache).
Proof.
  intros n Hn Ht. apply (example_dirs n Hn) in Ht as ->. rewrite example_used_read. split; [apply example_used_ok|].
  intros name m o H. unfold dir_lookup in H. change (offsets 0 _) with [0] in H. cbn [List.find] in H.
  destruct (matches _ _ _ 0); [|done]. cbn [fmap option_fmap option_map] in H.
  assert (de_inode_no (dirent (volume example_used_cache) example_used_entry 0) = 2) as E by (vm_compute; reflexivity).
  rewrite E in H. assert (m = 2) as -> by congruence.
  split; [unfold inode_number; simpl; lia|]. vm_compute. split; discriminate.
Qed.

Lemma example_heap p i : f_heap example_cwd_fs !! p = Some i -> p = 1 /\ i = example_used_inode.
Proof.
  change (f_heap example_cwd_fs) with ({[1 := example_used_inode]} : gmap Z Inode).
  intros [<- <-]%lookup_singleton_Some. done.
Qed.

Lemma example_coherent : coherent example_sb (bcache example_sb) (volume example_used_cache) example_refs 0 example_cwd_fs.
Proof.
  split; try done.
  - split; try done.
    + intros p [->|[]%elem_of_nil]%elem_of_cons. eexists. reflexivity.
    + intros p [i Hi]. apply example_heap in Hi as [-> _]. simpl. lia.
    + intros p q i j [->|[]%elem_of_nil]%elem_of_cons [->|[]%elem_of_nil]%elem_of_cons _ _ _. done.
    + intros p i Hi. apply example_heap in Hi as [-> ->]. simpl. lia.
  - apply example_used_cache_ok.
  - intros p i Hi. apply example_heap in Hi as [-> ->]. split; [by apply elem_of_cons; left|]. split.
    + unfold inode_number. simpl. lia.
    + change (i_inode_no example_used_inode) with 1. rewrite example_used_read. reflexivity.
  - intros p Hp. unfold example_refs in Hp. destruct (Z.eqb_spec p 1) as [Hp1|]; [|done]. rewrite Hp1. eexists. reflexivity.
  - intros p i Hi. apply example_heap in Hi as [-> ->]. change (i_inode_no example_used_inode) with 1. rewrite example_used_read. discriminate.
Qed.

(** [/a] is inode 2. *)
Lemma namex_resolves_witness :
  wp (namex example_sb (bcache example_sb) example_stack [47; 97] false (replicate 14 0) 7) (fun r s' =>
    match target example_sb (volume example_used_cache) ROOT_INODE_NO false (elements [47; 97]) with
    | None => r.1 = NULL /\ coherent example_sb (bcache example_sb) (volume example_used_cache) example_refs 0 s'
    | Some m => coherent example_sb (bcache example_sb) (volume example_used_cache) (bump r.1 1 example_refs) 0 s' /\
        found_inode s' r.1 m /\ (false = true -> exists e, last (elements [47; 97]) = Some e /\ holds_name e r.2)
    end) example_cwd_fs /\
  target example_sb (volume example_used_cache) ROOT_INODE_NO false (elements [47; 97]) = Some 2.
Proof.
  split; [|vm_compute; reflexivity].
  apply (namex_resolves example_sb (bcache example_sb) example_stack example_layout ltac:(reflexivity)
    (volume example_used_cache) example_refs example_cwd_fs [47; 97] false (replicate 14 0) 7 1).
  - apply example_tree.
  - apply example_coherent.
  - unfold inode_number. simpl. unfold ROOT_INODE_NO. lia.
  - vm_compute. discriminate.
  - vm_compute. discriminate.
  - exists example_used_inode. split; reflexivity.
  - vm_compute. discriminate.
  - intros p. unfold example_refs. destruct (p =? 1); lia.
  - reflexivity.
  - repeat constructor; lia.
Defined.
