(* ===== verification/KernelPt.v ===== *)
(** The kernel's own page tables (src/aarch64/kernel_pt.c): constant tables of
    block entries of 2 MB each, installed in ttbr1 at boot. The addresses the
    linker gives the tables are variables. *)
From Stdlib Require Import ZArith Lia.
From stdpp Require Import base numbers gmap list.
From S2P Require Import Prelude Mem PageTable.

Declare Scope entry_scope.
Notation "a &~ b" := (Z.land a (Z.lnot b)) (at level 50) : entry_scope.
Notation "a .| b" := (Z.lor a b) (at level 50) : entry_scope.

Definition PTE_BLOCK : Z := 0x1.
Definition PTE_KERNEL : Z := Z.shiftl 0 6.
Definition PTE_DEVICE : Z := Z.lor (Z.shiftl 0 2) (Z.shiftl 1 10).
Definition PTE_KERNEL_DATA : Z := Z.lor (Z.lor PTE_KERNEL PTE_NORMAL) PTE_BLOCK.
Definition PTE_KERNEL_DEVICE : Z := Z.lor (Z.lor PTE_KERNEL PTE_DEVICE) PTE_BLOCK.

(** An array initialiser fills the rest with zeros. *)
Definition table (l : list Z) : list Z := l ++ replicate (Z.to_nat N_PTE_PER_TABLE - length l) 0.

Section tables.
Local Open Scope entry_scope.

Definition _kernel_pt_lv2_dev : list Z := table
  [0x0 &~ PTE_VALID;
   0x200000 &~ PTE_VALID;
   0x400000 &~ PTE_VALID;
   0x600000 &~ PTE_VALID;
   0x800000 &~ PTE_VALID;
   0xa00000 &~ PTE_VALID;
   0xc00000 &~ PTE_VALID;
   0xe00000 &~ PTE_VALID;
   0x1000000 &~ PTE_VALID;
   0x1200000 &~ PTE_VALID;
   0x1400000 &~ PTE_VALID;
   0x1600000 &~ PTE_VALID;
   0x1800000 &~ PTE_VALID;
   0x1a00000 &~ PTE_VALID;
   0x1c00000 &~ PTE_VALID;
   0x1e00000 &~ PTE_VALID;
   0x2000000 &~ PTE_VALID;
   0x2200000 &~ PTE_VALID;
   0x2400000 &~ PTE_VALID;
   0x2600000 &~ PTE_VALID;
   0x2800000 &~ PTE_VALID;
   0x2a00000 &~ PTE_VALID;
   0x2c00000 &~ PTE_VALID;
   0x2e00000 &~ PTE_VALID;
   0x3000000 &~ PTE_VALID;
   0x3200000 &~ PTE_VALID;
   0x3400000 &~ PTE_VALID;
   0x3600000 &~ PTE_VALID;
   0x3800000 &~ PTE_VALID;
   0x3a00000 &~ PTE_VALID;
   0x3c00000 &~ PTE_VALID;
   0x3e00000 &~ PTE_VALID;
   0x4000000 &~ PTE_VALID;
   0x4200000 &~ PTE_VALID;
   0x4400000 &~ PTE_VALID;
   0x4600000 &~ PTE_VALID;
   0x4800000 &~ PTE_VALID;
   0x4a00000 &~ PTE_VALID;
   0x4c00000 &~ PTE_VALID;
   0x4e00000 &~ PTE_VALID;
   0x5000000 &~ PTE_VALID;
   0x5200000 &~ PTE_VALID;
   0x5400000 &~ PTE_VALID;
   0x5600000 &~ PTE_VALID;
   0x5800000 &~ PTE_VALID;
   0x5a00000 &~ PTE_VALID;
   0x5c00000 &~ PTE_VALID;
   0x5e00000 &~ PTE_VALID;
   0x6000000 &~ PTE_VALID;
   0x6200000 &~ PTE_VALID;
   0x6400000 &~ PTE_VALID;
   0x6600000 &~ PTE_VALID;
   0x6800000 &~ PTE_VALID;
   0x6a00000 &~ PTE_VALID;
   0x6c00000 &~ PTE_VALID;
   0x6e00000 &~ PTE_VALID;
   0x7000000 &~ PTE_VALID;
   0x7200000 &~ PTE_VALID;
   0x7400000 &~ PTE_VALID;
   0x7600000 &~ PTE_VALID;
   0x7800000 &~ PTE_VALID;
   0x7a00000 &~ PTE_VALID;
   0x7c00000 &~ PTE_VALID;
   0x7e00000 &~ PTE_VALID;
   0x8000000 .| PTE_KERNEL_DEVICE;
   0x8200000 .| PTE_KERNEL_DEVICE;
   0x8400000 .| PTE_KERNEL_DEVICE;
   0x8600000 .| PTE_KERNEL_DEVICE;
   0x8800000 .| PTE_KERNEL_DEVICE;
   0x8a00000 .| PTE_KERNEL_DEVICE;
   0x8c00000 .| PTE_KERNEL_DEVICE;
   0x8e00000 .| PTE_KERNEL_DEVICE;
   0x9000000 .| PTE_KERNEL_DEVICE;
   0x9200000 .| PTE_KERNEL_DEVICE;
   0x9400000 .| PTE_KERNEL_DEVICE;
   0x9600000 .| PTE_KERNEL_DEVICE;
   0x9800000 .| PTE_KERNEL_DEVICE;
   0x9a00000 .| PTE_KERNEL_DEVICE;
   0x9c00000 .| PTE_KERNEL_DEVICE;
   0x9e00000 .| PTE_KERNEL_DEVICE;
   0xa000000 .| PTE_KERNEL_DEVICE;
   0xa200000 .| PTE_KERNEL_DEVICE;
   0xa400000 .| PTE_KERNEL_DEVICE;
   0xa600000 .| PTE_KERNEL_DEVICE;
   0xa800000 .| PTE_KERNEL_DEVICE;
   0xaa00000 .| PTE_KERNEL_DEVICE;
   0xac00000 .| PTE_KERNEL_DEVICE;
   0xae00000 .| PTE_KERNEL_DEVICE].

(** [_kernel_pt_lv2_ram], up to 0x60000000 and from there. *)
Definition ram_low : list Z :=
  [0x40000000 .| PTE_KERNEL_DATA; 0x40200000 .| PTE_KERNEL_DATA;
   0x40400000 .| PTE_KERNEL_DATA; 0x40600000 .| PTE_KERNEL_DATA;
   0x40800000 .| PTE_KERNEL_DATA; 0x40a00000 .| PTE_KERNEL_DATA;
   0x40c00000 .| PTE_KERNEL_DATA; 0x40e00000 .| PTE_KERNEL_DATA;
   0x41000000 .| PTE_KERNEL_DATA; 0x41200000 .| PTE_KERNEL_DATA;
   0x41400000 .| PTE_KERNEL_DATA; 0x41600000 .| PTE_KERNEL_DATA;
   0x41800000 .| PTE_KERNEL_DATA; 0x41a00000 .| PTE_KERNEL_DATA;
   0x41c00000 .| PTE_KERNEL_DATA; 0x41e00000 .| PTE_KERNEL_DATA;
   0x42000000 .| PTE_KERNEL_DATA; 0x42200000 .| PTE_KERNEL_DATA;
   0x42400000 .| PTE_KERNEL_DATA; 0x42600000 .| PTE_KERNEL_DATA;
   0x42800000 .| PTE_KERNEL_DATA; 0x42a00000 .| PTE_KERNEL_DATA;
   0x42c00000 .| PTE_KERNEL_DATA; 0x42e00000 .| PTE_KERNEL_DATA;
   0x43000000 .| PTE_KERNEL_DATA; 0x43200000 .| PTE_KERNEL_DATA;
   0x43400000 .| PTE_KERNEL_DATA; 0x43600000 .| PTE_KERNEL_DATA;
   0x43800000 .| PTE_KERNEL_DATA; 0x43a00000 .| PTE_KERNEL_DATA;
   0x43c00000 .| PTE_KERNEL_DATA; 0x43e00000 .| PTE_KERNEL_DATA;
   0x44000000 .| PTE_KERNEL_DATA; 0x44200000 .| PTE_KERNEL_DATA;
   0x44400000 .| PTE_KERNEL_DATA; 0x44600000 .| PTE_KERNEL_DATA;
   0x44800000 .| PTE_KERNEL_DATA; 0x44a00000 .| PTE_KERNEL_DATA;
   0x44c00000 .| PTE_KERNEL_DATA; 0x44e00000 .| PTE_KERNEL_DATA;
   0x45000000 .| PTE_KERNEL_DATA; 0x45200000 .| PTE_KERNEL_DATA;
   0x45400000 .| PTE_KERNEL_DATA; 0x45600000 .| PTE_KERNEL_DATA;
   0x45800000 .| PTE_KERNEL_DATA; 0x45a00000 .| PTE_KERNEL_DATA;
   0x45c00000 .| PTE_KERNEL_DATA; 0x45e00000 .| PTE_KERNEL_DATA;
   0x46000000 .| PTE_KERNEL_DATA; 0x46200000 .| PTE_KERNEL_DATA;
   0x46400000 .| PTE_KERNEL_DATA; 0x46600000 .| PTE_KERNEL_DATA;
   0x46800000 .| PTE_KERNEL_DATA; 0x46a00000 .| PTE_KERNEL_DATA;
   0x46c00000 .| PTE_KERNEL_DATA; 0x46e00000 .| PTE_KERNEL_DATA;
   0x47000000 .| PTE_KERNEL_DATA; 0x47200000 .| PTE_KERNEL_DATA;
   0x47400000 .| PTE_KERNEL_DATA; 0x47600000 .| PTE_KERNEL_DATA;
   0x47800000 .| PTE_KERNEL_DATA; 0x47a00000 .| PTE_KERNEL_DATA;
   0x47c00000 .| PTE_KERNEL_DATA; 0x47e00000 .| PTE_KERNEL_DATA;
   0x48000000 .| PTE_KERNEL_DATA; 0x48200000 .| PTE_KERNEL_DATA;
   0x48400000 .| PTE_KERNEL_DATA; 0x48600000 .| PTE_KERNEL_DATA;
   0x48800000 .| PTE_KERNEL_DATA; 0x48a00000 .| PTE_KERNEL_DATA;
   0x48c00000 .| PTE_KERNEL_DATA; 0x48e00000 .| PTE_KERNEL_DATA;
   0x49000000 .| PTE_KERNEL_DATA; 0x49200000 .| PTE_KERNEL_DATA;
   0x49400000 .| PTE_KERNEL_DATA; 0x49600000 .| PTE_KERNEL_DATA;
   0x49800000 .| PTE_KERNEL_DATA; 0x49a00000 .| PTE_KERNEL_DATA;
   0x49c00000 .| PTE_KERNEL_DATA; 0x49e00000 .| PTE_KERNEL_DATA;
   0x4a000000 .| PTE_KERNEL_DATA; 0x4a200000 .| PTE_KERNEL_DATA;
   0x4a400000 .| PTE_KERNEL_DATA; 0x4a600000 .| PTE_KERNEL_DATA;
   0x4a800000 .| PTE_KERNEL_DATA; 0x4aa00000 .| PTE_KERNEL_DATA;
   0x4ac00000 .| PTE_KERNEL_DATA; 0x4ae00000 .| PTE_KERNEL_DATA;
   0x4b000000 .| PTE_KERNEL_DATA; 0x4b200000 .| PTE_KERNEL_DATA;
   0x4b400000 .| PTE_KERNEL_DATA; 0x4b600000 .| PTE_KERNEL_DATA;
   0x4b800000 .| PTE_KERNEL_DATA; 0x4ba00000 .| PTE_KERNEL_DATA;
   0x4bc00000 .| PTE_KERNEL_DATA; 0x4be00000 .| PTE_KERNEL_DATA;
   0x4c000000 .| PTE_KERNEL_DATA; 0x4c200000 .| PTE_KERNEL_DATA;
   0x4c400000 .| PTE_KERNEL_DATA; 0x4c600000 .| PTE_KERNEL_DATA;
   0x4c800000 .| PTE_KERNEL_DATA; 0x4ca00000 .| PTE_KERNEL_DATA;
   0x4cc00000 .| PTE_KERNEL_DATA; 0x4ce00000 .| PTE_KERNEL_DATA;
   0x4d000000 .| PTE_KERNEL_DATA; 0x4d200000 .| PTE_KERNEL_DATA;
   0x4d400000 .| PTE_KERNEL_DATA; 0x4d600000 .| PTE_KERNEL_DATA;
   0x4d800000 .| PTE_KERNEL_DATA; 0x4da00000 .| PTE_KERNEL_DATA;
   0x4dc00000 .| PTE_KERNEL_DATA; 0x4de00000 .| PTE_KERNEL_DATA;
   0x4e000000 .| PTE_KERNEL_DATA; 0x4e200000 .| PTE_KERNEL_DATA;
   0x4e400000 .| PTE_KERNEL_DATA; 0x4e600000 .| PTE_KERNEL_DATA;
   0x4e800000 .| PTE_KERNEL_DATA; 0x4ea00000 .| PTE_KERNEL_DATA;
   0x4ec00000 .| PTE_KERNEL_DATA; 0x4ee00000 .| PTE_KERNEL_DATA;
   0x4f000000 .| PTE_KERNEL_DATA; 0x4f200000 .| PTE_KERNEL_DATA;
   0x4f400000 .| PTE_KERNEL_DATA; 0x4f600000 .| PTE_KERNEL_DATA;
   0x4f800000 .| PTE_KERNEL_DATA; 0x4fa00000 .| PTE_KERNEL_DATA;
   0x4fc00000 .| PTE_KERNEL_DATA; 0x4fe00000 .| PTE_KERNEL_DATA;
   0x50000000 .| PTE_KERNEL_DATA; 0x50200000 .| PTE_KERNEL_DATA;
   0x50400000 .| PTE_KERNEL_DATA; 0x50600000 .| PTE_KERNEL_DATA;
   0x50800000 .| PTE_KERNEL_DATA; 0x50a00000 .| PTE_KERNEL_DATA;
   0x50c00000 .| PTE_KERNEL_DATA; 0x50e00000 .| PTE_KERNEL_DATA;
   0x51000000 .| PTE_KERNEL_DATA; 0x51200000 .| PTE_KERNEL_DATA;
   0x51400000 .| PTE_KERNEL_DATA; 0x51600000 .| PTE_KERNEL_DATA;
   0x51800000 .| PTE_KERNEL_DATA; 0x51a00000 .| PTE_KERNEL_DATA;
   0x51c00000 .| PTE_KERNEL_DATA; 0x51e00000 .| PTE_KERNEL_DATA;
   0x52000000 .| PTE_KERNEL_DATA; 0x52200000 .| PTE_KERNEL_DATA;
   0x52400000 .| PTE_KERNEL_DATA; 0x52600000 .| PTE_KERNEL_DATA;
   0x52800000 .| PTE_KERNEL_DATA; 0x52a00000 .| PTE_KERNEL_DATA;
   0x52c00000 .| PTE_KERNEL_DATA; 0x52e00000 .| PTE_KERNEL_DATA;
   0x53000000 .| PTE_KERNEL_DATA; 0x53200000 .| PTE_KERNEL_DATA;
   0x53400000 .| PTE_KERNEL_DATA; 0x53600000 .| PTE_KERNEL_DATA;
   0x53800000 .| PTE_KERNEL_DATA; 0x53a00000 .| PTE_KERNEL_DATA;
   0x53c00000 .| PTE_KERNEL_DATA; 0x53e00000 .| PTE_KERNEL_DATA;
   0x54000000 .| PTE_KERNEL_DATA; 0x54200000 .| PTE_KERNEL_DATA;
   0x54400000 .| PTE_KERNEL_DATA; 0x54600000 .| PTE_KERNEL_DATA;
   0x54800000 .| PTE_KERNEL_DATA; 0x54a00000 .| PTE_KERNEL_DATA;
   0x54c00000 .| PTE_KERNEL_DATA; 0x54e00000 .| PTE_KERNEL_DATA;
   0x55000000 .| PTE_KERNEL_DATA; 0x55200000 .| PTE_KERNEL_DATA;
   0x55400000 .| PTE_KERNEL_DATA; 0x55600000 .| PTE_KERNEL_DATA;
   0x55800000 .| PTE_KERNEL_DATA; 0x55a00000 .| PTE_KERNEL_DATA;
   0x55c00000 .| PTE_KERNEL_DATA; 0x55e00000 .| PTE_KERNEL_DATA;
   0x56000000 .| PTE_KERNEL_DATA; 0x56200000 .| PTE_KERNEL_DATA;
   0x56400000 .| PTE_KERNEL_DATA; 0x56600000 .| PTE_KERNEL_DATA;
   0x56800000 .| PTE_KERNEL_DATA; 0x56a00000 .| PTE_KERNEL_DATA;
   0x56c00000 .| PTE_KERNEL_DATA; 0x56e00000 .| PTE_KERNEL_DATA;
   0x57000000 .| PTE_KERNEL_DATA; 0x57200000 .| PTE_KERNEL_DATA;
   0x57400000 .| PTE_KERNEL_DATA; 0x57600000 .| PTE_KERNEL_DATA;
   0x57800000 .| PTE_KERNEL_DATA; 0x57a00000 .| PTE_KERNEL_DATA;
   0x57c00000 .| PTE_KERNEL_DATA; 0x57e00000 .| PTE_KERNEL_DATA;
   0x58000000 .| PTE_KERNEL_DATA; 0x58200000 .| PTE_KERNEL_DATA;
   0x58400000 .| PTE_KERNEL_DATA; 0x58600000 .| PTE_KERNEL_DATA;
   0x58800000 .| PTE_KERNEL_DATA; 0x58a00000 .| PTE_KERNEL_DATA;
   0x58c00000 .| PTE_KERNEL_DATA; 0x58e00000 .| PTE_KERNEL_DATA;
   0x59000000 .| PTE_KERNEL_DATA; 0x59200000 .| PTE_KERNEL_DATA;
   0x59400000 .| PTE_KERNEL_DATA; 0x59600000 .| PTE_KERNEL_DATA;
   0x59800000 .| PTE_KERNEL_DATA; 0x59a00000 .| PTE_KERNEL_DATA;
   0x59c00000 .| PTE_KERNEL_DATA; 0x59e00000 .| PTE_KERNEL_DATA;
   0x5a000000 .| PTE_KERNEL_DATA; 0x5a200000 .| PTE_KERNEL_DATA;
   0x5a400000 .| PTE_KERNEL_DATA; 0x5a600000 .| PTE_KERNEL_DATA;
   0x5a800000 .| PTE_KERNEL_DATA; 0x5aa00000 .| PTE_KERNEL_DATA;
   0x5ac00000 .| PTE_KERNEL_DATA; 0x5ae00000 .| PTE_KERNEL_DATA;
   0x5b000000 .| PTE_KERNEL_DATA; 0x5b200000 .| PTE_KERNEL_DATA;
   0x5b400000 .| PTE_KERNEL_DATA; 0x5b600000 .| PTE_KERNEL_DATA;
   0x5b800000 .| PTE_KERNEL_DATA; 0x5ba00000 .| PTE_KERNEL_DATA;
   0x5bc00000 .| PTE_KERNEL_DATA; 0x5be00000 .| PTE_KERNEL_DATA;
   0x5c000000 .| PTE_KERNEL_DATA; 0x5c200000 .| PTE_KERNEL_DATA;
   0x5c400000 .| PTE_KERNEL_DATA; 0x5c600000 .| PTE_KERNEL_DATA;
   0x5c800000 .| PTE_KERNEL_DATA; 0x5ca00000 .| PTE_KERNEL_DATA;
   0x5cc00000 .| PTE_KERNEL_DATA; 0x5ce00000 .| PTE_KERNEL_DATA;
   0x5d000000 .| PTE_KERNEL_DATA; 0x5d200000 .| PTE_KERNEL_DATA;
   0x5d400000 .| PTE_KERNEL_DATA; 0x5d600000 .| PTE_KERNEL_DATA;
   0x5d800000 .| PTE_KERNEL_DATA; 0x5da00000 .| PTE_KERNEL_DATA;
   0x5dc00000 .| PTE_KERNEL_DATA; 0x5de00000 .| PTE_KERNEL_DATA;
   0x5e000000 .| PTE_KERNEL_DATA; 0x5e200000 .| PTE_KERNEL_DATA;
   0x5e400000 .| PTE_KERNEL_DATA; 0x5e600000 .| PTE_KERNEL_DATA;
   0x5e800000 .| PTE_KERNEL_DATA; 0x5ea00000 .| PTE_KERNEL_DATA;
   0x5ec00000 .| PTE_KERNEL_DATA; 0x5ee00000 .| PTE_KERNEL_DATA;
   0x5f000000 .| PTE_KERNEL_DATA; 0x5f200000 .| PTE_KERNEL_DATA;
   0x5f400000 .| PTE_KERNEL_DATA; 0x5f600000 .| PTE_KERNEL_DATA;
   0x5f800000 .| PTE_KERNEL_DATA; 0x5fa00000 .| PTE_KERNEL_DATA;
   0x5fc00000 .| PTE_KERNEL_DATA; 0x5fe00000 .| PTE_KERNEL_DATA].

Definition ram_high : list Z :=
  [0x60000000 .| PTE_KERNEL_DATA; 0x60200000 .| PTE_KERNEL_DATA;
   0x60400000 .| PTE_KERNEL_DATA; 0x60600000 .| PTE_KERNEL_DATA;
   0x60800000 .| PTE_KERNEL_DATA; 0x60a00000 .| PTE_KERNEL_DATA;
   0x60c00000 .| PTE_KERNEL_DATA; 0x60e00000 .| PTE_KERNEL_DATA;
   0x61000000 .| PTE_KERNEL_DATA; 0x61200000 .| PTE_KERNEL_DATA;
   0x61400000 .| PTE_KERNEL_DATA; 0x61600000 .| PTE_KERNEL_DATA;
   0x61800000 .| PTE_KERNEL_DATA; 0x61a00000 .| PTE_KERNEL_DATA;
   0x61c00000 .| PTE_KERNEL_DATA; 0x61e00000 .| PTE_KERNEL_DATA;
   0x62000000 .| PTE_KERNEL_DATA; 0x62200000 .| PTE_KERNEL_DATA;
   0x62400000 .| PTE_KERNEL_DATA; 0x62600000 .| PTE_KERNEL_DATA;
   0x62800000 .| PTE_KERNEL_DATA; 0x62a00000 .| PTE_KERNEL_DATA;
   0x62c00000 .| PTE_KERNEL_DATA; 0x62e00000 .| PTE_KERNEL_DATA;
   0x63000000 .| PTE_KERNEL_DATA; 0x63200000 .| PTE_KERNEL_DATA;
   0x63400000 .| PTE_KERNEL_DATA; 0x63600000 .| PTE_KERNEL_DATA;
   0x63800000 .| PTE_KERNEL_DATA; 0x63a00000 .| PTE_KERNEL_DATA;
   0x63c00000 .| PTE_KERNEL_DATA; 0x63e00000 .| PTE_KERNEL_DATA;
   0x64000000 .| PTE_KERNEL_DATA; 0x64200000 .| PTE_KERNEL_DATA;
   0x64400000 .| PTE_KERNEL_DATA; 0x64600000 .| PTE_KERNEL_DATA;
   0x64800000 .| PTE_KERNEL_DATA; 0x64a00000 .| PTE_KERNEL_DATA;
   0x64c00000 .| PTE_KERNEL_DATA; 0x64e00000 .| PTE_KERNEL_DATA;
   0x65000000 .| PTE_KERNEL_DATA; 0x65200000 .| PTE_KERNEL_DATA;
   0x65400000 .| PTE_KERNEL_DATA; 0x65600000 .| PTE_KERNEL_DATA;
   0x65800000 .| PTE_KERNEL_DATA; 0x65a00000 .| PTE_KERNEL_DATA;
   0x65c00000 .| PTE_KERNEL_DATA; 0x65e00000 .| PTE_KERNEL_DATA;
   0x66000000 .| PTE_KERNEL_DATA; 0x66200000 .| PTE_KERNEL_DATA;
   0x66400000 .| PTE_KERNEL_DATA; 0x66600000 .| PTE_KERNEL_DATA;
   0x66800000 .| PTE_KERNEL_DATA; 0x66a00000 .| PTE_KERNEL_DATA;
   0x66c00000 .| PTE_KERNEL_DATA; 0x66e00000 .| PTE_KERNEL_DATA;
   0x67000000 .| PTE_KERNEL_DATA; 0x67200000 .| PTE_KERNEL_DATA;
   0x67400000 .| PTE_KERNEL_DATA; 0x67600000 .| PTE_KERNEL_DATA;
   0x67800000 .| PTE_KERNEL_DATA; 0x67a00000 .| PTE_KERNEL_DATA;
   0x67c00000 .| PTE_KERNEL_DATA; 0x67e00000 .| PTE_KERNEL_DATA;
   0x68000000 .| PTE_KERNEL_DATA; 0x68200000 .| PTE_KERNEL_DATA;
   0x68400000 .| PTE_KERNEL_DATA; 0x68600000 .| PTE_KERNEL_DATA;
   0x68800000 .| PTE_KERNEL_DATA; 0x68a00000 .| PTE_KERNEL_DATA;
   0x68c00000 .| PTE_KERNEL_DATA; 0x68e00000 .| PTE_KERNEL_DATA;
   0x69000000 .| PTE_KERNEL_DATA; 0x69200000 .| PTE_KERNEL_DATA;
   0x69400000 .| PTE_KERNEL_DATA; 0x69600000 .| PTE_KERNEL_DATA;
   0x69800000 .| PTE_KERNEL_DATA; 0x69a00000 .| PTE_KERNEL_DATA;
   0x69c00000 .| PTE_KERNEL_DATA; 0x69e00000 .| PTE_KERNEL_DATA;
   0x6a000000 .| PTE_KERNEL_DATA; 0x6a200000 .| PTE_KERNEL_DATA;
   0x6a400000 .| PTE_KERNEL_DATA; 0x6a600000 .| PTE_KERNEL_DATA;
   0x6a800000 .| PTE_KERNEL_DATA; 0x6aa00000 .| PTE_KERNEL_DATA;
   0x6ac00000 .| PTE_KERNEL_DATA; 0x6ae00000 .| PTE_KERNEL_DATA;
   0x6b000000 .| PTE_KERNEL_DATA; 0x6b200000 .| PTE_KERNEL_DATA;
   0x6b400000 .| PTE_KERNEL_DATA; 0x6b600000 .| PTE_KERNEL_DATA;
   0x6b800000 .| PTE_KERNEL_DATA; 0x6ba00000 .| PTE_KERNEL_DATA;
   0x6bc00000 .| PTE_KERNEL_DATA; 0x6be00000 .| PTE_KERNEL_DATA;
   0x6c000000 .| PTE_KERNEL_DATA; 0x6c200000 .| PTE_KERNEL_DATA;
   0x6c400000 .| PTE_KERNEL_DATA; 0x6c600000 .| PTE_KERNEL_DATA;
   0x6c800000 .| PTE_KERNEL_DATA; 0x6ca00000 .| PTE_KERNEL_DATA;
   0x6cc00000 .| PTE_KERNEL_DATA; 0x6ce00000 .| PTE_KERNEL_DATA;
   0x6d000000 .| PTE_KERNEL_DATA; 0x6d200000 .| PTE_KERNEL_DATA;
   0x6d400000 .| PTE_KERNEL_DATA; 0x6d600000 .| PTE_KERNEL_DATA;
   0x6d800000 .| PTE_KERNEL_DATA; 0x6da00000 .| PTE_KERNEL_DATA;
   0x6dc00000 .| PTE_KERNEL_DATA; 0x6de00000 .| PTE_KERNEL_DATA;
   0x6e000000 .| PTE_KERNEL_DATA; 0x6e200000 .| PTE_KERNEL_DATA;
   0x6e400000 .| PTE_KERNEL_DATA; 0x6e600000 .| PTE_KERNEL_DATA;
   0x6e800000 .| PTE_KERNEL_DATA; 0x6ea00000 .| PTE_KERNEL_DATA;
   0x6ec00000 .| PTE_KERNEL_DATA; 0x6ee00000 .| PTE_KERNEL_DATA;
   0x6f000000 .| PTE_KERNEL_DATA; 0x6f200000 .| PTE_KERNEL_DATA;
   0x6f400000 .| PTE_KERNEL_DATA; 0x6f600000 .| PTE_KERNEL_DATA;
   0x6f800000 .| PTE_KERNEL_DATA; 0x6fa00000 .| PTE_KERNEL_DATA;
   0x6fc00000 .| PTE_KERNEL_DATA; 0x6fe00000 .| PTE_KERNEL_DATA;
   0x70000000 .| PTE_KERNEL_DATA; 0x70200000 .| PTE_KERNEL_DATA;
   0x70400000 .| PTE_KERNEL_DATA; 0x70600000 .| PTE_KERNEL_DATA;
   0x70800000 .| PTE_KERNEL_DATA; 0x70a00000 .| PTE_KERNEL_DATA;
   0x70c00000 .| PTE_KERNEL_DATA; 0x70e00000 .| PTE_KERNEL_DATA;
   0x71000000 .| PTE_KERNEL_DATA; 0x71200000 .| PTE_KERNEL_DATA;
   0x71400000 .| PTE_KERNEL_DATA; 0x71600000 .| PTE_KERNEL_DATA;
   0x71800000 .| PTE_KERNEL_DATA; 0x71a00000 .| PTE_KERNEL_DATA;
   0x71c00000 .| PTE_KERNEL_DATA; 0x71e00000 .| PTE_KERNEL_DATA;
   0x72000000 .| PTE_KERNEL_DATA; 0x72200000 .| PTE_KERNEL_DATA;
   0x72400000 .| PTE_KERNEL_DATA; 0x72600000 .| PTE_KERNEL_DATA;
   0x72800000 .| PTE_KERNEL_DATA; 0x72a00000 .| PTE_KERNEL_DATA;
   0x72c00000 .| PTE_KERNEL_DATA; 0x72e00000 .| PTE_KERNEL_DATA;
   0x73000000 .| PTE_KERNEL_DATA; 0x73200000 .| PTE_KERNEL_DATA;
   0x73400000 .| PTE_KERNEL_DATA; 0x73600000 .| PTE_KERNEL_DATA;
   0x73800000 .| PTE_KERNEL_DATA; 0x73a00000 .| PTE_KERNEL_DATA;
   0x73c00000 .| PTE_KERNEL_DATA; 0x73e00000 .| PTE_KERNEL_DATA;
   0x74000000 .| PTE_KERNEL_DATA; 0x74200000 .| PTE_KERNEL_DATA;
   0x74400000 .| PTE_KERNEL_DATA; 0x74600000 .| PTE_KERNEL_DATA;
   0x74800000 .| PTE_KERNEL_DATA; 0x74a00000 .| PTE_KERNEL_DATA;
   0x74c00000 .| PTE_KERNEL_DATA; 0x74e00000 .| PTE_KERNEL_DATA;
   0x75000000 .| PTE_KERNEL_DATA; 0x75200000 .| PTE_KERNEL_DATA;
   0x75400000 .| PTE_KERNEL_DATA; 0x75600000 .| PTE_KERNEL_DATA;
   0x75800000 .| PTE_KERNEL_DATA; 0x75a00000 .| PTE_KERNEL_DATA;
   0x75c00000 .| PTE_KERNEL_DATA; 0x75e00000 .| PTE_KERNEL_DATA;
   0x76000000 .| PTE_KERNEL_DATA; 0x76200000 .| PTE_KERNEL_DATA;
   0x76400000 .| PTE_KERNEL_DATA; 0x76600000 .| PTE_KERNEL_DATA;
   0x76800000 .| PTE_KERNEL_DATA; 0x76a00000 .| PTE_KERNEL_DATA;
   0x76c00000 .| PTE_KERNEL_DATA; 0x76e00000 .| PTE_KERNEL_DATA;
   0x77000000 .| PTE_KERNEL_DATA; 0x77200000 .| PTE_KERNEL_DATA;
   0x77400000 .| PTE_KERNEL_DATA; 0x77600000 .| PTE_KERNEL_DATA;
   0x77800000 .| PTE_KERNEL_DATA; 0x77a00000 .| PTE_KERNEL_DATA;
   0x77c00000 .| PTE_KERNEL_DATA; 0x77e00000 .| PTE_KERNEL_DATA;
   0x78000000 .| PTE_KERNEL_DATA; 0x78200000 .| PTE_KERNEL_DATA;
   0x78400000 .| PTE_KERNEL_DATA; 0x78600000 .| PTE_KERNEL_DATA;
   0x78800000 .| PTE_KERNEL_DATA; 0x78a00000 .| PTE_KERNEL_DATA;
   0x78c00000 .| PTE_KERNEL_DATA; 0x78e00000 .| PTE_KERNEL_DATA;
   0x79000000 .| PTE_KERNEL_DATA; 0x79200000 .| PTE_KERNEL_DATA;
   0x79400000 .| PTE_KERNEL_DATA; 0x79600000 .| PTE_KERNEL_DATA;
   0x79800000 .| PTE_KERNEL_DATA; 0x79a00000 .| PTE_KERNEL_DATA;
   0x79c00000 .| PTE_KERNEL_DATA; 0x79e00000 .| PTE_KERNEL_DATA;
   0x7a000000 .| PTE_KERNEL_DATA; 0x7a200000 .| PTE_KERNEL_DATA;
   0x7a400000 .| PTE_KERNEL_DATA; 0x7a600000 .| PTE_KERNEL_DATA;
   0x7a800000 .| PTE_KERNEL_DATA; 0x7aa00000 .| PTE_KERNEL_DATA;
   0x7ac00000 .| PTE_KERNEL_DATA; 0x7ae00000 .| PTE_KERNEL_DATA;
   0x7b000000 .| PTE_KERNEL_DATA; 0x7b200000 .| PTE_KERNEL_DATA;
   0x7b400000 .| PTE_KERNEL_DATA; 0x7b600000 .| PTE_KERNEL_DATA;
   0x7b800000 .| PTE_KERNEL_DATA; 0x7ba00000 .| PTE_KERNEL_DATA;
   0x7bc00000 .| PTE_KERNEL_DATA; 0x7be00000 .| PTE_KERNEL_DATA;
   0x7c000000 .| PTE_KERNEL_DATA; 0x7c200000 .| PTE_KERNEL_DATA;
   0x7c400000 .| PTE_KERNEL_DATA; 0x7c600000 .| PTE_KERNEL_DATA;
   0x7c800000 .| PTE_KERNEL_DATA; 0x7ca00000 .| PTE_KERNEL_DATA;
   0x7cc00000 .| PTE_KERNEL_DATA; 0x7ce00000 .| PTE_KERNEL_DATA;
   0x7d000000 .| PTE_KERNEL_DATA; 0x7d200000 .| PTE_KERNEL_DATA;
   0x7d400000 .| PTE_KERNEL_DATA; 0x7d600000 .| PTE_KERNEL_DATA;
   0x7d800000 .| PTE_KERNEL_DATA; 0x7da00000 .| PTE_KERNEL_DATA;
   0x7dc00000 .| PTE_KERNEL_DATA; 0x7de00000 .| PTE_KERNEL_DATA;
   0x7e000000 .| PTE_KERNEL_DATA; 0x7e200000 .| PTE_KERNEL_DATA;
   0x7e400000 .| PTE_KERNEL_DATA; 0x7e600000 .| PTE_KERNEL_DATA;
   0x7e800000 .| PTE_KERNEL_DATA; 0x7ea00000 .| PTE_KERNEL_DATA;
   0x7ec00000 .| PTE_KERNEL_DATA; 0x7ee00000 .| PTE_KERNEL_DATA;
   0x7f000000 .| PTE_KERNEL_DATA; 0x7f200000 .| PTE_KERNEL_DATA;
   0x7f400000 .| PTE_KERNEL_DATA; 0x7f600000 .| PTE_KERNEL_DATA;
   0x7f800000 .| PTE_KERNEL_DATA; 0x7fa00000 .| PTE_KERNEL_DATA;
   0x7fc00000 .| PTE_KERNEL_DATA; 0x7fe00000 .| PTE_KERNEL_DATA].

Definition _kernel_pt_lv2_ram : list Z := table (ram_low ++ ram_high).
End tables.

Definition invalid_pt : list Z := table [].

(** The linked tables, by kernel address: the two level-2 tables and the two
    that name them. *)
Record Linked := mkLinked { at_dev : Z; at_ram : Z; at_level1 : Z; at_level0 : Z }.

Definition _kernel_pt_level1 (l : Linked) : list Z :=
  table [u64 (K2P (at_dev l) + PTE_TABLE); u64 (K2P (at_ram l) + PTE_TABLE)].

Definition kernel_pt_level0 (l : Linked) : list Z := table [u64 (K2P (at_level1 l) + PTE_TABLE)].

Definition kernel_tables (l : Linked) : gmap Z (list Z) :=
  {[at_level0 l := kernel_pt_level0 l; at_level1 l := _kernel_pt_level1 l;
    at_dev l := _kernel_pt_lv2_dev; at_ram l := _kernel_pt_lv2_ram]}.

(** What the mmu makes of a level-2 entry: the address of a block of 2 MB and
    its attributes, when it is a block. *)
Definition block_entry (e : Z) : option (Z * Z) :=
  if Z.land e 3 =? PTE_BLOCK then Some (Z.land e 0x0000FFFFFFE00000, Z.land e 0xFFFF0000001FFFFF) else None.

Definition kernel_translate (tabs : gmap Z (list Z)) (root va : Z) : option (Z * Z) :=
  pt1 ← walk_level tabs root (VA_PART0 va);
  pt2 ← walk_level tabs pt1 (VA_PART1 va);
  t ← tabs !! pt2; e ← t !! Z.to_nat (VA_PART2 va);
  b ← block_entry e; Some (b.1 + va mod 2 ^ 21, b.2).

(** The linker puts the tables, aligned, at different kernel addresses. *)
Record linked_ok (l : Linked) : Prop := {
  lk_pages : Forall (fun t => KSPACE_MASK <= t < 2 ^ 64 /\ page_at (K2P t)) [at_dev l; at_ram l; at_level1 l; at_level0 l];
  lk_apart : NoDup [at_dev l; at_ram l; at_level1 l; at_level0 l];
}.

(** ** The entries *)

Lemma table_lookup l i :
  (length l <= 512)%nat -> 0 <= i < 512 -> table l !! Z.to_nat i = Some (default 0 (l !! Z.to_nat i)).
Proof.
  intros Hl Hi. unfold table. change (Z.to_nat N_PTE_PER_TABLE) with 512%nat.
  destruct (l !! Z.to_nat i) as [x|] eqn:E; [by rewrite (lookup_app_l_Some _ _ _ _ E)|].
  apply lookup_ge_None in E. rewrite lookup_app_r by done. apply lookup_replicate. split; [done|lia].
Qed.

(** What entry [i] of a level-2 table should be. *)
Definition dev_block (i : Z) : option (Z * Z) :=
  if (64 <=? i) && (i <? 88) then Some (i * 2 ^ 21, PTE_KERNEL_DEVICE) else None.
Definition ram_block (i : Z) : option (Z * Z) := Some (0x40000000 + i * 2 ^ 21, PTE_KERNEL_DATA).

Lemma table_blocks (t : list Z) (f : Z -> option (Z * Z)) i :
  forallb (fun k => bool_decide ((t !! k ≫= block_entry) = f (Z.of_nat k))) (seq 0 512) = true ->
  0 <= i < 512 -> (t !! Z.to_nat i ≫= block_entry) = f i.
Proof.
  intros H Hi. rewrite forallb_forall in H. specialize (H (Z.to_nat i)).
  rewrite in_seq, Z2Nat.id in H by lia. specialize (H ltac:(lia)). by apply bool_decide_eq_true in H.
Qed.

Lemma dev_blocks i : 0 <= i < 512 -> (_kernel_pt_lv2_dev !! Z.to_nat i ≫= block_entry) = dev_block i.
Proof. apply table_blocks. vm_compute. reflexivity. Qed.

Lemma ram_blocks i : 0 <= i < 512 -> (_kernel_pt_lv2_ram !! Z.to_nat i ≫= block_entry) = ram_block i.
Proof. apply table_blocks. vm_compute. reflexivity. Qed.

(** An entry that names a table. *)
Lemma walk_table tabs pt t i a :
  tabs !! pt = Some t -> t !! Z.to_nat i = Some (u64 (K2P a + PTE_TABLE)) ->
  KSPACE_MASK <= a < 2 ^ 64 -> page_at (K2P a) -> walk_level tabs pt i = Some a.
Proof.
  intros Ht Hi Ha Hp. unfold walk_level. rewrite Ht. cbn [mbind option_bind]. rewrite Hi. cbn [mbind option_bind].
  assert (u64 (K2P a + PTE_TABLE) = Z.lor (K2P a) PTE_TABLE) as ->.
  { destruct Hp as [Hr Hm]. rewrite (lor_low _ PTE_TABLE 12) by (lia || done || (unfold PTE_TABLE; lia)).
    unfold u64. apply wrap_small. unfold PTE_TABLE. lia. }
  rewrite is_valid_lor by reflexivity. rewrite table_entry by (done || (unfold PTE_TABLE; lia)). by rewrite P2K_K2P.
Qed.

Lemma walk_invalid tabs pt t i : tabs !! pt = Some t -> t !! Z.to_nat i = Some 0 -> walk_level tabs pt i = None.
Proof. intros Ht Hi. unfold walk_level. rewrite Ht. cbn [mbind option_bind]. rewrite Hi. reflexivity. Qed.

(** ** The direct map *)

(** A kernel address has the indices of its physical address. *)
Lemma kernel_parts pa :
  0 <= pa < 2 ^ 48 ->
  VA_PART0 (P2K pa) = pa / 2 ^ 39 /\ VA_PART1 (P2K pa) = (pa / 2 ^ 30) mod 512 /\
  VA_PART2 (P2K pa) = (pa / 2 ^ 21) mod 512 /\ P2K pa mod 2 ^ 21 = pa mod 2 ^ 21.
Proof.
  intros Hp. assert (P2K pa = pa + 65535 * 2 ^ 48) as E.
  { unfold P2K, u64, KSPACE_MASK. rewrite wrap_small; lia. }
  destruct (VA_PARTS (P2K pa)) as (-> & -> & -> & _ & _); [lia|]. rewrite E.
  replace (65535 * 2 ^ 48) with (65535 * 512 * 2 ^ 39) at 1 by lia.
  replace (65535 * 2 ^ 48) with (65535 * 2 ^ 9 * 512 * 2 ^ 30) at 1 by lia.
  replace (65535 * 2 ^ 48) with (65535 * 2 ^ 18 * 512 * 2 ^ 21) at 1 by lia.
  replace (65535 * 2 ^ 48) with (65535 * 2 ^ 27 * 2 ^ 21) at 1 by lia.
  rewrite !Z.div_add, !Z.mod_add by lia. split_and!; try done.
  apply Z.mod_small. split; [apply Z.div_pos; lia|apply Z.div_lt_upper_bound; lia].
Qed.

Section direct_map.
Context (l : Linked) (Hl : linked_ok l).

Lemma kernel_lookup :
  kernel_tables l !! at_level0 l = Some (kernel_pt_level0 l) /\ kernel_tables l !! at_level1 l = Some (_kernel_pt_level1 l) /\
  kernel_tables l !! at_dev l = Some _kernel_pt_lv2_dev /\ kernel_tables l !! at_ram l = Some _kernel_pt_lv2_ram.
Proof.
  destruct Hl as [_ Ha]. unfold kernel_tables. rewrite !NoDup_cons, !elem_of_cons in Ha.
  destruct Ha as (H1 & H2 & H3 & _). split_and!.
  - by rewrite lookup_insert_eq.
  - rewrite lookup_insert_ne by naive_solver. by rewrite lookup_insert_eq.
  - rewrite !lookup_insert_ne by naive_solver. by rewrite lookup_insert_eq.
  - rewrite !lookup_insert_ne by naive_solver. by rewrite lookup_singleton_eq.
Qed.

(** The walk through levels 0 and 1 of an address below 2^48. *)
Lemma kernel_walk pa :
  0 <= pa < 2 ^ 48 ->
  kernel_translate (kernel_tables l) (at_level0 l) (P2K pa) =
    b ← (if pa / 2 ^ 30 =? 0 then dev_block (pa / 2 ^ 21) else if pa / 2 ^ 30 =? 1 then ram_block (pa / 2 ^ 21 - 512) else None);
    Some (b.1 + pa mod 2 ^ 21, b.2).
Proof.
  intros Hp. destruct (kernel_parts pa Hp) as (E0 & E1 & E2 & E3). destruct kernel_lookup as (L0 & L1 & L2 & L3).
  pose proof (lk_pages l Hl) as Hpg. rewrite !Forall_cons in Hpg. destruct Hpg as ([D1 D2] & [R1 R2] & [A1 A2] & _ & _).
  unfold kernel_translate. rewrite E0, E1, E2, E3.
  assert (0 <= pa / 2 ^ 39 < 512) as H0 by (split; [apply Z.div_pos; lia|apply Z.div_lt_upper_bound; lia]).
  assert (0 <= pa / 2 ^ 30 < 2 ^ 18) as H1 by (split; [apply Z.div_pos; lia|apply Z.div_lt_upper_bound; lia]).
  assert (pa / 2 ^ 39 = pa / 2 ^ 30 / 512) as H01 by (rewrite Z.div_div by lia; done).
  assert (pa / 2 ^ 30 = pa / 2 ^ 21 / 512) as H12 by (rewrite Z.div_div by lia; done).
  pose proof (Z.div_mod (pa / 2 ^ 30) 512). pose proof (Z.mod_pos_bound (pa / 2 ^ 30) 512).
  pose proof (Z.div_mod (pa / 2 ^ 21) 512). pose proof (Z.mod_pos_bound (pa / 2 ^ 21) 512).
  destruct (decide (pa / 2 ^ 39 = 0)) as [Z0|Z0].
  2: { rewrite (walk_invalid _ _ _ (pa / 2 ^ 39) L0).
       - cbn [mbind option_bind]. rewrite !(proj2 (Z.eqb_neq _ _)) by lia. done.
       - unfold kernel_pt_level0. rewrite table_lookup by (simpl; lia || done). f_equal.
         rewrite lookup_ge_None_2; [done|]. simpl. lia. }
  rewrite Z0, (walk_table _ _ _ 0 (at_level1 l) L0) by done. cbn [mbind option_bind].
  rewrite (Z.mod_small (pa / 2 ^ 30)) by lia.
  destruct (Z.eqb_spec (pa / 2 ^ 30) 0) as [Z1|Z1]; [|destruct (Z.eqb_spec (pa / 2 ^ 30) 1) as [Z2|Z2]].
  - rewrite Z1, (walk_table _ _ _ 0 (at_dev l) L1) by done. cbn [mbind option_bind]. rewrite L2. cbn [mbind option_bind].
    rewrite <- (dev_blocks (pa / 2 ^ 21)) by lia. rewrite (Z.mod_small (pa / 2 ^ 21)) by lia.
    by destruct (_kernel_pt_lv2_dev !! _).
  - rewrite Z2, (walk_table _ _ _ 1 (at_ram l) L1) by done. cbn [mbind option_bind]. rewrite L3. cbn [mbind option_bind].
    rewrite <- (ram_blocks (pa / 2 ^ 21 - 512)) by lia.
    replace ((pa / 2 ^ 21) mod 512) with (pa / 2 ^ 21 - 512) by lia.
    by destruct (_kernel_pt_lv2_ram !! _).
  - rewrite (walk_invalid _ _ _ (pa / 2 ^ 30) L1); [done|].
    unfold _kernel_pt_level1. rewrite table_lookup by (simpl; lia || done). f_equal.
    rewrite lookup_ge_None_2; [done|]. simpl. lia.
Qed.

(** The kernel's page tables are a direct map: through them the kernel
    address of a physical address [pa] is [pa] itself for all of RAM (1 GB to
    2 GB, as normal memory) and for the window of the interrupt controller,
    the uart and virtio (as device memory), every one of the 2^48 bytes else
    faults; and a process without a page table sees nothing. *)
Theorem kernel_direct_map pa :
  0 <= pa < 2 ^ 48 ->
  kernel_translate (kernel_tables l) (at_level0 l) (P2K pa) =
    (if (EXTMEM <=? pa) && (pa <? PHYSTOP) then Some (pa, PTE_KERNEL_DATA)
     else if (0x8000000 <=? pa) && (pa <? 0xb000000) then Some (pa, PTE_KERNEL_DEVICE) else None) /\
  (forall root va, 0 <= va -> kernel_translate {[root := invalid_pt]} root va = None).
Proof.
  intros Hp. split.
  - rewrite kernel_walk by done. unfold EXTMEM, PHYSTOP, dev_block, ram_block.
    pose proof (Z.div_mod pa (2 ^ 21)). pose proof (Z.mod_pos_bound pa (2 ^ 21)).
    assert (pa / 2 ^ 30 = pa / 2 ^ 21 / 512) as E by (rewrite Z.div_div by lia; done).
    pose proof (Z.div_mod (pa / 2 ^ 21) 512). pose proof (Z.mod_pos_bound (pa / 2 ^ 21) 512).
    destruct (Z.eqb_spec (pa / 2 ^ 30) 0) as [Z1|Z1]; [|destruct (Z.eqb_spec (pa / 2 ^ 30) 1) as [Z2|Z2]].
    + rewrite (proj2 (Z.leb_gt 0x40000000 pa)) by lia. cbn [andb].
      destruct (Z.leb_spec 64 (pa / 2 ^ 21)), (Z.leb_spec 0x8000000 pa); try lia; [|done].
      destruct (Z.ltb_spec (pa / 2 ^ 21) 88), (Z.ltb_spec pa 0xb000000); try lia; [|done].
      cbn [mbind option_bind andb fst snd]. do 2 f_equal. lia.
    + rewrite (proj2 (Z.leb_le 0x40000000 pa)), (proj2 (Z.ltb_lt pa 0x80000000)) by lia.
      cbn [mbind option_bind andb fst snd]. do 2 f_equal. lia.
    + cbn [mbind option_bind]. assert (0 <= pa / 2 ^ 30) by (apply Z.div_pos; lia).
      rewrite (proj2 (Z.ltb_ge pa 0x80000000)), (proj2 (Z.ltb_ge pa 0xb000000)), !andb_false_r by lia. done.
  - intros root va Hv. unfold kernel_translate. destruct (VA_PART_range va Hv) as (H0 & _).
    rewrite (walk_invalid _ root invalid_pt (VA_PART0 va)); [done|by rewrite lookup_singleton_eq|].
    unfold invalid_pt. rewrite table_lookup by (simpl; lia || done). done.
Qed.
End direct_map.

Definition example_linked : Linked :=
  mkLinked (P2K 0x40100000) (P2K 0x40101000) (P2K 0x40102000) (P2K 0x40103000).

Lemma kernel_direct_map_witness :
  kernel_translate (kernel_tables example_linked) (at_level0 example_linked) (P2K 0x41234567) = Some (0x41234567, PTE_KERNEL_DATA) /\
  (forall root va, 0 <= va -> kernel_translate {[root := invalid_pt]} root va = None).
Proof.
  apply (kernel_direct_map example_linked).
  - split; [|refine (bool_decide_unpack (NoDup _) _); vm_compute; exact I].
    repeat constructor; try (vm_compute; reflexivity); vm_compute; discriminate.
  - lia.
Defined.
