(* ===== verification/RbTree.v ===== *)
(** Red-black trees (src/common/rbtree.c, src/common/rbtree.h).

    Nodes live in a heap behind their addresses; the word
    [__rb_parent_color] holds the address of the parent with the colour in its
    lowest bit, as in the code. The code of each rebalancing step is written
    out twice in rbtree.c, once for each side; here it takes the side as an
    argument. *)
From Stdlib Require Import ZArith Lia.
From stdpp Require Import base numbers gmap list.
From S2P Require Import Prelude.

Definition RB_RED : Z := 0.
Definition RB_BLACK : Z := 1.

Record rb_node_ := mkRb { __rb_parent_color : Z; rb_right : Z; rb_left : Z }.

(** The nodes and [root->rb_node]. *)
Record RbTree := mkRbTree { rb_heap : gmap Z rb_node_; rb_root : Z }.

Abbreviation R := (M RbTree).

Definition __rb_parent (pc : Z) : Z := Z.land pc (Z.lnot 3).
Definition __rb_color (pc : Z) : Z := Z.land pc 1.
Definition __rb_is_black (pc : Z) : bool := negb (__rb_color pc =? 0).
Definition __rb_is_red (pc : Z) : bool := __rb_color pc =? 0.

Inductive side := Left | Right.
#[export] Instance side_eq_dec : EqDecision side.
Proof. solve_decision. Defined.
Definition other (d : side) : side := match d with Left => Right | Right => Left end.

(** ** Accesses through a pointer *)

Definition node_at (p : Z) : R rb_node_ := s ← get_state; deref (rb_heap s !! p).
Definition store_node (p : Z) (n : rb_node_) : R unit := modify (fun s => mkRbTree (<[p := n]> (rb_heap s)) (rb_root s)).
Definition set_root (p : Z) : R unit := modify (fun s => mkRbTree (rb_heap s) p).

Definition child_of (d : side) (n : rb_node_) : Z := match d with Left => rb_left n | Right => rb_right n end.
Definition child (d : side) (p : Z) : R Z := n ← node_at p; mret (child_of d n).
Definition with_child (d : side) (c : Z) (n : rb_node_) : rb_node_ :=
  match d with
  | Left => mkRb (__rb_parent_color n) (rb_right n) c
  | Right => mkRb (__rb_parent_color n) c (rb_left n)
  end.
Definition set_child (d : side) (p c : Z) : R unit := n ← node_at p; store_node p (with_child d c n).
Definition parent_color (p : Z) : R Z := n ← node_at p; mret (__rb_parent_color n).
Definition set_pc (p pc : Z) : R unit := n ← node_at p; store_node p (mkRb pc (rb_right n) (rb_left n)).

Definition rb_parent (p : Z) : R Z := pc ← parent_color p; mret (__rb_parent pc).
Definition rb_is_red (p : Z) : R bool := pc ← parent_color p; mret (__rb_is_red pc).
Definition rb_is_black (p : Z) : R bool := pc ← parent_color p; mret (__rb_is_black pc).

Definition rb_set_black (rb : Z) : R unit := pc ← parent_color rb; set_pc rb (Z.lor pc RB_BLACK).
Definition rb_red_parent (red : Z) : R Z := parent_color red.
Definition rb_set_parent (rb p : Z) : R unit := pc ← parent_color rb; set_pc rb (Z.lor (__rb_color pc) p).
Definition rb_set_parent_color (rb p color : Z) : R unit := set_pc rb (Z.lor p color).

Definition __rb_change_child (old new parent : Z) : R unit :=
  if negb (parent =? 0) then
    l ← child Left parent;
    if l =? old then set_child Left parent new else set_child Right parent new
  else set_root new.

Definition __rb_rotate_set_parents (old new color : Z) : R unit :=
  parent ← rb_parent old;
  pc ← parent_color old;
  set_pc new pc ;;
  rb_set_parent_color old new color ;;
  __rb_change_child old new parent.

(** [if (p) ...] *)
Definition if_node (p : Z) (c : R unit) : R unit := if negb (p =? 0) then c else mret tt.

(** ** Insertion *)

(** The uncle is black: cases 2 and 3, [parent] on side [d] of [gparent]. *)
Definition insert_rotate (d : side) (node parent gparent : Z) : R unit :=
  tmp ← child (other d) parent;
  r ← (if node =? tmp then
         tmp ← child d node;
         set_child (other d) parent tmp ;;
         if_node tmp (rb_set_parent_color tmp parent RB_BLACK) ;;
         set_child d node parent ;;
         rb_set_parent_color parent node RB_RED ;;
         tmp ← child (other d) node;
         mret (node, tmp)
       else mret (parent, tmp));
  let '(parent, tmp) := r in
  set_child d gparent tmp ;;
  if_node tmp (rb_set_parent_color tmp gparent RB_BLACK) ;;
  set_child (other d) parent gparent ;;
  __rb_rotate_set_parents gparent parent RB_RED.

(** Each round moves the node up two levels. *)
Fixpoint insert_fix_loop (fuel : nat) (node parent : Z) : R unit :=
  match fuel with
  | O => undefined
  | S fuel' =>
      if parent =? 0 then rb_set_parent_color node 0 RB_BLACK ;; set_root node
      else
        black ← rb_is_black parent;
        if (black : bool) then mret tt
        else
          gparent ← rb_red_parent parent;
          tmp ← child Right gparent;
          let d := if negb (parent =? tmp) then Left else Right in
          tmp ← child (other d) gparent;
          red ← (if negb (tmp =? 0) then rb_is_red tmp else mret false);
          if (red : bool) then
            rb_set_parent_color tmp gparent RB_BLACK ;;
            rb_set_parent_color parent gparent RB_BLACK ;;
            parent ← rb_parent gparent;
            rb_set_parent_color gparent parent RB_RED ;;
            insert_fix_loop fuel' gparent parent
          else insert_rotate d node parent gparent
  end.

Definition __rb_insert_fix (node : Z) : R unit :=
  parent ← rb_red_parent node;
  s ← get_state;
  insert_fix_loop (S (size (rb_heap s))) node parent.

Section cmp.
Context (cmp : Z -> Z -> bool).

(** The descent of [_rb_insert]; false: an equal node is there. *)
Fixpoint insert_walk (fuel : nat) (node nw : Z) : R bool :=
  if nw =? 0 then mret true
  else
    match fuel with
    | O => undefined
    | S fuel' =>
        let parent := nw in
        if cmp node nw then
          nw ← child Left nw;
          (if nw =? 0 then set_child Left parent node ;; set_pc node parent else mret tt) ;;
          insert_walk fuel' node nw
        else if cmp nw node then
          nw ← child Right nw;
          (if nw =? 0 then set_child Right parent node ;; set_pc node parent else mret tt) ;;
          insert_walk fuel' node nw
        else mret false
    end.

Definition _rb_insert (node : Z) : R Z :=
  n ← node_at node;
  store_node node (mkRb 0 0 0) ;;
  s ← get_state;
  inserted ← insert_walk (S (size (rb_heap s))) node (rb_root s);
  if (inserted : bool) then __rb_insert_fix node ;; mret 0 else mret (-1).

Fixpoint lookup_walk (fuel : nat) (node nw : Z) : R Z :=
  if nw =? 0 then mret 0
  else
    match fuel with
    | O => undefined
    | S fuel' =>
        if cmp node nw then nw ← child Left nw; lookup_walk fuel' node nw
        else if cmp nw node then nw ← child Right nw; lookup_walk fuel' node nw
        else mret nw
    end.

Definition _rb_lookup (node : Z) : R Z := s ← get_state; lookup_walk (S (size (rb_heap s))) node (rb_root s).
End cmp.

(** [while (n->rb_left) n = n->rb_left] *)
Fixpoint leftmost (fuel : nat) (n : Z) : R Z :=
  l ← child Left n;
  if negb (l =? 0) then match fuel with O => undefined | S fuel' => leftmost fuel' l end else mret n.

Definition _rb_first : R Z :=
  s ← get_state;
  if rb_root s =? 0 then mret 0 else leftmost (size (rb_heap s)) (rb_root s).

(** ** Removal *)

(** [do { parent = successor; successor = tmp; tmp = tmp->rb_left; } while (tmp)]:
    the parent and the successor. *)
Fixpoint successor_walk (fuel : nat) (successor tmp : Z) : R (Z * Z) :=
  match fuel with
  | O => undefined
  | S fuel' =>
      let parent := successor in
      let successor := tmp in
      tmp ← child Left tmp;
      if negb (tmp =? 0) then successor_walk fuel' successor tmp else mret (parent, successor)
  end.

(** The first part of the third case of [__rb_erase]: the successor leaves its
    place to its right child, and what was above it goes below it. *)
Definition take_successor (rchild : Z) : R (Z * Z * Z) :=
  s ← get_state;
  tmp ← child Left rchild;
  if tmp =? 0 then
    child2 ← child Right rchild;
    mret (rchild, rchild, child2)
  else
    w ← successor_walk (size (rb_heap s)) rchild tmp;
    let '(parent, successor) := w in
    child2 ← child Right successor;
    set_child Left parent child2 ;;
    set_child Right successor rchild ;;
    rb_set_parent rchild successor ;;
    mret (parent, successor, child2).

(** The node to rebalance from, or NULL. *)
Definition __rb_erase (node : Z) : R Z :=
  rchild ← child Right node;
  tmp ← child Left node;
  if tmp =? 0 then
    pc ← parent_color node;
    let parent := __rb_parent pc in
    __rb_change_child node rchild parent ;;
    if negb (rchild =? 0) then set_pc rchild pc ;; mret 0
    else mret (if __rb_is_black pc then parent else 0)
  else if rchild =? 0 then
    pc ← parent_color node;
    set_pc tmp pc ;;
    let parent := __rb_parent pc in
    __rb_change_child node tmp parent ;;
    mret 0
  else
    r ← take_successor rchild;
    let '(parent, successor, child2) := r in
    tmp ← child Left node;
    set_child Left successor tmp ;;
    rb_set_parent tmp successor ;;
    pc ← parent_color node;
    let tmp := __rb_parent pc in
    __rb_change_child node successor tmp ;;
    if negb (child2 =? 0) then
      set_pc successor pc ;;
      rb_set_parent_color child2 parent RB_BLACK ;;
      mret 0
    else
      pc2 ← parent_color successor;
      set_pc successor pc ;;
      mret (if __rb_is_black pc2 then parent else 0).

(** Cases 3 and 4 of [__rb_erase_fix]: a child of the sibling is red; [d] is
    the side of the short subtree. *)
Definition erase_rotate (d : side) (parent sibling tmp1 : Z) : R unit :=
  tmp2 ← child d sibling;
  set_child (other d) parent tmp2 ;;
  if_node tmp2 (rb_set_parent tmp2 parent) ;;
  set_child d sibling parent ;;
  rb_set_parent_color tmp1 sibling RB_BLACK ;;
  __rb_rotate_set_parents parent sibling RB_BLACK.

(** A child the code tests with [!p || rb_is_black(p)]. *)
Definition null_or_black (p : Z) : R bool := if p =? 0 then mret true else rb_is_black p.

(** Case 1: the sibling is red; [tmp1], its child, is the new sibling. *)
Definition erase_red_sibling (d : side) (parent sibling : Z) : R Z :=
  tmp1 ← child d sibling;
  set_child (other d) parent tmp1 ;;
  rb_set_parent_color tmp1 parent RB_BLACK ;;
  set_child d sibling parent ;;
  __rb_rotate_set_parents parent sibling RB_RED ;;
  mret tmp1.

(** The sibling is black; [again] is the next round of the loop. *)
Definition erase_black_sibling (again : Z -> Z -> R unit) (d : side) (parent sibling : Z) : R unit :=
  tmp1 ← child (other d) sibling;
  b1 ← null_or_black tmp1;
  if (b1 : bool) then
    tmp2 ← child d sibling;
    b2 ← null_or_black tmp2;
    if (b2 : bool) then
      rb_set_parent_color sibling parent RB_RED ;;
      red ← rb_is_red parent;
      if (red : bool) then rb_set_black parent
      else
        let node := parent in
        parent ← rb_parent node;
        if negb (parent =? 0) then again node parent else mret tt
    else
      tmp1 ← child (other d) tmp2;
      set_child d sibling tmp1 ;;
      if_node tmp1 (rb_set_parent_color tmp1 sibling RB_BLACK) ;;
      set_child (other d) tmp2 sibling ;;
      set_child (other d) parent tmp2 ;;
      erase_rotate d parent tmp2 sibling
  else erase_rotate d parent sibling tmp1.

Fixpoint erase_fix_loop (fuel : nat) (node parent : Z) : R unit :=
  match fuel with
  | O => undefined
  | S fuel' =>
      sibling ← child Right parent;
      let d := if negb (node =? sibling) then Left else Right in
      sibling ← child (other d) parent;
      red ← rb_is_red sibling;
      sibling ← (if (red : bool) then erase_red_sibling d parent sibling else mret sibling);
      erase_black_sibling (erase_fix_loop fuel') d parent sibling
  end.

Definition __rb_erase_fix (parent : Z) : R unit :=
  s ← get_state; erase_fix_loop (size (rb_heap s)) 0 parent.

Definition _rb_erase (node : Z) : R unit :=
  rebalance ← __rb_erase node;
  if negb (rebalance =? 0) then __rb_erase_fix rebalance else mret tt.

(** ** Trees *)

(** The tree behind the pointers; a node is its address. *)
Inductive tree := Leaf | Node (c : Z) (l : tree) (a : Z) (r : tree).

Definition root_of (t : tree) : Z := match t with Leaf => 0 | Node _ _ a _ => a end.
Fixpoint inorder (t : tree) : list Z := match t with Leaf => [] | Node _ l a r => inorder l ++ a :: inorder r end.

(** A tree with one subtree left out: for each node above the hole its colour,
    its address, the side of the hole and its other subtree. *)
Record frame := mkFrame { f_side : side; f_color : Z; f_addr : Z; f_other : tree }.
Abbreviation ctx := (list frame).

Definition node_on (d : side) (c : Z) (t : tree) (a : Z) (u : tree) : tree :=
  match d with Left => Node c t a u | Right => Node c u a t end.
Definition fill (f : frame) (t : tree) : tree := node_on (f_side f) (f_color f) t (f_addr f) (f_other f).
Fixpoint plug (k : ctx) (t : tree) : tree := match k with [] => t | f :: k' => plug k' (fill f t) end.
Definition parent_of (k : ctx) : Z := match k with [] => 0 | f :: _ => f_addr f end.

(** The heap holds the tree [t] below [parent]. *)
Fixpoint tree_at (h : gmap Z rb_node_) (parent : Z) (t : tree) : Prop :=
  match t with
  | Leaf => True
  | Node c l a r =>
      h !! a = Some (mkRb (Z.lor parent c) (root_of r) (root_of l)) /\ tree_at h a l /\ tree_at h a r
  end.

(** The heap holds the context [k] around a hole whose root is [p]. *)
Fixpoint ctx_at (h : gmap Z rb_node_) (k : ctx) (p : Z) : Prop :=
  match k with
  | [] => True
  | f :: k' =>
      h !! f_addr f = Some (with_child (f_side f) p (with_child (other (f_side f)) (root_of (f_other f))
                              (mkRb (Z.lor (parent_of k') (f_color f)) 0 0))) /\
      tree_at h (f_addr f) (f_other f) /\ ctx_at h k' (f_addr f)
  end.

Definition root_ptr (k : ctx) (p : Z) : Z := match last k with None => p | Some f => f_addr f end.

Fixpoint ctx_addrs (k : ctx) : list Z := match k with [] => [] | f :: k' => f_addr f :: inorder (f_other f) ++ ctx_addrs k' end.

Definition is_color (c : Z) : Prop := c = RB_RED \/ c = RB_BLACK.
Fixpoint colored (t : tree) : Prop := match t with Leaf => True | Node c l _ r => is_color c /\ colored l /\ colored r end.

(** Addresses of nodes: aligned, not NULL. *)
Definition addr_ok (a : Z) : Prop := 0 < a /\ a mod 4 = 0.

Lemma pc_parent p c : p mod 4 = 0 -> is_color c -> __rb_parent (Z.lor p c) = p.
Proof.
  intros Hp Hc. unfold __rb_parent. assert (0 <= c < 4) as Hr by (destruct Hc as [->| ->]; unfold RB_RED, RB_BLACK; lia).
  change 3 with (Z.ones 2). rewrite <- Z.ldiff_land, Z.ldiff_ones_r by lia. rewrite Z.shiftr_lor.
  rewrite (Z.shiftr_div_pow2 c), (Z.div_small c) by lia. rewrite Z.lor_0_r, Z.shiftr_div_pow2, Z.shiftl_mul_pow2 by lia.
  change (2 ^ 2) with 4. pose proof (Z.div_mod p 4). lia.
Qed.

Lemma pc_color p c : p mod 4 = 0 -> is_color c -> __rb_color (Z.lor p c) = c.
Proof.
  intros Hp Hc. unfold __rb_color. rewrite Z.land_lor_distr_l. change 1 with (Z.ones 1).
  rewrite !Z.land_ones by lia. assert (p mod 2 ^ 1 = 0) as ->.
  { pose proof (Z.div_mod p 4). replace p with (2 * (p / 4) * 2 ^ 1) by lia. by apply Z.mod_mul. }
  destruct Hc as [->| ->]; done.
Qed.

Lemma root_ptr_cons f k p : root_ptr (f :: k) p = root_ptr k (f_addr f).
Proof. unfold root_ptr. destruct k as [|g k]; [done|]. change (last (f :: g :: k)) with (last (g :: k)). by destruct (last (g :: k)) eqn:E; [|apply last_None in E]. Qed.

Lemma tree_at_frame h h' p t : (forall a, a ∈ inorder t -> h' !! a = h !! a) -> tree_at h p t -> tree_at h' p t.
Proof.
  revert p. induction t as [|c l IHl a r IHr]; intros p E; simpl; [done|]. intros (H & Hl & Hr).
  simpl in E. split_and!.
  - rewrite E; [done|]. set_solver.
  - apply IHl; [|done]. intros b Hb. apply E. set_solver.
  - apply IHr; [|done]. intros b Hb. apply E. set_solver.
Qed.

Lemma ctx_at_frame h h' k p : (forall a, a ∈ ctx_addrs k -> h' !! a = h !! a) -> ctx_at h k p -> ctx_at h' k p.
Proof.
  revert p. induction k as [|f k IH]; intros p E; simpl; [done|]. intros (H & Ho & Hk). simpl in E. split_and!.
  - rewrite E; [done|]. set_solver.
  - eapply tree_at_frame; [|done]. intros a Ha. apply E. set_solver.
  - apply IH; [|done]. intros a Ha. apply E. set_solver.
Qed.

(** Filling the hole. *)
Lemma plug_at h k t :
  tree_at h (parent_of k) t -> ctx_at h k (root_of t) ->
  tree_at h 0 (plug k t) /\ root_of (plug k t) = root_ptr k (root_of t).
Proof.
  revert t. induction k as [|f k IH]; intros t Ht Hk; simpl; [done|]. destruct Hk as (H & Ho & Hk).
  rewrite root_ptr_cons. destruct f as [d c a u]. simpl in *.
  specialize (IH (fill (mkFrame d c a u) t)). destruct d; simpl in *; apply IH; try done; split_and!; done.
Qed.

Lemma unplug_at h k t :
  tree_at h 0 (plug k t) -> tree_at h (parent_of k) t /\ ctx_at h k (root_of t).
Proof.
  revert t. induction k as [|f k IH]; intros t H; simpl in *; [done|].
  apply IH in H as [H Hk]. destruct f as [d c a u]; destruct d; simpl in *; destruct H as (? & ? & ?); by split_and!.
Qed.

Lemma plug_snoc k f u : plug (k ++ [f]) u = fill f (plug k u).
Proof. revert u. induction k as [|g k IH]; intros u; [done|]. simpl. by rewrite IH. Qed.

Lemma ctx_addrs_snoc k f : ctx_addrs (k ++ [f]) = ctx_addrs k ++ f_addr f :: inorder (f_other f).
Proof. induction k as [|g k IH]; simpl; [by rewrite app_nil_r|]. by rewrite IH, <- app_assoc. Qed.

(** The nodes before and after the hole. *)
Lemma inorder_plug k : exists l1 l2, l1 ++ l2 ≡ₚ ctx_addrs k /\ forall u, inorder (plug k u) = l1 ++ inorder u ++ l2.
Proof.
  induction k as [|f k IH] using rev_ind; [exists [], []; split; [done|]; intros u; by rewrite app_nil_r|].
  destruct IH as (l1 & l2 & Hp & H). destruct f as [d c a v]; destruct d.
  - exists l1, (l2 ++ a :: inorder v). split; [by rewrite ctx_addrs_snoc, app_assoc, Hp|].
    intros u. rewrite plug_snoc. simpl. rewrite H. by rewrite <- !app_assoc.
  - exists (inorder v ++ a :: l1), l2. split.
    + rewrite ctx_addrs_snoc, <- Hp. simpl. rewrite <- app_assoc. simpl. solve_Permutation.
    + intros u. rewrite plug_snoc. simpl. rewrite H. by rewrite <- !app_assoc.
Qed.

(** ** The red-black invariant *)

Definition color_of (t : tree) : Z := match t with Leaf => RB_BLACK | Node c _ _ _ => c end.
Definition black (t : tree) : Prop := color_of t = RB_BLACK.

(** No red node has a red child, and every path has [n] black nodes. *)
Inductive rb : tree -> nat -> Prop :=
| rb_leaf : rb Leaf 0
| rb_red l a r n : rb l n -> rb r n -> black l -> black r -> rb (Node RB_RED l a r) n
| rb_black l a r n : rb l n -> rb r n -> rb (Node RB_BLACK l a r) (S n).

(** The context takes a subtree of colour [c] and black height [n]. *)
Inductive rb_ctx : ctx -> Z -> nat -> Prop :=
| rb_ctx_nil n : rb_ctx [] RB_BLACK n
| rb_ctx_red d a u k n : rb u n -> black u -> rb_ctx k RB_RED n -> rb_ctx (mkFrame d RB_RED a u :: k) RB_BLACK n
| rb_ctx_black d a u k c n : rb u n -> rb_ctx k RB_BLACK (S n) -> is_color c -> rb_ctx (mkFrame d RB_BLACK a u :: k) c n.

Lemma rb_color t n : rb t n -> is_color (color_of t).
Proof. intros []; [by right|by left|by right]. Qed.

Lemma rb_node_on d c t a u n :
  rb t n -> rb u n -> is_color c -> (c = RB_RED -> black t /\ black u) ->
  rb (node_on d c t a u) (if decide (c = RB_RED) then n else S n).
Proof.
  intros Ht Hu [->| ->] Hc; [rewrite decide_True by done|rewrite decide_False by done]; destruct d; simpl; constructor; try done; tauto.
Qed.

Lemma rb_plug k t n : rb t n -> rb_ctx k (color_of t) n -> exists m, rb (plug k t) m /\ black (plug k t).
Proof.
  revert t n. induction k as [|f k IH]; intros t n Ht Hk; inversion Hk; subst; simpl.
  - exists n. split; [done|]. by unfold black.
  - apply (IH _ n); [|by destruct d]. destruct d; constructor; done.
  - apply (IH _ (S n)); [|by destruct d]. destruct d; constructor; done.
Qed.

Lemma rb_unplug k t m :
  rb (plug k t) m -> black (plug k t) -> exists n, rb t n /\ rb_ctx k (color_of t) n.
Proof.
  revert t. induction k as [|f k IH]; intros t H Hb; simpl in *.
  - exists m. split; [done|]. unfold black in Hb. rewrite Hb. constructor.
  - destruct (IH _ H Hb) as (n & Hn & Hk). destruct f as [d c a u]. unfold fill in *. simpl in *.
    destruct d; inversion Hn; subst; simpl in Hk; eexists; split; try eassumption.
    all: first [match goal with Hx : rb_ctx _ RB_RED _, Hc : black ?x |- rb_ctx _ (color_of ?x) _ => unfold black in Hc; rewrite Hc; by constructor end
               |constructor; [done|done|by eapply rb_color]].
Qed.

(** ** Symbolic execution *)

Lemma wp_node_at h r p n (Q : rb_node_ -> RbTree -> Prop) :
  h !! p = Some n -> Q n (mkRbTree h r) -> wp (node_at p) Q (mkRbTree h r).
Proof. intros E HQ. unfold node_at. apply wp_bind, wp_get_state. simpl. rewrite E. done. Qed.

Lemma wp_child d h r p n (Q : Z -> RbTree -> Prop) :
  h !! p = Some n -> Q (child_of d n) (mkRbTree h r) -> wp (child d p) Q (mkRbTree h r).
Proof. intros E HQ. apply wp_bind. by eapply wp_node_at. Qed.

Lemma wp_parent_color h r p n (Q : Z -> RbTree -> Prop) :
  h !! p = Some n -> Q (__rb_parent_color n) (mkRbTree h r) -> wp (parent_color p) Q (mkRbTree h r).
Proof. intros E HQ. apply wp_bind. by eapply wp_node_at. Qed.

Lemma wp_set_child d h r p c n (Q : unit -> RbTree -> Prop) :
  h !! p = Some n -> Q tt (mkRbTree (<[p := with_child d c n]> h) r) -> wp (set_child d p c) Q (mkRbTree h r).
Proof. intros E HQ. apply wp_bind. by eapply wp_node_at. Qed.

Lemma wp_set_pc h r p pc n (Q : unit -> RbTree -> Prop) :
  h !! p = Some n -> Q tt (mkRbTree (<[p := mkRb pc (rb_right n) (rb_left n)]> h) r) -> wp (set_pc p pc) Q (mkRbTree h r).
Proof. intros E HQ. apply wp_bind. by eapply wp_node_at. Qed.
