(* ===== verification/RbRotate.v ===== *)
(** Rotations of red-black trees: the pointer code of [insert_rotate] and of
    the helpers below it turns one tree into the other. *)
From Stdlib Require Import ZArith Lia.
From stdpp Require Import base numbers gmap list.
From S2P Require Import Prelude RbTree.

#[local] Opaque child set_child parent_color set_pc.

(** Reduce accesses to literal nodes. *)
Ltac rb_simpl := cbn [child_of with_child other __rb_parent_color rb_right rb_left f_side f_color f_addr f_other parent_of].

(** Solve a lookup in a heap with some nodes overwritten. *)
Ltac rb_ne := first [assumption | apply not_eq_sym; assumption | congruence | set_solver].
Ltac rb_lookup :=
  repeat first [rewrite lookup_insert_eq | rewrite lookup_insert_ne by rb_ne]; first [eassumption | reflexivity].

(** One access. *)
Ltac rb_step :=
  lazymatch goal with
  | |- wp (mbind _ _) _ _ => apply wp_bind
  | |- wp (mret _) _ _ => apply wp_ret
  | |- wp (child _ _) _ _ => eapply wp_child; [rb_lookup|]; rb_simpl
  | |- wp (parent_color _) _ _ => eapply wp_parent_color; [rb_lookup|]; rb_simpl
  | |- wp (set_child _ _ _) _ _ => eapply wp_set_child; [rb_lookup|]; rb_simpl
  | |- wp (rb_set_parent_color _ _ _) _ _ => eapply wp_set_pc; [rb_lookup|]; rb_simpl
  | |- wp (set_pc _ _) _ _ => eapply wp_set_pc; [rb_lookup|]; rb_simpl
  end.

Definition agree_off (l : list Z) (h h' : gmap Z rb_node_) : Prop := forall x, x ∉ l -> h' !! x = h !! x.

Lemma tree_at_off h h' l p t : agree_off l h h' -> (forall x, x ∈ inorder t -> x ∉ l) -> tree_at h p t -> tree_at h' p t.
Proof. intros Ha Hl. apply tree_at_frame. intros x Hx. apply Ha. by apply Hl. Qed.

Lemma ctx_at_off h h' l k p : agree_off l h h' -> (forall x, x ∈ ctx_addrs k -> x ∉ l) -> ctx_at h k p -> ctx_at h' k p.
Proof. intros Ha Hl. apply ctx_at_frame. intros x Hx. apply Ha. by apply Hl. Qed.

Lemma root_of_ne t p : p <> 0 -> p ∉ inorder t -> root_of t <> p.
Proof. destruct t; simpl; [done|]. set_solver. Qed.

(** The node above the hole. *)
Definition parents (k : ctx) : list Z := match k with [] => [] | f :: _ => [f_addr f] end.

Lemma parents_in k x : x ∈ parents k -> x ∈ ctx_addrs k.
Proof. destruct k; simpl; set_solver. Qed.

Lemma wp_change_child h r k old new :
  ctx_at h k old -> NoDup (ctx_addrs k) -> old ∉ ctx_addrs k -> old <> 0 -> Forall addr_ok (ctx_addrs k) ->
  wp (__rb_change_child old new (parent_of k)) (fun _ s' =>
    ctx_at (rb_heap s') k new /\ rb_root s' = (if decide (k = []) then new else r) /\
    agree_off (parents k) h (rb_heap s')) (mkRbTree h r).
Proof.
  intros Hk Hnd Hold H0 Hok. unfold __rb_change_child. destruct k as [|f k]; simpl.
  { apply wp_modify. simpl. split_and!; [done|done|]. intros x _. done. }
  simpl in *. destruct Hk as (Hf & Ho & Hk). inversion Hok as [|? ? [Hpos _] _]; subst.
  rewrite (proj2 (Z.eqb_neq (f_addr f) 0)) by lia. cbn [negb].
  assert (forall h', agree_off [f_addr f] h h' -> tree_at h' (f_addr f) (f_other f) /\ ctx_at h' k (f_addr f)) as Hframe.
  { intros h' Ha. apply NoDup_cons in Hnd as [Hn Hnd]. split.
    - eapply tree_at_off; [done| |done]. set_solver.
    - eapply ctx_at_off; [done| |done]. set_solver. }
  assert (forall n, agree_off [f_addr f] h (<[f_addr f := n]> h)) as Hins.
  { intros n x Hx. rewrite lookup_insert_ne; [done|]. set_solver. }
  destruct f as [d c a u]; destruct d; rb_step; rb_step; cbn [f_side other with_child rb_left rb_right __rb_parent_color f_other].
  - rewrite Z.eqb_refl. rb_step. destruct (Hframe _ (Hins (mkRb (Z.lor (parent_of k) c) (root_of u) new))) as [H1 H2].
    split; [split; [apply lookup_insert_eq|done]|split; [done|apply Hins]].
  - rewrite (proj2 (Z.eqb_neq _ old)). 2: { apply root_of_ne; [done|]. set_solver. }
    rb_step. destruct (Hframe _ (Hins (mkRb (Z.lor (parent_of k) c) new (root_of u)))) as [H1 H2].
    split; [split; [apply lookup_insert_eq|done]|split; [done|apply Hins]].
Qed.

Lemma ctx_at_old k : parent_of k mod 4 = 0 \/ Forall addr_ok (ctx_addrs k) -> parent_of k mod 4 = 0.
Proof. intros [|H]; [done|]. destruct k as [|f k]; [done|]. inversion H as [|? ? [_ E] _]. done. Qed.

(** [new] takes the place of [old], which becomes its child. *)
Lemma wp_rotate_set_parents h r k old new color c ro lo x rn ln :
  ctx_at h k old -> NoDup (ctx_addrs k) -> old ∉ ctx_addrs k -> new ∉ ctx_addrs k -> old <> new -> old <> 0 ->
  Forall addr_ok (ctx_addrs k) -> is_color c ->
  h !! old = Some (mkRb (Z.lor (parent_of k) c) ro lo) -> h !! new = Some (mkRb x rn ln) ->
  wp (__rb_rotate_set_parents old new color) (fun _ s' =>
    let h' := rb_heap s' in
    h' !! old = Some (mkRb (Z.lor new color) ro lo) /\ h' !! new = Some (mkRb (Z.lor (parent_of k) c) rn ln) /\
    ctx_at h' k new /\ rb_root s' = (if decide (k = []) then new else r) /\
    agree_off (old :: new :: parents k) h h') (mkRbTree h r).
Proof.
  intros Hk Hnd Hold Hnew Hne H0 Hok Hc Ho Hn. unfold __rb_rotate_set_parents, rb_parent, rb_set_parent_color.
  assert (parent_of k mod 4 = 0) as Hp by (apply ctx_at_old; by right).
  rb_step. rb_step. rb_step. rb_step. rewrite pc_parent by done. rb_step. rb_step. rb_step. rb_step. rb_step. rb_step.
  match goal with |- wp _ _ (mkRbTree ?x _) => set (h1 := x) end.
  assert (agree_off [old; new] h h1) as Ha.
  { intros y Hy. unfold h1. rewrite !lookup_insert_ne by set_solver. done. }
  eapply wp_mono; [apply (wp_change_child h1 r k old new); try done|].
  { eapply ctx_at_off; [done| |done]. set_solver. }
  intros [] s' (Hk' & Hr & Ha'). cbv zeta. split_and!.
  - rewrite Ha'; [unfold h1; rb_lookup|]. intros ?%parents_in. done.
  - rewrite Ha'; [unfold h1; rb_lookup|]. intros ?%parents_in. done.
  - done.
  - done.
  - intros y Hy. rewrite Ha' by set_solver. apply Ha. set_solver.
Qed.

Lemma agree_off_trans l l' h1 h2 h3 : agree_off l h1 h2 -> agree_off l' h2 h3 -> agree_off (l ++ l') h1 h3.
Proof. intros A B x Hx. rewrite B by set_solver. apply A. set_solver. Qed.

Lemma agree_off_insert h a n : agree_off [a] h (<[a := n]> h).
Proof. intros x Hx. rewrite lookup_insert_ne; [done|]. set_solver. Qed.

(** A black subtree moves below [q]. *)
Lemma wp_reparent h r t p q :
  tree_at h p t -> black t -> NoDup (inorder t) -> Forall addr_ok (inorder t) ->
  wp (if_node (root_of t) (rb_set_parent_color (root_of t) q RB_BLACK)) (fun _ s' =>
    exists h', s' = mkRbTree h' r /\ tree_at h' q t /\ agree_off (inorder t) h h') (mkRbTree h r).
Proof.
  intros Ht Hb Hnd Hok. unfold if_node, rb_set_parent_color. destruct t as [|c l a u]; simpl.
  { exists h. split_and!; try done. }
  simpl in *. destruct Ht as (Ha & Hl & Hu). apply NoDup_app in Hnd as (Hnl & Hdl & Hnd).
  apply NoDup_cons in Hnd as [Hau Hnu].
  assert (addr_ok a) as [Hpos _] by (rewrite Forall_forall in Hok; apply Hok; set_solver).
  rewrite (proj2 (Z.eqb_neq a 0)) by lia. cbn [negb]. rb_step. eexists. split; [done|].
  unfold black in Hb. simpl in Hb. subst c. split.
  - split_and!.
    + apply lookup_insert_eq.
    + eapply tree_at_off; [apply agree_off_insert| |done]. set_solver.
    + eapply tree_at_off; [apply agree_off_insert| |done]. set_solver.
  - intros x Hx. rewrite lookup_insert_ne; [done|]. set_solver.
Qed.

(** The tree that replaces the grandparent [g] (black) with its red child [p]
    on side [d] and its red grandchild on side [dp] of [p]. *)
Definition rotated (d dp : side) (l : tree) (a : Z) (r : tree) (p : Z) (bp : tree) (g : Z) (u : tree) : tree :=
  match d, dp with
  | Left, Left => Node RB_BLACK (Node RB_RED l a r) p (Node RB_RED bp g u)
  | Left, Right => Node RB_BLACK (Node RB_RED bp p l) a (Node RB_RED r g u)
  | Right, Left => Node RB_BLACK (Node RB_RED u g l) a (Node RB_RED r p bp)
  | Right, Right => Node RB_BLACK (Node RB_RED u g bp) p (Node RB_RED l a r)
  end.

Section rotate.
Context (h : gmap Z rb_node_) (rt : Z) (k : ctx) (l r bp u : tree) (a p g : Z).
Context (Hnd : NoDup (inorder (Node RB_RED l a r) ++ p :: inorder bp ++ g :: inorder u ++ ctx_addrs k)).
Context (Hok : Forall addr_ok (inorder (Node RB_RED l a r) ++ p :: inorder bp ++ g :: inorder u ++ ctx_addrs k)).
Context (Hl : black l) (Hr : black r) (Hbp : black bp).

(** What the addresses have in common: nothing. *)
Record apart : Prop := {
  ap_nodup : NoDup (inorder l) /\ NoDup (inorder r) /\ NoDup (inorder bp) /\ NoDup (inorder u) /\ NoDup (ctx_addrs k);
  ap_nodes : a <> p /\ a <> g /\ p <> g /\ a <> 0 /\ p <> 0 /\ g <> 0;
  ap_a : a ∉ inorder l /\ a ∉ inorder r /\ a ∉ inorder bp /\ a ∉ inorder u /\ a ∉ ctx_addrs k;
  ap_p : p ∉ inorder l /\ p ∉ inorder r /\ p ∉ inorder bp /\ p ∉ inorder u /\ p ∉ ctx_addrs k;
  ap_g : g ∉ inorder l /\ g ∉ inorder r /\ g ∉ inorder bp /\ g ∉ inorder u /\ g ∉ ctx_addrs k;
  ap_l : forall x, x ∈ inorder l -> x ∉ inorder r /\ x ∉ inorder bp /\ x ∉ inorder u /\ x ∉ ctx_addrs k;
  ap_r : forall x, x ∈ inorder r -> x ∉ inorder bp /\ x ∉ inorder u /\ x ∉ ctx_addrs k;
  ap_bp : forall x, x ∈ inorder bp -> x ∉ inorder u /\ x ∉ ctx_addrs k;
  ap_u : forall x, x ∈ inorder u -> x ∉ ctx_addrs k;
}.

Lemma rotate_apart : apart.
Proof.
  simpl in Hnd, Hok. rewrite <- app_assoc in Hnd, Hok. simpl in Hnd, Hok.
  rewrite Forall_forall in Hok.
  assert (0 < a /\ 0 < p /\ 0 < g) as (? & ? & ?).
  { split_and!; apply Hok; repeat (rewrite elem_of_app || rewrite elem_of_cons); tauto. }
  clear Hok.
  repeat (rewrite NoDup_app in Hnd || rewrite NoDup_cons in Hnd).
  repeat (setoid_rewrite not_elem_of_app in Hnd || setoid_rewrite not_elem_of_cons in Hnd).
  destruct Hnd as (? & N1 & N2 & ? & N3 & N4 & ? & N5 & N6 & ? & N7 & ?).
  split; split_and?; try tauto; try lia; try (intros x Hx; specialize (N1 x) || specialize (N3 x) || specialize (N5 x); tauto).
  all: try (intros Hx; first [specialize (N1 _ Hx); tauto|specialize (N3 _ Hx); tauto|specialize (N5 _ Hx); tauto]).
  all: intros x Hx; first [specialize (N1 x Hx); tauto|specialize (N3 x Hx); tauto|specialize (N5 x Hx); tauto|by apply N7].
Qed.

Abbreviation whole := (inorder (Node RB_RED l a r) ++ p :: inorder bp ++ g :: inorder u ++ ctx_addrs k).

Lemma ok_sub x : x ∈ whole -> addr_ok x.
Proof. rewrite Forall_forall in Hok. apply Hok. Qed.

Lemma ok_list m : (forall x, x ∈ m -> x ∈ whole) -> Forall addr_ok m.
Proof. intros H. apply Forall_forall. intros x Hx. by apply ok_sub, H. Qed.

Definition rotation_done (t' : tree) (s' : RbTree) : Prop :=
  tree_at (rb_heap s') (parent_of k) t' /\ ctx_at (rb_heap s') k (root_of t') /\
  rb_root s' = (if decide (k = []) then root_of t' else rt) /\ agree_off whole h (rb_heap s').

Ltac in_whole := intros ?x; cbn [inorder]; repeat (rewrite elem_of_app || rewrite elem_of_cons); rewrite ?elem_of_nil; tauto.

(** The last step: [n], below [g], takes its place. *)
Lemma wp_rotate_finish m h3 n x rg lg rn ln (Q : RbTree -> Prop) :
  agree_off m h h3 -> (forall y, y ∈ ctx_addrs k -> y ∉ m) -> ctx_at h k g ->
  n = a \/ n = p ->
  h3 !! g = Some (mkRb (Z.lor (parent_of k) RB_BLACK) rg lg) -> h3 !! n = Some (mkRb x rn ln) ->
  (forall s', rb_heap s' !! g = Some (mkRb (Z.lor n RB_RED) rg lg) ->
     rb_heap s' !! n = Some (mkRb (Z.lor (parent_of k) RB_BLACK) rn ln) -> ctx_at (rb_heap s') k n ->
     rb_root s' = (if decide (k = []) then n else rt) -> agree_off (g :: n :: ctx_addrs k) h3 (rb_heap s') -> Q s') ->
  wp (__rb_rotate_set_parents g n RB_RED) (fun _ => Q) (mkRbTree h3 rt).
Proof.
  pose proof rotate_apart as [(_ & _ & _ & _ & Nk) (_ & Eag & Epg & _ & _ & Eg) A P G _ _ _ _].
  intros Hm Hmk Hk Hn Hg3 Hn3 HQ.
  eapply wp_mono; [eapply (wp_rotate_set_parents h3 rt k g n RB_RED RB_BLACK); try done|].
  - by eapply ctx_at_off.
  - apply G.
  - destruct Hn as [->| ->]; [apply A|apply P].
  - destruct Hn as [->| ->]; congruence.
  - apply ok_list. in_whole.
  - by right.
  - intros [] s' (H1 & H2 & H3 & H4 & H5). apply HQ; try done. intros y Hy. apply H5.
    rewrite !not_elem_of_cons in *. destruct Hy as (? & ? & Hy). split_and!; [done|done|]. intros Hy'. by apply Hy, parents_in.
Qed.

Ltac off := let y := fresh "y" in let Hy := fresh "Hy" in
  intros y Hy; repeat (rewrite not_elem_of_app || rewrite not_elem_of_cons); 
  repeat match goal with
  | H : forall x, x ∈ inorder l -> _ |- _ => specialize (H y)
  | H : forall x, x ∈ inorder r -> _ |- _ => specialize (H y)
  | H : forall x, x ∈ inorder bp -> _ |- _ => specialize (H y)
  | H : forall x, x ∈ inorder u -> _ |- _ => specialize (H y)
  end; split_and?; try apply not_elem_of_nil; try tauto; try (intros ->; tauto); try (intros ?; tauto).

Ltac notin := repeat (rewrite not_elem_of_app || rewrite not_elem_of_cons); split_and?; try apply not_elem_of_nil; try tauto; try congruence.
Ltac widen := let x := fresh "x" in let Hx := fresh "Hx" in
  intros x Hx; match goal with H : agree_off _ h ?h' |- ?h' !! x = _ => apply H end; intros Hin; apply Hx; revert Hin;
  cbn [inorder]; repeat (rewrite elem_of_app || rewrite elem_of_cons); rewrite ?elem_of_nil; tauto.

(** The node is on the same side of its parent as the parent of its own. *)
Lemma wp_rotate_outer d :
  tree_at h p (Node RB_RED l a r) -> ctx_at h (mkFrame d RB_RED p bp :: mkFrame d RB_BLACK g u :: k) a ->
  wp (insert_rotate d a p g) (fun _ => rotation_done (rotated d d l a r p bp g u)) (mkRbTree h rt).
Proof.
  pose proof rotate_apart as [(Nl & Nr & Nb & Nu & Nk) (Eap & Eag & Epg & Ea & Ep & Eg) A P G L R B U].
  intros (Ha & Hl' & Hr') (Hp & Hb & Hg & Hu & Hk). simpl in Hp, Hb, Hg, Hu, Hk.
  assert (root_of bp <> a) as Hne by (apply root_of_ne; tauto).
  unfold insert_rotate. destruct d; cbn [other] in *;
    (rb_step; rb_step; rewrite (proj2 (Z.eqb_neq a (root_of bp))) by congruence; rb_step; rb_step; rb_step; rb_step; rb_step;
     match goal with |- wp _ _ (mkRbTree ?x _) => set (h1 := x) end; assert (agree_off [g] h h1) as A1 by apply agree_off_insert;
     eapply wp_mono; [apply (wp_reparent h1 rt bp p g); [eapply tree_at_off; [done| |done]; off|done|done|apply ok_list; in_whole]|];
     intros [] s2 (h2 & -> & Hb2 & A2);
     assert (h2 !! p = h !! p) as Ep2 by (rewrite A2, A1 by set_solver; done); rewrite Hp in Ep2;
     assert (h2 !! g = h1 !! g) as Eg2 by (rewrite A2 by tauto; done); unfold h1 in Eg2; rewrite lookup_insert_eq in Eg2;
     rb_step; rb_step;
     match goal with |- wp _ _ (mkRbTree ?x _) => set (h3 := x) end; assert (agree_off [p] h2 h3) as A3 by apply agree_off_insert;
     pose proof (agree_off_trans _ _ _ _ _ A1 (agree_off_trans _ _ _ _ _ A2 A3)) as A13;
     eapply (wp_rotate_finish _ h3 p); [exact A13|off|done|by right|unfold h3; rb_lookup|unfold h3; rb_lookup|];
     intros s' Hg' Hp' Hk' Hr'' A4; pose proof (agree_off_trans _ _ _ _ _ A13 A4) as A14).
  all: split_and!; try done; [cbn [rotated tree_at]; split_and!; try done|widen].
  all: first [rewrite A14; [done|notin]
             |eapply tree_at_off; [exact A14|off|done]
             |eapply (tree_at_off h2); [exact (agree_off_trans _ _ _ _ _ A3 A4)|off|done]].
Qed.

(** The steps after [p] took the subtree [i] of [a] from the side of [bp]:
    [i] moves below [p], [p] below [a], the other subtree [o] below [g]. *)
Ltac inner_case i o Ha Hg :=
  match goal with A1 : agree_off [p] h ?h1 |- _ =>
    eapply wp_mono; [apply (wp_reparent h1 rt i a p); [eapply tree_at_off; [done|off|done]|done|done|done]|];
    let s2 := fresh "s" in let h2 := fresh "h" in let Hi := fresh "Hi" in let A2 := fresh "A" in
    intros [] s2 (h2 & -> & Hi & A2);
    assert (h2 !! p = h1 !! p) as Ep2 by (rewrite A2 by tauto; done); unfold h1 in Ep2; rewrite lookup_insert_eq in Ep2;
    assert (h2 !! a = h !! a) as Ea2 by (rewrite A2, A1 by notin; done); rewrite Ha in Ea2;
    assert (h2 !! g = h !! g) as Eg2 by (rewrite A2, A1 by notin; done); rewrite Hg in Eg2;
    do 7 rb_step; cbn iota; do 3 rb_step;
    let h3 := fresh "h" in let A3 := fresh "A" in
    match goal with |- wp _ _ (mkRbTree ?x _) => set (h3 := x) end;
    assert (agree_off [p; a; g] h2 h3) as A3 by (intros y Hy; unfold h3; rewrite !not_elem_of_cons in Hy; rewrite !lookup_insert_ne by (intros ->; tauto); done);
    let A13 := fresh "A" in pose proof (agree_off_trans _ _ _ _ _ A1 (agree_off_trans _ _ _ _ _ A2 A3)) as A13;
    eapply wp_mono; [apply (wp_reparent h3 rt o a g); [eapply tree_at_off; [exact A13|off|done]|done|done|done]|];
    let s4 := fresh "s" in let h4 := fresh "h" in let Ho := fresh "Ho" in let A4 := fresh "A" in
    intros [] s4 (h4 & -> & Ho & A4);
    assert (h4 !! p = h3 !! p) as Ep4 by (rewrite A4 by tauto; done);
    assert (h4 !! a = h3 !! a) as Ea4 by (rewrite A4 by tauto; done);
    assert (h4 !! g = h3 !! g) as Eg4 by (rewrite A4 by tauto; done);
    unfold h3 in Ep4, Ea4, Eg4;
    rewrite (lookup_insert_ne _ g p), lookup_insert_eq in Ep4 by congruence;
    rewrite (lookup_insert_ne _ g a), (lookup_insert_ne _ p a), lookup_insert_eq in Ea4 by congruence;
    rewrite lookup_insert_eq in Eg4;
    do 2 rb_step;
    let h5 := fresh "h" in let A5 := fresh "A" in
    match goal with |- wp _ _ (mkRbTree ?x _) => set (h5 := x) end;
    assert (agree_off [a] h4 h5) as A5 by apply agree_off_insert;
    let A15 := fresh "A" in pose proof (agree_off_trans _ _ _ _ _ A13 (agree_off_trans _ _ _ _ _ A4 A5)) as A15;
    eapply (wp_rotate_finish _ h5 a); [exact A15|off|done|by left|unfold h5; rb_lookup|unfold h5; rb_lookup|];
    let s' := fresh "s" in let A6 := fresh "A" in
    intros s' ? ? ? ? A6;
    let A16 := fresh "A" in pose proof (agree_off_trans _ _ _ _ _ A15 A6) as A16;
    assert (rb_heap s' !! p = h5 !! p) as Ep6 by (rewrite A6 by notin; done);
    unfold h5 in Ep6; rewrite lookup_insert_ne, Ep4 in Ep6 by congruence;
    split_and!; [cbn [rotated tree_at]; split_and!; try done|done|done|widen];
    first [eapply tree_at_off; [exact A16|off|done]
          |eapply (tree_at_off h4); [exact (agree_off_trans _ _ _ _ _ A5 A6)|off|done]
          |eapply (tree_at_off h2); [exact (agree_off_trans _ _ _ _ _ A3 (agree_off_trans _ _ _ _ _ A4 (agree_off_trans _ _ _ _ _ A5 A6)))|off|done]]
  end.

(** The node is on the other side: it comes up two levels. *)
Lemma wp_rotate_inner d :
  tree_at h p (Node RB_RED l a r) -> ctx_at h (mkFrame (other d) RB_RED p bp :: mkFrame d RB_BLACK g u :: k) a ->
  wp (insert_rotate d a p g) (fun _ => rotation_done (rotated d (other d) l a r p bp g u)) (mkRbTree h rt).
Proof.
  pose proof rotate_apart as [(Nl & Nr & Nb & Nu & Nk) (Eap & Eag & Epg & Ea & Ep & Eg) A P G L R B U].
  intros (Ha & Hl' & Hr') (Hp & Hb & Hg & Hu & Hk). simpl in Hp, Hb, Hg, Hu, Hk.
  unfold insert_rotate.
  set (i := match d with Left => l | Right => r end). set (o := match d with Left => r | Right => l end).
  assert (tree_at h a i /\ black i /\ NoDup (inorder i) /\ Forall addr_ok (inorder i)) as (Hi1 & Hi2 & Hi3 & Hi4).
  { destruct d; split_and!; try done; apply ok_list; in_whole. }
  assert (tree_at h a o /\ black o /\ NoDup (inorder o) /\ Forall addr_ok (inorder o)) as (Ho1 & Ho2 & Ho3 & Ho4).
  { destruct d; split_and!; try done; apply ok_list; in_whole. }
  destruct d; cbn [other] in *; subst i o;
    (rb_step; rb_step; rewrite Z.eqb_refl; rb_step; rb_step; rb_step; rb_step; rb_step; rb_step;
     match goal with |- wp _ _ (mkRbTree ?x _) => set (h1 := x) end; assert (agree_off [p] h h1) as A1 by apply agree_off_insert).
  - inner_case l r Ha Hg.
  - inner_case r l Ha Hg.
Qed.
End rotate.
