(* ===== verification/RbFix.v ===== *)
(** Rebalancing after an insertion: [insert_fix_loop] turns a tree with a red
    node below a red parent into a red-black tree with the same nodes in the
    same order. *)
From Stdlib Require Import ZArith Lia.
From stdpp Require Import base numbers gmap list.
From S2P Require Import Prelude RbTree RbRotate.

#[local] Opaque child set_child parent_color set_pc.

(** ** Rebalancing *)

Definition repr (s : RbTree) (t : tree) : Prop := tree_at (rb_heap s) 0 t /\ rb_root s = root_of t.

Lemma root_ptr_eq k p q : k <> [] -> root_ptr k p = root_ptr k q.
Proof. intros Hk. unfold root_ptr. destruct (last k) eqn:E; [done|]. by apply last_None in E. Qed.

Lemma elem_plug k t x : x ∈ inorder (plug k t) <-> x ∈ inorder t \/ x ∈ ctx_addrs k.
Proof.
  destruct (inorder_plug k) as (l1 & l2 & Hp & ->). rewrite !elem_of_app, <- Hp, elem_of_app. tauto.
Qed.

Lemma inorder_plug_eq k t u : inorder t = inorder u -> inorder (plug k t) = inorder (plug k u).
Proof. intros E. destruct (inorder_plug k) as (l1 & l2 & _ & H). by rewrite !H, E. Qed.

Lemma perm_plug k t : inorder (plug k t) ≡ₚ inorder t ++ ctx_addrs k.
Proof.
  destruct (inorder_plug k) as (l1 & l2 & Hp & ->). rewrite <- Hp, !app_assoc.
  apply Permutation_app; [|done]. apply Permutation_app_comm.
Qed.

(** A hole filled with a tree of the colour and height the context takes is
    again a red-black tree in the heap. *)
Lemma plug_repr h' rt' k t n :
  tree_at h' (parent_of k) t -> ctx_at h' k (root_of t) -> rt' = root_ptr k (root_of t) ->
  rb t n -> rb_ctx k (color_of t) n ->
  repr (mkRbTree h' rt') (plug k t) /\ (exists m, rb (plug k t) m) /\ black (plug k t).
Proof.
  intros Ht Hk -> Hrb Hkc. destruct (plug_at h' k t Ht Hk) as [H1 H2]. destruct (rb_plug k t n Hrb Hkc) as (m & H3 & H4).
  split_and!; [split; [done|by rewrite H2]|eauto|done].
Qed.

Lemma rotated_rb d dp l a r p bp g u n :
  rb l n -> rb r n -> rb bp n -> rb u n -> black l -> black r -> black bp -> black u ->
  rb (rotated d dp l a r p bp g u) (S n) /\ color_of (rotated d dp l a r p bp g u) = RB_BLACK.
Proof. intros. destruct d, dp; simpl; (split; [|done]); repeat constructor; done. Qed.

Lemma rotated_inorder d dp l a r p bp g u :
  inorder (rotated d dp l a r p bp g u) =
  inorder (fill (mkFrame d RB_BLACK g u) (fill (mkFrame dp RB_RED p bp) (Node RB_RED l a r))).
Proof. destruct d, dp; simpl; repeat (rewrite <- app_assoc; simpl); done. Qed.

(** The uncle is red: it and the parent turn black, the grandparent red. *)
Definition lifted (d dp : side) (t : tree) (p : Z) (bp : tree) (g : Z) (u : tree) : tree :=
  node_on d RB_RED (node_on dp RB_BLACK t p bp) g u.

Definition blacken (t : tree) : tree := match t with Leaf => Leaf | Node _ l a r => Node RB_BLACK l a r end.

Lemma inorder_blacken t : inorder (blacken t) = inorder t.
Proof. by destruct t. Qed.

Definition fixed (h : gmap Z rb_node_) (l : list Z) (s' : RbTree) : Prop :=
  exists t', repr s' t' /\ inorder t' = l /\ (exists m, rb t' m) /\ black t' /\ agree_off l h (rb_heap s').

Lemma lift_at h k l a r p bp g ul ua ur d dp :
  NoDup (inorder (Node RB_RED l a r) ++ p :: inorder bp ++ g :: inorder (Node RB_RED ul ua ur) ++ ctx_addrs k) ->
  tree_at h p (Node RB_RED l a r) ->
  ctx_at h (mkFrame dp RB_RED p bp :: mkFrame d RB_BLACK g (Node RB_RED ul ua ur) :: k) a ->
  exists gr gl pr pl, h !! g = Some (mkRb (Z.lor (parent_of k) RB_BLACK) gr gl) /\
    h !! p = Some (mkRb (Z.lor g RB_RED) pr pl) /\
    let h' := <[g := mkRb (Z.lor (parent_of k) RB_RED) gr gl]> (<[p := mkRb (Z.lor g RB_BLACK) pr pl]>
                (<[ua := mkRb (Z.lor g RB_BLACK) (root_of ur) (root_of ul)]> h)) in
    tree_at h' (parent_of k) (lifted d dp (Node RB_RED l a r) p bp g (Node RB_BLACK ul ua ur)) /\ ctx_at h' k g.
Proof.
  intros Hnd (Ha & Hl & Hr) (Hp & Hb & Hg & (Hu & Hul & Hur) & Hk). simpl in Hp, Hb, Hg, Hu, Hul, Hur, Hk.
  simpl in Hnd. repeat (rewrite <- app_assoc in Hnd; simpl in Hnd).
  repeat (rewrite NoDup_app in Hnd || rewrite NoDup_cons in Hnd).
  repeat (setoid_rewrite not_elem_of_app in Hnd || setoid_rewrite not_elem_of_cons in Hnd).
  destruct Hnd as (_ & N1 & N2 & _ & N3 & N4 & _ & N5 & N6 & _ & N7 & N8 & _ & N9 & _).
  assert (forall h', agree_off [g; p; ua] h h' -> 
    tree_at h' a l /\ tree_at h' a r /\ h' !! a = h !! a /\ tree_at h' p bp /\ tree_at h' ua ul /\ tree_at h' ua ur /\ ctx_at h' k g) as Hframe.
  { intros h' Ao. split_and!.
    1, 2, 4, 5, 6: (eapply tree_at_off; [exact Ao| |done]; intros x Hx; rewrite !not_elem_of_cons).
    - specialize (N1 x Hx). split_and!; try apply not_elem_of_nil; tauto.
    - specialize (N3 x Hx). split_and!; try apply not_elem_of_nil; tauto.
    - specialize (N5 x Hx). split_and!; try apply not_elem_of_nil; intros ->; tauto.
    - specialize (N7 x Hx). split_and!; try apply not_elem_of_nil; intros ->; tauto.
    - specialize (N9 x Hx). split_and!; try apply not_elem_of_nil; intros ->; tauto.
    - apply Ao. rewrite !not_elem_of_cons. split_and!; try apply not_elem_of_nil; tauto.
    - eapply ctx_at_off; [exact Ao| |done]. intros x Hx. rewrite !not_elem_of_cons. split_and!; try apply not_elem_of_nil; intros ->; tauto. }
  assert (p <> g /\ p <> ua /\ g <> ua) as (Epg & Epu & Egu) by tauto.
  destruct d, dp; simpl in Hp, Hg; do 4 eexists; (split; [exact Hg|split; [exact Hp|]]); cbv zeta;
    (match goal with |- tree_at ?x _ _ /\ _ => destruct (Hframe x) as (F1 & F2 & F3 & F4 & F5 & F6 & F7) end;
     [intros x Hx; rewrite !not_elem_of_cons in Hx; rewrite !lookup_insert_ne by (intros ->; tauto); done|]);
    (split; [|exact F7]); simpl; split_and!; try done; try (rb_lookup); by rewrite F3.
Qed.

Lemma lor_red g : Z.lor g RB_RED = g.
Proof. apply Z.lor_0_r. Qed.

Lemma ctx_mod h k p : ctx_at h k p -> Forall addr_ok (ctx_addrs k) -> parent_of k mod 4 = 0.
Proof. intros _ H. apply ctx_at_old. by right. Qed.

(** A node by the child on side [d] and the other one. *)
Lemma node_child d x y pc : child_of d (with_child d x (with_child (other d) y (mkRb pc 0 0))) = x.
Proof. by destruct d. Qed.
Lemma node_other d x y pc : child_of (other d) (with_child d x (with_child (other d) y (mkRb pc 0 0))) = y.
Proof. by destruct d. Qed.
Lemma node_pc d x y pc : __rb_parent_color (with_child d x (with_child (other d) y (mkRb pc 0 0))) = pc.
Proof. by destruct d. Qed.

(** The side of the parent, as the code finds it. *)
Lemma parent_side d p u pc :
  p <> 0 -> p ∉ inorder u ->
  (if negb (p =? child_of Right (with_child d p (with_child (other d) (root_of u) (mkRb pc 0 0)))) then Left else Right) = d.
Proof.
  intros Hp Hu. destruct d; simpl; [|by rewrite Z.eqb_refl].
  rewrite (proj2 (Z.eqb_neq p _)); [done|]. apply not_eq_sym. by apply root_of_ne.
Qed.

Lemma lifted_node d dp l a r p bp g ul ua ur n :
  rb l n -> rb r n -> black l -> black r -> rb bp n -> rb (Node RB_RED ul ua ur) n ->
  exists L R, lifted d dp (Node RB_RED l a r) p bp g (Node RB_BLACK ul ua ur) = Node RB_RED L g R /\
    rb L (S n) /\ rb R (S n) /\ black L /\ black R.
Proof.
  intros Hl Hr Hbl Hbr Hbp Hu. inversion Hu; subst.
  assert (rb (Node RB_BLACK ul ua ur) (S n)) by (by constructor).
  assert (rb (node_on dp RB_BLACK (Node RB_RED l a r) p bp) (S n)) by (destruct dp; repeat constructor; done).
  assert (black (node_on dp RB_BLACK (Node RB_RED l a r) p bp)) by (by destruct dp).
  destruct d; do 2 eexists; (split; [done|]); by split_and!.
Qed.

Lemma wp_insert_fix fuel : forall k l a r n h rt,
  tree_at h (parent_of k) (Node RB_RED l a r) -> ctx_at h k a ->
  NoDup (inorder (Node RB_RED l a r) ++ ctx_addrs k) -> Forall addr_ok (inorder (Node RB_RED l a r) ++ ctx_addrs k) ->
  rb l n -> rb r n -> black l -> black r -> rb_ctx k RB_BLACK n -> (k <> [] -> rt = root_ptr k a) ->
  (length k < fuel)%nat ->
  wp (insert_fix_loop fuel a (parent_of k)) (fun _ => fixed h (inorder (plug k (Node RB_RED l a r)))) (mkRbTree h rt).
Proof.
  induction fuel as [|fuel IH]; intros k l a r n h rt Ht Hk Hnd Hok Hl Hr Hbl Hbr Hkc Hrt Hfuel; [lia|]. cbn [insert_fix_loop].
  destruct k as [|f k].
  { (* the root *)
    simpl. destruct Ht as (Ha & Hlt & Hrt'). apply wp_bind. eapply wp_set_pc; [exact Ha|]. apply wp_modify. simpl.
    exists (Node RB_BLACK l a r). simpl in Hnd. rewrite app_nil_r in Hnd. apply NoDup_app in Hnd as (_ & N1 & Hnd).
    apply NoDup_cons in Hnd as [N2 _]. split_and!; [split; [|done]|done|exists (S n); by constructor|done|].
    - simpl. split_and!; [by rewrite lookup_insert_eq| |]; (eapply tree_at_off; [apply agree_off_insert| |done]); set_solver.
    - intros x Hx. simpl in *. rewrite lookup_insert_ne; [done|]. set_solver. }
  assert (addr_ok (f_addr f)) as [Hpos _].
  { rewrite Forall_forall in Hok. apply Hok. simpl. rewrite elem_of_app, elem_of_cons. tauto. }
  cbn [parent_of]. rewrite (proj2 (Z.eqb_neq (f_addr f) 0)) by lia.
  inversion Hkc as [|dp p bp k' n' Hbpn Hbp Hkc'|dp p bp k' c n' Hbpn Hkc' Hc]; subst.
  2: { (* a black parent *)
    pose proof Hk as (Hp & _ & Hk'). cbn [f_addr f_side f_color f_other parent_of] in *.
    assert (parent_of k mod 4 = 0) as Hm.
    { eapply ctx_mod; [exact Hk'|]. rewrite Forall_app in Hok. destruct Hok as [_ Hok]. simpl in Hok. rewrite Forall_cons, Forall_app in Hok. tauto. }
    unfold rb_is_black. apply wp_bind, wp_bind. eapply wp_parent_color; [exact Hp|]. apply wp_ret.
    rewrite node_pc. unfold __rb_is_black. rewrite pc_color by (done || by right). cbn [negb]. change (RB_BLACK =? 0) with false. apply wp_ret.
    exists (plug (mkFrame dp RB_BLACK p bp :: k) (Node RB_RED l a r)).
    destruct (plug_repr h rt (mkFrame dp RB_BLACK p bp :: k) (Node RB_RED l a r) n) as (H1 & H2 & H3); try done.
    - by rewrite Hrt.
    - by constructor.
    - constructor; [done|done|by left]. }
  inversion Hkc' as [| |d g u k2 c n2 Hun Hkc2 Hc]; subst.
  cbn [parent_of f_addr] in *.
  assert (ctx_addrs (mkFrame dp RB_RED p bp :: mkFrame d RB_BLACK g u :: k2) = p :: inorder bp ++ g :: inorder u ++ ctx_addrs k2) as Ec by done.
  rewrite Ec in Hnd, Hok. pose proof Hk as (Hp & Hb & Hg & Hu & Hk2). cbn [f_addr f_side f_color f_other parent_of] in Hp, Hb, Hg, Hu, Hk2.
  pose proof (rotate_apart k2 l r bp u a p g Hnd Hok) as [_ (_ & _ & Epg & _ & Ep0 & Eg0) _ P G _ _ _ _].
  assert (g mod 4 = 0 /\ parent_of k2 mod 4 = 0) as [Hgm Hkm].
  { rewrite !Forall_app, Forall_cons, Forall_app, Forall_cons, Forall_app in Hok. destruct Hok as (_ & _ & _ & [_ ?] & _ & Hok).
    split; [done|]. by eapply ctx_mod. }
  unfold rb_is_black at 1. apply wp_bind, wp_bind. eapply wp_parent_color; [exact Hp|]. apply wp_ret.
  rewrite node_pc. unfold __rb_is_black at 1. rewrite pc_color by (done || by left). change (negb (RB_RED =? 0)) with false. cbn iota.
  unfold rb_red_parent. apply wp_bind. eapply wp_parent_color; [exact Hp|]. rewrite node_pc, lor_red.
  apply wp_bind. eapply wp_child; [exact Hg|]. rewrite parent_side by (done || apply P). cbv zeta.
  apply wp_bind. eapply wp_child; [exact Hg|]. rewrite node_other.
  assert (k2 <> [] -> rt = root_ptr k2 g) as Hrt2.
  { intros _. rewrite Hrt by done. by rewrite !root_ptr_cons. }
  assert (forall v, inorder v = inorder (fill (mkFrame d RB_BLACK g u) (fill (mkFrame dp RB_RED p bp) (Node RB_RED l a r))) ->
    inorder (plug k2 v) = inorder (plug (mkFrame dp RB_RED p bp :: mkFrame d RB_BLACK g u :: k2) (Node RB_RED l a r))) as Hin.
  { intros v Ev. simpl plug. by apply inorder_plug_eq. }
  assert (black u -> wp (insert_rotate d a p g) (fun _ => fixed h (inorder (plug (mkFrame dp RB_RED p bp :: mkFrame d RB_BLACK g u :: k2) (Node RB_RED l a r)))) (mkRbTree h rt)) as Hrot.
  { intros Hbu. eapply (wp_mono _ (fun _ => rotation_done h rt k2 l r bp u a p g (rotated d dp l a r p bp g u))).
    - destruct (decide (dp = d)) as [->|Hd]; [by apply wp_rotate_outer|].
      assert (dp = other d) as -> by (by destruct dp, d). by apply wp_rotate_inner.
    - intros [] s' (R1 & R2 & R3 & R4). destruct (rotated_rb d dp l a r p bp g u n) as [Hrb Hcol]; try done.
      destruct s' as [h' rt']. simpl in *. exists (plug k2 (rotated d dp l a r p bp g u)).
      destruct (plug_repr h' rt' k2 (rotated d dp l a r p bp g u) (S n)) as (H1 & H2 & H3); try done.
      + rewrite R3. destruct (decide (k2 = [])) as [->|Hne]; [done|]. rewrite Hrt2 by done. by apply root_ptr_eq.
      + by rewrite Hcol.
      + split_and!; try done; [by apply Hin, rotated_inorder|]. intros x Hx. apply R4. intros Hw. apply Hx. simpl.
        rewrite elem_plug. unfold fill. destruct d, dp; simpl in *; set_solver. }
  destruct u as [|cu ul ua ur]; [apply wp_bind, wp_ret; by apply Hrot|].
  pose proof Hu as (Hua & _ & _). assert (ua <> 0) as Hu0.
  { rewrite Forall_forall in Hok. destruct (Hok ua) as [? _]; [|lia]. simpl. set_solver. }
  cbn [root_of]. rewrite (proj2 (Z.eqb_neq ua 0)) by done. cbn [negb]. unfold rb_is_red.
  apply wp_bind, wp_bind. eapply wp_parent_color; [exact Hua|]. apply wp_ret. cbn [__rb_parent_color].
  unfold __rb_is_red. rewrite pc_color by (done || by eapply (rb_color (Node cu ul ua ur))).
  inversion Hun; subst; [|by apply Hrot]. change (RB_RED =? 0) with true. cbn iota. clear Hrot.
  destruct (lift_at h k2 l a r p bp g ul ua ur d dp Hnd Ht Hk) as (gr & gl & pr & pl & Eg & Ep & Hlt & Hlk).
  destruct (lifted_node d dp l a r p bp g ul ua ur n) as (L & R & EL & RL & RR & BL & BR); try done.
  assert (p <> ua /\ g <> ua) as [Epu Egu].
  { split; intros ->; [destruct P as (_ & _ & _ & H' & _)|destruct G as (_ & _ & _ & H' & _)]; apply H'; simpl; set_solver. }
  assert (inorder (Node RB_RED L g R) = inorder (fill (mkFrame d RB_BLACK g (Node RB_RED ul ua ur)) (fill (mkFrame dp RB_RED p bp) (Node RB_RED l a r)))) as Ein.
  { rewrite <- EL. unfold lifted, fill. by destruct d, dp. }
  assert (inorder (Node RB_RED L g R) ++ ctx_addrs k2 ≡ₚ inorder (Node RB_RED l a r) ++ p :: inorder bp ++ g :: inorder (Node RB_RED ul ua ur) ++ ctx_addrs k2) as Hperm.
  { rewrite <- Ec, <- !perm_plug. by rewrite (Hin (Node RB_RED L g R)). }
  apply wp_bind. unfold rb_set_parent_color. eapply wp_set_pc; [exact Hua|]. cbn [rb_right rb_left].
  apply wp_bind. eapply wp_set_pc; [rb_lookup|]. cbn [rb_right rb_left].
  apply wp_bind. unfold rb_parent. apply wp_bind. eapply wp_parent_color; [rb_lookup|]. apply wp_ret. cbn [__rb_parent_color].
  rewrite pc_parent by (done || by right).
  apply wp_bind. eapply wp_set_pc; [rb_lookup|]. cbn [rb_right rb_left].
  rewrite EL in Hlt. eapply wp_mono; [apply (IH k2 L g R (S n)); try done|].
  - by rewrite Hperm.
  - by rewrite Hperm.
  - simpl in Hfuel. lia.
  - intros [] s'. rewrite (Hin _ Ein). intros (t' & Q1 & Q2 & Q3 & Q4 & Q5). exists t'. split_and!; try done.
    intros x Hx. rewrite Q5 by done.
    assert (x ∉ inorder (Node RB_RED l a r) ++ p :: inorder bp ++ g :: inorder (Node RB_RED ul ua ur) ++ ctx_addrs k2) as Hx'.
    { by rewrite <- Ec, <- perm_plug. }
    simpl in Hx'. rewrite !lookup_insert_ne; [done|set_solver..].
Qed.
