(* ===== verification/RbInsert.v ===== *)
(** Insertion into red-black trees: the pointer code of [_rb_insert] keeps the
    tree a sorted red-black tree that holds the new node; searching and the
    first node. *)
From Stdlib Require Import ZArith Lia Sorting.Sorted.
From stdpp Require Import base numbers gmap list.
From S2P Require Import Prelude RbTree RbRotate RbFix.

#[local] Opaque child set_child parent_color set_pc.

(** ** The descent *)

Section insert.
Context (cmp : Z -> Z -> bool).
Definition before (x y : Z) : Prop := cmp x y = true.

Definition sorted (l : list Z) : Prop := StronglySorted before l.

Lemma sorted_app l1 l2 : sorted (l1 ++ l2) <-> sorted l1 /\ sorted l2 /\ forall x y, x ∈ l1 -> y ∈ l2 -> before x y.
Proof.
  induction l1 as [|z l1 IH]; simpl.
  - split; [intros H; split_and!; [constructor|done|set_solver]|tauto].
  - split.
    + intros H. apply StronglySorted_inv in H as [H Hz]. apply IH in H as (H1 & H2 & H3). rewrite Forall_app in Hz.
      destruct Hz as [Hz1 Hz2]. split_and!; [by constructor|done|]. intros x y [->|Hx]%elem_of_cons Hy; [|by apply H3].
      rewrite Forall_forall in Hz2. by apply Hz2.
    + intros (H1 & H2 & H3). apply StronglySorted_inv in H1 as [H1 Hz]. constructor.
      * apply IH. split_and!; [done|done|]. intros x y Hx. apply H3. by apply elem_of_cons; right.
      * rewrite Forall_app. split; [done|]. rewrite Forall_forall. intros y Hy. apply H3; [by apply elem_of_cons; left|done].
Qed.

Lemma sorted_node c l b r :
  sorted (inorder (Node c l b r)) ->
  sorted (inorder l) /\ sorted (inorder r) /\ (forall x, x ∈ inorder l -> before x b) /\ (forall x, x ∈ inorder r -> before b x).
Proof.
  simpl. intros H. apply sorted_app in H as (H1 & H2 & H3). apply StronglySorted_inv in H2 as [H2 Hb].
  rewrite Forall_forall in Hb. split_and!; try done. intros x Hx. apply H3; [done|by apply elem_of_cons; left].
Qed.

Context (Htrans : forall x y z, before x y -> before y z -> before x z).

(** Node [a] was hung into the empty place that [k] leaves, which is the one
    that keeps the order. *)
Definition hung (h : gmap Z rb_node_) (rt : Z) (T : tree) (a : Z) (s' : RbTree) : Prop :=
  exists k l1 l2, plug k Leaf = T /\ (forall u, inorder (plug k u) = l1 ++ inorder u ++ l2) /\
    (forall x, x ∈ l1 -> before x a) /\ (forall x, x ∈ l2 -> before a x) /\
    tree_at (rb_heap s') (parent_of k) (Node RB_RED Leaf a Leaf) /\ ctx_at (rb_heap s') k a /\
    rb_root s' = rt /\ agree_off (a :: ctx_addrs k) h (rb_heap s').

(** One step of the descent. *)
Lemma child_frame d c b u k l1 l2 :
  (forall v, inorder (plug k v) = l1 ++ inorder v ++ l2) ->
  exists m1 m2, (forall v, inorder (plug (mkFrame d c b u :: k) v) = m1 ++ inorder v ++ m2) /\
    m1 = match d with Left => l1 | Right => l1 ++ inorder u ++ [b] end /\
    m2 = match d with Left => b :: inorder u ++ l2 | Right => l2 end.
Proof.
  intros H. do 2 eexists. split_and!; [|done|done]. intros v. simpl. rewrite H. unfold fill.
  destruct d; simpl; repeat (rewrite <- app_assoc; simpl); done.
Qed.

(** Hanging the node below the last node of the descent. *)
Lemma hang_at d h rt k c b u a l1 l2 :
  ctx_at h (mkFrame d c b u :: k) 0 -> h !! a = Some (mkRb 0 0 0) -> addr_ok b ->
  a ∉ ctx_addrs (mkFrame d c b u :: k) -> NoDup (ctx_addrs (mkFrame d c b u :: k)) ->
  (forall v, inorder (plug (mkFrame d c b u :: k) v) = l1 ++ inorder v ++ l2) ->
  (forall x, x ∈ l1 -> before x a) -> (forall x, x ∈ l2 -> before a x) ->
  wp (set_child d b a ;; set_pc a b) (fun _ => hung h rt (plug (mkFrame d c b u :: k) Leaf) a) (mkRbTree h rt).
Proof.
  intros (Hb & Hu & Hk) Ha [Hb0 _] Hin Hnd Hl H1 H2. cbn [f_addr f_side f_color f_other] in Hb, Hu, Hk.
  simpl in Hin, Hnd. apply not_elem_of_cons in Hin as [Hab Hin]. apply NoDup_cons in Hnd as [Nb _].
  apply wp_bind. eapply wp_set_child; [exact Hb|]. eapply wp_set_pc; [rewrite lookup_insert_ne by done; exact Ha|].
  exists (mkFrame d c b u :: k), l1, l2. cbn [rb_heap rb_root rb_right rb_left].
  assert (forall h', agree_off [b; a] h h' -> tree_at h' b u /\ ctx_at h' k b) as Hframe.
  { intros h' Ao. split; [eapply tree_at_off|eapply ctx_at_off]; try done; intros x Hx; rewrite !not_elem_of_cons;
      split_and!; try apply not_elem_of_nil; intros ->; rewrite elem_of_app in *; tauto. }
  match goal with |- context [tree_at ?x _ _] => set (h' := x) end.
  assert (agree_off [b; a] h h') as Ao.
  { intros x Hx. rewrite !not_elem_of_cons in Hx. unfold h'. rewrite !lookup_insert_ne by (intros ->; tauto). done. }
  destruct (Hframe h' Ao) as [F1 F2]. split_and!; try done.
  - simpl. split_and!; try done. unfold h'. rewrite lookup_insert_eq. by rewrite lor_red.
  - simpl. split_and!; try done. unfold h'. rewrite lookup_insert_ne by done. rewrite lookup_insert_eq. by destruct d.
  - intros x Hx. apply Ao. simpl in Hx. set_solver.
Qed.

Definition equal_to (a b : Z) : Prop := cmp a b = false /\ cmp b a = false.
#[global] Instance equal_to_dec a b : Decision (equal_to a b).
Proof. unfold equal_to. apply _. Defined.

(** Is there a node in [l] that compares equal to [a]? *)
Definition has_equal (a : Z) (l : list Z) : bool := existsb (fun x => bool_decide (equal_to a x)) l.

Lemma has_equal_true a l x : x ∈ l -> equal_to a x -> has_equal a l = true.
Proof. intros Hx He. apply existsb_exists. exists x. split; [by apply list_elem_of_In|]. by apply bool_decide_eq_true. Qed.

Lemma has_equal_false a l : (forall x, x ∈ l -> before x a \/ before a x) -> has_equal a l = false.
Proof.
  intros H. apply not_true_is_false. intros (x & Hx & He)%existsb_exists. apply list_elem_of_In in Hx.
  apply bool_decide_eq_true in He as [H1 H2]. unfold before in H. destruct (H x Hx); congruence.
Qed.

(** [t] is the child of the node on side [d], [u] the other one. *)
Definition splits (d : side) (t u l r : tree) : Prop := d = Left /\ t = l /\ u = r \/ d = Right /\ t = r /\ u = l.

Lemma splits_inorder d t u c l b r :
  splits d t u l r -> inorder (Node c l b r) ≡ₚ inorder t ++ b :: inorder u /\
  (length (inorder t) < length (inorder (Node c l b r)))%nat /\
  (forall k, plug (mkFrame d c b u :: k) t = plug k (Node c l b r)).
Proof.
  intros [(-> & -> & ->)|(-> & -> & ->)]; simpl; rewrite length_app; simpl; split_and!; try done; try lia.
  rewrite (Permutation_app_comm (inorder l)). simpl. rewrite Permutation_middle. by apply Permutation_app.
Qed.

(** Both branches of the descent, towards side [d] of [b]. *)
Lemma wp_insert_walk fuel : forall c l b r k l1 l2 h rt a,
  (forall v, inorder (plug k v) = l1 ++ inorder v ++ l2) -> sorted (inorder (Node c l b r)) ->
  (forall x, x ∈ l1 -> before x a) -> (forall x, x ∈ l2 -> before a x) ->
  tree_at h (parent_of k) (Node c l b r) -> ctx_at h k b -> h !! a = Some (mkRb 0 0 0) ->
  NoDup (a :: inorder (Node c l b r) ++ ctx_addrs k) -> Forall addr_ok (a :: inorder (Node c l b r) ++ ctx_addrs k) ->
  (length (inorder (Node c l b r)) <= fuel)%nat ->
  wp (insert_walk cmp fuel a b) (fun found s' =>
    if found : bool then hung h rt (plug k (Node c l b r)) a s'
    else s' = mkRbTree h rt /\ exists x, x ∈ inorder (Node c l b r) /\ equal_to a x) (mkRbTree h rt).
Proof.
  induction fuel as [|fuel IH]; intros c l b r k l1 l2 h rt a Hpl Hs H1 H2 (Hb & Hl & Hr) Hk Ha Hnd Hok Hf.
  { simpl in Hf. rewrite length_app in Hf. simpl in Hf. lia. }
  assert (addr_ok b) as Hbok by (rewrite Forall_forall in Hok; apply Hok; simpl; rewrite elem_of_cons, !elem_of_app, elem_of_cons; tauto). pose proof Hbok as [Hb0 _].
  destruct (sorted_node c l b r Hs) as (Sl & Sr & Bl & Br).
  assert (forall d t u, splits d t u l r ->
    (if d is Left then before a b else before b a) ->
    wp (nw ← child d b; (if nw =? 0 then set_child d b a ;; set_pc a b else mret tt) ;; insert_walk cmp fuel a nw)
      (fun found s' => if found : bool then hung h rt (plug k (Node c l b r)) a s'
        else s' = mkRbTree h rt /\ exists x, x ∈ inorder (Node c l b r) /\ equal_to a x) (mkRbTree h rt)) as Hside.
  { intros d t u Hd Hcmp.
    destruct (splits_inorder d t u c l b r Hd) as (Hperm & Hlen & Epl). specialize (Epl k).
    assert (tree_at h b t /\ tree_at h b u /\ sorted (inorder t) /\
      child_of d (mkRb (Z.lor (parent_of k) c) (root_of r) (root_of l)) = root_of t) as (Ht & Hu & St & Ec).
    { destruct Hd as [(-> & -> & ->)|(-> & -> & ->)]; by split_and!. }
    assert (forall x, x ∈ inorder t -> x ∈ inorder (Node c l b r)) as Hsub.
    { intros x Hx. rewrite Hperm, elem_of_app. by left. }
    destruct (child_frame d c b u k l1 l2 Hpl) as (m1 & m2 & Hm & E1 & E2).
    assert ((forall x, x ∈ m1 -> before x a) /\ (forall x, x ∈ m2 -> before a x)) as [M1 M2].
    { destruct Hd as [(-> & -> & ->)|(-> & -> & ->)]; subst m1 m2; split; intros x.
      - apply H1.
      - rewrite elem_of_cons, elem_of_app. intros [->|[Hx|Hx]]; [done| |by apply H2]. eapply Htrans; [exact Hcmp|by apply Br].
      - rewrite !elem_of_app, list_elem_of_singleton. intros [Hx|[Hx| ->]]; [by apply H1| |done]. eapply Htrans; [by apply Bl|exact Hcmp].
      - apply H2. }
    assert (NoDup (a :: inorder t ++ ctx_addrs (mkFrame d c b u :: k)) /\ Forall addr_ok (a :: inorder t ++ ctx_addrs (mkFrame d c b u :: k))) as [Hnd' Hok'].
    { assert (inorder t ++ ctx_addrs (mkFrame d c b u :: k) ≡ₚ inorder (Node c l b r) ++ ctx_addrs k) as ->; [|done].
      rewrite Hperm, <- app_assoc. done. }
    assert (ctx_at h (mkFrame d c b u :: k) (root_of t)) as Hk'.
    { simpl. split_and!; try done. rewrite Hb. by destruct Hd as [(-> & -> & ->)|(-> & -> & ->)]. }
    apply wp_bind. eapply wp_child; [exact Hb|]. rewrite Ec. destruct t as [|ct tl tb tr].
    - cbn [root_of]. change (0 =? 0) with true. cbn iota. apply wp_bind. simpl inorder in Hnd', Hok'.
      eapply wp_mono; [apply (hang_at d h rt k c b u a m1 m2); try done|].
      + apply NoDup_cons in Hnd' as [Hx _]. done.
      + by apply NoDup_cons in Hnd' as [_ ?].
      + intros [] s' Hh. rewrite Epl in Hh. destruct fuel; by apply wp_ret.
    - cbn [root_of]. assert (tb <> 0) as Htb.
      { rewrite Forall_forall in Hok'. destruct (Hok' tb); [|lia]. simpl. rewrite elem_of_cons, !elem_of_app, elem_of_cons. tauto. }
      rewrite (proj2 (Z.eqb_neq tb 0)) by done. apply wp_bind, wp_ret.
      eapply wp_mono; [apply (IH ct tl tb tr (mkFrame d c b u :: k) m1 m2 h rt a); try done; lia|].
      rewrite Epl. intros [] s'; [done|]. intros (-> & x & Hx & He). split; [done|]. exists x. split; [by apply Hsub|done]. }
  cbn [insert_walk]. rewrite (proj2 (Z.eqb_neq b 0)) by lia. cbv zeta.
  destruct (cmp a b) eqn:Eab; [by eapply (Hside Left); [left|]|].
  destruct (cmp b a) eqn:Eba; [by eapply (Hside Right); [right|]|].
  apply wp_ret. split; [done|]. exists b. split; [simpl; rewrite elem_of_app, elem_of_cons; tauto|done].
Qed.

(** ** The operations *)

(** The state holds the red-black search tree [t]. *)
Record rb_ok (s : RbTree) (t : tree) : Prop := {
  ro_repr : repr s t;
  ro_nodup : NoDup (inorder t);
  ro_addrs : Forall addr_ok (inorder t);
  ro_rb : exists m, rb t m;
  ro_black : black t;
  ro_sorted : sorted (inorder t);
}.

Lemma root_of_plug k t : root_of (plug k t) = root_ptr k (root_of t).
Proof.
  revert t. induction k as [|f k IH]; intros t; [done|]. rewrite root_ptr_cons. simpl. rewrite IH. f_equal.
  unfold fill. by destruct (f_side f).
Qed.

Lemma tree_at_is_some h p t x : tree_at h p t -> x ∈ inorder t -> is_Some (h !! x).
Proof.
  revert p. induction t as [|c l IHl a r IHr]; intros p; simpl; [intros _ []%elem_of_nil|].
  intros (Ha & Hl & Hr). rewrite elem_of_app, elem_of_cons. intros [Hx|[->|Hx]]; eauto.
Qed.

Lemma heap_size (h : gmap Z rb_node_) l : NoDup l -> (forall x, x ∈ l -> is_Some (h !! x)) -> (length l <= size h)%nat.
Proof.
  intros Hnd Hl. rewrite <- (size_list_to_set (C := gset Z) l) by done. rewrite <- size_dom.
  apply subseteq_size. intros x Hx. apply elem_of_dom, Hl. by apply elem_of_list_to_set in Hx.
Qed.

Lemma ctx_length k : (length k <= length (ctx_addrs k))%nat.
Proof. induction k as [|f k IH]; simpl; [done|]. rewrite length_app. lia. Qed.

Lemma ctx_at_is_some h k p x : ctx_at h k p -> x ∈ ctx_addrs k -> is_Some (h !! x).
Proof.
  revert p. induction k as [|f k IH]; intros p; simpl; [intros _ []%elem_of_nil|].
  intros (Hf & Ho & Hk). rewrite elem_of_cons, elem_of_app. intros [->|[Hx|Hx]]; eauto using tree_at_is_some.
Qed.

(** Rebalancing the node that was hung. *)
Lemma wp_hung_fix h rt t a s :
  hung h rt t a s -> rt = root_of t -> (exists m, rb t m) -> black t -> NoDup (a :: inorder t) -> Forall addr_ok (a :: inorder t) ->
  wp (__rb_insert_fix a) (fun _ s' => exists t' l1 l2, repr s' t' /\ inorder t = l1 ++ l2 /\ inorder t' = l1 ++ a :: l2 /\
    (forall x, x ∈ l1 -> before x a) /\ (forall x, x ∈ l2 -> before a x) /\ (exists m, rb t' m) /\ black t' /\
    agree_off (inorder t') h (rb_heap s')) s.
Proof.
  intros (k & l1 & l2 & <- & Hpl & H1 & H2 & Ht & Hk & Hrt & Ha) Ert [m Hm] Hb Hnd Hok.
  destruct s as [hs rs]. cbn [rb_heap rb_root] in *. subst rs.
  destruct (rb_unplug k Leaf m Hm Hb) as (n & Hn & Hkc). inversion Hn; subst n. cbn [color_of] in Hkc.
  assert (a :: inorder (plug k Leaf) ≡ₚ inorder (Node RB_RED Leaf a Leaf) ++ ctx_addrs k) as Hperm by (simpl; by rewrite perm_plug).
  rewrite Hperm in Hnd, Hok. unfold __rb_insert_fix, rb_red_parent.
  apply wp_bind. eapply wp_parent_color; [apply Ht|]. cbn [__rb_parent_color]. rewrite lor_red. apply wp_bind, wp_get_state. cbn [rb_heap].
  eapply wp_mono; [apply (wp_insert_fix _ k Leaf a Leaf 0); try done; try (by constructor)|].
  - intros Hne. rewrite Ert, root_of_plug. by apply root_ptr_eq.
  - apply le_n_S. transitivity (length (ctx_addrs k)); [apply ctx_length|]. apply heap_size.
    + simpl in Hnd. by apply NoDup_cons in Hnd as [_ ?].
    + intros x Hx. by eapply ctx_at_is_some.
  - intros [] s' (t' & Q1 & Q2 & Q3 & Q4 & Q5). exists t', l1, l2. rewrite Hpl in Q2. simpl in Q2. split_and!; try done.
    intros x Hx. rewrite Q2 in Hx. rewrite Q5 by (rewrite Hpl; exact Hx). apply Ha. rewrite Hpl in *.
    assert (a :: l1 ++ l2 ≡ₚ a :: ctx_addrs k) as Hp2 by (by rewrite Hperm).
    rewrite <- Hp2. rewrite not_elem_of_cons, not_elem_of_app in *. rewrite not_elem_of_cons in Hx. tauto.
Qed.

(** Resetting the fields of a node outside the tree. *)
Lemma repr_fresh h rt t a n : repr (mkRbTree h rt) t -> a ∉ inorder t -> repr (mkRbTree (<[a := n]> h) rt) t.
Proof. intros [Ht Hr] Ha. split; [|done]. eapply tree_at_off; [apply agree_off_insert| |exact Ht]. set_solver. Qed.

Lemma wp_rb_insert s t a :
  rb_ok s t -> a ∉ inorder t -> addr_ok a -> is_Some (rb_heap s !! a) ->
  wp (_rb_insert cmp a) (fun r s' =>
    if has_equal a (inorder t) then
      r = -1 /\ rb_ok s' t /\ agree_off [a] (rb_heap s) (rb_heap s')
    else r = 0 /\ exists t' l1 l2, rb_ok s' t' /\ inorder t = l1 ++ l2 /\ inorder t' = l1 ++ a :: l2 /\
      agree_off (inorder t') (rb_heap s) (rb_heap s')) s.
Proof.
  intros [Hrep Hnd Hok Hrb Hbl Hs] Ha Haok [na Hna]. destruct s as [h rt]. cbn [rb_heap] in *. pose proof Hrep as [Ht Hrt].
  cbn [rb_heap rb_root] in Ht, Hrt.
  unfold _rb_insert. apply wp_bind. eapply wp_node_at; [exact Hna|]. apply wp_bind, wp_modify. cbn [rb_heap rb_root].
  set (h0 := <[a := mkRb 0 0 0]> h). assert (agree_off [a] h h0) as A0 by apply agree_off_insert.
  pose proof (repr_fresh h rt t a (mkRb 0 0 0) Hrep Ha) as Hrep0. fold h0 in Hrep0. pose proof Hrep0 as [Ht0 _]. cbn [rb_heap] in Ht0.
  assert (NoDup (a :: inorder t) /\ Forall addr_ok (a :: inorder t)) as [Hnd' Hok'] by (split; by constructor).
  apply wp_bind, wp_get_state. cbn [rb_heap rb_root]. apply wp_bind.
  eapply (wp_mono _ (fun found s' => if found : bool then hung h0 rt t a s'
    else s' = mkRbTree h0 rt /\ exists x, x ∈ inorder t /\ equal_to a x)).
  - destruct t as [|c l b r]; simpl in Hrt; subst rt.
    + apply wp_ret. exists [], [], []. simpl. split_and!; try done; try (intros x []%elem_of_nil).
      * intros u. by rewrite app_nil_r.
      * unfold h0. by rewrite lookup_insert_eq.
    + apply (wp_insert_walk _ c l b r [] [] []); try done; try (intros x []%elem_of_nil).
      * intros v. by rewrite app_nil_r.
      * unfold h0. by rewrite lookup_insert_eq.
      * by rewrite app_nil_r.
      * by rewrite app_nil_r.
      * apply le_S. apply heap_size; [done|]. intros x Hx. by eapply tree_at_is_some.
  - intros [] s1.
    + intros Hh. apply wp_bind. eapply wp_mono; [by eapply wp_hung_fix|].
      intros [] s' (t' & l1 & l2 & Q1 & Q2 & Q3 & Q4 & Q5 & Q6 & Q7 & Q8). apply wp_ret. rewrite has_equal_false.
      2: { intros x. rewrite Q2, elem_of_app. intros [Hx|Hx]; [left; by apply Q4|right; by apply Q5]. }
      split; [done|]. exists t', l1, l2. split_and!; try done; [|].
      * assert (inorder t' ≡ₚ a :: inorder t) as Hp by (rewrite Q3, Q2; by rewrite Permutation_middle).
        split; try done; [by rewrite Hp|by rewrite Hp|]. rewrite Q3. rewrite Q2 in Hs. apply sorted_app in Hs as (S1 & S2 & S3).
        apply sorted_app. split_and!; [done|constructor; [done|by apply Forall_forall]|].
        intros x y Hx [->|Hy]%elem_of_cons; [by apply Q4|by apply S3].
      * intros x Hx. rewrite Q8 by done. apply A0. rewrite Q3 in Hx. set_solver.
    + intros (-> & x & Hx & He). apply wp_ret. rewrite (has_equal_true a (inorder t) x) by done. split; [done|].
      split; [|done]. by split.
Qed.

(** C7: [_rb_insert] of a node that is not in the tree: when a node compares
    equal it returns -1 and leaves the tree as it was; else it returns 0 and
    the tree is again a red-black search tree (root black, no red node below
    a red one, equal black heights, sorted, parent pointers and colours
    consistent) whose nodes in order are the old ones with the new one in its
    place. No memory outside the nodes changes and the loops end. *)
Theorem rb_insert_spec s t a :
  rb_ok s t -> a ∉ inorder t -> addr_ok a -> is_Some (rb_heap s !! a) ->
  wp (_rb_insert cmp a) (fun r s' =>
    if has_equal a (inorder t) then
      r = -1 /\ rb_ok s' t /\ agree_off [a] (rb_heap s) (rb_heap s')
    else r = 0 /\ exists t' l1 l2, rb_ok s' t' /\ inorder t = l1 ++ l2 /\ inorder t' = l1 ++ a :: l2 /\
      agree_off (inorder t') (rb_heap s) (rb_heap s')) s.
Proof. apply wp_rb_insert. Qed.

Lemma wp_lookup_walk fuel t p h rt a :
  tree_at h p t -> sorted (inorder t) -> Forall addr_ok (inorder t) -> (length (inorder t) <= fuel)%nat ->
  wp (lookup_walk cmp fuel a (root_of t)) (fun r s' => s' = mkRbTree h rt /\
    if has_equal a (inorder t) then r ∈ inorder t /\ equal_to a r else r = 0) (mkRbTree h rt).
Proof.
  revert t p. induction fuel as [|fuel IH]; intros [|c l b r] p Ht Hs Hok Hf; try (by apply wp_ret).
  { simpl in Hf. rewrite length_app in Hf. simpl in Hf. lia. }
  destruct Ht as (Hb & Hl & Hr). destruct (sorted_node c l b r Hs) as (Sl & Sr & Bl & Br).
  simpl in Hok, Hf. rewrite Forall_app, Forall_cons in Hok. destruct Hok as (Okl & [Hb0 _] & Okr). rewrite length_app in Hf. simpl in Hf.
  cbn [lookup_walk root_of]. rewrite (proj2 (Z.eqb_neq b 0)) by lia. unfold has_equal. cbn [inorder]. rewrite existsb_app. cbn [existsb].
  fold (has_equal a (inorder l)) (has_equal a (inorder r)).
  assert (before a b -> has_equal a (inorder r) = false) as Fr.
  { intros Hab. apply has_equal_false. intros x Hx. right. eapply Htrans; [exact Hab|by apply Br]. }
  assert (before b a -> has_equal a (inorder l) = false) as Fl.
  { intros Hba. apply has_equal_false. intros x Hx. left. eapply Htrans; [by apply Bl|exact Hba]. }
  destruct (cmp a b) eqn:Eab; [|destruct (cmp b a) eqn:Eba].
  - rewrite Fr, (bool_decide_eq_false_2 (equal_to a b)), !orb_false_r by (done || intros [? ?]; congruence). apply wp_bind. eapply wp_child; [exact Hb|].
    eapply wp_mono; [apply (IH l b); try done; lia|]. intros x s' [-> H]. split; [done|].
    destruct (has_equal a (inorder l)); [|done]. rewrite elem_of_app. tauto.
  - rewrite Fl, (bool_decide_eq_false_2 (equal_to a b)), !orb_false_l by (done || intros [? ?]; congruence). apply wp_bind. eapply wp_child; [exact Hb|].
    eapply wp_mono; [apply (IH r b); try done; lia|]. intros x s' [-> H]. split; [done|].
    destruct (has_equal a (inorder r)); [|done]. rewrite elem_of_app, elem_of_cons. tauto.
  - rewrite (bool_decide_eq_true_2 (equal_to a b)), orb_true_r by done. apply wp_ret. split; [done|].
    split; [rewrite elem_of_app, elem_of_cons; tauto|done].
Qed.

Lemma wp_leftmost fuel c l a r p h rt :
  tree_at h p (Node c l a r) -> Forall addr_ok (inorder l) -> (length (inorder l) <= fuel)%nat ->
  wp (leftmost fuel a) (fun x s' => s' = mkRbTree h rt /\ head (inorder (Node c l a r)) = Some x) (mkRbTree h rt).
Proof.
  revert c l a r p. induction fuel as [|fuel IH]; intros c l a r p (Ha & Hl & Hr) Hok Hf; cbn [leftmost];
    apply wp_bind; (eapply wp_child; [exact Ha|]); cbn [child_of rb_left]; destruct l as [|c' l' a' r']; try (by apply wp_ret).
  - simpl in Hf. rewrite length_app in Hf. simpl in Hf. lia.
  - simpl in Hok, Hf. rewrite Forall_app, Forall_cons in Hok. rewrite length_app in Hf. simpl in Hf. destruct Hok as (Ok' & [Ha' _] & _).
    cbn [root_of]. rewrite (proj2 (Z.eqb_neq a' 0)) by lia. cbn [negb].
    eapply wp_mono; [apply (IH c' l' a' r' a); try done; lia|]. intros x s' [-> Hx]. split; [done|].
    change (inorder (Node c (Node c' l' a' r') a r)) with (inorder (Node c' l' a' r') ++ a :: inorder r).
    by destruct (inorder (Node c' l' a' r')).
Qed.

(** Searching: [_rb_lookup] returns a node that compares equal to the given
    one, exactly when the tree has one, else NULL; [_rb_first] returns the
    least node, or NULL when the tree is empty. Both end and change nothing. *)
Theorem rb_search_spec s t a :
  rb_ok s t ->
  wp (_rb_lookup cmp a) (fun r s' => s' = s /\
    if has_equal a (inorder t) then r ∈ inorder t /\ equal_to a r else r = 0) s /\
  wp _rb_first (fun r s' => s' = s /\ r = default 0 (head (inorder t))) s.
Proof.
  intros [[Ht Hrt] Hnd Hok _ _ Hs]. destruct s as [h rt]. cbn [rb_heap rb_root] in Ht, Hrt. subst rt.
  assert (length (inorder t) <= size h)%nat as Hsz.
  { apply heap_size; [done|]. intros x Hx. by eapply tree_at_is_some. }
  split; apply wp_bind, wp_get_state; cbn [rb_heap rb_root].
  - apply (wp_lookup_walk _ t 0); try done. lia.
  - destruct t as [|c l b r]; [by apply wp_ret|]. simpl in Hok, Hsz. rewrite Forall_app, Forall_cons in Hok.
    rewrite length_app in Hsz. destruct Hok as (Okl & [Hb0 _] & _). cbn [root_of].
    rewrite (proj2 (Z.eqb_neq b 0)) by lia. eapply wp_mono; [apply (wp_leftmost _ c l b r 0); try done; simpl in Hsz; lia|].
    intros x s' [-> Hx]. by rewrite Hx.
Qed.
End insert.

(** ** Concrete instances *)

(** Nodes 8 and 16 in the tree, node 24 to be inserted; compared by address. *)
Definition example_nodes : RbTree :=
  mkRbTree {[8 := mkRb 1 16 0; 16 := mkRb 8 0 0; 24 := mkRb 5 5 5]} 8.
Definition example_rb : tree := Node RB_BLACK Leaf 8 (Node RB_RED Leaf 16 Leaf).

Lemma ltb_trans x y z : before Z.ltb x y -> before Z.ltb y z -> before Z.ltb x z.
Proof. unfold before. rewrite !Z.ltb_lt. lia. Qed.

Lemma example_rb_ok : rb_ok Z.ltb example_nodes example_rb.
Proof.
  split.
  - by split; [split_and!|].
  - refine (bool_decide_unpack (NoDup _) _). vm_compute. exact I.
  - repeat constructor; lia.
  - exists 1%nat. repeat constructor.
  - done.
  - repeat constructor.
Qed.

Lemma rb_insert_spec_witness :
  wp (_rb_insert Z.ltb 24) (fun r s' =>
    r = 0 /\ exists t' l1 l2, rb_ok Z.ltb s' t' /\ inorder example_rb = l1 ++ l2 /\ inorder t' = l1 ++ 24 :: l2 /\
      agree_off (inorder t') (rb_heap example_nodes) (rb_heap s')) example_nodes.
Proof.
  apply (rb_insert_spec Z.ltb ltb_trans example_nodes example_rb 24 example_rb_ok).
  - simpl. rewrite !elem_of_cons, elem_of_nil. lia.
  - split; [lia|reflexivity].
  - eexists. reflexivity.
Defined.

Lemma rb_search_spec_witness :
  wp (_rb_lookup Z.ltb 16) (fun r s' => s' = example_nodes /\ (r ∈ inorder example_rb /\ equal_to Z.ltb 16 r)) example_nodes /\
  wp _rb_first (fun r s' => s' = example_nodes /\ r = default 0 (head (inorder example_rb))) example_nodes.
Proof. apply (rb_search_spec Z.ltb ltb_trans example_nodes example_rb 16 example_rb_ok). Defined.
