(* ===== verification/RbEraseFix.v ===== *)
(** Removal from red-black trees, the rebalancing loop: [erase_fix_loop] turns
    a tree with one subtree a black node short into a red-black tree with the
    same nodes in the same order. *)
From Stdlib Require Import ZArith Lia.
From stdpp Require Import base numbers gmap list.
From S2P Require Import Prelude RbTree RbRotate RbFix.

#[local] Opaque child set_child parent_color set_pc.

(** ** Automation for disjoint addresses *)

(** Split a [NoDup] of a concatenation into what its parts do not share. *)
Ltac apart H :=
  cbn [inorder] in H; repeat (rewrite <- app_assoc in H; cbn [app] in H);
  repeat (rewrite NoDup_app in H || rewrite NoDup_cons in H);
  repeat (setoid_rewrite not_elem_of_app in H || setoid_rewrite not_elem_of_cons in H);
  destruct_and? H.

Ltac notin :=
  rewrite ?not_elem_of_app, ?not_elem_of_cons; split_and?; try apply not_elem_of_nil;
  first [assumption | congruence | tauto
        | match goal with H : forall x, x ∈ _ -> _ |- ?y ∉ _ => let Hy := fresh "Hy" in intros Hy; specialize (H y Hy); tauto end].

Ltac off :=
  let y := fresh "y" in let Hy := fresh "Hy" in
  intros y Hy; repeat match goal with H : forall x, x ∈ _ -> _ |- _ => specialize (H y) end;
  rewrite ?not_elem_of_app, ?not_elem_of_cons; split_and?; try apply not_elem_of_nil;
  first [tauto | intros ->; tauto].

(** The parts of a heap that an assignment leaves. *)
Lemma tree_at_insert h p t a n : a ∉ inorder t -> tree_at h p t -> tree_at (<[a := n]> h) p t.
Proof. intros Ha. apply tree_at_off with (l := [a]); [apply agree_off_insert|]. set_solver. Qed.

Lemma ctx_at_insert h k p a n : a ∉ ctx_addrs k -> ctx_at h k p -> ctx_at (<[a := n]> h) k p.
Proof. intros Ha. apply ctx_at_off with (l := [a]); [apply agree_off_insert|]. set_solver. Qed.

(** ** Nodes by sides *)

(** The node with the child [x] on side [d] and [y] on the other. *)
Definition node_of (d : side) (pc x y : Z) : rb_node_ := with_child d x (with_child (other d) y (mkRb pc 0 0)).

Lemma node_of_child d pc x y : child_of d (node_of d pc x y) = x.
Proof. by destruct d. Qed.
Lemma node_of_other d pc x y : child_of (other d) (node_of d pc x y) = y.
Proof. by destruct d. Qed.
Lemma node_of_pc d pc x y : __rb_parent_color (node_of d pc x y) = pc.
Proof. by destruct d. Qed.
Lemma node_of_set d pc x y z : with_child d z (node_of d pc x y) = node_of d pc z y.
Proof. by destruct d. Qed.
Lemma node_of_set_other d pc x y z : with_child (other d) z (node_of d pc x y) = node_of d pc x z.
Proof. by destruct d. Qed.
Lemma node_of_set_pc d pc x y pc' : mkRb pc' (rb_right (node_of d pc x y)) (rb_left (node_of d pc x y)) = node_of d pc' x y.
Proof. by destruct d. Qed.

Lemma tree_at_node d h q c t a u :
  tree_at h q (node_on d c t a u) <->
  h !! a = Some (node_of d (Z.lor q c) (root_of t) (root_of u)) /\ tree_at h a t /\ tree_at h a u.
Proof. destruct d; simpl; tauto. Qed.

Lemma root_of_node d c t a u : root_of (node_on d c t a u) = a.
Proof. by destruct d. Qed.
Lemma color_of_node d c t a u : color_of (node_on d c t a u) = c.
Proof. by destruct d. Qed.

Lemma inorder_node d c t a u : inorder (node_on d c t a u) ≡ₚ inorder t ++ a :: inorder u.
Proof.
  destruct d; simpl; [done|]. rewrite (Permutation_app_comm (inorder u)). simpl. by rewrite Permutation_middle.
Qed.

Lemma as_node_on d t : t = Leaf \/ exists c x a y, t = node_on d c x a y.
Proof. destruct t as [|c l a r]; [by left|right]. destruct d; [by exists c, l, a, r|by exists c, r, a, l]. Qed.

Lemma rb_node_inv d c t a u n :
  rb (node_on d c t a u) n ->
  c = RB_RED /\ rb t n /\ rb u n /\ black t /\ black u \/ exists m, n = S m /\ c = RB_BLACK /\ rb t m /\ rb u m.
Proof. intros H. destruct d; inversion H; subst; [left|right|left|right]; eauto 10. Qed.

Lemma rb_node_black d t a u n : rb t n -> rb u n -> rb (node_on d RB_BLACK t a u) (S n).
Proof. intros. destruct d; by constructor. Qed.
Lemma rb_node_red d t a u n : rb t n -> rb u n -> black t -> black u -> rb (node_on d RB_RED t a u) n.
Proof. intros. destruct d; by constructor. Qed.

(** Steps on such nodes. *)
Ltac side_step :=
  lazymatch goal with
  | |- wp (mbind _ _) _ _ => apply wp_bind
  | |- wp (mret _) _ _ => apply wp_ret
  | |- wp (child _ _) _ _ => eapply wp_child; [rb_lookup|]
  | |- wp (parent_color _) _ _ => eapply wp_parent_color; [rb_lookup|]
  | |- wp (set_child _ _ _) _ _ => eapply wp_set_child; [rb_lookup|]
  | |- wp (rb_set_parent_color _ _ _) _ _ => eapply wp_set_pc; [rb_lookup|]
  | |- wp (set_pc _ _) _ _ => eapply wp_set_pc; [rb_lookup|]
  end; rewrite ?node_of_child, ?node_of_other, ?node_of_pc, ?node_of_set, ?node_of_set_other, ?node_of_set_pc.

(** ** Rotation *)

(** [s], already above [p], takes its place. *)
Lemma wp_rotation d h rt k t p x s y c col z :
  NoDup (inorder t ++ p :: inorder x ++ s :: inorder y ++ ctx_addrs k) -> Forall addr_ok (p :: s :: ctx_addrs k) -> is_color c ->
  ctx_at h k p -> h !! p = Some (node_of d (Z.lor (parent_of k) c) (root_of t) (root_of x)) -> tree_at h p t -> tree_at h p x ->
  h !! s = Some (node_of d z p (root_of y)) -> tree_at h s y ->
  wp (__rb_rotate_set_parents p s col) (fun _ s' =>
    tree_at (rb_heap s') (parent_of k) (node_on d c (node_on d col t p x) s y) /\ ctx_at (rb_heap s') k s /\
    rb_root s' = (if decide (k = []) then s else rt) /\ agree_off (p :: s :: ctx_addrs k) h (rb_heap s')) (mkRbTree h rt).
Proof.
  intros Hnd Hok Hc Hk Hp Ht Hx Hs Hy. apart Hnd. rewrite !Forall_cons in Hok. destruct Hok as ([Hp0 _] & _ & Hok).
  assert (exists ro lo rn ln, node_of d (Z.lor (parent_of k) c) (root_of t) (root_of x) = mkRb (Z.lor (parent_of k) c) ro lo /\
    node_of d z p (root_of y) = mkRb z rn ln /\
    node_of d (Z.lor s col) (root_of t) (root_of x) = mkRb (Z.lor s col) ro lo /\
    node_of d (Z.lor (parent_of k) c) p (root_of y) = mkRb (Z.lor (parent_of k) c) rn ln) as (ro & lo & rn & ln & E1 & E2 & E3 & E4).
  { destruct d; by repeat eexists. }
  rewrite E1 in Hp. rewrite E2 in Hs.
  eapply wp_mono; [apply (wp_rotate_set_parents h rt k p s col c ro lo z rn ln); try done; try notin; try lia|].
  intros [] s' (Q1 & Q2 & Q3 & Q4 & Q5).
  assert (agree_off (p :: s :: ctx_addrs k) h (rb_heap s')) as Ha.
  { intros v Hv. apply Q5. rewrite !not_elem_of_cons in *. destruct Hv as (? & ? & Hv). split_and!; [done|done|].
    intros Hv'. by apply Hv, parents_in. }
  split_and!; [|done|done|done].
  rewrite tree_at_node, root_of_node, tree_at_node, E3, E4. split_and!; try done; (eapply tree_at_off; [exact Ha|off|done]).
Qed.

(** A subtree moves below [q] and keeps its colour. *)
Lemma wp_move h r t p q c0 x :
  tree_at h p t -> rb t x -> NoDup (inorder t) -> Forall addr_ok (inorder t) -> p mod 4 = 0 ->
  (exists s, c0 = rb_set_parent s q /\ s = root_of t \/ c0 = rb_set_parent_color s q RB_BLACK /\ s = root_of t /\ black t) ->
  wp (if_node (root_of t) c0) (fun _ s' =>
    exists h', s' = mkRbTree h' r /\ tree_at h' q t /\ agree_off (inorder t) h h') (mkRbTree h r).
Proof.
  intros Ht Hrb Hnd Hok Hp (s & Hc). unfold if_node. destruct t as [|c l a u].
  { apply wp_ret. exists h. split_and!; try done. }
  assert (a <> 0) as Ha0. { rewrite Forall_forall in Hok. destruct (Hok a); [set_solver|lia]. }
  pose proof Ht as (Ha & Hl & Hu). pose proof (rb_color _ _ Hrb) as Hcol. cbn [root_of color_of inorder] in *.
  rewrite (proj2 (Z.eqb_neq a 0)) by done. cbn [negb]. apart Hnd.
  assert (wp c0 (fun _ s' => s' = mkRbTree (<[a := mkRb (Z.lor q c) (root_of u) (root_of l)]> h) r) (mkRbTree h r)) as Hw.
  { destruct Hc as [[-> ->]|(-> & -> & Hb)].
    - unfold rb_set_parent. do 3 rb_step. rewrite pc_color by done. by rewrite Z.lor_comm.
    - rb_step. unfold black in Hb. simpl in Hb. by subst c. }
  eapply wp_mono; [exact Hw|]. intros [] ? ->. eexists. split_and!; [done| |].
  - simpl. split_and!; [apply lookup_insert_eq|apply tree_at_insert; [notin|done]..].
  - intros v Hv. rewrite lookup_insert_ne; [done|]. set_solver.
Qed.

(** What a rebalancing step leaves: the tree [t'] below the context [k]. *)
Definition rebuilt (h : gmap Z rb_node_) (rt : Z) (l : list Z) (k : ctx) (t' : tree) (s' : RbTree) : Prop :=
  tree_at (rb_heap s') (parent_of k) t' /\ ctx_at (rb_heap s') k (root_of t') /\
  rb_root s' = (if decide (k = []) then root_of t' else rt) /\ agree_off l h (rb_heap s').

(** The end of cases 3 and 4: [s] takes the place of [p], with its outer
    child [q] black below it. *)
Lemma wp_erase_rotate d h rt k t p x s yi q yo c z j zq n :
  let whole := inorder t ++ p :: inorder x ++ s :: inorder yi ++ q :: inorder yo ++ ctx_addrs k in
  NoDup whole -> Forall addr_ok whole ->
  is_color c -> rb x n -> ctx_at h k p ->
  h !! p = Some (node_of d (Z.lor (parent_of k) c) (root_of t) j) -> tree_at h p t ->
  h !! s = Some (node_of d z (root_of x) q) -> tree_at h s x ->
  h !! q = Some (node_of d zq (root_of yi) (root_of yo)) -> tree_at h q yi -> tree_at h q yo ->
  wp (erase_rotate d p s q) (fun _ =>
    rebuilt h rt whole k (node_on d c (node_on d RB_BLACK t p x) s (node_on d RB_BLACK yi q yo))) (mkRbTree h rt).
Proof.
  intros whole Hnd Hok Hc Hx Hk Hp Ht Hs Hxt Hq Hyi Hyo.
  assert (NoDup (inorder t ++ p :: inorder x ++ s :: inorder (node_on d RB_BLACK yi q yo) ++ ctx_addrs k)) as Hnd'.
  { rewrite inorder_node, <- app_assoc. exact Hnd. }
  pose proof Hok as Hok'. unfold whole in Hnd, Hok'. apart Hnd.
  rewrite !Forall_app, Forall_cons, Forall_app, Forall_cons, Forall_app, Forall_cons, Forall_app in Hok'.
  destruct Hok' as (_ & Hpo & Hxo & Hso & _ & _ & _ & Hko).
  assert (s mod 4 = 0) as Hs4 by apply Hso.
  unfold erase_rotate. do 4 side_step.
  match goal with |- wp _ _ (mkRbTree ?e _) => set (h1 := e) end. assert (agree_off [p] h h1) as A1 by apply agree_off_insert.
  side_step. eapply wp_mono; [apply (wp_move h1 rt x s p _ n); try done; [by apply tree_at_insert; [notin|]|eexists; by left]|].
  intros [] ? (h2 & -> & Hx2 & A2). pose proof (agree_off_trans _ _ _ _ _ A1 A2) as A12.
  assert (h2 !! s = h !! s) as Es by (apply A12; notin). rewrite Hs in Es.
  assert (h2 !! q = h !! q) as Eq by (apply A12; notin). rewrite Hq in Eq.
  assert (h2 !! p = h1 !! p) as Ep by (apply A2; notin). unfold h1 in Ep. rewrite lookup_insert_eq in Ep.
  do 4 side_step.
  match goal with |- wp _ _ (mkRbTree ?e _) => set (h3 := e) end.
  assert (agree_off [s; q] h2 h3) as A3.
  { intros v Hv. unfold h3. rewrite !lookup_insert_ne by set_solver. done. }
  pose proof (agree_off_trans _ _ _ _ _ A12 A3) as A13.
  eapply wp_mono; [eapply (wp_rotation d h3 rt k t p x s (node_on d RB_BLACK yi q yo) c RB_BLACK); try done|].
  - by rewrite !Forall_cons.
  - eapply ctx_at_off; [exact A13|off|done].
  - unfold h3. rb_lookup.
  - eapply tree_at_off; [exact A13|off|done].
  - eapply tree_at_off; [exact A3|off|done].
  - unfold h3. rewrite root_of_node. rb_lookup.
  - rewrite tree_at_node. split_and!; [unfold h3; rb_lookup|(eapply tree_at_off; [exact A13|off|done])..].
  - intros [] s' (Q1 & Q2 & Q3 & Q4). pose proof (agree_off_trans _ _ _ _ _ A13 Q4) as A4.
    unfold rebuilt. rewrite root_of_node. split_and!; try done.
    intros v Hv. apply A4. intros Hin. apply Hv. revert Hin. unfold whole.
    repeat (rewrite elem_of_app || rewrite elem_of_cons). rewrite elem_of_nil. tauto.
Qed.

(** ** One round of the loop *)

Lemma rb_ctx_black_too k c n : rb_ctx k c n -> rb_ctx k RB_BLACK n.
Proof. intros H. inversion H; subst; constructor; try done. by right. Qed.

Lemma rebuilt_fixed h rt l L k t' q m s' :
  rebuilt h rt l k t' s' -> rb t' m -> rb_ctx k (color_of t') m -> rt = root_ptr k q ->
  inorder (plug k t') = L -> (forall v, v ∈ l -> v ∈ L) -> fixed h L s'.
Proof.
  intros (R1 & R2 & R3 & R4) Ht Hk -> <- Hl. destruct s' as [h' rt']. cbn [rb_heap rb_root] in *.
  destruct (plug_repr h' rt' k t' m) as (P1 & P2 & P3); try done.
  { rewrite R3. destruct (decide (k = [])) as [->|Hne]; [done|]. by apply root_ptr_eq. }
  exists (plug k t'). split_and!; try done. intros v Hv. apply R4. intros Hin. by apply Hv, Hl.
Qed.

Lemma wp_null_or_black h r p t n (Q : bool -> RbTree -> Prop) :
  tree_at h p t -> rb t n -> p mod 4 = 0 -> Forall addr_ok (inorder t) ->
  (black t -> Q true (mkRbTree h r)) -> (color_of t = RB_RED -> Q false (mkRbTree h r)) ->
  wp (null_or_black (root_of t)) Q (mkRbTree h r).
Proof.
  intros Ht Hrb Hp Hok HB HR. unfold null_or_black. destruct t as [|c l a u]; [by apply wp_ret, HB|].
  assert (a <> 0) as Ha0. { rewrite Forall_forall in Hok. destruct (Hok a); [set_solver|lia]. }
  pose proof (rb_color _ _ Hrb) as Hcol. cbn [root_of color_of] in *. rewrite (proj2 (Z.eqb_neq a 0)) by done.
  destruct Ht as (Ha & _). unfold rb_is_black. do 2 rb_step. rb_step. unfold __rb_is_black. rewrite pc_color by done.
  destruct Hcol as [->| ->]; [by apply HR|by apply HB].
Qed.

Lemma red_node d t : color_of t = RB_RED -> exists l a r, t = node_on d RB_RED l a r.
Proof. intros H. destruct (as_node_on d t) as [->|(c & l & a & r & ->)]; [done|]. rewrite color_of_node in H. subst. eauto. Qed.

Lemma red_children d l a r n : rb (node_on d RB_RED l a r) n -> rb l n /\ rb r n /\ black l /\ black r.
Proof. intros [(_ & ?)|(m & _ & ? & _)]%rb_node_inv; [tauto|done]. Qed.

Lemma parent_of_0 k : Forall addr_ok (ctx_addrs k) -> parent_of k = 0 <-> k = [].
Proof. destruct k as [|f k]; [done|]. intros H. inversion H as [|? ? [? _] _]; subst. simpl. split; [lia|done]. Qed.

Section black_sibling.
Context (d : side) (h : gmap Z rb_node_) (rt : Z) (k : ctx) (t : tree) (p : Z) (x : tree) (s : Z) (y : tree) (c : Z) (n : nat).
Abbreviation sib := (node_on d RB_BLACK x s y).
Abbreviation around := (mkFrame d c p sib :: k).
Abbreviation whole := (inorder (plug k (node_on d c t p sib))).
Context (Hnd : NoDup (inorder t ++ p :: inorder x ++ s :: inorder y ++ ctx_addrs k)).
Context (Hok : Forall addr_ok (inorder t ++ p :: inorder x ++ s :: inorder y ++ ctx_addrs k)).
Context (Ht : tree_at h p t) (Hk : ctx_at h around (root_of t)) (Hrt : rt = root_ptr k p).
Context (Ht' : rb t n) (Hb : black t) (Hx : rb x n) (Hy : rb y n) (Hkc : rb_ctx around RB_BLACK (S n)).

Lemma sibling_parts :
  h !! p = Some (node_of d (Z.lor (parent_of k) c) (root_of t) s) /\
  h !! s = Some (node_of d (Z.lor p RB_BLACK) (root_of x) (root_of y)) /\ tree_at h s x /\ tree_at h s y /\ ctx_at h k p /\
  is_color c /\ rb_ctx k c (if decide (c = RB_RED) then S n else S (S n)).
Proof.
  destruct Hk as (Hp & Hs & Hk'). cbn [f_addr f_side f_color f_other parent_of] in *. rewrite root_of_node in Hp.
  rewrite tree_at_node in Hs. destruct Hs as (Hs & Hxt & Hyt). split_and!; try done.
  - inversion Hkc; subst; [by left|by right].
  - inversion Hkc; subst; [by rewrite decide_True|by rewrite decide_False].
Qed.

Lemma elem_whole v : v ∈ whole <-> v ∈ inorder t ++ p :: inorder x ++ s :: inorder y ++ ctx_addrs k.
Proof. rewrite perm_plug, inorder_node, inorder_node, <- !app_assoc. simpl. by rewrite <- app_assoc. Qed.

Lemma in_order_eq t' : inorder t' = inorder (node_on d c t p sib) -> inorder (plug k t') = whole.
Proof. apply inorder_plug_eq. Qed.

(** Cases 3 and 4 leave a tree of the colour and height of the old one. *)
Lemma rebuilt_rotated l t1 u1 a t2 u2 s' :
  rebuilt h rt l k (node_on d c (node_on d RB_BLACK t p t1) a (node_on d RB_BLACK t2 u1 u2)) s' ->
  rb t1 n -> rb t2 n -> rb u2 n ->
  inorder (node_on d c (node_on d RB_BLACK t p t1) a (node_on d RB_BLACK t2 u1 u2)) = inorder (node_on d c t p sib) ->
  (forall v, v ∈ l -> v ∈ inorder t ++ p :: inorder x ++ s :: inorder y ++ ctx_addrs k) -> fixed h whole s'.
Proof.
  intros HR H1 H2 H3 Hin Hl. destruct sibling_parts as (_ & _ & _ & _ & _ & Hc & Hkc').
  eapply (rebuilt_fixed _ _ _ _ _ _ p _ _ HR); [|rewrite color_of_node; exact Hkc'|done|by apply in_order_eq|].
  - destruct Hc as [->| ->]; [rewrite decide_True by done|rewrite decide_False by done].
    + apply rb_node_red; first [by apply rb_node_black|unfold black; by rewrite color_of_node].
    + apply rb_node_black; by apply rb_node_black.
  - intros v Hv. apply elem_whole, Hl, Hv.
Qed.

(** Case 4: the outer child of the sibling is red. *)
Lemma wp_case4 : color_of y = RB_RED -> wp (erase_rotate d p s (root_of y)) (fun _ => fixed h whole) (mkRbTree h rt).
Proof.
  intros Hr. destruct sibling_parts as (Hp & Hs & Hxt & Hyt & Hk' & Hc & _).
  destruct (red_node d y Hr) as (yi & q & yo & Ey).
  assert (rb yi n /\ rb yo n /\ black yi /\ black yo) as (Hyi & Hyo & _) by (apply (red_children d yi q yo); by rewrite <- Ey).
  assert (inorder t ++ p :: inorder x ++ s :: inorder yi ++ q :: inorder yo ++ ctx_addrs k ≡ₚ
    inorder t ++ p :: inorder x ++ s :: inorder y ++ ctx_addrs k) as Hperm.
  { rewrite Ey, inorder_node, <- app_assoc. done. }
  rewrite Ey, root_of_node in Hs. rewrite Ey in Hyt. apply tree_at_node in Hyt. destruct Hyt as (Hq & Hqi & Hqo). rewrite Ey at 1. rewrite root_of_node.
  eapply wp_mono; [eapply (wp_erase_rotate d h rt k t p x s yi q yo c _ _ _ n); try done; by rewrite Hperm|].
  intros [] s' HR. eapply (rebuilt_rotated _ x q s yi yo); [exact HR|done..| |].
  - rewrite Ey. destruct d; simpl; repeat (rewrite <- app_assoc; simpl); done.
  - intros v. by rewrite Hperm.
Qed.

(** Case 3: only the inner child of the sibling is red. *)
Lemma wp_case3 b :
  color_of x = RB_RED -> root_of x = b ->
  wp (tmp1 ← child (other d) b;
      set_child d s tmp1 ;;
      if_node tmp1 (rb_set_parent_color tmp1 s RB_BLACK) ;;
      set_child (other d) b s ;;
      set_child (other d) p b ;;
      erase_rotate d p b s) (fun _ => fixed h whole) (mkRbTree h rt).
Proof.
  intros Hr Eb. destruct sibling_parts as (Hp & Hs & Hxt & Hyt & Hk' & Hc & _).
  destruct (red_node d x Hr) as (xi & a & xo & Ex).
  assert (rb xi n /\ rb xo n /\ black xi /\ black xo) as (Hxi & Hxo & _ & Hbo) by (apply (red_children d xi a xo); by rewrite <- Ex).
  assert (inorder t ++ p :: inorder xi ++ a :: inorder xo ++ s :: inorder y ++ ctx_addrs k ≡ₚ
    inorder t ++ p :: inorder x ++ s :: inorder y ++ ctx_addrs k) as Hperm.
  { rewrite Ex, inorder_node, <- app_assoc. done. }
  pose proof Hnd as Nd. pose proof Hok as Ok. rewrite <- Hperm in Nd, Ok. pose proof Nd as Nd'. apart Nd'.
  rewrite Ex, root_of_node in Hs. rewrite Ex in Hxt. apply tree_at_node in Hxt. destruct Hxt as (Ha & Hai & Hao). rewrite Ex, root_of_node in Eb. subst b.
  do 4 side_step.
  match goal with |- wp _ _ (mkRbTree ?e _) => set (h1 := e) end. assert (agree_off [s] h h1) as A1 by apply agree_off_insert.
  side_step. eapply wp_mono; [apply (wp_move h1 rt xo a s _ n); try done|].
  { by apply tree_at_insert; [notin|]. }
  { rewrite !Forall_app, Forall_cons, Forall_app, Forall_cons, Forall_app in Ok. tauto. }
  { rewrite !Forall_app, Forall_cons, Forall_app, Forall_cons, Forall_app in Ok. apply Ok. }
  { eexists. right. by split_and!. }
  intros [] ? (h2 & -> & Hxo2 & A2). pose proof (agree_off_trans _ _ _ _ _ A1 A2) as A12.
  assert (h2 !! a = h !! a) as Ea by (apply A12; notin). rewrite Ha in Ea.
  assert (h2 !! p = h !! p) as Ep by (apply A12; notin). rewrite Hp in Ep.
  assert (h2 !! s = h1 !! s) as Es by (apply A2; notin). unfold h1 in Es. rewrite lookup_insert_eq in Es.
  do 4 side_step.
  match goal with |- wp _ _ (mkRbTree ?e _) => set (h3 := e) end.
  assert (agree_off [a; p] h2 h3) as A3.
  { intros v Hv. unfold h3. rewrite !lookup_insert_ne by set_solver. done. }
  pose proof (agree_off_trans _ _ _ _ _ A12 A3) as A13.
  eapply wp_mono; [eapply (wp_erase_rotate d h3 rt k t p xi a xo s y c _ _ _ n); try done|].
  - eapply ctx_at_off; [exact A13|off|done].
  - unfold h3. rb_lookup.
  - eapply tree_at_off; [exact A13|off|done].
  - unfold h3. rb_lookup.
  - eapply tree_at_off; [exact A13|off|done].
  - unfold h3. rb_lookup.
  - eapply tree_at_off; [exact A3|off|done].
  - eapply tree_at_off; [exact A13|off|done].
  - intros [] s' (R1 & R2 & R3 & R4). eapply (rebuilt_rotated _ xi s a xo y); [split_and!; [exact R1|exact R2|exact R3|exact (agree_off_trans _ _ _ _ _ A13 R4)]|done..| |].
    + rewrite Ex. destruct d; simpl; repeat (rewrite <- app_assoc; simpl); done.
    + intros v. rewrite <- Hperm. repeat (rewrite elem_of_app || rewrite elem_of_cons). rewrite elem_of_nil. tauto.
Qed.

(** Case 2: the sibling turns red. *)
Abbreviation sib_red := (node_on d RB_RED x s y).
Abbreviation recolored := (<[s := node_of d (Z.lor p RB_RED) (root_of x) (root_of y)]> h).

Lemma recolored_at :
  ctx_at recolored k p /\ recolored !! p = h !! p /\ tree_at recolored p t /\ tree_at recolored p sib_red.
Proof.
  destruct sibling_parts as (Hp & Hs & Hxt & Hyt & Hk' & _). pose proof Hnd as Nd. apart Nd. split_and!.
  - apply ctx_at_insert; [notin|done].
  - by rewrite lookup_insert_ne by notin.
  - apply tree_at_insert; [notin|done].
  - rewrite tree_at_node. split_and!; [by rewrite lookup_insert_eq|apply tree_at_insert; [notin|done]..].
Qed.

(** The loop goes on from the parent, which was black. *)
Definition goes_on (again : Z -> Z -> R unit) : Prop :=
  k <> [] -> c = RB_BLACK -> black x -> black y ->
  wp (again p (parent_of k)) (fun _ => fixed recolored whole) (mkRbTree recolored rt).

Lemma wp_case2 again :
  black x -> black y -> goes_on again ->
  wp (rb_set_parent_color s p RB_RED ;;
      red ← rb_is_red p;
      if (red : bool) then rb_set_black p
      else
        let node := p in
        parent ← rb_parent node;
        if negb (parent =? 0) then again node parent else mret tt) (fun _ => fixed h whole) (mkRbTree h rt).
Proof.
  intros Hbx Hby Hgo. destruct sibling_parts as (Hp & Hs & _ & _ & _ & Hc & Hkc').
  destruct recolored_at as (Rk & Rp & Rt & Rs). rewrite Hp in Rp. pose proof Hnd as Nd. apart Nd.
  assert (Forall addr_ok (ctx_addrs k)) as Hko.
  { pose proof Hok as Ok. rewrite !Forall_app, Forall_cons, Forall_app, Forall_cons, Forall_app in Ok. tauto. }
  assert (parent_of k mod 4 = 0) as Hk4 by (by eapply ctx_mod).
  assert (forall a', a' = node_on d RB_BLACK t p sib_red -> inorder a' = inorder (node_on d c t p sib)) as Hin.
  { intros a' ->. by destruct d. }
  assert (rb sib_red n) as Hred by (by apply rb_node_red).
  do 2 side_step. unfold rb_is_red. side_step. side_step. side_step. rewrite ?node_of_pc. side_step.
  unfold __rb_is_red. rewrite pc_color by done. destruct Hc as [Ec|Ec]; rewrite Ec in Hp, Rp, Hkc' |- * at 1.
  - change (RB_RED =? 0) with true. cbn iota. unfold rb_set_black. do 2 side_step. rewrite <- Z.lor_assoc. change (Z.lor RB_RED RB_BLACK) with RB_BLACK.
    side_step. rewrite decide_True in Hkc' by done.
    eapply (rebuilt_fixed h rt [s; p] whole k (node_on d RB_BLACK t p sib_red) p (S n)).
    + unfold rebuilt. rewrite root_of_node, tree_at_node, root_of_node. cbn [rb_heap rb_root]. split_and!.
      * by rewrite lookup_insert_eq.
      * apply tree_at_insert; [notin|done].
      * apply tree_at_insert; [|done]. rewrite inorder_node. notin.
      * apply ctx_at_insert; [notin|done].
      * rewrite Hrt. by destruct (decide (k = [])) as [->|].
      * intros v Hv. rewrite !lookup_insert_ne by set_solver. done.
    + by apply rb_node_black.
    + rewrite color_of_node. by eapply rb_ctx_black_too.
    + done.
    + by apply inorder_plug_eq, Hin.
    + intros v Hv. apply elem_whole. repeat (rewrite elem_of_app || rewrite elem_of_cons). set_solver.
  - change (RB_BLACK =? 0) with false. cbn iota zeta. unfold rb_parent. do 4 side_step. rewrite pc_parent by (done || by right).
    rewrite decide_False in Hkc' by done. destruct (decide (k = [])) as [Ek|Ek].
    + rewrite (proj2 (parent_of_0 k Hko)) by done. apply wp_ret.
      eapply (rebuilt_fixed h rt [s] whole k (node_on d RB_BLACK t p sib_red) p (S n)).
      * unfold rebuilt. rewrite root_of_node, tree_at_node, root_of_node. cbn [rb_heap rb_root]. split_and!; try done.
        -- rewrite Hrt. by destruct (decide (k = [])) as [->|].
        -- apply agree_off_insert.
      * by apply rb_node_black.
      * rewrite color_of_node, Ek. constructor.
      * done.
      * by apply inorder_plug_eq, Hin.
      * intros v Hv. apply elem_whole. repeat (rewrite elem_of_app || rewrite elem_of_cons). set_solver.
    + rewrite (proj2 (Z.eqb_neq (parent_of k) 0)) by (intros E0; by apply Ek, (parent_of_0 k Hko)). cbn [negb].
      eapply wp_mono; [by apply Hgo|]. intros [] s' (t' & Q1 & Q2 & Q3 & Q4 & Q5). exists t'. split_and!; try done.
      intros v Hv. rewrite Q5 by done. apply lookup_insert_ne. intros E. apply Hv, elem_whole. rewrite <- E.
      repeat (rewrite elem_of_app || rewrite elem_of_cons). tauto.
Qed.

Lemma wp_black_sibling again :
  goes_on again -> wp (erase_black_sibling again d p s) (fun _ => fixed h whole) (mkRbTree h rt).
Proof.
  intros Hgo. destruct sibling_parts as (Hp & Hs & Hxt & Hyt & _).
  pose proof Hok as Ok. rewrite !Forall_app, Forall_cons, Forall_app, Forall_cons, Forall_app in Ok.
  destruct Ok as (_ & _ & Ox & [_ Hs4] & Oy & _).
  unfold erase_black_sibling. do 2 side_step. apply wp_bind. apply (wp_null_or_black h rt s y n); try done; [|by apply wp_case4].
  intros Hby. do 2 side_step. apply wp_bind. apply (wp_null_or_black h rt s x n); try done; [|by intros; apply wp_case3].
  intros Hbx. by apply wp_case2.
Qed.
End black_sibling.

Lemma if_node_nz p c : p <> 0 -> if_node p c = c.
Proof. intros Hp. unfold if_node. by rewrite (proj2 (Z.eqb_neq p 0)). Qed.

Lemma root_nz t n : rb t (S n) -> Forall addr_ok (inorder t) -> root_of t <> 0.
Proof.
  destruct t as [|c l a r]; intros Ht Hok; [inversion Ht|]. rewrite Forall_forall in Hok. destruct (Hok a); [set_solver|simpl; lia].
Qed.

(** Case 1: the red sibling [s] takes the place of the parent, which turns red
    and gets its black child [x] as the new sibling. *)
Lemma wp_red_sibling d h rt k t p x s y n :
  let whole := inorder t ++ p :: inorder x ++ s :: inorder y ++ ctx_addrs k in
  NoDup whole -> Forall addr_ok whole -> tree_at h p t ->
  ctx_at h (mkFrame d RB_BLACK p (node_on d RB_RED x s y) :: k) (root_of t) -> rb x (S n) -> black x ->
  wp (erase_red_sibling d p s) (fun r s' =>
    r = root_of x /\ tree_at (rb_heap s') p t /\
    ctx_at (rb_heap s') (mkFrame d RB_RED p x :: mkFrame d RB_BLACK s y :: k) (root_of t) /\
    rb_root s' = (if decide (k = []) then s else rt) /\ agree_off whole h (rb_heap s')) (mkRbTree h rt).
Proof.
  intros whole Hnd Hok Ht (Hp & Hs & Hk) Hx Hbx. cbn [f_addr f_side f_color f_other parent_of] in *.
  change (h !! p = Some (node_of d (Z.lor (parent_of k) RB_BLACK) (root_of t) (root_of (node_on d RB_RED x s y)))) in Hp.
  rewrite root_of_node in Hp. apply tree_at_node in Hs as (Hs & Hxt & Hyt).
  pose proof Hnd as Nd. unfold whole in Nd. apart Nd. pose proof Hok as Ok. unfold whole in Ok.
  rewrite !Forall_app, Forall_cons, Forall_app, Forall_cons, Forall_app in Ok. destruct Ok as (_ & Op & Ox & Os & Oy & Okk).
  unfold erase_red_sibling. do 4 side_step.
  match goal with |- wp _ _ (mkRbTree ?e _) => set (h1 := e) end. assert (agree_off [p] h h1) as A1 by apply agree_off_insert.
  side_step. rewrite <- (if_node_nz (root_of x)) at 1 by (by eapply root_nz).
  eapply wp_mono; [apply (wp_move h1 rt x s p _ (S n)); try done; [by apply tree_at_insert; [notin|]|apply Os|eexists; by right]|].
  intros [] ? (h2 & -> & Hx2 & A2). pose proof (agree_off_trans _ _ _ _ _ A1 A2) as A12.
  assert (h2 !! s = h !! s) as Es by (apply A12; notin). rewrite Hs in Es.
  assert (h2 !! p = h1 !! p) as Ep by (apply A2; notin). unfold h1 in Ep. rewrite lookup_insert_eq in Ep.
  do 2 side_step. match goal with |- wp _ _ (mkRbTree ?e _) => set (h3 := e) end.
  assert (agree_off [s] h2 h3) as A3 by apply agree_off_insert.
  pose proof (agree_off_trans _ _ _ _ _ A12 A3) as A13. side_step.
  eapply wp_mono; [eapply (wp_rotation d h3 rt k t p x s y RB_BLACK RB_RED); try done|].
  - by rewrite !Forall_cons.
  - by right.
  - eapply ctx_at_off; [exact A13|off|done].
  - unfold h3. rb_lookup.
  - eapply tree_at_off; [exact A13|off|done].
  - eapply tree_at_off; [exact A3|off|done].
  - unfold h3. rb_lookup.
  - eapply tree_at_off; [exact A13|off|done].
  - intros [] s' (Q1 & Q2 & Q3 & Q4). apply wp_ret. pose proof (agree_off_trans _ _ _ _ _ A13 Q4) as A4.
    apply tree_at_node in Q1 as (Q1 & Qp & Qy). rewrite root_of_node in Q1. apply tree_at_node in Qp as (Qp & Qt & Qx).
    split_and!; try done. intros v Hv. apply A4. intros Hin. apply Hv. revert Hin. unfold whole.
    repeat (rewrite elem_of_app || rewrite elem_of_cons). rewrite elem_of_nil. tauto.
Qed.

(** ** The loop *)

(** The side of the short subtree, as the code finds it. *)
Lemma short_side d t u pc :
  root_of u <> root_of t -> (if negb (root_of t =? child_of Right (node_of d pc (root_of t) (root_of u))) then Left else Right) = d.
Proof.
  intros Hne. destruct d; simpl; [|by rewrite Z.eqb_refl]. rewrite (proj2 (Z.eqb_neq (root_of t) _)); [done|]. congruence.
Qed.

Lemma fixed_mono h h' l s' : fixed h' l s' -> agree_off l h h' -> fixed h l s'.
Proof.
  intros (t' & Q1 & Q2 & Q3 & Q4 & Q5) Ha. exists t'. split_and!; try done. intros v Hv. by rewrite Q5, Ha.
Qed.

(** The round goes on after case 1 with a red parent and ends. *)
Lemma wp_after_red d k t p x s y n again s' rt :
  let whole := inorder t ++ p :: inorder x ++ s :: inorder y ++ ctx_addrs k in
  NoDup whole -> Forall addr_ok whole -> rb t n -> black t -> rb x (S n) -> black x -> rb y (S n) ->
  rb_ctx k RB_BLACK (S (S n)) -> tree_at (rb_heap s') p t ->
  ctx_at (rb_heap s') (mkFrame d RB_RED p x :: mkFrame d RB_BLACK s y :: k) (root_of t) ->
  rb_root s' = (if decide (k = []) then s else rt) -> rt = root_ptr k p ->
  wp (erase_black_sibling again d p (root_of x))
    (fun _ => fixed (rb_heap s') (inorder (plug k (node_on d RB_BLACK t p (node_on d RB_RED x s y))))) s'.
Proof.
  intros whole Hnd Hok Ht Hb Hx Hbx Hy Hkc Htt Hkk Hr ->. destruct s' as [h' rt']. cbn [rb_heap rb_root] in *.
  destruct (as_node_on d x) as [->|(cx & xi & a & xo & ->)]; [inversion Hx|].
  unfold black in Hbx. rewrite color_of_node in Hbx. subst cx. rewrite root_of_node.
  pose proof Hx as [[? _]|(m & [= <-] & _ & Hxi & Hxo)]%rb_node_inv; [done|].
  assert (inorder t ++ p :: inorder xi ++ a :: inorder xo ++ ctx_addrs (mkFrame d RB_BLACK s y :: k) ≡ₚ whole) as Hperm.
  { unfold whole. rewrite inorder_node, <- app_assoc. done. }
  assert (inorder (plug k (node_on d RB_BLACK t p (node_on d RB_RED (node_on d RB_BLACK xi a xo) s y))) =
    inorder (plug (mkFrame d RB_BLACK s y :: k) (node_on d RB_RED t p (node_on d RB_BLACK xi a xo)))) as ->.
  { cbn [plug]. apply inorder_plug_eq. unfold fill. destruct d; simpl; repeat (rewrite <- app_assoc; simpl); done. }
  apply (wp_black_sibling d h' rt' (mkFrame d RB_BLACK s y :: k) t p xi a xo RB_RED n); try done.
  - by rewrite Hperm.
  - by rewrite Hperm.
  - rewrite root_ptr_cons, Hr. cbn [f_addr]. destruct (decide (k = [])) as [->|Hne]; [done|]. by apply root_ptr_eq.
  - constructor; [done|unfold black; by rewrite color_of_node|]. constructor; [done..|by left].
Qed.

(** The subtree [t] is one black node short of what [k] takes. *)
Lemma wp_erase_fix fuel : forall k t n h rt,
  tree_at h (parent_of k) t -> ctx_at h k (root_of t) ->
  NoDup (inorder t ++ ctx_addrs k) -> Forall addr_ok (inorder t ++ ctx_addrs k) ->
  rb t n -> black t -> rb_ctx k RB_BLACK (S n) -> k <> [] -> rt = root_ptr k (root_of t) -> (length k <= fuel)%nat ->
  wp (erase_fix_loop fuel (root_of t) (parent_of k)) (fun _ => fixed h (inorder (plug k t))) (mkRbTree h rt).
Proof.
  induction fuel as [|fuel IH]; intros k t n h rt Ht Hk Hnd Hok Hrb Hb Hkc Hne Hrt Hf; [destruct k; [done|simpl in Hf; lia]|].
  destruct k as [|[d c p u] k]; [done|]. clear Hne. rewrite root_ptr_cons in Hrt. cbn [f_addr parent_of plug ctx_addrs f_other] in *.
  assert (rb u (S n) /\ (color_of u = RB_RED -> c = RB_BLACK)) as [Hu Huc].
  { inversion Hkc; subst; split; try done. unfold black in *. congruence. }
  destruct (as_node_on d u) as [->|(cu & x & s & y & ->)]; [inversion Hu|]. rewrite color_of_node in Huc.
  assert (inorder t ++ p :: inorder x ++ s :: inorder y ++ ctx_addrs k ≡ₚ inorder t ++ p :: inorder (node_on d cu x s y) ++ ctx_addrs k) as Hperm.
  { by rewrite inorder_node, <- app_assoc. }
  rewrite <- Hperm in Hnd, Hok. pose proof Hk as (Hp & Hs & Hk'). cbn [f_addr f_side f_color f_other parent_of] in Hp, Hs, Hk'.
  change (h !! p = Some (node_of d (Z.lor (parent_of k) c) (root_of t) (root_of (node_on d cu x s y)))) in Hp.
  pose proof Hs as (Hs' & _)%tree_at_node.
  pose proof Hok as Ok. rewrite !Forall_app, Forall_cons, Forall_app, Forall_cons, Forall_app in Ok.
  destruct Ok as (_ & Op & Ox & Os & Oy & Okk). pose proof (rb_color _ _ Hu) as Hcu. rewrite color_of_node in Hcu.
  assert (root_of (node_on d cu x s y) <> root_of t) as Hne.
  { rewrite root_of_node. apply not_eq_sym, root_of_ne; [destruct Os; lia|]. pose proof Hnd as Nd. apart Nd. notin. }
  cbn [erase_fix_loop]. side_step. side_step. rewrite short_side by done. cbv zeta. do 2 side_step. rewrite root_of_node.
  unfold rb_is_red. side_step. side_step. side_step. rewrite ?node_of_pc. side_step.
  unfold __rb_is_red. rewrite pc_color by (done || apply Op). side_step.
  assert (forall v, fill (mkFrame d c p v) t = node_on d c t p v) as Efill by done. rewrite Efill.
  destruct Hcu as [->| ->].
  - rewrite (Huc eq_refl) in *. change (RB_RED =? 0) with true. cbn iota.
    apply red_children in Hu as (Hx & Hy & Hbx & Hby).
    eapply wp_mono; [apply (wp_red_sibling d h rt k t p x s y n); done|]. intros r s' (-> & Q1 & Q2 & Q3 & Q4).
    eapply wp_mono; [by apply (wp_after_red d k t p x s y n _ s' rt); try done; inversion Hkc|].
    intros [] s2 Hfx. eapply fixed_mono; [exact Hfx|]. intros v Hv. apply Q4. intros Hin. apply Hv.
    rewrite perm_plug, inorder_node, <- app_assoc. simpl. by rewrite <- Hperm.
  - change (RB_BLACK =? 0) with false. cbn iota. side_step. pose proof Hu as [[? _]|(m & [= <-] & _ & Hx & Hy)]%rb_node_inv; [done|].
    apply (wp_black_sibling d h rt k t p x s y c n); try done. intros Hkne -> Hbx Hby.
    destruct (recolored_at d h k t p x s y RB_BLACK n) as (R1 & R2 & R3 & R4); try done.
    assert (inorder (plug k (node_on d RB_BLACK t p (node_on d RB_RED x s y))) = inorder (plug k (node_on d RB_BLACK t p (node_on d RB_BLACK x s y)))) as Hin.
    { apply inorder_plug_eq. by destruct d. }
    assert (inorder (node_on d RB_BLACK t p (node_on d RB_RED x s y)) ++ ctx_addrs k ≡ₚ inorder t ++ p :: inorder x ++ s :: inorder y ++ ctx_addrs k) as Hp2.
    { rewrite inorder_node, inorder_node, <- app_assoc. simpl. by rewrite <- app_assoc. }
    rewrite <- Hin. replace p with (root_of (node_on d RB_BLACK t p (node_on d RB_RED x s y))) at 1 by apply root_of_node.
    apply (IH k _ (S n)); rewrite ?root_of_node, ?Hp2; try done.
    + rewrite tree_at_node, root_of_node. split_and!; [|done..]. by rewrite R2, Hp, root_of_node.
    + apply rb_node_black; [done|by apply rb_node_red].
    + unfold black. by rewrite color_of_node.
    + by inversion Hkc.
    + simpl in Hf. lia.
Qed.
