(* ===== verification/RbErase.v ===== *)
(** Removal from red-black trees: the pointer code of [_rb_erase] takes one
    node out of the tree, which stays a sorted red-black tree. *)
From Stdlib Require Import ZArith Lia Sorting.Sorted.
From stdpp Require Import base numbers gmap list.
From S2P Require Import Prelude RbTree RbRotate RbFix RbEraseFix RbInsert.

#[local] Opaque child set_child parent_color set_pc.

(** ** Part of a context *)

(** The frames [ks] below the node [base], around a hole whose root is [p]. *)
Fixpoint seg_at (h : gmap Z rb_node_) (ks : ctx) (base p : Z) : Prop :=
  match ks with
  | [] => True
  | f :: ks' =>
      h !! f_addr f = Some (node_of (f_side f) (Z.lor (if ks' is [] then base else parent_of ks') (f_color f)) p (root_of (f_other f))) /\
      tree_at h (f_addr f) (f_other f) /\ seg_at h ks' base (f_addr f)
  end.

Lemma ctx_at_app h ks k p :
  ctx_at h (ks ++ k) p <-> seg_at h ks (parent_of k) p /\ ctx_at h k (root_ptr ks p).
Proof.
  revert p. induction ks as [|f ks IH]; intros p; [simpl; tauto|]. rewrite root_ptr_cons. cbn [app ctx_at seg_at].
  rewrite IH. destruct ks; simpl; tauto.
Qed.

Lemma seg_at_off h h' l ks b p : agree_off l h h' -> (forall x, x ∈ ctx_addrs ks -> x ∉ l) -> seg_at h ks b p -> seg_at h' ks b p.
Proof.
  intros Ha. revert p. induction ks as [|f ks IH]; intros p Hl; [done|]. cbn [seg_at ctx_addrs] in *. intros (H1 & H2 & H3).
  setoid_rewrite elem_of_cons in Hl. setoid_rewrite elem_of_app in Hl. split_and!.
  - rewrite Ha; [done|]. apply Hl. by left.
  - eapply tree_at_off; [done| |done]. intros x Hx. apply Hl. tauto.
  - apply IH; [|done]. intros x Hx. apply Hl. tauto.
Qed.

Lemma seg_at_insert h ks b p a n : a ∉ ctx_addrs ks -> seg_at h ks b p -> seg_at (<[a := n]> h) ks b p.
Proof. intros Ha. apply seg_at_off with (l := [a]); [apply agree_off_insert|]. set_solver. Qed.

Lemma ctx_addrs_app k1 k2 : ctx_addrs (k1 ++ k2) = ctx_addrs k1 ++ ctx_addrs k2.
Proof. induction k1 as [|f k1 IH]; simpl; [done|]. by rewrite IH, <- app_assoc. Qed.

(** The hole gets another root: one assignment to the lowest frame. *)
Lemma seg_set_hole h f ks b p q :
  NoDup (ctx_addrs (f :: ks)) -> seg_at h (f :: ks) b p ->
  exists n, h !! f_addr f = Some n /\ seg_at (<[f_addr f := with_child (f_side f) q n]> h) (f :: ks) b q.
Proof.
  cbn [seg_at ctx_addrs]. intros Hnd (H1 & H2 & H3). apart Hnd. eexists. split; [exact H1|]. rewrite node_of_set.
  split_and!; [by rewrite lookup_insert_eq|apply tree_at_insert; [notin|done]|apply seg_at_insert; [notin|done]].
Qed.

(** The whole part moves below another node: one assignment to the highest frame. *)
Lemma seg_set_base h ks f b b' p :
  NoDup (ctx_addrs (ks ++ [f])) -> is_color (f_color f) -> b mod 4 = 0 -> seg_at h (ks ++ [f]) b p ->
  exists n, h !! f_addr f = Some n /\ __rb_color (__rb_parent_color n) = f_color f /\
    seg_at (<[f_addr f := mkRb (Z.lor (f_color f) b') (rb_right n) (rb_left n)]> h) (ks ++ [f]) b' p.
Proof.
  intros Hnd Hc Hb. revert p. induction ks as [|g ks IH]; intros p; cbn [app seg_at ctx_addrs] in *.
  - intros (H1 & H2 & _). apart Hnd. eexists. split; [exact H1|]. split; [rewrite node_of_pc; by apply pc_color|].
    rewrite node_of_set_pc, Z.lor_comm. split_and!; [by rewrite lookup_insert_eq|apply tree_at_insert; [notin|done]|done].
  - intros (H1 & H2 & H3). pose proof Hnd as Hnd'. rewrite ctx_addrs_snoc in Hnd'. apart Hnd'.
    apply NoDup_cons in Hnd as [_ Hnd]. apply NoDup_app in Hnd as (_ & _ & Hnd).
    destruct (IH Hnd _ H3) as (n & Hn & Hcn & Hs). exists n. split_and!; [done|done| |apply tree_at_insert; [notin|done]|done].
    rewrite lookup_insert_ne by notin. rewrite H1. by destruct ks.
Qed.

(** ** Finding the parts *)

Lemma find_node t a : a ∈ inorder t -> exists k c l r, t = plug k (Node c l a r).
Proof.
  induction t as [|c l IHl b r IHr]; simpl; [by intros ?%elem_of_nil|]. rewrite elem_of_app, elem_of_cons. intros [Hl|[->|Hr]].
  - destruct (IHl Hl) as (k & c' & l' & r' & ->). exists (k ++ [mkFrame Left c b r]), c', l', r'. by rewrite plug_snoc.
  - by exists [], c, l, r.
  - destruct (IHr Hr) as (k & c' & l' & r' & ->). exists (k ++ [mkFrame Right c b l]), c', l', r'. by rewrite plug_snoc.
Qed.

(** The leftmost node of a subtree, below frames that are all on the left. *)
Definition leftward (ks : ctx) : Prop := Forall (fun f => f_side f = Left) ks.

Lemma find_first t : t <> Leaf -> exists ks c a r, t = plug ks (Node c Leaf a r) /\ leftward ks.
Proof.
  induction t as [|c l IHl b r IHr]; [done|]. intros _. destruct l as [|cl ll lb lr].
  - exists [], c, b, r. split; [done|]. by constructor.
  - destruct IHl as (ks & c' & a & r' & -> & Hl); [done|]. exists (ks ++ [mkFrame Left c b r]), c', a, r'.
    rewrite plug_snoc. split; [done|]. apply Forall_app. split; [done|]. by repeat constructor.
Qed.

Lemma inorder_leftward ks : leftward ks -> exists l, l ≡ₚ ctx_addrs ks /\ forall u, inorder (plug ks u) = inorder u ++ l.
Proof.
  intros H. induction ks as [|f ks IH] using rev_ind; [exists []; split; [done|]; intros u; by rewrite app_nil_r|].
  apply Forall_app in H as [H Hf]. inversion Hf as [|? ? Hs]; subst. destruct (IH H) as (l & Hp & Hl).
  destruct f as [d c a v]. simpl in Hs. subst d. exists (l ++ a :: inorder v). split; [by rewrite ctx_addrs_snoc, Hp|].
  intros u. rewrite plug_snoc. simpl. by rewrite Hl, <- app_assoc.
Qed.

(** ** Taking out a node without a left child *)

Lemma splice_rb k c a r n :
  rb (Node c Leaf a r) n -> rb_ctx k c n ->
  r = Leaf /\ c = RB_RED /\ rb_ctx k RB_BLACK 0 \/ r = Leaf /\ c = RB_BLACK /\ rb_ctx k RB_BLACK 1 \/
  (exists b, r = Node RB_RED Leaf b Leaf /\ c = RB_BLACK /\ rb_ctx k RB_BLACK 1).
Proof.
  intros Ht Hk. inversion Ht as [|? ? ? ? Hl Hr _ Hb|? ? ? m Hl Hr]; subst; inversion Hl; subst.
  - inversion Hr; subst; [left|done]. split_and!; try done. by eapply rb_ctx_black_too.
  - right. inversion Hr as [|rl b rr ? H1 H2 B1 B2|]; subst; [by left|right]. exists b.
    inversion H1; subst; [|done]. by inversion H2; subst.
Qed.

Lemma rb_ctx_rename ks d c a b u k x n : rb_ctx (ks ++ mkFrame d c a u :: k) x n -> rb_ctx (ks ++ mkFrame d c b u :: k) x n.
Proof.
  revert x n. induction ks as [|f ks IH]; intros x n; simpl; intros H; inversion H; subst; constructor; try done; by apply IH.
Qed.

(** What [__rb_erase] leaves: the tree is whole again, or the empty subtree in
    the context [k] is one black node short. *)
Definition erased (h : gmap Z rb_node_) (l : list Z) (rebalance : Z) (s' : RbTree) : Prop :=
  rebalance = 0 /\ fixed h l s' \/
  exists k, k <> [] /\ rebalance = parent_of k /\ ctx_at (rb_heap s') k 0 /\ rb_ctx k RB_BLACK 1 /\
    rb_root s' = root_ptr k 0 /\ inorder (plug k Leaf) = l /\ agree_off l h (rb_heap s').

Lemma erased_leaf h h' k c q :
  ctx_at h' k 0 -> is_color c -> q mod 4 = 0 -> rb_ctx k RB_BLACK (if decide (c = RB_RED) then 0 else 1) ->
  agree_off (inorder (plug k Leaf)) h h' ->
  erased h (inorder (plug k Leaf)) (if __rb_is_black (Z.lor q c) then parent_of k else 0) (mkRbTree h' (root_ptr k 0)).
Proof.
  intros Hk Hc Hq Hkc Ha. unfold __rb_is_black. rewrite pc_color by done. destruct Hc as [->| ->].
  - rewrite decide_True in Hkc by done. left. split; [done|]. exists (plug k Leaf).
    destruct (plug_repr h' (root_ptr k 0) k Leaf 0) as (P1 & P2 & P3); try done. constructor.
  - rewrite decide_False in Hkc by done. change (negb (RB_BLACK =? 0)) with true. cbn iota.
    destruct k as [|f k]; [left|right].
    + split; [done|]. exists Leaf. split_and!; try done. exists 0%nat. constructor.
    + by exists (f :: k).
Qed.

(** A red leaf takes the place and turns black. *)
Lemma erased_red h h' k b :
  tree_at h' (parent_of k) (Node RB_BLACK Leaf b Leaf) -> ctx_at h' k b -> rb_ctx k RB_BLACK 1 ->
  agree_off (inorder (plug k (Node RB_RED Leaf b Leaf))) h h' ->
  erased h (inorder (plug k (Node RB_RED Leaf b Leaf))) 0 (mkRbTree h' (root_ptr k b)).
Proof.
  rewrite (inorder_plug_eq k (Node RB_RED Leaf b Leaf) (Node RB_BLACK Leaf b Leaf)) by done.
  intros Ht Hk Hkc Ha. left. split; [done|]. exists (plug k (Node RB_BLACK Leaf b Leaf)).
  destruct (plug_repr h' (root_ptr k b) k (Node RB_BLACK Leaf b Leaf) 1) as (P1 & P2 & P3); try done. repeat constructor.
Qed.

(** [__rb_change_child], with the root pointer in the same form. *)
Lemma wp_replace_child h k old new :
  ctx_at h k old -> NoDup (ctx_addrs k) -> old ∉ ctx_addrs k -> old <> 0 -> Forall addr_ok (ctx_addrs k) ->
  wp (__rb_change_child old new (parent_of k)) (fun _ s' =>
    exists h', s' = mkRbTree h' (root_ptr k new) /\ ctx_at h' k new /\ agree_off (ctx_addrs k) h h') (mkRbTree h (root_ptr k old)).
Proof.
  intros Hk Hnd Ho H0 Hok. eapply wp_mono; [by apply (wp_change_child h _ k old new)|].
  intros [] [h' rt'] (Q1 & Q2 & Q3). cbn [rb_heap rb_root] in *. exists h'. split_and!; try done.
  - f_equal. rewrite Q2. destruct (decide (k = [])) as [->|Hne]; [done|]. by apply root_ptr_eq.
  - intros v Hv. apply Q3. intros Hp. by apply Hv, parents_in.
Qed.

Section erase.
Context (h : gmap Z rb_node_) (k : ctx) (c : Z) (l : tree) (a : Z) (r : tree) (n : nat).
Context (Hnd : NoDup (inorder (Node c l a r) ++ ctx_addrs k)) (Hok : Forall addr_ok (inorder (Node c l a r) ++ ctx_addrs k)).
Context (Ht : tree_at h (parent_of k) (Node c l a r)) (Hk : ctx_at h k a).
Context (Hrb : rb (Node c l a r) n) (Hkc : rb_ctx k c n).
Abbreviation start := (mkRbTree h (root_ptr k a)).

Lemma erase_facts :
  a <> 0 /\ a ∉ ctx_addrs k /\ NoDup (ctx_addrs k) /\ Forall addr_ok (ctx_addrs k) /\ parent_of k mod 4 = 0 /\ is_color c.
Proof.
  pose proof Hnd as Nd. apart Nd. rewrite Forall_app in Hok. destruct Hok as [Ho Hko]. rewrite Forall_forall in Ho.
  destruct (Ho a) as [? _]; [set_solver|]. split_and!; [lia|notin|done|done|by eapply ctx_mod|by eapply (rb_color _ _ Hrb)].
Qed.

(** The only child, a red leaf, takes the place of the node. *)
Lemma red_leaf_up h' b :
  agree_off (ctx_addrs k) h h' -> tree_at h a (Node RB_RED Leaf b Leaf) -> b ∉ ctx_addrs k -> ctx_at h' k b -> rb_ctx k RB_BLACK 1 -> c = RB_BLACK ->
  h' !! b = Some (mkRb (Z.lor a RB_RED) 0 0) /\
  erased h (inorder (plug k (Node RB_RED Leaf b Leaf))) 0 (mkRbTree (<[b := mkRb (Z.lor (parent_of k) c) 0 0]> h') (root_ptr k b)).
Proof.
  intros Ha' (Hb & _) Hbk Hk' Hkc' Ec. rewrite Ec. split; [rewrite Ha' by done; exact Hb|].
  apply erased_red; [|by apply ctx_at_insert|done|].
  - simpl. split_and!; [by rewrite lookup_insert_eq|done..].
  - intros v Hv. rewrite elem_plug in Hv. simpl in Hv. rewrite lookup_insert_ne by set_solver. apply Ha'. tauto.
Qed.

Lemma wp_erase_no_left : l = Leaf -> wp (__rb_erase a) (erased h (inorder (plug k r))) start.
Proof.
  intros El. destruct erase_facts as (Ha0 & Hak & Ndk & Okk & Hp4 & Hc). pose proof Ht as (Ha & Hlt & Hrt).
  unfold __rb_erase. do 4 rb_step. rewrite El at 1. change (root_of Leaf =? 0) with true. cbn iota.
  do 2 rb_step. cbv zeta. rewrite pc_parent by done. rb_step. eapply wp_mono; [by apply wp_replace_child|].
  intros [] s' (h' & -> & Hk' & Ha'). pose proof Hrb as Hrb'. rewrite El in Hrb'. pose proof Hnd as Nd.
  destruct (splice_rb k c a r n Hrb' Hkc) as [(Er & Ec & Hkc')|[(Er & Ec & Hkc')|(b & Er & Ec & Hkc')]]; rewrite Er in Hrt, Hk', Nd |- *.
  - apply wp_ret. apply erased_leaf; [done..|by rewrite decide_True|]. intros v Hv. apply Ha'. intros Hin. by apply Hv, elem_plug; right.
  - apply wp_ret. apply erased_leaf; [done..|rewrite decide_False; [done|by rewrite Ec]|]. intros v Hv. apply Ha'. intros Hin. by apply Hv, elem_plug; right.
  - apart Nd. cbn [root_of] in *. destruct (red_leaf_up h' b) as [Hb He]; [done..|].
    rewrite (proj2 (Z.eqb_neq b 0)). 2: { rewrite Forall_forall in Hok. destruct (Hok b); [|lia]. rewrite Er. simpl. set_solver. }
    cbn [negb]. do 2 rb_step. rb_step. exact He.
Qed.

Lemma wp_erase_no_right : l <> Leaf -> r = Leaf -> wp (__rb_erase a) (erased h (inorder (plug k l))) start.
Proof.
  intros El Er. destruct erase_facts as (Ha0 & Hak & Ndk & Okk & Hp4 & Hc). pose proof Ht as (Ha & Hlt & Hrt).
  assert (exists b, l = Node RB_RED Leaf b Leaf /\ c = RB_BLACK /\ rb_ctx k RB_BLACK 1) as (b & Eb & Ec & Hkc').
  { pose proof Hrb as H. rewrite Er in H. clear -H El Hkc. inversion H as [|? ? ? ? Hl Hr Hb|? ? ? m Hl Hr]; subst; inversion Hr; subst.
    - by inversion Hl; subst.
    - inversion Hl as [|ll b lr ? H1 H2|]; subst; [done|]. exists b. inversion H1; subst; [|done]. by inversion H2; subst. }
  pose proof Hnd as Nd. rewrite Eb in Hlt, Nd. apart Nd.
  assert (b <> 0) as Hb0. { rewrite Forall_forall in Hok. destruct (Hok b); [|lia]. rewrite Eb. simpl. set_solver. }
  destruct Hlt as (Hb & _).
  unfold __rb_erase. do 4 rb_step. rewrite Er, Eb. cbn [root_of].
  rewrite (proj2 (Z.eqb_neq b 0)) by done. change (0 =? 0) with true. cbn iota.
  do 4 rb_step. cbv zeta. rewrite pc_parent by done. rb_step.
  eapply wp_mono; [apply wp_replace_child; [by apply ctx_at_insert|done..]|].
  intros [] s' (h' & -> & Hk' & Ha'). apply wp_ret. rewrite Ec in Ha'. apply erased_red; [|done..|].
  - simpl. split_and!; [|done..]. rewrite Ha' by done. by rewrite lookup_insert_eq.
  - intros v Hv. rewrite elem_plug in Hv. simpl in Hv. rewrite Ha' by tauto. rewrite lookup_insert_ne; [done|]. set_solver.
Qed.
End erase.

(** ** The successor *)

Definition hole_parent (ks : ctx) (base : Z) : Z := if ks is [] then base else parent_of ks.

Lemma plug_seg h base ks t :
  tree_at h base (plug ks t) -> tree_at h (hole_parent ks base) t /\ seg_at h ks base (root_of t).
Proof.
  revert t. induction ks as [|f ks IH]; intros t H; simpl in *; [done|].
  apply IH in H as [H Hk]. destruct f as [d c b u]. unfold fill in *. cbn [f_side f_color f_addr f_other] in *.
  apply tree_at_node in H as (H1 & H2 & H3). rewrite root_of_node in Hk. by destruct ks.
Qed.

Lemma hole_parent_snoc ks f base : hole_parent (ks ++ [f]) base = hole_parent ks (f_addr f).
Proof. by destruct ks. Qed.

Lemma plug_not_leaf ks t : t <> Leaf -> plug ks t <> Leaf.
Proof. revert t. induction ks as [|f ks IH]; intros t Ht; [done|]. apply IH. unfold fill. by destruct (f_side f). Qed.

Lemma root_plug_nz ks c b r : Forall addr_ok (inorder (plug ks (Node c Leaf b r))) -> root_of (plug ks (Node c Leaf b r)) <> 0.
Proof.
  intros Hok. assert (root_of (plug ks (Node c Leaf b r)) ∈ inorder (plug ks (Node c Leaf b r))) as Hin.
  { destruct (plug ks (Node c Leaf b r)) eqn:E; [by apply plug_not_leaf in E|]. simpl. set_solver. }
  rewrite Forall_forall in Hok. destruct (Hok _ Hin). lia.
Qed.

(** The walk to the left returns the leftmost node and its parent. *)
Lemma wp_successor_walk fuel : forall ks c b r h rt q q',
  leftward ks -> tree_at h q (plug ks (Node c Leaf b r)) -> Forall addr_ok (inorder (plug ks (Node c Leaf b r))) ->
  (length ks < fuel)%nat ->
  wp (successor_walk fuel q' (root_of (plug ks (Node c Leaf b r)))) (fun w s' =>
    s' = mkRbTree h rt /\ w = (hole_parent ks q', b)) (mkRbTree h rt).
Proof.
  induction fuel as [|fuel IH]; intros ks c b r h rt q q' Hl Ht Hok Hf; [lia|]. cbn [successor_walk].
  destruct ks as [|f ks _] using rev_ind.
  - destruct Ht as (Hb & _). rb_step. rb_step. change (root_of Leaf) with 0. change (negb (0 =? 0)) with false. by apply wp_ret.
  - rewrite plug_snoc in *. apply Forall_app in Hl as [Hl Hs]. inversion Hs as [|? ? Es _]; subst. destruct f as [d cf a u].
    cbn [f_side] in Es. subst d. unfold fill in *. simpl in Ht, Hok |- *. destruct Ht as (Ha & Ht & Hu). apply Forall_app in Hok as [Hok _].
    do 2 rb_step. rewrite (proj2 (Z.eqb_neq _ 0)) by (by apply root_plug_nz). cbn [negb].
    eapply wp_mono; [apply (IH ks c b r h rt a a); try done; rewrite length_app in Hf; simpl in Hf; lia|].
    intros w s' [-> ->]. by rewrite hole_parent_snoc.
Qed.

(** After [take_successor]. *)
Definition successor_out (h : gmap Z rb_node_) (rt : Z) (ks : ctx) (c b : Z) (r : tree) (w : Z * Z * Z) (s' : RbTree) : Prop :=
  w = (hole_parent ks b, b, root_of r) /\ exists h' q, s' = mkRbTree h' rt /\ q mod 4 = 0 /\
    h' !! b = Some (mkRb (Z.lor q c) (root_ptr ks (root_of r)) 0) /\ tree_at h' b r /\ seg_at h' ks b (root_of r) /\
    agree_off (b :: ctx_addrs ks) h h'.

Lemma wp_relink h rt a g rest ks f c b r q :
  ks ++ [f] = g :: rest -> f_side g = Left -> NoDup (b :: inorder r ++ ctx_addrs (g :: rest)) -> is_color (f_color f) ->
  a mod 4 = 0 -> q mod 4 = 0 -> h !! b = Some (mkRb (Z.lor q c) (root_of r) 0) -> tree_at h b r -> seg_at h (g :: rest) a b ->
  wp (set_child Left (f_addr g) (root_of r) ;; set_child Right b (f_addr f) ;; rb_set_parent (f_addr f) b ;;
      mret (f_addr g, b, root_of r)) (successor_out h rt (g :: rest) c b r) (mkRbTree h rt).
Proof.
  intros Eg Es Hnd Hc Ha4 Hq4 Hb Hr Hseg. apply NoDup_cons in Hnd as [Nb Nd]. apply NoDup_app in Nd as (Nr & Ndr & Nk).
  rewrite not_elem_of_app in Nb. destruct Nb as [Nbr Nbk].
  assert (f_addr g ∈ ctx_addrs (g :: rest) /\ f_addr f ∈ ctx_addrs (g :: rest)) as [Ig If].
  { split; [simpl; set_solver|]. rewrite <- Eg, ctx_addrs_snoc. set_solver. }
  destruct (seg_set_hole h g rest a b (root_of r) Nk Hseg) as (n & Hn & H1). rewrite Es in H1.
  apply wp_bind. eapply wp_set_child; [exact Hn|].
  match goal with |- wp _ _ (mkRbTree ?e _) => set (h1 := e) in * end.
  assert (h1 !! b = h !! b) as Eb1. { apply lookup_insert_ne. intros E. apply Nbk. by rewrite <- E. } rewrite Hb in Eb1.
  apply wp_bind. eapply wp_set_child; [exact Eb1|]. cbn [with_child rb_left rb_right __rb_parent_color].
  match goal with |- wp _ _ (mkRbTree ?e _) => set (h2 := e) in * end.
  assert (seg_at h2 (g :: rest) a (root_of r)) as H2 by (by apply seg_at_insert).
  rewrite <- Eg in H2, Nk. destruct (seg_set_base h2 ks f a b (root_of r)) as (m & Hm & Hmc & H3); try done.
  unfold rb_set_parent. apply wp_bind, wp_bind. eapply wp_parent_color; [exact Hm|]. rewrite Hmc. eapply wp_set_pc; [exact Hm|].
  match goal with |- wp _ _ (mkRbTree ?e _) => set (h3 := e) in * end. rewrite Eg in H3, Nk.
  assert (agree_off (b :: ctx_addrs (g :: rest)) h h3) as Ha.
  { intros v Hv. rewrite not_elem_of_cons in Hv. destruct Hv as [Hvb Hvk]. unfold h3, h2, h1.
    rewrite !lookup_insert_ne; [done|..]; intros E; subst v; done. }
  apply wp_ret. split; [done|]. exists h3, q. split_and!; try done.
  - unfold h3. rewrite lookup_insert_ne by (intros E; by rewrite <- E in Nbk). unfold h2. rewrite lookup_insert_eq.
    rewrite <- Eg. unfold root_ptr. by rewrite last_snoc.
  - eapply tree_at_off; [exact Ha| |done]. intros x Hx. rewrite not_elem_of_cons. split; [by intros ->|by apply Ndr].
Qed.

Lemma wp_take_successor h rt a ks c b r :
  leftward ks -> tree_at h a (plug ks (Node c Leaf b r)) ->
  NoDup (b :: inorder r ++ ctx_addrs ks) -> Forall addr_ok (a :: b :: inorder r ++ ctx_addrs ks) ->
  Forall (fun f => is_color (f_color f)) ks ->
  wp (take_successor (root_of (plug ks (Node c Leaf b r)))) (successor_out h rt ks c b r) (mkRbTree h rt).
Proof.
  intros Hl Ht Hnd Hok Hcol. unfold take_successor. rewrite !Forall_cons, Forall_app in Hok. destruct Hok as ([_ Ha4] & [Hb0 Hb4] & Hro & Hko).
  pose proof (plug_seg h a ks (Node c Leaf b r) Ht) as [(Hb & _ & Hr) Hseg]. apply wp_bind, wp_get_state. cbn [rb_heap].
  destruct ks as [|f ks _] using rev_ind.
  { cbn [plug root_of] in *. do 2 rb_step. change (0 =? 0) with true. cbn iota. do 3 rb_step. split; [done|]. by exists h, a. }
  assert (inorder (plug (ks ++ [f]) (Node c Leaf b r)) ≡ₚ b :: inorder r ++ ctx_addrs (ks ++ [f])) as Hperm by (by rewrite perm_plug).
  assert (Forall addr_ok (inorder (plug (ks ++ [f]) (Node c Leaf b r)))) as Hpo by (rewrite Hperm, Forall_cons, Forall_app; done).
  assert (length ks < size h)%nat as Hsz.
  { apply Nat.lt_le_trans with (length (inorder (plug (ks ++ [f]) (Node c Leaf b r)))).
    - rewrite Hperm. simpl. rewrite length_app. pose proof (ctx_length (ks ++ [f])) as H. rewrite length_app in H. simpl in H. lia.
    - apply heap_size; [by rewrite Hperm|]. intros x Hx. exact (tree_at_is_some _ _ _ _ Ht Hx). }
  rewrite plug_snoc in Ht, Hpo |- *. pose proof Hl as [Hl' Hs]%Forall_app. inversion Hs as [|? ? Es _]; subst.
  pose proof Hcol as [_ Hcf]%Forall_app. inversion Hcf as [|? ? Hcf' _]; subst.
  destruct f as [d cf fa u]. cbn [f_side f_color] in Es, Hcf'. subst d. unfold fill in Ht, Hpo |- *. cbn [f_side f_color f_addr f_other node_on root_of] in *.
  destruct Ht as (Hfa & Ht & Hu). simpl in Hpo. apply Forall_app in Hpo as [Hpo _].
  do 2 rb_step. rewrite (proj2 (Z.eqb_neq _ 0)) by (by apply root_plug_nz). apply wp_bind.
  eapply wp_mono; [by apply (wp_successor_walk _ ks c b r h rt fa fa)|]. intros w s' [-> ->].
  pose proof Hnd as Nd. apply NoDup_cons in Nd as [Nb Nd]. apply NoDup_app in Nd as (Nr & Ndr & Nk). rewrite not_elem_of_app in Nb.
  do 2 rb_step.
  destruct (ks ++ [mkFrame Left cf fa u]) as [|g rest] eqn:Eg; [by destruct ks|].
  assert (hole_parent ks fa = f_addr g /\ f_side g = Left) as [-> Eside].
  { split; [|by inversion Hl]. destruct ks as [|g' ks]; by inversion Eg. }
  apply (wp_relink h rt a g rest ks (mkFrame Left cf fa u) c b r (f_addr g)); try done.
  inversion Hko as [|? ? [_ ?] _]; subst. done.
Qed.

(** ** Two children *)

Lemma root_ptr_app ks f k p : root_ptr (ks ++ f :: k) p = root_ptr k (f_addr f).
Proof. revert p. induction ks as [|g ks IH]; intros p; simpl; rewrite root_ptr_cons; [done|]. apply IH. Qed.

Lemma hole_parent_of ks f k : parent_of (ks ++ f :: k) = hole_parent ks (f_addr f).
Proof. by destruct ks. Qed.

Section erase_two.
Context (h : gmap Z rb_node_) (k ks : ctx) (c : Z) (l : tree) (a cs b : Z) (sr : tree) (n nl : nat).
Abbreviation r := (plug ks (Node cs Leaf b sr)).
Abbreviation old_ctx := (ks ++ mkFrame Right c a l :: k).
Abbreviation new_ctx := (ks ++ mkFrame Right c b l :: k).
Abbreviation whole := (inorder l ++ a :: b :: inorder sr ++ ctx_addrs ks ++ ctx_addrs k).
Context (Hnd : NoDup whole) (Hok : Forall addr_ok whole).
Context (Ht : tree_at h (parent_of k) (Node c l a r)) (Hk : ctx_at h k a) (Hleft : leftward ks) (Hl0 : l <> Leaf).
Context (Hl : rb l nl) (Hs : rb (Node cs Leaf b sr) n) (Hkc : rb_ctx old_ctx cs n) (Hc : is_color c).

Lemma rb_ctx_colors k' x m : rb_ctx k' x m -> Forall (fun f => is_color (f_color f)) k'.
Proof. induction 1; constructor; try done; [by left|by right]. Qed.

(** The new root of the subtree is in place, with the subtrees of the old one. *)
Lemma successor_in h5 :
  h5 !! b = Some (mkRb (Z.lor (parent_of k) c) (root_ptr ks (root_of sr)) (root_of l)) -> tree_at h5 b l -> ctx_at h5 k b ->
  seg_at h5 ks b (root_of sr) -> ctx_at h5 new_ctx (root_of sr).
Proof. intros H1 H2 H3 H4. apply ctx_at_app. cbn [parent_of f_addr]. split; [done|]. by split_and!. Qed.

Lemma elem_new_ctx v : v ∈ ctx_addrs new_ctx <-> v ∈ b :: inorder l ++ ctx_addrs ks ++ ctx_addrs k.
Proof. rewrite ctx_addrs_app. simpl. repeat (rewrite elem_of_app || rewrite elem_of_cons). tauto. Qed.

(** The end of the third case: [b] gets the colour and the parent of [a]. *)
Lemma wp_erase_finish h4 q :
  q mod 4 = 0 -> h4 !! b = Some (mkRb (Z.lor q cs) (root_ptr ks (root_of sr)) (root_of l)) -> tree_at h4 b sr ->
  seg_at h4 ks b (root_of sr) -> tree_at h4 b l -> ctx_at h4 k b -> agree_off (ctx_addrs new_ctx) h h4 ->
  wp (if negb (root_of sr =? 0)
      then set_pc b (Z.lor (parent_of k) c) ;; rb_set_parent_color (root_of sr) (hole_parent ks b) RB_BLACK ;; mret 0
      else pc2 ← parent_color b; set_pc b (Z.lor (parent_of k) c) ;; mret (if __rb_is_black pc2 then hole_parent ks b else 0))
    (erased h (inorder (plug new_ctx sr))) (mkRbTree h4 (root_ptr k b)).
Proof.
  intros Hq Hb Hsr Hseg Hlt Hk4 A4. pose proof Hnd as Nd. pose proof Hok as Ok.
  set (h5 := <[b := mkRb (Z.lor (parent_of k) c) (root_ptr ks (root_of sr)) (root_of l)]> h4).
  assert (ctx_at h5 new_ctx (root_of sr)) as Hk5.
  { apart Nd. apply successor_in; unfold h5.
    - by rewrite lookup_insert_eq.
    - apply tree_at_insert; [|done]. intros Hin. specialize (H1 b Hin). tauto.
    - by apply ctx_at_insert.
    - by apply seg_at_insert. }
  assert (agree_off (ctx_addrs new_ctx) h h5) as A5.
  { intros v Hv. unfold h5. rewrite lookup_insert_ne; [by apply A4|]. intros <-. apply Hv, elem_new_ctx. set_solver. }
  assert (hole_parent ks b = parent_of new_ctx) as -> by (by rewrite hole_parent_of).
  assert (forall p, root_ptr k b = root_ptr new_ctx p) as Hroot by (intros p; by rewrite root_ptr_app).
  pose proof (rb_color _ _ Hs) as Hcs. cbn [color_of] in Hcs. apply (rb_ctx_rename ks Right c a b l k cs n) in Hkc.
  destruct (splice_rb new_ctx cs b sr n Hs Hkc) as [(Er & Ec & Hkc')|[(Er & Ec & Hkc')|(x & Er & Ec & Hkc')]].
  - rewrite (proj2 (Z.eqb_eq (root_of sr) 0)) by (by rewrite Er). cbn [negb]. do 5 rb_step. fold h5.
    clearbody h5. rewrite Er in Hk5 |- *. rewrite (Hroot 0). apply erased_leaf; [done..|by rewrite decide_True|].
    intros v Hv. apply A5. intros Hin. by apply Hv, elem_plug; right.
  - rewrite (proj2 (Z.eqb_eq (root_of sr) 0)) by (by rewrite Er). cbn [negb]. do 5 rb_step. fold h5.
    clearbody h5. rewrite Er in Hk5 |- *. rewrite (Hroot 0). apply erased_leaf; [done..|rewrite decide_False; [done|by rewrite Ec]|].
    intros v Hv. apply A5. intros Hin. by apply Hv, elem_plug; right.
  - rewrite Er in Nd, Ok, Hsr. apart Nd. destruct Hsr as (Hx & _).
    assert (x <> 0) as Hx0. { rewrite Forall_forall in Ok. destruct (Ok x); [simpl; set_solver|lia]. }
    rewrite (proj2 (Z.eqb_neq (root_of sr) 0)) by (by rewrite Er). cbn [negb]. do 2 rb_step. fold h5.
    assert (h5 !! x = Some (mkRb (Z.lor b RB_RED) 0 0)) as Hx5 by (unfold h5; rewrite lookup_insert_ne by congruence; exact Hx).
    clearbody h5. rewrite Er in Hk5 |- *. cbn [root_of] in *. do 3 rb_step. rewrite (Hroot x).
    assert (x ∉ ctx_addrs new_ctx) as Hxn.
    { rewrite elem_new_ctx. repeat (rewrite elem_of_app || rewrite elem_of_cons). intros [E|[Hin|Hin]]; [congruence| |tauto]. specialize (H1 x Hin). tauto. }
    apply erased_red; [|by apply ctx_at_insert|done|].
    + simpl. split_and!; [by rewrite lookup_insert_eq|done..].
    + intros v Hv. rewrite elem_plug in Hv. simpl in Hv. rewrite lookup_insert_ne by set_solver. apply A5. tauto.
Qed.

Lemma wp_erase_two : wp (__rb_erase a) (erased h (inorder (plug new_ctx sr))) (mkRbTree h (root_ptr k a)).
Proof.
  pose proof Ht as (Ha & Hlt & Hrt). pose proof Hnd as Nd. apart Nd. pose proof Hok as Ok.
  rewrite !Forall_app, !Forall_cons, !Forall_app in Ok. destruct Ok as (Ol & [Oa Oa4] & [Ob Ob4] & Osr & Oks & Ok).
  assert (root_of l <> 0) as Hrl. { destruct l; [done|]. rewrite Forall_forall in Ol. destruct (Ol a0); simpl; [set_solver|lia]. }
  assert (parent_of k mod 4 = 0) as Hp4 by (by eapply ctx_mod).
  unfold __rb_erase. do 4 rb_step. rewrite (proj2 (Z.eqb_neq (root_of l) 0)) by done.
  rewrite (proj2 (Z.eqb_neq (root_of r) 0)).
  2: { apply root_plug_nz. rewrite perm_plug. simpl. rewrite Forall_cons, Forall_app. done. }
  apply wp_bind. eapply wp_mono.
  { apply (wp_take_successor h (root_ptr k a) a ks cs b sr); try done.
    - apply NoDup_cons. rewrite not_elem_of_app, NoDup_app. split_and!; try done; try notin; off.
    - by rewrite !Forall_cons, Forall_app.
    - apply rb_ctx_colors in Hkc. by apply Forall_app in Hkc as [? _]. }
  intros w s1 (-> & h1 & q & -> & Hq & Hb1 & Hsr1 & Hseg1 & A1).
  assert (h1 !! a = h !! a) as Ea1 by (apply A1; notin). rewrite Ha in Ea1.
  do 4 rb_step. match goal with |- wp _ _ (mkRbTree ?e _) => set (h2 := e) end.
  assert (agree_off [b] h1 h2) as A2 by apply agree_off_insert. pose proof (agree_off_trans _ _ _ _ _ A1 A2) as A12.
  apply wp_bind. rewrite <- (if_node_nz (root_of l) (rb_set_parent (root_of l) b)) by done.
  eapply wp_mono; [apply (wp_move h2 (root_ptr k a) l a b _ nl); try done|].
  { eapply tree_at_off; [exact A12|off|done]. }
  { eexists. by left. }
  intros [] ? (h3 & -> & Hl3 & A3). pose proof (agree_off_trans _ _ _ _ _ A12 A3) as A13.
  assert (h3 !! a = h !! a) as Ea3 by (apply A13; notin). rewrite Ha in Ea3.
  assert (h3 !! b = h2 !! b) as Eb3 by (apply A3; notin). unfold h2 in Eb3. rewrite lookup_insert_eq in Eb3.
  do 2 rb_step. rewrite pc_parent by done. apply wp_bind.
  eapply wp_mono; [apply wp_replace_child; try done; [eapply ctx_at_off; [exact A13|off|done]|lia]|].
  intros [] ? (h4 & -> & Hk4 & A4). pose proof (agree_off_trans _ _ _ _ _ A13 A4) as A14.
  pose proof (agree_off_trans _ _ _ _ _ A2 (agree_off_trans _ _ _ _ _ A3 A4)) as A24.
  apply (wp_erase_finish h4 q); try done.
  - rewrite A4 by notin. done.
  - eapply tree_at_off; [exact A24|off|done].
  - eapply seg_at_off; [exact A24|off|done].
  - eapply tree_at_off; [exact A4|off|done].
  - intros v Hv. apply A14. rewrite elem_new_ctx in Hv. revert Hv. repeat (rewrite elem_of_app || rewrite elem_of_cons). rewrite elem_of_nil. tauto.
Qed.
End erase_two.

(** ** The operation *)

#[export] Instance tree_eq_dec : EqDecision tree.
Proof. solve_decision. Defined.

Lemma wp_rebalance h l rebalance s' :
  erased h l rebalance s' -> NoDup l -> Forall addr_ok l ->
  wp (if negb (rebalance =? 0) then __rb_erase_fix rebalance else mret tt) (fun _ => fixed h l) s'.
Proof.
  intros [[-> Hf]|(k & Hk & -> & Hkk & Hkc & Hr & <- & Ha)] Hnd Hok; [by apply wp_ret|].
  destruct s' as [h' rt]. cbn [rb_heap rb_root] in *. subst rt. rewrite perm_plug in Hnd, Hok.
  rewrite (proj2 (Z.eqb_neq (parent_of k) 0)) by (by rewrite parent_of_0). cbn [negb]. unfold __rb_erase_fix. apply wp_bind, wp_get_state.
  cbn [rb_heap]. eapply wp_mono; [apply (wp_erase_fix _ k Leaf 0 h' (root_ptr k 0)); try done; [constructor|]|].
  - transitivity (length (ctx_addrs k)); [apply ctx_length|]. apply heap_size; [done|]. intros x Hx. by eapply ctx_at_is_some.
  - intros [] s' Hf. by eapply fixed_mono.
Qed.

Lemma plug_app ks k t : plug (ks ++ k) t = plug k (plug ks t).
Proof. revert t. induction ks as [|f ks IH]; intros t; [done|]. apply IH. Qed.

(** The nodes that are left, in the order they had. *)
Definition without (a : Z) (l l' : list Z) : Prop := exists l1 l2, l = l1 ++ a :: l2 /\ l' = l1 ++ l2.

Lemma without_sub a l l' : without a l l' -> l ≡ₚ a :: l'.
Proof. intros (l1 & l2 & -> & ->). by rewrite Permutation_middle. Qed.

Lemma without_plug k c l a r u x1 x2 :
  inorder (Node c l a r) = x1 ++ a :: x2 -> inorder u = x1 ++ x2 -> without a (inorder (plug k (Node c l a r))) (inorder (plug k u)).
Proof.
  intros H1 H2. destruct (inorder_plug k) as (l1 & l2 & _ & H). rewrite !H, H1, H2. exists (l1 ++ x1), (x2 ++ l2).
  by rewrite <- !app_assoc.
Qed.

(** [__rb_erase] from a whole red-black tree. *)
Lemma wp_rb_erase_start h t a :
  tree_at h 0 t -> NoDup (inorder t) -> Forall addr_ok (inorder t) -> (exists m, rb t m) -> black t -> a ∈ inorder t ->
  wp (__rb_erase a) (fun reb s' => exists l', without a (inorder t) l' /\ erased h l' reb s') (mkRbTree h (root_of t)).
Proof.
  intros Ht Hnd Hok [m Hm] Hb Ha. destruct (find_node t a Ha) as (k & c & l & r & ->).
  apply unplug_at in Ht as [Ht Hk]. rewrite perm_plug in Hnd, Hok. rewrite root_of_plug. cbn [root_of] in *.
  destruct (rb_unplug k _ m Hm Hb) as (n & Hn & Hkc). cbn [color_of] in Hkc.
  destruct (decide (l = Leaf)) as [->|Hl].
  { eapply wp_mono; [by apply (wp_erase_no_left h k c Leaf a r n)|]. intros reb s' He. eexists. split; [|exact He].
    by apply (without_plug k c Leaf a r r [] (inorder r)). }
  destruct (decide (r = Leaf)) as [->|Hr].
  { eapply wp_mono; [by apply (wp_erase_no_right h k c l a Leaf n)|]. intros reb s' He. eexists. split; [|exact He].
    apply (without_plug k c l a Leaf l (inorder l) []); [done|]. by rewrite app_nil_r. }
  destruct (find_first r Hr) as (ks & cs & b & sr & -> & Hks).
  assert (inorder (Node c l a (plug ks (Node cs Leaf b sr))) ++ ctx_addrs k ≡ₚ inorder l ++ a :: b :: inorder sr ++ ctx_addrs ks ++ ctx_addrs k) as Hperm.
  { cbn [inorder]. rewrite perm_plug, <- app_assoc. simpl. by rewrite <- app_assoc. }
  rewrite Hperm in Hnd, Hok.
  assert (plug k (Node c l a (plug ks (Node cs Leaf b sr))) = plug (ks ++ mkFrame Right c a l :: k) (Node cs Leaf b sr)) as E.
  { rewrite plug_app. done. }
  rewrite E in Hm, Hb. destruct (rb_unplug _ _ m Hm Hb) as (n2 & Hn2 & Hkc2). cbn [color_of] in Hkc2.
  assert (exists nl, rb l nl) as [nl Hrl] by (inversion Hn; eauto).
  eapply wp_mono; [apply (wp_erase_two h k ks c l a cs b sr n2 nl); try done; by apply (rb_color _ _ Hn)|].
  intros reb s' He. eexists. split; [|exact He]. rewrite plug_app. cbn [plug].
  destruct (inorder_leftward ks Hks) as (lk & _ & Hlk).
  apply (without_plug k c l a _ _ (inorder l) (inorder (plug ks (Node cs Leaf b sr)))); [done|]. unfold fill. simpl.
  by rewrite !Hlk.
Qed.

Section spec.
Context (cmp : Z -> Z -> bool).

Lemma sorted_without a l l' : without a l l' -> sorted cmp l -> sorted cmp l'.
Proof.
  intros (l1 & l2 & -> & ->) Hs. apply sorted_app in Hs as (S1 & S2 & S3). apply StronglySorted_inv in S2 as [S2 _].
  apply sorted_app. split_and!; [done|done|]. intros x y Hx Hy. apply S3; [done|]. by apply elem_of_cons; right.
Qed.

Lemma wp_rb_erase s t a :
  rb_ok cmp s t -> a ∈ inorder t ->
  wp (_rb_erase a) (fun _ s' => exists t', rb_ok cmp s' t' /\ without a (inorder t) (inorder t') /\
    agree_off (inorder t') (rb_heap s) (rb_heap s')) s.
Proof.
  intros [[Ht Hrt] Hnd Hok Hrb Hbl Hs] Ha. destruct s as [h rt]. cbn [rb_heap rb_root] in *. subst rt.
  apply wp_bind. eapply wp_mono; [by apply wp_rb_erase_start|]. intros reb s1 (l' & Hw & He).
  pose proof (without_sub _ _ _ Hw) as Hp. rewrite Hp in Hnd, Hok. apply NoDup_cons in Hnd as [_ Hnd]. apply Forall_cons in Hok as [_ Hok].
  eapply wp_mono; [by apply (wp_rebalance h l')|]. intros [] s' (t' & Q1 & <- & Q3 & Q4 & Q5). exists t'. split_and!; try done.
  split; try done. by eapply sorted_without.
Qed.

(** C5: [_rb_erase] of a node of the tree takes it out: the tree is again a
    red-black search tree (root black, no red node below a red one, equal
    black heights, parent pointers and colours consistent) whose nodes, in
    order, are the old ones without it. No memory outside the nodes that stay
    changes, and both loops end. *)
Theorem rb_erase_spec s t a :
  rb_ok cmp s t -> a ∈ inorder t ->
  wp (_rb_erase a) (fun _ s' => exists t', rb_ok cmp s' t' /\ without a (inorder t) (inorder t') /\
    agree_off (inorder t') (rb_heap s) (rb_heap s')) s.
Proof. apply wp_rb_erase. Qed.
End spec.

(** ** Concrete instances *)

Lemma rb_erase_spec_witness :
  wp (_rb_erase 8) (fun _ s' => exists t', rb_ok Z.ltb s' t' /\ without 8 (inorder example_rb) (inorder t') /\
    agree_off (inorder t') (rb_heap example_nodes) (rb_heap s')) example_nodes.
Proof. apply (rb_erase_spec Z.ltb example_nodes example_rb 8 example_rb_ok). simpl. rewrite !elem_of_cons. tauto. Defined.
