(* ===== verification/Timer.v ===== *)
(** Timers of a CPU (src/kernel/cpu.c) and the clock below them
    (src/driver/clock.c).

    Pending timers hang in a red-black tree ordered by expiry time, with the
    address as tie-break; the hardware timer is programmed for the first of
    them. A timer is named by the address of its [_node]. The counter and its
    frequency are system registers: the frequency and the sequence of values
    read are parameters. *)
From Stdlib Require Import ZArith Lia Sorting.Sorted.
From stdpp Require Import base numbers gmap list.
From S2P Require Import Prelude Sync RbTree RbRotate RbFix RbInsert RbErase.

Record timer := mkTimer { triggered : bool; elapse : Z; _key : Z; data : Z }.

Definition set_triggered (v : bool) (t : timer) : timer := mkTimer v (elapse t) (_key t) (data t).
Definition set_elapse (v : Z) (t : timer) : timer := mkTimer (triggered t) v (_key t) (data t).
Definition set_key (v : Z) (t : timer) : timer := mkTimer (triggered t) (elapse t) v (data t).
Definition set_data (v : Z) (t : timer) : timer := mkTimer (triggered t) (elapse t) (_key t) v.

(** What one CPU works on: the timers, its tree, the number of readings of the
    counter so far and the countdown register. *)
Record CpuTimers := mkCpuTimers {
  ct_timers : gmap Z timer;
  ct_tree : RbTree;
  ct_reads : nat;
  ct_tval : Z;
}.

Definition with_timers (v : gmap Z timer) (s : CpuTimers) : CpuTimers := mkCpuTimers v (ct_tree s) (ct_reads s) (ct_tval s).
Definition with_tree (v : RbTree) (s : CpuTimers) : CpuTimers := mkCpuTimers (ct_timers s) v (ct_reads s) (ct_tval s).
Definition with_reads (v : nat) (s : CpuTimers) : CpuTimers := mkCpuTimers (ct_timers s) (ct_tree s) v (ct_tval s).
Definition with_tval (v : Z) (s : CpuTimers) : CpuTimers := mkCpuTimers (ct_timers s) (ct_tree s) (ct_reads s) v.

Abbreviation T := (M CpuTimers).

Definition on_tree {A} (c : M RbTree A) : T A := zoom ct_tree with_tree c.
Definition timer_at (t : Z) : T timer := s ← get_state; deref (ct_timers s !! t).
Definition store_timer (t : Z) (x : timer) : T unit := modify (fun s => with_timers (<[t := x]> (ct_timers s)) s).

(** ** The order of timers *)

Definition key_in (ts : gmap Z timer) (a : Z) : Z := from_option _key 0 (ts !! a).

Definition __timer_cmp (ts : gmap Z timer) (lnode rnode : Z) : bool :=
  let d := Rc.i64 (key_in ts lnode - key_in ts rnode) in
  if d <? 0 then true else if d =? 0 then lnode <? rnode else false.

Section clock.
Context (freq : Z) (timestamp : nat -> Z).

(** ** The clock *)

Definition get_timestamp_ms : T Z :=
  s ← get_state;
  modify (with_reads (S (ct_reads s))) ;;
  mret (u64 (timestamp (ct_reads s) * 1000) / freq).

Definition reset_clock (interval_ms : Z) : T unit :=
  let interval_clk := u64 (interval_ms * freq) / 1000 in
  ASSERT (interval_clk <=? 0x7fffffff) ;;
  modify (with_tval interval_clk).

(** ** Setting and cancelling *)

Definition __timer_set_clock : T unit :=
  node ← on_tree _rb_first;
  if node =? 0 then reset_clock 10
  else
    x ← timer_at node;
    let t1 := _key x in
    t0 ← get_timestamp_ms;
    if t1 <=? t0 then reset_clock 0 else reset_clock (u64 (t1 - t0)).

Definition set_cpu_timer (timer : Z) : T unit :=
  x ← timer_at timer;
  store_timer timer (set_triggered false x) ;;
  now ← get_timestamp_ms;
  x ← timer_at timer;
  store_timer timer (set_key (u64 (now + elapse x)) x) ;;
  s ← get_state;
  r ← on_tree (_rb_insert (__timer_cmp (ct_timers s)) timer);
  ASSERT (0 =? r) ;;
  __timer_set_clock.

Definition cancel_cpu_timer (timer : Z) : T unit :=
  x ← timer_at timer;
  ASSERT (negb (triggered x)) ;;
  on_tree (_rb_erase timer) ;;
  __timer_set_clock.

(** ** The interrupt handler; [handler t] is [t->handler(t)] *)

Fixpoint run_due (handler : Z -> T unit) (fuel : nat) : T unit :=
  match fuel with
  | O => undefined
  | S fuel' =>
      node ← on_tree _rb_first;
      if node =? 0 then mret tt
      else
        now ← get_timestamp_ms;
        x ← timer_at node;
        if now <? _key x then mret tt
        else
          cancel_cpu_timer node ;;
          x ← timer_at node;
          store_timer node (set_triggered true x) ;;
          handler node ;;
          run_due handler fuel'
  end.

Definition timer_clock_handler (handler : Z -> T unit) : T unit :=
  reset_clock 10 ;;
  s ← get_state;
  run_due handler (S (size (ct_timers s))).

(** The handler of the periodic timer of each CPU. *)
Definition hello (hello_timer t : Z) : T unit :=
  x ← timer_at t;
  store_timer t (set_data (u64 (data x + 1)) x) ;;
  set_cpu_timer hello_timer.

(** ** Assumptions on the registers *)

(** The counter runs forward and has not reached 2^64 / 1000. *)
Record clock_ok (lim : Z) : Prop := {
  co_freq : 1000 <= freq <= 1000000000;
  co_mono : forall n, 0 <= timestamp n <= timestamp (S n);
  co_nowrap : forall n, timestamp n * 1000 < 2 ^ 64;
  co_lim : 0 <= lim /\ lim * freq / 1000 <= 0x7fffffff;
}.

Context (lim : Z) (Hclock : clock_ok lim).

(** The [n]-th reading in milliseconds. *)
Definition ms (n : nat) : Z := timestamp n * 1000 / freq.

Lemma ms_read n : u64 (timestamp n * 1000) / freq = ms n.
Proof. destruct Hclock as [_ Hm Hw _]. unfold u64. rewrite wrap_small; [done|]. specialize (Hm n). specialize (Hw n). lia. Qed.

Lemma ms_bounds n : 0 <= ms n < 2 ^ 61.
Proof.
  destruct Hclock as [Hf Hm Hw _]. specialize (Hm n). specialize (Hw n). unfold ms. split; [apply Z.div_pos; lia|].
  apply Z.div_lt_upper_bound; [lia|]. nia.
Qed.

Lemma ms_mono n m : (n <= m)%nat -> ms n <= ms m.
Proof.
  destruct Hclock as [Hf Hm _ _]. induction 1 as [|m _ IH]; [done|]. etrans; [exact IH|]. unfold ms. apply Z.div_le_mono; [lia|].
  specialize (Hm m). lia.
Qed.

Lemma lim_bounds : 0 <= lim < 2 ^ 42.
Proof.
  destruct Hclock as [Hf _ _ [H0 Hl]]. split; [done|].
  assert (lim * 1000 / 1000 <= lim * freq / 1000) as H by (apply Z.div_le_mono; nia). rewrite Z.div_mul in H by lia. lia.
Qed.

Lemma interval_fits i : 0 <= i <= lim \/ 0 <= i <= 10 -> u64 (i * freq) / 1000 = i * freq / 1000 /\ i * freq / 1000 <= 0x7fffffff.
Proof.
  intros Hi. destruct Hclock as [Hf _ _ [H0 Hl]]. pose proof lim_bounds as Hb.
  assert (i * freq / 1000 <= 0x7fffffff) as Hle.
  { destruct Hi as [Hi|Hi]; [etrans; [|exact Hl]; apply Z.div_le_mono; nia|]. apply Z.div_le_upper_bound; nia. }
  split; [|done]. unfold u64. rewrite wrap_small; [done|]. split; [nia|].
  pose proof (Z.mul_div_le (i * freq) 1000). pose proof (Z.mod_pos_bound (i * freq) 1000). pose proof (Z.div_mod (i * freq) 1000). lia.
Qed.

Lemma wp_get_timestamp s (Q : Z -> CpuTimers -> Prop) :
  Q (ms (ct_reads s)) (with_reads (S (ct_reads s)) s) -> wp get_timestamp_ms Q s.
Proof. intros HQ. unfold get_timestamp_ms. apply wp_bind, wp_get_state, wp_bind, wp_modify, wp_ret. by rewrite ms_read. Qed.

Lemma wp_reset_clock i s (Q : unit -> CpuTimers -> Prop) :
  0 <= i <= lim \/ 0 <= i <= 10 -> Q tt (with_tval (i * freq / 1000) s) -> wp (reset_clock i) Q s.
Proof.
  intros Hi HQ. destruct (interval_fits i Hi) as [E Hle]. unfold reset_clock. rewrite E.
  apply wp_bind, wp_assert; [by apply Z.leb_le|]. by apply wp_modify.
Qed.
(** ** Pending timers *)

Definition keys_ok (ts : gmap Z timer) : Prop := forall a, 0 <= key_in ts a < 2 ^ 62.

Lemma timer_cmp_spec ts a b :
  keys_ok ts -> before (__timer_cmp ts) a b <-> key_in ts a < key_in ts b \/ key_in ts a = key_in ts b /\ a < b.
Proof.
  intros Hk. pose proof (Hk a). pose proof (Hk b). unfold before, __timer_cmp. rewrite Rc.i64_small by lia. cbv zeta.
  destruct (Z.ltb_spec (key_in ts a - key_in ts b) 0); [split; [lia|done]|].
  destruct (Z.eqb_spec (key_in ts a - key_in ts b) 0); [rewrite Z.ltb_lt; lia|]. split; [done|lia].
Qed.

Lemma timer_cmp_trans ts : keys_ok ts -> forall x y z,
  before (__timer_cmp ts) x y -> before (__timer_cmp ts) y z -> before (__timer_cmp ts) x z.
Proof. intros Hk x y z. rewrite !timer_cmp_spec by done. lia. Qed.

Lemma timer_cmp_total ts a l : keys_ok ts -> a ∉ l -> has_equal (__timer_cmp ts) a l = false.
Proof.
  intros Hk Ha. apply has_equal_false. intros x Hx. rewrite !timer_cmp_spec by done. assert (a <> x) by (by intros ->). lia.
Qed.

(** The state of a CPU whose pending timers are [l], first to expire first. *)
Record timers_ok (s : CpuTimers) (l : list Z) : Prop := {
  to_tree : exists t, rb_ok (__timer_cmp (ct_timers s)) (ct_tree s) t /\ inorder t = l;
  to_node : forall a x, ct_timers s !! a = Some x -> addr_ok a /\ is_Some (rb_heap (ct_tree s) !! a) /\
    0 <= elapse x <= lim /\ 0 <= _key x <= ms (ct_reads s) + lim;
  to_pending : forall a, a ∈ l -> exists x, ct_timers s !! a = Some x /\ triggered x = false;
}.

Lemma timers_keys s l : timers_ok s l -> keys_ok (ct_timers s).
Proof.
  intros Hs a. unfold key_in. destruct (ct_timers s !! a) as [x|] eqn:E; simpl; [|lia].
  destruct (to_node _ _ Hs a x E) as (_ & _ & _ & Hk). pose proof (ms_bounds (ct_reads s)). pose proof lim_bounds. lia.
Qed.

(** The countdown for the first pending timer when the counter reads [now]. *)
Definition countdown (ts : gmap Z timer) (l : list Z) (now : Z) : Z :=
  match l with
  | [] => 10 * freq / 1000
  | a :: _ => Z.max 0 (key_in ts a - now) * freq / 1000
  end.

(** [__timer_set_clock] changes only the clock. *)
Definition clocked (s : CpuTimers) (l : list Z) (s' : CpuTimers) : Prop :=
  ct_timers s' = ct_timers s /\ ct_tree s' = ct_tree s /\ (ct_reads s <= ct_reads s')%nat /\
  ct_tval s' = countdown (ct_timers s) l (ms (ct_reads s)).

Lemma wp_timer_set_clock s l : timers_ok s l -> wp __timer_set_clock (fun _ => clocked s l) s.
Proof.
  intros [(t & Ht & <-) Hn Hp]. unfold __timer_set_clock. apply wp_bind, wp_zoom.
  eapply wp_mono; [apply (rb_search_spec _ (timer_cmp_trans _ (timers_keys s (inorder t) (Build_timers_ok _ _ (ex_intro _ t (conj Ht eq_refl)) Hn Hp))) _ _ 0 Ht)|].
  intros node tr [-> ->]. destruct (inorder t) as [|a l] eqn:El.
  - change (default 0 (head []) =? 0) with true. cbn iota. apply wp_reset_clock; [lia|]. by destruct s.
  - destruct (Hp a) as (x & Ex & _); [set_solver|]. destruct (Hn a x Ex) as ([Ha0 _] & _ & _ & Hk).
    change (default 0 (head (a :: l))) with a. rewrite (proj2 (Z.eqb_neq a 0)) by lia. apply wp_bind, wp_bind, wp_get_state, (wp_deref _ x); [done|]. cbv zeta.
    apply wp_bind, wp_get_timestamp. cbn [ct_reads with_tree].
    assert (key_in (ct_timers s) a = _key x) as Ek by (unfold key_in; by rewrite Ex).
    pose proof (ms_bounds (ct_reads s)). pose proof lim_bounds.
    destruct (Z.leb_spec (_key x) (ms (ct_reads s))); (apply wp_reset_clock; [unfold u64; rewrite ?wrap_small; lia|]).
    + split_and!; try done; [simpl; lia|]. simpl. by rewrite Ek, Z.max_l by lia.
    + split_and!; try done; [simpl; lia|]. unfold u64. rewrite wrap_small by lia. simpl. by rewrite Ek, Z.max_r by lia.
Qed.
Lemma clocked_ok s l s' : timers_ok s l -> clocked s l s' -> timers_ok s' l.
Proof.
  intros [Ht Hn Hp] (E1 & E2 & E3 & _). split; rewrite E1, ?E2; try done.
  intros a x Ex. destruct (Hn a x Ex) as (? & ? & ? & ?). pose proof (ms_mono _ _ E3). split_and!; try done; lia.
Qed.

(** The order only depends on the keys of the timers in the tree. *)
Lemma rb_ok_cmp cmp cmp' s t :
  (forall x y, x ∈ inorder t -> y ∈ inorder t -> cmp x y = cmp' x y) -> rb_ok cmp s t -> rb_ok cmp' s t.
Proof.
  intros Hc [? ? ? ? ? Hs]. split; try done. revert Hc Hs. generalize (inorder t) as l. unfold sorted, before.
  induction l as [|x l IH]; intros Hc Hs; [constructor|]. apply StronglySorted_inv in Hs as [Hs Hx]. constructor.
  - apply IH; [|done]. intros y z Hy Hz. apply Hc; by apply elem_of_cons; right.
  - rewrite Forall_forall in *. intros y Hy. rewrite <- Hc; [by apply Hx|by apply elem_of_cons; left|by apply elem_of_cons; right].
Qed.

Lemma timers_ok_later s l n : timers_ok s l -> (ct_reads s <= n)%nat -> timers_ok (with_reads n s) l.
Proof.
  intros [H1 H2 H3] Hle. split; try done. intros b z Ez. destruct (H2 b z Ez) as (? & ? & ? & ?).
  pose proof (ms_mono _ _ Hle). simpl. split_and!; try done; lia.
Qed.

Lemma key_in_insert_ne ts a b x : a <> b -> key_in (<[a := x]> ts) b = key_in ts b.
Proof. intros Hne. unfold key_in. by rewrite lookup_insert_ne. Qed.

(** A timer outside the tree gets new fields. *)
Lemma timers_ok_store s l a x :
  timers_ok s l -> a ∉ l -> is_Some (ct_timers s !! a) -> 0 <= elapse x <= lim -> 0 <= _key x <= ms (ct_reads s) + lim ->
  timers_ok (with_timers (<[a := x]> (ct_timers s)) s) l.
Proof.
  intros [(t & Ht & <-) Hn Hp] Ha [y Ey] He Hk. destruct (Hn a y Ey) as (Hok & Hnode & _). split; cbn [ct_timers ct_tree ct_reads with_timers].
  - exists t. split; [|done]. eapply rb_ok_cmp; [|exact Ht]. intros b c Hb Hc. unfold __timer_cmp.
    rewrite !key_in_insert_ne by (by intros ->). done.
  - intros b z [[-> ->]|[Hne Hz]]%lookup_insert_Some; [done|]. by apply Hn.
  - intros b Hb. rewrite lookup_insert_ne by (by intros ->). by apply Hp.
Qed.

Lemma node_kept cmp h tr t b :
  rb_ok cmp tr t -> agree_off (inorder t) h (rb_heap tr) -> is_Some (h !! b) -> is_Some (rb_heap tr !! b).
Proof.
  intros Ht Hag Hb. destruct (decide (b ∈ inorder t)) as [Hin|Hin]; [|by rewrite Hag].
  destruct (ro_repr _ _ _ Ht) as [Htr _]. by eapply tree_at_is_some.
Qed.

(** The insertion and what follows. *)
Lemma wp_set_insert s l a :
  timers_ok s l -> a ∉ l -> (exists x, ct_timers s !! a = Some x /\ triggered x = false) ->
  wp (r ← on_tree (_rb_insert (__timer_cmp (ct_timers s)) a); ASSERT (0 =? r) ;; __timer_set_clock)
    (fun _ s' => exists l1 l2, l = l1 ++ l2 /\ timers_ok s' (l1 ++ a :: l2) /\ ct_timers s' = ct_timers s /\
       (ct_reads s <= ct_reads s')%nat /\ ct_tval s' = countdown (ct_timers s') (l1 ++ a :: l2) (ms (ct_reads s))) s.
Proof.
  intros Hs Ha (x & Ex & Htr). pose proof (timers_keys s l Hs) as Hkeys. destruct Hs as [(t & Ht & <-) Hn Hp].
  destruct (Hn a x Ex) as (Hok & Hnode & _). apply wp_bind, wp_zoom.
  eapply wp_mono; [by apply (wp_rb_insert _ (timer_cmp_trans _ Hkeys) _ t)|].
  intros r tr. rewrite (timer_cmp_total _ _ _ Hkeys Ha). intros (-> & t' & l1 & l2 & Ht' & El & El' & Hag).
  apply wp_bind, wp_assert; [done|].
  assert (timers_ok (with_tree tr s) (l1 ++ a :: l2)) as Hs'.
  { split; cbn [ct_timers ct_tree ct_reads with_tree].
    - by exists t'.
    - intros b y Ey. destruct (Hn b y Ey) as (? & Hb & ?). split; [done|]. split; [|done].
      by eapply node_kept.
    - intros b. rewrite elem_of_app, elem_of_cons. intros Hb. destruct (decide (b = a)) as [->|Hne]; [by exists x|].
      apply Hp. rewrite El, elem_of_app. tauto. }
  eapply wp_mono; [by apply wp_timer_set_clock|]. intros [] s' Hc. pose proof (clocked_ok _ _ _ Hs' Hc) as Hs''.
  destruct Hc as (E1 & E2 & E3 & E4). exists l1, l2. split_and!; try done. by rewrite E4, E1.
Qed.

Lemma wp_set_cpu_timer s l a x :
  timers_ok s l -> ct_timers s !! a = Some x -> a ∉ l ->
  wp (set_cpu_timer a) (fun _ s' => exists l1 l2, l = l1 ++ l2 /\ timers_ok s' (l1 ++ a :: l2) /\
    ct_timers s' = <[a := mkTimer false (elapse x) (ms (ct_reads s) + elapse x) (data x)]> (ct_timers s) /\
    (ct_reads s <= ct_reads s')%nat /\ ct_tval s' = countdown (ct_timers s') (l1 ++ a :: l2) (ms (S (ct_reads s)))) s.
Proof.
  intros Hs Ex Ha. destruct (to_node _ _ Hs a x Ex) as (_ & _ & He & Hk). pose proof (ms_bounds (ct_reads s)). pose proof lim_bounds.
  unfold set_cpu_timer. apply wp_bind, wp_bind, wp_get_state, (wp_deref _ x); [done|].
  apply wp_bind, wp_modify, wp_bind, wp_get_timestamp. cbn [ct_reads with_timers].
  apply wp_bind, wp_bind, wp_get_state. cbn [ct_timers with_reads with_timers].
  eapply wp_deref; [apply lookup_insert_eq|]. cbn [elapse set_triggered]. unfold u64. rewrite wrap_small by lia.
  apply wp_bind, wp_modify. cbn [ct_timers with_reads with_timers]. rewrite insert_insert_eq.
  set (y := set_key (ms (ct_reads s) + elapse x) (set_triggered false x)).
  set (s1 := with_timers (<[a := y]> (ct_timers s)) (with_reads (S (ct_reads s)) s)).
  assert (timers_ok s1 l) as Hs1.
  { apply (timers_ok_store (with_reads (S (ct_reads s)) s)); try done; [apply timers_ok_later; [done|lia]|].
    simpl. pose proof (ms_mono (ct_reads s) (S (ct_reads s)) ltac:(lia)). lia. }
  apply wp_bind, wp_get_state. change (wp (r ← on_tree (_rb_insert (__timer_cmp (ct_timers s1)) a); ASSERT (0 =? r) ;; __timer_set_clock)
    (fun _ s' => exists l1 l2, l = l1 ++ l2 /\ timers_ok s' (l1 ++ a :: l2) /\ ct_timers s' = ct_timers s1 /\
       (ct_reads s <= ct_reads s')%nat /\ ct_tval s' = countdown (ct_timers s') (l1 ++ a :: l2) (ms (ct_reads s1))) s1).
  eapply wp_mono; [apply (wp_set_insert s1 l a); [done|done|]|]; [exists y; split; [apply lookup_insert_eq|done]|].
  intros [] s' (l1 & l2 & El & Hs' & E' & R' & V'). exists l1, l2. change (ct_reads s1) with (S (ct_reads s)) in R'. split_and!; try done. lia.
Qed.

Lemma wp_cancel_cpu_timer s l a :
  timers_ok s l -> a ∈ l ->
  wp (cancel_cpu_timer a) (fun _ s' => exists l', without a l l' /\ timers_ok s' l' /\ ct_timers s' = ct_timers s /\
    (ct_reads s <= ct_reads s')%nat /\ ct_tval s' = countdown (ct_timers s) l' (ms (ct_reads s))) s.
Proof.
  intros [(t & Ht & <-) Hn Hp] Ha. destruct (Hp a Ha) as (x & Ex & Htr). unfold cancel_cpu_timer.
  apply wp_bind, wp_bind, wp_get_state, (wp_deref _ x); [done|]. apply wp_bind, wp_assert; [by rewrite Htr|].
  apply wp_bind, wp_zoom. eapply wp_mono; [by apply (wp_rb_erase (__timer_cmp (ct_timers s)) _ t)|]. intros [] tr (t' & Ht' & Hw & Hag).
  assert (timers_ok (with_tree tr s) (inorder t')) as Hs'.
  { split; cbn [ct_timers ct_tree ct_reads with_tree].
    - by exists t'.
    - intros b y Ey. destruct (Hn b y Ey) as (? & Hb & ?). split; [done|]. split; [|done]. by eapply node_kept.
    - intros b Hb. apply Hp. rewrite (without_sub _ _ _ Hw). by apply elem_of_cons; right. }
  eapply wp_mono; [by apply wp_timer_set_clock|]. intros [] s' Hc. pose proof (clocked_ok _ _ _ Hs' Hc) as Hs''.
  destruct Hc as (E1 & E2 & E3 & E4). by exists (inorder t').
Qed.
(** Setting and cancelling a timer. [set_cpu_timer] of a timer that is not
    pending: it expires [elapse] milliseconds from now, enters the tree in its
    place in the order of expiry (the assertion on [_rb_insert] cannot fail),
    no other timer changes, and the countdown is set for the timer that is
    then the first. [cancel_cpu_timer] of a pending timer takes it out (its
    assertion cannot fail), changes no timer and sets the countdown for the
    timer that is then the first. *)
Theorem timers_set_cancel s l a x :
  timers_ok s l -> ct_timers s !! a = Some x ->
  (a ∉ l -> wp (set_cpu_timer a) (fun _ s' => exists l1 l2, l = l1 ++ l2 /\ timers_ok s' (l1 ++ a :: l2) /\
     ct_timers s' = <[a := mkTimer false (elapse x) (ms (ct_reads s) + elapse x) (data x)]> (ct_timers s) /\
     (ct_reads s <= ct_reads s')%nat /\ ct_tval s' = countdown (ct_timers s') (l1 ++ a :: l2) (ms (S (ct_reads s)))) s) /\
  (a ∈ l -> wp (cancel_cpu_timer a) (fun _ s' => exists l', without a l l' /\ timers_ok s' l' /\ ct_timers s' = ct_timers s /\
     (ct_reads s <= ct_reads s')%nat /\ ct_tval s' = countdown (ct_timers s) l' (ms (ct_reads s))) s).
Proof. intros Hs Ex. split; [by apply wp_set_cpu_timer|by apply wp_cancel_cpu_timer]. Qed.

(** ** The interrupt handler *)

(** The clock does not reach [D] while the handler runs. *)
Context (D : Z) (Hslow : forall n, ms n < D).

(** Timers that are set now expire after [D]. *)
Definition unhurried (s : CpuTimers) : Prop := forall a x, ct_timers s !! a = Some x -> D <= ms (ct_reads s) + elapse x.

(** The pending timers that expire before [D]. *)
Definition due (ts : gmap Z timer) (l : list Z) : list Z := filter (fun b => key_in ts b < D) l.

(** What a handler promises for the timers in [own]: called on one that was
    triggered it returns with the timers in order, and those it set expire
    after [D]. *)
Class TimerHandler (own : list Z) (handler : Z -> T unit) : Prop := handler_law : forall s l a x,
  timers_ok s l -> unhurried s -> l ⊆ own -> a ∈ own -> a ∉ l -> ct_timers s !! a = Some x -> triggered x = true ->
  wp (handler a) (fun _ s' => exists l', timers_ok s' l' /\ unhurried s' /\ l' ⊆ own /\ (ct_reads s <= ct_reads s')%nat /\
    (length (due (ct_timers s') l') <= length (due (ct_timers s) l))%nat) s.

Lemma due_without ts a l l' : without a l l' -> key_in ts a < D -> length (due ts l) = S (length (due ts l')).
Proof. intros Hw Ha. unfold due. rewrite (without_sub _ _ _ Hw), filter_cons_True by done. done. Qed.

Lemma due_store ts l a x : a ∉ l -> due (<[a := x]> ts) l = due ts l.
Proof.
  induction l as [|b l IH]; intros Ha; [done|]. apply not_elem_of_cons in Ha as [Hne Ha]. unfold due. rewrite !filter_cons.
  rewrite key_in_insert_ne by done. fold (due (<[a := x]> ts) l) (due ts l). by rewrite IH.
Qed.

Lemma pending_order s a l b : timers_ok s (a :: l) -> b ∈ a :: l -> key_in (ct_timers s) a <= key_in (ct_timers s) b.
Proof.
  intros Hs [->|Hb]%elem_of_cons; [done|]. pose proof (timers_keys _ _ Hs) as Hk. destruct Hs as [(t & Ht & El) _ _].
  pose proof (ro_sorted _ _ _ Ht) as Hs. rewrite El in Hs. apply StronglySorted_inv in Hs as [_ Hs]. rewrite Forall_forall in Hs.
  specialize (Hs b Hb). apply timer_cmp_spec in Hs; [|done]. lia.
Qed.
Lemma wp_run_due own handler `{!TimerHandler own handler} fuel : forall s l,
  timers_ok s l -> unhurried s -> l ⊆ own -> (length (due (ct_timers s) l) < fuel)%nat ->
  wp (run_due handler fuel) (fun _ s' => exists l', timers_ok s' l' /\ (ct_reads s <= ct_reads s')%nat /\
    forall b, b ∈ l' -> ms (ct_reads s) < key_in (ct_timers s') b) s.
Proof.
  induction fuel as [|fuel IH]; intros s l Hs Hu Ho Hf; [lia|]. cbn [run_due]. pose proof Hs as [(t & Ht & El) Hn Hp].
  apply wp_bind, wp_zoom. eapply wp_mono; [apply (rb_search_spec _ (timer_cmp_trans _ (timers_keys _ _ Hs)) _ _ 0 Ht)|].
  intros node tr [-> ->]. rewrite El. destruct l as [|a l].
  { change (default 0 (head []) =? 0) with true. apply wp_ret. exists []. split_and!; [by destruct s|done|set_solver]. }
  destruct (Hp a) as (x & Ex & Htr); [set_solver|]. destruct (Hn a x Ex) as ([Ha0 _] & _).
  change (default 0 (head (a :: l))) with a. rewrite (proj2 (Z.eqb_neq a 0)) by lia.
  assert (key_in (ct_timers s) a = _key x) as Ek by (unfold key_in; by rewrite Ex).
  apply wp_bind, wp_get_timestamp. cbn [ct_reads with_tree].
  set (s1 := with_reads (S (ct_reads s)) s).
  assert (timers_ok s1 (a :: l)) as Hs1 by (by apply timers_ok_later; [|lia]).
  change (with_reads _ (with_tree _ s)) with s1. apply wp_bind, wp_bind, wp_get_state, (wp_deref _ x); [done|].
  destruct (Z.ltb_spec (ms (ct_reads s)) (_key x)).
  { apply wp_ret. exists (a :: l). split_and!; [done|simpl; lia|]. intros b Hb.
    pose proof (pending_order s1 a l b Hs1 Hb) as Hle. change (ct_timers s1) with (ct_timers s) in *. lia. }
  apply wp_bind. eapply wp_mono; [apply (wp_cancel_cpu_timer s1 (a :: l) a Hs1); set_solver|].
  intros [] s2 (l2 & Hw & Hs2 & E2 & R2 & _). change (ct_timers s1) with (ct_timers s) in E2. change (ct_reads s1) with (S (ct_reads s)) in R2.
  assert (a ∉ l2) as Ha2.
  { pose proof (ro_nodup _ _ _ Ht) as Hnd. rewrite El, (without_sub _ _ _ Hw) in Hnd. by apply NoDup_cons in Hnd as [? _]. }
  apply wp_bind, wp_bind, wp_get_state, (wp_deref _ x); [by rewrite E2|]. apply wp_bind, wp_modify. rewrite E2.
  set (s3 := with_timers (<[a := set_triggered true x]> (ct_timers s)) s2).
  destruct (Hn a x Ex) as (_ & _ & He & Hk). pose proof (ms_mono (ct_reads s) (ct_reads s2) ltac:(lia)).
  assert (timers_ok s3 l2) as Hs3.
  { unfold s3. rewrite <- E2. apply timers_ok_store; [done|done|by rewrite E2|done|simpl; lia]. }
  assert (unhurried s3) as Hu3.
  { intros b y. unfold s3. cbn [ct_timers with_timers ct_reads]. intros [[<- <-]|[_ Ey]]%lookup_insert_Some; [specialize (Hu a x Ex)|specialize (Hu b y Ey)]; simpl; lia. }
  pose proof (due_without (ct_timers s) a _ _ Hw) as Hlen. rewrite Ek in Hlen. specialize (Hlen ltac:(pose proof (Hslow (ct_reads s)); lia)).
  assert (l2 ⊆ own /\ a ∈ own) as [Ho2 Hoa].
  { split; [|apply Ho; by left]. intros b Hb. apply Ho. rewrite (without_sub _ _ _ Hw). by right. }
  apply wp_bind. eapply wp_mono; [apply (handler_law s3 l2 a (set_triggered true x)); try done; apply lookup_insert_eq|].
  intros [] s4 (l4 & Hs4 & Hu4 & Ho4 & R4 & Hd4). change (ct_reads s3) with (ct_reads s2) in R4.
  unfold s3 in Hd4. cbn [ct_timers with_timers] in Hd4. rewrite due_store in Hd4 by done.
  eapply wp_mono; [apply (IH s4 l4); try done; lia|]. intros [] s' (l' & Hs' & R' & Hb'). exists l'. split_and!; [done|lia|].
  intros b Hb. specialize (Hb' b Hb). pose proof (ms_mono (ct_reads s) (ct_reads s4) ltac:(lia)). lia.
Qed.

Lemma size_due s l : timers_ok s l -> (length (due (ct_timers s) l) <= size (ct_timers s))%nat.
Proof.
  intros [(t & Ht & <-) _ Hp]. etrans; [apply length_filter|]. rewrite <- size_dom.
  rewrite <- (size_list_to_set (C := gset Z) (inorder t)) by apply (ro_nodup _ _ _ Ht). apply subseteq_size.
  intros b Hb%elem_of_list_to_set. destruct (Hp b Hb) as (x & Ex & _). apply elem_of_dom. eauto.
Qed.

(** [timer_clock_handler] returns: with handlers that keep their promise it
    fires the timers that are due, in order of expiry, at most as often as
    there are timers, and when it returns no pending timer has expired by the
    time the interrupt came. No assertion fails on the way. *)
Theorem timer_interrupt own handler `{!TimerHandler own handler} s l :
  timers_ok s l -> unhurried s -> l ⊆ own ->
  wp (timer_clock_handler handler) (fun _ s' => exists l', timers_ok s' l' /\ (ct_reads s <= ct_reads s')%nat /\
    forall b, b ∈ l' -> ms (ct_reads s) < key_in (ct_timers s') b) s.
Proof.
  intros Hs Hu Ho. unfold timer_clock_handler. apply wp_bind, wp_reset_clock; [lia|]. apply wp_bind, wp_get_state.
  assert (timers_ok (with_tval (10 * freq / 1000) s) l) as Hs' by (by destruct Hs).
  refine (wp_run_due own handler _ _ l Hs' Hu Ho _). pose proof (size_due _ _ Hs'). simpl in *. lia.
Qed.

(** [hello] keeps the promise for its timer. *)
#[export] Instance hello_handler h : TimerHandler [h] (hello h).
Proof.
  intros s l a x Hs Hu Ho Ha Hal Ex Htr. apply list_elem_of_singleton in Ha as ->.
  destruct (to_node _ _ Hs h x Ex) as (_ & _ & He & Hk). unfold hello.
  apply wp_bind, wp_bind, wp_get_state, (wp_deref _ x); [done|]. apply wp_bind, wp_modify.
  set (y := set_data (u64 (data x + 1)) x). set (s1 := with_timers (<[h := y]> (ct_timers s)) s).
  assert (timers_ok s1 l) as Hs1 by (by apply timers_ok_store).
  eapply wp_mono; [apply (wp_set_cpu_timer s1 l h y Hs1); [apply lookup_insert_eq|done]|].
  intros [] s' (l1 & l2 & -> & Hs' & E' & R' & _). change (ct_reads s1) with (ct_reads s) in *. unfold s1 in E'. cbn [ct_timers with_timers] in E'.
  rewrite insert_insert_eq in E'. pose proof (Hu h x Ex) as Hlate. exists (l1 ++ h :: l2). split_and!; try done.
  - intros b z. rewrite E'. pose proof (ms_mono _ _ R'). intros [[<- <-]|[_ Ez]]%lookup_insert_Some; [simpl; lia|].
    specialize (Hu b z Ez). lia.
  - intros b. rewrite elem_of_app, elem_of_cons, list_elem_of_singleton. intros Hb. destruct Hb as [Hb|[->|Hb]]; [|done|];
      (assert (b ∈ [h]) as Hb' by (apply Ho, elem_of_app; tauto); by apply list_elem_of_singleton in Hb').
  - rewrite E'. unfold due. rewrite filter_app, filter_cons_False. 2: { unfold key_in. rewrite lookup_insert_eq. simpl. lia. }
    rewrite <- filter_app. fold (due (<[h := mkTimer false (elapse y) (ms (ct_reads s) + elapse y) (data y)]> (ct_timers s)) (l1 ++ l2)).
    by rewrite due_store.
Qed.
End clock.

(** ** Concrete instances *)

(** The product with 1000 wraps after about nine years at 62.5 MHz: the
    milliseconds jump back to 0. *)
Example timestamp_ms_wraps :
  let ts (n : nat) : Z := match n with O => 18446744073709551 | _ => 18446744073709552 end in
  let s n := mkCpuTimers ∅ (mkRbTree ∅ 0) n 0 in
  get_timestamp_ms 62500000 ts (s 0%nat) = Done 295147905179 (s 1%nat) /\
  get_timestamp_ms 62500000 ts (s 1%nat) = Done 0 (s 2%nat).
Proof. split; reflexivity. Qed.

(** A counter at 62.5 MHz that is read once per millisecond and stops. *)
Definition example_clock (n : nat) : Z := 62500 * Z.of_nat (n `min` 100).

Lemma example_clock_ok : clock_ok 62500000 example_clock 5000.
Proof. split; unfold example_clock; [lia|intros n; lia|intros n; lia|]. split; [lia|]. by vm_compute. Qed.

(** Timer 8 is pending, timer 16 has fired. *)
Definition example_timers : CpuTimers :=
  mkCpuTimers {[8 := mkTimer false 5000 20 0; 16 := mkTimer true 500 0 0]}
    (mkRbTree {[8 := mkRb 1 0 0; 16 := mkRb 0 0 0]} 8) 30 0.

Lemma example_timers_ok : timers_ok 62500000 example_clock 5000 example_timers [8].
Proof.
  split.
  - exists (Node RB_BLACK Leaf 8 Leaf). split; [|done]. split.
    + by split; [split_and!|].
    + apply NoDup_singleton.
    + repeat constructor; lia.
    + exists 1%nat. repeat constructor.
    + done.
    + repeat constructor.
  - intros a x. change (ct_timers example_timers) with ({[8 := mkTimer false 5000 20 0; 16 := mkTimer true 500 0 0]} : gmap Z timer).
    change (ms 62500000 example_clock (ct_reads example_timers)) with 30.
    intros [[<- <-]|[_ [<- <-]%lookup_singleton_Some]]%lookup_insert_Some; (split; [split; [lia|done]|split; [by eexists|simpl; lia]]).
  - intros a ->%list_elem_of_singleton. by eexists.
Qed.

Lemma example_unhurried : unhurried 62500000 example_clock 101 example_timers.
Proof.
  intros a x. change (ct_timers example_timers) with ({[8 := mkTimer false 5000 20 0; 16 := mkTimer true 500 0 0]} : gmap Z timer).
  change (ms 62500000 example_clock (ct_reads example_timers)) with 30.
  intros [[<- <-]|[_ [<- <-]%lookup_singleton_Some]]%lookup_insert_Some; simpl; lia.
Qed.

Lemma timers_set_cancel_witness :
  wp (set_cpu_timer 62500000 example_clock 16) (fun _ s' => exists l1 l2, [8] = l1 ++ l2 /\
    timers_ok 62500000 example_clock 5000 s' (l1 ++ 16 :: l2) /\
    ct_timers s' = <[16 := mkTimer false 500 (ms 62500000 example_clock (ct_reads example_timers) + 500) 0]> (ct_timers example_timers) /\
    (ct_reads example_timers <= ct_reads s')%nat /\
    ct_tval s' = countdown 62500000 (ct_timers s') (l1 ++ 16 :: l2) (ms 62500000 example_clock (S (ct_reads example_timers)))) example_timers /\
  wp (cancel_cpu_timer 62500000 example_clock 8) (fun _ s' => exists l', without 8 [8] l' /\
    timers_ok 62500000 example_clock 5000 s' l' /\ ct_timers s' = ct_timers example_timers /\
    (ct_reads example_timers <= ct_reads s')%nat /\
    ct_tval s' = countdown 62500000 (ct_timers example_timers) l' (ms 62500000 example_clock (ct_reads example_timers))) example_timers.
Proof.
  split.
  - apply (timers_set_cancel 62500000 example_clock 5000 example_clock_ok example_timers [8] 16 (mkTimer true 500 0 0) example_timers_ok); [reflexivity|].
    rewrite list_elem_of_singleton. lia.
  - apply (timers_set_cancel 62500000 example_clock 5000 example_clock_ok example_timers [8] 8 (mkTimer false 5000 20 0) example_timers_ok); [reflexivity|]. left.
Defined.

Lemma timer_interrupt_witness :
  wp (timer_clock_handler 62500000 example_clock (hello 62500000 example_clock 8)) (fun _ s' => exists l',
    timers_ok 62500000 example_clock 5000 s' l' /\ (ct_reads example_timers <= ct_reads s')%nat /\
    forall b, b ∈ l' -> ms 62500000 example_clock (ct_reads example_timers) < key_in (ct_timers s') b) example_timers.
Proof.
  apply (timer_interrupt 62500000 example_clock 5000 example_clock_ok 101) with (own := [8]) (l := [8]).
  - intros n. unfold ms, example_clock. apply Z.div_lt_upper_bound; lia.
  - apply hello_handler. exact example_clock_ok.
  - exact example_timers_ok.
  - exact example_unhurried.
  - reflexivity.
Defined.
