(* ===== verification/Sched.v ===== *)
(** The scheduler (src/kernel/sched.c, and the struct of src/kernel/proc.h).

    All CPUs share the processes, the run queue and the scheduler's lock; each
    has its current process, its idle process and its timers. The run queue is
    the intrusive list of ListNode.v through [schinfo.rqnode]. [swtch] is
    assembly: it saves the context of the caller and goes on where the next
    process was saved, or at its entry; both release the lock. *)
From Stdlib Require Import ZArith Lia.
From stdpp Require Import base numbers gmap list.
From S2P Require Import Prelude Sync ListNode Mem RbTree RbInsert RbErase Timer.

Definition NCPU : Z := 4.

Inductive procstate := UNUSED | RUNNABLE | RUNNING | SLEEPING | DEEPSLEEPING | ZOMBIE.
#[export] Instance procstate_eq_dec : EqDecision procstate.
Proof. solve_decision. Defined.

(** A saved kernel context: at [proc_entry] with its arguments, as [start_proc]
    sets it up, or inside [sched], as [swtch] saves it. *)
Inductive KernelContext := AtEntry (entry arg : Z) | AtSched.

(** The fields the scheduler uses; [pt] is [pgdir.pt]. The list nodes of the
    struct are in the heap of nodes, at their offsets. *)
Record Proc := mkProc {
  killed : bool;
  idle : bool;
  pid : Z;
  exitcode : Z;
  state : procstate;
  parent : Z;
  pt : Z;
  kcontext : option KernelContext;
  timeload : Z;
}.

Definition set_killed (v : bool) (p : Proc) : Proc :=
  mkProc v (idle p) (pid p) (exitcode p) (state p) (parent p) (pt p) (kcontext p) (timeload p).
Definition set_state (v : procstate) (p : Proc) : Proc :=
  mkProc (killed p) (idle p) (pid p) (exitcode p) v (parent p) (pt p) (kcontext p) (timeload p).
Definition set_kcontext (v : option KernelContext) (p : Proc) : Proc :=
  mkProc (killed p) (idle p) (pid p) (exitcode p) (state p) (parent p) (pt p) v (timeload p).
Definition set_timeload (v : Z) (p : Proc) : Proc :=
  mkProc (killed p) (idle p) (pid p) (exitcode p) (state p) (parent p) (pt p) (kcontext p) v.

(** Offsets of the list nodes in [struct Proc]. *)
Definition rqnode (p : Z) : Z := p + 80.
Definition proc_of_rqnode (n : Z) : Z := n - 80.

Record cpu := mkCpu {
  cu_this : Z;            (* sched.thisproc *)
  cu_idle : Z;            (* sched.idle *)
  cu_ttbr0 : Z;
  cu_timers : CpuTimers;
}.

Record Sched := mkSched {
  sc_lock : bool;             (* schedulerlock *)
  sc_procs : gmap Z Proc;
  sc_nodes : heap;
  sc_cpus : list cpu;
}.

Definition set_lock (v : bool) (s : Sched) : Sched := mkSched v (sc_procs s) (sc_nodes s) (sc_cpus s).
Definition set_procs (v : gmap Z Proc) (s : Sched) : Sched := mkSched (sc_lock s) v (sc_nodes s) (sc_cpus s).
Definition set_nodes (v : heap) (s : Sched) : Sched := mkSched (sc_lock s) (sc_procs s) v (sc_cpus s).
Definition set_cpus (v : list cpu) (s : Sched) : Sched := mkSched (sc_lock s) (sc_procs s) (sc_nodes s) v.

Definition set_this (v : Z) (u : cpu) : cpu := mkCpu v (cu_idle u) (cu_ttbr0 u) (cu_timers u).
Definition set_ttbr0 (v : Z) (u : cpu) : cpu := mkCpu (cu_this u) (cu_idle u) v (cu_timers u).
Definition set_timers (v : CpuTimers) (u : cpu) : cpu := mkCpu (cu_this u) (cu_idle u) (cu_ttbr0 u) v.

Abbreviation P := (M Sched).

Definition acquire_sched_lock : P unit := fun s => if sc_lock s then Blocked s else Done tt (set_lock true s).
Definition release_sched_lock : P unit := modify (set_lock false).

Definition proc_at (p : Z) : P Proc := s ← get_state; deref (sc_procs s !! p).
Definition store_proc (p : Z) (x : Proc) : P unit := modify (fun s => set_procs (<[p := x]> (sc_procs s)) s).
Definition cpu_at (c : nat) : P cpu := s ← get_state; deref (sc_cpus s !! c).
Definition store_cpu (c : nat) (u : cpu) : P unit := modify (fun s => set_cpus (<[c := u]> (sc_cpus s)) s).

(** A list operation. *)
Definition on_nodes {A} (f : heap -> option (A * heap)) : P A := fun s =>
  match f (sc_nodes s) with
  | Some (a, h) => Done a (set_nodes h s)
  | None => Undefined
  end.

(** A computation on the timers of a CPU. *)
Definition on_timers {A} (c : nat) (m : M CpuTimers A) : P A :=
  u ← cpu_at c;
  zoom (fun _ => cu_timers u) (fun v s => set_cpus (<[c := set_timers v u]> (sc_cpus s)) s) m.

Definition has_state (x : Proc) (l : list procstate) : bool := bool_decide (state x ∈ l).

Section kernel.
(** Registers (see Timer.v), and the addresses of [rq], [invalid_pt] and
    [sched_timer[c]._node]. *)
Context (freq : Z) (timestamp : nat -> Z) (rq invalid_pt : Z) (sched_timer : nat -> Z).

(** [thisproc()] on CPU [c]. *)
Definition thisproc (c : nat) : P Z := u ← cpu_at c; mret (cu_this u).

Definition init_schinfo (p : Z) : P unit := on_nodes (fun h => pair tt <$> init_list_node h (rqnode p)).

Definition is_zombie (p : Z) : P bool :=
  acquire_sched_lock ;; x ← proc_at p; let r := has_state x [ZOMBIE] in release_sched_lock ;; mret r.
Definition is_unused (p : Z) : P bool :=
  acquire_sched_lock ;; x ← proc_at p; let r := has_state x [UNUSED] in release_sched_lock ;; mret r.

Definition _activate_proc (p : Z) (onalert : bool) : P bool :=
  acquire_sched_lock ;;
  x ← proc_at p;
  if has_state x [RUNNING; RUNNABLE; ZOMBIE] || (has_state x [DEEPSLEEPING] && onalert) then
    release_sched_lock ;; mret false
  else
    (if has_state x [SLEEPING; UNUSED] || (has_state x [DEEPSLEEPING] && negb onalert) then
       store_proc p (set_state RUNNABLE x) ;;
       on_nodes (fun h => _insert_into_list h rq (rqnode p)) ;; mret tt
     else mret tt) ;;
    release_sched_lock ;; mret true.

Definition update_this_state (c : nat) (new_state : procstate) : P unit :=
  this ← thisproc c;
  x ← proc_at this;
  let origin_state := state x in
  store_proc this (set_state new_state x) ;;
  if pid x =? -1 then mret tt
  else
    (if has_state x [RUNNABLE; RUNNING] && negb (bool_decide (new_state ∈ [RUNNING; RUNNABLE])) then
       on_nodes (fun h => _detach_from_list h (rqnode this)) ;; mret tt
     else mret tt) ;;
    (if negb (has_state x [RUNNABLE; RUNNING]) && bool_decide (new_state ∈ [RUNNABLE; RUNNING]) then
       on_nodes (fun h => _insert_into_list h rq (rqnode this)) ;; mret tt
     else mret tt).

(** The body of the loop of [pick_next] over the nodes it visits: the process
    selected so far (0 for none) and the least load. *)
Fixpoint pick_loop (nodes : list Z) (selected_proc min_load : Z) : P Z :=
  match nodes with
  | [] => mret selected_proc
  | p :: nodes' =>
      if p =? rq then pick_loop nodes' selected_proc min_load
      else
        let proc := proc_of_rqnode p in
        x ← proc_at proc;
        if has_state x [RUNNABLE] && (timeload x <? min_load) then pick_loop nodes' proc (timeload x)
        else pick_loop nodes' selected_proc min_load
  end.

Definition rq_nodes : P (list Z) :=
  on_nodes (fun h => n ← get_next h rq; l ← for_in_list (S (size h)) h rq n; Some (l, h)).

Definition pick_next (c : nat) : P Z :=
  nodes ← rq_nodes;
  selected_proc ← pick_loop nodes 0 1000000;
  if negb (selected_proc =? 0) then
    x ← proc_at selected_proc;
    store_proc selected_proc (set_timeload (timeload x + 1) x) ;;
    mret selected_proc
  else u ← cpu_at c; mret (cu_idle u).

Definition update_this_proc (c : nat) (p : Z) : P unit :=
  u ← cpu_at c;
  store_cpu c (set_this p u) ;;
  t ← on_timers c (timer_at (sched_timer c));
  (if negb (triggered t) then on_timers c (cancel_cpu_timer freq timestamp (sched_timer c)) else mret tt) ;;
  on_timers c (set_cpu_timer freq timestamp (sched_timer c)).

Definition attach_pgdir (c : nat) (pgdir_pt : Z) : P unit :=
  u ← cpu_at c; store_cpu c (set_ttbr0 (if negb (pgdir_pt =? 0) then K2P pgdir_pt else K2P invalid_pt) u).

(** [swtch(next->kcontext, &this->kcontext)]: where [next] goes on. *)
Definition swtch (next this : Z) : P KernelContext :=
  y ← proc_at next;
  k ← deref (kcontext y);
  store_proc next (set_kcontext None y) ;;
  x ← proc_at this;
  store_proc this (set_kcontext (Some AtSched) x) ;;
  mret k.

(** A new process starts by releasing the lock, then runs [entry(arg)]. *)
Definition proc_entry (entry arg : Z) : P unit := release_sched_lock.

(** The rest of [sched] once the next process is known. *)
Definition dispatch (c : nat) (next this : Z) : P unit :=
  update_this_proc c next ;;
  y ← proc_at next;
  ASSERT (has_state y [RUNNABLE]) ;;
  store_proc next (set_state RUNNING y) ;;
  if negb (next =? this) then
    attach_pgdir c (pt y) ;;
    k ← swtch next this;
    match k with
    | AtEntry entry arg => proc_entry entry arg
    | AtSched => release_sched_lock
    end
  else release_sched_lock.

Definition sched (c : nat) (new_state : procstate) : P unit :=
  this ← thisproc c;
  x ← proc_at this;
  ASSERT (has_state x [RUNNING]) ;;
  if killed x && negb (bool_decide (new_state = ZOMBIE)) then release_sched_lock
  else
    update_this_state c new_state ;;
    next ← pick_next c;
    dispatch c next this.

(** [yield()] *)
Definition yield (c : nat) : P unit := acquire_sched_lock ;; sched c RUNNABLE.

Definition sched_timer_handler (c : nat) (t : Z) : P unit :=
  x ← on_timers c (timer_at t);
  on_timers c (store_timer t (set_elapse 8 x)) ;;
  acquire_sched_lock ;;
  sched c RUNNABLE.

(** The fields of an idle process that [init_sched] sets; the others keep what
    the memory held ([junk]). *)
Definition idle_proc (junk : Proc) : Proc :=
  mkProc (killed junk) true (-1) (exitcode junk) RUNNING (parent junk) (pt junk) (kcontext junk) (timeload junk).

(** [alloc i] is the [i]-th result of [kalloc], [junk i] what its memory holds. *)
Definition init_sched (alloc : nat -> Z) (junk : nat -> Proc) : P unit :=
  on_nodes (fun h => pair tt <$> init_list_node h rq) ;;
  release_sched_lock ;;
  for_each (Z.to_nat NCPU) 0 (fun i =>
    let c := Z.to_nat i in
    t ← on_timers c (timer_at (sched_timer c));
    on_timers c (store_timer (sched_timer c) (set_elapse 8 (set_triggered true t)))) ;;
  for_each (Z.to_nat NCPU) 0 (fun i =>
    let c := Z.to_nat i in
    let p := alloc c in
    store_proc p (idle_proc (junk c)) ;;
    u ← cpu_at c;
    store_cpu c (mkCpu p p (cu_ttbr0 u) (cu_timers u))).
(** ** The invariant *)

Context (lim : Z) (Hclock : clock_ok freq timestamp lim) (Hrq : rq <> 0).

(** The state between the calls of the scheduler, with the processes [L] in
    the run queue. Inside [sched] the CPU [hole] has no process and the
    process [fresh] has no saved context yet. *)
Record core (hole : option nat) (fresh : option Z) (s : Sched) (L : list Z) : Prop := {
  si_cpus : length (sc_cpus s) = Z.to_nat NCPU;
  (* the idle process of each CPU *)
  si_idle : forall c u, sc_cpus s !! c = Some u -> exists x, sc_procs s !! cu_idle u = Some x /\ pid x = -1 /\
    (hole <> Some c /\ cu_this u = cu_idle u \/ state x = RUNNABLE);
  si_idles : forall c c' u u', sc_cpus s !! c = Some u -> sc_cpus s !! c' = Some u' -> cu_idle u = cu_idle u' -> c = c';
  si_pid : forall p x, sc_procs s !! p = Some x -> pid x = -1 -> exists c u, sc_cpus s !! c = Some u /\ cu_idle u = p;
  (* the process of each CPU is RUNNING, on no other CPU, and no other is *)
  si_this : forall c u, sc_cpus s !! c = Some u -> hole <> Some c ->
    exists x, sc_procs s !! cu_this u = Some x /\ state x = RUNNING /\ (pid x = -1 -> cu_this u = cu_idle u);
  si_alone : forall c c' u u', sc_cpus s !! c = Some u -> sc_cpus s !! c' = Some u' -> hole <> Some c -> hole <> Some c' ->
    cu_this u = cu_this u' -> c = c';
  si_running : forall p x, sc_procs s !! p = Some x -> state x = RUNNING ->
    exists c u, sc_cpus s !! c = Some u /\ hole <> Some c /\ cu_this u = p;
  (* a process that may be switched to has a saved context *)
  si_saved : forall p x, sc_procs s !! p = Some x -> fresh <> Some p -> state x ∈ [RUNNABLE; SLEEPING; DEEPSLEEPING] -> is_Some (kcontext x);
  (* the run queue holds exactly the processes that can run *)
  si_ring : ring (sc_nodes s) rq (rqnode <$> L);
  si_queue : forall p, p ∈ L <-> exists x, sc_procs s !! p = Some x /\ pid x <> -1 /\ state x ∈ [RUNNABLE; RUNNING];
  si_nodes : forall p x, sc_procs s !! p = Some x -> p <> 0 /\ rqnode p <> 0 /\ rqnode p <> rq /\ is_Some (sc_nodes s !! rqnode p);
  (* the scheduling timer is pending exactly when it is not triggered *)
  si_timers : forall c u, sc_cpus s !! c = Some u -> exists l t, timers_ok freq timestamp lim (cu_timers u) l /\
    ct_timers (cu_timers u) !! sched_timer c = Some t /\ (triggered t = false <-> sched_timer c ∈ l);
}.

Definition sched_inv (s : Sched) (L : list Z) : Prop := core None None s L.

Lemma wp_proc_at s p x (Q : Proc -> Sched -> Prop) : sc_procs s !! p = Some x -> Q x s -> wp (proc_at p) Q s.
Proof. intros E HQ. apply wp_bind, wp_get_state. by eapply wp_deref. Qed.

Lemma wp_cpu_at s c u (Q : cpu -> Sched -> Prop) : sc_cpus s !! c = Some u -> Q u s -> wp (cpu_at c) Q s.
Proof. intros E HQ. apply wp_bind, wp_get_state. by eapply wp_deref. Qed.

Lemma wp_acquire s (Q : unit -> Sched -> Prop) : sc_lock s = false -> Q tt (set_lock true s) -> wp acquire_sched_lock Q s.
Proof. intros Hl HQ. unfold wp, acquire_sched_lock. by rewrite Hl. Qed.

Lemma wp_on_nodes {A} (f : heap -> option (A * heap)) s a h (Q : A -> Sched -> Prop) :
  f (sc_nodes s) = Some (a, h) -> Q a (set_nodes h s) -> wp (on_nodes f) Q s.
Proof. intros E HQ. unfold wp, on_nodes. by rewrite E. Qed.

Lemma has_state_spec x l : has_state x l = true <-> state x ∈ l.
Proof. apply bool_decide_eq_true. Qed.

(** What the scheduler leaves alone: the fields of a process other than its
    state, context and load, and the list nodes other than those of the run
    queue. *)
Definition kin (x x' : Proc) : Prop :=
  killed x' = killed x /\ idle x' = idle x /\ pid x' = pid x /\ exitcode x' = exitcode x /\ parent x' = parent x /\ pt x' = pt x.

Definition kin_procs (ps ps' : gmap Z Proc) : Prop := forall p, option_Forall2 kin (ps !! p) (ps' !! p).

Definition off_queue (L : list Z) (s s' : Sched) : Prop := forall n, n <> rq -> n ∉ rqnode <$> L ->
  get_next (sc_nodes s') n = get_next (sc_nodes s) n /\ get_prev (sc_nodes s') n = get_prev (sc_nodes s) n.

#[export] Instance kin_refl : Reflexive kin.
Proof. by intros x. Qed.
#[export] Instance kin_trans : Transitive kin.
Proof. unfold kin. intros x y z. intuition congruence. Qed.
#[export] Instance kin_procs_preorder : PreOrder kin_procs.
Proof.
  split; [intros ps p; by destruct (ps !! p); constructor|]. intros a b c H1 H2 p. by transitivity (b !! p).
Qed.

Lemma kin_insert ps p x x' : ps !! p = Some x -> kin x x' -> kin_procs ps (<[p := x']> ps).
Proof.
  intros E H q. destruct (decide (q = p)) as [->|Hne]; [rewrite E, lookup_insert_eq; by constructor|].
  rewrite lookup_insert_ne by done. by destruct (ps !! q); constructor.
Qed.

Lemma kin_forth ps ps' p x : kin_procs ps ps' -> ps !! p = Some x -> exists x', ps' !! p = Some x' /\ kin x x'.
Proof. intros H E. specialize (H p). rewrite E in H. inversion H; eauto. Qed.

Lemma kin_back ps ps' p x' : kin_procs ps ps' -> ps' !! p = Some x' -> exists x, ps !! p = Some x /\ kin x x'.
Proof. intros H E. specialize (H p). rewrite E in H. inversion H; eauto. Qed.

Lemma off_queue_ring L s s' hd l : off_queue L s s' -> ring (sc_nodes s) hd l ->
  (forall n, n ∈ hd :: l -> n <> rq /\ n ∉ rqnode <$> L) -> ring (sc_nodes s') hd l.
Proof.
  intros Ho [Hnd Hp] Hd. split; [done|]. apply (path_frame (sc_nodes s)); [done| |].
  - intros x. change (hd :: l ++ [hd]) with ((hd :: l) ++ [hd]). rewrite removelast_last. intros Hx. destruct (Hd x Hx). by apply Ho.
  - intros x. cbn [tail]. intros Hx. assert (x ∈ hd :: l) as Hx' by (rewrite elem_of_app, list_elem_of_singleton in Hx; rewrite elem_of_cons; tauto).
    destruct (Hd x Hx'). by apply Ho.
Qed.

(** ** Choosing the next process *)

Definition candidate (s : Sched) (p : Z) : Prop :=
  exists x, sc_procs s !! p = Some x /\ state x = RUNNABLE /\ timeload x < 1000000.

Definition load (s : Sched) (p : Z) : Z := from_option timeload 0 (sc_procs s !! p).

(** The choice among [L]: a candidate with the least load, the first of them
    in the queue; 0 when there is none. *)
Definition best (s : Sched) (L : list Z) (b : Z) : Prop :=
  b = 0 /\ (forall p, p ∈ L -> ~ candidate s p) \/
  exists l1 l2, L = l1 ++ b :: l2 /\ candidate s b /\
    (forall p, p ∈ l1 -> candidate s p -> load s b < load s p) /\ (forall p, p ∈ l2 -> candidate s p -> load s b <= load s p).

Definition bound (s : Sched) (sel : Z) : Z := if decide (sel = 0) then 1000000 else load s sel.

Lemma load_of s p x : sc_procs s !! p = Some x -> load s p = timeload x.
Proof. intros E. unfold load. by rewrite E. Qed.

Lemma best_better s l sel p x :
  best s l sel -> (forall q, q ∈ l -> q <> 0) -> sc_procs s !! p = Some x -> state x = RUNNABLE -> timeload x < bound s sel ->
  best s (l ++ [p]) p.
Proof.
  intros Hb H0 Ex Hst Hlt. right. exists l, []. rewrite (load_of s p x Ex).
  destruct Hb as [[-> Hno]|(l1 & l2 & -> & (y & Ey & Hy & Hly) & H1 & H2)].
  - change (bound s 0) with 1000000 in Hlt. split_and!; [done|by exists x| |by intros ? ?%elem_of_nil]. intros q Hq Hc. by destruct (Hno q Hq).
  - assert (bound s sel = timeload y) as Eb.
    { unfold bound. rewrite decide_False by (apply H0; rewrite elem_of_app, elem_of_cons; tauto). by apply load_of. }
    rewrite (load_of s sel y Ey) in H1, H2. split_and!; [done|exists x; split_and!; [done..|lia]| |by intros ? ?%elem_of_nil].
    intros q. rewrite elem_of_app, elem_of_cons. intros [Hq|[->|Hq]] Hc; [specialize (H1 q Hq Hc); lia|rewrite (load_of s sel y Ey); lia|specialize (H2 q Hq Hc); lia].
Qed.

Lemma best_same s l sel p x :
  best s l sel -> (forall q, q ∈ l -> q <> 0) -> sc_procs s !! p = Some x -> (state x = RUNNABLE -> bound s sel <= timeload x) ->
  best s (l ++ [p]) sel.
Proof.
  intros Hb H0 Ex Hle. destruct Hb as [[-> Hno]|(l1 & l2 & -> & Hc & H1 & H2)].
  - left. split; [done|]. intros q. rewrite elem_of_app, list_elem_of_singleton. intros [Hq| ->]; [by apply Hno|].
    intros (y & Ey & Hy & Hly). simplify_eq. specialize (Hle Hy). change (bound s 0) with 1000000 in Hle. lia.
  - right. exists l1, (l2 ++ [p]). split_and!; [by rewrite <- app_assoc|done|done|]. intros q. rewrite elem_of_app, list_elem_of_singleton.
    intros [Hq| ->] Hcq; [by apply H2|]. destruct Hcq as (y & Ey & Hy & Hly). simplify_eq. specialize (Hle Hy). rewrite (load_of s p _ Ex).
    unfold bound in Hle. rewrite decide_False in Hle by (apply H0; rewrite elem_of_app, elem_of_cons; tauto). done.
Qed.

Lemma wp_pick_loop s L : forall sel m done,
  (forall p, p ∈ L -> rqnode p <> rq /\ is_Some (sc_procs s !! p)) ->
  best s done sel -> m = bound s sel -> (forall p, p ∈ done -> p <> 0) -> (forall p, p ∈ L -> p <> 0) ->
  wp (pick_loop ((rqnode <$> L) ++ [rq]) sel m) (fun b s' => s' = s /\ best s (done ++ L) b) s.
Proof.
  induction L as [|p L IH]; intros sel m dn HL Hb Hm Hd H0; simpl.
  - rewrite Z.eqb_refl. apply wp_ret. by rewrite app_nil_r.
  - destruct (HL p) as (Hne & x & Ex); [by left|]. rewrite (proj2 (Z.eqb_neq _ rq)) by done.
    assert (proc_of_rqnode (rqnode p) = p) as -> by (unfold proc_of_rqnode, rqnode; lia). cbv zeta.
    apply wp_bind, (wp_proc_at _ _ x); [done|].
    assert (p <> 0) as Hp0 by (apply H0; by left).
    assert (forall sel' m', best s (dn ++ [p]) sel' -> m' = bound s sel' ->
      wp (pick_loop ((rqnode <$> L) ++ [rq]) sel' m') (fun b s' => s' = s /\ best s (dn ++ p :: L) b) s) as Hgo.
    { intros sel' m' Hb' Hm'. eapply wp_mono; [apply (IH sel' m' (dn ++ [p])); try done|].
      - intros q Hq. apply HL. by right.
      - intros q. rewrite elem_of_app, list_elem_of_singleton. intros [Hq| ->]; [by apply Hd|done].
      - intros q Hq. apply H0. by right.
      - intros b s' [-> Hbb]. rewrite <- app_assoc in Hbb. done. }
    assert (load s p = timeload x) as El by (unfold load; by rewrite Ex).
    destruct (has_state x [RUNNABLE] && (timeload x <? m)) eqn:Et.
    + apply andb_true_iff in Et as [Est Elt]. rewrite has_state_spec, list_elem_of_singleton in Est. apply Z.ltb_lt in Elt.
      apply Hgo; [|unfold bound; by rewrite decide_False]. subst m. by apply (best_better s dn sel p x).
    + apply Hgo; [|done]. subst m. apply (best_same s dn sel p x); try done. intros Hst.
      rewrite (proj2 (has_state_spec x [RUNNABLE])) in Et by (by rewrite Hst; left). simpl in Et. by apply Z.ltb_ge in Et.
Qed.
Lemma ring_next h hd l : ring h hd l -> get_next h hd = Some (default hd (head l)).
Proof. intros [_ Hp]. destruct l as [|x l]; simpl in Hp; destruct Hp as [[Hn _] _]; exact Hn. Qed.

Lemma ring_tail h hd l : ring h hd l -> path h (l ++ [hd]) /\ hd ∉ l /\ NoDup l.
Proof.
  intros [Hnd Hp]. apply NoDup_cons in Hnd as [H1 H2]. split_and!; try done. destruct l; simpl in *; by destruct Hp.
Qed.

Lemma core_nodup hole fresh s L : core hole fresh s L -> NoDup L.
Proof. intros H. destruct (ring_tail _ _ _ (si_ring _ _ _ _ H)) as (_ & _ & Hnd). by apply NoDup_fmap_1 in Hnd. Qed.

Lemma core_in_procs hole fresh s L p : core hole fresh s L -> p ∈ L -> exists x, sc_procs s !! p = Some x /\ pid x <> -1 /\ state x ∈ [RUNNABLE; RUNNING].
Proof. intros H Hp. by apply (si_queue _ _ _ _ H). Qed.

Lemma wp_rq_nodes hole fresh s L (Q : list Z -> Sched -> Prop) :
  core hole fresh s L -> Q ((rqnode <$> L) ++ [rq]) s -> wp rq_nodes Q s.
Proof.
  intros H HQ. pose proof (si_ring _ _ _ _ H) as Hr. destruct (ring_tail _ _ _ Hr) as (Hp & Hn & Hnd).
  assert (length (rqnode <$> L) < S (size (sc_nodes s)))%nat as Hsz.
  { apply le_n_S. rewrite <- size_dom, <- (size_list_to_set (C := gset Z)) by done.
    apply subseteq_size. intros n Hin%elem_of_list_to_set. apply list_elem_of_fmap in Hin as (p & -> & Hin).
    destruct (core_in_procs _ _ _ _ p H Hin) as (x & Ex & _). destruct (si_nodes _ _ _ _ H p x Ex) as (_ & _ & _ & Hs). by apply elem_of_dom. }
  apply (wp_on_nodes _ _ ((rqnode <$> L) ++ [rq]) (sc_nodes s)); [|by destruct s].
  rewrite (ring_next _ _ _ Hr). cbn [mbind option_bind]. by rewrite for_in_list_spec.
Qed.

(** A change of fields the invariant does not speak of. *)
Lemma core_store_same hole fresh s L p x x' :
  core hole fresh s L -> sc_procs s !! p = Some x -> pid x' = pid x -> state x' = state x -> (state x <> UNUSED -> kcontext x' = kcontext x) ->
  core hole fresh (set_procs (<[p := x']> (sc_procs s)) s) L.
Proof.
  intros [] Ex Ep Es Ek.
  assert (forall q y, <[p := x']> (sc_procs s) !! q = Some y ->
    exists y', sc_procs s !! q = Some y' /\ pid y = pid y' /\ state y = state y' /\ (state y' <> UNUSED -> kcontext y = kcontext y')) as Hback.
  { intros q y [[<- <-]|[_ Ey]]%lookup_insert_Some; [by exists x|by exists y]. }
  assert (forall q y', sc_procs s !! q = Some y' ->
    exists y, <[p := x']> (sc_procs s) !! q = Some y /\ pid y = pid y' /\ state y = state y') as Hforth.
  { intros q y' Ey. destruct (decide (q = p)) as [->|Hne]; [|exists y'; by rewrite lookup_insert_ne].
    exists x'. rewrite lookup_insert_eq. by simplify_eq. }
  split; cbn [sc_cpus sc_procs sc_nodes set_procs]; try done.
  - intros c u Eu. destruct (si_idle0 c u Eu) as (y & Ey & Hy & Hor). destruct (Hforth _ _ Ey) as (y' & Ey' & E1 & E2).
    exists y'. rewrite E1, E2. done.
  - intros q y Ey Hp. destruct (Hback q y Ey) as (y' & Ey' & E1 & _). apply (si_pid0 q y'); congruence.
  - intros c u Eu Hh. destruct (si_this0 c u Eu Hh) as (y & Ey & Hy & Hor). destruct (Hforth _ _ Ey) as (y' & Ey' & E1 & E2).
    exists y'. rewrite E1, E2. done.
  - intros q y Ey Hy. destruct (Hback q y Ey) as (y' & Ey' & _ & E2 & _). apply (si_running0 q y'); congruence.
  - intros q y Ey Hf Hy. destruct (Hback q y Ey) as (y' & Ey' & _ & E2 & E3). rewrite E3; [apply (si_saved0 q y'); try done; by rewrite <- E2|].
    rewrite <- E2. rewrite !elem_of_cons, elem_of_nil in Hy. intuition congruence.
  - intros q. rewrite si_queue0. split.
    + intros (y & Ey & H1 & H2). destruct (Hforth _ _ Ey) as (y' & Ey' & E1 & E2). exists y'. by rewrite E1, E2.
    + intros (y & Ey & H1 & H2). destruct (Hback q y Ey) as (y' & Ey' & E1 & E2 & _). exists y'. by rewrite <- E1, <- E2.
  - intros q y Ey. destruct (Hback q y Ey) as (y' & Ey' & _). by apply (si_nodes0 q y').
Qed.

(** What [pick_next] returns on CPU [c]. *)
Definition chosen (s : Sched) (L : list Z) (c : nat) (next : Z) : Prop :=
  exists b u, sc_cpus s !! c = Some u /\ best s L b /\ next = (if decide (b = 0) then cu_idle u else b).

Lemma wp_pick_next fresh s L c u :
  core (Some c) fresh s L -> sc_cpus s !! c = Some u ->
  wp (pick_next c) (fun next s' => chosen s L c next /\ core (Some c) fresh s' L /\ sc_cpus s' = sc_cpus s /\ sc_lock s' = sc_lock s /\ sc_nodes s' = sc_nodes s /\
    (forall p, p <> next -> sc_procs s' !! p = sc_procs s !! p) /\
    exists y y', sc_procs s !! next = Some y /\ sc_procs s' !! next = Some y' /\ state y' = RUNNABLE /\
      (next = cu_idle u \/ pid y' <> -1) /\
      y' = set_timeload (if decide (next = cu_idle u) then timeload y else timeload y + 1) y) s.
Proof.
  intros H Eu. unfold pick_next. apply wp_bind, (wp_rq_nodes _ _ _ _ _ H). apply wp_bind.
  assert (forall p, p ∈ L -> p <> 0) as H0.
  { intros p Hp. destruct (core_in_procs _ _ _ _ p H Hp) as (x & Ex & _). by destruct (si_nodes _ _ _ _ H p x Ex). }
  eapply wp_mono; [apply (wp_pick_loop s L 0 1000000 []); try done|].
  { intros p Hp. destruct (core_in_procs _ _ _ _ p H Hp) as (x & Ex & _). destruct (si_nodes _ _ _ _ H p x Ex) as (_ & _ & ? & _). eauto. }
  { left. split; [done|]. by intros p ?%elem_of_nil. }
  { by intros p ?%elem_of_nil. }
  intros b s' [-> Hb]. simpl in Hb. assert (chosen s L c (if decide (b = 0) then cu_idle u else b)) as Hch by (by exists b, u).
  destruct (si_idle _ _ _ _ H c u Eu) as (xi & Exi & Hpi & Hor).
  destruct (decide (b = 0)) as [->|Hb0].
  - change (negb (0 =? 0)) with false. cbn iota. apply wp_bind, (wp_cpu_at _ _ u); [done|]. apply wp_ret. split_and!; try done.
    exists xi, xi. split_and!; try done; [destruct Hor as [[? _]|?]; done|by left|]. rewrite decide_True by done. by destruct xi.
  - rewrite (proj2 (Z.eqb_neq b 0)) by done. cbn [negb].
    destruct Hb as [[? _]|(l1 & l2 & El & (y & Ey & Hst & Hlt) & _)]; [done|].
    destruct (core_in_procs _ _ _ _ b H) as (y' & Ey' & Hpid & _); [rewrite El, elem_of_app, elem_of_cons; tauto|]. simplify_eq.
    assert (b <> cu_idle u) as Hni by (intros ->; congruence).
    apply wp_bind, (wp_proc_at _ _ y); [done|]. apply wp_bind, wp_modify, wp_ret. split_and!; try done.
    + by eapply core_store_same.
    + intros p Hp. cbn [sc_procs set_procs]. by rewrite lookup_insert_ne.
    + exists y, (set_timeload (timeload y + 1) y). cbn [sc_procs set_procs]. rewrite lookup_insert_eq, decide_False by done. split_and!; try done. by right.
Qed.
(** ** Leaving the CPU *)

Lemma ring_alive h hd l x : ring h hd l -> x ∈ hd :: l -> is_Some (h !! x).
Proof.
  intros [_ Hp] Hx. assert (is_Some (get_next h x)) as Hn.
  { apply elem_of_cons in Hx as [->|Hx]; [destruct l; simpl in Hp; destruct Hp as [[Hn _] _]; eauto|].
    apply list_elem_of_split in Hx as (l1 & l2 & ->). rewrite <- app_assoc in Hp. destruct (l2 ++ [hd]) as [|y r] eqn:E; [by destruct l2|].
    change (hd :: l1 ++ (x :: l2) ++ [hd]) with ((hd :: l1) ++ x :: l2 ++ [hd]) in Hp. rewrite E in Hp.
    apply path_split in Hp as (_ & [Hn _] & _). eauto. }
  unfold get_next in Hn. by apply fmap_is_Some in Hn.
Qed.

Lemma detach_alive h hd l1 node l2 :
  ring h hd (l1 ++ node :: l2) ->
  exists r h', _detach_from_list h node = Some (r, h') /\ ring h' hd (l1 ++ l2) /\ (forall x, is_Some (h !! x) -> is_Some (h' !! x)) /\
    (forall x, x ∉ hd :: l1 ++ node :: l2 -> get_next h' x = get_next h x /\ get_prev h' x = get_prev h x) /\ ring h' node [].
Proof.
  intros Hr. destruct (detach_spec h hd l1 node l2 Hr) as (h' & E & R1 & R2 & F). do 2 eexists. split_and!; [exact E|done| |done|done].
  intros x Hx. destruct (decide (x ∈ hd :: l1 ++ l2)) as [Hin|Hin]; [exact (ring_alive _ _ _ _ R1 Hin)|].
  destruct (decide (x = node)) as [->|Hne]; [eapply (ring_alive _ _ _ _ R2); by left|].
  destruct (F x) as [Fn _]; [set_solver|]. apply (fmap_is_Some next). unfold get_next in Fn. rewrite Fn. by apply fmap_is_Some.
Qed.

Lemma insert_alive h hd l node :
  ring h hd l -> hd <> 0 -> node <> 0 -> node ∉ hd :: l -> is_Some (h !! node) ->
  exists r h', _insert_into_list h hd node = Some (r, h') /\ ring h' hd (node :: l) /\ (forall x, is_Some (h !! x) -> is_Some (h' !! x)) /\
    (forall x, x ∉ hd :: node :: l -> get_next h' x = get_next h x /\ get_prev h' x = get_prev h x).
Proof.
  intros Hr H1 H2 H3 H4. destruct (insert_spec h hd l node Hr H1 H2 H3 H4) as (h' & E & R & F). do 2 eexists. split_and!; [exact E|done| |intros x Hx; apply F; set_solver].
  intros x Hx. destruct (decide (x ∈ hd :: node :: l)) as [Hin|Hin]; [exact (ring_alive _ _ _ _ R Hin)|].
  destruct (F x) as [Fn _]; [set_solver|set_solver|]. apply (fmap_is_Some next). unfold get_next in Fn. rewrite Fn. by apply fmap_is_Some.
Qed.

(** The states a process may give up the CPU with. *)
Definition leaving (ns : procstate) : Prop := ns ∈ [RUNNABLE; SLEEPING; DEEPSLEEPING; ZOMBIE].

Lemma core_leave s L c u x ns h' L' :
  sched_inv s L -> sc_cpus s !! c = Some u -> sc_procs s !! cu_this u = Some x -> leaving ns -> (pid x = -1 -> ns = RUNNABLE) ->
  ring h' rq (rqnode <$> L') -> (forall n, is_Some (sc_nodes s !! n) -> is_Some (h' !! n)) ->
  (forall p, p <> cu_this u -> p ∈ L' <-> p ∈ L) -> (cu_this u ∈ L' <-> pid x <> -1 /\ ns = RUNNABLE) ->
  core (Some c) (Some (cu_this u)) (set_nodes h' (set_procs (<[cu_this u := set_state ns x]> (sc_procs s)) s)) L'.
Proof.
  intros [] Eu Ex Hns Hidle Hr Hh HL HLt. set (this := cu_this u) in *.
  assert (forall p y, <[this := set_state ns x]> (sc_procs s) !! p = Some y -> p = this /\ y = set_state ns x \/ p <> this /\ sc_procs s !! p = Some y) as Hback.
  { intros p y [[<- <-]|[? ?]]%lookup_insert_Some; [by left|right; by split]. }
  split; cbn [sc_cpus sc_procs sc_nodes set_procs set_nodes]; try done.
  - intros c0 u0 E0. destruct (si_idle0 c0 u0 E0) as (y & Ey & Hy & Hor). destruct (decide (cu_idle u0 = this)) as [Ei|Ei].
    + rewrite Ei in *. exists (set_state ns x). rewrite lookup_insert_eq. simplify_eq. split_and!; try done. right. by apply Hidle.
    + exists y. rewrite lookup_insert_ne by done. split_and!; try done. destruct Hor as [[_ Hor]|Hor]; [left|by right].
      split; [|done]. intros [= <-]. simplify_eq.
  - intros p y [[-> ->]|[_ Ey]]%Hback Hp; [|by eapply si_pid0]. by apply (si_pid0 this x).
  - intros c0 u0 E0 Hne. destruct (si_this0 c0 u0 E0) as (y & Ey & Hy); [done|]. exists y. rewrite lookup_insert_ne; [done|].
    intros Et. apply Hne. f_equal. by apply (si_alone0 c c0 u u0).
  - intros c0 c' u0 u' E0 E' _ _. by apply si_alone0.
  - intros p y [[-> ->]|[Hne Ey]]%Hback Hst.
    + exfalso. unfold leaving in Hns. simpl in Hst. rewrite Hst, !elem_of_cons, elem_of_nil in Hns. intuition done.
    + destruct (si_running0 p y Ey Hst) as (c0 & u0 & E0 & _ & Et). exists c0, u0. split_and!; try done. intros [= <-]. simplify_eq.
  - intros p y [[-> ->]|[_ Ey]]%Hback Hne Hst; [done|]. by eapply si_saved0.
  - intros p. destruct (decide (p = this)) as [->|Hne].
    + rewrite HLt. split.
      * intros [Hp ->]. exists (set_state RUNNABLE x). rewrite lookup_insert_eq. split_and!; try done. by left.
      * intros (y & [[_ ->]|[? _]]%Hback & Hp & Hst); [|done]. split; [done|]. simpl in Hst. unfold leaving in Hns.
        rewrite !elem_of_cons, elem_of_nil in *. intuition congruence.
    + rewrite HL by done. rewrite si_queue0. by setoid_rewrite (lookup_insert_ne _ this p); [|done].
  - intros p y [[-> ->]|[_ Ey]]%Hback; [destruct (si_nodes0 this x Ex) as (? & ? & ? & ?)|destruct (si_nodes0 p y Ey) as (? & ? & ? & ?)]; split_and!; auto.
Qed.

Lemma wp_update_this_state s L c u x ns :
  sched_inv s L -> sc_cpus s !! c = Some u -> sc_procs s !! cu_this u = Some x -> leaving ns -> (pid x = -1 -> ns = RUNNABLE) ->
  wp (update_this_state c ns) (fun _ s' => exists L', core (Some c) (Some (cu_this u)) s' L' /\ sc_cpus s' = sc_cpus s /\ sc_lock s' = sc_lock s /\
    sc_procs s' = <[cu_this u := set_state ns x]> (sc_procs s) /\ (if decide (ns = RUNNABLE) then L' = L else without (cu_this u) L L') /\ off_queue L s s' /\
    (pid x <> -1 -> ns <> RUNNABLE -> ring (sc_nodes s') (rqnode (cu_this u)) [])) s.
Proof.
  intros H Eu Ex Hns Hidle. destruct (si_this _ _ _ _ H c u Eu) as (x' & Ex' & Hrun & _); [done|]. simplify_eq.
  assert (pid x = -1 \/ ns = RUNNABLE -> core (Some c) (Some (cu_this u)) (set_procs (<[cu_this u := set_state ns x]> (sc_procs s)) s) L) as Hstay.
  { intros Hor. pose proof (si_ring _ _ _ _ H) as Hr. apply (core_leave s L c u x ns (sc_nodes s) L); try done.
    rewrite (si_queue _ _ _ _ H). split.
    - intros (y & Ey & Hp & _). simplify_eq. split; [done|]. by destruct Hor.
    - intros [Hp ->]. exists x. split_and!; try done. rewrite Hrun. by right; left. }
  unfold update_this_state, thisproc. apply wp_bind, wp_bind, (wp_cpu_at _ _ u); [done|]. apply wp_ret.
  apply wp_bind, (wp_proc_at _ _ x); [done|]. cbv zeta. apply wp_bind, wp_modify.
  destruct (Z.eqb_spec (pid x) (-1)) as [Hp|Hp].
  { apply wp_ret. exists L. rewrite (Hidle Hp) in *. rewrite decide_True by done. split_and!; try done. by apply Hstay; left. }
  assert (has_state x [RUNNABLE; RUNNING] = true) as Hq by (apply has_state_spec; rewrite Hrun; by right; left).
  rewrite Hq. cbn [negb andb]. destruct (decide (ns = RUNNABLE)) as [->|Hnr].
  { rewrite (bool_decide_eq_true_2 (RUNNABLE ∈ [RUNNING; RUNNABLE])) by (by right; left). cbn [negb].
    apply wp_bind, wp_ret, wp_ret. exists L. split_and!; try done. by apply Hstay; right. }
  rewrite bool_decide_eq_false_2. 2: { unfold leaving in Hns. rewrite !elem_of_cons, elem_of_nil in *. intuition congruence. }
  assert (cu_this u ∈ L) as Hin.
  { apply (si_queue _ _ _ _ H). exists x. split_and!; try done. rewrite Hrun. by right; left. }
  pose proof (core_nodup _ _ _ _ H) as Hnd. apply list_elem_of_split in Hin as (l1 & l2 & ->).
  pose proof (si_ring _ _ _ _ H) as Hr. rewrite fmap_app, fmap_cons in Hr.
  destruct (detach_alive _ _ _ _ _ Hr) as (r & h' & Ed & Hr' & Halive & Hoff & Hself). rewrite <- fmap_app in Hr'.
  apply wp_bind, wp_bind. eapply wp_on_nodes; [exact Ed|]. apply wp_ret, wp_ret.
  exists (l1 ++ l2). split_and!; try done; [|by exists l1, l2|].
  2: { intros n Hn Hnp. apply Hoff. rewrite elem_of_cons. rewrite fmap_app in Hnp. intros [?|?]; done. }
  apply (core_leave s (l1 ++ cu_this u :: l2) c u x ns); try done.
  - intros p Hne. rewrite !elem_of_app, elem_of_cons. tauto.
  - split; [|by intros [_ ?]]. intros Hin. rewrite NoDup_app, NoDup_cons in Hnd. destruct Hnd as (_ & H1 & H2 & _).
    apply elem_of_app in Hin as [Hin|Hin]; [destruct (H1 _ Hin); by left|done].
Qed.

(** ** Entering the CPU *)

(** The state with [u] in place of CPU [c]. *)
Definition put_cpu (c : nat) (u : cpu) (s : Sched) : Sched := set_cpus (<[c := u]> (sc_cpus s)) s.

Lemma put_put c u u' s : put_cpu c u (put_cpu c u' s) = put_cpu c u s.
Proof. unfold put_cpu. simpl. by rewrite list_insert_insert_eq. Qed.

Lemma put_at c u s : (c < length (sc_cpus s))%nat -> sc_cpus (put_cpu c u s) !! c = Some u.
Proof. apply list_lookup_insert_eq. Qed.

Lemma wp_on_timers {A} c u (m : M CpuTimers A) s (Q : A -> Sched -> Prop) :
  (c < length (sc_cpus s))%nat -> wp m (fun a v => Q a (put_cpu c (set_timers v u) s)) (cu_timers u) -> wp (on_timers c m) Q (put_cpu c u s).
Proof.
  intros Hc Hm. unfold on_timers. apply wp_bind, (wp_cpu_at _ _ u); [by apply put_at|]. apply wp_zoom. eapply wp_mono; [exact Hm|].
  intros a v HQ. change (Q a (put_cpu c (set_timers v u) (put_cpu c u s))). by rewrite put_put.
Qed.

Definition timer_ready (c : nat) (v : CpuTimers) : Prop := exists l t, timers_ok freq timestamp lim v l /\
  ct_timers v !! sched_timer c = Some t /\ (triggered t = false <-> sched_timer c ∈ l).

Lemma wp_arm c u s v l t :
  (c < length (sc_cpus s))%nat -> timers_ok freq timestamp lim v l -> ct_timers v !! sched_timer c = Some t -> sched_timer c ∉ l ->
  wp (on_timers c (set_cpu_timer freq timestamp (sched_timer c))) (fun _ s' => exists v', s' = put_cpu c (set_timers v' u) s /\ timer_ready c v')
    (put_cpu c (set_timers v u) s).
Proof.
  intros Hc Hok Et Hl. apply wp_on_timers; [done|]. cbn [cu_timers set_timers].
  eapply wp_mono; [apply (wp_set_cpu_timer freq timestamp lim Hclock v l _ t Hok Et Hl)|].
  intros [] v' (l1 & l2 & -> & Hok' & Ets & _). exists v'. split; [done|]. do 2 eexists. split_and!; [exact Hok'|rewrite Ets; apply lookup_insert_eq|].
  simpl. split; [intros _|done]. rewrite elem_of_app, elem_of_cons. tauto.
Qed.

(** The scheduling timer is armed again. *)
Lemma wp_update_this_proc s c u p :
  sc_cpus s !! c = Some u -> timer_ready c (cu_timers u) ->
  wp (update_this_proc c p) (fun _ s' => exists v, s' = put_cpu c (set_timers v (set_this p u)) s /\ timer_ready c v) s.
Proof.
  intros Eu (l & t & Hok & Et & Htr). assert (c < length (sc_cpus s))%nat as Hc by (by apply lookup_lt_Some in Eu).
  unfold update_this_proc. apply wp_bind, (wp_cpu_at _ _ u); [done|]. apply wp_bind, wp_modify.
  change (set_cpus (<[c := set_this p u]> (sc_cpus s)) s) with (put_cpu c (set_this p u) s). set (u1 := set_this p u).
  apply wp_bind, (wp_on_timers c u1); [done|]. apply wp_bind, wp_get_state, (wp_deref _ t); [done|].
  change (set_timers (cu_timers u1) u1) with u1.
  destruct (triggered t) eqn:Ett; cbn [negb].
  - apply wp_bind, wp_ret. apply (wp_arm c u1 s (cu_timers u) l t); try done. rewrite <- Htr. done.
  - assert (sched_timer c ∈ l) as Hin by (by apply Htr).
    apply wp_bind, (wp_on_timers c u1); [done|]. eapply wp_mono; [apply (wp_cancel_cpu_timer freq timestamp lim Hclock _ l _ Hok Hin)|].
    intros [] v (l' & Hw & Hok' & Ets & _). apply (wp_arm c u1 s v l' t); try done; [by rewrite Ets|].
    destruct Hok as [(tr & Htree & <-) _ _]. pose proof (ro_nodup _ _ _ Htree) as Hnd. rewrite (without_sub _ _ _ Hw) in Hnd.
    by apply NoDup_cons in Hnd as [? _].
Qed.
(** The processes after the switch from [this] to [next]. *)
Record switched (this next : Z) (ps ps' : gmap Z Proc) : Prop := {
  sw_next : exists y y', ps !! next = Some y /\ ps' !! next = Some y' /\ state y' = RUNNING /\ pid y' = pid y;
  sw_forth : forall p x, p <> next -> ps !! p = Some x -> exists x', ps' !! p = Some x' /\ pid x' = pid x /\ state x' = state x;
  sw_back : forall p x', p <> next -> ps' !! p = Some x' -> exists x, ps !! p = Some x /\ pid x' = pid x /\ state x' = state x /\
    (p <> this /\ kcontext x' = kcontext x \/ is_Some (kcontext x'));
}.

Lemma core_enter s L c u this next y ps' u' :
  core (Some c) (Some this) s L -> sc_cpus s !! c = Some u -> sc_procs s !! next = Some y -> state y = RUNNABLE ->
  (next = cu_idle u \/ pid y <> -1) -> switched this next (sc_procs s) ps' ->
  cu_this u' = next -> cu_idle u' = cu_idle u -> timer_ready c (cu_timers u') ->
  sched_inv (put_cpu c u' (set_procs ps' s)) L.
Proof.
  intros [] Eu Ey Hst Hid [(y0 & y' & Ey0 & Ey' & Hst' & Hpid') Hf Hb] Et Ei Htm. simplify_eq.
  assert (c < length (sc_cpus s))%nat as Hc by (by apply lookup_lt_Some in Eu).
  assert (forall c0 u0, sc_cpus (put_cpu c u' (set_procs ps' s)) !! c0 = Some u0 -> c0 = c /\ u0 = u' \/ c0 <> c /\ sc_cpus s !! c0 = Some u0) as Hcpu.
  { intros c0 u0. unfold put_cpu. cbn [sc_cpus set_cpus set_procs]. destruct (decide (c0 = c)) as [->|Hne].
    - rewrite list_lookup_insert_eq by done. intros [= <-]. by left.
    - rewrite list_lookup_insert_ne by done. by right. }
  assert (forall c0 u0, sc_cpus s !! c0 = Some u0 -> c0 <> c -> sc_cpus (put_cpu c u' (set_procs ps' s)) !! c0 = Some u0) as Hcpu'.
  { intros c0 u0 E0 Hne. unfold put_cpu. cbn [sc_cpus set_cpus set_procs]. by rewrite list_lookup_insert_ne. }
  assert (sc_cpus (put_cpu c u' (set_procs ps' s)) !! c = Some u') as Hcc by (by apply put_at).
  assert (forall c0 u0, sc_cpus s !! c0 = Some u0 -> c0 <> c -> cu_this u0 <> cu_this u') as Hother.
  { intros c0 u0 E0 Hne E. destruct (si_this0 c0 u0 E0) as (z & Ez & Hz & _); [congruence|]. rewrite E in Ez. congruence. }
  assert (forall c0 u0, sc_cpus (put_cpu c u' (set_procs ps' s)) !! c0 = Some u0 -> exists u1, sc_cpus s !! c0 = Some u1 /\ cu_idle u1 = cu_idle u0) as Hidl.
  { intros c0 u0 [[-> ->]|[_ E0]]%Hcpu; eauto. }
  split; try done; cbn [sc_procs sc_nodes put_cpu set_cpus set_procs].
  - unfold put_cpu. cbn [sc_cpus set_cpus set_procs]. by rewrite length_insert.
  - intros c0 u0 E0. destruct (Hidl c0 u0 E0) as (u1 & E1 & <-). destruct (si_idle0 c0 u1 E1) as (z & Ez & Hz & Hor).
    destruct (decide (cu_idle u1 = cu_this u')) as [Eq|Eq].
    + rewrite Eq in *. simplify_eq. exists y'. split_and!; [done|congruence|]. left. split; [done|]. destruct Hid as [Hid|]; [|done].
      assert (c0 = c) as -> by (apply (si_idles0 c0 c u1 u); congruence). simplify_eq. done.
    + destruct (Hf _ _ Eq Ez) as (z' & Ez' & P1 & P2). exists z'. split_and!; [done|congruence|]. rewrite P2.
      destruct Hor as [[Hne Hor]|]; [left|by right]. split; [done|]. apply Hcpu in E0 as [[-> _]|[_ E0]]; [done|]. by simplify_eq.
  - intros c0 c1 u0 u1 E0 E1 Ei'. destruct (Hidl c0 u0 E0) as (v0 & F0 & G0). destruct (Hidl c1 u1 E1) as (v1 & F1 & G1).
    apply (si_idles0 c0 c1 v0 v1); congruence.
  - intros p z Ez Hz. assert (exists z', sc_procs s !! p = Some z' /\ pid z' = -1) as (z' & Ez' & Hz').
    { destruct (decide (p = cu_this u')) as [->|Hne]; [exists y; split; congruence|]. destruct (Hb _ _ Hne Ez) as (z' & Ez' & P1 & _). exists z'. split; congruence. }
    destruct (si_pid0 p z' Ez' Hz') as (c0 & u0 & E0 & <-). destruct (decide (c0 = c)) as [->|Hne]; [exists c, u'; split; congruence|].
    exists c0, u0. split; [by apply Hcpu'|done].
  - intros c0 u0 [[-> ->]|[Hne E0]]%Hcpu _.
    + exists y'. split_and!; try done. intros Hp. destruct Hid as [Hid|Hid]; congruence.
    + destruct (si_this0 c0 u0 E0) as (z & Ez & Hz & Hzi); [congruence|]. destruct (Hf _ _ (Hother _ _ E0 Hne) Ez) as (z' & Ez' & P1 & P2).
      exists z'. rewrite P1, P2. done.
  - intros c0 c1 u0 u1 [[-> ->]|[H0 E0]]%Hcpu [[-> ->]|[H1 E1]]%Hcpu _ _ E; [done| | |].
    + by destruct (Hother c1 u1 E1 H1).
    + by destruct (Hother c0 u0 E0 H0).
    + apply (si_alone0 c0 c1 u0 u1); congruence.
  - intros p z Ez Hz. destruct (decide (p = cu_this u')) as [->|Hne]; [by exists c, u'|].
    destruct (Hb _ _ Hne Ez) as (z' & Ez' & _ & P2 & _). destruct (si_running0 p z' Ez') as (c0 & u0 & E0 & H0 & E); [congruence|].
    exists c0, u0. split_and!; [|done|done]. apply Hcpu'; congruence.
  - intros p z Ez _ Hz. destruct (decide (p = cu_this u')) as [->|Hne].
    { simplify_eq. rewrite Hst', !elem_of_cons, elem_of_nil in Hz. intuition done. }
    destruct (Hb _ _ Hne Ez) as (z' & Ez' & _ & P2 & [[Hp P3]|]); [|done]. rewrite P3. apply (si_saved0 p z'); [done|congruence|by rewrite <- P2].
  - intros p. rewrite si_queue0. destruct (decide (p = cu_this u')) as [->|Hne].
    + split; intros (z & Ez & Hz & _); simplify_eq; [exists y'|exists y]; (split; [done|split; [congruence|]]); [rewrite Hst'; by right; left|rewrite Hst; by left].
    + split; intros (z & Ez & Hz & Hq).
      * destruct (Hf _ _ Hne Ez) as (z' & Ez' & P1 & P2). exists z'. by rewrite P1, P2.
      * destruct (Hb _ _ Hne Ez) as (z' & Ez' & P1 & P2 & _). exists z'. by rewrite <- P1, <- P2.
  - intros p z Ez. destruct (decide (p = cu_this u')) as [->|Hne]; [by eapply si_nodes0|]. destruct (Hb _ _ Hne Ez) as (z' & Ez' & _). by eapply si_nodes0.
  - intros c0 u0 [[-> ->]|[Hne E0]]%Hcpu; [done|by apply si_timers0].
Qed.
Lemma chosen_ext s1 s2 L c next : sc_procs s1 = sc_procs s2 -> sc_cpus s1 = sc_cpus s2 -> chosen s1 L c next -> chosen s2 L c next.
Proof. unfold chosen, best, candidate, load. by intros -> ->. Qed.

Lemma switched_same this x y ps :
  ps !! this = Some y -> x = set_state RUNNING y -> switched this this ps (<[this := x]> ps).
Proof.
  intros E ->. split.
  - exists y, (set_state RUNNING y). by rewrite lookup_insert_eq.
  - intros p z Hne Ez. exists z. by rewrite lookup_insert_ne.
  - intros p z Hne. rewrite lookup_insert_ne by done. intros Ez. exists z. split_and!; try done. by left.
Qed.

Lemma switched_other this next x y ps :
  ps !! next = Some y -> ps !! this = Some x -> next <> this ->
  switched this next ps (<[this := set_kcontext (Some AtSched) x]> (<[next := set_kcontext None (set_state RUNNING y)]> ps)).
Proof.
  intros Ey Ex Hne. split.
  - exists y, (set_kcontext None (set_state RUNNING y)). by rewrite lookup_insert_ne, lookup_insert_eq.
  - intros p z Hp Ez. destruct (decide (p = this)) as [->|Hpt]; [|exists z; by rewrite !lookup_insert_ne].
    simplify_eq. eexists. by rewrite lookup_insert_eq.
  - intros p z Hp. destruct (decide (p = this)) as [->|Hpt].
    + rewrite lookup_insert_eq. intros [= <-]. exists x. split_and!; try done. right. by eexists.
    + rewrite !lookup_insert_ne by done. intros Ez. exists z. split_and!; try done. by left.
Qed.

Lemma wp_dispatch s L c u this x next y :
  core (Some c) (Some this) s L -> sc_cpus s !! c = Some u -> sc_procs s !! this = Some x -> sc_procs s !! next = Some y -> state y = RUNNABLE ->
  (next = cu_idle u \/ pid y <> -1) ->
  wp (dispatch c next this) (fun _ s' => sc_lock s' = false /\ sched_inv s' L /\ (forall c', c' <> c -> sc_cpus s' !! c' = sc_cpus s !! c') /\
    (forall p, p <> this -> p <> next -> sc_procs s' !! p = sc_procs s !! p) /\
    (exists u', sc_cpus s' !! c = Some u' /\ cu_this u' = next) /\ sc_nodes s' = sc_nodes s /\ kin_procs (sc_procs s) (sc_procs s') /\
    (this <> next -> exists x', sc_procs s' !! this = Some x' /\ state x' = state x)) s.
Proof.
  intros H Eu Ex Ey Hst Hid. assert (c < length (sc_cpus s))%nat as Hc by (by apply lookup_lt_Some in Eu).
  unfold dispatch. apply wp_bind. eapply wp_mono; [apply (wp_update_this_proc s c u next Eu); by apply (si_timers _ _ _ _ H)|].
  intros [] ? (v & -> & Hv). apply wp_bind, (wp_proc_at _ _ y); [done|]. apply wp_bind, wp_assert; [apply has_state_spec; rewrite Hst; by left|].
  apply wp_bind, wp_modify.
  assert (forall ps' u', switched this next (sc_procs s) ps' -> kin_procs (sc_procs s) ps' -> (forall p, p <> this -> p <> next -> ps' !! p = sc_procs s !! p) -> cu_this u' = next -> cu_idle u' = cu_idle u -> timer_ready c (cu_timers u') ->
    forall s', s' = set_lock false (put_cpu c u' (set_procs ps' s)) -> sc_lock s' = false /\ sched_inv s' L /\
      (forall c', c' <> c -> sc_cpus s' !! c' = sc_cpus s !! c') /\ (forall p, p <> this -> p <> next -> sc_procs s' !! p = sc_procs s !! p) /\
      (exists u', sc_cpus s' !! c = Some u' /\ cu_this u' = next) /\ sc_nodes s' = sc_nodes s /\ kin_procs (sc_procs s) (sc_procs s') /\
      (this <> next -> exists x', sc_procs s' !! this = Some x' /\ state x' = state x)) as Hfin.
  { intros ps' u' Hsw Hkin Hps E1 E2 Htm s' ->. split_and!; [done| | |done| |done|done|].
    - destruct (core_enter s L c u this next y ps' u') as []; done.
    - intros c' Hne. by apply list_lookup_insert_ne.
    - exists u'. split; [|done]. by apply list_lookup_insert_eq.
    - intros Hne. destruct (sw_forth _ _ _ _ Hsw this x Hne Ex) as (x' & Ex' & _ & Est). by exists x'. }
  destruct (Z.eqb_spec next this) as [->|Hne]; cbn [negb].
  - apply wp_modify. apply (Hfin (<[this := set_state RUNNING y]> (sc_procs s)) (set_timers v (set_this this u))); try done; [by eapply switched_same|by eapply kin_insert|].
    intros p Hp _. by apply lookup_insert_ne.
  - destruct (si_saved _ _ _ _ H next y Ey) as [k Ek]; [congruence|rewrite Hst; by left|].
    apply wp_bind. apply wp_bind, (wp_cpu_at _ _ (set_timers v (set_this next u))); [by apply put_at|]. apply wp_modify.
    apply wp_bind. unfold swtch. apply wp_bind, (wp_proc_at _ _ (set_state RUNNING y)); [apply lookup_insert_eq|].
    apply wp_bind, (wp_deref _ k); [done|]. apply wp_bind, wp_modify.
    apply wp_bind, (wp_proc_at _ _ x); [simpl; by rewrite !lookup_insert_ne|]. apply wp_bind, wp_modify, wp_ret.
    match goal with |- wp _ _ ?e => set (s5 := e) end.
    assert (sc_lock (set_lock false s5) = false /\ sched_inv (set_lock false s5) L /\
      (forall c', c' <> c -> sc_cpus (set_lock false s5) !! c' = sc_cpus s !! c') /\
      (forall p, p <> this -> p <> next -> sc_procs (set_lock false s5) !! p = sc_procs s !! p) /\ (exists u', sc_cpus (set_lock false s5) !! c = Some u' /\ cu_this u' = next) /\
      sc_nodes (set_lock false s5) = sc_nodes s /\ kin_procs (sc_procs s) (sc_procs (set_lock false s5)) /\
      (this <> next -> exists x', sc_procs (set_lock false s5) !! this = Some x' /\ state x' = state x)) as Hdone.
    { eapply Hfin; [by apply (switched_other this next x y (sc_procs s))|..]. all: cycle 5.
      - unfold s5, put_cpu. cbn. rewrite list_insert_insert_eq, insert_insert_eq. reflexivity.
      - transitivity (<[next := set_kcontext None (set_state RUNNING y)]> (sc_procs s)); [by eapply kin_insert|].
        apply (kin_insert _ _ x); [by rewrite lookup_insert_ne|done].
      - intros p H1 H2. by rewrite !lookup_insert_ne.
      - done.
      - done.
      - done. }
    destruct k; by apply wp_modify.
Qed.
(** What [sched] leaves, called by the process of CPU [c]. *)
Definition scheduled (s : Sched) (L : list Z) (c : nat) (u : cpu) (x : Proc) (ns : procstate) (s' : Sched) : Prop :=
  sc_lock s' = false /\
  if killed x && negb (bool_decide (ns = ZOMBIE)) then s' = set_lock false s
  else exists L' u', sched_inv s' L' /\ (if decide (ns = RUNNABLE) then L' = L else without (cu_this u) L L') /\
    (forall c', c' <> c -> sc_cpus s' !! c' = sc_cpus s !! c') /\ sc_cpus s' !! c = Some u' /\
    (forall p, p <> cu_this u -> p <> cu_this u' -> sc_procs s' !! p = sc_procs s !! p) /\
    chosen (set_procs (<[cu_this u := set_state ns x]> (sc_procs s)) s) L' c (cu_this u') /\
    off_queue L s s' /\ kin_procs (sc_procs s) (sc_procs s') /\ (pid x <> -1 -> ns <> RUNNABLE -> ring (sc_nodes s') (rqnode (cu_this u)) []) /\
    (cu_this u' <> cu_this u -> exists x', sc_procs s' !! cu_this u = Some x' /\ state x' = ns).

Lemma wp_sched s L c u x ns :
  sched_inv s L -> sc_cpus s !! c = Some u -> sc_procs s !! cu_this u = Some x -> leaving ns -> (pid x = -1 -> ns = RUNNABLE) ->
  wp (sched c ns) (fun _ => scheduled s L c u x ns) s.
Proof.
  intros H Eu Ex Hns Hid. destruct (si_this _ _ _ _ H c u Eu) as (x' & Ex' & Hrun & _); [done|]. simplify_eq.
  unfold scheduled, sched, thisproc. apply wp_bind, wp_bind, (wp_cpu_at _ _ u); [done|]. apply wp_ret.
  apply wp_bind, (wp_proc_at _ _ x); [done|]. apply wp_bind, wp_assert; [apply has_state_spec; rewrite Hrun; by left|].
  destruct (killed x && negb (bool_decide (ns = ZOMBIE))); [by apply wp_modify|].
  apply wp_bind. eapply wp_mono; [by apply (wp_update_this_state s L c u x ns)|]. intros [] s1 (L1 & H1 & Ec1 & El1 & Ep1 & HL1 & Ho1 & Hs1).
  apply wp_bind. eapply wp_mono; [apply (wp_pick_next _ s1 L1 c u H1); by rewrite Ec1|].
  intros next s2 (Hch & H2 & Ec2 & El2 & En2 & Ep2 & y & y' & Ey & Ey' & Hst & Hor & Hy').
  assert (exists x2, sc_procs s2 !! cu_this u = Some x2) as [x2 Ex2].
  { destruct (decide (cu_this u = next)) as [->|Hne]; [eauto|]. rewrite Ep2, Ep1, lookup_insert_eq by done. eauto. }
  eapply wp_mono; [apply (wp_dispatch s2 L1 c u (cu_this u) x2 next y'); try done; by rewrite Ec2, Ec1|].
  intros [] s' (Hl & H' & Hoth & Hps & (u' & Eu' & Et') & En & Hkin & Hthis). split; [done|]. exists L1, u'. split_and!; try done.
  - intros c' Hne. rewrite Hoth by done. by rewrite Ec2, Ec1.
  - intros p Hp Hn. rewrite Et' in Hn. rewrite Hps, Ep2, Ep1 by done. by apply lookup_insert_ne.
  - rewrite Et'. eapply chosen_ext; [| |exact Hch]; [by rewrite Ep1|by rewrite Ec1].
  - unfold off_queue. by rewrite En, En2.
  - transitivity (sc_procs s2); [|done]. transitivity (sc_procs s1); [rewrite Ep1; by eapply kin_insert|].
    intros p. destruct (decide (p = next)) as [->|Hne]; [rewrite Ey, Ey', Hy'; by constructor|]. rewrite Ep2 by done. by destruct (sc_procs s1 !! p); constructor.
  - by rewrite En, En2.
  - rewrite Et'. intros Hne. destruct (Hthis) as (x' & Ex' & Est); [done|]. exists x'. split; [done|]. rewrite Est.
    rewrite Ep2, Ep1, lookup_insert_eq in Ex2 by done. by simplify_eq.
Qed.
(** C4: [sched] called with the lock held by the process of CPU [c] never fails
    an assertion, releases the lock and keeps the invariant: every CPU runs
    its own process, which is RUNNING, no process runs on two CPUs, the run
    queue holds exactly the processes that can run, and every process that may
    be switched to has a saved context. A killed process returns at once,
    unless it exits; else the CPU goes on with a runnable process of least
    load, the first such in the queue, or with its idle process. Only states,
    contexts and loads of processes change, and no list node outside the
    queue. *)
Theorem sched_spec s L c u x ns :
  sched_inv s L -> sc_cpus s !! c = Some u -> sc_procs s !! cu_this u = Some x -> leaving ns -> (pid x = -1 -> ns = RUNNABLE) ->
  wp (sched c ns) (fun _ => scheduled s L c u x ns) s.
Proof. apply wp_sched. Qed.

(** A process whose load has reached 1000000 is never chosen again, whatever
    else there is to run: it stays RUNNABLE with the same load through every
    call of [sched] by the others. Nothing lowers a load. *)
Theorem overloaded_never_runs s L c u x ns p z :
  sched_inv s L -> sc_cpus s !! c = Some u -> sc_procs s !! cu_this u = Some x -> leaving ns -> (pid x = -1 -> ns = RUNNABLE) ->
  sc_procs s !! p = Some z -> state z = RUNNABLE -> pid z <> -1 -> 1000000 <= timeload z ->
  wp (sched c ns) (fun _ s' => sc_procs s' !! p = Some z) s.
Proof.
  intros H Eu Ex Hns Hid Ez Hst Hpid Hload. destruct (si_this _ _ _ _ H c u Eu) as (x' & Ex' & Hrun & _); [done|]. simplify_eq.
  assert (p <> cu_this u) as Hpt by (intros ->; congruence).
  eapply wp_mono; [by apply (wp_sched s L c u x ns)|]. intros [] s' [_ Hs'].
  destruct (killed x && negb (bool_decide (ns = ZOMBIE))); [by subst s'|].
  destruct Hs' as (L' & u' & _ & _ & _ & _ & Hps & (b & u1 & Eu1 & Hb & Hn) & _). rewrite Hps; [done|done|]. intros ->. simplify_eq.
  destruct (decide (b = 0)) as [->|Hb0].
  - simpl in Hn. cbn [sc_cpus set_procs] in Eu1. simplify_eq. destruct (si_idle _ _ _ _ H c u Eu) as (y & Ey & Hy & _). congruence.
  - destruct Hb as [[? _]|(l1 & l2 & _ & (y & Ey & _ & Hlt) & _)]; [done|]. cbn [sc_procs set_procs] in Ey. rewrite Hn in *.
    rewrite lookup_insert_ne in Ey by done. simplify_eq. lia.
Qed.

(** ** Waking up *)

(** Does [_activate_proc] make the process runnable? *)
Definition wakes (x : Proc) (onalert : bool) : bool :=
  has_state x [SLEEPING; UNUSED] || (has_state x [DEEPSLEEPING] && negb onalert).

Lemma core_wake s L p x h' :
  sched_inv s L -> sc_procs s !! p = Some x -> pid x <> -1 -> state x ∈ [SLEEPING; UNUSED; DEEPSLEEPING] -> is_Some (kcontext x) ->
  ring h' rq (rqnode <$> p :: L) -> (forall n, is_Some (sc_nodes s !! n) -> is_Some (h' !! n)) ->
  sched_inv (set_nodes h' (set_procs (<[p := set_state RUNNABLE x]> (sc_procs s)) s)) (p :: L).
Proof.
  intros [] Ex Hp Hst Hk Hr Hh.
  assert (forall q y, <[p := set_state RUNNABLE x]> (sc_procs s) !! q = Some y -> q = p /\ y = set_state RUNNABLE x \/ q <> p /\ sc_procs s !! q = Some y) as Hback.
  { intros q y [[<- <-]|[? ?]]%lookup_insert_Some; [by left|right; by split]. }
  assert (state x <> RUNNING) as Hnr by (rewrite !elem_of_cons, elem_of_nil in Hst; intuition congruence).
  split; cbn [sc_cpus sc_procs sc_nodes set_procs set_nodes]; try done.
  - intros c u Eu. destruct (si_idle0 c u Eu) as (y & Ey & Hy & Hor). exists y. rewrite lookup_insert_ne; [done|]. intros E. rewrite <- E in Ey. congruence.
  - intros q y [[-> ->]|[_ Ey]]%Hback Hq; [done|]. by eapply si_pid0.
  - intros c u Eu Hh'. destruct (si_this0 c u Eu Hh') as (y & Ey & Hy). exists y. rewrite lookup_insert_ne; [done|]. intros E. rewrite <- E in Ey. destruct Hy. congruence.
  - intros q y [[-> ->]|[_ Ey]]%Hback Hq; [done|]. by eapply si_running0.
  - intros q y [[-> ->]|[_ Ey]]%Hback Hf Hq; [done|]. by eapply si_saved0.
  - intros q. rewrite elem_of_cons, si_queue0. split.
    + intros [->|(y & Ey & H1 & H2)].
      * exists (set_state RUNNABLE x). rewrite lookup_insert_eq. split_and!; try done. by left.
      * exists y. rewrite lookup_insert_ne; [done|]. intros <-. simplify_eq. rewrite !elem_of_cons, elem_of_nil in *. intuition congruence.
    + intros (y & [[-> ->]|[_ Ey]]%Hback & H1 & H2); [by left|right]. by exists y.
  - intros q y [[-> ->]|[_ Ey]]%Hback; [destruct (si_nodes0 p x Ex) as (? & ? & ? & ?)|destruct (si_nodes0 q y Ey) as (? & ? & ? & ?)]; split_and!; auto.
Qed.

Lemma wp_activate s L p x onalert :
  sched_inv s L -> sc_lock s = false -> sc_procs s !! p = Some x -> pid x <> -1 -> (state x = UNUSED -> is_Some (kcontext x)) ->
  wp (_activate_proc p onalert) (fun r s' => r = wakes x onalert /\ sc_lock s' = false /\
    if wakes x onalert then sched_inv s' (p :: L) /\ sc_procs s' = <[p := set_state RUNNABLE x]> (sc_procs s) /\ sc_cpus s' = sc_cpus s /\ off_queue (p :: L) s s'
    else s' = s) s.
Proof.
  intros H Hl Ex Hp Hun. unfold _activate_proc. apply wp_bind, wp_acquire; [done|].
  apply wp_bind, (wp_proc_at _ _ x); [done|]. unfold wakes.
  assert (has_state x [RUNNING; RUNNABLE; ZOMBIE] || (has_state x [DEEPSLEEPING] && onalert) = negb (wakes x onalert)) as ->.
  { unfold wakes, has_state. destruct (state x), onalert; reflexivity. }
  fold (wakes x onalert). destruct (wakes x onalert) eqn:Ew; cbn [negb].
  2: { apply wp_bind, wp_modify, wp_ret. split_and!; try done. destruct s; simpl in *; by subst. }
  assert (state x ∈ [SLEEPING; UNUSED; DEEPSLEEPING]) as Hst.
  { unfold wakes, has_state in Ew. destruct (state x), onalert; try done; by repeat constructor. }
  destruct (si_nodes _ _ _ _ H p x Ex) as (_ & Hn0 & Hnr & Hns).
  destruct (insert_alive (sc_nodes s) rq (rqnode <$> L) (rqnode p)) as (r & h' & Ei & Hr & Hh & Hoff); [apply (si_ring _ _ _ _ H)|done|done| |done|].
  { rewrite elem_of_cons, list_elem_of_fmap. intros [?|(q & Eq & Hq)]; [done|]. assert (q = p) as -> by (unfold rqnode in Eq; lia).
    apply (si_queue _ _ _ _ H) in Hq as (y & Ey & _ & Hy). simplify_eq. rewrite !elem_of_cons, elem_of_nil in *. intuition congruence. }
  apply wp_bind, wp_bind, wp_modify, wp_bind. eapply wp_on_nodes; [exact Ei|]. apply wp_ret, wp_bind, wp_modify, wp_ret. 
  assert (is_Some (kcontext x)) as Hk.
  { destruct (decide (state x = UNUSED)) as [Eu|Eu]; [by apply Hun|]. apply (si_saved _ _ _ _ H p x Ex); [done|].
    rewrite !elem_of_cons, elem_of_nil in *. intuition. }
  split_and!; try done.
  { by destruct (core_wake s L p x h' H Ex Hp Hst Hk Hr Hh). }
  intros n Hn Hnp. apply Hoff. rewrite elem_of_cons. intros [?|?]; done.
Qed.
(** [_activate_proc] of a process that is not idle: a process that sleeps
    (deeply only without [onalert]) or is new becomes RUNNABLE and goes to the
    front of the run queue, and the call returns true; else nothing changes
    and it returns false. The invariant is kept and the lock released. *)
Theorem activate_spec s L p x onalert :
  sched_inv s L -> sc_lock s = false -> sc_procs s !! p = Some x -> pid x <> -1 -> (state x = UNUSED -> is_Some (kcontext x)) ->
  wp (_activate_proc p onalert) (fun r s' => r = wakes x onalert /\ sc_lock s' = false /\
    if wakes x onalert then sched_inv s' (p :: L) /\ sc_procs s' = <[p := set_state RUNNABLE x]> (sc_procs s) /\ sc_cpus s' = sc_cpus s /\ off_queue (p :: L) s s'
    else s' = s) s.
Proof. apply wp_activate. Qed.

(** A new process, before it is started. *)
Lemma inv_new s L p x :
  sched_inv s L -> sc_procs s !! p = None -> state x = UNUSED -> pid x <> -1 ->
  p <> 0 -> rqnode p <> 0 -> rqnode p <> rq -> is_Some (sc_nodes s !! rqnode p) ->
  sched_inv (set_procs (<[p := x]> (sc_procs s)) s) L.
Proof.
  intros [] Ep Hst Hpid H1 H2 H3 H4.
  assert (forall q y, <[p := x]> (sc_procs s) !! q = Some y -> q = p /\ y = x \/ sc_procs s !! q = Some y) as Hback.
  { intros q y [[<- <-]|[? ?]]%lookup_insert_Some; [by left|by right]. }
  assert (forall q y, sc_procs s !! q = Some y -> <[p := x]> (sc_procs s) !! q = Some y) as Hforth.
  { intros q y Ey. rewrite lookup_insert_ne; [done|]. intros ->. congruence. }
  split; cbn [sc_cpus sc_procs sc_nodes set_procs]; try done.
  - intros c u Eu. destruct (si_idle0 c u Eu) as (y & Ey & Hy). exists y. split; [by apply Hforth|done].
  - intros q y [[-> ->]|Ey]%Hback Hq; [done|by eapply si_pid0].
  - intros c u Eu Hh. destruct (si_this0 c u Eu Hh) as (y & Ey & Hy). exists y. split; [by apply Hforth|done].
  - intros q y [[-> ->]|Ey]%Hback Hq; [congruence|by eapply si_running0].
  - intros q y [[-> ->]|Ey]%Hback Hf Hq; [|by eapply si_saved0]. rewrite Hst, !elem_of_cons, elem_of_nil in Hq. intuition done.
  - intros q. rewrite si_queue0. split.
    + intros (y & Ey & Hy). exists y. split; [by apply Hforth|done].
    + intros (y & [[-> ->]|Ey]%Hback & Hy & Hq); [|by exists y]. rewrite Hst, !elem_of_cons, elem_of_nil in Hq. intuition done.
  - intros q y [[-> ->]|Ey]%Hback; [done|by eapply si_nodes0].
Qed.

(** ** The timer interrupt *)

Lemma inv_put_timers s L c u v : sched_inv s L -> sc_cpus s !! c = Some u -> timer_ready c v -> sched_inv (put_cpu c (set_timers v u) s) L.
Proof.
  intros [] Eu Hv. assert (c < length (sc_cpus s))%nat as Hc by (by apply lookup_lt_Some in Eu).
  assert (forall c0 u0, sc_cpus (put_cpu c (set_timers v u) s) !! c0 = Some u0 -> exists u1, sc_cpus s !! c0 = Some u1 /\
    cu_this u1 = cu_this u0 /\ cu_idle u1 = cu_idle u0 /\ (c0 = c /\ cu_timers u0 = v \/ cu_timers u0 = cu_timers u1)) as Hb.
  { intros c0 u0. unfold put_cpu. simpl. destruct (decide (c0 = c)) as [->|Hne].
    - rewrite list_lookup_insert_eq by done. intros [= <-]. exists u. split_and!; try done. by left.
    - rewrite list_lookup_insert_ne by done. intros E. exists u0. split_and!; try done. by right. }
  assert (forall c0 u1, sc_cpus s !! c0 = Some u1 -> exists u0, sc_cpus (put_cpu c (set_timers v u) s) !! c0 = Some u0 /\
    cu_this u1 = cu_this u0 /\ cu_idle u1 = cu_idle u0) as Hf.
  { intros c0 u1 E1. unfold put_cpu. simpl. destruct (decide (c0 = c)) as [->|Hne].
    - rewrite list_lookup_insert_eq by done. eexists. split; [done|]. by simplify_eq.
    - rewrite list_lookup_insert_ne by done. by exists u1. }
  split; try done.
  - unfold put_cpu. simpl. by rewrite length_insert.
  - intros c0 u0 (u1 & E1 & <- & <- & _)%Hb. by apply si_idle0.
  - intros c0 c1 u0 u1 (v0 & E0 & _ & <- & _)%Hb (v1 & E1 & _ & <- & _)%Hb. by apply si_idles0.
  - intros p x Ex Hp. destruct (si_pid0 p x Ex Hp) as (c0 & u1 & E1 & <-). destruct (Hf c0 u1 E1) as (u0 & E0 & _ & ->). by exists c0, u0.
  - intros c0 u0 (u1 & E1 & <- & <- & _)%Hb. by apply si_this0.
  - intros c0 c1 u0 u1 (v0 & E0 & <- & _)%Hb (v1 & E1 & <- & _)%Hb. by apply si_alone0.
  - intros p x Ex Hp. destruct (si_running0 p x Ex Hp) as (c0 & u1 & E1 & Hh & <-). destruct (Hf c0 u1 E1) as (u0 & E0 & -> & _). by exists c0, u0.
  - intros c0 u0 (u1 & E1 & _ & _ & [[-> ->]| ->])%Hb; [done|by apply si_timers0].
Qed.

(** The scheduling interrupt, after [timer_clock_handler] has taken the timer
    out of the tree: [sched_timer_handler] resets the period, takes the lock
    and yields the CPU as [sched] does, without failing an assertion; a
    process that was killed goes on, with the timer left unarmed. *)
Theorem sched_tick s L c u x l t :
  sched_inv s L -> sc_lock s = false -> sc_cpus s !! c = Some u -> sc_procs s !! cu_this u = Some x -> 8 <= lim ->
  timers_ok freq timestamp lim (cu_timers u) l -> ct_timers (cu_timers u) !! sched_timer c = Some t -> triggered t = true -> sched_timer c ∉ l ->
  wp (sched_timer_handler c (sched_timer c)) (fun _ s' => exists s1 u1, scheduled s1 L c u1 x RUNNABLE s' /\ sched_inv s1 L /\
    sc_procs s1 = sc_procs s /\ cu_this u1 = cu_this u /\ ct_timers (cu_timers u1) !! sched_timer c = Some (set_elapse 8 t)) s.
Proof.
  intros H Hl Eu Ex Hlim Hok Et Htr Hnl. assert (c < length (sc_cpus s))%nat as Hc by (by apply lookup_lt_Some in Eu).
  assert (s = put_cpu c u s) as Es by (unfold put_cpu; rewrite list_insert_id by done; by destruct s).
  unfold sched_timer_handler. rewrite Es at 1. apply wp_bind, wp_on_timers; [done|]. apply wp_bind, wp_get_state, (wp_deref _ t); [done|].
  apply wp_bind, wp_on_timers; [done|]. apply wp_modify. set (v := with_timers _ _).
  change (set_timers v (set_timers (cu_timers u) u)) with (set_timers v u).
  destruct (to_node _ _ _ _ _ Hok _ _ Et) as (_ & _ & He & Hk).
  assert (timers_ok freq timestamp lim v l) as Hv by (apply (timers_ok_store freq timestamp lim (cu_timers u)); try done; simpl; lia).
  assert (sched_inv (put_cpu c (set_timers v u) s) L) as H1.
  { apply inv_put_timers; try done. exists l, (set_elapse 8 t). split_and!; [done|apply lookup_insert_eq|]. simpl. rewrite Htr. done. }
  set (s1 := put_cpu c (set_timers v u) s) in *. apply wp_bind, wp_acquire; [done|].
  assert (sched_inv (set_lock true s1) L) as H2 by (by destruct H1).
  eapply wp_mono; [apply (wp_sched (set_lock true s1) L c (set_timers v u) x RUNNABLE H2)|]; [by apply put_at|done|by left|done|].
  intros [] s' Hs'. exists (set_lock true s1), (set_timers v u). split_and!; try done. apply lookup_insert_eq.
Qed.

(** ** The start *)

(** Memory before [init_sched]: no processes, no pending timers, the nodes of
    the idle processes apart from the list head. *)
Record boot_ok (alloc : nat -> Z) (s : Sched) : Prop := {
  bo_procs : sc_procs s = ∅;
  bo_rq : is_Some (sc_nodes s !! rq);
  bo_alloc : forall i, (i < 4)%nat -> alloc i <> 0 /\ rqnode (alloc i) <> 0 /\ rqnode (alloc i) <> rq /\ is_Some (sc_nodes s !! rqnode (alloc i));
  bo_apart : forall i j, (i < 4)%nat -> (j < 4)%nat -> alloc i = alloc j -> i = j;
  bo_cpus : length (sc_cpus s) = Z.to_nat NCPU;
  bo_timers : forall c u, sc_cpus s !! c = Some u -> timers_ok freq timestamp lim (cu_timers u) [] /\ is_Some (ct_timers (cu_timers u) !! sched_timer c);
}.

(** A CPU list with one entry changed at each index. *)
Lemma wp_init_timers s n : (n <= length (sc_cpus s))%nat -> 8 <= lim ->
  (forall c u, sc_cpus s !! c = Some u -> timers_ok freq timestamp lim (cu_timers u) [] /\ is_Some (ct_timers (cu_timers u) !! sched_timer c)) ->
  wp (for_each n 0 (fun i => let c := Z.to_nat i in
    t ← on_timers c (timer_at (sched_timer c));
    on_timers c (store_timer (sched_timer c) (set_elapse 8 (set_triggered true t)))))
    (fun _ s' => exists us, s' = set_cpus us s /\ length us = length (sc_cpus s) /\
      (forall c u, us !! c = Some u -> timers_ok freq timestamp lim (cu_timers u) [] /\
         exists t, ct_timers (cu_timers u) !! sched_timer c = Some t /\ ((c < n)%nat -> triggered t = true))) s.
Proof.
  intros Hn Hlim H. eapply wp_mono; [apply (wp_for_each (fun i s' => exists us, s' = set_cpus us s /\ length us = length (sc_cpus s) /\
      (forall c u, us !! c = Some u -> timers_ok freq timestamp lim (cu_timers u) [] /\
         exists t, ct_timers (cu_timers u) !! sched_timer c = Some t /\ ((c < Z.to_nat i)%nat -> triggered t = true))))|].
  - exists (sc_cpus s). split_and!; [by destruct s|done|]. intros c u Eu. destruct (H c u Eu) as [H1 [t Ht]]. split; [done|]. exists t. split; [done|lia].
  - intros i s1 Hi (us & -> & Hlen & Hus). cbv zeta. set (c := Z.to_nat i).
    destruct (us !! c) as [u|] eqn:Eu. 2: { apply lookup_ge_None in Eu. lia. }
    destruct (Hus c u Eu) as [Hok (t & Et & _)].
    assert (set_cpus us s = put_cpu c u (set_cpus us s)) as Es. { unfold put_cpu. simpl. rewrite list_insert_id by done. done. }
    rewrite Es. apply wp_bind, wp_on_timers; [simpl; lia|]. apply wp_bind, wp_get_state, (wp_deref _ t); [done|].
    apply wp_on_timers; [simpl; lia|]. apply wp_modify. eexists. split; [unfold put_cpu; reflexivity|]. simpl. rewrite length_insert. split; [done|].
    intros c0 u0. destruct (decide (c0 = c)) as [->|Hne].
    + rewrite list_lookup_insert_eq by lia. intros [= <-]. cbn [cu_timers set_timers].
      destruct (to_node _ _ _ _ _ Hok _ _ Et) as (_ & _ & He & Hk). split.
      * apply (timers_ok_store freq timestamp lim (cu_timers u)); [done|by intros ?%elem_of_nil|done|simpl; lia|done].
      * simpl. rewrite lookup_insert_eq. eauto.
    + rewrite list_lookup_insert_ne by done. intros E0. destruct (Hus c0 u0 E0) as [H1 (t0 & Ht0 & Hb)]. split; [done|].
      exists t0. split; [done|]. intros Hc0. apply Hb. lia.
  - intros [] s' (us & -> & Hlen & Hus). exists us. split_and!; try done. intros c u Eu. destruct (Hus c u Eu) as [H1 (t & Ht & Hb)].
    split; [done|]. exists t. split; [done|]. intros Hc. apply Hb. lia.
Qed.
(** After [n] rounds of the second loop. *)
Definition idles (alloc : nat -> Z) (junk : nat -> Proc) (n : nat) (s s' : Sched) : Prop :=
  sc_lock s' = sc_lock s /\ sc_nodes s' = sc_nodes s /\ length (sc_cpus s') = length (sc_cpus s) /\
  (forall c u, sc_cpus s' !! c = Some u -> exists u0, sc_cpus s !! c = Some u0 /\ cu_timers u = cu_timers u0 /\
     ((c < n)%nat -> cu_this u = alloc c /\ cu_idle u = alloc c)) /\
  (forall p x, sc_procs s' !! p = Some x <-> exists c, (c < n)%nat /\ p = alloc c /\ x = idle_proc (junk c)).

Lemma wp_init_idles alloc junk s :
  length (sc_cpus s) = Z.to_nat NCPU -> sc_procs s = ∅ -> (forall i j, (i < 4)%nat -> (j < 4)%nat -> alloc i = alloc j -> i = j) ->
  wp (for_each (Z.to_nat NCPU) 0 (fun i => let c := Z.to_nat i in let p := alloc c in
    store_proc p (idle_proc (junk c)) ;; u ← cpu_at c; store_cpu c (mkCpu p p (cu_ttbr0 u) (cu_timers u))))
    (fun _ => idles alloc junk 4 s) s.
Proof.
  intros Hlen Hps Hinj. apply (wp_for_each (fun i => idles alloc junk (Z.to_nat i) s)).
  - split_and!; try done.
    + intros c u Eu. exists u. split_and!; try done. lia.
    + intros p x. rewrite Hps, lookup_empty. split; [done|]. intros (c & ? & _). lia.
  - intros i s1 Hi (I1 & I2 & I3 & I4 & I5). cbv zeta. set (c := Z.to_nat i). change (Z.to_nat NCPU) with 4%nat in Hlen, Hi.
    apply wp_bind, wp_modify. destruct (sc_cpus s1 !! c) as [u|] eqn:Eu. 2: { apply lookup_ge_None in Eu. lia. }
    apply wp_bind, (wp_cpu_at _ _ u); [done|]. apply wp_modify. split_and!; try done.
    + simpl. by rewrite length_insert.
    + intros c0 u0. simpl. destruct (decide (c0 = c)) as [->|Hne].
      * rewrite list_lookup_insert_eq by lia. intros [= <-]. destruct (I4 c u Eu) as (v & Ev & Et & _). by exists v.
      * rewrite list_lookup_insert_ne by done. intros E0. destruct (I4 c0 u0 E0) as (v & Ev & Et & Hb). exists v. split_and!; try done. intros Hc. apply Hb. lia.
    + intros p x. simpl. destruct (decide (p = alloc c)) as [->|Hne].
      * rewrite lookup_insert_eq. split; [intros [= <-]; exists c; split_and!; [lia|done|done]|].
        intros (c0 & Hc0 & Ea & ->). assert (c0 = c) as -> by (apply Hinj; [lia|lia|done]). done.
      * rewrite lookup_insert_ne by done. rewrite I5. split; intros (c0 & Hc0 & Ea & Ex); exists c0; (split_and!; [|done|done]); [lia|].
        assert (c0 <> c) by (intros ->; done). lia.
Qed.

Lemma wp_init_sched alloc junk s :
  boot_ok alloc s -> 8 <= lim -> wp (init_sched alloc junk) (fun _ s' => sched_inv s' [] /\ sc_lock s' = false) s.
Proof.
  intros [] Hlim. unfold init_sched. apply wp_bind.
  destruct (init_list_node_spec (sc_nodes s) rq bo_rq0) as (h & Eh & Hr & Hf).
  eapply wp_on_nodes; [by rewrite Eh|]. apply wp_bind, wp_modify, wp_bind.
  eapply wp_mono; [apply wp_init_timers; [simpl; lia|done|done]|]. intros [] s1 (us & -> & Hlen & Hus).
  assert (forall i, (i < 4)%nat -> is_Some (h !! rqnode (alloc i))) as Hn.
  { intros i Hi. destruct (bo_alloc0 i Hi) as (_ & _ & Hne & Hs). destruct (Hf _ Hne) as [Fn _].
    apply (fmap_is_Some next). unfold get_next in Fn. rewrite Fn. by apply fmap_is_Some. }
  eapply wp_mono; [apply wp_init_idles; [simpl in *; congruence|done|done]|].
  intros [] s' (I1 & I2 & I3 & I4 & I5). split; [|done]. cbn [sc_nodes sc_cpus sc_lock set_cpus set_lock set_nodes] in *.
  assert (length (sc_cpus s') = 4%nat) as Hl4 by (rewrite I3, Hlen; done).
  assert (forall c u, sc_cpus s' !! c = Some u -> (c < 4)%nat /\ cu_this u = alloc c /\ cu_idle u = alloc c /\ sc_procs s' !! alloc c = Some (idle_proc (junk c))) as Hc.
  { intros c u Eu. assert (c < 4)%nat by (apply lookup_lt_Some in Eu; lia). destruct (I4 c u Eu) as (u0 & _ & _ & Hb). destruct (Hb ltac:(done)).
    split_and!; try done. apply I5. by exists c. }
  assert (forall c, (c < 4)%nat -> exists u, sc_cpus s' !! c = Some u) as Hc'.
  { intros c Hc4. apply lookup_lt_is_Some. lia. }
  split; try done.
  - intros c u Eu. destruct (Hc c u Eu) as (H1 & H2 & H3 & H4). exists (idle_proc (junk c)). rewrite H3. split_and!; try done. left. by rewrite H2.
  - intros c c' u u' Eu Eu'. destruct (Hc c u Eu) as (H1 & _ & -> & _). destruct (Hc c' u' Eu') as (H1' & _ & -> & _). by apply bo_apart0.
  - intros p x (c & Hc4 & -> & ->)%I5 _. destruct (Hc' c Hc4) as [u Eu]. exists c, u. by destruct (Hc c u Eu) as (_ & _ & ? & _).
  - intros c u Eu _. destruct (Hc c u Eu) as (H1 & H2 & H3 & H4). exists (idle_proc (junk c)). rewrite H2, H3. by split_and!.
  - intros c c' u u' Eu Eu' _ _. destruct (Hc c u Eu) as (H1 & -> & _). destruct (Hc c' u' Eu') as (H1' & -> & _). by apply bo_apart0.
  - intros p x (c & Hc4 & -> & ->)%I5 _. destruct (Hc' c Hc4) as [u Eu]. exists c, u. by destruct (Hc c u Eu) as (_ & ? & _).
  - intros p x (c & Hc4 & -> & ->)%I5 _ Hst. rewrite !elem_of_cons, elem_of_nil in Hst. simpl in Hst. intuition done.
  - by rewrite I2.
  - intros p. split; [by intros ?%elem_of_nil|]. intros (x & (c & _ & _ & ->)%I5 & Hp & _). done.
  - intros p x (c & Hc4 & -> & ->)%I5. rewrite I2. destruct (bo_alloc0 c Hc4) as (? & ? & ? & _). split_and!; try done. by apply Hn.
  - intros c u Eu. destruct (I4 c u Eu) as (u0 & Eu0 & -> & _). destruct (Hus c u0 Eu0) as (Hok & t & Et & Htr).
    exists [], t. split_and!; try done. rewrite Htr. 2: { apply lookup_lt_Some in Eu. change (Z.to_nat NCPU) with 4%nat. lia. }
    split; [done|by intros ?%elem_of_nil].
Qed.
(** [init_sched] establishes the invariant: every CPU runs its idle process
    and the run queue is empty. *)
Theorem init_sched_spec alloc junk s :
  boot_ok alloc s -> 8 <= lim -> wp (init_sched alloc junk) (fun _ s' => sched_inv s' [] /\ sc_lock s' = false) s.
Proof. apply wp_init_sched. Qed.
End kernel.

(** ** Concrete instances *)

Definition example_timer (c : nat) : Z := 64 * Z.of_nat c + 8.
Definition example_cpu (c : nat) : cpu :=
  mkCpu 0 0 0 (mkCpuTimers {[example_timer c := mkTimer false 0 0 0]} (mkRbTree {[example_timer c := mkRb 0 0 0]} 0) 0 0).
Definition example_alloc (i : nat) : Z := 4096 * (Z.of_nat i + 1).
Definition example_junk (i : nat) : Proc := mkProc false false 0 0 UNUSED 0 0 None 0.
Definition example_nodes : heap :=
  {[1000 := mkNode 0 0; rqnode (example_alloc 0) := mkNode 0 0; rqnode (example_alloc 1) := mkNode 0 0;
    rqnode (example_alloc 2) := mkNode 0 0; rqnode (example_alloc 3) := mkNode 0 0; rqnode (example_alloc 4) := mkNode 0 0]}.
Definition example_boot : Sched := mkSched false ∅ example_nodes [example_cpu 0; example_cpu 1; example_cpu 2; example_cpu 3].

Lemma example_cpu_timers c :
  timers_ok 62500000 example_clock 5000 (cu_timers (example_cpu c)) [] /\ is_Some (ct_timers (cu_timers (example_cpu c)) !! example_timer c).
Proof.
  cbn [example_cpu cu_timers ct_timers]. split; [|rewrite lookup_singleton_eq; eauto]. split; cbn [ct_timers ct_tree ct_reads rb_heap].
  - exists Leaf. split; [|done]. split; [by split|constructor|constructor|by exists 0%nat; constructor|done|constructor].
  - intros a x [<- <-]%lookup_singleton_Some. split; [split; [unfold example_timer; lia|]|].
    + unfold example_timer. replace (64 * Z.of_nat c + 8) with ((16 * Z.of_nat c + 2) * 4) by lia. by apply Z.mod_mul.
    + rewrite lookup_singleton_eq. split; [eauto|]. change (ms 62500000 example_clock 0) with 0. simpl. lia.
  - by intros a ?%elem_of_nil.
Qed.

Lemma example_boot_ok : boot_ok 62500000 example_clock 1000 example_timer 5000 example_alloc example_boot.
Proof.
  split; try done.
  - intros i Hi. do 4 (destruct i as [|i]; [split_and!; [done|done|done|eexists; vm_compute; reflexivity]|]). lia.
  - unfold example_alloc. lia.
  - intros c u Eu. assert (u = example_cpu c) as -> by (do 4 (destruct c as [|c]; [by injection Eu as <-|]); by destruct c).
    apply example_cpu_timers.
Qed.

Abbreviation ex_inv := (sched_inv 62500000 example_clock 1000 example_timer 5000).

Lemma init_sched_spec_witness :
  wp (init_sched 1000 example_timer example_alloc example_junk) (fun _ s' => ex_inv s' [] /\ sc_lock s' = false) example_boot.
Proof.
  apply (init_sched_spec 62500000 example_clock 1000 example_timer 5000 example_alloc example_junk example_boot example_boot_ok). lia.
Defined.

(** After the start, with a new process at 20480 that has a high load. *)
Definition example_started : Sched :=
  match init_sched 1000 example_timer example_alloc example_junk example_boot with Done _ s => s | _ => example_boot end.
Definition example_proc : Proc := mkProc false false 1 0 UNUSED 0 0 (Some (AtEntry 0 0)) 1000000.
Definition example_new : Sched := set_procs (<[20480 := example_proc]> (sc_procs example_started)) example_started.
Definition example_woken : Sched :=
  match _activate_proc 1000 20480 false example_new with Done _ s => s | _ => example_new end.
Definition example_this (s : Sched) : cpu := default (example_cpu 0) (sc_cpus s !! 0%nat).
Definition example_idle : Proc := idle_proc (example_junk 0).

Lemma example_started_inv : ex_inv example_started [] /\ sc_lock example_started = false.
Proof.
  pose proof (wp_init_sched 62500000 example_clock 1000 example_timer 5000 example_alloc example_junk example_boot example_boot_ok ltac:(lia)) as H.
  unfold wp in H. unfold example_started. by destruct (init_sched 1000 example_timer example_alloc example_junk example_boot).
Qed.

Lemma example_new_inv : ex_inv example_new [].
Proof.
  apply inv_new; [apply example_started_inv|vm_compute; reflexivity|done..|eexists; vm_compute; reflexivity].
Qed.

Lemma example_woken_inv : ex_inv example_woken [20480].
Proof.
  pose proof (wp_activate 62500000 example_clock 1000 example_timer 5000 example_clock_ok ltac:(lia) example_new [] 20480 example_proc false example_new_inv ltac:(vm_compute; reflexivity)
    ltac:(vm_compute; reflexivity) ltac:(done) ltac:(by eexists)) as H. unfold wp in H. unfold example_woken.
  destruct (_activate_proc 1000 20480 false example_new) as [r s'| | |]; try done. by destruct H as (_ & _ & H & _).
Qed.

Lemma activate_spec_witness :
  wp (_activate_proc 1000 20480 false) (fun r s' => r = true /\ sc_lock s' = false /\
    (ex_inv s' [20480] /\ sc_procs s' = <[20480 := set_state RUNNABLE example_proc]> (sc_procs example_new) /\ sc_cpus s' = sc_cpus example_new /\ off_queue 1000 [20480] example_new s')) example_new.
Proof.
  apply (activate_spec 62500000 example_clock 1000 example_timer 5000 example_clock_ok ltac:(lia) example_new [] 20480 example_proc false example_new_inv).
  - vm_compute. reflexivity.
  - vm_compute. reflexivity.
  - done.
  - intros _. by eexists.
Defined.

Lemma sched_spec_witness :
  wp (sched 62500000 example_clock 1000 0 example_timer 0 RUNNABLE)
    (fun _ => scheduled 62500000 example_clock 1000 example_timer 5000 example_woken [20480] 0 (example_this example_woken) example_idle RUNNABLE) example_woken.
Proof.
  apply (sched_spec 62500000 example_clock 1000 0 example_timer 5000 example_clock_ok ltac:(lia) example_woken [20480] 0 (example_this example_woken) example_idle RUNNABLE example_woken_inv).
  - vm_compute. reflexivity.
  - vm_compute. reflexivity.
  - left.
  - intros _. reflexivity.
Defined.

Lemma overloaded_never_runs_witness :
  wp (sched 62500000 example_clock 1000 0 example_timer 0 RUNNABLE)
    (fun _ s' => sc_procs s' !! 20480 = Some (set_state RUNNABLE example_proc)) example_woken.
Proof.
  apply (overloaded_never_runs 62500000 example_clock 1000 0 example_timer 5000 example_clock_ok ltac:(lia) example_woken [20480] 0 (example_this example_woken) example_idle RUNNABLE 20480
    (set_state RUNNABLE example_proc) example_woken_inv).
  - vm_compute. reflexivity.
  - vm_compute. reflexivity.
  - left.
  - intros _. reflexivity.
  - vm_compute. reflexivity.
  - reflexivity.
  - done.
  - done.
Defined.

(** No timer is pending on CPU 0. *)
Lemma example_idle_timers : timers_ok 62500000 example_clock 5000 (cu_timers (example_this example_woken)) [].
Proof.
  destruct (si_timers _ _ _ _ _ _ _ _ _ example_woken_inv 0 (example_this example_woken)) as (l & t & Hl & _); [vm_compute; reflexivity|].
  destruct (to_tree _ _ _ _ _ Hl) as (tr & [[_ Hr] _ Ha _ _ _] & El). destruct tr as [|c1 l1 a r1]; [by subst l|].
  vm_compute in Hr. subst a. rewrite Forall_forall in Ha. destruct (Ha 0); [simpl; set_solver|lia].
Qed.

Lemma sched_tick_witness :
  wp (sched_timer_handler 62500000 example_clock 1000 0 example_timer 0 (example_timer 0)) (fun _ s' => exists s1 u1,
    scheduled 62500000 example_clock 1000 example_timer 5000 s1 [20480] 0 u1 example_idle RUNNABLE s' /\ ex_inv s1 [20480] /\
    sc_procs s1 = sc_procs example_woken /\ cu_this u1 = cu_this (example_this example_woken) /\
    ct_timers (cu_timers u1) !! example_timer 0 = Some (set_elapse 8 (mkTimer true 8 0 0))) example_woken.
Proof.
  apply (sched_tick 62500000 example_clock 1000 0 example_timer 5000 example_clock_ok ltac:(lia) example_woken [20480] 0 (example_this example_woken) example_idle [] (mkTimer true 8 0 0) example_woken_inv).
  - vm_compute. reflexivity.
  - vm_compute. reflexivity.
  - vm_compute. reflexivity.
  - lia.
  - exact example_idle_timers.
  - vm_compute. reflexivity.
  - reflexivity.
  - by intros ?%elem_of_nil.
Defined.
