(* ===== verification/Proc.v ===== *)
(** Processes (src/kernel/proc.c).

    The state adds to that of the scheduler the process lock, the last pid and
    the fields of a process the scheduler does not use. The tree of processes
    is in the list nodes [children] and [ptnode], in the heap of nodes of the
    run queue. Results of the allocators are arguments; the calls made to the
    memory, page-table and file components are recorded in [ps_calls], in
    order; of [file_close] the model also has whether it uses the scheduler. [wait] is cut where it sleeps: [wait] runs to its end or to the
    switch, [wait_resume] is the rest. *)
From Stdlib Require Import ZArith Lia.
From stdpp Require Import base numbers gmap list.
From S2P Require Import Prelude Sync ListNode Mem RbTree RbInsert RbErase Timer Sched.

Inductive call :=
| Init_pgdir (p : Z)
| Kfree (p : Z) | Kfree_page (p : Z)
| Free_pgdir (p : Z) | Copy_pgdir (from to : Z)
| File_close (f : Z) | File_dup (f : Z) | Inode_share (ip : Z).

(** The other fields of [struct Proc]; [ucontext] are the words of the trap
    frame (the vector register, spsr, elr, sp, tpidr0 and x0 to x31). *)
Record Ext := mkExt {
  childexit : Sem.Semaphore;
  kstack : Z;
  ucontext : list Z;
  openfiles : list Z;
  cwd : Z;
}.
Definition NWORDS : nat := 38.
Definition X0 : nat := 6.
Definition NOPENFILE : nat := 128.

Definition set_childexit (v : Sem.Semaphore) (e : Ext) : Ext := mkExt v (kstack e) (ucontext e) (openfiles e) (cwd e).
Definition set_ucontext (v : list Z) (e : Ext) : Ext := mkExt (childexit e) (kstack e) v (openfiles e) (cwd e).
Definition set_openfiles (v : list Z) (e : Ext) : Ext := mkExt (childexit e) (kstack e) (ucontext e) v (cwd e).
Definition set_cwd (v : Z) (e : Ext) : Ext := mkExt (childexit e) (kstack e) (ucontext e) (openfiles e) v.

Definition set_exitcode (v : Z) (p : Proc) : Proc :=
  mkProc (killed p) (idle p) (pid p) v (state p) (parent p) (pt p) (kcontext p) (timeload p).
Definition set_parent (v : Z) (p : Proc) : Proc :=
  mkProc (killed p) (idle p) (pid p) (exitcode p) (state p) v (pt p) (kcontext p) (timeload p).
Definition set_pt (v : Z) (p : Proc) : Proc :=
  mkProc (killed p) (idle p) (pid p) (exitcode p) (state p) (parent p) v (kcontext p) (timeload p).

(** [up] is [wait->up] of the process that is inside [_wait_sem]. *)
Record PS := mkPS {
  ps_sched : Sched;
  ps_lock : bool;            (* processlock *)
  ps_max_pid : Z;
  ps_ext : gmap Z Ext;
  ps_up : gmap Z bool;
  ps_calls : list call;
}.
Definition set_sched (v : Sched) (s : PS) : PS := mkPS v (ps_lock s) (ps_max_pid s) (ps_ext s) (ps_up s) (ps_calls s).
Definition set_plock (v : bool) (s : PS) : PS := mkPS (ps_sched s) v (ps_max_pid s) (ps_ext s) (ps_up s) (ps_calls s).
Definition set_max_pid (v : Z) (s : PS) : PS := mkPS (ps_sched s) (ps_lock s) v (ps_ext s) (ps_up s) (ps_calls s).
Definition set_ext (v : gmap Z Ext) (s : PS) : PS := mkPS (ps_sched s) (ps_lock s) (ps_max_pid s) v (ps_up s) (ps_calls s).
Definition set_up (v : gmap Z bool) (s : PS) : PS := mkPS (ps_sched s) (ps_lock s) (ps_max_pid s) (ps_ext s) v (ps_calls s).
Definition add_call (v : call) (s : PS) : PS := mkPS (ps_sched s) (ps_lock s) (ps_max_pid s) (ps_ext s) (ps_up s) (ps_calls s ++ [v]).

Abbreviation T := (M PS).

Definition on_sched {A} (m : M Sched A) : T A := zoom ps_sched set_sched m.
Definition acquire_plock : T unit := fun s => if ps_lock s then Blocked s else Done tt (set_plock true s).
Definition release_plock : T unit := modify (set_plock false).
Definition ext_at (p : Z) : T Ext := s ← get_state; deref (ps_ext s !! p).
Definition store_ext (p : Z) (e : Ext) : T unit := modify (fun s => set_ext (<[p := e]> (ps_ext s)) s).
Definition calls (v : call) : T unit := modify (add_call v).

(** Offsets of the list nodes in [struct Proc]. *)
Definition children (p : Z) : Z := p + 40.
Definition ptnode (p : Z) : Z := p + 56.
Definition proc_of_ptnode (n : Z) : Z := n - 56.
Definition sizeof_Proc : Z := 1208.

Section kernel.
(** See Sched.v; [root_proc] is the address of the first process. *)
Context (freq : Z) (timestamp : nat -> Z) (rq invalid_pt : Z) (sched_timer : nat -> Z) (root_proc : Z).

Definition thisproc (c : nat) : T Z := on_sched (Sched.thisproc c).
Definition read_proc (p : Z) : T Proc := on_sched (proc_at p).
Definition write_proc (p : Z) (x : Proc) : T unit := on_sched (store_proc p x).

(** [++max_pid] on an [int] is undefined at its greatest value. *)
Definition MAX_INT : Z := 2 ^ 31 - 1.

(** [init_proc(p)], with the pages [kstk] and [pgt] from [kalloc_page]. *)
Definition init_proc (p kstk pgt : Z) : T unit :=
  acquire_plock ;;
  on_sched (modify (fun s => Sched.set_nodes (<[children p := mkNode 0 0]> (<[ptnode p := mkNode 0 0]> (<[rqnode p := mkNode 0 0]> (sc_nodes s)))) s)) ;;
  s ← get_state;
  let pid := ps_max_pid s + 1 in
  (if MAX_INT <=? ps_max_pid s then undefined else modify (set_max_pid pid)) ;;
  write_proc p (mkProc false false pid 0 UNUSED 0 pgt None 0) ;;
  on_sched (on_nodes (fun h => pair tt <$> init_list_node h (children p))) ;;
  on_sched (on_nodes (fun h => pair tt <$> init_list_node h (ptnode p))) ;;
  on_sched (init_schinfo p) ;;
  calls (Init_pgdir p) ;;
  store_ext p (mkExt (Sem.init_sem 0) kstk (replicate NWORDS 0) (replicate NOPENFILE 0) 0) ;;
  release_plock.

(** [create_proc()], with [p] from [kalloc]. *)
Definition create_proc (p kstk pgt : Z) : T Z := init_proc p kstk pgt ;; mret p.

Definition set_parent_to_this (c : nat) (proc : Z) : T unit :=
  acquire_plock ;;
  x ← read_proc proc;
  ASSERT (parent x =? 0) ;;
  this ← thisproc c;
  write_proc proc (set_parent this x) ;;
  on_sched (on_nodes (fun h => _insert_into_list h (children this) (ptnode proc))) ;;
  release_plock.

Definition start_proc (p entry arg : Z) : T Z :=
  acquire_plock ;;
  x ← read_proc p;
  (if parent x =? 0 then
     write_proc p (set_parent root_proc x) ;;
     on_sched (on_nodes (fun h => _insert_into_list h (children root_proc) (ptnode p))) ;; mret tt
   else mret tt) ;;
  x ← read_proc p;
  write_proc p (set_kcontext (Some (AtEntry entry arg)) x) ;;
  on_sched (_activate_proc rq p false) ;;
  release_plock ;;
  x ← read_proc p;
  mret (pid x).

(** [kernel_entry] is the address of the function the root process runs. *)
Definition init_kproc (kernel_entry kstk pgt : Z) : T unit :=
  release_plock ;;
  init_proc root_proc kstk pgt ;;
  x ← read_proc root_proc;
  write_proc root_proc (set_parent root_proc x) ;;
  start_proc root_proc kernel_entry 123456 ;;
  mret tt.

(** [post_sem(&p->childexit)]; the sleeper is woken by [activate_proc]. *)
Definition post_childexit (p : Z) : T unit :=
  e ← ext_at p;
  match Sem._post_sem (childexit e) with
  | None => PANIC
  | Some (w, sem) =>
      store_ext p (set_childexit sem e) ;;
      match w with
      | Some q => modify (fun s => set_up (<[q := true]> (ps_up s)) s) ;; on_sched (_activate_proc rq q false) ;; mret tt
      | None => mret tt
      end
  end.

(** [wait_sem(&this->childexit)], once the process runs again: [wait->up]. *)
Definition wait_sem_leave (this : Z) : T bool :=
  s ← get_state;
  up ← deref (ps_up s !! this);
  e ← ext_at this;
  match Sem._wait_sem_leave this up (childexit e) with
  | None => PANIC
  | Some (r, sem) =>
      store_ext this (set_childexit sem e) ;;
      modify (fun s => set_up (delete this (ps_up s)) s) ;;
      mret r
  end.

(** Its start: [None] when the CPU went to another process. *)
Definition wait_sem (c : nat) : T (option bool) :=
  this ← thisproc c;
  e ← ext_at this;
  let '(got, sem) := Sem._wait_sem_enter this (childexit e) in
  store_ext this (set_childexit sem e) ;;
  if got : bool then mret (Some true)
  else
    modify (fun s => set_up (<[this := false]> (ps_up s)) s) ;;
    on_sched acquire_sched_lock ;;
    on_sched (sched freq timestamp rq invalid_pt sched_timer c SLEEPING) ;;
    this' ← thisproc c;
    if this' =? this then r ← wait_sem_leave this; mret (Some r) else mret None.

(** [_for_in_list(p, &this->children)]: the nodes it visits. *)
Definition child_nodes (this : Z) : T (list Z) :=
  on_sched (on_nodes (fun h => n ← get_next h (children this); l ← for_in_list (S (size h)) h (children this) n; Some (l, h))).

Fixpoint find_zombie (this : Z) (nodes : list Z) : T Z :=
  match nodes with
  | [] => mret 0
  | n :: nodes' =>
      if n =? children this then find_zombie this nodes'
      else
        x ← read_proc (proc_of_ptnode n);
        if has_state x [ZOMBIE] then mret (proc_of_ptnode n) else find_zombie this nodes'
  end.

(** The end of [wait]: the pid and exit code of a zombie child, which is freed;
    -1 when there is none. The exit code is then not written. *)
Definition wait_reap (this : Z) : T (Z * option Z) :=
  acquire_plock ;;
  on_sched acquire_sched_lock ;;
  nodes ← child_nodes this;
  z ← find_zombie this nodes;
  r ← (if negb (z =? 0) then
         x ← read_proc z;
         e ← ext_at z;
         on_sched release_sched_lock ;;
         on_sched acquire_sched_lock ;;
         on_sched (on_nodes (fun h => _detach_from_list h (ptnode z))) ;;
         on_sched (on_nodes (fun h => _detach_from_list h (rqnode z))) ;;
         calls (Kfree_page (kstack e)) ;;
         calls (Kfree z) ;;
         on_sched (modify (fun s => set_procs (delete z (sc_procs s))
           (Sched.set_nodes (delete (children z) (delete (ptnode z) (delete (rqnode z) (sc_nodes s)))) s))) ;;
         modify (fun s => set_ext (delete z (ps_ext s)) s) ;;
         mret (pid x, Some (exitcode x))
       else mret (-1, None));
  on_sched release_sched_lock ;;
  release_plock ;;
  mret r.

Definition wait (c : nat) : T (option (Z * option Z)) :=
  acquire_plock ;;
  this ← thisproc c;
  n ← on_sched (on_nodes (fun h => n ← get_next h (children this); Some (n, h)));
  if n =? children this then release_plock ;; mret (Some (-1, None))
  else
    release_plock ;;
    r ← wait_sem c;
    match r with
    | None => mret None
    | Some false => mret (Some (-1, None))
    | Some true => x ← wait_reap this; mret (Some x)
    end.

Definition wait_resume (c : nat) : T (Z * option Z) :=
  this ← thisproc c;
  r ← wait_sem_leave this;
  if r : bool then wait_reap this else mret (-1, None).

(** The loop of [exit] over the children. *)
Fixpoint reparent (this : Z) (nodes : list Z) : T unit :=
  match nodes with
  | [] => mret tt
  | n :: nodes' =>
      (if n =? children this then mret tt
       else
         let child := proc_of_ptnode n in
         x ← read_proc child;
         write_proc child (set_parent root_proc x) ;;
         if has_state x [ZOMBIE] then
           on_sched release_sched_lock ;; post_childexit root_proc ;; on_sched acquire_sched_lock
         else mret tt) ;;
      reparent this nodes'
  end.

(** The children go to the front of the list of the root. *)
Definition give_children (this : Z) : T unit :=
  n ← on_sched (on_nodes (fun h => n ← get_next h (children this); Some (n, h)));
  if negb (n =? children this) then
    on_sched (on_nodes (fun h => _merge_list h (children root_proc) n)) ;;
    on_sched (on_nodes (fun h => _detach_from_list h (children this))) ;; mret tt
  else mret tt.

(** [file_close] of descriptor [i] wakes a process or waits for the disk: it is the
    last reference to a pipe with a sleeper at its other end, or to an inode in
    the last operation in progress, whose [end_op] writes to the disk. Both take the lock of the scheduler, which
    [exit] holds. *)
Context (close_wakes : nat -> bool).

Fixpoint close_files (this : Z) (n : nat) (i : nat) : T unit :=
  match n with
  | O => mret tt
  | S n' =>
      e ← ext_at this;
      f ← deref (openfiles e !! i);
      (if negb (f =? 0) then
         calls (File_close f) ;;
         (if close_wakes i then on_sched acquire_sched_lock ;; on_sched release_sched_lock else mret tt) ;;
         store_ext this (set_openfiles (<[i := 0]> (openfiles e)) e)
       else mret tt) ;;
      close_files this n' (S i)
  end.

(** The rest of [exit], once the children have a new parent. *)
Definition exit_rest (c : nat) (this : Z) : T unit :=
  close_files this NOPENFILE 0 ;;
  on_sched release_sched_lock ;;
  release_plock ;;
  acquire_plock ;;
  on_sched acquire_sched_lock ;;
  calls (Free_pgdir this) ;;
  x ← read_proc this;
  write_proc this (set_pt 0 x) ;;
  on_sched release_sched_lock ;;
  post_childexit (parent x) ;;
  on_sched acquire_sched_lock ;;
  release_plock ;;
  on_sched (sched freq timestamp rq invalid_pt sched_timer c ZOMBIE) ;;
  this' ← thisproc c;
  if this' =? this then PANIC else mret tt.

(** The start of [exit], up to the loop over the files. *)
Definition exit_start (c : nat) (code : Z) : T Z :=
  this ← thisproc c;
  x ← read_proc this;
  ASSERT (negb (this =? root_proc) && negb (pid x =? -1)) ;;
  acquire_plock ;;
  on_sched acquire_sched_lock ;;
  write_proc this (set_exitcode code x) ;;
  nodes ← child_nodes this;
  reparent this nodes ;;
  give_children this ;;
  mret this.

Definition exit (c : nat) (code : Z) : T unit := this ← exit_start c code; exit_rest c this.

(** The tree below [cur], depth first. *)
Fixpoint find_proc (fuel : nat) (id cur : Z) : T Z :=
  match fuel with
  | O => undefined
  | S fuel' =>
      x ← read_proc cur;
      unused ← (if pid x =? id then on_sched (is_unused cur) else mret true);
      if negb unused then mret cur
      else
        nodes ← child_nodes cur;
        (fix loop (nodes : list Z) : T Z :=
           match nodes with
           | [] => mret 0
           | n :: nodes' =>
               if n =? children cur then loop nodes'
               else
                 res ← find_proc fuel' id (proc_of_ptnode n);
                 if negb (res =? 0) then mret res else loop nodes'
           end) nodes
  end.

Definition kill (id : Z) : T Z :=
  acquire_plock ;;
  s ← get_state;
  kill_proc ← find_proc (Z.to_nat (ps_max_pid s)) id root_proc;
  release_plock ;;
  if negb (kill_proc =? 0) then
    acquire_plock ;;
    x ← read_proc kill_proc;
    write_proc kill_proc (set_killed true x) ;;
    on_sched (_activate_proc rq kill_proc true) ;;
    release_plock ;;
    mret 0
  else mret (-1).

(** The descriptors of the parent, from [i] on: [file_dup] of the open ones. *)
Fixpoint dup_files (child : Z) (n i : nat) (files : list Z) : T unit :=
  match n with
  | O => mret tt
  | S n' =>
      f ← deref (files !! i);
      (if negb (f =? 0) then
         calls (File_dup f) ;; e ← ext_at child; store_ext child (set_openfiles (<[i := f]> (openfiles e)) e)
       else mret tt) ;;
      dup_files child n' (S i) files
  end.

(** [fork()], with the results of the allocators; [trap_return] is the address
    at which the child starts. *)
Definition fork (c : nat) (p kstk pgt trap_return : Z) : T Z :=
  child ← create_proc p kstk pgt;
  this ← thisproc c;
  set_parent_to_this c child ;;
  e ← ext_at this;
  e' ← ext_at child;
  store_ext child (set_ucontext (<[X0 := 0]> (ucontext e)) e') ;;
  calls (Inode_share (cwd e)) ;;
  e' ← ext_at child;
  store_ext child (set_cwd (cwd e) e') ;;
  dup_files child NOPENFILE 0 (openfiles e) ;;
  calls (Copy_pgdir this child) ;;
  start_proc child trap_return 0 ;;
  x ← read_proc child;
  mret (pid x).
End kernel.
