(* ===== verification/ProcTree.v ===== *)
(** The tree of processes: its invariant, and what the list and table
    operations of src/kernel/proc.c do to it.

    The tree is seen through [view]: the pid, the parent and the status of
    each process that is not idle; [C p] are the children of [p], in the
    order of its list. *)
From Stdlib Require Import ZArith Lia.
From stdpp Require Import base numbers gmap list.
From S2P Require Import Prelude Sync ListNode Mem RbTree RbInsert RbErase Timer Sched Proc.

Inductive pstatus := New | Alive | Zombie.
#[export] Instance pstatus_eq_dec : EqDecision pstatus.
Proof. solve_decision. Defined.

Record View := mkView { v_pid : Z; v_parent : Z; v_status : pstatus }.

Definition status_of (st : procstate) : pstatus := match st with UNUSED => New | ZOMBIE => Zombie | _ => Alive end.
Definition view_of (x : Proc) : option View :=
  if decide (pid x = -1) then None else Some (mkView (pid x) (parent x) (status_of (state x))).
Definition view (ps : gmap Z Proc) : gmap Z View := omap view_of ps.

Lemma view_lookup ps p v : view ps !! p = Some v <-> exists x, ps !! p = Some x /\ pid x <> -1 /\ v = mkView (pid x) (parent x) (status_of (state x)).
Proof.
  unfold view. rewrite lookup_omap_Some. unfold view_of. split.
  - intros (x & E & Ex). destruct (decide (pid x = -1)); [done|]. simplify_eq. by exists x.
  - intros (x & Ex & Hp & ->). exists x. by rewrite decide_False.
Qed.

Lemma view_some ps p x : ps !! p = Some x -> pid x <> -1 -> view ps !! p = Some (mkView (pid x) (parent x) (status_of (state x))).
Proof. intros. apply view_lookup. by exists x. Qed.

Lemma view_insert ps p x : pid x <> -1 -> view (<[p := x]> ps) = <[p := mkView (pid x) (parent x) (status_of (state x))]> (view ps).
Proof. intros Hp. unfold view. apply omap_insert_Some. unfold view_of. by rewrite decide_False. Qed.

Lemma view_delete ps p : view (delete p ps) = delete p (view ps).
Proof. apply omap_delete. Qed.

(** A change of other fields. *)
Lemma view_same ps p x x' : ps !! p = Some x -> pid x' = pid x -> parent x' = parent x -> status_of (state x') = status_of (state x) ->
  view (<[p := x']> ps) = view ps.
Proof.
  intros E E1 E2 E3. apply map_eq. intros q. unfold view. rewrite !lookup_omap. destruct (decide (q = p)) as [->|Hne]; [|by rewrite lookup_insert_ne].
  rewrite lookup_insert_eq, E. simpl. unfold view_of. by rewrite E1, E2, E3.
Qed.

(** Setting the parent of processes. *)
Definition adopt (r : Z) (v : View) : View := mkView (v_pid v) r (v_status v).
Definition with_status (st : pstatus) (v : View) : View := mkView (v_pid v) (v_parent v) st.

Section tree.
Context (freq : Z) (timestamp : nat -> Z) (rq : Z) (sched_timer : nat -> Z) (root_proc lim : Z).

(** The shape of the tree: pids are unique and grow from parent to child, so
    there is no cycle; a process that is new may have no parent yet, and
    parents are neither new nor zombies. *)
Record shape (V : gmap Z View) (C : Z -> list Z) (max_pid : Z) : Prop := {
  sh_root : exists v, V !! root_proc = Some v /\ v_parent v = root_proc /\ v_status v = Alive /\ v_pid v = 1;
  sh_pid : forall p v, V !! p = Some v -> 0 < v_pid v <= max_pid;
  sh_inj : forall p q v w, V !! p = Some v -> V !! q = Some w -> v_pid v = v_pid w -> p = q;
  sh_children : forall p q, is_Some (V !! p) -> q ∈ C p <-> q <> root_proc /\ exists w, V !! q = Some w /\ v_parent w = p;
  sh_parent : forall q w, V !! q = Some w -> q <> root_proc ->
    v_parent w = 0 /\ v_status w = New \/ exists v, V !! v_parent w = Some v /\ v_status v = Alive /\ v_pid v < v_pid w;
}.

(** The structures do not overlap, nor with the head of the run queue. *)
Definition clear_of (p q : Z) : Prop := p <> q -> sizeof_Proc <= Z.abs (p - q).
Record layout (ps : gmap Z Proc) : Prop := {
  lo_pos : forall p, is_Some (ps !! p) -> 0 < p;
  lo_rq : forall p, is_Some (ps !! p) -> rq < p \/ p + sizeof_Proc <= rq;
  lo_apart : forall p q, is_Some (ps !! p) -> is_Some (ps !! q) -> clear_of p q;
}.

Record rings (h : heap) (V : gmap Z View) (C : Z -> list Z) : Prop := {
  ri_children : forall p, is_Some (V !! p) -> ring h (children p) (ptnode <$> C p);
  ri_new : forall q w, V !! q = Some w -> v_parent w = 0 -> ring h (ptnode q) [];
  ri_zombie : forall q w, V !! q = Some w -> v_status w = Zombie -> ring h (rqnode q) [];
}.

Definition zombie (V : gmap Z View) (q : Z) : bool :=
  match V !! q with Some w => bool_decide (v_status w = Zombie) | None => false end.
Definition zombies (V : gmap Z View) (l : list Z) : Z := Z.of_nat (length (filter (fun q => zombie V q = true) l)).

(** The semaphore [childexit] of a process that is not a zombie counts its
    zombie children, less the one it is being given in [wait]. *)
Definition tokens (V : gmap Z View) (C : Z -> list Z) (up : gmap Z bool) (extra : Z) (p : Z) (sem : Sem.Semaphore) : Prop :=
  match up !! p with
  | None => sem = Sem.mkSem (zombies V (C p) + extra) []
  | Some true => sem = Sem.mkSem (zombies V (C p) + extra - 1) [] /\ 1 <= zombies V (C p) + extra
  | Some false => sem = Sem.mkSem (-1) [p] /\ zombies V (C p) + extra = 0
  end.

(** The invariant, up to the locks: inside [exit] some semaphores count zombies
    that are yet to come ([extra]) and that of the process itself ([dead]) no
    longer counts anything. *)
Record tree_at (extra : Z -> Z) (dead : option Z) (s : PS) (L : list Z) (C : Z -> list Z) : Prop := {
  ti_sched : sched_inv freq timestamp rq sched_timer lim (ps_sched s) L;
  ti_shape : shape (view (sc_procs (ps_sched s))) C (ps_max_pid s);
  ti_layout : layout (sc_procs (ps_sched s));
  ti_rings : rings (sc_nodes (ps_sched s)) (view (sc_procs (ps_sched s))) C;
  ti_ext : forall p, is_Some (ps_ext s !! p) <-> is_Some (view (sc_procs (ps_sched s)) !! p);
  ti_files : forall p e, ps_ext s !! p = Some e -> length (openfiles e) = NOPENFILE;
  ti_up : forall p b, ps_up s !! p = Some b -> exists v, view (sc_procs (ps_sched s)) !! p = Some v /\ v_status v = Alive;
  ti_tokens : forall p e v, ps_ext s !! p = Some e -> view (sc_procs (ps_sched s)) !! p = Some v -> v_status v <> Zombie -> dead <> Some p ->
    tokens (view (sc_procs (ps_sched s))) C (ps_up s) (extra p) p (childexit e);
}.

Definition tree_inv (s : PS) (L : list Z) (C : Z -> list Z) : Prop :=
  tree_at (fun _ => 0) None s L C /\ ps_lock s = false /\ sc_lock (ps_sched s) = false.

(** ** Nodes *)

Lemma node_apart (ps : gmap Z Proc) p q a b : layout ps -> is_Some (ps !! p) -> is_Some (ps !! q) ->
  0 <= a <= sizeof_Proc - 1 -> 0 <= b <= sizeof_Proc - 1 -> p + a = q + b -> p = q /\ a = b.
Proof.
  intros Hl Hp Hq Ha Hb E. destruct (decide (p = q)) as [->|Hne]; [split; [done|lia]|].
  pose proof (lo_apart _ Hl p q Hp Hq Hne). lia.
Qed.

Lemma node_not_rq (ps : gmap Z Proc) p a : layout ps -> is_Some (ps !! p) -> 0 <= a <= sizeof_Proc - 1 -> p + a <> rq.
Proof. intros Hl Hp Ha. destruct (lo_rq _ Hl p Hp); lia. Qed.

Lemma view_proc ps p : is_Some (view ps !! p) -> is_Some (ps !! p).
Proof. intros [v (x & E & _)%view_lookup]. eauto. Qed.

Lemma ring_same h h' hd l : ring h hd l ->
  (forall n, n ∈ hd :: l -> get_next h' n = get_next h n /\ get_prev h' n = get_prev h n) -> ring h' hd l.
Proof.
  intros [Hnd Hp] Hd. split; [done|]. apply (path_frame h); [done| |].
  - intros x. change (hd :: l ++ [hd]) with ((hd :: l) ++ [hd]). rewrite removelast_last. intros Hx. by apply Hd.
  - intros x. cbn [tail]. intros Hx. apply Hd. rewrite elem_of_app, list_elem_of_singleton in Hx. rewrite elem_of_cons. tauto.
Qed.

Lemma alive_frame (h h' : heap) n : get_next h' n = get_next h n -> is_Some (h !! n) -> is_Some (h' !! n).
Proof. intros E Hn. apply (fmap_is_Some next). unfold get_next in E. rewrite E. by apply fmap_is_Some. Qed.

(** Side conditions on the place of a node. *)
Ltac place := first [done | by apply view_proc | unfold sizeof_Proc; lia].

(** Where the nodes of the tree are. *)
Lemma child_proc V C m p q : shape V C m -> is_Some (V !! p) -> q ∈ C p -> is_Some (V !! q).
Proof. intros H Hp Hq. apply (sh_children _ _ _ H) in Hq as (_ & w & E & _); eauto. Qed.

Lemma child_unique V C m p p' q : shape V C m -> is_Some (V !! p) -> is_Some (V !! p') -> q ∈ C p -> q ∈ C p' -> p = p'.
Proof. intros H Hp Hp' (_ & w & E & <-)%(sh_children _ _ _ H) (_ & w' & E' & <-)%(sh_children _ _ _ H); try done. congruence. Qed.

Lemma child_ne V C m p q : shape V C m -> is_Some (V !! p) -> 0 < p -> q ∈ C p -> q <> p.
Proof.
  intros H Hp H0 Hq ->. pose proof Hq as (Hr & w & E & Hw)%(sh_children _ _ _ H); [|done].
  destruct (sh_parent _ _ _ H p w E Hr) as [[? _]|(v & Ev & _ & Hlt)]; [lia|]. rewrite Hw in Ev. simplify_eq. lia.
Qed.

(** The rings of the tree survive a change of nodes of the run queue. *)
Lemma rings_off_queue ps C m L s s' : layout ps -> shape (view ps) C m -> off_queue rq L s s' ->
  (forall p, p ∈ L -> is_Some (ps !! p)) -> (forall p w, p ∈ L -> view ps !! p = Some w -> v_status w <> Zombie) ->
  rings (sc_nodes s) (view ps) C -> rings (sc_nodes s') (view ps) C.
Proof.
  intros Hl Hs Ho HL Hz [R1 R2 R3].
  assert (forall p a, is_Some (ps !! p) -> 0 <= a <= sizeof_Proc - 1 -> a <> 80 -> p + a ∉ rqnode <$> L) as Hno.
  { intros p a Hp Ha Hne. rewrite list_elem_of_fmap. intros (q & E & Hq). unfold rqnode in E.
    destruct (node_apart ps p q a 80 Hl Hp (HL q Hq)) as [_ ?]; unfold sizeof_Proc in *; lia. }
  split.
  - intros p Hp. apply (off_queue_ring rq L s); [done|by apply R1|]. intros n. rewrite elem_of_cons, list_elem_of_fmap.
    intros [->|(q & -> & Hq)].
    + split; [apply (node_not_rq ps)|apply Hno]; place.
    + assert (is_Some (ps !! q)) by (apply view_proc; by eapply child_proc). split; [apply (node_not_rq ps)|apply Hno]; place.
  - intros q w E E0. apply (off_queue_ring rq L s); [done|by eapply R2|]. intros n ->%list_elem_of_singleton.
    assert (is_Some (ps !! q)) by (apply view_proc; eauto). split; [apply (node_not_rq ps)|apply Hno]; place.
  - intros q w E E0. apply (off_queue_ring rq L s); [done|by eapply R3|]. intros n ->%list_elem_of_singleton.
    assert (is_Some (ps !! q)) as Hq by (apply view_proc; eauto). split; [apply (node_not_rq ps); place|].
    rewrite list_elem_of_fmap. intros (q' & E1 & Hq'). unfold rqnode in E1. assert (q = q') as <- by lia. by apply (Hz q w).
Qed.

(** The scheduler's invariant survives a change of other nodes. *)
Lemma inv_nodes s L h' : sched_inv freq timestamp rq sched_timer lim s L ->
  (forall n, n ∈ rq :: (rqnode <$> L) -> get_next h' n = get_next (sc_nodes s) n /\ get_prev h' n = get_prev (sc_nodes s) n) ->
  (forall p, is_Some (sc_procs s !! p) -> is_Some (h' !! rqnode p)) ->
  sched_inv freq timestamp rq sched_timer lim (Sched.set_nodes h' s) L.
Proof.
  intros H Hn Ha. pose proof (si_nodes _ _ _ _ _ _ _ _ _ H) as Hnodes.
  destruct H. split; try done; cbn [sc_nodes sc_procs Sched.set_nodes].
  - by apply (ring_same (sc_nodes s)).
  - intros p x Ex. destruct (Hnodes p x Ex) as (? & ? & ? & ?). split_and!; try done. apply Ha. eauto.
Qed.

(** ** Steps of the scheduler *)

Lemma queue_alive ex d s L C p : tree_at ex d s L C -> p ∈ L ->
  is_Some (sc_procs (ps_sched s) !! p) /\ forall w, view (sc_procs (ps_sched s)) !! p = Some w -> v_status w <> Zombie.
Proof.
  intros H Hp. apply (si_queue _ _ _ _ _ _ _ _ _ (ti_sched _ _ _ _ _ H)) in Hp as (x & Ex & Hpid & Hst). split; [eauto|].
  intros w (x' & Ex' & _ & ->)%view_lookup. simplify_eq. simpl. rewrite !elem_of_cons, elem_of_nil in Hst. by destruct Hst as [->|[->|[]]].
Qed.

(** A step that changes neither the tree nor the semaphores. *)
Lemma tree_step ex d s L C S' L' Lq : tree_at ex d s L C -> sched_inv freq timestamp rq sched_timer lim S' L' ->
  view (sc_procs S') = view (sc_procs (ps_sched s)) -> (forall p, is_Some (sc_procs S' !! p) <-> is_Some (sc_procs (ps_sched s) !! p)) ->
  off_queue rq Lq (ps_sched s) S' ->
  (forall p, p ∈ Lq -> is_Some (sc_procs (ps_sched s) !! p) /\ forall w, view (sc_procs (ps_sched s)) !! p = Some w -> v_status w <> Zombie) ->
  tree_at ex d (set_sched S' s) L' C.
Proof.
  intros [] Hs Ev Hd Ho HL. split; cbn [ps_sched ps_ext ps_up ps_max_pid set_sched]; rewrite ?Ev; try done.
  - destruct ti_layout0. split; setoid_rewrite Hd; done.
  - apply (rings_off_queue (sc_procs (ps_sched s)) C (ps_max_pid s) Lq (ps_sched s)); try done; [by intros p []%HL|]. intros p w Hp. by apply HL.
Qed.

Lemma off_queue_refl L s s' : sc_nodes s' = sc_nodes s -> off_queue rq L s s'.
Proof. intros E n _ _. by rewrite E. Qed.

Lemma is_Some_insert {A} (m : gmap Z A) p x x' q : m !! p = Some x -> is_Some (<[p := x']> m !! q) <-> is_Some (m !! q).
Proof. intros E. rewrite lookup_insert_is_Some'. split; [intros [<-|?]; eauto|tauto]. Qed.

Context (Hclock : clock_ok freq timestamp lim) (Hrq : rq <> 0).

Lemma wp_tree_activate ex d s L C p x onalert (Q : bool -> PS -> Prop) :
  tree_at ex d s L C -> sc_lock (ps_sched s) = false -> sc_procs (ps_sched s) !! p = Some x -> pid x <> -1 -> state x <> UNUSED ->
  (forall S' L', tree_at ex d (set_sched S' s) L' C -> sc_lock S' = false -> sc_cpus S' = sc_cpus (ps_sched s) ->
    (S' = ps_sched s \/ wakes x onalert = true /\ sc_procs S' = <[p := set_state RUNNABLE x]> (sc_procs (ps_sched s))) ->
    (wakes x onalert = true -> sc_procs S' = <[p := set_state RUNNABLE x]> (sc_procs (ps_sched s))) -> Q (wakes x onalert) (set_sched S' s)) ->
  wp (on_sched (_activate_proc rq p onalert)) Q s.
Proof.
  intros H Hl Ex Hp Hu HQ. apply wp_zoom.
  eapply wp_mono; [apply (wp_activate freq timestamp rq sched_timer lim Hclock Hrq _ _ _ _ onalert (ti_sched _ _ _ _ _ H) Hl Ex Hp); done|].
  intros r S' (-> & Hl' & HS). destruct (wakes x onalert) eqn:Ew.
  - destruct HS as (Hinv & Ep & Ec & Ho). apply (HQ S' (p :: L)); try done; [|right; done].
    assert (state x <> ZOMBIE) as Hz by (intros E; unfold wakes, has_state in Ew; by rewrite E in Ew).
    eapply (tree_step ex d s L C S' (p :: L) (p :: L)); try done; rewrite ?Ep.
    + apply (view_same _ _ x); try done. simpl. by destruct (state x).
    + intros q. by eapply is_Some_insert.
    + intros q [->|Hq]%elem_of_cons; [|by eapply queue_alive]. split; [eauto|]. intros w (x' & Ex' & _ & ->)%view_lookup. simplify_eq. simpl. by destruct (state x).
  - subst S'. apply (HQ (ps_sched s) L); [|done|done|by left|congruence]. by destruct s.
Qed.

(** ** The semaphores *)

Lemma wp_ext_at s p e (Q : Ext -> PS -> Prop) : ps_ext s !! p = Some e -> Q e s -> wp (ext_at p) Q s.
Proof. intros E HQ. apply wp_bind, wp_get_state. by eapply wp_deref. Qed.

Lemma wp_read_proc s p x (Q : Proc -> PS -> Prop) : sc_procs (ps_sched s) !! p = Some x -> Q x s -> wp (read_proc p) Q s.
Proof. intros E HQ. apply wp_zoom, (wp_proc_at _ _ x); [done|]. by destruct s. Qed.

(** Changing the semaphore of one process. *)
Lemma tree_sem ex d ex' s L C p e sem up' :
  tree_at ex d s L C -> ps_ext s !! p = Some e -> (forall q, q <> p -> up' !! q = ps_up s !! q) ->
  (forall b, up' !! p = Some b -> exists v, view (sc_procs (ps_sched s)) !! p = Some v /\ v_status v = Alive) ->
  (forall q, q <> p -> ex' q = ex q) ->
  (d <> Some p -> tokens (view (sc_procs (ps_sched s))) C up' (ex' p) p sem) ->
  tree_at ex' d (set_up up' (set_ext (<[p := set_childexit sem e]> (ps_ext s)) s)) L C.
Proof.
  intros [] Ee Hup Hal Hex Ht. split; cbn [ps_sched ps_ext ps_up ps_max_pid set_up set_ext]; try done.
  - intros q. rewrite <- ti_ext0. by eapply is_Some_insert.
  - intros q e' [[<- <-]|[_ Ee']]%lookup_insert_Some; [exact (ti_files0 p e Ee)|by eapply ti_files0].
  - intros q b Eb. destruct (decide (q = p)) as [->|Hne]; [by eapply Hal|]. rewrite Hup in Eb by done. by eapply ti_up0.
  - intros q e' v. destruct (decide (q = p)) as [->|Hne].
    + rewrite lookup_insert_eq. intros [= <-] Ev Hv Hd. by apply Ht.
    + rewrite lookup_insert_ne by done. intros Ee' Ev Hv Hd. unfold tokens. rewrite Hup, Hex by done. by eapply ti_tokens0.
Qed.

Lemma zombies_nonneg V l : 0 <= zombies V l.
Proof. unfold zombies. lia. Qed.

Lemma tree_extra ex ex' d s L C : tree_at ex d s L C -> (forall p, ex' p = ex p) -> tree_at ex' d s L C.
Proof. intros [] E. split; try done. intros p e v Ee Ev Hv Hd. rewrite E. by eapply ti_tokens0. Qed.

Lemma tree_dead ex d s L C : tree_at ex None s L C -> tree_at ex d s L C.
Proof. intros []. split; try done. intros p e v Ee Ev Hv _. by eapply ti_tokens0. Qed.

(** Changes of fields the invariant does not speak of. *)
Lemma tree_proc ex d s L C p x x' : tree_at ex d s L C -> sc_procs (ps_sched s) !! p = Some x -> pid x' = pid x -> parent x' = parent x ->
  state x' = state x -> (state x <> UNUSED -> kcontext x' = kcontext x) -> tree_at ex d (set_sched (set_procs (<[p := x']> (sc_procs (ps_sched s))) (ps_sched s)) s) L C.
Proof.
  intros H Ex E1 E2 E3 E4. apply (tree_step ex d s L C _ L []); try done.
  - pose proof (ti_sched _ _ _ _ _ H) as Hs. by apply (core_store_same _ _ _ _ _ _ _ _ _ p x x' Hs).
  - apply (view_same _ _ x); try done. by rewrite E3.
  - intros q. by eapply is_Some_insert.
  - by intros q ?%elem_of_nil.
Qed.

Lemma tree_ext ex d s L C p e e' : tree_at ex d s L C -> ps_ext s !! p = Some e -> childexit e' = childexit e -> length (openfiles e') = NOPENFILE ->
  tree_at ex d (set_ext (<[p := e']> (ps_ext s)) s) L C.
Proof.
  intros [] Ee Ec Hl. split; cbn [ps_sched ps_ext ps_up ps_max_pid set_ext]; try done.
  - intros q. rewrite <- ti_ext0. by eapply is_Some_insert.
  - intros q y [[<- <-]|[_ Ey]]%lookup_insert_Some; [done|by eapply ti_files0].
  - intros q y v [[<- <-]|[_ Ey]]%lookup_insert_Some Ev Hv Hd; [rewrite Ec|]; by eapply ti_tokens0.
Qed.

(** A post: one more zombie is announced. A parent that sleeps is woken. *)
Lemma wp_post_childexit ex d s L C p v (Q : unit -> PS -> Prop) :
  tree_at ex d s L C -> sc_lock (ps_sched s) = false -> view (sc_procs (ps_sched s)) !! p = Some v -> v_status v <> Zombie -> d <> Some p -> 0 <= ex p ->
  (forall S' L' ext' up', let s' := mkPS S' (ps_lock s) (ps_max_pid s) ext' up' (ps_calls s) in
    tree_at (fun q => if decide (q = p) then ex p + 1 else ex q) d s' L' C ->
    sc_lock S' = false -> sc_cpus S' = sc_cpus (ps_sched s) -> kin_procs (sc_procs (ps_sched s)) (sc_procs S') ->
    view (sc_procs S') = view (sc_procs (ps_sched s)) ->
    (forall q x, sc_procs (ps_sched s) !! q = Some x -> state x = RUNNING -> sc_procs S' !! q = Some x) ->
    (forall q, q <> p -> ext' !! q = ps_ext s !! q) -> (forall q, q <> p -> sc_procs S' !! q = sc_procs (ps_sched s) !! q) ->
    (forall q, q <> p -> up' !! q = ps_up s !! q) -> Q tt s') ->
  wp (post_childexit rq p) Q s.
Proof.
  intros H Hl Ev Hv Hd Hex HQ. destruct (proj2 (ti_ext _ _ _ _ _ H p)) as [e Ee]; [eauto|].
  pose proof (ti_tokens _ _ _ _ _ H p e v Ee Ev Hv Hd) as Ht. pose proof (zombies_nonneg (view (sc_procs (ps_sched s))) (C p)) as Hz.
  set (ex' := fun q => if decide (q = p) then ex p + 1 else ex q) in *.
  assert (ex' p = ex p + 1) as Ep by (unfold ex'; by rewrite decide_True).
  assert (forall q, q <> p -> ex' q = ex q) as Eq by (intros; unfold ex'; by rewrite decide_False).
  unfold post_childexit. apply wp_bind, (wp_ext_at _ _ e); [done|]. unfold tokens in Ht.
  assert (forall sem, childexit e = Sem.mkSem (Sem.val sem - 1) [] -> 0 <= Sem.val sem - 1 -> Sem.sleeplist sem = [] ->
    tokens (view (sc_procs (ps_sched s))) C (ps_up s) (ex' p) p sem ->
    wp (match Sem._post_sem (childexit e) with
        | None => PANIC
        | Some (w, sem) => store_ext p (set_childexit sem e) ;;
            match w with
            | Some q => modify (fun s => set_up (<[q := true]> (ps_up s)) s) ;; on_sched (_activate_proc rq q false) ;; mret tt
            | None => mret tt end end) Q s) as Hplain.
  { intros sem Es H0 Hsl Htok. rewrite Es. unfold Sem._post_sem. cbn [Sem.val Sem.sleeplist].
    rewrite (proj2 (Z.leb_gt _ 0)) by lia. replace (Sem.val sem - 1 + 1) with (Sem.val sem) by lia. rewrite <- Hsl. destruct sem as [sv sl]; cbn [Sem.val Sem.sleeplist].
    apply wp_bind, wp_modify, wp_ret. apply (HQ (ps_sched s) L (<[p := set_childexit (Sem.mkSem sv sl) e]> (ps_ext s)) (ps_up s)); try done.
    - pose proof (tree_sem ex d ex' s L C p e (Sem.mkSem sv sl) (ps_up s) H Ee) as Hts. apply Hts; try done. intros b Eb. by eapply ti_up.
    - intros q Hq. by apply lookup_insert_ne. }
  destruct (ps_up s !! p) as [[]|] eqn:Eup.
  - destruct Ht as [Es H1]. apply (Hplain (Sem.mkSem (zombies (view (sc_procs (ps_sched s))) (C p) + ex p) [])); try done; cbn [Sem.val]; [lia|].
    unfold tokens. rewrite Eup, Ep. split; [f_equal; lia|lia].
  - destruct Ht as [Es H0]. rewrite Es. clear Hplain. unfold Sem._post_sem. cbn [Sem.val Sem.sleeplist]. change (-1 + 1 <=? 0) with true. cbn iota.
    cbn [mbind option_bind last removelast].
    apply wp_bind, wp_modify. apply wp_bind, wp_modify. apply wp_bind.
    destruct (ti_up _ _ _ _ _ H p false Eup) as (v' & Ev' & Hal). rewrite Ev in Ev'. simplify_eq.
    pose proof Ev as (x & Ex & Hpid & Evx)%view_lookup. rewrite Evx in Hal. simpl in Hal.
    eapply (wp_tree_activate ex' d _ L C p x false); try done.
    + apply (tree_sem ex d ex' s L C p e (Sem.mkSem (-1 + 1) []) (<[p := true]> (ps_up s)) H Ee); try done.
      * intros q Hq. by apply lookup_insert_ne.
      * intros b _. exists v'. split; [done|]. by rewrite Evx.
      * intros _. unfold tokens. rewrite lookup_insert_eq, Ep. split; [f_equal; lia|]. lia.
    + intros E. by rewrite E in Hal.
    + cbn [ps_sched]. intros S' L' HT Hl' Hc Hor _. apply wp_ret. apply (HQ S' L' (<[p := set_childexit (Sem.mkSem (-1 + 1) []) e]> (ps_ext s)) (<[p := true]> (ps_up s))); try done.
      * cbn [ps_sched set_up set_ext] in Hor. destruct Hor as [->|[_ ->]]; [done|]. by eapply kin_insert.
      * cbn [ps_sched set_up set_ext] in Hor. destruct Hor as [->|[_ ->]]; [done|]. apply (view_same _ _ x); try done; simpl; by destruct (state x).
      * cbn [ps_sched set_up set_ext] in Hor. intros q y Ey Hy. destruct Hor as [->|[Hw ->]]; [done|]. rewrite lookup_insert_ne; [done|]. intros <-. simplify_eq.
        unfold wakes, has_state in Hw. by rewrite Hy in Hw.
      * intros q Hq. by apply lookup_insert_ne.
      * cbn [ps_sched set_up set_ext] in Hor. intros q Hq. destruct Hor as [->|[_ ->]]; [done|]. by apply lookup_insert_ne.
      * intros q Hq. by apply lookup_insert_ne.
  - apply (Hplain (Sem.mkSem (zombies (view (sc_procs (ps_sched s))) (C p) + ex p + 1) [])); try done; cbn [Sem.val]; [rewrite Ht; f_equal; lia|lia|].
    unfold tokens. rewrite Eup, Ep. f_equal. lia.
Qed.

(** ** Visiting and removing children *)

Lemma tree_child ex d s L C p q : tree_at ex d s L C -> is_Some (view (sc_procs (ps_sched s)) !! p) -> q ∈ C p ->
  exists x, sc_procs (ps_sched s) !! q = Some x /\ pid x <> -1 /\ parent x = p /\ q <> root_proc /\ 0 < q /\ ptnode q <> children p.
Proof.
  intros H Hp Hq. apply (sh_children _ _ _ (ti_shape _ _ _ _ _ H)) in Hq as (Hr & w & (x & Ex & Hpid & ->)%view_lookup & Hpar); [|done].
  exists x. split_and!; try done; [apply (lo_pos _ (ti_layout _ _ _ _ _ H)); eauto|]. intros E. unfold ptnode, children in E.
  destruct (node_apart (sc_procs (ps_sched s)) q p 56 40 (ti_layout _ _ _ _ _ H)); place.
Qed.

Lemma wp_child_nodes ex d s L C p (Q : list Z -> PS -> Prop) :
  tree_at ex d s L C -> is_Some (view (sc_procs (ps_sched s)) !! p) -> Q ((ptnode <$> C p) ++ [children p]) s -> wp (child_nodes p) Q s.
Proof.
  intros H Hp HQ. pose proof (ri_children _ _ _ (ti_rings _ _ _ _ _ H) p Hp) as Hr. destruct (ring_tail _ _ _ Hr) as (Hpath & Hn & Hnd).
  assert (length (ptnode <$> C p) < S (size (sc_nodes (ps_sched s))))%nat as Hsz.
  { apply le_n_S. rewrite <- size_dom, <- (size_list_to_set (C := gset Z)) by done. apply subseteq_size. intros n Hin%elem_of_list_to_set.
    apply elem_of_dom. apply (ring_alive _ _ _ _ Hr). by right. }
  apply wp_zoom. apply (wp_on_nodes _ _ ((ptnode <$> C p) ++ [children p]) (sc_nodes (ps_sched s))).
  - rewrite (ring_next _ _ _ Hr). cbn [mbind option_bind]. by rewrite for_in_list_spec.
  - by destruct s as [[] ? ? ? ? ?].
Qed.

Lemma ptnode_back q : proc_of_ptnode (ptnode q) = q.
Proof. unfold proc_of_ptnode, ptnode. lia. Qed.

(** The first zombie of the list. *)
Lemma wp_find_zombie ex d s L C p l (Q : Z -> PS -> Prop) :
  tree_at ex d s L C -> is_Some (view (sc_procs (ps_sched s)) !! p) -> (forall q, q ∈ l -> q ∈ C p) ->
  (forall l1 z l2, l = l1 ++ z :: l2 -> zombie (view (sc_procs (ps_sched s))) z = true -> Forall (fun q => zombie (view (sc_procs (ps_sched s))) q = false) l1 -> Q z s) ->
  ((forall q, q ∈ l -> zombie (view (sc_procs (ps_sched s))) q = false) -> Q 0 s) ->
  wp (find_zombie p ((ptnode <$> l) ++ [children p])) Q s.
Proof.
  intros H Hp. revert Q. induction l as [|q l IH]; intros Q Hl HQ H0; cbn [fmap list_fmap app find_zombie].
  - rewrite Z.eqb_refl. apply wp_ret, H0. by intros q ?%elem_of_nil.
  - destruct (tree_child _ _ _ _ _ p q H Hp) as (x & Ex & Hpid & _ & _ & _ & Hne); [apply Hl; by left|].
    rewrite (proj2 (Z.eqb_neq _ _)) by done. rewrite ptnode_back. apply wp_bind, (wp_read_proc _ _ x); [done|].
    assert (zombie (view (sc_procs (ps_sched s))) q = has_state x [ZOMBIE]) as Ez.
    { unfold zombie. rewrite (view_some _ _ x) by done. unfold has_state. simpl. by destruct (state x). }
    destruct (has_state x [ZOMBIE]) eqn:Hs.
    + apply wp_ret. by apply (HQ [] q l).
    + apply IH; [intros q' Hq'; apply Hl; by right| |].
      * intros l1 z l2 -> Hz Hl1. apply (HQ (q :: l1) z l2); try done. by constructor.
      * intros Hno. apply H0. intros q' [->|Hq']%elem_of_cons; [done|by apply Hno].
Qed.

Lemma zombies_in V l : 1 <= zombies V l -> exists q, q ∈ l /\ zombie V q = true.
Proof.
  unfold zombies. destruct (filter _ l) as [|q r] eqn:E; [simpl; lia|]. intros _. exists q.
  assert (q ∈ filter (fun q => zombie V q = true) l) as Hq by (rewrite E; left). apply list_elem_of_filter in Hq. tauto.
Qed.

(** Detaching a node that is alone. *)
Lemma detach_self h n : ring h n [] -> exists r h', _detach_from_list h n = Some (r, h') /\ forall x, h' !! x = h !! x.
Proof.
  intros [_ Hp]. destruct Hp as [[Hn Hv] _]. unfold get_next, get_prev in *. destruct (h !! n) as [[a b]|] eqn:E; [|done]. simpl in Hn, Hv. simplify_eq.
  assert (<[n := mkNode n n]> h = h) as Eh by (by apply insert_id). exists 0, h. split; [|done].
  unfold _detach_from_list, init_list_node, set_next, set_prev, get_prev, get_next.
  repeat (rewrite E; simpl; rewrite ?Eh). by rewrite Z.eqb_refl.
Qed.

(** A zombie is removed from the tables of the scheduler. *)
Lemma inv_delete s L p x : sched_inv freq timestamp rq sched_timer lim s L -> sc_procs s !! p = Some x -> state x = ZOMBIE -> pid x <> -1 ->
  sched_inv freq timestamp rq sched_timer lim (set_procs (delete p (sc_procs s)) s) L.
Proof.
  intros H Ex Hst Hpid. pose proof (si_running _ _ _ _ _ _ _ _ _ H) as Hrun.
  assert (forall q y, delete p (sc_procs s) !! q = Some y -> q <> p /\ sc_procs s !! q = Some y) as Hback.
  { intros q y [? ?]%lookup_delete_Some. done. }
  assert (forall q y, sc_procs s !! q = Some y -> q <> p -> delete p (sc_procs s) !! q = Some y) as Hforth.
  { intros q y Ey Hne. by rewrite lookup_delete_ne. }
  destruct H as [H1 H2 H3 H4 H5 H6 H7 H8 H9 H10 H11 H12].
  split; cbn [sc_cpus sc_procs sc_nodes set_procs]; try done.
  - intros c u Eu. destruct (H2 c u Eu) as (y & Ey & Hy & Hor). exists y. split_and!; try done. apply Hforth; [done|]. intros E. rewrite E in Ey. congruence.
  - intros q y [_ Ey]%Hback. by eapply H4.
  - intros c u Eu Hh. destruct (H5 c u Eu Hh) as (y & Ey & Hy & Hi). exists y. split_and!; try done. apply Hforth; [done|]. intros E. rewrite E in Ey. congruence.
  - intros q y [_ Ey]%Hback. by eapply H7.
  - intros q y [_ Ey]%Hback. by eapply H8.
  - intros q. rewrite H10. split.
    + intros (y & Ey & Hy & Hq). exists y. split_and!; try done. apply Hforth; [done|]. intros ->. simplify_eq. rewrite Hst, !elem_of_cons, elem_of_nil in Hq. intuition done.
    + intros (y & [_ Ey]%Hback & Hy). by exists y.
  - intros q y [_ Ey]%Hback. by eapply H11.
Qed.

Lemma zombies_cons V q l : zombies V (q :: l) = (if zombie V q then 1 else 0) + zombies V l.
Proof. unfold zombies. rewrite filter_cons. destruct (zombie V q) eqn:E; [rewrite decide_True by done|rewrite decide_False by done]; cbn [length]; lia. Qed.

Lemma zombies_app V l1 l2 : zombies V (l1 ++ l2) = zombies V l1 + zombies V l2.
Proof. unfold zombies. rewrite filter_app, length_app. lia. Qed.

Lemma zombies_ext V V' l : (forall q, q ∈ l -> zombie V' q = zombie V q) -> zombies V' l = zombies V l.
Proof.
  induction l as [|q l IH]; intros E; [done|]. rewrite !zombies_cons, (E q), IH; [done| |by left]. intros q' Hq. apply E. by right.
Qed.

(** The invariant does not speak of the locks and the recorded calls. *)
Lemma tree_locks ex d s s' L C : tree_at ex d s L C -> sc_procs (ps_sched s') = sc_procs (ps_sched s) -> sc_nodes (ps_sched s') = sc_nodes (ps_sched s) ->
  sc_cpus (ps_sched s') = sc_cpus (ps_sched s) -> ps_max_pid s' = ps_max_pid s -> ps_ext s' = ps_ext s -> ps_up s' = ps_up s -> tree_at ex d s' L C.
Proof.
  destruct s as [[lk ps hs cs] pl m ext up cl], s' as [[lk' ps' hs' cs'] pl' m' ext' up' cl']. simpl. intros H -> -> -> -> -> ->.
  destruct H as [[] ? ? ? ? ? ? ?]. by split.
Qed.

(** The nodes of a ring of the tree after the structure at [z] is gone. *)
Definition without_nodes (z : Z) (h : heap) : heap := delete (children z) (delete (ptnode z) (delete (rqnode z) h)).

Lemma without_nodes_lookup (ps : gmap Z Proc) z q a h : layout ps -> is_Some (ps !! z) -> is_Some (ps !! q) -> q <> z -> 0 <= a <= sizeof_Proc - 1 ->
  without_nodes z h !! (q + a) = h !! (q + a).
Proof.
  intros Hl Hz Hq Hne Ha. unfold without_nodes. rewrite !lookup_delete_ne; [done| | |]; intros E.
  - destruct (node_apart ps z q 80 a Hl Hz Hq); place || (unfold sizeof_Proc in *; lia || congruence).
  - destruct (node_apart ps z q 56 a Hl Hz Hq); place || (unfold sizeof_Proc in *; lia || congruence).
  - destruct (node_apart ps z q 40 a Hl Hz Hq); place || (unfold sizeof_Proc in *; lia || congruence).
Qed.

Lemma without_nodes_rq (ps : gmap Z Proc) z h : layout ps -> is_Some (ps !! z) -> without_nodes z h !! rq = h !! rq.
Proof.
  intros Hl Hz. unfold without_nodes. pose proof (node_not_rq ps z) as Hn.
  rewrite !lookup_delete_ne; [done| | |]; apply Hn; place.
Qed.

Lemma shape_reap V C m this z l1 l2 w :
  shape V C m -> is_Some (V !! this) -> C this = l1 ++ z :: l2 -> NoDup (C this) -> V !! z = Some w -> v_status w = Zombie ->
  shape (delete z V) (fun p => if decide (p = this) then l1 ++ l2 else C p) m.
Proof.
  intros [H1 H2 H3 H4 H5] Hthis EC Hnd Ez Hw. assert (z ∈ C this) as Hin by (rewrite EC, elem_of_app, elem_of_cons; tauto).
  assert (z <> root_proc) as Hzr by (by apply H4 in Hin as [? _]).
  assert (forall q, q ∈ l1 ++ l2 <-> q ∈ C this /\ q <> z) as Hmem.
  { rewrite EC in Hnd |- *. intros q. rewrite !elem_of_app, elem_of_cons. rewrite NoDup_app, NoDup_cons in Hnd. destruct Hnd as (_ & Hd & Hn & _). split.
    - intros [Hq|Hq]; (split; [tauto|]); intros ->; [destruct (Hd _ Hq); by left|done].
    - intros [[?|[?|?]] ?]; tauto. }
  split.
  - destruct H1 as (v & Ev & Hv). exists v. by rewrite lookup_delete_ne.
  - intros p v [_ Ev]%lookup_delete_Some. by eapply H2.
  - intros p q v u [_ Ev]%lookup_delete_Some [_ Eu]%lookup_delete_Some. by eapply H3.
  - intros p q [v [Hpz Ev]%lookup_delete_Some]. destruct (decide (p = this)) as [->|Hne].
    + rewrite Hmem, H4 by done. split.
      * intros [(Hq & u & Eu & Hu) Hqz]. split; [done|]. exists u. by rewrite lookup_delete_ne.
      * intros (Hq & u & [Hqz Eu]%lookup_delete_Some & Hu). split; [|done]. split; [done|]. by exists u.
    + rewrite H4 by eauto. split; intros (Hq & u & Eu & Hu); (split; [done|]); exists u; (split; [|done]).
      * rewrite lookup_delete_ne; [done|]. intros <-. apply H4 in Hin as (_ & u' & Eu' & Hu'); [|done]. congruence.
      * by apply lookup_delete_Some in Eu as [_ ?].
  - intros q u [_ Eu]%lookup_delete_Some Hq. destruct (H5 q u Eu Hq) as [?|(v & Ev & Hv & Hlt)]; [by left|right].
    exists v. split; [|done]. rewrite lookup_delete_ne; [done|]. intros E. rewrite <- E in Ev. congruence.
Qed.

Definition same_node (h h' : heap) (n : Z) : Prop := get_next h' n = get_next h n /\ get_prev h' n = get_prev h n.

Lemma same_node_lookup (h h' : heap) n : h' !! n = h !! n -> same_node h h' n.
Proof. intros E. unfold same_node, get_next, get_prev. by rewrite E. Qed.

(** A node of the tree is not in the list of children of [p], unless it is. *)
Lemma not_child ex d s L C p q a : tree_at ex d s L C -> is_Some (view (sc_procs (ps_sched s)) !! p) -> is_Some (sc_procs (ps_sched s) !! q) ->
  0 <= a <= sizeof_Proc - 1 -> (a = 40 -> q <> p) -> (a = 56 -> q ∉ C p) -> q + a ∉ children p :: (ptnode <$> C p).
Proof.
  intros H Hp Hq Ha H40 H56. pose proof (ti_layout _ _ _ _ _ H) as Hl. rewrite elem_of_cons, list_elem_of_fmap. intros [E|(r & E & Hr)].
  - destruct (node_apart _ q p a 40 Hl Hq (view_proc _ _ Hp) Ha) as [-> ->]; [unfold sizeof_Proc; lia|done|]. by apply H40.
  - destruct (tree_child _ _ _ _ _ p r H Hp Hr) as (x & Ex & _).
    destruct (node_apart _ q r a 56 Hl Hq) as [-> ->]; [eauto|done|unfold sizeof_Proc; lia|done|]. by apply H56.
Qed.

(** The lists after the zombie [z] has been taken out and freed. *)
Lemma reap_nodes ex d s L C this z l1 l2 :
  tree_at ex d s L C -> is_Some (view (sc_procs (ps_sched s)) !! this) -> C this = l1 ++ z :: l2 -> zombie (view (sc_procs (ps_sched s))) z = true ->
  exists r1 h1 r2 h2, _detach_from_list (sc_nodes (ps_sched s)) (ptnode z) = Some (r1, h1) /\ _detach_from_list h1 (rqnode z) = Some (r2, h2) /\
    ring (without_nodes z h2) (children this) (ptnode <$> l1 ++ l2) /\
    same_node (sc_nodes (ps_sched s)) (without_nodes z h2) rq /\
    (forall q a, is_Some (sc_procs (ps_sched s) !! q) -> q <> z -> 0 <= a <= sizeof_Proc - 1 -> (a = 40 -> q <> this) -> (a = 56 -> q ∉ C this) ->
      same_node (sc_nodes (ps_sched s)) (without_nodes z h2) (q + a)).
Proof.
  intros H Hthis EC Hz. pose proof (ti_layout _ _ _ _ _ H) as Hl. set (h := sc_nodes (ps_sched s)). set (ps := sc_procs (ps_sched s)) in *.
  assert (z ∈ C this) as Hzin by (rewrite EC, elem_of_app, elem_of_cons; tauto).
  destruct (tree_child _ _ _ _ _ this z H Hthis Hzin) as (x & Ex & Hpid & _ & _ & Hz0 & _).
  assert (is_Some (ps !! z)) as Hzs by eauto. assert (is_Some (ps !! this)) as Hts by (by apply view_proc).
  pose proof (ri_children _ _ _ (ti_rings _ _ _ _ _ H) this Hthis) as Hr. assert (NoDup (C this)) as Hnd.
  { destruct (ring_tail _ _ _ Hr) as (_ & _ & Hnd). by apply NoDup_fmap_1 in Hnd. }
  assert (ring h (children this) ((ptnode <$> l1) ++ ptnode z :: (ptnode <$> l2))) as Hr' by (rewrite EC, fmap_app in Hr; exact Hr).
  destruct (detach_spec _ _ _ _ _ Hr') as (h1 & E1 & R1 & _ & F1).
  assert ((ptnode <$> l1) ++ ptnode z :: (ptnode <$> l2) = ptnode <$> C this) as Ecat by (rewrite EC, fmap_app; done). rewrite Ecat in F1.
  assert (ring h1 (rqnode z) []) as Hzr.
  { unfold zombie in Hz. destruct (view ps !! z) as [w|] eqn:Ew; [|done]. apply bool_decide_eq_true in Hz.
    apply (ring_same h); [by eapply (ri_zombie _ _ _ (ti_rings _ _ _ _ _ H))|]. intros n ->%list_elem_of_singleton. apply F1.
    apply (not_child ex d s L C this z 80 H Hthis Hzs); place. }
  destruct (detach_self h1 (rqnode z) Hzr) as (r2 & h2 & E2 & F2). do 4 eexists. split_and!; [exact E1|exact E2| | |].
  - rewrite <- fmap_app in R1. apply (ring_same h1); [done|]. intros n Hn. apply same_node_lookup.
    assert (exists q a, n = q + a /\ is_Some (ps !! q) /\ q <> z /\ 0 <= a <= sizeof_Proc - 1) as (q & a & -> & Hq & Hne & Ha).
    { apply elem_of_cons in Hn as [->|(q & -> & Hq)%list_elem_of_fmap].
      - exists this, 40. split_and!; try place. intros E. by apply (child_ne _ _ _ this z (ti_shape _ _ _ _ _ H) Hthis (lo_pos _ Hl _ Hts) Hzin).
      - exists q, 56. assert (q ∈ C this) as Hqc by (rewrite EC, elem_of_app, elem_of_cons; apply elem_of_app in Hq; tauto).
        destruct (tree_child _ _ _ _ _ this q H Hthis Hqc) as (y & Ey & _). split_and!; try place. intros ->.
        rewrite EC, NoDup_app, NoDup_cons in Hnd. destruct Hnd as (_ & Hd & Hn & _). apply elem_of_app in Hq as [Hq|Hq]; [destruct (Hd _ Hq); by left|done]. }
    rewrite (without_nodes_lookup ps) by done. apply F2.
  - destruct (F1 rq) as [Fn Fp].
    { rewrite elem_of_cons, list_elem_of_fmap. intros [E|(q & E & Hq)]; symmetry in E; revert E; [apply (node_not_rq ps); place|].
      destruct (tree_child _ _ _ _ _ this q H Hthis Hq) as (y & Ey & _). apply (node_not_rq ps); place || eauto. }
    unfold same_node, get_next, get_prev in *. rewrite (without_nodes_rq ps), F2 by done. done.
  - intros q a Hq Hne Ha H40 H56. destruct (F1 (q + a)) as [Fn Fp]; [by apply (not_child ex d s L C this q a H Hthis)|].
    unfold same_node, get_next, get_prev in *. rewrite (without_nodes_lookup ps), F2 by done. done.
Qed.

Definition without_child (C : Z -> list Z) (this : Z) (l : list Z) : Z -> list Z := fun p => if decide (p = this) then l else C p.
Definition more (ex : Z -> Z) (p n : Z) : Z -> Z := fun q => if decide (q = p) then ex p + n else ex q.

Lemma tree_reap ex d s L C this z l1 l2 h3 :
  tree_at ex d s L C -> is_Some (view (sc_procs (ps_sched s)) !! this) -> C this = l1 ++ z :: l2 -> zombie (view (sc_procs (ps_sched s))) z = true ->
  ring h3 (children this) (ptnode <$> l1 ++ l2) -> same_node (sc_nodes (ps_sched s)) h3 rq ->
  (forall q a, is_Some (sc_procs (ps_sched s) !! q) -> q <> z -> 0 <= a <= sizeof_Proc - 1 -> (a = 40 -> q <> this) -> (a = 56 -> q ∉ C this) ->
    same_node (sc_nodes (ps_sched s)) h3 (q + a)) ->
  tree_at (more ex this 1) d (set_ext (delete z (ps_ext s)) (set_sched (set_procs (delete z (sc_procs (ps_sched s))) (Sched.set_nodes h3 (ps_sched s))) s)) L
    (without_child C this (l1 ++ l2)).
Proof.
  intros H Hthis EC Hz Hr Hrq' Hfr. pose proof (ti_shape _ _ _ _ _ H) as Hs. pose proof (ti_layout _ _ _ _ _ H) as Hl.
  assert (z ∈ C this) as Hzin by (rewrite EC, elem_of_app, elem_of_cons; tauto).
  destruct (tree_child _ _ _ _ _ this z H Hthis Hzin) as (x & Ex & Hpid & _ & _ & Hz0 & _).
  assert (view (sc_procs (ps_sched s)) !! z = Some (mkView (pid x) (parent x) (status_of (state x)))) as Ezv by (by apply view_some).
  assert (state x = ZOMBIE) as Hst. { unfold zombie in Hz. rewrite Ezv in Hz. apply bool_decide_eq_true in Hz. simpl in Hz. by destruct (state x). }
  assert (NoDup (C this)) as Hnd.
  { pose proof (ri_children _ _ _ (ti_rings _ _ _ _ _ H) this Hthis) as R. destruct (ring_tail _ _ _ R) as (_ & _ & Hnd). by apply NoDup_fmap_1 in Hnd. }
  assert (z ∉ l1 ++ l2) as Hznot.
  { rewrite EC, NoDup_app, NoDup_cons in Hnd. destruct Hnd as (_ & Hd & Hn & _). rewrite elem_of_app. intros [Hq|Hq]; [destruct (Hd _ Hq); by left|done]. }
  assert (forall p, p <> this -> is_Some (view (sc_procs (ps_sched s)) !! p) -> z ∉ C p) as Hother.
  { intros p Hne Hp Hin. apply Hne. by apply (child_unique _ _ _ p this z Hs). }
  assert (forall p, is_Some (view (sc_procs (ps_sched s)) !! p) ->
    zombies (delete z (view (sc_procs (ps_sched s)))) (without_child C this (l1 ++ l2) p) = zombies (view (sc_procs (ps_sched s))) (C p) - (if decide (p = this) then 1 else 0)) as Hzs.
  { intros p Hp. unfold without_child. destruct (decide (p = this)) as [->|Hne].
    - rewrite (zombies_ext (view (sc_procs (ps_sched s)))); [rewrite EC, !zombies_app, zombies_cons, Hz; lia|].
      intros q Hq. unfold zombie. rewrite lookup_delete_ne by congruence. done.
    - rewrite (zombies_ext (view (sc_procs (ps_sched s)))); [lia|]. intros q Hq. unfold zombie. rewrite lookup_delete_ne; [done|]. intros ->. by apply (Hother p). }
  split; cbn [ps_sched ps_ext ps_up ps_max_pid set_sched set_ext sc_procs sc_nodes set_procs Sched.set_nodes]; rewrite ?view_delete.
  - change (sched_inv freq timestamp rq sched_timer lim (Sched.set_nodes h3 (set_procs (delete z (sc_procs (ps_sched s))) (ps_sched s))) L). apply inv_nodes.
    + apply (inv_delete _ _ z x); try done. apply (ti_sched _ _ _ _ _ H).
    + intros n [->|(q & -> & Hq)%list_elem_of_fmap]%elem_of_cons; [done|]. destruct (queue_alive _ _ _ _ _ q H Hq) as [Hqs Hqz]. apply Hfr; try place.
      intros ->. apply (Hqz _ Ezv). simpl. by rewrite Hst.
    + cbn [sc_procs set_procs]. intros q [Hqz Hq]%lookup_delete_is_Some. apply (alive_frame (sc_nodes (ps_sched s))); [apply Hfr; place|].
      destruct Hq as [y Ey]. by destruct (si_nodes _ _ _ _ _ _ _ _ _ (ti_sched _ _ _ _ _ H) q y Ey) as (_ & _ & _ & ?).
  - eapply shape_reap; try done. simpl. by rewrite Hst.
  - destruct Hl as [Hl1 Hl2 Hl3].
    assert (forall q, is_Some (delete z (sc_procs (ps_sched s)) !! q) -> is_Some (sc_procs (ps_sched s) !! q)) as Hd by (intros q Hq; by apply lookup_delete_is_Some in Hq as [_ ?]).
    split; eauto.
  - split.
    + intros p [Hpz Hp]%lookup_delete_is_Some. unfold without_child. destruct (decide (p = this)) as [->|Hne]; [done|].
      apply (ring_same (sc_nodes (ps_sched s))); [by apply (ri_children _ _ _ (ti_rings _ _ _ _ _ H))|].
      intros n [->|(q & -> & Hq)%list_elem_of_fmap]%elem_of_cons.
      * apply Hfr; place || by apply view_proc.
      * destruct (tree_child _ _ _ _ _ p q H Hp Hq) as (y & Ey & _). apply Hfr; try place; [intros ->; by apply (Hother p)|].
        intros _ Hq'. apply Hne. by apply (child_unique _ _ _ p this q Hs).
    + intros q w [Hqz Ew]%lookup_delete_Some Hw. apply (ring_same (sc_nodes (ps_sched s))); [by eapply (ri_new _ _ _ (ti_rings _ _ _ _ _ H))|].
      intros n ->%list_elem_of_singleton. assert (is_Some (sc_procs (ps_sched s) !! q)) by (apply view_proc; eauto). apply Hfr; try place.
      intros _ Hq. destruct (tree_child _ _ _ _ _ this q H Hthis Hq) as (y & Ey & _ & Hpar & _).
      pose proof Ew as (y' & Ey' & _ & ->)%view_lookup. simplify_eq. simpl in Hw. pose proof (lo_pos _ Hl (parent y) (view_proc _ _ Hthis)). lia.
    + intros q w [Hqz Ew]%lookup_delete_Some Hw. apply (ring_same (sc_nodes (ps_sched s))); [by eapply (ri_zombie _ _ _ (ti_rings _ _ _ _ _ H))|].
      intros n ->%list_elem_of_singleton. assert (is_Some (sc_procs (ps_sched s) !! q)) by (apply view_proc; eauto). apply Hfr; place.
  - intros p. rewrite !lookup_delete_is_Some, (ti_ext _ _ _ _ _ H). done.
  - intros p e [_ Ee]%lookup_delete_Some. by apply (ti_files _ _ _ _ _ H p).
  - intros p b Eb. destruct (ti_up _ _ _ _ _ H p b Eb) as (v & Ev & Hv). exists v. split; [|done]. rewrite lookup_delete_ne; [done|].
    intros <-. rewrite Ezv in Ev. simplify_eq. simpl in Hv. by rewrite Hst in Hv.
  - intros p e v [Hpz Ee]%lookup_delete_Some [_ Ev]%lookup_delete_Some Hv Hd. pose proof (ti_tokens _ _ _ _ _ H p e v Ee Ev Hv Hd) as Ht.
    unfold tokens in *. rewrite Hzs by eauto. unfold more. destruct (decide (p = this)) as [->|Hne].
    + replace (zombies (view (sc_procs (ps_sched s))) (C this) - 1 + (ex this + 1)) with (zombies (view (sc_procs (ps_sched s))) (C this) + ex this) by lia. done.
    + replace (zombies (view (sc_procs (ps_sched s))) (C p) - 0 + ex p) with (zombies (view (sc_procs (ps_sched s))) (C p) + ex p) by lia. done.
Qed.
End tree.
