(* ===== verification/ProcWait.v ===== *)
(** Waiting for a child, and the end of a process: the theorems about [wait],
    [wait_resume] and [exit] of Proc.v. *)
From Stdlib Require Import ZArith Lia.
From stdpp Require Import base numbers gmap list.
From S2P Require Import Prelude Sync ListNode Mem RbTree RbInsert RbErase Timer Sched Proc ProcTree.

Section wait.
Context (freq : Z) (timestamp : nat -> Z) (rq invalid_pt : Z) (sched_timer : nat -> Z) (root_proc lim : Z).
Context (Hclock : clock_ok freq timestamp lim) (Hrq : rq <> 0).
Notation tree_at := (tree_at freq timestamp rq sched_timer root_proc lim).
Notation tree_inv := (tree_inv freq timestamp rq sched_timer root_proc lim).
Notation V s := (view (sc_procs (ps_sched s))).

Lemma wp_acquire_plock s (Q : unit -> PS -> Prop) : ps_lock s = false -> Q tt (set_plock true s) -> wp acquire_plock Q s.
Proof. intros E HQ. unfold wp, acquire_plock. by rewrite E. Qed.

Lemma wp_sched_lock s (Q : unit -> PS -> Prop) : sc_lock (ps_sched s) = false -> Q tt (set_sched (set_lock true (ps_sched s)) s) ->
  wp (on_sched acquire_sched_lock) Q s.
Proof. intros E HQ. apply wp_zoom, wp_acquire; done. Qed.

Lemma wp_nodes {A} (f : heap -> option (A * heap)) s a h (Q : A -> PS -> Prop) :
  f (sc_nodes (ps_sched s)) = Some (a, h) -> Q a (set_sched (Sched.set_nodes h (ps_sched s)) s) -> wp (on_sched (on_nodes f)) Q s.
Proof. intros E HQ. apply wp_zoom. by eapply wp_on_nodes. Qed.

(** What [wait] hands back: the first zombie child, which is freed. *)
Definition reaped (s : PS) (L : list Z) (C : Z -> list Z) (this : Z) (r : Z * option Z) (s' : PS) : Prop :=
  exists l1 z l2 x e, C this = l1 ++ z :: l2 /\ sc_procs (ps_sched s) !! z = Some x /\ state x = ZOMBIE /\ ps_ext s !! z = Some e /\
    r = (pid x, Some (exitcode x)) /\ tree_inv s' L (without_child C this (l1 ++ l2)) /\
    sc_procs (ps_sched s') = delete z (sc_procs (ps_sched s)) /\ sc_cpus (ps_sched s') = sc_cpus (ps_sched s) /\
    ps_calls s' = ps_calls s ++ [Kfree_page (kstack e); Kfree z] /\ Forall (fun q => zombie (V s) q = false) l1.

Lemma zombie_proc s q : zombie (V s) q = true -> exists x, sc_procs (ps_sched s) !! q = Some x /\ state x = ZOMBIE.
Proof.
  unfold zombie. destruct (V s !! q) as [w|] eqn:E; [|done]. intros Hz%bool_decide_eq_true. apply view_lookup in E as (x & Ex & _ & ->).
  exists x. split; [done|]. simpl in Hz. by destruct (state x).
Qed.

(** After the token has been taken there is a zombie to find. *)
Lemma wp_wait_reap s L C this :
  tree_at (more (fun _ => 0) this (-1)) None s L C -> ps_lock s = false -> sc_lock (ps_sched s) = false ->
  is_Some (V s !! this) -> 1 <= zombies (V s) (C this) ->
  wp (wait_reap this) (reaped s L C this) s.
Proof.
  intros H Hpl Hsl Hthis Hz. unfold wait_reap. apply wp_bind, wp_acquire_plock; [done|]. apply wp_bind, wp_sched_lock; [done|].
  set (s0 := set_sched _ _). assert (tree_at (more (fun _ => 0) this (-1)) None s0 L C) as H0 by (by apply (tree_locks _ _ _ _ _ _ _ _ s)).
  apply wp_bind, (wp_child_nodes _ _ _ _ _ _ _ _ _ L C _ _ H0); [done|].
  destruct (zombies_in _ _ Hz) as (z0 & Hz0 & Hzz0).
  apply wp_bind, (wp_find_zombie _ _ _ _ _ _ _ _ _ L C _ _ _ H0); [done|done| |].
  2: { intros Hno. specialize (Hno z0 Hz0). change (V s0) with (V s) in Hno. congruence. }
  intros l1 z l2 EC Hzz Hl1. assert (z ∈ C this) as Hin by (rewrite EC, elem_of_app, elem_of_cons; tauto).
  destruct (tree_child _ _ _ _ _ _ _ _ _ _ _ _ z H Hthis Hin) as (x & Ex & Hpid & _ & _ & Hzpos & _).
  destruct (zombie_proc s z Hzz) as (x' & Ex' & Hst). simplify_eq.
  destruct (proj2 (ti_ext _ _ _ _ _ _ _ _ _ _ _ H z)) as [e Ee]; [exists (mkView (pid x) (parent x) (status_of (state x))); by apply view_some|].
  destruct (reap_nodes _ _ _ _ _ _ _ _ _ L C this z l1 l2 H0) as (r1 & h1 & r2 & h2 & E1 & E2 & R & Frq & F); try done.
  rewrite (proj2 (Z.eqb_neq z 0)) by lia. cbn [negb].
  apply wp_bind, wp_bind, (wp_read_proc _ _ x); [done|]. apply wp_bind, (wp_ext_at _ _ e); [done|].
  apply wp_bind, wp_zoom, wp_modify. apply wp_bind, wp_sched_lock; [done|].
  apply wp_bind. eapply wp_nodes; [exact E1|]. apply wp_bind. eapply wp_nodes; [exact E2|].
  apply wp_bind, wp_modify, wp_bind, wp_modify, wp_bind, wp_zoom, wp_modify, wp_bind, wp_modify, wp_ret.
  apply wp_bind, wp_zoom, wp_modify, wp_bind, wp_modify, wp_ret.
  exists l1, z, l2, x, e. split_and!; try done.
  - pose proof (tree_reap _ _ _ _ _ _ _ _ s0 L C this z l1 l2 (without_nodes z h2) H0 Hthis EC Hzz R Frq F) as HT.
    split; [|done]. eapply tree_locks; [eapply tree_extra; [exact HT|]|..]; try done.
    intros p. unfold more. repeat destruct (decide _); lia.
  - cbn. by rewrite <- app_assoc.
Qed.

(** The end of [_wait_sem]: the token that was given is taken, or the wait is
    withdrawn. *)
Lemma wp_wait_sem_leave s L C this (b : bool) (Q : bool -> PS -> Prop) :
  tree_at (fun _ => 0) None s L C -> ps_up s !! this = Some b ->
  (forall (ext' : gmap Z Ext) (up' : gmap Z bool), let s' := mkPS (ps_sched s) (ps_lock s) (ps_max_pid s) ext' up' (ps_calls s) in
    tree_at (more (fun _ => 0) this (if b then -1 else 0)) None s' L C -> up' !! this = None -> (forall p, p <> this -> ext' !! p = ps_ext s !! p) ->
    (if b then 1 <= zombies (V s) (C this) else zombies (V s) (C this) = 0) -> Q b s') ->
  wp (wait_sem_leave this) Q s.
Proof.
  intros H Hup HQ. destruct (ti_up _ _ _ _ _ _ _ _ _ _ _ H this b Hup) as (v & Ev & Hv).
  destruct (proj2 (ti_ext _ _ _ _ _ _ _ _ _ _ _ H this)) as [e Ee]; [eauto|].
  pose proof (ti_tokens _ _ _ _ _ _ _ _ _ _ _ H this e v Ee Ev ltac:(congruence) ltac:(done)) as Ht. unfold tokens in Ht. rewrite Hup in Ht.
  unfold wait_sem_leave. apply wp_bind, wp_get_state, wp_bind, (wp_deref _ b); [done|]. apply wp_bind, (wp_ext_at _ _ e); [done|].
  assert (forall sem, tokens (V s) C (delete this (ps_up s)) (more (fun _ => 0) this (if b then -1 else 0) this) this sem ->
    (if b then 1 <= zombies (V s) (C this) else zombies (V s) (C this) = 0) ->
    Q b (mkPS (ps_sched s) (ps_lock s) (ps_max_pid s) (<[this := set_childexit sem e]> (ps_ext s)) (delete this (ps_up s)) (ps_calls s))) as Hfin.
  { intros sem Htok Hz. apply HQ; [|apply lookup_delete_eq|intros p Hp; by apply lookup_insert_ne|done].
    apply (tree_sem _ _ _ _ _ _ (fun _ => 0) None _ s L C this e sem (delete this (ps_up s)) H Ee); try done.
    - intros q Hq. by apply lookup_delete_ne.
    - intros b'. by rewrite lookup_delete_eq.
    - intros q Hq. unfold more. by rewrite decide_False. }
  destruct b.
  - destruct Ht as [Es Hz]. cbn [Sem._wait_sem_leave]. apply wp_bind, wp_modify, wp_bind, wp_modify, wp_ret. apply Hfin; [|lia].
    unfold tokens. rewrite lookup_delete_eq, Es. unfold more. rewrite decide_True by done. f_equal. lia.
  - destruct Ht as [Es Hz]. rewrite Es. cbn [Sem._wait_sem_leave Sem.val Sem.sleeplist]. change (-1 + 1 <=? 0) with true. cbn iota.
    apply wp_bind, wp_modify, wp_bind, wp_modify, wp_ret. apply Hfin; [|lia].
    unfold tokens. rewrite lookup_delete_eq. unfold more. rewrite decide_True by done. f_equal; [lia|].
    simpl. destruct (decide_rel _ this [this]) as [_|Hn]; [done|]. destruct Hn. by apply list_elem_of_singleton.
Qed.

(** What giving up the CPU does to the tree. *)
Lemma sched_view s L c u x ns s' :
  sched_inv freq timestamp rq sched_timer lim s L -> sc_cpus s !! c = Some u -> sc_procs s !! cu_this u = Some x -> pid x <> -1 ->
  ns <> RUNNABLE -> killed x && negb (bool_decide (ns = ZOMBIE)) = false -> scheduled freq timestamp rq sched_timer lim s L c u x ns s' ->
  exists L' u' x', sched_inv freq timestamp rq sched_timer lim s' L' /\ sc_lock s' = false /\ sc_cpus s' !! c = Some u' /\ cu_this u' <> cu_this u /\
    off_queue rq L s s' /\ kin_procs (sc_procs s) (sc_procs s') /\ ring (sc_nodes s') (rqnode (cu_this u)) [] /\
    sc_procs s' !! cu_this u = Some x' /\ state x' = ns /\
    view (sc_procs s') = <[cu_this u := mkView (pid x) (parent x) (status_of ns)]> (view (sc_procs s)).
Proof.
  intros Hs Eu Ex Hpid Hns Hk [Hl Hsch]. rewrite Hk in Hsch.
  destruct Hsch as (L' & u' & Hs' & _ & Hcpu & Eu' & Hps & (b & u1 & Eu1 & Hb & Hnext) & Ho & Hkin & Hring & Hst).
  cbn [sc_cpus set_procs] in Eu1. simplify_eq.
  destruct (si_idle _ _ _ _ _ _ _ _ _ Hs c u Eu) as (xi & Exi & Hpi & _).
  assert (exists y, sc_procs s !! cu_this u' = Some y /\ cu_this u' <> cu_this u /\ (pid y = -1 \/ state y = RUNNABLE)) as (y & Ey & Hne & Hy).
  { rewrite Hnext. destruct (decide (b = 0)) as [->|Hb0]; simpl.
    - exists xi. split_and!; [done| |by left]. intros E. rewrite E in Exi. congruence.
    - destruct Hb as [[? _]|(l1 & l2 & _ & (z & Ez & Hz & _) & _)]; [done|]. cbn [sc_procs set_procs] in Ez.
      apply lookup_insert_Some in Ez as [[<- <-]|[Hne Ez]]; [simpl in Hz; done|]. exists z. split_and!; try done; by right. }
  destruct (Hst Hne) as (x' & Ex' & Hx'). exists L', u', x'. split_and!; try done; [by apply Hring|].
  apply map_eq. intros p. destruct (decide (p = cu_this u)) as [->|Hp1].
  - rewrite lookup_insert_eq. destruct (kin_forth _ _ _ _ Hkin Ex) as (x2 & Ex2 & Hkk). simplify_eq. destruct Hkk as (_ & _ & K1 & _ & K2 & _).
    rewrite (view_some _ _ x'); [by rewrite K1, K2|done|congruence].
  - rewrite lookup_insert_ne by done. destruct (decide (p = cu_this u')) as [->|Hp2]; [|unfold view; by rewrite !lookup_omap, Hps].
    destruct (kin_forth _ _ _ _ Hkin Ey) as (y2 & Ey2 & (_ & _ & K1 & _ & K2 & _)). unfold view. rewrite !lookup_omap, Ey, Ey2. simpl. unfold view_of.
    rewrite K1, K2. destruct (decide (pid y = -1)); [done|]. destruct Hy as [|Hy]; [done|]. rewrite Hy.
    destruct (si_this _ _ _ _ _ _ _ _ _ Hs' c u' Eu') as (y3 & Ey3 & Hrun & _); [done|]. rewrite Ey2 in Ey3. simplify_eq. by rewrite Hrun.
Qed.

(** What [wait] does, by the children of the caller. *)
Definition waited (s : PS) (L : list Z) (C : Z -> list Z) (c : nat) (this : Z) (x : Proc) (r : option (Z * option Z)) (s' : PS) : Prop :=
  if decide (C this = []) then r = Some (-1, None) /\ s' = s
  else if decide (zombies (V s) (C this) = 0) then
    exists L', tree_inv s' L' C /\ V s' = V s /\
      if killed x then r = Some (-1, None) /\ sc_procs (ps_sched s') = sc_procs (ps_sched s)
      else r = None /\ ps_up s' !! this = Some false /\ exists x' u', sc_procs (ps_sched s') !! this = Some x' /\ state x' = SLEEPING /\
        sc_cpus (ps_sched s') !! c = Some u' /\ cu_this u' <> this
  else exists v, r = Some v /\ reaped s L C this v s'.

Lemma wp_thisproc s c u (Q : Z -> PS -> Prop) : sc_cpus (ps_sched s) !! c = Some u -> Q (cu_this u) s -> wp (thisproc c) Q s.
Proof. intros E HQ. apply wp_zoom, wp_bind, (wp_cpu_at _ _ u); [done|]. apply wp_ret. by destruct s. Qed.

(** Sleeping on the semaphore when no child has exited. *)
Lemma wp_wait_sleep s L C c u x (Q : option bool -> PS -> Prop) :
  tree_inv s L C -> sc_cpus (ps_sched s) !! c = Some u -> sc_procs (ps_sched s) !! cu_this u = Some x -> pid x <> -1 ->
  ps_up s !! cu_this u = None -> zombies (V s) (C (cu_this u)) = 0 ->
  (forall s' L', tree_inv s' L' C -> V s' = V s ->
    (if killed x then sc_procs (ps_sched s') = sc_procs (ps_sched s)
     else ps_up s' !! cu_this u = Some false /\ exists x' u', sc_procs (ps_sched s') !! cu_this u = Some x' /\ state x' = SLEEPING /\
        sc_cpus (ps_sched s') !! c = Some u' /\ cu_this u' <> cu_this u) -> Q (if killed x then Some false else None) s') ->
  wp (wait_sem freq timestamp rq invalid_pt sched_timer c) Q s.
Proof.
  intros (H & Hpl & Hsl) Eu Ex Hpid Hup Hz HQ. set (this := cu_this u) in *.
  destruct (si_this _ _ _ _ _ _ _ _ _ (ti_sched _ _ _ _ _ _ _ _ _ _ _ H) c u Eu) as (x0 & Ex0 & Hrun & _); [done|]. fold this in Ex0. simplify_eq.
  assert (V s !! this = Some (mkView (pid x) (parent x) Alive)) as Ev by (rewrite (view_some _ _ x) by done; by rewrite Hrun).
  destruct (proj2 (ti_ext _ _ _ _ _ _ _ _ _ _ _ H this)) as [e Ee]; [eauto|].
  pose proof (ti_tokens _ _ _ _ _ _ _ _ _ _ _ H this e _ Ee Ev ltac:(done) ltac:(done)) as Ht. unfold tokens in Ht. rewrite Hup, Hz in Ht.
  unfold wait_sem. apply wp_bind, (wp_thisproc _ _ u); [done|]. fold this. apply wp_bind, (wp_ext_at _ _ e); [done|]. rewrite Ht.
  change (Sem._wait_sem_enter this (Sem.mkSem (0 + 0) [])) with (false, Sem.mkSem (-1) [this]). cbn iota.
  apply wp_bind, wp_modify. apply wp_bind, wp_modify. set (s1 := set_up _ _).
  assert (tree_at (fun _ => 0) None s1 L C) as H1.
  { apply (tree_sem _ _ _ _ _ _ (fun _ => 0) None _ s L C this e (Sem.mkSem (-1) [this]) (<[this := false]> (ps_up s)) H Ee); try done.
    - intros q Hq. by apply lookup_insert_ne.
    - intros b _. by eexists.
    - intros _. unfold tokens. rewrite lookup_insert_eq. split; [done|lia]. }
  apply wp_bind, wp_sched_lock; [done|]. set (s2 := set_sched _ _).
  assert (tree_at (fun _ => 0) None s2 L C) as H2 by (by apply (tree_locks _ _ _ _ _ _ _ _ s1)).
  apply wp_bind, wp_zoom. eapply wp_mono; [apply (wp_sched freq timestamp rq invalid_pt sched_timer lim Hclock Hrq _ L c u x SLEEPING (ti_sched _ _ _ _ _ _ _ _ _ _ _ H2)); try done|].
  { unfold leaving. right. left. }
  intros [] S' Hsch. destruct (killed x) eqn:Ek.
  - destruct Hsch as [Hl' Hsch]. rewrite Ek in Hsch. change (true && negb (bool_decide (SLEEPING = ZOMBIE))) with true in Hsch. cbn iota in Hsch. subst S'.
    apply wp_bind, (wp_thisproc _ _ u); [done|]. fold this. rewrite Z.eqb_refl. apply wp_bind.
    apply (wp_wait_sem_leave _ L C this false); [by apply (tree_locks _ _ _ _ _ _ _ _ s1)|apply lookup_insert_eq|].
    intros ext' up' s' HT _ _ _. apply wp_ret. apply (HQ s' L); try done. split; [|done].
    apply (tree_extra _ _ _ _ _ _ _ _ _ _ _ _ HT). intros p. unfold more. by destruct (decide _).
  - destruct (sched_view (ps_sched s2) L c u x SLEEPING S') as (L' & u' & x' & Hs' & Hl' & Eu' & Hne & Ho & Hkin & _ & Ex' & Hst & Ev'); try done.
    { apply (ti_sched _ _ _ _ _ _ _ _ _ _ _ H2). }
    { by rewrite Ek. }
    assert (view (sc_procs S') = V s) as EV by (rewrite Ev'; by apply insert_id).
    apply wp_bind, (wp_thisproc _ _ u'); [done|]. rewrite (proj2 (Z.eqb_neq _ _)) by done. apply wp_ret. apply (HQ _ L'); try done.
    + split; [|done]. apply (tree_step _ _ _ _ _ _ (fun _ => 0) None s2 L C S' L' L H2); try done.
      * intros p. split; [intros [y Ey]; destruct (kin_back _ _ _ _ Hkin Ey) as (? & ? & _); eauto|intros [y Ey]; destruct (kin_forth _ _ _ _ Hkin Ey) as (? & ? & _); eauto].
      * intros p Hp. exact (queue_alive _ _ _ _ _ _ _ _ _ _ _ p H2 Hp).
    + split; [apply lookup_insert_eq|]. by exists x', u'.
Qed.

(** [wait] called by a process of the tree returns -1 when it has no child,
    a zombie child's pid and exit code when there is one, the oldest entry of
    the list first, and frees that child's stack and structure; otherwise it
    sleeps, unless it has been killed. *)
Lemma wp_wait s L C c u x :
  tree_inv s L C -> sc_cpus (ps_sched s) !! c = Some u -> sc_procs (ps_sched s) !! cu_this u = Some x -> pid x <> -1 -> ps_up s !! cu_this u = None ->
  wp (wait freq timestamp rq invalid_pt sched_timer c) (waited s L C c (cu_this u) x) s.
Proof.
  intros HT Eu Ex Hpid Hup. pose proof HT as (H & Hpl & Hsl). unfold waited. set (this := cu_this u) in *.
  assert (is_Some (V s !! this)) as Hthis by (eexists; by apply view_some).
  pose proof (ri_children _ _ _ (ti_rings _ _ _ _ _ _ _ _ _ _ _ H) this Hthis) as Hr.
  unfold wait. apply wp_bind, wp_acquire_plock; [done|]. apply wp_bind, (wp_thisproc _ _ u); [done|]. fold this.
  apply wp_bind, (wp_nodes _ _ (default (children this) (head (ptnode <$> C this))) (sc_nodes (ps_sched s))).
  { cbn [ps_sched set_plock]. by rewrite (ring_next _ _ _ Hr). }
  assert (forall s0, s0 = set_plock false (set_sched (Sched.set_nodes (sc_nodes (ps_sched s)) (ps_sched (set_plock true s))) (set_plock true s)) -> s0 = s) as Es.
  { intros s0 ->. destruct s as [[] pl ? ? ? ?]. simpl in *. by subst pl. }
  destruct (C this) as [|q l] eqn:EC.
  - simpl default. rewrite Z.eqb_refl. apply wp_bind, wp_modify, wp_ret. cbv beta. destruct (decide _) as [_|Hn]; [|done]. split; [done|]. by apply Es.
  - destruct (tree_child _ _ _ _ _ _ _ _ _ _ _ this q H Hthis) as (y & _ & _ & _ & _ & _ & Hne); [rewrite EC; by left|].
    cbn [head fmap list_fmap default from_option]. rewrite (proj2 (Z.eqb_neq _ _)) by done. apply wp_bind, wp_modify. rewrite (Es _ eq_refl), <- EC.
    destruct (decide (C this = [])) as [E0|_]; [congruence|].
    destruct (decide (zombies (V s) (C this) = 0)) as [Hz|Hz].
    + apply wp_bind, (wp_wait_sleep s L C c u x); try done. intros s' L' HT' EV Hk. destruct (killed x); apply wp_ret; exists L'; (split; [done|split; [done|by split]]).
    + assert (1 <= zombies (V s) (C this)) as Hz1 by (pose proof (zombies_nonneg (V s) (C this)); lia).
      destruct (proj2 (ti_ext _ _ _ _ _ _ _ _ _ _ _ H this) Hthis) as [e Ee]. destruct Hthis as [v Ev].
      assert (v_status v <> Zombie) as Hv.
      { destruct (si_this _ _ _ _ _ _ _ _ _ (ti_sched _ _ _ _ _ _ _ _ _ _ _ H) c u Eu) as (x0 & Ex0 & Hrun & _); [done|]. fold this in Ex0. simplify_eq.
        apply view_lookup in Ev as (x1 & Ex1 & _ & ->). simplify_eq. simpl. by rewrite Hrun. }
      pose proof (ti_tokens _ _ _ _ _ _ _ _ _ _ _ H this e v Ee Ev Hv ltac:(done)) as Ht. unfold tokens in Ht. rewrite Hup in Ht.
      apply wp_bind. unfold wait_sem. apply wp_bind, (wp_thisproc _ _ u); [done|]. fold this. apply wp_bind, (wp_ext_at _ _ e); [done|]. rewrite Ht.
      unfold Sem._wait_sem_enter. cbn [Sem.val Sem.sleeplist]. rewrite (proj2 (Z.leb_le 0 _)) by lia. cbn iota.
      apply wp_bind, wp_modify, wp_ret. apply wp_bind. set (s1 := set_ext _ _).
      assert (tree_at (more (fun _ => 0) this (-1)) None s1 L C) as H1.
      { assert (s1 = set_up (ps_up s) s1) as -> by (by destruct s). apply (tree_sem _ _ _ _ _ _ (fun _ => 0) None _ s L C this e _ (ps_up s) H Ee); try done.
        - intros b. by rewrite Hup.
        - intros q' Hq'. unfold more. by rewrite decide_False.
        - intros _. unfold tokens. rewrite Hup. unfold more. rewrite decide_True by done. f_equal. lia. }
      eapply wp_mono; [apply (wp_wait_reap s1 L C this H1); try done; eauto|].
      intros r s' (l1 & z & l2 & xz & ez & E1 & E2 & E3 & E4 & E5 & E6 & E7 & E8 & E9 & E10). apply wp_ret. exists r. split; [done|].
      exists l1, z, l2, xz, ez. split_and!; try done. revert E4. unfold s1. cbn [ps_ext set_ext]. rewrite lookup_insert_ne; [done|].
      intros <-. simplify_eq. destruct (si_this _ _ _ _ _ _ _ _ _ (ti_sched _ _ _ _ _ _ _ _ _ _ _ H) c u Eu) as (x0 & Ex0 & Hrun & _); [done|]. fold this in Ex0.
      unfold s1 in E2. cbn [ps_sched set_ext] in E2. congruence.
Qed.

(** The rest of [wait], when the process runs again. *)
Lemma wp_wait_resume s L C c u (b : bool) :
  tree_inv s L C -> sc_cpus (ps_sched s) !! c = Some u -> ps_up s !! cu_this u = Some b ->
  wp (wait_resume c) (fun r s' => if b then reaped s L C (cu_this u) r s' else r = (-1, None) /\ tree_inv s' L C /\ ps_sched s' = ps_sched s) s.
Proof.
  intros (H & Hpl & Hsl) Eu Hup. unfold wait_resume. apply wp_bind, (wp_thisproc _ _ u); [done|].
  destruct (ti_up _ _ _ _ _ _ _ _ _ _ _ H _ b Hup) as (v & Ev & Hv).
  apply wp_bind, (wp_wait_sem_leave s L C _ b _ H Hup). intros ext' up' s1 HT Hup' Hext Hz. destruct b.
  - eapply wp_mono; [apply (wp_wait_reap s1 L C (cu_this u) HT); try done; eauto|].
    intros r s' (l1 & z & l2 & xz & ez & E1 & E2 & E3 & E4 & E5 & E6 & E7 & E8 & E9 & E10).
    exists l1, z, l2, xz, ez. split_and!; try done. rewrite <- Hext; [done|]. intros ->.
    apply view_lookup in Ev as (x0 & Ex0 & _ & ->). unfold s1 in E2. cbn [ps_sched] in E2. simplify_eq. simpl in Hv. by rewrite E3 in Hv.
  - apply wp_ret. split_and!; try done. split; [|done]. apply (tree_extra _ _ _ _ _ _ _ _ _ _ _ _ HT). intros p. unfold more. by destruct (decide _).
Qed.
End wait.
