(* ===== verification/ProcExit.v ===== *)
(** The end of a process: what [exit] of Proc.v does to the tree. *)
From Stdlib Require Import ZArith Lia.
From stdpp Require Import base numbers gmap list.
From S2P Require Import Prelude Sync ListNode Mem RbTree RbInsert RbErase Timer Sched Proc ProcTree ProcWait.

(** ** Changed processes that a call does not look at *)

(** The state with the processes [N] in place of those of [s]. *)
Definition overlay (N : gmap Z Proc) (s : Sched) : Sched := set_procs (N ∪ sc_procs s) s.

Definition outcome_map {S A} (f : S -> S) (o : outcome S A) : outcome S A :=
  match o with Done a s => Done a (f s) | Panicked s => Panicked (f s) | Blocked s => Blocked (f s) | Undefined => Undefined end.

Lemma activate_overlay N rq p b s : N !! p = None -> _activate_proc rq p b (overlay N s) = outcome_map (overlay N) (_activate_proc rq p b s).
Proof.
  intros E. unfold _activate_proc, acquire_sched_lock, release_sched_lock, proc_at, store_proc, on_nodes, modify, get_state, deref.
  unfold mbind, M_bind, mret, M_ret. cbn [overlay sc_lock set_procs]. destruct (sc_lock s); [done|].
  cbn [sc_procs set_lock overlay set_procs]. rewrite (lookup_union_r _ _ _ E). destruct (sc_procs s !! p) as [x|] eqn:Ex; [|done].
  destruct (has_state x _ || _); [done|]. destruct (has_state x _ || _); [|done].
  cbn [sc_nodes set_procs set_lock overlay]. destruct (_insert_into_list _ _ _) as [[a h]|]; [|done].
  cbn. f_equal. unfold overlay, set_procs, set_lock, Sched.set_nodes. cbn. by rewrite insert_union_r.
Qed.

Definition overlay_ps (N : gmap Z Proc) (s : PS) : PS := set_sched (overlay N (ps_sched s)) s.

Lemma post_overlay N rq p s : (forall q, q = p \/ (exists e, ps_ext s !! p = Some e /\ q ∈ Sem.sleeplist (childexit e)) -> N !! q = None) ->
  post_childexit rq p (overlay_ps N s) = outcome_map (overlay_ps N) (post_childexit rq p s).
Proof.
  intros HN. unfold post_childexit, ext_at, get_state, deref, mbind, M_bind. cbn [overlay_ps ps_ext set_sched].
  destruct (ps_ext s !! p) as [e|] eqn:Ee; [|done]. destruct (Sem._post_sem (childexit e)) as [[w sem]|] eqn:Es; [|done].
  destruct w as [q|]; [|done]. cbn [store_ext modify]. unfold on_sched, zoom.
  assert (N !! q = None) as Hq.
  { apply HN. right. exists e. split; [done|]. unfold Sem._post_sem in Es. destruct (_ <=? 0); [|done].
    destruct (last _) as [w|] eqn:El; simpl in Es; [|done]. simplify_eq. by apply last_Some_elem_of. }
  cbn [ps_sched set_up set_ext set_sched overlay_ps]. rewrite (activate_overlay N rq q false (ps_sched s) Hq).
  destruct (_activate_proc rq q false (ps_sched s)); done.
Qed.

Lemma wp_post_overlay N rq p s (Q : unit -> PS -> Prop) :
  (forall q, q = p \/ (exists e, ps_ext s !! p = Some e /\ q ∈ Sem.sleeplist (childexit e)) -> N !! q = None) ->
  wp (post_childexit rq p) (fun a s' => Q a (overlay_ps N s')) s -> wp (post_childexit rq p) Q (overlay_ps N s).
Proof. intros HN H. unfold wp in *. rewrite post_overlay by done. by destruct (post_childexit rq p s). Qed.

(** ** Waiting for ever

    Run from [s], [m] ends in a loop or a sleep it never leaves, in a state in [P]. *)
Definition blocks {S A} (m : M S A) (P : S -> Prop) (s : S) : Prop :=
  match m s with
  | Blocked s' => P s'
  | _ => False
  end.

Lemma blocks_bind {S A B} (m : M S A) (k : A -> M S B) P s : wp m (fun a s' => blocks (k a) P s') s -> blocks (a ← m; k a) P s.
Proof. unfold wp, blocks, mbind, M_bind. by destruct (m s). Qed.

Lemma blocks_bind_l {S A B} (m : M S A) (k : A -> M S B) P s : blocks m P s -> blocks (a ← m; k a) P s.
Proof. unfold blocks, mbind, M_bind. by destruct (m s). Qed.

Lemma exit_blocks_mono {S A} (m : M S A) (P Q : S -> Prop) s : blocks m P s -> (forall s', P s' -> Q s') -> blocks m Q s.
Proof. unfold blocks. destruct (m s); auto. Qed.

Section exit.
Context (freq : Z) (timestamp : nat -> Z) (rq invalid_pt : Z) (sched_timer : nat -> Z) (root_proc lim : Z).
Context (Hclock : clock_ok freq timestamp lim) (Hrq : rq <> 0).
Notation tree_at := (tree_at freq timestamp rq sched_timer root_proc lim).
Notation tree_inv := (tree_inv freq timestamp rq sched_timer root_proc lim).
Notation V s := (view (sc_procs (ps_sched s))).

(** A step that changes at most the semaphore and the state of [p]. *)
Record quiet (p : Z) (s s' : PS) : Prop := {
  qu_cpus : sc_cpus (ps_sched s') = sc_cpus (ps_sched s);
  qu_slock : sc_lock (ps_sched s') = sc_lock (ps_sched s);
  qu_plock : ps_lock s' = ps_lock s;
  qu_max : ps_max_pid s' = ps_max_pid s;
  qu_calls : ps_calls s' = ps_calls s;
  qu_procs : forall q, q <> p -> sc_procs (ps_sched s') !! q = sc_procs (ps_sched s) !! q;
  qu_ext : forall q, q <> p -> ps_ext s' !! q = ps_ext s !! q;
  qu_up : forall q, q <> p -> ps_up s' !! q = ps_up s !! q;
  qu_view : V s' = V s;
}.

#[local] Instance quiet_preorder p : PreOrder (quiet p).
Proof.
  split; [by intros s; split|]. intros a b c [] []. split; try congruence.
  - intros q Hq. by rewrite qu_procs1, qu_procs0.
  - intros q Hq. by rewrite qu_ext1, qu_ext0.
  - intros q Hq. by rewrite qu_up1, qu_up0.
Qed.

Lemma root_view ex d s L C : tree_at ex d s L C -> exists v, V s !! root_proc = Some v /\ v_parent v = root_proc /\ v_status v = Alive /\ v_pid v = 1.
Proof. intros H. apply (sh_root _ _ _ _ (ti_shape _ _ _ _ _ _ _ _ _ _ _ H)). Qed.

(** A post from code that holds the lock of the scheduler, over changed
    processes. *)
Lemma wp_post_quiet ex d N s L C p v (Q : unit -> PS -> Prop) :
  tree_at ex d s L C -> sc_lock (ps_sched s) = false -> V s !! p = Some v -> v_status v <> Zombie -> d <> Some p -> 0 <= ex p -> N !! p = None ->
  (forall s' L', tree_at (more ex p 1) d s' L' C -> quiet p s s' -> Q tt (overlay_ps N s')) ->
  wp (post_childexit rq p) Q (overlay_ps N s).
Proof.
  intros H Hl Ev Hv Hd Hex HN HQ. destruct (proj2 (ti_ext _ _ _ _ _ _ _ _ _ _ _ H p)) as [e Ee]; [eauto|].
  apply wp_post_overlay.
  { intros q [->|(e' & Ee' & Hq)]; [done|]. simplify_eq. pose proof (ti_tokens _ _ _ _ _ _ _ _ _ _ _ H p e v Ee Ev Hv Hd) as Ht. unfold tokens in Ht.
    destruct (ps_up s !! p) as [[]|]; [destruct Ht as [Ht _]|destruct Ht as [Ht _]|]; rewrite Ht in Hq; simpl in Hq.
    - by apply elem_of_nil in Hq.
    - by apply list_elem_of_singleton in Hq as ->.
    - by apply elem_of_nil in Hq. }
  apply (wp_post_childexit freq timestamp rq sched_timer root_proc lim Hclock Hrq ex d s L C p v); try done.
  intros S' L' ext' up' s' HT Hl' Hc Hk HV _ He Hp Hu. apply (HQ s' L'); [done|]. split; try done. cbn. congruence.
Qed.

Lemma wp_reparent_children this l : forall k N s L C,
  tree_at (more (fun _ => 0) root_proc k) (Some this) s L C -> is_Some (V s !! this) -> this <> root_proc -> 0 <= k ->
  sc_lock (ps_sched s) = true -> (forall q, q ∈ l -> q ∈ C this) -> NoDup l -> N !! root_proc = None -> (forall q, q ∈ l -> N !! q = None) ->
  wp (reparent rq root_proc this ((ptnode <$> l) ++ [children this])) (fun _ sf => exists s' L' N', sf = overlay_ps N' s' /\
    tree_at (more (fun _ => 0) root_proc (k + zombies (V s) l)) (Some this) s' L' C /\ quiet root_proc s s' /\
    forall q, N' !! q = if decide (q ∈ l) then set_parent root_proc <$> sc_procs (ps_sched s) !! q else N !! q) (overlay_ps N s).
Proof.
  induction l as [|q l IH]; intros k N s L C H Hthis Hne Hk Hl HC Hnd HNr HN; cbn [fmap list_fmap app reparent].
  - rewrite Z.eqb_refl. apply wp_bind, wp_ret, wp_ret. exists s, L, N. split_and!; try done.
    change (zombies (V s) []) with 0. by rewrite Z.add_0_r.
  - apply NoDup_cons in Hnd as [Hql Hnd].
    destruct (tree_child _ _ _ _ _ _ _ _ _ _ _ _ q H Hthis) as (x & Ex & Hpid & Hpar & Hqr & Hq0 & Hqc); [apply HC; by left|].
    rewrite (proj2 (Z.eqb_neq _ _)) by done. cbv zeta. rewrite ptnode_back.
    assert (N !! q = None) as HNq by (apply HN; by left).
    apply wp_bind, wp_bind, (wp_read_proc _ _ x). { cbn. by rewrite lookup_union_r. }
    apply wp_bind, wp_zoom, wp_modify. set (N1 := <[q := set_parent root_proc x]> N).
    match goal with |- wp _ _ ?e => assert (e = overlay_ps N1 s) as -> end.
    { unfold overlay_ps, overlay, set_sched, set_procs, N1. cbn. by rewrite insert_union_l. }
    assert (N1 !! root_proc = None) as HN1r by (unfold N1; by rewrite lookup_insert_ne).
    assert (forall q', q' ∈ l -> N1 !! q' = None) as HN1.
    { intros q' Hq'. unfold N1. rewrite lookup_insert_ne by congruence. apply HN. by right. }
    assert (zombie (V s) q = has_state x [ZOMBIE]) as Ez.
    { unfold zombie. rewrite (view_some _ _ x) by done. unfold has_state. simpl. by destruct (state x). }
    assert (forall s1 s' (N' : gmap Z Proc), quiet root_proc s s1 -> quiet root_proc s1 s' ->
      (forall p, N' !! p = if decide (p ∈ l) then set_parent root_proc <$> sc_procs (ps_sched s1) !! p else N1 !! p) ->
      forall p, N' !! p = if decide (p ∈ q :: l) then set_parent root_proc <$> sc_procs (ps_sched s) !! p else N !! p) as HN'.
    { intros s1 s' N' Q1 Q2 E p. rewrite E. destruct (decide (p ∈ l)) as [Hp|Hp].
      - rewrite decide_True by (by right). rewrite (qu_procs _ _ _ Q1); [done|]. intros ->.
        destruct (tree_child _ _ _ _ _ _ _ _ _ _ _ _ root_proc H Hthis) as (? & _ & _ & _ & ? & _); [apply HC; by right|done].
      - unfold N1. destruct (decide (p = q)) as [->|Hpq].
        + rewrite decide_True by (by left). by rewrite lookup_insert_eq, Ex.
        + rewrite decide_False by (rewrite elem_of_cons; tauto). by rewrite lookup_insert_ne. }
    rewrite zombies_cons, Ez. destruct (has_state x [ZOMBIE]).
    + destruct (root_view _ _ _ _ _ H) as (vr & Evr & _ & Hvr & _).
      apply wp_bind, wp_zoom, wp_modify.
      set (s0 := set_sched (set_lock false (ps_sched s)) s).
      assert (tree_at (more (fun _ => 0) root_proc k) (Some this) s0 L C) as H0 by (by apply (tree_locks _ _ _ _ _ _ _ _ s)).
      match goal with |- wp _ _ ?e => change e with (overlay_ps N1 s0) end. apply wp_bind.
      apply (wp_post_quiet (more (fun _ => 0) root_proc k) (Some this) N1 s0 L C root_proc vr _ H0); try done; [congruence|congruence|unfold more; rewrite decide_True by done; lia|].
      intros s2 L2 H2 Q2. apply wp_sched_lock; [apply (qu_slock _ _ _ Q2)|].
      set (s3 := set_sched (set_lock true (ps_sched s2)) s2).
      assert (tree_at (more (fun _ => 0) root_proc (k + 1)) (Some this) s3 L2 C) as H3.
      { apply (tree_locks _ _ _ _ _ _ _ _ s2); try done. apply (tree_extra _ _ _ _ _ _ _ _ _ _ _ _ H2). intros p. unfold more. repeat destruct (decide _); lia || done. }
      assert (quiet root_proc s s3) as Q3 by (destruct Q2; split; try done).
      eapply wp_mono; [apply (IH (k + 1) N1 s3 L2 C H3); try done; [by rewrite (qu_view _ _ _ Q3)|lia|intros q' Hq'; apply HC; by right]|].
      intros [] sf (s' & L' & N' & -> & HT & Q' & E'). exists s', L', N'. split_and!; [done| |by transitivity s3|by eapply HN'].
      rewrite (qu_view _ _ _ Q3) in HT. replace (k + (1 + zombies (V s) l)) with (k + 1 + zombies (V s) l) by lia. done.
    + apply wp_ret. eapply wp_mono; [apply (IH k N1 s L C H); try done; intros q' Hq'; apply HC; by right|].
      intros [] sf (s' & L' & N' & -> & HT & Q' & E'). exists s', L', N'. split_and!; [done|done|done|]. apply (HN' s s' N'); done.
Qed.

(** ** The children go to the root *)

Lemma view_overlay_lookup N ps q : (forall p y, N !! p = Some y -> exists x, ps !! p = Some x /\ y = set_parent root_proc x) ->
  view (N ∪ ps) !! q = if decide (is_Some (N !! q)) then adopt root_proc <$> view ps !! q else view ps !! q.
Proof.
  intros HN. unfold view. rewrite !lookup_omap. destruct (N !! q) as [y|] eqn:Ey.
  - rewrite decide_True by eauto. rewrite (lookup_union_Some_l _ _ _ _ Ey). destruct (HN q y Ey) as (x & -> & ->). simpl. unfold view_of. simpl.
    by destruct (decide (pid x = -1)).
  - rewrite decide_False by (intros [? ?]; done). by rewrite lookup_union_r.
Qed.

Lemma inv_overlay N : forall s L, sched_inv freq timestamp rq sched_timer lim s L ->
  (forall q y, N !! q = Some y -> exists x, sc_procs s !! q = Some x /\ pid y = pid x /\ state y = state x /\ kcontext y = kcontext x) ->
  sched_inv freq timestamp rq sched_timer lim (overlay N s) L.
Proof.
  induction N as [|i y m Hi IH] using map_ind; intros s L H HN.
  - unfold overlay. rewrite (left_id_L ∅ (∪)). by destruct s, H.
  - destruct (HN i y) as (x & Ex & E1 & E2 & E3); [apply lookup_insert_eq|].
    assert (overlay (<[i := y]> m) s = set_procs (<[i := y]> (sc_procs (overlay m s))) (overlay m s)) as ->.
    { unfold overlay, set_procs. cbn. by rewrite insert_union_l. }
    apply (core_store_same _ _ _ _ _ _ _ _ _ i x); try done; [|cbn; by rewrite lookup_union_r].
    apply IH; [done|]. intros q z Ez. apply HN. rewrite lookup_insert_ne; [done|]. congruence.
Qed.

Definition orphaned (C : Z -> list Z) (this : Z) : Z -> list Z :=
  fun p => if decide (p = root_proc) then C this ++ C root_proc else if decide (p = this) then [] else C p.

Lemma shape_orphans V V' C m this :
  shape root_proc V C m -> is_Some (V !! this) -> this <> root_proc ->
  (forall q, V' !! q = if decide (q ∈ C this) then adopt root_proc <$> V !! q else V !! q) ->
  shape root_proc V' (orphaned C this) m.
Proof.
  intros H Hthis Hne E. destruct (sh_root _ _ _ _ H) as (vr & Evr & Hpr & Hzr & Hpid1).
  assert (forall q w', V' !! q = Some w' -> exists w, V !! q = Some w /\ w' = if decide (q ∈ C this) then adopt root_proc w else w) as Hback.
  { intros q w'. rewrite E. destruct (decide (q ∈ C this)); [|eauto]. intros (w & -> & Ew)%fmap_Some. eauto. }
  assert (forall q w, V !! q = Some w -> V' !! q = Some (if decide (q ∈ C this) then adopt root_proc w else w)) as Hforth.
  { intros q w Ew. rewrite E, Ew. by destruct (decide (q ∈ C this)). }
  assert (forall p, is_Some (V' !! p) -> is_Some (V !! p)) as Hdom by (intros p [w (w' & ? & _)%Hback]; eauto).
  assert (root_proc ∉ C this) as Hrc by (intros [? _]%(sh_children _ _ _ _ H); done).
  split.
  - exists vr. rewrite (Hforth _ _ Evr). by rewrite decide_False.
  - intros p v (w & Ew & ->)%Hback. pose proof (sh_pid _ _ _ _ H p w Ew). by destruct (decide _).
  - intros p q v u (v0 & Ev & ->)%Hback (u0 & Eu & ->)%Hback Hp. apply (sh_inj _ _ _ _ H p q v0 u0); try done. by repeat destruct (decide _).
  - intros p q Hp%Hdom. unfold orphaned. destruct (decide (p = root_proc)) as [->|Hpr'].
    + rewrite elem_of_app, (sh_children _ _ _ _ H root_proc q Hp). split.
      * intros [Hq|(Hq & w & Ew & Hw)].
        -- pose proof Hq as (Hqr & w & Ew & _)%(sh_children _ _ _ _ H); [|done]. split; [done|]. exists (adopt root_proc w). rewrite (Hforth _ _ Ew). by rewrite decide_True.
        -- split; [done|]. exists w. rewrite (Hforth _ _ Ew). rewrite decide_False; [done|]. intros (_ & w' & Ew' & Hw')%(sh_children _ _ _ _ H); [|done]. congruence.
      * intros (Hq & w' & (w & Ew & ->)%Hback & Hw). destruct (decide (q ∈ C this)); [by left|right]. split; [done|]. by exists w.
    + destruct (decide (p = this)) as [->|Hpt].
      * split; [by intros ?%elem_of_nil|]. intros (Hq & w' & (w & Ew & ->)%Hback & Hw). destruct (decide (q ∈ C this)) as [Hin|Hin]; [simpl in Hw; congruence|].
        destruct Hin. apply (sh_children _ _ _ _ H); [done|]. split; [done|]. by exists w.
      * rewrite (sh_children _ _ _ _ H p q Hp). split.
        -- intros (Hq & w & Ew & Hw). split; [done|]. exists w. rewrite (Hforth _ _ Ew). rewrite decide_False; [done|].
           intros (_ & w' & Ew' & Hw')%(sh_children _ _ _ _ H); [|done]. congruence.
        -- intros (Hq & w' & (w & Ew & ->)%Hback & Hw). split; [done|]. exists w. destruct (decide (q ∈ C this)); [simpl in Hw; congruence|done].
  - intros q w' (w & Ew & ->)%Hback Hq. destruct (decide (q ∈ C this)) as [Hin|Hin].
    + right. exists vr. simpl. rewrite (Hforth _ _ Evr). rewrite decide_False by done. split_and!; try done.
      pose proof (sh_pid _ _ _ _ H q w Ew). rewrite Hpid1. destruct (decide (v_pid w = 1)) as [E1|]; [|lia]. destruct Hq. apply (sh_inj _ _ _ _ H q root_proc w vr); congruence.
    + destruct (sh_parent _ _ _ _ H q w Ew Hq) as [?|(v & Ev & Hv & Hlt)]; [by left|right]. eexists. rewrite (Hforth _ _ Ev). split; [done|].
      by destruct (decide _).
Qed.

(** The lists after the children have moved. *)
Record moved (s : PS) (C : Z -> list Z) (this : Z) (h : heap) : Prop := {
  mo_root : ring h (children root_proc) (ptnode <$> C this ++ C root_proc);
  mo_this : ring h (children this) [];
  mo_rq : same_node (sc_nodes (ps_sched s)) h rq;
  mo_other : forall q a, is_Some (sc_procs (ps_sched s) !! q) -> 0 <= a <= sizeof_Proc - 1 -> (a = 40 -> q <> this /\ q <> root_proc) ->
    (a = 56 -> q ∉ C this /\ q ∉ C root_proc) -> same_node (sc_nodes (ps_sched s)) h (q + a);
}.

Lemma wp_give_children ex d s L C this s0 (Q : unit -> PS -> Prop) :
  tree_at ex d s L C -> is_Some (V s !! this) -> this <> root_proc -> sc_nodes (ps_sched s0) = sc_nodes (ps_sched s) ->
  (forall h, moved s C this h -> Q tt (set_sched (Sched.set_nodes h (ps_sched s0)) s0)) ->
  wp (give_children root_proc this) Q s0.
Proof.
  intros H Hthis Hne En HQ. destruct (root_view _ _ _ _ _ H) as (vr & Evr & _). assert (is_Some (V s !! root_proc)) as Hroot by eauto.
  pose proof (ti_layout _ _ _ _ _ _ _ _ _ _ _ H) as Hl. pose proof (ti_shape _ _ _ _ _ _ _ _ _ _ _ H) as Hs.
  pose proof (ri_children _ _ _ (ti_rings _ _ _ _ _ _ _ _ _ _ _ H) this Hthis) as R1. pose proof (ri_children _ _ _ (ti_rings _ _ _ _ _ _ _ _ _ _ _ H) root_proc Hroot) as R2.
  assert (forall q a, is_Some (sc_procs (ps_sched s) !! q) -> 0 <= a <= sizeof_Proc - 1 -> (a = 40 -> q <> this /\ q <> root_proc) ->
    (a = 56 -> q ∉ C this /\ q ∉ C root_proc) -> q + a ∉ children this :: (ptnode <$> C this) /\ q + a ∉ children root_proc :: (ptnode <$> C root_proc)) as Hout.
  { intros q a Hq Ha H40 H56. split; [apply (not_child _ _ _ _ _ _ _ _ _ _ _ this q a H Hthis)|apply (not_child _ _ _ _ _ _ _ _ _ _ _ root_proc q a H Hroot)]; try done; naive_solver. }
  assert (forall p, is_Some (V s !! p) -> rq ∉ children p :: (ptnode <$> C p)) as Hrqout.
  { intros p Hp. rewrite elem_of_cons, list_elem_of_fmap. intros [E|(q & E & Hq)]; symmetry in E; revert E; apply (node_not_rq rq (sc_procs (ps_sched s))); try done.
    - by apply view_proc.
    - apply view_proc. by eapply child_proc.
    }
  unfold give_children. apply wp_bind, (wp_nodes _ _ (default (children this) (head (ptnode <$> C this))) (sc_nodes (ps_sched s))).
  { rewrite En. by rewrite (ring_next _ _ _ R1). }
  assert (forall h, set_sched (Sched.set_nodes h (ps_sched (set_sched (Sched.set_nodes (sc_nodes (ps_sched s)) (ps_sched s0)) s0))) (set_sched (Sched.set_nodes (sc_nodes (ps_sched s)) (ps_sched s0)) s0) =
    set_sched (Sched.set_nodes h (ps_sched s0)) s0) as Eset by done.
  assert (C this = [] \/ exists q l, C this = q :: l) as [EC|(q & l & EC)] by (destruct (C this); eauto).
  - rewrite EC. cbn [head fmap list_fmap default from_option]. rewrite Z.eqb_refl. apply wp_ret. apply HQ. rewrite EC in R1. split; rewrite ?EC; try done.
  - destruct (tree_child _ _ _ _ _ _ _ _ _ _ _ this q H Hthis) as (y & _ & _ & _ & _ & Hq0 & Hqc); [rewrite EC; by left|].
    rewrite EC. cbn [head fmap list_fmap default from_option]. rewrite (proj2 (Z.eqb_neq _ _)) by done. cbn [negb]. rewrite EC in R1.
    assert (ring (sc_nodes (ps_sched s)) (ptnode q) ((ptnode <$> l) ++ [children this])) as R1' by (apply (ring_rotate _ _ []); exact R1).
    destruct (merge_spec (sc_nodes (ps_sched s)) (children root_proc) (ptnode <$> C root_proc) (ptnode q) ((ptnode <$> l) ++ [children this])) as (h1 & E1 & M1 & F1); try done.
    { unfold children. pose proof (lo_pos _ _ Hl root_proc (view_proc _ _ Hroot)). lia. }
    { unfold ptnode. lia. }
    { assert (forall n, n ∈ children root_proc :: (ptnode <$> C root_proc) -> n ∉ children this :: (ptnode <$> C this)) as Hd.
      { intros n [->|(r & -> & Hr)%list_elem_of_fmap]%elem_of_cons.
        - apply (not_child _ _ _ _ _ _ _ _ _ _ _ this root_proc 40 H Hthis); try done. by apply view_proc.
        - apply (not_child _ _ _ _ _ _ _ _ _ _ _ this r 56 H Hthis); try done.
          + apply view_proc. by eapply child_proc.
          + intros _ Hr'. apply Hne. by apply (child_unique _ _ _ _ this root_proc r Hs). }
      intros n Hn Hn'. apply (Hd n Hn). rewrite EC. cbn [fmap list_fmap]. set_solver. }
    apply wp_bind. eapply wp_nodes; [exact E1|].
    assert (ring h1 (children root_proc) ((ptnode <$> C this) ++ children this :: (ptnode <$> C root_proc))) as M1'.
    { rewrite EC. cbn [fmap list_fmap app]. rewrite <- app_assoc in M1. exact M1. }
    destruct (detach_spec _ _ _ _ _ M1') as (h2 & E2 & D1 & D2 & F2).
    apply wp_bind. eapply wp_nodes; [exact E2|]. apply wp_ret. cbn. apply (HQ h2).
    assert (forall n, n ∉ children this :: (ptnode <$> C this) -> n ∉ children root_proc :: (ptnode <$> C root_proc) -> same_node (sc_nodes (ps_sched s)) h2 n) as Hsame.
    { intros n Hn1 Hn2. unfold same_node. destruct (F2 n) as [-> ->]; [set_solver|]. apply F1; [done|]. rewrite EC in Hn1. cbn [fmap list_fmap] in Hn1. set_solver. }
    split.
    + by rewrite fmap_app.
    + done.
    + apply Hsame; by apply Hrqout.
    + intros r a Hr Ha H40 H56. destruct (Hout r a Hr Ha H40 H56). by apply Hsame.
Qed.

Lemma tree_orphans ex s L C this N h :
  tree_at (more ex root_proc (zombies (V s) (C this))) (Some this) s L C -> is_Some (V s !! this) -> this <> root_proc ->
  (forall q, N !! q = if decide (q ∈ C this) then set_parent root_proc <$> sc_procs (ps_sched s) !! q else None) -> moved s C this h ->
  tree_at ex (Some this) (set_sched (Sched.set_nodes h (overlay N (ps_sched s))) s) L (orphaned C this).
Proof.
  intros H Hthis Hne HN [M1 M2 M3 M4]. pose proof (ti_shape _ _ _ _ _ _ _ _ _ _ _ H) as Hs. pose proof (ti_layout _ _ _ _ _ _ _ _ _ _ _ H) as Hl.
  assert (forall p y, N !! p = Some y -> exists x, sc_procs (ps_sched s) !! p = Some x /\ y = set_parent root_proc x) as HN'.
  { intros p y. rewrite HN. destruct (decide _); [|done]. intros (x & Ex & ->)%fmap_Some. eauto. }
  destruct (root_view _ _ _ _ _ H) as (vr & Evr & Hpr & Hzr & _).
  assert (0 < root_proc) as Hr0 by (apply (lo_pos _ _ Hl), view_proc; eauto).
  assert (forall p, is_Some ((N ∪ sc_procs (ps_sched s)) !! p) <-> is_Some (sc_procs (ps_sched s) !! p)) as Hdom.
  { intros p. rewrite lookup_union_is_Some. split; [intros [[y Ey]|?]; [destruct (HN' p y Ey) as (x & ? & _); eauto|done]|tauto]. }
  set (V' := view (N ∪ sc_procs (ps_sched s))).
  assert (forall q, V' !! q = if decide (q ∈ C this) then adopt root_proc <$> V s !! q else V s !! q) as HV.
  { intros q. unfold V'. rewrite (view_overlay_lookup N) by done. rewrite HN. destruct (decide (q ∈ C this)) as [Hq|Hq].
    - destruct (tree_child _ _ _ _ _ _ _ _ _ _ _ this q H Hthis Hq) as (x & Ex & _). rewrite Ex. rewrite decide_True by (simpl; eauto). done.
    - rewrite decide_False by (intros [? ?]; done). done. }
  assert (forall q w', V' !! q = Some w' -> exists w, V s !! q = Some w /\ v_status w' = v_status w /\ (v_parent w' = v_parent w \/ q ∈ C this)) as Hback.
  { intros q w'. rewrite HV. destruct (decide (q ∈ C this)); [|eauto]. intros (w & Ew & ->)%fmap_Some. exists w. split_and!; try done. by right. }
  assert (forall p, is_Some (V' !! p) <-> is_Some (V s !! p)) as HVd.
  { intros p. rewrite HV. destruct (decide _); [by rewrite fmap_is_Some|done]. }
  assert (forall l, zombies V' l = zombies (V s) l) as Hz.
  { intros l. apply zombies_ext. intros q _. unfold zombie. rewrite HV. destruct (decide _); [|done]. by destruct (V s !! q). }
  split; cbn [ps_sched ps_ext ps_up ps_max_pid set_sched sc_procs sc_nodes Sched.set_nodes overlay set_procs]; fold V'.
  - apply inv_nodes.
    + apply inv_overlay; [apply (ti_sched _ _ _ _ _ _ _ _ _ _ _ H)|]. intros q y Ey. destruct (HN' q y Ey) as (x & Ex & ->). by exists x.
    + intros n [->|(q & -> & Hq)%list_elem_of_fmap]%elem_of_cons; [done|]. destruct (queue_alive _ _ _ _ _ _ _ _ _ _ _ q H Hq) as [Hqs _]. apply M4; done || (unfold sizeof_Proc; lia).
    + cbn [sc_procs overlay set_procs]. intros q Hq%Hdom. apply (alive_frame (sc_nodes (ps_sched s))); [apply M4; done || (unfold sizeof_Proc; lia)|].
      destruct Hq as [y Ey]. by destruct (si_nodes _ _ _ _ _ _ _ _ _ (ti_sched _ _ _ _ _ _ _ _ _ _ _ H) q y Ey) as (_ & _ & _ & ?).
  - by apply (shape_orphans (V s)).
  - destruct Hl. split; setoid_rewrite Hdom; done.
  - split.
    + intros p Hp%HVd. unfold orphaned. destruct (decide (p = root_proc)) as [->|Hpr']; [done|]. destruct (decide (p = this)) as [->|Hpt]; [done|].
      apply (ring_same (sc_nodes (ps_sched s))); [by apply (ri_children _ _ _ (ti_rings _ _ _ _ _ _ _ _ _ _ _ H))|].
      intros n [->|(q & -> & Hq)%list_elem_of_fmap]%elem_of_cons; apply M4; try done; try (unfold sizeof_Proc; lia).
      * by apply view_proc.
      * apply view_proc. by eapply child_proc.
      * intros _. split; intros Hq'; [apply Hpt|apply Hpr']; eapply child_unique; eauto.
    + intros q w' Ew' Hw'. destruct (Hback q w' Ew') as (w & Ew & _ & Hor). rewrite HV, Ew in Ew'.
      destruct (decide (q ∈ C this)) as [Hq|Hq].
      { simpl in Ew'. injection Ew' as <-. simpl in Hw'. lia. }
      injection Ew' as <-. apply (ring_same (sc_nodes (ps_sched s))); [by eapply (ri_new _ _ _ (ti_rings _ _ _ _ _ _ _ _ _ _ _ H))|].
      intros n ->%list_elem_of_singleton. apply M4; try done; try (unfold sizeof_Proc; lia); [apply view_proc; eauto|]. intros _. split; [done|].
      intros (_ & w2 & E2 & Hw2)%(sh_children _ _ _ _ Hs); [|eauto]. rewrite Ew in E2. injection E2 as <-. lia.
    + intros q w' Ew' Hw'. destruct (Hback q w' Ew') as (w & Ew & Est & _). rewrite Est in Hw'.
      apply (ring_same (sc_nodes (ps_sched s))); [by eapply (ri_zombie _ _ _ (ti_rings _ _ _ _ _ _ _ _ _ _ _ H))|].
      intros n ->%list_elem_of_singleton. apply M4; try done; try (unfold sizeof_Proc; lia). apply view_proc; eauto.
  - intros p. rewrite HVd. apply (ti_ext _ _ _ _ _ _ _ _ _ _ _ H).
  - apply (ti_files _ _ _ _ _ _ _ _ _ _ _ H).
  - intros p b Eb. destruct (ti_up _ _ _ _ _ _ _ _ _ _ _ H p b Eb) as (v & Ev & Hv). rewrite HV, Ev. destruct (decide _); eexists; split; try done.
  - intros p e v' Ee Ev' Hv' Hd. destruct (Hback p v' Ev') as (v & Ev & Est & _). rewrite Est in Hv'.
    pose proof (ti_tokens _ _ _ _ _ _ _ _ _ _ _ H p e v Ee Ev Hv' Hd) as Ht. unfold tokens in *. rewrite !Hz. unfold orphaned. unfold more in Ht.
    destruct (decide (p = root_proc)) as [->|Hpr'].
    + rewrite zombies_app. replace (zombies (V s) (C this) + zombies (V s) (C root_proc) + ex root_proc) with (zombies (V s) (C root_proc) + (ex root_proc + zombies (V s) (C this))) by lia. done.
    + rewrite decide_False by congruence. done.
Qed.

(** ** The process becomes a zombie *)

Lemma shape_zombie V C m this v :
  shape root_proc V C m -> V !! this = Some v -> v_status v = Alive -> this <> root_proc -> C this = [] ->
  shape root_proc (<[this := with_status Zombie v]> V) C m.
Proof.
  intros H Ev Hv Hne EC.
  assert (forall q w', <[this := with_status Zombie v]> V !! q = Some w' -> exists w, V !! q = Some w /\ v_pid w' = v_pid w /\ v_parent w' = v_parent w /\
    (v_status w' = v_status w \/ q = this)) as Hback.
  { intros q w' [[<- <-]|[_ Ew]]%lookup_insert_Some; [exists v|exists w']; split_and!; try done; [by right|by left]. }
  assert (forall q w, V !! q = Some w -> exists w', <[this := with_status Zombie v]> V !! q = Some w' /\ v_pid w' = v_pid w /\ v_parent w' = v_parent w /\
    (q <> this -> v_status w' = v_status w)) as Hforth.
  { intros q w Ew. destruct (decide (q = this)) as [->|Hq]; [exists (with_status Zombie v); rewrite lookup_insert_eq; rewrite Ev in Ew; injection Ew as <-; done|].
    exists w. by rewrite lookup_insert_ne. }
  split.
  - destruct (sh_root _ _ _ _ H) as (vr & Evr & Hpr & Hzr & H1). exists vr. by rewrite lookup_insert_ne.
  - intros p w' (w & Ew & -> & _)%Hback. by eapply sh_pid.
  - intros p q w1 w2 (v1 & E1 & -> & _)%Hback (v2 & E2 & -> & _)%Hback. by apply (sh_inj _ _ _ _ H).
  - intros p q [w' (w & Ew & _)%Hback]. rewrite (sh_children _ _ _ _ H) by eauto. split.
    + intros (Hq & u & Eu & Hu). split; [done|]. destruct (Hforth q u Eu) as (u' & Eu' & _ & E & _). exists u'. by rewrite E.
    + intros (Hq & u' & (u & Eu & _ & E & _)%Hback & Hu). split; [done|]. exists u. by rewrite <- E.
  - intros q w' (w & Ew & Ep & Epar & Est)%Hback Hq. destruct (sh_parent _ _ _ _ H q w Ew Hq) as [[E0 HN]|(u & Eu & Hu & Hlt)].
    + left. rewrite Epar. split; [done|]. destruct Est as [->| ->]; [done|]. rewrite Ev in Ew. injection Ew as <-. congruence.
    + right. rewrite Epar. destruct (Hforth _ _ Eu) as (u' & Eu' & Ep' & _ & Hst'). exists u'. split_and!; [done| |lia].
      rewrite Hst'; [done|]. intros E. assert (q ∈ C this) as Hin; [|rewrite EC in Hin; by apply elem_of_nil in Hin].
      apply (sh_children _ _ _ _ H); [eauto|]. split; [done|]. exists w. by rewrite <- E.
Qed.

Lemma zombies_set V this v l : V !! this = Some v -> v_status v <> Zombie -> NoDup l ->
  zombies (<[this := with_status Zombie v]> V) l = zombies V l + (if decide (this ∈ l) then 1 else 0).
Proof.
  intros Ev Hv Hnd. assert (forall k, this ∉ k -> zombies (<[this := with_status Zombie v]> V) k = zombies V k) as Hout.
  { intros k Hk. apply zombies_ext. intros q Hq. unfold zombie. rewrite lookup_insert_ne; [done|]. congruence. }
  destruct (decide (this ∈ l)) as [Hin|Hin]; [|rewrite Hout by done; lia].
  apply list_elem_of_split in Hin as (l1 & l2 & ->). rewrite NoDup_app, NoDup_cons in Hnd. destruct Hnd as (_ & Hd & Hn & _).
  rewrite !zombies_app, !zombies_cons, !Hout; [|done|by intros Hx; destruct (Hd _ Hx); left].
  assert (zombie (<[this := with_status Zombie v]> V) this = true) as -> by (unfold zombie; by rewrite lookup_insert_eq).
  assert (zombie V this = false) as -> by (unfold zombie; rewrite Ev; by apply bool_decide_eq_false). lia.
Qed.

(** The last step: the zombie its parent has been told of is there. *)
Lemma tree_zombie s L C this v S' L' :
  tree_at (more (fun _ => 0) (v_parent v) 1) (Some this) s L C -> V s !! this = Some v -> v_status v = Alive -> this <> root_proc -> C this = [] ->
  ps_up s !! this = None -> sched_inv freq timestamp rq sched_timer lim S' L' -> view (sc_procs S') = <[this := with_status Zombie v]> (V s) ->
  kin_procs (sc_procs (ps_sched s)) (sc_procs S') -> off_queue rq L (ps_sched s) S' -> ring (sc_nodes S') (rqnode this) [] ->
  tree_at (fun _ => 0) None (set_sched S' s) L' C.
Proof.
  intros H Ev Hv Hne EC Hup HS EV Hk Ho Hring. pose proof (ti_shape _ _ _ _ _ _ _ _ _ _ _ H) as Hs. pose proof (ti_layout _ _ _ _ _ _ _ _ _ _ _ H) as Hl.
  assert (rings (sc_nodes S') (V s) C) as [R1 R2 R3].
  { apply (rings_off_queue rq root_proc (sc_procs (ps_sched s)) C (ps_max_pid s) L (ps_sched s)); try done; [| |apply (ti_rings _ _ _ _ _ _ _ _ _ _ _ H)].
    - intros p Hp. by apply (queue_alive _ _ _ _ _ _ _ _ _ _ _ p H Hp).
    - intros p w Hp Ew. by apply (proj2 (queue_alive _ _ _ _ _ _ _ _ _ _ _ p H Hp)). }
  assert (forall p, is_Some (view (sc_procs S') !! p) <-> is_Some (V s !! p)) as HVd.
  { intros p. rewrite EV. by eapply is_Some_insert. }
  split; cbn [ps_sched ps_ext ps_up ps_max_pid set_sched].
  - done.
  - rewrite EV. by apply shape_zombie.
  - assert (forall p, is_Some (sc_procs S' !! p) -> is_Some (sc_procs (ps_sched s) !! p)) as Hd.
    { intros p [y Ey]. destruct (kin_back _ _ _ _ Hk Ey) as (? & ? & _). eauto. }
    destruct Hl. split; eauto.
  - split.
    + intros p Hp%HVd. by apply R1.
    + intros q w. rewrite EV. intros [[<- <-]|[_ Ew]]%lookup_insert_Some Hw; [by eapply R2|by eapply R2].
    + intros q w. rewrite EV. intros [[<- <-]|[_ Ew]]%lookup_insert_Some Hw; [done|by eapply R3].
  - intros p. rewrite HVd. apply (ti_ext _ _ _ _ _ _ _ _ _ _ _ H).
  - apply (ti_files _ _ _ _ _ _ _ _ _ _ _ H).
  - intros p b Eb. destruct (ti_up _ _ _ _ _ _ _ _ _ _ _ H p b Eb) as (w & Ew & Hw). exists w. split; [|done]. rewrite EV, lookup_insert_ne; [done|]. congruence.
  - intros p e w Ee Ew Hw _. rewrite EV in Ew. apply lookup_insert_Some in Ew as [[<- <-]|[Hpt Ew]]; [done|].
    pose proof (ti_tokens _ _ _ _ _ _ _ _ _ _ _ H p e w Ee Ew Hw ltac:(congruence)) as Ht.
    assert (NoDup (C p)) as Hnd.
    { pose proof (ri_children _ _ _ (ti_rings _ _ _ _ _ _ _ _ _ _ _ H) p ltac:(eauto)) as R. destruct (ring_tail _ _ _ R) as (_ & _ & Hnd). by apply NoDup_fmap_1 in Hnd. }
    assert (this ∈ C p <-> p = v_parent v) as Hin.
    { rewrite (sh_children _ _ _ _ Hs) by eauto. split; [intros (_ & v' & Ev' & <-); congruence|]. intros ->. split; [done|]. by exists v. }
    unfold tokens in *. rewrite EV, (zombies_set _ _ _ _ Ev) by (congruence || done). unfold more in Ht.
    destruct (decide (this ∈ C p)) as [Hi|Hi].
    + rewrite (proj1 Hin Hi) in *. rewrite decide_True in Ht by done.
      replace (zombies (V s) (C (v_parent v)) + 1 + 0) with (zombies (V s) (C (v_parent v)) + (0 + 1)) by lia. done.
    + rewrite decide_False in Ht by (intros E; by apply Hi, Hin). by rewrite Z.add_0_r.
Qed.

(** Whether one of the files at the descriptors from [i] on needs the scheduler to
    be closed. *)
Fixpoint wakes_in (wakes : nat -> bool) (i : nat) (files : list Z) : bool :=
  match files with
  | [] => false
  | f :: files' => negb (f =? 0) && wakes i || wakes_in wakes (S i) files'
  end.
Definition close_waits (wakes : nat -> bool) (e : Ext) : bool := wakes_in wakes 0 (openfiles e).

Lemma wp_close_files wakes this n : forall i s e, ps_ext s !! this = Some e -> length (openfiles e) = (i + n)%nat -> wakes_in wakes i (drop i (openfiles e)) = false ->
  wp (close_files wakes this n i) (fun _ s' => s' = mkPS (ps_sched s) (ps_lock s) (ps_max_pid s)
    (<[this := set_openfiles (take i (openfiles e) ++ replicate n 0) e]> (ps_ext s)) (ps_up s)
    (ps_calls s ++ (File_close <$> filter (fun f => f <> 0) (drop i (openfiles e))))) s.
Proof.
  induction n as [|n IH]; intros i s e Ee Hlen Hw; cbn [close_files].
  - apply wp_ret. rewrite Nat.add_0_r in Hlen. rewrite take_ge, drop_ge by lia. cbn. rewrite !app_nil_r.
    rewrite insert_id; [by destruct s|]. rewrite Ee. by destruct e.
  - destruct (lookup_lt_is_Some_2 (openfiles e) i) as [f Ef]; [lia|].
    apply wp_bind, (wp_ext_at _ _ e); [done|]. apply wp_bind, (wp_deref _ f); [done|].
    assert (replicate (S n) 0 = [0] ++ replicate n 0) as Er by done.
    rewrite (drop_S _ _ _ Ef) in Hw |- *. cbn [wakes_in] in Hw. apply orb_false_iff in Hw as [Hf0 Hw]. rewrite filter_cons. destruct (Z.eqb_spec f 0) as [E0|Hf]; cbn [negb andb] in Hf0 |- *.
    + subst f. apply wp_bind, wp_ret. eapply wp_mono; [apply (IH (S i) s e Ee); [lia|done]|]. intros [] s' ->. rewrite decide_False by (intros Hx; done).
      rewrite (take_S_r _ _ _ Ef), <- app_assoc. done.
    + apply wp_bind, wp_bind, wp_modify. rewrite Hf0. apply wp_bind, wp_ret, wp_modify. eapply wp_mono; [apply (IH (S i) _ (set_openfiles (<[i := 0]> (openfiles e)) e)); [apply lookup_insert_eq| |]|].
      { cbn [openfiles set_openfiles]. rewrite length_insert. lia. }
      { cbn [openfiles set_openfiles]. by rewrite drop_insert_lt by lia. }
      intros [] s' ->. rewrite decide_True by done. cbn. rewrite insert_insert_eq, <- app_assoc. cbn. f_equal.
      * f_equal. unfold set_openfiles. cbn. f_equal. rewrite (take_S_r _ i 0) by (by rewrite list_lookup_insert_eq by lia).
        rewrite take_insert_ge by lia. by rewrite <- app_assoc.
      * rewrite drop_insert_lt by lia. done.
Qed.

(** Otherwise the CPU spins on the lock it holds. *)
Lemma close_files_hangs wakes this n : forall i s e, ps_ext s !! this = Some e -> length (openfiles e) = (i + n)%nat -> wakes_in wakes i (drop i (openfiles e)) = true ->
  sc_lock (ps_sched s) = true -> blocks (close_files wakes this n i) (fun s' => ps_sched s' = ps_sched s /\ ps_lock s' = ps_lock s) s.
Proof.
  induction n as [|n IH]; intros i s e Ee Hlen Hw Hl; cbn [close_files].
  - rewrite drop_ge in Hw by lia. done.
  - destruct (lookup_lt_is_Some_2 (openfiles e) i) as [f Ef]; [lia|]. rewrite (drop_S _ _ _ Ef) in Hw. cbn [wakes_in] in Hw.
    apply blocks_bind, (wp_ext_at _ _ e); [done|]. apply blocks_bind, (wp_deref _ f); [done|]. destruct (Z.eqb_spec f 0) as [E0|Hf]; cbn [negb andb orb] in Hw |- *.
    + apply blocks_bind, wp_ret. by apply (IH (S i) s e Ee); [lia|..].
    + destruct (wakes i); cbn [orb] in Hw.
      * apply blocks_bind_l, blocks_bind, wp_modify. apply blocks_bind_l, blocks_bind_l. unfold blocks, on_sched, zoom, acquire_sched_lock. cbn [add_call ps_sched]. by rewrite Hl.
      * apply blocks_bind, wp_bind, wp_modify, wp_bind, wp_ret, wp_modify. eapply exit_blocks_mono; [apply (IH (S i) _ (set_openfiles (<[i := 0]> (openfiles e)) e)); [apply lookup_insert_eq| | |done]|done].
        -- cbn [openfiles set_openfiles]. rewrite length_insert. lia.
        -- cbn [openfiles set_openfiles]. by rewrite drop_insert_lt by lia.
Qed.

(** What is left of a process that has called [exit]. *)
Definition exited (s : PS) (C : Z -> list Z) (c : nat) (this code : Z) (e : Ext) (s' : PS) : Prop :=
  exists L' x' u', tree_inv s' L' (orphaned C this) /\
    sc_procs (ps_sched s') !! this = Some x' /\ state x' = ZOMBIE /\ exitcode x' = code /\ pt x' = 0 /\
    sc_cpus (ps_sched s') !! c = Some u' /\ cu_this u' <> this /\
    ps_calls s' = ps_calls s ++ (File_close <$> filter (fun f => f <> 0) (openfiles e)) ++ [Free_pgdir this].

Lemma wp_exit_rest wakes s L C c u x e code v :
  tree_at (fun _ => 0) (Some (cu_this u)) s L C -> ps_lock s = true -> sc_lock (ps_sched s) = true -> C (cu_this u) = [] -> cu_this u <> root_proc ->
  sc_cpus (ps_sched s) !! c = Some u -> sc_procs (ps_sched s) !! cu_this u = Some x -> pid x <> -1 -> state x = RUNNING -> exitcode x = code ->
  V s !! cu_this u = Some v -> ps_ext s !! cu_this u = Some e -> ps_up s !! cu_this u = None -> close_waits wakes e = false ->
  wp (exit_rest freq timestamp rq invalid_pt sched_timer wakes c (cu_this u)) (fun _ s' => exists L' x' u', tree_inv s' L' C /\
    sc_procs (ps_sched s') !! cu_this u = Some x' /\ state x' = ZOMBIE /\ exitcode x' = code /\ pt x' = 0 /\
    sc_cpus (ps_sched s') !! c = Some u' /\ cu_this u' <> cu_this u /\
    ps_calls s' = ps_calls s ++ (File_close <$> filter (fun f => f <> 0) (openfiles e)) ++ [Free_pgdir (cu_this u)]) s.
Proof.
  intros H Hpl Hsl EC Hne Eu Ex Hpid Hrun Hcode Ev Ee Hup Hcw. set (this := cu_this u) in *.
  pose proof Ev as (x0 & Ex0 & _ & Evx)%view_lookup. rewrite Ex in Ex0. injection Ex0 as <-. rewrite Hrun in Evx. simpl in Evx.
  unfold exit_rest. apply wp_bind. eapply wp_mono; [apply (wp_close_files wakes this NOPENFILE 0 s e Ee); [apply (ti_files _ _ _ _ _ _ _ _ _ _ _ H _ _ Ee)|by rewrite drop_0]|].
  intros [] s1 ->. rewrite drop_0. cbn [take app].
  set (e1 := set_openfiles (replicate NOPENFILE 0) e). set (cl := _ ++ _).
  set (s1 := mkPS _ _ _ _ _ _).
  assert (tree_at (fun _ => 0) (Some this) s1 L C) as H1.
  { apply (tree_locks _ _ _ _ _ _ _ _ (set_ext (<[this := e1]> (ps_ext s)) s)); try done. by apply (tree_ext _ _ _ _ _ _ _ _ _ _ _ this e e1 H Ee). }
  apply wp_bind, wp_zoom, wp_modify, wp_bind, wp_modify, wp_bind, wp_acquire_plock; [done|]. apply wp_bind, wp_sched_lock; [done|].
  apply wp_bind, wp_modify, wp_bind, (wp_read_proc _ _ x); [done|]. apply wp_bind, wp_zoom, wp_modify, wp_bind, wp_zoom, wp_modify.
  match goal with |- wp _ _ ?st => set (s2 := st) end.
  assert (tree_at (fun _ => 0) (Some this) s2 L C) as H2.
  { apply (tree_locks _ _ _ _ _ _ _ _ (set_sched (set_procs (<[this := set_pt 0 x]> (sc_procs (ps_sched s1))) (ps_sched s1)) s1)); try done.
    by apply (tree_proc _ _ _ _ _ _ _ _ s1 L C this x (set_pt 0 x) H1). }
  assert (V s2 = V s) as EV2 by (by apply (view_same _ _ x)).
  assert (exists vp, V s2 !! parent x = Some vp /\ v_status vp <> Zombie /\ parent x <> this) as (vp & Evp & Hvp & Hpt).
  { rewrite EV2. destruct (sh_parent _ _ _ _ (ti_shape _ _ _ _ _ _ _ _ _ _ _ H) this v Ev Hne) as [[_ HN]|(vp & Evp & Hvp & Hlt)]; [by rewrite Evx in HN|].
    rewrite Evx in Evp, Hlt. simpl in Evp, Hlt. exists vp. split_and!; [done|congruence|]. intros E. rewrite E, Ev in Evp. injection Evp as <-. rewrite Evx in Hlt. simpl in Hlt. lia. }
  apply wp_bind.
  assert (s2 = overlay_ps ∅ s2) as Eov by (unfold overlay_ps, overlay; rewrite (left_id_L ∅ (∪)); by destruct s2 as [[] ? ? ? ? ?]).
  rewrite Eov. apply (wp_post_quiet (fun _ => 0) (Some this) ∅ s2 L C (parent x) vp); try done; [congruence|].
  intros s3 L3 H3 Q3. assert (overlay_ps ∅ s3 = s3) as -> by (unfold overlay_ps, overlay; rewrite (left_id_L ∅ (∪)); by destruct s3 as [[] ? ? ? ? ?]).
  clear Eov. apply wp_bind, wp_sched_lock; [apply (qu_slock _ _ _ Q3)|]. apply wp_bind, wp_modify. set (s4 := set_plock false _).
  assert (tree_at (more (fun _ => 0) (parent x) 1) (Some this) s4 L3 C) as H4 by (by apply (tree_locks _ _ _ _ _ _ _ _ s3)).
  assert (sc_procs (ps_sched s4) !! this = Some (set_pt 0 x)) as Ex4 by (cbn; rewrite (qu_procs _ _ _ Q3) by congruence; cbn; apply lookup_insert_eq).
  assert (sc_cpus (ps_sched s4) !! c = Some u) as Eu4 by (cbn; by rewrite (qu_cpus _ _ _ Q3)).
  assert (V s4 = V s) as EV4 by (change (V s4) with (V s3); rewrite (qu_view _ _ _ Q3); done).
  apply wp_bind, wp_zoom. eapply wp_mono; [apply (wp_sched freq timestamp rq invalid_pt sched_timer lim Hclock Hrq _ L3 c u (set_pt 0 x) ZOMBIE (ti_sched _ _ _ _ _ _ _ _ _ _ _ H4)); try done|].
  { unfold leaving. do 3 right. left. }
  intros [] S' Hsch.
  destruct (sched_view freq timestamp rq sched_timer lim (ps_sched s4) L3 c u (set_pt 0 x) ZOMBIE S') as (L' & u' & x' & Hs' & Hl' & Eu' & Hne' & Ho & Hkin & Hring & Ex' & Hst & Ev'); try done.
  { apply (ti_sched _ _ _ _ _ _ _ _ _ _ _ H4). }
  { by rewrite andb_false_r. }
  apply wp_bind, (wp_thisproc _ _ u'); [done|]. rewrite (proj2 (Z.eqb_neq _ _)) by done. apply wp_ret.
  destruct (kin_forth _ _ _ _ Hkin Ex4) as (x2 & Ex2 & (_ & _ & _ & K1 & _ & K2)). fold this in Ex'. rewrite Ex' in Ex2. injection Ex2 as <-.
  exists L', x', u'. split_and!; try done.
  - split; [|done]. apply (tree_zombie s4 L3 C this v S' L'); try done.
    + by rewrite Evx.
    + by rewrite EV4.
    + by rewrite Evx.
    + cbn. rewrite (qu_up _ _ _ Q3); [done|congruence].
    + rewrite Ev', EV4. unfold with_status. by rewrite Evx.
  - by rewrite K1.
  - cbn. rewrite (qu_calls _ _ _ Q3). cbn. unfold cl. by rewrite <- app_assoc.
Qed.

(** After the start of [exit]: the children belong to the root, both locks are held. *)
Record exiting (s : PS) (C : Z -> list Z) (c : nat) (u : cpu) (x : Proc) (e : Ext) (code : Z) (s' : PS) : Prop := {
  ex_tree : exists L', tree_at (fun _ => 0) (Some (cu_this u)) s' L' (orphaned C (cu_this u));
  ex_locks : ps_lock s' = true /\ sc_lock (ps_sched s') = true;
  ex_cpu : sc_cpus (ps_sched s') !! c = Some u;
  ex_proc : sc_procs (ps_sched s') !! cu_this u = Some (set_exitcode code x);
  ex_view : V s' !! cu_this u = Some (mkView (pid x) (parent x) Alive);
  ex_ext : ps_ext s' !! cu_this u = Some e;
  ex_up : ps_up s' !! cu_this u = None;
  ex_calls : ps_calls s' = ps_calls s;
}.

Lemma wp_exit_start s L C c u x e code :
  tree_inv s L C -> sc_cpus (ps_sched s) !! c = Some u -> sc_procs (ps_sched s) !! cu_this u = Some x -> pid x <> -1 -> cu_this u <> root_proc ->
  ps_ext s !! cu_this u = Some e -> ps_up s !! cu_this u = None ->
  wp (exit_start rq root_proc c code) (fun p s' => p = cu_this u /\ exiting s C c u x e code s') s.
Proof.
  intros (H & Hpl & Hsl) Eu Ex Hpid Hne Ee Hup. set (this := cu_this u) in *.
  destruct (si_this _ _ _ _ _ _ _ _ _ (ti_sched _ _ _ _ _ _ _ _ _ _ _ H) c u Eu) as (x0 & Ex0 & Hrun & _); [done|]. fold this in Ex0. rewrite Ex in Ex0. injection Ex0 as <-.
  assert (V s !! this = Some (mkView (pid x) (parent x) Alive)) as Ev by (rewrite (view_some _ _ x) by done; by rewrite Hrun).
  assert (is_Some (V s !! this)) as Hthis by eauto.
  unfold exit_start. apply wp_bind, (wp_thisproc _ _ u); [done|]. fold this. apply wp_bind, (wp_read_proc _ _ x); [done|].
  apply wp_bind, wp_assert. { rewrite (proj2 (Z.eqb_neq _ _)), (proj2 (Z.eqb_neq _ _)) by done. done. }
  apply wp_bind, wp_acquire_plock; [done|]. apply wp_bind, wp_sched_lock; [done|]. apply wp_bind, wp_zoom, wp_modify.
  match goal with |- wp _ _ ?st => set (s2 := st) end. set (x1 := set_exitcode code x).
  assert (tree_at (fun _ => 0) None s2 L C) as H2.
  { apply (tree_locks _ _ _ _ _ _ _ _ (set_sched (set_procs (<[this := x1]> (sc_procs (ps_sched s))) (ps_sched s)) s)); try done.
    by apply (tree_proc _ _ _ _ _ _ _ _ s L C this x x1 H). }
  assert (V s2 = V s) as EV2 by (by apply (view_same _ _ x)).
  apply wp_bind, (wp_child_nodes _ _ _ _ _ _ _ _ _ L C _ _ H2); [by rewrite EV2|].
  assert (NoDup (C this)) as Hnd.
  { pose proof (ri_children _ _ _ (ti_rings _ _ _ _ _ _ _ _ _ _ _ H) this Hthis) as R. destruct (ring_tail _ _ _ R) as (_ & _ & Hnd). by apply NoDup_fmap_1 in Hnd. }
  assert (s2 = overlay_ps ∅ s2) as Eov by (unfold overlay_ps, overlay; rewrite (left_id_L ∅ (∪)); by destruct s2 as [[] ? ? ? ? ?]).
  apply wp_bind. rewrite Eov. eapply wp_mono; [apply (wp_reparent_children this (C this) 0 ∅ s2 L C); try done; [|by rewrite EV2]|].
  { apply tree_dead. apply (tree_extra _ _ _ _ _ _ _ _ _ _ _ _ H2). intros p. unfold more. by destruct (decide _). }
  intros [] sf (s3 & L3 & N & -> & H3 & Q3 & HN). clear Eov.
  assert (is_Some (V s3 !! this)) as Hthis3 by (by rewrite (qu_view _ _ _ Q3), EV2).
  apply wp_bind, (wp_give_children _ _ s3 L3 C this (overlay_ps N s3) _ H3 Hthis3 Hne eq_refl). intros h Hm.
  assert (this ∉ C this) as Hself.
  { intros Hin. apply (child_ne _ _ _ _ this this (ti_shape _ _ _ _ _ _ _ _ _ _ _ H) Hthis); try done. apply (lo_pos _ _ (ti_layout _ _ _ _ _ _ _ _ _ _ _ H)). by apply view_proc. }
  assert (root_proc ∉ C this) as Hrc by (intros Hin; destruct (tree_child _ _ _ _ _ _ _ _ _ _ _ this root_proc H Hthis Hin) as (? & _ & _ & _ & ? & _); done).
  assert (N !! this = None) as HNt by (rewrite HN; by rewrite decide_False).
  set (s4 := set_sched _ _).
  assert (tree_at (fun _ => 0) (Some this) s4 L3 (orphaned C this)) as H4.
  { assert (forall q, N !! q = if decide (q ∈ C this) then set_parent root_proc <$> sc_procs (ps_sched s3) !! q else None) as HN3.
    { intros q. rewrite HN. destruct (decide (q ∈ C this)); [|done]. by rewrite (qu_procs _ _ _ Q3) by congruence. }
    pose proof (tree_orphans (fun _ => 0) s3 L3 C this N h) as HT.
    apply (tree_locks _ _ _ _ _ _ _ _ (set_sched (Sched.set_nodes h (overlay N (ps_sched s3))) s3)); try done.
    apply HT; try done. rewrite Z.add_0_l in H3. by rewrite (qu_view _ _ _ Q3). }
  assert (sc_procs (ps_sched s4) !! this = Some x1) as Ex4.
  { cbn. rewrite lookup_union_r by done. rewrite (qu_procs _ _ _ Q3) by done. cbn. apply lookup_insert_eq. }
  apply wp_ret. split; [done|]. split; fold this; try done.
  - by exists L3.
  - cbn. by rewrite (qu_plock _ _ _ Q3), (qu_slock _ _ _ Q3).
  - cbn. by rewrite (qu_cpus _ _ _ Q3).
  - rewrite (view_some _ _ x1); [|done|done]. simpl. by rewrite Hrun.
  - cbn. by rewrite (qu_ext _ _ _ Q3).
  - cbn. by rewrite (qu_up _ _ _ Q3).
  - cbn. by rewrite (qu_calls _ _ _ Q3).
Qed.

(** The whole of [exit]: the process is a zombie, or the CPU waits for itself. *)
Definition exit_ends (wakes : nat -> bool) (m : M PS unit) (s0 s : PS) (C : Z -> list Z) (c : nat) (this code : Z) (e : Ext) : Prop :=
  if close_waits wakes e then blocks m (fun s' => ps_lock s' = true /\ sc_lock (ps_sched s') = true) s0
  else wp m (fun _ => exited s C c this code e) s0.

Lemma exit_ends_exit wakes s L C c u x e code :
  tree_inv s L C -> sc_cpus (ps_sched s) !! c = Some u -> sc_procs (ps_sched s) !! cu_this u = Some x -> pid x <> -1 -> cu_this u <> root_proc ->
  ps_ext s !! cu_this u = Some e -> ps_up s !! cu_this u = None ->
  exit_ends wakes (exit freq timestamp rq invalid_pt sched_timer root_proc wakes c code) s s C c (cu_this u) code e.
Proof.
  intros H Eu Ex Hpid Hne Ee Hup. pose proof (wp_exit_start s L C c u x e code H Eu Ex Hpid Hne Ee Hup) as Hst.
  destruct (si_this _ _ _ _ _ _ _ _ _ (ti_sched _ _ _ _ _ _ _ _ _ _ _ (proj1 H)) c u Eu) as (x0 & Ex0 & Hrun & _); [done|]. rewrite Ex in Ex0. injection Ex0 as <-.
  assert (cu_this u ∉ C (cu_this u)) as Hself.
  { assert (is_Some (V s !! cu_this u)) as Hthis by (rewrite (view_some _ _ x) by done; eauto).
    intros Hin. apply (child_ne _ _ _ _ (cu_this u) (cu_this u) (ti_shape _ _ _ _ _ _ _ _ _ _ _ (proj1 H)) Hthis); try done. apply (lo_pos _ _ (ti_layout _ _ _ _ _ _ _ _ _ _ _ (proj1 H))). by apply view_proc. }
  unfold exit_ends, exit. destruct (close_waits wakes e) eqn:Ew.
  - apply blocks_bind. eapply wp_mono; [exact Hst|]. intros p s4 [-> [(L' & HT) [Hpl Hsl] E1 E2 E3 E4 E5 E6]]. unfold exit_rest. apply blocks_bind_l.
    eapply exit_blocks_mono; [apply (close_files_hangs wakes (cu_this u) NOPENFILE 0 s4 e E4); [apply (ti_files _ _ _ _ _ _ _ _ _ _ _ HT _ _ E4)|by rewrite drop_0|done]|].
    intros s' [-> ->]. done.
  - apply wp_bind. eapply wp_mono; [exact Hst|]. intros p s4 [-> [(L' & HT) [Hpl Hsl] E1 E2 E3 E4 E5 E6]].
    eapply wp_mono; [apply (wp_exit_rest wakes s4 L' (orphaned C (cu_this u)) c u (set_exitcode code x) e code (mkView (pid x) (parent x) Alive) HT); try done|].
    + unfold orphaned. rewrite decide_False by done. by rewrite decide_True.
    + intros [] s' (L2 & x' & u' & HT' & F1 & F2 & F3 & F4 & F5 & F6 & F7). exists L2, x', u'. split_and!; try done. by rewrite F7, E6.
Qed.

Lemma wp_exit wakes s L C c u x e code :
  tree_inv s L C -> sc_cpus (ps_sched s) !! c = Some u -> sc_procs (ps_sched s) !! cu_this u = Some x -> pid x <> -1 -> cu_this u <> root_proc ->
  ps_ext s !! cu_this u = Some e -> ps_up s !! cu_this u = None -> close_waits wakes e = false ->
  wp (exit freq timestamp rq invalid_pt sched_timer root_proc wakes c code) (fun _ => exited s C c (cu_this u) code e) s.
Proof.
  intros H Eu Ex Hpid Hne Ee Hup Hw. pose proof (exit_ends_exit wakes s L C c u x e code H Eu Ex Hpid Hne Ee Hup) as He. unfold exit_ends in He. by rewrite Hw in He.
Qed.
End exit.
