(* ===== verification/ProcLife.v ===== *)
(** The life of a process: creating, starting, finding and killing processes
    of Proc.v, and the theorems about the tree of processes. *)
From Stdlib Require Import ZArith Lia.
From stdpp Require Import base numbers gmap relations list.
From S2P Require Import Prelude Sync ListNode Mem RbTree RbInsert RbErase Timer Sched Proc ProcTree ProcWait ProcExit.

(** [q] is [p] or below it in the tree. *)
Definition below (C : Z -> list Z) : Z -> Z -> Prop := rtc (fun p q => q ∈ C p).

Section life.
Context (freq : Z) (timestamp : nat -> Z) (rq invalid_pt : Z) (sched_timer : nat -> Z) (root_proc lim : Z).
Context (Hclock : clock_ok freq timestamp lim) (Hrq : rq <> 0).
Notation tree_at := (tree_at freq timestamp rq sched_timer root_proc lim).
Notation tree_inv := (tree_inv freq timestamp rq sched_timer root_proc lim).
Notation V s := (view (sc_procs (ps_sched s))).

(** ** Finding a process *)

(** A started process with this pid. *)
Definition has_pid (V : gmap Z View) (id q : Z) : Prop := exists w, V !! q = Some w /\ v_pid w = id /\ v_status w <> New.

Lemma child_pid V C m p v q : shape root_proc V C m -> V !! p = Some v -> 0 < p -> q ∈ C p -> exists w, V !! q = Some w /\ v_pid v < v_pid w.
Proof.
  intros H Ev H0 Hq. apply (sh_children _ _ _ _ H) in Hq as (Hr & w & Ew & Hw); [|eauto]. exists w. split; [done|].
  destruct (sh_parent _ _ _ _ H q w Ew Hr) as [[? _]|(v' & Ev' & _ & Hlt)]; [lia|]. rewrite Hw in Ev'. congruence.
Qed.

(** Every process that has a parent is below the root. *)
Lemma below_root V C m q w : shape root_proc V C m -> V !! q = Some w -> v_status w <> New -> below C root_proc q.
Proof.
  intros H. assert (forall n q w, v_pid w < Z.of_nat n -> V !! q = Some w -> v_status w <> New -> below C root_proc q) as Hgo.
  { clear q w. induction n as [|n IH]; intros q w Hn Ew Hst; [pose proof (sh_pid _ _ _ _ H q w Ew); lia|].
    destruct (decide (q = root_proc)) as [->|Hq]; [apply rtc_refl|].
    destruct (sh_parent _ _ _ _ H q w Ew Hq) as [[E0 HN]|(v & Ev & Hv & Hlt)]; [done|].
    apply rtc_r with (v_parent w).
    - apply (IH _ v); [lia|done|congruence].
    - apply (sh_children _ _ _ _ H); [eauto|]. split; [done|]. by exists w. }
  intros Ew Hst. apply (Hgo (Z.to_nat (v_pid w + 1)) q w); [pose proof (sh_pid _ _ _ _ H q w Ew); lia|done|done].
Qed.

Lemma wp_is_unused s p x (Q : bool -> PS -> Prop) : sc_lock (ps_sched s) = false -> sc_procs (ps_sched s) !! p = Some x ->
  Q (has_state x [UNUSED]) s -> wp (on_sched (is_unused p)) Q s.
Proof.
  intros Hl Ex HQ. apply wp_zoom. unfold is_unused. apply wp_bind, wp_acquire; [done|]. apply wp_bind, (wp_proc_at _ _ x); [done|].
  apply wp_bind, wp_modify, wp_ret. destruct s as [[] ? ? ? ? ?]. simpl in *. by subst.
Qed.

Lemma wp_find_proc id fuel : forall cur v ex d s L C,
  tree_at ex d s L C -> sc_lock (ps_sched s) = false -> V s !! cur = Some v -> ps_max_pid s - v_pid v < Z.of_nat fuel ->
  wp (find_proc fuel id cur) (fun r s' => s' = s /\
    (r = 0 /\ (forall q, below C cur q -> ~ has_pid (V s) id q) \/ r <> 0 /\ below C cur r /\ has_pid (V s) id r)) s.
Proof.
  induction fuel as [|fuel IH]; intros cur v ex d s L C H Hl Ev Hf; [pose proof (sh_pid _ _ _ _ (ti_shape _ _ _ _ _ _ _ _ _ _ _ H) cur v Ev); lia|].
  cbn [find_proc]. pose proof Ev as (x & Ex & Hpid & Evx)%view_lookup. apply wp_bind, (wp_read_proc _ _ x); [done|].
  pose proof (ti_shape _ _ _ _ _ _ _ _ _ _ _ H) as Hs.
  assert (0 < cur) as Hcur by (apply (lo_pos _ _ (ti_layout _ _ _ _ _ _ _ _ _ _ _ H)); eauto).
  assert (has_pid (V s) id cur <-> pid x = id /\ state x <> UNUSED) as Hmatch.
  { unfold has_pid. rewrite Ev, Evx. split; [intros (w & [= <-] & Hw & Hst)|intros [Hw Hst]; eexists; split; [done|]]; simpl in *; (split; [done|]); by destruct (state x). }
  apply wp_bind.
  assert (forall Q : bool -> PS -> Prop, Q (bool_decide (~ (pid x = id /\ state x <> UNUSED))) s -> wp (if pid x =? id then on_sched (is_unused cur) else mret true) Q s) as Hcond.
  { intros Q HQ. destruct (Z.eqb_spec (pid x) id) as [E|E].
    - apply (wp_is_unused s cur x); [done..|]. replace (has_state x [UNUSED]) with (bool_decide (~ (pid x = id /\ state x <> UNUSED))); [done|].
      unfold has_state. apply bool_decide_ext. rewrite list_elem_of_singleton. destruct (decide (state x = UNUSED)); tauto.
    - apply wp_ret. by rewrite bool_decide_eq_true_2 in HQ by tauto. }
  apply Hcond. clear Hcond. destruct (bool_decide (~ (pid x = id /\ state x <> UNUSED))) eqn:Eb; cbn [negb].
  2: { apply wp_ret. split; [done|]. right. apply bool_decide_eq_false in Eb. split_and!; [lia|apply rtc_refl|]. apply Hmatch. destruct (decide (pid x = id)), (decide (state x = UNUSED)); tauto. }
  apply bool_decide_eq_true in Eb. rewrite <- Hmatch in Eb.
  apply wp_bind, (wp_child_nodes _ _ _ _ _ _ _ _ _ L C _ _ H); [eauto|].
  assert (forall l, (forall q, q ∈ l -> q ∈ C cur) ->
    wp ((fix loop (nodes : list Z) : M PS Z :=
           match nodes with
           | [] => mret 0
           | n :: nodes' =>
               if n =? children cur then loop nodes'
               else res ← find_proc fuel id (proc_of_ptnode n); if negb (res =? 0) then mret res else loop nodes'
           end) ((ptnode <$> l) ++ [children cur]))
      (fun r s' => s' = s /\ (r = 0 /\ (forall q, q ∈ l -> forall q', below C q q' -> ~ has_pid (V s) id q') \/ r <> 0 /\ below C cur r /\ has_pid (V s) id r)) s) as Hloop.
  { induction l as [|q l IHl]; intros Hsub.
    - cbn [fmap list_fmap app]. rewrite Z.eqb_refl. apply wp_ret. split; [done|]. left. split; [done|]. by intros q ?%elem_of_nil.
    - destruct (tree_child _ _ _ _ _ _ _ _ _ _ _ cur q H ltac:(eauto) (Hsub q ltac:(by left))) as (y & _ & _ & _ & _ & _ & Hne).
      destruct (child_pid _ _ _ cur v q Hs Ev Hcur) as (w & Ew & Hlt); [apply Hsub; by left|].
      cbn [fmap list_fmap app]. rewrite (proj2 (Z.eqb_neq _ _)) by done. rewrite ptnode_back. apply wp_bind.
      eapply wp_mono; [apply (IH q w ex d s L C H Hl Ew); lia|]. intros r s' [-> [[-> Hno]|(Hr & Hb & Hm)]].
      + change (negb (0 =? 0)) with false. cbn iota. eapply wp_mono; [apply IHl; intros q' Hq'; apply Hsub; by right|].
        intros r s' [-> [[-> Hno']|Hyes]]; (split; [done|]); [left|by right]. split; [done|]. intros q1 [->|Hq1]%elem_of_cons; [done|by apply Hno'].
      + rewrite (proj2 (Z.eqb_neq r 0)) by done. apply wp_ret. split; [done|]. right. split_and!; try done. apply rtc_l with q; [apply Hsub; by left|done]. }
  eapply wp_mono; [apply (Hloop (C cur)); done|]. intros r s' [-> [[-> Hno]|Hyes]]; (split; [done|]); [left|by right]. split; [done|].
  intros q Hq. apply rtc_inv in Hq as [<-|(q1 & H1 & H2)]; [done|by eapply Hno].
Qed.

(** [kill]: finds the started process with this pid wherever it is in the tree,
    marks it, and wakes it if it sleeps; -1 when there is none. *)
Lemma wp_kill s L C id :
  tree_inv s L C ->
  wp (kill rq root_proc id) (fun r s' =>
    r = -1 /\ s' = s /\ (forall q, ~ has_pid (V s) id q) \/
    r = 0 /\ exists p x L', sc_procs (ps_sched s) !! p = Some x /\ pid x = id /\ state x <> UNUSED /\ tree_inv s' L' C /\
      sc_procs (ps_sched s') = <[p := set_killed true (if decide (state x = SLEEPING) then set_state RUNNABLE x else x)]> (sc_procs (ps_sched s)) /\
      sc_cpus (ps_sched s') = sc_cpus (ps_sched s) /\ ps_ext s' = ps_ext s) s.
Proof.
  intros (H & Hpl & Hsl). pose proof (ti_shape _ _ _ _ _ _ _ _ _ _ _ H) as Hs. destruct (root_view _ _ _ _ _ _ _ _ _ _ _ H) as (vr & Evr & _ & _ & Hp1).
  unfold kill. apply wp_bind, wp_acquire_plock; [done|]. apply wp_bind, wp_get_state. apply wp_bind. set (s1 := set_plock true s).
  assert (tree_at (fun _ => 0) None s1 L C) as H1 by (by apply (tree_locks _ _ _ _ _ _ _ _ s)).
  eapply wp_mono; [apply (wp_find_proc id _ root_proc vr (fun _ => 0) None s1 L C H1); try done|].
  { rewrite Hp1. pose proof (sh_pid _ _ _ _ Hs _ _ Evr). cbn. lia. }
  change (V s1) with (V s). intros r s' [-> [[-> Hno]|(Hr & Hb & (w & Ew & Hw & Hst))]]; apply wp_bind, wp_modify.
  - change (negb (0 =? 0)) with false. cbn iota. apply wp_ret. left. split_and!; try done.
    + destruct s. simpl in *. by subst.
    + intros q Hq. pose proof Hq as (w & Ew & _ & Hst). apply (Hno q); [|done]. by eapply below_root.
  - rewrite (proj2 (Z.eqb_neq r 0)) by done. cbn [negb]. apply wp_bind, wp_acquire_plock; [done|].
    pose proof Ew as (x & Ex & Hpid & ->)%view_lookup. simpl in Hw, Hst. assert (state x <> UNUSED) as Hu by (intros E; by rewrite E in Hst).
    apply wp_bind, (wp_read_proc _ _ x); [done|]. apply wp_bind, wp_zoom, wp_modify. match goal with |- wp _ _ ?e => set (s2 := e) end.
    assert (tree_at (fun _ => 0) None s2 L C) as H2.
    { apply (tree_locks _ _ _ _ _ _ _ _ (set_sched (set_procs (<[r := set_killed true x]> (sc_procs (ps_sched s))) (ps_sched s)) s)); try done.
      by apply (tree_proc _ _ _ _ _ _ _ _ s L C r x (set_killed true x) H). }
    apply wp_bind, (wp_tree_activate freq timestamp rq sched_timer root_proc lim Hclock Hrq (fun _ => 0) None s2 L C r (set_killed true x) true); try done.
    { cbn. apply lookup_insert_eq. }
    intros S' L' HT Hl' Hc Hor Hwk. apply wp_bind, wp_modify, wp_ret. right. split; [done|]. exists r, x, L'. split_and!; try done.
    + split; [|done]. by apply (tree_locks _ _ _ _ _ _ _ _ (set_sched S' s2)).
    + change (sc_procs S' = <[r := set_killed true (if decide (state x = SLEEPING) then set_state RUNNABLE x else x)]> (sc_procs (ps_sched s))).
      assert (sc_procs (ps_sched s2) = <[r := set_killed true x]> (sc_procs (ps_sched s))) as E2 by done. rewrite E2 in *.
      destruct (decide (state x = SLEEPING)) as [Est|Est].
      * rewrite Hwk by (unfold wakes, has_state; cbn [state set_killed]; by rewrite Est). by rewrite insert_insert_eq.
      * destruct Hor as [->|[Hw' _]]; [done|]. exfalso. unfold wakes, has_state in Hw'. cbn [state set_killed] in Hw'. by destruct (state x).
Qed.

(** ** Creating a process *)

(** The memory at [p] is not that of another process. *)
Record room (s : Sched) (p : Z) : Prop := {
  ro_pos : 0 < p;
  ro_rq : rq < p \/ p + sizeof_Proc <= rq;
  ro_apart : forall q, is_Some (sc_procs s !! q) -> sizeof_Proc <= Z.abs (p - q);
}.

Lemma room_none s p : room s p -> sc_procs s !! p = None.
Proof. intros Hr. apply eq_None_not_Some. intros Hp. pose proof (ro_apart _ _ Hr p Hp). unfold sizeof_Proc in *. lia. Qed.

Definition no_children (C : Z -> list Z) (p : Z) : Z -> list Z := fun q => if decide (q = p) then [] else C q.

Lemma shape_new V C m p : shape root_proc V C m -> V !! p = None -> V !! 0 = None -> 0 < p ->
  shape root_proc (<[p := mkView (m + 1) 0 New]> V) (no_children C p) (m + 1).
Proof.
  intros H Hp Hz H0. destruct (sh_root _ _ _ _ H) as (vr & Evr & Hr).
  assert (forall q w, V !! q = Some w -> q <> p) as Hne by (intros q w Ew ->; congruence).
  assert (forall q w, V !! q = Some w -> v_parent w <> p) as Hpar.
  { intros q w Ew E. destruct (decide (q = root_proc)) as [->|Hq]; [destruct Hr as [Hr _]; rewrite Evr in Ew; injection Ew as <-; congruence|].
    destruct (sh_parent _ _ _ _ H q w Ew Hq) as [[? _]|(v & Ev & _)]; [lia|]. rewrite E in Ev. congruence. }
  split.
  - exists vr. rewrite lookup_insert_ne; [done|]. intros ->. congruence.
  - intros q v [[<- <-]|[_ Ev]]%lookup_insert_Some; [simpl; pose proof (sh_pid _ _ _ _ H _ _ Evr); lia|]. pose proof (sh_pid _ _ _ _ H q v Ev). lia.
  - intros q r v w [[<- <-]|[_ Ev]]%lookup_insert_Some [[<- <-]|[_ Ew]]%lookup_insert_Some E; try done; simpl in E.
    + pose proof (sh_pid _ _ _ _ H r w Ew). lia.
    + pose proof (sh_pid _ _ _ _ H q v Ev). lia.
    + by apply (sh_inj _ _ _ _ H q r v w).
  - intros q r [v Hq]. unfold no_children. destruct (decide (q = p)) as [->|Hqp].
    + split; [by intros ?%elem_of_nil|]. intros (_ & w & [[<- <-]|[_ Ew]]%lookup_insert_Some & Hw); [simpl in Hw; lia|]. by destruct (Hpar r w Ew).
    + rewrite lookup_insert_ne in Hq by done. rewrite (sh_children _ _ _ _ H) by eauto. split; intros (Hr' & w & Ew & Hw); (split; [done|]); exists w; (split; [|done]).
      * rewrite lookup_insert_ne; [done|]. intros <-. congruence.
      * apply lookup_insert_Some in Ew as [[<- <-]|[_ Ew]]; [|done]. simpl in Hw. subst q. congruence.
  - intros q w [[<- <-]|[_ Ew]]%lookup_insert_Some Hq; [by left|]. destruct (sh_parent _ _ _ _ H q w Ew Hq) as [?|(v & Ev & Hv)]; [by left|right].
    exists v. rewrite lookup_insert_ne; [done|]. intros E. by destruct (Hpar q w Ew).
Qed.

(** A node of a list that is being initialised. *)
Lemma wp_init_node s n (Q : unit -> PS -> Prop) : is_Some (sc_nodes (ps_sched s) !! n) ->
  (forall h, ring h n [] -> (forall x, x <> n -> same_node (sc_nodes (ps_sched s)) h x) -> Q tt (set_sched (Sched.set_nodes h (ps_sched s)) s)) ->
  wp (on_sched (on_nodes (fun h => pair tt <$> init_list_node h n))) Q s.
Proof.
  intros Hn HQ. destruct (init_list_node_spec _ _ Hn) as (h & E & Hr & Hf). eapply wp_nodes; [by rewrite E|]. apply HQ; [done|]. intros x Hx. by apply Hf.
Qed.

Definition new_ext (kstk : Z) : Ext := mkExt (Sem.init_sem 0) kstk (replicate NWORDS 0) (replicate NOPENFILE 0) 0.
Definition new_proc (m pgt : Z) : Proc := mkProc false false (m + 1) 0 UNUSED 0 pgt None 0.

Lemma tree_new s L C p kstk pgt h :
  tree_at (fun _ => 0) None s L C -> room (ps_sched s) p -> 0 <= ps_max_pid s ->
  ring h (children p) [] -> ring h (ptnode p) [] -> is_Some (h !! rqnode p) ->
  (forall n, n <> children p -> n <> ptnode p -> n <> rqnode p -> same_node (sc_nodes (ps_sched s)) h n) ->
  tree_at (fun _ => 0) None (mkPS (set_procs (<[p := new_proc (ps_max_pid s) pgt]> (sc_procs (ps_sched s))) (Sched.set_nodes h (ps_sched s))) (ps_lock s)
    (ps_max_pid s + 1) (<[p := new_ext kstk]> (ps_ext s)) (ps_up s) (ps_calls s)) L (no_children C p).
Proof.
  intros H Hroom Hmax R1 R2 Ha Hf. pose proof (room_none _ _ Hroom) as Hp. pose proof (ti_layout _ _ _ _ _ _ _ _ _ _ _ H) as Hl. pose proof (ti_shape _ _ _ _ _ _ _ _ _ _ _ H) as Hs.
  set (N := mkView (ps_max_pid s + 1) 0 New).
  assert (view (<[p := new_proc (ps_max_pid s) pgt]> (sc_procs (ps_sched s))) = <[p := N]> (V s)) as EV by (apply view_insert; simpl; lia).
  assert (V s !! p = None) as Hvp by (apply eq_None_not_Some; intros [? ?]%view_proc; congruence).
  assert (V s !! 0 = None) as Hv0 by (apply eq_None_not_Some; intros Hx%view_proc; pose proof (lo_pos _ _ Hl 0 Hx); lia).
  assert (forall q a, is_Some (sc_procs (ps_sched s) !! q) -> 0 <= a <= sizeof_Proc - 1 -> same_node (sc_nodes (ps_sched s)) h (q + a)) as Hold.
  { intros q a Hq Ha'. pose proof (ro_apart _ _ Hroom q Hq). apply Hf; unfold children, ptnode, rqnode, sizeof_Proc in *; lia. }
  assert (same_node (sc_nodes (ps_sched s)) h rq) as Hsrq.
  { pose proof (ro_rq _ _ Hroom). apply Hf; unfold children, ptnode, rqnode, sizeof_Proc in *; lia. }
  assert (forall q w, V s !! q = Some w -> is_Some (sc_procs (ps_sched s) !! q)) as Hvs by (intros; apply view_proc; eauto).
  assert (forall q, is_Some (V s !! q) -> zombies (<[p := N]> (V s)) (no_children C p q) = zombies (V s) (C q)) as Hz.
  { intros q Hq. unfold no_children. rewrite decide_False by (intros ->; rewrite Hvp in Hq; by destruct Hq). apply zombies_ext. intros r Hr. unfold zombie.
    rewrite lookup_insert_ne; [done|]. intros <-. destruct (tree_child _ _ _ _ _ _ _ _ _ _ _ q p H Hq Hr) as (? & ? & _). congruence. }
  split; cbn [ps_sched ps_ext ps_up ps_max_pid sc_procs sc_nodes set_procs Sched.set_nodes]; rewrite ?EV.
  - apply (inv_new freq timestamp rq sched_timer lim (Sched.set_nodes h (ps_sched s))); try done.
    + apply inv_nodes; [apply (ti_sched _ _ _ _ _ _ _ _ _ _ _ H)| |].
      * intros n [->|(q & -> & Hq)%list_elem_of_fmap]%elem_of_cons; [done|]. destruct (queue_alive _ _ _ _ _ _ _ _ _ _ _ q H Hq) as [Hqs _]. apply Hold; [done|unfold sizeof_Proc; lia].
      * intros q Hq. apply (alive_frame (sc_nodes (ps_sched s))); [apply Hold; [done|unfold sizeof_Proc; lia]|].
        destruct Hq as [y Ey]. by destruct (si_nodes _ _ _ _ _ _ _ _ _ (ti_sched _ _ _ _ _ _ _ _ _ _ _ H) q y Ey) as (_ & _ & _ & ?).
    + simpl. lia.
    + pose proof (ro_pos _ _ Hroom). lia.
    + pose proof (ro_pos _ _ Hroom). unfold rqnode. lia.
    + pose proof (ro_rq _ _ Hroom). unfold rqnode, sizeof_Proc in *. lia.
  - apply shape_new; try done. apply (ro_pos _ _ Hroom).
  - assert (forall q, is_Some (<[p := new_proc (ps_max_pid s) pgt]> (sc_procs (ps_sched s)) !! q) -> q = p \/ is_Some (sc_procs (ps_sched s) !! q)) as Hd.
    { intros q [->|[_ ?]]%lookup_insert_is_Some; [by left|by right]. }
    split.
    + intros q [->|Hq]%Hd; [apply (ro_pos _ _ Hroom)|by apply (lo_pos _ _ Hl)].
    + intros q [->|Hq]%Hd; [apply (ro_rq _ _ Hroom)|by apply (lo_rq _ _ Hl)].
    + intros q r [->|Hq]%Hd [->|Hr]%Hd Hne; [done|by apply (ro_apart _ _ Hroom)|rewrite <- Z.abs_opp; replace (- (q - p)) with (p - q) by lia; by apply (ro_apart _ _ Hroom)|by apply (lo_apart _ _ Hl)].
  - split.
    + intros q [<-|[Hne Hq]]%lookup_insert_is_Some; unfold no_children; [by rewrite decide_True|]. rewrite decide_False by congruence.
      apply (ring_same (sc_nodes (ps_sched s))); [by apply (ri_children _ _ _ (ti_rings _ _ _ _ _ _ _ _ _ _ _ H))|].
      intros n [->|(r & -> & Hr)%list_elem_of_fmap]%elem_of_cons; apply Hold; try (unfold sizeof_Proc; lia).
      * by apply view_proc.
      * apply view_proc. by eapply child_proc.
    + intros q w [[<- <-]|[_ Ew]]%lookup_insert_Some Hw; [done|]. apply (ring_same (sc_nodes (ps_sched s))); [by eapply (ri_new _ _ _ (ti_rings _ _ _ _ _ _ _ _ _ _ _ H))|].
      intros n ->%list_elem_of_singleton. apply Hold; [by eapply Hvs|unfold sizeof_Proc; lia].
    + intros q w [[<- <-]|[_ Ew]]%lookup_insert_Some Hw; [done|]. apply (ring_same (sc_nodes (ps_sched s))); [by eapply (ri_zombie _ _ _ (ti_rings _ _ _ _ _ _ _ _ _ _ _ H))|].
      intros n ->%list_elem_of_singleton. apply Hold; [by eapply Hvs|unfold sizeof_Proc; lia].
  - intros q. rewrite !lookup_insert_is_Some'. by rewrite (ti_ext _ _ _ _ _ _ _ _ _ _ _ H).
  - intros q e [[<- <-]|[_ Ee]]%lookup_insert_Some; [done|by apply (ti_files _ _ _ _ _ _ _ _ _ _ _ H q)].
  - intros q b Eb. destruct (ti_up _ _ _ _ _ _ _ _ _ _ _ H q b Eb) as (v & Ev & Hv). exists v. rewrite lookup_insert_ne; [done|]. intros <-. congruence.
  - intros q e v Ee Ev Hv _. destruct (decide (q = p)) as [->|Hne].
    + rewrite lookup_insert_eq in Ee. injection Ee as <-. unfold tokens. destruct (ps_up s !! p) as [b|] eqn:Eb.
      { destruct (ti_up _ _ _ _ _ _ _ _ _ _ _ H p b Eb) as (v' & Ev' & _). congruence. }
      unfold no_children. rewrite decide_True by done. done.
    + rewrite lookup_insert_ne in Ee by done. rewrite lookup_insert_ne in Ev by done. unfold tokens. rewrite Hz by eauto. by apply (ti_tokens _ _ _ _ _ _ _ _ _ _ _ H q e v).
Qed.

(** The steps of [init_proc]: three nodes that are each alone in their list. *)
Lemma wp_init_steps s p kstk pgt (Q : unit -> PS -> Prop) :
  ps_lock s = false -> ps_max_pid s < MAX_INT ->
  (forall h, ring h (children p) [] -> ring h (ptnode p) [] -> is_Some (h !! rqnode p) ->
    (forall n, n <> children p -> n <> ptnode p -> n <> rqnode p -> same_node (sc_nodes (ps_sched s)) h n) ->
    Q tt (mkPS (set_procs (<[p := new_proc (ps_max_pid s) pgt]> (sc_procs (ps_sched s))) (Sched.set_nodes h (ps_sched s))) false
      (ps_max_pid s + 1) (<[p := new_ext kstk]> (ps_ext s)) (ps_up s) (ps_calls s ++ [Init_pgdir p]))) ->
  wp (init_proc p kstk pgt) Q s.
Proof.
  intros Hpl Hint HQ. unfold init_proc.
  apply wp_bind, wp_acquire_plock; [done|]. apply wp_bind, wp_zoom, wp_modify. apply wp_bind, wp_get_state. cbv zeta. cbn [ps_max_pid set_plock set_sched].
  rewrite (proj2 (Z.leb_gt MAX_INT (ps_max_pid s))) by done. apply wp_bind, wp_modify. apply wp_bind, wp_zoom, wp_modify.
  assert (children p <> ptnode p /\ children p <> rqnode p /\ ptnode p <> rqnode p) as (N1 & N2 & N3) by (unfold children, ptnode, rqnode; lia).
  apply wp_bind, wp_init_node; [cbn; by rewrite lookup_insert_eq|]. intros h1 R1 F1.
  apply wp_bind, wp_init_node.
  { cbn. apply (alive_frame (<[children p := mkNode 0 0]> (<[ptnode p := mkNode 0 0]> (<[rqnode p := mkNode 0 0]> (sc_nodes (ps_sched s)))))); [by apply F1|]. rewrite lookup_insert_ne, lookup_insert_eq by done. eauto. }
  intros h2 R2 F2. apply wp_bind. unfold init_schinfo. apply wp_init_node.
  { cbn in F2 |- *. apply (alive_frame h1); [by apply F2|].
    apply (alive_frame (<[children p := mkNode 0 0]> (<[ptnode p := mkNode 0 0]> (<[rqnode p := mkNode 0 0]> (sc_nodes (ps_sched s)))))); [by apply F1|]. rewrite !lookup_insert_ne, lookup_insert_eq by done. eauto. }
  intros h3 R3 F3. apply wp_bind, wp_modify, wp_bind, wp_modify, wp_modify. cbn in F1, F2, F3 |- *. apply (HQ h3).
  - apply (ring_same h1); [done|]. intros n ->%list_elem_of_singleton. destruct (F3 (children p)) as [-> ->]; [done|]. by apply F2.
  - apply (ring_same h2); [done|]. intros n ->%list_elem_of_singleton. by apply F3.
  - apply (ring_alive _ _ _ _ R3). by left.
  - intros n Hn1 Hn2 Hn3. unfold same_node. destruct (F3 n) as [-> ->]; [done|]. destruct (F2 n) as [-> ->]; [done|]. destruct (F1 n) as [-> ->]; [done|].
    unfold get_next, get_prev. by rewrite !lookup_insert_ne.
Qed.

Lemma wp_init_proc s L C p kstk pgt (Q : unit -> PS -> Prop) :
  tree_inv s L C -> room (ps_sched s) p -> 0 <= ps_max_pid s < MAX_INT ->
  (forall h, let s' := mkPS (set_procs (<[p := new_proc (ps_max_pid s) pgt]> (sc_procs (ps_sched s))) (Sched.set_nodes h (ps_sched s))) false
      (ps_max_pid s + 1) (<[p := new_ext kstk]> (ps_ext s)) (ps_up s) (ps_calls s ++ [Init_pgdir p]) in
    tree_inv s' L (no_children C p) -> Q tt s') ->
  wp (init_proc p kstk pgt) Q s.
Proof.
  intros (H & Hpl & Hsl) Hroom [Hmax Hint] HQ. apply wp_init_steps; [done|done|]. intros h R1 R2 Ha Hf. apply (HQ h). split; [|done].
  apply (tree_locks _ _ _ _ _ _ _ _ (mkPS (set_procs (<[p := new_proc (ps_max_pid s) pgt]> (sc_procs (ps_sched s))) (Sched.set_nodes h (ps_sched s))) (ps_lock s)
    (ps_max_pid s + 1) (<[p := new_ext kstk]> (ps_ext s)) (ps_up s) (ps_calls s))); try done.
  by apply tree_new.
Qed.

(** ** Parents *)

Definition with_child (C : Z -> list Z) (t q : Z) : Z -> list Z := fun p => if decide (p = t) then q :: C t else C p.

Lemma shape_adopt V C m t q v w :
  shape root_proc V C m -> V !! t = Some v -> v_status v = Alive -> V !! 0 = None -> V !! q = Some w -> v_parent w = 0 -> q <> root_proc -> v_pid v < v_pid w ->
  shape root_proc (<[q := adopt t w]> V) (with_child C t q) m.
Proof.
  intros H Ev Hv H0 Ew Hw Hq Hlt.
  assert (q <> t) as Hqt by (intros ->; rewrite Ev in Ew; injection Ew as <-; lia).
  assert (forall r u', <[q := adopt t w]> V !! r = Some u' -> exists u, V !! r = Some u /\ v_pid u' = v_pid u /\ v_status u' = v_status u /\ v_parent u' = if decide (r = q) then t else v_parent u) as Hback.
  { intros r u' [[<- <-]|[Hne Eu]]%lookup_insert_Some; [exists w; by rewrite decide_True|exists u'; by rewrite decide_False]. }
  assert (forall r u, V !! r = Some u -> exists u', <[q := adopt t w]> V !! r = Some u' /\ v_pid u' = v_pid u /\ v_status u' = v_status u /\ v_parent u' = if decide (r = q) then t else v_parent u) as Hforth.
  { intros r u Eu. destruct (decide (r = q)) as [->|Hne]; [|exists u; by rewrite lookup_insert_ne].
    exists (adopt t w). rewrite lookup_insert_eq. rewrite Ew in Eu. injection Eu as <-. done. }
  split.
  - destruct (sh_root _ _ _ _ H) as (vr & Evr & Hr). exists vr. by rewrite lookup_insert_ne.
  - intros r u' (u & Eu & -> & _)%Hback. by eapply sh_pid.
  - intros r r' u1 u2 (v1 & E1 & -> & _)%Hback (v2 & E2 & -> & _)%Hback. by apply (sh_inj _ _ _ _ H).
  - intros p r [u' (u & Eu & _)%Hback]. unfold with_child. destruct (decide (p = t)) as [->|Hpt].
    + rewrite elem_of_cons, (sh_children _ _ _ _ H) by eauto. split.
      * intros [->|(Hr & y & Ey & Hy)]; [split; [done|]; exists (adopt t w); by rewrite lookup_insert_eq|]. split; [done|].
        destruct (Hforth r y Ey) as (y' & Ey' & _ & _ & E). exists y'. rewrite E. split; [done|]. by destruct (decide (r = q)).
      * intros (Hr & y' & (y & Ey & _ & _ & E)%Hback & Hy). destruct (decide (r = q)) as [->|Hne]; [by left|right]. split; [done|]. exists y. split; congruence.
    + rewrite (sh_children _ _ _ _ H) by eauto. split.
      * intros (Hr & y & Ey & Hy). split; [done|]. destruct (Hforth r y Ey) as (y' & Ey' & _ & _ & E). exists y'. split; [done|]. rewrite E.
        destruct (decide (r = q)) as [->|]; [|done]. rewrite Ew in Ey. injection Ey as <-. rewrite Hw in Hy. subst p. congruence.
      * intros (Hr & y' & (y & Ey & _ & _ & E)%Hback & Hy). split; [done|]. exists y. split; [done|]. destruct (decide (r = q)); congruence.
  - intros r u' (u & Eu & Ep & Est & Epar)%Hback Hr. destruct (decide (r = q)) as [->|Hne].
    + right. rewrite Epar. destruct (Hforth t v Ev) as (v' & Ev' & Ep' & Est' & _). exists v'. split_and!; [done|congruence|]. rewrite Ew in Eu. injection Eu as <-. lia.
    + rewrite Epar. destruct (sh_parent _ _ _ _ H r u Eu Hr) as [[E1 E2]|(y & Ey & Hy & Hl)]; [left; split; congruence|right].
      destruct (Hforth _ _ Ey) as (y' & Ey' & Ep' & Est' & _). exists y'. split_and!; [done|congruence|lia].
Qed.

Lemma zero_free ex d s L C : tree_at ex d s L C -> V s !! 0 = None.
Proof. intros H. apply eq_None_not_Some. intros Hx%view_proc. pose proof (lo_pos _ _ (ti_layout _ _ _ _ _ _ _ _ _ _ _ H) 0 Hx). lia. Qed.

(** A new process gets a parent: the front of its list of children. *)
Lemma wp_adopt {A} ex d s L C t q v x (k : M PS A) (Q : A -> PS -> Prop) :
  tree_at ex d s L C -> V s !! t = Some v -> v_status v = Alive -> sc_procs (ps_sched s) !! q = Some x -> pid x <> -1 -> state x = UNUSED ->
  parent x = 0 -> q <> root_proc -> v_pid v < pid x ->
  (forall h, let s' := set_sched (set_procs (<[q := set_parent t x]> (sc_procs (ps_sched s))) (Sched.set_nodes h (ps_sched s))) s in
    tree_at ex d s' L (with_child C t q) -> wp k Q s') ->
  wp (write_proc q (set_parent t x) ;; on_sched (on_nodes (fun h => _insert_into_list h (children t) (ptnode q))) ;; k) Q s.
Proof.
  intros H Ev Hv Ex Hpid Hst Hpar Hqr Hlt HQ. pose proof (ti_layout _ _ _ _ _ _ _ _ _ _ _ H) as Hl. pose proof (ti_shape _ _ _ _ _ _ _ _ _ _ _ H) as Hs.
  assert (is_Some (V s !! t)) as Ht by eauto. assert (is_Some (sc_procs (ps_sched s) !! q)) as Hq by eauto.
  assert (V s !! q = Some (mkView (pid x) 0 New)) as Ew by (rewrite (view_some _ _ x) by done; by rewrite Hst, Hpar).
  assert (q ∉ C t) as Hqt.
  { intros (_ & w & Ew' & Hw)%(sh_children _ _ _ _ Hs); [|done]. rewrite Ew in Ew'. injection Ew' as <-. simpl in Hw. subst t. by rewrite (zero_free _ _ _ _ _ H) in Ev. }
  pose proof (ri_new _ _ _ (ti_rings _ _ _ _ _ _ _ _ _ _ _ H) q _ Ew eq_refl) as Rq.
  apply wp_bind, wp_zoom, wp_modify. apply wp_bind.
  destruct (insert_spec (sc_nodes (ps_sched s)) (children t) (ptnode <$> C t) (ptnode q)) as (h & E & R & F).
  { by apply (ri_children _ _ _ (ti_rings _ _ _ _ _ _ _ _ _ _ _ H)). }
  { pose proof (lo_pos _ _ Hl t (view_proc _ _ Ht)). unfold children. lia. }
  { pose proof (lo_pos _ _ Hl q Hq). unfold ptnode. lia. }
  { apply (not_child _ _ _ _ _ _ _ _ _ _ _ t q 56 H Ht); try done; unfold sizeof_Proc; lia. }
  { apply (ring_alive _ _ _ _ Rq). by left. }
  eapply wp_nodes; [exact E|]. apply (HQ h). set (s' := set_sched _ _).
  assert (forall r a, is_Some (sc_procs (ps_sched s) !! r) -> 0 <= a <= sizeof_Proc - 1 -> (a = 40 -> r <> t) -> (a = 56 -> r ∉ C t /\ r <> q) ->
    same_node (sc_nodes (ps_sched s)) h (r + a)) as Hfr.
  { intros r a Hr Ha H40 H56. apply F; [apply (not_child _ _ _ _ _ _ _ _ _ _ _ t r a H Ht); try done; naive_solver|]. intros Eq.
    destruct (node_apart _ _ r q a 56 Hl Hr Hq Ha) as [-> ->]; [unfold sizeof_Proc; lia|done|]. by apply (H56 eq_refl). }
  assert (same_node (sc_nodes (ps_sched s)) h rq) as Hsrq.
  { apply F; [|intros E'; symmetry in E'; revert E'; apply (node_not_rq _ _ _ _ Hl Hq); unfold sizeof_Proc; lia].
    rewrite elem_of_cons, list_elem_of_fmap. intros [E'|(r & E' & Hr)]; symmetry in E'; revert E'; apply (node_not_rq _ (sc_procs (ps_sched s)) _ _ Hl); try (unfold sizeof_Proc; lia).
    - by apply view_proc.
    - apply view_proc. by eapply child_proc. }
  assert (V s' = <[q := adopt t (mkView (pid x) 0 New)]> (V s)) as EV.
  { change (V s') with (view (<[q := set_parent t x]> (sc_procs (ps_sched s)))). rewrite view_insert by done. cbn [state set_parent pid parent]. by rewrite Hst. }
  assert (forall p, is_Some (V s !! p) -> zombies (V s') (with_child C t q p) = zombies (V s) (C p)) as Hz.
  { assert (forall l, zombies (V s') l = zombies (V s) l) as Hzl.
    { intros l. apply zombies_ext. intros r _. unfold zombie. rewrite EV. destruct (decide (r = q)) as [->|Hne]; [by rewrite lookup_insert_eq, Ew|by rewrite lookup_insert_ne]. }
    intros p Hp. rewrite Hzl. unfold with_child. destruct (decide (p = t)) as [->|Hne]; [|done]. rewrite zombies_cons. unfold zombie at 1. by rewrite Ew. }
  assert (forall p, is_Some (V s' !! p) <-> is_Some (V s !! p)) as Hd by (intros p; rewrite EV; by eapply is_Some_insert).
  split; rewrite ?EV; cbn [ps_sched ps_ext ps_up ps_max_pid sc_procs sc_nodes set_procs Sched.set_nodes set_sched s'].
  - assert (sched_inv freq timestamp rq sched_timer lim (Sched.set_nodes h (ps_sched s)) L) as Hi.
    { apply inv_nodes; [apply (ti_sched _ _ _ _ _ _ _ _ _ _ _ H)| |].
      - intros n [->|(r & -> & Hr)%list_elem_of_fmap]%elem_of_cons; [done|]. destruct (queue_alive _ _ _ _ _ _ _ _ _ _ _ r H Hr) as [Hrs _]. apply Hfr; try done; unfold sizeof_Proc; lia.
      - intros r Hr. apply (alive_frame (sc_nodes (ps_sched s))); [apply Hfr; try done; unfold sizeof_Proc; lia|].
        destruct Hr as [y Ey]. by destruct (si_nodes _ _ _ _ _ _ _ _ _ (ti_sched _ _ _ _ _ _ _ _ _ _ _ H) r y Ey) as (_ & _ & _ & ?). }
    by apply (core_store_same _ _ _ _ _ _ _ _ _ q x (set_parent t x) Hi).
  - apply (shape_adopt _ _ _ t q v (mkView (pid x) 0 New)); try done. by eapply zero_free.
  - destruct Hl as [Hl1 Hl2 Hl3]. assert (forall p, is_Some (<[q := set_parent t x]> (sc_procs (ps_sched s)) !! p) <-> is_Some (sc_procs (ps_sched s) !! p)) as Hd' by (intros p; by eapply is_Some_insert).
    split; setoid_rewrite Hd'; done.
  - rewrite <- EV. split.
    + intros p Hp%Hd. unfold with_child. destruct (decide (p = t)) as [->|Hne]; [done|].
      apply (ring_same (sc_nodes (ps_sched s))); [by apply (ri_children _ _ _ (ti_rings _ _ _ _ _ _ _ _ _ _ _ H))|].
      intros n [->|(r & -> & Hr)%list_elem_of_fmap]%elem_of_cons; apply Hfr; try done; try (unfold sizeof_Proc; lia).
      * by apply view_proc.
      * apply view_proc. by eapply child_proc.
      * intros _. split; [intros Hr'; apply Hne; eapply child_unique; eauto|]. intros ->.
        apply (sh_children _ _ _ _ Hs) in Hr as (_ & w & Ew' & Hw); [|done]. rewrite Ew in Ew'. injection Ew' as <-. simpl in Hw. subst p. rewrite (zero_free _ _ _ _ _ H) in Hp. by destruct Hp.
    + intros r w. rewrite EV. intros [[<- <-]|[Hne Er]]%lookup_insert_Some Hw.
      { simpl in Hw. subst t. by rewrite (zero_free _ _ _ _ _ H) in Ev. }
      apply (ring_same (sc_nodes (ps_sched s))); [by eapply (ri_new _ _ _ (ti_rings _ _ _ _ _ _ _ _ _ _ _ H))|].
      intros n ->%list_elem_of_singleton. apply Hfr; try done; try (unfold sizeof_Proc; lia); [apply view_proc; eauto|]. intros _. split; [|congruence].
      intros (_ & w' & Ew' & Hw')%(sh_children _ _ _ _ Hs); [|done]. rewrite Er in Ew'. injection Ew' as <-. rewrite Hw in Hw'. subst t. by rewrite (zero_free _ _ _ _ _ H) in Ev.
    + intros r w. rewrite EV. intros [[<- <-]|[Hne Er]]%lookup_insert_Some Hw; [done|].
      apply (ring_same (sc_nodes (ps_sched s))); [by eapply (ri_zombie _ _ _ (ti_rings _ _ _ _ _ _ _ _ _ _ _ H))|].
      intros n ->%list_elem_of_singleton. apply Hfr; try done; try (unfold sizeof_Proc; lia). apply view_proc; eauto.
  - intros p. rewrite <- EV, Hd. apply (ti_ext _ _ _ _ _ _ _ _ _ _ _ H).
  - apply (ti_files _ _ _ _ _ _ _ _ _ _ _ H).
  - intros p b Eb. destruct (ti_up _ _ _ _ _ _ _ _ _ _ _ H p b Eb) as (u & Eu & Hu). exists u. rewrite lookup_insert_ne; [done|]. intros <-. rewrite Ew in Eu. injection Eu as <-. done.
  - intros p e u' Ee Eu' Hu' Hdd. assert (exists u, V s !! p = Some u /\ v_status u = v_status u') as (u & Eu & Est).
    { apply lookup_insert_Some in Eu' as [[<- <-]|[_ Eu']]; [eexists; by split|by exists u']. }
    unfold tokens. rewrite <- EV, Hz by eauto. apply (ti_tokens _ _ _ _ _ _ _ _ _ _ _ H p e u Ee Eu); [congruence|done].
Qed.

(** ** Starting *)

Lemma shape_start V C m p v : shape root_proc V C m -> V !! p = Some v -> v_status v = New -> v_parent v <> 0 ->
  shape root_proc (<[p := with_status Alive v]> V) C m.
Proof.
  intros H Ev Hv Hpar.
  assert (forall q w', <[p := with_status Alive v]> V !! q = Some w' -> exists w, V !! q = Some w /\ v_pid w' = v_pid w /\ v_parent w' = v_parent w /\
    (v_status w' = v_status w /\ q <> p \/ w = v)) as Hback.
  { intros q w' [[<- <-]|[Hne Ew]]%lookup_insert_Some; [exists v|exists w']; split_and!; try done; [by right|left; split; congruence]. }
  assert (forall q w, V !! q = Some w -> exists w', <[p := with_status Alive v]> V !! q = Some w' /\ v_pid w' = v_pid w /\ v_parent w' = v_parent w /\
    (v_status w = Alive -> v_status w' = Alive)) as Hforth.
  { intros q w Ew. destruct (decide (q = p)) as [->|Hq]; [exists (with_status Alive v); rewrite lookup_insert_eq; rewrite Ev in Ew; injection Ew as <-; done|].
    exists w. by rewrite lookup_insert_ne. }
  split.
  - destruct (sh_root _ _ _ _ H) as (vr & Evr & Hpr & Hzr & H1). destruct (Hforth _ _ Evr) as (w' & Ew' & E1 & E2 & E3). exists w'. split_and!; try congruence. auto.
  - intros q w' (w & Ew & -> & _)%Hback. by eapply sh_pid.
  - intros q r w1 w2 (v1 & E1 & -> & _)%Hback (v2 & E2 & -> & _)%Hback. by apply (sh_inj _ _ _ _ H).
  - intros q r [w' (w & Ew & _)%Hback]. rewrite (sh_children _ _ _ _ H) by eauto. split.
    + intros (Hq & u & Eu & Hu). split; [done|]. destruct (Hforth r u Eu) as (u' & Eu' & _ & E & _). exists u'. by rewrite E.
    + intros (Hq & u' & (u & Eu & _ & E & _)%Hback & Hu). split; [done|]. exists u. by rewrite <- E.
  - intros q w' (w & Ew & Ep & Epar & Est)%Hback Hq. destruct (sh_parent _ _ _ _ H q w Ew Hq) as [[E0 HN]|(u & Eu & Hu & Hlt)].
    + left. rewrite Epar. split; [done|]. destruct Est as [[-> _]| ->]; [done|congruence].
    + right. rewrite Epar. destruct (Hforth _ _ Eu) as (u' & Eu' & Ep' & _ & Hst'). exists u'. split_and!; [done|auto|lia].
Qed.

(** A process that has a parent becomes runnable, at its entry. *)
Lemma wp_start {A} ex d s L C p x entry arg (k : M PS A) (Q : A -> PS -> Prop) :
  tree_at ex d s L C -> sc_lock (ps_sched s) = false -> sc_procs (ps_sched s) !! p = Some x -> pid x <> -1 -> state x = UNUSED -> parent x <> 0 ->
  (forall S', let s' := set_sched S' s in tree_at ex d s' (p :: L) C -> sc_lock S' = false -> sc_cpus S' = sc_cpus (ps_sched s) ->
    sc_procs S' = <[p := set_state RUNNABLE (set_kcontext (Some (AtEntry entry arg)) x)]> (sc_procs (ps_sched s)) -> wp k Q s') ->
  wp (write_proc p (set_kcontext (Some (AtEntry entry arg)) x) ;; on_sched (_activate_proc rq p false) ;; k) Q s.
Proof.
  intros H Hl Ex Hpid Hst Hpar HQ. apply wp_bind, wp_zoom, wp_modify. set (x1 := set_kcontext _ x). set (s1 := set_sched _ s).
  assert (tree_at ex d s1 L C) as H1 by (by apply (tree_proc _ _ _ _ _ _ _ _ s L C p x x1 H)).
  assert (sc_procs (ps_sched s1) !! p = Some x1) as Ex1 by apply lookup_insert_eq.
  assert (V s1 = V s) as EV1 by (by apply (view_same _ _ x)).
  apply wp_bind, wp_zoom. eapply wp_mono; [apply (wp_activate freq timestamp rq sched_timer lim Hclock Hrq _ L p x1 false (ti_sched _ _ _ _ _ _ _ _ _ _ _ H1)); try done|].
  assert (wakes x1 false = true) as Ew by (unfold wakes, has_state; cbn [state set_kcontext x1]; by rewrite Hst).
  rewrite Ew. intros r S' (-> & Hl' & Hinv & Ep & Ec & Ho). change (set_sched S' s1) with (set_sched S' s).
  assert (sc_procs S' = <[p := set_state RUNNABLE x1]> (sc_procs (ps_sched s))) as Ep' by (rewrite Ep; cbn; by rewrite insert_insert_eq).
  apply (HQ S'); try done. set (v := mkView (pid x) (parent x) New).
  assert (V s !! p = Some v) as Ev by (rewrite (view_some _ _ x) by done; by rewrite Hst).
  assert (view (sc_procs S') = <[p := with_status Alive v]> (V s)) as EV by (rewrite Ep'; by rewrite view_insert).
  assert (forall q, is_Some (view (sc_procs S') !! q) <-> is_Some (V s !! q)) as Hd by (intros q; rewrite EV; by eapply is_Some_insert).
  assert (forall l, zombies (view (sc_procs S')) l = zombies (V s) l) as Hz.
  { intros l. apply zombies_ext. intros q _. unfold zombie. rewrite EV. destruct (decide (q = p)) as [->|Hne]; [by rewrite lookup_insert_eq, Ev|by rewrite lookup_insert_ne]. }
  assert (rings (sc_nodes S') (V s) C) as [R1 R2 R3].
  { rewrite <- EV1. apply (rings_off_queue rq root_proc (sc_procs (ps_sched s1)) C (ps_max_pid s) (p :: L) (ps_sched s1)); try done; [apply (ti_layout _ _ _ _ _ _ _ _ _ _ _ H1)|apply (ti_shape _ _ _ _ _ _ _ _ _ _ _ H1)| | |apply (ti_rings _ _ _ _ _ _ _ _ _ _ _ H1)].
    - intros q [->|Hq]%elem_of_cons; [eauto|]. by apply (queue_alive _ _ _ _ _ _ _ _ _ _ _ q H1 Hq).
    - intros q w [->|Hq]%elem_of_cons Ew'; [|by apply (proj2 (queue_alive _ _ _ _ _ _ _ _ _ _ _ q H1 Hq))]. change (view (sc_procs (ps_sched s1))) with (V s1) in Ew'.
      rewrite EV1, Ev in Ew'. injection Ew' as <-. done. }
  split; cbn [ps_sched ps_ext ps_up ps_max_pid set_sched].
  - done.
  - rewrite EV. apply shape_start; try done. apply (ti_shape _ _ _ _ _ _ _ _ _ _ _ H).
  - destruct (ti_layout _ _ _ _ _ _ _ _ _ _ _ H). assert (forall q, is_Some (sc_procs S' !! q) <-> is_Some (sc_procs (ps_sched s) !! q)) as Hd' by (intros q; rewrite Ep'; by eapply is_Some_insert).
    split; setoid_rewrite Hd'; done.
  - split.
    + intros q Hq%Hd. by apply R1.
    + intros q w. rewrite EV. intros [[<- <-]|[_ Eq]]%lookup_insert_Some Hw; [done|by eapply R2].
    + intros q w. rewrite EV. intros [[<- <-]|[_ Eq]]%lookup_insert_Some Hw; [done|by eapply R3].
  - intros q. rewrite Hd. apply (ti_ext _ _ _ _ _ _ _ _ _ _ _ H).
  - apply (ti_files _ _ _ _ _ _ _ _ _ _ _ H).
  - intros q b Eb. destruct (ti_up _ _ _ _ _ _ _ _ _ _ _ H q b Eb) as (u & Eu & Hu). rewrite EV. destruct (decide (q = p)) as [->|Hne]; [eexists; by rewrite lookup_insert_eq|].
    exists u. by rewrite lookup_insert_ne.
  - intros q e u' Ee Eu' Hu' Hdd. rewrite EV in Eu'. assert (exists u, V s !! q = Some u /\ v_status u <> Zombie) as (u & Eu & Hu).
    { apply lookup_insert_Some in Eu' as [[<- <-]|[_ Eu']]; [eexists; by split|by exists u']. }
    unfold tokens. rewrite Hz. by apply (ti_tokens _ _ _ _ _ _ _ _ _ _ _ H q e u).
Qed.
End life.
