(* ===== verification/ProcStart.v ===== *)
(** Starting processes: [set_parent_to_this], [start_proc], [fork] and the
    first process, [init_kproc], of Proc.v keep the tree. *)
From Stdlib Require Import ZArith Lia.
From stdpp Require Import base numbers gmap relations list.
From S2P Require Import Prelude Sync ListNode Mem RbTree RbInsert RbErase Timer Sched Proc ProcTree ProcWait ProcExit ProcLife.

Section start.
Context (freq : Z) (timestamp : nat -> Z) (rq invalid_pt : Z) (sched_timer : nat -> Z) (root_proc lim : Z).
Context (Hclock : clock_ok freq timestamp lim) (Hrq : rq <> 0).
Notation tree_at := (tree_at freq timestamp rq sched_timer root_proc lim).
Notation tree_inv := (tree_inv freq timestamp rq sched_timer root_proc lim).
Notation V s := (view (sc_procs (ps_sched s))).

(** The process of a CPU is alive. *)
Lemma this_alive ex d s L C c u x : tree_at ex d s L C -> sc_cpus (ps_sched s) !! c = Some u -> sc_procs (ps_sched s) !! cu_this u = Some x -> pid x <> -1 ->
  state x = RUNNING /\ V s !! cu_this u = Some (mkView (pid x) (parent x) Alive).
Proof.
  intros H Eu Ex Hpid. destruct (si_this _ _ _ _ _ _ _ _ _ (ti_sched _ _ _ _ _ _ _ _ _ _ _ H) c u Eu) as (x0 & Ex0 & Hrun & _); [done|].
  rewrite Ex in Ex0. injection Ex0 as <-. split; [done|]. rewrite (view_some _ _ x) by done. by rewrite Hrun.
Qed.

Lemma wp_set_parent_to_this s L C c u x q y (Q : unit -> PS -> Prop) :
  tree_inv s L C -> sc_cpus (ps_sched s) !! c = Some u -> sc_procs (ps_sched s) !! cu_this u = Some x -> pid x <> -1 ->
  sc_procs (ps_sched s) !! q = Some y -> state y = UNUSED -> parent y = 0 -> q <> root_proc -> pid x < pid y -> pid y <> -1 ->
  (forall h, let s' := set_sched (set_procs (<[q := set_parent (cu_this u) y]> (sc_procs (ps_sched s))) (Sched.set_nodes h (ps_sched s))) s in
    tree_inv s' L (with_child C (cu_this u) q) -> Q tt s') ->
  wp (set_parent_to_this c q) Q s.
Proof.
  intros (H & Hpl & Hsl) Eu Ex Hpid Ey Hst Hpar Hq Hlt Hpy HQ. destruct (this_alive _ _ _ _ _ _ _ _ H Eu Ex Hpid) as [_ Ev].
  unfold set_parent_to_this. apply wp_bind, wp_acquire_plock; [done|]. apply wp_bind, (wp_read_proc _ _ y); [done|].
  apply wp_bind, wp_assert; [by apply Z.eqb_eq|]. apply wp_bind, (wp_thisproc _ _ u); [done|].
  set (s1 := set_plock true s). assert (tree_at (fun _ => 0) None s1 L C) as H1 by (by apply (tree_locks _ _ _ _ _ _ _ _ s)).
  apply (wp_adopt freq timestamp rq sched_timer root_proc lim _ _ s1 L C (cu_this u) q _ y _ _ H1 Ev); try done.
  intros h s2 H2. apply wp_modify.
  assert (set_plock false s2 = set_sched (set_procs (<[q := set_parent (cu_this u) y]> (sc_procs (ps_sched s))) (Sched.set_nodes h (ps_sched s))) s) as E.
  { unfold s2, s1. destruct s. simpl in *. by subst. }
  rewrite E. apply (HQ h). rewrite <- E. split; [by apply (tree_locks _ _ _ _ _ _ _ _ s2)|done].
Qed.

Definition started (t entry arg : Z) (x : Proc) : Proc := set_state RUNNABLE (set_kcontext (Some (AtEntry entry arg)) (set_parent t x)).

(** [start_proc]: the process joins the run queue; one without a parent becomes
    a child of the root. *)
Lemma wp_start_proc s L C p x entry arg (Q : Z -> PS -> Prop) :
  tree_inv s L C -> sc_procs (ps_sched s) !! p = Some x -> pid x <> -1 -> state x = UNUSED -> p <> root_proc ->
  (forall S', let s' := set_sched S' s in let orphan := parent x =? 0 in
    tree_inv s' (p :: L) (if orphan then with_child C root_proc p else C) -> sc_cpus S' = sc_cpus (ps_sched s) ->
    sc_procs S' = <[p := started (if orphan then root_proc else parent x) entry arg x]> (sc_procs (ps_sched s)) -> Q (pid x) s') ->
  wp (start_proc rq root_proc p entry arg) Q s.
Proof.
  intros (H & Hpl & Hsl) Ex Hpid Hst Hp HQ. unfold start_proc. apply wp_bind, wp_acquire_plock; [done|]. apply wp_bind, (wp_read_proc _ _ x); [done|].
  set (s1 := set_plock true s). assert (tree_at (fun _ => 0) None s1 L C) as H1 by (by apply (tree_locks _ _ _ _ _ _ _ _ s)). apply wp_bind.
  assert (root_proc <> 0) as Hroot0.
  { destruct (root_view _ _ _ _ _ _ _ _ _ _ _ H) as (vr & Evr & _). intros E. rewrite E in Evr. by rewrite (zero_free _ _ _ _ _ _ _ _ _ _ _ H) in Evr. }
  set (t := if parent x =? 0 then root_proc else parent x) in *. set (C' := if parent x =? 0 then with_child C root_proc p else C) in *.
  assert (forall s2, tree_at (fun _ => 0) None s2 L C' -> sc_procs (ps_sched s2) = <[p := set_parent t x]> (sc_procs (ps_sched s)) ->
    sc_cpus (ps_sched s2) = sc_cpus (ps_sched s) -> sc_lock (ps_sched s2) = false -> (forall S', set_plock false (set_sched S' s2) = set_sched S' s) ->
    wp (x ← read_proc p; write_proc p (set_kcontext (Some (AtEntry entry arg)) x) ;; on_sched (_activate_proc rq p false) ;;
        release_plock ;; x ← read_proc p; mret (pid x)) Q s2) as Hrest.
  { intros s2 H2 Ep2 Ec2 Hl2 Es2. assert (sc_procs (ps_sched s2) !! p = Some (set_parent t x)) as Ex2 by (rewrite Ep2; apply lookup_insert_eq).
    apply wp_bind, (wp_read_proc _ _ _ _ Ex2). apply (wp_start freq timestamp rq sched_timer root_proc lim Hclock Hrq _ _ s2 L C' p (set_parent t x) entry arg _ _ H2); try done.
    { cbn. unfold t. destruct (Z.eqb_spec (parent x) 0); done. }
    intros S' s3 H3 Hl3 Ec3 Ep3. apply wp_bind, wp_modify. unfold s3. rewrite Es2.
    assert (sc_procs S' = <[p := started t entry arg x]> (sc_procs (ps_sched s))) as Ep4 by (rewrite Ep3, Ep2, insert_insert_eq; done).
    apply wp_bind, (wp_read_proc _ _ (started t entry arg x)); [cbn; rewrite Ep4; apply lookup_insert_eq|]. apply wp_ret.
    apply (HQ S'); [|congruence|done]. split; [|done]. apply (tree_locks _ _ _ _ _ _ _ _ s3); try done; unfold s3; rewrite <- (Es2 S'); done. }
  destruct (Z.eqb_spec (parent x) 0) as [E0|E0].
  - destruct (root_view _ _ _ _ _ _ _ _ _ _ _ H) as (vr & Evr & _ & Hal & H1r).
    apply (wp_adopt freq timestamp rq sched_timer root_proc lim _ _ s1 L C root_proc p vr x _ _ H1); try done.
    { pose proof (sh_pid _ _ _ _ (ti_shape _ _ _ _ _ _ _ _ _ _ _ H) p _ (view_some _ _ _ Ex Hpid)) as Hb. simpl in Hb.
      destruct (decide (pid x = 1)) as [E1|]; [|lia]. destruct Hp. eapply (sh_inj _ _ _ _ (ti_shape _ _ _ _ _ _ _ _ _ _ _ H)); [by apply view_some|exact Evr|by rewrite E1]. }
    intros h s2 H2. apply wp_ret. apply Hrest; try done. intros S'. unfold s2, s1. destruct s. simpl in *. by subst.
  - apply wp_ret. apply Hrest; try done.
    + cbn. rewrite insert_id; [done|]. rewrite Ex. by destruct x.
    + intros S'. unfold s1. destruct s. simpl in *. by subst.
Qed.
(** ** [fork] *)

(** The open files of the parent are those of the child, each shared once. *)
Lemma wp_dup_files child files n : forall i s e, ps_ext s !! child = Some e -> length files = (i + n)%nat -> openfiles e = take i files ++ replicate n 0 ->
  wp (dup_files child n i files) (fun _ s' => s' = mkPS (ps_sched s) (ps_lock s) (ps_max_pid s)
    (<[child := set_openfiles files e]> (ps_ext s)) (ps_up s) (ps_calls s ++ (File_dup <$> filter (fun f => f <> 0) (drop i files)))) s.
Proof.
  induction n as [|n IH]; intros i s e Ee Hlen Hof; cbn [dup_files].
  - apply wp_ret. rewrite drop_ge by lia. rewrite take_ge in Hof by lia. simpl in Hof. rewrite !app_nil_r in *. rewrite insert_id; [by destruct s|]. rewrite Ee, <- Hof. by destruct e.
  - destruct (lookup_lt_is_Some_2 files i) as [f Ef]; [lia|]. apply wp_bind, (wp_deref _ f); [done|]. apply wp_bind.
    rewrite (drop_S _ _ _ Ef), filter_cons.
    assert (openfiles e !! i = Some 0) as E0 by (rewrite Hof, lookup_app_r by (rewrite length_take; lia); rewrite length_take, Nat.min_l, Nat.sub_diag by lia; done).
    destruct (Z.eqb_spec f 0) as [->|Hf]; cbn [negb].
    + rewrite decide_False by tauto. apply wp_ret. apply (IH (S i) s e Ee); [lia|]. rewrite Hof, (take_S_r _ _ _ Ef). by rewrite <- app_assoc.
    + rewrite decide_True by done. apply wp_bind, wp_modify, wp_bind, (wp_ext_at _ _ e); [done|]. apply wp_modify.
      match goal with |- wp _ _ ?st => set (s1 := st) end. eapply wp_mono; [apply (IH (S i) s1 (set_openfiles (<[i := f]> (openfiles e)) e))|].
      * apply lookup_insert_eq.
      * lia.
      * cbn [openfiles set_openfiles]. rewrite Hof, (take_S_r _ _ _ Ef), insert_app_r_alt by (rewrite length_take; lia).
        rewrite length_take, Nat.min_l, Nat.sub_diag by lia. cbn. by rewrite <- app_assoc.
      * intros _ s' ->. unfold s1. cbn. by rewrite insert_insert_eq, <- app_assoc.
Qed.

(** The child of [fork]: a copy of the trap frame in which x0 is 0, the same
    directory and the same open files. *)
Definition forked_ext (kstk : Z) (e : Ext) : Ext := mkExt (Sem.init_sem 0) kstk (<[X0 := 0]> (ucontext e)) (openfiles e) (cwd e).
Definition forked (s : PS) (L : list Z) (C : Z -> list Z) (this p kstk pgt trap_return : Z) (e : Ext) (r : Z) (s' : PS) : Prop :=
  r = ps_max_pid s + 1 /\ ps_max_pid s' = r /\ tree_inv s' (p :: L) (with_child (no_children C p) this p) /\
  sc_procs (ps_sched s') = <[p := started this trap_return 0 (new_proc (ps_max_pid s) pgt)]> (sc_procs (ps_sched s)) /\
  sc_cpus (ps_sched s') = sc_cpus (ps_sched s) /\ ps_ext s' = <[p := forked_ext kstk e]> (ps_ext s) /\ ps_up s' = ps_up s /\
  ps_calls s' = ps_calls s ++ [Init_pgdir p; Inode_share (cwd e)] ++ (File_dup <$> filter (fun f => f <> 0) (openfiles e)) ++ [Copy_pgdir this p].

Lemma wp_fork s L C c u x e p kstk pgt trap_return :
  tree_inv s L C -> sc_cpus (ps_sched s) !! c = Some u -> sc_procs (ps_sched s) !! cu_this u = Some x -> pid x <> -1 -> ps_ext s !! cu_this u = Some e ->
  room rq (ps_sched s) p -> ps_max_pid s < MAX_INT ->
  wp (fork rq root_proc c p kstk pgt trap_return) (forked s L C (cu_this u) p kstk pgt trap_return e) s.
Proof.
  intros HT Eu Ex Hpid Ee Hroom Hint. pose proof HT as (H & _ & _). set (this := cu_this u) in *. pose proof (ti_shape _ _ _ _ _ _ _ _ _ _ _ H) as Hs.
  pose proof (sh_pid _ _ _ _ Hs this _ (view_some _ _ _ Ex Hpid)) as Hb. simpl in Hb. pose proof (room_none _ _ _ Hroom) as Hp.
  assert (p <> this) as Hpt by congruence.
  assert (p <> root_proc) as Hpr.
  { intros ->. destruct (root_view _ _ _ _ _ _ _ _ _ _ _ H) as (vr & (? & ? & _)%view_lookup & _). congruence. }
  unfold fork. apply wp_bind, wp_bind, (wp_init_proc freq timestamp rq sched_timer root_proc lim s L C); [done|done|lia|]. intros h s1 HT1. apply wp_ret.
  apply wp_bind, (wp_thisproc _ _ u); [done|]. fold this. set (y := new_proc (ps_max_pid s) pgt) in *.
  assert (sc_procs (ps_sched s1) !! p = Some y) as Ey by apply lookup_insert_eq.
  apply wp_bind, (wp_set_parent_to_this s1 L (no_children C p) c u x p y); try done; [cbn; by rewrite lookup_insert_ne|simpl; lia|simpl; lia|]. fold this.
  intros h' s2 HT2. assert (ps_ext s2 !! this = Some e) as Ee2 by (cbn; by rewrite lookup_insert_ne).
  apply wp_bind, (wp_ext_at _ _ e); [done|]. apply wp_bind, (wp_ext_at _ _ (new_ext kstk)); [apply lookup_insert_eq|].
  apply wp_bind, wp_modify, wp_bind, wp_modify. apply wp_bind, (wp_ext_at _ _ (set_ucontext (<[X0 := 0]> (ucontext e)) (new_ext kstk))); [apply lookup_insert_eq|].
  apply wp_bind, wp_modify. match goal with |- wp _ _ ?st => set (s3 := st) end.
  apply wp_bind. eapply wp_mono; [apply (wp_dup_files p (openfiles e) NOPENFILE 0 s3 (set_cwd (cwd e) (set_ucontext (<[X0 := 0]> (ucontext e)) (new_ext kstk))))|].
  { apply lookup_insert_eq. }
  { apply (ti_files _ _ _ _ _ _ _ _ _ _ _ H _ _ Ee). }
  { done. }
  intros [] s4 ->. apply wp_bind, wp_modify. match goal with |- wp _ _ ?st => set (s4 := st) end.
  assert (ps_ext s4 = <[p := forked_ext kstk e]> (ps_ext s)) as Ee4 by (cbn; by rewrite !insert_insert_eq).
  assert (tree_inv s4 L (with_child (no_children C p) this p)) as HT4.
  { destruct HT2 as (H2 & Hl2). split; [|done]. apply (tree_locks _ _ _ _ _ _ _ _ (set_ext (<[p := forked_ext kstk e]> (ps_ext s2)) s2)); try done.
    - apply (tree_ext _ _ _ _ _ _ _ _ s2 L _ p (new_ext kstk)); try done; [apply lookup_insert_eq|]. apply (ti_files _ _ _ _ _ _ _ _ _ _ _ H _ _ Ee).
    - rewrite Ee4. cbn. by rewrite insert_insert_eq. }
  apply wp_bind, (wp_start_proc s4 L (with_child (no_children C p) this p) p (set_parent this y) trap_return 0); try done; [cbn; apply lookup_insert_eq|simpl; lia|].
  assert ((parent (set_parent this y) =? 0) = false) as -> by (apply Z.eqb_neq; cbn; intros E0; rewrite E0 in Ex; pose proof (lo_pos _ _ (ti_layout _ _ _ _ _ _ _ _ _ _ _ H) 0 ltac:(eauto)); lia).
  intros S' s5 o HT5 Ec5 Ep5. assert (sc_procs S' = <[p := started this trap_return 0 y]> (sc_procs (ps_sched s))) as Ep5'.
  { rewrite Ep5. cbn. by rewrite !insert_insert_eq. }
  apply wp_bind, (wp_read_proc _ _ (started this trap_return 0 y)); [cbn; rewrite Ep5'; apply lookup_insert_eq|]. apply wp_ret.
  split_and!; try done. unfold s5. cbn. by rewrite <- !app_assoc.
Qed.

(** ** Giving up the CPU *)

Lemma yield_view s L c u x s' :
  sched_inv freq timestamp rq sched_timer lim s L -> sc_cpus s !! c = Some u -> sc_procs s !! cu_this u = Some x ->
  scheduled freq timestamp rq sched_timer lim s L c u x RUNNABLE s' -> view (sc_procs s') = view (sc_procs s).
Proof.
  intros Hs Eu Ex [_ Hsch]. destruct (killed x && _); [by subst s'|].
  destruct Hsch as (L' & u' & Hs' & _ & Hcpu & Eu' & Hps & (b & u1 & Eu1 & Hb & Hnext) & Ho & Hkin & _ & Hst). cbn [sc_cpus set_procs] in Eu1. rewrite Eu in Eu1. injection Eu1 as <-.
  destruct (si_this _ _ _ _ _ _ _ _ _ Hs c u Eu) as (x0 & Ex0 & Hrun & _); [done|]. rewrite Ex in Ex0. injection Ex0 as <-.
  destruct (si_this _ _ _ _ _ _ _ _ _ Hs' c u' Eu') as (y' & Ey' & Hrun' & _); [done|].
  assert (forall p y z, sc_procs s !! p = Some y -> sc_procs s' !! p = Some z -> pid y = -1 \/ status_of (state y) = Alive -> pid y = -1 \/ status_of (state z) = Alive ->
    view (sc_procs s') !! p = view (sc_procs s) !! p) as Hsame.
  { intros p y z Ey Ez H1 H2. destruct (kin_forth _ _ _ _ Hkin Ey) as (z' & Ez' & (_ & _ & K1 & _ & K2 & _)). rewrite Ez in Ez'. injection Ez' as <-.
    unfold view. rewrite !lookup_omap, Ey, Ez. simpl. unfold view_of. rewrite K1, K2. destruct (decide (pid y = -1)) as [|Hn]; [done|].
    destruct H1 as [|H1]; [done|]. destruct H2 as [|H2]; [done|]. by rewrite H1, H2. }
  apply map_eq. intros p. destruct (decide (p = cu_this u)) as [->|Hp].
  - destruct (decide (cu_this u' = cu_this u)) as [E|Hne].
    + rewrite E in Ey'. apply (Hsame _ x y'); try done; right; [by rewrite Hrun|by rewrite Hrun'].
    + destruct (Hst Hne) as (z & Ez & Hz). apply (Hsame _ x z); try done; right; [by rewrite Hrun|by rewrite Hz].
  - destruct (decide (p = cu_this u')) as [->|Hp']; [|unfold view; rewrite !lookup_omap; by rewrite Hps].
    destruct (kin_back _ _ _ _ Hkin Ey') as (y & Ey & _). apply (Hsame _ y y'); try done; [|right; by rewrite Hrun'].
    destruct (decide (b = 0)) as [->|Hb0]; simpl in Hnext.
    + destruct (si_idle _ _ _ _ _ _ _ _ _ Hs c u Eu) as (xi & Exi & Hpi & _). rewrite Hnext, Exi in Ey. injection Ey as <-. by left.
    + destruct Hb as [[? _]|(l1 & l2 & _ & (z & Ez & Hz & _) & _)]; [done|]. cbn [sc_procs set_procs] in Ez.
      apply lookup_insert_Some in Ez as [[E <-]|[Hne Ez]]; [congruence|]. rewrite <- Hnext, Ey in Ez. injection Ez as <-. right. by rewrite Hz.
Qed.

Lemma wp_yield s L C c u x :
  tree_inv s L C -> sc_cpus (ps_sched s) !! c = Some u -> sc_procs (ps_sched s) !! cu_this u = Some x ->
  wp (on_sched (yield freq timestamp rq invalid_pt sched_timer c)) (fun _ s' => tree_inv s' L C /\ V s' = V s /\
    scheduled freq timestamp rq sched_timer lim (set_lock true (ps_sched s)) L c u x RUNNABLE (ps_sched s')) s.
Proof.
  intros (H & Hpl & Hsl) Eu Ex. apply wp_zoom. apply wp_bind, wp_acquire; [done|]. set (S1 := set_lock true (ps_sched s)).
  assert (sched_inv freq timestamp rq sched_timer lim S1 L) as H1 by (by destruct (ti_sched _ _ _ _ _ _ _ _ _ _ _ H)).
  eapply wp_mono; [apply (wp_sched freq timestamp rq invalid_pt sched_timer lim Hclock Hrq S1 L c u x RUNNABLE H1); try done; by left|].
  intros [] S' Hsch. pose proof (yield_view S1 L c u x S' H1 Eu Ex Hsch) as EV. split_and!; try done. pose proof Hsch as [Hl Hsch'].
  split; [|done]. destruct (killed x && _).
  - subst S'. by apply (tree_locks _ _ _ _ _ _ _ _ s).
  - destruct Hsch' as (L' & u' & Hs' & HL & _ & _ & _ & _ & Ho & Hkin & _). rewrite decide_True in HL by done. subst L'.
    apply (tree_step _ _ _ _ _ _ (fun _ => 0) None s L C S' L L H); try done.
    + intros p. split; [intros [y Ey]; destruct (kin_back _ _ _ _ Hkin Ey) as (? & ? & _); eauto|intros [y Ey]; destruct (kin_forth _ _ _ _ Hkin Ey) as (? & ? & _); eauto].
    + intros p Hp. exact (queue_alive _ _ _ _ _ _ _ _ _ _ _ p H Hp).
Qed.

(** ** The first process *)

(** The state in which [init_kproc] is called: only the idle processes. *)
Record before (s : PS) : Prop := {
  be_sched : sched_inv freq timestamp rq sched_timer lim (ps_sched s) [];
  be_lock : sc_lock (ps_sched s) = false;
  be_view : V s = ∅;
  be_pid : ps_max_pid s = 0;
  be_ext : ps_ext s = ∅;
  be_up : ps_up s = ∅;
  be_layout : layout rq (sc_procs (ps_sched s));
  be_room : room rq (ps_sched s) root_proc;
}.

Definition root_view1 : View := mkView 1 root_proc Alive.

Lemma first_shape : shape root_proc {[root_proc := root_view1]} (fun _ => []) 1.
Proof.
  split.
  - exists root_view1. by rewrite lookup_singleton_eq.
  - by intros p v [<- <-]%lookup_singleton_Some.
  - by intros p q v w [<- <-]%lookup_singleton_Some [<- <-]%lookup_singleton_Some.
  - intros p q _. split; [by intros ?%elem_of_nil|]. by intros (Hq & w & [<- _]%lookup_singleton_Some & _).
  - by intros q w [<- <-]%lookup_singleton_Some.
Qed.

Lemma wp_init_kproc s kernel_entry kstk pgt :
  before s -> wp (init_kproc rq root_proc kernel_entry kstk pgt) (fun _ s' => tree_inv s' [root_proc] (fun _ => []) /\ V s' = {[root_proc := root_view1]} /\
    sc_cpus (ps_sched s') = sc_cpus (ps_sched s) /\
    sc_procs (ps_sched s') = <[root_proc := started root_proc kernel_entry 123456 (new_proc 0 pgt)]> (sc_procs (ps_sched s))) s.
Proof.
  intros [Hs Hsl HV Hm Hext Hup Hl Hr]. pose proof (ro_pos _ _ _ Hr) as Hpos. pose proof (ro_rq _ _ _ Hr) as Hrq'. pose proof (room_none _ _ _ Hr) as Hnone.
  unfold init_kproc. apply wp_bind, wp_modify. apply wp_bind, wp_init_steps; [done|cbn; by rewrite Hm|]. cbn [set_plock ps_sched ps_max_pid ps_ext ps_up ps_calls]. rewrite Hm, Hext, Hup.
  intros h R1 R2 Ha Hf. set (y := new_proc 0 pgt). match goal with |- wp _ _ ?st => set (s1 := st) end.
  assert (forall q a, is_Some (sc_procs (ps_sched s) !! q) -> 0 <= a <= sizeof_Proc - 1 -> same_node (sc_nodes (ps_sched s)) h (q + a)) as Hold.
  { intros q a Hq Ha'. pose proof (ro_apart _ _ _ Hr q Hq). apply Hf; unfold children, ptnode, rqnode, sizeof_Proc in *; lia. }
  assert (sched_inv freq timestamp rq sched_timer lim (ps_sched s1) []) as Hs1.
  { apply (inv_new freq timestamp rq sched_timer lim (Sched.set_nodes h (ps_sched s))); try done; [|lia|unfold rqnode; lia|unfold rqnode, sizeof_Proc in *; lia].
    apply inv_nodes; [done| |].
    - intros n ->%list_elem_of_singleton. apply Hf; unfold children, ptnode, rqnode, sizeof_Proc in *; lia.
    - intros q Hq. apply (alive_frame (sc_nodes (ps_sched s))); [apply Hold; [done|unfold sizeof_Proc; lia]|].
      destruct Hq as [z Ez]. by destruct (si_nodes _ _ _ _ _ _ _ _ _ Hs q z Ez) as (_ & _ & _ & ?). }
  apply wp_bind, (wp_read_proc _ _ y); [apply lookup_insert_eq|]. apply wp_bind, wp_zoom, wp_modify. set (y1 := set_parent root_proc y). match goal with |- wp _ _ ?st => set (s2 := st) end.
  assert (sc_procs (ps_sched s2) !! root_proc = Some y1) as Ey2 by apply lookup_insert_eq.
  unfold start_proc. apply wp_bind, wp_bind, wp_acquire_plock; [done|]. apply wp_bind, (wp_read_proc _ _ y1); [done|].
  apply wp_bind. rewrite (proj2 (Z.eqb_neq _ _)) by (cbn; lia). apply wp_ret. apply wp_bind, (wp_read_proc _ _ y1); [done|].
  apply wp_bind, wp_zoom, wp_modify. set (y2 := set_kcontext _ y1). match goal with |- wp _ _ ?st => set (s3 := st) end.
  assert (sched_inv freq timestamp rq sched_timer lim (ps_sched s3) []) as Hs3.
  { apply (core_store_same _ _ _ _ _ _ _ _ _ root_proc y1 y2); try done. apply (core_store_same _ _ _ _ _ _ _ _ _ root_proc y y1); try done. apply lookup_insert_eq. }
  apply wp_bind, wp_zoom. eapply wp_mono; [apply (wp_activate freq timestamp rq sched_timer lim Hclock Hrq _ [] root_proc y2 false Hs3); try done; apply lookup_insert_eq|].
  change (wakes y2 false) with true. intros r S' (-> & Hl' & Hinv & Ep & Ec & Ho). apply wp_bind, wp_modify.
  assert (sc_procs S' = <[root_proc := started root_proc kernel_entry 123456 y]> (sc_procs (ps_sched s))) as Ep'.
  { rewrite Ep. cbn. by rewrite !insert_insert_eq. }
  apply wp_bind, (wp_read_proc _ _ (started root_proc kernel_entry 123456 y)); [cbn; rewrite Ep'; apply lookup_insert_eq|]. apply wp_ret, wp_ret.
  assert (view (sc_procs S') = {[root_proc := root_view1]}) as EV.
  { rewrite Ep', view_insert by done. unfold view in HV |- *. by rewrite HV. }
  assert (forall q, q = children root_proc \/ q = ptnode root_proc -> same_node h (sc_nodes S') q) as Hq.
  { intros q Hq. destruct (Ho q) as [E1 E2].
    - unfold children, ptnode, sizeof_Proc in *. lia.
    - intros ->%list_elem_of_singleton. unfold children, ptnode, rqnode in *. lia.
    - by split. }
  split_and!; [|exact EV|exact Ec|exact Ep']. split; [|done]. match goal with |- tree_at _ _ ?st _ _ => set (s4 := st) end.
  split; cbn [s4 ps_sched ps_ext ps_up ps_max_pid set_plock set_sched]; rewrite ?EV.
  - done.
  - apply first_shape.
  - rewrite Ep'. split.
    + intros q [<-|[_ Hx]]%lookup_insert_is_Some; [done|by apply (lo_pos _ _ Hl)].
    + intros q [<-|[_ Hx]]%lookup_insert_is_Some; [done|by apply (lo_rq _ _ Hl)].
    + intros p q [<-|[_ Hx]]%lookup_insert_is_Some [<-|[_ Hy]]%lookup_insert_is_Some Hne; [done|by apply (ro_apart _ _ _ Hr)| |by apply (lo_apart _ _ Hl)].
      pose proof (ro_apart _ _ _ Hr p Hx). lia.
  - split.
    + intros p [v [<- <-]%lookup_singleton_Some]. apply (ring_same h); [done|]. intros n ->%list_elem_of_singleton. apply Hq. by left.
    + intros q w [<- <-]%lookup_singleton_Some. simpl. lia.
    + by intros q w [<- <-]%lookup_singleton_Some.
  - intros p. cbn. rewrite insert_empty, !lookup_singleton_is_Some. done.
  - intros p e. cbn. by intros [<- <-]%lookup_singleton_Some.
  - intros p b. cbn. by rewrite lookup_empty.
  - intros p e v. cbn. intros [<- <-]%lookup_singleton_Some _ _ _. done.
Qed.

End start.
