(* ===== verification/ProcSpec.v ===== *)
(** The theorems about src/kernel/proc.c, and a run of the system that shows
    that they apply: start, [fork], [exit], [wait] and [kill]. *)
From Stdlib Require Import ZArith Lia.
From stdpp Require Import base numbers gmap relations list.
From S2P Require Import Prelude Sync ListNode Mem RbTree RbInsert RbErase Timer Sched Proc ProcTree ProcWait ProcExit ProcLife ProcStart.

Section specs.
Context (freq : Z) (timestamp : nat -> Z) (rq invalid_pt : Z) (sched_timer : nat -> Z) (root_proc lim : Z).
Context (Hclock : clock_ok freq timestamp lim) (Hrq : rq <> 0).
Notation tree_inv := (tree_inv freq timestamp rq sched_timer root_proc lim).
Notation V s := (view (sc_procs (ps_sched s))).

(** C34: [init_kproc], called when there are only the idle processes, makes the
    tree of the root process alone, its own parent, with pid 1 and alone in
    the run queue, and establishes the invariant of the tree. *)
Theorem init_kproc_spec s kernel_entry kstk pgt :
  before freq timestamp rq sched_timer root_proc lim s ->
  wp (init_kproc rq root_proc kernel_entry kstk pgt) (fun _ s' => tree_inv s' [root_proc] (fun _ => []) /\ V s' = {[root_proc := root_view1 root_proc]} /\
    sc_cpus (ps_sched s') = sc_cpus (ps_sched s) /\
    sc_procs (ps_sched s') = <[root_proc := started root_proc kernel_entry 123456 (new_proc 0 pgt)]> (sc_procs (ps_sched s))) s.
Proof. by apply wp_init_kproc. Qed.

(** C8: [fork] returns the next pid and keeps the invariant: the new process is
    the first child of the caller and in the run queue, starts at
    [trap_return] with the caller's registers except that x0 is 0, and has the
    same directory and open files, each shared once; no other process
    changes. The pid must not be beyond the greatest [int], where the code is
    undefined. (The comment of fork says that the parent of the new process is the
    parent of the caller; the code makes it the caller. The copy of the memory is
    recorded here as one call; it is the subject of fork_memory_spec.) *)
Theorem fork_spec s L C c u x e p kstk pgt trap_return :
  tree_inv s L C -> sc_cpus (ps_sched s) !! c = Some u -> sc_procs (ps_sched s) !! cu_this u = Some x -> pid x <> -1 -> ps_ext s !! cu_this u = Some e ->
  room rq (ps_sched s) p -> ps_max_pid s < MAX_INT ->
  wp (fork rq root_proc c p kstk pgt trap_return) (forked freq timestamp rq sched_timer root_proc lim s L C (cu_this u) p kstk pgt trap_return e) s.
Proof. by apply wp_fork. Qed.

(** C3: [exit] called by a process that is not the root never fails an
    assertion and does not return. When none of its files needs the scheduler to
    be closed, the process is left a zombie with its code, without page table, off
    its CPU; its children are now the first children of the root, its open files
    are closed, each once, and the invariant holds, so the semaphores of its
    parent and of the root count exactly the zombies they have to reap. When
    closing one of them wakes a process or waits for the disk, as it does for the
    last reference to a file on disk when no other operation is in progress, the
    CPU waits for ever, since [exit] holds the lock of the scheduler, and both
    locks stay taken. (What closing a file and
    freeing the page table do to their own components is in File.v and Paging.v;
    here the calls are recorded.) *)
Theorem exit_spec wakes s L C c u x e code :
  tree_inv s L C -> sc_cpus (ps_sched s) !! c = Some u -> sc_procs (ps_sched s) !! cu_this u = Some x -> pid x <> -1 -> cu_this u <> root_proc ->
  ps_ext s !! cu_this u = Some e -> ps_up s !! cu_this u = None ->
  if close_waits wakes e then
    blocks (exit freq timestamp rq invalid_pt sched_timer root_proc wakes c code) (fun s' => ps_lock s' = true /\ sc_lock (ps_sched s') = true) s
  else wp (exit freq timestamp rq invalid_pt sched_timer root_proc wakes c code) (fun _ => exited freq timestamp rq sched_timer root_proc lim s C c (cu_this u) code e) s.
Proof. apply (exit_ends_exit freq timestamp rq invalid_pt sched_timer root_proc lim Hclock Hrq wakes). Qed.

(** C6: [wait] returns -1 when the caller has no child; the pid and the exit
    code of a zombie child when there is one, the first of the list, whose
    stack and structure are freed and which leaves the tree; else the caller
    sleeps, unless it has been killed, when it returns -1. *)
Theorem wait_spec s L C c u x :
  tree_inv s L C -> sc_cpus (ps_sched s) !! c = Some u -> sc_procs (ps_sched s) !! cu_this u = Some x -> pid x <> -1 -> ps_up s !! cu_this u = None ->
  wp (wait freq timestamp rq invalid_pt sched_timer c) (waited freq timestamp rq sched_timer root_proc lim s L C c (cu_this u) x) s.
Proof. by apply wp_wait. Qed.

(** C19: A process that wakes up inside [wait] because a child has exited always
    finds a zombie child and reaps it; one woken without a post returns -1
    and the semaphore counts as before. *)
Theorem wait_resume_spec s L C c u (b : bool) :
  tree_inv s L C -> sc_cpus (ps_sched s) !! c = Some u -> ps_up s !! cu_this u = Some b ->
  wp (wait_resume c) (fun r s' => if b then reaped freq timestamp rq sched_timer root_proc lim s L C (cu_this u) r s'
    else r = (-1, None) /\ tree_inv s' L C /\ ps_sched s' = ps_sched s) s.
Proof. by apply wp_wait_resume. Qed.

(** C26: [kill] finds the started process with this pid wherever it is in the
    tree, marks it killed and makes it runnable if it sleeps (not if it sleeps
    deeply); it returns -1 and changes nothing when there is none. *)
Theorem kill_spec s L C id :
  tree_inv s L C ->
  wp (kill rq root_proc id) (fun r s' =>
    r = -1 /\ s' = s /\ (forall q, ~ has_pid (V s) id q) \/
    r = 0 /\ exists p x L', sc_procs (ps_sched s) !! p = Some x /\ pid x = id /\ state x <> UNUSED /\ tree_inv s' L' C /\
      sc_procs (ps_sched s') = <[p := set_killed true (if decide (state x = SLEEPING) then set_state RUNNABLE x else x)]> (sc_procs (ps_sched s)) /\
      sc_cpus (ps_sched s') = sc_cpus (ps_sched s) /\ ps_ext s' = ps_ext s) s.
Proof. by apply wp_kill. Qed.
End specs.

(** ** A run of the system *)

Abbreviation ex_tree := (tree_inv 62500000 example_clock 1000 example_timer 24576 5000).

Definition run {A} (m : M PS A) (s : PS) : PS := match m s with Done _ s' => s' | _ => s end.

Lemma run_any {A} (m : M PS A) (Q : A -> PS -> Prop) (P : PS -> Prop) s : wp m Q s -> (forall a s', Q a s' -> P s') -> P (run m s).
Proof. unfold wp, run. destruct (m s) as [a s'| | |]; [|done..]. intros HQ H. exact (H a s' HQ). Qed.

Lemma run_wp {A} (m : M PS A) (Q : A -> PS -> Prop) s L C : wp m Q s -> (forall a s', Q a s' -> ex_tree s' L C) -> ex_tree (run m s) L C.
Proof. exact (run_any m Q (fun s' => ex_tree s' L C) s). Qed.

(** No file needs the scheduler; the file of descriptor 3 does. *)
Definition no_wakes : nat -> bool := fun _ => false.
Definition wakes_3 : nat -> bool := Nat.eqb 3.

Definition ex_boot : PS := mkPS example_started false 0 ∅ ∅ [].
(** The root process, then on CPU 0; it forks; the child on CPU 1. *)
Definition ex_root : PS := run (init_kproc 1000 24576 4194304 12288 20480) ex_boot.
Definition ex_runs : PS := run (on_sched (yield 62500000 example_clock 1000 0 example_timer 0)) ex_root.
Definition ex_forked : PS := run (fork 1000 24576 0 28672 32768 36864 4194304) ex_runs.
Definition ex_child : PS := run (on_sched (yield 62500000 example_clock 1000 0 example_timer 1)) ex_forked.
Definition ex_exited : PS := run (exit 62500000 example_clock 1000 0 example_timer 24576 no_wakes 1 7) ex_child.
(** The root waits first: the exit of the child wakes it on CPU 1. *)
Definition ex_waiting : PS := run (wait 62500000 example_clock 1000 0 example_timer 0) ex_child.
Definition ex_posted : PS := run (exit 62500000 example_clock 1000 0 example_timer 24576 no_wakes 1 7) ex_waiting.

Definition cpu_of (c : nat) (s : PS) : cpu := default (example_cpu 0) (sc_cpus (ps_sched s) !! c).
Definition proc_of (p : Z) (s : PS) : Proc := default (example_junk 0) (sc_procs (ps_sched s) !! p).
Definition ext_of (p : Z) (s : PS) : Ext := default (new_ext 0) (ps_ext s !! p).

#[local] Opaque cpu_of proc_of ext_of.

Ltac by_compute := vm_compute; reflexivity.

Lemma ex_boot_ok : before 62500000 example_clock 1000 example_timer 24576 5000 ex_boot.
Proof.
  assert (sc_procs example_started = list_to_map ((fun i => (example_alloc i, example_idle)) <$> seq 0 4)) as E by by_compute.
  assert (forall p, is_Some (sc_procs example_started !! p) -> p ∈ [4096; 8192; 12288; 16384]) as Hd.
  { intros p. rewrite E. intros [x Hx]. apply elem_of_list_to_map_2 in Hx. rewrite list_elem_of_fmap in Hx. destruct Hx as (i & [= -> _] & Hi).
    rewrite elem_of_seq in Hi. unfold example_alloc. destruct i as [|[|[|[|]]]]; set_solver by lia. }
  split; [..|done|done|done| |].
  - apply example_started_inv.
  - apply example_started_inv.
  - by_compute.
  - split; cbn [ps_sched ex_boot]; unfold clear_of, sizeof_Proc.
    + intros p Hp%Hd. set_unfold. lia.
    + intros p Hp%Hd. set_unfold. lia.
    + intros p q Hp%Hd Hq%Hd. set_unfold. lia.
  - split; cbn [ps_sched ex_boot]; unfold sizeof_Proc; try lia. intros q Hq%Hd. set_unfold. lia.
Qed.
#[local] Opaque ex_boot.

Lemma init_kproc_spec_witness :
  wp (init_kproc 1000 24576 4194304 12288 20480) (fun _ s' => ex_tree s' [24576] (fun _ => []) /\ view (sc_procs (ps_sched s')) = {[24576 := root_view1 24576]} /\
    sc_cpus (ps_sched s') = sc_cpus (ps_sched ex_boot) /\
    sc_procs (ps_sched s') = <[24576 := started 24576 4194304 123456 (new_proc 0 20480)]> (sc_procs (ps_sched ex_boot))) ex_boot.
Proof. apply (init_kproc_spec 62500000 example_clock 1000 example_timer 24576 5000 example_clock_ok ltac:(lia) ex_boot 4194304 12288 20480 ex_boot_ok). Defined.

Lemma ex_root_ok : ex_tree ex_root [24576] (fun _ => []).
Proof.
  eapply run_wp; [by apply (wp_init_kproc 62500000 example_clock 1000 example_timer 24576 5000 example_clock_ok ltac:(lia) ex_boot 4194304 12288 20480 ex_boot_ok)|].
  by intros [] s' [? _].
Qed.
#[local] Opaque ex_root.

Lemma ex_runs_ok : ex_tree ex_runs [24576] (fun _ => []).
Proof.
  eapply run_wp; [apply (wp_yield 62500000 example_clock 1000 0 example_timer 24576 5000 example_clock_ok ltac:(lia) ex_root [24576] (fun _ => []) 0 (cpu_of 0 ex_root) (proc_of 4096 ex_root) ex_root_ok); by_compute|].
  by intros [] s' [? _].
Qed.
#[local] Opaque ex_runs.

Lemma room_at rq s p l : (map_to_list (sc_procs s)).*1 = l -> 0 < p -> rq < p \/ p + sizeof_Proc <= rq ->
  Forall (fun q => sizeof_Proc <= Z.abs (p - q)) l -> room rq s p.
Proof.
  intros El H1 H2 Hl. split; [done|done|]. intros q [x Hx]. rewrite Forall_forall in Hl. apply Hl. rewrite <- El. apply list_elem_of_fmap.
  exists (q, x). split; [done|]. by apply elem_of_map_to_list.
Qed.

Lemma ex_room : room 1000 (ps_sched ex_runs) 28672.
Proof. apply (room_at _ _ _ [12288; 24576; 16384; 8192; 4096]); [by_compute|done|by left|]. repeat (constructor; [done|]). constructor. Qed.

Definition ex_C : Z -> list Z := with_child (no_children (fun _ => []) 28672) 24576 28672.

Lemma fork_spec_witness :
  wp (fork 1000 24576 0 28672 32768 36864 4194304) (forked 62500000 example_clock 1000 example_timer 24576 5000 ex_runs [24576] (fun _ => []) 24576 28672 32768 36864 4194304 (ext_of 24576 ex_runs)) ex_runs.
Proof.
  apply (fork_spec 62500000 example_clock 1000 example_timer 24576 5000 example_clock_ok ltac:(lia) ex_runs [24576] (fun _ => []) 0 (cpu_of 0 ex_runs) (proc_of 24576 ex_runs) (ext_of 24576 ex_runs) 28672 32768 36864 4194304 ex_runs_ok).
  - by_compute.
  - by_compute.
  - by vm_compute.
  - by_compute.
  - exact ex_room.
  - by_compute.
Defined.

Lemma ex_forked_ok : ex_tree ex_forked [28672; 24576] ex_C.
Proof.
  eapply run_wp; [apply (wp_fork 62500000 example_clock 1000 example_timer 24576 5000 example_clock_ok ltac:(lia) ex_runs [24576] (fun _ => []) 0 (cpu_of 0 ex_runs) (proc_of 24576 ex_runs) (ext_of 24576 ex_runs) 28672 32768 36864 4194304 ex_runs_ok);
    [by_compute|by_compute|by vm_compute|by_compute|exact ex_room|by_compute]|].
  by intros r s' (_ & _ & ? & _).
Qed.
#[local] Opaque ex_forked.

Lemma kill_spec_witness :
  wp (kill 1000 24576 2) (fun r s' =>
    r = -1 /\ s' = ex_forked /\ (forall q, ~ has_pid (view (sc_procs (ps_sched ex_forked))) 2 q) \/
    r = 0 /\ exists p x L', sc_procs (ps_sched ex_forked) !! p = Some x /\ pid x = 2 /\ state x <> UNUSED /\ ex_tree s' L' ex_C /\
      sc_procs (ps_sched s') = <[p := set_killed true (if decide (state x = SLEEPING) then set_state RUNNABLE x else x)]> (sc_procs (ps_sched ex_forked)) /\
      sc_cpus (ps_sched s') = sc_cpus (ps_sched ex_forked) /\ ps_ext s' = ps_ext ex_forked) ex_forked.
Proof. exact (kill_spec 62500000 example_clock 1000 example_timer 24576 5000 example_clock_ok ltac:(lia) ex_forked [28672; 24576] ex_C 2 ex_forked_ok). Defined.

Lemma ex_child_ok : ex_tree ex_child [28672; 24576] ex_C.
Proof.
  eapply run_wp; [apply (wp_yield 62500000 example_clock 1000 0 example_timer 24576 5000 example_clock_ok ltac:(lia) ex_forked [28672; 24576] ex_C 1 (cpu_of 1 ex_forked) (proc_of 8192 ex_forked) ex_forked_ok); by_compute|].
  by intros [] s' [? _].
Qed.
#[local] Opaque ex_child.

(** The child again, with a file at descriptor 3. *)
Definition ex_open : Ext := set_openfiles (<[3%nat := 4660]> (openfiles (ext_of 28672 ex_child))) (ext_of 28672 ex_child).
Definition ex_child_open : PS := set_ext (<[28672 := ex_open]> (ps_ext ex_child)) ex_child.

Lemma ex_tree_ext s L C p e e' : ex_tree s L C -> ps_ext s !! p = Some e -> childexit e' = childexit e -> length (openfiles e') = NOPENFILE ->
  ex_tree (set_ext (<[p := e']> (ps_ext s)) s) L C.
Proof. intros (H1 & H2 & H3) Ee Ec Hl. split; [by apply (tree_ext _ _ _ _ _ _ _ _ _ _ _ p e e' H1)|done]. Qed.

Lemma ex_child_open_ok : ex_tree ex_child_open [28672; 24576] ex_C.
Proof. apply (ex_tree_ext ex_child [28672; 24576] ex_C 28672 (ext_of 28672 ex_child) ex_open ex_child_ok); by_compute. Qed.

Lemma exit_spec_witness :
  wp (exit 62500000 example_clock 1000 0 example_timer 24576 no_wakes 1 7)
    (fun _ => exited 62500000 example_clock 1000 example_timer 24576 5000 ex_child ex_C 1 28672 7 (ext_of 28672 ex_child)) ex_child /\
  blocks (exit 62500000 example_clock 1000 0 example_timer 24576 wakes_3 1 7) (fun s' => ps_lock s' = true /\ sc_lock (ps_sched s') = true) ex_child_open.
Proof.
  pose proof (exit_spec 62500000 example_clock 1000 0 example_timer 24576 5000 example_clock_ok ltac:(lia) no_wakes ex_child [28672; 24576] ex_C 1 (cpu_of 1 ex_child) (proc_of 28672 ex_child) (ext_of 28672 ex_child) 7 ex_child_ok
    ltac:(by_compute) ltac:(by_compute) ltac:(by vm_compute) ltac:(by vm_compute) ltac:(by_compute) ltac:(by_compute)) as H1.
  pose proof (exit_spec 62500000 example_clock 1000 0 example_timer 24576 5000 example_clock_ok ltac:(lia) wakes_3 ex_child_open [28672; 24576] ex_C 1 (cpu_of 1 ex_child) (proc_of 28672 ex_child) ex_open 7 ex_child_open_ok
    ltac:(by_compute) ltac:(by_compute) ltac:(by vm_compute) ltac:(by vm_compute) ltac:(by_compute) ltac:(by_compute)) as H2.
  assert (close_waits no_wakes (ext_of 28672 ex_child) = false) as E1 by by_compute. assert (close_waits wakes_3 ex_open = true) as E2 by by_compute.
  rewrite E1 in H1. rewrite E2 in H2. split; [exact H1|exact H2].
Defined.

Definition ex_C' : Z -> list Z := orphaned 24576 ex_C 28672.

Lemma ex_exited_ok : exists L, ex_tree ex_exited L ex_C'.
Proof.
  pose proof (wp_exit 62500000 example_clock 1000 0 example_timer 24576 5000 example_clock_ok ltac:(lia) no_wakes ex_child [28672; 24576] ex_C 1 (cpu_of 1 ex_child) (proc_of 28672 ex_child) (ext_of 28672 ex_child) 7 ex_child_ok
    ltac:(by_compute) ltac:(by_compute) ltac:(by vm_compute) ltac:(by vm_compute) ltac:(by_compute) ltac:(by_compute) ltac:(by_compute)) as H.
  apply (run_any _ _ (fun s' => exists L, ex_tree s' L ex_C') _ H). intros _ s' (L' & _ & _ & ? & _). by exists L'.
Qed.
#[local] Opaque ex_exited.

Lemma wait_spec_witness : exists L,
  wp (wait 62500000 example_clock 1000 0 example_timer 0)
    (waited 62500000 example_clock 1000 example_timer 24576 5000 ex_exited L ex_C' 0 24576 (proc_of 24576 ex_exited)) ex_exited.
Proof.
  destruct ex_exited_ok as [L HL]. exists L.
  apply (wait_spec 62500000 example_clock 1000 0 example_timer 24576 5000 example_clock_ok ltac:(lia) ex_exited L ex_C' 0 (cpu_of 0 ex_exited) (proc_of 24576 ex_exited) HL).
  - by_compute.
  - by_compute.
  - by vm_compute.
  - by_compute.
Defined.

Lemma ex_waiting_ok : exists L, ex_tree ex_waiting L ex_C.
Proof.
  pose proof (wp_wait 62500000 example_clock 1000 0 example_timer 24576 5000 example_clock_ok ltac:(lia) ex_child [28672; 24576] ex_C 0 (cpu_of 0 ex_child) (proc_of 24576 ex_child) ex_child_ok
    ltac:(by_compute) ltac:(by_compute) ltac:(by vm_compute) ltac:(by_compute)) as H.
  assert (zombies (view (sc_procs (ps_sched ex_child))) (ex_C (cu_this (cpu_of 0 ex_child))) = 0) as Ez by by_compute.
  assert (ex_C (cu_this (cpu_of 0 ex_child)) = [28672]) as EC by by_compute.
  apply (run_any _ _ (fun s' => exists L, ex_tree s' L ex_C) _ H). intros a s'. unfold waited.
  rewrite decide_False by (rewrite EC; discriminate). rewrite decide_True by exact Ez. intros (L' & HT & _). exists L'. exact HT.
Qed.
#[local] Opaque ex_waiting.

Lemma ex_posted_ok : exists L, ex_tree ex_posted L ex_C'.
Proof.
  destruct ex_waiting_ok as [L HL].
  pose proof (wp_exit 62500000 example_clock 1000 0 example_timer 24576 5000 example_clock_ok ltac:(lia) no_wakes ex_waiting L ex_C 1 (cpu_of 1 ex_waiting) (proc_of 28672 ex_waiting) (ext_of 28672 ex_waiting) 7 HL
    ltac:(by_compute) ltac:(by_compute) ltac:(by vm_compute) ltac:(by vm_compute) ltac:(by_compute) ltac:(by_compute) ltac:(by_compute)) as H.
  apply (run_any _ _ (fun s' => exists L, ex_tree s' L ex_C') _ H). intros _ s' (L' & _ & _ & ? & _). by exists L'.
Qed.
#[local] Opaque ex_posted.

Lemma wait_resume_spec_witness : exists L,
  wp (wait_resume 1) (fun r s' => reaped 62500000 example_clock 1000 example_timer 24576 5000 ex_posted L ex_C' 24576 r s') ex_posted.
Proof.
  destruct ex_posted_ok as [L HL]. exists L.
  apply (wait_resume_spec 62500000 example_clock 1000 example_timer 24576 5000 ex_posted L ex_C' 1 (cpu_of 1 ex_posted) true HL).
  - by_compute.
  - by_compute.
Defined.
