(* ===== verification/Pipe.v ===== *)
(** Pipes (src/fs/pipe.c, src/fs/pipe.h): a ring of [PIPE_SIZE] bytes with two
    32-bit counters and two semaphores.

    One process runs between two waits; a wait that finds no post puts it to
    sleep ([Blocked]). [killed] is [thisproc()->killed]. After a wait
    [pipe_write] and [pipe_read] go on without taking the lock again, here as
    in the code. *)
From Stdlib Require Import ZArith Lia.
From stdpp Require Import base numbers list.
From S2P Require Import Prelude Sync.

Definition PIPE_SIZE : Z := 512.

Record Pipe := mkPipe {
  pi_lock : bool;
  pi_wlock : Sem.Semaphore;
  pi_rlock : Sem.Semaphore;
  pi_data : list Z;
  pi_nread : Z;
  pi_nwrite : Z;
  pi_readopen : Z;
  pi_writeopen : Z;
}.

Definition set_pi_lock (v : bool) (p : Pipe) : Pipe :=
  mkPipe v (pi_wlock p) (pi_rlock p) (pi_data p) (pi_nread p) (pi_nwrite p) (pi_readopen p) (pi_writeopen p).
Definition set_wlock (v : Sem.Semaphore) (p : Pipe) : Pipe :=
  mkPipe (pi_lock p) v (pi_rlock p) (pi_data p) (pi_nread p) (pi_nwrite p) (pi_readopen p) (pi_writeopen p).
Definition set_rlock (v : Sem.Semaphore) (p : Pipe) : Pipe :=
  mkPipe (pi_lock p) (pi_wlock p) v (pi_data p) (pi_nread p) (pi_nwrite p) (pi_readopen p) (pi_writeopen p).
Definition set_data (d : list Z) (nw : Z) (p : Pipe) : Pipe :=
  mkPipe (pi_lock p) (pi_wlock p) (pi_rlock p) d (pi_nread p) nw (pi_readopen p) (pi_writeopen p).
Definition set_nread (v : Z) (p : Pipe) : Pipe :=
  mkPipe (pi_lock p) (pi_wlock p) (pi_rlock p) (pi_data p) v (pi_nwrite p) (pi_readopen p) (pi_writeopen p).
Definition set_readopen (v : Z) (p : Pipe) : Pipe :=
  mkPipe (pi_lock p) (pi_wlock p) (pi_rlock p) (pi_data p) (pi_nread p) (pi_nwrite p) v (pi_writeopen p).
Definition set_writeopen (v : Z) (p : Pipe) : Pipe :=
  mkPipe (pi_lock p) (pi_wlock p) (pi_rlock p) (pi_data p) (pi_nread p) (pi_nwrite p) (pi_readopen p) v.

(** [init_pipe] leaves the data of the fresh memory as it is. *)
Definition init_pipe (p : Pipe) : Pipe :=
  mkPipe false (Sem.init_sem 0) (Sem.init_sem 0) (pi_data p) 0 0 1 1.

Definition pipe_lock : M Pipe unit := fun p => if pi_lock p then Blocked p else Done tt (set_pi_lock true p).
Definition pipe_unlock : M Pipe unit := modify (set_pi_lock false).

Definition post_rlock : M Pipe unit := p ← get_state;
  match Sem._post_sem (pi_rlock p) with Some (_, sem) => modify (set_rlock sem) | None => PANIC end.
Definition post_wlock : M Pipe unit := p ← get_state;
  match Sem._post_sem (pi_wlock p) with Some (_, sem) => modify (set_wlock sem) | None => PANIC end.
Definition wait_rlock : M Pipe unit := p ← get_state;
  match Sem._wait_sem_enter 0 (pi_rlock p) with
  | (true, sem) => modify (set_rlock sem)
  | (false, sem) => modify (set_rlock sem) ;; sleep
  end.
Definition wait_wlock : M Pipe unit := p ← get_state;
  match Sem._wait_sem_enter 0 (pi_wlock p) with
  | (true, sem) => modify (set_wlock sem)
  | (false, sem) => modify (set_wlock sem) ;; sleep
  end.

Section io.
Context (killed : bool).

(** [while (pi->nwrite == pi->nread + PIPE_SIZE)]; false is [return -1]. Every
    round takes one post of [wlock]. *)
Fixpoint wait_room (fuel : nat) : M Pipe bool :=
  p ← get_state;
  if pi_nwrite p =? u32 (pi_nread p + PIPE_SIZE) then
    if (pi_readopen p =? 0) || killed then pipe_unlock ;; mret false
    else
      match fuel with
      | O => undefined
      | S fuel' => post_rlock ;; pipe_unlock ;; wait_wlock ;; wait_room fuel'
      end
  else mret true.

(** [pi->data[pi->nwrite++ % PIPE_SIZE] = c] *)
Definition put_byte (c : Z) : M Pipe unit :=
  p ← get_state;
  deref (pi_data p !! Z.to_nat (pi_nwrite p mod PIPE_SIZE)) ;;
  modify (set_data (<[Z.to_nat (pi_nwrite p mod PIPE_SIZE) := c]> (pi_data p)) (u32 (pi_nwrite p + 1))).

Fixpoint write_bytes (bytes : list Z) : M Pipe bool :=
  match bytes with
  | [] => mret true
  | c :: bytes' =>
      p ← get_state;
      ok ← wait_room (S (Z.to_nat (Sem.val (pi_wlock p))));
      if (ok : bool) then put_byte c ;; write_bytes bytes' else mret false
  end.

(** The [n] bytes at [addr]. *)
Definition pipe_write (addr : list Z) (n : Z) : M Pipe Z :=
  pipe_lock ;;
  ok ← write_bytes (take (Z.to_nat n) addr);
  if (ok : bool) then post_rlock ;; pipe_unlock ;; mret n else mret (-1).

(** [while (pi->nread == pi->nwrite && pi->writeopen)] *)
Fixpoint wait_data (fuel : nat) : M Pipe bool :=
  p ← get_state;
  if (pi_nread p =? pi_nwrite p) && negb (pi_writeopen p =? 0) then
    if killed then pipe_unlock ;; mret false
    else
      match fuel with
      | O => undefined
      | S fuel' => pipe_unlock ;; wait_rlock ;; wait_data fuel'
      end
  else mret true.

(** The copying loop: the bytes stored at [addr]. *)
Fixpoint read_bytes (n : nat) : M Pipe (list Z) :=
  match n with
  | O => mret []
  | S n' =>
      p ← get_state;
      if pi_nread p =? pi_nwrite p then mret []
      else
        c ← deref (pi_data p !! Z.to_nat (pi_nread p mod PIPE_SIZE));
        modify (set_nread (u32 (pi_nread p + 1))) ;;
        r ← read_bytes n'; mret (c :: r)
  end.

(** The value returned and the bytes read. *)
Definition pipe_read (n : Z) : M Pipe (Z * list Z) :=
  pipe_lock ;;
  p ← get_state;
  ok ← wait_data (S (Z.to_nat (Sem.val (pi_rlock p))));
  if (ok : bool) then
    r ← read_bytes (Z.to_nat n);
    post_wlock ;; pipe_unlock ;; mret (Z.of_nat (length r), r)
  else mret (-1, []).
End io.

(** [pipe_close] but for the release of the memory; true: both ends are
    closed. *)
Definition pipe_shut (writable : bool) : M Pipe bool :=
  pipe_lock ;;
  (if writable then modify (set_writeopen 0) ;; post_rlock else modify (set_readopen 0) ;; post_wlock) ;;
  pipe_unlock ;;
  p ← get_state; mret ((pi_readopen p =? 0) && (pi_writeopen p =? 0)).

(** ** A pipe is a bounded queue of bytes *)

(** How many bytes are in the pipe, and which. *)
Definition fill_count (p : Pipe) : nat := Z.to_nat (u32 (pi_nwrite p - pi_nread p)).
Definition byte_at (d : list Z) (n : Z) (k : nat) : Z := default 0 (d !! Z.to_nat ((n + Z.of_nat k) mod PIPE_SIZE)).
Definition contents (p : Pipe) : list Z := byte_at (pi_data p) (pi_nread p) <$> seq 0 (fill_count p).

Record pipe_ok (p : Pipe) : Prop := {
  po_data : length (pi_data p) = 512%nat;
  po_nread : 0 <= pi_nread p < 2 ^ 32;
  po_nwrite : 0 <= pi_nwrite p < 2 ^ 32;
  po_fill : (fill_count p <= 512)%nat;
  po_wsem : Sem.wf (pi_wlock p);
  po_rsem : Sem.wf (pi_rlock p);
}.

Lemma u32_mod a : u32 a = a mod 2 ^ 32.
Proof. reflexivity. Qed.

(** The counters wrap at a multiple of the size. *)
Lemma wrap_mod a k : (u32 a + k) mod 512 = (a + k) mod 512.
Proof.
  rewrite u32_mod. rewrite (Z.div_mod a (2 ^ 32)) at 2 by lia.
  replace (2 ^ 32 * (a / 2 ^ 32) + a mod 2 ^ 32 + k) with (a mod 2 ^ 32 + k + (a / 2 ^ 32 * 2 ^ 23) * 512) by lia.
  by rewrite Z.mod_add.
Qed.

Lemma nwrite_eq p : pipe_ok p -> pi_nwrite p = u32 (pi_nread p + Z.of_nat (fill_count p)).
Proof.
  intros [_ Hr Hw _ _ _]. unfold fill_count. rewrite !u32_mod.
  pose proof (Z.mod_pos_bound (pi_nwrite p - pi_nread p) (2 ^ 32)). rewrite Z2Nat.id by lia.
  rewrite Z.add_mod_idemp_r by lia. replace (pi_nread p + (pi_nwrite p - pi_nread p)) with (pi_nwrite p) by lia.
  by rewrite Z.mod_small.
Qed.

Lemma fill_wrap r f : Z.of_nat f < 2 ^ 32 -> Z.to_nat (u32 (u32 (r + Z.of_nat f) - r)) = f.
Proof.
  intros Hf. rewrite !u32_mod, Zminus_mod_idemp_l. replace (r + Z.of_nat f - r) with (Z.of_nat f) by lia.
  rewrite Z.mod_small by lia. lia.
Qed.

(** Full and empty, as the code tests them. *)
Lemma full_iff p : pipe_ok p -> (pi_nwrite p =? u32 (pi_nread p + PIPE_SIZE)) = (fill_count p =? 512)%nat.
Proof.
  intros Hok. pose proof (nwrite_eq p Hok) as E. destruct Hok as [_ Hr Hw Hf _ _]. unfold PIPE_SIZE. rewrite E, !u32_mod.
  destruct (Nat.eqb_spec (fill_count p) 512) as [->|Hne]; [apply Z.eqb_refl|]. apply Z.eqb_neq. intros H.
  pose proof (Z.div_mod (pi_nread p + Z.of_nat (fill_count p)) (2 ^ 32) ltac:(lia)).
  pose proof (Z.div_mod (pi_nread p + 512) (2 ^ 32) ltac:(lia)). lia.
Qed.

Lemma empty_iff p : pipe_ok p -> (pi_nread p =? pi_nwrite p) = (fill_count p =? 0)%nat.
Proof.
  intros Hok. pose proof (nwrite_eq p Hok) as E. destruct Hok as [_ Hr Hw Hf _ _]. rewrite E, !u32_mod.
  destruct (Nat.eqb_spec (fill_count p) 0) as [->|Hne].
  - rewrite Z.add_0_r, Z.mod_small by lia. apply Z.eqb_refl.
  - apply Z.eqb_neq. intros H. pose proof (Z.div_mod (pi_nread p + Z.of_nat (fill_count p)) (2 ^ 32) ltac:(lia)). lia.
Qed.

Lemma length_contents p : length (contents p) = fill_count p.
Proof. unfold contents. by rewrite length_fmap, length_seq. Qed.

(** The fields other than the data, the counters, the lock and the semaphores. *)
Definition same_ends (p p' : Pipe) : Prop := pi_readopen p' = pi_readopen p /\ pi_writeopen p' = pi_writeopen p.

Lemma put_contents p c :
  pipe_ok p -> (fill_count p < 512)%nat ->
  wp (put_byte c) (fun _ p' => pipe_ok p' /\ contents p' = contents p ++ [c] /\ same_ends p p' /\
    pi_lock p' = pi_lock p /\ pi_wlock p' = pi_wlock p /\ pi_rlock p' = pi_rlock p) p.
Proof.
  intros Hok Hf. pose proof (nwrite_eq p Hok) as E. pose proof Hok as [Hd Hr Hw _ Hs1 Hs2].
  pose proof (Z.mod_pos_bound (pi_nwrite p) 512 ltac:(lia)) as Hm.
  unfold put_byte. apply wp_bind, wp_get_state. apply wp_bind.
  destruct (lookup_lt_is_Some_2 (pi_data p) (Z.to_nat (pi_nwrite p mod PIPE_SIZE))) as [x Hx]; [unfold PIPE_SIZE; lia|].
  eapply wp_deref; [exact Hx|]. apply wp_modify.
  set (p' := set_data _ _ p). assert (fill_count p' = S (fill_count p)) as Ef.
  { unfold fill_count at 1. unfold p'. cbn [pi_nwrite pi_nread set_data]. rewrite E.
    replace (u32 (u32 (pi_nread p + Z.of_nat (fill_count p)) + 1)) with (u32 (pi_nread p + Z.of_nat (S (fill_count p)))).
    - apply fill_wrap. lia.
    - rewrite !u32_mod. rewrite Z.add_mod_idemp_l by lia. f_equal. lia. }
  split_and!; try done.
  - split; try done; unfold p'; simpl; [by rewrite length_insert| |fold p'; lia].
    rewrite u32_mod. apply Z.mod_pos_bound. lia.
  - unfold contents. rewrite Ef, seq_S, fmap_app. f_equal.
    + apply list_fmap_ext. intros i k Hk. apply lookup_seq in Hk as [-> Hk]. unfold p', byte_at. simpl. f_equal.
      rewrite list_lookup_insert_ne; [done|]. intros Heq. apply Z2Nat.inj in Heq; try apply Z.mod_pos_bound; try (unfold PIPE_SIZE; lia).
      unfold PIPE_SIZE in Heq. rewrite E in Heq. rewrite <- (Z.add_0_r (u32 _)), wrap_mod, Z.add_0_r in Heq.
      pose proof (Z.div_mod (pi_nread p + Z.of_nat (fill_count p)) 512). pose proof (Z.div_mod (pi_nread p + Z.of_nat i) 512). lia.
    + cbn [fmap list_fmap]. f_equal. unfold byte_at, p'. simpl. unfold PIPE_SIZE.
      assert ((pi_nread p + Z.of_nat (fill_count p)) mod 512 = pi_nwrite p mod 512) as ->.
      { rewrite E. rewrite <- (Z.add_0_r (u32 _)), wrap_mod, Z.add_0_r. done. }
      rewrite list_lookup_insert_eq; [done|]. lia.
Qed.

Lemma take_contents p :
  pipe_ok p -> (0 < fill_count p)%nat ->
  pi_data p !! Z.to_nat (pi_nread p mod PIPE_SIZE) = head (contents p) /\
  let p' := set_nread (u32 (pi_nread p + 1)) p in
  pipe_ok p' /\ contents p' = tail (contents p).
Proof.
  intros Hok Hf. pose proof (nwrite_eq p Hok) as E. pose proof Hok as [Hd Hr Hw Hf2 Hs1 Hs2].
  pose proof (Z.mod_pos_bound (pi_nread p) 512 ltac:(lia)) as Hm. unfold contents.
  destruct (fill_count p) as [|n] eqn:En; [lia|]. cbn [seq fmap list_fmap head tail].
  destruct (lookup_lt_is_Some_2 (pi_data p) (Z.to_nat (pi_nread p mod PIPE_SIZE))) as [x Hx]; [unfold PIPE_SIZE; lia|].
  split. { unfold byte_at. rewrite Z.add_0_r, Hx. done. }
  cbv zeta. set (p' := set_nread _ p). assert (fill_count p' = n) as Ef.
  { unfold fill_count, p'. cbn [pi_nwrite pi_nread set_nread]. rewrite E.
    replace (pi_nread p + Z.of_nat (S n)) with (pi_nread p + 1 + Z.of_nat n) by lia.
    rewrite !u32_mod. rewrite <- Zminus_mod_idemp_r, Z.mod_mod, Zminus_mod_idemp_r, <- !u32_mod by lia. apply fill_wrap. lia. }
  split.
  - split; try done; unfold p'; cbn [pi_nread set_nread]; [rewrite u32_mod; apply Z.mod_pos_bound; lia|]. fold p'. lia.
  - unfold contents. rewrite Ef, <- fmap_S_seq, <- list_fmap_compose. apply list_fmap_ext. intros i k _.
    unfold byte_at, p'. cbn [pi_data pi_nread set_nread compose]. unfold PIPE_SIZE. do 2 f_equal. f_equal.
    rewrite wrap_mod. f_equal. lia.
Qed.

(** Changes of the lock and of the semaphores. *)
Lemma pipe_ok_lock v p : pipe_ok p -> pipe_ok (set_pi_lock v p).
Proof. intros []. split; done. Qed.

Lemma wp_pipe_lock (Q : unit -> Pipe -> Prop) p : pi_lock p = false -> Q tt (set_pi_lock true p) -> wp pipe_lock Q p.
Proof. intros E HQ. unfold wp, pipe_lock. by rewrite E. Qed.

Lemma wp_post_rlock p :
  pipe_ok p -> wp post_rlock (fun _ p' => pipe_ok p' /\ contents p' = contents p /\ same_ends p p' /\ pi_lock p' = pi_lock p /\
    pi_wlock p' = pi_wlock p) p.
Proof.
  intros [? ? ? ? Hw Hr]. apply wp_bind, wp_get_state. destruct (Sem.post_sem_spec _ Hr) as (w & sem & -> & Hwf & _).
  apply wp_modify. by split_and!.
Qed.

Lemma wp_post_wlock p :
  pipe_ok p -> wp post_wlock (fun _ p' => pipe_ok p' /\ contents p' = contents p /\ same_ends p p' /\ pi_lock p' = pi_lock p /\
    pi_rlock p' = pi_rlock p) p.
Proof.
  intros [? ? ? ? Hw Hr]. apply wp_bind, wp_get_state. destruct (Sem.post_sem_spec _ Hw) as (w & sem & -> & Hwf & _).
  apply wp_modify. by split_and!.
Qed.

Lemma same_ends_trans p1 p2 p3 : same_ends p1 p2 -> same_ends p2 p3 -> same_ends p1 p3.
Proof. unfold same_ends. intros [-> ->] [-> ->]. done. Qed.

Lemma wp_write_bytes killed bytes p :
  pipe_ok p -> (fill_count p + length bytes <= 512)%nat ->
  wp (write_bytes killed bytes) (fun ok p' => ok = true /\ pipe_ok p' /\ contents p' = contents p ++ bytes /\ same_ends p p' /\
    pi_lock p' = pi_lock p /\ pi_wlock p' = pi_wlock p) p.
Proof.
  revert p. induction bytes as [|c bytes IH]; intros p Hok Hf; cbn [write_bytes].
  { apply wp_ret. by rewrite app_nil_r. }
  simpl in Hf. apply wp_bind, wp_get_state. apply wp_bind. cbn [wait_room]. apply wp_bind, wp_get_state.
  rewrite full_iff by done. rewrite (proj2 (Nat.eqb_neq _ 512)) by lia. apply wp_ret. apply wp_bind.
  eapply wp_mono; [apply put_contents; [done|lia]|]. intros [] p1 (Hok1 & Hc1 & He1 & Hl1 & Hw1 & _).
  eapply wp_mono; [apply IH; [done|]|].
  - pose proof (f_equal length Hc1) as El. rewrite length_app, !length_contents in El. simpl in El. lia.
  - intros ok p2 (-> & Hok2 & Hc2 & He2 & Hl2 & Hw2). split_and!; [done|done| |by eapply same_ends_trans|congruence..].
    rewrite Hc2, Hc1, <- app_assoc. done.
Qed.

Lemma wp_read_bytes n p :
  pipe_ok p ->
  wp (read_bytes n) (fun r p' => r = take n (contents p) /\ pipe_ok p' /\ contents p' = drop n (contents p) /\ same_ends p p' /\
    pi_lock p' = pi_lock p) p.
Proof.
  revert p. induction n as [|n IH]; intros p Hok; cbn [read_bytes].
  { apply wp_ret. by split_and!. }
  apply wp_bind, wp_get_state. rewrite empty_iff by done. destruct (Nat.eqb_spec (fill_count p) 0) as [E|E].
  - apply wp_ret. assert (contents p = []) as -> by (apply nil_length_inv; by rewrite length_contents). by split_and!.
  - destruct (take_contents p Hok) as (Hx & Hok1 & Hc1); [lia|]. destruct (contents p) as [|c q] eqn:Ec.
    { pose proof (length_contents p) as El. rewrite Ec in El. simpl in El. lia. }
    apply wp_bind. eapply wp_deref; [exact Hx|]. apply wp_bind, wp_modify. apply wp_bind.
    eapply wp_mono; [apply IH; exact Hok1|]. rewrite Hc1. intros r p2 (-> & Hok2 & Hc2 & He2 & Hl2). apply wp_ret.
    split_and!; try done.
Qed.

(** [c] puts the process to sleep, in a state in [P]. *)
Definition sleeps {S A} (c : M S A) (P : S -> Prop) (s : S) : Prop :=
  match c s with Blocked s' => P s' | _ => False end.

Lemma sleeps_bind {S A B} (c : M S A) (k : A -> M S B) P s :
  wp c (fun a s' => sleeps (k a) P s') s -> sleeps (a ← c; k a) P s.
Proof. unfold wp, sleeps, mbind, M_bind. by destruct (c s). Qed.

Lemma sleeps_bind_l {S A B} (c : M S A) (k : A -> M S B) P s : sleeps c P s -> sleeps (a ← c; k a) P s.
Proof. unfold sleeps, mbind, M_bind. by destruct (c s). Qed.

Lemma write_bytes_app killed a b p :
  write_bytes killed (a ++ b) p = (ok ← write_bytes killed a; if (ok : bool) then write_bytes killed b else mret false) p.
Proof.
  revert p. induction a as [|c a IH]; intros p; [done|]. cbn [app write_bytes].
  unfold mbind, M_bind in *. unfold get_state. destruct (wait_room _ _ p) as [[] p1| | |]; try done.
  destruct (put_byte c p1) as [[] p2| | |]; try done.
Qed.

(** The bytes that fit, and the first one that does not. *)
Lemma overflow_split (q bs : list Z) :
  (length q <= 512)%nat -> (512 < length q + length bs)%nat ->
  exists a c b, bs = a ++ c :: b /\ (length q + length a = 512)%nat /\ take 512 (q ++ bs) = q ++ a.
Proof.
  intros Hq Hb. destruct (lookup_lt_is_Some_2 bs (512 - length q)) as [c Hc]; [lia|].
  exists (take (512 - length q) bs), c, (drop (S (512 - length q)) bs). split_and!.
  - by rewrite take_drop_middle.
  - rewrite length_take. lia.
  - rewrite take_app, take_ge by lia. done.
Qed.

Lemma fill_after p (a : list Z) p1 : contents p1 = contents p ++ a -> fill_count p1 = (fill_count p + length a)%nat.
Proof. intros E. rewrite <- !length_contents, E. apply length_app. Qed.

Lemma sleeps_mono {S A} (c : M S A) (P Q : S -> Prop) s : sleeps c P s -> (forall s', P s' -> Q s') -> sleeps c Q s.
Proof. unfold sleeps. destruct (c s); auto. Qed.

(** The wait of a writer in front of a full pipe. *)
Lemma room_full killed p :
  pipe_ok p -> fill_count p = 512%nat ->
  let room := wait_room killed (S (Z.to_nat (Sem.val (pi_wlock p)))) in
  if (pi_readopen p =? 0) || killed then wp room (fun ok p' => ok = false /\ contents p' = contents p /\ pi_lock p' = false) p
  else Sem.val (pi_wlock p) <= 0 -> sleeps room (fun p' => contents p' = contents p /\ pi_lock p' = false) p.
Proof.
  intros Hok Hf room. subst room. cbn [wait_room].
  assert ((pi_nwrite p =? u32 (pi_nread p + PIPE_SIZE)) = true) as Efull by (rewrite full_iff by done; by apply Nat.eqb_eq).
  destruct ((pi_readopen p =? 0) || killed) eqn:Eend.
  - apply wp_bind, wp_get_state. rewrite Efull, Eend. by apply wp_bind, wp_modify, wp_ret.
  - intros Hv. apply sleeps_bind, wp_get_state. rewrite Efull, Eend. apply sleeps_bind.
    eapply wp_mono; [by apply wp_post_rlock|]. intros [] p2 (_ & Hc2 & _ & _ & Hw2). apply sleeps_bind, wp_modify.
    apply sleeps_bind_l, sleeps_bind, wp_get_state. cbn [pi_wlock set_pi_lock]. rewrite Hw2. unfold Sem._wait_sem_enter.
    rewrite (proj2 (Z.leb_gt 0 _)) by lia. by split.
Qed.

Lemma wp_pipe_write_fits killed p bs :
  pipe_ok p -> pi_lock p = false -> (length (contents p) + length bs <= 512)%nat ->
  wp (pipe_write killed bs (Z.of_nat (length bs))) (fun r p' => r = Z.of_nat (length bs) /\ pipe_ok p' /\
    contents p' = contents p ++ bs /\ same_ends p p' /\ pi_lock p' = false) p.
Proof.
  intros Hok Hl Hlen. rewrite length_contents in Hlen. unfold pipe_write. apply wp_bind, wp_pipe_lock; [done|]. apply wp_bind.
  rewrite take_ge by lia. eapply wp_mono; [apply wp_write_bytes; [by apply pipe_ok_lock|done]|].
  intros ok p1 (-> & Hok1 & Hc1 & He1 & _). apply wp_bind. eapply wp_mono; [by apply wp_post_rlock|].
  intros [] p2 (Hok2 & Hc2 & He2 & _). apply wp_bind, wp_modify, wp_ret. split_and!; try done.
  + by apply pipe_ok_lock.
  + change (contents (set_pi_lock false p2)) with (contents p2). by rewrite Hc2, Hc1.
  + eapply same_ends_trans; [exact He1|exact He2].
Qed.

Lemma wp_pipe_read_ready killed p n :
  pipe_ok p -> pi_lock p = false -> contents p <> [] \/ pi_writeopen p = 0 ->
  wp (pipe_read killed n) (fun r p' => r.2 = take (Z.to_nat n) (contents p) /\ r.1 = Z.of_nat (length r.2) /\ pipe_ok p' /\
    contents p' = drop (Z.to_nat n) (contents p) /\ same_ends p p' /\ pi_lock p' = false) p.
Proof.
  intros Hok Hl Hne. unfold pipe_read. apply wp_bind, wp_pipe_lock; [done|]. apply wp_bind, wp_get_state. apply wp_bind.
  cbn [wait_data]. apply wp_bind, wp_get_state.
  assert ((pi_nread p =? pi_nwrite p) && negb (pi_writeopen p =? 0) = false) as E.
  { rewrite empty_iff by done. destruct Hne as [Hne| ->]; [|by rewrite andb_false_r].
    rewrite (proj2 (Nat.eqb_neq _ 0)); [done|]. rewrite <- length_contents. by destruct (contents p). }
  cbn [pi_nread pi_nwrite pi_writeopen set_pi_lock]. rewrite E. apply wp_ret. apply wp_bind.
  eapply wp_mono; [apply wp_read_bytes; by apply pipe_ok_lock|]. intros r p1 (-> & Hok1 & Hc1 & He1 & _).
  apply wp_bind. eapply wp_mono; [by apply wp_post_wlock|]. intros [] p2 (Hok2 & Hc2 & He2 & _).
  apply wp_bind, wp_modify, wp_ret. split_and!; try done.
  + by apply pipe_ok_lock.
  + change (contents (set_pi_lock false p2)) with (contents p2). by rewrite Hc2, Hc1.
  + eapply same_ends_trans; [exact He1|exact He2].
Qed.

(** C20: A pipe is a bounded first-in first-out queue of bytes. A write that fits
    appends all its bytes and returns their number; a read of a pipe that has
    bytes, or has no writer left, returns the oldest bytes, at most [n] of
    them, and takes them out (no bytes at the end of the file). Neither call
    sleeps, both keep the counters consistent across their wrap at 2^32 and
    give the lock back. *)
Theorem pipe_queue killed p :
  pipe_ok p -> pi_lock p = false ->
  (forall bs, (length (contents p) + length bs <= 512)%nat ->
     wp (pipe_write killed bs (Z.of_nat (length bs))) (fun r p' => r = Z.of_nat (length bs) /\ pipe_ok p' /\
       contents p' = contents p ++ bs /\ same_ends p p' /\ pi_lock p' = false) p) /\
  (forall n, contents p <> [] \/ pi_writeopen p = 0 ->
     wp (pipe_read killed n) (fun r p' => r.2 = take (Z.to_nat n) (contents p) /\ r.1 = Z.of_nat (length r.2) /\ pipe_ok p' /\
       contents p' = drop (Z.to_nat n) (contents p) /\ same_ends p p' /\ pi_lock p' = false) p).
Proof. intros Hok Hl. split; intros; [by apply wp_pipe_write_fits|by apply wp_pipe_read_ready]. Qed.

(** The limits of a pipe. A write that does not fit fills the pipe; then it
    returns -1 when the reader is gone or the process is killed, and sleeps
    when there is a reader and no post to take. A read of an empty pipe with
    a writer sleeps when there is no post to take, and returns -1 in a killed
    process. The lock is free in each case. *)
Theorem pipe_limits killed p :
  pipe_ok p -> pi_lock p = false ->
  (forall bs, (512 < length (contents p) + length bs)%nat ->
     let full p' := contents p' = take 512 (contents p ++ bs) /\ pi_lock p' = false in
     if (pi_readopen p =? 0) || killed
     then wp (pipe_write killed bs (Z.of_nat (length bs))) (fun r p' => r = -1 /\ full p') p
     else Sem.val (pi_wlock p) <= 0 -> sleeps (pipe_write killed bs (Z.of_nat (length bs))) full p) /\
  (forall n, contents p = [] -> pi_writeopen p <> 0 ->
     if killed then wp (pipe_read killed n) (fun r p' => r = (-1, []) /\ pi_lock p' = false) p
     else Sem.val (pi_rlock p) <= 0 -> sleeps (pipe_read killed n) (fun p' => pi_lock p' = false) p).
Proof.
  intros Hok Hl. split.
  - intros bs Hlen full. destruct (overflow_split (contents p) bs) as (a & c & b & -> & Ha & Et); [|done|].
    { rewrite length_contents. apply Hok. }
    pose proof (wp_write_bytes killed a (set_pi_lock true p) (pipe_ok_lock true p Hok)) as Hw.
    rewrite length_contents in Ha. specialize (Hw ltac:(change (fill_count (set_pi_lock true p)) with (fill_count p); lia)).
    assert (forall p1, contents p1 = contents p ++ a -> (fill_count p1 = 512)%nat) as Hf.
    { intros p1 Hc1. by rewrite (fill_after p a p1). }
    assert (forall p1 p2, contents p1 = contents p ++ a -> contents p2 = contents p1 /\ pi_lock p2 = false -> full p2) as Hfull.
    { intros p1 p2 Hc1 [Hc2 Hl2]. split; [|done]. by rewrite Et, Hc2. }
    destruct ((pi_readopen p =? 0) || killed) eqn:Eend.
    + apply wp_bind, wp_pipe_lock; [done|]. apply wp_bind. rewrite take_ge by lia. unfold wp at 1. rewrite write_bytes_app.
      change (wp (ok ← write_bytes killed a; if (ok : bool) then write_bytes killed (c :: b) else mret false)
        (fun ok p' => wp (if (ok : bool) then post_rlock ;; pipe_unlock ;; mret (Z.of_nat (length (a ++ c :: b))) else mret (-1))
           (fun r p' => r = -1 /\ full p') p') (set_pi_lock true p)).
      apply wp_bind. eapply wp_mono; [exact Hw|]. intros ok p1 (-> & Hok1 & Hc1 & He1 & _ & Hw1). cbn [write_bytes].
      apply wp_bind, wp_get_state. apply wp_bind. pose proof (room_full killed p1 Hok1 (Hf p1 Hc1)) as Hroom. rewrite (proj1 He1) in Hroom.
      cbn [pi_readopen set_pi_lock] in Hroom. rewrite Eend in Hroom. eapply wp_mono; [exact Hroom|]. intros ok p2 (-> & Hp2).
      apply wp_ret, wp_ret. split; [done|]. by eapply Hfull.
    + intros Hv. apply sleeps_bind, wp_pipe_lock; [done|]. apply sleeps_bind_l. rewrite take_ge by lia. unfold sleeps. rewrite write_bytes_app.
      change (sleeps (ok ← write_bytes killed a; if (ok : bool) then write_bytes killed (c :: b) else mret false) full (set_pi_lock true p)).
      apply sleeps_bind. eapply wp_mono; [exact Hw|]. intros ok p1 (-> & Hok1 & Hc1 & He1 & _ & Hw1). cbn [write_bytes].
      apply sleeps_bind, wp_get_state. apply sleeps_bind_l. pose proof (room_full killed p1 Hok1 (Hf p1 Hc1)) as Hroom. rewrite (proj1 He1) in Hroom.
      cbn [pi_readopen set_pi_lock] in Hroom. rewrite Eend, Hw1 in Hroom. cbn [pi_wlock set_pi_lock] in Hroom.
      rewrite Hw1. eapply sleeps_mono; [by apply Hroom|]. intros p2 Hp2. by eapply Hfull.
  - intros n Hc Hwo.
    assert ((pi_nread p =? pi_nwrite p) && negb (pi_writeopen p =? 0) = true) as E.
    { rewrite empty_iff by done. rewrite <- length_contents, Hc. simpl. by apply negb_true_iff, Z.eqb_neq. }
    destruct killed.
    + apply wp_bind, wp_pipe_lock; [done|]. apply wp_bind, wp_get_state. apply wp_bind. cbn [wait_data]. apply wp_bind, wp_get_state.
      cbn [pi_nread pi_nwrite pi_writeopen set_pi_lock]. rewrite E. apply wp_bind, wp_modify, wp_ret, wp_ret. done.
    + intros Hv. apply sleeps_bind, wp_pipe_lock; [done|]. apply sleeps_bind, wp_get_state. apply sleeps_bind_l. cbn [wait_data].
      apply sleeps_bind, wp_get_state. cbn [pi_nread pi_nwrite pi_writeopen set_pi_lock]. rewrite E. apply sleeps_bind, wp_modify.
      apply sleeps_bind_l, sleeps_bind, wp_get_state. cbn [pi_rlock set_pi_lock]. unfold Sem._wait_sem_enter.
      rewrite (proj2 (Z.leb_gt 0 _)) by lia. done.
Qed.

(** ** Concrete instances *)

(** Two bytes, across the wrap of the counters. *)
Definition example_pipe : Pipe :=
  mkPipe false (Sem.init_sem 0) (Sem.init_sem 0) (105 :: replicate 510 0 ++ [104]) (2 ^ 32 - 1) 1 1 1.

Lemma example_pipe_ok : pipe_ok example_pipe.
Proof. split; simpl; try done; try lia. vm_compute. lia. Qed.

Lemma pipe_queue_witness :
  wp (pipe_write false [33] 1) (fun r p' => r = 1 /\ pipe_ok p' /\ contents p' = contents example_pipe ++ [33] /\
    same_ends example_pipe p' /\ pi_lock p' = false) example_pipe /\ contents example_pipe = [104; 105].
Proof.
  split; [|vm_compute; reflexivity].
  apply (proj1 (pipe_queue false example_pipe example_pipe_ok eq_refl) [33]). vm_compute. lia.
Defined.

Lemma pipe_limits_witness :
  sleeps (pipe_write false (replicate 511 7) (Z.of_nat (length (replicate 511 7))))
    (fun p' => contents p' = take 512 (contents example_pipe ++ replicate 511 7) /\ pi_lock p' = false) example_pipe.
Proof.
  apply (proj1 (pipe_limits false example_pipe example_pipe_ok eq_refl) (replicate 511 7)); [vm_compute; lia|].
  vm_compute. discriminate.
Defined.
