(* ===== verification/File.v ===== *)
(** Open files (src/fs/file.c, src/fs/file.h) and the parts of pipe.c that
    work on them.

    The file layer calls the inode layer through the struct [inodes] of
    function pointers ([InodeTree], src/fs/inode.h). [struct file *] is the
    index in the table plus one, NULL is 0; [struct pipe *] is the address
    that [kalloc] returned. An [OpContext] on the stack is its address. *)
From Stdlib Require Import ZArith Lia.
From stdpp Require Import base numbers gmap list.
From S2P Require Import Prelude Bytes Sync FsDefs Console Mem Cache CacheLaws BlockCache Inode InodeLaws Directory Path Pipe.

(** ** The interface of the inode layer *)

Record InodeTree (T : Type) := mkInodeTree {
  it_root : T -> Z;
  it_alloc : Z -> Z -> M T Z;
  it_lock : Z -> M T unit;
  it_unlock : Z -> M T unit;
  it_sync : Z -> Z -> bool -> M T unit;
  it_get : Z -> M T Z;
  it_clear : Z -> Z -> M T unit;
  it_share : Z -> M T Z;
  it_put : Z -> Z -> M T unit;
  it_read : Z -> list Z -> Z -> Z -> M T (Z * list Z);
  it_write : Z -> Z -> list Z -> Z -> Z -> M T Z;
  it_lookup : Z -> list Z -> M T (Z * option Z);
  it_insert : Z -> Z -> list Z -> Z -> M T Z;
  it_remove : Z -> Z -> Z -> M T unit;
}.
Arguments it_root {T}.
Arguments it_alloc {T}.
Arguments it_lock {T}.
Arguments it_unlock {T}.
Arguments it_sync {T}.
Arguments it_get {T}.
Arguments it_clear {T}.
Arguments it_share {T}.
Arguments it_put {T}.
Arguments it_read {T}.
Arguments it_write {T}.
Arguments it_lookup {T}.
Arguments it_insert {T}.
Arguments it_remove {T}.

(** The global instance [inodes]; [stack] is what the local directory entries of
    inode.c hold before they are set. *)
Definition inodes {S} (sblock : SuperBlock) (cache : BlockCache S) (stack : list Z) : InodeTree (FsState S) :=
  mkInodeTree (FsState S) f_root (inode_alloc sblock cache) inode_lock inode_unlock (inode_sync sblock cache)
    (inode_get sblock cache) (inode_clear sblock cache) inode_share (inode_put sblock cache) (inode_read sblock cache)
    (inode_write sblock cache) (inode_lookup sblock cache stack) (inode_insert sblock cache stack)
    (inode_remove sblock cache stack).

(** ** State *)

Definition NFILE : Z := 65536.
Definition NOPENFILE : Z := 128.
Definition MAX_OP_WRITE_N : Z := (OP_MAX_NUM_BLOCKS - 1 - 1 - 2) / 2 * BLOCK_SIZE.

Inductive file_type := FD_NONE | FD_PIPE | FD_INODE.
#[export] Instance file_type_eq_dec : EqDecision file_type.
Proof. solve_decision. Defined.

Record File := mkFile {
  fi_type : file_type;
  fi_ref : Z;
  fi_readable : bool;
  fi_writable : bool;
  fi_obj : Z;            (* the union of pipe and ip *)
  fi_off : Z;
}.

(** A file of the zero-initialised table. *)
Definition zero_file : File := mkFile FD_NONE 0 false false 0 0.

Definition set_fref (v : Z) (f : File) : File :=
  mkFile (fi_type f) v (fi_readable f) (fi_writable f) (fi_obj f) (fi_off f).
Definition set_ftype (v : file_type) (f : File) : File :=
  mkFile v (fi_ref f) (fi_readable f) (fi_writable f) (fi_obj f) (fi_off f).
Definition set_off (v : Z) (f : File) : File :=
  mkFile (fi_type f) (fi_ref f) (fi_readable f) (fi_writable f) (fi_obj f) v.

(** [struct oftable]: the open files of a process. *)
Record oftable := mkOftable { openfilelist : list Z; of_num : Z }.

Definition init_oftable : oftable := mkOftable (replicate (Z.to_nat NOPENFILE) 0) 0.

Record FileState (T : Type) := mkFileState {
  fl_fs : T;
  fl_lock : bool;
  fl_files : gmap Z File;       (* the entries that differ from [zero_file] *)
  fl_pipes : gmap Z Pipe;
  fl_mem : Mem;
  fl_killed : bool;             (* thisproc()->killed *)
}.
Arguments mkFileState {T}.
Arguments fl_fs {T}.
Arguments fl_lock {T}.
Arguments fl_files {T}.
Arguments fl_pipes {T}.
Arguments fl_mem {T}.
Arguments fl_killed {T}.

Section file.
Context {T : Type} (tree : InodeTree T) (begin_op end_op : Z -> M T unit) (stat_of : Z -> M T stat).
Abbreviation K := (M (FileState T)).

Definition set_fs (v : T) (s : FileState T) : FileState T :=
  mkFileState v (fl_lock s) (fl_files s) (fl_pipes s) (fl_mem s) (fl_killed s).
Definition set_ftable_lock (v : bool) (s : FileState T) : FileState T :=
  mkFileState (fl_fs s) v (fl_files s) (fl_pipes s) (fl_mem s) (fl_killed s).
Definition set_files (v : gmap Z File) (s : FileState T) : FileState T :=
  mkFileState (fl_fs s) (fl_lock s) v (fl_pipes s) (fl_mem s) (fl_killed s).
Definition set_pipes (v : gmap Z Pipe) (s : FileState T) : FileState T :=
  mkFileState (fl_fs s) (fl_lock s) (fl_files s) v (fl_mem s) (fl_killed s).
Definition set_kmem (v : Mem) (s : FileState T) : FileState T :=
  mkFileState (fl_fs s) (fl_lock s) (fl_files s) (fl_pipes s) v (fl_killed s).

(** Calls into a part of the state. *)
Definition on_fs {A} (c : M T A) : K A := fun s =>
  match c (fl_fs s) with
  | Done a x => Done a (set_fs x s)
  | Panicked x => Panicked (set_fs x s)
  | Blocked x => Blocked (set_fs x s)
  | Undefined => Undefined
  end.
Definition on_kmem {A} (c : M Mem A) : K A := fun s =>
  match c (fl_mem s) with
  | Done a x => Done a (set_kmem x s)
  | Panicked x => Panicked (set_kmem x s)
  | Blocked x => Blocked (set_kmem x s)
  | Undefined => Undefined
  end.
Definition on_pipe {A} (pi : Z) (c : M Pipe A) : K A := fun s =>
  match fl_pipes s !! pi with
  | None => Undefined
  | Some p =>
      match c p with
      | Done a x => Done a (set_pipes (<[pi := x]> (fl_pipes s)) s)
      | Panicked x => Panicked (set_pipes (<[pi := x]> (fl_pipes s)) s)
      | Blocked x => Blocked (set_pipes (<[pi := x]> (fl_pipes s)) s)
      | Undefined => Undefined
      end
  end.

Definition ftable_acquire : K unit := fun s => if fl_lock s then Blocked s else Done tt (set_ftable_lock true s).
Definition ftable_release : K unit := modify (set_ftable_lock false).

(** [f->...] *)
Definition file_in (s : FileState T) (f : Z) : option File :=
  if (1 <=? f) && (f <=? NFILE) then Some (default zero_file (fl_files s !! f)) else None.
Definition file_at (f : Z) : K File := s ← get_state; deref (file_in s f).
Definition store_file (f : Z) (x : File) : K unit := modify (fun s => set_files (<[f := x]> (fl_files s)) s).

Definition init_ftable : K unit := ftable_release.

(** ** Operations *)

Definition file_alloc : K Z :=
  ftable_acquire ;;
  r ← for_loop (Z.to_nat NFILE) 0 (fun i =>
        x ← file_at (i + 1);
        if fi_ref x =? 0 then store_file (i + 1) (set_fref 1 x) ;; ftable_release ;; mret (Some (i + 1))
        else mret None);
  match r with
  | Some f => mret f
  | None => ftable_release ;; mret 0
  end.

Definition file_dup (f : Z) : K Z :=
  ftable_acquire ;; x ← file_at f; store_file f (set_fref (fi_ref x + 1) x) ;; ftable_release ;; mret f.

Definition pipe_close (pi : Z) (writable : bool) : K unit :=
  both ← on_pipe pi (pipe_shut writable);
  if (both : bool) then on_kmem (kfree pi) ;; modify (fun s => set_pipes (delete pi (fl_pipes s)) s) else mret tt.

(** [ctx] is the local [OpContext]. *)
Definition file_close (ctx f : Z) : K unit :=
  x ← file_at f;
  if decide (fi_type x = FD_NONE) then mret tt
  else
    ftable_acquire ;;
    let x := set_fref (fi_ref x - 1) x in
    store_file f x ;;
    if 0 <? fi_ref x then ftable_release
    else
      let now := x in
      store_file f (set_ftype FD_NONE (set_fref 0 x)) ;;
      ftable_release ;;
      match fi_type now with
      | FD_PIPE => pipe_close (fi_obj now) (fi_writable now)
      | FD_INODE => on_fs (begin_op ctx) ;; on_fs (it_put tree ctx (fi_obj now)) ;; on_fs (end_op ctx)
      | FD_NONE => mret tt
      end.

(** 0 and the metadata, or -1. *)
Definition file_stat (f : Z) : K (Z * option stat) :=
  x ← file_at f;
  if decide (fi_type x = FD_INODE) then
    on_fs (it_lock tree (fi_obj x)) ;;
    st ← on_fs (stat_of (fi_obj x));
    on_fs (it_unlock tree (fi_obj x)) ;;
    mret (0, Some st)
  else mret (-1, None).

(** The value returned and the buffer [addr] afterwards. *)
Definition file_read (f : Z) (addr : list Z) (n : Z) : K (Z * list Z) :=
  x ← file_at f;
  if negb (fi_readable x) then mret (-1, addr)
  else
    match fi_type x with
    | FD_PIPE =>
        s ← get_state;
        r ← on_pipe (fi_obj x) (pipe_read (fl_killed s) (int_of n));
        mret (r.1, splice addr 0 r.2)
    | FD_INODE =>
        on_fs (it_lock tree (fi_obj x)) ;;
        r ← on_fs (it_read tree (fi_obj x) addr (fi_off x) (u64 n));
        y ← file_at f;
        store_file f (set_off (u64 (fi_off y + r.1)) y) ;;
        on_fs (it_unlock tree (fi_obj x)) ;;
        mret r
    | FD_NONE => PANIC
    end.

(** The loop of [file_write]: one operation for each piece of at most
    [MAX_OP_WRITE_N] bytes. *)
Fixpoint write_pieces (fuel : nat) (ctx f ip : Z) (addr : list Z) (n nwrite : Z) : K Z :=
  if nwrite <? n then
    match fuel with
    | O => undefined
    | Datatypes.S fuel' =>
        let op_n := Z.min (n - nwrite) MAX_OP_WRITE_N in
        on_fs (begin_op ctx) ;;
        on_fs (it_lock tree ip) ;;
        x ← file_at f;
        w ← on_fs (it_write tree ctx ip (take (Z.to_nat op_n) (drop (Z.to_nat nwrite) addr)) (fi_off x) op_n);
        store_file f (set_off (u64 (fi_off x + w)) x) ;;
        on_fs (it_unlock tree ip) ;;
        on_fs (end_op ctx) ;;
        write_pieces fuel' ctx f ip addr n (nwrite + w)
    end
  else mret nwrite.

Definition file_write (ctx f : Z) (addr : list Z) (n : Z) : K Z :=
  x ← file_at f;
  if negb (fi_writable x) then mret (-1)
  else
    match fi_type x with
    | FD_PIPE => s ← get_state; on_pipe (fi_obj x) (pipe_write (fl_killed s) addr (int_of n))
    | FD_INODE =>
        let max_valid_write_n := u64 (INODE_MAX_BYTES - fi_off x) in
        let n := Z.min (u64 n) max_valid_write_n in
        write_pieces (Z.to_nat n) ctx f (fi_obj x) addr n 0
    | FD_NONE => PANIC
    end.

(** ** The files of a pipe *)

Definition init_read_pipe (readp pi : Z) : K unit :=
  x ← file_at readp; store_file readp (mkFile FD_PIPE (fi_ref x) true false pi (fi_off x)).
Definition init_write_pipe (writep pi : Z) : K unit :=
  x ← file_at writep; store_file writep (mkFile FD_PIPE (fi_ref x) false true pi (fi_off x)).

(** [sizeof(Pipe)] *)
Definition sizeof_Pipe : Z := 584.

(** The result, [*f0] and [*f1]; [junk] is what the memory of the pipe holds. *)
Definition pipe_alloc (ctx : Z) (junk : Pipe) : K (Z * Z * Z) :=
  f0 ← file_alloc;
  f1 ← (if f0 =? 0 then mret 0 else file_alloc);
  p ← (if (f0 =? 0) || (f1 =? 0) then mret 0 else on_kmem (kalloc sizeof_Pipe));
  if p =? 0 then
    (if f0 =? 0 then mret tt else file_close ctx f0) ;;
    (if f1 =? 0 then mret tt else file_close ctx f1) ;;
    mret (-1, f0, f1)
  else
    modify (fun s => set_pipes (<[p := init_pipe junk]> (fl_pipes s)) s) ;;
    init_read_pipe f0 p ;;
    init_write_pipe f1 p ;;
    mret (0, f0, f1).
End file.

(** ** The file table *)

Section table.
Context {T : Type} (tree : InodeTree T) (begin_op end_op : Z -> M T unit).

Lemma wp_on_fs {A} (c : M T A) (Q : A -> FileState T -> Prop) s :
  wp c (fun a x => Q a (set_fs x s)) (fl_fs s) -> wp (on_fs c) Q s.
Proof. unfold wp, on_fs. by destruct (c (fl_fs s)). Qed.

Lemma wp_on_pipe {A} pi p (c : M Pipe A) (Q : A -> FileState T -> Prop) s :
  fl_pipes s !! pi = Some p -> wp c (fun a x => Q a (set_pipes (<[pi := x]> (fl_pipes s)) s)) p -> wp (on_pipe pi c) Q s.
Proof. intros E. unfold wp, on_pipe. rewrite E. by destruct (c p). Qed.

Lemma wp_on_kmem {A} (c : M Mem A) (Q : A -> FileState T -> Prop) s :
  wp c (fun a x => Q a (set_kmem x s)) (fl_mem s) -> wp (on_kmem c) Q s.
Proof. unfold wp, on_kmem. by destruct (c (fl_mem s)). Qed.

Lemma wp_file_at f x (Q : File -> FileState T -> Prop) (s : FileState T) : file_in s f = Some x -> Q x s -> wp (file_at f) Q s.
Proof. intros E HQ. apply wp_bind, wp_get_state. by eapply wp_deref. Qed.

Lemma wp_ftable_acquire (Q : unit -> FileState T -> Prop) s :
  fl_lock s = false -> Q tt (set_ftable_lock true s) -> wp ftable_acquire Q s.
Proof. intros E HQ. unfold wp, ftable_acquire. by rewrite E. Qed.

Lemma file_in_store (s : FileState T) f x g :
  1 <= f <= NFILE -> file_in (set_files (<[f := x]> (fl_files s)) s) g = if decide (g = f) then Some x else file_in s g.
Proof.
  intros Hf. unfold file_in. simpl. destruct (decide (g = f)) as [->|Hne].
  - rewrite lookup_insert_eq. by rewrite (proj2 (Z.leb_le 1 f)), (proj2 (Z.leb_le f NFILE)) by lia.
  - by rewrite lookup_insert_ne.
Qed.

Lemma file_in_range (s : FileState T) f : 1 <= f <= NFILE -> file_in s f = Some (default zero_file (fl_files s !! f)).
Proof. intros Hf. unfold file_in. by rewrite (proj2 (Z.leb_le 1 f)), (proj2 (Z.leb_le f NFILE)) by lia. Qed.

(** An entry of the table that is in use. *)
Definition used (s : FileState T) (f : Z) : Prop := exists x, file_in s f = Some x /\ fi_ref x <> 0.

(** [file_alloc] hands out the first unused entry of the file table with a
    reference count of one and leaves the rest of the state alone; when all
    65536 entries are in use it returns NULL. Either way the table's lock is
    free again. *)
Theorem file_alloc_first (s : FileState T) :
  fl_lock s = false ->
  wp file_alloc (fun r s' =>
    (exists x, 1 <= r <= NFILE /\ file_in s r = Some x /\ fi_ref x = 0 /\ (forall f, 1 <= f < r -> used s f) /\
       s' = set_ftable_lock false (set_files (<[r := set_fref 1 x]> (fl_files s)) s)) \/
    (r = 0 /\ (forall f, 1 <= f <= NFILE -> used s f) /\ s' = s)) s.
Proof.
  intros Hl. apply wp_bind, wp_ftable_acquire; [done|]. apply wp_bind.
  assert (set_ftable_lock false (set_ftable_lock true s) = s) as Es by (destruct s; simpl in *; by subst).
  apply (wp_for_loop (fun i s' => s' = set_ftable_lock true s /\ forall f, 1 <= f <= i -> used s f)).
  - split; [done|]. intros f Hf. lia.
  - intros i s1 Hi [-> Hu]. assert (Z.of_nat (Z.to_nat NFILE) = NFILE) as En by (vm_compute; reflexivity).
    rewrite En in Hi. apply wp_bind. eapply wp_file_at; [apply file_in_range; lia|]. cbn [fl_files set_ftable_lock].
    destruct (Z.eqb_spec (fi_ref (default zero_file (fl_files s !! (i + 1)))) 0) as [E|E].
    + apply wp_bind, wp_modify. apply wp_bind, wp_modify. do 2 apply wp_ret. left. eexists. split; [lia|].
      split; [apply file_in_range; lia|]. split; [exact E|]. split; [intros f Hf; apply Hu; lia|]. by destruct s.
    + apply wp_ret. split; [done|]. intros f Hf. destruct (decide (f = i + 1)) as [->|]; [|apply Hu; lia].
      eexists. split; [apply file_in_range; lia|done].
  - intros s1 [-> Hu]. apply wp_bind, wp_modify, wp_ret. right. rewrite Es. split; [done|]. split; [|done].
    intros f Hf. apply Hu. rewrite Z2Nat.id by (unfold NFILE; lia). lia.
Qed.
End table.

(** ** Reading through an open file *)

Section reading.
Context {S : Type} (sblock : SuperBlock) (cache : BlockCache S) (stack : list Z) `{!BlockCacheSpec sblock cache}.
Abbreviation vol := (InodeLaws.vol sblock cache).

Lemma wp_locked (s : FsState S) p i (Q : unit -> FsState S -> Prop) :
  f_heap s !! p = Some i -> 0 < i_rc i -> i_lock i = Sem.mkSem 1 [] ->
  Q tt (set_heap (<[p := set_ilock (Sem.mkSem 0 []) i]> (f_heap s)) s) -> wp (inode_lock p) Q s.
Proof.
  intros Ei Hrc Hl HQ. eapply wp_mono; [apply (wp_inode_lock s p i (Sem.mkSem 0 [])); [done|done|by rewrite Hl]|].
  by intros [] s' ->.
Qed.

Lemma wp_unlocked (s : FsState S) p i (Q : unit -> FsState S -> Prop) :
  f_heap s !! p = Some i -> 0 < i_rc i -> i_lock i = Sem.mkSem 0 [] ->
  Q tt (set_heap (<[p := set_ilock (Sem.mkSem 1 []) i]> (f_heap s)) s) -> wp (inode_unlock p) Q s.
Proof.
  intros Ei Hrc Hl HQ. eapply wp_mono; [apply (wp_inode_unlock s p i None (Sem.mkSem 1 [])); [done|done|by rewrite Hl]|].
  by intros [] s' ->.
Qed.

(** C33: [file_read] through a readable open file on a regular file or directory
    copies the bytes at the file's offset, clipped at the end of the file,
    into the buffer, leaves the rest of the buffer alone and moves the offset
    past them; the inode is unlocked again and neither the volume nor any
    other open file changes. *)
Theorem file_read_advances (s : FileState (FsState S)) f x i addr n :
  let p := fi_obj x in
  file_in s f = Some x -> fi_type x = FD_INODE -> fi_readable x = true ->
  bc_ok (f_cache (fl_fs s)) -> f_heap (fl_fs s) !! p = Some i -> 0 < i_rc i -> i_lock i = Sem.mkSem 1 [] ->
  mapped sblock cache (vol (fl_fs s)) (i_entry i) -> ie_type (i_entry i) <> INODE_DEVICE ->
  0 <= fi_off x <= ie_num_bytes (i_entry i) -> 0 <= n < 2 ^ 63 -> (Z.to_nat n <= length addr)%nat ->
  wp (file_read (inodes sblock cache stack) f addr n) (fun r s' =>
    let m := clipped (i_entry i) (fi_off x) n in
    r = (m, splice addr 0 (file_bytes (vol (fl_fs s)) (i_entry i) (fi_off x) (Z.to_nat m))) /\
    fl_files s' = <[f := set_off (fi_off x + m) x]> (fl_files s) /\ fl_lock s' = fl_lock s /\
    f_heap (fl_fs s') = f_heap (fl_fs s) /\ bc_ok (f_cache (fl_fs s')) /\ v_same (vol (fl_fs s)) (vol (fl_fs s'))) s.
Proof.
  intros p Ef Hty Hrd Hok Ei Hrc Hl Hm Hnd Ho Hn Ha.
  unfold file_read. apply wp_bind. eapply wp_file_at; [exact Ef|]. rewrite Hrd, Hty. cbn [negb].
  apply wp_bind, wp_on_fs. cbn [it_lock inodes]. eapply (wp_locked _ p i); [done|done|done|].
  set (i1 := set_ilock (Sem.mkSem 0 []) i). set (t1 := set_heap (<[p := i1]> (f_heap (fl_fs s))) (fl_fs s)).
  apply wp_bind, wp_on_fs. cbn [it_read inodes fl_fs set_fs]. assert (u64 n = n) as -> by (unfold u64; apply wrap_small; lia).
  eapply wp_mono; [apply (wp_inode_read sblock cache t1 p i1 addr (fi_off x) n); try done|].
  2: { unfold clipped. lia. }
  { unfold t1. cbn [f_heap set_heap]. apply lookup_insert_eq. }
  intros r t2 (-> & (c & -> & Hc) & Hv). change (i_entry i1) with (i_entry i).
  change (vol t1) with (vol (fl_fs s)) in Hv |- *. set (m := clipped _ _ _) in *.
  assert (0 <= m <= n /\ fi_off x + m <= ie_num_bytes (i_entry i)) as Hmr by (unfold m, clipped; lia).
  assert (ie_num_bytes (i_entry i) < 2 ^ 32) as Hsz by apply (mp_wf _ _ _ _ Hm).
  apply wp_bind. eapply wp_file_at; [exact Ef|]. apply wp_bind, wp_modify. cbn [fst].
  assert (u64 (fi_off x + m) = fi_off x + m) as -> by (unfold u64; apply wrap_small; lia).
  apply wp_bind, wp_on_fs. cbn [it_unlock inodes]. eapply (wp_unlocked _ p i1); [unfold t1; simpl; by rewrite lookup_insert_eq|done|done|].
  apply wp_ret. cbn. split_and!; try done.
  rewrite insert_insert_eq. apply insert_id. rewrite Ei. f_equal. unfold i1. destruct i. simpl in *. by rewrite Hl.
Qed.
End reading.

(** ** Bytes through the two files of a pipe *)

Lemma int_of_small n : 0 <= n < 2 ^ 31 -> int_of n = n.
Proof. intros Hn. unfold int_of. rewrite wrap_small by lia. lia. Qed.

Section through_pipe.
Context {T : Type} (tree : InodeTree T) (begin_op end_op : Z -> M T unit).

(** [f] is an open file on the pipe [pi]. *)
Definition pipe_file (s : FileState T) (f pi : Z) (readable : bool) : Prop :=
  exists x, file_in s f = Some x /\ fi_type x = FD_PIPE /\ fi_readable x = readable /\ fi_writable x = negb readable /\ fi_obj x = pi.

(** What one process writes to the write end of a pipe another reads from
    its read end: with room for the bytes, [file_write] returns their number,
    and a following [file_read] returns the bytes of the pipe in order, the
    old ones first and then the new ones; the file of the wrong direction
    gives -1 for either call and changes nothing. *)
Theorem file_pipe_roundtrip (s : FileState T) ctx rf wf pi p bs addr n :
  pipe_file s rf pi true -> pipe_file s wf pi false -> fl_pipes s !! pi = Some p -> pipe_ok p -> pi_lock p = false ->
  (length (contents p) + length bs <= 512)%nat -> contents p ++ bs <> [] -> 0 <= n < 2 ^ 31 -> (Z.to_nat n <= length addr)%nat ->
  wp (w ← file_write tree begin_op end_op ctx wf bs (Z.of_nat (length bs)); r ← file_read tree rf addr n; mret (w, r))
    (fun '(w, (k, addr')) s' =>
       w = Z.of_nat (length bs) /\ addr' = splice addr 0 (take (Z.to_nat n) (contents p ++ bs)) /\
       k = Z.of_nat (length (take (Z.to_nat n) (contents p ++ bs))) /\
       exists p', s' = set_pipes (<[pi := p']> (fl_pipes s)) s /\ pipe_ok p' /\
         contents p' = drop (Z.to_nat n) (contents p ++ bs)) s /\
  file_write tree begin_op end_op ctx rf bs n s = Done (-1) s /\ file_read tree wf addr n s = Done (-1, addr) s.
Proof.
  intros (xr & Er & Tr & Rr & Wr & Or) (xw & Ew & Tw & Rw & Ww & Ow) Ep Hok Hl Hroom Hne Hn Ha.
  assert (forall f x q, file_in s f = Some x -> file_in (set_pipes q s) f = Some x) as Hpipes by done.
  split.
  - apply wp_bind. unfold file_write. apply wp_bind. eapply wp_file_at; [exact Ew|]. rewrite Ww, Tw. cbn [negb].
    apply wp_bind, wp_get_state. rewrite Ow. eapply wp_on_pipe; [exact Ep|].
    pose proof (length_contents p) as Hlc. pose proof (po_fill p Hok). rewrite int_of_small by lia.
    eapply wp_mono; [by apply wp_pipe_write_fits|]. intros w p1 (-> & Hok1 & Hc1 & _ & Hl1). cbn beta.
    apply wp_bind. unfold file_read. apply wp_bind. eapply wp_file_at; [apply Hpipes; exact Er|]. rewrite Rr, Tr. cbn [negb].
    apply wp_bind, wp_get_state. rewrite Or. apply wp_bind. eapply wp_on_pipe; [cbn; apply lookup_insert_eq|].
    rewrite int_of_small by done. eapply wp_mono; [apply wp_pipe_read_ready; [done|done|by left; rewrite Hc1]|].
    intros [k r] p2 (Hr & Hk & Hok2 & Hc2 & _). cbn in Hr, Hk. subst r k. apply wp_ret, wp_ret. rewrite Hc1. split_and!; try done.
    exists p2. cbn. rewrite insert_insert_eq. split_and!; try done. by rewrite Hc2, Hc1.
  - unfold file_write, file_read, file_at. split; unfold mbind, M_bind, get_state, deref; [rewrite Er, Wr|rewrite Ew, Rw]; done.
Qed.
End through_pipe.

(** ** Concrete instances *)

Definition example_files : gmap Z File :=
  {[1 := mkFile FD_INODE 1 true false 1 0; 2 := mkFile FD_PIPE 1 true false 4096 0; 3 := mkFile FD_PIPE 1 false true 4096 0]}.
Definition example_file_state : FileState (FsState CacheState) :=
  mkFileState example_used_fs false example_files {[4096 := example_pipe]} example_mem false.
Definition example_tree : InodeTree (FsState CacheState) := inodes Crash.example_sb (bcache Crash.example_sb) example_stack.

Lemma file_alloc_first_witness :
  wp file_alloc (fun r s' =>
    (exists x, 1 <= r <= NFILE /\ file_in example_file_state r = Some x /\ fi_ref x = 0 /\
       (forall f, 1 <= f < r -> used example_file_state f) /\
       s' = set_ftable_lock false (set_files (<[r := set_fref 1 x]> (fl_files example_file_state)) example_file_state)) \/
    (r = 0 /\ (forall f, 1 <= f <= NFILE -> used example_file_state f) /\ s' = example_file_state)) example_file_state.
Proof. apply (file_alloc_first example_file_state). reflexivity. Defined.

Definition example_open : File := mkFile FD_INODE 1 true false 1 0.

Lemma file_read_advances_witness :
  wp (file_read (inodes Crash.example_sb (bcache Crash.example_sb) example_stack) 1 (replicate 32 0) 32) (fun r s' =>
    let m := clipped (i_entry example_used_inode) (fi_off example_open) 32 in
    r = (m, splice (replicate 32 0) 0 (file_bytes (InodeLaws.vol Crash.example_sb (bcache Crash.example_sb) (fl_fs example_file_state))
              (i_entry example_used_inode) (fi_off example_open) (Z.to_nat m))) /\
    fl_files s' = <[1 := set_off (fi_off example_open + m) example_open]> (fl_files example_file_state) /\
    fl_lock s' = fl_lock example_file_state /\
    f_heap (fl_fs s') = f_heap (fl_fs example_file_state) /\
    bc_ok (sblock := Crash.example_sb) (C := bcache Crash.example_sb) (f_cache (fl_fs s')) /\
    v_same (InodeLaws.vol Crash.example_sb (bcache Crash.example_sb) (fl_fs example_file_state))
      (InodeLaws.vol Crash.example_sb (bcache Crash.example_sb) (fl_fs s'))) example_file_state.
Proof.
  apply (file_read_advances Crash.example_sb (bcache Crash.example_sb) example_stack example_file_state 1
    example_open example_used_inode (replicate 32 0) 32).
  - reflexivity.
  - reflexivity.
  - reflexivity.
  - exact example_used_cache_ok.
  - reflexivity.
  - simpl. lia.
  - reflexivity.
  - exact (do_mapped _ _ _ _ example_used_ok).
  - discriminate.
  - simpl. lia.
  - lia.
  - rewrite length_replicate. lia.
Defined.

Lemma file_pipe_roundtrip_witness :
  wp (w ← file_write example_tree
      (fun c => on_cache (bc_begin_op (bcache Crash.example_sb) c)) (fun c => on_cache (bc_end_op (bcache Crash.example_sb) c)) 7 3 [33] 1; r ← file_read example_tree 2 (replicate 8 0) 8; mret (w, r))
    (fun '(w, (k, addr')) s' =>
       w = 1 /\ addr' = splice (replicate 8 0) 0 (take 8 (contents example_pipe ++ [33])) /\
       k = Z.of_nat (length (take 8 (contents example_pipe ++ [33]))) /\
       exists p', s' = set_pipes (<[4096 := p']> (fl_pipes example_file_state)) example_file_state /\ pipe_ok p' /\
         contents p' = drop 8 (contents example_pipe ++ [33])) example_file_state.
Proof.
  apply (file_pipe_roundtrip example_tree (fun c => on_cache (bc_begin_op (bcache Crash.example_sb) c)) (fun c => on_cache (bc_end_op (bcache Crash.example_sb) c)) example_file_state 7 2 3 4096 example_pipe [33] (replicate 8 0) 8).
  - eexists. split; [reflexivity|]. by split_and!.
  - eexists. split; [reflexivity|]. by split_and!.
  - reflexivity.
  - exact example_pipe_ok.
  - reflexivity.
  - vm_compute. lia.
  - vm_compute. discriminate.
  - lia.
  - rewrite length_replicate. lia.
Defined.
