(* ===== verification/SysFd.v ===== *)
(** System calls on file descriptors (src/kernel/sysfile.c: [fd2file],
    [fdalloc], ioctl, dup, read, write, writev, close, fstat, pipe2).

    The state of the calling process is its open-file table, its sections and
    the bytes of memory it sees; the rest is the file layer of File.v. Faults
    on the way to the bytes are handled by Paging.v and leave the bytes seen
    as they are. A result is the u64 that the handler returns. *)
From Stdlib Require Import ZArith Lia.
From stdpp Require Import base numbers gmap list.
From S2P Require Import Prelude Bytes Sync FsDefs Console Mem Cache CacheLaws BlockCache Inode InodeLaws Directory Path Pipe UserMem File.

Record Sys (T : Type) := mkSys {
  sy_fl : FileState T;
  sy_oft : oftable;              (* thisproc()->oftable *)
  sy_secs : list section;        (* thisproc()->pgdir.section_head *)
  sy_mem : Z -> Z;
}.
Arguments mkSys {T}.
Arguments sy_fl {T}.
Arguments sy_oft {T}.
Arguments sy_secs {T}.
Arguments sy_mem {T}.

Definition set_fl {T} (v : FileState T) (s : Sys T) : Sys T := mkSys v (sy_oft s) (sy_secs s) (sy_mem s).
Definition set_oft {T} (v : oftable) (s : Sys T) : Sys T := mkSys (sy_fl s) v (sy_secs s) (sy_mem s).
Definition set_umem {T} (v : Z -> Z) (s : Sys T) : Sys T := mkSys (sy_fl s) (sy_oft s) (sy_secs s) v.

(** The bytes at [a], and storing bytes there. *)
Definition load (mem : Z -> Z) (a : Z) (n : nat) : list Z := (fun k => mem (u64 (a + Z.of_nat k))) <$> seq 0 n.
Definition store (mem : Z -> Z) (a : Z) (bs : list Z) : Z -> Z := fun x => default (mem x) (bs !! Z.to_nat (u64 (x - a))).

(** A u64 as an isize. *)
Definition isize_of (v : Z) : Z := wrap 64 (v + 2 ^ 63) - 2 ^ 63.

(** -1 as the u64 that a handler returns. *)
Definition FAILED : Z := u64 (-1).

Section fds.
Context {T : Type} (tree : InodeTree T) (begin_op end_op : Z -> M T unit) (stat_of : Z -> M T stat).
(** [struct stat] of the C library: its size, and its bytes with the fields of
    [stati] set over what was there. *)
Context (sizeof_stat : Z) (stat_bytes : stat -> list Z -> list Z).
Abbreviation K := (M (Sys T)).

Definition on_fl {A} (c : M (FileState T) A) : K A := zoom sy_fl set_fl c.
Definition readable (start size : Z) : K bool := s ← get_state; mret (user_readable (sy_secs s) start size).
Definition writeable (start size : Z) : K bool := s ← get_state; mret (user_writeable (sy_secs s) start size).
Definition bytes_at (a : Z) (n : nat) : K (list Z) := s ← get_state; mret (load (sy_mem s) a n).
(** A store must lie in a section of the process: through an address of the
    kernel, which [user_writeable] accepts, it may change any state of the kernel,
    and at any other address the fault is never resolved. *)
Definition in_section (secs : list section) (a n : Z) : bool :=
  (a + n <=? KSPACE_MASK) && existsb (fun st => (se_begin st <=? a) && (a + n <=? se_end st)) secs.
Definition put_bytes (a : Z) (bs : list Z) : K unit :=
  s ← get_state;
  if in_section (sy_secs s) a (Z.of_nat (length bs)) then modify (fun s => set_umem (store (sy_mem s) a bs) s) else undefined.

(** [openfilelist[fd]] *)
Definition slot (fd : Z) : K Z := s ← get_state; deref (openfilelist (sy_oft s) !! Z.to_nat fd).
Definition set_slot (fd f : Z) : K unit :=
  modify (fun s => set_oft (mkOftable (<[Z.to_nat fd := f]> (openfilelist (sy_oft s))) (of_num (sy_oft s))) s).

Definition fd2file (fd : Z) : K Z :=
  if (fd <? 0) || (NOPENFILE <=? fd) then mret 0 else slot fd.

Definition fdalloc (f : Z) : K Z :=
  r ← for_loop (Z.to_nat NOPENFILE) 0 (fun i =>
        x ← slot i;
        if x =? 0 then set_slot i f ;; mret (Some i) else mret None);
  match r with Some i => mret i | None => mret (-1) end.

Definition sys_ioctl (fd request : Z) : K Z := ASSERT (request =? 0x5413) ;; mret 0.

Definition sys_dup (fd : Z) : K Z :=
  f ← fd2file fd;
  if f =? 0 then mret FAILED
  else
    new_fd ← fdalloc f;
    if new_fd <? 0 then mret FAILED else on_fl (file_dup f) ;; mret (u64 new_fd).

Definition sys_read (fd buffer size : Z) : K Z :=
  f ← fd2file fd;
  if f =? 0 then mret FAILED
  else if size <=? 0 then mret FAILED
  else
    ok ← writeable buffer size;
    if negb ok then mret FAILED
    else
      addr ← bytes_at buffer (Z.to_nat size);
      r ← on_fl (file_read tree f addr size);
      put_bytes buffer r.2 ;;
      mret (u64 (int_of r.1)).

(** [ctx] is the local [OpContext] of [file_write] and [file_close]. *)
Definition sys_write (ctx fd buffer size : Z) : K Z :=
  f ← fd2file fd;
  if (f =? 0) || (size <=? 0) then mret FAILED
  else
    ok ← readable buffer size;
    if negb ok then mret FAILED
    else
      addr ← bytes_at buffer (Z.to_nat size);
      r ← on_fl (file_write tree begin_op end_op ctx f addr size);
      mret (u64 r).

(** [struct iovec] *)
Definition sizeof_iovec : Z := 16.
Definition iovec_at (p : Z) : K (Z * Z) :=
  base ← bytes_at p 8; len ← bytes_at (u64 (p + 8)) 8; mret (le_val base, le_val len).

(** [for (p = iov; p < iov + iovcnt; p++)]; [p->iov_len] is an isize for
    [file_write]. *)
Fixpoint writev_loop (fuel : nat) (ctx f p end_ tot : Z) : K Z :=
  match fuel with
  | O => mret tot
  | Datatypes.S fuel' =>
      if p <? end_ then
        '(base, len) ← iovec_at p;
        ok ← readable base len;
        if negb ok then mret FAILED
        else
          addr ← bytes_at base (Z.to_nat len);
          r ← on_fl (file_write tree begin_op end_op ctx f addr (isize_of len));
          writev_loop fuel' ctx f (u64 (p + sizeof_iovec)) end_ (u64 (tot + r))
      else mret tot
  end.

Definition sys_writev (ctx fd iov iovcnt : Z) : K Z :=
  f ← fd2file fd;
  if f =? 0 then mret FAILED
  else if iovcnt <=? 0 then mret FAILED
  else
    ok ← readable iov (u64 (sizeof_iovec * iovcnt));
    if negb ok then mret FAILED
    else writev_loop (Z.to_nat iovcnt) ctx f iov (u64 (iov + sizeof_iovec * iovcnt)) 0.

Definition sys_close (ctx fd : Z) : K Z :=
  if (fd <? 0) || (NOPENFILE <=? fd) then mret FAILED
  else
    f ← slot fd;
    set_slot fd 0 ;;
    on_fl (file_close tree begin_op end_op ctx f) ;;
    mret 0.

Definition sys_fstat (fd st : Z) : K Z :=
  f ← fd2file fd;
  if f =? 0 then mret FAILED
  else
    ok ← writeable st sizeof_stat;
    if negb ok then mret FAILED
    else
      r ← on_fl (file_stat tree stat_of f);
      match r.2 with
      | Some x => old ← bytes_at st (Z.to_nat sizeof_stat); put_bytes st (stat_bytes x old)
      | None => mret tt
      end ;;
      mret (u64 r.1).

(** [junk] is what the memory of the pipe holds. *)
Definition sys_pipe2 (ctx : Z) (junk : Pipe) (pipefd flags : Z) : K Z :=
  '(r, f0, f1) ← on_fl (pipe_alloc tree begin_op end_op ctx junk);
  if r =? -1 then mret FAILED
  else
    fd0 ← fdalloc f0;
    fd1 ← fdalloc f1;
    if (fd0 =? -1) || (fd1 =? -1) then
      (if negb (fd0 =? -1) then sys_close ctx fd0 ;; mret tt else mret tt) ;;
      (if negb (fd1 =? -1) then sys_close ctx fd1 ;; mret tt else mret tt) ;;
      mret FAILED
    else
      put_bytes pipefd (le_bytes 4 (u32 fd0)) ;;
      put_bytes (u64 (pipefd + 4)) (le_bytes 4 (u32 fd1)) ;;
      mret (u64 (Z.land flags 0)).
End fds.

(** ** What holds if a computation returns *)

Definition wlp {S A} (c : M S A) (Q : A -> S -> Prop) (s : S) : Prop :=
  match c s with Done a s' => Q a s' | _ => True end.

Lemma wlp_ret {S A} (a : A) (Q : A -> S -> Prop) s : Q a s -> wlp (mret a) Q s.
Proof. done. Qed.
Lemma wlp_bind {S A B} (c : M S A) (k : A -> M S B) Q s : wlp c (fun a s' => wlp (k a) Q s') s -> wlp (a ← c; k a) Q s.
Proof. unfold wlp, mbind, M_bind. by destruct (c s). Qed.
Lemma wlp_mono {S A} (c : M S A) (Q Q' : A -> S -> Prop) s : wlp c Q s -> (forall a s', Q a s' -> Q' a s') -> wlp c Q' s.
Proof. unfold wlp. destruct (c s); auto. Qed.
Lemma wlp_get_state {S} (Q : S -> S -> Prop) s : Q s s -> wlp get_state Q s.
Proof. done. Qed.
Lemma wlp_modify {S} (f : S -> S) (Q : unit -> S -> Prop) s : Q tt (f s) -> wlp (modify f) Q s.
Proof. done. Qed.
Lemma wlp_deref {S A} (o : option A) (Q : A -> S -> Prop) s : (forall a, o = Some a -> Q a s) -> wlp (deref o) Q s.
Proof. destruct o as [a|]; [|done]. intros H. by apply H. Qed.
Lemma wlp_zoom {S T A} (get : S -> T) (put : T -> S -> S) (c : M T A) (Q : A -> S -> Prop) s :
  wlp c (fun a x => Q a (put x s)) (get s) -> wlp (zoom get put c) Q s.
Proof. unfold wlp, zoom. by destruct (c (get s)). Qed.
Lemma wp_wlp {S A} (c : M S A) Q s : wp c Q s -> wlp c Q s.
Proof. unfold wp, wlp. by destruct (c s). Qed.
Lemma wp_of_wlp {S A} (c : M S A) Q s : wp c (fun _ _ => True) s -> wlp c Q s -> wp c Q s.
Proof. unfold wp, wlp. by destruct (c s). Qed.
Lemma wlp_panic {S A} (Q : A -> S -> Prop) s : wlp PANIC Q s.
Proof. done. Qed.
Lemma wlp_undefined {S A} (Q : A -> S -> Prop) s : wlp undefined Q s.
Proof. done. Qed.
Create HintDb wlp.
#[export] Hint Resolve wlp_panic wlp_undefined : wlp.
Ltac wlp_step := first [ apply wlp_bind | apply wlp_ret | apply wlp_get_state | apply wlp_modify | solve [auto with wlp] ].

(** ** References of a file and the descriptors that name it *)

Definition count (f : Z) (l : list Z) : Z := Z.of_nat (length (filter (fun x => x = f) l)).
Definition one (b : bool) : Z := if b then 1 else 0.

Lemma count_cons f x l : count f (x :: l) = one (bool_decide (x = f)) + count f l.
Proof. unfold count, one. destruct (bool_decide_reflect (x = f)); [rewrite filter_cons_True by done|rewrite filter_cons_False by done]; cbn [length]; lia. Qed.

Lemma count_insert f l (i : nat) x y : l !! i = Some x ->
  count f (<[i := y]> l) = count f l - one (bool_decide (x = f)) + one (bool_decide (y = f)).
Proof.
  revert i. induction l as [|z l IH]; intros [|i] E; try done; cbn [insert list_insert]; rewrite !count_cons.
  - injection E as ->. lia.
  - specialize (IH i E). unfold insert in *. lia.
Qed.

Lemma count_pos f l : 0 <= count f l.
Proof. unfold count. lia. Qed.

Lemma count_elem f l : f ∈ l -> 1 <= count f l.
Proof.
  induction l as [|x l IH]; [by intros ?%elem_of_nil|]. rewrite elem_of_cons, count_cons. pose proof (count_pos f l). intros [->|Hin].
  - rewrite bool_decide_true by done. simpl. lia.
  - specialize (IH Hin). unfold one. destruct (bool_decide _); lia.
Qed.

Section laws.
Context {T : Type} (tree : InodeTree T) (begin_op end_op : Z -> M T unit) (stat_of : Z -> M T stat).
Context (sizeof_stat : Z) (stat_bytes : stat -> list Z -> list Z).
Abbreviation fds s := (openfilelist (sy_oft s)).

(** The descriptors name files that are open, and so do those of the other
    processes. A file has a reference for each descriptor of the process, the
    [others f] of other processes, and those in [extra], which are held by a
    call on its way. *)
Record fds_ok (others : Z -> Z) (extra : list Z) (s : Sys T) : Prop := {
  fk_len : length (fds s) = Z.to_nat NOPENFILE;
  fk_open : forall f, f <> 0 -> f ∈ fds s \/ 0 < others f -> exists x, file_in (sy_fl s) f = Some x /\ fi_type x <> FD_NONE;
  fk_refs : forall f x, file_in (sy_fl s) f = Some x -> others f + count f extra + count f (fds s) <= fi_ref x;
  fk_others : forall f, 0 <= others f;
  fk_lock : fl_lock (sy_fl s) = false;
}.

Lemma wp_slot fd f (Q : Z -> Sys T -> Prop) s : fds s !! Z.to_nat fd = Some f -> Q f s -> wp (slot fd) Q s.
Proof. intros E HQ. apply wp_bind, wp_get_state. by eapply wp_deref. Qed.

Lemma slot_some others extra s fd : fds_ok others extra s -> 0 <= fd < NOPENFILE -> exists f, fds s !! Z.to_nat fd = Some f.
Proof. intros H Hfd. apply lookup_lt_is_Some. rewrite (fk_len _ _ _ H). lia. Qed.

Definition with_slot (fd : nat) (f : Z) (s : Sys T) : Sys T := set_oft (mkOftable (<[fd := f]> (fds s)) (of_num (sy_oft s))) s.

(** [fdalloc] takes the lowest free descriptor. *)
Lemma wp_fdalloc others extra s f : fds_ok others extra s ->
  wp (fdalloc f) (fun r s' =>
    (exists i : nat, r = Z.of_nat i /\ (i < Z.to_nat NOPENFILE)%nat /\ fds s !! i = Some 0 /\ (forall j x, (j < i)%nat -> fds s !! j = Some x -> x <> 0) /\ s' = with_slot i f s) \/
    (r = -1 /\ 0 ∉ fds s /\ s' = s)) s.
Proof.
  intros H. unfold fdalloc. apply wp_bind.
  apply (wp_for_loop (fun i s' => s' = s /\ forall j x, (j < Z.to_nat i)%nat -> fds s !! j = Some x -> x <> 0)).
  - split; [done|]. intros j x Hj. lia.
  - intros i s1 Hi [-> Hl]. destruct (slot_some others extra s i H ltac:(unfold NOPENFILE in *; lia)) as [x Ex].
    apply wp_bind. eapply wp_slot; [exact Ex|]. destruct (Z.eqb_spec x 0) as [->|Hx].
    + apply wp_bind, wp_modify. do 2 apply wp_ret. left. exists (Z.to_nat i). split_and!; try done; lia.
    + apply wp_ret. split; [done|]. intros j y Hj Ey. destruct (decide (j = Z.to_nat i)) as [->|]; [congruence|]. apply (Hl j y); [lia|done].
  - intros s1 [-> Hl]. apply wp_ret. right. split_and!; try done. intros (j & Ej)%list_elem_of_lookup. apply (Hl j 0); [|done|done].
    apply lookup_lt_Some in Ej. rewrite (fk_len _ _ _ H) in Ej. unfold NOPENFILE in *. lia.
Qed.

(** A state whose files have the same references, and whose open files are
    open. *)
Definition same_table (a b : FileState T) : Prop :=
  fl_lock b = fl_lock a /\ forall f x, file_in b f = Some x -> exists y, file_in a f = Some y /\ fi_ref x = fi_ref y /\ (fi_type y <> FD_NONE -> fi_type x <> FD_NONE).

Lemma file_in_total (a b : FileState T) f x : file_in a f = Some x -> exists y, file_in b f = Some y.
Proof. unfold file_in. destruct ((1 <=? f) && (f <=? NFILE)); [eauto|done]. Qed.

Lemma same_table_refl a : same_table a a.
Proof. split; [done|eauto]. Qed.

Lemma same_table_trans a b c : same_table a b -> same_table b c -> same_table a c.
Proof.
  intros [L1 H1] [L2 H2]. split; [congruence|]. intros f x E. destruct (H2 f x E) as (y & E' & ? & ?). destruct (H1 f y E') as (z & ? & ? & ?).
  exists z. split_and!; [done|congruence|auto].
Qed.
#[local] Instance same_table_pre : PreOrder same_table.
Proof. split; [exact same_table_refl|exact same_table_trans]. Qed.

Lemma same_frame a b : fl_lock b = fl_lock a -> fl_files b = fl_files a -> same_table a b.
Proof. intros E1 E2. split; [done|]. unfold file_in. rewrite E2. eauto. Qed.
Local Ltac framed := intros; apply same_frame; reflexivity.

Lemma fds_ok_same others extra s s' : fds_ok others extra s -> same_table (sy_fl s) (sy_fl s') -> sy_oft s' = sy_oft s -> fds_ok others extra s'.
Proof.
  intros [H1 H2 H3 H4 H5] [L H] E. split; rewrite ?E; try done; [| |congruence].
  - intros f Hf Hn. destruct (H2 f Hf Hn) as (x & Ex & Ht). destruct (file_in_total _ (sy_fl s') _ _ Ex) as [y Ey].
    exists y. split; [done|]. destruct (H f y Ey) as (z & Ez & _ & Hz). apply Hz. congruence.
  - intros f x Ex. destruct (H f x Ex) as (y & Ey & -> & _). by apply H3.
Qed.

(** The parts of the file layer that the files are made of do not hold the
    table. *)
Lemma wlp_on_fs {A} (c : M T A) (Q : A -> FileState T -> Prop) s : (forall a x, Q a (set_fs x s)) -> wlp (on_fs c) Q s.
Proof. intros H. unfold wlp, on_fs. destruct (c (fl_fs s)); auto. Qed.
Lemma wlp_on_pipe {A} pi (c : M Pipe A) (Q : A -> FileState T -> Prop) s : (forall a p, Q a (set_pipes p s)) -> wlp (on_pipe pi c) Q s.
Proof. intros H. unfold wlp, on_pipe. destruct (fl_pipes s !! pi) as [p|]; [|done]. destruct (c p); auto. Qed.
Lemma wlp_on_kmem {A} (c : M Mem A) (Q : A -> FileState T -> Prop) s : (forall a x, Q a (set_kmem x s)) -> wlp (on_kmem c) Q s.
Proof. intros H. unfold wlp, on_kmem. destruct (c (fl_mem s)); auto. Qed.
Lemma wlp_file_at f (Q : File -> FileState T -> Prop) s : (forall x, file_in s f = Some x -> Q x s) -> wlp (file_at f) Q s.
Proof. intros H. apply wlp_bind, wlp_get_state, wlp_deref. exact H. Qed.

Lemma same_store s f x y : file_in s f = Some x -> fi_ref y = fi_ref x -> (fi_type x <> FD_NONE -> fi_type y <> FD_NONE) -> same_table s (set_files (<[f := y]> (fl_files s)) s).
Proof.
  intros Ex Hr Ht. assert (1 <= f <= NFILE) as Hf by (unfold file_in in Ex; destruct (Z.leb_spec 1 f), (Z.leb_spec f NFILE); done || lia).
  split; [done|]. intros g z. rewrite file_in_store by done. destruct (decide (g = f)) as [->|]; [intros [= <-]; eauto|eauto].
Qed.

(** What the last reference gives back. *)
Definition drop_object (ctx : Z) (x : File) : M (FileState T) unit :=
  match fi_type x with
  | FD_PIPE => pipe_close (fi_obj x) (fi_writable x)
  | FD_INODE => on_fs (begin_op ctx) ;; on_fs (it_put tree ctx (fi_obj x)) ;; on_fs (end_op ctx)
  | FD_NONE => mret tt
  end.

Lemma drop_object_table ctx x s : wlp (drop_object ctx x) (fun _ s' => fl_lock s' = fl_lock s /\ fl_files s' = fl_files s) s.
Proof.
  unfold drop_object. destruct (fi_type x).
  - done.
  - apply wlp_bind, wlp_on_pipe. intros [] p; [|done]. apply wlp_bind, wlp_on_kmem. intros ? m. apply wlp_modify; done.
  - apply wlp_bind, wlp_on_fs. intros ? t1. apply wlp_bind, wlp_on_fs. intros ? t2. apply wlp_on_fs; done.
Qed.

Lemma file_read_table f addr n s : wlp (file_read tree f addr n) (fun _ s' => same_table s s') s.
Proof.
  unfold file_read. apply wlp_bind, wlp_file_at. intros x Ex. destruct (negb (fi_readable x)); [framed|]. destruct (fi_type x); [done|..].
  - apply wlp_bind, wlp_get_state, wlp_bind, wlp_on_pipe. intros a p. framed.
  - apply wlp_bind, wlp_on_fs. intros ? t1. apply wlp_bind, wlp_on_fs. intros r t2. apply wlp_bind, wlp_file_at. intros y Ey.
    apply wlp_bind, wlp_modify, wlp_bind, wlp_on_fs. intros ? t3. apply wlp_ret. by apply (same_store s f y).
Qed.

Lemma write_pieces_table fuel ctx f ip addr n : forall nwrite s, wlp (write_pieces tree begin_op end_op fuel ctx f ip addr n nwrite) (fun _ s' => same_table s s') s.
Proof.
  induction fuel as [|fuel IH]; intros nwrite s; cbn [write_pieces]; destruct (nwrite <? n); try done; try framed.
  apply wlp_bind, wlp_on_fs. intros ? t1. apply wlp_bind, wlp_on_fs. intros ? t2. apply wlp_bind, wlp_file_at. intros y Ey.
  apply wlp_bind, wlp_on_fs. intros w t3. apply wlp_bind, wlp_modify, wlp_bind, wlp_on_fs. intros ? t4. apply wlp_bind, wlp_on_fs. intros ? t5.
  eapply wlp_mono; [apply IH|]. intros ? s' H. etransitivity; [|exact H]. by apply (same_store s f y).
Qed.

Lemma file_write_table ctx f addr n s : wlp (file_write tree begin_op end_op ctx f addr n) (fun _ s' => same_table s s') s.
Proof.
  unfold file_write. apply wlp_bind, wlp_file_at. intros x Ex. destruct (negb (fi_writable x)); [framed|]. destruct (fi_type x); [done|..].
  - apply wlp_bind, wlp_get_state, wlp_on_pipe. framed.
  - apply write_pieces_table.
Qed.

Lemma file_stat_table f s : wlp (file_stat tree stat_of f) (fun _ s' => same_table s s') s.
Proof.
  unfold file_stat. apply wlp_bind, wlp_file_at. intros x Ex. destruct (decide _); [|framed].
  apply wlp_bind, wlp_on_fs. intros ? t1. apply wlp_bind, wlp_on_fs. intros ? t2. apply wlp_bind, wlp_on_fs. framed.
Qed.

(** The file that a descriptor names. *)
Definition named (s : Sys T) (fd : Z) : option Z :=
  if bool_decide (0 <= fd < NOPENFILE) then f ← fds s !! Z.to_nat fd; if f =? 0 then None else Some f else None.

Lemma wp_fd2file_named others extra s fd : fds_ok others extra s -> wp (fd2file fd) (fun f s' => s' = s /\ f = default 0 (named s fd)) s.
Proof.
  intros H. unfold fd2file, named. destruct (bool_decide_reflect (0 <= fd < NOPENFILE)) as [Hfd|Hfd].
  - rewrite (proj2 (orb_false_iff _ _)) by (split; [apply Z.ltb_ge|apply Z.leb_gt]; lia). destruct (slot_some others extra s fd H Hfd) as [f Ef].
    eapply wp_slot; [exact Ef|]. rewrite Ef. cbn [mbind option_bind]. split; [done|]. by destruct (Z.eqb_spec f 0).
  - rewrite (proj2 (orb_true_iff _ _)); [by apply wp_ret|]. destruct (Z.ltb_spec fd 0); [by left|right]. apply Z.leb_le. lia.
Qed.

Lemma named_open others extra s fd f : fds_ok others extra s -> named s fd = Some f ->
  0 <= fd < NOPENFILE /\ fds s !! Z.to_nat fd = Some f /\ f <> 0 /\ exists x, file_in (sy_fl s) f = Some x /\ fi_type x <> FD_NONE /\ 1 <= fi_ref x - others f.
Proof.
  intros H. unfold named. destruct (bool_decide_reflect (0 <= fd < NOPENFILE)) as [Hfd|]; [|done].
  destruct (slot_some others extra s fd H Hfd) as [g Eg]. rewrite Eg. cbn [mbind option_bind]. destruct (Z.eqb_spec g 0) as [|Hg]; [done|]. intros [= ->].
  assert (f ∈ fds s) as Hin by (by apply list_elem_of_lookup_2 in Eg).
  split_and!; try done; try lia. destruct (fk_open _ _ _ H f Hg (or_introl Hin)) as (x & Ex & Ht). exists x. split_and!; try done.
  pose proof (fk_refs _ _ _ H f x Ex). pose proof (count_elem f _ Hin). pose proof (count_pos f extra). lia.
Qed.

(** One file of the table changes. *)
Definition one_file (f : Z) (y : File) (a b : FileState T) : Prop :=
  forall g, file_in b g = if decide (g = f) then Some y else file_in a g.

Lemma file_in_valid (a : FileState T) f x : file_in a f = Some x -> 1 <= f <= NFILE.
Proof. unfold file_in. destruct (Z.leb_spec 1 f), (Z.leb_spec f NFILE); done || lia. Qed.

Lemma wp_file_dup (a : FileState T) f x : fl_lock a = false -> file_in a f = Some x ->
  wp (file_dup f) (fun r b => r = f /\ fl_lock b = false /\ one_file f (set_fref (fi_ref x + 1) x) a b) a.
Proof.
  intros Hl Ex. unfold file_dup. apply wp_bind, wp_ftable_acquire; [done|]. apply wp_bind. eapply wp_file_at; [exact Ex|].
  apply wp_bind, wp_modify. apply wp_bind, wp_modify. apply wp_ret. split_and!; [done|done|]. intros g.
  apply (file_in_store a f _ g). by eapply file_in_valid.
Qed.

(** Filling a free slot with a file that has a reference for it. *)
Lemma fds_ok_fill others extra s s' (i : nat) f y :
  fds_ok others extra s -> fds s !! i = Some 0 -> fds s' = <[i := f]> (fds s) -> fl_lock (sy_fl s') = false ->
  one_file f y (sy_fl s) (sy_fl s') -> fi_type y <> FD_NONE -> 1 <= f <= NFILE -> forall extra', (forall g, g <> f -> count g extra' <= count g extra) ->
  others f + count f extra' + count f (fds s) + 1 <= fi_ref y -> fds_ok others extra' s'.
Proof.
  intros [H1 H2 H3 H4 H5] Ei Ef Hl Ho Ht Hf extra' He Hy. split; rewrite ?Ef; try done.
  - by rewrite length_insert.
  - intros g Hn Hg. rewrite (Ho g). destruct (decide (g = f)) as [->|Hgf]; [eauto|]. apply H2; [done|]. destruct Hg as [(j & Ej)%list_elem_of_lookup|?]; [left|by right].
    apply list_lookup_insert_Some in Ej. destruct Ej as [(_ & -> & _)|(_ & Ej)]; [done|]. by apply list_elem_of_lookup_2 in Ej.
  - intros g x. rewrite (Ho g), (count_insert g _ i 0 f Ei). destruct (decide (g = f)) as [->|Hg].
    + intros [= <-]. rewrite (bool_decide_true (f = f)) by done. rewrite (bool_decide_false (0 = f)) by lia. simpl. lia.
    + intros Ex. rewrite (bool_decide_false (f = g)) by congruence. specialize (H3 g x Ex). specialize (He g Hg). unfold one. destruct (bool_decide (0 = g)); lia.
Qed.

Lemma sys_dup_wp others s fd :
  fds_ok others [] s ->
  wp (sys_dup fd) (fun r s' =>
    fds_ok others [] s' /\ sy_mem s' = sy_mem s /\ sy_secs s' = sy_secs s /\
    ((r = FAILED /\ s' = s /\ (named s fd = None \/ 0 ∉ fds s)) \/
     exists (i : nat) f x, r = Z.of_nat i /\ (i < Z.to_nat NOPENFILE)%nat /\ fds s !! i = Some 0 /\
       (forall j y, (j < i)%nat -> fds s !! j = Some y -> y <> 0) /\
       named s fd = Some f /\ file_in (sy_fl s) f = Some x /\ fds s' = <[i := f]> (fds s) /\
       one_file f (set_fref (fi_ref x + 1) x) (sy_fl s) (sy_fl s'))) s.
Proof.
  intros H. unfold sys_dup. apply wp_bind. eapply wp_mono; [by apply (wp_fd2file_named others [])|]. intros f ? [-> ->].
  destruct (named s fd) as [f|] eqn:En; cbn [from_option id].
  2: { apply wp_ret. split_and!; try done. left. split_and!; try done. by left. }
  destruct (named_open _ _ _ _ _ H En) as (Hfd & Ef & Hf & x & Ex & Ht & Hr). rewrite (proj2 (Z.eqb_neq f 0)) by done.
  apply wp_bind. eapply wp_mono; [by apply (wp_fdalloc others [])|]. intros r s1 [(i & -> & Hi & Ei & Hlow & ->)|(-> & Hfull & ->)].
  2: { apply wp_ret. split_and!; try done. left. split_and!; try done. by right. }
  rewrite (proj2 (Z.ltb_ge _ _)) by lia. apply wp_bind, wp_zoom. change (sy_fl (with_slot i f s)) with (sy_fl s).
  eapply wp_mono; [apply (wp_file_dup _ _ _ (fk_lock _ _ _ H) Ex)|]. intros r b (-> & Hl & Ho). apply wp_ret.
  pose proof (file_in_valid _ _ _ Ex) as Hv. pose proof (fk_refs _ _ _ H f x Ex).
  split_and!; [|done|done|].
  - apply (fds_ok_fill others [] s _ i f (set_fref (fi_ref x + 1) x) H); try done; simpl; lia.
  - right. exists i, f, x. split_and!; try done. unfold u64. rewrite wrap_small; [done|]. unfold NOPENFILE in Hi. lia.
Qed.

(** [dup] of a descriptor that names no file, or with no free descriptor,
    returns -1 and changes nothing. Otherwise it returns the lowest free
    descriptor, which names the same file from then on; that file, and only
    that one, has one more reference. *)
Theorem sys_dup_spec others s fd :
  fds_ok others [] s ->
  wp (sys_dup fd) (fun r s' =>
    fds_ok others [] s' /\ sy_mem s' = sy_mem s /\ sy_secs s' = sy_secs s /\
    ((r = FAILED /\ s' = s /\ (named s fd = None \/ 0 ∉ fds s)) \/
     exists (i : nat) f x, r = Z.of_nat i /\ (i < Z.to_nat NOPENFILE)%nat /\ fds s !! i = Some 0 /\
       (forall j y, (j < i)%nat -> fds s !! j = Some y -> y <> 0) /\
       named s fd = Some f /\ file_in (sy_fl s) f = Some x /\ fds s' = <[i := f]> (fds s) /\
       one_file f (set_fref (fi_ref x + 1) x) (sy_fl s) (sy_fl s'))) s.
Proof. apply sys_dup_wp. Qed.

(** The file after one reference is given up. *)
Definition unref (x : File) : File :=
  if fi_ref x =? 1 then set_ftype FD_NONE (set_fref 0 x) else set_fref (fi_ref x - 1) x.

Lemma file_close_eq ctx (a : FileState T) f x :
  fl_lock a = false -> file_in a f = Some x -> 1 <= fi_ref x ->
  file_close tree begin_op end_op ctx f a =
    if decide (fi_type x = FD_NONE) then Done tt a
    else let b := set_files (<[f := unref x]> (fl_files a)) a in if fi_ref x =? 1 then drop_object ctx x b else Done tt b.
Proof.
  intros Hl Ex Hr. unfold file_close, file_at, mbind, M_bind, get_state, deref. rewrite Ex. destruct (decide (fi_type x = FD_NONE)) as [|Ht]; [done|].
  unfold ftable_acquire. rewrite Hl. unfold store_file, modify, ftable_release. cbn [fi_ref set_fref fl_files set_files set_ftable_lock]. unfold unref.
  destruct (Z.eqb_spec (fi_ref x) 1) as [E|E].
  - rewrite E. change (0 <? 1 - 1) with false. cbv iota zeta. set (s1 := set_files (<[f := set_fref (1 - 1) x]> (fl_files a)) (set_ftable_lock true a)).
    transitivity (drop_object ctx x (set_ftable_lock false (set_files (<[f := set_ftype FD_NONE (set_fref 0 (set_fref (1 - 1) x))]> (fl_files s1)) s1))); [reflexivity|].
    f_equal. subst s1. destruct a. cbn in *. subst. by rewrite insert_insert_eq.
  - rewrite (proj2 (Z.ltb_lt 0 (fi_ref x - 1))) by lia. unfold modify. f_equal. destruct a. cbn in *. by subst.
Qed.

Lemma wp_file_close ctx (a : FileState T) f x :
  fl_lock a = false -> file_in a f = Some x -> fi_type x <> FD_NONE -> 1 <= fi_ref x ->
  (fi_ref x = 1 -> wp (drop_object ctx x) (fun _ _ => True) (set_files (<[f := unref x]> (fl_files a)) a)) ->
  wp (file_close tree begin_op end_op ctx f) (fun _ b => fl_lock b = false /\ one_file f (unref x) a b) a.
Proof.
  intros Hl Ex Ht Hr Hd. pose proof (file_in_valid _ _ _ Ex) as Hf. unfold wp. rewrite (file_close_eq ctx a f x Hl Ex Hr).
  destruct (decide (fi_type x = FD_NONE)) as [|_]; [done|]. cbv zeta. destruct (Z.eqb_spec (fi_ref x) 1) as [E|E].
  - apply wp_of_wlp; [by apply Hd|]. eapply wlp_mono; [apply drop_object_table|]. intros u b [Hk1 Hk2].
    split; [by rewrite Hk1|]. intros g. rewrite <- (file_in_store a f _ g Hf). unfold file_in. by rewrite Hk2.
  - split; [done|]. intros g. apply (file_in_store a f _ g Hf).
Qed.

(** Clearing a slot leaves its reference to the call. *)
Lemma fds_ok_clear others extra s fd f : fds_ok others extra s -> named s fd = Some f -> fds_ok others (f :: extra) (with_slot (Z.to_nat fd) 0 s).
Proof.
  intros H En. destruct (named_open _ _ _ _ _ H En) as (_ & Ei & Hf & _). destruct H as [H1 H2 H3 H4 H5]. split; try done.
  - cbn. by rewrite length_insert.
  - intros g Hg Hin. apply H2; [done|]. destruct Hin as [(j & Ej)%list_elem_of_lookup|?]; [left|by right]. cbn in Ej.
    apply list_lookup_insert_Some in Ej as [(_ & <- & _)|(_ & Ej)]; [done|]. by apply list_elem_of_lookup_2 in Ej.
  - intros g y Ey. specialize (H3 g y Ey). cbn. rewrite (count_insert g _ _ f 0 Ei), count_cons. destruct (bool_decide_reflect (0 = g)) as [<-|]; [|cbn; lia].
    apply file_in_valid in Ey. lia.
Qed.

(** A reference held by a call is given up. *)
Lemma fds_ok_unref others extra s s' f x :
  fds_ok others (f :: extra) s -> file_in (sy_fl s) f = Some x -> sy_oft s' = sy_oft s -> fl_lock (sy_fl s') = false ->
  one_file f (unref x) (sy_fl s) (sy_fl s') -> fi_type x <> FD_NONE -> fds_ok others extra s'.
Proof.
  intros [H1 H2 H3 H4 H5] Ex Eo Hl Ho Ht. pose proof (H3 f x Ex) as Hx. rewrite count_cons, bool_decide_true in Hx by done. cbn in Hx.
  pose proof (H4 f). pose proof (count_pos f extra). pose proof (count_pos f (fds s)). split; rewrite ?Eo; try done.
  - intros g Hg Hin. rewrite (Ho g). destruct (decide (g = f)) as [->|Hgf]; [|by apply H2].
    exists (unref x). split; [done|]. unfold unref. destruct (Z.eqb_spec (fi_ref x) 1) as [E|E]; [|done].
    destruct Hin as [Hin|?]; [apply count_elem in Hin|]; lia.
  - intros g y. rewrite (Ho g). destruct (decide (g = f)) as [->|Hgf].
    + intros [= <-]. unfold unref. destruct (Z.eqb_spec (fi_ref x) 1) as [E|E]; cbn; lia.
    + intros Ey. specialize (H3 g y Ey). rewrite count_cons, (bool_decide_false (f = g)) in H3 by congruence. cbn in H3. lia.
Qed.

Lemma wp_sys_close others ctx s fd f x :
  fds_ok others [] s -> named s fd = Some f -> file_in (sy_fl s) f = Some x ->
  (fi_ref x = 1 -> wp (drop_object ctx x) (fun _ _ => True) (set_files (<[f := unref x]> (fl_files (sy_fl s))) (sy_fl s))) ->
  wp (sys_close tree begin_op end_op ctx fd) (fun r s' => r = 0 /\ fds_ok others [] s' /\ sy_mem s' = sy_mem s /\ sy_secs s' = sy_secs s /\
    fds s' = <[Z.to_nat fd := 0]> (fds s) /\ one_file f (unref x) (sy_fl s) (sy_fl s')) s.
Proof.
  intros H En Ex Hd. destruct (named_open _ _ _ _ _ H En) as (Hfd & Ef & Hf & x' & Ex' & Ht & Hr). assert (x' = x) as -> by congruence.
  unfold sys_close. rewrite (proj2 (orb_false_iff _ _)) by (split; [apply Z.ltb_ge|apply Z.leb_gt]; lia).
  apply wp_bind. eapply wp_slot; [exact Ef|]. apply wp_bind, wp_modify. apply wp_bind, wp_zoom. cbn [sy_fl set_oft].
  pose proof (fk_others _ _ _ H f). eapply wp_mono; [apply (wp_file_close ctx _ f x (fk_lock _ _ _ H) Ex Ht ltac:(lia) Hd)|]. intros [] b [Hl Ho]. apply wp_ret.
  split_and!; try done. by apply (fds_ok_unref others [] (with_slot (Z.to_nat fd) 0 s) _ f x (fds_ok_clear _ _ _ _ _ H En)).
Qed.

(** [close] of a number that is no descriptor returns -1 and changes nothing.
    [close] of a descriptor frees it and takes one reference from its file,
    and only that file: when it was the last one the file is closed and its
    pipe end or inode is given back, otherwise the file stays open. The
    descriptors that remain still name open files. *)
Theorem sys_close_spec others ctx s fd :
  fds_ok others [] s ->
  (~ 0 <= fd < NOPENFILE -> sys_close tree begin_op end_op ctx fd s = Done FAILED s) /\
  forall f x, named s fd = Some f -> file_in (sy_fl s) f = Some x ->
    (fi_ref x = 1 -> wp (drop_object ctx x) (fun _ _ => True) (set_files (<[f := unref x]> (fl_files (sy_fl s))) (sy_fl s))) ->
    wp (sys_close tree begin_op end_op ctx fd) (fun r s' => r = 0 /\ fds_ok others [] s' /\ sy_mem s' = sy_mem s /\ sy_secs s' = sy_secs s /\
      fds s' = <[Z.to_nat fd := 0]> (fds s) /\ named s' fd = None /\ one_file f (unref x) (sy_fl s) (sy_fl s')) s.
Proof.
  intros H. split.
  - intros Hfd. unfold sys_close. rewrite (proj2 (orb_true_iff _ _)); [done|]. destruct (Z.ltb_spec fd 0); [by left|right]. apply Z.leb_le. lia.
  - intros f x En Ex Hd. destruct (named_open _ _ _ _ _ H En) as (Hfd & Ef & _). eapply wp_mono; [by apply (wp_sys_close others)|].
    intros r s' (? & ? & ? & ? & E & ?). split_and!; try done. unfold named. rewrite bool_decide_true by done. rewrite E, list_lookup_insert_eq; [done|]. by apply lookup_lt_Some in Ef.
Qed.
End laws.

(** ** Bytes through a pipe *)

Lemma length_load mem a n : length (load mem a n) = n.
Proof. unfold load. by rewrite length_fmap, length_seq. Qed.

Lemma load_store mem a bs : 0 <= a -> Z.of_nat (length bs) <= 2 ^ 64 -> load (store mem a bs) a (length bs) = bs.
Proof.
  intros Ha Hl. apply list_eq. intros i. unfold load. rewrite list_lookup_fmap. destruct (decide (i < length bs)%nat) as [Hi|Hi].
  - rewrite lookup_seq_lt by done. cbn [fmap option_fmap option_map]. unfold store.
    assert (u64 (u64 (a + Z.of_nat (0 + i)) - a) = Z.of_nat i) as ->.
    { unfold u64, wrap. rewrite Zminus_mod_idemp_l. replace (a + Z.of_nat (0 + i) - a) with (Z.of_nat i) by lia. apply Z.mod_small. lia. }
    rewrite Nat2Z.id. by destruct (lookup_lt_is_Some_2 bs i Hi) as [x ->].
  - rewrite lookup_seq_ge by lia. symmetry. apply lookup_ge_None. lia.
Qed.

Section pipes.
Context {T : Type} (tree : InodeTree T) (begin_op end_op : Z -> M T unit).
Abbreviation fds s := (openfilelist (sy_oft s)).

Lemma wp_bind_inv {S A B} (c : M S A) (k : A -> M S B) Q s : wp (a ← c; k a) Q s -> wp c (fun a s' => wp (k a) Q s') s.
Proof. unfold wp, mbind, M_bind. by destruct (c s). Qed.

(** A range below the kernel that [user_writeable] accepts is in a section. *)
Lemma writeable_section secs a n : 0 <= a -> 0 < n -> a + n <= KSPACE_MASK -> user_writeable secs a n = true -> in_section secs a n = true.
Proof.
  intros Ha Hn Hk. unfold user_writeable, in_section. rewrite (proj2 (Z.leb_gt _ _)), (proj2 (Z.leb_le (a + n) _)) by lia. cbn [andb].
  induction secs as [|st secs IH]; [done|]. cbn [scan_writeable existsb]. intros H. apply orb_true_iff.
  destruct (flag (se_flags st) ST_RO); [right; auto|]. destruct (covers st a n) eqn:Ec; [left|right; auto].
  unfold covers in Ec. apply andb_true_iff in Ec as [E1 E2%Z.ltb_lt]. rewrite E1. cbn [andb]. apply Z.leb_le.
  unfold u64 in E2. rewrite wrap_small in E2; [lia|]. unfold KSPACE_MASK in Hk. lia.
Qed.

(** What a process writes with the descriptor of the write end of a pipe it
    reads with that of the read end: with room for the bytes in the pipe and
    buffers in its sections, not in the kernel, [write] returns the number of bytes, and [read]
    returns the number of bytes it has put into the buffer, which are those of
    the pipe in order, the old ones first. No descriptor and no other memory
    changes. *)
Theorem pipe_fds_roundtrip others (s : Sys T) ctx rfd wfd rf wf pi p buf n buf2 m :
  fds_ok others [] s -> named s rfd = Some rf -> named s wfd = Some wf ->
  pipe_file (sy_fl s) rf pi true -> pipe_file (sy_fl s) wf pi false ->
  fl_pipes (sy_fl s) !! pi = Some p -> pipe_ok p -> pi_lock p = false ->
  0 < n -> 0 < m < 2 ^ 31 -> (length (contents p) + Z.to_nat n <= 512)%nat -> 0 <= buf2 -> buf2 + m <= KSPACE_MASK ->
  user_readable (sy_secs s) buf n = true -> user_writeable (sy_secs s) buf2 m = true ->
  wp (w ← sys_write tree begin_op end_op ctx wfd buf n; r ← sys_read tree rfd buf2 m; mret (w, r)) (fun '(w, r) s' =>
    let got := take (Z.to_nat m) (contents p ++ load (sy_mem s) buf (Z.to_nat n)) in
    w = n /\ r = Z.of_nat (length got) /\ load (sy_mem s') buf2 (length got) = got /\
    (forall x, 0 <= x < 2 ^ 64 -> Z.of_nat (length got) <= u64 (x - buf2) -> sy_mem s' x = sy_mem s x) /\
    sy_oft s' = sy_oft s /\ fds_ok others [] s') s.
Proof.
  intros H Er Ew Hrf Hwf Ep Hok Hl Hn Hm Hroom Hb2 Hku Hread Hwrite.
  set (bs := load (sy_mem s) buf (Z.to_nat n)). assert (length bs = Z.to_nat n) as Hbs by apply length_load.
  destruct (file_pipe_roundtrip tree begin_op end_op (sy_fl s) ctx rf wf pi p bs (load (sy_mem s) buf2 (Z.to_nat m)) m Hrf Hwf Ep Hok Hl) as [HW _].
  { by rewrite Hbs. } { destruct bs; [simpl in Hbs; lia|]. by destruct (contents p). } { lia. } { rewrite length_load. lia. }
  rewrite Hbs, Z2Nat.id in HW by lia. apply wp_bind_inv in HW. rewrite wp_done in HW. destruct HW as (w & b1 & E1 & HW). apply wp_bind_inv in HW. rewrite wp_done in HW. destruct HW as ([k addr'] & b2 & E2 & (-> & -> & -> & p' & -> & _)).
  destruct (named_open _ _ _ _ _ H Er) as (_ & _ & Hrf0 & _). destruct (named_open _ _ _ _ _ H Ew) as (_ & _ & Hwf0 & _).
  set (got := take (Z.to_nat m) (contents p ++ bs)) in *. assert (length got <= Z.to_nat m)%nat as Hg by (unfold got; rewrite length_take; lia).
  pose proof (file_write_table tree begin_op end_op ctx wf bs n (sy_fl s)) as H1. unfold wlp in H1. rewrite E1 in H1.
  assert (fds_ok others [] (set_fl b1 s)) as Hok1 by (by apply (fds_ok_same others [] s)).
  apply wp_bind. unfold sys_write. apply wp_bind. eapply wp_mono; [by apply (wp_fd2file_named others [])|]. intros f ? [-> ->]. rewrite Ew. cbn [from_option id].
  rewrite (proj2 (Z.eqb_neq wf 0)), (proj2 (Z.leb_gt n 0)) by done. cbn [orb]. apply wp_bind. unfold readable. apply wp_bind, wp_get_state, wp_ret. rewrite Hread. cbn [negb].
  apply wp_bind. unfold bytes_at. apply wp_bind, wp_get_state, wp_ret. apply wp_bind, wp_zoom. unfold wp at 1. fold bs. rewrite E1. apply wp_ret.
  apply wp_bind. unfold sys_read. apply wp_bind. eapply wp_mono; [by apply (wp_fd2file_named others [])|]. intros f ? [-> ->].
  change (named (set_fl b1 s) rfd) with (named s rfd). rewrite Er. cbn [from_option id]. rewrite (proj2 (Z.eqb_neq rf 0)), (proj2 (Z.leb_gt m 0)) by (done || lia).
  apply wp_bind. unfold writeable. apply wp_bind, wp_get_state, wp_ret. cbn [sy_secs set_fl]. rewrite Hwrite. cbn [negb].
  apply wp_bind. unfold bytes_at. apply wp_bind, wp_get_state, wp_ret. cbn [sy_mem set_fl]. apply wp_bind, wp_zoom. unfold wp at 1. cbn [sy_fl set_fl]. rewrite E2.
  cbn [fst snd]. set (old := load (sy_mem s) buf2 (Z.to_nat m)). assert (splice old 0 got = got ++ drop (length got) old) as Esp by (unfold splice; by rewrite take_0).
  assert (length (splice old 0 got) = Z.to_nat m) as Hsp by (rewrite Esp, length_app, length_drop; unfold old; rewrite length_load; lia).
  pose proof (load_store (sy_mem s) buf2 (splice old 0 got) Hb2 ltac:(lia)) as Hls. rewrite Hsp in Hls.
  apply wp_bind. unfold put_bytes. apply wp_bind, wp_get_state. rewrite Hsp, Z2Nat.id by lia. change (sy_secs _) with (sy_secs s).
  rewrite (writeable_section (sy_secs s) buf2 m) by (done || lia). apply wp_modify. do 2 apply wp_ret. cbn [fst snd sy_mem set_fl set_umem sy_oft].
  split_and!.
  - unfold u64. rewrite wrap_small; [done|]. lia.
  - rewrite int_of_small by lia. unfold u64. rewrite wrap_small; [done|lia].
  - replace (length got) with (length (take (length got) (splice old 0 got))) at 1 by (rewrite length_take; lia).
    assert (load (store (sy_mem s) buf2 (splice old 0 got)) buf2 (length got) = take (length got) (load (store (sy_mem s) buf2 (splice old 0 got)) buf2 (Z.to_nat m))) as Et.
    { unfold load. rewrite <- fmap_take. f_equal. rewrite take_seq. f_equal. lia. }
    rewrite length_take, Hsp, Nat.min_l by lia. rewrite Et, Hls, Esp. by rewrite take_app_length.
  - intros x Hr Hx. unfold store. rewrite Esp. rewrite lookup_app_r, lookup_drop by lia.
    replace (length got + (Z.to_nat (u64 (x - buf2)) - length got))%nat with (Z.to_nat (u64 (x - buf2))) by lia. unfold old, load. rewrite list_lookup_fmap.
    destruct (seq 0 (Z.to_nat m) !! Z.to_nat (u64 (x - buf2))) as [j|] eqn:Ej; [|done]. apply lookup_seq in Ej as [-> _]. cbn [fmap option_fmap option_map from_option id].
    f_equal. rewrite Nat.add_0_l, Z2Nat.id by lia. unfold u64, wrap. rewrite Zplus_mod_idemp_r. replace (buf2 + (x - buf2)) with x by lia. by apply Z.mod_small.
  - done.
  - apply (fds_ok_same others [] (set_fl b1 s)); [done| |done]. pose proof (file_read_table tree rf old m b1) as H2. unfold wlp in H2. fold old in E2. rewrite E2 in H2. exact H2.
Qed.
End pipes.

(** ** Concrete instances *)

(** Descriptor 0 names a file of the disk, 1 and 2 the ends of a pipe. *)
Definition example_oft : oftable := mkOftable ([1; 2; 3] ++ replicate 125 0) 0.
Definition example_section : section := mkSection ST_HEAP 0x1000 0x2000 (Sem.init_sem 1) 0 0 0 0.
Definition example_sys : Sys (FsState CacheState) := mkSys example_file_state example_oft [example_section] (fun _ => 65).
Definition example_begin (c : Z) : M (FsState CacheState) unit := on_cache (bc_begin_op (bcache Crash.example_sb) c).
Definition example_end (c : Z) : M (FsState CacheState) unit := on_cache (bc_end_op (bcache Crash.example_sb) c).

Lemma count_free f n : f <> 0 -> count f (replicate n 0) = 0.
Proof. intros Hf. induction n as [|n IH]; [done|]. cbn [replicate]. rewrite count_cons, bool_decide_false by congruence. done. Qed.

Lemma example_file_in f : f <> 1 -> f <> 2 -> f <> 3 -> file_in example_file_state f = if (1 <=? f) && (f <=? NFILE) then Some zero_file else None.
Proof. intros H1 H2 H3. unfold file_in. destruct (_ && _); [|done]. cbn [fl_files example_file_state]. unfold example_files. by rewrite !lookup_insert_ne, lookup_singleton_ne by congruence. Qed.

Lemma example_oft_count f : f <> 0 -> count f (openfilelist example_oft) = one (bool_decide (1 = f)) + (one (bool_decide (2 = f)) + one (bool_decide (3 = f))).
Proof. intros Hf. unfold example_oft. cbn [openfilelist app]. rewrite !count_cons, count_free by done. lia. Qed.

Lemma example_fds_ok : fds_ok (fun _ => 0) [] example_sys.
Proof.
  split; cbn [example_sys sy_oft sy_fl]; try done.
  - intros f Hf [Hin|?]; [|lia]. cbn [openfilelist example_oft app] in Hin. rewrite !elem_of_cons in Hin. destruct Hin as [->|[->|[->|Hin%elem_of_replicate_inv]]]; [..|done]; eexists; (split; [reflexivity|done]).
  - intros f x Ex. pose proof (file_in_valid _ _ _ Ex) as Hv. rewrite example_oft_count by lia. change (count f []) with 0.
    destruct (decide (f = 1)) as [->|H1]; [injection Ex as <-; reflexivity || (vm_compute; discriminate)|]. destruct (decide (f = 2)) as [->|H2]; [injection Ex as <-; vm_compute; discriminate|].
    destruct (decide (f = 3)) as [->|H3]; [injection Ex as <-; vm_compute; discriminate|]. rewrite (example_file_in f H1 H2 H3) in Ex. destruct (_ && _); [|done]. injection Ex as <-.
    rewrite !bool_decide_false by congruence. cbn. lia.
Qed.

Lemma sys_dup_spec_witness : wp (sys_dup 0) (fun r s' => fds_ok (fun _ => 0) [] s' /\ r = 3 /\ named s' 3 = Some 1) example_sys.
Proof.
  eapply wp_mono; [apply (sys_dup_spec (fun _ => 0) example_sys 0 example_fds_ok)|]. intros r s' (H & _ & _ & [(_ & _ & [Hn|Hn])|(i & f & x & -> & Hi & Ei & Hlow & Hf & Ex & Ef & _)]).
  - done.
  - destruct Hn. apply list_elem_of_lookup. by exists 3%nat.
  - injection Hf as <-. assert (i = 3%nat) as ->.
    { destruct (decide (i < 3)%nat) as [Hlt|Hge]; [by destruct i as [|[|[|]]]; try lia|]. destruct (decide (3 < i)%nat) as [Hgt|]; [by destruct (Hlow 3%nat 0 Hgt)|lia]. }
    split_and!; try done. unfold named. rewrite bool_decide_true by (unfold NOPENFILE; lia). rewrite Ef. done.
Defined.

Lemma sys_close_spec_witness :
  wp (sys_close example_tree example_begin example_end 7 1) (fun r s' => r = 0 /\ fds_ok (fun _ => 0) [] s' /\ named s' 1 = None) example_sys.
Proof.
  destruct (sys_close_spec example_tree example_begin example_end (fun _ => 0) 7 example_sys 1 example_fds_ok) as [_ H].
  eapply wp_mono; [apply (H 2 (mkFile FD_PIPE 1 true false 4096 0)); [reflexivity|reflexivity|]|].
  - intros _. vm_compute. exact I.
  - intros r s' (-> & Hok & _ & _ & _ & Hn & _). done.
Defined.

Lemma pipe_fds_roundtrip_witness :
  wp (w ← sys_write example_tree example_begin example_end 7 2 0x1000 4; r ← sys_read example_tree 1 0x1800 16; mret (w, r)) (fun '(w, r) s' =>
    let got := take 16 (contents example_pipe ++ [65; 65; 65; 65]) in
    w = 4 /\ r = Z.of_nat (length got) /\ load (sy_mem s') 0x1800 (length got) = got) example_sys.
Proof.
  eapply wp_mono; [apply (pipe_fds_roundtrip example_tree example_begin example_end (fun _ => 0) example_sys 7 1 2 2 3 4096 example_pipe 0x1000 4 0x1800 16)|].
  - exact example_fds_ok.
  - reflexivity.
  - reflexivity.
  - eexists. split; [reflexivity|]. by split_and!.
  - eexists. split; [reflexivity|]. by split_and!.
  - reflexivity.
  - exact example_pipe_ok.
  - reflexivity.
  - lia.
  - lia.
  - vm_compute. lia.
  - lia.
  - unfold KSPACE_MASK. lia.
  - reflexivity.
  - reflexivity.
  - intros [w r] s' (-> & -> & Hg & _). split_and!; [done|done|exact Hg].
Defined.
