(* ===== verification/FdWorld.v ===== *)
(** The processes of the system and the file table they share: whatever calls
    they make, in whatever order, a descriptor of a process names an open
    file.

    A step is one of the calls of SysFd.v that returns, the part of [fork] that
    copies the open files (src/kernel/proc.c:230), the part of [exit] that
    closes them (src/kernel/proc.c:143), or the process running in user mode. *)
From Stdlib Require Import ZArith Lia.
From stdpp Require Import base numbers gmap list relations.
From S2P Require Import Prelude Bytes Sync FsDefs Console Mem Cache CacheLaws BlockCache Inode InodeLaws Directory Path Pipe UserMem File SysFd.

Record Prc := mkPrc { pr_oft : oftable; pr_secs : list section; pr_mem : Z -> Z }.
Record World (T : Type) := mkWorld { w_fl : FileState T; w_procs : list Prc }.
Arguments mkWorld {T}.
Arguments w_fl {T}.
Arguments w_procs {T}.

Section world.
Context {T : Type} (tree : InodeTree T) (begin_op end_op : Z -> M T unit) (stat_of : Z -> M T stat).
Context (sizeof_stat : Z) (stat_bytes : stat -> list Z -> list Z).
Abbreviation K := (M (Sys T)).
Abbreviation fds s := (openfilelist (sy_oft s)).

(** The loop of [fork] over the descriptors; the result is the table of the
    child. *)
Fixpoint fork_files (n i : nat) (child : oftable) : K oftable :=
  match n with
  | O => mret child
  | S n' =>
      f ← slot (Z.of_nat i);
      if f =? 0 then fork_files n' (S i) child
      else
        g ← on_fl (file_dup f);
        fork_files n' (S i) (mkOftable (<[i := g]> (openfilelist child)) (of_num child))
  end.

(** The loop of [exit]. *)
Fixpoint exit_files (ctx : Z) (n i : nat) : K unit :=
  match n with
  | O => mret tt
  | S n' =>
      f ← slot (Z.of_nat i);
      (if f =? 0 then mret tt
       else on_fl (file_close tree begin_op end_op ctx f) ;; set_slot (Z.of_nat i) 0) ;;
      exit_files ctx n' (S i)
  end.

Inductive fd_call :=
  | Ioctl (fd request : Z)
  | Dup (fd : Z)
  | Read (fd buffer size : Z)
  | Write (ctx fd buffer size : Z)
  | Writev (ctx fd iov iovcnt : Z)
  | Close (ctx fd : Z)
  | Fstat (fd st : Z)
  | Pipe2 (ctx : Z) (junk : Pipe) (pipefd flags : Z).

Definition run_call (c : fd_call) : K Z :=
  match c with
  | Ioctl fd request => sys_ioctl fd request
  | Dup fd => sys_dup fd
  | Read fd buffer size => sys_read tree fd buffer size
  | Write ctx fd buffer size => sys_write tree begin_op end_op ctx fd buffer size
  | Writev ctx fd iov iovcnt => sys_writev tree begin_op end_op ctx fd iov iovcnt
  | Close ctx fd => sys_close tree begin_op end_op ctx fd
  | Fstat fd st => sys_fstat tree stat_of sizeof_stat stat_bytes fd st
  | Pipe2 ctx junk pipefd flags => sys_pipe2 tree begin_op end_op ctx junk pipefd flags
  end.

Definition sys_of (w : World T) (p : Prc) : Sys T := mkSys (w_fl w) (pr_oft p) (pr_secs p) (pr_mem p).
Definition prc_of (s : Sys T) : Prc := mkPrc (sy_oft s) (sy_secs s) (sy_mem s).

Inductive wstep (w : World T) : World T -> Prop :=
  | W_call i p c r s' : w_procs w !! i = Some p -> run_call c (sys_of w p) = Done r s' ->
      wstep w (mkWorld (sy_fl s') (<[i := prc_of s']> (w_procs w)))
  | W_fork i p oft s' secs mem : w_procs w !! i = Some p ->
      fork_files (Z.to_nat NOPENFILE) 0 init_oftable (sys_of w p) = Done oft s' ->
      wstep w (mkWorld (sy_fl s') (w_procs w ++ [mkPrc oft secs mem]))
  | W_exit i p ctx s' : w_procs w !! i = Some p -> exit_files ctx (Z.to_nat NOPENFILE) 0 (sys_of w p) = Done tt s' ->
      wstep w (mkWorld (sy_fl s') (<[i := prc_of s']> (w_procs w)))
  | W_user i p secs mem : w_procs w !! i = Some p ->
      wstep w (mkWorld (w_fl w) (<[i := mkPrc (pr_oft p) secs mem]> (w_procs w))).

(** ** One call *)

Lemma fds_ok_extra others extra extra' (s : Sys T) : fds_ok others extra s -> (forall f, count f extra' <= count f extra) -> fds_ok others extra' s.
Proof. intros [H1 H2 H3 H4 H5] He. split; try done. intros f x Ex. specialize (H3 f x Ex). specialize (He f). lia. Qed.

Lemma wlp_slot others extra fd (Q : Z -> Sys T -> Prop) s : fds_ok others extra s -> (forall f, fds s !! Z.to_nat fd = Some f -> Q f s) -> wlp (slot fd) Q s.
Proof. intros H HQ. apply wlp_bind, wlp_get_state, wlp_deref. exact HQ. Qed.

Lemma wlp_fd2file others extra fd (Q : Z -> Sys T -> Prop) s : fds_ok others extra s -> (forall f, Q f s) -> wlp (fd2file fd) Q s.
Proof. intros H HQ. unfold fd2file. destruct (_ || _); [apply HQ|]. by eapply wlp_slot. Qed.

(** A call of the file layer that keeps the table. *)
Lemma wlp_keep {A} others extra (c : M (FileState T) A) (Q : A -> Sys T -> Prop) s :
  fds_ok others extra s -> wlp c (fun _ b => same_table (sy_fl s) b) (sy_fl s) ->
  (forall a s', fds_ok others extra s' -> sy_oft s' = sy_oft s -> Q a s') -> wlp (on_fl c) Q s.
Proof. intros H Hc HQ. apply wlp_zoom. eapply wlp_mono; [exact Hc|]. intros a b Hb. apply HQ; [|done]. by apply (fds_ok_same others extra s). Qed.

Lemma wlp_put_bytes others extra a bs (Q : unit -> Sys T -> Prop) s :
  fds_ok others extra s -> (forall s', fds_ok others extra s' -> Q tt s') -> wlp (put_bytes a bs) Q s.
Proof. intros H HQ. unfold put_bytes. apply wlp_bind, wlp_get_state. destruct (in_section _ _ _); [|done]. apply wlp_modify, HQ. by destruct H. Qed.

Lemma wlp_file_close others extra ctx f s :
  fds_ok others (f :: extra) s -> wlp (file_close tree begin_op end_op ctx f) (fun _ b => fds_ok others extra (set_fl b s)) (sy_fl s).
Proof.
  intros H. destruct (file_in (sy_fl s) f) as [x|] eqn:Ex.
  2: { unfold file_close. apply wlp_bind, wlp_file_at. intros x. by rewrite Ex. }
  pose proof (fk_refs _ _ _ H f x Ex) as Hr. rewrite count_cons, bool_decide_true in Hr by done. pose proof (fk_others _ _ _ H f). pose proof (count_pos f extra). pose proof (count_pos f (fds s)). cbn in Hr.
  pose proof (file_in_valid _ _ _ Ex) as Hf. unfold wlp. rewrite (file_close_eq tree begin_op end_op ctx _ f x (fk_lock _ _ _ H) Ex ltac:(lia)).
  destruct (decide (fi_type x = FD_NONE)) as [|Ht].
  { apply (fds_ok_extra others (f :: extra)); [by destruct s|]. intros g. rewrite count_cons. unfold one. destruct (bool_decide _); lia. }
  assert (forall b, fl_lock b = false -> fl_files b = <[f := unref x]> (fl_files (sy_fl s)) -> fds_ok others extra (set_fl b s)) as Hb.
  { intros b Hl Eb. apply (fds_ok_unref others extra s _ f x); try done. intros g. rewrite <- (file_in_store (sy_fl s) f _ g Hf). unfold file_in. cbn. by rewrite Eb. }
  cbv zeta. destruct (Z.eqb_spec (fi_ref x) 1) as [E|E].
  - eapply wlp_mono; [apply drop_object_table|]. intros u b [Hk1 Hk2]. apply Hb; [|done]. rewrite Hk1. apply H.
  - apply Hb; [apply H|done].
Qed.

Lemma wlp_sys_close others extra ctx fd s : fds_ok others extra s -> wlp (sys_close tree begin_op end_op ctx fd) (fun _ s' => fds_ok others extra s') s.
Proof.
  intros H. unfold sys_close. destruct (_ || _) eqn:E; [done|]. apply orb_false_iff in E as [E1%Z.ltb_ge E2%Z.leb_gt].
  apply wlp_bind. eapply wlp_slot; [exact H|]. intros f Ef. apply wlp_bind, wlp_modify. apply wlp_bind, wlp_zoom. destruct (Z.eqb_spec f 0) as [->|Hf].
  { unfold file_close. apply wlp_bind, wlp_file_at. intros x Ex. apply file_in_valid in Ex. lia. }
  assert (named s fd = Some f) as En. { unfold named. rewrite bool_decide_true by lia. rewrite Ef. cbn. by rewrite (proj2 (Z.eqb_neq f 0)). }
  eapply wlp_mono; [apply (wlp_file_close others extra ctx f (with_slot (Z.to_nat fd) 0 s)); by apply fds_ok_clear|]. intros u b Hb. exact Hb.
Qed.

Lemma wlp_readable start size (Q : bool -> Sys T -> Prop) s : (forall b, Q b s) -> wlp (readable start size) Q s.
Proof. intros HQ. apply HQ. Qed.
Lemma wlp_writeable start size (Q : bool -> Sys T -> Prop) s : (forall b, Q b s) -> wlp (writeable start size) Q s.
Proof. intros HQ. apply HQ. Qed.
Lemma wlp_bytes_at a n (Q : list Z -> Sys T -> Prop) s : (forall l, Q l s) -> wlp (bytes_at a n) Q s.
Proof. intros HQ. apply HQ. Qed.

Lemma wlp_sys_dup others fd (s : Sys T) : fds_ok others [] s -> wlp (sys_dup fd) (fun _ s' => fds_ok others [] s') s.
Proof. intros H. apply wp_wlp. eapply wp_mono; [by apply (sys_dup_wp others)|]. by intros r s' (? & _). Qed.

Lemma wlp_sys_read others fd buffer size s : fds_ok others [] s -> wlp (sys_read tree fd buffer size) (fun _ s' => fds_ok others [] s') s.
Proof.
  intros H. unfold sys_read. apply wlp_bind. eapply wlp_fd2file; [exact H|]. intros f. destruct (f =? 0), (size <=? 0); try done.
  apply wlp_bind, wlp_writeable. intros []; [|done]. apply wlp_bind, wlp_bytes_at. intros l. apply wlp_bind.
  eapply wlp_keep; [exact H|apply file_read_table|]. intros a s' H' _. apply wlp_bind. eapply wlp_put_bytes; [exact H'|]. done.
Qed.

Lemma wlp_write others ctx f addr n (Q : Z -> Sys T -> Prop) s :
  fds_ok others [] s -> (forall r s', fds_ok others [] s' -> Q r s') -> wlp (on_fl (file_write tree begin_op end_op ctx f addr n)) Q s.
Proof. intros H HQ. eapply wlp_keep; [exact H|apply file_write_table|]. auto. Qed.

Lemma wlp_sys_write others ctx fd buffer size s : fds_ok others [] s -> wlp (sys_write tree begin_op end_op ctx fd buffer size) (fun _ s' => fds_ok others [] s') s.
Proof.
  intros H. unfold sys_write. apply wlp_bind. eapply wlp_fd2file; [exact H|]. intros f. destruct (_ || _); [done|].
  apply wlp_bind, wlp_readable. intros []; [|done]. apply wlp_bind, wlp_bytes_at. intros l. apply wlp_bind. eapply wlp_write; [exact H|]. done.
Qed.

Lemma wlp_writev_loop others fuel ctx f end_ : forall p tot s, fds_ok others [] s -> wlp (writev_loop tree begin_op end_op fuel ctx f p end_ tot) (fun _ s' => fds_ok others [] s') s.
Proof.
  induction fuel as [|fuel IH]; intros p tot s H; [done|]. cbn [writev_loop]. destruct (p <? end_); [|done].
  apply wlp_bind. apply wlp_bind, wlp_bytes_at. intros base. apply wlp_bind, wlp_bytes_at. intros len. apply wlp_ret.
  apply wlp_bind, wlp_readable. intros []; [|done]. apply wlp_bind, wlp_bytes_at. intros l. apply wlp_bind. eapply wlp_write; [exact H|]. intros r s' H'. by apply IH.
Qed.

Lemma wlp_sys_writev others ctx fd iov iovcnt s : fds_ok others [] s -> wlp (sys_writev tree begin_op end_op ctx fd iov iovcnt) (fun _ s' => fds_ok others [] s') s.
Proof.
  intros H. unfold sys_writev. apply wlp_bind. eapply wlp_fd2file; [exact H|]. intros f. destruct (f =? 0), (iovcnt <=? 0); try done.
  apply wlp_bind, wlp_readable. intros []; [|done]. by apply wlp_writev_loop.
Qed.

Lemma wlp_sys_fstat others fd st s : fds_ok others [] s -> wlp (sys_fstat tree stat_of sizeof_stat stat_bytes fd st) (fun _ s' => fds_ok others [] s') s.
Proof.
  intros H. unfold sys_fstat. apply wlp_bind. eapply wlp_fd2file; [exact H|]. intros f. destruct (f =? 0); [done|].
  apply wlp_bind, wlp_writeable. intros []; [|done]. apply wlp_bind. eapply wlp_keep; [exact H|apply file_stat_table|].
  intros [r [x|]] s' H' _; apply wlp_bind; [|done]. apply wlp_bind, wlp_bytes_at. intros l. eapply wlp_put_bytes; [exact H'|]. done.
Qed.

(** *** Pipes *)

Lemma wlp_file_alloc others extra (s : Sys T) :
  fds_ok others extra s -> wlp file_alloc (fun r b => fds_ok others (if r =? 0 then extra else r :: extra) (set_fl b s) /\ (r <> 0 -> r ∉ fds s)) (sy_fl s).
Proof.
  intros H. apply wp_wlp. eapply wp_mono; [apply (file_alloc_first _ (fk_lock _ _ _ H))|].
  intros r b [(x & Hr & Ex & E0 & _ & ->)|(-> & _ & ->)]; [|split; [by destruct s|done]].
  rewrite (proj2 (Z.eqb_neq r 0)) by lia. pose proof (fk_refs _ _ _ H r x Ex) as Hx. destruct H as [H1 H2 H3 H4 H5].
  pose proof (H4 r). pose proof (count_pos r extra). pose proof (count_pos r (fds s)).
  split; [|intros _ Hin%count_elem; lia].
  set (b := set_ftable_lock _ _). assert (forall g, file_in b g = if decide (g = r) then Some (set_fref 1 x) else file_in (sy_fl s) g) as Ho.
  { intros g. rewrite <- (file_in_store (sy_fl s) r _ g Hr). reflexivity. }
  split; try done; cbn [sy_fl sy_oft set_fl].
  - intros f Hf Hin. rewrite Ho. destruct (decide (f = r)) as [->|]; [|by apply H2]. exfalso. destruct Hin as [Hin|?]; [apply count_elem in Hin|]; lia.
  - intros f y. rewrite Ho, count_cons. destruct (decide (f = r)) as [->|Hf].
    + intros [= <-]. rewrite bool_decide_true by done. cbn. lia.
    + intros Ey. specialize (H3 f y Ey). rewrite bool_decide_false by congruence. cbn. lia.
Qed.

Definition is_open (b : FileState T) (f : Z) : Prop := exists x, file_in b f = Some x /\ fi_type x <> FD_NONE.

(** A file of the table becomes an end of a pipe. *)
Lemma fds_ok_pipe others extra s f x y :
  fds_ok others extra s -> file_in (sy_fl s) f = Some x -> fi_ref y = fi_ref x -> fi_type y = FD_PIPE ->
  let b := set_files (<[f := y]> (fl_files (sy_fl s))) (sy_fl s) in
  fds_ok others extra (set_fl b s) /\ is_open b f /\ forall g, is_open (sy_fl s) g -> is_open b g.
Proof.
  intros H Ex Hr Ht b. pose proof (file_in_valid _ _ _ Ex) as Hf. assert (forall g, file_in b g = if decide (g = f) then Some y else file_in (sy_fl s) g) as Ho by (intros g; by apply file_in_store).
  assert (is_open b f) as Hb. { exists y. rewrite Ho, decide_True by done. split; [done|]. by rewrite Ht. }
  split_and!; [|done|].
  - apply (fds_ok_same others extra s); [done| |done]. apply (same_store _ _ x); [done|done|]. by rewrite Ht.
  - intros g (z & Ez & Hz). destruct (decide (g = f)) as [->|Hg]; [done|]. exists z. by rewrite Ho, decide_False.
Qed.

Lemma fds_ok_mem others extra (s : Sys T) pp m : fds_ok others extra s -> fds_ok others extra (set_fl (set_pipes pp (set_kmem m (sy_fl s))) s).
Proof. intros H. by apply (fds_ok_same others extra s); [|apply same_frame|]. Qed.

Lemma wlp_pipe_alloc others ctx junk s :
  fds_ok others [] s ->
  wlp (pipe_alloc tree begin_op end_op ctx junk) (fun '(r, f0, f1) b =>
    if r =? -1 then fds_ok others [] (set_fl b s) else fds_ok others [f1; f0] (set_fl b s) /\ is_open b f0 /\ is_open b f1 /\ f0 ∉ fds s /\ f1 ∉ fds s) (sy_fl s).
Proof.
  intros H. unfold pipe_alloc. apply wlp_bind. eapply wlp_mono; [by apply wlp_file_alloc|]. intros f0 b0 [H0 N0]. destruct (Z.eqb_spec f0 0) as [->|Hf0].
  { exact H0. }
  apply wlp_bind. eapply wlp_mono; [apply (wlp_file_alloc _ _ _ H0)|]. intros f1 b1 [H1 N1]. cbn [orb]. change (set_fl b1 (set_fl b0 s)) with (set_fl b1 s) in H1.
  destruct (Z.eqb_spec f1 0) as [->|Hf1].
  { change (fds_ok others [f0] (set_fl b1 s)) in H1. apply wlp_bind, wlp_ret. cbn [Z.eqb]. apply wlp_bind. eapply wlp_mono; [apply (wlp_file_close _ _ ctx _ _ H1)|]. intros ? b2 H2. apply wlp_bind, wlp_ret, wlp_ret. exact H2. }
  apply wlp_bind, wlp_on_kmem. intros p m. destruct (Z.eqb_spec p 0) as [->|Hp].
  - apply wlp_bind. assert (fds_ok others [f0; f1] (set_fl (set_kmem m b1) s)) as H2.
    { apply (fds_ok_extra others [f1; f0]); [exact (fds_ok_mem _ _ _ (fl_pipes b1) m H1)|]. intros g. rewrite !count_cons. lia. }
    eapply wlp_mono; [apply (wlp_file_close _ _ ctx _ _ H2)|]. intros ? b2 H3. apply wlp_bind. eapply wlp_mono; [apply (wlp_file_close _ _ ctx _ _ H3)|]. intros ? b3 H4. apply wlp_ret. exact H4.
  - apply wlp_bind, wlp_modify. assert (fds_ok others [f1; f0] (set_fl (set_pipes (<[p := init_pipe junk]> (fl_pipes (set_kmem m b1))) (set_kmem m b1)) s)) as H2 by exact (fds_ok_mem _ _ _ _ m H1).
    set (b2 := set_pipes _ _) in H2 |- *. apply wlp_bind. unfold init_read_pipe. apply wlp_bind, wlp_file_at. intros x Ex. apply wlp_modify.
    destruct (fds_ok_pipe others _ _ f0 x (mkFile FD_PIPE (fi_ref x) true false p (fi_off x)) H2 Ex eq_refl eq_refl) as (H3 & O3 & _). cbn [sy_fl set_fl] in H3, O3. set (b3 := set_files _ b2) in H3, O3 |- *.
    apply wlp_bind. unfold init_write_pipe. apply wlp_bind, wlp_file_at. intros y Ey. apply wlp_modify.
    destruct (fds_ok_pipe others _ _ f1 y (mkFile FD_PIPE (fi_ref y) false true p (fi_off y)) H3 Ey eq_refl eq_refl) as (H4 & O4 & O4'). apply wlp_ret. split_and!; [exact H4|by apply O4'|exact O4|by apply N0|by apply N1].
Qed.

(** A file that a call holds gets a descriptor, if there is one. *)
Lemma wlp_fdalloc others extra f s :
  fds_ok others (f :: extra) s -> is_open (sy_fl s) f ->
  wlp (fdalloc f) (fun r s' => sy_fl s' = sy_fl s /\ fds_ok others (if r =? -1 then f :: extra else extra) s') s.
Proof.
  intros H (x & Ex & Ht). apply wp_wlp. eapply wp_mono; [by apply (wp_fdalloc others (f :: extra))|].
  intros r s' [(i & -> & Hi & Ei & _ & ->)|(-> & _ & ->)]; [|done]. split; [done|]. rewrite (proj2 (Z.eqb_neq (Z.of_nat i) (-1))) by lia.
  pose proof (fk_refs _ _ _ H f x Ex) as Hx. rewrite count_cons, bool_decide_true in Hx by done. cbn in Hx.
  apply (fds_ok_fill others (f :: extra) s _ i f x H); try done.
  - apply (fk_lock _ _ _ H).
  - intros g. cbn. destruct (decide (g = f)) as [->|]; done.
  - by eapply file_in_valid.
  - intros g Hg. rewrite count_cons, bool_decide_false by congruence. cbn. lia.
  - lia.
Qed.

Lemma wlp_close_if others extra ctx fd s (Q : unit -> Sys T -> Prop) :
  fds_ok others extra s -> (forall s', fds_ok others extra s' -> Q tt s') ->
  wlp (if negb (fd =? -1) then sys_close tree begin_op end_op ctx fd ;; mret tt else mret tt) Q s.
Proof. intros H HQ. destruct (negb _); [|by apply HQ]. apply wlp_bind. eapply wlp_mono; [by apply (wlp_sys_close others)|]. intros ? s' H'. by apply HQ. Qed.

Lemma wlp_sys_pipe2 others ctx junk pipefd flags s :
  fds_ok others [] s -> wlp (sys_pipe2 tree begin_op end_op ctx junk pipefd flags) (fun _ s' => fds_ok others [] s') s.
Proof.
  intros H. unfold sys_pipe2. apply wlp_bind, wlp_zoom. eapply wlp_mono; [by apply wlp_pipe_alloc|]. intros [[r f0] f1] b Hb. destruct (r =? -1); [exact Hb|]. destruct Hb as (H1 & O0 & O1 & _).
  assert (fds_ok others [f0; f1] (set_fl b s)) as H1' by (apply (fds_ok_extra _ _ _ _ H1); intros g; rewrite !count_cons; lia).
  apply wlp_bind. eapply wlp_mono; [by apply (wlp_fdalloc _ _ _ _ H1')|]. intros fd0 s2 [E2 H2].
  assert (fds_ok others [f1] s2) as H2'. { apply (fds_ok_extra _ _ _ _ H2). intros g. destruct (fd0 =? -1); rewrite ?count_cons; unfold one; repeat destruct (bool_decide _); lia. }
  apply wlp_bind. eapply wlp_mono; [apply (wlp_fdalloc _ _ _ _ H2'); by rewrite E2|]. intros fd1 s3 [_ H3].
  assert (fds_ok others [] s3) as H3'. { apply (fds_ok_extra _ _ _ _ H3). intros g. destruct (fd1 =? -1); [|done]. apply count_pos. }
  destruct (_ || _).
  - apply wlp_bind. apply (wlp_close_if others []); [done|]. intros s4 H4. apply wlp_bind. apply (wlp_close_if others []); done.
  - apply wlp_bind. eapply wlp_put_bytes; [exact H3'|]. intros s4 H4. apply wlp_bind. eapply wlp_put_bytes; [exact H4|]. done.
Qed.

Lemma wlp_run_call others c s : fds_ok others [] s -> wlp (run_call c) (fun _ s' => fds_ok others [] s') s.
Proof.
  intros H. destruct c; cbn [run_call].
  - unfold sys_ioctl, ASSERT. destruct (_ =? _); done.
  - by apply wlp_sys_dup.
  - by apply wlp_sys_read.
  - by apply wlp_sys_write.
  - by apply wlp_sys_writev.
  - by apply wlp_sys_close.
  - by apply wlp_sys_fstat.
  - by apply wlp_sys_pipe2.
Qed.

(** *** Fork and exit *)

Lemma wlp_file_dup others extra f s :
  fds_ok others extra s -> is_open (sy_fl s) f ->
  wlp (file_dup f) (fun r b => r = f /\ fds_ok others (f :: extra) (set_fl b s)) (sy_fl s).
Proof.
  intros H (x & Ex & Ht). apply wp_wlp. eapply wp_mono; [apply (wp_file_dup _ _ _ (fk_lock _ _ _ H) Ex)|]. intros r b (-> & Hl & Ho). split; [done|].
  destruct H as [H1 H2 H3 H4 H5]. split; try done; cbn [sy_fl sy_oft set_fl].
  - intros g Hg Hin. rewrite (Ho g). destruct (decide (g = f)); [by eexists|by apply H2].
  - intros g y. rewrite (Ho g), count_cons. destruct (decide (g = f)) as [->|Hg].
    + intros [= <-]. rewrite bool_decide_true by done. specialize (H3 f x Ex). cbn. lia.
    + intros Ey. rewrite bool_decide_false by congruence. specialize (H3 g y Ey). cbn. lia.
Qed.

(** The child has a descriptor for each reference that was added, and its other
    slots are free. *)
Lemma wlp_fork_files others n : forall i child extra s,
  fds_ok others extra s -> (n + i = Z.to_nat NOPENFILE)%nat -> length (openfilelist child) = Z.to_nat NOPENFILE ->
  (forall f, f <> 0 -> count f (openfilelist child) = count f extra) -> (forall f, f ∈ openfilelist child -> f <> 0 -> f ∈ fds s) ->
  (forall j, (i <= j < Z.to_nat NOPENFILE)%nat -> openfilelist child !! j = Some 0) ->
  wlp (fork_files n i child) (fun c s' => sy_oft s' = sy_oft s /\ length (openfilelist c) = Z.to_nat NOPENFILE /\
    (forall f, f ∈ openfilelist c -> f <> 0 -> f ∈ fds s) /\
    exists extra', fds_ok others extra' s' /\ forall f, f <> 0 -> count f (openfilelist c) = count f extra') s.
Proof.
  induction n as [|n IH]; intros i child extra s H Hi Hl Hc Hin H0; cbn [fork_files].
  { apply wlp_ret. split_and!; try done. by exists extra. }
  apply wlp_bind. eapply wlp_slot; [exact H|]. rewrite Nat2Z.id. intros f Ef. destruct (Z.eqb_spec f 0) as [->|Hf].
  { apply (IH _ _ extra); try done; [lia|]. intros j Hj. apply H0. lia. }
  assert (f ∈ fds s) as Hfs by (by apply list_elem_of_lookup_2 in Ef). apply wlp_bind, wlp_zoom.
  eapply wlp_mono; [apply (wlp_file_dup others extra f s H); apply (fk_open _ _ _ H); [done|by left]|]. intros r b [-> Hb].
  pose proof (H0 i ltac:(lia)) as E0. eapply wlp_mono; [apply (IH _ _ (f :: extra) (set_fl b s) Hb); cbn [openfilelist sy_oft set_fl]|].
  - lia.
  - by rewrite length_insert.
  - intros g Hg. rewrite (count_insert g _ i 0 f E0), count_cons, (bool_decide_false (0 = g)), (Hc g Hg) by congruence. cbn. lia.
  - intros g (j & Ej)%list_elem_of_lookup Hg. apply list_lookup_insert_Some in Ej as [(_ & <- & _)|(_ & Ej)]; [done|]. apply Hin; [|done]. by apply list_elem_of_lookup_2 in Ej.
  - intros j Hj. rewrite list_lookup_insert_ne by lia. apply H0. lia.
  - intros c s' Hs'. exact Hs'.
Qed.

Lemma wlp_exit_files others ctx n : forall i s, fds_ok others [] s -> wlp (exit_files ctx n i) (fun _ s' => fds_ok others [] s') s.
Proof.
  induction n as [|n IH]; intros i s H; cbn [exit_files]; [done|]. apply wlp_bind. eapply wlp_slot; [exact H|]. intros f Ef.
  destruct (Z.eqb_spec f 0) as [->|Hf]; [apply wlp_bind, wlp_ret; by apply IH|]. rewrite Nat2Z.id in Ef.
  assert (named s (Z.of_nat i) = Some f) as En.
  { unfold named. pose proof (lookup_lt_Some _ _ _ Ef) as Hlt. rewrite (fk_len _ _ _ H) in Hlt. rewrite bool_decide_true by (unfold NOPENFILE in *; lia). rewrite Nat2Z.id, Ef. cbn. by rewrite (proj2 (Z.eqb_neq f 0)). }
  apply wlp_bind, wlp_bind, wlp_zoom. eapply wlp_mono; [apply (wlp_file_close others [] ctx f (with_slot (Z.to_nat (Z.of_nat i)) 0 s)); by apply fds_ok_clear|].
  intros u b Hb. apply wlp_modify. apply IH. exact Hb.
Qed.

(** ** All processes *)

(** The number of descriptors of all processes that name [f]. *)
Definition descriptors (f : Z) (ps : list Prc) : Z := foldr Z.add 0 ((fun p => count f (openfilelist (pr_oft p))) <$> ps).

Record world_ok (w : World T) : Prop := {
  wk_lock : fl_lock (w_fl w) = false;
  wk_len : forall p, p ∈ w_procs w -> length (openfilelist (pr_oft p)) = Z.to_nat NOPENFILE;
  wk_open : forall p f, p ∈ w_procs w -> f ∈ openfilelist (pr_oft p) -> f <> 0 -> is_open (w_fl w) f;
  wk_refs : forall f x, file_in (w_fl w) f = Some x -> descriptors f (w_procs w) <= fi_ref x;
}.

Lemma descriptors_cons f p ps : descriptors f (p :: ps) = count f (openfilelist (pr_oft p)) + descriptors f ps.
Proof. done. Qed.
Lemma descriptors_app f ps qs : descriptors f (ps ++ qs) = descriptors f ps + descriptors f qs.
Proof. induction ps as [|p ps IH]; [done|]. cbn [app]. rewrite !descriptors_cons, IH. lia. Qed.
Lemma descriptors_pos f ps : 0 <= descriptors f ps.
Proof. induction ps as [|p ps IH]; [done|]. rewrite descriptors_cons. pose proof (count_pos f (openfilelist (pr_oft p))). lia. Qed.

Lemma descriptors_insert f ps (i : nat) p q : ps !! i = Some p ->
  descriptors f (<[i := q]> ps) = descriptors f ps - count f (openfilelist (pr_oft p)) + count f (openfilelist (pr_oft q)).
Proof.
  intros E. rewrite insert_take_drop by (by eapply lookup_lt_Some). rewrite <- (take_drop_middle ps i p E) at 3. rewrite !descriptors_app, !descriptors_cons. lia.
Qed.

(** A process other than the one at [i] with a descriptor for [f]. *)
Lemma descriptors_elsewhere f ps (i : nat) p : ps !! i = Some p -> 0 < descriptors f ps - count f (openfilelist (pr_oft p)) ->
  exists q, q ∈ ps /\ f ∈ openfilelist (pr_oft q).
Proof.
  intros E. rewrite <- (take_drop_middle ps i p E) at 1. rewrite descriptors_app, descriptors_cons. intros H.
  assert (forall qs, 0 < descriptors f qs -> exists q, q ∈ qs /\ f ∈ openfilelist (pr_oft q)) as Hex.
  { clear. induction qs as [|q qs IH]; [done|]. rewrite descriptors_cons. intros H. destruct (decide (f ∈ openfilelist (pr_oft q))) as [Hin|Hn].
    - exists q. split; [by left|done].
    - destruct IH as (r & Hr & Hf); [|exists r; split; [by right|done]].
      assert (count f (openfilelist (pr_oft q)) = 0); [|lia]. clear -Hn. induction (openfilelist (pr_oft q)) as [|x l IH]; [done|].
      rewrite not_elem_of_cons in Hn. rewrite count_cons, bool_decide_false, (IH (proj2 Hn)) by (destruct Hn; congruence). done. }
  destruct (Z.ltb_spec 0 (descriptors f (take i ps))) as [Hl|Hl].
  - destruct (Hex _ Hl) as (q & Hq & Hf). exists q. split; [|done]. rewrite list_elem_of_lookup in Hq. destruct Hq as (j & Ej). apply lookup_take_Some in Ej as [Ej _]. by apply list_elem_of_lookup_2 in Ej.
  - destruct (Hex (drop (S i) ps)) as (q & Hq & Hf); [lia|]. exists q. split; [|done]. rewrite list_elem_of_lookup in Hq. destruct Hq as (j & Ej). rewrite lookup_drop in Ej. by apply list_elem_of_lookup_2 in Ej.
Qed.

Definition others_of (ps : list Prc) (p : Prc) : Z -> Z := fun f => descriptors f ps - count f (openfilelist (pr_oft p)).

(** What the invariant says of one process. *)
Lemma world_proc w i p : world_ok w -> w_procs w !! i = Some p -> fds_ok (others_of (w_procs w) p) [] (sys_of w p).
Proof.
  intros [W1 W2 W3 W4] E. assert (p ∈ w_procs w) as Hp by (by apply list_elem_of_lookup_2 in E). split; cbn [sys_of sy_fl sy_oft]; try done.
  - by apply W2.
  - intros f Hf [Hin|Ho]; [by apply (W3 p)|]. destruct (descriptors_elsewhere f _ i p E Ho) as (q & Hq & Hin). by apply (W3 q).
  - intros f x Ex. specialize (W4 f x Ex). unfold others_of. change (count f []) with 0. lia.
  - intros f. unfold others_of. rewrite <- (take_drop_middle _ i p E), descriptors_app, descriptors_cons. pose proof (descriptors_pos f (take i (w_procs w))). pose proof (descriptors_pos f (drop (S i) (w_procs w))). lia.
Qed.

(** The process at [i] makes a step that keeps the references of the others. *)
Lemma world_update w i p s' :
  world_ok w -> w_procs w !! i = Some p -> fds_ok (others_of (w_procs w) p) [] s' -> world_ok (mkWorld (sy_fl s') (<[i := prc_of s']> (w_procs w))).
Proof.
  intros [W1 W2 W3 W4] E H. assert (forall q, q ∈ <[i := prc_of s']> (w_procs w) -> q = prc_of s' \/ exists j, j <> i /\ w_procs w !! j = Some q) as Hq.
  { intros q (j & Ej)%list_elem_of_lookup. apply list_lookup_insert_Some in Ej as [(_ & <- & _)|(Hj & Ej)]; [by left|right]. exists j. split; [congruence|done]. }
  split; cbn [w_fl w_procs].
  - apply H.
  - intros q [->|(j & _ & Ej)]%Hq; [apply H|]. apply W2. by apply list_elem_of_lookup_2 in Ej.
  - intros q f [->|(j & Hj & Ej)]%Hq Hf Hn; apply (fk_open _ _ _ H f Hn); [by left|right].
    unfold others_of. pose proof (descriptors_insert f (w_procs w) i p (mkPrc (mkOftable [] 0) [] (fun _ => 0)) E) as Hd. change (count f (openfilelist (pr_oft (mkPrc _ _ _)))) with 0 in Hd.
    assert (<[i := mkPrc (mkOftable [] 0) [] (fun _ => 0)]> (w_procs w) !! j = Some q) as Ej' by (by rewrite list_lookup_insert_ne).
    rewrite <- (take_drop_middle _ j q Ej'), descriptors_app, descriptors_cons in Hd. apply count_elem in Hf.
    pose proof (descriptors_pos f (take j (<[i := mkPrc (mkOftable [] 0) [] (fun _ => 0)]> (w_procs w)))). pose proof (descriptors_pos f (drop (S j) (<[i := mkPrc (mkOftable [] 0) [] (fun _ => 0)]> (w_procs w)))). lia.
  - intros f x Ex. rewrite (descriptors_insert f _ i p _ E). pose proof (fk_refs _ _ _ H f x Ex) as Hx. unfold others_of in Hx. change (count f []) with 0 in Hx. cbn [prc_of pr_oft]. lia.
Qed.

(** The child of a fork. *)
Lemma world_child w i p oft s' secs mem extra :
  world_ok w -> w_procs w !! i = Some p -> sy_oft s' = pr_oft p -> fds_ok (others_of (w_procs w) p) extra s' ->
  length (openfilelist oft) = Z.to_nat NOPENFILE -> (forall f, f ∈ openfilelist oft -> f <> 0 -> f ∈ openfilelist (pr_oft p)) ->
  (forall f, f <> 0 -> count f (openfilelist oft) = count f extra) ->
  world_ok (mkWorld (sy_fl s') (w_procs w ++ [mkPrc oft secs mem])).
Proof.
  intros W E Eo H Hl Hin Hc. assert (fds_ok (others_of (w_procs w) p) [] s') as H' by (apply (fds_ok_extra _ _ _ _ H); intros f; apply count_pos).
  destruct (world_update w i p s' W E H') as [U1 U2 U3 _]. cbn [w_fl w_procs] in U1, U3.
  assert (forall q f, q ∈ w_procs w -> f ∈ openfilelist (pr_oft q) -> f <> 0 -> is_open (sy_fl s') f) as Hopen.
  { intros q f (j & Ej)%list_elem_of_lookup Hf Hn. destruct (decide (j = i)) as [->|Hj].
    - assert (q = p) as -> by congruence. apply (fk_open _ _ _ H' f Hn). left. by rewrite Eo.
    - apply (U3 q f); [|done|done]. apply list_elem_of_lookup. exists j. by rewrite list_lookup_insert_ne. }
  split; cbn [w_fl w_procs].
  - done.
  - intros q [Hq|Hq%list_elem_of_singleton]%elem_of_app; [by apply (wk_len w W)|by subst].
  - intros q f [Hq|Hq%list_elem_of_singleton]%elem_of_app Hf Hn; [by apply (Hopen q)|]. subst. apply (Hopen p f); [by apply list_elem_of_lookup_2 in E| |done]. by apply Hin.
  - intros f x Ex. pose proof (fk_refs _ _ _ H f x Ex) as Hx. unfold others_of in Hx. rewrite Eo in Hx. pose proof (file_in_valid _ _ _ Ex) as Hv.
    rewrite descriptors_app, descriptors_cons. cbn [pr_oft]. rewrite Hc by lia. change (descriptors f []) with 0. lia.
Qed.

Lemma init_oftable_slots : openfilelist init_oftable = replicate (Z.to_nat NOPENFILE) 0.
Proof. reflexivity. Qed.

Lemma wlp_done {A} (c : K A) Q s a s' : wlp c Q s -> c s = Done a s' -> Q a s'.
Proof. intros H E. unfold wlp in H. by rewrite E in H. Qed.

Lemma wlp_fork_all others s n child : fds_ok others [] s -> n = Z.to_nat NOPENFILE -> openfilelist child = replicate n 0 ->
  wlp (fork_files n 0 child) (fun c s' => sy_oft s' = sy_oft s /\ length (openfilelist c) = Z.to_nat NOPENFILE /\
    (forall f, f ∈ openfilelist c -> f <> 0 -> f ∈ fds s) /\
    exists extra', fds_ok others extra' s' /\ forall f, f <> 0 -> count f (openfilelist c) = count f extra') s.
Proof.
  intros H Hn Hc. apply (wlp_fork_files others n 0 child [] s H); rewrite ?Hc.
  - lia.
  - by rewrite length_replicate.
  - intros f Hf. by apply count_free.
  - intros f Hf%elem_of_replicate_inv. done.
  - intros j Hj. apply lookup_replicate_2. lia.
Qed.

Lemma world_step w w' : world_ok w -> wstep w w' -> world_ok w'.
Proof.
  intros W. destruct 1 as [i p c r s' E Hc|i p oft s' secs mem E Hc|i p ctx s' E Hc|i p secs mem E].
  - apply (world_update w i p); [done|done|]. exact (wlp_done _ _ _ _ _ (wlp_run_call _ c _ (world_proc w i p W E)) Hc).
  - destruct (wlp_done _ _ _ _ _ (wlp_fork_all _ _ _ _ (world_proc w i p W E) eq_refl init_oftable_slots) Hc) as (Eo & Hl & Hin & extra & Hok & Hcnt).
    by apply (world_child w i p oft s' secs mem extra).
  - apply (world_update w i p); [done|done|]. exact (wlp_done _ _ _ _ _ (wlp_exit_files _ ctx _ 0 _ (world_proc w i p W E)) Hc).
  - apply (world_update w i p (mkSys (w_fl w) (pr_oft p) secs mem)); [done|done|]. destruct (world_proc w i p W E). by split.
Qed.

(** C13: Whatever the processes of the system do, in whatever order (dup, read,
    write, writev, close, fstat, pipe2 and ioctl with any arguments for which the
    call has a defined behaviour and returns, with success or an error, fork and
    exit), every descriptor of every process names an open file, and each file has
    at least as many references as there are descriptors that name it: no file is
    closed under a descriptor. Not covered, because the code is undefined there:
    close of a descriptor that is not open, which reads through NULL, and the
    buffers that read, fstat and pipe2 accept outside the sections of the process,
    in particular addresses of the kernel, through which they store into it. *)
Theorem descriptors_stay_open w w' :
  world_ok w -> rtc wstep w w' ->
  world_ok w' /\ forall p f, p ∈ w_procs w' -> f ∈ openfilelist (pr_oft p) -> f <> 0 ->
    exists x, file_in (w_fl w') f = Some x /\ fi_type x <> FD_NONE /\ 1 <= descriptors f (w_procs w') <= fi_ref x.
Proof.
  intros W Hs. assert (world_ok w') as W' by (induction Hs; [done|]; by eauto using world_step). split; [done|].
  intros p f Hp Hf Hn. destruct (wk_open _ W' p f Hp Hf Hn) as (x & Ex & Ht). exists x. split_and!; try done; [|by apply (wk_refs _ W')].
  apply list_elem_of_lookup in Hp as (i & Ei). rewrite <- (take_drop_middle _ i p Ei), descriptors_app, descriptors_cons. apply count_elem in Hf.
  pose proof (descriptors_pos f (take i (w_procs w'))). pose proof (descriptors_pos f (drop (S i) (w_procs w'))). lia.
Qed.

(** C38: [pipe2] that finds no free descriptor returns -1 and leaves the two files
    of its pipe in use although no descriptor of the process names them: the
    entries of the file table and the pipe are lost. *)
Theorem pipe2_leaks others ctx junk pipefd flags s f0 f1 b :
  fds_ok others [] s -> 0 ∉ fds s -> pipe_alloc tree begin_op end_op ctx junk (sy_fl s) = Done (0, f0, f1) b ->
  sys_pipe2 tree begin_op end_op ctx junk pipefd flags s = Done FAILED (set_fl b s) /\
  forall f, f = f0 \/ f = f1 -> f ∉ fds s /\ exists x, file_in b f = Some x /\ fi_type x <> FD_NONE /\ 1 <= fi_ref x.
Proof.
  intros H Hfull E. pose proof (wlp_pipe_alloc others ctx junk s H) as Hp. unfold wlp in Hp. rewrite E in Hp. destruct Hp as (H1 & O0 & O1 & N0 & N1).
  assert (forall g (s' : Sys T), sy_oft s' = sy_oft s -> fds_ok others [f1; f0] s' -> fdalloc g s' = Done (-1) s') as Hno.
  { intros g s' Eo Hs'. pose proof (wp_fdalloc others [f1; f0] s' g Hs') as Hw. rewrite wp_done in Hw. destruct Hw as (r & s2 & -> & Hr).
    destruct Hr as [(i & _ & _ & Ei & _)|(-> & _ & ->)]; [|done]. destruct Hfull. rewrite <- Eo. by apply list_elem_of_lookup_2 in Ei. }
  split.
  - unfold sys_pipe2, on_fl, zoom, mbind, M_bind. rewrite E. change (0 =? -1) with false. cbv iota beta. by rewrite !(Hno _ (set_fl b s) eq_refl H1).
  - intros f Hf. assert (f ∉ fds s /\ is_open b f /\ f ∈ [f1; f0]) as (Hn & (x & Ex & Ht) & Hin) by (destruct Hf as [->| ->]; split_and!; try done; [right; left|left]).
    split; [done|]. exists x. split_and!; try done. pose proof (fk_refs _ _ _ H1 f x Ex). pose proof (fk_others _ _ _ H f). pose proof (count_elem f _ Hin). pose proof (count_pos f (fds s)). cbn in *. lia.
Qed.

(** A file that was just allocated has no type yet, and [file_close] ignores
    a file without a type: giving a new file up, as [openat] and [pipe2] do
    when they fail, leaves its entry of the table in use. *)
Theorem new_file_not_closed ctx (a b : FileState T) f :
  fl_lock a = false -> file_alloc a = Done f b -> f <> 0 -> (forall x, file_in a f = Some x -> fi_ref x = 0 -> fi_type x = FD_NONE) ->
  file_close tree begin_op end_op ctx f b = Done tt b /\ exists x, file_in b f = Some x /\ fi_ref x = 1.
Proof.
  intros Hl E Hf Ht. pose proof (file_alloc_first a Hl) as Hw. unfold wp in Hw. rewrite E in Hw.
  destruct Hw as [(x & Hr & Ex & E0 & _ & ->)|(-> & _)]; [|done]. set (b := set_ftable_lock _ _).
  assert (file_in b f = Some (set_fref 1 x)) as Eb. { pose proof (file_in_store a f (set_fref 1 x) f Hr) as Es. rewrite decide_True in Es by done. exact Es. }
  split; [|by exists (set_fref 1 x)]. rewrite (file_close_eq tree begin_op end_op ctx b f (set_fref 1 x)); [|done|done|cbn; lia].
  cbn [fi_type set_fref]. by rewrite decide_True by (by apply Ht).
Qed.
End world.

(** ** Concrete instances *)

Definition example_world : World (FsState CacheState) :=
  mkWorld example_file_state [mkPrc example_oft [example_section] (fun _ => 65)].
Definition example_stat (p : Z) : M (FsState CacheState) stat := stati p.
Abbreviation example_step := (wstep example_tree example_begin example_end example_stat 128 (fun _ l => l)).

Lemma example_world_ok : world_ok example_world.
Proof.
  pose proof example_fds_ok as [H1 H2 H3 H4 H5]. split; cbn [example_world w_fl w_procs].
  - exact H5.
  - intros p ->%list_elem_of_singleton. exact H1.
  - intros p f ->%list_elem_of_singleton Hf Hn. apply (H2 f Hn). by left.
  - intros f x Ex. specialize (H3 f x Ex). rewrite descriptors_cons. change (descriptors f []) with 0. change (count f []) with 0 in H3. cbn [example_sys sy_oft] in H3. cbn [pr_oft]. lia.
Qed.

Lemma descriptors_stay_open_witness : exists w', rtc example_step example_world w' /\ world_ok w' /\ length (w_procs w') = 1%nat.
Proof.
  pose proof (sys_dup_wp (fun _ => 0) example_sys 0 example_fds_ok) as H. rewrite wp_done in H. destruct H as (r & s' & E & _).
  set (w' := mkWorld (sy_fl s') (<[0%nat := prc_of s']> (w_procs example_world))).
  assert (rtc example_step example_world w') as Hs.
  { apply rtc_once. eapply (W_call _ _ _ _ _ _ _ 0 _ (Dup 0)); [reflexivity|exact E]. }
  exists w'. split; [exact Hs|]. split; [|done]. apply (descriptors_stay_open _ _ _ _ _ _ _ _ example_world_ok Hs).
Defined.

(** All descriptors name the file of the disk. *)
Definition example_full : Sys (FsState CacheState) :=
  mkSys (set_files {[1 := mkFile FD_INODE 128 true false 1 0]} example_file_state) (mkOftable (replicate 128 1) 0) [] (fun _ => 0).

Lemma example_full_ok : fds_ok (fun _ => 0) [] example_full.
Proof.
  split; cbn [example_full sy_oft sy_fl openfilelist]; try done.
  - intros f Hf [Hin%elem_of_replicate_inv|?]; [|lia]. subst. eexists. split; [reflexivity|done].
  - intros f x Ex. change (count f []) with 0. destruct (decide (f = 1)) as [->|H1]; [injection Ex as <-; vm_compute; discriminate|].
    assert (count f (replicate 128 1) = 0) as ->. { clear -H1. generalize 128%nat. intros n. induction n as [|n IH]; [done|]. cbn [replicate]. rewrite count_cons, bool_decide_false by congruence. done. }
    unfold file_in in Ex. cbn [fl_files set_files] in Ex. rewrite lookup_singleton_ne in Ex by congruence. destruct (_ && _); [|done]. by injection Ex as <-.
Qed.

Definition example_pipe_files : FileState (FsState CacheState) :=
  match pipe_alloc example_tree example_begin example_end 7 example_pipe (sy_fl example_full) with Done _ b => b | _ => sy_fl example_full end.

Lemma pipe2_leaks_witness :
  sys_pipe2 example_tree example_begin example_end 7 example_pipe 0 0 example_full = Done FAILED (set_fl example_pipe_files example_full) /\
  exists x, file_in example_pipe_files 2 = Some x /\ fi_type x <> FD_NONE /\ 1 <= fi_ref x.
Proof.
  destruct (pipe2_leaks example_tree example_begin example_end (fun _ => 0) 7 example_pipe 0 0 example_full 2 3 example_pipe_files example_full_ok) as [E H].
  - intros Hin%elem_of_replicate_inv. done.
  - vm_compute. reflexivity.
  - split; [exact E|]. apply (H 2). by left.
Defined.

Definition example_alloc : FileState (FsState CacheState) :=
  match file_alloc example_file_state with Done _ b => b | _ => example_file_state end.

Lemma new_file_not_closed_witness :
  file_close example_tree example_begin example_end 7 4 example_alloc = Done tt example_alloc /\ exists x, file_in example_alloc 4 = Some x /\ fi_ref x = 1.
Proof.
  apply (new_file_not_closed example_tree example_begin example_end 7 example_file_state example_alloc 4).
  - reflexivity.
  - vm_compute. reflexivity.
  - lia.
  - intros x Ex _. by injection Ex as <-.
Defined.
