(* ===== verification/SysPath.v ===== *)
(** System calls on paths (src/kernel/sysfile.c: newfstatat, [isdirempty],
    unlinkat, [create], openat, mkdirat, mknodat, chdir).

    The string at a user address is the list of its characters up to the NUL;
    [user_strlen] has found the NUL before it is used. A local array holds
    what is given as an argument before it is set. *)
From Stdlib Require Import ZArith Lia.
From stdpp Require Import base numbers gmap sets list.
From S2P Require Import Prelude Bytes Bitmap Sync FsDefs Console CString Mem Cache CacheLaws LogLaws.
From S2P Require Import Crash Reserve Transactions BlockCache Inode InodeLaws InodeWrite InodeProps InodePut Directory Path Pipe UserMem File SysFd.

(** Constants of <fcntl.h> and the macros of <sys/sysmacros.h>. *)
Definition AT_FDCWD : Z := -100.
Definition O_WRONLY : Z := 1.
Definition O_RDWR : Z := 2.
Definition O_CREAT : Z := 0x40.
Definition major (dev : Z) : Z := u32 (Z.lor (Z.land (Z.shiftr dev 32) 0xfffff000) (Z.land (Z.shiftr dev 8) 0xfff)).
Definition minor (dev : Z) : Z := u32 (Z.lor (Z.land (Z.shiftr dev 12) 0xffffff00) (Z.land dev 0xff)).

(** The strings of the source. *)
Definition dot : list Z := [46; 0].
Definition dotdot : list Z := [46; 46; 0].
Definition console_name : list Z := [99; 111; 110; 115; 111; 108; 101; 0].

(** Fields of [entry]. *)
Definition set_major (v : Z) (e : InodeEntry) : InodeEntry :=
  mkInodeEntry (ie_type e) v (ie_minor e) (ie_num_links e) (ie_num_bytes e) (ie_addrs e) (ie_indirect e).
Definition set_minor (v : Z) (e : InodeEntry) : InodeEntry :=
  mkInodeEntry (ie_type e) (ie_major e) v (ie_num_links e) (ie_num_bytes e) (ie_addrs e) (ie_indirect e).
Definition set_num_links (v : Z) (e : InodeEntry) : InodeEntry :=
  mkInodeEntry (ie_type e) (ie_major e) (ie_minor e) v (ie_num_bytes e) (ie_addrs e) (ie_indirect e).

Definition set_cwd {S} (v : Z) (s : FsState S) : FsState S :=
  mkFs (f_cache s) (f_lock s) (f_ring s) (f_heap s) (f_next s) (f_root s) v (f_console s).

Section inodes.
Context {S : Type} (sblock : SuperBlock) (cache : BlockCache S) (stack : list Z).
Abbreviation F := (M (FsState S)).

(** The loop of [isdirempty] from [off]; [de] is the local entry. *)
Fixpoint empty_from (fuel : nat) (dp off : Z) (de : list Z) : F Z :=
  i ← inode_at dp;
  if off <? ie_num_bytes (i_entry i) then
    match fuel with
    | O => undefined
    | Datatypes.S fuel' =>
        r ← inode_read sblock cache dp de off dsize;
        if negb (r.1 =? dsize) then PANIC
        else if negb (de_inode_no (decode_dirent r.2) =? 0) then mret 0
        else empty_from fuel' dp (off + dsize) r.2
    end
  else mret 1.

Definition isdirempty (dp : Z) : F Z :=
  i ← inode_at dp; empty_from (Z.to_nat (ie_num_bytes (i_entry i))) dp (2 * dsize) stack.

(** [unlinkat] between the start and the end of the operation; [name] is the
    local array. *)
Definition unlink (ctx : Z) (path name : list Z) : F Z :=
  '(dp, name) ← nameiparent sblock cache stack path name ctx;
  if dp =? NULL then mret FAILED
  else
    inode_lock dp ;;
    let bad := inode_unlock dp ;; inode_put sblock cache ctx dp ;; mret FAILED in
    c1 ← deref (strncmp name dot (Z.to_nat FILE_NAME_MAX_LENGTH));
    c2 ← deref (if c1 =? 0 then Some 0 else strncmp name dotdot (Z.to_nat FILE_NAME_MAX_LENGTH));
    if (c1 =? 0) || (c2 =? 0) then bad
    else
      found ← inode_lookup sblock cache stack dp name;
      if found.1 =? 0 then bad
      else
        ip ← inode_get sblock cache found.1;
        inode_lock ip ;;
        i ← inode_at ip;
        if ie_num_links (i_entry i) <? 1 then PANIC
        else
          empty ← (if ie_type (i_entry i) =? INODE_DIRECTORY then isdirempty ip else mret 1);
          if empty =? 0 then inode_unlock ip ;; inode_put sblock cache ctx ip ;; bad
          else
            off ← deref found.2;
            w ← inode_write sblock cache ctx dp (replicate (Z.to_nat dsize) 0) off dsize;
            if negb (w =? dsize) then PANIC
            else
              (if ie_type (i_entry i) =? INODE_DIRECTORY then
                 update_entry dp (fun e => set_num_links (u16 (ie_num_links e - 1)) e) ;;
                 inode_sync sblock cache ctx dp true
               else mret tt) ;;
              inode_unlock dp ;;
              inode_put sblock cache ctx dp ;;
              update_entry ip (fun e => set_num_links (u16 (ie_num_links e - 1)) e) ;;
              inode_sync sblock cache ctx ip true ;;
              inode_unlock ip ;;
              inode_put sblock cache ctx ip ;;
              mret 0.

(** The part of [create] for a name that is not there. *)
Definition create_new (ctx parent_dir : Z) (filename : list Z) (type major minor : Z) : F Z :=
  n ← inode_alloc sblock cache ctx type;
  current_inode ← inode_get sblock cache n;
  if current_inode =? NULL then mret NULL
  else
    inode_lock current_inode ;;
    update_entry current_inode (fun e => set_num_links 1 (set_minor (u16 minor) (set_major (u16 major) e))) ;;
    inode_sync sblock cache ctx current_inode true ;;
    i ← inode_at current_inode;
    (if type =? INODE_DIRECTORY then
       d ← inode_at parent_dir;
       ret1 ← inode_insert sblock cache stack ctx current_inode dot (i_inode_no i);
       ret2 ← inode_insert sblock cache stack ctx current_inode dotdot (i_inode_no d);
       ASSERT (negb (ret1 =? MINUS_ONE) && negb (ret2 =? MINUS_ONE)) ;;
       update_entry parent_dir (fun e => set_num_links (u16 (ie_num_links e + 1)) e) ;;
       inode_sync sblock cache ctx parent_dir true
     else mret tt) ;;
    ret ← inode_insert sblock cache stack ctx parent_dir filename (i_inode_no i);
    ASSERT (negb (ret =? MINUS_ONE)) ;;
    inode_unlock parent_dir ;;
    inode_put sblock cache ctx parent_dir ;;
    mret current_inode.

Definition create (path : list Z) (type major minor ctx : Z) : F Z :=
  '(parent_dir, filename) ← nameiparent sblock cache stack path (replicate (Z.to_nat FILE_NAME_MAX_LENGTH) 0) ctx;
  if parent_dir =? NULL then mret NULL
  else
    inode_lock parent_dir ;;
    found ← inode_lookup sblock cache stack parent_dir filename;
    let inode_no := u32 found.1 in
    if negb (inode_no =? 0) then
      current_inode ← inode_get sblock cache inode_no;
      inode_lock current_inode ;;
      inode_unlock parent_dir ;;
      inode_put sblock cache ctx parent_dir ;;
      mret current_inode
    else create_new ctx parent_dir filename type major minor.
End inodes.

Section calls.
Context {S : Type} (sblock : SuperBlock) (cache : BlockCache S) (stack locals : list Z).
Context (sizeof_stat : Z) (stat_bytes : stat -> list Z -> list Z).
Abbreviation K := (M (Sys (FsState S))).

Definition on_inodes {A} (c : M (FsState S) A) : K A := on_fl (on_fs c).
Definition begin_op (ctx : Z) : K unit := on_inodes (on_cache (bc_begin_op cache ctx)).
Definition end_op (ctx : Z) : K unit := on_inodes (on_cache (bc_end_op cache ctx)).

(** [user_strlen(path, 256)] and the string. *)
Definition path_at (path : Z) : K (Z * list Z) :=
  s ← get_state;
  let n := user_strlen (sy_secs s) (sy_mem s) path 256 in
  mret (n, load (sy_mem s) path (Z.to_nat (n - 1))).

Definition sys_newfstatat (ctx dirfd path st flags : Z) : K Z :=
  '(n, str) ← path_at path;
  if n =? 0 then mret FAILED
  else
    ok ← writeable st sizeof_stat;
    if negb ok then mret FAILED
    else if negb (dirfd =? AT_FDCWD) then mret FAILED
    else if negb (flags =? 0) then mret FAILED
    else
      begin_op ctx ;;
      ip ← on_inodes (namei sblock cache stack str ctx locals);
      if ip =? NULL then end_op ctx ;; mret FAILED
      else
        on_inodes (inode_lock ip) ;;
        x ← on_inodes (stati ip);
        old ← bytes_at st (Z.to_nat sizeof_stat);
        put_bytes st (stat_bytes x old) ;;
        on_inodes (inode_unlock ip) ;;
        on_inodes (inode_put sblock cache ctx ip) ;;
        end_op ctx ;;
        mret 0.

Definition sys_unlinkat (ctx fd path flag : Z) : K Z :=
  ASSERT ((fd =? AT_FDCWD) && (flag =? 0)) ;;
  '(n, str) ← path_at path;
  if n =? 0 then mret FAILED
  else
    begin_op ctx ;;
    r ← on_inodes (unlink sblock cache stack ctx str locals);
    end_op ctx ;;
    mret r.

(** [ctx'] is the local [OpContext] of [file_close]. *)
Definition sys_openat (ctx ctx' dirfd path omode : Z) : K Z :=
  '(n, str) ← path_at path;
  if n =? 0 then mret FAILED
  else if negb (dirfd =? AT_FDCWD) then mret FAILED
  else
    begin_op ctx ;;
    ip ← (if flag omode O_CREAT then on_inodes (create sblock cache stack str INODE_REGULAR 0 0 ctx)
          else
            ip ← on_inodes (namei sblock cache stack str ctx locals);
            if ip =? NULL then mret NULL else on_inodes (inode_lock ip) ;; mret ip);
    if ip =? NULL then end_op ctx ;; mret FAILED
    else
      f ← on_fl file_alloc;
      fd ← (if f =? 0 then mret (-1) else fdalloc f);
      if (f =? 0) || (fd <? 0) then
        (if negb (f =? 0) then
           on_fl (file_close (inodes sblock cache stack) (fun c => on_cache (bc_begin_op cache c)) (fun c => on_cache (bc_end_op cache c)) ctx' f)
         else mret tt) ;;
        on_inodes (inode_unlock ip) ;;
        on_inodes (inode_put sblock cache ctx ip) ;;
        end_op ctx ;;
        mret FAILED
      else
        on_inodes (inode_unlock ip) ;;
        end_op ctx ;;
        x ← on_fl (file_at f);
        on_fl (store_file f (mkFile FD_INODE (fi_ref x) (negb (flag omode O_WRONLY))
                               (flag omode O_WRONLY || flag omode O_RDWR) ip 0)) ;;
        mret (u64 fd).

(** The end of mkdirat and mknodat. *)
Definition make (ctx : Z) (str : list Z) (type ma mi : Z) : K Z :=
  begin_op ctx ;;
  ip ← on_inodes (create sblock cache stack str type ma mi ctx);
  if ip =? NULL then end_op ctx ;; mret FAILED
  else
    on_inodes (inode_unlock ip) ;;
    on_inodes (inode_put sblock cache ctx ip) ;;
    end_op ctx ;;
    mret 0.

Definition sys_mkdirat (ctx dirfd path mode : Z) : K Z :=
  '(n, str) ← path_at path;
  if n =? 0 then mret FAILED
  else if negb (dirfd =? AT_FDCWD) then mret FAILED
  else if negb (mode =? 0) then mret FAILED
  else make ctx str INODE_DIRECTORY 0 0.

Definition sys_mknodat (ctx dirfd path mode dev : Z) : K Z :=
  '(n, str) ← path_at path;
  if n =? 0 then mret FAILED
  else if negb (dirfd =? AT_FDCWD) then mret FAILED
  else
    c ← deref (strncmp (str ++ [0]) console_name 7);
    make ctx str INODE_DEVICE (if c =? 0 then 1 else major dev) (minor dev).

(** [path] is not checked: it is the string at the address. *)
Definition sys_chdir (ctx : Z) (path : list Z) : K Z :=
  begin_op ctx ;;
  ip ← on_inodes (namei sblock cache stack path ctx locals);
  if ip =? NULL then end_op ctx ;; mret FAILED
  else
    on_inodes (inode_lock ip) ;;
    i ← on_inodes (inode_at ip);
    if negb (ie_type (i_entry i) =? INODE_DIRECTORY) then
      on_inodes (inode_unlock ip) ;;
      on_inodes (inode_put sblock cache ctx ip) ;;
      end_op ctx ;;
      mret FAILED
    else
      on_inodes (inode_unlock ip) ;;
      cwd ← on_inodes (gets f_cwd);
      on_inodes (inode_put sblock cache ctx cwd) ;;
      end_op ctx ;;
      on_inodes (modify (set_cwd ip)) ;;
      mret 0.
End calls.
