(* ===== verification/Create.v ===== *)
(** Creating files ([create], [isdirempty] of src/kernel/sysfile.c).

    [steady] is [coherent] of Path.v with any set of locked inodes. *)
From Stdlib Require Import ZArith Lia.
From stdpp Require Import base numbers gmap sets list.
From S2P Require Import Prelude Bytes Bitmap Sync FsDefs Console CString Mem Cache CacheLaws LogLaws.
From S2P Require Import Crash Reserve Transactions BlockCache Inode InodeLaws InodeWrite InodeProps InodePut Directory Path Pipe UserMem File SysFd SysPath.

Section create.
Context {S : Type} (sblock : SuperBlock) (cache : BlockCache S) (stack : list Z) `{!BlockCacheSpec sblock cache}.
Context (Hlayout : layout_ok sblock cache) (Hstack : length stack = 16%nat).
Abbreviation vol := (InodeLaws.vol sblock cache).
Abbreviation disk_entry := (InodeLaws.disk_entry sblock).
Abbreviation recached := (InodeLaws.recached sblock cache).
Abbreviation inode_number := (Path.inode_number sblock).
Abbreviation coherent := (Path.coherent sblock cache).
Abbreviation inode_block := (to_block_no sblock).

(** ** Files under a change of one inode on disk *)

Section entry_written.
Context (ctx n : Z) (e0 : InodeEntry) (v v' : Volume) (e : InodeEntry).
Hypothesis (Hn : inode_range sblock n) (W : entry_written sblock ctx n e0 v v') (B : blocks_ok sblock cache v e).

Lemma ew_data b : data_block sblock cache v b -> v_block v' b = v_block v b.
Proof using All. intros [Ho _]. apply W. by apply Ho. Qed.

Lemma ew_bitmap : v_block v' (sb_bitmap_start sblock) = v_block v (sb_bitmap_start sblock).
Proof using All. apply W. intros E. by apply (lo_apart _ _ Hlayout n Hn). Qed.

Lemma ew_block_of k : block_of v' e k = block_of v e k.
Proof using All.
  unfold block_of. destruct (k <? INODE_NUM_DIRECT); [done|]. destruct (Z.eqb_spec (ie_indirect e) 0) as [|Hi]; [done|].
  rewrite ew_data; [done|]. by apply (bo_indirect _ _ _ _ B).
Qed.

Lemma ew_byte_of o : 0 <= o / BLOCK_SIZE < INODE_MAX_BLOCKS -> block_of v e (o / BLOCK_SIZE) <> 0 -> byte_of v' e o = byte_of v e o.
Proof using All. intros Ho Hb. unfold byte_of. rewrite ew_block_of, ew_data; [done|]. by apply (bo_data _ _ _ _ B). Qed.

Lemma ew_blocks_ok : (forall b, is_block (v_block v' b)) -> blocks_ok sblock cache v' e.
Proof using All.
  intros Hv'. pose proof ew_bitmap as Eb. pose proof B as [B0 B1 B2 B3 B4 B5].
  assert (forall b, data_block sblock cache v b -> data_block sblock cache v' b) as Hd by (intros b [? Hu]; split; [done|]; unfold in_use; by rewrite Eb).
  split.
  - done.
  - done.
  - intros k Hk. rewrite ew_block_of. intros Hb. by apply Hd, B2.
  - intros k k' Hk Hk'. rewrite !ew_block_of. by apply B3.
  - intros Hi. destruct (B4 Hi) as [? Hk]. split; [by apply Hd|]. intros k. rewrite ew_block_of. apply Hk.
  - intros b Hb. unfold is_free. rewrite Eb. by apply B5.
Qed.

Hypothesis D : dir_ok sblock cache v e.

Lemma ew_in_file o : 0 <= o < ie_num_bytes e -> byte_of v' e o = byte_of v e o.
Proof using All.
  intros Ho. destruct D as [[_ Hsz Hb _] _ _]. change INODE_MAX_BYTES with (140 * 512) in Hsz. unfold BLOCK_SIZE in *.
  pose proof (Z.div_mod o 512 ltac:(lia)). pose proof (Z.mod_pos_bound o 512 ltac:(lia)).
  apply ew_byte_of; unfold BLOCK_SIZE; [change INODE_MAX_BLOCKS with 140; split; [apply Z.div_pos|apply Z.div_lt_upper_bound]; lia|].
  apply Hb; [apply Z.div_pos; lia|lia].
Qed.

Lemma ew_dirent off : 0 <= off -> off + 16 <= ie_num_bytes e -> dirent v' e off = dirent v e off.
Proof using All.
  intros H0 H1. unfold dirent. f_equal. unfold file_bytes. apply list_fmap_ext. intros i k Hk. apply lookup_seq in Hk as [-> Hi]. apply ew_in_file. lia.
Qed.

Lemma ew_dir_ok : dir_ok sblock cache v' e.
Proof using All.
  destruct D as [[M0 M1 M2 M3] D2 D3]. split; [|done|done]. split; [done|done| |done]. intros k. rewrite ew_block_of. apply M2.
Qed.

Lemma dir_offset off : off ∈ offsets 0 (Z.to_nat (ie_num_bytes e / 16)) -> 0 <= off /\ off + 16 <= ie_num_bytes e.
Proof using All. intros (j & Hj & ->)%elem_of_offsets. pose proof (dir_count sblock cache v e D). lia. Qed.

Lemma ew_dir_lookup name : dir_lookup v' e name = dir_lookup v e name.
Proof using All.
  unfold dir_lookup. rewrite (find_ext _ (matches v e name)).
  - destruct (List.find _ _) as [off|] eqn:Ef; [|done]. apply List.find_some in Ef as [Hin _]. apply list_elem_of_In, dir_offset in Hin as [? ?].
    cbn [fmap option_fmap option_map]. by rewrite ew_dirent.
  - intros off Hin. apply dir_offset in Hin as [? ?]. unfold matches. by rewrite ew_dirent.
Qed.

Lemma ew_slot : Directory.slot v' e = Directory.slot v e.
Proof using All.
  unfold Directory.slot. f_equal. apply find_ext. intros off Hin. apply dir_offset in Hin as [? ?]. unfold free_at. by rewrite ew_dirent.
Qed.
End entry_written.

(** ** In-memory inodes with any of them locked *)

Record steady (v : Volume) (refs : Z -> Z) (lk : Z -> bool) (s : FsState S) : Prop := {
  sd_ring : ring_ok s;
  sd_ok : bc_ok (f_cache s);
  sd_vol : v_same v (vol s);
  sd_lock : f_lock s = false;
  sd_heap : forall p i, f_heap s !! p = Some i ->
    p ∈ f_ring s /\ inode_number (i_inode_no i) /\
    i = mkInode (Sem.mkSem (if lk p then 0 else 1) []) (refs p) (i_inode_no i) true (disk_entry v (i_inode_no i));
  sd_refs : forall p, refs p <> 0 -> is_Some (f_heap s !! p);
  sd_live : forall p i, f_heap s !! p = Some i -> ie_type (disk_entry v (i_inode_no i)) <> INODE_INVALID;
}.

Lemma coherent_steady v refs locked s : coherent v refs locked s <-> steady v refs (fun p => p =? locked) s.
Proof. split; intros [H1 H2 H3 H4 H5 H6 H7]; by split. Qed.

Lemma steady_ext v refs refs' lk lk' s : (forall p, refs' p = refs p) -> (forall p, 0 < p -> lk' p = lk p) -> steady v refs lk s -> steady v refs' lk' s.
Proof.
  intros Er El [[R1 R2 R3 R4 R5] H2 H3 H4 H5 H6 H7]. split; try done; [|intros p; rewrite Er; apply H6].
  intros p i Ei. rewrite Er, El by (apply (R2 p); eauto). by apply H5.
Qed.

Definition upd (p : Z) (b : bool) (lk : Z -> bool) : Z -> bool := fun q => if q =? p then b else lk q.
Abbreviation found_inode := (Path.found_inode (S := S)).

Lemma steady_inode v refs lk s p i :
  steady v refs lk s -> f_heap s !! p = Some i ->
  0 < p /\ inode_number (i_inode_no i) /\ i_lock i = Sem.mkSem (if lk p then 0 else 1) [] /\
  i_rc i = refs p /\ i_valid i = true /\ i_entry i = disk_entry v (i_inode_no i) /\ 0 <= refs p.
Proof.
  intros H Ei. destruct (sd_heap _ _ _ _ H p i Ei) as (_ & Hn & E).
  pose proof (rg_next _ (sd_ring _ _ _ _ H) p (mk_is_Some _ _ Ei)). pose proof (rg_rc _ (sd_ring _ _ _ _ H) p i Ei).
  destruct i as [l rc n vld e]; simpl in *. injection E as -> -> -> ->. split_and!; try done; lia.
Qed.

(** One inode changes, in memory and on disk. *)
Lemma steady_change v refs lk v' refs' (lk' : Z -> bool) s s' p i i' :
  steady v refs lk s -> f_heap s !! p = Some i ->
  recached (set_heap (<[p := i']> (f_heap s)) s) s' -> v_same v' (vol s') ->
  (forall m, inode_number m -> m <> i_inode_no i -> disk_entry v' m = disk_entry v m) -> ie_type (disk_entry v' (i_inode_no i)) <> INODE_INVALID ->
  i' = mkInode (Sem.mkSem (if lk' p then 0 else 1) []) (refs' p) (i_inode_no i) true (disk_entry v' (i_inode_no i)) ->
  0 <= refs' p -> (forall q, q <> p -> refs' q = refs q) -> (forall q, q <> p -> lk' q = lk q) ->
  steady v' refs' lk' s' /\ forall q m, found_inode s q m -> found_inode s' q m.
Proof.
  intros [[R1 R2 R3 R4 R5] C2 C3 C4 C5 C6 C7] Ei (x & -> & Hx) Hv Hd Ht Ei' Hr Ho Hl. destruct (C5 p i Ei) as (Hin & Hn & _).
  assert (i_inode_no i' = i_inode_no i) as En by (by rewrite Ei').
  assert (forall q j, <[p := i']> (f_heap s) !! q = Some j -> exists j0, f_heap s !! q = Some j0 /\ i_inode_no j = i_inode_no j0) as Hback.
  { intros q j Hj. apply lookup_insert_Some in Hj as [[<- <-]|[_ Hj]]; eauto. }
  split.
  - split; cbn [set_fcache set_heap f_ring f_heap f_next f_lock f_cache]; try done.
    + split; cbn [set_fcache set_heap f_ring f_heap f_next]; try done.
      * intros q Hq. destruct (decide (q = p)) as [->|]; [rewrite lookup_insert_eq; eauto|]. rewrite lookup_insert_ne by done. by apply R1.
      * intros q [j Hj]. destruct (Hback q j Hj) as (j0 & Hj0 & _). apply R2. eauto.
      * intros q1 q2 j1 j2 H1 H2 L1 L2 E. destruct (Hback _ _ L1) as (k1 & K1 & E1). destruct (Hback _ _ L2) as (k2 & K2 & E2). eapply R3; eauto. congruence.
      * intros q j Hj. apply lookup_insert_Some in Hj as [[_ <-]|[_ Hj]]; [by rewrite Ei'|by eapply R4].
    + intros q j Hj. apply lookup_insert_Some in Hj as [[<- <-]|[Hne Hj]].
      * rewrite En. by split_and!.
      * destruct (C5 q j Hj) as (? & ? & Ej). rewrite Ho, Hl, Hd by (done || (intros Eq; destruct Hne; symmetry; by eapply R3)). by split_and!.
    + intros q Hq. destruct (decide (q = p)) as [->|Hne]; [rewrite lookup_insert_eq; eauto|]. rewrite lookup_insert_ne by done. apply C6. by rewrite <- Ho.
    + intros q j Hj. apply lookup_insert_Some in Hj as [[<- <-]|[Hne Hj]]; [by rewrite En|]. destruct (C5 q j Hj) as (? & ? & _). rewrite Hd; [by apply (C7 q)|done|]. intros Eq. destruct Hne. symmetry. by eapply R3.
  - intros q m (j & Ej & Em). unfold Path.found_inode. cbn [set_fcache set_heap f_heap]. destruct (decide (q = p)) as [->|Hne].
    + exists i'. rewrite lookup_insert_eq. split; [done|]. congruence.
    + exists j. by rewrite lookup_insert_ne.
Qed.

Lemma vol_heap h (s : FsState S) : vol (set_heap h s) = vol s.
Proof. done. Qed.

Lemma recached_self s : bc_ok (f_cache s) -> recached s s.
Proof. intros H. exists (f_cache s). split; [by destruct s|done]. Qed.

Lemma wp_steady_lock v refs lk s p n :
  steady v refs lk s -> found_inode s p n -> 0 < refs p -> lk p = false ->
  wp (inode_lock p) (fun _ s' => steady v refs (upd p true lk) s' /\ forall q m, found_inode s q m -> found_inode s' q m) s.
Proof.
  intros H (i & Ei & En) Hr Hl. destruct (steady_inode _ _ _ _ _ _ H Ei) as (Hp & _ & El & Erc & Ev & Ee & _). rewrite Hl in El.
  eapply wp_mono; [eapply (wp_inode_lock s p i (Sem.mkSem 0 [])); [done|by rewrite Erc|by rewrite El]|]. intros [] s' ->.
  apply (steady_change v refs lk v refs (upd p true lk) s _ p i (set_ilock (Sem.mkSem 0 []) i)); try done.
  - apply recached_self, H.
  - apply (sd_vol _ _ _ _ H).
  - by apply (sd_live _ _ _ _ H p).
  - unfold upd. rewrite Z.eqb_refl, <- Erc, <- Ev, <- Ee. done.
  - lia.
  - intros q Hq. unfold upd. by rewrite (proj2 (Z.eqb_neq q p)).
Qed.

Lemma wp_steady_unlock v refs lk s p n :
  steady v refs lk s -> found_inode s p n -> 0 < refs p -> lk p = true ->
  wp (inode_unlock p) (fun _ s' => steady v refs (upd p false lk) s' /\ forall q m, found_inode s q m -> found_inode s' q m) s.
Proof.
  intros H (i & Ei & En) Hr Hl. destruct (steady_inode _ _ _ _ _ _ H Ei) as (Hp & _ & El & Erc & Ev & Ee & _). rewrite Hl in El.
  eapply wp_mono; [eapply (wp_inode_unlock s p i None (Sem.mkSem 1 [])); [done|by rewrite Erc|by rewrite El]|]. intros [] s' ->.
  apply (steady_change v refs lk v refs (upd p false lk) s _ p i (set_ilock (Sem.mkSem 1 []) i)); try done.
  - apply recached_self, H.
  - apply (sd_vol _ _ _ _ H).
  - by apply (sd_live _ _ _ _ H p).
  - unfold upd. rewrite Z.eqb_refl, <- Erc, <- Ev, <- Ee. done.
  - lia.
  - intros q Hq. unfold upd. by rewrite (proj2 (Z.eqb_neq q p)).
Qed.

Lemma wp_steady_put v refs lk s ctx p n :
  steady v refs lk s -> found_inode s p n -> 0 < refs p < 2 ^ 63 -> ie_num_links (disk_entry v n) <> 0 ->
  wp (inode_put sblock cache ctx p) (fun _ s' => steady v (bump p (-1) refs) lk s' /\ forall q m, found_inode s q m -> found_inode s' q m) s.
Proof.
  intros H (i & Ei & En) Hr Hl. destruct (steady_inode _ _ _ _ _ _ H Ei) as (Hp & _ & El & Erc & Ev & Ee & _). rewrite En in Ee.
  unfold inode_put. apply wp_bind. eapply wp_update_inode; [exact Ei|].
  assert ((Rc.decrement_rc (i_rc i)).2 = refs p - 1) as -> by (rewrite Erc; apply Rc.i64_small; lia).
  apply wp_bind. eapply wp_inode_at; [apply lookup_insert_eq|]. cbn [i_rc i_entry set_rc]. rewrite Ee.
  rewrite (proj2 (Z.eqb_neq _ 0) Hl), andb_false_r. apply wp_ret.
  apply (steady_change v refs lk v (bump p (-1) refs) lk s _ p i (set_rc (refs p - 1) i)); try done.
  - apply recached_self, H.
  - apply (sd_vol _ _ _ _ H).
  - by apply (sd_live _ _ _ _ H p).
  - unfold set_rc, bump. rewrite Z.eqb_refl, El, Ev, Ee, En. done.
  - unfold bump. rewrite Z.eqb_refl. lia.
  - intros q Hq. unfold bump. by rewrite (proj2 (Z.eqb_neq q p)).
Qed.

Lemma disk_entry_same v v' n : v_same v v' -> disk_entry v' n = disk_entry v n.
Proof. intros [E _]. unfold InodeLaws.disk_entry. by rewrite E. Qed.

Lemma ew_from ctx n e v v1 v' : v_same v v1 -> entry_written sblock ctx n e v1 v' -> entry_written sblock ctx n e v v'.
Proof.
  intros Hs [W1 W2 W3 W4 W5]. pose proof Hs as (Eb & Er & El). split.
  - done.
  - intros m Hm Hne. rewrite W2 by done. by apply disk_entry_same.
  - intros b Hb. rewrite W3 by done. apply Eb.
  - intros b. by rewrite W4, El.
  - intros rm E. rewrite Er, El in W5. by apply W5.
Qed.

Lemma v_can_same ctx b v v' : v_same v v' -> v_can ctx b v -> v_can ctx b v'.
Proof. intros (_ & Er & El) (H0 & rm & E & H). split; [done|]. exists rm. by rewrite Er, El. Qed.

Lemma number_range n : inode_number n -> inode_range sblock n.
Proof. unfold Path.inode_number, inode_range. lia. Qed.

(** Changing an entry and writing it back. *)
Lemma wp_steady_sync v refs lk s ctx p n f :
  steady v refs lk s -> found_inode s p n -> wf_inode (f (disk_entry v n)) -> ie_type (f (disk_entry v n)) <> INODE_INVALID -> v_can ctx (inode_block n) v ->
  wp (update_entry p f ;; inode_sync sblock cache ctx p true) (fun _ s' =>
    steady (vol s') refs lk s' /\ entry_written sblock ctx n (f (disk_entry v n)) v (vol s') /\ forall q m, found_inode s q m -> found_inode s' q m) s.
Proof.
  intros H (i & Ei & En) Hwf Hlive Hcan. destruct (steady_inode _ _ _ _ _ _ H Ei) as (Hp & Hn & El & Erc & Ev & Ee & Hr). pose proof (sd_vol _ _ _ _ H) as Hv.
  apply wp_bind. eapply wp_update_entry; [exact Ei|]. rewrite Ee, En. set (i1 := set_entry (f (disk_entry v n)) i).
  set (s1 := set_heap (<[p := i1]> (f_heap s)) s). rewrite En in Hn.
  eapply wp_mono; [apply (wp_inode_sync_write sblock cache Hlayout s1 ctx p i1)|].
  - apply H.
  - apply lookup_insert_eq.
  - done.
  - done.
  - cbn. rewrite En. by apply number_range.
  - cbn. rewrite En. by apply (v_can_same ctx _ v).
  - cbn [i_inode_no i_entry set_entry i1]. rewrite En. intros [] s' [Hrc W]. apply (ew_from _ _ _ v) in W; [|done].
    destruct (steady_change v refs lk (vol s') refs lk s s' p i i1 H Ei Hrc ltac:(done)) as [Hst Hk]; try done.
    + intros m Hm Hne. rewrite En in Hne. apply W; [by apply number_range|done].
    + rewrite En, (ew_entry _ _ _ _ _ _ W). done.
    + unfold i1, set_entry. rewrite El, Erc, Ev, En, (ew_entry _ _ _ _ _ _ W). done.
Qed.

Lemma wp_steady_alloc v refs lk s ctx type n :
  steady v refs lk s -> is_word 2 type -> type <> INODE_INVALID -> first_free_inode sblock v n -> v_can ctx (inode_block n) v ->
  wp (inode_alloc sblock cache ctx type) (fun r s' => r = n /\ steady (vol s') refs lk s' /\
    entry_written sblock ctx n (fresh_entry type) v (vol s') /\ f_heap s' = f_heap s /\ f_next s' = f_next s) s.
Proof.
  intros H Hty Hinv Hff Hcan. pose proof Hff as (_ & Hfree & _). pose proof (sd_vol _ _ _ _ H) as Hv.
  eapply wp_mono; [apply (wp_inode_alloc sblock cache Hlayout s ctx type n); try done; [apply H|apply H| |by apply (v_can_same ctx _ v)]|].
  { destruct Hff as (Hn & Hf & Hu). split; [done|]. rewrite (disk_entry_same v) by done. split; [done|]. intros m Hm. rewrite (disk_entry_same v) by done. by apply Hu. }
  intros r s' (-> & (x & -> & Hx) & W). apply (ew_from _ _ _ v) in W; [|done]. split; [done|]. split; [|by split_and!].
  destruct H as [[R1 R2 R3 R4 R5] C2 C3 C4 C5 C6 C7].
  assert (forall p i, f_heap s !! p = Some i -> disk_entry (vol (set_fcache x s)) (i_inode_no i) = disk_entry v (i_inode_no i)) as Hsame.
  { intros p i Ei. destruct (C5 p i Ei) as (_ & Hi & _). apply W; [by apply number_range|]. intros En. apply (C7 p i Ei). by rewrite En. }
  split; try done; [|intros p i Ei; rewrite (Hsame p i Ei); by apply (C7 p)].
  intros p i Ei. destruct (C5 p i Ei) as (Hin & Hi & E). split_and!; [done|done|].
  by rewrite (Hsame p i Ei).
Qed.

(** A new entry of a directory. *)
Record dir_added (n : Z) (name : list Z) (ino : Z) (v v' : Volume) : Prop := {
  da_ok : dir_ok sblock cache v' (disk_entry v' n);
  da_name : exists off, dir_lookup v' (disk_entry v' n) name = Some (ino, off);
  da_names : forall other, ~ same_name name other -> dir_lookup v' (disk_entry v' n) other = dir_lookup v (disk_entry v n) other;
  da_links : ie_num_links (disk_entry v' n) = ie_num_links (disk_entry v n);
  da_others : forall m, inode_number m -> m <> n -> disk_entry v' m = disk_entry v m;
  da_blocks : forall b, data_block sblock cache v b -> (forall k, 0 <= k < INODE_MAX_BLOCKS -> block_of v (disk_entry v n) k <> b) ->
    v_block v' b = v_block v b;
}.

(** What an insertion into directory [n] needs. *)
Record insertable (ctx n : Z) (v : Volume) : Prop := {
  in_dir : dir_ok sblock cache v (disk_entry v n);
  in_blocks : blocks_ok sblock cache v (disk_entry v n);
  in_slot : Directory.slot v (disk_entry v n) / BLOCK_SIZE < INODE_NUM_DIRECT \/
    block_of v (disk_entry v n) (Directory.slot v (disk_entry v n) / BLOCK_SIZE) <> 0;
  in_max : Directory.slot v (disk_entry v n) + 16 <= INODE_MAX_BYTES;
  in_budget : ctx <> 0 /\ budget sblock ctx n 1 v;
  in_free : free_list sblock v <> [];
}.

Lemma insertable_same ctx n v v' : v_same v v' -> insertable ctx n v -> insertable ctx n v'.
Proof.
  intros Hs [I1 I2 I3 I4 [I5 I6] I7]. pose proof (disk_entry_same v v' n Hs) as Ee.
  assert (Directory.slot v' (disk_entry v n) = Directory.slot v (disk_entry v n)) as Esl.
  { unfold Directory.slot. f_equal. apply find_ext. intros y _. unfold free_at. by rewrite (dirent_same v v'). }
  split; rewrite ?Ee, ?Esl.
  - by apply (dir_ok_same sblock cache v).
  - by apply (blocks_ok_same sblock cache v).
  - by rewrite (block_of_same v v').
  - done.
  - split; [done|]. by apply (budget_same sblock ctx n 1 v).
  - rewrite (free_list_same sblock v v'); [done|]. apply Hs.
Qed.

Lemma wp_steady_insert v refs lk s ctx p n name ino :
  steady v refs lk s -> found_inode s p n -> insertable ctx n v -> dir_lookup v (disk_entry v n) name = None ->
  CString.readable name 14 -> Forall is_byte (padded 14 name) -> is_word 2 ino -> ino <> 0 ->
  wp (inode_insert sblock cache stack ctx p name ino) (fun r s' => r <> MINUS_ONE /\
    steady (vol s') refs lk s' /\ dir_added n name ino v (vol s') /\ forall q m, found_inode s q m -> found_inode s' q m) s.
Proof.
  intros H (i & Ei & En) Hins Hnone Hrd Hby Hino Hino0. destruct (steady_inode _ _ _ _ _ _ H Ei) as (Hp & Hn & El & Erc & Ev & Ee & Hr). pose proof (sd_vol _ _ _ _ H) as Hv.
  rewrite En in Ee, Hn. destruct (insertable_same ctx n v _ Hv Hins) as [I1 I2 I3 I4 [I5 I6] I7]. pose proof (disk_entry_same v (vol s) n Hv) as Ed. rewrite Ed in I1, I2, I3, I4.
  eapply wp_mono; [apply (wp_inode_insert sblock cache stack Hlayout Hstack s ctx p i name ino); rewrite ?Ee, ?En; try done|].
  { apply H. } { by apply number_range. }
  rewrite Ee. intros r s' Hpost. rewrite (dir_lookup_same v (vol s)), Hnone in Hpost by done.
  destruct Hpost as (e' & -> & Hrc & Hdir & Hlook & Hoth & vm & Hvm & W). assert (v_same v vm) as Hvvm by (by etransitivity).
  assert (disk_entry (vol s') n = e') as Ed'.
  { rewrite <- En. apply (wf_disk _ _ _ _ _ _ _ _ _ W). rewrite En. by apply disk_entry_same. }
  assert (forall m, inode_number m -> m <> n -> disk_entry (vol s') m = disk_entry v m) as Hothers.
  { intros m Hm Hne. rewrite (wf_others _ _ _ _ _ _ _ _ _ W m); [by apply disk_entry_same|by apply number_range|congruence]. }
  assert (Directory.slot (vol s) (disk_entry v n) <> MINUS_ONE) as Hslot.
  { destruct (slot_spec sblock cache (vol s) (disk_entry v n) I1) as [_ Hs]. intros E. rewrite E in I4. unfold MINUS_ONE in I4. change (u64 (-1)) with (2 ^ 64 - 1) in I4.
    pose proof max_bytes_small. lia. }
  destruct (steady_change v refs lk (vol s') refs lk s s' p i (set_entry e' i) H Ei Hrc ltac:(done)) as [Hst Hk]; try done.
  { intros m Hm Hne. apply Hothers; [done|congruence]. }
  { rewrite En, Ed'. pose proof (wf_meta _ _ _ _ _ _ _ _ _ W) as [-> _]. rewrite <- En. by apply (sd_live _ _ _ _ H p). }
  { unfold set_entry. rewrite El, Erc, Ev, En, Ed'. done. }
  split_and!; try done. split; rewrite ?Ed'.
  - done.
  - eauto.
  - intros other Hother. rewrite Hoth by done. by apply dir_lookup_same.
  - pose proof (wf_meta _ _ _ _ _ _ _ _ _ W) as Hm. apply Hm.
  - done.
  - intros b Hb Hk'. destruct (wf_blocks _ _ _ _ _ _ _ _ _ W b) as [-> _]; [| |apply Hvm || apply Hvvm].
    + destruct Hb as [? Hu]. split; [done|]. by apply (in_use_same sblock v vm).
    + intros k Hk0. rewrite (block_of_same v vm) by done. by apply Hk'.
Qed.

(** ** A new file *)

Lemma insertable_ew ctx n np e v v' :
  inode_range sblock n -> inode_range sblock np -> np <> n -> entry_written sblock ctx n e v v' -> (forall b, is_block (v_block v' b)) ->
  insertable ctx np v -> budget sblock ctx np 1 v' -> insertable ctx np v'.
Proof.
  intros Hn Hnp Hne W Hb [I1 I2 I3 I4 [I5 I6] I7] Hbud. pose proof (ew_others _ _ _ _ _ _ W np Hnp Hne) as Ee.
  pose proof (ew_slot ctx n e v v' _ Hn W I2 I1) as Esl. split; rewrite ?Ee, ?Esl.
  - by apply (ew_dir_ok ctx n e v v').
  - by apply (ew_blocks_ok ctx n e v v').
  - by rewrite (ew_block_of ctx n e v v').
  - done.
  - done.
  - rewrite (free_list_same sblock v v'); [done|]. by apply (ew_bitmap ctx n e v v' (disk_entry v np)).
Qed.

(** The budget left after writing an inode. *)
Lemma ew_budget ctx n e v v' rm : entry_written sblock ctx n e v v' -> v_rm v !! ctx = Some rm ->
  exists rm', v_rm v' !! ctx = Some rm' /\ rm - 1 <= rm' /\ (inode_block n ∈ v_logged v -> rm' = rm) /\ inode_block n ∈ v_logged v'.
Proof.
  intros W E. exists (if decide (inode_block n ∈ v_logged v) then rm else rm - 1). split; [by apply W|]. split; [destruct (decide _); lia|].
  split; [intros H; by rewrite decide_True|]. apply W. by left.
Qed.

Definition new_entry (type ma mi : Z) : InodeEntry := set_num_links 1 (set_minor (u16 mi) (set_major (u16 ma) (fresh_entry type))).

(** What [create] leaves for a new file [n] with name [name] in directory [np]. *)
Record created (np : Z) (name : list Z) (n type ma mi : Z) (v v' : Volume) : Prop := {
  cr_entry : disk_entry v' n = new_entry type ma mi;
  cr_dir : dir_ok sblock cache v' (disk_entry v' np);
  cr_name : exists off, dir_lookup v' (disk_entry v' np) name = Some (n, off);
  cr_names : forall other, ~ same_name name other -> dir_lookup v' (disk_entry v' np) other = dir_lookup v (disk_entry v np) other;
  cr_others : forall m, inode_number m -> m <> n -> m <> np -> disk_entry v' m = disk_entry v m;
}.

Lemma new_entry_wf type ma mi : is_word 2 type -> wf_inode (new_entry type ma mi).
Proof.
  intros H. pose proof (fresh_entry_wf type H) as Hw. unfold wf_inode, new_entry, set_num_links, set_minor, set_major, fresh_entry in *.
  cbn [ie_type ie_major ie_minor ie_num_links ie_num_bytes ie_addrs ie_indirect] in *. destruct Hw as (? & _ & _ & _ & ? & ? & ? & ?).
  pose proof (wrap_bounds 16 ma ltac:(lia)). pose proof (wrap_bounds 16 mi ltac:(lia)). unfold u16. change (2 ^ 16) with 65536 in *.
  split_and!; try assumption; unfold is_word; change (256 ^ Z.of_nat 2) with 65536; lia.
Qed.

(** The state once the new inode is in memory, locked and on disk, before it gets
    its name. *)
Record new_inode (ctx np n : Z) (e : InodeEntry) (pd cur : Z) (refs : Z -> Z) (v : Volume) (s : FsState S) : Prop := {
  ni_steady : steady (vol s) (bump cur 1 refs) (upd cur true (fun q => q =? pd)) s;
  ni_cur : 0 < cur /\ cur <> pd /\ found_inode s cur n;
  ni_parent : found_inode s pd np;
  ni_entry : disk_entry (vol s) n = e;
  ni_others : forall m, inode_number m -> m <> n -> disk_entry (vol s) m = disk_entry v m;
  ni_names : forall nm, dir_lookup (vol s) (disk_entry v np) nm = dir_lookup v (disk_entry v np) nm;
  ni_insert : insertable ctx np (vol s);
}.

Lemma insertable_next ctx n np e v s' rm' :
  inode_number n -> inode_number np -> np <> n -> entry_written sblock ctx n e v (vol s') -> bc_ok (f_cache s') ->
  insertable ctx np v -> v_rm (vol s') !! ctx = Some rm' -> 3 <= rm' ->
  insertable ctx np (vol s') /\ disk_entry (vol s') np = disk_entry v np /\
  forall nm, dir_lookup (vol s') (disk_entry v np) nm = dir_lookup v (disk_entry v np) nm.
Proof.
  intros Hn Hnp Hne W Hok Hins Er Hr. split_and!.
  - apply (insertable_ew ctx n np e v); try done; try (by apply number_range); [intros b; by apply bc_block_wf|].
    exists rm'. split; [done|]. pose proof (inode_cost_bounds sblock np (vol s')). lia.
  - apply W; [by apply number_range|done].
  - intros nm. apply (ew_dir_lookup ctx n e v (vol s')); try done; [by apply number_range|apply Hins|apply Hins].
Qed.

Section new.
Context (v : Volume) (refs : Z -> Z) (s : FsState S) (ctx pd np n rm type ma mi : Z).
Hypothesis (C : coherent v refs pd s) (Hpd : found_inode s pd np) (Hnp : inode_number np).
Hypothesis (Hr : forall p, 0 <= refs p < 2 ^ 62) (Hrp : 0 < refs pd).
Hypothesis (Hty : is_word 2 type) (Hinv : type <> INODE_INVALID).
Hypothesis (Hff : first_free_inode sblock v n).
Hypothesis (Erm : v_rm v !! ctx = Some rm) (Hrm : 4 <= rm) (Hins : insertable ctx np v).

Lemma wp_new_inode {A} (none : M (FsState S) A) (k : Z -> M (FsState S) A) (Q : A -> FsState S -> Prop) :
  (forall cur s', new_inode ctx np n (new_entry type ma mi) pd cur refs v s' -> wp (k cur) Q s') ->
  wp (n ← inode_alloc sblock cache ctx type; cur ← inode_get sblock cache n;
      if cur =? NULL then none
      else inode_lock cur ;; update_entry cur (fun e => set_num_links 1 (set_minor (u16 mi) (set_major (u16 ma) e))) ;; inode_sync sblock cache ctx cur true ;; k cur) Q s.
Proof using All.
  intros HQ. pose proof Hff as (Hn & Hfree & Hused). assert (inode_number n) as Hnum by (unfold Path.inode_number; lia). destruct (in_budget _ _ _ Hins) as [Hctx _].
  assert (np <> n) as Hne. { intros ->. pose proof (do_type _ _ _ _ (in_dir _ _ _ Hins)) as Ht. rewrite Hfree in Ht. discriminate. }
  apply wp_bind. eapply wp_mono; [apply (wp_steady_alloc v refs (fun q => q =? pd) s ctx type n); try done; [by apply coherent_steady|]|].
  { split; [done|]. exists rm. split; [done|]. right. lia. }
  intros r s1 (-> & H1 & W1 & Eh1 & En1). destruct (ew_budget _ _ _ _ _ _ W1 Erm) as (rm1 & Erm1 & Hrm1 & _ & Hlog1).
  destruct (insertable_next ctx n np _ v s1 rm1 Hnum Hnp Hne W1 (sd_ok _ _ _ _ H1) Hins Erm1 ltac:(lia)) as (Hins1 & Enp1 & Hnm1).
  apply coherent_steady in H1. assert (pd < f_next s1) as Hnext.
  { destruct Hpd as (i & Ei & _). rewrite En1. apply (rg_next _ (co_ring _ _ _ _ _ _ C) pd). eauto. }
  apply wp_bind. eapply wp_mono; [apply (wp_get_coherent sblock cache stack Hlayout Hstack (vol s1) refs pd s1 n); try done|].
  { rewrite (ew_entry _ _ _ _ _ _ W1). done. } { intros p. specialize (Hr p). lia. }
  intros cur s2 (Hcur & C2 & _ & Hf2 & Hk2). rewrite (proj2 (Z.eqb_neq cur NULL)) by (unfold NULL; lia).
  assert (found_inode s2 pd np) as Hpd2. { destruct Hpd as (i & Ei & Ei'). rewrite <- Eh1 in Ei. destruct (Hk2 pd i Ei) as (j & ? & ?). exists j. split; [done|congruence]. }
  assert (cur <> pd) as Hcp. { intros ->. destruct Hf2 as (i & Ei & <-), Hpd2 as (j & Ej & Ejn). congruence. }
  apply coherent_steady in C2. apply wp_bind. eapply wp_mono; [apply (wp_steady_lock _ _ _ _ cur n C2 Hf2)|].
  { unfold bump. rewrite Z.eqb_refl. specialize (Hr cur). lia. } { by apply Z.eqb_neq. }
  intros [] s3 [H3 Hk3]. apply wp_seq. pose proof (ew_entry _ _ _ _ _ _ W1) as Een.
  eapply wp_mono; [apply (wp_steady_sync (vol s1) _ _ s3 ctx cur n _ H3 (Hk3 _ _ Hf2)); rewrite ?Een|]; cbv beta.
  { by apply new_entry_wf. } { done. } { split; [done|]. exists rm1. split; [done|]. by left. }
  rewrite Een. intros [] s4 (H4 & W4 & Hk4). destruct (ew_budget _ _ _ _ _ _ W4 Erm1) as (rm4 & Erm4 & _ & Hrm4 & _). rewrite (Hrm4 Hlog1) in Erm4.
  destruct (insertable_next ctx n np _ (vol s1) s4 rm1 Hnum Hnp Hne W4 (sd_ok _ _ _ _ H4) Hins1 Erm4 ltac:(lia)) as (Hins4 & Enp4 & Hnm4). rewrite Enp1 in Hnm4.
  apply HQ. split; try done; auto.
  - apply W4.
  - intros m Hm Hmn. rewrite (ew_others _ _ _ _ _ _ W4), (ew_others _ _ _ _ _ _ W1) by (done || by apply number_range). done.
  - intros nm. by rewrite Hnm4.
Qed.

(** The directory is unlocked and given back. *)
Lemma wp_leave_parent v1 refs1 lk s1 (cur : Z) (Q : Z -> FsState S -> Prop) :
  steady v1 refs1 lk s1 -> found_inode s1 pd np -> 0 < refs1 pd < 2 ^ 63 -> lk pd = true -> ie_num_links (disk_entry v1 np) <> 0 ->
  (forall s', steady v1 (bump pd (-1) refs1) (upd pd false lk) s' -> (forall q m, found_inode s1 q m -> found_inode s' q m) -> Q cur s') ->
  wp (inode_unlock pd ;; inode_put sblock cache ctx pd ;; mret cur) Q s1.
Proof using All.
  intros H1 Hf Hb Hl Hlinks HQ. apply wp_bind. eapply wp_mono; [apply (wp_steady_unlock _ _ _ _ pd np H1 Hf); [lia|done]|].
  intros [] s2 [H2 Hk2]. apply wp_bind. eapply wp_mono; [apply (wp_steady_put _ _ _ _ ctx pd np H2 (Hk2 _ _ Hf) Hb Hlinks)|].
  intros [] s3 [H3 Hk3]. apply wp_ret. apply HQ; [done|]. auto.
Qed.

Lemma wp_create_new name :
  type <> INODE_DIRECTORY -> is_word 2 n -> dir_lookup v (disk_entry v np) name = None -> ie_num_links (disk_entry v np) <> 0 ->
  CString.readable name 14 -> Forall is_byte (padded 14 name) ->
  wp (create_new sblock cache stack ctx pd name type ma mi) (fun cur s' => exists v',
    found_inode s' cur n /\ created np name n type ma mi v v' /\ coherent v' (bump cur 1 (bump pd (-1) refs)) cur s') s.
Proof using All.
  intros Hnd Hn2 Hnone Hlinks Hrd Hby. pose proof Hff as (Hn & Hfree & _).
  assert (np <> n) as Hne. { intros ->. pose proof (do_type _ _ _ _ (in_dir _ _ _ Hins)) as Ht. rewrite Hfree in Ht. discriminate. }
  apply wp_new_inode. intros cur s1 [H1 (Hcur & Hcp & Hf) Hp He Hoth Hnm Hins1].
  assert (disk_entry (vol s1) np = disk_entry v np) as Enp by (by apply Hoth).
  destruct (Hf) as (i1 & Ei1 & En1). apply wp_bind. eapply wp_inode_at; [exact Ei1|]. rewrite En1.
  rewrite (proj2 (Z.eqb_neq type INODE_DIRECTORY)) by done. apply wp_bind, wp_ret.
  apply wp_bind. eapply wp_mono; [apply (wp_steady_insert (vol s1) _ _ s1 ctx pd np name n H1 Hp Hins1); try done; [by rewrite Enp, Hnm|lia]|].
  intros r s2 (Hret & H2 & A & Hk2). apply wp_bind, wp_assert; [by apply negb_true_iff, Z.eqb_neq|].
  apply (wp_leave_parent (vol s2) (bump cur 1 refs) _ s2 cur _ H2 (Hk2 _ _ Hp)).
  { unfold bump. rewrite (proj2 (Z.eqb_neq pd cur)) by done. specialize (Hr pd). lia. }
  { unfold upd. rewrite (proj2 (Z.eqb_neq pd cur)) by done. apply Z.eqb_refl. }
  { rewrite (da_links _ _ _ _ _ A), Enp. done. }
  intros s3 H3 Hk3. exists (vol s2). split_and!; [by auto| |].
  - destruct A as [A1 A2 A3 A4 A5 A6]. split; try done.
    + rewrite A5; [done|unfold Path.inode_number; lia|done].
    + intros other Ho. rewrite A3, Enp by done. apply Hnm.
    + intros m Hm Hmn Hmp. rewrite A5 by done. by apply Hoth.
  - apply coherent_steady. apply (steady_ext _ _ _ _ _ _) with (3 := H3).
    + intros q. unfold bump. destruct (q =? cur), (q =? pd); lia.
    + intros q Hq. unfold upd. destruct (Z.eqb_spec q pd) as [->|]; [by apply Z.eqb_neq|]. by destruct (q =? cur).
Qed.
End new.

(** ** The whole of [create] *)

Lemma padded_name a b : same_name a b -> padded 14 a = padded 14 b.
Proof.
  unfold same_name, padded. intros H. assert (forall l : list Z, take 14 (l ++ replicate 14 0) = take 14 (take 14 l ++ replicate 14 0)) as E.
  { intros l. destruct (decide (14 <= length l)%nat).
    - rewrite !take_app_le by (rewrite ?length_take; lia). by rewrite take_take.
    - by rewrite (take_ge l) by lia. }
  by rewrite E, H, <- E.
Qed.

Lemma created_name np a b n type ma mi v v' : same_name a b -> created np a n type ma mi v v' -> created np b n type ma mi v v'.
Proof.
  intros Hab [C1 C2 [off C3] C4 C5]. split; try done.
  - exists off. by rewrite <- (dir_lookup_name v' _ a b).
  - intros other Ho. apply C4. unfold same_name in *. congruence.
Qed.

(** The name is there: its inode is taken and locked, the directory given back. *)
Lemma wp_create_found v refs s ctx pd np m {A} (k : Z -> M (FsState S) A) (Q : A -> FsState S -> Prop) :
  coherent v refs pd s -> found_inode s pd np -> (forall p, 0 <= refs p < 2 ^ 62) -> 0 < refs pd -> inode_number m -> m <> np ->
  ie_num_links (disk_entry v np) <> 0 -> ie_type (disk_entry v m) <> INODE_INVALID ->
  (forall cur s', found_inode s' cur m -> coherent v (bump cur 1 (bump pd (-1) refs)) cur s' -> wp (k cur) Q s') ->
  wp (cur ← inode_get sblock cache m; inode_lock cur ;; inode_unlock pd ;; inode_put sblock cache ctx pd ;; k cur) Q s.
Proof.
  intros C Hpd Hr Hrp Hm Hne Hl Hmt HQ. assert (pd < f_next s) as Hnext.
  { destruct Hpd as (i & Ei & _). apply (rg_next _ (co_ring _ _ _ _ _ _ C) pd). eauto. }
  apply wp_bind. eapply wp_mono; [apply (wp_get_coherent sblock cache stack Hlayout Hstack v refs pd s m); try done|].
  { intros p. specialize (Hr p). lia. }
  intros cur s2 (Hcur & C2 & _ & Hf2 & Hk2).
  assert (found_inode s2 pd np) as Hpd2. { destruct Hpd as (i & Ei & Ei'). destruct (Hk2 pd i Ei) as (j & ? & ?). exists j. split; [done|congruence]. }
  assert (cur <> pd) as Hcp. { intros ->. destruct Hf2 as (i & Ei & <-), Hpd2 as (j & Ej & Ejn). congruence. }
  apply coherent_steady in C2. apply wp_bind. eapply wp_mono; [apply (wp_steady_lock _ _ _ _ cur m C2 Hf2)|].
  { unfold bump. rewrite Z.eqb_refl. specialize (Hr cur). lia. } { by apply Z.eqb_neq. }
  intros [] s3 [H3 Hk3]. apply wp_bind. assert (0 < bump cur 1 refs pd < 2 ^ 63) as Hb by (unfold bump; rewrite (proj2 (Z.eqb_neq pd cur)) by done; specialize (Hr pd); lia).
  eapply wp_mono; [apply (wp_steady_unlock _ _ _ _ pd np H3 (Hk3 _ _ Hpd2)); [lia|]|].
  { unfold upd. rewrite (proj2 (Z.eqb_neq pd cur)) by done. apply Z.eqb_refl. }
  intros [] s4 [H4 Hk4]. apply wp_bind. eapply wp_mono; [apply (wp_steady_put _ _ _ _ ctx pd np H4 (Hk4 _ _ (Hk3 _ _ Hpd2)) Hb Hl)|].
  intros [] s5 [H5 Hk5]. apply HQ; [by auto|]. apply coherent_steady. eapply steady_ext; [| |exact H5].
  - intros q. unfold bump. destruct (q =? cur), (q =? pd); lia.
  - intros q Hq. unfold upd. destruct (Z.eqb_spec q pd) as [->|]; [by apply Z.eqb_neq|]. by destruct (q =? cur).
Qed.

(** The directories on a path are in use. *)
Lemma resolve_good v es : forall n m, tree_ok sblock cache v -> inode_number n -> ie_num_links (disk_entry v n) <> 0 ->
  resolve sblock v n es = Some m -> inode_number m /\ ie_num_links (disk_entry v m) <> 0.
Proof.
  induction es as [|e es IH]; intros n m Ht Hn Hl; cbn [resolve]; [by intros [= <-]|].
  destruct (Z.eqb_spec (ie_type (disk_entry v n)) INODE_DIRECTORY) as [Hd|]; [|done]. destruct (dir_lookup v (disk_entry v n) e) as [[k o]|] eqn:E; [|done].
  destruct (proj2 (Ht n Hn Hd) e k o E) as (? & ? & _). by apply IH.
Qed.

Lemma target_good v n es m : tree_ok sblock cache v -> inode_number n -> ie_num_links (disk_entry v n) <> 0 -> target sblock v n true es = Some m ->
  inode_number m /\ ie_num_links (disk_entry v m) <> 0 /\ ie_type (disk_entry v m) = INODE_DIRECTORY.
Proof.
  intros Ht Hn Hl. unfold target. destruct es as [|e es]; [done|]. destruct (resolve sblock v n (removelast (e :: es))) as [k|] eqn:E; [|done]. cbn [mbind option_bind].
  destruct (Z.eqb_spec (ie_type (disk_entry v k)) INODE_DIRECTORY) as [Hd|]; [|done]. intros [= <-]. destruct (resolve_good v _ n k Ht Hn Hl E). done.
Qed.

(** The start of [create]: the directory, locked, and the lookup of the name. *)
Lemma wp_create_start v refs s path type ma mi ctx nc (Q : Z -> FsState S -> Prop) :
  tree_ok sblock cache v -> coherent v refs 0 s -> inode_number ROOT_INODE_NO -> ie_num_links (disk_entry v ROOT_INODE_NO) <> 0 -> ie_type (disk_entry v ROOT_INODE_NO) <> INODE_INVALID ->
  found_inode s (f_cwd s) nc -> ie_num_links (disk_entry v nc) <> 0 -> (forall p, 0 <= refs p < 2 ^ 62 - 1) -> Forall (fun c => 0 < c < 256) path ->
  let start := if bool_decide (head path = Some SLASH) then ROOT_INODE_NO else nc in
  (match target sblock v start true (elements path) with
   | None => forall s', coherent v refs 0 s' -> Q NULL s'
   | Some np => forall pd filename name s', coherent v (bump pd 1 refs) pd s' -> found_inode s' pd np -> last (elements path) = Some name -> holds_name name filename ->
       wp (let inode_no := u32 (match dir_lookup v (disk_entry v np) name with Some (m, _) => m | None => 0 end) in
           if negb (inode_no =? 0) then
             current_inode ← inode_get sblock cache inode_no;
             inode_lock current_inode ;; inode_unlock pd ;; inode_put sblock cache ctx pd ;; mret current_inode
           else create_new sblock cache stack ctx pd filename type ma mi) Q s'
   end) -> wp (create sblock cache stack path type ma mi ctx) Q s.
Proof.
  intros Htree C Hroot Hrl Hrt Hcwd Hcl Hr Hpath start HQ. unfold create. apply wp_bind.
  assert (inode_number nc) as Hnc. { destruct Hcwd as (i & Ei & <-). by apply (co_heap _ _ _ _ _ _ C (f_cwd s)). }
  eapply wp_mono; [apply (wp_namex sblock cache stack Hlayout Hstack v refs s path true (replicate 14 0) ctx nc); try done|].
  { intros p. specialize (Hr p). lia. } { eapply Forall_impl; [exact Hpath|]. cbv beta. lia. }
  intros [pd filename] s1. cbn [fst snd]. fold start. destruct (target sblock v start true (elements path)) as [np|] eqn:Et.
  2: { intros [-> C1]. change (NULL =? NULL) with true. apply wp_ret. by apply HQ. }
  intros (C1 & Hf & He). destruct (He eq_refl) as (name & Hlast & Hname).
  assert (inode_number np /\ ie_num_links (disk_entry v np) <> 0 /\ ie_type (disk_entry v np) = INODE_DIRECTORY) as (Hnp & Hnl & Hnt).
  { apply (target_good v start (elements path)); try done; subst start; by destruct (bool_decide _). }
  pose proof Hf as (i & Ei & En). destruct (steady_inode _ _ _ _ _ _ (proj1 (coherent_steady _ _ _ _) C1) Ei) as (Hpd & _). rewrite (proj2 (Z.eqb_neq pd NULL)) by (unfold NULL; lia).
  assert (0 < bump pd 1 refs pd) as Hb by (unfold bump; rewrite Z.eqb_refl; specialize (Hr pd); lia).
  apply wp_bind. eapply wp_mono; [apply (wp_lock_coherent sblock cache stack Hstack v (bump pd 1 refs) s1 pd i)|]. 1: exact C1. 1: exact Ei. 1: exact Hb. intros [] s2 (C2 & i2 & Ei2 & En2).
  assert (found_inode s2 pd np) as Hf2 by (exists i2; split; congruence).
  apply wp_bind. eapply wp_mono; [apply (wp_lookup_coherent sblock cache stack Hstack v _ s2 pd np filename Htree C2 Hf2 Hnp Hnt); by eapply holds_name_readable|].
  intros found s3 (Efd & C3 & Hf3). rewrite Efd, (dir_lookup_name _ _ filename name) by apply Hname. by apply HQ.
Qed.

Lemma elems_Forall (P : Z -> Prop) path : forall cur, Forall P cur -> Forall P path -> Forall (Forall P) (elems cur path).
Proof.
  assert (forall cur l, Forall P cur -> Forall (Forall P) l -> Forall (Forall P) (flush cur l)) as Hfl by (intros [|x cur] l ? ?; [done|by constructor]).
  induction path as [|c path IH]; intros cur Hc Hp; cbn [elems]; [by apply Hfl|].
  apply Forall_cons in Hp as [Hx Hp]. destruct (c =? SLASH); [apply Hfl; auto|]. apply IH; [|done]. apply Forall_app. auto.
Qed.

Lemma path_name_bytes path name : Forall (fun c => 0 < c < 256) path -> last (elements path) = Some name -> Forall is_byte (padded 14 name).
Proof.
  intros Hp Hl. apply last_Some in Hl as [l El]. pose proof (elems_Forall _ path [] (List.Forall_nil _) Hp) as H. fold (elements path) in H. rewrite El in H.
  apply Forall_app in H as [_ H]. apply Forall_cons in H as [H _]. unfold padded. apply Forall_take, Forall_app. split.
  - assert (cstr name = name) as -> by (apply cstr_nonzero; eapply Forall_impl; [exact H|]; cbv beta; lia).
    eapply Forall_impl; [exact H|]. unfold is_byte. cbv beta. lia.
  - apply Forall_replicate. unfold is_byte. lia.
Qed.

(** C15: [create] of a file or device node: the directory part of the path is missing
    and the result is NULL with nothing changed; or the name is there and its inode
    is returned, locked, with one reference more; or the first free inode becomes
    the new file, with one link, the given type and device numbers and no data, its
    name is in the directory, no other name of the directory and no other inode is
    touched, and it is returned locked. In every case the in-memory inodes stay
    coherent with the disk and no reference to the directory is left behind.
    Conditions: the last part of the path is not a name of the directory for itself,
    such as "." (the code then waits for the lock it holds); and for a new name
    there is a free inode (else the code returns with the directory locked), the
    free slot of the directory is in a direct block or in one that exists, there
    is a free block, and the operation may still add at least four blocks to the
    log. Directories are not created here. *)
Theorem create_spec v refs s path type ma mi ctx nc n :
  tree_ok sblock cache v -> coherent v refs 0 s ->
  inode_number ROOT_INODE_NO -> ie_num_links (disk_entry v ROOT_INODE_NO) <> 0 -> ie_type (disk_entry v ROOT_INODE_NO) <> INODE_INVALID ->
  found_inode s (f_cwd s) nc -> ie_num_links (disk_entry v nc) <> 0 -> (forall p, 0 <= refs p < 2 ^ 62 - 1) ->
  Forall (fun c => 0 < c < 256) path -> is_word 2 type -> type <> INODE_INVALID -> type <> INODE_DIRECTORY ->
  let start := if bool_decide (head path = Some SLASH) then ROOT_INODE_NO else nc in
  (forall np name, target sblock v start true (elements path) = Some np -> last (elements path) = Some name ->
     match dir_lookup v (disk_entry v np) name with
     | Some (m, _) => m <> np
     | None => first_free_inode sblock v n /\ is_word 2 n /\ insertable ctx np v /\ exists rm, v_rm v !! ctx = Some rm /\ 4 <= rm
     end) ->
  wp (create sblock cache stack path type ma mi ctx) (fun cur s' =>
    match target sblock v start true (elements path), last (elements path) with
    | Some np, Some name =>
        match dir_lookup v (disk_entry v np) name with
        | Some (m, _) => found_inode s' cur m /\ coherent v (bump cur 1 refs) cur s'
        | None => exists v', found_inode s' cur n /\ created np name n type ma mi v v' /\ coherent v' (bump cur 1 refs) cur s'
        end
    | _, _ => cur = NULL /\ coherent v refs 0 s'
    end) s.
Proof.
  intros Htree C Hroot Hrl Hrt Hcwd Hcl Hr Hpath Hty Hinv Hnd start Hpre. apply (wp_create_start v refs s path type ma mi ctx nc); try done.
  fold start. destruct (target sblock v start true (elements path)) as [np|] eqn:Et; [|done]. intros pd filename name s1 C1 Hf Hlast Hname.
  assert (inode_number nc) as Hnc. { destruct Hcwd as (i & Ei & <-). by apply (co_heap _ _ _ _ _ _ C (f_cwd s)). }
  destruct (target_good v start (elements path) np) as (Hnp & Hnl & Hnt); try done; [subst start; by destruct (bool_decide _)..|].
  specialize (Hpre np name eq_refl Hlast). rewrite Hlast.
  assert (forall p, 0 <= bump pd 1 refs p < 2 ^ 62) as Hb by (intros p; unfold bump; specialize (Hr p); destruct (p =? pd); lia).
  assert (0 < bump pd 1 refs pd) as Hbp by (unfold bump; rewrite Z.eqb_refl; specialize (Hr pd); lia).
  destruct (dir_lookup v (disk_entry v np) name) as [[m o]|] eqn:El; cbv zeta.
  - destruct (proj2 (Htree np Hnp Hnt) name m o El) as (Hm & _ & Hmt).
    assert (u32 m = m) as -> by (apply wrap_small; pose proof (lo_inodes _ _ Hlayout); unfold Path.inode_number in Hm; lia).
    rewrite (proj2 (Z.eqb_neq m 0)) by (unfold Path.inode_number in Hm; lia). cbn [negb].
    apply (wp_create_found v (bump pd 1 refs) s1 ctx pd np m); try done. intros cur s2 Hcur C2. apply wp_ret. split; [done|].
    eapply coherent_ext; [|exact C2]. intros q. unfold bump. destruct (q =? cur), (q =? pd); lia.
  - destruct Hpre as (Hff & Hn2 & Hins & rm & Erm & Hrm). change (u32 0 =? 0) with true. cbn [negb].
    eapply wp_mono; [apply (wp_create_new v (bump pd 1 refs) s1 ctx pd np n rm type ma mi) with (name := filename); try done|].
    { rewrite (dir_lookup_name _ _ filename name); [done|apply Hname]. } { by eapply holds_name_readable. }
    { rewrite (padded_name filename name) by apply Hname. by eapply path_name_bytes. }
    intros cur s2 (v' & Hcur & Hcr & C2). exists v'. split_and!; [done|by eapply created_name; [apply Hname|]|].
    eapply coherent_ext; [|exact C2]. intros q. unfold bump. destruct (q =? cur), (q =? pd); lia.
Qed.
End create.

(** ** A concrete instance: a new file [/b], inode 3, beside [/a] *)

Lemma example_insertable : insertable example_sb (bcache example_sb) 7 1 (volume example_used_cache).
Proof.
  split; rewrite ?example_used_read.
  - exact example_used_ok.
  - exact example_used_blocks_ok.
  - left. vm_compute. reflexivity.
  - vm_compute. discriminate.
  - split; [lia|]. exists 10. split; [reflexivity|]. vm_compute. discriminate.
  - pose proof example_free as Hf. change (free_list example_sb (volume example_cache) <> []). intros E. rewrite E in Hf. simpl in Hf. lia.
Qed.

Lemma example_b_target : target example_sb (volume example_used_cache) ROOT_INODE_NO true (elements [47; 98]) = Some 1.
Proof. vm_compute. reflexivity. Qed.

Lemma example_b_new : dir_lookup (volume example_used_cache) (InodeLaws.disk_entry example_sb (volume example_used_cache) 1) [98] = None.
Proof. vm_compute. reflexivity. Qed.

Lemma example_free_inode : first_free_inode example_sb (volume example_used_cache) 3.
Proof.
  split; [simpl; lia|]. split; [vm_compute; reflexivity|]. intros m Hm. assert (m = 1 \/ m = 2) as [->| ->] by lia; vm_compute; discriminate.
Qed.

Lemma create_spec_witness :
  wp (create example_sb (bcache example_sb) example_stack [47; 98] INODE_REGULAR 0 0 7) (fun cur s' => exists v', found_inode s' cur 3 /\
    created example_sb (bcache example_sb) 1 [98] 3 INODE_REGULAR 0 0 (volume example_used_cache) v' /\
    Path.coherent example_sb (bcache example_sb) v' (bump cur 1 example_refs) cur s') example_cwd_fs.
Proof.
  pose proof (create_spec example_sb (bcache example_sb) example_stack example_layout ltac:(reflexivity)
    (volume example_used_cache) example_refs example_cwd_fs [47; 98] INODE_REGULAR 0 0 7 1 3) as H.
  cbv zeta in H. change (bool_decide (head [47; 98] = Some SLASH)) with true in H. cbv iota in H.
  rewrite example_b_target in H. change (last (elements [47; 98])) with (Some [98]) in H. cbv iota beta in H. rewrite example_b_new in H. cbv iota beta in H.
  apply H; clear H.
  - apply Path.example_tree.
  - apply Path.example_coherent.
  - unfold inode_number. simpl. unfold ROOT_INODE_NO. lia.
  - vm_compute. discriminate.
  - vm_compute. discriminate.
  - exists example_used_inode. split; reflexivity.
  - vm_compute. discriminate.
  - intros p. unfold example_refs. destruct (p =? 1); lia.
  - repeat constructor; lia.
  - unfold is_word, INODE_REGULAR. lia.
  - discriminate.
  - discriminate.
  - intros np name [= <-] [= <-]. rewrite example_b_new. split_and!; [exact example_free_inode|unfold is_word; lia|exact example_insertable|].
    exists 10. split; [reflexivity|lia].
Defined.
