(* ===== verification/Mkfs.v ===== *)
(** The formatter of the file system (src/user/mkfs/main.c), a program of the
    host that writes the image of a disk.

    The image is the list of its blocks. A failed [assert] and [exit(1)], by
    which the program gives up when the host cannot do what it asks, are
    [PANIC]. The host is little-endian. *)
From Stdlib Require Import ZArith Lia.
From stdpp Require Import base numbers gmap list.
From S2P Require Import Prelude Bytes Bitmap FsDefs CString BlockCache Inode InodeLaws InodeWrite Directory.

Definition NINODES : Z := 200.
Definition FSSIZE : Z := 1000.
Definition IPB : Z := BLOCK_SIZE / 64.

Definition nbitmap : Z := FSSIZE / (BLOCK_SIZE * 8) + 1.
Definition ninodeblocks : Z := NINODES / IPB + 1.
Definition num_log_blocks : Z := LOG_MAX_SIZE.
Definition nmeta : Z := 2 + num_log_blocks + ninodeblocks + nbitmap.
Definition num_data_blocks : Z := FSSIZE - nmeta.

(** The static variables and the image. *)
Record Mkfs := mkMkfs {
  k_img : list (list Z);
  k_sb : SuperBlock;
  k_freeinode : Z;
  k_freeblock : Z;
}.
Definition set_img (v : list (list Z)) (s : Mkfs) : Mkfs := mkMkfs v (k_sb s) (k_freeinode s) (k_freeblock s).
Definition set_freeblock (v : Z) (s : Mkfs) : Mkfs := mkMkfs (k_img s) (k_sb s) (k_freeinode s) v.
Definition set_freeinode (v : Z) (s : Mkfs) : Mkfs := mkMkfs (k_img s) (k_sb s) v (k_freeblock s).

Abbreviation K := (M Mkfs).
Definition exit1 {A} : K A := PANIC.

(** The word whose bytes in memory are the little-endian ones of [x]. *)
Definition xshort (x : Z) : Z := le_val (le_bytes 2 x).
Definition xint (x : Z) : Z := le_val (le_bytes 4 x).

(** The block at byte [sec * BSIZE], a product of 32 bits. *)
Definition sector (sec : Z) : nat := Z.to_nat (u32 (sec * BLOCK_SIZE) / BLOCK_SIZE).

(** A write behind the end of a file fills the gap with zeroes. *)
Definition wsect (sec : Z) (buf : list Z) : K unit :=
  modify (fun s =>
    let n := sector sec in
    set_img (if decide (n < length (k_img s))%nat then <[n := buf]> (k_img s)
             else k_img s ++ replicate (n - length (k_img s)) zero_block ++ [buf]) s).

Definition rsect (sec : Z) : K (list Z) :=
  s ← get_state; match k_img s !! sector sec with Some buf => mret buf | None => exit1 end.

Definition IBLOCK (i : Z) (sb : SuperBlock) : Z := i / IPB + sb_inode_start sb.
Definition dip (inum : Z) : nat := Z.to_nat (64 * (inum mod IPB)).

Definition winode (inum : Z) (ip : InodeEntry) : K unit :=
  sb ← gets k_sb;
  let bn := u32 (IBLOCK inum sb) in
  buf ← rsect bn;
  wsect bn (splice buf (dip inum) (encode_inode ip)).

Definition rinode (inum : Z) : K InodeEntry :=
  sb ← gets k_sb;
  buf ← rsect (u32 (IBLOCK inum sb));
  mret (decode_inode (slice (dip inum) 64 buf)).

Definition zero_entry : InodeEntry := mkInodeEntry 0 0 0 0 0 (replicate 12 0) 0.

Definition ialloc (type : Z) : K Z :=
  inum ← gets k_freeinode;
  modify (set_freeinode (u32 (inum + 1))) ;;
  winode inum (mkInodeEntry (xshort type) 0 0 (xshort 1) (xint 0) (replicate 12 0) 0) ;;
  mret inum.

(** [buf[i / 8] |= 1 << (i % 8)] for [i] from [used - n]. *)
Fixpoint set_bits (n : nat) (i : Z) (buf : list Z) : list Z :=
  match n with
  | O => buf
  | S n' => set_bits n' (i + 1) (alter (fun c => u8 (Z.lor c (Z.shiftl 1 (i mod 8)))) (Z.to_nat (i / 8)) buf)
  end.

Definition balloc (used : Z) : K unit :=
  ASSERT (used <? BLOCK_SIZE * 8) ;;
  sb ← gets k_sb;
  wsect (sb_bitmap_start sb) (set_bits (Z.to_nat used) 0 zero_block).

(** [freeblock++]. *)
Definition fresh_block : K Z := b ← gets k_freeblock; modify (set_freeblock (u32 (b + 1))) ;; mret b.

(** The number of the block behind [fbn], allocated if it is not there. *)
Definition direct_block (din : InodeEntry) (fbn : Z) : K (Z * InodeEntry) :=
  a ← deref (ie_addrs din !! Z.to_nat fbn);
  din ← (if xint a =? 0 then
           b ← fresh_block; mret (set_addrs (<[Z.to_nat fbn := xint b]> (ie_addrs din)) din)
         else mret din);
  a ← deref (ie_addrs din !! Z.to_nat fbn);
  mret (xint a, din).

Definition indirect_block (din : InodeEntry) (fbn : Z) : K (Z * InodeEntry) :=
  din ← (if xint (ie_indirect din) =? 0 then b ← fresh_block; mret (set_indirect (xint b) din) else mret din);
  indirect ← rsect (xint (ie_indirect din));
  let at_ := Z.to_nat (4 * (fbn - INODE_NUM_DIRECT)) in
  indirect ← (if le_val (slice at_ 4 indirect) =? 0 then
                b ← fresh_block;
                let indirect := splice indirect at_ (le_bytes 4 (xint b)) in
                wsect (xint (ie_indirect din)) indirect ;; mret indirect
              else mret indirect);
  mret (xint (le_val (slice at_ 4 indirect)), din).

(** The loop of [iappend]; [p] is what is left of the data. *)
Fixpoint iappend_loop (fuel : nat) (din : InodeEntry) (off : Z) (p : list Z) (n : Z) : K (InodeEntry * Z) :=
  if 0 <? n then
    match fuel with
    | O => undefined
    | S fuel' =>
        let fbn := off / BLOCK_SIZE in
        ASSERT (fbn <? INODE_MAX_BLOCKS) ;;
        '(x, din) ← (if fbn <? INODE_NUM_DIRECT then direct_block din fbn else indirect_block din fbn);
        let n1 := Z.min n (u32 ((fbn + 1) * BLOCK_SIZE - off)) in
        buf ← rsect x;
        wsect x (splice buf (Z.to_nat (off - fbn * BLOCK_SIZE)) (take (Z.to_nat n1) p)) ;;
        iappend_loop fuel' din (u32 (off + n1)) (drop (Z.to_nat n1) p) (n - n1)
    end
  else mret (din, off).

Definition iappend (inum : Z) (xp : list Z) (n : Z) : K unit :=
  din ← rinode inum;
  '(din, off) ← iappend_loop (Z.to_nat n) din (xint (ie_num_bytes din)) xp n;
  winode inum (set_num_bytes (xint off) din).

(** ** [main] *)

Definition super : SuperBlock :=
  mkSuperBlock (xint FSSIZE) (xint num_data_blocks) (xint NINODES) (xint num_log_blocks) (xint 2)
    (xint (2 + num_log_blocks)) (xint (2 + num_log_blocks + ninodeblocks)).

(** The loop that counts the characters behind the last slash, and the name. *)
Fixpoint base_count (j : Z) (path : list Z) : Z :=
  match path with
  | [] => j
  | c :: path' => base_count ((if c =? 47 then -1 else j) + 1) path'
  end.
Definition base_name (path : list Z) : list Z := drop (length path - Z.to_nat (base_count 0 path)) path.

Definition has_slash (name : list Z) : bool := existsb (Z.eqb 47) name.

(** [argv[i][0] == '_']: a leading underscore is skipped. *)
Definition skip_underscore (name : list Z) : list Z := match name with 95 :: name' => name' | _ => name end.

Definition dirent_bytes (inum : Z) (name : list Z) : list Z := encode_dirent (mkDirEntry (xshort inum) name).

(** What the reads of an open file return, one after the other, before the
    one that returns 0. *)
Fixpoint copy_file (inum : Z) (reads : list (list Z)) : K unit :=
  match reads with
  | [] => mret tt
  | buf :: reads' => iappend inum buf (Z.of_nat (length buf)) ;; copy_file inum reads'
  end.

(** One file of the command line: its path and its reads, if it can be opened. *)
Definition add_file (rootino : Z) (arg : list Z * option (list (list Z))) : K unit :=
  let name := base_name arg.1 in
  ASSERT (negb (has_slash name)) ;;
  match arg.2 with
  | None => exit1
  | Some reads =>
      let name := skip_underscore name in
      inum ← ialloc INODE_REGULAR;
      de_name ← deref (strncpy (replicate 14 0) (name ++ [0]) (Z.to_nat FILE_NAME_MAX_LENGTH));
      iappend rootino (dirent_bytes inum de_name) 16 ;;
      copy_file inum reads
  end.

Fixpoint add_files (rootino : Z) (args : list (list Z * option (list (list Z)))) : K unit :=
  match args with
  | [] => mret tt
  | arg :: args' => add_file rootino arg ;; add_files rootino args'
  end.

(** [strcpy] of "." and ".." into a name of zeroes. *)
Definition dot_name : list Z := 46 :: replicate 13 0.
Definition dotdot_name : list Z := 46 :: 46 :: replicate 12 0.

Definition main (args : list (list Z * option (list (list Z)))) : K Z :=
  ASSERT (BLOCK_SIZE mod 64 =? 0) ;;
  ASSERT (BLOCK_SIZE mod 16 =? 0) ;;
  modify (fun s => mkMkfs [] super (k_freeinode s) nmeta) ;;
  for_each (Z.to_nat FSSIZE) 0 (fun i => wsect i zero_block) ;;
  wsect 1 (splice zero_block 0 (encode_super super)) ;;
  rootino ← ialloc INODE_DIRECTORY;
  ASSERT (rootino =? ROOT_INODE_NO) ;;
  iappend rootino (dirent_bytes rootino dot_name) 16 ;;
  iappend rootino (dirent_bytes rootino dotdot_name) 16 ;;
  add_files rootino args ;;
  din ← rinode rootino;
  let off := xint (ie_num_bytes din) in
  let off := u32 ((off / BLOCK_SIZE + 1) * BLOCK_SIZE) in
  winode rootino (set_num_bytes (xint off) din) ;;
  used ← gets k_freeblock;
  balloc used ;;
  mret 0.

(** The state at the start of the program. *)
Definition start : Mkfs := mkMkfs [] (mkSuperBlock 0 0 0 0 0 0 0) 1 0.
