(* ===== verification/MkfsLaws.v ===== *)
(** The image that mkfs builds (Mkfs.v), as files: which blocks belong to which
    inode, and what they hold.

    [files_ok d fb ent data]: on the disk [d] with the blocks from [fb] on free,
    the inodes [ent] hold the bytes [data], each in blocks of its own. *)
From Stdlib Require Import ZArith Lia.
From stdpp Require Import base numbers gmap list.
From S2P Require Import Prelude Bytes Bitmap FsDefs CString BlockCache Inode InodeLaws InodeWrite Directory Mkfs.

(** ** Contents of a block of a file *)

Definition len {A} (l : list A) : Z := Z.of_nat (length l).

Definition chunk (k : Z) (data : list Z) : list Z := take 512 (drop (Z.to_nat (512 * k)) data ++ replicate 512 0).

Lemma length_chunk k data : length (chunk k data) = 512%nat.
Proof. unfold chunk. rewrite length_take, length_app, length_replicate. lia. Qed.

Lemma lookup_chunk k data i : 0 <= k -> (i < 512)%nat -> chunk k data !! i = Some (default 0 (data !! (Z.to_nat (512 * k) + i)%nat)).
Proof.
  intros Hk Hi. unfold chunk. rewrite lookup_take_lt by done. destruct (decide (i < length (drop (Z.to_nat (512 * k)) data))%nat) as [Hl|Hl].
  - rewrite lookup_app_l by done. rewrite lookup_drop. rewrite length_drop in Hl.
    destruct (lookup_lt_is_Some_2 data (Z.to_nat (512 * k) + i)) as [x ->]; [lia|]. done.
  - rewrite lookup_app_r by lia. rewrite length_drop in *. rewrite lookup_replicate_2 by lia. rewrite lookup_ge_None_2 by lia. done.
Qed.

Lemma chunk_eq k data data' : 0 <= k -> (forall i, (i < 512)%nat -> default 0 (data !! (Z.to_nat (512 * k) + i)%nat) = default 0 (data' !! (Z.to_nat (512 * k) + i)%nat)) ->
  chunk k data = chunk k data'.
Proof.
  intros Hk H. apply list_eq. intros i. destruct (decide (i < 512)%nat).
  - rewrite !lookup_chunk by done. f_equal. by apply H.
  - rewrite !lookup_ge_None_2 by (rewrite length_chunk; lia). done.
Qed.

Lemma chunk_beyond k data : 0 <= k -> len data <= 512 * k -> chunk k data = zero_block.
Proof.
  intros Hk Hl. unfold len in Hl. unfold chunk, zero_block. rewrite drop_ge by lia. apply take_ge. by rewrite length_replicate.
Qed.

Lemma chunk_before k data bytes : 0 <= k -> 512 * (k + 1) <= len data -> chunk k (data ++ bytes) = chunk k data.
Proof. intros Hk Hl. unfold len in Hl. apply chunk_eq; [done|]. intros i Hi. by rewrite lookup_app_l by lia. Qed.

Lemma chunk_append k data bytes :
  0 <= k -> len data / 512 = k -> len data mod 512 + len bytes <= 512 ->
  splice (chunk k data) (Z.to_nat (len data mod 512)) bytes = chunk k (data ++ bytes).
Proof.
  intros Hk Hd Hl. pose proof (Z.div_mod (len data) 512 ltac:(lia)) as Hdm. rewrite Hd in Hdm. pose proof (Z.mod_pos_bound (len data) 512 ltac:(lia)).
  unfold len in *. apply list_eq. intros i. destruct (decide (i < 512)%nat) as [Hi|Hi].
  2: { rewrite !lookup_ge_None_2; rewrite ?length_splice; rewrite ?length_chunk; try done; lia. }
  rewrite (lookup_chunk _ (data ++ bytes)) by lia. set (r := Z.to_nat (Z.of_nat (length data) mod 512)) in *.
  destruct (decide (r <= i < r + length bytes)%nat) as [Hin|Hout].
  - rewrite lookup_splice_in by (rewrite ?length_chunk; lia). rewrite lookup_app_r by lia.
    replace (Z.to_nat (512 * k) + i - length data)%nat with (i - r)%nat by lia. destruct (lookup_lt_is_Some_2 bytes (i - r)) as [x ->]; [lia|done].
  - rewrite lookup_splice_out by (rewrite ?length_chunk; lia). rewrite lookup_chunk by lia. f_equal. destruct (decide (i < r)%nat).
    + by rewrite lookup_app_l by lia.
    + rewrite (lookup_ge_None_2 data) by lia. rewrite lookup_ge_None_2; [done|]. rewrite length_app. lia.
Qed.

(** ** The blocks of the inodes *)

Definition vol (d : Z -> list Z) : Volume := mkVolume d ∅ [].
Definition ino (n : Z) : Prop := 0 <= n < NINODES.

(** The block behind the [k]-th block of a file; the indirect block is number 140. *)
Definition slot (d : Z -> list Z) (e : InodeEntry) (k : Z) : Z := if k =? 140 then ie_indirect e else block_of (vol d) e k.

Definition upd {A} (n : Z) (x : A) (f : Z -> A) : Z -> A := fun m => if m =? n then x else f m.

Lemma upd_same {A} n (x : A) f : upd n x f n = x.
Proof. unfold upd. by rewrite Z.eqb_refl. Qed.
Lemma upd_other {A} n (x : A) f m : m <> n -> upd n x f m = f m.
Proof. intros H. unfold upd. by rewrite (proj2 (Z.eqb_neq m n)). Qed.

Record files_ok (d : Z -> list Z) (fb : Z) (ent : Z -> InodeEntry) (data : Z -> list Z) : Prop := {
  fo_fb : nmeta <= fb <= FSSIZE;
  fo_blocks : forall b, is_block (d b);
  fo_fresh : forall b, fb <= b -> d b = zero_block;
  fo_wf : forall n, ino n -> wf_inode (ent n);
  fo_range : forall n k, ino n -> 0 <= k <= 140 -> slot d (ent n) k <> 0 -> nmeta <= slot d (ent n) k < fb;
  fo_inj : forall n k n' k', ino n -> ino n' -> 0 <= k <= 140 -> 0 <= k' <= 140 ->
    slot d (ent n) k <> 0 -> slot d (ent n) k = slot d (ent n') k' -> n = n' /\ k = k';
  fo_have : forall n k, ino n -> 0 <= k < 140 -> 512 * k < len (data n) -> slot d (ent n) k <> 0;
  fo_data : forall n k, ino n -> 0 <= k < 140 -> slot d (ent n) k <> 0 -> d (slot d (ent n) k) = chunk k (data n);
}.

(** Nothing is allocated behind the end. *)
Definition tight (d : Z -> list Z) (e : InodeEntry) (size : Z) : Prop :=
  forall k, 0 <= k <= 140 -> slot d e k <> 0 -> 512 * (if k =? 140 then 12 else k) < size.

(** The disk matters to [slot] only at the indirect block. *)
Lemma slot_ext d d' e k : (ie_indirect e <> 0 -> d' (ie_indirect e) = d (ie_indirect e)) -> slot d' e k = slot d e k.
Proof.
  intros H. unfold slot, block_of. destruct (k =? 140); [done|]. destruct (k <? INODE_NUM_DIRECT); [done|].
  destruct (Z.eqb_spec (ie_indirect e) 0); [done|]. cbn [v_block vol]. by rewrite H.
Qed.

Lemma slot_indirect d e : slot d e 140 = ie_indirect e.
Proof. done. Qed.

Lemma nmeta_eq : nmeta = 92.
Proof. reflexivity. Qed.

Section files.
Context (d : Z -> list Z) (fb : Z) (ent : Z -> InodeEntry) (data : Z -> list Z).
Hypothesis (F : files_ok d fb ent data).

(** Blocks of metadata are no inode's. *)
Lemma files_meta d' : (forall b, is_block (d' b)) -> (forall b, nmeta <= b -> d' b = d b) ->
  files_ok d' fb ent data /\ forall n k, ino n -> slot d' (ent n) k = slot d (ent n) k.
Proof using F.
  intros Hb Hd. pose proof F as [F0 F1 F2 F3 F4 F5 F6 F7].
  assert (forall n k, ino n -> slot d' (ent n) k = slot d (ent n) k) as Hs.
  { intros n k Hn. apply slot_ext. intros Hi. apply Hd. apply (F4 n 140); [done|lia|done]. }
  split; [|done]. split; try done.
  - intros b Hfb. rewrite Hd by lia. auto.
  - intros n k Hn Hk. rewrite Hs by done. auto.
  - intros n k n' k' Hn Hn' Hk Hk'. rewrite !Hs by done. by apply F5.
  - intros n k Hn Hk Hl. rewrite Hs by done. auto.
  - intros n k Hn Hk Hz. rewrite Hs in Hz |- * by done. rewrite Hd; [by apply F7|]. apply (F4 n k); [done|lia|done].
Qed.

(** Slot [k] of inode [n] gets the first free block. *)
Lemma files_grow n k e' d' :
  ino n -> 0 <= k <= 140 -> slot d (ent n) k = 0 -> fb < FSSIZE -> (k < 140 -> len (data n) <= 512 * k) -> wf_inode e' -> (forall b, is_block (d' b)) ->
  slot d' e' k = fb -> (forall j, 0 <= j <= 140 -> j <> k -> slot d' e' j = slot d (ent n) j) ->
  (forall b, b <> ie_indirect (ent n) \/ ie_indirect (ent n) = 0 -> d' b = d b) ->
  files_ok d' (fb + 1) (upd n e' ent) data /\ forall m j, ino m -> m <> n -> slot d' (ent m) j = slot d (ent m) j.
Proof using F.
  intros Hn Hk Hz Hfb Hl Hwf Hb Hsk Hsj Hd. pose proof F as [F0 F1 F2 F3 F4 F5 F6 F7]. rewrite nmeta_eq in *.
  assert (forall m j, ino m -> m <> n -> slot d' (ent m) j = slot d (ent m) j) as Ho.
  { intros m j Hm Hmn. apply slot_ext. intros Hi. apply Hd. destruct (decide (ie_indirect (ent n) = 0)); [by right|left].
    intros E. destruct (F5 m 140 n 140) as [? _]; try done; lia. }
  assert (forall m j, ino m -> 0 <= j <= 140 -> slot d' (upd n e' ent m) j = if decide (m = n /\ j = k) then fb else slot d (ent m) j) as Hs.
  { intros m j Hm Hj. destruct (decide (m = n /\ j = k)) as [[-> ->]|Hne]; [by rewrite upd_same|]. destruct (decide (m = n)) as [->|Hmn].
    - rewrite upd_same. apply Hsj; [done|]. naive_solver.
    - rewrite upd_other by done. by apply Ho. }
  assert (forall b, 92 <= b -> (forall j, 0 <= j < 140 -> True) -> (ie_indirect (ent n) <> 0 -> b <> ie_indirect (ent n)) -> d' b = d b) as Hd'.
  { intros b _ _ Hi. apply Hd. destruct (decide (ie_indirect (ent n) = 0)); [by right|left; auto]. }
  assert (forall j m, ino m -> 0 <= j < 140 -> slot d (ent m) j <> 0 -> ie_indirect (ent n) <> slot d (ent m) j) as Hni.
  { intros j m Hm Hj Hsl E. destruct (F5 m j n 140) as [_ ?]; done || lia. }
  split; [|done]. split.
  - rewrite nmeta_eq. lia.
  - done.
  - intros b Hbf. rewrite Hd'; [apply F2; lia|lia|done|]. intros Hi. pose proof (F4 n 140 Hn ltac:(lia) Hi). rewrite slot_indirect in *. lia.
  - intros m Hm. unfold upd. destruct (m =? n); auto.
  - intros m j Hm Hj. rewrite Hs by done. rewrite nmeta_eq. destruct (decide _); [lia|]. intros Hsl. specialize (F4 m j Hm Hj Hsl). lia.
  - intros m j m' j' Hm Hm' Hj Hj'. rewrite !Hs by done.
    assert (forall q i, ino q -> 0 <= i <= 140 -> slot d (ent q) i <> fb) as Hnf.
    { intros q i Hq Hi E. assert (slot d (ent q) i <> 0) as Hz' by lia. specialize (F4 q i Hq Hi Hz'). lia. }
    destruct (decide (m = n /\ j = k)) as [[-> ->]|], (decide (m' = n /\ j' = k)) as [[-> ->]|]; [done| | |by apply F5].
    + intros _ E. by destruct (Hnf m' j' Hm' Hj').
    + intros _ E. by destruct (Hnf m j Hm Hj).
  - intros m j Hm Hj Hlj. rewrite Hs by (done || lia). destruct (decide (m = n /\ j = k)) as [[-> ->]|]; [lia|]. by apply F6.
  - intros m j Hm Hj. rewrite Hs by (done || lia). destruct (decide (m = n /\ j = k)) as [[-> ->]|].
    + intros _. rewrite Hd'; [|lia|done|].
      * rewrite F2, chunk_beyond by (lia || apply Hl; lia). done.
      * intros Hi E. pose proof (F4 n 140 Hn ltac:(lia) Hi). rewrite slot_indirect in *. lia.
    + intros Hsl. rewrite Hd'; [by apply F7| |done|].
      * apply (F4 m j Hm ltac:(lia) Hsl).
      * intros Hi E. by destruct (Hni j m Hm Hj Hsl).
Qed.

(** Bytes go to the last block of inode [n]. *)
Lemma files_write n bytes :
  let x := slot d (ent n) (len (data n) / 512) in let r := len (data n) mod 512 in
  ino n -> len (data n) / 512 < 140 -> x <> 0 -> r + len bytes <= 512 -> Forall is_byte bytes ->
  files_ok (upd x (splice (d x) (Z.to_nat r) bytes) d) fb ent (upd n (data n ++ bytes) data) /\
  forall m k, ino m -> slot (upd x (splice (d x) (Z.to_nat r) bytes) d) (ent m) k = slot d (ent m) k.
Proof using F.
  intros x r Hn Hk Hx Hr Hby. pose proof F as [F0 F1 F2 F3 F4 F5 F6 F7]. rewrite nmeta_eq in *. set (k := len (data n) / 512) in *.
  assert (0 <= k) as Hk0 by (apply Z.div_pos; unfold len; lia). pose proof (F4 n k Hn ltac:(lia) Hx) as Hxr. fold x in Hxr.
  pose proof (Z.div_mod (len (data n)) 512 ltac:(lia)) as Hdm. pose proof (Z.mod_pos_bound (len (data n)) 512 ltac:(lia)) as Hmb. fold k r in Hdm, Hmb.
  set (d' := upd x _ d). assert (forall m j, ino m -> slot d' (ent m) j = slot d (ent m) j) as Hs.
  { intros m j Hm. apply slot_ext. intros Hi. apply upd_other. intros E. destruct (F5 m 140 n k) as [_ ?]; try done; lia. }
  split; [|done]. split.
  - rewrite nmeta_eq. lia.
  - intros b. unfold d', upd. destruct (b =? x); [|done]. destruct (F1 x) as [L1 L2]. split; [|by apply Forall_splice].
    rewrite length_splice; [done|]. rewrite L1. unfold len in *. lia.
  - intros b Hb. unfold d'. rewrite upd_other by lia. auto.
  - done.
  - intros m j Hm Hj. rewrite Hs by done. rewrite nmeta_eq. auto.
  - intros m j m' j' Hm Hm' Hj Hj'. rewrite !Hs by done. by apply F5.
  - intros m j Hm Hj Hlj. rewrite Hs by done. destruct (decide (m = n)) as [->|]; [|rewrite upd_other in Hlj by done; by apply F6].
    rewrite upd_same in Hlj. unfold len in *. rewrite length_app in Hlj. destruct (decide (j = k)) as [->|]; [done|]. apply F6; try done. lia.
  - intros m j Hm Hj. rewrite Hs by done. intros Hsl. destruct (decide (m = n)) as [->|Hmn].
    + rewrite upd_same. destruct (decide (j = k)) as [->|Hjk].
      * fold x. unfold d'. rewrite upd_same. unfold x. rewrite F7 by done. by apply chunk_append.
      * unfold d'. rewrite upd_other by (intros E; destruct (F5 n j n k) as [_ ?]; try done; lia). rewrite F7 by done. destruct (decide (j < k)).
        -- rewrite chunk_before; [done|lia|lia].
        -- rewrite !chunk_beyond; try lia; [done|]. unfold len in *. rewrite length_app. lia.
    + rewrite upd_other by done. unfold d'. rewrite upd_other by (intros E; destruct (F5 m j n k) as [? _]; try done; lia). by apply F7.
Qed.
End files.

(** ** Sectors *)

Definition blk (s : Mkfs) (b : Z) : list Z := default zero_block (k_img s !! Z.to_nat b).
Definition full (s : Mkfs) : Prop := length (k_img s) = 1000%nat.
Definition wrote (sec : Z) (buf : list Z) (s : Mkfs) : Mkfs := set_img (<[Z.to_nat sec := buf]> (k_img s)) s.

Lemma sector_eq sec : 0 <= sec < FSSIZE -> sector sec = Z.to_nat sec.
Proof.
  intros H. unfold FSSIZE in H. unfold sector, u32, BLOCK_SIZE. rewrite wrap_small by lia. by rewrite Z.div_mul by lia.
Qed.

Lemma wp_rsect s sec (Q : list Z -> Mkfs -> Prop) : full s -> 0 <= sec < FSSIZE -> Q (blk s sec) s -> wp (rsect sec) Q s.
Proof.
  intros Hf Hs HQ. unfold rsect. apply wp_bind, wp_get_state. rewrite sector_eq by done. unfold blk, FSSIZE, full in *.
  destruct (lookup_lt_is_Some_2 (k_img s) (Z.to_nat sec)) as [buf E]; [lia|]. rewrite E in HQ |- *. by apply wp_ret.
Qed.

Lemma wp_wsect s sec buf (Q : unit -> Mkfs -> Prop) : full s -> 0 <= sec < FSSIZE -> Q tt (wrote sec buf s) -> wp (wsect sec buf) Q s.
Proof.
  intros Hf Hs HQ. unfold wsect. apply wp_modify. rewrite sector_eq by done. unfold full, FSSIZE in *. by rewrite decide_True by lia.
Qed.

Lemma blk_wrote s sec buf b : full s -> 0 <= sec < FSSIZE -> 0 <= b -> blk (wrote sec buf s) b = upd sec buf (blk s) b.
Proof.
  unfold full, FSSIZE. intros Hf Hs Hb. unfold blk, upd, wrote, set_img. cbn [k_img]. destruct (Z.eqb_spec b sec) as [->|Hne].
  - by rewrite list_lookup_insert_eq by lia.
  - by rewrite list_lookup_insert_ne by lia.
Qed.

Lemma full_wrote s sec buf : full (wrote sec buf s) <-> full s.
Proof. unfold full, wrote, set_img. cbn [k_img]. by rewrite length_insert. Qed.

Lemma blk_wrote_block s sec buf : (forall b, is_block (blk s b)) -> is_block buf -> forall b, is_block (blk (wrote sec buf s) b).
Proof.
  intros H Hbuf b. specialize (H b). unfold blk, wrote, set_img in *. cbn [k_img]. destruct (decide (Z.to_nat b = Z.to_nat sec)) as [->|].
  - destruct (decide (Z.to_nat sec < length (k_img s))%nat); [by rewrite list_lookup_insert_eq|].
    rewrite lookup_ge_None_2 by (rewrite length_insert; lia). split; [reflexivity|]. apply Forall_replicate. unfold is_byte. lia.
  - by rewrite list_lookup_insert_ne.
Qed.

Lemma xint_word v : is_word 4 v -> xint v = v.
Proof. apply le_val_bytes. Qed.

(** What the writes of data do not touch. *)
Record frame (s s' : Mkfs) : Prop := {
  fr_full : full s';
  fr_sb : k_sb s' = k_sb s;
  fr_inode : k_freeinode s' = k_freeinode s;
  fr_meta : forall b, 0 <= b < nmeta -> blk s' b = blk s b;
}.

Lemma frame_trans a b c : frame a b -> frame b c -> frame a c.
Proof. intros [A1 A2 A3 A4] [B1 B2 B3 B4]. split; [done|congruence|congruence|]. intros x Hx. rewrite B4, A4; done. Qed.

Lemma frame_free s v : full s -> frame s (set_freeblock v s).
Proof. by intros H. Qed.

Lemma frame_wrote s sec buf : full s -> nmeta <= sec < FSSIZE -> frame s (wrote sec buf s).
Proof.
  intros H Hs. pose proof nmeta_eq. split; [by apply full_wrote|done|done|]. intros b Hb. rewrite blk_wrote by (done || lia). apply upd_other. lia.
Qed.

Definition meta_of (e : InodeEntry) : Z * Z * Z * Z * Z := (ie_type e, ie_major e, ie_minor e, ie_num_links e, ie_num_bytes e).

Lemma wp_fresh_block s (Q : Z -> Mkfs -> Prop) : 0 <= k_freeblock s < FSSIZE -> Q (k_freeblock s) (set_freeblock (k_freeblock s + 1) s) -> wp fresh_block Q s.
Proof.
  intros H HQ. unfold FSSIZE in H. unfold fresh_block. apply wp_bind, wp_gets, wp_bind, wp_modify, wp_ret. unfold u32. by rewrite wrap_small by lia.
Qed.

(** ** Finding the block of an offset *)

(** The blocks that are allocated for it. *)
Definition need (d : Z -> list Z) (e : InodeEntry) (k : Z) : Z :=
  (if slot d e k =? 0 then 1 else 0) + (if (12 <=? k) && (ie_indirect e =? 0) then 1 else 0).

Record got (i k : Z) (ent : Z -> InodeEntry) (data : Z -> list Z) (s : Mkfs) (r : Z * InodeEntry) (s' : Mkfs) : Prop := {
  go_files : files_ok (blk s') (k_freeblock s') (upd i r.2 ent) data;
  go_block : r.1 = slot (blk s') r.2 k /\ r.1 <> 0;
  go_slots : forall j, 0 <= j <= 140 -> slot (blk s') r.2 j <> 0 -> slot (blk s) (ent i) j <> 0 \/ j = k \/ (j = 140 /\ 12 <= k);
  go_others : forall m j, ino m -> m <> i -> slot (blk s') (ent m) j = slot (blk s) (ent m) j;
  go_meta : meta_of r.2 = meta_of (ent i);
  go_frame : frame s s';
  go_free : k_freeblock s' = k_freeblock s + need (blk s) (ent i) k;
}.

Lemma files_slots d fb ent ent' data data' : (forall n k, ino n -> slot d (ent' n) k = slot d (ent n) k) -> (forall n, ino n -> wf_inode (ent' n)) ->
  (forall n, ino n -> data' n = data n) -> files_ok d fb ent data -> files_ok d fb ent' data'.
Proof.
  intros E Hw E' [F0 F1 F2 F3 F4 F5 F6 F7]. split; try done.
  - intros n k Hn. rewrite E by done. auto.
  - intros n k n' k' Hn Hn'. rewrite !E by done. by apply F5.
  - intros n k Hn. rewrite E, E' by done. auto.
  - intros n k Hn. rewrite E, E' by done. auto.
Qed.

Lemma files_ext d fb ent ent' data data' :
  (forall n, ino n -> ent' n = ent n) -> (forall n, ino n -> data' n = data n) -> files_ok d fb ent data -> files_ok d fb ent' data'.
Proof.
  intros E E' F. eapply files_slots; [| |exact E'|exact F].
  - intros n k Hn. by rewrite E.
  - intros n Hn. rewrite E by done. by apply F.
Qed.

Lemma upd_twice {A} n (x y : A) f m : upd n x (upd n y f) m = upd n x f m.
Proof. unfold upd. by destruct (m =? n). Qed.
Lemma upd_self {A} n (f : Z -> A) m : upd n (f n) f m = f m.
Proof. unfold upd. by destruct (Z.eqb_spec m n) as [->|]. Qed.

Lemma files_upd_self d fb ent data i : files_ok d fb ent data -> files_ok d fb (upd i (ent i) ent) data.
Proof. apply files_ext; [|done]. intros n _. apply upd_self. Qed.

Lemma slot_direct d e k : 0 <= k < 12 -> slot d e k = default 0 (ie_addrs e !! Z.to_nat k).
Proof.
  intros H. unfold slot. rewrite (proj2 (Z.eqb_neq k 140)) by lia. unfold block_of. by rewrite (proj2 (Z.ltb_lt k _)) by (change INODE_NUM_DIRECT with 12; lia).
Qed.

Lemma slot_far d e k : 12 <= k < 140 -> slot d e k = if ie_indirect e =? 0 then 0 else le_val (slice (Z.to_nat (4 * (k - 12))) 4 (d (ie_indirect e))).
Proof.
  intros H. unfold slot. rewrite (proj2 (Z.eqb_neq k 140)) by lia. unfold block_of. by rewrite (proj2 (Z.ltb_ge k _)) by (change INODE_NUM_DIRECT with 12; lia).
Qed.

Lemma wf_set_addr e k b : wf_inode e -> is_word 4 b -> wf_inode (set_addrs (<[k := b]> (ie_addrs e)) e).
Proof.
  intros (H1 & H2 & H3 & H4 & H5 & H6 & H7 & H8) Hb. unfold wf_inode, set_addrs. cbn [ie_type ie_major ie_minor ie_num_links ie_num_bytes ie_addrs ie_indirect].
  rewrite length_insert. split_and!; try done. by apply Forall_insert.
Qed.

Lemma wf_set_indirect e b : wf_inode e -> is_word 4 b -> wf_inode (set_indirect b e).
Proof. intros (H1 & H2 & H3 & H4 & H5 & H6 & H7 & H8) Hb. by split_and!. Qed.

Lemma block_word s : nmeta <= k_freeblock s <= FSSIZE -> is_word 4 (k_freeblock s).
Proof. rewrite nmeta_eq. unfold FSSIZE, is_word. lia. Qed.

Lemma le_val_zeroes n : le_val (replicate n 0) = 0.
Proof. induction n as [|n IH]; [done|]. cbn [replicate le_val]. by rewrite IH. Qed.

Section finding.
Context (s : Mkfs) (ent : Z -> InodeEntry) (data : Z -> list Z) (i k : Z).
Hypothesis (Hfull : full s) (F : files_ok (blk s) (k_freeblock s) ent data) (Hi : ino i).
Hypothesis (Hspace : k_freeblock s + need (blk s) (ent i) k <= FSSIZE) (Hlen : slot (blk s) (ent i) k = 0 -> len (data i) <= 512 * k).

Lemma wp_direct_block : 0 <= k < 12 -> wp (direct_block (ent i) k) (got i k ent data s) s.
Proof using All.
  intros Hk. pose proof F as [F0 F1 F2 F3 F4 F5 F6 F7]. destruct (F3 i Hi) as (W1 & W2 & W3 & W4 & W5 & W6 & W7 & W8). unfold direct_block.
  pose proof (slot_direct (blk s) (ent i) k Hk) as Es. destruct (lookup_lt_is_Some_2 (ie_addrs (ent i)) (Z.to_nat k)) as [a Ea]; [lia|]. rewrite Ea in Es. cbn [from_option id] in Es.
  apply wp_bind. eapply wp_deref; [exact Ea|]. assert (is_word 4 a) as Ha by (eapply Forall_lookup_1; [exact W7|exact Ea]). rewrite (xint_word a Ha).
  unfold need in *. rewrite Es in *. rewrite (proj2 (Z.leb_gt 12 k)) in * by lia. cbn [andb] in *. destruct (decide (a = 0)) as [Hz|Hz]; [rewrite (proj2 (Z.eqb_eq a 0) Hz) in *|rewrite (proj2 (Z.eqb_neq a 0) Hz) in *].
  - assert (k_freeblock s < FSSIZE) as Hfb by (cbn in Hspace; lia). apply wp_bind, wp_bind. apply wp_fresh_block; [rewrite nmeta_eq in F0; lia|]. apply wp_ret.
    set (b := k_freeblock s) in *. assert (is_word 4 b) as Hb by (by apply block_word). rewrite (xint_word b Hb). set (e' := set_addrs _ _).
    assert (slot (blk s) e' k = b) as Ek.
    { rewrite slot_direct by done. unfold e', set_addrs. cbn [ie_addrs]. by rewrite list_lookup_insert_eq by lia. }
    assert (forall j, 0 <= j <= 140 -> j <> k -> slot (blk s) e' j = slot (blk s) (ent i) j) as Ej.
    { intros j Hj Hjk. destruct (decide (j < 12)); [|unfold slot, block_of; rewrite (proj2 (Z.ltb_ge j _)) by (change INODE_NUM_DIRECT with 12; lia); done].
      rewrite !slot_direct by lia. unfold e', set_addrs. cbn [ie_addrs]. by rewrite list_lookup_insert_ne by lia. }
    apply wp_bind. eapply (wp_deref _ b). { unfold e', set_addrs. cbn [ie_addrs]. by rewrite list_lookup_insert_eq by lia. }
    apply wp_ret. rewrite (xint_word b Hb). split; cbn [fst snd].
    + apply (proj1 (files_grow (blk s) b ent data F i k e' (blk s) ltac:(done) ltac:(lia) ltac:(by rewrite Es) Hfb ltac:(auto) ltac:(by apply wf_set_addr) F1 Ek Ej ltac:(done))).
    + split; [by symmetry|]. rewrite nmeta_eq in F0. lia.
    + intros j Hj Hsl. destruct (decide (j = k)) as [->|]; [auto|]. left. by rewrite <- Ej.
    + done.
    + done.
    + by apply frame_free.
    + unfold need. rewrite Es, (proj2 (Z.leb_gt 12 k)), (proj2 (Z.eqb_eq a 0)) by (done || lia). cbn. lia.
  - apply wp_bind, wp_ret, wp_bind. eapply wp_deref; [exact Ea|]. apply wp_ret. rewrite (xint_word a Ha). split; cbn [fst snd]; auto.
    + by apply files_upd_self.
    + done.
    + unfold need. rewrite Es, (proj2 (Z.leb_gt 12 k)), (proj2 (Z.eqb_neq a 0)) by (done || lia). cbn. lia.
Qed.

(** The indirect block, allocated if it is not there. *)
Lemma wp_get_indirect (k' : InodeEntry -> K (Z * InodeEntry)) (Q : Z * InodeEntry -> Mkfs -> Prop) : 12 <= k < 140 ->
  (forall e s', files_ok (blk s') (k_freeblock s') (upd i e ent) data -> ie_indirect e <> 0 -> meta_of e = meta_of (ent i) -> frame s s' ->
     k_freeblock s' = k_freeblock s + (if ie_indirect (ent i) =? 0 then 1 else 0) ->
     (forall j, 0 <= j < 140 -> slot (blk s') e j = slot (blk s) (ent i) j) -> (forall m j, slot (blk s') (ent m) j = slot (blk s) (ent m) j) -> wp (k' e) Q s') ->
  wp (din ← (if xint (ie_indirect (ent i)) =? 0 then b ← fresh_block; mret (set_indirect (xint b) (ent i)) else mret (ent i)); k' din) Q s.
Proof using All.
  intros Hk HQ. pose proof F as [F0 F1 F2 F3 F4 F5 F6 F7]. pose proof (F3 i Hi) as Wf. destruct Wf as (W1 & W2 & W3 & W4 & W5 & W6 & W7 & W8).
  rewrite (xint_word _ W8). unfold need in Hspace. rewrite (proj2 (Z.leb_le 12 k)) in Hspace by lia. cbn [andb] in Hspace.
  apply wp_bind. destruct (Z.eqb_spec (ie_indirect (ent i)) 0) as [Hz|Hz].
  2: { apply wp_ret. apply HQ; try done; [by apply files_upd_self|lia]. }
  assert (slot (blk s) (ent i) k = 0) as Hk0. { rewrite slot_far by done. by rewrite (proj2 (Z.eqb_eq _ 0) Hz). }
  rewrite Hk0 in Hspace. change (0 =? 0) with true in Hspace. cbv iota in Hspace.
  apply wp_bind, wp_fresh_block; [rewrite nmeta_eq in F0; lia|]. apply wp_ret. set (b := k_freeblock s) in *. assert (is_word 4 b) as Hb by (by apply block_word).
  rewrite (xint_word b Hb). assert (b <> 0) as Hb0 by (rewrite nmeta_eq in F0; lia).
  assert (forall j, 0 <= j < 140 -> slot (blk s) (set_indirect b (ent i)) j = slot (blk s) (ent i) j) as Ej.
  { intros j Hj. destruct (decide (j < 12)); [by rewrite !slot_direct by lia|]. rewrite !slot_far by lia. cbn [ie_indirect set_indirect].
    rewrite (proj2 (Z.eqb_neq b 0)), (proj2 (Z.eqb_eq _ 0) Hz) by done. rewrite F2 by lia. unfold slice, zero_block. rewrite drop_replicate, take_replicate.
    apply le_val_zeroes. }
  apply HQ; try done.
  eapply proj1. apply (files_grow (blk s) b ent data F i 140 _ (blk s)); try done; try lia.
  intros j Hj Hne. apply Ej. lia.
Qed.

Lemma slice_bytes_word o (l : list Z) : Forall is_byte l -> (o + 4 <= length l)%nat -> is_word 4 (le_val (slice o 4 l)).
Proof using.
  intros H Hl. pose proof (le_val_bounds (slice o 4 l) (Forall_slice _ _ _ _ H)) as Hb. rewrite length_slice in Hb by done. done.
Qed.

Lemma wp_indirect_block : 12 <= k < 140 -> wp (indirect_block (ent i) k) (got i k ent data s) s.
Proof using All.
  intros Hk. apply wp_get_indirect; [done|]. intros e s1 F1 Hind Hm Hfr Hfb Hsl Hot. pose proof F1 as [G0 G1 G2 G3 G4 G5 G6 G7]. rewrite nmeta_eq in *.
  pose proof (G4 i 140 Hi ltac:(lia)) as Hir. rewrite upd_same, slot_indirect in Hir. specialize (Hir Hind).
  pose proof (G3 i Hi) as Wf. rewrite upd_same in Wf. assert (is_word 4 (ie_indirect e)) as Wi by apply Wf. rewrite (xint_word _ Wi).
  pose proof (fr_full _ _ Hfr) as Hf1. apply wp_bind, wp_rsect; [done|lia|]. change INODE_NUM_DIRECT with 12. set (at_ := Z.to_nat (4 * (k - 12))).
  pose proof (slot_far (blk s1) e k Hk) as Ew. rewrite (proj2 (Z.eqb_neq _ 0) Hind) in Ew. fold at_ in Ew. set (w := le_val _) in *. pose proof (Hsl k ltac:(lia)) as Ek. rewrite Ew in Ek.
  destruct (G1 (ie_indirect e)) as [L1 L2]. assert (at_ + 4 <= 512)%nat as Hat by lia.
  assert (forall j, 0 <= j <= 140 -> slot (blk s1) e j <> 0 -> slot (blk s) (ent i) j <> 0 \/ j = k \/ (j = 140 /\ 12 <= k)) as Hj0.
  { intros j Hj Hjs. destruct (decide (j = 140)) as [->|]; [right; right; lia|]. left. rewrite <- Hsl by lia. done. }
  assert (forall x, (if w =? 0 then 1 else 0) + (if ie_indirect (ent i) =? 0 then 1 else 0) = x -> need (blk s) (ent i) k = x) as Hneed.
  { intros x <-. unfold need. rewrite <- Ek, (proj2 (Z.leb_le 12 k)) by lia. done. }
  apply wp_bind. destruct (Z.eqb_spec w 0) as [Hz|Hz].
  2: { apply wp_ret, wp_ret. assert (is_word 4 w) as Hw by (apply slice_bytes_word; [done|lia]). fold w. rewrite (xint_word w Hw). split; cbn [fst snd]; try done.
       rewrite (Hneed _ eq_refl), Hfb. lia. }
  rewrite (Hneed _ eq_refl) in Hspace. set (b := k_freeblock s1) in *.
  assert (is_word 4 b) as Hb by (apply block_word; rewrite nmeta_eq; lia).
  apply wp_bind, wp_fresh_block; [fold b; lia|]. fold b. apply wp_bind, wp_wsect; [done|lia|]. apply wp_ret, wp_ret. rewrite (xint_word b Hb).
  pose proof (length_le_bytes 4 b) as Hlb. replace (slice at_ 4 (splice (blk s1 (ie_indirect e)) at_ (le_bytes 4 b))) with (le_bytes 4 b).
  2: { symmetry. rewrite <- Hlb at 1. apply slice_splice_same. rewrite Hlb, L1. done. }
  rewrite le_val_bytes by done. rewrite (xint_word b Hb). set (s2 := wrote _ _ _). set (d' := upd (ie_indirect e) (splice (blk s1 (ie_indirect e)) at_ (le_bytes 4 b)) (blk s1)).
  assert (forall x, 0 <= x -> blk s2 x = d' x) as Ed by (intros x Hx; by apply blk_wrote; [|lia|]).
  assert (forall j, 0 <= j <= 140 -> slot d' e j = if j =? k then b else slot (blk s1) e j) as Ej.
  { intros j Hj. destruct (decide (j = 140)) as [->|]; [rewrite (proj2 (Z.eqb_neq 140 k)) by lia; done|]. destruct (decide (j < 12)).
    - rewrite !slot_direct by lia. by rewrite (proj2 (Z.eqb_neq j k)) by lia.
    - rewrite !slot_far by lia. rewrite (proj2 (Z.eqb_neq _ 0) Hind). unfold d'. rewrite upd_same. destruct (Z.eqb_spec j k) as [->|].
      + fold at_. rewrite <- Hlb at 1. rewrite slice_splice_same by (rewrite Hlb, L1; done). by apply le_val_bytes.
      + f_equal. apply slice_splice_disjoint; rewrite Hlb; [lia|]. unfold at_. lia. }
  assert (forall x, is_block (d' x)) as Hbl.
  { intros x. unfold d', upd. destruct (x =? ie_indirect e); [|done]. split; [|apply Forall_splice; [done|apply le_bytes_bytes]]. rewrite length_splice; [done|]. lia. }
  destruct (files_grow (blk s1) b (upd i e ent) data F1 i k e d') as [F2 Hot2]; try done; rewrite ?upd_same; try done; try lia.
  { rewrite Ej by lia. by rewrite Z.eqb_refl. } { intros j Hj Hjk. rewrite Ej by done. by rewrite (proj2 (Z.eqb_neq j k)). }
  { intros x [Hx|Hx]; [|done]. by apply upd_other. }
  apply (files_ext _ _ _ (upd i e ent) _ data) in F2; [|intros n _; by rewrite upd_twice|done].
  assert (forall x, is_block (blk s2 x)) as Hb2.
  { apply blk_wrote_block; [done|]. specialize (Hbl (ie_indirect e)). unfold d' in Hbl. by rewrite upd_same in Hbl. }
  destruct (files_meta d' (b + 1) _ _ F2 (blk s2) Hb2) as [F3 Hs3]; [intros x Hx; rewrite nmeta_eq in Hx; apply Ed; lia|].
  assert (forall j, slot (blk s2) e j = slot d' e j) as Hs4. { intros j. pose proof (Hs3 i j Hi) as H. by rewrite upd_same in H. }
  split; cbn [fst snd]; try done.
  - rewrite Hs4, Ej, Z.eqb_refl by lia. split; [done|lia].
  - intros j Hj. rewrite Hs4, Ej by done. destruct (Z.eqb_spec j k); [auto|]. by apply Hj0.
  - intros m j Hm' Hne. specialize (Hs3 m j Hm'). specialize (Hot2 m j Hm' Hne). rewrite upd_other in Hs3, Hot2 by done. by rewrite Hs3, Hot2.
  - eapply frame_trans; [exact Hfr|]. eapply frame_trans; [by apply frame_free|]. apply frame_wrote; [done|rewrite nmeta_eq; lia].
  - rewrite (Hneed _ eq_refl). change (k_freeblock s2) with (b + 1). lia.
Qed.
End finding.

(** ** Appending *)

(** The blocks of a file of [n] bytes. *)
Definition blocks (n : Z) : Z := (n + 511) / 512 + (if 6144 <? n then 1 else 0).

Lemma need_blocks d fb ent data i n1 :
  let L := len (data i) in let k := L / 512 in
  files_ok d fb ent data -> ino i -> tight d (ent i) L -> k < 140 -> 1 <= n1 -> L mod 512 + n1 <= 512 ->
  need d (ent i) k = blocks (L + n1) - blocks L /\ (slot d (ent i) k = 0 -> L <= 512 * k).
Proof.
  intros L k F Hi T Hk Hn Hr. assert (0 <= L) as HL by (unfold L, len; lia). assert (0 <= k) as Hk0 by (apply Z.div_pos; lia).
  pose proof (Z.div_mod L 512 ltac:(lia)) as Hd. pose proof (Z.mod_pos_bound L 512 ltac:(lia)) as Hm. fold k in Hd. set (r := L mod 512) in *.
  assert (slot d (ent i) k = 0 <-> r = 0) as Hs.
  { split; intros H.
    - destruct (decide (r = 0)); [done|]. exfalso. apply (fo_have _ _ _ _ F i k Hi ltac:(lia)); [fold L; lia|done].
    - destruct (decide (slot d (ent i) k = 0)) as [|Hn0]; [done|]. specialize (T k ltac:(lia) Hn0). rewrite (proj2 (Z.eqb_neq k 140)) in T by lia. lia. }
  assert (12 <= k -> ie_indirect (ent i) = 0 <-> L = 6144) as Hin.
  { intros H12. split; intros H.
    - destruct (decide (L = 6144)); [done|]. exfalso. apply (fo_have _ _ _ _ F i 12 Hi ltac:(lia)); [fold L; lia|]. rewrite slot_far by lia. by rewrite H.
    - destruct (decide (ie_indirect (ent i) = 0)) as [|Hn0]; [done|]. specialize (T 140 ltac:(lia) Hn0). rewrite Z.eqb_refl in T. lia. }
  split; [|intros H; apply Hs in H; lia]. unfold need, blocks.
  replace (L + n1 + 511) with ((k + 1) * 512 + (r + n1 - 1)) by lia. rewrite Z.div_add_l by lia. rewrite (Z.div_small (r + n1 - 1)) by lia.
  assert ((L + 511) / 512 = k + (if r =? 0 then 0 else 1)) as ->.
  { destruct (Z.eqb_spec r 0).
    - replace (L + 511) with (k * 512 + 511) by lia. rewrite Z.div_add_l by lia. by rewrite (Z.div_small 511) by lia.
    - replace (L + 511) with ((k + 1) * 512 + (r - 1)) by lia. rewrite Z.div_add_l by lia. rewrite (Z.div_small (r - 1)) by lia. lia. }
  assert ((slot d (ent i) k =? 0) = (r =? 0)) as -> by (destruct (Z.eqb_spec (slot d (ent i) k) 0), (Z.eqb_spec r 0); tauto).
  destruct (Z.leb_spec 12 k) as [H12|H12]; cbn [andb].
  - specialize (Hin H12). destruct (Z.eqb_spec (ie_indirect (ent i)) 0), (Z.eqb_spec r 0), (Z.ltb_spec 6144 (L + n1)), (Z.ltb_spec 6144 L); lia.
  - destruct (Z.eqb_spec r 0), (Z.ltb_spec 6144 (L + n1)), (Z.ltb_spec 6144 L); lia.
Qed.

Lemma blocks_mono a b : 0 <= a <= b -> blocks a <= blocks b.
Proof.
  intros H. unfold blocks. assert ((a + 511) / 512 <= (b + 511) / 512) by (apply Z.div_le_mono; lia).
  destruct (Z.ltb_spec 6144 a), (Z.ltb_spec 6144 b); lia.
Qed.

Lemma len_app {A} (l k : list A) : len (l ++ k) = len l + len k.
Proof. unfold len. rewrite length_app. lia. Qed.

(** What an append leaves. *)
Record appended (i : Z) (p : list Z) (ent : Z -> InodeEntry) (data : Z -> list Z) (s : Mkfs) (r : InodeEntry * Z) (s' : Mkfs) : Prop := {
  ap_files : files_ok (blk s') (k_freeblock s') (upd i r.1 ent) (upd i (data i ++ p) data);
  ap_tight : tight (blk s') r.1 (len (data i ++ p));
  ap_size : r.2 = len (data i ++ p);
  ap_others : forall m j, ino m -> m <> i -> slot (blk s') (ent m) j = slot (blk s) (ent m) j;
  ap_meta : meta_of r.1 = meta_of (ent i);
  ap_frame : frame s s';
  ap_free : k_freeblock s' = k_freeblock s + blocks (len (data i ++ p)) - blocks (len (data i));
}.

(** Finding the block and writing [bytes] to it. *)
Lemma wp_append_block s ent data i bytes {A} (k' : Z * InodeEntry -> K A) (Q : A -> Mkfs -> Prop) :
  let L := len (data i) in
  full s -> files_ok (blk s) (k_freeblock s) ent data -> ino i -> tight (blk s) (ent i) L -> L / 512 < 140 ->
  Forall is_byte bytes -> 1 <= len bytes -> L mod 512 + len bytes <= 512 -> k_freeblock s + blocks (L + len bytes) - blocks L <= FSSIZE ->
  (forall x e s1, full s1 -> nmeta <= x < FSSIZE ->
     appended i bytes ent data s (e, L + len bytes) (wrote x (splice (blk s1 x) (Z.to_nat (L mod 512)) bytes) s1) -> wp (k' (x, e)) Q s1) ->
  wp (r ← (if L / 512 <? INODE_NUM_DIRECT then direct_block (ent i) (L / 512) else indirect_block (ent i) (L / 512)); k' r) Q s.
Proof.
  intros L Hfull F Hi T Hk Hby Hn Hr Hsp HQ. destruct (need_blocks (blk s) _ ent data i (len bytes) F Hi T Hk Hn Hr) as [Hneed Hz]. fold L in Hneed, Hz.
  assert (0 <= L) as HL by (unfold L, len; lia). assert (0 <= L / 512) as Hk0 by (apply Z.div_pos; lia).
  assert (wp (if L / 512 <? INODE_NUM_DIRECT then direct_block (ent i) (L / 512) else indirect_block (ent i) (L / 512)) (got i (L / 512) ent data s) s) as Hg.
  { destruct (Z.ltb_spec (L / 512) INODE_NUM_DIRECT) as [Hlt|Hge]; change INODE_NUM_DIRECT with 12 in *.
    - apply wp_direct_block; try done; lia.
    - apply wp_indirect_block; try done; lia. }
  apply wp_bind. eapply wp_mono; [exact Hg|]. intros [x e] s1 [G1 [G2 G2'] G3 Go G4 G5 G6]. cbn [fst snd] in *.
  pose proof (fr_full _ _ G5) as Hf1. pose proof (fo_range _ _ _ _ G1 i (L / 512) Hi ltac:(lia)) as Hxr. rewrite upd_same, <- G2 in Hxr. specialize (Hxr G2').
  pose proof (fo_fb _ _ _ _ G1) as Hfb. rewrite nmeta_eq in *.
  destruct (files_write (blk s1) (k_freeblock s1) (upd i e ent) data G1 i bytes Hi) as [W1 W2]; fold L; try done; rewrite ?upd_same, <- ?G2 in *; try done.
  fold L in W1, W2. rewrite <- G2 in W1, W2. set (d' := upd x _ (blk s1)) in *. set (buf := splice (blk s1 x) (Z.to_nat (L mod 512)) bytes) in *.
  assert (forall b, is_block (blk (wrote x buf s1) b)) as Hbl.
  { apply blk_wrote_block; [apply G1|]. pose proof (fo_blocks _ _ _ _ W1 x) as H. unfold d' in H. by rewrite upd_same in H. }
  destruct (files_meta d' (k_freeblock s1) _ _ W1 (blk (wrote x buf s1)) Hbl) as [F3 Hs3].
  { intros b Hb. rewrite nmeta_eq in Hb. apply blk_wrote; [done|lia|lia]. }
  apply HQ; [done|lia|]. fold L buf. split; cbn [fst snd].
  - exact F3.
  - intros j Hj. specialize (Hs3 i j Hi). specialize (W2 i j Hi). rewrite upd_same in Hs3, W2. rewrite Hs3, W2. intros Hsl. rewrite len_app. fold L.
    pose proof (Z.div_mod L 512 ltac:(lia)). pose proof (Z.mod_pos_bound L 512 ltac:(lia)). destruct (G3 j Hj Hsl) as [Ho|[->|[-> H12]]].
    + specialize (T j Hj Ho). lia.
    + rewrite (proj2 (Z.eqb_neq _ 140)) by lia. lia.
    + rewrite Z.eqb_refl. lia.
  - by rewrite len_app.
  - intros m j Hm Hne. specialize (Hs3 m j Hm). specialize (W2 m j Hm). rewrite upd_other in Hs3, W2 by done. rewrite Hs3, W2. by apply Go.
  - done.
  - eapply frame_trans; [exact G5|]. apply frame_wrote; [done|rewrite nmeta_eq; lia].
  - change (k_freeblock (wrote x buf s1)) with (k_freeblock s1). rewrite G6, Hneed, len_app. fold L. lia.
Qed.

Lemma appended_trans i p q ent data s r1 s1 r2 s2 :
  appended i p ent data s r1 s1 -> appended i q (upd i r1.1 ent) (upd i (data i ++ p) data) s1 r2 s2 -> appended i (p ++ q) ent data s r2 s2.
Proof.
  intros [A1 A2 A3 Ao A4 A5 A6] [B1 B2 B3 Bo B4 B5 B6]. rewrite !upd_same in *. rewrite <- app_assoc in *. split; try done.
  - eapply files_ext; [| |exact B1]; intros n _; symmetry; apply upd_twice.
  - intros m j Hm Hne. specialize (Bo m j Hm Hne). rewrite upd_other in Bo by done. rewrite Bo. by apply Ao.
  - congruence.
  - by eapply frame_trans.
  - lia.
Qed.

Lemma appended_nil i ent data s : full s -> files_ok (blk s) (k_freeblock s) ent data -> tight (blk s) (ent i) (len (data i)) ->
  appended i [] ent data s (ent i, len (data i)) s.
Proof.
  intros Hf F T. split; cbn [fst snd]; rewrite ?app_nil_r; try done; [|lia]. eapply files_ext; [| |exact F]; intros n _; apply upd_self.
Qed.

Lemma wp_iappend_loop i : ino i -> forall fuel s ent data p, (length p <= fuel)%nat -> full s -> files_ok (blk s) (k_freeblock s) ent data ->
  tight (blk s) (ent i) (len (data i)) -> Forall is_byte p -> len (data i) + len p <= INODE_MAX_BYTES ->
  k_freeblock s + blocks (len (data i) + len p) - blocks (len (data i)) <= FSSIZE ->
  wp (iappend_loop fuel (ent i) (len (data i)) p (len p)) (appended i p ent data s) s.
Proof.
  intros Hi. induction fuel as [|fuel IH]; intros s ent data p Hl Hf F T Hp Hmax Hsp; cbn [iappend_loop].
  - destruct p; [|simpl in Hl; lia]. change (0 <? len []) with false. apply wp_ret. by apply appended_nil.
  - destruct (Z.ltb_spec 0 (len p)) as [H0|H0].
    2: { assert (p = []) as -> by (destruct p; [done|]; unfold len in H0; simpl in H0; lia). apply wp_ret. by apply appended_nil. }
    cbv zeta. change BLOCK_SIZE with 512 in *. change INODE_MAX_BYTES with 71680 in Hmax. set (L := len (data i)) in *.
    assert (0 <= L) as HL by (unfold L, len; lia). pose proof (Z.div_mod L 512 ltac:(lia)) as Hdm. pose proof (Z.mod_pos_bound L 512 ltac:(lia)) as Hmb.
    assert (L / 512 < 140) as Hk by (apply Z.div_lt_upper_bound; lia).
    apply wp_bind, wp_assert; [apply Z.ltb_lt; exact Hk|].
    assert (u32 ((L / 512 + 1) * 512 - L) = 512 - L mod 512) as -> by (unfold u32; rewrite wrap_small; lia). set (n1 := Z.min (len p) (512 - L mod 512)).
    set (bytes := take (Z.to_nat n1) p). assert (len bytes = n1) as Hb by (unfold bytes, len in *; rewrite length_take; lia).
    assert (blocks (L + n1) <= blocks (L + len p)) as Hmono by (apply blocks_mono; lia).
    eapply (wp_append_block s ent data i bytes); try done; try (fold L; lia). { by apply Forall_take. } { rewrite Hb. fold L. lia. }
    fold L. rewrite Hb. intros x e s1 Hf1 Hx A. cbv beta iota. rewrite nmeta_eq in Hx. apply wp_bind, wp_rsect; [done|lia|].
    apply wp_bind, wp_wsect; [done|lia|]. replace (L - L / 512 * 512) with (L mod 512) by lia. set (s2 := wrote x _ s1) in *.
    assert (u32 (L + n1) = len (data i ++ bytes)) as -> by (unfold u32; rewrite wrap_small, len_app; fold L; lia).
    replace (len p - n1) with (len (drop (Z.to_nat n1) p)) by (unfold len in *; rewrite length_drop; lia).
    pose proof A as [A1 A2 A3 Ao A4 A5 A6]. cbn [fst snd] in *. rewrite len_app in A6. fold L in A6. rewrite Hb in A6.
    specialize (IH s2 (upd i e ent) (upd i (data i ++ bytes) data) (drop (Z.to_nat n1) p)). rewrite !upd_same in IH.
    assert (len (data i ++ bytes) + len (drop (Z.to_nat n1) p) = L + len p) as Hlen by (rewrite len_app; fold L; unfold len in *; rewrite length_drop; lia).
    eapply wp_mono; [apply IH; try done|].
    + rewrite length_drop. unfold len in *. lia.
    + by apply full_wrote.
    + by apply Forall_drop.
    + rewrite Hlen. change INODE_MAX_BYTES with 71680. lia.
    + rewrite Hlen, len_app. fold L. rewrite Hb. lia.
    + intros r s3 B. rewrite <- (take_drop (Z.to_nat n1) p). by eapply appended_trans.
Qed.
