(* ===== verification/MkfsSpec.v ===== *)
(** What mkfs leaves on the disk (Mkfs.v, MkfsLaws.v): the files of the command
    line, under their names in the root directory, as the kernel reads them
    (Inode.v, Directory.v). *)
From Stdlib Require Import ZArith Lia.
From stdpp Require Import base numbers gmap list.
From S2P Require Import Prelude Bytes Bitmap FsDefs CString Reserve BlockCache Inode InodeLaws InodeWrite Directory Path Mkfs MkfsLaws.

(** ** The table of inodes *)

Abbreviation entry d := (disk_entry super (MkfsLaws.vol d)).

Lemma super_eq : super = mkSuperBlock 1000 908 200 63 2 65 91.
Proof. vm_compute. reflexivity. Qed.

Lemma inode_block_eq n : ino n -> 65 <= 65 + n / 8 < 91 /\ to_block_no super n = 65 + n / 8 /\ u32 (IBLOCK n super) = 65 + n / 8.
Proof.
  unfold ino, NINODES. intros Hn. assert (0 <= n / 8 < 25) as Hd by (split; [apply Z.div_pos|apply Z.div_lt_upper_bound]; lia).
  rewrite super_eq. unfold to_block_no, IBLOCK, u64, u32, IPB. cbn [sb_inode_start]. change (BLOCK_SIZE / 64) with 8. change INODE_PER_BLOCK with 8.
  rewrite !wrap_small by lia. split_and!; lia.
Qed.

Lemma dip_bound n : (dip n + 64 <= 512)%nat.
Proof. unfold dip. change IPB with 8. pose proof (Z.mod_pos_bound n 8 ltac:(lia)). lia. Qed.

Lemma entry_eq d n : ino n -> entry d n = decode_inode (slice (dip n) 64 (d (65 + n / 8))).
Proof. intros Hn. unfold disk_entry. by destruct (inode_block_eq n Hn) as (_ & -> & _). Qed.

Lemma wp_rinode s n (Q : InodeEntry -> Mkfs -> Prop) : full s -> k_sb s = super -> ino n -> Q (entry (blk s) n) s -> wp (rinode n) Q s.
Proof.
  intros Hf Hsb Hn HQ. unfold rinode. apply wp_bind, wp_gets. rewrite Hsb. destruct (inode_block_eq n Hn) as (Hb & _ & ->).
  apply wp_bind, wp_rsect; [done|unfold FSSIZE; lia|]. apply wp_ret. by rewrite <- entry_eq.
Qed.

Definition winoded (n : Z) (e : InodeEntry) (s : Mkfs) : Mkfs := wrote (65 + n / 8) (splice (blk s (65 + n / 8)) (dip n) (encode_inode e)) s.

Lemma wp_winode s n e (Q : unit -> Mkfs -> Prop) : full s -> k_sb s = super -> ino n -> Q tt (winoded n e s) -> wp (winode n e) Q s.
Proof.
  intros Hf Hsb Hn HQ. unfold winode. apply wp_bind, wp_gets. rewrite Hsb. destruct (inode_block_eq n Hn) as (Hb & _ & ->).
  apply wp_bind, wp_rsect; [done|unfold FSSIZE; lia|]. apply wp_wsect; [done|unfold FSSIZE; lia|done].
Qed.

Section winode.
Context (s : Mkfs) (n : Z) (e : InodeEntry).
Hypothesis (Hf : full s) (Hn : ino n) (He : wf_inode e) (Hb : forall b, is_block (blk s b)).

Lemma winoded_blk b : 0 <= b -> b <> 65 + n / 8 -> blk (winoded n e s) b = blk s b.
Proof using Hf Hn.
  intros H0 Hne. destruct (inode_block_eq n Hn) as (? & _). unfold winoded. rewrite blk_wrote by (done || unfold FSSIZE; lia). by apply upd_other.
Qed.

Lemma winoded_block b : is_block (blk (winoded n e s) b).
Proof using Hb He.
  apply blk_wrote_block; [done|]. destruct (Hb (65 + n / 8)) as [L1 L2]. pose proof (dip_bound n). pose proof (length_encode_inode e He).
  split; [rewrite length_splice; lia|]. apply Forall_splice; [done|]. apply encode_inode_bytes.
Qed.

Lemma winoded_entry m : ino m -> entry (blk (winoded n e s)) m = upd n e (entry (blk s)) m.
Proof using All.
  intros Hm. destruct (inode_block_eq n Hn) as (Hr & _). destruct (inode_block_eq m Hm) as (Hrm & _). rewrite entry_eq by done.
  unfold winoded. rewrite blk_wrote by (done || unfold FSSIZE; lia). destruct (Hb (65 + n / 8)) as [L1 L2]. pose proof (dip_bound n). pose proof (length_encode_inode e He) as Le.
  unfold upd. destruct (Z.eqb_spec m n) as [->|Hne].
  - rewrite Z.eqb_refl. rewrite <- Le. rewrite slice_splice_same by lia. rewrite <- (app_nil_r (encode_inode e)). by apply decode_encode_inode.
  - rewrite entry_eq by done. destruct (Z.eqb_spec (65 + m / 8) (65 + n / 8)) as [Eq|]; [|done]. rewrite Eq. f_equal. apply slice_splice_disjoint; [lia|].
    rewrite Le. unfold dip. change IPB with 8. pose proof (Z.div_mod m 8 ltac:(lia)). pose proof (Z.div_mod n 8 ltac:(lia)).
    pose proof (Z.mod_pos_bound m 8 ltac:(lia)). pose proof (Z.mod_pos_bound n 8 ltac:(lia)). lia.
Qed.
End winode.

(** ** The image while it is built *)

(** Inode [n] has type [types n] (0: free) and holds [data n]. *)
Record good (s : Mkfs) (types : Z -> Z) (data : Z -> list Z) : Prop := {
  gd_full : full s;
  gd_sb : k_sb s = super;
  gd_files : files_ok (blk s) (k_freeblock s) (entry (blk s)) data;
  gd_tight : forall n, ino n -> tight (blk s) (entry (blk s) n) (len (data n));
  gd_meta : forall n, ino n -> meta_of (entry (blk s) n) = (types n, 0, 0, if types n =? 0 then 0 else 1, len (data n));
  gd_free : 0 < k_freeinode s /\ forall n, k_freeinode s <= n -> types n = 0 /\ data n = [];
  gd_super : blk s 1 = splice zero_block 0 (encode_super super);
  gd_zero : forall b, b = 0 \/ 2 <= b < 65 -> blk s b = zero_block;
}.

Lemma good_ext s types types' data data' : (forall n, types' n = types n) -> (forall n, data' n = data n) -> good s types data -> good s types' data'.
Proof.
  intros Et Ed [G1 G2 G3 G4 G5 G6 G7 G8]. split; try done.
  - by eapply files_ext; [| |exact G3].
  - intros n Hn. rewrite Ed. auto.
  - intros n Hn. rewrite Et, Ed. auto.
  - split; [apply G6|]. intros n. rewrite Et, Ed. apply G6.
Qed.

(** Inode [n] is written with the entry [e]; [ent] are the entries as the files
    stand, of which only that of [n] is not on disk yet. *)
Lemma good_winode s n e types types' data :
  full s -> k_sb s = super -> ino n -> wf_inode e ->
  files_ok (blk s) (k_freeblock s) (upd n e (entry (blk s))) data -> tight (blk s) e (len (data n)) ->
  (forall m, ino m -> m <> n -> tight (blk s) (entry (blk s) m) (len (data m)) /\
     meta_of (entry (blk s) m) = (types m, 0, 0, if types m =? 0 then 0 else 1, len (data m))) ->
  meta_of e = (types' n, 0, 0, if types' n =? 0 then 0 else 1, len (data n)) -> (forall m, m <> n -> types' m = types m) ->
  (0 < k_freeinode s /\ forall m, k_freeinode s <= m -> types' m = 0 /\ data m = []) ->
  blk s 1 = splice zero_block 0 (encode_super super) -> (forall b, b = 0 \/ 2 <= b < 65 -> blk s b = zero_block) ->
  good (winoded n e s) types' data.
Proof.
  intros Hf Hsb Hn He F T Ho Hm Ht Hfree H1 Hz. destruct (inode_block_eq n Hn) as (Hr & _).
  pose proof (fo_blocks _ _ _ _ F) as Hb. assert (forall b, 0 <= b -> b <> 65 + n / 8 -> blk (winoded n e s) b = blk s b) as Hblk by (intros; by apply winoded_blk).
  destruct (files_meta _ _ _ _ F (blk (winoded n e s))) as [F' Hs]; [intros b; by apply winoded_block| |].
  { intros b H. rewrite nmeta_eq in H. apply Hblk; lia. }
  pose proof (fun m => winoded_entry s n e Hf Hn He Hb m) as Ee.
  assert (forall m, ino m -> entry (blk (winoded n e s)) m = upd n e (entry (blk s)) m) as Ee' by auto.
  split; try done.
  - by apply full_wrote.
  - eapply files_ext; [|done|exact F']. done.
  - intros m Hm'. rewrite Ee' by done. intros k Hk. specialize (Hs m k Hm'). rewrite Hs. destruct (decide (m = n)) as [->|Hne].
    + rewrite upd_same. by apply T.
    + rewrite upd_other by done. by apply Ho.
  - intros m Hm'. rewrite Ee' by done. destruct (decide (m = n)) as [->|Hne]; [by rewrite upd_same|]. rewrite upd_other, Ht by done. by apply Ho.
  - rewrite Hblk by lia. done.
  - intros b Hb'. rewrite Hblk by lia. auto.
Qed.

Lemma slot_zero d type links size k : 0 <= k <= 140 -> slot d (mkInodeEntry type 0 0 links size (replicate 12 0) 0) k = 0.
Proof.
  intros Hk. destruct (decide (k = 140)) as [->|]; [done|]. destruct (decide (k < 12)).
  - rewrite slot_direct by lia. cbn [ie_addrs]. by rewrite lookup_replicate_2 by lia.
  - by rewrite slot_far by lia.
Qed.

Lemma wp_ialloc s types data type (Q : Z -> Mkfs -> Prop) :
  good s types data -> is_word 2 type -> type <> 0 -> k_freeinode s < NINODES ->
  (forall s', good s' (upd (k_freeinode s) type types) data -> k_freeinode s' = k_freeinode s + 1 -> k_freeblock s' = k_freeblock s -> Q (k_freeinode s) s') ->
  wp (ialloc type) Q s.
Proof.
  intros [G1 G2 G3 G4 G5 [G6 G6'] G7 G8] Ht Ht0 Hn HQ. unfold ialloc. apply wp_bind, wp_gets, wp_bind, wp_modify.
  set (n := k_freeinode s) in *. assert (ino n) as Hi by (unfold ino; lia). unfold NINODES in Hn.
  assert (u32 (n + 1) = n + 1) as -> by (unfold u32; rewrite wrap_small; lia). unfold xshort, xint. rewrite !le_val_bytes by (done || lia).
  set (e := mkInodeEntry _ _ _ _ _ _ _). destruct (G6' n ltac:(lia)) as [Htn Hdn].
  assert (wf_inode e) as He. { unfold wf_inode, e, is_word in *. cbn [ie_type ie_major ie_minor ie_num_links ie_num_bytes ie_addrs ie_indirect]. split_and!; try lia; [done|]. apply Forall_replicate. lia. }
  apply wp_bind, wp_winode; [done|done|done|]. apply wp_ret. apply HQ; [|done|done].
  apply (good_winode (set_freeinode (n + 1) s) n e types); try done.
  - change (blk (set_freeinode (n + 1) s)) with (blk s). change (k_freeblock (set_freeinode (n + 1) s)) with (k_freeblock s).
    assert (forall m k, ino m -> 0 <= k <= 140 -> slot (blk s) (upd n e (entry (blk s)) m) k = slot (blk s) (entry (blk s) m) k) as Hs.
    { intros m k Hm Hk. destruct (decide (m = n)) as [->|]; [|by rewrite upd_other]. rewrite upd_same. unfold e. rewrite slot_zero by done.
      destruct (decide (slot (blk s) (entry (blk s) n) k = 0)) as [|Hz]; [done|]. specialize (G4 n Hi k Hk Hz). rewrite Hdn in G4. unfold len in G4. simpl in G4. destruct (k =? 140); lia. }
    destruct G3 as [F0 F1 F2 F3 F4 F5 F6 F7]. split; try done.
    + intros m Hm. unfold upd. destruct (m =? n); auto.
    + intros m k Hm Hk. rewrite Hs by done. auto.
    + intros m k m' k' Hm Hm' Hk Hk'. rewrite !Hs by done. by apply F5.
    + intros m k Hm Hk. rewrite Hs by (done || lia). auto.
    + intros m k Hm Hk. rewrite Hs by (done || lia). auto.
  - intros k Hk Hz. unfold e in Hz. by rewrite slot_zero in Hz.
  - intros m Hm Hne. by split; [apply G4|apply G5].
  - rewrite upd_same, (proj2 (Z.eqb_neq type 0) Ht0), Hdn. done.
  - intros m Hne. by rewrite upd_other.
  - split; [cbn; lia|]. cbn [k_freeinode set_freeinode]. intros m Hm. rewrite upd_other by lia. apply G6'. lia.
Qed.

Lemma frame_entry s s' m : frame s s' -> ino m -> entry (blk s') m = entry (blk s) m.
Proof.
  intros Hfr Hm. destruct (inode_block_eq m Hm) as (Hb & _). rewrite !entry_eq by done. by rewrite (fr_meta _ _ Hfr) by (rewrite nmeta_eq; lia).
Qed.

Lemma meta_fields e t ma mi l z : meta_of e = (t, ma, mi, l, z) -> ie_type e = t /\ ie_major e = ma /\ ie_minor e = mi /\ ie_num_links e = l /\ ie_num_bytes e = z.
Proof. unfold meta_of. intros [= <- <- <- <- <-]. done. Qed.

Lemma wf_set_num_bytes z e : wf_inode e -> is_word 4 z -> wf_inode (set_num_bytes z e).
Proof. intros (W1 & W2 & W3 & W4 & W5 & W6 & W7 & W8) Hz. by split_and!. Qed.

Lemma wp_iappend s types data n p (Q : unit -> Mkfs -> Prop) :
  good s types data -> ino n -> types n <> 0 -> Forall is_byte p -> len (data n) + len p <= INODE_MAX_BYTES ->
  k_freeblock s + blocks (len (data n) + len p) - blocks (len (data n)) <= FSSIZE ->
  (forall s', good s' types (upd n (data n ++ p) data) -> k_freeinode s' = k_freeinode s ->
     k_freeblock s' = k_freeblock s + blocks (len (data n) + len p) - blocks (len (data n)) -> Q tt s') ->
  wp (iappend n p (len p)) Q s.
Proof.
  intros [G1 G2 G3 G4 G5 [G6 G6'] G7 G8] Hn Htn Hp Hmax Hsp HQ. unfold iappend. apply wp_bind, wp_rinode; try done.
  destruct (meta_fields _ _ _ _ _ _ (G5 n Hn)) as (_ & _ & _ & _ & Hm5). change INODE_MAX_BYTES with 71680 in Hmax.
  assert (forall x : Z, 0 <= x <= 71680 -> is_word 4 x) as Hw by (intros x Hx; unfold is_word; lia).
  assert (0 <= len (data n) /\ 0 <= len p) as [H0 H0'] by (unfold len; lia).
  rewrite Hm5, xint_word by (apply Hw; lia). apply wp_bind.
  eapply wp_mono; [apply (wp_iappend_loop n Hn _ s (entry (blk s)) data p); try done; [unfold len; lia|auto]|].
  intros [din off] s1 [A1 A2 A3 Ao A4 A5 A6]. cbn [fst snd] in *. rewrite len_app in *. rewrite A3, xint_word by (apply Hw; lia).
  pose proof A5 as [Fr1 Fr2 Fr3 Fr4]. pose proof (fo_wf _ _ _ _ A1 n Hn) as Wf. rewrite upd_same in Wf. rewrite nmeta_eq in Fr4.
  set (L := len (data n) + len p) in *. assert (wf_inode (set_num_bytes L din)) as Wf' by (apply wf_set_num_bytes; [done|apply Hw; lia]).
  apply wp_winode; [done|congruence|done|]. apply HQ; [|exact Fr3|exact A6].
  destruct (meta_fields _ _ _ _ _ _ (eq_trans A4 (G5 n Hn))) as (B1 & B2 & B3 & B4 & _).
  apply (good_winode s1 n _ types); try done.
  - congruence.
  - eapply files_slots; [| |done|exact A1].
    + intros m k Hm. destruct (decide (m = n)) as [->|]; [by rewrite !upd_same|]. rewrite !upd_other by done. by rewrite (frame_entry s s1).
    + intros m Hm. destruct (decide (m = n)) as [->|]; [by rewrite upd_same|]. rewrite upd_other, (frame_entry s s1) by done. by apply G3.
  - rewrite upd_same, len_app. exact A2.
  - intros m Hm Hne. rewrite (frame_entry s s1) by done. rewrite upd_other by done. split; [|by apply G5]. intros k Hk. rewrite Ao by done. by apply G4.
  - unfold meta_of, set_num_bytes. cbn [ie_type ie_major ie_minor ie_num_links ie_num_bytes]. rewrite B1, B2, B3, B4, upd_same, len_app. done.
  - rewrite Fr3. split; [done|]. intros m Hm. destruct (G6' m Hm) as [? ?]. split; [done|]. rewrite upd_other; [done|]. congruence.
  - rewrite Fr4 by lia. done.
  - intros b Hb. rewrite Fr4 by lia. auto.
Qed.

(** Copying a file. *)
Lemma wp_copy_file types n : ino n -> types n <> 0 -> forall reads s data (Q : unit -> Mkfs -> Prop),
  good s types data -> Forall (Forall is_byte) reads -> len (data n ++ concat reads) <= INODE_MAX_BYTES ->
  k_freeblock s + blocks (len (data n ++ concat reads)) - blocks (len (data n)) <= FSSIZE ->
  (forall s', good s' types (upd n (data n ++ concat reads) data) -> k_freeinode s' = k_freeinode s ->
     k_freeblock s' = k_freeblock s + blocks (len (data n ++ concat reads)) - blocks (len (data n)) -> Q tt s') ->
  wp (copy_file n reads) Q s.
Proof.
  intros Hn Ht. induction reads as [|buf reads IH]; intros s data Q G Hb Hmax Hsp HQ; cbn [copy_file].
  - apply wp_ret. cbn [concat] in HQ. rewrite app_nil_r in HQ. apply HQ; [|done|lia]. eapply good_ext; [done| |exact G]. intros m. apply upd_self.
  - apply Forall_cons in Hb as [Hb1 Hb2]. cbn [concat] in *. rewrite app_assoc in *. rewrite len_app in Hmax. assert (0 <= len (concat reads)) by (unfold len; lia).
    assert (blocks (len (data n ++ buf)) <= blocks (len ((data n ++ buf) ++ concat reads))) by (apply blocks_mono; rewrite !len_app; unfold len; lia).
    assert (blocks (len (data n)) <= blocks (len (data n ++ buf))) by (apply blocks_mono; rewrite !len_app; unfold len; lia).
    apply wp_bind. apply (wp_iappend s types data n buf); try done; [rewrite len_app in *; lia|rewrite <- len_app; lia|].
    rewrite <- len_app. intros s1 G1 E1 E2. apply (IH s1 (upd n (data n ++ buf) data)); try done; rewrite ?upd_same; try done.
    + rewrite len_app. lia.
    + lia.
    + intros s2 G2 E3 E4. apply HQ; [|congruence|lia]. eapply good_ext; [done| |exact G2]. intros m. symmetry. apply upd_twice.
Qed.

(** ** The files of the command line *)

Abbreviation arg := (list Z * option (list (list Z)))%type.
Definition name_of (a : arg) : list Z := skip_underscore (base_name a.1).
Definition content (a : arg) : list Z := concat (default [] a.2).
Definition entry_of (j : nat) (a : arg) : DirEntry := mkDirEntry (2 + Z.of_nat j) (padded 14 (name_of a ++ [0])).
Definition dir_of (l : list arg) : list DirEntry := mkDirEntry 1 dot_name :: mkDirEntry 1 dotdot_name :: imap entry_of l.
Definition root_data (l : list arg) : list Z := dir_of l ≫= encode_dirent.

Definition types_of (l : list arg) (n : Z) : Z := if n =? 1 then INODE_DIRECTORY else if (2 <=? n) && (n <? 2 + len l) then INODE_REGULAR else 0.
Definition data_of (l : list arg) (n : Z) : list Z := if n =? 1 then root_data l else if n <? 2 then [] else default [] (content <$> l !! Z.to_nat (n - 2)).

(** The blocks in use at the end. *)
Definition total (l : list arg) : Z := nmeta + blocks (16 * (2 + len l)) + foldr (fun a t => blocks (len (content a)) + t) 0 l.

(** A path without NUL, a file that can be opened and is not too large. *)
Record valid (a : arg) : Prop := {
  va_path : Forall (fun c => 0 < c < 256) a.1;
  va_reads : is_Some a.2;
  va_bytes : Forall (Forall is_byte) (default [] a.2);
  va_size : len (content a) <= INODE_MAX_BYTES;
}.

Record built (l : list arg) (s : Mkfs) : Prop := {
  bu_good : good s (types_of l) (data_of l);
  bu_inode : k_freeinode s = 2 + len l;
  bu_block : k_freeblock s = total l;
}.

Lemma base_count_spec path : forall j, 0 <= j ->
  (has_slash path = false /\ base_count j path = j + len path) \/
  (0 <= base_count j path < len path /\ has_slash (drop (length path - Z.to_nat (base_count j path)) path) = false).
Proof.
  induction path as [|c path IH]; intros j Hj; [left; split; [done|simpl; unfold len; simpl; lia]|]. cbn [base_count].
  assert (len (c :: path) = len path + 1) as El by (unfold len; simpl; lia). rewrite El. assert (0 <= len path) as H0 by (unfold len; lia).
  assert (length (c :: path) = S (length path)) as El' by done. rewrite El'. destruct (Z.eqb_spec c 47) as [->|Hc].
  - right. change (-1 + 1) with 0. destruct (IH 0 ltac:(lia)) as [[Hs E]|[E Hs]].
    + rewrite E. split; [lia|]. replace (S (length path) - Z.to_nat (0 + len path))%nat with 1%nat by (unfold len; lia). done.
    + split; [lia|]. replace (S (length path) - Z.to_nat (base_count 0 path))%nat with (S (length path - Z.to_nat (base_count 0 path))) by (unfold len in *; lia). done.
  - destruct (IH (j + 1) ltac:(lia)) as [[Hs E]|[E Hs]].
    + left. rewrite E. split; [|lia]. unfold has_slash in *. cbn [existsb]. rewrite (proj2 (Z.eqb_neq 47 c)) by congruence. done.
    + right. split; [lia|]. replace (S (length path) - Z.to_nat (base_count (j + 1) path))%nat with (S (length path - Z.to_nat (base_count (j + 1) path))) by (unfold len in *; lia). done.
Qed.

(** The name the program stores has no slash: its assertion holds. *)
Lemma base_name_no_slash path : has_slash (base_name path) = false.
Proof.
  unfold base_name. destruct (base_count_spec path 0 ltac:(lia)) as [[Hs E]|[_ Hs]]; [|done].
  rewrite E. replace (length path - Z.to_nat (0 + len path))%nat with 0%nat by (unfold len; lia). done.
Qed.

Lemma name_bytes a : valid a -> Forall (fun c => 0 < c < 256) (name_of a).
Proof.
  intros [H _ _ _]. assert (Forall (fun c => 0 < c < 256) (base_name a.1)) as Hb by (by apply Forall_drop). unfold name_of, skip_underscore.
  destruct (base_name a.1) as [|c l]; [done|]. apply Forall_cons in Hb as [Hc Hl]. repeat (destruct c as [|c|c]; try (by constructor)); done.
Qed.

Lemma entry_name_bytes a : valid a -> Forall is_byte (padded 14 (name_of a ++ [0])).
Proof.
  intros V. apply padded_bytes, Forall_app. split; [|by repeat constructor; unfold is_byte; lia].
  eapply Forall_impl; [by apply name_bytes|]. unfold is_byte. cbv beta. lia.
Qed.

Lemma dir_wf l : Forall valid l -> len l <= 198 -> Forall wf_dirent (dir_of l).
Proof.
  intros V Hl. unfold dir_of. apply Forall_cons. split; [|apply Forall_cons; split].
  1-2: split_and!; [unfold is_word; cbn; lia|done|]; repeat constructor; unfold is_byte; lia.
  apply Forall_lookup. intros j x Hx. rewrite list_lookup_imap in Hx. destruct (l !! j) as [a|] eqn:E; [|done]. injection Hx as <-.
  pose proof (lookup_lt_Some _ _ _ E). unfold len in Hl. split_and!.
  - unfold is_word. cbn. lia.
  - apply length_padded.
  - apply entry_name_bytes. by eapply Forall_lookup_1.
Qed.

Lemma dirs_length es : Forall wf_dirent es -> length (es ≫= encode_dirent) = (16 * length es)%nat.
Proof.
  induction 1 as [|x es Hx _ IH]; [done|]. change (length (encode_dirent x ++ (es ≫= encode_dirent)) = (16 * S (length es))%nat).
  rewrite length_app, IH, (length_encode_dirent x Hx). lia.
Qed.

Lemma root_len l : Forall valid l -> len l <= 198 -> len (root_data l) = 16 * (2 + len l).
Proof.
  intros V Hl. unfold len, root_data. rewrite dirs_length by (by apply dir_wf). unfold dir_of. cbn [length]. rewrite length_imap. lia.
Qed.

Lemma root_snoc l a : root_data (l ++ [a]) = root_data l ++ encode_dirent (entry_of (length l) a).
Proof.
  unfold root_data, dir_of. rewrite imap_app. cbn [imap]. rewrite !app_comm_cons, bind_app. f_equal. cbn [imap mbind list_bind].
  rewrite app_nil_r. f_equal. unfold compose. by rewrite Nat.add_0_r.
Qed.

Lemma total_snoc l a : total (l ++ [a]) = total l + blocks (16 * (3 + len l)) - blocks (16 * (2 + len l)) + blocks (len (content a)).
Proof.
  unfold total. rewrite len_app. change (len [a]) with 1. replace (2 + (len l + 1)) with (3 + len l) by lia.
  assert (forall t, foldr (fun a t => blocks (len (content a)) + t) t l = foldr (fun a t => blocks (len (content a)) + t) 0 l + t) as Hf.
  { intros t. clear. induction l as [|x l IH]; cbn [foldr]; [lia|]. rewrite IH. lia. }
  rewrite foldr_app. cbn [foldr]. rewrite Hf. lia.
Qed.

Lemma blocks_nonneg n : 0 <= n -> 0 <= blocks n.
Proof. intros H. unfold blocks. pose proof (Z.div_pos (n + 511) 512 ltac:(lia) ltac:(lia)). destruct (6144 <? n); lia. Qed.

Lemma xshort_word n : is_word 2 n -> xshort n = n.
Proof. apply le_val_bytes. Qed.

Lemma dirent_entry n nm : is_word 2 n -> dirent_bytes n nm = encode_dirent (mkDirEntry n nm).
Proof. intros H. unfold dirent_bytes. by rewrite xshort_word. Qed.

Lemma encode_dirent_bytes x : wf_dirent x -> Forall is_byte (encode_dirent x).
Proof. intros (_ & _ & H). unfold encode_dirent. apply Forall_app. split; [apply le_bytes_bytes|done]. Qed.

Lemma wp_add_file l a s (Q : unit -> Mkfs -> Prop) :
  built l s -> Forall valid l -> valid a -> len l <= 197 -> total (l ++ [a]) <= FSSIZE -> (forall s', built (l ++ [a]) s' -> Q tt s') -> wp (add_file 1 a) Q s.
Proof.
  intros [G Ei Ef] V Va Hl Ht HQ. rewrite total_snoc in Ht. destruct Va as [P1 [reads P2] P3 P4]. rewrite P2 in P3. cbn [from_option id default] in P3.
  pose proof (Build_valid a P1 (ex_intro _ reads P2) ltac:(by rewrite P2) P4) as Va. assert (content a = concat reads) as Ec by (unfold content; by rewrite P2).
  unfold add_file. rewrite base_name_no_slash. apply wp_bind, wp_assert; [done|]. rewrite P2. cbv zeta. fold (name_of a).
  assert (0 <= len l) as H0 by (unfold len; lia). assert (ino 1) as H1 by (unfold ino, NINODES; lia).
  assert (ino (2 + len l)) as Hn by (unfold ino, NINODES; lia). assert (is_word 2 (2 + len l)) as Hw by (unfold is_word; lia).
  apply wp_bind. eapply (wp_ialloc s _ _ INODE_REGULAR); [exact G|unfold is_word, INODE_REGULAR; lia|done|unfold NINODES; lia|]. rewrite Ei. intros s1 G1 Ei1 Ef1.
  apply wp_bind. eapply wp_deref. { apply strncpy_padded; [done|]. left. apply elem_of_app. right. by left. }
  rewrite dirent_entry by done. assert (wf_dirent (entry_of (length l) a)) as We.
  { split_and!; [exact Hw|apply length_padded|by apply entry_name_bytes]. }
  change (mkDirEntry (2 + len l) (padded 14 (name_of a ++ [0]))) with (entry_of (length l) a).
  assert (len (encode_dirent (entry_of (length l) a)) = 16) as El by (unfold len; by rewrite length_encode_dirent).
  rewrite <- El at 1. pose proof (root_len l V ltac:(lia)) as Er. pose proof (blocks_nonneg (len (content a)) ltac:(unfold len; lia)) as Hb0.
  assert (data_of l 1 = root_data l) as Ed1 by done.
  apply wp_bind. apply (wp_iappend s1 _ _ 1 (encode_dirent (entry_of (length l) a))) with (1 := G1); rewrite ?Ed1, ?El, ?Er; try done.
  { rewrite upd_other by lia. done. } { by apply encode_dirent_bytes. } { change INODE_MAX_BYTES with 71680. lia. }
  { replace (16 * (2 + len l) + 16) with (16 * (3 + len l)) by lia. lia. }
  rewrite <- root_snoc. replace (16 * (2 + len l) + 16) with (16 * (3 + len l)) by lia. intros s2 G2 Ei2 Ef2.
  assert (upd 1 (root_data (l ++ [a])) (data_of l) (2 + len l) = []) as Ed2.
  { rewrite upd_other by lia. unfold data_of. rewrite (proj2 (Z.eqb_neq _ 1)), (proj2 (Z.ltb_ge _ 2)) by lia.
    replace (Z.to_nat (2 + len l - 2)) with (length l) by (unfold len; lia). by rewrite lookup_ge_None_2. }
  apply (wp_copy_file (upd (2 + len l) INODE_REGULAR (types_of l)) (2 + len l) Hn) with (2 := G2); rewrite ?upd_same, ?Ed2, ?app_nil_l, <- ?Ec; try done.
  { change (blocks (len [])) with 0. lia. }
  change (blocks (len [])) with 0. intros s3 G3 Ei3 Ef3. apply HQ. split.
  - eapply good_ext; [| |exact G3].
    + intros n. unfold types_of, upd. rewrite len_app. change (len [a]) with 1. destruct (Z.eqb_spec n (2 + len l)) as [->|].
      * rewrite (proj2 (Z.eqb_neq _ 1)), (proj2 (Z.leb_le 2 _)), (proj2 (Z.ltb_lt _ _)) by lia. done.
      * destruct (n =? 1); [done|]. destruct (Z.leb_spec 2 n), (Z.ltb_spec n (2 + (len l + 1))), (Z.ltb_spec n (2 + len l)); try done; lia.
    + intros n. unfold upd. destruct (Z.eqb_spec n (2 + len l)) as [->|].
      * unfold data_of. rewrite (proj2 (Z.eqb_neq _ 1)), (proj2 (Z.ltb_ge _ 2)) by lia.
        replace (Z.to_nat (2 + len l - 2)) with (length l) by (unfold len; lia). by rewrite list_lookup_middle.
      * unfold data_of. destruct (n =? 1); [done|]. destruct (Z.ltb_spec n 2); [done|]. unfold len in *.
        destruct (decide (Z.to_nat (n - 2) < length l)%nat); [by rewrite lookup_app_l|].
        rewrite !lookup_ge_None_2; rewrite ?length_app; cbn [length]; try done; lia.
  - rewrite len_app. change (len [a]) with 1. lia.
  - rewrite total_snoc. lia.
Qed.

Lemma total_app l k : total l <= total (l ++ k).
Proof.
  induction k as [|a k IH] using rev_ind; [rewrite app_nil_r; lia|]. rewrite app_assoc, total_snoc.
  assert (0 <= len (l ++ k)) by (unfold len; lia). pose proof (blocks_mono (16 * (2 + len (l ++ k))) (16 * (3 + len (l ++ k)))).
  pose proof (blocks_nonneg (len (content a)) ltac:(unfold len; lia)). lia.
Qed.

Lemma wp_add_files args : forall l s (Q : unit -> Mkfs -> Prop), built l s -> Forall valid (l ++ args) -> len (l ++ args) <= 198 -> total (l ++ args) <= FSSIZE ->
  (forall s', built (l ++ args) s' -> Q tt s') -> wp (add_files 1 args) Q s.
Proof.
  induction args as [|a args IH]; intros l s Q B V Hl Ht HQ; cbn [add_files].
  - rewrite app_nil_r in HQ. by apply wp_ret, HQ.
  - assert (l ++ a :: args = (l ++ [a]) ++ args) as E by (by rewrite <- app_assoc). pose proof V as V'. apply Forall_app in V' as [V1 V2]. apply Forall_cons in V2 as [Va _].
    apply wp_bind. apply (wp_add_file l a s); try done.
    + rewrite !len_app in Hl. unfold len in *. cbn [length] in Hl. lia.
    + rewrite E in Ht. pose proof (total_app (l ++ [a]) args). lia.
    + intros s' B'. rewrite E in *. by apply (IH (l ++ [a])).
Qed.

(** ** The start of [main] *)

Definition blank : Mkfs := mkMkfs (replicate 1000 zero_block) super 1 nmeta.

Lemma wp_blank (Q : unit -> Mkfs -> Prop) : Q tt blank -> wp (for_each (Z.to_nat FSSIZE) 0 (fun i => wsect i zero_block)) Q (mkMkfs [] super 1 nmeta).
Proof.
  intros HQ. eapply wp_mono; [apply (wp_for_each (fun i s => s = mkMkfs (replicate (Z.to_nat i) zero_block) super 1 nmeta))|].
  - done.
  - change (Z.of_nat (Z.to_nat FSSIZE)) with 1000. intros i s Hi ->. unfold wsect. apply wp_modify. rewrite sector_eq by (unfold FSSIZE; lia). unfold set_img. cbn [k_img k_sb k_freeinode k_freeblock].
    rewrite length_replicate, decide_False by lia. f_equal. replace (Z.to_nat i - Z.to_nat i)%nat with 0%nat by lia. cbn [replicate app].
    replace (Z.to_nat (i + 1)) with (Z.to_nat i + 1)%nat by lia. by rewrite replicate_add.
  - intros [] s ->. exact HQ.
Qed.

Lemma blank_blk b : blk blank b = zero_block.
Proof.
  unfold blk, blank. cbn [k_img]. destruct (replicate 1000 zero_block !! Z.to_nat b) as [x|] eqn:E; [|done]. by apply lookup_replicate in E as [-> _].
Qed.

Definition headed : Mkfs := wrote 1 (splice zero_block 0 (encode_super super)) blank.

Lemma headed_blk b : 0 <= b -> b <> 1 -> blk headed b = zero_block.
Proof. intros H0 H1. unfold headed. rewrite blk_wrote by (done || unfold FSSIZE; lia). rewrite upd_other by done. apply blank_blk. Qed.

Lemma zero_is_block : is_block zero_block.
Proof. split; [reflexivity|]. apply Forall_replicate. unfold is_byte. lia. Qed.

Lemma headed_entry n : ino n -> entry (blk headed) n = zero_entry.
Proof.
  intros Hn. destruct (inode_block_eq n Hn) as (Hb & _). rewrite entry_eq, headed_blk by (done || lia). unfold slice, zero_block. pose proof (dip_bound n).
  rewrite drop_replicate, take_replicate. replace (64 `min` (512 - dip n))%nat with 64%nat by lia. vm_compute. reflexivity.
Qed.

Lemma headed_good : good headed (fun _ => 0) (fun _ => []).
Proof.
  assert (forall n k, ino n -> 0 <= k <= 140 -> slot (blk headed) (entry (blk headed) n) k = 0) as Hs.
  { intros n k Hn Hk. rewrite headed_entry by done. by apply slot_zero. }
  assert (is_block (splice zero_block 0 (encode_super super))) as Hsb.
  { rewrite super_eq. split; [vm_compute; reflexivity|]. apply Forall_splice; [apply zero_is_block|]. apply words_bytes_bytes. }
  split; try done.
  - split.
    + change (k_freeblock headed) with nmeta. rewrite nmeta_eq. unfold FSSIZE. lia.
    + apply blk_wrote_block; [|done]. intros b. rewrite blank_blk. apply zero_is_block.
    + intros b. change (k_freeblock headed) with nmeta. rewrite nmeta_eq. intros Hb. apply headed_blk; lia.
    + intros n Hn. rewrite headed_entry by done. unfold wf_inode, zero_entry, is_word. cbn [ie_type ie_major ie_minor ie_num_links ie_num_bytes ie_addrs ie_indirect].
      split_and!; try lia; [done|]. apply Forall_replicate. lia.
    + intros n k Hn Hk Hz. by rewrite Hs in Hz.
    + intros n k n' k' Hn _ Hk _ Hz. by rewrite Hs in Hz.
    + intros n k Hn Hk Hl. unfold len in Hl. simpl in Hl. lia.
    + intros n k Hn Hk Hz. by rewrite Hs in Hz by (done || lia).
  - intros n Hn k Hk Hz. by rewrite Hs in Hz.
  - intros n Hn. rewrite headed_entry by done. done.
  - intros b Hb. apply headed_blk; lia.
Qed.

Lemma wp_root (k : Z -> K Z) (Q : Z -> Mkfs -> Prop) : (forall s, built [] s -> wp (k 1) Q s) ->
  wp (rootino ← ialloc INODE_DIRECTORY; ASSERT (rootino =? ROOT_INODE_NO) ;; iappend rootino (dirent_bytes rootino dot_name) 16 ;;
      iappend rootino (dirent_bytes rootino dotdot_name) 16 ;; k rootino) Q headed.
Proof.
  intros HQ. assert (ino 1) as H1 by (unfold ino, NINODES; lia). apply wp_bind.
  eapply (wp_ialloc headed _ _ INODE_DIRECTORY); [exact headed_good|unfold is_word, INODE_DIRECTORY; lia|done|cbn; unfold NINODES; lia|].
  change (k_freeinode headed) with 1. change (k_freeblock headed) with nmeta. intros s1 G1 Ei1 Ef1. apply wp_bind, wp_assert; [done|].
  rewrite !dirent_entry by (unfold is_word; lia). pose proof (dir_wf [] (List.Forall_nil _) ltac:(unfold len; simpl; lia)) as Hw. apply Forall_cons in Hw as [Hw1 Hw2]. apply Forall_cons in Hw2 as [Hw2 _].
  set (x1 := encode_dirent (mkDirEntry 1 dot_name)) in *. set (x2 := encode_dirent (mkDirEntry 1 dotdot_name)).
  assert (len x1 = 16 /\ len x2 = 16) as [L1 L2] by (split; reflexivity). rewrite <- L1 at 1.
  apply wp_bind. apply (wp_iappend s1 _ _ 1 x1) with (1 := G1); rewrite ?app_nil_l, ?L1; try done; [by apply encode_dirent_bytes|rewrite Ef1; vm_compute; discriminate|].
  intros s2 G2 Ei2 Ef2. rewrite <- L2 at 1. apply wp_bind. apply (wp_iappend s2 _ _ 1 x2) with (1 := G2); rewrite ?upd_same, ?L1, ?L2; try done.
  { by apply encode_dirent_bytes. } { rewrite Ef2, Ef1. vm_compute. discriminate. }
  intros s3 G3 Ei3 Ef3. apply HQ. split.
  - eapply good_ext; [| |exact G3].
    + intros n. unfold types_of, upd. destruct (n =? 1); [done|]. change (2 + len (A := arg) []) with 2. destruct (Z.leb_spec 2 n), (Z.ltb_spec n 2); try done. lia.
    + intros n. unfold data_of, upd. destruct (n =? 1); [done|]. by destruct (n <? 2).
  - rewrite Ei3, Ei2, Ei1. done.
  - rewrite Ef3, Ef2, Ef1. reflexivity.
Qed.

(** ** The bitmap *)

Definition byte_bit (buf : list Z) (b : Z) : bool := Z.testbit (default 0 (buf !! Z.to_nat (b / 8))) (b mod 8).

Lemma byte_bit_of d b : is_block d -> 0 <= b < BIT_PER_BLOCK -> bit_of d b = Some (byte_bit d b).
Proof.
  intros [L1 L2] Hb. change BIT_PER_BLOCK with 4096 in Hb. unfold bit_of. rewrite (bitmap_get_byte 64 d b) by (done || lia).
  assert (0 <= b / 8 < 512) by (split; [apply Z.div_pos|apply Z.div_lt_upper_bound]; lia). unfold byte_bit.
  destruct (lookup_lt_is_Some_2 d (Z.to_nat (b / 8))) as [c ->]; [lia|]. done.
Qed.

Lemma set_one_bit c i : is_byte c -> 0 <= i < 8 -> is_byte (u8 (Z.lor c (Z.shiftl 1 i))) /\
  forall t, 0 <= t < 8 -> Z.testbit (u8 (Z.lor c (Z.shiftl 1 i))) t = Z.testbit c t || (t =? i).
Proof.
  intros Hc Hi. split; [unfold is_byte, u8; apply (wrap_bounds 8); lia|]. intros t Ht. unfold u8, wrap. rewrite Z.mod_pow2_bits_low by lia.
  rewrite Z.lor_spec, Z.shiftl_1_l, Z.pow2_bits_eqb by lia. f_equal. apply Z.eqb_sym.
Qed.

Lemma set_bits_spec n : forall i buf, 0 <= i -> i + Z.of_nat n <= 4096 -> is_block buf ->
  is_block (set_bits n i buf) /\ forall b, 0 <= b < 4096 -> byte_bit (set_bits n i buf) b = byte_bit buf b || ((i <=? b) && (b <? i + Z.of_nat n)).
Proof.
  induction n as [|n IH]; intros i buf Hi Hn [L1 L2]; cbn [set_bits].
  - split; [done|]. intros b Hb. destruct (Z.leb_spec i b), (Z.ltb_spec b (i + Z.of_nat 0)); cbn; rewrite ?orb_false_r; try done. lia.
  - set (buf' := alter _ _ buf). pose proof (Z.mod_pos_bound i 8 ltac:(lia)) as Hm. assert (0 <= i / 8 < 512) as Hd by (split; [apply Z.div_pos|apply Z.div_lt_upper_bound]; lia).
    destruct (lookup_lt_is_Some_2 buf (Z.to_nat (i / 8))) as [c Ec]; [lia|]. assert (is_byte c) as Hc by (eapply Forall_lookup_1; eauto).
    destruct (set_one_bit c (i mod 8) Hc Hm) as [Hb1 Hb2].
    assert (is_block buf') as B'.
    { unfold buf'. split; [by rewrite length_alter|]. apply Forall_alter; [done|]. intros x Hx _. rewrite Ec in Hx. injection Hx as <-. exact Hb1. }
    destruct (IH (i + 1) buf' ltac:(lia) ltac:(lia) B') as [R1 R2]. split; [done|]. intros b Hb. rewrite R2 by done.
    assert (byte_bit buf' b = byte_bit buf b || (b =? i)) as ->.
    { unfold byte_bit, buf'. pose proof (Z.mod_pos_bound b 8 ltac:(lia)) as Hmb. pose proof (Z.div_mod b 8 ltac:(lia)). pose proof (Z.div_mod i 8 ltac:(lia)).
      assert (0 <= b / 8) by (apply Z.div_pos; lia). destruct (decide (b / 8 = i / 8)) as [E|E].
      - rewrite E, list_lookup_alter_eq, Ec. cbn [fmap option_fmap option_map from_option default id]. rewrite Hb2 by lia. f_equal.
        destruct (Z.eqb_spec (b mod 8) (i mod 8)), (Z.eqb_spec b i); try done; lia.
      - rewrite list_lookup_alter_ne by lia. rewrite (proj2 (Z.eqb_neq b i)) by (intros ->; lia). by rewrite orb_false_r. }
    destruct (byte_bit buf b), (Z.eqb_spec b i), (Z.leb_spec (i + 1) b), (Z.leb_spec i b), (Z.ltb_spec b (i + 1 + Z.of_nat n)), (Z.ltb_spec b (i + Z.of_nat (S n))); cbn; try done; lia.
Qed.

Lemma balloc_bits used b : 0 <= used < 4096 -> 0 <= b < 4096 -> bit_of (set_bits (Z.to_nat used) 0 zero_block) b = Some (b <? used).
Proof.
  intros Hu Hb. destruct (set_bits_spec (Z.to_nat used) 0 zero_block ltac:(lia) ltac:(lia) zero_is_block) as [B H].
  rewrite byte_bit_of by done. rewrite H by done. f_equal. assert (byte_bit zero_block b = false) as ->.
  { unfold byte_bit. destruct (zero_block !! Z.to_nat (b / 8)) as [x|] eqn:E; [|apply Z.testbit_0_l]. apply lookup_replicate in E as [-> _]. apply Z.testbit_0_l. }
  rewrite (proj2 (Z.leb_le 0 b)) by lia. cbn. f_equal. lia.
Qed.

(** ** Reading the files back *)

Lemma read_byte d fb ent data n e o : files_ok d fb ent data -> d 0 = zero_block -> ino n -> (forall k, slot d e k = slot d (ent n) k) -> 0 <= o < INODE_MAX_BYTES ->
  byte_of (MkfsLaws.vol d) e o = default 0 (data n !! Z.to_nat o).
Proof.
  intros F Hz Hn Hs Ho. change INODE_MAX_BYTES with 71680 in Ho. unfold byte_of. change BLOCK_SIZE with 512. cbn [v_block MkfsLaws.vol].
  pose proof (Z.div_mod o 512 ltac:(lia)) as Hdm. pose proof (Z.mod_pos_bound o 512 ltac:(lia)) as Hmb. set (k := o / 512) in *.
  assert (0 <= k < 140) as Hk by (split; [apply Z.div_pos|apply Z.div_lt_upper_bound]; lia).
  specialize (Hs k). unfold slot in Hs at 1. rewrite (proj2 (Z.eqb_neq k 140)) in Hs by lia. rewrite Hs.
  destruct (decide (slot d (ent n) k = 0)) as [E|E].
  - rewrite E, Hz. unfold zero_block. rewrite lookup_replicate_2 by lia. rewrite (lookup_ge_None_2 (data n)); [done|].
    destruct (decide (512 * k < len (data n))) as [Hl|Hl]; [by destruct (fo_have _ _ _ _ F n k Hn Hk Hl)|]. unfold len in Hl. lia.
  - rewrite (fo_data _ _ _ _ F n k Hn Hk E). rewrite lookup_chunk by lia. cbn [from_option id default]. f_equal. f_equal. lia.
Qed.

Lemma read_bytes d fb ent data n e : files_ok d fb ent data -> d 0 = zero_block -> ino n -> (forall k, slot d e k = slot d (ent n) k) ->
  forall off m, 0 <= off -> off + Z.of_nat m <= INODE_MAX_BYTES -> file_bytes (MkfsLaws.vol d) e off m = (fun i => default 0 (data n !! (Z.to_nat off + i)%nat)) <$> seq 0 m.
Proof.
  intros F Hz Hn Hs off m H0 Hm. unfold file_bytes. apply list_fmap_ext. intros i x Hx. apply lookup_seq in Hx as [-> Hi].
  rewrite (read_byte d fb ent data n) by (done || lia). do 2 f_equal. lia.
Qed.

Lemma read_all d fb ent data n e : files_ok d fb ent data -> d 0 = zero_block -> ino n -> (forall k, slot d e k = slot d (ent n) k) -> len (data n) <= INODE_MAX_BYTES ->
  file_bytes (MkfsLaws.vol d) e 0 (length (data n)) = data n.
Proof.
  intros F Hz Hn Hs Hl. unfold len in Hl. rewrite (read_bytes d fb ent data n) by (done || lia). apply list_eq. intros i. rewrite list_lookup_fmap.
  destruct (decide (i < length (data n))%nat) as [Hi|Hi].
  - rewrite lookup_seq_lt by done. change (Some (default 0 (data n !! i)) = data n !! i). destruct (lookup_lt_is_Some_2 _ _ Hi) as [x ->]. done.
  - rewrite lookup_seq_ge by lia. rewrite lookup_ge_None_2 by lia. done.
Qed.

Lemma dirs_lookup es i x j : Forall wf_dirent es -> es !! i = Some x -> (j < 16)%nat -> (es ≫= encode_dirent) !! (16 * i + j)%nat = encode_dirent x !! j.
Proof.
  intros H. revert i. induction H as [|y es Hy _ IH]; intros i Hi Hj; [done|]. change ((y :: es) ≫= encode_dirent) with (encode_dirent y ++ (es ≫= encode_dirent)).
  pose proof (length_encode_dirent y Hy) as Ly. destruct i as [|i].
  - injection Hi as ->. rewrite lookup_app_l by lia. f_equal.
  - rewrite lookup_app_r by lia. rewrite <- (IH i) by done. f_equal. lia.
Qed.

(** The entry at [16 * i], as the kernel reads it. *)
Lemma read_dirent d fb ent data l e i : files_ok d fb ent data -> d 0 = zero_block -> data 1 = root_data l -> (forall k, slot d e k = slot d (ent 1) k) ->
  Forall valid l -> len l <= 198 -> 16 * (Z.of_nat i + 1) <= INODE_MAX_BYTES ->
  match dir_of l !! i with Some x => dirent (MkfsLaws.vol d) e (16 * Z.of_nat i) = x | None => de_inode_no (dirent (MkfsLaws.vol d) e (16 * Z.of_nat i)) = 0 end.
Proof.
  intros F Hz Hd Hs V Hl Hi. pose proof (dir_wf l V Hl) as Hw. unfold dirent. rewrite (read_bytes d fb ent data 1) by (done || unfold ino, NINODES; lia). rewrite Hd.
  unfold root_data. destruct (dir_of l !! i) as [x|] eqn:Ex.
  - assert (wf_dirent x) as Wx by (eapply Forall_lookup_1; eauto). rewrite <- (decode_encode_dirent x [] Wx), app_nil_r. f_equal. apply list_eq. intros j. rewrite list_lookup_fmap.
    pose proof (length_encode_dirent x Wx). destruct (decide (j < 16)%nat).
    + rewrite lookup_seq_lt by done. cbn [fmap option_fmap option_map]. replace (Z.to_nat (16 * Z.of_nat i) + (0 + j))%nat with (16 * i + j)%nat by lia.
      rewrite (dirs_lookup _ _ x) by done. destruct (lookup_lt_is_Some_2 (encode_dirent x) j) as [c ->]; [lia|done].
    + rewrite lookup_seq_ge by lia. rewrite lookup_ge_None_2 by lia. done.
  - apply lookup_ge_None_1 in Ex. assert ((fun j => default 0 ((dir_of l ≫= encode_dirent) !! (Z.to_nat (16 * Z.of_nat i) + j)%nat)) <$> seq 0 16 = replicate 16 0) as ->; [|done].
    apply list_eq. intros j. rewrite list_lookup_fmap. destruct (decide (j < 16)%nat).
    + rewrite lookup_seq_lt, lookup_replicate_2 by done. cbn [fmap option_fmap option_map]. rewrite lookup_ge_None_2; [done|]. rewrite dirs_length by done. lia.
    + rewrite lookup_seq_ge by lia. rewrite lookup_ge_None_2 by (rewrite length_replicate; lia). done.
Qed.

(** ** The disk at the end *)

Record formatted (l : list arg) (s : Mkfs) : Prop := {
  fm_super : decode_super (blk s 1) = super;
  fm_log : h_num_blocks (decode_header (blk s (sb_log_start super))) = 0;
  fm_root : ie_type (entry (blk s) ROOT_INODE_NO) = INODE_DIRECTORY /\ ie_num_links (entry (blk s) ROOT_INODE_NO) = 1;
  fm_file : forall j a, l !! j = Some a -> let e := entry (blk s) (2 + Z.of_nat j) in
    ie_type e = INODE_REGULAR /\ ie_num_links e = 1 /\ ie_num_bytes e = len (content a) /\ file_bytes (MkfsLaws.vol (blk s)) e 0 (length (content a)) = content a;
  fm_name : forall j a, l !! j = Some a ->
    dir_lookup (MkfsLaws.vol (blk s)) (entry (blk s) ROOT_INODE_NO) (name_of a) = Some (2 + Z.of_nat j, 16 * (2 + Z.of_nat j));
  fm_bitmap : forall b, 0 <= b < BIT_PER_BLOCK -> bit_of (blk s (sb_bitmap_start super)) b = Some (b <? total l);
  fm_blocks : forall n k, ino n -> 0 <= k < INODE_MAX_BLOCKS -> let b := block_of (MkfsLaws.vol (blk s)) (entry (blk s) n) k in b <> 0 -> nmeta <= b < total l;
}.

(** The rounded size of the root directory. *)
Definition root_size (l : list arg) : Z := (16 * (2 + len l) / 512 + 1) * 512.

(** The state after the last writes. *)
Definition finished (l : list arg) (s : Mkfs) : Mkfs :=
  wrote 91 (set_bits (Z.to_nat (total l)) 0 zero_block) (winoded 1 (set_num_bytes (root_size l) (entry (blk s) 1)) s).

Section finish.
Context (l : list arg) (s : Mkfs).
Hypothesis (B : built l s) (V : Forall valid l) (Hl : len l <= 198) (Ht : total l <= FSSIZE).

Lemma root_size_bounds : 16 * (2 + len l) < root_size l <= 4096 /\ root_size l mod 512 = 0.
Proof using Hl.
  assert (0 <= len l) by (unfold len; lia). unfold root_size. pose proof (Z.div_mod (16 * (2 + len l)) 512 ltac:(lia)). pose proof (Z.mod_pos_bound (16 * (2 + len l)) 512 ltac:(lia)).
  split; [|apply Z.mod_mul; lia]. assert (16 * (2 + len l) / 512 < 7) by (apply Z.div_lt_upper_bound; lia). lia.
Qed.

Lemma wp_finish (Q : Z -> Mkfs -> Prop) : Q 0 (finished l s) ->
  wp (din ← rinode 1; let off := xint (ie_num_bytes din) in let off := u32 ((off / BLOCK_SIZE + 1) * BLOCK_SIZE) in
      winode 1 (set_num_bytes (xint off) din) ;; used ← gets k_freeblock; balloc used ;; mret 0) Q s.
Proof using All.
  intros HQ. destruct B as [[G1 G2 G3 G4 G5 G6 G7 G8] Ei Ef]. assert (ino 1) as H1 by (unfold ino, NINODES; lia).
  apply wp_bind, wp_rinode; try done. destruct (meta_fields _ _ _ _ _ _ (G5 1 H1)) as (_ & _ & _ & _ & Hm5).
  change (data_of l 1) with (root_data l) in Hm5. rewrite root_len in Hm5 by done. destruct root_size_bounds as [Hr _]. assert (0 <= len l) by (unfold len; lia).
  rewrite Hm5, (xint_word (16 * (2 + len l))) by (unfold is_word; lia). cbv zeta. change BLOCK_SIZE with 512. fold (root_size l). unfold u32. rewrite wrap_small, xint_word by (unfold is_word; lia).
  apply wp_bind, wp_winode; try done. apply wp_bind, wp_gets. change (k_freeblock (winoded 1 _ s)) with (k_freeblock s). rewrite Ef. unfold FSSIZE in Ht.
  unfold balloc. apply wp_bind, wp_bind, wp_assert; [change (BLOCK_SIZE * 8) with 4096; lia|]. apply wp_bind, wp_gets. change (k_sb (winoded 1 _ s)) with (k_sb s). rewrite G2.
  change (sb_bitmap_start super) with 91. apply wp_wsect; [by apply full_wrote|unfold FSSIZE; lia|]. apply wp_ret. exact HQ.
Qed.

Lemma finished_blk b : 0 <= b -> b <> 91 -> b <> 65 -> blk (finished l s) b = blk s b.
Proof using B.
  intros H0 H1 H2. destruct B as [[G1 _ _ _ _ _ _ _] _ _]. unfold finished. rewrite blk_wrote by first [by apply full_wrote|unfold FSSIZE; lia].
  rewrite upd_other by done. apply winoded_blk; try done.
Qed.

Lemma finished_bitmap : blk (finished l s) 91 = set_bits (Z.to_nat (total l)) 0 zero_block.
Proof using B.
  destruct B as [[G1 _ _ _ _ _ _ _] _ _]. unfold finished. rewrite blk_wrote by first [by apply full_wrote|unfold FSSIZE; lia]. apply upd_same.
Qed.

Lemma root_wf : wf_inode (set_num_bytes (root_size l) (entry (blk s) 1)).
Proof using B Hl.
  destruct root_size_bounds as [Hr _]. assert (0 <= len l) by (unfold len; lia). apply wf_set_num_bytes; [|unfold is_word; lia].
  apply (fo_wf _ _ _ _ (gd_files _ _ _ (bu_good _ _ B))). unfold ino, NINODES. lia.
Qed.

Lemma finished_entry n : ino n -> entry (blk (finished l s)) n = upd 1 (set_num_bytes (root_size l) (entry (blk s) 1)) (entry (blk s)) n.
Proof using B Hl.
  intros Hn. destruct B as [[G1 G2 G3 _ _ _ _ _] _ _]. assert (ino 1) as H1 by (unfold ino, NINODES; lia). destruct (inode_block_eq n Hn) as (Hb & _).
  rewrite <- (winoded_entry s 1 _ G1 H1 root_wf (fo_blocks _ _ _ _ G3) n Hn). rewrite !entry_eq by done.
  unfold finished. rewrite blk_wrote by first [by apply full_wrote|unfold FSSIZE; lia]. by rewrite upd_other by lia.
Qed.

Lemma finished_slots n k : ino n -> slot (blk (finished l s)) (entry (blk (finished l s)) n) k = slot (blk s) (entry (blk s) n) k.
Proof using B Hl.
  intros Hn. rewrite finished_entry by done. pose proof (gd_files _ _ _ (bu_good _ _ B)) as F. pose proof nmeta_eq.
  transitivity (slot (blk (finished l s)) (entry (blk s) n) k); [destruct (decide (n = 1)) as [->|]; [by rewrite upd_same|by rewrite upd_other]|].
  apply slot_ext. intros Hi. pose proof (fo_range _ _ _ _ F n 140 Hn ltac:(lia) Hi) as Hr. rewrite slot_indirect in Hr. apply finished_blk; lia.
Qed.

Lemma finished_files : files_ok (blk (finished l s)) (total l) (entry (blk (finished l s))) (data_of l).
Proof using All.
  pose proof B as [[G1 G2 G3 _ _ _ _ _] _ Ef]. rewrite Ef in G3. pose proof nmeta_eq as Hm. pose proof (fo_fb _ _ _ _ G3) as Hfb.
  destruct (files_meta _ _ _ _ G3 (blk (finished l s))) as [F _].
  - intros b. apply blk_wrote_block; [intros b'; apply winoded_block; [apply root_wf|apply G3]|].
    apply set_bits_spec; [lia|unfold FSSIZE in Ht; lia|apply zero_is_block].
  - intros b Hb. apply finished_blk; lia.
  - eapply files_slots; [| |done|exact F].
    + intros n k Hn. rewrite finished_slots by done. symmetry. apply slot_ext. intros Hi. pose proof (fo_range _ _ _ _ G3 n 140 Hn ltac:(lia) Hi) as Hr. rewrite slot_indirect in Hr. apply finished_blk; lia.
    + intros n Hn. rewrite finished_entry by done. destruct (decide (n = 1)) as [->|]; [rewrite upd_same; apply root_wf|]. rewrite upd_other by done. by apply G3.
Qed.

Lemma finished_zero : blk (finished l s) 0 = zero_block.
Proof using B. rewrite finished_blk by lia. apply (gd_zero _ _ _ (bu_good _ _ B)). by left. Qed.

Lemma finished_file j a : l !! j = Some a -> let e := entry (blk (finished l s)) (2 + Z.of_nat j) in
  ie_type e = INODE_REGULAR /\ ie_num_links e = 1 /\ ie_num_bytes e = len (content a) /\ file_bytes (MkfsLaws.vol (blk (finished l s))) e 0 (length (content a)) = content a.
Proof using All.
  intros Ha e. pose proof (lookup_lt_Some _ _ _ Ha) as Hj. unfold len in Hl. assert (ino (2 + Z.of_nat j)) as Hn by (unfold ino, NINODES; lia).
  assert (data_of l (2 + Z.of_nat j) = content a) as Ed.
  { unfold data_of. rewrite (proj2 (Z.eqb_neq _ 1)), (proj2 (Z.ltb_ge _ 2)) by lia. replace (Z.to_nat (2 + Z.of_nat j - 2)) with j by lia. by rewrite Ha. }
  assert (types_of l (2 + Z.of_nat j) = INODE_REGULAR) as Et.
  { unfold types_of, len. rewrite (proj2 (Z.eqb_neq _ 1)), (proj2 (Z.leb_le 2 _)), (proj2 (Z.ltb_lt _ _)) by lia. done. }
  pose proof (gd_meta _ _ _ (bu_good _ _ B) (2 + Z.of_nat j) Hn) as Hm. rewrite Et, Ed in Hm. destruct (meta_fields _ _ _ _ _ _ Hm) as (M1 & _ & _ & M4 & M5).
  unfold e. rewrite finished_entry, upd_other by (done || lia). split_and!; [done|done|done|]. rewrite <- Ed.
  apply (read_all _ (total l) (entry (blk (finished l s)))); [apply finished_files|apply finished_zero|done| |].
  - intros k. by rewrite finished_entry, upd_other by (done || lia).
  - rewrite Ed. assert (valid a) as Va by (by eapply Forall_lookup_1). apply Va.
Qed.

(** The names in the root directory. *)
Definition names_of : list (list Z) := [46] :: [46; 46] :: (name_of <$> l).
Hypothesis Hnames : NoDup (take 14 <$> names_of).

Lemma entry_names i x : dir_of l !! i = Some x -> de_inode_no x <> 0 /\ exists nm, names_of !! i = Some nm /\ take 14 (cstr (de_name x)) = take 14 nm.
Proof using V.
  unfold dir_of, names_of. destruct i as [|[|i]]; cbn [lookup list_lookup].
  - intros [= <-]. split; [done|]. exists [46]. done.
  - intros [= <-]. split; [done|]. exists [46; 46]. done.
  - intros Hx. change (imap entry_of l !! i = Some x) in Hx. rewrite list_lookup_imap in Hx. destruct (l !! i) as [a|] eqn:Ea; [|done]. injection Hx as <-.
    split; [cbn; lia|]. exists (name_of a). split; [change ((name_of <$> l) !! i = Some (name_of a)); by rewrite list_lookup_fmap, Ea|]. cbn [entry_of de_name].
    rewrite cstr_padded, take_take, cstr_app_zero; [done|]. assert (valid a) as Va by (by eapply Forall_lookup_1).
    eapply Forall_impl; [by apply name_bytes|]. cbv beta. lia.
Qed.

Lemma finished_name j a : l !! j = Some a ->
  dir_lookup (MkfsLaws.vol (blk (finished l s))) (entry (blk (finished l s)) ROOT_INODE_NO) (name_of a) = Some (2 + Z.of_nat j, 16 * (2 + Z.of_nat j)).
Proof using All.
  intros Ha. assert (valid a) as Va by (by eapply Forall_lookup_1). pose proof (lookup_lt_Some _ _ _ Ha) as Hj. assert (ino 1) as H1 by (unfold ino, NINODES; lia).
  destruct root_size_bounds as [Hr Hr']. assert (0 <= len l) as Hl0 by (unfold len; lia). unfold ROOT_INODE_NO. set (v := MkfsLaws.vol (blk (finished l s))). set (e := disk_entry super v 1).
  assert (ie_num_bytes e = root_size l) as Ee by (unfold e, v; by rewrite finished_entry, upd_same).
  assert (0 <= root_size l / 16 <= 256) as Hq by (split; [apply Z.div_pos; lia|apply Z.div_le_upper_bound; lia]).
  assert (forall i, 16 * (Z.of_nat i + 1) <= INODE_MAX_BYTES -> match dir_of l !! i with Some x => dirent v e (16 * Z.of_nat i) = x | None => de_inode_no (dirent v e (16 * Z.of_nat i)) = 0 end) as Hd.
  { intros i Hi. apply (read_dirent _ (total l) (entry (blk (finished l s))) (data_of l)); try done; [apply finished_files|apply finished_zero]. }
  assert (dir_of l !! (2 + j)%nat = Some (entry_of j a)) as Edir by (change (imap entry_of l !! j = Some (entry_of j a)); by rewrite list_lookup_imap, Ha).
  assert (cstr (name_of a) = name_of a) as Ec. { apply cstr_nonzero. eapply Forall_impl; [by apply name_bytes|]. cbv beta. lia. }
  assert (names_of !! (2 + j)%nat = Some (name_of a)) as En by (change ((name_of <$> l) !! j = Some (name_of a)); by rewrite list_lookup_fmap, Ha).
  assert (16 * (2 + Z.of_nat j) < root_size l) as Hjr by (unfold len in Hr; lia).
  unfold dir_lookup. rewrite (find_only _ _ (16 * (2 + Z.of_nat j))).
  - cbn [fmap option_fmap option_map]. specialize (Hd (2 + j)%nat). rewrite Edir in Hd. replace (Z.of_nat (2 + j)) with (2 + Z.of_nat j) in Hd by lia.
    rewrite Hd; [done|]. change INODE_MAX_BYTES with 71680. lia.
  - apply elem_of_offsets. exists (2 + j)%nat. rewrite Ee. split; [|lia]. assert (2 + Z.of_nat j < root_size l / 16); [|lia].
    pose proof (Z.div_mod (root_size l) 512 ltac:(lia)). rewrite Hr' in *. replace (root_size l) with (32 * (root_size l / 512) * 16) in * by lia. rewrite Z.div_mul in * by lia. lia.
  - intros x (i & Hi & ->)%elem_of_offsets. rewrite Ee in Hi. rewrite Z.add_0_l. specialize (Hd i ltac:(change INODE_MAX_BYTES with 71680; lia)). unfold matches.
    destruct (dir_of l !! i) as [y|] eqn:Ey; [|rewrite Hd; rewrite andb_false_r; split; [done|]].
    + rewrite Hd. destruct (entry_names i y Ey) as (Hy & nm & Enm & Ecs). rewrite (proj2 (Z.eqb_neq _ 0) Hy). cbn [negb]. rewrite andb_true_r, bool_decide_eq_true.
      unfold same_name. rewrite Ecs, Ec. split.
      * intros Et. assert (i = 2 + j)%nat as ->; [|lia]. apply (NoDup_lookup (take 14 <$> names_of) i (2 + j) (take 14 nm) Hnames); rewrite list_lookup_fmap; [by rewrite Enm|]. rewrite En, Et. done.
      * intros Hij. assert (i = 2 + j)%nat as -> by lia. rewrite En in Enm. by injection Enm as ->.
    + intros Hij. assert (i = 2 + j)%nat as -> by lia. congruence.
Qed.

Lemma finished_formatted : formatted l (finished l s).
Proof using All.
  pose proof B as [[G1 G2 G3 G4 G5 G6 G7 G8] Ei Ef]. assert (ino 1) as H1 by (unfold ino, NINODES; lia). pose proof nmeta_eq. pose proof (fo_fb _ _ _ _ finished_files) as Hfb. split.
  - rewrite finished_blk, G7 by lia. vm_compute. reflexivity.
  - change (sb_log_start super) with 2. rewrite finished_blk, G8 by lia. vm_compute. reflexivity.
  - unfold ROOT_INODE_NO. rewrite finished_entry, upd_same by done. destruct (meta_fields _ _ _ _ _ _ (G5 1 H1)) as (M1 & _ & _ & M4 & _). done.
  - apply finished_file.
  - apply finished_name.
  - intros b Hb. change (sb_bitmap_start super) with 91. rewrite finished_bitmap. change BIT_PER_BLOCK with 4096 in Hb. unfold FSSIZE in Ht. apply balloc_bits; lia.
  - intros n k Hn Hk b Hb. change INODE_MAX_BLOCKS with 140 in Hk. pose proof (fo_range _ _ _ _ finished_files n k Hn ltac:(lia)) as Hr.
    unfold slot in Hr. rewrite (proj2 (Z.eqb_neq k 140)) in Hr by lia. by apply Hr.
Qed.
End finish.

(** C14: [mkfs], given files that can be opened and read, with different names, at most
    198 of them and with room for their blocks, ends with status 0, no assertion fails,
    and the image is a file system that holds the files: the kernel's own lookup of a
    name in the root directory gives the inode of that file, a regular file with one
    link whose size and bytes are those of the input; the super block is the one the
    kernel expects, the log is empty, and the bitmap marks exactly the blocks from 0
    up, which hold the metadata and every block of every file. *)
Theorem mkfs_spec l : Forall valid l -> len l <= 198 -> total l <= FSSIZE -> NoDup (take 14 <$> names_of l) ->
  wp (main l) (fun r s => r = 0 /\ formatted l s) start.
Proof.
  intros V Hl Ht Hn. unfold main. apply wp_bind, wp_assert; [done|]. apply wp_bind, wp_assert; [done|]. apply wp_bind, wp_modify, wp_bind. apply wp_blank.
  apply wp_bind, wp_wsect; [done|unfold FSSIZE; lia|]. fold headed. apply wp_root. intros s B. apply wp_bind. apply (wp_add_files l [] s); try done.
  intros s' B'. apply (wp_finish l s' B'); try done. split; [done|]. by apply finished_formatted.
Qed.

(** ** A concrete instance: [/bin/_cat] and [init] *)

Definition example_args : list arg := [([47; 98; 105; 110; 47; 95; 99; 97; 116], Some [[1; 2; 3]; [4; 5]]); ([105; 110; 105; 116], Some [replicate 512 7; [8]])].

Lemma mkfs_spec_witness : wp (main example_args) (fun r s => r = 0 /\ formatted example_args s) start /\ (name_of <$> example_args) = [[99; 97; 116]; [105; 110; 105; 116]].
Proof.
  split; [|reflexivity]. apply mkfs_spec.
  - repeat (apply Forall_cons; split); [| |apply Forall_nil; done].
    + split; [repeat constructor; lia|eexists; reflexivity|repeat constructor; unfold is_byte; lia|vm_compute; discriminate].
    + split; [repeat constructor; lia|eexists; reflexivity| |vm_compute; discriminate].
      cbn [default from_option id snd]. repeat constructor; try (unfold is_byte; lia).
  - vm_compute. discriminate.
  - vm_compute. discriminate.
  - vm_compute. repeat constructor; set_solver.
Defined.
