(* ===== verification/Exec.v ===== *)
(** Program loading (src/kernel/exec.c).

    [execve] reads an ELF file from an inode into the pages of a new page
    directory, puts the arguments on a new stack, and makes the directory that
    of the process. The address space in the state is first that of the process
    and then the new one; the process's own is kept aside as its root and its
    sections ([get_dir], [set_dir]). The strings that [argv] and [envp] point to
    are given, without their NUL, for an argument that is not NULL. *)
From Stdlib Require Import ZArith Lia.
From stdpp Require Import base numbers gmap sets list.
From S2P Require Import Prelude Bytes Sync FsDefs CString Mem Cache BlockCache Inode Path PageTable AddrSpace UserMem Paging.

(** ** The format, of <elf.h> *)

Definition ELFMAG : list Z := [127; 69; 76; 70; 0].
Definition PT_LOAD : Z := 1.
Definition PF_X : Z := 1.
Definition PF_W : Z := 2.
Definition PF_R : Z := 4.

(** The fields the code reads. *)
Record Elf64_Ehdr := mkEhdr { e_ident : list Z; e_entry : Z; e_phoff : Z; e_phnum : Z }.
Record Elf64_Phdr := mkPhdr { p_type : Z; p_flags : Z; p_offset : Z; p_vaddr : Z; p_filesz : Z; p_memsz : Z }.
Definition Ehdr_size : Z := 64.
Definition Phdr_size : Z := 56.

Definition field (off n : nat) (l : list Z) : Z := le_val (slice off n l).
Definition decode_ehdr (l : list Z) : Elf64_Ehdr := mkEhdr (take 16 l) (field 24 8 l) (field 32 8 l) (field 56 2 l).
Definition decode_phdr (l : list Z) : Elf64_Phdr :=
  mkPhdr (field 0 4 l) (field 4 4 l) (field 8 8 l) (field 16 8 l) (field 32 8 l) (field 40 8 l).

(** ** The state *)

(** The registers of the trap frame that [execve] sets. *)
Record UserRegs := mkRegs { ur_x0 : Z; ur_x1 : Z; ur_sp : Z; ur_elr : Z }.
Definition set_x0 (v : Z) (r : UserRegs) : UserRegs := mkRegs v (ur_x1 r) (ur_sp r) (ur_elr r).
Definition set_x1 (v : Z) (r : UserRegs) : UserRegs := mkRegs (ur_x0 r) v (ur_sp r) (ur_elr r).
Definition set_pc (sp elr : Z) (r : UserRegs) : UserRegs := mkRegs (ur_x0 r) (ur_x1 r) sp elr.

Record XS (S : Type) := mkX { x_fs : FsState S; x_as : AS; x_regs : UserRegs }.
Arguments mkX {S} _ _ _.
Arguments x_fs {S} _.
Arguments x_as {S} _.
Arguments x_regs {S} _.
Definition put_fs {S} (v : FsState S) (s : XS S) : XS S := mkX v (x_as s) (x_regs s).
Definition put_as {S} (v : AS) (s : XS S) : XS S := mkX (x_fs s) v (x_regs s).
Definition put_regs {S} (v : UserRegs) (s : XS S) : XS S := mkX (x_fs s) (x_as s) v.

(** The page directory in hand: its root and its sections. *)
Definition get_dir : U (Z * list (Z * section)) := gets (fun a => (pt_root (as_pt a), as_secs a)).
Definition set_dir (d : Z * list (Z * section)) : U unit :=
  modify (fun a => set_secs d.2 (set_pt (mkPt (pt_mem (as_pt a)) (pt_tabs (as_pt a)) d.1) a)).

Definition zeros : list Z := replicate (Z.to_nat PAGE_SIZE) 0.
#[global] Arguments zeros : simpl never.

(** A page for [va0], cleared and mapped; its kernel address. *)
Definition new_page (va0 flags : Z) : U Z :=
  dest ← on_pt (on_mem kalloc_page);
  page_write dest 0 zeros ;;
  on_pt (vmmap va0 dest flags) ;;
  mret dest.

(** [kalloc], [memset], the fields, and [_insert_into_list]. *)
Definition add_section (begin end_ flags : Z) : U unit :=
  a ← on_pt (on_mem (kalloc sizeof_section));
  modify (fun s => set_secs ((a, mkSection flags begin end_ (Sem.init_sem 1) 0 0 0 0) :: as_secs s) s).

(** The zero page in every page of the rest of the data segment. *)
Fixpoint map_zero (fuel : nat) (dest file_sz va : Z) : U unit :=
  if 0 <? file_sz then
    match fuel with
    | O => undefined
    | Datatypes.S fuel' =>
        let va0 := PAGE_BASE va in
        let sz := Z.min (PAGE_SIZE - (va - va0)) file_sz in
        on_pt (vmmap va0 dest (Z.lor PTE_USER_DATA PTE_RO)) ;;
        map_zero fuel' dest (file_sz - sz) (u64 (va + sz))
    end
  else mret tt.

(** A round of either loop ends a page, so this many are enough. *)
Definition rounds (size : Z) : nat := Z.to_nat (size / PAGE_SIZE + 2).

(** [sizeof(struct pgdir)] *)
Definition sizeof_pgdir : Z := 32.

(** ** The stack *)

(** [copyout(exec_pgdir, ...)]: the directory in hand. *)
Definition copy_to (va : Z) (p : list Z) : U unit :=
  r ← gets (fun a => pt_root (as_pt a));
  r' ← copyout r va p;
  modify (fun a => set_pt (mkPt (pt_mem (as_pt a)) (pt_tabs (as_pt a)) r') a).

(** The loop over the strings, the last one first: the stack pointer and the
    addresses of the strings. *)
Fixpoint push_strings (strs : list (list Z)) (sp : Z) : U (Z * list Z) :=
  match strs with
  | [] => mret (sp, [])
  | str :: strs' =>
      '(sp, ps) ← push_strings strs' sp;
      let sp := u64 (sp - (Z.of_nat (length str) + 1)) in
      let sp := u64 (sp - sp mod 8) in
      copy_to sp (str ++ [0]) ;;
      mret (sp, sp :: ps)
  end.

(** The arrays [envp_p] and [argv_p] have 32 elements. *)
Definition NPTRS : Z := 32.

(** The addresses and the NULL after them, over what the array held. *)
Definition pointers (junk ps : list Z) : U (list Z) :=
  if Z.of_nat (length ps) <? NPTRS then mret (splice junk 0 (ps ++ [0])) else undefined.

Definition STACK_PAGES : Z := 10.

(** The pages of the stack, from the top. *)
Definition stack_pages (sp : Z) : U unit :=
  for_each (Z.to_nat STACK_PAGES) 1 (fun i => _ ← new_page (u64 (sp - i * PAGE_SIZE)) PTE_USER_DATA; mret tt).

(** From the stack's pages to the last [copyout]: the number of arguments, their
    array and the stack pointer. The number of elements of both arrays is that
    of [argv]; [junk1] and [junk2] are what the arrays on the kernel stack held. *)
Definition build_stack (max_end : Z) (argv envp : option (list (list Z))) (junk1 junk2 : list Z) : U (Z * Z * Z) :=
  let sp := u64 (PAGE_BASE max_end + PAGE_SIZE + STACK_PAGES * PAGE_SIZE) in
  stack_pages sp ;;
  add_section (u64 (sp - STACK_PAGES * PAGE_SIZE)) sp 1024 ;;
  let sp := u64 (sp - 16) in
  copy_to sp (le_bytes 8 0) ;;
  '(sp, ps) ← push_strings (default [] envp) sp;
  envp_p ← pointers junk1 ps;
  let sp := u64 (sp - 8) in
  copy_to sp (le_bytes 8 0) ;;
  '(sp, ps) ← push_strings (default [] argv) sp;
  argv_p ← pointers junk2 ps;
  let argc := Z.of_nat (length ps) in
  let n := Z.to_nat (argc + 1) in
  let sp := u64 (sp - (argc + 1) * 8) in
  copy_to sp (words_bytes 8 (take n envp_p)) ;;
  let sp := u64 (sp - (argc + 1) * 8) in
  let x1 := sp in
  copy_to sp (words_bytes 8 (take n argv_p)) ;;
  let sp := u64 (sp - 8) in
  copy_to sp (le_bytes 8 argc) ;;
  mret (argc, x1, sp).

(** ** The image *)

Section exec.
Context {S : Type} (sblock : SuperBlock) (cache : BlockCache S) (stack : list Z).
(** The device of [swap_in], and what a section that was just allocated holds. *)
Context (read : Z -> list Z) (junk : section).
Abbreviation X := (M (XS S)).

Definition in_fs {A} (c : M (FsState S) A) : X A := zoom x_fs put_fs c.
Definition in_as {A} (c : U A) : X A := zoom x_as put_as c.

(** [inodes.read(inode_p, dest + k, off, sz)] into the page [dest]. *)
Definition read_into (inode_p dest k off sz : Z) : X Z :=
  s ← get_state;
  r ← in_fs (inode_read sblock cache inode_p (drop (Z.to_nat k) (as_pages (x_as s) dest)) off sz);
  in_as (page_write dest (Z.to_nat k) r.2) ;;
  mret r.1.

(** The bytes of a segment, page by page; the address after them, or nothing
    when the file ends before. *)
Fixpoint load_pages (fuel : nat) (inode_p flags file_sz off va : Z) : X (option Z) :=
  if 0 <? file_sz then
    match fuel with
    | O => undefined
    | Datatypes.S fuel' =>
        let va0 := PAGE_BASE va in
        let sz := Z.min (PAGE_SIZE - (va - va0)) file_sz in
        dest ← in_as (new_page va0 flags);
        r ← read_into inode_p dest (va - va0) off sz;
        if negb (r =? sz) then mret None
        else load_pages fuel' inode_p flags (file_sz - sz) (u64 (off + sz)) (u64 (va + sz))
    end
  else mret (Some va).

(** The body of the loop for a header of type PT_LOAD: the end of the segment,
    or nothing for an error. *)
Definition load_segment (inode_p : Z) (ph : Elf64_Phdr) : X (option Z) :=
  let text := p_flags ph =? Z.lor PF_R PF_X in
  if negb text && negb (p_flags ph =? Z.lor PF_R PF_W) then mret None
  else
    let end_ := u64 (p_vaddr ph + (if text then p_filesz ph else p_memsz ph)) in
    in_as (add_section (p_vaddr ph) end_ (if text then ST_TEXT else ST_FILE)) ;;
    r ← load_pages (rounds (p_filesz ph)) inode_p (if text then Z.lor PTE_USER_DATA PTE_RO else PTE_USER_DATA) (p_filesz ph) (p_offset ph) (p_vaddr ph);
    match r with
    | None => mret None
    | Some va =>
        let va := if negb (va =? PAGE_BASE va) then u64 (PAGE_BASE va + PAGE_SIZE) else va in
        let rest := u64 (va - p_vaddr ph) in
        (if negb text && (rest <? p_memsz ph) then
           in_as (dest ← on_pt (on_mem get_zero_page); map_zero (rounds (p_memsz ph - rest)) dest (p_memsz ph - rest) va)
         else mret tt) ;;
        mret (Some end_)
    end.

(** The loop over the program headers; [buf] holds the local header. *)
Fixpoint load_segments (n : nat) (inode_p ph_off max_end : Z) (buf : list Z) : X (option Z) :=
  match n with
  | O => mret (Some max_end)
  | Datatypes.S n' =>
      r ← in_fs (inode_read sblock cache inode_p buf ph_off Phdr_size);
      if r.1 <? Phdr_size then mret None
      else
        let ph := decode_phdr r.2 in
        let ph_off := u64 (ph_off + Phdr_size) in
        if negb (p_type ph =? PT_LOAD) then load_segments n' inode_p ph_off max_end r.2
        else
          e ← load_segment inode_p ph;
          match e with
          | None => mret None
          | Some end_ => load_segments n' inode_p ph_off (Z.max max_end end_) r.2
          end
  end.

(** From the allocation of [exec_pgdir] to the end of the loop: its address and
    the end of the last segment. *)
Definition load_image (inode_p : Z) (h : Elf64_Ehdr) (buf : list Z) : X (Z * option Z) :=
  exec_pgdir ← in_as (on_pt (on_mem (kalloc sizeof_pgdir)));
  in_as (on_pt init_pgdir) ;;
  in_as (modify (set_secs [])) ;;
  in_as (init_sections junk) ;;
  r ← load_segments (Z.to_nat (e_phnum h)) inode_p (e_phoff h) 0 buf;
  mret (exec_pgdir, r).

(** The new directory becomes that of the process: its old one is freed, the list
    of sections gets the process's head, and the structure goes back. Setting
    ttbr0 is the business of Sched.v. *)
Definition switch_dir (old : Z * list (Z * section)) (exec_pgdir : Z) : U unit :=
  new ← get_dir;
  set_dir old ;;
  free_pgdir read ;;
  set_dir new ;;
  on_pt (on_mem (kfree exec_pgdir)).

(** [execve] in the operation [ctx]; [ebuf] and [pbuf] hold the local headers. *)
Definition execve (ctx : Z) (path : list Z) (argv envp : option (list (list Z))) (ebuf pbuf junk1 junk2 : list Z) : X Z :=
  in_fs (on_cache (bc_begin_op cache ctx)) ;;
  inode_p ← in_fs (namei sblock cache stack path ctx (replicate (Z.to_nat FILE_NAME_MAX_LENGTH) 0));
  if inode_p =? 0 then in_fs (on_cache (bc_end_op cache ctx)) ;; PANIC
  else
    let done := in_fs (inode_unlock inode_p) ;; in_fs (inode_put sblock cache ctx inode_p) ;; in_fs (on_cache (bc_end_op cache ctx)) in
    in_fs (inode_lock inode_p) ;;
    r ← in_fs (inode_read sblock cache inode_p ebuf 0 Ehdr_size);
    if r.1 <? Ehdr_size then done ;; mret (-1)
    else
      let elf_header := decode_ehdr r.2 in
      c ← deref (strncmp (e_ident elf_header) ELFMAG 4);
      ASSERT (c =? 0) ;;
      old ← in_as get_dir;
      '(exec_pgdir, image) ← load_image inode_p elf_header pbuf;
      match image with
      | None => done ;; in_as (free_pgdir read) ;; in_as (set_dir old) ;; mret (-1)
      | Some max_end =>
          done ;;
          '(argc, x1, sp) ← in_as (build_stack max_end argv envp junk1 junk2);
          modify (fun s => put_regs (set_x1 x1 (set_x0 argc (x_regs s))) s) ;;
          in_as (switch_dir old exec_pgdir) ;;
          modify (fun s => put_regs (set_pc sp (e_entry elf_header) (x_regs s)) s) ;;
          mret 0
      end.
End exec.
