(* ===== verification/ExecLaws.v ===== *)
(** The address space that [execve] builds (Exec.v), page by page: a virtual page
    is not mapped, has a page of its own, or shares the zero page. *)
From Stdlib Require Import ZArith Lia.
From stdpp Require Import base numbers gmap sets list.
From S2P Require Import Prelude Bytes Sync FsDefs CString Mem Cache BlockCache Inode Path PageTable AddrSpace UserMem Paging Fork Exec.

(** ** Small allocations of the kernel heap *)

Definition heap_ready (m : Mem) : Prop := m_lock m = false /\ length (m_free m) = 256%nat.

(** What a small [kalloc] does to the rest of memory: it may take the next free
    page. *)
Definition small_alloc (m m' : Mem) : Prop :=
  heap_ready m' /\ m_zero_page m' = m_zero_page m /\
  ((m_nodes m' = m_nodes m /\ m_ref m' = m_ref m) \/ exists q, m_nodes m = q :: m_nodes m' /\ m_ref m' = <[page_num q := 0]> (m_ref m)).

Lemma wp_kalloc_small m size :
  heap_ready m -> 0 <= size <= 4072 -> m_nodes m <> [] -> (forall q, q ∈ m_nodes m -> 0 <= page_num q < PHYSTOP / PAGE_SIZE) ->
  wp (kalloc size) (fun _ m' => small_alloc m m') m.
Proof.
  intros [Hl Hf] Hsize Hn Hp. destruct (units_for_small size Hsize) as [Hnum _]. unfold kalloc. apply wp_bind. unfold mem_lock at 1, wp at 1. rewrite Hl.
  cbn zeta. set (number := units_for size) in *. rewrite (proj2 (Z.eqb_neq number 256)) by lia. apply wp_bind.
  apply (wp_for_loop (fun _ m' => m' = set_mem_lock true m)); [done| |].
  - intros i m' Hi ->. wp_step. wp_step. wp_step. rewrite (proj2 (Z.ltb_ge i 0)) by lia.
    destruct (lookup_lt_is_Some_2 (m_free m) (Z.to_nat i)) as [l El]; [lia|]. eapply wp_deref; [exact El|]. destruct l as [|x l]; [by apply wp_ret|].
    apply wp_bind, (wp_fetch_block _ i x l); [lia|exact El|]. apply wp_bind.
    assert (forall m2 : Mem, m_nodes m2 = m_nodes m -> m_ref m2 = m_ref m -> m_zero_page m2 = m_zero_page m -> length (m_free m2) = 256%nat ->
      wp (put_header x (number - 1) ;; mem_unlock ;; mret (Some (x + 8))) (fun r m' => match r with Some z => wp (mret z : M Mem Z) (fun _ m' => small_alloc m m') m' | None => m' = set_mem_lock true m end) m2) as Hend.
    { intros m2 E1 E2 E3 E4. unfold put_header, mem_unlock. wp_steps. split; [done|]. split; [done|]. left. done. }
    destruct (i + 1 - number =? 0) eqn:Er.
    + apply wp_ret. apply Hend; [done..|]. cbn. by rewrite length_insert.
    + destruct (lookup_lt_is_Some_2 (<[Z.to_nat i := l]> (m_free m)) (Z.to_nat (i + 1 - number - 1))) as [l2 E2]; [rewrite length_insert; lia|].
      eapply wp_add_block; [lia|exact E2|]. apply Hend; [done..|]. cbn. by rewrite !length_insert.
  - intros m' ->. destruct (m_nodes m) as [|q ps] eqn:En; [done|]. apply wp_bind. eapply wp_kalloc_page_raw; [exact En|apply Hp; by left|].
    destruct (lookup_lt_is_Some_2 (m_free m) (Z.to_nat (256 - number - 1))) as [l2 E2]; [lia|].
    apply wp_bind. eapply wp_add_block; [lia|exact E2|]. unfold put_header, mem_unlock. wp_steps. split; [split; [done|]; cbn; by rewrite length_insert|].
    split; [done|]. right. exists q. by rewrite En.
Qed.

(** ** The contents of an address space *)

Inductive upage := Own (bs : list Z) (flags : Z) | Zero.
Definition ro_data : Z := Z.lor PTE_USER_DATA PTE_RO.

Abbreviation zpage a := (m_zero_page (pt_mem (as_pt a))).

Definition shows (a : AS) (v : Z) (x : option upage) : Prop :=
  match x with
  | None => translate (as_pt a) (4096 * v) = None
  | Some Zero => find_entry (as_pt a) (4096 * v) = Some (Z.lor (K2P (zpage a)) ro_data)
  | Some (Own bs fl) => exists q, kpage q /\ PTE_ADDRESS fl = 0 /\ is_valid fl = true /\ find_entry (as_pt a) (4096 * v) = Some (Z.lor (K2P q) fl) /\
      as_pages a q = bs /\ q <> zpage a /\ forall w, vpage w -> w <> v -> ~ maps (as_pt a) w q
  end.

Record zero_ok (T : gmap (list Z) Z) (a : AS) : Prop := {
  z_page : kpage (zpage a);
  z_free : zpage a ∉ nodes (as_pt a);
  z_tab : forall p, T !! p <> Some (zpage a);
  z_ref : 0 <= refs (as_pt a) (zpage a);
  z_bytes : as_pages a (zpage a) = zeros;
}.

Definition view := Z -> option upage.
Definition vset (v : Z) (x : upage) (f : view) : view := fun w => if w =? v then Some x else f w.

Record image (T : gmap (list Z) Z) (f : view) (a : AS) : Prop := {
  im_space : space_ok None T (as_pt a);
  im_whole : whole_pages a;
  im_heap : heap_ready (pt_mem (as_pt a));
  im_zero : zero_ok T a;
  im_view : forall v, vpage v -> shows a v (f v);
}.

Lemma image_ext T f g a : (forall v, vpage v -> f v = g v) -> image T f a -> image T g a.
Proof. intros E [H1 H2 H3 H4 H5]. split; [done..|]. intros v Hv. rewrite <- E by done. by apply H5. Qed.

Lemma length_zeros : Z.of_nat (length zeros) = PAGE_SIZE.
Proof. unfold zeros. rewrite length_replicate. unfold PAGE_SIZE. lia. Qed.

Lemma entry_page q fl : kpage q -> PTE_ADDRESS fl = 0 -> P2K (PTE_ADDRESS (Z.lor (K2P q) fl)) = q.
Proof. intros (Hr & Hp & _) Hf. rewrite PTE_ADDRESS_lor by done. by apply P2K_K2P. Qed.

Lemma offset_base v : 0 <= v -> VA_OFFSET (4096 * v) = 0.
Proof. intros Hv. destruct (VA_PARTS (4096 * v)) as (_ & _ & _ & _ & ->); [lia|]. rewrite Z.mul_comm. by apply Z.mod_mul. Qed.

Lemma ro_entry_maps s v q fl :
  kpage q -> PTE_ADDRESS fl = 0 -> is_valid fl = true -> vpage v -> find_entry s (4096 * v) = Some (Z.lor (K2P q) fl) -> forall x, maps s v x <-> x = q.
Proof.
  intros Hq Hf Hv [Hp _] E x. assert (translate s (4096 * v) = Some (K2P q)) as Et.
  { unfold translate. rewrite E. cbn [mbind option_bind]. rewrite is_valid_lor by done. rewrite offset_base by done. destruct Hq as (_ & Hq & _). by rewrite PTE_ADDRESS_lor, Z.add_0_r. }
  pose proof (P2K_K2P q ltac:(apply Hq)) as Ek. split; [intros (pa & Ep & ->); congruence|intros ->; exists (K2P q); split; [done|by symmetry]].
Qed.

Lemma ro_data_flags : PTE_ADDRESS ro_data = 0 /\ is_valid ro_data = true.
Proof. split; vm_compute; reflexivity. Qed.

Lemma shows_maps T f a v x q : image T f a -> vpage v -> shows a v x -> maps (as_pt a) v q ->
  match x with None => False | Some Zero => q = zpage a | Some (Own _ _) => q <> zpage a end.
Proof.
  intros Him Hv Hs Hm. destruct x as [[bs fl|]|]; cbn in Hs.
  - destruct Hs as (q' & Kq & Hfl & Hval & E & _ & Hz & _). apply (ro_entry_maps _ v q' fl) in Hm; [by subst|done..].
  - destruct ro_data_flags. by apply (ro_entry_maps _ v (zpage a) ro_data (z_page _ _ (im_zero _ _ _ Him))) in Hm.
  - destruct Hm as (pa & E & _). congruence.
Qed.

(** ** Steps *)

(** The map of one more page: the other pages show what they did. *)
Lemma shows_mapped T f a va q fl T' t l s' w x pages :
  let v := va / 4096 in
  image T f a -> vmmapped T (as_pt a) va q fl T' t l s' -> space_ok None T' s' -> 0 <= va < 2 ^ 48 -> kpage q -> q ∉ nodes (as_pt a) ->
  m_zero_page (pt_mem s') = zpage a -> vpage w -> w <> v -> shows a w x -> (forall y, y <> q \/ y = zpage a -> pages y = as_pages a y) ->
  (q = zpage a \/ ~ maps (as_pt a) w q) -> shows (set_pages pages (set_pt s' a)) w x.
Proof.
  intros v Him Hvm Hok Hva Kq Nq Ez Hw Hne Hs Hpg Hq. pose proof (vpage_range w Hw) as Hr.
  assert (4096 * w / 4096 = w) as Ew by (rewrite Z.mul_comm; apply Z.div_mul; lia).
  assert (forall e, find_entry (as_pt a) (4096 * w) = Some e -> find_entry s' (4096 * w) = Some e) as Hfe.
  { intros e. apply (vm_others _ _ _ _ _ _ _ _ _ Hvm); [lia|]. by rewrite Ew. }
  destruct x as [[bs fl'|]|]; cbn in *.
  - destruct Hs as (y & Ky & Hf & Hv & E & Eb & Hz & Hu). exists y. rewrite Ez.
    assert (y <> q) as Hyq. { intros ->. destruct Hq as [->|Hq]; [done|]. apply Hq. by apply (ro_entry_maps _ w q fl'). }
    split_and!; try done; [by apply Hfe|by rewrite Hpg by (by left)|]. intros w' Hw' Hn' (pa & Et & Ey). pose proof (vpage_range w' Hw').
    rewrite (vm_translate _ _ _ _ _ _ _ _ _ Hvm) in Et by done. rewrite (Z.mul_comm 4096 w'), Z.div_mul in Et by lia. destruct (w' =? va / 4096) eqn:Ev.
    + injection Et as <-. rewrite (Z.mul_comm w'), offset_base, Z.add_0_r, P2K_K2P in Ey by (lia || apply Kq). done.
    + apply (Hu w' Hw' Hn'). exists pa. split; [by rewrite Z.mul_comm|done].
  - rewrite Ez. by apply Hfe.
  - rewrite (vm_translate _ _ _ _ _ _ _ _ _ Hvm) by done. rewrite Ew. by rewrite (proj2 (Z.eqb_neq w (va / 4096))).
Qed.

Lemma mapped_entry T s va q fl T' t l s' : vmmapped T s va q fl T' t l s' -> 0 <= va -> find_entry s' va = Some (Z.lor (K2P q) fl).
Proof.
  intros Hvm Hv. rewrite (find_entry_tree T' s' va (vm_ok _ _ _ _ _ _ _ _ _ Hvm) Hv), (vm_table _ _ _ _ _ _ _ _ _ Hvm). cbn [mbind option_bind].
  rewrite (vm_entries _ _ _ _ _ _ _ _ _ Hvm). cbn [mbind option_bind]. apply (vm_entry _ _ _ _ _ _ _ _ _ Hvm).
Qed.

(** [vmmap] leaves the heap and the zero page alone. *)
Definition rest (s : PtState) : bool * list (list Z) * Z := (m_lock (pt_mem s), m_free (pt_mem s), m_zero_page (pt_mem s)).
Definition keeps {A} (c : M PtState A) : Prop := forall s a s', c s = Done a s' -> rest s' = rest s.

Lemma keeps_wp {A} (c : M PtState A) (Q : A -> PtState -> Prop) s : keeps c -> wp c Q s -> wp c (fun a s' => Q a s' /\ rest s' = rest s) s.
Proof. intros Hk. unfold wp. destruct (c s) eqn:E; [|done..]. intros HQ. split; [done|]. by eapply Hk. Qed.

Lemma keeps_bind {A B} (c : M PtState A) (k : A -> M PtState B) : keeps c -> (forall a, keeps (k a)) -> keeps (a ← c; k a).
Proof. intros H1 H2 s b s'. unfold mbind, M_bind. destruct (c s) as [a s1| | |] eqn:E; [|done..]. intros E2. rewrite (H2 a s1 b s' E2). by apply (H1 s a s1). Qed.

Lemma keeps_ret {A} (a : A) : keeps (mret a).
Proof. by intros s x s' [= <- <-]. Qed.
Lemma keeps_get : keeps get_state.
Proof. by intros s x s' [= <- <-]. Qed.
Lemma keeps_deref {A} (o : option A) : keeps (deref o).
Proof. intros s x s'. destruct o; [|done]. by intros [= <- <-]. Qed.
Lemma keeps_modify g : (forall s, rest (g s) = rest s) -> keeps (modify g).
Proof. intros H s x s' [= <- <-]. apply H. Qed.

Ltac keep :=
  repeat first [apply keeps_ret | apply keeps_get | apply keeps_deref | (apply keeps_modify; done) | (apply keeps_bind; [|intros ?]) | case_match].

Lemma keeps_pte_get t i : keeps (pte_get t i).
Proof. unfold pte_get. keep. Qed.
Lemma keeps_pte_set t i v : keeps (pte_set t i v).
Proof. unfold pte_set. keep. Qed.
Lemma keeps_ref_get i : keeps (on_mem (ref_get i)).
Proof. intros s a s'. unfold on_mem, ref_get, ref_index, mbind, M_bind. destruct ((0 <=? i) && (i <? PHYSTOP / PAGE_SIZE)); [|done]. by intros [= <- <-]. Qed.
Lemma keeps_ref_set i v : keeps (on_mem (ref_set i v)).
Proof. intros s a s'. unfold on_mem, ref_set, ref_index, mbind, M_bind. destruct ((0 <=? i) && (i <? PHYSTOP / PAGE_SIZE)); [|done]. by intros [= <- <-]. Qed.
Lemma keeps_kalloc_page : keeps (on_mem kalloc_page).
Proof.
  intros s a s'. unfold on_mem, kalloc_page, fetch_page, ref_set, ref_index, mbind, M_bind, modify, get_state. cbn.
  destruct (m_nodes (pt_mem s)) as [|q ps]; cbn; destruct (_ && _); [by intros [= <- <-]|done|by intros [= <- <-]|done].
Qed.

Lemma keeps_vmmap va ka fl : keeps (vmmap va ka fl).
Proof.
  unfold vmmap, get_pte, next_table, new_table.
  repeat first [apply keeps_pte_get | apply keeps_pte_set | apply keeps_ref_get | apply keeps_ref_set | apply keeps_kalloc_page | progress keep].
Qed.

(** Mapping the page [q], with [pages] as contents, at a page that is not mapped. *)
Lemma image_vmmap T f a va ka fl pages x :
  let v := va / 4096 in let q := PAGE_BASE ka in
  image T f a -> 0 <= va < 2 ^ 48 -> va = 4096 * v -> (3 <= length (nodes (as_pt a)))%nat ->
  kpage q -> q ∉ nodes (as_pt a) -> (forall p, T !! p <> Some q) -> 0 <= refs (as_pt a) q -> PTE_ADDRESS fl = 0 -> is_valid fl = true ->
  (forall y, y <> q \/ y = zpage a -> pages y = as_pages a y) -> (forall y, Z.of_nat (length (pages y)) = PAGE_SIZE) ->
  (q = zpage a \/ forall w, vpage w -> w <> v -> ~ maps (as_pt a) w q) ->
  (match x with Zero => q = zpage a /\ fl = ro_data | Own bs fl' => q <> zpage a /\ pages q = bs /\ fl' = fl end) ->
  wp (vmmap va ka fl) (fun _ s' => exists T', image T' (vset v x f) (set_pages pages (set_pt s' a)) /\ find_entry s' va = Some (Z.lor (K2P q) fl) /\
    (length (nodes (as_pt a)) <= 3 + length (nodes s'))%nat /\ m_zero_page (pt_mem s') = zpage a /\ T ⊆ T') (as_pt a).
Proof.
  intros v q Him Hva Ev Hn Kq Nq Tq Rq Hfl Hval Hpg Hlen Hu Hx. assert (vpage v) as Hv by (unfold vpage; lia).
  eapply wp_mono; [eapply keeps_wp; [apply keeps_vmmap|apply (wp_space_vmmap_shared None T (as_pt a) va ka fl); try done; apply Him]|].
  fold q v. intros [] s' [(T' & t & l & Hok & Hvm) Er]. injection Er as El Ef Ez. exists T'. pose proof (mapped_entry _ _ _ _ _ _ _ _ _ Hvm ltac:(lia)) as Hfe.
  destruct (vm_nodes _ _ _ _ _ _ _ _ _ Hvm) as (u & Eu & Hu3). split; [|split_and!; [done|rewrite Eu, length_app; lia|done|apply (vm_tree _ _ _ _ _ _ _ _ _ Hvm)]]. split.
  - done.
  - intros y. apply Hlen.
  - destruct (im_heap _ _ _ Him) as [H1 H2]. split; cbn; [by rewrite El|by rewrite Ef].
  - destruct (im_zero _ _ _ Him) as [Z1 Z2 Z3 Z4 Z5]. split; cbn; rewrite Ez; [done| | | |rewrite Hpg by (by right); done].
    + intros Hin. apply Z2. rewrite Eu. apply elem_of_app. by right.
    + intros p Ep. destruct (vm_new _ _ _ _ _ _ _ _ _ Hvm p _ Ep) as [E|E]; [by apply (Z3 p)|done].
    + destruct (decide (zpage a = q)) as [E|Hne]; [rewrite E, (vm_ref _ _ _ _ _ _ _ _ _ Hvm); cbn [default from_option id]; lia|].
      rewrite (vm_refs _ _ _ _ _ _ _ _ _ Hvm); [done| |].
      * intros E. apply Hne. by apply page_num_inj.
      * intros y Hy E. destruct (po_free _ _ (so_pt _ _ _ (im_space _ _ _ Him))) as [_ Hf]. destruct (Hf y Hy) as [Ky _]. apply Z2. by rewrite <- (page_num_inj y _ Ky Z1 E).
  - intros w Hw. unfold vset. destruct (Z.eqb_spec w v) as [->|Hne].
    + unfold shows. rewrite <- Ev.
      destruct x as [bs fl'|]; [destruct Hx as (Hz & Eb & ->)|destruct Hx as (Hz & ->)]; cbn; rewrite Ez.
      * exists q. split_and!; try done. intros w' Hw' Hne (pa & Et & Eq). destruct Hu as [?|Hu]; [done|]. apply (Hu w' Hw' Hne). exists pa. split; [|done].
        rewrite (vm_translate _ _ _ _ _ _ _ _ _ Hvm) in Et by (by apply vpage_range). rewrite (Z.mul_comm 4096 w'), Z.div_mul in Et by lia. rewrite (proj2 (Z.eqb_neq w' (va / 4096))) in Et by done. by rewrite Z.mul_comm.
      * by rewrite <- Hz.
    + apply (shows_mapped T f a va q fl T' t l s' w (f w) pages); try done; [by apply Him|]. destruct Hu as [?|Hu]; [by left|right; by apply Hu].
Qed.

(** Steps of the allocator that keep the tables. *)
Lemma image_mem T f a s' :
  image T f a -> space_ok None T s' -> pt_tabs s' = pt_tabs (as_pt a) -> pt_root s' = pt_root (as_pt a) -> (forall x, x ∈ nodes s' -> x ∈ nodes (as_pt a)) ->
  heap_ready (pt_mem s') -> m_zero_page (pt_mem s') = zpage a -> refs s' (zpage a) = refs (as_pt a) (zpage a) -> image T f (set_pt s' a).
Proof.
  intros [H1 H2 H3 [Z1 Z2 Z3 Z4 Z5] H5] Hok Et Er Hn Hh Ez Erf.
  assert (forall va, find_entry s' va = find_entry (as_pt a) va) as Hfe by (intros va; unfold find_entry; by rewrite Et, Er).
  assert (forall va, translate s' va = translate (as_pt a) va) as Htr by (intros va; unfold translate; by rewrite Hfe).
  split; [done|done|done| |].
  - split; cbn; rewrite Ez; [done|by intros ?%Hn|done|by rewrite Erf|done].
  - intros v Hv. specialize (H5 v Hv). destruct (f v) as [[bs fl|]|]; cbn in *; rewrite ?Hfe, ?Htr, ?Ez; [|done|done].
    destruct H5 as (q & Kq & Hf & Hvl & E & Eb & Hz & Hu). exists q. split_and!; try done. intros w Hw Hne (pa & E1 & E2). apply (Hu w Hw Hne). exists pa. by rewrite <- Htr.
Qed.

Lemma free_page_zero T f a q : image T f a -> q ∈ nodes (as_pt a) -> kpage q /\ page_num q <> page_num (zpage a) /\ q <> zpage a.
Proof.
  intros Him Hq. destruct (po_free _ _ (so_pt _ _ _ (im_space _ _ _ Him))) as [_ Hf]. destruct (Hf q Hq) as [Kq _]. destruct (im_zero _ _ _ Him) as [Z1 Z2 _ _ _].
  assert (q <> zpage a) as Hne by (by intros ->). split_and!; [done| |done]. intros E. apply Hne. by apply page_num_inj.
Qed.

(** [new_page] at a page that is not mapped. *)
Lemma wp_new_page T f a va0 fl :
  let v := va0 / 4096 in
  image T f a -> 0 <= va0 < 2 ^ 48 -> va0 = 4096 * v -> (4 <= length (nodes (as_pt a)))%nat -> PTE_ADDRESS fl = 0 -> is_valid fl = true ->
  wp (new_page va0 fl) (fun q a' => exists T', image T' (vset v (Own zeros fl) f) a' /\ find_entry (as_pt a') va0 = Some (Z.lor (K2P q) fl) /\ kpage q /\
    (length (nodes (as_pt a)) <= 4 + length (nodes (as_pt a')))%nat /\ as_secs a' = as_secs a /\ as_calls a' = as_calls a) a.
Proof.
  intros v Him Hva Ev Hn Hfl Hval. destruct (nodes (as_pt a)) as [|q ps] eqn:En; [simpl in Hn; lia|]. simpl in Hn.
  destruct (free_page_zero T f a q Him) as (Kq & Hqn & Hqz); [rewrite En; by left|]. destruct (space_kalloc None T (as_pt a) q ps (im_space _ _ _ Him) En) as (S1 & O1 & R1).
  unfold new_page. apply wp_bind, wp_zoom. apply (wp_kalloc_pt _ q ps); [done|done|]. set (p1 := mkPt _ _ _) in *.
  assert (image T f (set_pt p1 a)) as H1.
  { apply image_mem; try done; [|apply (im_heap _ _ _ Him)|cbn; by rewrite lookup_insert_ne]. intros x Hx. rewrite En. by right. }
  apply wp_bind, wp_modify. apply wp_bind, wp_zoom. cbn [as_pt set_pages set_pt as_pages]. pose proof (kpage_base q Kq) as Eb.
  assert (splice (as_pages a q) 0 zeros = zeros) as Es.
  { unfold splice. cbn [take]. rewrite drop_ge; [by rewrite app_nil_r|]. pose proof (im_whole _ _ _ Him q). pose proof length_zeros. lia. }
  eapply wp_mono; [apply (image_vmmap T f (set_pt p1 a) va0 q fl (fun x => if x =? q then zeros else as_pages a x) (Own zeros fl)); try done; cbn [as_pt set_pt as_pages]; rewrite ?Eb|].
  - cbn. lia.
  - done.
  - apply O1.
  - apply O1.
  - rewrite R1. lia.
  - intros y [Hy| ->]; [by rewrite (proj2 (Z.eqb_neq _ _) Hy)|]. rewrite (proj2 (Z.eqb_neq _ _)); [done|]. by apply not_eq_sym.
  - intros y. destruct (y =? q); [apply length_zeros|apply (im_whole _ _ _ Him)].
  - right. intros w Hw _. apply (ow_maps _ _ _ _ O1); [done|discriminate].
  - split_and!; [done|by rewrite Z.eqb_refl|done].
  - rewrite Eb. intros [] s' (T' & H2 & Hfe & Hlen & _). apply wp_ret. exists T'. rewrite Es. split_and!; [exact H2|done|done| |done|done]. cbn in *. lia.
Qed.

(** Writing to the page that a virtual page has of its own. *)
Lemma image_write T f a v q e bs fl off new :
  image T f a -> vpage v -> f v = Some (Own bs fl) -> find_entry (as_pt a) (4096 * v) = Some e -> q = P2K (PTE_ADDRESS e) -> (off + length new <= Z.to_nat PAGE_SIZE)%nat ->
  image T (vset v (Own (splice bs off new) fl) f) (set_pages (fun x => if x =? q then splice (as_pages a q) off new else as_pages a x) a).
Proof.
  intros [H1 H2 H3 [Z1 Z2 Z3 Z4 Z5] H5] Hv Ef Ee -> Hlen. pose proof (H5 v Hv) as Hs. rewrite Ef in Hs. destruct Hs as (q & Kq & Hf & Hvl & E & Eb & Hz & Hu).
  assert (P2K (PTE_ADDRESS e) = q) as -> by (rewrite Ee in E; injection E as ->; by apply entry_page).
  split; [done| |done| |].
  - intros x. cbn. destruct (x =? q); [|apply H2]. pose proof (H2 q). rewrite length_splice; lia.
  - split; cbn; [done..|]. rewrite (proj2 (Z.eqb_neq (zpage a) q)) by (by apply not_eq_sym). done.
  - intros w Hw. unfold vset. destruct (Z.eqb_spec w v) as [->|Hne]; cbn.
    + exists q. rewrite Z.eqb_refl. split_and!; try done. by rewrite Eb.
    + specialize (H5 w Hw). destruct (f w) as [[bs' fl'|]|]; cbn in *; [|done|done]. destruct H5 as (q' & Kq' & Hf' & Hvl' & E' & Eb' & Hz' & Hu'). exists q'.
      split_and!; try done. rewrite (proj2 (Z.eqb_neq q' q)); [done|]. intros ->. apply (Hu w Hw Hne). by apply (ro_entry_maps _ w q fl').
Qed.

(** [add_section] and [kalloc]. *)
Lemma wp_image_kalloc T f a size :
  image T f a -> 0 <= size <= 4072 -> (1 <= length (nodes (as_pt a)))%nat ->
  wp (on_pt (on_mem (kalloc size))) (fun _ a' => image T f a' /\ (length (nodes (as_pt a)) <= 1 + length (nodes (as_pt a')))%nat /\ as_secs a' = as_secs a /\ as_calls a' = as_calls a) a.
Proof.
  intros Him Hs Hn. apply wp_zoom, wp_on_mem. eapply wp_mono; [apply wp_kalloc_small|].
  { apply Him. } { done. } { destruct (m_nodes _); [simpl in Hn; lia|done]. } { intros q Hq. destruct (free_page_zero T f a q Him Hq) as ((_ & _ & ? & _) & _). done. }
  intros _ m' (Hh & Ez & [[E1 E2]|(q & E1 & E2)]).
  - split; [|cbn; rewrite E1; split_and!; [lia|done..]]. apply image_mem; try done; cbn; rewrite ?E1, ?E2; try done.
    apply (space_step None T (as_pt a)); try done; cbn; rewrite ?E1, ?E2; [apply Him| | |by left|done].
    + apply (pt_ok_frame T (as_pt a) _ []); [apply (im_space _ _ _ Him)|done|done|by cbn].
    + exists []. done.
  - destruct (free_page_zero T f a q Him) as (Kq & Hqn & Hqz); [rewrite E1; by left|].
    split; [|cbn; rewrite E1; simpl; split_and!; [lia|done..]]. apply image_mem; try done; cbn.
    + apply (space_step None T (as_pt a)); try done; cbn; [apply Him| | |by left|].
      * apply (pt_ok_frame T (as_pt a) _ [q]); [apply (im_space _ _ _ Him)|done|done|exact E1].
      * exists [q]. done.
      * intros i Hi. rewrite E2. apply lookup_insert_ne, Hi. rewrite E1. by left.
    + intros x Hx. rewrite E1. by right.
    + by rewrite E2, lookup_insert_ne.
Qed.

Lemma image_secs T f a secs : image T f a -> image T f (set_secs secs a).
Proof. intros [H1 H2 H3 [Z1 Z2 Z3 Z4 Z5] H5]. split; try done. Qed.

Lemma wp_add_section T f a b e fl :
  image T f a -> (1 <= length (nodes (as_pt a)))%nat ->
  wp (add_section b e fl) (fun _ a' => image T f a' /\ (length (nodes (as_pt a)) <= 1 + length (nodes (as_pt a')))%nat /\ as_calls a' = as_calls a /\
    exists x, as_secs a' = (x, mkSection fl b e (Sem.init_sem 1) 0 0 0 0) :: as_secs a) a.
Proof.
  intros Him Hn. unfold add_section. apply wp_bind. eapply wp_mono; [apply (wp_image_kalloc T f); [done| |done]|].
  { unfold sizeof_section. lia. }
  intros x a' (H' & Hl & Es & Ec). apply wp_modify. split_and!; [by apply image_secs|done|done|]. exists x. cbn. by rewrite Es.
Qed.
