(* ===== verification/ExecImage.v ===== *)
(** The segments of a program in memory (Exec.v): the loops that load the bytes of
    the file and map the zero page. *)
From Stdlib Require Import ZArith Lia.
From stdpp Require Import base numbers gmap sets list.
From S2P Require Import Prelude Bytes Sync FsDefs CString Mem Cache BlockCache Inode InodeLaws Directory Path PageTable AddrSpace UserMem Paging Fork Exec ExecLaws.

(** ** Bytes of an address space *)

(** What the process reads at [va], and whether it may write there. *)
Definition user_byte (a : AS) (va : Z) : option Z :=
  e ← find_entry (as_pt a) va; if is_valid e then as_pages a (P2K (PTE_ADDRESS e)) !! Z.to_nat (VA_OFFSET va) else None.
Definition user_may_write (a : AS) (va : Z) : bool :=
  match find_entry (as_pt a) va with Some e => is_valid e && negb (flag e PTE_RO) | None => false end.

Definition vbyte (f : view) (va : Z) : option Z :=
  match f (va / 4096) with None => None | Some Zero => Some 0 | Some (Own bs _) => bs !! Z.to_nat (va mod 4096) end.
Definition vwrite (f : view) (va : Z) : bool :=
  match f (va / 4096) with Some (Own _ fl) => negb (flag fl PTE_RO) | _ => false end.

Lemma find_entry_base s va : 0 <= va -> find_entry s va = find_entry s (4096 * (va / 4096)).
Proof.
  intros Hv. unfold find_entry. pose proof (Z.div_pos va 4096 Hv ltac:(lia)). destruct (VA_PARTS va Hv) as (-> & -> & -> & -> & _). destruct (VA_PARTS (4096 * (va / 4096))) as (-> & -> & -> & -> & _); [lia|].
  assert (forall k, 0 < k -> 4096 * (va / 4096) / (4096 * k) = va / (4096 * k)) as E.
  { intros k Hk. rewrite <- !Z.div_div by lia. rewrite (Z.mul_comm 4096 (va / 4096)), Z.div_mul by lia. done. }
  change (2 ^ 39) with (4096 * 2 ^ 27). change (2 ^ 30) with (4096 * 2 ^ 18). change (2 ^ 21) with (4096 * 2 ^ 9). change (2 ^ 12) with (4096 * 1). by rewrite !E by lia.
Qed.

Lemma flag_entry q fl : kpage q -> flag (Z.lor (K2P q) fl) PTE_RO = flag fl PTE_RO.
Proof.
  intros (_ & (_ & Hm) & _). unfold flag. rewrite Z.land_lor_distr_l. enough (Z.land (K2P q) PTE_RO = 0) as -> by (by rewrite Z.lor_0_l).
  apply Z.bits_inj'. intros n Hn. rewrite Z.land_spec, Z.bits_0. change PTE_RO with (2 ^ 7). destruct (decide (n = 7)) as [->|Hne].
  - rewrite <- (Z.mod_pow2_bits_low (K2P q) 12 7) by lia. change (2 ^ 12) with 4096. by rewrite Hm.
  - rewrite Z.pow2_bits_false by done. apply andb_false_r.
Qed.

Lemma vpage_of va : 0 <= va < 2 ^ 48 -> vpage (va / 4096).
Proof. intros Hv. split; [apply Z.div_pos; lia|apply Z.div_lt_upper_bound; lia]. Qed.

Lemma user_byte_view T f a va : image T f a -> 0 <= va < 2 ^ 48 -> user_byte a va = vbyte f va /\ user_may_write a va = vwrite f va.
Proof.
  intros Him Hv. unfold user_byte, user_may_write, vbyte, vwrite. rewrite find_entry_base by lia. destruct (VA_PARTS va) as (_ & _ & _ & _ & ->); [lia|].
  pose proof (im_view _ _ _ Him _ (vpage_of va Hv)) as Hs. set (v := va / 4096) in *. destruct (f v) as [[bs fl|]|]; cbn in Hs.
  - destruct Hs as (q & Kq & Hf & Hvl & -> & <- & _). cbn. rewrite is_valid_lor by done. by rewrite entry_page, flag_entry.
  - rewrite Hs. cbn. destruct ro_data_flags as [Hf Hvl]. destruct (im_zero _ _ _ Him) as [Z1 _ _ _ Z5]. rewrite is_valid_lor by done. rewrite entry_page, flag_entry, Z5 by done. split; [|done].
    pose proof (Z.mod_pos_bound va 4096 ltac:(lia)). unfold zeros. rewrite lookup_replicate_2; [done|]. unfold PAGE_SIZE. lia.
  - unfold translate in Hs. destruct (find_entry (as_pt a) (4096 * v)) as [e|]; [|done]. cbn in *. by destruct (is_valid e).
Qed.

(** ** The zero page *)

(** The number of pages of [size] bytes from the start of a page. *)
Definition npages (size : Z) : Z := (size + 4095) / 4096.

Lemma npages_step size : 4096 < size -> npages size = 1 + npages (size - 4096).
Proof. intros H. unfold npages. replace (size + 4095) with (size - 4096 + 4095 + 1 * 4096) by lia. rewrite Z.div_add by lia. lia. Qed.

Lemma npages_small size : 0 < size <= 4096 -> npages size = 1.
Proof. intros H. unfold npages. symmetry. apply (Z.div_unique _ _ _ (size - 1)); lia. Qed.

Lemma npages_pos size : 0 <= size -> 0 <= npages size.
Proof. intros H. apply Z.div_pos; lia. Qed.

Lemma base_of va : 0 <= va < 2 ^ 64 -> PAGE_BASE va = 4096 * (va / 4096) /\ va - PAGE_BASE va = va mod 4096.
Proof. intros Hv. change (PAGE_BASE va) with (PAGE_ALIGN_DOWN va). rewrite align_down by done. pose proof (Z.div_mod va 4096). split; lia. Qed.

(** The page [v] is one of [n] from [v0]. *)
Definition within (v0 n v : Z) : bool := (v0 <=? v) && (v <? v0 + n).

Lemma within_none v0 v : within v0 0 v = false.
Proof. unfold within. destruct (Z.leb_spec v0 v), (Z.ltb_spec v (v0 + 0)); cbn; done || lia. Qed.

(** The first page and the others. *)
Lemma within_step {A} v0 n (x y : A) v : 0 <= n -> (if within v0 (1 + n) v then x else y) = (if within (v0 + 1) n v then x else if v =? v0 then x else y).
Proof. intros Hn. unfold within. destruct (Z.leb_spec v0 v), (Z.ltb_spec v (v0 + (1 + n))), (Z.leb_spec (v0 + 1) v), (Z.ltb_spec v (v0 + 1 + n)), (Z.eqb_spec v v0); cbn; done || lia. Qed.

Lemma map_zero_nil fuel dest va : map_zero fuel dest 0 va = mret tt.
Proof. by destruct fuel. Qed.

Lemma npages_enough size : 0 < size -> 1 <= npages size.
Proof. intros H. destruct (decide (size <= 4096)); [rewrite npages_small by lia; lia|]. rewrite npages_step by lia. pose proof (npages_pos (size - 4096)). lia. Qed.

Lemma wp_map_zero fuel T f a sz va :
  image T f a -> 0 <= sz -> 0 <= va -> va mod 4096 = 0 -> va + sz <= 2 ^ 47 -> (Z.to_nat (npages sz) <= fuel)%nat -> (3 * Z.to_nat (npages sz) <= length (nodes (as_pt a)))%nat ->
  wp (map_zero fuel (zpage a) sz va) (fun _ a' => exists T', image T' (fun v => if within (va / 4096) (npages sz) v then Some Zero else f v) a' /\
    (length (nodes (as_pt a)) <= 3 * Z.to_nat (npages sz) + length (nodes (as_pt a')))%nat /\ as_secs a' = as_secs a /\ as_calls a' = as_calls a) a.
Proof.
  revert T f a sz va. induction fuel as [|fuel IH]; intros T f a sz va Him Hsz Hva Hm Hb Hfu Hn.
  all: destruct (decide (sz = 0)) as [->|Hnz].
  1, 3: rewrite map_zero_nil; apply wp_ret; exists T; split_and!; [|lia|done|done]; eapply image_ext; [|exact Him]; intros v _; by rewrite within_none.
  { pose proof (npages_enough sz). lia. }
  cbn [map_zero]. rewrite (proj2 (Z.ltb_lt 0 sz)) by lia.
  destruct (base_of va) as [Eb Eo]; [lia|]. pose proof (Z.div_mod va 4096 ltac:(lia)) as Ed. rewrite Eo, Hm. assert (PAGE_BASE va = va) as -> by lia. rewrite Z.sub_0_r.
  destruct (im_zero _ _ _ Him) as [Z1 Z2 Z3 Z4 Z5]. destruct ro_data_flags as [Hf Hvl]. pose proof (kpage_base _ Z1) as Ezb. pose proof (npages_enough sz ltac:(lia)) as H1.
  apply wp_bind, wp_zoom. eapply wp_mono; [apply (image_vmmap T f a va (zpage a) ro_data (as_pages a) Zero); rewrite ?Ezb; try done; try lia; try (by left); apply (im_whole _ _ _ Him)|].
  intros [] s' (T' & H' & _ & Hl & Ez & _). change (set_pages (as_pages a) (set_pt s' a)) with (set_pt s' a) in H'. rewrite <- Ez. change (m_zero_page (pt_mem s')) with (zpage (set_pt s' a)).
  unfold PAGE_SIZE. destruct (decide (sz <= 4096)) as [Hs|Hs].
  - rewrite Z.min_r, Z.sub_diag, map_zero_nil by lia. rewrite npages_small by lia. apply wp_ret. exists T'. split_and!; [|cbn; lia|done|done].
    eapply image_ext; [|exact H']. intros v _. rewrite (within_step _ 0) by lia. by rewrite within_none.
  - rewrite Z.min_l by lia. rewrite (npages_step sz) in * by lia. pose proof (npages_pos (sz - 4096) ltac:(lia)). unfold u64. rewrite wrap_small by lia.
    assert ((va + 4096) / 4096 = va / 4096 + 1) as Ev by (replace (va + 4096) with (va + 1 * 4096) by lia; by rewrite Z.div_add).
    eapply wp_mono; [apply (IH T' _ (set_pt s' a) (sz - 4096) (va + 4096) H'); try lia|].
    + replace (va + 4096) with (va + 1 * 4096) by lia. by rewrite Z.mod_add.
    + cbn [as_pt set_pt]. lia.
    + intros [] a' (T2 & H2 & Hl2 & Es & Ec). exists T2. split_and!; [|cbn in *; lia|done|done]. eapply image_ext; [|exact H2]. intros v _. cbn beta. rewrite Ev, within_step by lia. done.
Qed.

(** ** The bytes of the file *)

(** Page [v] of the segment of [len] bytes [g] at [va]; the rest of the page is
    zero. *)
Definition seg_page (g : Z -> Z) (va len v : Z) : list Z :=
  (fun k => let x := 4096 * v + Z.of_nat k in if (va <=? x) && (x <? va + len) then g (x - va) else 0) <$> seq 0 (Z.to_nat PAGE_SIZE).

Lemma lookup_seg_page g va len v k : (k < Z.to_nat PAGE_SIZE)%nat ->
  seg_page g va len v !! k = Some (let x := 4096 * v + Z.of_nat k in if (va <=? x) && (x <? va + len) then g (x - va) else 0).
Proof. intros Hk. unfold seg_page. rewrite list_lookup_fmap, lookup_seq_lt by done. done. Qed.

Lemma length_seg_page g va len v : length (seg_page g va len v) = Z.to_nat PAGE_SIZE.
Proof. unfold seg_page. by rewrite length_fmap, length_seq. Qed.

(** The number of pages that [len] bytes at [va] lie on. *)
Definition span (va len : Z) : Z := if len =? 0 then 0 else npages (va mod 4096 + len).

Lemma span_pos va len : 0 <= len -> 0 <= span va len.
Proof. intros H. unfold span. destruct (len =? 0); [lia|]. apply npages_pos. pose proof (Z.mod_pos_bound va 4096). lia. Qed.

Lemma span_small va len : 0 < len -> va mod 4096 + len <= 4096 -> span va len = 1.
Proof. intros H1 H2. unfold span. rewrite (proj2 (Z.eqb_neq len 0)) by lia. apply npages_small. pose proof (Z.mod_pos_bound va 4096). lia. Qed.

Lemma span_step va len : let n := 4096 - va mod 4096 in n < len -> span va len = 1 + span (va + n) (len - n) /\ (va + n) / 4096 = va / 4096 + 1 /\ (va + n) mod 4096 = 0.
Proof.
  intros n H. pose proof (Z.mod_pos_bound va 4096 ltac:(lia)) as Hb. pose proof (Z.div_mod va 4096 ltac:(lia)) as Hd.
  assert (va + n = 0 + (va / 4096 + 1) * 4096) as E by (unfold n; lia).
  assert ((va + n) mod 4096 = 0) as Em by (rewrite E; by rewrite Z.mod_add). assert ((va + n) / 4096 = va / 4096 + 1) as Ed by (rewrite E; by rewrite Z.div_add).
  split_and!; [|done|done]. unfold span. rewrite Em. rewrite (proj2 (Z.eqb_neq len 0)), (proj2 (Z.eqb_neq (len - n) 0)) by lia. rewrite npages_step by lia. do 2 f_equal. unfold n. lia.
Qed.

Lemma splice_drop (l : list Z) k bs : (k + length bs <= length l)%nat -> splice l k (splice (drop k l) 0 bs) = splice l k bs.
Proof.
  intros H. apply list_eq. intros i. pose proof (length_drop l k) as Hd. assert (length (splice (drop k l) 0 bs) = length l - k)%nat as Hl by (rewrite length_splice; lia).
  destruct (decide (i < k)%nat); [by rewrite !lookup_splice_out by lia|]. destruct (decide (i < length l)%nat); [|by rewrite !lookup_ge_None_2 by (rewrite length_splice; lia)].
  rewrite lookup_splice_in by lia. destruct (decide (i < k + length bs)%nat).
  - rewrite !lookup_splice_in by lia. f_equal. lia.
  - rewrite !lookup_splice_out by lia. rewrite lookup_drop. f_equal. lia.
Qed.

Section exec.
Context {S : Type} (sblock : SuperBlock) (cache : BlockCache S) `{!BlockCacheSpec sblock cache}.
Abbreviation vol := (InodeLaws.vol sblock cache).
Abbreviation mapped := (InodeLaws.mapped sblock cache).

(** The inode [p] is the file with entry [e] and the blocks of [v0]. *)
Record on_file (v0 : Volume) (e : InodeEntry) (p : Z) (s : FsState S) : Prop := {
  of_ok : bc_ok (f_cache s);
  of_heap : exists i, f_heap s !! p = Some i /\ i_entry i = e;
  of_mapped : mapped v0 e;
  of_type : ie_type e <> INODE_DEVICE;
  of_same : v_same v0 (vol s);
}.

Lemma wp_file_read v0 e p s dest off n :
  on_file v0 e p s -> 0 <= off -> 0 <= n -> off + n <= ie_num_bytes e -> (Z.to_nat n <= length dest)%nat ->
  wp (inode_read sblock cache p dest off n) (fun r s' => r = (n, splice dest 0 (file_bytes v0 e off (Z.to_nat n))) /\ on_file v0 e p s') s.
Proof.
  intros [H1 (i & H2 & <-) H3 H4 H5] Ho Hn Hsz Hd. pose proof (mp_size _ _ _ _ H3) as Hmax. change INODE_MAX_BYTES with (140 * 512) in Hmax.
  assert (clipped (i_entry i) off n = n) as Ec by (unfold clipped; lia).
  eapply wp_mono; [apply (wp_inode_read sblock cache s p i dest off n); rewrite ?Ec; try done; try lia; by eapply mapped_same|].
  rewrite Ec. intros r s' (-> & Hrc & Hv). rewrite (file_bytes_same v0 (vol s)) by done. split; [done|]. split; [by eapply recached_ok| |done|done|by etransitivity].
  exists i. by rewrite (recached_heap _ _ _ _ Hrc).
Qed.

(** Reading into the page that [v] has of its own. *)
Lemma wp_read_into v0 e p T f s v q en bs fl k off n :
  on_file v0 e p (x_fs s) -> image T f (x_as s) -> vpage v -> f v = Some (Own bs fl) -> find_entry (as_pt (x_as s)) (4096 * v) = Some en -> q = P2K (PTE_ADDRESS en) ->
  0 <= k -> 0 <= n -> k + n <= PAGE_SIZE -> 0 <= off -> off + n <= ie_num_bytes e ->
  wp (read_into sblock cache p q k off n) (fun r s' => r = n /\ on_file v0 e p (x_fs s') /\ x_regs s' = x_regs s /\
    image T (vset v (Own (splice bs (Z.to_nat k) (file_bytes v0 e off (Z.to_nat n))) fl) f) (x_as s') /\
    as_pt (x_as s') = as_pt (x_as s) /\ as_secs (x_as s') = as_secs (x_as s) /\ as_calls (x_as s') = as_calls (x_as s)) s.
Proof.
  intros Hf Him Hv Ef Ee Eq Hk Hn Hkn Ho Hsz. unfold read_into. apply wp_bind, wp_get_state. apply wp_bind, wp_zoom. pose proof (im_whole _ _ _ Him q) as Hw. unfold PAGE_SIZE in *.
  eapply wp_mono; [apply (wp_file_read v0 e p (x_fs s)); try done; rewrite length_drop; lia|]. intros r fs (-> & Hf'). cbn [fst snd].
  pose proof (length_file_bytes v0 e off (Z.to_nat n)) as Hl. apply wp_bind, wp_zoom, wp_modify. cbn [x_as put_fs]. rewrite splice_drop by lia. apply wp_ret. cbn.
  split_and!; try done. apply (image_write T f (x_as s) v q en); try done. rewrite Hl. unfold PAGE_SIZE. lia.
Qed.

Lemma seg_page_first v0 e off va len n :
  0 <= va -> n = Z.min (4096 - va mod 4096) len -> 0 < len ->
  splice zeros (Z.to_nat (va mod 4096)) (file_bytes v0 e off (Z.to_nat n)) = seg_page (fun j => byte_of v0 e (off + j)) va len (va / 4096).
Proof.
  intros Hva Hn Hlen. pose proof (Z.mod_pos_bound va 4096 ltac:(lia)) as Hm. pose proof (Z.div_mod va 4096 ltac:(lia)) as Hd. pose proof length_zeros as Hz. unfold PAGE_SIZE in Hz.
  pose proof (length_file_bytes v0 e off (Z.to_nat n)) as Hl. pose proof (length_seg_page (fun j => byte_of v0 e (off + j)) va len (va / 4096)) as Hs. unfold PAGE_SIZE in Hs.
  apply list_eq. intros k. destruct (decide (k < 4096)%nat) as [Hk|Hk]; [|rewrite !lookup_ge_None_2; [done|lia|rewrite length_splice; lia]].
  rewrite lookup_seg_page by (unfold PAGE_SIZE; lia). cbv zeta. set (x := 4096 * (va / 4096) + Z.of_nat k).
  destruct (decide (Z.to_nat (va mod 4096) <= k < Z.to_nat (va mod 4096) + Z.to_nat n)%nat) as [Hin|Hout].
  - rewrite lookup_splice_in, lookup_file_bytes by lia. rewrite (proj2 (Z.leb_le va x)), (proj2 (Z.ltb_lt x (va + len))) by lia. cbn. do 2 f_equal. lia.
  - rewrite lookup_splice_out by lia. unfold zeros. rewrite lookup_replicate_2 by (unfold PAGE_SIZE; lia).
    destruct (Z.leb_spec va x); [|done]. rewrite (proj2 (Z.ltb_ge x (va + len))) by lia. done.
Qed.

Lemma seg_page_later v0 e off va len n v :
  0 <= n -> va + n <= 4096 * v -> seg_page (fun j => byte_of v0 e (off + n + j)) (va + n) (len - n) v = seg_page (fun j => byte_of v0 e (off + j)) va len v.
Proof.
  intros Hn Hv. unfold seg_page. apply list_fmap_ext. intros i k Hi. cbn. apply lookup_seq in Hi as [-> _].
  set (x := 4096 * v + Z.of_nat (0 + i)). rewrite (proj2 (Z.leb_le (va + n) x)), (proj2 (Z.leb_le va x)) by lia. replace (va + n + (len - n)) with (va + len) by lia. cbn. destruct (x <? va + len); [|done]. f_equal. lia.
Qed.

(** The loop over the pages of the file's bytes. *)
Lemma wp_load_pages fuel v0 e p fl : PTE_ADDRESS fl = 0 -> is_valid fl = true -> forall T f s len off va,
  on_file v0 e p (x_fs s) -> image T f (x_as s) -> 0 <= len -> 0 <= va -> va + len <= 2 ^ 47 -> 0 <= off -> off + len <= ie_num_bytes e ->
  (Z.to_nat (span va len) <= fuel)%nat -> (4 * Z.to_nat (span va len) <= length (nodes (as_pt (x_as s))))%nat ->
  wp (load_pages sblock cache fuel p fl len off va) (fun r s' => r = Some (va + len) /\ on_file v0 e p (x_fs s') /\ x_regs s' = x_regs s /\
    (exists T', image T' (fun v => if within (va / 4096) (span va len) v then Some (Own (seg_page (fun j => byte_of v0 e (off + j)) va len v) fl) else f v) (x_as s')) /\
    (length (nodes (as_pt (x_as s))) <= 4 * Z.to_nat (span va len) + length (nodes (as_pt (x_as s'))))%nat /\
    as_secs (x_as s') = as_secs (x_as s) /\ as_calls (x_as s') = as_calls (x_as s)) s.
Proof.
  intros Hfl Hvl. induction fuel as [|fuel IH]; intros T f s len off va Hf Him Hlen Hva Hb Ho Hsz Hfu Hn.
  all: destruct (decide (len = 0)) as [->|Hnz].
  1, 3: change (span va 0) with 0; cbn [load_pages Z.ltb Z.compare]; rewrite Z.add_0_r; apply wp_ret; split_and!; [done|done|done| |lia|done|done]; exists T; eapply image_ext; [|exact Him]; intros v _; by rewrite within_none.
  all: pose proof (span_pos va len Hlen) as Hsp; pose proof (Z.mod_pos_bound va 4096 ltac:(lia)) as Hm; pose proof (Z.div_mod va 4096 ltac:(lia)) as Hd; assert (1 <= span va len) as Hsp1 by (destruct (decide (va mod 4096 + len <= 4096)); [rewrite span_small by lia; lia|]; destruct (span_step va len ltac:(lia)) as (-> & _); pose proof (span_pos (va + (4096 - va mod 4096)) (len - (4096 - va mod 4096))); lia).
  { lia. }
  cbn [load_pages]. rewrite (proj2 (Z.ltb_lt 0 len)) by lia. destruct (base_of va) as [Eb Eo]; [lia|]. rewrite Eo, Eb. set (v := va / 4096) in *. unfold PAGE_SIZE. set (n := Z.min (4096 - va mod 4096) len).
  assert (4096 * v / 4096 = v) as Ev by (rewrite Z.mul_comm; apply Z.div_mul; lia). assert (vpage v) as Hv by (unfold vpage; lia).
  apply wp_bind, wp_zoom. eapply wp_mono; [apply (wp_new_page T f (x_as s) (4096 * v) fl); try done; rewrite ?Ev; lia|]. rewrite Ev.
  intros q a1 (T1 & H1 & E1 & Kq & L1 & S1 & C1). apply wp_bind. eapply wp_mono.
  { apply (wp_read_into v0 e p T1 (vset v (Own zeros fl) f) (put_as a1 s) v q (Z.lor (K2P q) fl) zeros fl (va mod 4096) off n); [exact Hf|exact H1|done| |exact E1|by rewrite entry_page|unfold n, PAGE_SIZE; lia..]. unfold vset. by rewrite Z.eqb_refl. }
  intros r s2 (-> & Hf2 & Er2 & H2 & Ep2 & S2 & C2). cbn [x_as x_regs put_as] in *. rewrite Z.eqb_refl. cbn [negb]. rewrite (seg_page_first v0 e off va len n) in H2 by (done || lia). unfold u64. rewrite !wrap_small by (unfold n; pose proof (mp_size _ _ _ _ (of_mapped _ _ _ _ Hf)) as Hmax; change INODE_MAX_BYTES with (140 * 512) in Hmax; lia).
  assert (image T1 (vset v (Own (seg_page (fun j => byte_of v0 e (off + j)) va len v) fl) f) (x_as s2)) as H3.
  { eapply image_ext; [|exact H2]. intros w _. unfold vset. by destruct (w =? v). }
  destruct (decide (va mod 4096 + len <= 4096)) as [Hs|Hs].
  - rewrite span_small in * by lia. replace n with len by (unfold n; lia). rewrite Z.sub_diag. destruct fuel; cbn [load_pages Z.ltb Z.compare]; apply wp_ret.
    all: split_and!; [done|done|done| |rewrite Ep2; lia|congruence|congruence]; exists T1; eapply image_ext; [|exact H3]; intros w _; rewrite (within_step _ 0) by lia; rewrite within_none; unfold vset; destruct (Z.eqb_spec w v) as [->|]; done.
  - destruct (span_step va len ltac:(lia)) as (Es & Ed & Em). replace (4096 - va mod 4096) with n in * by (unfold n; lia). rewrite Es in *. pose proof (span_pos (va + n) (len - n) ltac:(lia)) as Hp2.
    eapply wp_mono; [apply (IH T1 _ s2 (len - n) (off + n) (va + n) Hf2 H3); try lia; rewrite ?Ep2; lia|].
    intros r s3 (-> & Hf3 & Er3 & (T3 & H4) & L3 & S3 & C3). split_and!; [f_equal; lia|done|congruence| |rewrite Ep2 in L3; lia|congruence|congruence].
    exists T3. eapply image_ext; [|exact H4]. intros w _. cbn beta. rewrite Ed. fold v. unfold within, vset.
    destruct (Z.leb_spec (v + 1) w), (Z.ltb_spec w (v + 1 + span (va + n) (len - n))), (Z.leb_spec v w), (Z.ltb_spec w (v + (1 + span (va + n) (len - n)))), (Z.eqb_spec w v); cbn; try done; try lia.
    + do 2 f_equal. rewrite <- (seg_page_later v0 e off va len n w) by lia. done.
    + by subst.
Qed.
End exec.
