(* ===== verification/ExecSegs.v ===== *)
(** The segments of an ELF file that [execve] loads (Exec.v): every byte of a
    segment is in memory. *)
From Stdlib Require Import ZArith Lia.
From stdpp Require Import base numbers gmap sets list.
From S2P Require Import Prelude Bytes Sync FsDefs CString Mem Cache BlockCache Inode InodeLaws Directory Path PageTable AddrSpace UserMem Paging Fork Exec ExecLaws ExecImage.

(** ** Segments *)

Definition is_text (ph : Elf64_Phdr) : bool := p_flags ph =? Z.lor PF_R PF_X.
Definition is_load (ph : Elf64_Phdr) : bool := p_type ph =? PT_LOAD.
Definition seg_end (ph : Elf64_Phdr) : Z := p_vaddr ph + (if is_text ph then p_filesz ph else p_memsz ph).
Definition seg_section (ph : Elf64_Phdr) : section :=
  mkSection (if is_text ph then ST_TEXT else ST_FILE) (p_vaddr ph) (seg_end ph) (Sem.init_sem 1) 0 0 0 0.

(** What [execve] asks of a segment of a file of [size] bytes. *)
Record seg_ok (size : Z) (ph : Elf64_Phdr) : Prop := {
  sg_flags : is_text ph = true \/ p_flags ph = Z.lor PF_R PF_W;
  sg_nonneg : 0 <= p_offset ph /\ 0 <= p_vaddr ph /\ 0 <= p_filesz ph;
  sg_file : p_offset ph + p_filesz ph <= size;
  sg_mem : p_filesz ph <= p_memsz ph;
  sg_user : p_vaddr ph + p_memsz ph <= 2 ^ 47;
}.

(** The page after the last byte before [x]. *)
Definition ceil (x : Z) : Z := (x + 4095) / 4096.

(** The segment is in memory: the bytes of the file, read-only for the text, and
    for data zeros up to its size in memory; but of a data segment without bytes
    in the file that does not start on a page, the part before the next page is
    not mapped. *)
Definition seg_loaded (g : Z -> Z) (byte : Z -> option Z) (write : Z -> bool) (ph : Elf64_Phdr) : Prop :=
  (forall j, 0 <= j < p_filesz ph -> byte (p_vaddr ph + j) = Some (g (p_offset ph + j)) /\ write (p_vaddr ph + j) = negb (is_text ph)) /\
  (is_text ph = false -> forall j, p_filesz ph <= j < p_memsz ph ->
     byte (p_vaddr ph + j) = if (p_filesz ph =? 0) && (p_vaddr ph + j <? 4096 * ceil (p_vaddr ph)) then None else Some 0).

Lemma ceil_spec x : 4096 * (ceil x - 1) < x <= 4096 * ceil x.
Proof. unfold ceil. pose proof (Z.div_mod (x + 4095) 4096 ltac:(lia)). pose proof (Z.mod_pos_bound (x + 4095) 4096 ltac:(lia)). lia. Qed.

Lemma span_ceil va len : 0 < len -> va / 4096 + span va len = ceil (va + len).
Proof.
  intros H. unfold span, npages, ceil. rewrite (proj2 (Z.eqb_neq len 0)) by lia. pose proof (Z.div_mod va 4096 ltac:(lia)).
  replace (va + len + 4095) with (va mod 4096 + len + 4095 + va / 4096 * 4096) by lia. rewrite Z.div_add by lia. lia.
Qed.

Lemma npages_ceil c y : c + npages (y - 4096 * c) = ceil y.
Proof. unfold npages, ceil. replace (y - 4096 * c + 4095) with (y + 4095 + - c * 4096) by lia. rewrite Z.div_add by lia. lia. Qed.

Lemma within_iff v0 n v : within v0 n v = true <-> v0 <= v < v0 + n.
Proof. unfold within. rewrite andb_true_iff, Z.leb_le, Z.ltb_lt. done. Qed.

Lemma within_false v0 n v : ~ (v0 <= v < v0 + n) -> within v0 n v = false.
Proof. intros H. destruct (within v0 n v) eqn:E; [|done]. by apply within_iff in E. Qed.

(** Where the bss pages start: the next page after the bytes of the file. *)
Definition bss_start (ph : Elf64_Phdr) : Z := 4096 * ceil (p_vaddr ph + p_filesz ph).

(** The pages after a segment is loaded. *)
Definition seg_view (g : Z -> Z) (ph : Elf64_Phdr) (f : view) : view := fun v =>
  if negb (is_text ph) && within (ceil (p_vaddr ph + p_filesz ph)) (npages (p_vaddr ph + p_memsz ph - bss_start ph)) v && (bss_start ph <? p_vaddr ph + p_memsz ph) then Some Zero
  else if within (p_vaddr ph / 4096) (span (p_vaddr ph) (p_filesz ph)) v then
    Some (Own (seg_page (fun j => g (p_offset ph + j)) (p_vaddr ph) (p_filesz ph) v) (if is_text ph then ro_data else PTE_USER_DATA))
  else f v.

Lemma div_page v k : 0 <= k < 4096 -> (4096 * v + k) / 4096 = v /\ (4096 * v + k) mod 4096 = k.
Proof. intros H. replace (4096 * v + k) with (k + v * 4096) by lia. rewrite Z.div_add, Z.mod_add, Z.div_small, Z.mod_small by lia. lia. Qed.

(** The address [x] of a page of the file's bytes. *)
Lemma seg_view_file g ph f size x : seg_ok size ph -> 4096 * (p_vaddr ph / 4096) <= x -> x < 4096 * ceil (p_vaddr ph + p_filesz ph) -> 0 < p_filesz ph ->
  vbyte (seg_view g ph f) x = Some (if (p_vaddr ph <=? x) && (x <? p_vaddr ph + p_filesz ph) then g (p_offset ph + (x - p_vaddr ph)) else 0) /\
  vwrite (seg_view g ph f) x = negb (is_text ph).
Proof.
  intros [_ (_ & Hv & Hf) _ Hm _] Hlo Hhi Hp. pose proof (Z.div_mod x 4096 ltac:(lia)) as Hd. pose proof (Z.mod_pos_bound x 4096 ltac:(lia)) as Hb. set (v := x / 4096) in *.
  pose proof (span_ceil (p_vaddr ph) (p_filesz ph) Hp) as Es.
  assert (seg_view g ph f v = Some (Own (seg_page (fun j => g (p_offset ph + j)) (p_vaddr ph) (p_filesz ph) v) (if is_text ph then ro_data else PTE_USER_DATA))) as E.
  { unfold seg_view. rewrite (within_false (ceil _)) by lia. rewrite andb_false_r. cbn. rewrite (proj2 (within_iff _ _ _)) by lia. done. }
  unfold vbyte, vwrite. fold v. rewrite E. split; [|by destruct (is_text ph)]. rewrite lookup_seg_page by (unfold PAGE_SIZE; lia). cbv zeta. rewrite Z2Nat.id by lia. by rewrite <- Hd.
Qed.

Lemma seg_view_loaded g ph f size : seg_ok size ph -> f (p_vaddr ph / 4096) = None -> seg_loaded g (vbyte (seg_view g ph f)) (vwrite (seg_view g ph f)) ph.
Proof.
  intros Hok Hnone. pose proof Hok as [_ (_ & Hv & Hf) _ Hm _]. pose proof (Z.mul_div_le (p_vaddr ph) 4096 ltac:(lia)) as Hle. pose proof (ceil_spec (p_vaddr ph + p_filesz ph)) as Hc. split.
  - intros j Hj. destruct (seg_view_file g ph f size (p_vaddr ph + j) Hok) as [-> ->]; [lia..|]. rewrite (proj2 (Z.leb_le _ _)), (proj2 (Z.ltb_lt _ _)) by lia. cbn. split; [|done]. do 2 f_equal. lia.
  - intros Ht j Hj. destruct (decide (p_vaddr ph + j < bss_start ph)) as [Hlt|Hge]; unfold bss_start in *.
    + destruct (Z.eqb_spec (p_filesz ph) 0) as [E|Hp].
      * rewrite E, Z.add_0_r in *. rewrite (proj2 (Z.ltb_lt _ _)) by lia. cbn [andb].
        assert ((p_vaddr ph + j) / 4096 = p_vaddr ph / 4096) as Ep.
        { symmetry. apply (Z.div_unique _ _ _ (p_vaddr ph + j - 4096 * (p_vaddr ph / 4096))); [|lia]. left. split; [lia|].
          assert (ceil (p_vaddr ph) <= p_vaddr ph / 4096 + 1) by (unfold ceil; rewrite <- (Z.div_add (p_vaddr ph) 1 4096) by lia; apply Z.div_le_mono; lia). lia. }
        unfold vbyte, seg_view. rewrite Ep, E, Z.add_0_r. change (span (p_vaddr ph) 0) with 0. rewrite (within_false (ceil _)), (within_false (p_vaddr ph / 4096)) by lia.
        rewrite andb_false_r. by rewrite Hnone.
      * cbn [andb]. destruct (seg_view_file g ph f size (p_vaddr ph + j) Hok) as [-> _]; [lia..|]. rewrite (proj2 (Z.ltb_ge _ _)) by lia. by rewrite andb_false_r.
    + assert ((p_filesz ph =? 0) && (p_vaddr ph + j <? 4096 * ceil (p_vaddr ph)) = false) as ->.
      { destruct (Z.eqb_spec (p_filesz ph) 0) as [E|]; [|done]. rewrite E, Z.add_0_r in Hge. rewrite (proj2 (Z.ltb_ge _ _)) by lia. done. }
      set (x := p_vaddr ph + j) in *. pose proof (Z.div_mod x 4096 ltac:(lia)) as Hd. pose proof (Z.mod_pos_bound x 4096 ltac:(lia)) as Hb. unfold vbyte, seg_view. rewrite Ht. cbn [negb andb]. fold (bss_start ph).
      assert (ceil (p_vaddr ph + p_filesz ph) + npages (p_vaddr ph + p_memsz ph - bss_start ph) = ceil (p_vaddr ph + p_memsz ph)) as En by (apply npages_ceil).
      pose proof (ceil_spec (p_vaddr ph + p_memsz ph)). rewrite (proj2 (within_iff _ _ _)) by lia. rewrite (proj2 (Z.ltb_lt _ _)) by (unfold bss_start in *; lia). done.
Qed.

(** The pages it may change, and those it maps. *)
Lemma seg_view_frame g ph f size v : seg_ok size ph ->
  (~ (p_vaddr ph / 4096 <= v < ceil (p_vaddr ph + p_memsz ph)) -> seg_view g ph f v = f v) /\ (seg_view g ph f v = f v \/ 4096 * v < seg_end ph).
Proof.
  intros [_ (_ & Hv & Hf) _ Hm _]. pose proof (ceil_spec (p_vaddr ph + p_filesz ph)) as Hc. pose proof (ceil_spec (p_vaddr ph + p_memsz ph)) as Hc2. pose proof (Z.mul_div_le (p_vaddr ph) 4096 ltac:(lia)) as Hle.
  assert (ceil (p_vaddr ph + p_filesz ph) <= ceil (p_vaddr ph + p_memsz ph)) as Hcc by (unfold ceil; apply Z.div_le_mono; lia).
  assert (p_vaddr ph / 4096 <= ceil (p_vaddr ph + p_filesz ph)) as Hlo by (unfold ceil; apply Z.div_le_mono; lia).
  assert (ceil (p_vaddr ph + p_filesz ph) + npages (p_vaddr ph + p_memsz ph - bss_start ph) = ceil (p_vaddr ph + p_memsz ph)) as En by (apply npages_ceil).
  assert (p_vaddr ph / 4096 + span (p_vaddr ph) (p_filesz ph) <= ceil (p_vaddr ph + p_filesz ph) /\ (0 < p_filesz ph \/ span (p_vaddr ph) (p_filesz ph) = 0)) as [Es Ez].
  { destruct (decide (p_filesz ph = 0)) as [E|]; [rewrite E; change (span (p_vaddr ph) 0) with 0; rewrite Z.add_0_r; rewrite E in Hlo; rewrite Z.add_0_r in *; lia|]. rewrite span_ceil by lia. lia. }
  unfold seg_view, seg_end. split.
  - intros Hn. rewrite (within_false (ceil _)), (within_false (p_vaddr ph / 4096)) by lia. by rewrite andb_false_r.
  - destruct (negb (is_text ph) && _ && _) eqn:E1; [right|].
    + apply andb_true_iff in E1 as [[Ht Hw%within_iff]%andb_true_iff _]. destruct (is_text ph); [done|]. lia.
    + destruct (within (p_vaddr ph / 4096) _ v) eqn:E2; [right|by left]. apply within_iff in E2. destruct (is_text ph); lia.
Qed.

(** ** Loading one *)

Lemma round_up va : 0 <= va < 2 ^ 47 + 4096 -> (if negb (va =? PAGE_BASE va) then u64 (PAGE_BASE va + PAGE_SIZE) else va) = 4096 * ceil va.
Proof.
  intros Hv. destruct (base_of va) as [-> Eo]; [lia|]. pose proof (Z.div_mod va 4096 ltac:(lia)) as Hd. pose proof (Z.mod_pos_bound va 4096 ltac:(lia)) as Hb. unfold PAGE_SIZE.
  pose proof (ceil_spec va) as Hc. destruct (Z.eqb_spec va (4096 * (va / 4096))) as [E|Hne]; cbn [negb]; [lia|]. unfold u64. rewrite wrap_small by lia. lia.
Qed.

Lemma rounds_enough va size : 0 <= size -> (Z.to_nat (npages size) <= rounds size)%nat /\ (Z.to_nat (span va size) <= rounds size)%nat.
Proof.
  intros H. unfold rounds, PAGE_SIZE. pose proof (Z.mod_pos_bound va 4096 ltac:(lia)) as Hb.
  assert (forall k, 0 <= k <= 8190 -> (size + k) / 4096 <= size / 4096 + 2) as Hk.
  { intros k Hk. pose proof (Z.div_mod size 4096 ltac:(lia)). pose proof (Z.mod_pos_bound size 4096 ltac:(lia)). enough ((size + k) / 4096 < size / 4096 + 3) by lia. apply Z.div_lt_upper_bound; lia. }
  pose proof (Z.div_pos size 4096 H ltac:(lia)). unfold span, npages. split; [pose proof (Hk 4095); lia|]. destruct (size =? 0); [lia|].
  replace (va mod 4096 + size + 4095) with (size + (va mod 4096 + 4095)) by lia. pose proof (Hk (va mod 4096 + 4095)). lia.
Qed.

(** Free pages that are enough for a segment: each page may need three tables. *)
Definition seg_need (ph : Elf64_Phdr) : nat := (1 + 4 * Z.to_nat (ceil (p_vaddr ph + p_memsz ph) - p_vaddr ph / 4096))%nat.

(** ** All of them *)

(** The program headers of the file, from [off]. *)
Definition headers (g : Z -> Z) (off : Z) (n : nat) : list Elf64_Phdr :=
  (fun i => decode_phdr ((fun k => g (off + Phdr_size * Z.of_nat i + Z.of_nat k)) <$> seq 0 (Z.to_nat Phdr_size))) <$> seq 0 n.

(** The segments are in the order of their addresses and share no page; the first
    is above page [lo]. *)
Fixpoint segs_ok (size lo : Z) (phs : list Elf64_Phdr) : Prop :=
  match phs with
  | [] => True
  | ph :: phs' =>
      if is_load ph then seg_ok size ph /\ lo <= p_vaddr ph / 4096 /\ segs_ok size (ceil (p_vaddr ph + p_memsz ph)) phs' else segs_ok size lo phs'
  end.
Definition loads (phs : list Elf64_Phdr) : list Elf64_Phdr := filter (fun ph => is_load ph = true) phs.
Definition segs_need (phs : list Elf64_Phdr) : nat := foldr (fun ph n => (seg_need ph + n)%nat) O (loads phs).
Definition image_end (m : Z) (phs : list Elf64_Phdr) : Z := foldl (fun m ph => Z.max m (seg_end ph)) m (loads phs).

Lemma headers_cons g off n : headers g off (Datatypes.S n) = decode_phdr ((fun k => g (off + Z.of_nat k)) <$> seq 0 (Z.to_nat Phdr_size)) :: headers g (off + Phdr_size) n.
Proof.
  unfold headers. cbn [seq fmap list_fmap]. f_equal.
  - f_equal. apply list_fmap_ext. intros i k _. cbn. f_equal. lia.
  - rewrite <- fmap_S_seq, <- list_fmap_compose. apply list_fmap_ext. intros i k _. cbn. f_equal. apply list_fmap_ext. intros j k' _. cbn. f_equal. lia.
Qed.

Lemma loads_cons ph phs : loads (ph :: phs) = if is_load ph then ph :: loads phs else loads phs.
Proof. unfold loads. rewrite filter_cons. destruct (is_load ph); by destruct (decide _). Qed.

Lemma image_end_ge phs m : m <= image_end m phs.
Proof. unfold image_end. revert m. induction (loads phs) as [|ph l IH]; intros m; simpl; [lia|]. pose proof (IH (Z.max m (seg_end ph))). lia. Qed.

(** Later segments leave the bytes of [ph] alone. *)
Lemma seg_loaded_agree g ph f f' size :
  seg_ok size ph -> (forall v, v < ceil (p_vaddr ph + p_memsz ph) -> f' v = f v) -> seg_loaded g (vbyte f) (vwrite f) ph -> seg_loaded g (vbyte f') (vwrite f') ph.
Proof.
  intros [_ (_ & Hv & Hf) _ Hm _] He [H1 H2]. assert (forall j, j < p_memsz ph -> f' ((p_vaddr ph + j) / 4096) = f ((p_vaddr ph + j) / 4096)) as Hx.
  { intros j Hj. apply He. pose proof (ceil_spec (p_vaddr ph + p_memsz ph)). apply Z.div_lt_upper_bound; lia. }
  unfold vbyte, vwrite in *. split.
  - intros j Hj. rewrite Hx by lia. by apply H1.
  - intros Ht j Hj. rewrite Hx by lia. by apply H2.
Qed.

Section exec.
Context {S : Type} (sblock : SuperBlock) (cache : BlockCache S) `{!BlockCacheSpec sblock cache}.
Abbreviation on_file := (ExecImage.on_file sblock cache).

Lemma wp_load_segment v0 e p T f s ph :
  on_file v0 e p (x_fs s) -> image T f (x_as s) -> seg_ok (ie_num_bytes e) ph -> (seg_need ph <= length (nodes (as_pt (x_as s))))%nat ->
  wp (load_segment sblock cache p ph) (fun r s' => r = Some (seg_end ph) /\ on_file v0 e p (x_fs s') /\ x_regs s' = x_regs s /\
    (exists T', image T' (seg_view (byte_of v0 e) ph f) (x_as s')) /\ (length (nodes (as_pt (x_as s))) <= seg_need ph + length (nodes (as_pt (x_as s'))))%nat /\
    (exists x, as_secs (x_as s') = (x, seg_section ph) :: as_secs (x_as s)) /\ as_calls (x_as s') = as_calls (x_as s)) s.
Proof.
  intros Hf Him Hok Hn. pose proof Hok as [Hfl (Ho & Hv & Hfs) Hfile Hm Hu]. unfold load_segment. cbv zeta. fold (is_text ph).
  assert (negb (is_text ph) && negb (p_flags ph =? Z.lor PF_R PF_W) = false) as -> by (destruct Hfl as [-> | ->]; [done|by rewrite Z.eqb_refl, andb_false_r]).
  assert (u64 (p_vaddr ph + (if is_text ph then p_filesz ph else p_memsz ph)) = seg_end ph) as -> by (unfold u64, seg_end; apply wrap_small; destruct (is_text ph); lia).
  pose proof (ceil_spec (p_vaddr ph + p_filesz ph)) as Hc. pose proof (ceil_spec (p_vaddr ph + p_memsz ph)) as Hc2. pose proof (Z.div_pos (p_vaddr ph) 4096 Hv ltac:(lia)) as Hvp.
  assert (p_vaddr ph / 4096 <= ceil (p_vaddr ph + p_filesz ph) <= ceil (p_vaddr ph + p_memsz ph)) as Hcc by (unfold ceil; split; apply Z.div_le_mono; lia).
  assert (span (p_vaddr ph) (p_filesz ph) <= ceil (p_vaddr ph + p_filesz ph) - p_vaddr ph / 4096) as Hsp.
  { destruct (decide (p_filesz ph = 0)) as [E|]; [rewrite E in *; change (span (p_vaddr ph) 0) with 0; lia|]. rewrite <- span_ceil by lia. lia. }
  pose proof (span_pos (p_vaddr ph) (p_filesz ph) Hfs) as Hsp0. unfold seg_need in *.
  apply wp_bind, wp_zoom. eapply wp_mono; [apply (wp_add_section T f); [done|lia]|]. intros [] a1 (H1 & L1 & C1 & x & S1). set (s1 := put_as a1 s).
  apply wp_bind. eapply wp_mono.
  { apply (wp_load_pages sblock cache (rounds (p_filesz ph)) v0 e p (if is_text ph then ro_data else PTE_USER_DATA)) with (T := T) (f := f) (s := s1); try done; cbn [x_as s1 put_as]; try lia.
    - by destruct (is_text ph). - by destruct (is_text ph). - apply rounds_enough. lia. }
  intros r s2 (-> & Hf2 & R2 & (T2 & H2) & L2 & S2 & C2). cbn [x_as x_regs s1 put_as] in *.
  rewrite round_up by lia. fold (bss_start ph). assert (u64 (bss_start ph - p_vaddr ph) = bss_start ph - p_vaddr ph) as -> by (unfold u64, bss_start; apply wrap_small; lia).
  set (b := negb (is_text ph) && (bss_start ph - p_vaddr ph <? p_memsz ph)).
  assert (forall v, vpage v -> seg_view (byte_of v0 e) ph f v = if b && within (ceil (p_vaddr ph + p_filesz ph)) (npages (p_vaddr ph + p_memsz ph - bss_start ph)) v then Some Zero else
    if within (p_vaddr ph / 4096) (span (p_vaddr ph) (p_filesz ph)) v then Some (Own (seg_page (fun j => byte_of v0 e (p_offset ph + j)) (p_vaddr ph) (p_filesz ph) v) (if is_text ph then ro_data else PTE_USER_DATA)) else f v) as Esv.
  { intros v _. unfold seg_view, b. replace (bss_start ph - p_vaddr ph <? p_memsz ph) with (bss_start ph <? p_vaddr ph + p_memsz ph); [|destruct (Z.ltb_spec (bss_start ph) (p_vaddr ph + p_memsz ph)), (Z.ltb_spec (bss_start ph - p_vaddr ph) (p_memsz ph)); done || lia].
    destruct (negb (is_text ph)), (bss_start ph <? p_vaddr ph + p_memsz ph), (within (ceil _) _ v); done. }
  apply wp_bind. destruct b eqn:Eb.
  - apply andb_true_iff in Eb as [_ Hlt%Z.ltb_lt]. unfold bss_start in Hlt. replace (p_memsz ph - (bss_start ph - p_vaddr ph)) with (p_vaddr ph + p_memsz ph - bss_start ph) by lia. set (sz := p_vaddr ph + p_memsz ph - bss_start ph) in *.
    pose proof (npages_ceil (ceil (p_vaddr ph + p_filesz ph)) (p_vaddr ph + p_memsz ph)) as En. fold (bss_start ph) in En. fold sz in En. pose proof (npages_pos sz ltac:(unfold sz, bss_start; lia)) as Hnp.
    apply wp_zoom, wp_bind, wp_zoom, wp_on_mem, wp_gets.
    assert (set_pt (mkPt (pt_mem (as_pt (x_as s2))) (pt_tabs (as_pt (x_as s2))) (pt_root (as_pt (x_as s2)))) (x_as s2) = x_as s2) as -> by (by destruct (x_as s2) as [[] ? ? ?]).
    eapply wp_mono; [eapply (wp_map_zero (rounds sz) T2)|].
    { exact H2. } { unfold sz, bss_start. lia. } { unfold bss_start. lia. } { unfold bss_start. rewrite Z.mul_comm. by apply Z.mod_mul. } { unfold sz. lia. } { apply (rounds_enough 0). unfold sz, bss_start. lia. } { cbn. lia. }
    intros [] a3 (T3 & H3 & L3 & S3 & C3). apply wp_ret. cbn [x_fs x_as x_regs put_as set_pt as_pt as_secs as_calls pt_mem] in *. split_and!; [done|done|done| |lia| |congruence].
    + exists T3. eapply image_ext; [|exact H3]. intros v Hvp'. cbn beta. rewrite Esv by done. cbn [andb]. unfold bss_start at 1. rewrite (Z.mul_comm 4096 (ceil (p_vaddr ph + p_filesz ph))), Z.div_mul by lia. done.
    + exists x. by rewrite S3, S2, S1.
  - apply wp_ret, wp_ret. split_and!; [done|done|done| |lia| |congruence].
    + exists T2. eapply image_ext; [|exact H2]. intros v Hvp'. by rewrite Esv.
    + exists x. by rewrite S2, S1.
Qed.

(** A segment with any other permissions, read-only data for one, is refused, and
    [execve] returns -1. *)
Lemma load_segment_refused p ph s :
  is_text ph = false -> p_flags ph <> Z.lor PF_R PF_W -> load_segment sblock cache p ph s = Done None s.
Proof. intros Ht Hf. unfold load_segment. fold (is_text ph). rewrite Ht, (proj2 (Z.eqb_neq _ _) Hf). done. Qed.

Lemma wp_load_segments v0 e p n : forall T f s off m lo buf,
  let phs := headers (byte_of v0 e) off n in
  on_file v0 e p (x_fs s) -> image T f (x_as s) -> 0 <= off -> off + Phdr_size * Z.of_nat n <= ie_num_bytes e -> segs_ok (ie_num_bytes e) lo phs -> (segs_need phs <= length (nodes (as_pt (x_as s))))%nat ->
  length buf = Z.to_nat Phdr_size -> (forall v, lo <= v -> f v = None) ->
  wp (load_segments sblock cache n p off m buf) (fun r s' => r = Some (image_end m phs) /\ on_file v0 e p (x_fs s') /\ x_regs s' = x_regs s /\
    (exists T' f', image T' f' (x_as s') /\ (forall ph, ph ∈ loads phs -> seg_loaded (byte_of v0 e) (vbyte f') (vwrite f') ph) /\
      (forall v, v < lo -> f' v = f v) /\ (forall v, f' v = f v \/ 4096 * v < image_end m phs)) /\
    (length (nodes (as_pt (x_as s))) <= segs_need phs + length (nodes (as_pt (x_as s'))))%nat /\
    (as_secs (x_as s')).*2 = reverse (seg_section <$> loads phs) ++ (as_secs (x_as s)).*2 /\ as_calls (x_as s') = as_calls (x_as s)) s.
Proof.
  induction n as [|n IH]; intros T f s off m lo buf phs Hf Him Ho Hsz Hok Hn Hb Hnone; subst phs.
  { cbn [load_segments headers seq fmap list_fmap]. apply wp_ret. split_and!; try done. exists T, f. split_and!; try done; [|by left]. intros ph Hph. by apply elem_of_nil in Hph. }
  pose proof (mp_size _ _ _ _ (of_mapped _ _ _ _ _ _ Hf)) as Hmax. change INODE_MAX_BYTES with (140 * 512) in Hmax.
  rewrite headers_cons in *. set (ph := decode_phdr _) in *. set (phs := headers _ _ n) in *. cbn [load_segments]. unfold Phdr_size in *.
  apply wp_bind, wp_zoom. eapply wp_mono; [apply (wp_file_read sblock cache v0 e p (x_fs s) buf off 56 Hf); lia|]. intros r fs (-> & Hf1). cbn [fst snd]. change (56 <? 56) with false. cbn iota.
  assert (splice buf 0 (file_bytes v0 e off (Z.to_nat 56)) = file_bytes v0 e off (Z.to_nat 56)) as ->.
  { unfold splice. cbn [take]. rewrite drop_ge; [by rewrite app_nil_r|]. rewrite length_file_bytes. lia. }
  change (decode_phdr (file_bytes v0 e off (Z.to_nat 56))) with ph. unfold u64. rewrite wrap_small by lia. fold (is_load ph). unfold segs_need, image_end in *. cbn [segs_ok] in Hok. rewrite loads_cons in *.
  pose proof (length_file_bytes v0 e off (Z.to_nat 56)) as Hlb. destruct (is_load ph) eqn:El; cbn [negb].
  - destruct Hok as (Hseg & Hlo & Hrest). cbn [foldr] in Hn. apply wp_bind. eapply wp_mono; [apply (wp_load_segment v0 e p T f (put_fs fs s) ph); try done; cbn [x_as put_fs]; lia|].
    intros r s1 (-> & Hf2 & R2 & (T2 & H2) & L2 & (x & S2) & C2). cbn [x_as x_regs put_fs] in *.
    eapply wp_mono; [apply (IH T2 _ s1 (off + 56) (Z.max m (seg_end ph)) (ceil (p_vaddr ph + p_memsz ph)) (file_bytes v0 e off (Z.to_nat 56)) Hf2 H2); try done; [lia|lia|fold phs; lia|]|].
    { intros v Hv. assert (p_vaddr ph / 4096 <= ceil (p_vaddr ph + p_memsz ph)) by (destruct Hseg as [_ (_ & ? & ?) _ ? _]; unfold ceil; apply Z.div_le_mono; lia).
      rewrite (proj1 (seg_view_frame (byte_of v0 e) ph f (ie_num_bytes e) v Hseg)) by lia. apply Hnone. lia. }
    fold phs. intros r s3 (-> & Hf3 & R3 & (T3 & f3 & H3 & Hl3 & Hlow3 & Hend3) & L3 & S3 & C3).
    pose proof (image_end_ge phs (Z.max m (seg_end ph))) as Hge. unfold image_end in Hge. split_and!; [done|done|congruence| | | |congruence].
    + exists T3, f3. split_and!; [done| | |].
      * intros ph' [->|Hin]%elem_of_cons; [|by apply Hl3]. apply (seg_loaded_agree _ ph (seg_view (byte_of v0 e) ph f) f3 (ie_num_bytes e)); [done|done|]. apply (seg_view_loaded _ _ _ (ie_num_bytes e)); [done|by apply Hnone].
      * intros v Hv. destruct Hseg as [A1 A2 A3 A4 A5] eqn:E. assert (p_vaddr ph / 4096 <= ceil (p_vaddr ph + p_memsz ph)) by (unfold ceil; apply Z.div_le_mono; lia).
        rewrite Hlow3 by lia. apply (proj1 (seg_view_frame (byte_of v0 e) ph f (ie_num_bytes e) v Hseg)). lia.
      * intros v. cbn [foldl]. destruct (Hend3 v) as [->|Hlt]; [|by right]. destruct (proj2 (seg_view_frame (byte_of v0 e) ph f (ie_num_bytes e) v Hseg)) as [?|?]; [by left|right; lia].
    + cbn [foldr]. lia.
    + rewrite S3, S2. cbn [fmap list_fmap]. rewrite reverse_cons. by rewrite <- app_assoc.
  - eapply wp_mono; [apply (IH T f (put_fs fs s) (off + 56) m lo (file_bytes v0 e off (Z.to_nat 56)) Hf1 Him); try done; lia|]. fold phs. cbn [x_as x_regs put_fs]. done.
Qed.
End exec.
