(* ===== verification/ExecLoad.v ===== *)
(** What [execve] loads (Exec.v): the claim about the image of a program. *)
From Stdlib Require Import ZArith Lia.
From stdpp Require Import base numbers gmap sets list.
From S2P Require Import Prelude Bytes Sync FsDefs CString Mem Cache CacheLaws LogLaws Crash Reserve Transactions BlockCache Inode InodeLaws InodeProps Directory Path PageTable AddrSpace UserMem Paging Fork Exec ExecLaws ExecImage ExecSegs.

(** Memory before a program is loaded: distinct free pages, and a zero page that is
    in use. *)
Record mem_ready (a : AS) : Prop := {
  mr_nodup : NoDup (nodes (as_pt a));
  mr_pages : forall q, q ∈ nodes (as_pt a) -> kpage q;
  mr_whole : whole_pages a;
  mr_heap : heap_ready (pt_mem (as_pt a));
  mr_zero : kpage (zpage a) /\ zpage a ∉ nodes (as_pt a) /\ 0 <= refs (as_pt a) (zpage a) /\ as_pages a (zpage a) = zeros;
}.

(** The heap section of [init_sections]. *)
Definition heap_section (junk : section) : section :=
  mkSection ST_HEAP 0 0 (Sem.init_sem 1) (se_fp junk) (se_offset junk) (se_length junk) (se_prot junk).

Lemma wp_ready_kalloc a size :
  mem_ready a -> 0 <= size <= 4072 -> (1 <= length (nodes (as_pt a)))%nat ->
  wp (on_pt (on_mem (kalloc size))) (fun _ a' => mem_ready a' /\ (length (nodes (as_pt a)) <= 1 + length (nodes (as_pt a')))%nat /\ as_calls a' = as_calls a) a.
Proof.
  intros [H1 H2 H3 H4 (Z1 & Z2 & Z3 & Z4)] Hs Hn. apply wp_zoom, wp_on_mem. eapply wp_mono; [apply wp_kalloc_small; [done|done| |]|].
  { destruct (m_nodes _); [simpl in Hn; lia|done]. } { intros q Hq. apply (H2 q Hq). }
  intros _ m' (Hh & Ez & [[E1 E2]|(q & E1 & E2)]); cbn.
  - rewrite E1. split; [|split; [lia|done]]. split; cbn; rewrite ?E1, ?E2, ?Ez; done.
  - rewrite E1. split; [|split; [simpl; lia|done]]. rewrite E1 in H1, H2, Z2. apply NoDup_cons in H1 as [Hq H1]. apply not_elem_of_cons in Z2 as [Z2 Z2']. split; cbn; rewrite ?Ez; try done.
    + intros x Hx. apply H2. by right.
    + split_and!; try done. rewrite E2, lookup_insert_ne; [done|]. intros E. apply Z2. symmetry. apply page_num_inj; [apply H2; by left|done|done].
Qed.

(** A fresh directory: nothing is mapped. *)
Lemma wp_init_pgdir a :
  mem_ready a -> (1 <= length (nodes (as_pt a)))%nat ->
  wp (on_pt init_pgdir) (fun _ a' => (exists T, image T (fun _ => None) a') /\ (length (nodes (as_pt a)) <= 1 + length (nodes (as_pt a')))%nat /\ as_calls a' = as_calls a) a.
Proof.
  intros [H1 H2 H3 H4 (Z1 & Z2 & Z3 & Z4)] Hn. destruct (nodes (as_pt a)) as [|q ps] eqn:En; [simpl in Hn; lia|]. apply wp_zoom. unfold init_pgdir, new_table. apply wp_bind, wp_bind.
  apply NoDup_cons in H1 as [Hq H1]. apply not_elem_of_cons in Z2 as [Z2 Z2']. assert (kpage q) as Kq by (apply H2; by left). apply (wp_kalloc_pt _ q ps); [done|done|]. apply wp_bind, wp_modify, wp_ret, wp_modify. cbn.
  set (m := without_page q ps _). set (tabs := <[q := empty_table]> _).
  pose proof (empty_dir_ok m tabs q (lookup_insert_eq _ _ _) Kq H1) as Hok. pose proof (empty_dir_entry m tabs q (lookup_insert_eq _ _ _) Kq H1) as Hent.
  assert (forall x, x ∈ m_nodes m -> kpage x /\ x <> q) as Hf by (intros x Hx; split; [apply H2; by right|by intros ->]).
  split; [|split; [simpl; lia|done]]. exists {[ [] := q ]}. split.
  - by apply Hok.
  - done.
  - done.
  - split; cbn; try done.
    + intros p [_ E]%lookup_singleton_Some. by apply Z2.
    + rewrite lookup_insert_ne; [done|]. intros E. apply Z2. symmetry. by apply page_num_inj.
  - intros v Hv. cbn. unfold translate. rewrite Hent; [done|done|]. apply vpage_range in Hv. lia.
Qed.

Section exec.
Context {S : Type} (sblock : SuperBlock) (cache : BlockCache S) `{!BlockCacheSpec sblock cache} (junk : section).
Abbreviation on_file := (ExecImage.on_file sblock cache).

Lemma wp_load_image v0 e p s h buf :
  let phs := headers (byte_of v0 e) (e_phoff h) (Z.to_nat (e_phnum h)) in
  on_file v0 e p (x_fs s) -> mem_ready (x_as s) -> 0 <= e_phoff h -> 0 <= e_phnum h -> e_phoff h + Phdr_size * e_phnum h <= ie_num_bytes e -> segs_ok (ie_num_bytes e) 0 phs ->
  (3 + segs_need phs <= length (nodes (as_pt (x_as s))))%nat -> length buf = Z.to_nat Phdr_size ->
  wp (load_image sblock cache junk p h buf) (fun r s' => r.2 = Some (image_end 0 phs) /\ on_file v0 e p (x_fs s') /\ x_regs s' = x_regs s /\
    (exists T f, image T f (x_as s') /\ (forall ph, ph ∈ loads phs -> seg_loaded (byte_of v0 e) (vbyte f) (vwrite f) ph) /\ (forall v, f v = None \/ 4096 * v < image_end 0 phs)) /\
    (length (nodes (as_pt (x_as s))) <= 3 + segs_need phs + length (nodes (as_pt (x_as s'))))%nat /\
    (as_secs (x_as s')).*2 = reverse (seg_section <$> loads phs) ++ [heap_section junk]) s.
Proof.
  intros phs Hf Hr Ho Hp Hsz Hok Hn Hb. unfold load_image. apply wp_bind, wp_zoom. eapply wp_mono; [apply wp_ready_kalloc; [done|unfold sizeof_pgdir; lia|lia]|].
  intros x a1 (Hr1 & L1 & C1). apply wp_bind, wp_zoom. eapply wp_mono; [apply wp_init_pgdir; [done|cbn; lia]|]. intros [] a2 ((T2 & H2) & L2 & C2). cbn [x_as put_as] in *.
  apply wp_bind, wp_zoom, wp_modify. cbn [x_as put_as]. apply wp_bind, wp_zoom. unfold init_sections. apply wp_bind. cbn [x_as put_as].
  eapply wp_mono; [apply (wp_image_kalloc T2 (fun _ => None) (set_secs [] a2)); [by apply image_secs|unfold sizeof_section; lia|cbn; lia]|].
  intros y a3 (H3 & L3 & S3 & C3). cbn [as_pt as_secs as_calls set_secs] in *. apply wp_modify. set (s4 := put_as _ _). apply wp_bind.
  eapply wp_mono; [apply (wp_load_segments sblock cache v0 e p (Z.to_nat (e_phnum h)) T2 (fun _ => None) s4 (e_phoff h) 0 0 buf); try done; [by apply image_secs|rewrite Z2Nat.id by done; lia|fold phs; cbn; lia]|].
  fold phs. intros r s5 (-> & Hf5 & R5 & (T5 & f5 & H5 & Hl5 & _ & He5) & L5 & S5 & C5). cbn [x_as s4 put_as x_regs as_pt as_secs set_secs] in *. apply wp_ret. cbn. split_and!; try done.
  - by exists T5, f5.
  - lia.
  - rewrite S5, S3. done.
Qed.

(** C12: Loading a program: for an ELF file whose loadable segments are each
    either text (readable and executable, nothing else) or data (readable and
    writable, nothing else), in order, share no page and lie in the file, and with
    free pages enough, [execve] maps all of them. Every byte of a segment that is
    in the file is at its address, with the text read-only, and the rest of a data
    segment up to its size in memory is zero, with one exception: of a data
    segment with no bytes in the file that does not start on a page, the part
    before the next page is left unmapped. Nothing is mapped from the page after
    the end of the last segment on; the list has one section for each segment,
    after that of the heap. At most so many pages are used, and what is left is an
    address space the stack can be built in. (A segment with other permissions,
    read-only data for one, makes [execve] return -1: load_segment_refused.) *)
Theorem load_image_spec v0 e p s h buf :
  let phs := headers (byte_of v0 e) (e_phoff h) (Z.to_nat (e_phnum h)) in
  on_file v0 e p (x_fs s) -> mem_ready (x_as s) -> 0 <= e_phoff h -> 0 <= e_phnum h -> e_phoff h + Phdr_size * e_phnum h <= ie_num_bytes e -> segs_ok (ie_num_bytes e) 0 phs ->
  (3 + segs_need phs <= length (nodes (as_pt (x_as s))))%nat -> length buf = Z.to_nat Phdr_size ->
  wp (load_image sblock cache junk p h buf) (fun r s' => r.2 = Some (image_end 0 phs) /\ on_file v0 e p (x_fs s') /\
    (forall ph, ph ∈ phs -> is_load ph = true -> seg_loaded (byte_of v0 e) (user_byte (x_as s')) (user_may_write (x_as s')) ph) /\
    (forall va, 0 <= va < 2 ^ 48 -> image_end 0 phs <= 4096 * (va / 4096) -> user_byte (x_as s') va = None) /\
    (as_secs (x_as s')).*2 = reverse (seg_section <$> loads phs) ++ [heap_section junk] /\
    (exists T f, image T f (x_as s')) /\ (length (nodes (as_pt (x_as s))) <= 3 + segs_need phs + length (nodes (as_pt (x_as s'))))%nat) s.
Proof.
  intros phs Hf Hr Ho Hp Hsz Hok Hn Hb. eapply wp_mono; [by apply (wp_load_image v0 e p s h buf)|].
  fold phs. intros r s' (Er & Hf' & _ & (T & f & H & Hl & He) & Hns & Hs). split_and!; [done|done| | |done|by exists T, f|done].
  - intros ph Hin El. assert (seg_ok (ie_num_bytes e) ph) as Hph.
    { clear -Hin El Hok. revert Hok. generalize 0. induction phs as [|x l IH]; intros lo Hok; [by apply elem_of_nil in Hin|]. cbn in Hok. apply elem_of_cons in Hin as [<-|Hin].
      - rewrite El in Hok. apply Hok.
      - destruct (is_load x); [destruct Hok as (_ & _ & Hok)|]; by eapply IH. }
    destruct Hph as [_ (_ & Hv & Hfs) _ Hm Hu]. destruct (Hl ph) as [A B]; [unfold loads; by apply list_elem_of_filter|]. split.
    + intros j Hj. destruct (user_byte_view T f (x_as s') (p_vaddr ph + j) H ltac:(lia)) as [-> ->]. by apply A.
    + intros Ht j Hj. destruct (user_byte_view T f (x_as s') (p_vaddr ph + j) H ltac:(lia)) as [-> _]. by apply B.
  - intros va Hva Hend. destruct (user_byte_view T f (x_as s') va H Hva) as [-> _]. unfold vbyte. destruct (He (va / 4096)) as [->|]; [done|lia].
Qed.
End exec.

(** ** A program of two segments: four bytes of text, two of data and a bss *)

Definition elf_phdr (flags off vaddr filesz memsz : Z) : list Z :=
  le_bytes 4 PT_LOAD ++ le_bytes 4 flags ++ le_bytes 8 off ++ le_bytes 8 vaddr ++ le_bytes 8 vaddr ++ le_bytes 8 filesz ++ le_bytes 8 memsz ++ le_bytes 8 4096.
Definition elf_program : list Z :=
  [127; 69; 76; 70] ++ replicate 20 0 ++ le_bytes 8 0x400000 ++ le_bytes 8 64 ++ replicate 16 0 ++ le_bytes 2 2 ++ replicate 6 0 ++
  elf_phdr 5 176 0x400000 4 4 ++ elf_phdr 6 180 0x402000 2 5000 ++ [11; 12; 13; 14; 21; 22].
Definition elf_block : list Z := elf_program ++ replicate (512 - length elf_program) 0.
Definition elf_entry : InodeEntry := mkInodeEntry INODE_REGULAR 0 0 1 182 (101 :: replicate 11 0) 0.
Definition elf_disk (b : Z) : list Z := if b =? 101 then elf_block else example_disk b.
Definition elf_cache : CacheState := set_dev (mkDevice elf_disk []) example_s1.
Definition elf_fs : FsState CacheState := mkFs elf_cache false [1] {[1 := mkInode (Sem.init_sem 1) 1 2 true elf_entry]} 2 0 0 (f_console example_fs).
Definition elf_header : Elf64_Ehdr := decode_ehdr (take 64 elf_program).

Definition example_frames : list Z := (fun i => P2K (0x40200000 + 4096 * Z.of_nat i)) <$> seq 0 80.
Definition example_as : AS := mkAS (mkPt (mkMem false example_frames (replicate 256 []) ∅ {[page_num (P2K 0x40100000) := 1]} 0 80 (P2K 0x40100000)) ∅ 0) (fun _ => zeros) [] [].
Definition example_x : XS CacheState := mkX elf_fs example_as (mkRegs 0 0 0 0).
Definition example_junk : section := mkSection 0 0 0 (Sem.init_sem 0) 0 0 0 0.

Lemma elf_disk_blocks b : is_block (elf_disk b).
Proof. unfold elf_disk. destruct (b =? 101); [apply bytes_dec_block; vm_compute; reflexivity|apply example_disk_blocks]. Qed.

Lemma elf_cache_ok : cache_ok example_sb elf_cache.
Proof.
  pose proof example_tx1 as [[[I1 I2 I3 I4 I5 I6] Hl] [L1 L2] [R1 R2 R3 R4] Hlk]. split; [|reflexivity]. split; [split; [split|]|split|split|]; try done.
  - intros blk Hin. assert (c_blocks elf_cache = []) as E by (vm_compute; reflexivity). rewrite E in Hin. by apply elem_of_nil in Hin.
  - intros b. apply elf_disk_blocks.
Qed.

Lemma elf_mapped : mapped example_sb (bcache example_sb) (volume elf_cache) elf_entry.
Proof.
  split.
  - unfold wf_inode, elf_entry, is_word, INODE_REGULAR. cbn [ie_type ie_major ie_minor ie_num_links ie_num_bytes ie_addrs ie_indirect]. split_and!; try lia; [reflexivity|]. constructor; [lia|]. apply Forall_replicate. lia.
  - vm_compute. discriminate.
  - intros k Hk Hlt. change (ie_num_bytes elf_entry) with 182 in Hlt. unfold BLOCK_SIZE in Hlt. assert (k = 0) as -> by lia. change (block_of (volume elf_cache) elf_entry 0) with 101. split; [done|]. apply example_usable. lia.
  - done.
Qed.

Lemma elf_on_file : ExecImage.on_file example_sb (bcache example_sb) (volume elf_cache) elf_entry 1 elf_fs.
Proof.
  split; [exact elf_cache_ok| |exact elf_mapped|discriminate|done]. eexists. split; [apply lookup_singleton_eq|done].
Qed.

Definition kpageb (q : Z) : bool :=
  (KSPACE_MASK <=? q) && (q <? 2 ^ 64) && (0 <=? K2P q) && (K2P q <? 2 ^ 48) && (K2P q mod 4096 =? 0) && (0 <=? page_num q) && (page_num q <? PHYSTOP / PAGE_SIZE) && negb (q =? 0).
Lemma kpageb_spec q : kpageb q = true -> kpage q.
Proof.
  unfold kpageb, kpage, page_at. rewrite !andb_true_iff, negb_true_iff, !Z.leb_le, !Z.ltb_lt, Z.eqb_eq, Z.eqb_neq. intros (((((((? & ?) & ?) & ?) & ?) & ?) & ?) & ?). done.
Qed.

Lemma example_ready : mem_ready example_as.
Proof.
  split.
  - apply (bool_decide_unpack _). vm_compute. exact I.
  - intros q Hq. apply kpageb_spec. assert (forallb kpageb example_frames = true) as H by (vm_compute; reflexivity). rewrite forallb_forall in H. apply H. by apply list_elem_of_In.
  - intros q. apply length_zeros.
  - done.
  - split_and!; [apply kpageb_spec; vm_compute; reflexivity| |vm_compute; discriminate|done]. apply (bool_decide_unpack _). vm_compute. exact I.
Qed.

Definition elf_headers : list Elf64_Phdr := [mkPhdr 1 5 176 0x400000 4 4; mkPhdr 1 6 180 0x402000 2 5000].
Lemma elf_headers_ok : headers (byte_of (volume elf_cache) elf_entry) 64 2 = elf_headers.
Proof. vm_compute. reflexivity. Qed.

Lemma load_image_spec_witness :
  wp (load_image example_sb (bcache example_sb) example_junk 1 elf_header (replicate 56 0)) (fun r s' => r.2 = Some 0x403388 /\
    user_byte (x_as s') 0x400003 = Some 14 /\ user_byte (x_as s') 0x402001 = Some 22 /\ user_byte (x_as s') 0x403000 = Some 0) example_x.
Proof.
  assert (e_phoff elf_header = 64 /\ e_phnum elf_header = 2) as [Eo En] by (vm_compute; done).
  eapply wp_mono; [apply (load_image_spec example_sb (bcache example_sb) (BlockCacheSpec0 := bcache_spec example_sb) example_junk (volume elf_cache) elf_entry 1 example_x elf_header (replicate 56 0)); rewrite ?Eo, ?En; change (Z.to_nat 2) with 2%nat; rewrite ?elf_headers_ok|].
  - exact elf_on_file.
  - exact example_ready.
  - lia.
  - lia.
  - vm_compute. discriminate.
  - cbn -[ceil Z.div]. split_and!; [|vm_compute; discriminate| |vm_compute; discriminate|done].
    + split; [by left|cbn; lia..].
    + split; [by right|cbn; lia..].
  - vm_compute. repeat constructor.
  - reflexivity.
  - rewrite Eo, En. change (Z.to_nat 2) with 2%nat. rewrite elf_headers_ok. intros r s' (Er & _ & Hl & _). split; [exact Er|].
    destruct (Hl (mkPhdr 1 5 176 0x400000 4 4) ltac:(left) eq_refl) as [A _]. destruct (Hl (mkPhdr 1 6 180 0x402000 2 5000) ltac:(right; left) eq_refl) as [B C]. cbn [p_filesz p_vaddr p_offset p_memsz] in *.
    split_and!.
    + destruct (A 3 ltac:(lia)) as [E _]. change (0x400000 + 3) with 0x400003 in E. rewrite E. vm_compute. reflexivity.
    + destruct (B 1 ltac:(lia)) as [E _]. change (0x402000 + 1) with 0x402001 in E. rewrite E. vm_compute. reflexivity.
    + change 0x403000 with (0x402000 + 0x1000). exact (C eq_refl 0x1000 ltac:(lia)).
Defined.

(** A path that does not exist stops the kernel. *)
Lemma execve_missing {S} (sblock : SuperBlock) (cache : BlockCache S) stack read junk ctx path argv envp ebuf pbuf junk1 junk2 s :
  wp (on_cache (bc_begin_op cache ctx) ;; namei sblock cache stack path ctx (replicate (Z.to_nat FILE_NAME_MAX_LENGTH) 0))
     (fun p fs => p = 0 /\ wp (on_cache (bc_end_op cache ctx)) (fun _ _ => True) fs) (x_fs s) ->
  panics (execve sblock cache stack read junk ctx path argv envp ebuf pbuf junk1 junk2) (fun _ => True) s.
Proof.
  intros H. unfold wp, mbind, M_bind in H. destruct (on_cache (bc_begin_op cache ctx) (x_fs s)) as [[] f1| | |] eqn:E1; [|done..]. destruct (namei _ _ _ _ _ _ f1) as [p f2| | |] eqn:E2; [|done..]. destruct H as [-> H].
  destruct (on_cache (bc_end_op cache ctx) f2) as [[] f3| | |] eqn:E3; [|done..].
  unfold execve. apply panics_bind. unfold wp, in_fs, zoom. rewrite E1. apply panics_bind. unfold wp. cbn [x_fs put_fs]. rewrite E2. cbn [Z.eqb]. apply panics_bind. unfold wp. cbn [x_fs put_fs]. by rewrite E3.
Qed.
