(* ===== verification/ExecStack.v ===== *)
(** The stack of a new program (Exec.v): [copyout] into the pages of the new
    directory, the strings, and the arrays of their addresses. *)
From Stdlib Require Import ZArith Lia.
From stdpp Require Import base numbers gmap sets list.
From S2P Require Import Prelude Bytes Sync FsDefs CString Mem Cache BlockCache Inode PageTable AddrSpace UserMem Paging Fork Exec ExecLaws ExecImage ExecSegs ExecLoad.

(** ** Writing through the directory *)

(** How a page is mapped, without its bytes. *)
Definition kind (f : view) (v : Z) : option (option Z) :=
  match f v with None => None | Some Zero => Some None | Some (Own _ fl) => Some (Some fl) end.
Definition owned (f : view) (x : Z) : Prop := exists fl, kind f (x / 4096) = Some (Some fl).

(** [f'] is [f] with the bytes [p] at [va]. *)
Definition written (f : view) (va : Z) (p : list Z) (f' : view) : Prop :=
  (forall x, 0 <= x < 2 ^ 48 -> vbyte f' x = if (va <=? x) && (x <? va + Z.of_nat (length p)) then p !! Z.to_nat (x - va) else vbyte f x) /\
  forall v, kind f' v = kind f v.

Lemma written_nil f va : written f va [] f.
Proof. split; [|done]. intros x Hx. cbn [length]. rewrite Z.add_0_r. destruct (Z.leb_spec va x), (Z.ltb_spec x va); cbn; done || lia. Qed.

Lemma written_app f va p1 p2 f1 f2 : written f va p1 f1 -> written f1 (va + Z.of_nat (length p1)) p2 f2 -> written f va (p1 ++ p2) f2.
Proof.
  intros [A1 B1] [A2 B2]. split; [|intros v; by rewrite B2]. intros x Hx. rewrite A2, A1 by done. rewrite length_app, Nat2Z.inj_add.
  destruct (Z.leb_spec (va + Z.of_nat (length p1)) x), (Z.ltb_spec x (va + Z.of_nat (length p1) + Z.of_nat (length p2))), (Z.leb_spec va x), (Z.ltb_spec x (va + Z.of_nat (length p1))), (Z.ltb_spec x (va + (Z.of_nat (length p1) + Z.of_nat (length p2)))); cbn; try done; try lia.
  - rewrite lookup_app_r by lia. f_equal. lia.
  - by rewrite lookup_app_l by lia.
Qed.

Lemma written_owned f va p f' x : written f va p f' -> owned f x -> owned f' x.
Proof. intros [_ H] [fl E]. exists fl. by rewrite H. Qed.

(** One page of it. *)
Lemma written_page T f a va n p bs fl :
  image T f a -> 0 <= va < 2 ^ 48 -> f (va / 4096) = Some (Own bs fl) -> n = Nat.min (length p) (Z.to_nat (4096 - va mod 4096)) ->
  written f va (take n p) (vset (va / 4096) (Own (splice bs (Z.to_nat (va mod 4096)) (take n p)) fl) f).
Proof.
  intros Him Hva Ef Hn. pose proof (Z.mod_pos_bound va 4096 ltac:(lia)) as Hm. pose proof (Z.div_mod va 4096 ltac:(lia)) as Hd.
  assert (length bs = 4096)%nat as Hl.
  { pose proof (im_view _ _ _ Him _ (vpage_of va Hva)) as Hs. rewrite Ef in Hs. destruct Hs as (q & _ & _ & _ & _ & <- & _). pose proof (im_whole _ _ _ Him q). unfold PAGE_SIZE in *. lia. }
  split.
  - intros x Hx. pose proof (Z.mod_pos_bound x 4096 ltac:(lia)) as Hmx. pose proof (Z.div_mod x 4096 ltac:(lia)) as Hdx. unfold vbyte, vset. rewrite length_take. destruct (Z.eqb_spec (x / 4096) (va / 4096)) as [E|Hne].
    + rewrite E, Ef. destruct (Z.leb_spec va x), (Z.ltb_spec x (va + Z.of_nat (Nat.min n (length p)))); cbn; [|rewrite lookup_splice_out; rewrite ?length_take; lia || done..].
      rewrite lookup_splice_in by (rewrite length_take; lia). f_equal. lia.
    + destruct (Z.leb_spec va x), (Z.ltb_spec x (va + Z.of_nat (Nat.min n (length p)))); cbn; try done. exfalso. apply Hne. symmetry. apply (Z.div_unique_pos x 4096 (va / 4096) (x - 4096 * (va / 4096))); lia.
  - intros v. unfold kind, vset. destruct (Z.eqb_spec v (va / 4096)) as [->|]; [by rewrite Ef|done].
Qed.

Lemma wp_copyout_loop fuel : forall T f a va p,
  image T f a -> 0 <= va -> va + Z.of_nat (length p) <= 2 ^ 47 -> (forall x, va <= x < va + Z.of_nat (length p) -> owned f x) -> (length p <= fuel)%nat ->
  wp (copyout_loop fuel (pt_root (as_pt a)) va p) (fun r a' => r = pt_root (as_pt a) /\ as_pt a' = as_pt a /\ as_secs a' = as_secs a /\ as_calls a' = as_calls a /\
    exists f', image T f' a' /\ written f va p f') a.
Proof.
  induction fuel as [|fuel IH]; intros T f a va p Him Hva Hb Ho Hfu.
  { destruct p; [|simpl in Hfu; lia]. apply wp_ret. split_and!; try done. exists f. split; [done|apply written_nil]. }
  destruct (decide (p = [])) as [->|Hp]. { apply wp_ret. split_and!; try done. exists f. split; [done|apply written_nil]. }
  cbn [copyout_loop]. destruct p as [|b0 p0] eqn:Ep; [done|]. rewrite <- Ep in *. assert (0 < length p)%nat as Hlen by (rewrite Ep; simpl; lia). clear Hp.
  destruct (base_of va) as [Eb Eo]; [lia|]. rewrite Eo. pose proof (Z.mod_pos_bound va 4096 ltac:(lia)) as Hm. pose proof (Z.div_mod va 4096 ltac:(lia)) as Hd. unfold PAGE_SIZE. set (n := Nat.min (length p) (Z.to_nat (4096 - va mod 4096))).
  assert (0 < n <= length p)%nat as Hnn by (unfold n; lia). set (v := va / 4096) in *. assert (vpage v) as Hv by (apply vpage_of; lia).
  destruct (Ho va ltac:(lia)) as [fl Ek]. fold v in Ek. unfold kind in Ek. destruct (f v) as [[bs fl'|]|] eqn:Ef; [|done|done]. injection Ek as ->.
  pose proof (im_view _ _ _ Him v Hv) as Hs. rewrite Ef in Hs. destruct Hs as (q & Kq & Hfl & Hvl & Ee & Ebs & _). pose proof (find_entry_base (as_pt a) va Hva) as Efb. fold v in Efb. rewrite <- Efb in Ee.
  pose proof (so_pt _ _ _ (im_space _ _ _ Him)) as Hpt. pose proof (VA_PART_range va ltac:(lia)) as (_ & _ & _ & R3). pose proof Ee as Et. rewrite (find_entry_tree T (as_pt a) va Hpt ltac:(lia)) in Et.
  destruct (T !! path_of va) as [t|] eqn:ETt; [|done]. cbn [mbind option_bind] in Et. destruct (pt_tabs (as_pt a) !! t) as [l|] eqn:El; [|done]. cbn [mbind option_bind] in Et.
  apply wp_bind, wp_with_root. assert (mkPt (pt_mem (as_pt a)) (pt_tabs (as_pt a)) (pt_root (as_pt a)) = as_pt a) as Es by (by destruct (as_pt a)). rewrite Es.
  apply wp_bind. unfold wp at 1. rewrite (get_pte_present T (as_pt a) va t true Hpt ltac:(lia) ETt). apply wp_bind. eapply wp_deref; [done|]. eapply wp_pte_get; [exact El|exact Et|]. rewrite Es.
  cbn [fst snd]. apply wp_bind, wp_modify. rewrite entry_page by done. assert (set_pt (as_pt a) a = a) as -> by (by destruct a). set (a1 := set_pages _ a).
  assert (image T (vset v (Own (splice bs (Z.to_nat (va mod 4096)) (take n p)) fl) f) a1) as H1.
  { unfold a1. apply (image_write T f a v q (Z.lor (K2P q) fl) bs fl); [done|done|done|by rewrite <- Efb|by rewrite entry_page|rewrite length_take; unfold PAGE_SIZE, n; lia]. }
  pose proof (written_page T f a va n p bs fl Him ltac:(lia) Ef eq_refl) as Hw. fold v in Hw. unfold u64. rewrite wrap_small by lia.
  change (pt_root (as_pt a)) with (pt_root (as_pt a1)). eapply wp_mono; [apply (IH T _ a1 (va + Z.of_nat n) (drop n p) H1)|].
  - lia.
  - rewrite length_drop. lia.
  - intros x Hx. rewrite length_drop in Hx. eapply written_owned; [exact Hw|]. apply Ho. lia.
  - rewrite length_drop. lia.
  - intros r a' (-> & E1 & E2 & E3 & f' & H' & W'). split_and!; [done|done|done|done|]. exists f'. split; [done|].
    rewrite <- (take_drop n p). eapply written_app; [exact Hw|]. rewrite length_take. by replace (Nat.min n (length p)) with n by lia.
Qed.

Lemma wp_copy_to T f a va p :
  image T f a -> 0 <= va -> va + Z.of_nat (length p) <= 2 ^ 47 -> (forall x, va <= x < va + Z.of_nat (length p) -> owned f x) ->
  wp (copy_to va p) (fun _ a' => as_pt a' = as_pt a /\ as_secs a' = as_secs a /\ as_calls a' = as_calls a /\ exists f', image T f' a' /\ written f va p f') a.
Proof.
  intros Him Hva Hb Ho. unfold copy_to. apply wp_bind, wp_gets. apply wp_bind. eapply wp_mono; [by apply (wp_copyout_loop (length p) T f a va p)|].
  intros r a' (-> & E1 & E2 & E3 & f' & H' & W). apply wp_modify.
  assert (set_pt (mkPt (pt_mem (as_pt a')) (pt_tabs (as_pt a')) (pt_root (as_pt a))) a' = a') as -> by (rewrite <- E1; by destruct a' as [[] ? ? ?]).
  split_and!; try done. by exists f'.
Qed.

(** ** Strings *)

(** The bytes [l] are at [va]. *)
Definition at_view (f : view) (va : Z) (l : list Z) : Prop := forall i b, l !! i = Some b -> vbyte f (va + Z.of_nat i) = Some b.
(** Only the bytes from [lo] to [hi] differ. *)
Definition same_but (lo hi : Z) (f f' : view) : Prop :=
  (forall x, 0 <= x < 2 ^ 48 -> ~ (lo <= x < hi) -> vbyte f' x = vbyte f x) /\ forall v, kind f' v = kind f v.

Lemma written_same f va p f' : written f va p f' -> same_but va (va + Z.of_nat (length p)) f f'.
Proof. intros [H1 H2]. split; [|done]. intros x Hx Hn. rewrite H1 by done. destruct (Z.leb_spec va x), (Z.ltb_spec x (va + Z.of_nat (length p))); cbn; done || lia. Qed.

Lemma written_at f va p f' : written f va p f' -> 0 <= va -> va + Z.of_nat (length p) <= 2 ^ 48 -> at_view f' va p.
Proof.
  intros [H1 _] Hva Hb i b Hi. pose proof (lookup_lt_Some _ _ _ Hi). rewrite H1 by lia. rewrite (proj2 (Z.leb_le _ _)), (proj2 (Z.ltb_lt _ _)) by lia. cbn. by replace (Z.to_nat (va + Z.of_nat i - va)) with i by lia.
Qed.

Lemma same_but_wide lo hi lo' hi' f f' : same_but lo hi f f' -> lo' <= lo -> hi <= hi' -> same_but lo' hi' f f'.
Proof. intros [H1 H2] A B. split; [|done]. intros x Hx Hn. apply H1; [done|lia]. Qed.

Lemma same_but_trans lo hi f1 f2 f3 : same_but lo hi f1 f2 -> same_but lo hi f2 f3 -> same_but lo hi f1 f3.
Proof. intros [A1 A2] [B1 B2]. split; [|intros v; by rewrite B2]. intros x Hx Hn. by rewrite B1, A1. Qed.

Lemma same_but_at lo hi f f' va l : same_but lo hi f f' -> 0 <= va -> va + Z.of_nat (length l) <= 2 ^ 48 -> va + Z.of_nat (length l) <= lo \/ hi <= va -> at_view f va l -> at_view f' va l.
Proof. intros [H1 _] Hva Hb Hd H i b Hi. pose proof (lookup_lt_Some _ _ _ Hi). rewrite H1 by lia. by apply H. Qed.

Lemma same_but_owned lo hi f f' x : same_but lo hi f f' -> owned f x -> owned f' x.
Proof. intros [_ H] [fl E]. exists fl. by rewrite H. Qed.

(** Room enough for the strings: each is aligned to 8 bytes. *)
Definition strs_room (strs : list (list Z)) : Z := foldr (fun str n => Z.of_nat (length str) + 8 + n) 0 strs.
(** The strings at their addresses, between [lo] and [hi]. *)
Definition strings_at (f : view) (lo hi : Z) (ps : list Z) (strs : list (list Z)) : Prop :=
  Forall2 (fun p str => lo <= p /\ p + Z.of_nat (length str) + 1 <= hi /\ at_view f p (str ++ [0])) ps strs.

Lemma strs_room_pos strs : 0 <= strs_room strs.
Proof. induction strs; simpl; lia. Qed.

Lemma strings_at_same f f' lo hi lo' hi' ps strs :
  same_but lo' hi' f f' -> 0 <= lo -> hi <= 2 ^ 48 -> hi' <= lo -> lo' <= lo -> strings_at f lo hi ps strs -> strings_at f' lo' hi ps strs.
Proof.
  intros Hs Hlo Hhi Hd Hl H. eapply Forall2_impl; [exact H|]. intros p str (A & B & C). split_and!; [lia|lia|]. eapply same_but_at; [exact Hs|lia|rewrite length_app; simpl; lia|right; lia|done].
Qed.

Lemma wp_push_strings strs : forall T f a sp base,
  image T f a -> 0 <= base -> sp <= 2 ^ 47 -> base + strs_room strs <= sp -> (forall x, base <= x < sp -> owned f x) ->
  wp (push_strings strs sp) (fun r a' => let '(sp', ps) := r in sp - strs_room strs <= sp' <= sp /\ (sp mod 8 = 0 -> sp' mod 8 = 0) /\
    as_pt a' = as_pt a /\ as_secs a' = as_secs a /\ as_calls a' = as_calls a /\
    exists f', image T f' a' /\ same_but sp' sp f f' /\ strings_at f' sp' sp ps strs) a.
Proof.
  induction strs as [|str strs IH]; intros T f a sp base Him Hb Hsp Hr Ho; cbn [push_strings].
  { change (strs_room []) with 0 in *. apply wp_ret. split_and!; try done; try lia. exists f. split_and!; [done|split; [done|done]|constructor]. }
  change (strs_room (str :: strs)) with (Z.of_nat (length str) + 8 + strs_room strs) in *. pose proof (strs_room_pos strs) as Hp. apply wp_bind. eapply wp_mono; [apply (IH T f a sp base); try done; lia|]. clear IH.
  intros [sp1 ps] a1 (Hsp1 & Hal & E1 & E2 & E3 & f1 & H1 & Sb1 & St1). set (n := Z.of_nat (length str) + 1). unfold u64. rewrite (wrap_small 64 (sp1 - n)) by lia. pose proof (Z.mod_pos_bound (sp1 - n) 8 ltac:(lia)) as Hm.
  rewrite wrap_small by lia. set (sp2 := sp1 - n - (sp1 - n) mod 8). assert (sp2 mod 8 = 0) as Hal2.
  { unfold sp2. pose proof (Z.div_mod (sp1 - n) 8 ltac:(lia)). replace (sp1 - n - (sp1 - n) mod 8) with ((sp1 - n) / 8 * 8) by lia. by apply Z.mod_mul. }
  assert (Z.of_nat (length (str ++ [0])) = n) as Hl by (rewrite length_app; simpl; lia).
  apply wp_bind. eapply wp_mono; [apply (wp_copy_to T f1 a1 sp2 (str ++ [0]) H1); rewrite ?Hl|].
  { lia. } { lia. } { intros x Hx. eapply same_but_owned; [exact Sb1|]. apply Ho. lia. }
  intros [] a2 (E4 & E5 & E6 & f2 & H2 & W2). pose proof (written_same _ _ _ _ W2) as Sb2. rewrite Hl in Sb2. apply wp_ret. split_and!; [lia|lia|done|congruence|congruence|congruence|].
  exists f2. split_and!; [done| |].
  - eapply same_but_trans; [eapply same_but_wide; [exact Sb1|lia|lia]|eapply same_but_wide; [exact Sb2|lia|lia]].
  - constructor; [split_and!; [lia|lia|by apply (written_at f1); [done|lia|lia]]|]. apply (strings_at_same f1 f2 sp1 sp sp2 sp1); [eapply same_but_wide; [exact Sb2|lia|lia]|lia|lia|lia|lia|done].
Qed.

(** ** The whole stack *)

(** The pages of the stack, below [sp]. *)
Lemma wp_stack_pages T f a top :
  image T f a -> 10 <= top <= 2 ^ 35 -> (40 <= length (nodes (as_pt a)))%nat ->
  wp (stack_pages (4096 * top)) (fun _ a' => (exists T', image T' (fun v => if within (top - 10) 10 v then Some (Own zeros PTE_USER_DATA) else f v) a') /\
    (length (nodes (as_pt a)) <= 40 + length (nodes (as_pt a')))%nat /\ as_secs a' = as_secs a /\ as_calls a' = as_calls a) a.
Proof.
  intros Him Ht Hn. unfold stack_pages. change (Z.to_nat STACK_PAGES) with 10%nat.
  set (I := fun i a' => (exists T', image T' (fun v => if within (top - (i - 1)) (i - 1) v then Some (Own zeros PTE_USER_DATA) else f v) a') /\
    (length (nodes (as_pt a)) <= 4 * Z.to_nat (i - 1) + length (nodes (as_pt a')))%nat /\ as_secs a' = as_secs a /\ as_calls a' = as_calls a).
  apply (wp_for_each I).
  - split_and!; [|simpl; lia|done|done]. exists T. eapply image_ext; [|exact Him]. intros v _. by rewrite within_none.
  - intros i a1 Hi ((T1 & H1) & L1 & S1 & C1). assert (u64 (4096 * top - i * PAGE_SIZE) = 4096 * (top - i)) as -> by (unfold u64, PAGE_SIZE; rewrite wrap_small; lia).
    assert (4096 * (top - i) / 4096 = top - i) as Ed by (rewrite Z.mul_comm; by apply Z.div_mul). apply wp_bind.
    eapply wp_mono; [apply (wp_new_page T1 _ a1 (4096 * (top - i)) PTE_USER_DATA H1); rewrite ?Ed; try done; lia|]. rewrite Ed.
    intros q a2 (T2 & H2 & _ & _ & L2 & S2 & C2). apply wp_ret. split_and!; [|lia|congruence|congruence]. exists T2. eapply image_ext; [|exact H2].
    intros v _. unfold vset, within. destruct (Z.eqb_spec v (top - i)), (Z.leb_spec (top - (i - 1)) v), (Z.ltb_spec v (top - (i - 1) + (i - 1))), (Z.leb_spec (top - (i + 1 - 1)) v), (Z.ltb_spec v (top - (i + 1 - 1) + (i + 1 - 1))); cbn; done || lia.
Qed.

(** What a process reads: the bytes [l] at [va], and the strings at [ps]. *)
Definition at_user (a : AS) (va : Z) (l : list Z) : Prop := forall i b, l !! i = Some b -> user_byte a (va + Z.of_nat i) = Some b.
Definition strings_in (a : AS) (ps : list Z) (strs : list (list Z)) : Prop := Forall2 (fun p str => at_user a p (str ++ [0])) ps strs.

Lemma at_view_user T f a va l : image T f a -> 0 <= va -> va + Z.of_nat (length l) <= 2 ^ 48 -> at_view f va l -> at_user a va l.
Proof. intros H Hva Hb Hat i b Hi. pose proof (lookup_lt_Some _ _ _ Hi). destruct (user_byte_view T f a (va + Z.of_nat i) H ltac:(lia)) as [-> _]. by apply Hat. Qed.

Lemma strings_at_user T f a lo hi ps strs : image T f a -> 0 <= lo -> hi <= 2 ^ 48 -> strings_at f lo hi ps strs -> strings_in a ps strs.
Proof.
  intros H Hlo Hhi Hs. eapply Forall2_impl; [exact Hs|]. intros p str (A & B & C). eapply at_view_user; [exact H|lia|rewrite length_app; simpl; lia|done].
Qed.

(** Room for the two arrays, the strings and the words between them. *)
Definition stack_room (argv envp : list (list Z)) : Z := 32 + strs_room argv + strs_room envp + 16 * (Z.of_nat (length argv) + 1).

(** ** A stack that grows down

    The pages from [base] to [top] are the stack's own; [sp] is how far it has
    grown since the view [f0]. *)
Section growing.
Context (T : gmap (list Z) Z) (f0 : view) (base top : Z) (Hb : 0 <= base) (Ht : top <= 2 ^ 47).
Context (Ho : forall x, base <= x < top -> owned f0 x).

Record grown (sp : Z) (f : view) (a : AS) : Prop := {
  gr_image : image T f a;
  gr_same : same_but sp top f0 f;
  gr_sp : base <= sp <= top;
}.

Lemma grown_more sp sp' f f' a' : same_but sp top f0 f -> same_but sp' sp f f' -> base <= sp' <= sp -> sp <= top -> image T f' a' -> grown sp' f' a'.
Proof. intros H1 H2 H3 H4 H5. split; [done| |lia]. eapply same_but_trans; [eapply same_but_wide; [exact H1|lia|lia]|eapply same_but_wide; [exact H2|lia|lia]]. Qed.

Lemma grown_owned sp f a x : grown sp f a -> base <= x < top -> owned f x.
Proof using Ho. intros [_ H _] Hx. eapply same_but_owned; [exact H|by apply Ho]. Qed.

Lemma wp_grow_copy sp f a n p :
  grown sp f a -> n = Z.of_nat (length p) -> base <= sp - n ->
  wp (copy_to (sp - n) p) (fun _ a' => as_secs a' = as_secs a /\ exists f', grown (sp - n) f' a' /\ same_but (sp - n) sp f f' /\ at_view f' (sp - n) p) a.
Proof using All.
  intros Hg -> Hl. pose proof Hg as [H1 H2 H3]. eapply wp_mono; [apply (wp_copy_to T f a _ p H1); [lia|lia|intros x Hx; apply (grown_owned sp f a); [done|lia]]|].
  intros [] a' (_ & E2 & _ & f' & H' & W). split; [done|]. exists f'. pose proof (written_same _ _ _ _ W) as Hs.
  replace (sp - Z.of_nat (length p) + Z.of_nat (length p)) with sp in Hs by lia. split_and!; [by apply (grown_more sp (sp - Z.of_nat (length p)) f); try done; lia|done|apply (written_at f); [done|lia|lia]].
Qed.

Lemma wp_grow_push sp f a strs :
  grown sp f a -> base + strs_room strs <= sp ->
  wp (push_strings strs sp) (fun r a' => let '(sp', ps) := r in sp - strs_room strs <= sp' <= sp /\ (sp mod 8 = 0 -> sp' mod 8 = 0) /\
    as_secs a' = as_secs a /\ exists f', grown sp' f' a' /\ same_but sp' sp f f' /\ strings_at f' sp' sp ps strs) a.
Proof using All.
  intros Hg Hr. pose proof Hg as [H1 H2 H3]. pose proof (strs_room_pos strs). eapply wp_mono; [apply (wp_push_strings strs T f a sp base H1 Hb); [lia|lia|intros x Hx; apply (grown_owned sp f a); [done|lia]]|].
  intros [sp' ps] a' (A & B & _ & C & _ & f' & H' & S' & St). split_and!; [lia|lia|done|done|]. exists f'. split_and!; [by apply (grown_more sp sp' f); try done; lia|done|done].
Qed.
End growing.

Lemma pointers_array junk ps : (length ps < 32)%nat -> length junk = 32%nat -> pointers junk ps = mret (splice junk 0 (ps ++ [0])) /\ length (splice junk 0 (ps ++ [0])) = 32%nat.
Proof. intros H E. unfold pointers. rewrite (proj2 (Z.ltb_lt _ _)) by (unfold NPTRS; lia). split; [done|]. rewrite length_splice; [done|rewrite length_app; simpl; lia]. Qed.

Lemma sub_mod8 x k : x mod 8 = 0 -> (x - 8 * k) mod 8 = 0.
Proof. intros H. replace (x - 8 * k) with (x + - k * 8) by lia. by rewrite Z.mod_add. Qed.

Section stack.
Context (argv envp : option (list (list Z))) (junk1 junk2 : list Z).
Abbreviation args := (default [] argv).
Abbreviation env := (default [] envp).
Context (Hargs : (length args < 32)%nat) (Henv : (length env < 32)%nat) (Hj1 : length junk1 = 32%nat) (Hj2 : length junk2 = 32%nat).
Context (Hroom : stack_room args env <= STACK_PAGES * PAGE_SIZE).

(** The addresses of the environment's strings that fit the array. *)
Definition env_array (es : list Z) : list Z := take (Datatypes.S (length args)) (splice junk1 0 (es ++ [0])).

Lemma wp_build_stack T f a m :
  image T f a -> 0 <= m < 2 ^ 46 -> (41 <= length (nodes (as_pt a)))%nat ->
  let top := 4096 * (m / 4096 + 11) in let base := top - 40960 in
  wp (build_stack m argv envp junk1 junk2) (fun r a' => let '(argc, x1, sp) := r in
    argc = Z.of_nat (length args) /\ x1 = sp + 8 /\ sp mod 8 = 0 /\ base <= sp <= top /\
    (exists y, as_secs a' = (y, mkSection 1024 base top (Sem.init_sem 1) 0 0 0 0) :: as_secs a) /\
    exists T' f' ps es, image T' f' a' /\ at_view f' sp (le_bytes 8 argc) /\ at_view f' x1 (words_bytes 8 (ps ++ [0])) /\
      at_view f' (x1 + 8 * (argc + 1)) (words_bytes 8 (env_array es)) /\ x1 + 16 * (argc + 1) <= top /\
      strings_at f' sp top ps args /\ strings_at f' sp top es env /\
      (forall x, 0 <= x < 2 ^ 48 -> ~ (base <= x < top) -> vbyte f' x = vbyte f x)) a.
Proof using All.
  intros Him Hm Hn top base. assert (0 <= m / 4096 < 2 ^ 34) as Hmp by (split; [apply Z.div_pos; lia|apply Z.div_lt_upper_bound; lia]).
  pose proof (strs_room_pos args) as Hra. pose proof (strs_room_pos env) as Hre. unfold stack_room, STACK_PAGES, PAGE_SIZE in Hroom. set (argc := Z.of_nat (length args)) in *.
  unfold build_stack. destruct (base_of m) as [-> _]; [lia|]. unfold STACK_PAGES, PAGE_SIZE. assert (u64 (4096 * (m / 4096) + 4096 + 10 * 4096) = top) as -> by (unfold u64, top; rewrite wrap_small; lia).
  cbv zeta. apply wp_bind. eapply wp_mono; [apply (wp_stack_pages T f a (m / 4096 + 11) Him); lia|]. intros [] a0 ((T0 & H0) & L0 & S0 & C0). set (f0 := fun v => if within _ _ v then _ else _) in H0.
  assert (u64 (top - 10 * 4096) = base) as -> by (unfold u64, base, top; rewrite wrap_small; lia).
  apply wp_bind. eapply wp_mono; [apply (wp_add_section T0 f0 a0 base top 1024 H0); lia|]. intros [] a1 (H1 & L1 & C1 & y & S1).
  assert (forall x, base <= x < top -> owned f0 x) as Ho.
  { intros x Hx. exists PTE_USER_DATA. unfold kind, f0. rewrite (proj2 (within_iff _ _ _)); [done|]. unfold base, top in Hx. split; [apply Z.div_le_lower_bound; lia|apply Z.div_lt_upper_bound; lia]. }
  assert (forall z, base <= z <= top -> u64 z = z) as Hu by (intros z Hz; unfold u64; apply wrap_small; unfold base, top in *; lia).
  assert (0 <= base /\ top <= 2 ^ 47) as [Hb Ht] by (unfold base, top; lia).
  assert (grown T0 f0 base top (top - 8) f0 a1) as G0 by (split; [done|done|lia]).
  rewrite Hu by lia. replace (top - 16) with (top - 8 - 8) by lia.
  apply wp_bind. eapply wp_mono; [by apply (wp_grow_copy T0 f0 base top Hb Ht Ho (top - 8) f0 a1 8 (le_bytes 8 0) G0); [done|lia]|]. intros [] a2 (S2 & f1 & G1 & _ & _).
  apply wp_bind. eapply wp_mono; [apply (wp_grow_push T0 f0 base top Hb Ht Ho (top - 8 - 8) f1 a2 env G1); lia|]. intros [sp1 es] a3 (R3 & A3 & S3 & f2 & G2 & _ & St3).
  assert (sp1 mod 8 = 0) as Al1. { apply A3. replace (top - 8 - 8) with (0 + (512 * (m / 4096 + 11) - 2) * 8) by (unfold top; lia). by rewrite Z.mod_add. }
  pose proof (Forall2_length _ _ _ St3) as Le. destruct (pointers_array junk1 es ltac:(lia) Hj1) as [-> Lj1]. apply wp_bind, wp_ret. rewrite Hu by lia.
  apply wp_bind. eapply wp_mono; [by apply (wp_grow_copy T0 f0 base top Hb Ht Ho sp1 f2 a3 8 (le_bytes 8 0) G2); [done|lia]|]. intros [] a4 (S4 & f3 & G3 & B4 & _).
  apply wp_bind. eapply wp_mono; [apply (wp_grow_push T0 f0 base top Hb Ht Ho (sp1 - 8) f3 a4 args G3); lia|]. intros [sp3 ps] a5 (R5 & A5 & S5 & f4 & G4 & B5 & St5).
  pose proof (A5 (sub_mod8 sp1 1 Al1)) as Al3. pose proof (Forall2_length _ _ _ St5) as Lp. destruct (pointers_array junk2 ps ltac:(lia) Hj2) as [-> Lj2]. apply wp_bind, wp_ret. rewrite Lp. fold argc.
  replace (Z.to_nat (argc + 1)) with (Datatypes.S (length args)) by lia. fold (env_array es). rewrite (Hu (sp3 - (argc + 1) * 8)) by lia.
  assert (length (env_array es) = Datatypes.S (length args)) as Lw by (unfold env_array; rewrite length_take, Lj1; lia).
  apply wp_bind. eapply wp_mono; [apply (wp_grow_copy T0 f0 base top Hb Ht Ho sp3 f4 a5 ((argc + 1) * 8) (words_bytes 8 (env_array es)) G4); [rewrite length_words_bytes; lia|lia]|]. intros [] a6 (S6 & f5 & G5 & B6 & V6).
  set (sp4 := sp3 - (argc + 1) * 8) in *. rewrite (Hu (sp4 - (argc + 1) * 8)) by lia.
  assert (take (Datatypes.S (length args)) (splice junk2 0 (ps ++ [0])) = ps ++ [0]) as ->.
  { unfold splice. rewrite take_0, app_nil_l. apply take_app_length'. rewrite length_app, Lp. simpl. lia. }
  assert (Z.of_nat (length (words_bytes 8 (ps ++ [0]))) = (argc + 1) * 8) as Lwa by (rewrite length_words_bytes, length_app; simpl; lia).
  apply wp_bind. eapply wp_mono; [apply (wp_grow_copy T0 f0 base top Hb Ht Ho sp4 f5 a6 ((argc + 1) * 8) (words_bytes 8 (ps ++ [0])) G5); [done|lia]|]. intros [] a7 (S7 & f6 & G6 & B7 & V7).
  set (sp5 := sp4 - (argc + 1) * 8) in *. rewrite (Hu (sp5 - 8)) by lia.
  apply wp_bind. eapply wp_mono; [by apply (wp_grow_copy T0 f0 base top Hb Ht Ho sp5 f6 a7 8 (le_bytes 8 argc) G6); [done|lia]|]. intros [] a8 (S8 & f7 & [H8 F7 _] & B8 & V8). apply wp_ret.
  assert (same_but (sp5 - 8) sp4 f5 f7) as D5 by (eapply same_but_trans; [eapply same_but_wide; [exact B7|lia|lia]|eapply same_but_wide; [exact B8|lia|lia]]).
  assert (same_but (sp5 - 8) sp3 f4 f7) as D4 by (eapply same_but_trans; [eapply same_but_wide; [exact B6|lia|lia]|eapply same_but_wide; [exact D5|lia|lia]]).
  assert (same_but (sp5 - 8) sp1 f2 f7) as D2 by (eapply same_but_trans; [eapply same_but_wide; [exact B4|lia|lia]|]; eapply same_but_trans; [eapply same_but_wide; [exact B5|lia|lia]|eapply same_but_wide; [exact D4|lia|lia]]).
  split_and!; [done|lia|apply (sub_mod8 _ 1); unfold sp5, sp4; replace (sp3 - (argc + 1) * 8 - (argc + 1) * 8) with (sp3 - 8 * (2 * (argc + 1))) by lia; by apply sub_mod8|lia|lia| |].
  { exists y. congruence. }
  exists T0, f7, ps, es. split_and!; [done|done| | |lia| | |].
  - eapply same_but_at; [exact B8|lia|lia|right; lia|done].
  - replace (sp5 + 8 * (argc + 1)) with sp4 by lia. eapply same_but_at; [exact D5|rewrite ?length_words_bytes; lia|rewrite ?length_words_bytes; lia|right; lia|done].
  - eapply Forall2_impl; [apply (strings_at_same f4 f7 sp3 (sp1 - 8) (sp5 - 8) sp3 ps args); [done|lia..|done]|]. intros p str (A & B & C). split_and!; [lia|lia|done].
  - eapply Forall2_impl; [apply (strings_at_same f2 f7 sp1 (top - 8 - 8) (sp5 - 8) sp1 es env); [done|lia..|done]|]. intros p str (A & B & C). split_and!; [lia|lia|done].
  - intros x Hx Hout. rewrite (proj1 F7) by (done || lia). unfold vbyte, f0. rewrite within_false; [done|]. unfold base, top in Hout. pose proof (Z.div_mod x 4096 ltac:(lia)). pose proof (Z.mod_pos_bound x 4096 ltac:(lia)). lia.
Qed.
End stack.

(** C16: The stack of the new program: [execve] allocates ten pages above the image,
    with a section of their own, and the stack pointer, aligned to 8 bytes, points to
    the number of arguments; after it comes the array, in [x1], of the addresses of
    the arguments, ended by NULL, each of which is the address of the string with
    its NUL; then the array of the environment, cut to the length of the first one.
    No byte outside the stack changes. Conditions: fewer than 32 arguments and fewer
    than 32 variables (the code has arrays of 32 on the kernel stack and does not
    check), strings and arrays that fit in the 40960 bytes of the stack (not checked
    either), and 41 free pages. *)
Theorem build_stack_spec T f a m argv envp junk1 junk2 :
  let args := default [] argv in let env := default [] envp in
  image T f a -> 0 <= m < 2 ^ 46 -> (41 <= length (nodes (as_pt a)))%nat -> (length args < 32)%nat -> (length env < 32)%nat -> length junk1 = 32%nat -> length junk2 = 32%nat ->
  stack_room args env <= STACK_PAGES * PAGE_SIZE ->
  let top := 4096 * (m / 4096 + 11) in let base := top - 40960 in
  wp (build_stack m argv envp junk1 junk2) (fun r a' => let '(argc, x1, sp) := r in
    argc = Z.of_nat (length args) /\ x1 = sp + 8 /\ sp mod 8 = 0 /\ base <= sp <= top /\
    (exists y, as_secs a' = (y, mkSection 1024 base top (Sem.init_sem 1) 0 0 0 0) :: as_secs a) /\
    at_user a' sp (le_bytes 8 argc) /\
    (exists ps, at_user a' x1 (words_bytes 8 (ps ++ [0])) /\ strings_in a' ps args) /\
    (exists es, at_user a' (x1 + 8 * (argc + 1)) (words_bytes 8 (env_array argv junk1 es)) /\ strings_in a' es env) /\
    (forall x, 0 <= x < 2 ^ 48 -> ~ (base <= x < top) -> user_byte a' x = user_byte a x)) a.
Proof.
  intros args env Him Hm Hn Ha He Hj1 Hj2 Hr top base. eapply wp_mono; [by apply (wp_build_stack argv envp junk1 junk2 Ha He Hj1 Hj2 Hr T f a m)|]. fold args env top base.
  assert (0 <= m / 4096 < 2 ^ 34) as Hmp by (split; [apply Z.div_pos; lia|apply Z.div_lt_upper_bound; lia]).
  intros [[argc x1] sp] a' (-> & -> & Al & Hsp & Hs & T' & f' & ps & es & H' & V1 & V2 & V3 & Hx & St1 & St2 & Hout). assert (0 <= sp /\ top <= 2 ^ 47) as [H0 H1] by (unfold base, top in *; lia).
  assert (Z.of_nat (length (env_array argv junk1 es)) <= Z.of_nat (length args) + 1) as Le by (unfold env_array; rewrite length_take; fold args; lia).
  pose proof (Forall2_length _ _ _ St1) as Lp. split_and!; [done|done|done|lia|lia|done| | | |].
  - apply (at_view_user T' f'); [done|lia|rewrite length_le_bytes; lia|done].
  - exists ps. split; [|by eapply strings_at_user; [exact H'|exact H0| |exact St1]; lia]. apply (at_view_user T' f'); [done|lia|rewrite length_words_bytes, length_app; simpl length; lia|done].
  - exists es. split; [|by eapply strings_at_user; [exact H'|exact H0| |exact St2]; lia]. apply (at_view_user T' f'); [done|lia|rewrite length_words_bytes; lia|done].
  - intros x Hxr Hxo. destruct (user_byte_view T' f' a' x H' Hxr) as [-> _]. destruct (user_byte_view T f a x Him Hxr) as [-> _]. by apply Hout.
Qed.

(** With more strings in the environment than arguments, the array of the
    environment has no NULL at its end. *)
Lemma env_unterminated argv junk es :
  length junk = 32%nat -> (length es < 32)%nat -> (length (default [] argv) < length es)%nat -> env_array argv junk es = take (Datatypes.S (length (default [] argv))) es.
Proof. intros Hj He H. unfold env_array, splice. rewrite take_0, app_nil_l, <- app_assoc, take_app_le by lia. done. Qed.

(** [ls /] with one variable, in a fresh directory. *)
Lemma build_stack_spec_witness : exists a T f, image T f a /\
  wp (build_stack 0x403388 (Some [[108; 115]; [47]]) (Some [[80]]) (replicate 32 7) (replicate 32 7)) (fun r a' => let '(argc, x1, sp) := r in
    argc = 2 /\ x1 = sp + 8 /\ at_user a' sp (le_bytes 8 2) /\
    exists ps, at_user a' x1 (words_bytes 8 (ps ++ [0])) /\ strings_in a' ps [[108; 115]; [47]]) a.
Proof.
  assert (length (nodes (as_pt example_as)) = 80%nat) as En by (vm_compute; reflexivity).
  assert (wp (on_pt init_pgdir) (fun _ a' => (exists T, image T (fun _ => None) a') /\ (length (nodes (as_pt example_as)) <= 1 + length (nodes (as_pt a')))%nat /\ as_calls a' = as_calls example_as) example_as) as Hi.
  { apply wp_init_pgdir; [exact example_ready|lia]. }
  apply wp_done in Hi as ([] & a & _ & (T & Him) & Hl & _). exists a, T, (fun _ => None). split; [exact Him|].
  eapply wp_mono; [apply (build_stack_spec T (fun _ => None) a 0x403388 (Some [[108; 115]; [47]]) (Some [[80]]) (replicate 32 7) (replicate 32 7) Him)|].
  - lia.
  - lia.
  - simpl. lia.
  - simpl. lia.
  - reflexivity.
  - reflexivity.
  - vm_compute. discriminate.
  - intros [[argc x1] sp] a' (-> & -> & _ & _ & _ & A & (ps & B & C) & _). split; [reflexivity|]. split; [reflexivity|]. split; [exact A|]. by exists ps.
Defined.
