(* ===== verification/Trap.v ===== *)
(** Traps (src/aarch64/trap.c), interrupts (src/driver/interrupt.c), the entry of
    system calls (src/kernel/syscall.c) and the system calls of
    src/kernel/sysproc.c.

    The state is that of the processes (Proc.v). The trap frame is the
    [ucontext] of the process, as words. A system call is a function of its
    six arguments; it gives no value when the process is not the one that runs
    on the CPU when it ends ([exit], or a call that sleeps). The registers of the
    hardware (esr, and iar of the interrupt controller) are arguments. *)
From Stdlib Require Import ZArith Lia.
From stdpp Require Import base numbers gmap list.
From S2P Require Import Prelude Sync ListNode Mem RbTree RbInsert RbErase Timer Sched Proc ProcTree ProcWait ProcExit ProcLife ProcStart ProcSpec.

Definition ESR_EC_SHIFT : Z := 26.
Definition ESR_ISS_MASK : Z := 0xFFFFFF.
Definition ESR_IR_MASK : Z := Z.shiftl 1 25.
Definition ESR_EC_UNKNOWN : Z := 0x00.
Definition ESR_EC_SVC64 : Z := 0x15.
Definition ESR_EC_IABORT_EL0 : Z := 0x20.
Definition ESR_EC_IABORT_EL1 : Z := 0x21.
Definition ESR_EC_DABORT_EL0 : Z := 0x24.
Definition ESR_EC_DABORT_EL1 : Z := 0x25.
Definition NUM_IRQ_TYPES : Z := 64.
Definition NR_SYSCALL : Z := 512.

(** Words of the frame: [elr] and [x[i]]. *)
Definition ELR : nat := 3.
Definition XREG (i : nat) : nat := (X0 + i)%nat.

(** ** Interrupts *)

Abbreviation handler := (Z -> M PS unit).
Definition default_handler : handler := fun intid => PANIC.
Definition init_interrupt : list handler := replicate (Z.to_nat NUM_IRQ_TYPES) default_handler.
Definition set_interrupt_handler (type : Z) (h : handler) (int_handler : list handler) : option (list handler) :=
  if (0 <=? type) && (type <? NUM_IRQ_TYPES) then Some (<[Z.to_nat type := h]> int_handler) else None.

Definition interrupt_global_handler (int_handler : list handler) (iar : Z) : M PS unit :=
  let intid := Z.land iar 0x3ff in
  if intid =? 1023 then mret tt
  else h ← deref (int_handler !! Z.to_nat intid); h intid.

(** ** System calls *)

Abbreviation syscall := (list Z -> M PS (option Z)).

(** [NULL] in the table is [None]; calling it is undefined. *)
Definition syscall_entry (syscall_table : list (option syscall)) (c : nat) : M PS bool :=
  this ← thisproc c;
  e ← ext_at this;
  id ← deref (ucontext e !! XREG 8);
  sys_func ← deref (syscall_table !! Z.to_nat id);
  if NR_SYSCALL <=? id then PANIC
  else
    f ← deref sys_func;
    r ← f (slice X0 6 (ucontext e));
    match r with
    | None => mret false
    | Some v =>
        e ← ext_at this;
        store_ext this (set_ucontext (<[X0 := u64 v]> (ucontext e)) e) ;;
        mret true
    end.

Section trap.
Context (freq : Z) (timestamp : nat -> Z) (rq invalid_pt : Z) (sched_timer : nat -> Z) (root_proc : Z) (wakes : nat -> bool).
Context (syscall_table : list (option syscall)) (int_handler : list handler) (pgfault_handler : Z -> M PS Z).
Notation exit := (exit freq timestamp rq invalid_pt sched_timer root_proc wakes).

(** The switch of [trap_global_handler]: whether the process goes on. *)
Definition trap_dispatch (c : nat) (esr iar : Z) : M PS bool :=
  let ec := Z.shiftr esr ESR_EC_SHIFT in
  let iss := Z.land esr ESR_ISS_MASK in
  let ir := Z.land esr ESR_IR_MASK in
  if ec =? ESR_EC_UNKNOWN then
    if negb (ir =? 0) then PANIC else interrupt_global_handler int_handler iar ;; mret true
  else if ec =? ESR_EC_SVC64 then syscall_entry syscall_table c
  else if (ec =? ESR_EC_IABORT_EL0) || (ec =? ESR_EC_IABORT_EL1) || (ec =? ESR_EC_DABORT_EL0) || (ec =? ESR_EC_DABORT_EL1) then
    pgfault_handler iss ;; mret true
  else PANIC.

(** [trap_global_handler] with the registers saved in [context]. When an interrupt
    has given the CPU to another process, that one goes on where it was. *)
Definition trap_global_handler (c : nat) (context : list Z) (esr iar : Z) : M PS unit :=
  this ← thisproc c;
  e ← ext_at this;
  store_ext this (set_ucontext context e) ;;
  goes_on ← trap_dispatch c esr iar;
  this' ← thisproc c;
  if negb goes_on || negb (this' =? this) then mret tt
  else
    x ← read_proc this;
    e ← ext_at this;
    elr ← deref (ucontext e !! ELR);
    if killed x && (Z.land elr 0xffff000000000000 =? 0) then exit c (-1) else mret tt.

Definition trap_error_handler (type : Z) : M PS unit := PANIC.

(** ** The system calls on processes *)

(** [return -1] in a function of type [u64]. *)
Definition MINUS : Z := u64 (-1).

Definition sys_gettid (c : nat) : M PS Z := this ← thisproc c; x ← read_proc this; mret (u64 (pid x)).
Definition sys_set_tid_address (c : nat) (tidptr : Z) : M PS Z := this ← thisproc c; x ← read_proc this; mret (u64 (pid x)).
Definition sys_sigprocmask : M PS Z := mret 0.
Definition sys_rt_sigprocmask : M PS Z := mret 0.
Definition sys_myyield (c : nat) : M PS Z := on_sched (yield freq timestamp rq invalid_pt sched_timer c) ;; mret 0.
Definition sys_yield (c : nat) : M PS Z := on_sched (yield freq timestamp rq invalid_pt sched_timer c) ;; mret 0.
Definition sys_pstat : M Mem Z := n ← left_page_cnt; mret (u64 n).
(** [flag] is an [int]; [p], [kstk] and [pgt] are what the allocators return. *)
Definition sys_clone (c : nat) (flag childstk p kstk pgt trap_return : Z) : M PS Z :=
  if negb (flag =? 17) then mret MINUS else r ← fork rq root_proc c p kstk pgt trap_return; mret (u64 r).
Definition sys_exit (c : nat) (n : Z) : M PS unit := exit c n.
Definition sys_myexit (c : nat) (n : Z) : M PS unit := exit c n.
Definition sys_exit_group (c : nat) (n : Z) : M PS unit := exit c n.
(** Arguments that are not supported make the CPU spin for ever. *)
Definition sys_wait4 (c : nat) (pid wstatus options rusage : Z) : M PS (option Z) :=
  if negb (pid =? -1) || negb (wstatus =? 0) || negb (options =? 0) || negb (rusage =? 0) then PANIC
  else r ← wait freq timestamp rq invalid_pt sched_timer c; mret ((fun r => u64 r.1) <$> r).

(** ** What they do *)

(** The exception class of [esr], and the other bits. *)
Lemma esr_fields ec ir iss : 0 <= ec < 64 -> 0 <= ir < 2 -> 0 <= iss < 2 ^ 24 ->
  let esr := ec * 2 ^ 26 + ir * 2 ^ 25 + iss in
  Z.shiftr esr ESR_EC_SHIFT = ec /\ Z.land esr ESR_ISS_MASK = iss /\ (Z.land esr ESR_IR_MASK =? 0) = (ir =? 0).
Proof.
  intros He Hr Hs esr. unfold ESR_EC_SHIFT, ESR_ISS_MASK, ESR_IR_MASK. split_and!.
  - rewrite Z.shiftr_div_pow2 by lia. symmetry. apply (Z.div_unique_pos _ _ _ (ir * 2 ^ 25 + iss)); unfold esr; lia.
  - change 0xFFFFFF with (Z.ones 24). rewrite Z.land_ones by lia. symmetry. apply (Z.mod_unique_pos _ _ (4 * ec + 2 * ir)); unfold esr; lia.
  - assert (Z.land esr (Z.shiftl 1 25) = if Z.testbit esr 25 then 2 ^ 25 else 0) as ->.
    { apply Z.bits_inj'. intros n Hn. rewrite Z.land_spec, Z.shiftl_1_l. destruct (decide (n = 25)) as [->|Hne].
      - rewrite Z.pow2_bits_true, andb_true_r by lia. destruct (Z.testbit esr 25); [by rewrite Z.pow2_bits_true|by rewrite Z.bits_0].
      - rewrite Z.pow2_bits_false by lia. rewrite andb_false_r. destruct (Z.testbit esr 25); [by rewrite Z.pow2_bits_false by lia|by rewrite Z.bits_0]. }
    assert (Z.testbit esr 25 = (ir =? 1)) as ->.
    { rewrite Z.testbit_eqb by lia. assert (esr / 2 ^ 25 = 2 * ec + ir) as -> by (symmetry; apply (Z.div_unique_pos _ _ _ iss); unfold esr; lia).
      rewrite Z.add_comm, Z.mul_comm, Z.mod_add by lia. rewrite Z.mod_small by lia. done. }
    assert (ir = 0 \/ ir = 1) as [->| ->] by lia; done.
Qed.

Lemma wp_exec {A} (c : M PS A) s a s' (Q : A -> PS -> Prop) : c s = Done a s' -> Q a s' -> wp c Q s.
Proof. unfold wp. by intros ->. Qed.

(** The number of the call is used as an index before it is compared with the
    length of the table. *)
Lemma syscall_out_of_table s c u e id :
  length syscall_table = Z.to_nat NR_SYSCALL -> sc_cpus (ps_sched s) !! c = Some u -> ps_ext s !! cu_this u = Some e -> ucontext e !! XREG 8 = Some id -> NR_SYSCALL <= id ->
  syscall_entry syscall_table c s = Undefined.
Proof.
  intros Hl Eu Ee Ei Hid. unfold syscall_entry. erewrite bind_eq; [|unfold thisproc, on_sched, zoom, Sched.thisproc, cpu_at; unfold mbind, M_bind, get_state, deref; by rewrite Eu].
  assert (set_sched (ps_sched s) s = s) as -> by (by destruct s). erewrite bind_eq; [|unfold ext_at, mbind, M_bind, get_state, deref; by rewrite Ee]. erewrite bind_eq; [|unfold deref; by rewrite Ei].
  unfold mbind, M_bind, deref. by rewrite (lookup_ge_None_2 syscall_table) by (unfold NR_SYSCALL in *; lia).
Qed.

Context (lim : Z) (Hclock : clock_ok freq timestamp lim) (Hrq : rq <> 0).
Notation tree_inv := (tree_inv freq timestamp rq sched_timer root_proc lim).
Abbreviation store_frame s p e frame := (set_ext (<[p := set_ucontext frame e]> (ps_ext s)) s).

Lemma tree_frame s L C p e frame : tree_inv s L C -> ps_ext s !! p = Some e -> tree_inv (store_frame s p e frame) L C.
Proof using Type.
  intros (H1 & H2 & H3) Ee. split; [|done]. apply (tree_ext _ _ _ _ _ _ _ _ _ _ _ p e); try done. apply (ti_files _ _ _ _ _ _ _ _ _ _ _ H1 _ _ Ee).
Qed.

(** The state in which the trap ends, when the process still runs in [s1]. *)
Lemma wp_trap_return s c u e0 context esr iar s1 L C u1 x e elr :
  sc_cpus (ps_sched s) !! c = Some u -> ps_ext s !! cu_this u = Some e0 -> trap_dispatch c esr iar (store_frame s (cu_this u) e0 context) = Done true s1 ->
  tree_inv s1 L C -> sc_cpus (ps_sched s1) !! c = Some u1 -> cu_this u1 = cu_this u -> sc_procs (ps_sched s1) !! cu_this u = Some x -> pid x <> -1 -> cu_this u <> root_proc ->
  ps_ext s1 !! cu_this u = Some e -> ps_up s1 !! cu_this u = None -> ucontext e !! ELR = Some elr ->
  if killed x && (Z.land elr 0xffff000000000000 =? 0)
  then exit_ends freq timestamp rq sched_timer root_proc lim wakes (trap_global_handler c context esr iar) s s1 C c (cu_this u) (-1) e
  else wp (trap_global_handler c context esr iar) (fun _ s' => s' = s1) s.
Proof using Hclock Hrq.
  intros Eu Ee Ed Ht Eu1 Et Ex Hp Hr Ee1 Hu El.
  destruct (killed x && _) eqn:Ek.
  - pose proof (exit_ends_exit freq timestamp rq invalid_pt sched_timer root_proc lim Hclock Hrq wakes s1 L C c u1 x e (-1)) as He.
    rewrite Et in He. specialize (He Ht Eu1 Ex Hp Hr Ee1 Hu). enough (trap_global_handler c context esr iar s = exit c (-1) s1) as Eq.
    { unfold exit_ends, wp, blocks in *. by rewrite Eq. }
    unfold trap_global_handler. erewrite bind_eq; [|unfold thisproc, on_sched, zoom, Sched.thisproc, cpu_at; unfold mbind, M_bind, get_state, deref; by rewrite Eu].
    assert (set_sched (ps_sched s) s = s) as -> by (by destruct s). erewrite bind_eq; [|unfold ext_at, mbind, M_bind, get_state, deref; by rewrite Ee].
    erewrite bind_eq by done. erewrite bind_eq by exact Ed.
    erewrite bind_eq; [|unfold thisproc, on_sched, zoom, Sched.thisproc, cpu_at; unfold mbind, M_bind, get_state, deref; by rewrite Eu1].
    assert (set_sched (ps_sched s1) s1 = s1) as -> by (by destruct s1). rewrite Et, Z.eqb_refl. cbn [negb orb].
    erewrite bind_eq; [|unfold read_proc, on_sched, zoom, proc_at; unfold mbind, M_bind, get_state, deref; by rewrite Ex].
    assert (set_sched (ps_sched s1) s1 = s1) as -> by (by destruct s1). erewrite bind_eq; [|unfold ext_at, mbind, M_bind, get_state, deref; by rewrite Ee1].
    erewrite bind_eq; [|unfold deref; by rewrite El]. by rewrite Ek.
  - unfold trap_global_handler. apply wp_bind, (wp_thisproc _ _ u); [done|]. apply wp_bind, (wp_ext_at _ _ e0); [done|].
    apply wp_bind, wp_modify. apply wp_bind. eapply wp_exec; [exact Ed|]. apply wp_bind, (wp_thisproc _ _ u1); [done|]. rewrite Et, Z.eqb_refl. cbn [negb orb].
    apply wp_bind, (wp_read_proc _ _ x); [done|]. apply wp_bind, (wp_ext_at _ _ e); [done|]. apply wp_bind. eapply wp_deref; [exact El|]. rewrite Ek. by apply wp_ret.
Qed.

(** C17: A system call from user space: the function in the table at the number in x8
    gets x0 to x5; when it returns, its result is in x0 of the frame, and the
    process goes back to user space unless it has been killed, in which case
    it exits with -1: a killed process never gets back to user space. ([exit] may
    wait for itself, see exit_spec.) *)
Theorem trap_syscall_spec s c u e0 context ir iss iar id (f : syscall) v s1 L C u1 x e elr :
  let this := cu_this u in
  let s2 := store_frame s1 this e (<[X0 := u64 v]> (ucontext e)) in
  0 <= ir < 2 -> 0 <= iss < 2 ^ 24 ->
  sc_cpus (ps_sched s) !! c = Some u -> ps_ext s !! this = Some e0 ->
  context !! XREG 8 = Some id -> 0 <= id < NR_SYSCALL -> syscall_table !! Z.to_nat id = Some (Some f) ->
  f (slice X0 6 context) (store_frame s this e0 context) = Done (Some v) s1 ->
  ps_ext s1 !! this = Some e -> ucontext e !! ELR = Some elr -> tree_inv s1 L C -> sc_cpus (ps_sched s1) !! c = Some u1 -> cu_this u1 = this ->
  sc_procs (ps_sched s1) !! this = Some x -> pid x <> -1 -> this <> root_proc -> ps_up s1 !! this = None ->
  let handler := trap_global_handler c context (ESR_EC_SVC64 * 2 ^ 26 + ir * 2 ^ 25 + iss) iar in
  if killed x && (Z.land elr 0xffff000000000000 =? 0)
  then exit_ends freq timestamp rq sched_timer root_proc lim wakes handler s s2 C c this (-1) (set_ucontext (<[X0 := u64 v]> (ucontext e)) e)
  else wp handler (fun _ s' => s' = s2) s.
Proof using Hclock Hrq.
  intros this s2 Hir Hiss Eu Ee0 Eid Hid Ef Erun Ee El Ht Eu1 Et Ex Hp Hr Hup. destruct (esr_fields ESR_EC_SVC64 ir iss ltac:(unfold ESR_EC_SVC64; lia) Hir Hiss) as (E1 & E2 & E3).
  pose proof (tree_frame s1 L C this e (<[X0 := u64 v]> (ucontext e)) Ht Ee) as Ht2.
  apply (wp_trap_return s c u e0 context _ iar s2 L C u1 x _ elr); try done.
  - unfold trap_dispatch. rewrite E1. cbn [Z.eqb ESR_EC_UNKNOWN ESR_EC_SVC64 Pos.eqb]. unfold syscall_entry. set (s0 := store_frame s (cu_this u) e0 context).
    erewrite bind_eq; [|unfold thisproc, on_sched, zoom, Sched.thisproc, cpu_at; unfold mbind, M_bind, get_state, deref; change (ps_sched s0) with (ps_sched s); by rewrite Eu].
    assert (set_sched (ps_sched s) s0 = s0) as -> by done. erewrite bind_eq; [|unfold ext_at, mbind, M_bind, get_state, deref; change (ps_ext s0) with (<[this := set_ucontext context e0]> (ps_ext s)); by rewrite lookup_insert_eq].
    cbn [ucontext set_ucontext]. erewrite bind_eq; [|unfold deref; by rewrite Eid]. rewrite Ef, (bind_eq (deref (Some (Some f))) _ s0 (Some f) s0) by done.
    rewrite (proj2 (Z.leb_gt _ _)) by lia. rewrite (bind_eq (deref (Some f)) _ s0 f s0) by done. erewrite bind_eq by exact Erun. cbn beta iota. erewrite bind_eq; [|unfold ext_at, mbind, M_bind, get_state, deref; fold this; by rewrite Ee]. done.
  - cbn. by rewrite lookup_insert_eq.
  - cbn. rewrite list_lookup_insert_ne; [done|]. unfold X0, ELR. lia.
Qed.
End trap.

(** ** gettid of the child of the example of ProcSpec.v *)

Definition gettid_call : syscall := fun _ => r ← sys_gettid 1; mret (Some r).
Definition example_table : list (option syscall) := <[178%nat := Some gettid_call]> (replicate 512 None).
Definition example_frame : list Z := <[XREG 8 := 178]> (<[ELR := 0x400000]> (replicate NWORDS 0)).

(** A process of pid 2 runs on CPU 1. *)
Lemma example_running : exists s u x e, ex_tree s [28672; 24576] ex_C /\ sc_cpus (ps_sched s) !! 1%nat = Some u /\ cu_this u = 28672 /\
  sc_procs (ps_sched s) !! 28672 = Some x /\ killed x = false /\ pid x = 2 /\ ps_ext s !! 28672 = Some e /\ ps_up s !! 28672 = None.
Proof.
  exists ex_child, (cpu_of 1 ex_child), (proc_of 28672 ex_child), (ext_of 28672 ex_child). split; [exact ex_child_ok|]. split_and!; vm_compute; reflexivity.
Qed.

Lemma trap_syscall_spec_witness : exists s e, ps_ext s !! 28672 = Some e /\
  wp (trap_global_handler 62500000 example_clock 1000 0 example_timer 24576 no_wakes example_table init_interrupt (fun _ => PANIC) 1 example_frame (ESR_EC_SVC64 * 2 ^ 26 + 1 * 2 ^ 25 + 0) 0)
    (fun _ s' => s' = set_ext (<[28672 := set_ucontext (<[X0 := 2]> example_frame) (set_ucontext example_frame e)]> (<[28672 := set_ucontext example_frame e]> (ps_ext s))) s) s.
Proof.
  destruct example_running as (s & u & x & e0 & Hok & Eu & Et & Ex & Ek & Ep & Ee & Eup). exists s, e0. split; [exact Ee|]. set (e := set_ucontext example_frame e0).
  pose proof (trap_syscall_spec 62500000 example_clock 1000 0 example_timer 24576 no_wakes example_table init_interrupt (fun _ => PANIC) 5000 example_clock_ok ltac:(lia)
    s 1 u e0 example_frame 1 0 0 178 gettid_call 2 (set_ext (<[28672 := e]> (ps_ext s)) s) [28672; 24576] ex_C u x e 0x400000) as H.
  cbv zeta in H. rewrite Et, Ek in H. apply H; clear H; try done.
  - unfold gettid_call, sys_gettid, thisproc, read_proc, on_sched, Sched.thisproc, cpu_at, proc_at, mbind, M_bind, zoom, get_state, deref. cbn. rewrite Eu. cbn. rewrite Et, Ex, Ep. by destruct s.
  - apply lookup_insert_eq.
  - by apply tree_frame.
  - by rewrite Ep.
Defined.
