(* ===== verification/Virtio.v ===== *)
(** The block device (src/driver/virtio_blk.c, src/fs/block_device.c): the ring of
    descriptors shared with the device.

    A process submits a request, sleeps on the semaphore of its buffer, and frees
    the descriptors when it runs again; in between the device takes the request
    from the ring and completes it, and its interrupt wakes the process. [W] is
    the memory all of them share, [step] one action of one of them. The device
    is not part of the code: [dev_take] and [dev_run] are what its specification
    says of a driver's chains of descriptors. The device chooses the order and
    the status of the requests: it may report an error for any of them, and must
    for a sector it does not have. *)
From Stdlib Require Import ZArith Lia.
From stdpp Require Import base numbers gmap relations list.
From S2P Require Import Prelude Sync.

Definition NQUEUE : Z := 16.
Definition VIRTQ_DESC_F_NEXT : Z := 1.
Definition VIRTQ_DESC_F_WRITE : Z := 2.
Definition VIRTIO_BLK_T_IN : Z := 0.
Definition VIRTIO_BLK_T_OUT : Z := 1.
Definition B_VALID : Z := 2.
Definition B_DIRTY : Z := 4.

Definition KERNEL_BASE : Z := 0xFFFF000000000000.
Definition V2P (v : Z) : Z := u64 (v - KERNEL_BASE).
Definition P2V (p : Z) : Z := u64 (p + KERNEL_BASE).

Record virtq_desc := mkDesc { d_addr : Z; d_len : Z; d_flags : Z; d_next : Z }.
Record info := mkInfo { in_status : Z; in_done : Z; in_buf : Z }.
Record virtio_blk_req_hdr := mkHdr { h_type : Z; h_reserved : Z; h_sector : Z }.
Record Buf := mkBuf { b_flags : Z; b_data : list Z; b_block_no : Z; b_sem : Sem.Semaphore }.

(** [struct virtq] with the three shared areas. *)
Record virtq := mkVirtq {
  q_desc : list virtq_desc;
  q_avail : list Z;
  q_avail_idx : Z;
  q_used : list Z;
  q_used_idx : Z;
  q_free_head : Z;
  q_nfree : Z;
  q_last_used_idx : Z;
  q_info : list info;
}.

(** A process inside [virtio_blk_rw]: its locals and whether [sched] has let it
    go on ([wait->up]). *)
Record Req := mkReq { r_d0 : Z; r_hdr : Z; r_data : Z; r_up : bool }.

(** Buffers and headers by their (virtual) addresses, the first by that of
    [data]; [w_seen] and [w_taken] are the device's: the next index of the
    available ring and the chains it works on. *)
Record W := mkW {
  w_lk : bool;
  w_q : virtq;
  w_bufs : gmap Z Buf;
  w_hdrs : gmap Z virtio_blk_req_hdr;
  w_procs : gmap Z Req;
  w_disk : Z -> list Z;
  w_seen : Z;
  w_taken : list Z;
}.

Definition set_lk (v : bool) (s : W) : W := mkW v (w_q s) (w_bufs s) (w_hdrs s) (w_procs s) (w_disk s) (w_seen s) (w_taken s).
Definition set_q (v : virtq) (s : W) : W := mkW (w_lk s) v (w_bufs s) (w_hdrs s) (w_procs s) (w_disk s) (w_seen s) (w_taken s).
Definition set_bufs (v : gmap Z Buf) (s : W) : W := mkW (w_lk s) (w_q s) v (w_hdrs s) (w_procs s) (w_disk s) (w_seen s) (w_taken s).
Definition set_hdrs (v : gmap Z virtio_blk_req_hdr) (s : W) : W := mkW (w_lk s) (w_q s) (w_bufs s) v (w_procs s) (w_disk s) (w_seen s) (w_taken s).
Definition set_procs (v : gmap Z Req) (s : W) : W := mkW (w_lk s) (w_q s) (w_bufs s) (w_hdrs s) v (w_disk s) (w_seen s) (w_taken s).
Definition set_disk (v : Z -> list Z) (s : W) : W := mkW (w_lk s) (w_q s) (w_bufs s) (w_hdrs s) (w_procs s) v (w_seen s) (w_taken s).
Definition set_device (seen : Z) (taken : list Z) (s : W) : W := mkW (w_lk s) (w_q s) (w_bufs s) (w_hdrs s) (w_procs s) (w_disk s) seen taken.

Definition set_desc (v : list virtq_desc) (q : virtq) : virtq := mkVirtq v (q_avail q) (q_avail_idx q) (q_used q) (q_used_idx q) (q_free_head q) (q_nfree q) (q_last_used_idx q) (q_info q).
Definition set_avail (ring : list Z) (idx : Z) (q : virtq) : virtq := mkVirtq (q_desc q) ring idx (q_used q) (q_used_idx q) (q_free_head q) (q_nfree q) (q_last_used_idx q) (q_info q).
Definition set_used (ring : list Z) (idx : Z) (q : virtq) : virtq := mkVirtq (q_desc q) (q_avail q) (q_avail_idx q) ring idx (q_free_head q) (q_nfree q) (q_last_used_idx q) (q_info q).
Definition set_free (head n : Z) (q : virtq) : virtq := mkVirtq (q_desc q) (q_avail q) (q_avail_idx q) (q_used q) (q_used_idx q) head n (q_last_used_idx q) (q_info q).
Definition set_last_used (v : Z) (q : virtq) : virtq := mkVirtq (q_desc q) (q_avail q) (q_avail_idx q) (q_used q) (q_used_idx q) (q_free_head q) (q_nfree q) v (q_info q).
Definition set_info (v : list info) (q : virtq) : virtq := mkVirtq (q_desc q) (q_avail q) (q_avail_idx q) (q_used q) (q_used_idx q) (q_free_head q) (q_nfree q) (q_last_used_idx q) v.

Abbreviation Q := (M virtq).
Abbreviation K := (M W).
Definition on_q {A} (c : Q A) : K A := zoom w_q set_q c.

Definition has (flags bit : Z) : bool := negb (Z.land flags bit =? 0).

(** [desc[i]] and [info[i]]. *)
Definition desc_at (i : Z) : Q virtq_desc := q ← get_state; deref (q_desc q !! Z.to_nat i).
Definition put_desc (i : Z) (d : virtq_desc) : Q unit := modify (fun q => set_desc (<[Z.to_nat i := d]> (q_desc q)) q).
Definition info_at (i : Z) : Q info := q ← get_state; deref (q_info q !! Z.to_nat i).
Definition put_info (i : Z) (x : info) : Q unit := modify (fun q => set_info (<[Z.to_nat i := x]> (q_info q)) q).

(** ** The free list *)

(** [desc[i].flags = VIRTQ_DESC_F_NEXT, desc[i].next = i + 1]. *)
Fixpoint desc_init_loop (n : nat) (i : Z) : Q unit :=
  match n with
  | O => mret tt
  | S n' =>
      d ← desc_at i;
      put_desc i (mkDesc (d_addr d) (d_len d) VIRTQ_DESC_F_NEXT (i + 1)) ;;
      desc_init_loop n' (i + 1)
  end.
Definition desc_init : Q unit := desc_init_loop (Z.to_nat (NQUEUE - 1)) 0.

Definition alloc_desc : Q Z :=
  q ← get_state;
  if q_nfree q =? 0 then PANIC
  else
    let d := q_free_head q in
    x ← desc_at d;
    modify (set_free (if has (d_flags x) VIRTQ_DESC_F_NEXT then d_next x else d) (u16 (q_nfree q - 1))) ;;
    mret d.

(** The loop of [free_desc]: the last descriptor of the chain from [n]. *)
Fixpoint chain_end (fuel : nat) (n : Z) : Q Z :=
  modify (fun q => set_free (q_free_head q) (u16 (q_nfree q + 1)) q) ;;
  x ← desc_at n;
  if has (d_flags x) VIRTQ_DESC_F_NEXT then
    match fuel with O => undefined | S fuel' => chain_end fuel' (d_next x) end
  else mret n.

Definition free_desc (head : Z) : Q unit :=
  q ← get_state;
  let empty := q_nfree q =? 0 in
  n ← chain_end (Z.to_nat NQUEUE) head;
  x ← desc_at n;
  q ← get_state;
  put_desc n (mkDesc (d_addr x) (d_len x) VIRTQ_DESC_F_NEXT (if empty then d_next x else q_free_head q)) ;;
  modify (fun q => set_free head (q_nfree q) q).

(** [virtq_init]: cleared memory and the free list of all descriptors. *)
Definition virtq_init : Q unit :=
  modify (fun _ => mkVirtq (replicate 16 (mkDesc 0 0 0 0)) (replicate 16 0) 0 (replicate 16 0) 0 0 NQUEUE 0 (replicate 16 (mkInfo 0 0 0))) ;;
  desc_init.

(** ** Requests *)

Section driver.
(** [&disk.virtq.info[0].status]; an element has 16 bytes. *)
Context (info_base : Z).
Definition status_at (i : Z) : Z := u64 (info_base + 16 * i).

(** The part of [virtio_blk_rw] under the lock, up to the wait: the chain of
    header, data and status, and its entry in the available ring. *)
Definition queue_request (read : bool) (hdr data : Z) : Q Z :=
  d0 ← alloc_desc;
  x ← desc_at d0;
  put_desc d0 (mkDesc (V2P hdr) 16 VIRTQ_DESC_F_NEXT (d_next x)) ;;
  d1 ← alloc_desc;
  put_desc d0 (mkDesc (V2P hdr) 16 VIRTQ_DESC_F_NEXT d1) ;;
  x ← desc_at d1;
  put_desc d1 (mkDesc (V2P data) 512 (if read then Z.lor VIRTQ_DESC_F_NEXT VIRTQ_DESC_F_WRITE else VIRTQ_DESC_F_NEXT) (d_next x)) ;;
  d2 ← alloc_desc;
  put_desc d1 (mkDesc (V2P data) 512 (if read then Z.lor VIRTQ_DESC_F_NEXT VIRTQ_DESC_F_WRITE else VIRTQ_DESC_F_NEXT) d2) ;;
  put_desc d2 (mkDesc (V2P (status_at d0)) 1 VIRTQ_DESC_F_WRITE 0) ;;
  modify (fun q => set_avail (<[Z.to_nat (q_avail_idx q mod NQUEUE) := d0]> (q_avail q)) (u16 (q_avail_idx q + 1)) q) ;;
  i ← info_at d0;
  put_info d0 (mkInfo (in_status i) (in_done i) data) ;;
  mret d0.

(** [virtio_blk_rw] of process [p] up to the point where it sleeps: the header
    is a local at [hdr], the buffer's data at [data]. The semaphore is locked
    before the lock of the ring is released, so no post comes in between. *)
Definition submit (p hdr data : Z) : K unit :=
  s ← get_state;
  b ← deref (w_bufs s !! data);
  let read := negb (has (b_flags b) B_DIRTY) in
  let sem := Sem.init_sem 0 in
  modify (fun s => set_hdrs (<[hdr := mkHdr (if read then VIRTIO_BLK_T_IN else VIRTIO_BLK_T_OUT) 0 (b_block_no b)]> (w_hdrs s)) s) ;;
  (if w_lk s then sleep else modify (set_lk true)) ;;
  d0 ← on_q (queue_request read hdr data);
  modify (set_lk false) ;;
  let '(got, sem) := Sem._wait_sem_enter p sem in
  modify (fun s => set_bufs (<[data := mkBuf (b_flags b) (b_data b) (b_block_no b) sem]> (w_bufs s)) s) ;;
  modify (fun s => set_procs (<[p := mkReq d0 hdr data got]> (w_procs s)) s).

(** The rest of [virtio_blk_rw], when the process runs again. *)
Definition finish (p : Z) : K Z :=
  s ← get_state;
  r ← deref (w_procs s !! p);
  b ← deref (w_bufs s !! r_data r);
  '(f, sem) ← deref (Sem._wait_sem_leave p (r_up r) (b_sem b));
  modify (fun s => set_bufs (<[r_data r := mkBuf (b_flags b) (b_data b) (b_block_no b) sem]> (w_bufs s)) s) ;;
  if negb f then PANIC
  else
    s ← get_state;
    (if w_lk s then sleep else modify (set_lk true)) ;;
    i ← on_q (info_at (r_d0 r));
    on_q (put_info (r_d0 r) (mkInfo (in_status i) 0 (in_buf i))) ;;
    on_q (free_desc (r_d0 r)) ;;
    modify (set_lk false) ;;
    modify (fun s => set_procs (delete p (w_procs s)) s) ;;
    mret 0.

(** ** The interrupt *)

(** [post_sem(&b->sem)]: the process that is woken goes on. *)
Definition post_buf (data : Z) : K unit :=
  s ← get_state;
  b ← deref (w_bufs s !! data);
  '(w, sem) ← deref (Sem._post_sem (b_sem b));
  modify (fun s => set_bufs (<[data := mkBuf (b_flags b) (b_data b) (b_block_no b) sem]> (w_bufs s)) s) ;;
  match w with
  | None => mret tt
  | Some p =>
      r ← deref (w_procs s !! p);
      modify (fun s => set_procs (<[p := mkReq (r_d0 r) (r_hdr r) (r_data r) true]> (w_procs s)) s)
  end.

(** The body of the loop, for the request of the descriptor [d0]. [b] is 4 bytes
    before the data, and is compared with NULL. *)
Definition intr_one (d0 : Z) : K unit :=
  i ← on_q (info_at d0);
  if negb (in_status i =? 0) then PANIC
  else
    (if in_buf i =? 4 then mret tt else post_buf (in_buf i)) ;;
    i ← on_q (info_at d0);
    on_q (put_info d0 (mkInfo (in_status i) (in_done i) 0)) ;;
    modify (fun s => set_q (set_last_used (u16 (q_last_used_idx (w_q s) + 1)) (w_q s)) s).

Fixpoint intr_loop (fuel : nat) : K unit :=
  s ← get_state;
  let q := w_q s in
  if q_last_used_idx q =? q_used_idx q then mret tt
  else
    match fuel with
    | O => undefined
    | S fuel' =>
        d0 ← deref (q_used q !! Z.to_nat (q_last_used_idx q mod NQUEUE));
        intr_one d0 ;;
        intr_loop fuel'
    end.

(** The registers of the interrupt are read and written with no effect on memory. *)
Definition virtio_blk_intr : K unit :=
  s ← get_state;
  (if w_lk s then sleep else modify (set_lk true)) ;;
  intr_loop (Z.to_nat (u16 (q_used_idx (w_q s) - q_last_used_idx (w_q s)))) ;;
  modify (set_lk false).

(** ** The device *)

Definition dev_take (s : W) : option W :=
  if w_seen s =? q_avail_idx (w_q s) then None
  else h ← q_avail (w_q s) !! Z.to_nat (w_seen s mod NQUEUE); Some (set_device (u16 (w_seen s + 1)) (w_taken s ++ [h]) s).

(** The number of sectors of the disk. *)
Context (capacity : Z).

(** The chain from [h]: a header, 512 bytes the device may write when it reads from
    the disk, and a status byte; the request, and the used ring. The device
    reports [st], 0 for success, VIRTIO_BLK_S_IOERR or VIRTIO_BLK_S_UNSUPP; after an
    error the block that was to be moved holds anything, [junk]. *)
Definition dev_run (h st : Z) (junk : list Z) (s : W) : option W :=
  if decide (h ∈ w_taken s) then
    let q := w_q s in
    x0 ← q_desc q !! Z.to_nat h;
    x1 ← q_desc q !! Z.to_nat (d_next x0);
    x2 ← q_desc q !! Z.to_nat (d_next x1);
    hdr ← w_hdrs s !! P2V (d_addr x0);
    b ← w_bufs s !! P2V (d_addr x1);
    let k := (P2V (d_addr x2) - info_base) / 16 in
    i ← q_info q !! Z.to_nat k;
    if has (d_flags x0) VIRTQ_DESC_F_NEXT && has (d_flags x1) VIRTQ_DESC_F_NEXT && negb (has (d_flags x2) VIRTQ_DESC_F_NEXT) &&
       negb (has (d_flags x0) VIRTQ_DESC_F_WRITE) && has (d_flags x2) VIRTQ_DESC_F_WRITE && (d_len x0 =? 16) && (d_len x1 =? 512) && (d_len x2 =? 1) &&
       (P2V (d_addr x2) =? status_at k) && ((st =? 0) && (0 <=? h_sector hdr) && (h_sector hdr <? capacity) || (0 <? st) && (st <? 256)) then
      s ← (if (h_type hdr =? VIRTIO_BLK_T_IN) && has (d_flags x1) VIRTQ_DESC_F_WRITE then
             Some (set_bufs (<[P2V (d_addr x1) := mkBuf (b_flags b) (if st =? 0 then w_disk s (h_sector hdr) else junk) (b_block_no b) (b_sem b)]> (w_bufs s)) s)
           else if (h_type hdr =? VIRTIO_BLK_T_OUT) && negb (has (d_flags x1) VIRTQ_DESC_F_WRITE) then
             Some (set_disk (fun n => if n =? h_sector hdr then (if st =? 0 then b_data b else junk) else w_disk s n) s)
           else None);
      let q := set_used (<[Z.to_nat (q_used_idx q mod NQUEUE) := h]> (q_used q)) (u16 (q_used_idx q + 1))
                 (set_info (<[Z.to_nat k := mkInfo st (in_done i) (in_buf i)]> (q_info q)) q) in
      Some (set_device (w_seen s) (filter (fun x => x <> h) (w_taken s)) (set_q q s))
    else None
  else None.

(** ** One action

    A process that is not in a request may start one, with a header and a buffer
    of its own in kernel memory. *)
Definition kernel_address (a : Z) : Prop := KERNEL_BASE <= a < 2 ^ 64.

Inductive step (s : W) : W -> Prop :=
| step_submit p hdr data b s' :
    w_procs s !! p = None -> (forall q r, w_procs s !! q = Some r -> r_hdr r <> hdr /\ r_data r <> data) ->
    kernel_address hdr -> kernel_address data ->
    submit p hdr data (set_bufs (<[data := b]> (w_bufs s)) s) = Done tt s' -> step s s'
| step_take s' : dev_take s = Some s' -> step s s'
| step_run h st junk s' : dev_run h st junk s = Some s' -> step s s'
| step_intr s' : virtio_blk_intr s = Done tt s' -> step s s'
| step_finish p r s' : w_procs s !! p = Some r -> r_up r = true -> finish p s = Done 0 s' -> step s s'.
End driver.

(** ** Blocks (src/fs/block_device.c) *)

Definition sd_offset : Z := 133120.
Definition BLOCK_SIZE : Z := 512.

(** The local [Buf] of [sd_read], whose data is not set, and of [sd_write], with the
    bytes of the caller. *)
Definition sd_read_buf (block_no : Z) (data : list Z) : Buf := mkBuf 0 data (u32 (block_no + sd_offset)) (Sem.init_sem 0).
Definition sd_write_buf (block_no : Z) (data buffer : list Z) : Buf :=
  mkBuf (Z.lor B_DIRTY B_VALID) (splice data 0 (take (Z.to_nat BLOCK_SIZE) buffer)) (u32 (block_no + sd_offset)) (Sem.init_sem 0).

(** [sd_read] and [sd_write] over a call [rw] of [virtio_blk_rw], which takes the
    local buffer and gives it back; [data] is what the local holds. The first
    gives the caller's buffer afterwards. *)
Section blocks.
Context (rw : Buf -> W -> option (Buf * W)).
Definition sd_read (block_no : Z) (data buffer : list Z) (s : W) : option (list Z * W) :=
  '(b, s) ← rw (sd_read_buf block_no data) s;
  Some (splice buffer 0 (take (Z.to_nat BLOCK_SIZE) (b_data b)), s).
Definition sd_write (block_no : Z) (data buffer : list Z) (s : W) : option W :=
  '(_, s) ← rw (sd_write_buf block_no data buffer) s;
  Some s.
End blocks.

(** ** The free list *)

Fixpoint linked (ds : list virtq_desc) (free : list Z) : Prop :=
  match free with
  | [] => True
  | a :: rest => match rest with
                 | [] => True
                 | b :: _ => (exists x, ds !! Z.to_nat a = Some x /\ has (d_flags x) VIRTQ_DESC_F_NEXT = true /\ d_next x = b) /\ linked ds rest
                 end
  end.

Definition desc_no (d : Z) : Prop := 0 <= d < NQUEUE.

Record free_ok (q : virtq) (free : list Z) : Prop := {
  fr_descs : length (q_desc q) = 16%nat;
  fr_linked : linked (q_desc q) free;
  fr_head : forall a rest, free = a :: rest -> q_free_head q = a;
  fr_count : q_nfree q = Z.of_nat (length free) /\ (length free <= 16)%nat;
  fr_range : Forall desc_no free;
}.

Lemma linked_insert ds i d free : Forall (fun x => 0 <= x) free -> 0 <= i -> i ∉ free -> linked ds free -> linked (<[Z.to_nat i := d]> ds) free.
Proof.
  intros Hp Hi Hn. induction free as [|a free IH]; [done|]. apply Forall_cons in Hp as [Ha Hp]. apply not_elem_of_cons in Hn as [Hia Hn]. destruct free as [|b free]; [done|]. intros [(x & Ex & Hf & Hx) Hl].
  split; [|by apply IH]. exists x. split; [|done]. rewrite list_lookup_insert_ne by lia. done.
Qed.

Lemma range_nonneg l : Forall desc_no l -> Forall (fun x => 0 <= x) l.
Proof. intros H. eapply Forall_impl; [exact H|]. unfold desc_no. cbv beta. lia. Qed.

Lemma desc_lookup (ds : list virtq_desc) d : length ds = 16%nat -> desc_no d -> exists x, ds !! Z.to_nat d = Some x.
Proof. intros Hl Hd. unfold desc_no, NQUEUE in Hd. apply lookup_lt_is_Some_2. lia. Qed.

Lemma wp_desc_at q d x (P : virtq_desc -> virtq -> Prop) : q_desc q !! Z.to_nat d = Some x -> P x q -> wp (desc_at d) P q.
Proof. intros E H. unfold desc_at. apply wp_bind, wp_get_state. by eapply wp_deref. Qed.

(** [alloc_desc] takes the head of the free list, and panics when there is none. *)
Lemma wp_alloc q a rest (P : Z -> virtq -> Prop) : free_ok q (a :: rest) ->
  (forall h, free_ok (set_free h (Z.of_nat (length rest)) q) rest -> P a (set_free h (Z.of_nat (length rest)) q)) -> wp alloc_desc P q.
Proof.
  intros [F1 F2 F3 [F4 F4'] F5] HP. unfold alloc_desc. apply wp_bind, wp_get_state. cbn [length] in *. rewrite F4, (proj2 (Z.eqb_neq _ 0)) by lia. cbv zeta.
  rewrite (F3 a rest eq_refl). apply Forall_cons in F5 as [Fa Fr]. destruct (desc_lookup _ a F1 Fa) as [x Ex]. apply wp_bind. eapply wp_desc_at; [exact Ex|].
  apply wp_bind, wp_modify, wp_ret. unfold u16. rewrite wrap_small by lia. replace (Z.of_nat (S (length rest)) - 1) with (Z.of_nat (length rest)) by lia.
  apply HP. split; cbn [set_free q_desc q_free_head q_nfree]; try done; [| |split; lia].
  - destruct rest as [|b rest]; [done|]. apply F2.
  - intros b rest' ->. destruct F2 as [(y & Ey & Hf & Hy) _]. rewrite Ex in Ey. injection Ey as ->. by rewrite Hf.
Qed.

Lemma alloc_panics q (P : virtq -> Prop) : free_ok q [] -> P q -> panics alloc_desc P q.
Proof. intros [_ _ _ [F4 _] _] HP. unfold panics. cbv [alloc_desc mbind M_bind get_state]. rewrite F4. exact HP. Qed.

(** Descriptors out of the free list may be written. *)
Lemma free_ok_put q free d x : free_ok q free -> desc_no d -> d ∉ free -> free_ok (set_desc (<[Z.to_nat d := x]> (q_desc q)) q) free.
Proof.
  intros [F1 F2 F3 F4 F5] Hd Hn. split; cbn [set_desc q_desc q_free_head q_nfree]; try done; [by rewrite length_insert|].
  apply linked_insert; try done; [by apply range_nonneg|unfold desc_no in Hd; lia].
Qed.

Lemma wp_put_desc q free d x (P : unit -> virtq -> Prop) : free_ok q free -> desc_no d -> d ∉ free ->
  (let q' := set_desc (<[Z.to_nat d := x]> (q_desc q)) q in free_ok q' free -> P tt q') -> wp (put_desc d x) P q.
Proof. intros F Hd Hn HP. apply wp_modify. apply HP. by apply free_ok_put. Qed.

Definition data_flags (read : bool) : Z := if read then Z.lor VIRTQ_DESC_F_NEXT VIRTQ_DESC_F_WRITE else VIRTQ_DESC_F_NEXT.

(** The chain of a request. *)
Record chained (base : Z) (q : virtq) (read : bool) (hdr data d0 d1 d2 : Z) : Prop := {
  ch_0 : q_desc q !! Z.to_nat d0 = Some (mkDesc (V2P hdr) 16 VIRTQ_DESC_F_NEXT d1);
  ch_1 : q_desc q !! Z.to_nat d1 = Some (mkDesc (V2P data) 512 (data_flags read) d2);
  ch_2 : q_desc q !! Z.to_nat d2 = Some (mkDesc (V2P (status_at base d0)) 1 VIRTQ_DESC_F_WRITE 0);
}.

(** The ring after a request was queued. *)
Record queued (base : Z) (read : bool) (hdr data a b c : Z) (rest : list Z) (i : info) (q q' : virtq) : Prop := {
  qd_free : free_ok q' rest;
  qd_chain : chained base q' read hdr data a b c;
  qd_desc : forall d, 0 <= d -> d ∉ [a; b; c] -> q_desc q' !! Z.to_nat d = q_desc q !! Z.to_nat d;
  qd_avail : q_avail q' = <[Z.to_nat (q_avail_idx q mod NQUEUE) := a]> (q_avail q) /\ q_avail_idx q' = u16 (q_avail_idx q + 1);
  qd_info : q_info q' = <[Z.to_nat a := mkInfo (in_status i) (in_done i) data]> (q_info q);
  qd_used : q_used q' = q_used q /\ q_used_idx q' = q_used_idx q /\ q_last_used_idx q' = q_last_used_idx q;
}.

Lemma wp_queue_request base read hdr data q a b c rest i (P : Z -> virtq -> Prop) :
  free_ok q (a :: b :: c :: rest) -> NoDup (a :: b :: c :: rest) -> q_info q !! Z.to_nat a = Some i ->
  (forall q', queued base read hdr data a b c rest i q q' -> P a q') -> wp (queue_request base read hdr data) P q.
Proof.
  intros F Hnd Hi HP. pose proof (fr_range _ _ F) as R. do 3 (apply Forall_cons in R as [? R]). pose proof (fr_descs _ _ F) as Hlen.
  apply NoDup_cons in Hnd as [Na Hnd]. apply NoDup_cons in Hnd as [Nb Hnd]. apply NoDup_cons in Hnd as [Nc _].
  apply not_elem_of_cons in Na as [Nab Na]. apply not_elem_of_cons in Na as [Nac Nar]. apply not_elem_of_cons in Nb as [Nbc Nbr]. unfold desc_no, NQUEUE in *.
  unfold queue_request. apply wp_bind. apply (wp_alloc q a (b :: c :: rest) _ F). intros h1 F1.
  destruct (desc_lookup (q_desc q) a Hlen) as [x Ex]; [done|]. apply wp_bind. eapply wp_desc_at; [exact Ex|].
  apply wp_bind. eapply wp_put_desc; [exact F1|done|set_solver|]. cbv zeta. clear F1. intros F1. apply wp_bind. apply (wp_alloc _ b (c :: rest) _ F1). intros h2 F2.
  apply wp_bind. eapply wp_put_desc; [exact F2|done|set_solver|]. cbv zeta. clear F2. intros F2. cbn [set_free set_desc q_desc] in F2 |- *. rewrite list_insert_insert_eq in F2 |- *.
  destruct (desc_lookup (<[Z.to_nat a := mkDesc (V2P hdr) 16 VIRTQ_DESC_F_NEXT b]> (q_desc q)) b) as [y Ey]; [by rewrite length_insert|done|].
  apply wp_bind. eapply wp_desc_at; [exact Ey|]. fold (data_flags read). apply wp_bind. eapply wp_put_desc; [exact F2|done|set_solver|]. cbv zeta. clear F2. intros F2.
  apply wp_bind. apply (wp_alloc _ c rest _ F2). intros h3 F3.
  apply wp_bind. eapply wp_put_desc; [exact F3|done|set_solver|]. cbv zeta. clear F3. intros F3. cbn [set_free set_desc q_desc] in F3 |- *. rewrite list_insert_insert_eq in F3 |- *.
  apply wp_bind. eapply wp_put_desc; [exact F3|done|done|]. cbv zeta. clear F3. intros F3. cbn [set_free set_desc q_desc] in F3 |- *.
  apply wp_bind, wp_modify. apply wp_bind. unfold info_at. apply wp_bind, wp_get_state. eapply wp_deref; [exact Hi|].
  apply wp_bind. unfold put_info. apply wp_modify, wp_ret. apply HP. split; try done.
  - destruct F3 as [F3a F3b F3c F3d F3e]. split; done.
  - split; cbn [set_info set_avail set_free set_desc q_desc].
    + rewrite !list_lookup_insert_ne by lia. apply list_lookup_insert_eq. lia.
    + rewrite list_lookup_insert_ne by lia. apply list_lookup_insert_eq. rewrite length_insert. lia.
    + apply list_lookup_insert_eq. rewrite !length_insert. lia.
  - intros d Hd Hn. cbn [set_info set_avail set_free set_desc q_desc]. rewrite !not_elem_of_cons in Hn. by rewrite !list_lookup_insert_ne by lia.
Qed.

(** With fewer than three free descriptors the request panics. *)
Lemma queue_request_panics base read hdr data q free : free_ok q free -> NoDup free -> (length free < 3)%nat -> panics (queue_request base read hdr data) (fun _ => True) q.
Proof.
  intros F Hnd Hl. pose proof (fr_descs _ _ F) as Hlen. pose proof (fr_range _ _ F) as R. unfold queue_request. destruct free as [|a free]; [by apply panics_bind_l, alloc_panics|].
  apply Forall_cons in R as [Ra R]. apply NoDup_cons in Hnd as [Na Hnd]. apply panics_bind. eapply wp_alloc; [exact F|]. intros h1 F1.
  destruct (desc_lookup (q_desc q) a Hlen Ra) as [x Ex]. apply panics_bind. eapply wp_desc_at; [exact Ex|].
  apply panics_bind. eapply wp_put_desc; [exact F1|done|done|]. cbv zeta. clear F1. intros F1. destruct free as [|b free]; [by apply panics_bind_l, alloc_panics|].
  apply Forall_cons in R as [Rb R]. apply NoDup_cons in Hnd as [Nb Hnd]. destruct free; [|cbn in Hl; lia]. apply panics_bind. eapply wp_alloc; [exact F1|]. intros h2 F2.
  apply panics_bind. eapply wp_put_desc; [exact F2|done|set_solver|]. cbv zeta. clear F2. intros F2. cbn [set_free set_desc q_desc] in F2 |- *.
  destruct (desc_lookup (<[Z.to_nat a := mkDesc (V2P hdr) 16 VIRTQ_DESC_F_NEXT b]> (<[Z.to_nat a := mkDesc (V2P hdr) 16 VIRTQ_DESC_F_NEXT (d_next x)]> (q_desc q))) b) as [y Ey]; [by rewrite !length_insert|done|].
  apply panics_bind. eapply wp_desc_at; [exact Ey|]. apply panics_bind. eapply wp_put_desc; [exact F2|done|set_solver|]. cbv zeta. clear F2. intros F2. by apply panics_bind_l, alloc_panics.
Qed.

Lemma data_flags_next read : has (data_flags read) VIRTQ_DESC_F_NEXT = true.
Proof. by destruct read. Qed.

(** [free_desc] puts a chain back in front of the free list. *)
Lemma wp_free_desc base q free read hdr data d0 d1 d2 (P : unit -> virtq -> Prop) :
  free_ok q free -> chained base q read hdr data d0 d1 d2 -> NoDup (d0 :: d1 :: d2 :: free) -> Forall desc_no [d0; d1; d2] -> (length free <= 13)%nat ->
  (forall h x, let q' := set_free h (q_nfree q + 3) (set_desc (<[Z.to_nat d2 := x]> (q_desc q)) q) in free_ok q' (d0 :: d1 :: d2 :: free) -> P tt q') -> wp (free_desc d0) P q.
Proof.
  intros [F1 F2 F3 [F4 F4'] F5] [C0 C1 C2] Hnd R Hl HP. apply NoDup_cons in Hnd as [N0 Hnd]. apply NoDup_cons in Hnd as [N1 Hnd]. apply NoDup_cons in Hnd as [N2 _].
  apply not_elem_of_cons in N0 as [N01 N0]. apply not_elem_of_cons in N0 as [N02 N0]. apply not_elem_of_cons in N1 as [N12 N1].
  apply Forall_cons in R as [R0 R]. apply Forall_cons in R as [R1 R]. apply Forall_cons in R as [R2 _]. unfold desc_no, NQUEUE in *.
  unfold free_desc. apply wp_bind, wp_get_state. apply wp_bind. change (Z.to_nat 16) with 16%nat. change (Z.to_nat NQUEUE) with 16%nat. cbn [chain_end].
  apply wp_bind, wp_modify, wp_bind. eapply wp_desc_at; [exact C0|]. cbn [d_flags d_next]. change (has VIRTQ_DESC_F_NEXT VIRTQ_DESC_F_NEXT) with true. cbv iota.
  apply wp_bind, wp_modify, wp_bind. eapply wp_desc_at; [exact C1|]. cbn [d_flags d_next]. rewrite data_flags_next.
  apply wp_bind, wp_modify, wp_bind. eapply wp_desc_at; [exact C2|]. cbn [d_flags d_next]. change (has VIRTQ_DESC_F_WRITE VIRTQ_DESC_F_NEXT) with false. cbv iota. apply wp_ret.
  apply wp_bind. eapply wp_desc_at; [exact C2|]. cbn [d_addr d_len d_next]. apply wp_bind, wp_get_state. apply wp_bind, wp_modify, wp_modify.
  cbn [set_free q_free_head q_nfree set_desc q_desc q_avail q_avail_idx q_used q_used_idx q_last_used_idx q_info].
  assert (u16 (u16 (u16 (q_nfree q + 1) + 1) + 1) = q_nfree q + 3) as -> by (unfold u16; rewrite (wrap_small 16 (q_nfree q + 1)) by lia; rewrite (wrap_small 16 (q_nfree q + 1 + 1)) by lia; rewrite wrap_small; lia).
  apply (HP d0). cbv zeta. split; cbn [set_free set_desc q_desc q_free_head q_nfree].
  - by rewrite length_insert.
  - split; [|split; [|destruct free as [|f free]; [done|split]]].
    + eexists. split; [rewrite list_lookup_insert_ne by lia; exact C0|]. done.
    + eexists. split; [rewrite list_lookup_insert_ne by lia; exact C1|]. split; [apply data_flags_next|done].
    + eexists. split; [apply list_lookup_insert_eq; lia|]. cbn [d_flags d_next]. split; [done|]. rewrite F4, (proj2 (Z.eqb_neq _ 0)) by (cbn; lia). by apply (F3 f free).
    + apply linked_insert; try done; [apply range_nonneg; exact F5|lia].
  - by intros a rest [= -> _].
  - cbn [length] in *. lia.
  - repeat (apply Forall_cons; split); done.
Qed.
