(* ===== verification/VirtioInit.v ===== *)
(** Initialisation of the block device ([virtio_init] of src/driver/virtio_blk.c).

    The registers of the device are not memory: [dev log r] is what the device
    gives when register [r] is read after the writes in [log], and the writes
    are recorded. Registers are named by their offsets from [VIRTIO0]. *)
From Stdlib Require Import ZArith Lia.
From stdpp Require Import base numbers gmap list.
From S2P Require Import Prelude Sync Virtio.

Definition VIRTIO_MAGIC : Z := 0x74726976.
Definition VIRTIO_REG_MAGICVALUE : Z := 0x00.
Definition VIRTIO_REG_VERSION : Z := 0x04.
Definition VIRTIO_REG_DEVICE_ID : Z := 0x08.
Definition VIRTIO_REG_DEVICE_FEATURES : Z := 0x10.
Definition VIRTIO_REG_DEVICE_FEATURES_SEL : Z := 0x14.
Definition VIRTIO_REG_DRIVER_FEATURES : Z := 0x20.
Definition VIRTIO_REG_DRIVER_FEATURES_SEL : Z := 0x24.
Definition VIRTIO_REG_QUEUE_SEL : Z := 0x30.
Definition VIRTIO_REG_QUEUE_NUM_MAX : Z := 0x34.
Definition VIRTIO_REG_QUEUE_NUM : Z := 0x38.
Definition VIRTIO_REG_QUEUE_READY : Z := 0x44.
Definition VIRTIO_REG_STATUS : Z := 0x70.
Definition VIRTIO_REG_QUEUE_DESC_LOW : Z := 0x80.
Definition VIRTIO_REG_QUEUE_DESC_HIGH : Z := 0x84.
Definition VIRTIO_REG_QUEUE_DRIVER_LOW : Z := 0x90.
Definition VIRTIO_REG_QUEUE_DRIVER_HIGH : Z := 0x94.
Definition VIRTIO_REG_QUEUE_DEVICE_LOW : Z := 0xa0.
Definition VIRTIO_REG_QUEUE_DEVICE_HIGH : Z := 0xa4.
Definition DEV_STATUS_ACKNOWLEDGE : Z := 1.
Definition DEV_STATUS_DRIVER : Z := 2.
Definition DEV_STATUS_FEATURES_OK : Z := 8.
Definition DEV_STATUS_DRIVER_OK : Z := 4.

(** SEG_MAX, GEOMETRY, RO, BLK_SIZE, FLUSH, TOPOLOGY, CONFIG_WCE, ANY_LAYOUT,
    INDIRECT_DESC and EVENT_IDX. *)
Definition REFUSED : list Z := [2; 4; 5; 6; 9; 10; 11; 27; 28; 29].

Definition LO (x : Z) : Z := Z.land x 0xffffffff.
Definition HI (x : Z) : Z := Z.land (Z.shiftr x 32) 0xffffffff.

Record VI := mkVI { vi_log : list (Z * Z); vi_q : virtq }.

Section init.
Context (dev : list (Z * Z) -> Z -> Z).
(** The three pages of [virtq_init]. *)
Context (desc avail used : Z).
Abbreviation I := (M VI).

Definition reg_read (r : Z) : I Z := s ← get_state; mret (u32 (dev (vi_log s) r)).
Definition reg_write (r v : Z) : I unit := modify (fun s => mkVI (vi_log s ++ [(r, u32 v)]) (vi_q s)).
Definition on_vq {A} (c : M virtq A) : I A := zoom vi_q (fun q s => mkVI (vi_log s) q) c.

Definition clear_bits (features : Z) (bits : list Z) : Z := foldl (fun f b => u32 (Z.land f (Z.lnot (Z.shiftl 1 b)))) features bits.

Definition virtio_init : I unit :=
  magic ← reg_read VIRTIO_REG_MAGICVALUE;
  version ← reg_read VIRTIO_REG_VERSION;
  device ← reg_read VIRTIO_REG_DEVICE_ID;
  if negb (magic =? VIRTIO_MAGIC) || negb (version =? 2) || negb (device =? 2) then PANIC
  else
    reg_write VIRTIO_REG_STATUS 0 ;;
    let status := Z.lor 0 DEV_STATUS_ACKNOWLEDGE in
    reg_write VIRTIO_REG_STATUS status ;;
    let status := Z.lor status DEV_STATUS_DRIVER in
    reg_write VIRTIO_REG_STATUS status ;;
    reg_write VIRTIO_REG_DEVICE_FEATURES_SEL 0 ;;
    reg_write VIRTIO_REG_DRIVER_FEATURES_SEL 0 ;;
    offered ← reg_read VIRTIO_REG_DEVICE_FEATURES;
    reg_write VIRTIO_REG_DRIVER_FEATURES (clear_bits offered REFUSED) ;;
    let status := Z.lor status DEV_STATUS_FEATURES_OK in
    reg_write VIRTIO_REG_STATUS status ;;
    status ← reg_read VIRTIO_REG_STATUS;
    if negb (has status DEV_STATUS_FEATURES_OK) then PANIC
    else
      on_vq virtq_init ;;
      qmax ← reg_read VIRTIO_REG_QUEUE_NUM_MAX;
      if qmax - (if 2 ^ 31 <=? qmax then 2 ^ 32 else 0) <? NQUEUE then PANIC
      else
        reg_write VIRTIO_REG_QUEUE_SEL 0 ;;
        reg_write VIRTIO_REG_QUEUE_NUM NQUEUE ;;
        reg_write VIRTIO_REG_QUEUE_DESC_LOW (LO (V2P desc)) ;;
        reg_write VIRTIO_REG_QUEUE_DESC_HIGH (HI (V2P desc)) ;;
        reg_write VIRTIO_REG_QUEUE_DRIVER_LOW (LO (V2P avail)) ;;
        reg_write VIRTIO_REG_QUEUE_DRIVER_HIGH (HI (V2P avail)) ;;
        reg_write VIRTIO_REG_QUEUE_DEVICE_LOW (LO (V2P used)) ;;
        reg_write VIRTIO_REG_QUEUE_DEVICE_HIGH (HI (V2P used)) ;;
        reg_write VIRTIO_REG_QUEUE_READY 1 ;;
        reg_write VIRTIO_REG_STATUS (Z.lor status DEV_STATUS_DRIVER_OK).

(** ** What the device is told *)

(** The last value written to [r]. *)
Definition last_write (r : Z) (log : list (Z * Z)) : option Z := snd <$> List.find (fun w => w.1 =? r) (rev log).

Lemma clear_bit f b n : 0 <= f < 2 ^ 32 -> 0 <= b -> 0 <= n -> 0 <= u32 (Z.land f (Z.lnot (Z.shiftl 1 b))) < 2 ^ 32 /\ Z.testbit (u32 (Z.land f (Z.lnot (Z.shiftl 1 b)))) n = Z.testbit f n && negb (b =? n).
Proof using Type.
  intros Hf Hb Hn. split; [by apply wrap_bounds|]. unfold u32, wrap. destruct (decide (n < 32)) as [Hlt|Hge].
  - rewrite Z.mod_pow2_bits_low by lia. rewrite Z.land_spec, Z.lnot_spec by lia. f_equal. f_equal. rewrite Z.shiftl_1_l. apply Z.pow2_bits_eqb. lia.
  - rewrite Z.mod_pow2_bits_high by lia. rewrite <- (Z.mod_small f (2 ^ 32)) by lia. by rewrite Z.mod_pow2_bits_high by lia.
Qed.

(** The features the driver asks for: those offered, without the refused ones. *)
Lemma clear_bits_spec bits f n : 0 <= f < 2 ^ 32 -> Forall (fun b => 0 <= b) bits -> 0 <= n ->
  0 <= clear_bits f bits < 2 ^ 32 /\ (Z.testbit (clear_bits f bits) n = true <-> Z.testbit f n = true /\ n ∉ bits).
Proof using Type.
  unfold clear_bits. revert f. induction bits as [|b bits IH]; intros f Hf Hall Hn; simpl.
  { split; [done|]. split; [intros H; split; [done|apply not_elem_of_nil]|by intros [? _]]. }
  apply Forall_cons in Hall as [Hb Hall]. destruct (clear_bit f b n Hf Hb Hn) as [Hr Ht]. destruct (IH _ Hr Hall Hn) as [H1 H2]. split; [done|]. rewrite H2, Ht, andb_true_iff, negb_true_iff, Z.eqb_neq, not_elem_of_cons. naive_solver.
Qed.

Lemma lo_hi x : 0 <= x < 2 ^ 64 -> 0 <= LO x < 2 ^ 32 /\ 0 <= HI x < 2 ^ 32 /\ HI x * 2 ^ 32 + LO x = x.
Proof using Type.
  intros Hx. unfold LO, HI. change 0xffffffff with (Z.ones 32). rewrite !Z.land_ones, Z.shiftr_div_pow2 by lia. rewrite (Z.mod_small (x / 2 ^ 32)) by (split; [apply Z.div_pos; lia|apply Z.div_lt_upper_bound; lia]). pose proof (Z.div_mod x (2 ^ 32) ltac:(lia)). pose proof (Z.mod_pos_bound x (2 ^ 32) ltac:(lia)).
  assert (0 <= x / 2 ^ 32 < 2 ^ 32) by (split; [apply Z.div_pos; lia|apply Z.div_lt_upper_bound; lia]). split_and!; lia.
Qed.

Lemma queue_ready : exists q', (forall q, virtq_init q = Done tt q') /\ q_nfree q' = NQUEUE.
Proof using Type. eexists. split; [intros q; vm_compute; reflexivity|reflexivity]. Qed.

Ltac log_write := apply wp_bind, wp_modify; cbn [vi_log vi_q]; rewrite <- ?app_assoc; cbn [app].

(** When the device is there, accepts the features and has a queue of 16
    entries, it is set up: the features the driver takes are offered and not
    refused, the addresses of the queue are those of the three pages, the
    descriptors are a list of free ones, and only then is the device told that the
    driver is ready. In every other case the kernel stops. *)
Theorem virtio_init_spec s :
  let rd log r := u32 (dev log r) in
  let l0 := vi_log s in
  let l1 := l0 ++ [(VIRTIO_REG_STATUS, 0); (VIRTIO_REG_STATUS, 1); (VIRTIO_REG_STATUS, 3); (VIRTIO_REG_DEVICE_FEATURES_SEL, 0); (VIRTIO_REG_DRIVER_FEATURES_SEL, 0)] in
  let offered := rd l1 VIRTIO_REG_DEVICE_FEATURES in
  rd l0 VIRTIO_REG_MAGICVALUE = VIRTIO_MAGIC -> rd l0 VIRTIO_REG_VERSION = 2 -> rd l0 VIRTIO_REG_DEVICE_ID = 2 ->
  (forall l, has (rd l VIRTIO_REG_STATUS) DEV_STATUS_FEATURES_OK = true) -> (forall l, NQUEUE <= rd l VIRTIO_REG_QUEUE_NUM_MAX < 2 ^ 31) ->
  wp virtio_init (fun _ s' =>
    (exists f, last_write VIRTIO_REG_DRIVER_FEATURES (vi_log s') = Some f /\ forall n, 0 <= n -> Z.testbit f n = true <-> Z.testbit offered n = true /\ n ∉ REFUSED) /\
    (forall lo hi p, (lo, hi, p) ∈ [(VIRTIO_REG_QUEUE_DESC_LOW, VIRTIO_REG_QUEUE_DESC_HIGH, desc); (VIRTIO_REG_QUEUE_DRIVER_LOW, VIRTIO_REG_QUEUE_DRIVER_HIGH, avail); (VIRTIO_REG_QUEUE_DEVICE_LOW, VIRTIO_REG_QUEUE_DEVICE_HIGH, used)] ->
       exists l h, last_write lo (vi_log s') = Some l /\ last_write hi (vi_log s') = Some h /\ h * 2 ^ 32 + l = V2P p) /\
    last_write VIRTIO_REG_QUEUE_NUM (vi_log s') = Some NQUEUE /\ q_nfree (vi_q s') = NQUEUE /\
    exists l v, vi_log s' = l ++ [(VIRTIO_REG_QUEUE_READY, 1); (VIRTIO_REG_STATUS, v)] /\ has v DEV_STATUS_DRIVER_OK = true) s.
Proof using Type.
  destruct s as [l q]. intros rd l0 l1 offered E1 E2 E3 Hst Hq. cbn [vi_log] in *. unfold virtio_init, reg_read, reg_write.
  do 3 (apply wp_bind, wp_bind, wp_get_state, wp_ret; cbn [vi_log]). unfold rd, l0 in *. cbn [vi_log] in *. rewrite E1, E2, E3. cbn [Z.eqb negb orb Pos.eqb VIRTIO_MAGIC].
  do 5 log_write. apply wp_bind, wp_bind, wp_get_state, wp_ret. cbn [vi_log]. change (u32 (dev _ VIRTIO_REG_DEVICE_FEATURES)) with offered. do 2 log_write.
  apply wp_bind, wp_bind, wp_get_state, wp_ret. cbn [vi_log]. rewrite Hst. cbn [negb]. apply wp_bind, wp_zoom. destruct queue_ready as (q' & Hr & Hfree). unfold wp at 1. rewrite Hr. cbn [vi_log vi_q].
  apply wp_bind, wp_bind, wp_get_state, wp_ret. cbn [vi_log]. pose proof (Hq (l ++ [(VIRTIO_REG_STATUS, u32 0); (VIRTIO_REG_STATUS, u32 (Z.lor 0 DEV_STATUS_ACKNOWLEDGE)); (VIRTIO_REG_STATUS, u32 (Z.lor (Z.lor 0 DEV_STATUS_ACKNOWLEDGE) DEV_STATUS_DRIVER));
    (VIRTIO_REG_DEVICE_FEATURES_SEL, u32 0); (VIRTIO_REG_DRIVER_FEATURES_SEL, u32 0); (VIRTIO_REG_DRIVER_FEATURES, u32 (clear_bits offered REFUSED)); (VIRTIO_REG_STATUS, u32 (Z.lor (Z.lor (Z.lor 0 DEV_STATUS_ACKNOWLEDGE) DEV_STATUS_DRIVER) DEV_STATUS_FEATURES_OK))])) as Hm.
  rewrite (proj2 (Z.leb_gt _ _)) by lia. rewrite Z.sub_0_r, (proj2 (Z.ltb_ge _ _)) by lia. do 9 log_write. apply wp_modify. cbn [vi_log vi_q]. rewrite <- ?app_assoc. cbn [app].
  set (st := Z.lor (u32 _) DEV_STATUS_DRIVER_OK).
  assert (0 <= offered < 2 ^ 32) as Ho by (by apply wrap_bounds). assert (Forall (fun b => 0 <= b) REFUSED) as Hb by (repeat constructor; lia).
  assert (forall p, 0 <= V2P p < 2 ^ 64) as Hp by (intros p; by apply wrap_bounds).
  split_and!; [| | | |].
  - exists (clear_bits offered REFUSED). split; [|intros n Hn; by apply clear_bits_spec]. unfold last_write. rewrite rev_app_distr. cbn. unfold u32. rewrite wrap_small; [done|]. by apply (clear_bits_spec REFUSED offered 0).
  - intros lo hi p Hin. exists (LO (V2P p)), (HI (V2P p)). destruct (lo_hi (V2P p) (Hp p)) as (A & B & C). unfold last_write. rewrite rev_app_distr.
    rewrite !elem_of_cons, elem_of_nil in Hin. destruct Hin as [[= -> -> ->]|[[= -> -> ->]|[[= -> -> ->]|[]]]]; cbn; unfold u32; rewrite !wrap_small by done; done.
  - unfold last_write. rewrite rev_app_distr. done.
  - done.
  - match goal with |- context [l ++ ?k] => exists (l ++ take 15 k), (u32 st) end. split; [by rewrite <- app_assoc|]. unfold has, st, u32, wrap. apply negb_true_iff, Z.eqb_neq. intros E.
    apply (f_equal (fun z => Z.testbit z 2)) in E. rewrite Z.land_spec, Z.mod_pow2_bits_low, Z.lor_spec, Z.bits_0 in E by lia. change (Z.testbit DEV_STATUS_DRIVER_OK 2) with true in E. by rewrite orb_true_r in E.
Qed.
End init.
