(* ===== verification/VirtioSafe.v ===== *)
(** The protocol of the block device (Virtio.v): an invariant of every interleaving
    of processes, device and interrupts, and what each request does. *)
From Stdlib Require Import ZArith Lia.
From stdpp Require Import base numbers gmap relations list_tactics list.
From S2P Require Import Prelude Sync Virtio.

(** ** Rings *)

Lemma u16_mod16 x : u16 x mod NQUEUE = x mod NQUEUE.
Proof.
  unfold u16, wrap, NQUEUE. rewrite (Z.div_mod x (2 ^ 16)) at 2 by lia. replace (2 ^ 16 * (x / 2 ^ 16)) with (4096 * (x / 2 ^ 16) * 16) by lia.
  by rewrite Z.add_comm, Z.mod_add by lia.
Qed.

(** The entries from index [start] to [stop]. *)
Record ring_holds (ring : list Z) (start stop : Z) (l : list Z) : Prop := {
  rh_ring : length ring = 16%nat;
  rh_length : (length l <= 16)%nat;
  rh_start : 0 <= start < 65536;
  rh_stop : stop = u16 (start + Z.of_nat (length l));
  rh_at : forall i x, l !! i = Some x -> ring !! Z.to_nat ((start + Z.of_nat i) mod NQUEUE) = Some x;
}.

Lemma ring_push ring start stop l x : ring_holds ring start stop l -> (length l < 16)%nat ->
  ring_holds (<[Z.to_nat (stop mod NQUEUE) := x]> ring) start (u16 (stop + 1)) (l ++ [x]).
Proof.
  intros [R1 R2 R3 R4 R5] Hl. subst stop. rewrite u16_mod16. unfold NQUEUE in *. split.
  - by rewrite length_insert.
  - rewrite length_app. simpl. lia.
  - done.
  - rewrite length_app. simpl. unfold u16, wrap. rewrite Z.add_mod_idemp_l by lia. f_equal. lia.
  - intros i y Hy. pose proof (Z.mod_pos_bound (start + Z.of_nat (length l)) 16 ltac:(lia)). apply lookup_app_Some in Hy as [Hy|[Hi Hy]].
    + pose proof (lookup_lt_Some _ _ _ Hy) as Hi. rewrite list_lookup_insert_ne; [by apply R5|]. pose proof (Z.mod_pos_bound (start + Z.of_nat i) 16 ltac:(lia)).
      unfold NQUEUE. intros E. assert ((start + Z.of_nat (length l)) mod 16 = (start + Z.of_nat i) mod 16) as E' by lia.
      pose proof (Z.div_mod (start + Z.of_nat (length l)) 16 ltac:(lia)). pose proof (Z.div_mod (start + Z.of_nat i) 16 ltac:(lia)). lia.
    + apply list_lookup_singleton_Some in Hy as [Hi0 ->]. replace i with (length l) by lia. apply list_lookup_insert_eq. lia.
Qed.

Lemma ring_pop ring start stop x l : ring_holds ring start stop (x :: l) ->
  ring !! Z.to_nat (start mod NQUEUE) = Some x /\ ring_holds ring (u16 (start + 1)) stop l /\ start <> stop.
Proof.
  intros [R1 R2 R3 R4 R5]. cbn [length] in *. split_and!.
  - specialize (R5 0%nat x eq_refl). by rewrite Z.add_0_r in R5.
  - split; [done|lia|unfold u16; apply (wrap_bounds 16); lia| |].
    + rewrite R4. unfold u16, wrap. rewrite Z.add_mod_idemp_l by lia. f_equal. lia.
    + intros i y Hy. specialize (R5 (S i) y Hy). rewrite <- R5. f_equal. f_equal. rewrite <- (u16_mod16 (start + Z.of_nat (S i))), <- (u16_mod16 (u16 (start + 1) + Z.of_nat i)).
      unfold u16, wrap, NQUEUE. rewrite Z.add_mod_idemp_l by lia. do 2 f_equal. lia.
  - rewrite R4. unfold u16, wrap. change (2 ^ 16) with 65536. intros E. destruct (decide (start + Z.of_nat (S (length l)) < 65536)) as [Hlt|Hge].
    + rewrite Z.mod_small in E by lia. lia.
    + replace (start + Z.of_nat (S (length l))) with (start + Z.of_nat (S (length l)) - 65536 + 1 * 65536) in E by lia. rewrite Z.mod_add, Z.mod_small in E by lia. lia.
Qed.

Lemma ring_empty ring start stop : ring_holds ring start stop [] -> start = stop.
Proof. intros [_ _ R3 R4 _]. rewrite R4. unfold u16. cbn [length]. rewrite wrap_small by lia. lia. Qed.

(** ** Requests in flight *)

Record G := mkG { g_p : Z; g_hdr : Z; g_data : Z; g_d0 : Z; g_d1 : Z; g_d2 : Z; g_read : bool; g_block : Z }.
Definition g_descs (g : G) : list Z := [g_d0 g; g_d1 g; g_d2 g].

(** No two requests share anything, and the other descriptors are free. *)
Record sep (free : list Z) (gs : list G) : Prop := {
  sp_descs : NoDup (free ++ (gs ≫= g_descs));
  sp_range : Forall desc_no (gs ≫= g_descs);
  sp_count : (length free + 3 * length gs)%nat = 16%nat;
  sp_p : NoDup (g_p <$> gs);
  sp_hdr : NoDup (g_hdr <$> gs);
  sp_data : NoDup (g_data <$> gs);
}.

Lemma sep_perm free gs gs' : gs ≡ₚ gs' -> sep free gs -> sep free gs'.
Proof.
  intros E [S1 S2 S3 S4 S5 S6]. by split; rewrite <- ?E.
Qed.

(** What two requests do not share. *)
Record apart (g h : G) : Prop := {
  apt_p : g_p g <> g_p h;
  apt_hdr : g_hdr g <> g_hdr h;
  apt_data : g_data g <> g_data h;
  apt_descs : forall d, d ∈ g_descs g -> d ∉ g_descs h;
}.

Lemma sep_apart free g gs h : sep free (g :: gs) -> h ∈ gs -> apart h g.
Proof.
  intros [S1 _ _ S4 S5 S6] Hh. cbn [fmap list_fmap] in *. apply NoDup_cons in S4 as [P4 _]. apply NoDup_cons in S5 as [P5 _]. apply NoDup_cons in S6 as [P6 _].
  split; try (intros E; match goal with H : ?f g ∉ _ |- _ => apply H; rewrite <- E; by apply list_elem_of_fmap_2 end).
  intros d Hd Hd'. apply NoDup_app in S1 as (_ & _ & S1). change ((g :: gs) ≫= g_descs) with (g_descs g ++ (gs ≫= g_descs)) in S1. apply NoDup_app in S1 as (_ & S1 & _).
  apply (S1 d Hd'). apply list_elem_of_bind. eauto.
Qed.

Section safe.
Context (base capacity : Z).
Hypothesis Hbase : KERNEL_BASE <= base /\ base + 256 <= 2 ^ 64.

Lemma P2V_V2P a : kernel_address a -> P2V (V2P a) = a.
Proof. unfold kernel_address, P2V, V2P, u64. intros H. rewrite (wrap_small 64 (a - KERNEL_BASE)); unfold KERNEL_BASE in *; [|lia]. rewrite wrap_small; lia. Qed.

Lemma status_kernel d : desc_no d -> kernel_address (status_at base d) /\ status_at base d = base + 16 * d.
Proof. unfold desc_no, NQUEUE, kernel_address, status_at, u64, KERNEL_BASE in *. intros H. rewrite wrap_small by lia. lia. Qed.

(** The memory of a request: [woken] when the interrupt has posted its
    semaphore. *)
Record mem_ok (s : W) (woken : bool) (g : G) : Prop := {
  mo_chain : chained base (w_q s) (g_read g) (g_hdr g) (g_data g) (g_d0 g) (g_d1 g) (g_d2 g);
  mo_hdr : w_hdrs s !! g_hdr g = Some (mkHdr (if g_read g then VIRTIO_BLK_T_IN else VIRTIO_BLK_T_OUT) 0 (g_block g));
  mo_buf : exists b, w_bufs s !! g_data g = Some b /\ b_block_no b = g_block g /\ b_sem b = if woken then Sem.mkSem 0 [] else Sem.mkSem (-1) [g_p g];
  mo_proc : w_procs s !! g_p g = Some (mkReq (g_d0 g) (g_hdr g) (g_data g) woken);
  mo_info : exists i, q_info (w_q s) !! Z.to_nat (g_d0 g) = Some i /\ (woken = false -> in_buf i = g_data g);
  mo_kernel : kernel_address (g_hdr g) /\ kernel_address (g_data g);
}.

(** A step that leaves what a request has. *)
Lemma mem_ok_frame s s' woken g :
  (forall d, d ∈ g_descs g -> q_desc (w_q s') !! Z.to_nat d = q_desc (w_q s) !! Z.to_nat d) -> w_hdrs s' !! g_hdr g = w_hdrs s !! g_hdr g ->
  w_bufs s' !! g_data g = w_bufs s !! g_data g -> w_procs s' !! g_p g = w_procs s !! g_p g -> q_info (w_q s') !! Z.to_nat (g_d0 g) = q_info (w_q s) !! Z.to_nat (g_d0 g) ->
  mem_ok s woken g -> mem_ok s' woken g.
Proof.
  intros Ed Eh Eb Ep Ei [[C0 C1 C2] M2 M3 M4 M5 M6]. split; rewrite ?Eh, ?Eb, ?Ep, ?Ei; try done. split; rewrite Ed; try done; unfold g_descs; set_solver.
Qed.

Record ok (s : W) (free : list Z) (ga gt gu gw : list G) : Prop := {
  ok_lk : w_lk s = false;
  ok_free : free_ok (w_q s) free;
  ok_infos : length (q_info (w_q s)) = 16%nat;
  ok_sep : sep free (ga ++ gt ++ gu ++ gw);
  ok_avail : ring_holds (q_avail (w_q s)) (w_seen s) (q_avail_idx (w_q s)) (g_d0 <$> ga);
  ok_taken : w_taken s = g_d0 <$> gt;
  ok_used : ring_holds (q_used (w_q s)) (q_last_used_idx (w_q s)) (q_used_idx (w_q s)) (g_d0 <$> gu);
  ok_queued : forall g, g ∈ ga ++ gt -> mem_ok s false g;
  ok_done : forall g, g ∈ gu -> mem_ok s false g;
  ok_woken : forall g, g ∈ gw -> mem_ok s true g;
  ok_procs : forall p r, w_procs s !! p = Some r -> exists g, g ∈ ga ++ gt ++ gu ++ gw /\ g_p g = p;
}.

Lemma sep_in_flight free gs : sep free gs -> (length gs <= 5)%nat.
Proof. intros S. pose proof (sp_count _ _ S). lia. Qed.

Lemma sep_free free g gs d : sep free (g :: gs) -> d ∈ g_descs g -> d ∉ free /\ desc_no d.
Proof.
  intros S Hd. split.
  - intros Hf. pose proof (sp_descs _ _ S) as S1. apply NoDup_app in S1 as (_ & S1 & _). apply (S1 d Hf). apply list_elem_of_bind. exists g. split; [done|by left].
  - pose proof (sp_range _ _ S) as R. rewrite Forall_forall in R. apply R. apply list_elem_of_bind. exists g. split; [done|by left].
Qed.

(** ** The device *)

(** The device takes the requests in the order they were queued. *)
Lemma ok_take s free g ga gt gu gw : ok s free (g :: ga) gt gu gw -> exists s', dev_take s = Some s' /\ ok s' free ga (gt ++ [g]) gu gw.
Proof.
  intros [O1 O2 O3 O4 O5 O6 O7 O8 O9 O10 O11]. cbn [fmap list_fmap] in O5. destruct (ring_pop _ _ _ _ _ O5) as (E & R & Hne). unfold dev_take. rewrite (proj2 (Z.eqb_neq _ _) Hne), E.
  eexists. split; [reflexivity|]. assert ((g :: ga) ++ gt ++ gu ++ gw ≡ₚ ga ++ (gt ++ [g]) ++ gu ++ gw) as Ep by solve_Permutation.
  split; cbn [set_device w_lk w_q w_bufs w_hdrs w_procs w_seen w_taken]; try done.
  - by eapply sep_perm.
  - by rewrite fmap_app, O6.
  - intros h Hh. assert (h ∈ (g :: ga) ++ gt) as Hh' by set_solver. destruct (O8 h Hh'). by split.
  - intros h Hh. destruct (O9 h Hh). by split.
  - intros h Hh. destruct (O10 h Hh). by split.
  - intros p r Hp. destruct (O11 p r Hp) as (h & Hh & Eh). exists h. split; [|done]. by rewrite <- Ep.
Qed.

(** The chain of a request as the device reads it: what it does. *)
Definition run_effect (st : Z) (junk : list Z) (g : G) (b : Buf) (s : W) : W :=
  if g_read g then set_bufs (<[g_data g := mkBuf (b_flags b) (if st =? 0 then w_disk s (g_block g) else junk) (b_block_no b) (b_sem b)]> (w_bufs s)) s
  else set_disk (fun n => if n =? g_block g then (if st =? 0 then b_data b else junk) else w_disk s n) s.

(** The device has the sector, or reports an error. *)
Definition reports (block st : Z) : bool := (st =? 0) && (0 <=? block) && (block <? capacity) || (0 <? st) && (st <? 256).

Definition completed (st : Z) (g : G) (i : info) (q : virtq) : virtq :=
  set_used (<[Z.to_nat (q_used_idx q mod NQUEUE) := g_d0 g]> (q_used q)) (u16 (q_used_idx q + 1))
    (set_info (<[Z.to_nat (g_d0 g) := mkInfo st (in_done i) (in_buf i)]> (q_info q)) q).

Lemma dev_run_eq st junk s g b i : reports (g_block g) st = true -> mem_ok s false g -> desc_no (g_d0 g) -> g_d0 g ∈ w_taken s -> w_bufs s !! g_data g = Some b -> q_info (w_q s) !! Z.to_nat (g_d0 g) = Some i ->
  dev_run base capacity (g_d0 g) st junk s = Some (set_device (w_seen s) (filter (fun x => x <> g_d0 g) (w_taken s)) (set_q (completed st g i (w_q s)) (run_effect st junk g b s))).
Proof.
  intros Hst [[C0 C1 C2] M2 M3 M4 M5 [M6 M7]] Hd Ht Hb Hi. destruct (status_kernel (g_d0 g) Hd) as [Hsk Hse]. unfold dev_run. rewrite decide_True by done.
  rewrite C0. cbn [mbind option_bind d_next d_addr d_flags d_len]. rewrite C1. cbn [mbind option_bind d_next d_addr d_flags d_len]. rewrite C2. cbn [mbind option_bind d_next d_addr d_flags d_len].
  rewrite !P2V_V2P by done. rewrite M2, Hb. cbn [mbind option_bind]. assert ((status_at base (g_d0 g) - base) / 16 = g_d0 g) as ->.
  { rewrite Hse. replace (base + 16 * g_d0 g - base) with (g_d0 g * 16) by lia. apply Z.div_mul. lia. }
  rewrite Hi. cbn [mbind option_bind]. rewrite (Z.eqb_refl (status_at base (g_d0 g))). cbn [h_sector h_type]. fold (reports (g_block g) st). rewrite Hst. unfold run_effect. by destruct (g_read g).
Qed.

Lemma filter_other (d : Z) l k : d ∉ l -> d ∉ k -> filter (fun x => x <> d) (l ++ d :: k) = l ++ k.
Proof.
  intros Hl Hk. rewrite filter_app, filter_cons_False by (intros H; by apply H).
  assert (forall m : list Z, d ∉ m -> filter (fun x => x <> d) m = m) as H.
  { intros m. induction m as [|x m IH]; [done|]. intros Hm. apply not_elem_of_cons in Hm as [Hx Hm]. rewrite filter_cons_True by congruence. by rewrite IH. }
  by rewrite !H.
Qed.

Lemma apart_d0 g h : apart h g -> g_d0 h <> g_d0 g.
Proof. intros [_ _ _ A] E. apply (A (g_d0 h)); [by left|]. rewrite E. by left. Qed.

(** Requests other than [g] do not see what happens to the memory of [g]. *)
Lemma mem_ok_apart s s' g h woken : apart h g -> desc_no (g_d0 h) -> desc_no (g_d0 g) ->
  (forall d, d ∉ g_descs g -> desc_no d -> q_desc (w_q s') !! Z.to_nat d = q_desc (w_q s) !! Z.to_nat d) -> (forall a, a <> g_hdr g -> w_hdrs s' !! a = w_hdrs s !! a) ->
  (forall a, a <> g_data g -> w_bufs s' !! a = w_bufs s !! a) -> (forall p, p <> g_p g -> w_procs s' !! p = w_procs s !! p) ->
  (forall d, d <> g_d0 g -> desc_no d -> q_info (w_q s') !! Z.to_nat d = q_info (w_q s) !! Z.to_nat d) -> Forall desc_no (g_descs h) -> mem_ok s woken h -> mem_ok s' woken h.
Proof.
  intros A Hh Hg Ed Eh Eb Ep Ei Hr M. pose proof (apart_d0 _ _ A). destruct A as [A1 A2 A3 A4]. eapply mem_ok_frame; [| | | | |exact M]; auto.
  intros d Hd. apply Ed; [auto|]. by rewrite Forall_forall in Hr; apply Hr.
Qed.

Lemma sep_range_of free gs g : sep free gs -> g ∈ gs -> Forall desc_no (g_descs g).
Proof.
  intros S Hg. pose proof (sp_range _ _ S) as R. rewrite Forall_forall in R |- *. intros d Hd. apply R. apply list_elem_of_bind. eauto.
Qed.

Lemma sep_d0 free gs g : sep free gs -> g ∈ gs -> desc_no (g_d0 g).
Proof. intros S Hg. pose proof (sep_range_of _ _ _ S Hg) as R. by apply Forall_cons in R as [? _]. Qed.

Lemma ok_run st junk s free ga gt1 g gt2 gu gw : ok s free ga (gt1 ++ g :: gt2) gu gw -> reports (g_block g) st = true -> exists b i,
  w_bufs s !! g_data g = Some b /\ b_block_no b = g_block g /\
  let s' := set_device (w_seen s) (g_d0 <$> gt1 ++ gt2) (set_q (completed st g i (w_q s)) (run_effect st junk g b s)) in
  dev_run base capacity (g_d0 g) st junk s = Some s' /\ ok s' free ga (gt1 ++ gt2) (gu ++ [g]) gw.
Proof.
  intros [O1 O2 O3 O4 O5 O6 O7 O8 O9 O10 O11] Hst. assert (ga ++ (gt1 ++ g :: gt2) ++ gu ++ gw ≡ₚ g :: ga ++ (gt1 ++ gt2) ++ gu ++ gw) as Ep by solve_Permutation.
  assert (ga ++ (gt1 ++ gt2) ++ (gu ++ [g]) ++ gw ≡ₚ g :: ga ++ (gt1 ++ gt2) ++ gu ++ gw) as Ep' by solve_Permutation.
  pose proof (sep_perm _ _ _ Ep O4) as S. assert (mem_ok s false g) as M by (apply O8; set_solver).
  pose proof (sep_d0 _ _ g S ltac:(by left)) as Hd. destruct (mo_buf _ _ _ M) as (b & Eb & Hbn & Hsem). destruct (mo_info _ _ _ M) as (i & Ei & Hib).
  exists b, i. split; [done|]. split; [done|]. cbv zeta. set (s' := set_device _ _ _).
  assert (forall h, h ∈ ga ++ (gt1 ++ gt2) ++ gu ++ gw -> g_d0 h <> g_d0 g) as Hne by (intros h Hh; apply apart_d0; by eapply sep_apart).
  assert (g_d0 g ∉ g_d0 <$> gt1 /\ g_d0 g ∉ g_d0 <$> gt2) as [N1 N2]. { split; intros (h & E & Hh)%list_elem_of_fmap; apply (Hne h); set_solver. }
  split. { rewrite (dev_run_eq st junk s g b i) by (done || rewrite O6, fmap_app; set_solver). unfold s'. rewrite O6, !fmap_app, fmap_cons. by rewrite filter_other. }
  assert (w_q s' = completed st g i (w_q s) /\ w_hdrs s' = w_hdrs s /\ w_procs s' = w_procs s /\ w_seen s' = w_seen s /\ w_lk s' = w_lk s) as (Eq & Eh & Epr & Ese & Elk) by (unfold s', run_effect; by destruct (g_read g)).
  assert (exists b', w_bufs s' !! g_data g = Some b' /\ b_block_no b' = b_block_no b /\ b_sem b' = b_sem b) as Hb'.
  { unfold s', run_effect. destruct (g_read g); cbn [set_device set_q set_bufs set_disk w_bufs]; [rewrite lookup_insert_eq|]; eauto. }
  assert (forall a, a <> g_data g -> w_bufs s' !! a = w_bufs s !! a) as Hbo.
  { intros a Ha. unfold s', run_effect. destruct (g_read g); cbn [set_device set_q set_bufs set_disk w_bufs]; [by rewrite lookup_insert_ne|done]. }
  assert (forall woken h, h ∈ ga ++ (gt1 ++ gt2) ++ gu ++ gw -> mem_ok s woken h -> mem_ok s' woken h) as Hothers.
  { intros woken h Hh Mh. eapply (mem_ok_apart s s' g h); try done; rewrite ?Eq, ?Eh, ?Epr; try done; [by eapply sep_apart|by eapply (sep_d0 _ _ h S); right| |by eapply (sep_range_of _ _ h S); right].
    intros d Hd' Hdn. unfold completed. cbn [set_used set_info q_info]. unfold desc_no in *. by rewrite list_lookup_insert_ne by lia. }
  split; rewrite ?Eq, ?Eh, ?Epr, ?Ese, ?Elk; try done.
  - destruct O2 as [F1 F2 F3 F4 F5]. by split.
  - unfold completed. cbn [set_used set_info q_info]. by rewrite length_insert.
  - eapply sep_perm; [|exact S]. by symmetry.
  - rewrite fmap_app. cbn [fmap list_fmap]. unfold completed. cbn [set_used set_info q_used q_used_idx q_last_used_idx]. apply ring_push; [done|].
    rewrite length_fmap. pose proof (sep_in_flight _ _ S) as Hl. cbn [length] in Hl. rewrite !length_app in Hl. lia.
  - intros h Hh. apply Hothers; [set_solver|]. apply O8. set_solver.
  - intros h [Hh| ->%list_elem_of_singleton]%elem_of_app; [apply Hothers; [set_solver|by apply O9]|]. destruct M as [M1 M2 M3 M4 M5 M6]. split; rewrite ?Eq, ?Eh, ?Epr; try done.
    + destruct M1. by split.
    + destruct Hb' as (b' & E1 & E2 & E3). exists b'. split_and!; [done|congruence|congruence].
    + exists (mkInfo st (in_done i) (in_buf i)). unfold completed. cbn [set_used set_info q_info]. split; [|intros _; by apply Hib].
      apply list_lookup_insert_eq. unfold desc_no, NQUEUE in Hd. lia.
  - intros h Hh. apply Hothers; [set_solver|by apply O10].
  - intros p r Hp. destruct (O11 p r Hp) as (h & Hh & E). exists h. split; [|done]. rewrite Ep'. by rewrite <- Ep.
Qed.

(** ** Processes *)

Lemma wp_on_q {A} (c : M virtq A) (P : A -> W -> Prop) s : wp c (fun a q => P a (set_q q s)) (w_q s) -> wp (on_q c) P s.
Proof. intros H. by apply wp_zoom. Qed.

(** What a process brings to [submit]: a header, a buffer and a pid that are not in use. *)
Definition fresh_for (s : W) (p hdr data : Z) : Prop :=
  w_procs s !! p = None /\ (forall q r, w_procs s !! q = Some r -> r_hdr r <> hdr /\ r_data r <> data) /\ kernel_address hdr /\ kernel_address data.

Lemma fresh_apart s free ga gt gu gw p hdr data g : ok s free ga gt gu gw -> fresh_for s p hdr data -> g ∈ ga ++ gt ++ gu ++ gw ->
  g_p g <> p /\ g_hdr g <> hdr /\ g_data g <> data.
Proof.
  intros O (Hp & Hf & _) Hg. assert (exists w, w_procs s !! g_p g = Some (mkReq (g_d0 g) (g_hdr g) (g_data g) w)) as [w Hw].
  { rewrite !elem_of_app in Hg. destruct Hg as [Hg|[Hg|[Hg|Hg]]].
    - exists false. apply (ok_queued _ _ _ _ _ _ O). set_solver.
    - exists false. apply (ok_queued _ _ _ _ _ _ O). set_solver.
    - exists false. by apply (ok_done _ _ _ _ _ _ O).
    - exists true. by apply (ok_woken _ _ _ _ _ _ O). }
  destruct (Hf _ _ Hw) as [? ?]. split; [congruence|done].
Qed.

Lemma sep_push free a b c gs g : sep (a :: b :: c :: free) gs -> g_descs g = [a; b; c] -> Forall desc_no [a; b; c] ->
  (forall h, h ∈ gs -> g_p h <> g_p g /\ g_hdr h <> g_hdr g /\ g_data h <> g_data g) -> sep free (g :: gs).
Proof.
  intros [S1 S2 S3 S4 S5 S6] Hg Hr Hf. assert (forall {B} (f : G -> B), (forall h, h ∈ gs -> f h <> f g) -> NoDup (f <$> gs) -> NoDup (f <$> g :: gs)) as Hnd.
  { intros B f Hn Hd. cbn [fmap list_fmap]. apply NoDup_cons. split; [|done]. intros (h & E & Hh)%list_elem_of_fmap. by apply (Hn h). }
  split.
  - change ((g :: gs) ≫= g_descs) with (g_descs g ++ (gs ≫= g_descs)). rewrite Hg. eapply NoDup_Permutation_proper; [|exact S1]. solve_Permutation.
  - change ((g :: gs) ≫= g_descs) with (g_descs g ++ (gs ≫= g_descs)). rewrite Hg. apply Forall_app. done.
  - cbn [length] in *. lia.
  - apply Hnd; [|done]. intros h Hh. by apply Hf.
  - apply Hnd; [|done]. intros h Hh. by apply Hf.
  - apply Hnd; [|done]. intros h Hh. by apply Hf.
Qed.

Lemma ok_submit s a b c free ga gt gu gw p hdr data buf : ok s (a :: b :: c :: free) ga gt gu gw -> fresh_for s p hdr data ->
  let g := mkG p hdr data a b c (negb (has (b_flags buf) B_DIRTY)) (b_block_no buf) in
  wp (submit base p hdr data) (fun _ s' => ok s' free (ga ++ [g]) gt gu gw /\ w_disk s' = w_disk s /\
    w_bufs s' = <[data := mkBuf (b_flags buf) (b_data buf) (b_block_no buf) (Sem.mkSem (-1) [p])]> (w_bufs s) /\
    w_procs s' = <[p := mkReq a hdr data false]> (w_procs s) /\ q_avail_idx (w_q s') = u16 (q_avail_idx (w_q s) + 1)) (set_bufs (<[data := buf]> (w_bufs s)) s).
Proof.
  intros O Hf g. pose proof (fun h => fresh_apart s _ ga gt gu gw p hdr data h O Hf) as Hfr. destruct Hf as (Hp & Hfp & Kh & Kd). pose proof O as [O1 O2 O3 O4 O5 O6 O7 O8 O9 O10 O11].
  pose proof (fr_range _ _ O2) as R. assert (Forall desc_no [a; b; c]) as Rabc by (change [a; b; c] with (take 3 (a :: b :: c :: free)); by apply Forall_take).
  assert (NoDup (a :: b :: c :: free)) as Hnd by (pose proof (sp_descs _ _ O4) as H; by apply NoDup_app in H as [? _]).
  assert (desc_no a) as Ra by (by apply Forall_cons in Rabc as [? _]). assert (exists i, q_info (w_q s) !! Z.to_nat a = Some i) as [i Ei] by (apply lookup_lt_is_Some_2; unfold desc_no, NQUEUE in Ra; lia).
  unfold submit. apply wp_bind, wp_get_state, wp_bind. eapply wp_deref; [cbn [set_bufs w_bufs]; apply lookup_insert_eq|]. cbv zeta. apply wp_bind, wp_modify.
  cbn [set_bufs w_lk]. rewrite O1. apply wp_bind, wp_modify. apply wp_bind, wp_on_q.
  eapply (wp_queue_request base (negb (has (b_flags buf) B_DIRTY)) hdr data _ a b c free i); [exact O2|done|exact Ei|]. intros q' [Q1 Q2 Q3 [Q4 Q4'] Q5 (Q6 & Q7 & Q8)].
  apply wp_bind, wp_modify. change (Sem._wait_sem_enter p (Sem.init_sem 0)) with (false, Sem.mkSem (-1) [p]). cbv iota. apply wp_bind, wp_modify, wp_modify.
  cbn [set_bufs set_hdrs set_lk set_q set_procs w_q w_bufs w_hdrs w_procs w_lk w_disk w_seen w_taken] in *. set (s' := set_procs _ _).
  assert (forall h, h ∈ ga ++ gt ++ gu ++ gw -> forall d, d ∈ g_descs h -> d ∉ [a; b; c]) as Hdis.
  { intros h Hh d Hd Hd'. pose proof (sp_descs _ _ O4) as H. apply NoDup_app in H as (_ & H & _). apply (H d); [set_solver|]. apply list_elem_of_bind. eauto. }
  assert (forall woken h, h ∈ ga ++ gt ++ gu ++ gw -> mem_ok s woken h -> mem_ok s' woken h) as Hothers.
  { intros woken h Hh Mh. destruct (Hfr h Hh) as (N1 & N2 & N3). pose proof (sep_range_of _ _ _ O4 Hh) as Rh. rewrite Forall_forall in Rh. eapply mem_ok_frame; [| | | | |exact Mh]; unfold s'.
    - intros d Hd. cbn [set_bufs set_procs set_lk set_q w_q]. apply Q3; [destruct (Rh d Hd); done|]. by apply (Hdis h).
    - cbn [set_procs set_bufs set_lk set_q set_hdrs w_hdrs]. by rewrite lookup_insert_ne.
    - cbn [set_procs set_bufs w_bufs]. by rewrite !lookup_insert_ne.
    - cbn [set_procs w_procs]. by rewrite lookup_insert_ne.
    - cbn [set_bufs set_procs set_lk set_q w_q]. rewrite Q5. apply list_lookup_insert_ne. assert (g_d0 h <> a) as Hne by (intros E; apply (Hdis h Hh (g_d0 h)); [by left|rewrite E; by left]).
      assert (desc_no (g_d0 h)) as Rd by (apply Rh; by left). unfold desc_no in *. lia. }
  assert ((ga ++ [g]) ++ gt ++ gu ++ gw ≡ₚ g :: ga ++ gt ++ gu ++ gw) as Ep by solve_Permutation.
  assert (sep free (g :: ga ++ gt ++ gu ++ gw)) as S' by (eapply sep_push; [exact O4|done|done|]; intros h Hh; by apply Hfr).
  split; [|split; [done|split; [|done]]]. 2: { unfold s'. cbn [set_procs set_bufs w_bufs]. by rewrite insert_insert_eq. }
  split; unfold s'; cbn [set_procs set_bufs set_lk set_q w_q w_lk w_seen w_taken]; try done.
  - rewrite Q5. by rewrite length_insert.
  - eapply sep_perm; [|exact S']. by symmetry.
  - rewrite fmap_app. cbn [fmap list_fmap]. rewrite Q4, Q4'. apply ring_push; [done|]. pose proof (sep_in_flight _ _ S') as Hl. cbn [length] in Hl. rewrite !length_app in Hl. rewrite length_fmap. lia.
  - by rewrite Q6, Q7, Q8.
  - intros h Hh. assert (h ∈ ga ++ gt \/ h = g) as [Hh'| ->] by set_solver; [apply Hothers; [set_solver|by apply O8]|]. split; try done.
    + unfold s'. cbn [set_procs set_bufs set_lk set_q set_hdrs w_hdrs]. rewrite lookup_insert_eq. cbn [g_read g g_block]. by destruct (has (b_flags buf) B_DIRTY).
    + eexists. split; [unfold s'; cbn [set_procs set_bufs w_bufs]; apply lookup_insert_eq|]. done.
    + unfold s'. cbn [set_procs w_procs]. apply lookup_insert_eq.
    + unfold s'. cbn [set_bufs set_procs set_lk set_q w_q]. rewrite Q5. eexists. split; [apply list_lookup_insert_eq; unfold desc_no, NQUEUE in Ra; cbn [g_d0 g]; lia|]. done.
  - intros h Hh. apply Hothers; [set_solver|by apply O9].
  - intros h Hh. apply Hothers; [set_solver|by apply O10].
  - intros p' r Hp'. cbn [set_procs w_procs] in Hp'. destruct (decide (p' = p)) as [->|Hne].
    + exists g. split; [set_solver|done].
    + rewrite lookup_insert_ne in Hp' by done. destruct (O11 p' r Hp') as (h & Hh & E). exists h. split; [set_solver|done].
Qed.

(** ** The interrupt *)

Definition same_data (s s' : W) : Prop := w_disk s' = w_disk s /\ forall a, b_data <$> w_bufs s' !! a = b_data <$> w_bufs s !! a.

Lemma same_data_trans a b c : same_data a b -> same_data b c -> same_data a c.
Proof. intros [A1 A2] [B1 B2]. split; [congruence|]. intros x. by rewrite B2, A2. Qed.

Lemma wp_post_buf s g (P : unit -> W -> Prop) b : w_bufs s !! g_data g = Some b -> b_sem b = Sem.mkSem (-1) [g_p g] -> w_procs s !! g_p g = Some (mkReq (g_d0 g) (g_hdr g) (g_data g) false) ->
  P tt (set_procs (<[g_p g := mkReq (g_d0 g) (g_hdr g) (g_data g) true]> (w_procs s)) (set_bufs (<[g_data g := mkBuf (b_flags b) (b_data b) (b_block_no b) (Sem.mkSem 0 [])]> (w_bufs s)) s)) ->
  wp (post_buf (g_data g)) P s.
Proof.
  intros Eb Es Ep HP. unfold post_buf. apply wp_bind, wp_get_state, wp_bind. eapply wp_deref; [exact Eb|]. rewrite Es.
  apply wp_bind. eapply wp_deref; [reflexivity|]. cbv iota beta. apply wp_bind, wp_modify, wp_bind. eapply wp_deref; [exact Ep|]. apply wp_modify. exact HP.
Qed.

Lemma wp_info_at s d i (P : info -> W -> Prop) : q_info (w_q s) !! Z.to_nat d = Some i -> P i s -> wp (on_q (info_at d)) P s.
Proof.
  intros E H. apply wp_on_q. unfold info_at. apply wp_bind, wp_get_state. eapply wp_deref; [exact E|]. by destruct s.
Qed.

(** One completed request: its process is woken. *)
Definition posted (g : G) (b : Buf) (i : info) (s : W) : W :=
  let s := set_procs (<[g_p g := mkReq (g_d0 g) (g_hdr g) (g_data g) true]> (w_procs s)) (set_bufs (<[g_data g := mkBuf (b_flags b) (b_data b) (b_block_no b) (Sem.mkSem 0 [])]> (w_bufs s)) s) in
  set_q (set_last_used (u16 (q_last_used_idx (w_q s) + 1)) (set_info (<[Z.to_nat (g_d0 g) := mkInfo (in_status i) (in_done i) 0]> (q_info (w_q s))) (w_q s))) s.

Lemma ok_post s free ga gt g gu gw b i : ok (set_lk false s) free ga gt (g :: gu) gw -> w_bufs s !! g_data g = Some b -> q_info (w_q s) !! Z.to_nat (g_d0 g) = Some i -> b_block_no b = g_block g ->
  ok (set_lk false (posted g b i s)) free ga gt gu (gw ++ [g]).
Proof.
  intros [O1 O2 O3 O4 O5 O6 O7 O8 O9 O10 O11] Eb Ei Hbn. assert (ga ++ gt ++ (g :: gu) ++ gw ≡ₚ g :: ga ++ gt ++ gu ++ gw) as Ep by solve_Permutation.
  assert (ga ++ gt ++ gu ++ gw ++ [g] ≡ₚ g :: ga ++ gt ++ gu ++ gw) as Ep' by solve_Permutation. pose proof (sep_perm _ _ _ Ep O4) as S.
  pose proof (sep_d0 _ _ g S ltac:(by left)) as Hd. assert (mem_ok (set_lk false s) false g) as M by (apply O9; by left). set (s' := set_lk false (posted g b i s)).
  cbn [fmap list_fmap] in O7. destruct (ring_pop _ _ _ _ _ O7) as (_ & R7 & _).
  assert (forall woken h, h ∈ ga ++ gt ++ gu ++ gw -> mem_ok (set_lk false s) woken h -> mem_ok s' woken h) as Hothers.
  { intros woken h Hh Mh. eapply (mem_ok_apart (set_lk false s) s' g h); try done; [by eapply sep_apart|by eapply (sep_d0 _ _ h S); right| | | |by eapply (sep_range_of _ _ h S); right]; unfold s', posted.
    - intros a Ha. cbn [set_lk set_q set_procs set_bufs w_bufs]. by rewrite lookup_insert_ne.
    - intros q Hq. cbn [set_lk set_q set_procs w_procs]. by rewrite lookup_insert_ne.
    - intros d Hd' Hdn. cbn [set_lk set_q set_procs set_bufs w_q set_last_used set_info q_info]. unfold desc_no in *. by rewrite list_lookup_insert_ne by lia. }
  cbn [set_lk w_q] in O3. split; try done.
  - destruct O2 as [F1 F2 F3 F4 F5]. by split.
  - unfold s', posted. cbn [set_lk set_q set_procs set_bufs w_q set_last_used set_info q_info]. by rewrite length_insert.
  - eapply sep_perm; [|exact S]. by symmetry.
  - intros h Hh. apply Hothers; [set_solver|by apply O8].
  - intros h Hh. apply Hothers; [set_solver|]. apply O9. by right.
  - intros h [Hh| ->%list_elem_of_singleton]%elem_of_app; [apply Hothers; [set_solver|by apply O10]|]. destruct M as [M1 M2 M3 M4 M5 M6]. split; try done; unfold s', posted.
    + destruct M1. by split.
    + eexists. split; [cbn [set_lk set_q set_procs set_bufs w_bufs]; apply lookup_insert_eq|]. done.
    + cbn [set_lk set_q set_procs w_procs]. apply lookup_insert_eq.
    + exists (mkInfo (in_status i) (in_done i) 0). cbn [set_lk set_q set_procs set_bufs w_q set_last_used set_info q_info]. split; [apply list_lookup_insert_eq; unfold desc_no, NQUEUE in Hd; lia|done].
  - intros p r Hp. unfold s', posted in Hp. cbn [set_lk set_q set_procs w_procs] in Hp. destruct (decide (p = g_p g)) as [->|Hne].
    + exists g. split; [set_solver|done].
    + rewrite lookup_insert_ne in Hp by done. destruct (O11 p r Hp) as (h & Hh & E). exists h. split; [|done]. rewrite Ep'. by rewrite <- Ep.
Qed.

(** The status the device has reported for a request. *)
Definition status_of (s : W) (g : G) : option Z := in_status <$> q_info (w_q s) !! Z.to_nat (g_d0 g).

Lemma completed_status st junk g b i s seen taken : length (q_info (w_q s)) = 16%nat -> desc_no (g_d0 g) ->
  status_of (set_device seen taken (set_q (completed st g i (w_q s)) (run_effect st junk g b s))) g = Some st.
Proof. intros Hl Hd. unfold status_of, completed. cbn. rewrite list_lookup_insert_eq; [done|]. rewrite Hl. unfold desc_no, NQUEUE in Hd. lia. Qed.

(** One completed request: the process is woken, or the kernel panics. *)
Lemma wp_intr_one s free ga gt g gu gw : ok (set_lk false s) free ga gt (g :: gu) gw -> status_of s g = Some 0 ->
  wp (intr_one (g_d0 g)) (fun _ s' => ok (set_lk false s') free ga gt gu (gw ++ [g]) /\ same_data s s' /\ forall h, h ∈ gu -> status_of s' h = status_of s h) s.
Proof.
  intros O Hs. destruct (ok_done _ _ _ _ _ _ O g ltac:(by left)) as [M1 M2 (b & Eb & Hbn & Hsem) M4 (i & Ei & Hib) [M6 M6']]. cbn [set_lk w_q w_bufs w_procs] in Eb, Ei, M4.
  unfold status_of in Hs. rewrite Ei in Hs. injection Hs as His. unfold intr_one.
  apply wp_bind. eapply wp_info_at; [exact Ei|]. rewrite His. cbn [negb Z.eqb]. rewrite (Hib eq_refl).
  rewrite (proj2 (Z.eqb_neq (g_data g) 4)) by (unfold kernel_address, KERNEL_BASE in M6'; lia).
  apply wp_bind. eapply wp_post_buf; [exact Eb|exact Hsem|exact M4|]. apply wp_bind. eapply wp_info_at; [exact Ei|]. rewrite His.
  apply wp_bind, wp_on_q. unfold put_info. apply wp_modify. apply wp_modify.
  pose proof (ok_post s free ga gt g gu gw b i O Eb Ei Hbn) as O'. set (s' := posted g b i s) in O'.
  match goal with |- ok (set_lk false ?x) _ _ _ _ _ /\ _ => replace x with s' by (unfold s', posted; rewrite His; by destruct s as [? [] ? ? ? ? ? ?]) end.
  split; [done|]. split.
  - split; [done|]. intros x. unfold s', posted. cbn [set_q set_procs set_bufs w_bufs]. destruct (decide (x = g_data g)) as [->|]; [by rewrite lookup_insert_eq, Eb|by rewrite lookup_insert_ne].
  - intros h Hh. unfold status_of, s', posted. cbn [set_q set_procs set_bufs w_q set_last_used set_info q_info]. f_equal. apply list_lookup_insert_ne.
    assert (ga ++ gt ++ (g :: gu) ++ gw ≡ₚ g :: ga ++ gt ++ gu ++ gw) as Ep by solve_Permutation. pose proof (sep_perm _ _ _ Ep (ok_sep _ _ _ _ _ _ O)) as S.
    pose proof (apart_d0 g h ltac:(eapply sep_apart; [exact S|set_solver])). pose proof (sep_d0 _ _ g S ltac:(by left)). pose proof (sep_d0 _ _ h S ltac:(set_solver)). unfold desc_no in *. lia.
Qed.

Lemma panics_intr_one s free ga gt g gu gw : ok (set_lk false s) free ga gt (g :: gu) gw -> status_of s g <> Some 0 -> panics (intr_one (g_d0 g)) (fun _ => True) s.
Proof.
  intros O Hs. destruct (ok_done _ _ _ _ _ _ O g ltac:(by left)) as [_ _ _ _ (i & Ei & _) _]. cbn [set_lk w_q] in Ei. unfold status_of in Hs. rewrite Ei in Hs.
  unfold intr_one. apply panics_bind. eapply wp_info_at; [exact Ei|]. rewrite (proj2 (Z.eqb_neq (in_status i) 0)); [done|]. intros E. apply Hs. cbn. by rewrite E.
Qed.

(** The loop reads the descriptors of the completed requests in order. *)
Lemma intr_loop_head free ga gt g gu gw s fuel : ok (set_lk false s) free ga gt (g :: gu) gw ->
  intr_loop (S fuel) s = (intr_one (g_d0 g) ;; intr_loop fuel) s.
Proof.
  intros O. pose proof (ok_used _ _ _ _ _ _ O) as R. cbn [fmap list_fmap set_lk w_q] in R. destruct (ring_pop _ _ _ _ _ R) as (E & _ & Hne).
  cbn [intr_loop]. unfold mbind at 1, M_bind at 1, get_state. cbv zeta. rewrite (proj2 (Z.eqb_neq _ _) Hne), E. done.
Qed.

Lemma wp_intr_loop free ga gt : forall gu gw s fuel, ok (set_lk false s) free ga gt gu gw -> (forall g, g ∈ gu -> status_of s g = Some 0) -> (length gu <= fuel)%nat ->
  wp (intr_loop fuel) (fun _ s' => ok (set_lk false s') free ga gt [] (gw ++ gu) /\ same_data s s') s.
Proof.
  induction gu as [|g gu IH]; intros gw s fuel O Hs Hf.
  - pose proof (ring_empty _ _ _ (ok_used _ _ _ _ _ _ O)) as E. cbn [set_lk w_q] in E. destruct fuel; cbn [intr_loop]; apply wp_bind, wp_get_state; cbv zeta; rewrite E, Z.eqb_refl; apply wp_ret; by rewrite app_nil_r.
  - destruct fuel as [|fuel]; [cbn in Hf; lia|]. unfold wp. rewrite (intr_loop_head free ga gt g gu gw s fuel O). change (wp (intr_one (g_d0 g) ;; intr_loop fuel) (fun _ s' => ok (set_lk false s') free ga gt [] (gw ++ g :: gu) /\ same_data s s') s).
    apply wp_bind. eapply wp_mono; [apply (wp_intr_one s free ga gt g gu gw O); apply Hs; by left|]. intros [] s1 (O1 & D1 & H1).
    replace (gw ++ g :: gu) with ((gw ++ [g]) ++ gu) by (by rewrite <- app_assoc).
    eapply wp_mono; [apply (IH (gw ++ [g]) s1 fuel O1); [|cbn in Hf; lia]|]. { intros h Hh. rewrite H1 by done. apply Hs. by right. }
    intros [] s2 [O2 D2]. split; [done|]. by eapply same_data_trans.
Qed.

Lemma panics_intr_loop free ga gt : forall gu gw s fuel, ok (set_lk false s) free ga gt gu gw -> (exists g, g ∈ gu /\ status_of s g <> Some 0) -> (length gu <= fuel)%nat ->
  panics (intr_loop fuel) (fun _ => True) s.
Proof.
  induction gu as [|g gu IH]; intros gw s fuel O (h & Hh & Hs) Hf; [by apply elem_of_nil in Hh|].
  destruct fuel as [|fuel]; [cbn in Hf; lia|]. unfold panics. rewrite (intr_loop_head free ga gt g gu gw s fuel O). change (panics (intr_one (g_d0 g) ;; intr_loop fuel) (fun _ => True) s).
  destruct (decide (status_of s g = Some 0)) as [E|E]; [|by apply panics_bind_l; eapply panics_intr_one].
  apply panics_bind. eapply wp_mono; [by apply (wp_intr_one s free ga gt g gu gw O)|]. intros [] s1 (O1 & D1 & H1).
  apply (IH (gw ++ [g]) s1 fuel O1); [|cbn in Hf; lia]. apply elem_of_cons in Hh as [->|Hh]; [done|]. exists h. split; [done|]. by rewrite H1.
Qed.

Lemma ok_set_lk s free ga gt gu gw b : ok s free ga gt gu gw -> ok (set_lk false (set_lk b s)) free ga gt gu gw.
Proof. intros O. pose proof (ok_lk _ _ _ _ _ _ O) as E. replace (set_lk false (set_lk b s)) with s; [done|]. unfold set_lk. rewrite <- E. by destruct s. Qed.

Lemma intr_fuel s free ga gt gu gw : ok s free ga gt gu gw -> Z.to_nat (u16 (q_used_idx (w_q s) - q_last_used_idx (w_q s))) = length gu.
Proof.
  intros O. pose proof (ok_used _ _ _ _ _ _ O) as [R1 R2 R3 R4 R5]. rewrite length_fmap in R4, R2. rewrite R4. unfold u16, wrap. rewrite Zminus_mod_idemp_l.
  replace (q_last_used_idx (w_q s) + Z.of_nat (length gu) - q_last_used_idx (w_q s)) with (Z.of_nat (length gu)) by lia. rewrite Z.mod_small by lia. lia.
Qed.

(** The interrupt wakes the process of every completed request. *)
Lemma ok_intr s free ga gt gu gw : ok s free ga gt gu gw -> (forall g, g ∈ gu -> status_of s g = Some 0) -> wp virtio_blk_intr (fun _ s' => ok s' free ga gt [] (gw ++ gu) /\ same_data s s') s.
Proof.
  intros O Hs. unfold virtio_blk_intr. apply wp_bind, wp_get_state. rewrite (ok_lk _ _ _ _ _ _ O). apply wp_bind, wp_modify. apply wp_bind. rewrite (intr_fuel _ _ _ _ _ _ O).
  eapply wp_mono; [apply (wp_intr_loop free ga gt gu gw (set_lk true s)); [by apply ok_set_lk|exact Hs|done]|]. intros [] s' [O' D']. apply wp_modify. done.
Qed.

Lemma panics_intr s free ga gt gu gw : ok s free ga gt gu gw -> (exists g, g ∈ gu /\ status_of s g <> Some 0) -> panics virtio_blk_intr (fun _ => True) s.
Proof.
  intros O Hs. unfold virtio_blk_intr. apply panics_bind, wp_get_state. rewrite (ok_lk _ _ _ _ _ _ O). apply panics_bind, wp_modify. apply panics_bind_l. rewrite (intr_fuel _ _ _ _ _ _ O).
  apply (panics_intr_loop free ga gt gu gw (set_lk true s)); [by apply ok_set_lk|exact Hs|done].
Qed.

(** The completed requests the interrupt has not seen, and whether the device has
    reported success for all of them. *)
Definition pending (q : virtq) : list Z :=
  (fun k => default 0 (q_used q !! Z.to_nat ((q_last_used_idx q + Z.of_nat k) mod NQUEUE))) <$> seq 0 (Z.to_nat (u16 (q_used_idx q - q_last_used_idx q))).
Definition succeeded (q : virtq) (d : Z) : bool := match q_info q !! Z.to_nat d with Some i => in_status i =? 0 | None => false end.
Definition no_error (q : virtq) : bool := forallb (succeeded q) (pending q).

Lemma pending_done s free ga gt gu gw : ok s free ga gt gu gw -> pending (w_q s) = g_d0 <$> gu.
Proof.
  intros O. unfold pending. rewrite (intr_fuel _ _ _ _ _ _ O). apply list_eq. intros k. rewrite !list_lookup_fmap. destruct (gu !! k) as [g|] eqn:E.
  - rewrite lookup_seq_lt by (by eapply lookup_lt_Some). cbn. rewrite (rh_at _ _ _ _ (ok_used _ _ _ _ _ _ O) k (g_d0 g)); [done|]. by rewrite list_lookup_fmap, E.
  - apply lookup_ge_None in E. by rewrite lookup_seq_ge.
Qed.

Lemma no_error_spec s free ga gt gu gw : ok s free ga gt gu gw ->
  if no_error (w_q s) then forall g, g ∈ gu -> status_of s g = Some 0 else exists g, g ∈ gu /\ status_of s g <> Some 0.
Proof.
  intros O. unfold no_error. rewrite (pending_done _ _ _ _ _ _ O).
  assert (forall g, succeeded (w_q s) (g_d0 g) = true <-> status_of s g = Some 0) as Hg.
  { intros g. unfold succeeded, status_of. destruct (q_info (w_q s) !! _) as [i|]; [|done]. cbn. rewrite Z.eqb_eq. split; [by intros ->|by intros [= ->]]. }
  clear O. induction gu as [|g gu IH]; cbn; [intros g Hg'; by apply elem_of_nil in Hg'|]. destruct (succeeded (w_q s) (g_d0 g)) eqn:E; cbn.
  - apply Hg in E. destruct (forallb _ _).
    + intros h [->|Hh]%elem_of_cons; auto.
    + destruct IH as (h & Hh & Hs). exists h. split; [by right|done].
  - exists g. split; [by left|]. rewrite <- Hg. by rewrite E.
Qed.

(** ** The end of a request *)

Lemma sep_pop free g gs : sep free (g :: gs) -> sep (g_d0 g :: g_d1 g :: g_d2 g :: free) gs.
Proof.
  intros [S1 S2 S3 S4 S5 S6]. change ((g :: gs) ≫= g_descs) with (g_descs g ++ (gs ≫= g_descs)) in S1, S2. cbn [fmap list_fmap] in *.
  apply NoDup_cons in S4 as [_ S4]. apply NoDup_cons in S5 as [_ S5]. apply NoDup_cons in S6 as [_ S6]. apply Forall_app in S2 as [_ S2]. split; try done.
  - eapply NoDup_Permutation_proper; [|exact S1]. unfold g_descs. solve_Permutation.
  - cbn [length] in *. lia.
Qed.

Lemma ok_finish s free ga gt gu gw1 g gw2 : ok s free ga gt gu (gw1 ++ g :: gw2) ->
  wp (finish (g_p g)) (fun r s' => r = 0 /\ ok s' (g_d0 g :: g_d1 g :: g_d2 g :: free) ga gt gu (gw1 ++ gw2) /\ same_data s s' /\ w_procs s' = delete (g_p g) (w_procs s)) s.
Proof.
  intros [O1 O2 O3 O4 O5 O6 O7 O8 O9 O10 O11]. assert (ga ++ gt ++ gu ++ gw1 ++ g :: gw2 ≡ₚ g :: ga ++ gt ++ gu ++ gw1 ++ gw2) as Ep by solve_Permutation.
  pose proof (sep_perm _ _ _ Ep O4) as S. pose proof (sep_range_of _ _ g S ltac:(by left)) as Rg. pose proof (sep_d0 _ _ g S ltac:(by left)) as Hd.
  destruct (O10 g ltac:(set_solver)) as [M1 M2 (b & Eb & Hbn & Hsem) M4 (i & Ei & _) _]. unfold finish. apply wp_bind, wp_get_state, wp_bind. eapply wp_deref; [exact M4|]. cbn [r_data r_up r_d0].
  apply wp_bind. eapply wp_deref; [exact Eb|]. rewrite Hsem. apply wp_bind. eapply wp_deref; [reflexivity|]. cbv iota beta. apply wp_bind, wp_modify. cbn [negb].
  apply wp_bind, wp_get_state. cbn [set_bufs w_lk]. rewrite O1. apply wp_bind, wp_modify. apply wp_bind. eapply wp_info_at; [exact Ei|].
  apply wp_bind, wp_on_q. unfold put_info. apply wp_modify. apply wp_bind, wp_on_q. cbn [set_q set_lk set_bufs w_q].
  assert (NoDup (g_d0 g :: g_d1 g :: g_d2 g :: free)) as Hnd. { pose proof (sp_descs _ _ (sep_pop _ _ _ S)) as H. by apply NoDup_app in H as [? _]. }
  assert (length free <= 13)%nat as Hl by (pose proof (sp_count _ _ S) as H; cbn [length] in H; lia).
  set (q1 := set_info _ _). assert (free_ok q1 free) as F1 by (destruct O2 as [F1 F2 F3 F4 F5]; by split).
  eapply (wp_free_desc base q1 free (g_read g) (g_hdr g) (g_data g) (g_d0 g) (g_d1 g) (g_d2 g)); try done; [by destruct M1|]. intros h x q' F'.
  apply wp_bind, wp_modify, wp_bind, wp_modify, wp_ret. cbn [set_q set_lk set_bufs w_procs]. split; [done|]. set (s' := set_procs _ _).
  assert (forall woken h, h ∈ ga ++ gt ++ gu ++ gw1 ++ gw2 -> mem_ok s woken h -> mem_ok s' woken h) as Hothers.
  { intros woken h' Hh Mh. eapply (mem_ok_apart s s' g h'); try done; [by eapply sep_apart|by eapply (sep_d0 _ _ h' S); right| | | | |by eapply (sep_range_of _ _ h' S); right]; unfold s'.
    - intros d Hn Hdn. cbn [set_procs set_lk set_q w_q]. unfold q', q1. cbn [set_free set_desc set_info q_desc]. apply list_lookup_insert_ne.
      assert (desc_no (g_d2 g)) as H2 by (rewrite Forall_forall in Rg; apply Rg; unfold g_descs; set_solver). assert (d <> g_d2 g) by (intros ->; apply Hn; unfold g_descs; set_solver).
      unfold desc_no in *. lia.
    - intros a Ha. cbn [set_procs set_lk set_q set_bufs w_bufs]. by rewrite lookup_insert_ne.
    - intros p Hp. cbn [set_procs w_procs]. by rewrite lookup_delete_ne.
    - intros d Hd' Hdn. cbn [set_procs set_lk set_q w_q]. unfold q', q1. cbn [set_free set_desc set_info q_info]. unfold desc_no in *. by rewrite list_lookup_insert_ne by lia. }
  split; [|split; [|done]].
  2: { split; [done|]. intros a. unfold s'. cbn [set_procs set_lk set_q set_bufs w_bufs]. destruct (decide (a = g_data g)) as [->|]; [by rewrite lookup_insert_eq, Eb|by rewrite lookup_insert_ne]. }
  split; try done.
  - unfold s'. cbn [set_procs set_lk set_q w_q]. unfold q', q1. cbn [set_free set_desc set_info q_info]. by rewrite length_insert.
  - by apply sep_pop.
  - intros h' Hh. apply Hothers; [set_solver|by apply O8].
  - intros h' Hh. apply Hothers; [set_solver|by apply O9].
  - intros h' Hh. apply Hothers; [set_solver|]. apply O10. set_solver.
  - intros p r Hp. unfold s' in Hp. cbn [set_procs w_procs] in Hp. apply lookup_delete_Some in Hp as [Hne Hp]. destruct (O11 p r Hp) as (h' & Hh & E). exists h'. split; [|done].
    rewrite Ep in Hh. apply elem_of_cons in Hh as [->|Hh]; [congruence|done].
Qed.

(** ** Every interleaving *)

Definition virtio_start (disk : Z -> list Z) : W := mkW false (match virtq_init (mkVirtq [] [] 0 [] 0 0 0 0 []) with Done _ q => q | _ => mkVirtq [] [] 0 [] 0 0 0 0 [] end) ∅ ∅ ∅ disk 0 [].

Lemma ok_start disk : ok (virtio_start disk) (seqZ 0 16) [] [] [] [].
Proof.
  split; try done.
  - split.
    + vm_compute. reflexivity.
    + vm_compute. repeat (split; [eexists; split_and!; reflexivity|]). done.
    + intros a rest [= <- _]. vm_compute. reflexivity.
    + split; vm_compute; [reflexivity|repeat constructor].
    + apply Forall_seqZ. unfold desc_no, NQUEUE. lia.
  - split; try done; try apply NoDup_nil_2. cbn [app mbind list_bind]. rewrite app_nil_r. apply NoDup_seqZ.
  - split; try done; cbn; lia.
  - split; try done; cbn; lia.
  - intros g Hg. by apply elem_of_nil in Hg.
  - intros g Hg. by apply elem_of_nil in Hg.
  - intros g Hg. by apply elem_of_nil in Hg.
Qed.

Definition safe (s : W) : Prop := exists free ga gt gu gw, ok s free ga gt gu gw.

Lemma in_flight s free ga gt gu gw : ok s free ga gt gu gw -> size (w_procs s) = length (ga ++ gt ++ gu ++ gw).
Proof.
  intros O. set (gs := ga ++ gt ++ gu ++ gw). assert (dom (w_procs s) = list_to_set (g_p <$> gs)) as E.
  { apply set_eq. intros p. rewrite elem_of_dom, elem_of_list_to_set, list_elem_of_fmap. split.
    - intros [r Hr]. destruct (ok_procs _ _ _ _ _ _ O p r Hr) as (g & Hg & <-). eauto.
    - intros (g & -> & Hg). unfold gs in Hg. rewrite !elem_of_app in Hg. destruct Hg as [Hg|[Hg|[Hg|Hg]]].
      + eexists. apply (ok_queued _ _ _ _ _ _ O). set_solver.
      + eexists. apply (ok_queued _ _ _ _ _ _ O). set_solver.
      + eexists. by apply (ok_done _ _ _ _ _ _ O).
      + eexists. by apply (ok_woken _ _ _ _ _ _ O). }
  rewrite <- size_dom, E, size_list_to_set; [by rewrite length_fmap|]. apply (ok_sep _ _ _ _ _ _ O).
Qed.

(** A woken process is among those whose request is complete. *)
Lemma woken_request s free ga gt gu gw p r : ok s free ga gt gu gw -> w_procs s !! p = Some r -> r_up r = true -> exists gw1 g gw2, gw = gw1 ++ g :: gw2 /\ g_p g = p.
Proof.
  intros O Hp Hu. destruct (ok_procs _ _ _ _ _ _ O p r Hp) as (g & Hg & <-). rewrite !elem_of_app in Hg. destruct Hg as [Hg|[Hg|[Hg|Hg]]].
  - destruct (ok_queued _ _ _ _ _ _ O g ltac:(set_solver)) as [_ _ _ E _ _]. rewrite Hp in E. by injection E as ->.
  - destruct (ok_queued _ _ _ _ _ _ O g ltac:(set_solver)) as [_ _ _ E _ _]. rewrite Hp in E. by injection E as ->.
  - destruct (ok_done _ _ _ _ _ _ O g Hg) as [_ _ _ E _ _]. rewrite Hp in E. by injection E as ->.
  - apply list_elem_of_split in Hg as (l1 & l2 & ->). eauto.
Qed.

Lemma taken_request s free ga gt gu gw h : ok s free ga gt gu gw -> h ∈ w_taken s -> exists gt1 g gt2, gt = gt1 ++ g :: gt2 /\ g_d0 g = h.
Proof.
  intros O Hh. rewrite (ok_taken _ _ _ _ _ _ O) in Hh. apply list_elem_of_fmap in Hh as (g & -> & Hg). apply list_elem_of_split in Hg as (l1 & l2 & ->). eauto.
Qed.

Lemma wp_done_eq {S A} (c : M S A) P s a s' : wp c P s -> c s = Done a s' -> P a s'.
Proof. unfold wp. intros H E. by rewrite E in H. Qed.

Lemma submit_panics s free ga gt gu gw p hdr data buf : ok s free ga gt gu gw -> (length free < 3)%nat -> panics (submit base p hdr data) (fun _ => True) (set_bufs (<[data := buf]> (w_bufs s)) s).
Proof.
  intros O Hl. unfold submit. apply panics_bind, wp_get_state, panics_bind. eapply wp_deref; [cbn [set_bufs w_bufs]; apply lookup_insert_eq|]. cbv zeta. apply panics_bind, wp_modify.
  cbn [set_bufs w_lk]. rewrite (ok_lk _ _ _ _ _ _ O). apply panics_bind, wp_modify. apply panics_bind_l.
  assert (NoDup free) as Hnd by (pose proof (sp_descs _ _ (ok_sep _ _ _ _ _ _ O)) as H; by apply NoDup_app in H as [? _]).
  pose proof (queue_request_panics base (negb (has (b_flags buf) B_DIRTY)) hdr data (w_q s) free (ok_free _ _ _ _ _ _ O) Hnd Hl) as H. unfold panics, on_q, zoom in *. cbn [set_lk set_hdrs set_bufs w_q].
  by destruct (queue_request base _ hdr data (w_q s)).
Qed.

(** The device reports success only for a sector it has. *)
Lemma run_reports s free ga gt1 g gt2 gu gw st junk s' : ok s free ga (gt1 ++ g :: gt2) gu gw -> dev_run base capacity (g_d0 g) st junk s = Some s' -> reports (g_block g) st = true.
Proof.
  intros O E. destruct (ok_queued _ _ _ _ _ _ O g ltac:(set_solver)) as [[C0 C1 C2] M2 M3 M4 M5 [M6 M7]].
  unfold dev_run in E. destruct (decide _); [|done]. rewrite C0 in E. cbn [mbind option_bind d_next d_addr] in E. rewrite C1 in E. cbn [mbind option_bind d_next d_addr] in E. rewrite C2 in E. cbn [mbind option_bind d_next d_addr] in E.
  rewrite (P2V_V2P (g_hdr g)), (P2V_V2P (g_data g)) in E by done. rewrite M2 in E. cbn [mbind option_bind] in E. destruct M3 as (b & Eb & _). rewrite Eb in E. cbn [mbind option_bind] in E. destruct (q_info _ !! _); [|done]. cbn [mbind option_bind h_sector] in E.
  unfold reports. destruct ((st =? 0) && (0 <=? g_block g) && (g_block g <? capacity) || (0 <? st) && (st <? 256)); [done|]. rewrite !andb_false_r in E. done.
Qed.

Lemma safe_step s s' : safe s -> step base capacity s s' -> safe s'.
Proof.
  intros (free & ga & gt & gu & gw & O) St. destruct St as [p hdr data b s' Hp Hf Kh Kd E|s' E|h st junk s' E|s' E|p r s' Hp Hu E].
  - destruct (decide (length free < 3)%nat) as [Hl|Hl].
    { pose proof (submit_panics s free ga gt gu gw p hdr data b O Hl) as H. unfold panics in H. by rewrite E in H. }
    destruct free as [|x0 [|x1 [|x2 free]]]; try (cbn in Hl; lia). pose proof (ok_submit s x0 x1 x2 free ga gt gu gw p hdr data b O (conj Hp (conj Hf (conj Kh Kd)))) as H.
    apply (wp_done_eq _ _ _ _ _ H) in E as [O' _]. eexists _, _, _, _, _; eassumption.
  - destruct ga as [|g ga].
    + pose proof (ring_empty _ _ _ (ok_avail _ _ _ _ _ _ O)) as Ee. unfold dev_take in E. by rewrite Ee, Z.eqb_refl in E.
    + destruct (ok_take _ _ _ _ _ _ _ O) as (s1 & E1 & O1). rewrite E in E1. injection E1 as ->. eexists _, _, _, _, _; eassumption.
  - assert (h ∈ w_taken s) as Hh by (unfold dev_run in E; by destruct (decide (h ∈ w_taken s))). destruct (taken_request _ _ _ _ _ _ _ O Hh) as (gt1 & g & gt2 & -> & <-).
    assert (reports (g_block g) st = true) as Hst by (by eapply run_reports).
    destruct (ok_run st junk _ _ _ _ _ _ _ _ O Hst) as (b & i & _ & _ & E1 & O1). rewrite E in E1. injection E1 as ->. eexists _, _, _, _, _; eassumption.
  - pose proof (no_error_spec _ _ _ _ _ _ O) as Hn. destruct (no_error (w_q s)).
    2: { pose proof (panics_intr _ _ _ _ _ _ O Hn) as H. unfold panics in H. by rewrite E in H. }
    pose proof (ok_intr _ _ _ _ _ _ O Hn) as H. apply (wp_done_eq _ _ _ _ _ H) in E as [O' _]. eexists _, _, _, _, _; eassumption.
  - destruct (woken_request _ _ _ _ _ _ _ _ O Hp Hu) as (gw1 & g & gw2 & -> & <-). pose proof (ok_finish _ _ _ _ _ _ _ _ O) as H. apply (wp_done_eq _ _ _ _ _ H) in E as (_ & O' & _). eexists _, _, _, _, _; eassumption.
Qed.

Lemma safe_reachable disk s : rtc (step base capacity) (virtio_start disk) s -> safe s.
Proof.
  intros H. assert (safe (virtio_start disk)) as H0 by (eexists _, _, _, _, _; apply ok_start). revert H0. induction H as [|a b c Hab _ IH]; [done|]. intros Ha. apply IH. by eapply safe_step.
Qed.

(** What the device does for the request of process [r]. *)
Definition transfer (r : Req) (s s' : W) : Prop :=
  exists b hd, w_bufs s !! r_data r = Some b /\ w_hdrs s !! r_hdr r = Some hd /\ h_sector hd = b_block_no b /\
    if h_type hd =? VIRTIO_BLK_T_IN then w_disk s' = w_disk s /\ w_bufs s' = <[r_data r := mkBuf (b_flags b) (w_disk s (b_block_no b)) (b_block_no b) (b_sem b)]> (w_bufs s)
    else w_bufs s' = w_bufs s /\ w_disk s' = fun n => if n =? b_block_no b then b_data b else w_disk s n.

(** A chain the device has taken is the request of a process: with success its
    block is moved, with an error the next interrupt panics. *)
Definition served_right (h : Z) (s : W) : Prop :=
  exists p r b, w_procs s !! p = Some r /\ r_d0 r = h /\ w_bufs s !! r_data r = Some b /\
    (0 <= b_block_no b < capacity -> forall junk, exists s', dev_run base capacity h 0 junk s = Some s' /\ transfer r s s') /\
    (forall st junk, 0 < st < 256 -> exists s', dev_run base capacity h st junk s = Some s' /\ panics virtio_blk_intr (fun _ => True) s').

Lemma run_served s free ga gt gu gw h : ok s free ga gt gu gw -> h ∈ w_taken s -> served_right h s.
Proof.
  intros O Hh. destruct (taken_request _ _ _ _ _ _ _ O Hh) as (gt1 & g & gt2 & -> & <-). pose proof (ok_queued _ _ _ _ _ _ O g ltac:(set_solver)) as [M1 M2 (b & Eb & Hbn & _) M4 _ _].
  eexists _, _, b. split; [exact M4|]. split; [done|]. split; [exact Eb|]. split.
  - intros Hc junk. assert (reports (g_block g) 0 = true) as Hst by (unfold reports; rewrite <- Hbn, (proj2 (Z.leb_le 0 _)), (proj2 (Z.ltb_lt _ capacity)) by lia; done).
    destruct (ok_run 0 junk _ _ _ _ _ _ _ _ O Hst) as (b' & i & Eb' & _ & E & _). rewrite Eb in Eb'. injection Eb' as <-. eexists. split; [exact E|].
    exists b, (mkHdr (if g_read g then VIRTIO_BLK_T_IN else VIRTIO_BLK_T_OUT) 0 (g_block g)). cbn [r_data r_hdr h_sector h_type]. split_and!; [done|done|done|].
    unfold run_effect. cbn [Z.eqb]. destruct (g_read g); cbn; rewrite Hbn; done.
  - intros st junk Hr. assert (reports (g_block g) st = true) as Hst by (unfold reports; rewrite (proj2 (Z.ltb_lt 0 st)), (proj2 (Z.ltb_lt st 256)) by lia; apply orb_true_r).
    destruct (ok_run st junk _ _ _ _ _ _ _ _ O Hst) as (b' & i & _ & _ & E & O'). eexists. split; [exact E|]. eapply panics_intr; [exact O'|]. exists g. split; [set_solver|].
    rewrite completed_status; [intros [= ->]; lia|apply (ok_infos _ _ _ _ _ _ O)|]. apply (sep_d0 _ _ g (ok_sep _ _ _ _ _ _ O)). set_solver.
Qed.
End safe.

(** C9: Whatever the order in which processes submit requests, the device takes and
    completes them, its interrupt arrives and processes run again: at most five
    requests are in flight; when the device has reported success for every
    completed request, the interrupt handler ends without a panic, leaves no
    completed request behind and changes no data, and when it has reported an
    error for one of them the handler panics; a process that the handler has woken
    always ends its request with 0, gives its descriptors back and changes no
    data; and every chain the device has taken is the well-formed request of one
    process: when the disk has the sector and the device succeeds, it moves
    exactly the block of that process's buffer, to the buffer for a read and to
    the disk for a write; when it reports an error, the next interrupt panics.
    (A process that is killed while it waits is not woken by the handler; it
    panics in [virtio_blk_rw].) *)
Theorem virtio_protocol base capacity disk s :
  KERNEL_BASE <= base /\ base + 256 <= 2 ^ 64 -> rtc (step base capacity) (virtio_start disk) s ->
  (size (w_procs s) <= 5)%nat /\
  (if no_error (w_q s) then wp virtio_blk_intr (fun _ s' => q_last_used_idx (w_q s') = q_used_idx (w_q s') /\ same_data s s') s
   else panics virtio_blk_intr (fun _ => True) s) /\
  (forall p r, w_procs s !! p = Some r -> r_up r = true -> wp (finish p) (fun v s' => v = 0 /\ q_nfree (w_q s') = q_nfree (w_q s) + 3 /\ w_procs s' = delete p (w_procs s) /\ same_data s s') s) /\
  (forall h, h ∈ w_taken s -> served_right base capacity h s).
Proof.
  intros Hb Hr. destruct (safe_reachable base capacity Hb disk s Hr) as (free & ga & gt & gu & gw & O). split_and!.
  - rewrite (in_flight base Hb _ _ _ _ _ _ O). by apply (sep_in_flight free), (ok_sep _ _ _ _ _ _ _ O).
  - pose proof (no_error_spec base _ _ _ _ _ _ O) as Hn. destruct (no_error (w_q s)); [|by apply (panics_intr base Hb _ _ _ _ _ _ O)].
    eapply wp_mono; [by apply (ok_intr base Hb _ _ _ _ _ _ O)|]. intros [] s' [O' D]. split; [|done]. apply (ring_empty _ _ _ (ok_used _ _ _ _ _ _ _ O')).
  - intros p r Hp Hu. destruct (woken_request base Hb _ _ _ _ _ _ _ _ O Hp Hu) as (gw1 & g & gw2 & -> & <-). eapply wp_mono; [by apply (ok_finish base Hb _ _ _ _ _ _ _ _ O)|].
    intros v s' (-> & O' & D & Ed). split; [done|]. split; [|done]. pose proof (fr_count _ _ (ok_free _ _ _ _ _ _ _ O)) as [-> _]. pose proof (fr_count _ _ (ok_free _ _ _ _ _ _ _ O')) as [-> _]. cbn [length]. lia.
  - intros h Hh. by apply (run_served base capacity Hb _ _ _ _ _ _ _ O).
Qed.

(** C39: A process may submit a request whenever fewer than five are in flight: it
    goes to sleep with its request in the ring, and no data has moved. With five in
    flight only one of the sixteen descriptors is free, and the sixth request
    panics. *)
Theorem virtio_submit base capacity disk s p hdr data buf :
  KERNEL_BASE <= base /\ base + 256 <= 2 ^ 64 -> rtc (step base capacity) (virtio_start disk) s -> fresh_for s p hdr data ->
  let s0 := set_bufs (<[data := buf]> (w_bufs s)) s in
  if decide (size (w_procs s) < 5)%nat then
    wp (submit base p hdr data) (fun _ s' => (exists d0, w_procs s' = <[p := mkReq d0 hdr data false]> (w_procs s)) /\ q_avail_idx (w_q s') = u16 (q_avail_idx (w_q s) + 1) /\ same_data s0 s') s0
  else panics (submit base p hdr data) (fun _ => True) s0.
Proof.
  intros Hb Hr Hf s0. destruct (safe_reachable base capacity Hb disk s Hr) as (free & ga & gt & gu & gw & O). pose proof (sp_count _ _ (ok_sep _ _ _ _ _ _ _ O)) as Hc.
  rewrite <- (in_flight base Hb _ _ _ _ _ _ O) in Hc. destruct (decide (size (w_procs s) < 5)%nat) as [Hl|Hl].
  - destruct free as [|a [|b [|c free]]]; try (cbn in Hc; lia). pose proof (ok_submit base Hb s a b c free ga gt gu gw p hdr data buf O Hf) as Hw. cbv zeta in Hw.
    eapply wp_mono; [exact Hw|]. intros [] s' (O' & D & Eb & Ep & Ea). split_and!; [by eexists|done|].
    split; [done|]. intros x. rewrite Eb. unfold s0. cbn [set_bufs w_bufs]. destruct (decide (x = data)) as [->|]; [by rewrite !lookup_insert_eq|by rewrite !lookup_insert_ne].
  - eapply submit_panics; [exact O|lia].
Qed.

(** ** One request at a time *)

Definition opt {S A} (o : outcome S A) : option S := match o with Done _ s => Some s | _ => None end.

(** A call of [virtio_blk_rw] by process [p], served at once: submitted, taken, run
    with the status [st], signalled and finished; the buffer afterwards. *)
Definition serve (base capacity p hdr data st : Z) (junk : list Z) (buf : Buf) (s : W) : option (Buf * W) :=
  s ← opt (submit base p hdr data (set_bufs (<[data := buf]> (w_bufs s)) s));
  s ← dev_take s;
  h ← head (w_taken s);
  s ← dev_run base capacity h st junk s;
  s ← opt (virtio_blk_intr s);
  s ← opt (finish p s);
  b ← w_bufs s !! data;
  Some (b, s).

Lemma wp_opt {S A} (c : M S A) P s : wp c P s -> exists a s', opt (c s) = Some s' /\ P a s'.
Proof. unfold wp. destruct (c s); [|done..]. intros H. eauto. Qed.

Lemma panics_opt {S A} (c : M S A) P s : panics c P s -> opt (c s) = None.
Proof. unfold panics. by destruct (c s). Qed.

Lemma quiet_procs base s free : ok base s free [] [] [] [] -> w_procs s = ∅.
Proof.
  intros O. apply map_empty. intros p. destruct (w_procs s !! p) as [r|] eqn:E; [|done]. destruct (ok_procs _ _ _ _ _ _ _ O p r E) as (g & Hg & _). by apply elem_of_nil in Hg.
Qed.

Lemma procs_quiet base s free ga gt gu gw : KERNEL_BASE <= base /\ base + 256 <= 2 ^ 64 -> ok base s free ga gt gu gw -> w_procs s = ∅ -> ok base s free [] [] [] [].
Proof.
  intros Hb O E. pose proof (in_flight base Hb _ _ _ _ _ _ O) as H. rewrite E, map_size_empty in H. rewrite !length_app in H.
  destruct ga, gt, gu, gw; try (cbn in H; lia). done.
Qed.

(** One request on a quiet device: its block is moved, or the kernel panics. *)
Lemma served base capacity s free p hdr data st junk buf : KERNEL_BASE <= base /\ base + 256 <= 2 ^ 64 -> ok base s free [] [] [] [] -> fresh_for s p hdr data -> reports capacity (b_block_no buf) st = true ->
  if st =? 0 then exists b' s' free', serve base capacity p hdr data st junk buf s = Some (b', s') /\ ok base s' free' [] [] [] [] /\ w_procs s' = ∅ /\
    (if has (b_flags buf) B_DIRTY then w_disk s' = (fun n => if n =? b_block_no buf then b_data buf else w_disk s n)
     else w_disk s' = w_disk s /\ b_data b' = w_disk s (b_block_no buf))
  else serve base capacity p hdr data st junk buf s = None.
Proof.
  intros Hb O Hf Hst. pose proof (sp_count _ _ (ok_sep _ _ _ _ _ _ _ O)) as Hc. destruct free as [|a [|b [|c free]]]; try (cbn in Hc; lia).
  pose proof (ok_submit base Hb s a b c free [] [] [] [] p hdr data buf O Hf) as Hw. cbv zeta in Hw. set (g := mkG _ _ _ _ _ _ _ _) in Hw. apply wp_opt in Hw as ([] & s1 & E1 & O1 & D1 & B1 & P1 & _).
  unfold serve. rewrite E1. cbn [mbind option_bind]. destruct (ok_take base Hb s1 free g [] [] [] [] O1) as (s2 & E2 & O2). rewrite E2. cbn [mbind option_bind].
  rewrite (ok_taken _ _ _ _ _ _ _ O2). cbn [fmap list_fmap app head mbind option_bind].
  destruct (ok_run base capacity Hb st junk s2 free [] [] g [] [] [] O2 Hst) as (bb & i & Eb & Hbn & E3 & O3). rewrite E3. cbn [mbind option_bind]. set (s3 := set_device _ _ _) in *.
  assert (status_of s3 g = Some st) as Hstat.
  { apply completed_status; [apply (ok_infos _ _ _ _ _ _ _ O2)|]. apply (sep_d0 _ _ g (ok_sep _ _ _ _ _ _ _ O2)). set_solver. }
  destruct (Z.eqb_spec st 0) as [->|Hne].
  2: { rewrite (panics_opt _ (fun _ => True)); [done|]. apply (panics_intr base Hb _ _ _ _ _ _ O3). exists g. split; [by left|]. rewrite Hstat. congruence. }
  pose proof (ok_intr base Hb _ _ _ _ _ _ O3 ltac:(intros h ->%list_elem_of_singleton; exact Hstat)) as H4. apply wp_opt in H4 as ([] & s4 & E4 & O4 & D4). rewrite E4. cbn [mbind option_bind].
  pose proof (ok_finish base Hb s4 free [] [] [] [] g [] O4) as H5. apply wp_opt in H5 as (r & s5 & E5 & -> & O5 & D5 & P5). change (g_p g) with p in E5, P5. rewrite E5. cbn [mbind option_bind].
  assert (s2 = set_device (w_seen s2) (w_taken s2) s1) as Es2.
  { unfold dev_take in E2. destruct (w_seen s1 =? q_avail_idx (w_q s1)); [done|]. destruct (q_avail (w_q s1) !! _); [|done]. cbn [mbind option_bind] in E2. by injection E2 as <-. }
  assert (w_bufs s1 !! data = Some bb) as Eb1 by (rewrite Es2 in Eb; exact Eb). rewrite B1, lookup_insert_eq in Eb1. injection Eb1 as <-.
  destruct D4 as [D4 D4'], D5 as [D5 D5']. pose proof (D5' data) as Hd. rewrite D4' in Hd.
  assert (exists d, b_data <$> w_bufs s3 !! data = Some d /\ (has (b_flags buf) B_DIRTY = false -> d = w_disk s (b_block_no buf))) as (d & Ed & Hdd).
  { unfold s3, run_effect. cbn [g_read g g_data g_block]. destruct (has (b_flags buf) B_DIRTY); cbn [negb set_device set_q set_disk set_bufs w_disk w_bufs].
    - rewrite Es2. cbn [set_device w_bufs]. rewrite B1, lookup_insert_eq. by eexists.
    - rewrite lookup_insert_eq. eexists. split; [done|]. intros _. rewrite Es2. cbn. by rewrite D1. }
  rewrite Ed in Hd. destruct (w_bufs s5 !! data) as [b'|]; [|done]. injection Hd as Hd. cbn [mbind option_bind].
  exists b', s5, (a :: b :: c :: free). split; [done|]. split; [exact O5|]. split; [by rewrite (quiet_procs _ _ _ O5)|].
  rewrite D5, D4. unfold s3, run_effect. cbn [g_read g g_data g_block]. destruct (has (b_flags buf) B_DIRTY) eqn:Edt; cbn [negb set_device set_q set_disk set_bufs w_disk w_bufs].
  - rewrite Es2. cbn [set_device w_disk]. by rewrite D1.
  - rewrite Es2. cbn [set_device w_disk]. rewrite D1. split; [done|]. rewrite Hd. by apply Hdd.
Qed.


(** ** Concrete instances *)

Definition example_base : Z := 0xFFFF000040080000.
Definition example_disk : Z -> list Z := fun n => replicate 512 (n mod 256).
Definition example_hdr : Z := 0xFFFF000040090000.
Definition example_data : Z := 0xFFFF000040091000.
Definition example_buf : Buf := sd_read_buf 1 (replicate 512 0).
Definition example_capacity : Z := 200000.
Definition example_first : W := let s := virtio_start example_disk in
  default s (opt (submit example_base 7 example_hdr example_data (set_bufs (<[example_data := example_buf]> (w_bufs s)) s))).

Lemma example_bounds : KERNEL_BASE <= example_base /\ example_base + 256 <= 2 ^ 64.
Proof. split; vm_compute; discriminate. Qed.

Lemma example_kernel a : 0xFFFF000040000000 <= a < 0xFFFF000050000000 -> kernel_address a.
Proof. unfold kernel_address, KERNEL_BASE. lia. Qed.

(** One process sleeps on its request. *)
Lemma example_reach : rtc (step example_base example_capacity) (virtio_start example_disk) example_first.
Proof.
  eapply rtc_once, (step_submit _ _ _ 7 example_hdr example_data example_buf); [done| | | |].
  - intros q r Hr. change (w_procs (virtio_start example_disk)) with (∅ : gmap Z Req) in Hr. by rewrite lookup_empty in Hr.
  - apply example_kernel. unfold example_hdr. lia.
  - apply example_kernel. unfold example_data. lia.
  - unfold example_first. cbv zeta. set (o := submit _ _ _ _ _).
    assert (match o with Done _ _ => true | _ => false end = true) as Ho by (vm_compute; reflexivity).
    clearbody o. destruct o as [[]| | |]; [reflexivity|discriminate..].
Qed.

Lemma virtio_protocol_witness : size (w_procs example_first) = 1%nat /\
  wp virtio_blk_intr (fun _ s' => q_last_used_idx (w_q s') = q_used_idx (w_q s') /\ same_data example_first s') example_first.
Proof.
  split; [vm_compute; reflexivity|]. destruct (virtio_protocol example_base example_capacity example_disk example_first example_bounds example_reach) as (_ & H & _).
  assert (no_error (w_q example_first) = true) as E by (vm_compute; reflexivity). rewrite E in H. exact H.
Defined.

Lemma virtio_submit_witness :
  let s0 := set_bufs (<[0xFFFF000040093000 := example_buf]> (w_bufs example_first)) example_first in
  wp (submit example_base 8 0xFFFF000040092000 0xFFFF000040093000) (fun _ s' =>
    (exists d0, w_procs s' = <[8 := mkReq d0 0xFFFF000040092000 0xFFFF000040093000 false]> (w_procs example_first)) /\
    q_avail_idx (w_q s') = u16 (q_avail_idx (w_q example_first) + 1) /\ same_data s0 s') s0.
Proof.
  assert (fresh_for example_first 8 0xFFFF000040092000 0xFFFF000040093000) as Hf.
  { assert (w_procs example_first = {[7 := mkReq 0 example_hdr example_data false]}) as E by (vm_compute; reflexivity). split_and!.
    - by rewrite E.
    - intros q r Hr. rewrite E in Hr. apply lookup_singleton_Some in Hr as [<- <-]. split; discriminate.
    - apply example_kernel. lia.
    - apply example_kernel. lia. }
  pose proof (virtio_submit example_base example_capacity example_disk example_first 8 0xFFFF000040092000 0xFFFF000040093000 example_buf example_bounds example_reach Hf) as H. cbv zeta in H.
  assert (size (w_procs example_first) = 1%nat) as Es by (vm_compute; reflexivity). destruct (decide (size (w_procs example_first) < 5)%nat) as [_|Hn]; [exact H|]. rewrite Es in Hn. lia.
Defined.

