(* ===== verification/Shell.v ===== *)
(** The command parser of the shell (src/user/sh/main.c).

    The line is a buffer of characters, none of them NUL, with the NUL behind
    it; a [char *] into it is an offset. Allocation ([malloc1]) is not
    modelled: a command is a value. In [parseexec] the redirections are
    wrapped around the exec command while its arguments are still being
    added; as a value it is built at the end. *)
From Stdlib Require Import ZArith Lia.
From stdpp Require Import base numbers list.
From S2P Require Import Prelude.

Inductive open_mode := O_RDONLY | O_WRONLY_CREAT.
Definition MAXARGS : nat := 10.

(** [struct execcmd] and the others; a word is its begin and its end. *)
Inductive cmd :=
| EXEC (argv : list (nat * nat))
| REDIR (c : cmd) (file : nat * nat) (mode : open_mode) (fd : Z)
| PIPE (left right : cmd)
| LIST (left right : cmd)
| BACK (c : cmd).

(** [" \t\r\n\v"] and ["<|>&;()"] *)
Definition whitespace : list Z := [32; 9; 13; 10; 11].
Definition symbols : list Z := [60; 124; 62; 38; 59; 40; 41].

(** [strchr(s, c)] for a [c] that is not NUL. *)
Definition strchr (s : list Z) (c : Z) : bool := existsb (Z.eqb c) s.

(** What a parsing function gives: a value, the PANIC of the shell, or the end
    of the fuel. *)
Inductive presult (A : Type) := POk (a : A) | PPanic | PFuel.
Arguments POk {A}.
Arguments PPanic {A}.
Arguments PFuel {A}.
#[export] Instance presult_ret : MRet presult := @POk.
#[export] Instance presult_bind : MBind presult := fun A B k r =>
  match r with POk a => k a | PPanic => PPanic | PFuel => PFuel end.

Section parse.
Context (buf : list Z).

(** [*s] *)
Definition char_at (s : nat) : Z := default 0 (buf !! s).

Fixpoint span (p : Z -> bool) (l : list Z) : nat :=
  match l with
  | [] => O
  | c :: l' => if p c then S (span p l') else O
  end.

(** [while (s < es && p( *s)) s++] *)
Definition skip (p : Z -> bool) (s : nat) : nat := (s + span p (drop s buf))%nat.
Definition skip_ws (s : nat) : nat := skip (strchr whitespace) s.

(** The token, [*q], [*eq] and the new [*ps]. *)
Definition gettoken (s : nat) : Z * nat * nat * nat :=
  let s := skip_ws s in
  let q := s in
  let c := char_at s in
  let '(ret, s) :=
    if c =? 0 then (c, s)
    else if strchr [124; 40; 41; 59; 38; 60] c then (c, S s)
    else if c =? 62 then (if char_at (S s) =? 62 then (43, S (S s)) else (c, S s))
    else (97, skip (fun x => negb (strchr whitespace x) && negb (strchr symbols x)) s) in
  let eq := s in
  (ret, q, eq, skip_ws s).

Definition after_token (s : nat) : nat := (gettoken s).2.

(** The test and the new [*ps]. *)
Definition peek (s : nat) (toks : list Z) : bool * nat :=
  let s := skip_ws s in
  (negb (char_at s =? 0) && strchr toks (char_at s), s).

Record redir := mkRedir { r_file : nat * nat; r_mode : open_mode; r_fd : Z }.
Definition redircmd (c : cmd) (r : redir) : cmd := REDIR c (r_file r) (r_mode r) (r_fd r).

(** The redirections found, in order. Each round takes two tokens. *)
Fixpoint parseredirs (fuel : nat) (s : nat) : presult (list redir * nat) :=
  let '(b, s) := peek s [60; 62] in
  if b then
    match fuel with
    | O => PFuel
    | S fuel' =>
        let '(tok, _, _, s) := gettoken s in
        let '(t, q, eq, s) := gettoken s in
        if negb (t =? 97) then PPanic
        else
          let r := if tok =? 60 then mkRedir (q, eq) O_RDONLY 0 else mkRedir (q, eq) O_WRONLY_CREAT 1 in
          rs ← parseredirs fuel' s; POk (r :: rs.1, rs.2)
    end
  else POk ([], s).

(** The loop of [parseexec]: arguments and redirections. *)
Fixpoint parseargs (fuel : nat) (argv : list (nat * nat)) (rs : list redir) (s : nat) :
    presult (list (nat * nat) * list redir * nat) :=
  let '(b, s) := peek s [124; 41; 38; 59] in
  if b then POk (argv, rs, s)
  else
    let '(tok, q, eq, s) := gettoken s in
    if tok =? 0 then POk (argv, rs, s)
    else if negb (tok =? 97) then PPanic
    else
      match fuel with
      | O => PFuel
      | S fuel' =>
          let argv := argv ++ [(q, eq)] in
          if (MAXARGS <=? length argv)%nat then PPanic
          else
            r ← parseredirs (length buf) s;
            parseargs fuel' argv (rs ++ r.1) r.2
      end.

(** [while (peek(ps, es, "&"))] of [parseline]. *)
Fixpoint parsebacks (fuel : nat) (c : cmd) (s : nat) : presult (cmd * nat) :=
  let '(b, s) := peek s [38] in
  if b then match fuel with O => PFuel | S fuel' => parsebacks fuel' (BACK c) (after_token s) end
  else POk (c, s).

Fixpoint parseline (fuel : nat) (s : nat) {struct fuel} : presult (cmd * nat) :=
  match fuel with
  | O => PFuel
  | S fuel' =>
      r ← parsepipe fuel' s;
      r ← parsebacks (length buf) r.1 r.2;
      let '(b, s) := peek r.2 [59] in
      if b then r2 ← parseline fuel' (after_token s); POk (LIST r.1 r2.1, r2.2)
      else POk (r.1, s)
  end
with parsepipe (fuel : nat) (s : nat) {struct fuel} : presult (cmd * nat) :=
  match fuel with
  | O => PFuel
  | S fuel' =>
      r ← parseexec fuel' s;
      let '(b, s) := peek r.2 [124] in
      if b then r2 ← parsepipe fuel' (after_token s); POk (PIPE r.1 r2.1, r2.2)
      else POk (r.1, s)
  end
with parseblock (fuel : nat) (s : nat) {struct fuel} : presult (cmd * nat) :=
  match fuel with
  | O => PFuel
  | S fuel' =>
      let '(b, s) := peek s [40] in
      if negb b then PPanic
      else
        r ← parseline fuel' (after_token s);
        let '(b, s) := peek r.2 [41] in
        if negb b then PPanic
        else
          rs ← parseredirs (length buf) (after_token s);
          POk (foldl redircmd r.1 rs.1, rs.2)
  end
with parseexec (fuel : nat) (s : nat) {struct fuel} : presult (cmd * nat) :=
  match fuel with
  | O => PFuel
  | S fuel' =>
      let '(b, s) := peek s [40] in
      if b then parseblock fuel' s
      else
        rs ← parseredirs (length buf) s;
        a ← parseargs (length buf) [] rs.1 rs.2;
        POk (foldl redircmd (EXEC a.1.1) a.1.2, a.2)
  end.
End parse.

(** The ends of the words in a command, where [nulterminate] writes a NUL. *)
Fixpoint ends (c : cmd) : list nat :=
  match c with
  | EXEC argv => snd <$> argv
  | REDIR c f _ _ => ends c ++ [f.2]
  | PIPE l r | LIST l r => ends l ++ ends r
  | BACK c => ends c
  end.

(** The memory of the line with its NUL, after [nulterminate]. *)
Definition nulterminate (c : cmd) (mem : list Z) : list Z := foldl (fun m e => <[e := 0]> m) mem (ends c).

(** Enough fuel for a line of [n] characters: between two tokens at most four
    calls nest. *)
Definition parse_fuel (n : nat) : nat := (4 * n + 4)%nat.

(** [parsecmd]: the command and the memory of the line. *)
Definition parsecmd (buf : list Z) : presult (cmd * list Z) :=
  r ← parseline buf (parse_fuel (length buf)) 0;
  let '(_, s) := peek buf r.2 [] in
  if (s =? length buf)%nat then POk (r.1, nulterminate r.1 (buf ++ [0])) else PPanic.

(** ** Tokens *)

Section tokens.
Context (buf : list Z) (Hbuf : Forall (fun c => c <> 0) buf).
Abbreviation len := (length buf).

Definition word_char (c : Z) : bool := negb (strchr whitespace c) && negb (strchr symbols c).

(** A word: not empty, and as long as it can be. *)
Definition word_ok (w : nat * nat) : Prop :=
  (w.1 < w.2 <= len)%nat /\ (forall i, (w.1 <= i < w.2)%nat -> word_char (char_at buf i) = true) /\
  (w.2 = len \/ word_char (char_at buf w.2) = false).

Lemma char_at_lt s : (s < len)%nat -> buf !! s = Some (char_at buf s) /\ char_at buf s <> 0.
Proof.
  intros Hs. unfold char_at. destruct (lookup_lt_is_Some_2 buf s Hs) as [c Hc]. rewrite Hc. split; [done|].
  rewrite Forall_lookup in Hbuf. by eapply Hbuf.
Qed.

Lemma char_at_zero s : (s <= len)%nat -> char_at buf s = 0 -> s = len.
Proof. intros Hs E. destruct (decide (s = len)) as [|Hne]; [done|]. destruct (char_at_lt s); [lia|done]. Qed.

Lemma span_spec p l :
  (span p l <= length l)%nat /\ (forall i, (i < span p l)%nat -> exists c, l !! i = Some c /\ p c = true) /\
  (span p l = length l \/ exists c, l !! span p l = Some c /\ p c = false).
Proof.
  induction l as [|c l (IH1 & IH2 & IH3)]; simpl; [split_and!; [lia|lia|by left]|].
  destruct (p c) eqn:E; simpl.
  - split_and!; [lia| |destruct IH3; [left; lia|by right]]. intros [|i] Hi; [by exists c|]. apply IH2. lia.
  - split_and!; [lia|lia|right; by exists c].
Qed.

Lemma skip_spec p s :
  (s <= len)%nat -> (s <= skip buf p s <= len)%nat /\ (forall i, (s <= i < skip buf p s)%nat -> p (char_at buf i) = true) /\
  (skip buf p s = len \/ p (char_at buf (skip buf p s)) = false).
Proof.
  intros Hs. unfold skip. destruct (span_spec p (drop s buf)) as (H1 & H2 & H3). rewrite length_drop in H1, H3. split_and!; [lia|lia| |].
  - intros i Hi. destruct (H2 (i - s)%nat) as (c & Hc & Hp); [lia|]. rewrite lookup_drop in Hc.
    replace (s + (i - s))%nat with i in Hc by lia. unfold char_at. by rewrite Hc.
  - destruct H3 as [H3|(c & Hc & Hp)]; [left; lia|right]. rewrite lookup_drop in Hc. unfold char_at. by rewrite Hc.
Qed.

Lemma skip_ws_spec s :
  (s <= len)%nat -> (s <= skip_ws buf s <= len)%nat /\
  (char_at buf (skip_ws buf s) = 0 \/ strchr whitespace (char_at buf (skip_ws buf s)) = false).
Proof.
  intros Hs. destruct (skip_spec (strchr whitespace) s Hs) as (H1 & _ & [H2|H2]); (split; [done|]); [left|by right].
  fold (skip_ws buf s) in H2. rewrite H2. unfold char_at. by rewrite lookup_ge_None_2.
Qed.

(** Where a token begins and ends. *)
Lemma gettoken_spec s t q eq s' :
  (s <= len)%nat -> gettoken buf s = (t, q, eq, s') ->
  (s <= q)%nat /\ (q <= eq)%nat /\ (eq <= s')%nat /\ (s' <= len)%nat /\
  (t <> 0 -> (q < eq)%nat) /\ (t = 97 -> word_ok (q, eq)) /\ q = skip_ws buf s /\ (t = 0 <-> char_at buf q = 0).
Proof.
  intros Hs E. unfold gettoken in E. destruct (skip_ws_spec s Hs) as [Hq Hws]. set (q0 := skip_ws buf s) in *.
  destruct (Z.eqb_spec (char_at buf q0) 0) as [E0|E0].
  { injection E as <- <- <- <-. destruct (skip_ws_spec q0) as [H1 _]; [lia|]. rewrite E0. split_and!; try lia; try done. }
  assert (q0 < len)%nat as Hlt.
  { destruct (decide (q0 = len)) as [Hl|]; [|lia]. rewrite Hl in E0. unfold char_at in E0. by rewrite lookup_ge_None_2 in E0. }
  destruct Hws as [|Hws]; [done|].
  assert (forall eq0 t0, (q0 < eq0 <= len)%nat -> t0 <> 97 -> t0 <> 0 -> (t0, q0, eq0, skip_ws buf eq0) = (t, q, eq, s') ->
    (s <= q)%nat /\ (q <= eq)%nat /\ (eq <= s')%nat /\ (s' <= len)%nat /\
    (t <> 0 -> (q < eq)%nat) /\ (t = 97 -> word_ok (q, eq)) /\ q = q0 /\ (t = 0 <-> char_at buf q = 0)) as Hsym.
  { intros eq0 t0 He Ht Ht0 [= <- <- <- <-]. destruct (skip_ws_spec eq0) as [H1 _]; [lia|]. split_and!; try lia; try done. }
  destruct (strchr [124; 40; 41; 59; 38; 60] (char_at buf q0)) eqn:Es.
  { eapply (Hsym (S q0) (char_at buf q0)); [lia| |done|exact E]. intros Ha. by rewrite Ha in Es. }
  destruct (Z.eqb_spec (char_at buf q0) 62) as [E62|E62].
  { destruct (Z.eqb_spec (char_at buf (S q0)) 62) as [E2|E2].
    - eapply (Hsym (S (S q0)) 43); [|done|done|exact E]. destruct (decide (S q0 = len)) as [Hl|]; [|lia].
      rewrite Hl in E2. unfold char_at in E2. by rewrite lookup_ge_None_2 in E2.
    - eapply (Hsym (S q0) (char_at buf q0)); [lia|lia|done|exact E]. }
  fold word_char in E. injection E as <- <- <- <-.
  assert (word_char (char_at buf q0) = true) as Hw.
  { unfold word_char. rewrite Hws. simpl. unfold strchr, symbols in *. cbn [existsb] in *.
    rewrite (proj2 (Z.eqb_neq _ 62) E62). rewrite !orb_false_iff in Es. destruct Es as (-> & -> & -> & -> & -> & -> & _). done. }
  destruct (skip_spec word_char q0) as (H1 & H2 & H3); [lia|]. set (e := skip buf word_char q0) in *.
  assert (q0 < e)%nat as Hqe.
  { destruct (decide (e = q0)) as [He|]; [|lia]. destruct H3 as [H3|H3]; [lia|]. rewrite He in H3. congruence. }
  destruct (skip_ws_spec e) as [H4 _]; [lia|]. split_and!; try lia; try done.
  intros _. unfold word_ok. cbn [fst snd]. split_and!; try lia; done.
Qed.

Lemma peek_spec s toks b s' :
  (s <= len)%nat -> peek buf s toks = (b, s') ->
  (s <= s' <= len)%nat /\ s' = skip_ws buf s /\ (b = true -> (s' < len)%nat /\ char_at buf s' <> 0).
Proof.
  intros Hs E. injection E as <- <-. destruct (skip_ws_spec s Hs) as [H _]. split_and!; try lia; try done.
  rewrite andb_true_iff, negb_true_iff, Z.eqb_neq. intros [H0 _]. split; [|done].
  destruct (decide (skip_ws buf s = len)) as [Hl|]; [|lia]. rewrite Hl in H0. unfold char_at in H0. by rewrite lookup_ge_None_2 in H0.
Qed.

(** Taking the token that [peek] saw. *)
Lemma after_token_spec s toks s' : 
  (s <= len)%nat -> peek buf s toks = (true, s') -> (s < after_token buf s' <= len)%nat.
Proof.
  intros Hs E. destruct (peek_spec s toks true s' Hs E) as (H1 & -> & H2). destruct H2 as [H2 H3]; [done|].
  unfold after_token. destruct (gettoken buf (skip_ws buf s)) as [[[t q] eq] s2] eqn:G. simpl.
  destruct (gettoken_spec _ _ _ _ _ (proj2 H1) G) as (G1 & G2 & G3 & G4 & G5 & _ & G6 & G7).
  enough (t <> 0) as Ht by (specialize (G5 Ht); lia).
  intros Ht. apply G7 in Ht. destruct (skip_ws_spec (skip_ws buf s)) as [_ _]; [lia|]. 
  assert (q < len)%nat as Hq; [|by destruct (char_at_lt q Hq)].
  destruct (decide (q = len)) as [Hl|]; [|lia]. exfalso.
  destruct (skip_spec (strchr whitespace) (skip_ws buf s)) as (K1 & K2 & _); [lia|].
  destruct (skip_ws_spec s Hs) as [_ [K3|K3]]; [done|].
  specialize (K2 (skip_ws buf s)). fold (skip_ws buf (skip_ws buf s)) in K2. rewrite <- G6 in K2.
  rewrite K2 in K3; [done|]. lia.
Qed.

(** ** The parser *)

(** The result of a parsing function started at [s]: it does not run out of
    fuel, it stops inside the line, and its words are words. *)
Definition good {A} (ok : A -> Prop) (s : nat) (r : presult (A * nat)) : Prop :=
  match r with
  | POk (a, s') => ok a /\ (s <= s' <= len)%nat
  | PPanic => True
  | PFuel => False
  end.

Fixpoint words (c : cmd) : list (nat * nat) :=
  match c with
  | EXEC argv => argv
  | REDIR c f _ _ => words c ++ [f]
  | PIPE l r | LIST l r => words l ++ words r
  | BACK c => words c
  end.
Definition cmd_ok (c : cmd) : Prop := Forall word_ok (words c).
Definition redirs_ok (rs : list redir) : Prop := Forall (fun r => word_ok (r_file r)) rs.

Lemma good_bind {A B} (ok : A -> Prop) (ok' : B -> Prop) s s0 r (k : A * nat -> presult (B * nat)) :
  good ok s r -> (forall a s', ok a -> (s <= s' <= len)%nat -> good ok' s0 (k (a, s'))) -> good ok' s0 (r ≫= k).
Proof. destruct r as [[a s']| |]; simpl; [|done..]. intros [Ha Hs] Hk. by apply Hk. Qed.

Lemma good_weaken {A} (ok : A -> Prop) s s' r : (s' <= s)%nat -> good ok s r -> good ok s' r.
Proof. destruct r as [[a s2]| |]; simpl; [|done..]. intros ? [? ?]. split; [done|lia]. Qed.

Lemma parseredirs_good fuel s :
  (s <= len)%nat -> (len - s <= fuel)%nat -> good redirs_ok s (parseredirs buf fuel s).
Proof.
  revert s. induction fuel as [|fuel IH]; intros s Hs Hf; cbn [parseredirs];
    destruct (peek buf s [60; 62]) as [b s1] eqn:Ep; destruct (peek_spec s _ b s1 Hs Ep) as (H1 & _ & H2); destruct b;
    try (simpl; split; [constructor|lia]).
  { destruct H2; [done|]. lia. }
  destruct (gettoken buf s1) as [[[t1 q1] e1] s2] eqn:G1. destruct (gettoken_spec _ _ _ _ _ (proj2 H1) G1) as (A1 & A2 & A3 & A4 & _).
  destruct (gettoken buf s2) as [[[t2 q2] e2] s3] eqn:G2. destruct (gettoken_spec _ _ _ _ _ A4 G2) as (B1 & B2 & B3 & B4 & B5 & B6 & _).
  destruct (Z.eqb_spec t2 97) as [->|]; cbn [negb]; [|done]. specialize (B5 ltac:(done)).
  eapply good_bind; [apply (IH s3); lia|]. intros rs s4 Hrs Hs4. simpl. split; [|lia].
  constructor; [|done]. destruct (t1 =? 60); by apply B6.
Qed.

Lemma parsebacks_good fuel c s :
  cmd_ok c -> (s <= len)%nat -> (len - s <= fuel)%nat -> good cmd_ok s (parsebacks buf fuel c s).
Proof.
  revert c s. induction fuel as [|fuel IH]; intros c s Hc Hs Hf; cbn [parsebacks];
    destruct (peek buf s [38]) as [b s1] eqn:Ep; destruct (peek_spec s _ b s1 Hs Ep) as (H1 & _ & H2); destruct b;
    try (simpl; split; [done|lia]).
  { destruct H2; [done|]. lia. }
  pose proof (after_token_spec s _ s1 Hs Ep). eapply good_weaken; [|apply IH; [done|lia|lia]]. lia.
Qed.

Lemma parseargs_good fuel argv rs s :
  Forall word_ok argv -> redirs_ok rs -> (s <= len)%nat -> (len - s <= fuel)%nat ->
  good (fun '(a, r) => Forall word_ok a /\ redirs_ok r) s (parseargs buf fuel argv rs s).
Proof.
  revert argv rs s. induction fuel as [|fuel IH]; intros argv rs s Ha Hr Hs Hf; cbn [parseargs];
    destruct (peek buf s [124; 41; 38; 59]) as [b s1] eqn:Ep; destruct (peek_spec s _ b s1 Hs Ep) as (H1 & _ & _); destruct b;
    try (simpl; split; [done|lia]);
    destruct (gettoken buf s1) as [[[t q] e] s2] eqn:G; destruct (gettoken_spec _ _ _ _ _ (proj2 H1) G) as (G1 & G2 & G3 & G4 & G5 & G6 & _);
    (destruct (Z.eqb_spec t 0) as [->|Ht]; [simpl; split; [done|lia]|]);
    (destruct (Z.eqb_spec t 97) as [->|]; cbn [negb]; [|done]); specialize (G5 Ht).
  { lia. }
  destruct (MAXARGS <=? length (argv ++ [(q, e)]))%nat; [done|].
  eapply good_bind; [apply (parseredirs_good len s2); lia|]. intros r s3 Hr3 Hs3. cbn [fst snd].
  eapply good_weaken; [|apply IH; [apply Forall_app; split; [done|constructor; [by apply G6|constructor]]|by apply Forall_app|lia|lia]]. lia.
Qed.

Lemma foldl_redirs c rs : cmd_ok c -> redirs_ok rs -> cmd_ok (foldl redircmd c rs).
Proof.
  intros Hc Hr. revert c Hc. induction Hr as [|r rs Hr _ IH]; intros c Hc; [done|]. simpl. apply IH.
  unfold cmd_ok in *. simpl. apply Forall_app. split; [done|constructor; [done|constructor]].
Qed.

Lemma parse_good fuel :
  (forall s, (s <= len)%nat -> (4 * (len - s) + 4 <= fuel)%nat -> good cmd_ok s (parseline buf fuel s)) /\
  (forall s, (s <= len)%nat -> (4 * (len - s) + 3 <= fuel)%nat -> good cmd_ok s (parsepipe buf fuel s)) /\
  (forall s, (s < len)%nat -> (4 * (len - s) + 1 <= fuel)%nat -> good cmd_ok s (parseblock buf fuel s)) /\
  (forall s, (s <= len)%nat -> (4 * (len - s) + 2 <= fuel)%nat -> good cmd_ok s (parseexec buf fuel s)).
Proof.
  induction fuel as [|fuel (IHl & IHp & IHb & IHe)]; [split_and!; intros; lia|]. split_and!; intros s Hs Hf.
  - cbn [parseline]. eapply good_bind; [apply (IHp s); lia|]. intros c s1 Hc Hs1. cbn [fst snd].
    eapply good_bind; [apply (parsebacks_good len c s1); [done|lia|lia]|]. intros c2 s2 Hc2 Hs2. cbn [fst snd].
    destruct (peek buf s2 [59]) as [b s3] eqn:Ep. destruct (peek_spec s2 _ b s3 ltac:(lia) Ep) as (H1 & _ & _).
    destruct b; [|simpl; split; [done|lia]]. pose proof (after_token_spec s2 _ s3 ltac:(lia) Ep).
    eapply good_bind; [apply (IHl (after_token buf s3)); lia|]. intros c4 s4 Hc4 Hs4. simpl. split; [|lia]. by apply Forall_app.
  - cbn [parsepipe]. eapply good_bind; [apply (IHe s); lia|]. intros c s1 Hc Hs1. cbn [fst snd].
    destruct (peek buf s1 [124]) as [b s2] eqn:Ep. destruct (peek_spec s1 _ b s2 ltac:(lia) Ep) as (H1 & _ & _).
    destruct b; [|simpl; split; [done|lia]]. pose proof (after_token_spec s1 _ s2 ltac:(lia) Ep).
    eapply good_bind; [apply (IHp (after_token buf s2)); lia|]. intros c4 s4 Hc4 Hs4. simpl. split; [|lia]. by apply Forall_app.
  - cbn [parseblock]. destruct (peek buf s [40]) as [b s1] eqn:Ep. destruct b; cbn [negb]; [|done].
    pose proof (after_token_spec s _ s1 ltac:(lia) Ep).
    eapply good_bind; [apply (IHl (after_token buf s1)); lia|]. intros c s2 Hc Hs2. cbn [fst snd].
    destruct (peek buf s2 [41]) as [b s3] eqn:Ep2. destruct b; cbn [negb]; [|done]. pose proof (after_token_spec s2 _ s3 ltac:(lia) Ep2).
    eapply good_bind; [apply (parseredirs_good len (after_token buf s3)); lia|]. intros rs s4 Hrs Hs4. simpl.
    split; [by apply foldl_redirs|lia].
  - cbn [parseexec]. destruct (peek buf s [40]) as [b s1] eqn:Ep. destruct (peek_spec s _ b s1 Hs Ep) as (H1 & _ & H2). destruct b.
    + destruct H2; [done|]. eapply good_weaken; [|apply IHb; lia]. lia.
    + eapply good_bind; [apply (parseredirs_good len s1); lia|]. intros rs s2 Hrs Hs2. cbn [fst snd].
      eapply good_bind; [apply (parseargs_good len [] rs s2); [constructor|done|lia|lia]|]. intros [a r] s3 [Ha Hr] Hs3. simpl.
      split; [by apply foldl_redirs|lia].
Qed.

(** ** The words of a command *)

(** The characters of a word. *)
Definition text (w : nat * nat) : list Z := slice w.1 (w.2 - w.1) buf.

(** The C string at [q]. *)
Fixpoint c_string (mem : list Z) : list Z :=
  match mem with [] => [] | c :: mem' => if c =? 0 then [] else c :: c_string mem' end.

Lemma ends_words c : ends c = snd <$> words c.
Proof. induction c; simpl; rewrite ?fmap_app; by repeat f_equal. Qed.

Lemma nulterminate_at (es : list nat) mem i :
  (forall e, e ∈ es -> (e < length mem)%nat) ->
  foldl (fun m e => <[e := 0]> m) mem es !! i = if decide (i ∈ es) then Some 0 else mem !! i.
Proof.
  revert mem. induction es as [|e es IH]; intros mem He; [by rewrite decide_False by apply not_elem_of_nil|]. simpl.
  rewrite IH by (intros x Hx; rewrite length_insert; apply He; by apply elem_of_cons; right).
  destruct (decide (i ∈ es)) as [Hi|Hi]; [rewrite decide_True by (by apply elem_of_cons; right); done|].
  destruct (decide (i = e)) as [->|Hne].
  - rewrite decide_True by (by apply elem_of_cons; left). rewrite list_lookup_insert_eq; [done|]. apply He. by apply elem_of_cons; left.
  - rewrite decide_False by (rewrite elem_of_cons; tauto). by rewrite list_lookup_insert_ne.
Qed.

(** No word has the end of another inside. *)
Lemma ends_apart ws w e : Forall word_ok ws -> word_ok w -> e ∈ (snd <$> ws) -> ~ (w.1 <= e < w.2)%nat.
Proof.
  intros Hws (H1 & H2 & _) He Hin. apply list_elem_of_fmap in He as (v & -> & Hv). rewrite Forall_forall in Hws.
  destruct (Hws v Hv) as (V1 & _ & V3). specialize (H2 _ Hin). destruct V3 as [V3|V3]; [lia|congruence].
Qed.

Lemma c_string_take n mem :
  (forall i, (i < n)%nat -> exists c, mem !! i = Some c /\ c <> 0) -> mem !! n = Some 0 -> c_string mem = take n mem.
Proof.
  revert mem. induction n as [|n IH]; intros [|c mem] Hi H0; try done.
  - simpl in *. injection H0 as ->. done.
  - destruct (Hi 0%nat) as (c' & Hc & Hn); [lia|]. injection Hc as <-. simpl. rewrite (proj2 (Z.eqb_neq c 0)) by done. f_equal.
    apply IH; [|done]. intros i Hlt. apply (Hi (S i)). lia.
Qed.

Lemma word_string c w : cmd_ok c -> w ∈ words c -> c_string (drop w.1 (nulterminate c (buf ++ [0]))) = text w.
Proof.
  intros Hc Hw. pose proof Hc as Hall. unfold cmd_ok in Hall. rewrite Forall_forall in Hall. destruct (Hall w Hw) as (W1 & W2 & W3).
  unfold nulterminate. rewrite ends_words.
  assert (forall e, e ∈ (snd <$> words c) -> (e < length (buf ++ [0%Z]))%nat) as Hlt.
  { intros e (v & -> & Hv)%list_elem_of_fmap. destruct (Hall v Hv) as (V1 & _). rewrite length_app. simpl. lia. }
  assert (forall i, (w.1 <= i < w.2)%nat -> foldl (fun m e => <[e := 0]> m) (buf ++ [0]) (snd <$> words c) !! i = Some (char_at buf i)) as Hin.
  { intros i Hi. rewrite nulterminate_at by done. rewrite decide_False by (intros He; by apply (ends_apart _ w i Hc (Hall w Hw)) in He).
    rewrite lookup_app_l by lia. apply (proj1 (char_at_lt i ltac:(lia))). }
  rewrite (c_string_take (w.2 - w.1)).
  - unfold text, slice. apply list_eq. intros i. destruct (decide (i < w.2 - w.1)%nat) as [Hi|Hi].
    + rewrite !lookup_take_lt by lia. rewrite !lookup_drop, Hin by lia. symmetry. apply (proj1 (char_at_lt (w.1 + i) ltac:(lia))).
    + rewrite !lookup_take_ge by lia. done.
  - intros i Hi. exists (char_at buf (w.1 + i)). rewrite lookup_drop, Hin by lia. split; [done|]. apply (proj2 (char_at_lt (w.1 + i) ltac:(lia))).
  - rewrite lookup_drop, nulterminate_at by done. rewrite decide_True; [done|].
    apply list_elem_of_fmap. exists w. split; [lia|done].
Qed.
End tokens.

(** Parsing a command line ends, whatever the line: [parsecmd] gives a
    command or the shell's syntax error, and the fuel of the model never runs
    out. *)
Theorem parsecmd_ends buf : Forall (fun c => c <> 0) buf -> parsecmd buf <> PFuel.
Proof.
  intros Hbuf. unfold parsecmd. destruct (parse_good buf Hbuf (parse_fuel (length buf))) as (Hl & _).
  specialize (Hl 0%nat ltac:(lia) ltac:(unfold parse_fuel; lia)).
  destruct (parseline buf (parse_fuel (length buf)) 0) as [[c s]| |]; simpl in *; [|done..].
  by destruct (skip_ws buf s =? length buf)%nat.
Qed.

(** The strings a parsed command holds are its words. After
    [nulterminate] every argument and file name of the command, read as a C
    string, is exactly a maximal run of characters of the line that are
    neither white space nor symbols: the NULs cut each word at its end and
    damage no other. *)
Theorem parsecmd_words buf c mem w :
  Forall (fun x => x <> 0) buf -> parsecmd buf = POk (c, mem) -> w ∈ words c ->
  word_ok buf w /\ c_string (drop w.1 mem) = text buf w.
Proof.
  intros Hbuf E Hw. unfold parsecmd in E. destruct (parse_good buf Hbuf (parse_fuel (length buf))) as (Hl & _).
  specialize (Hl 0%nat ltac:(lia) ltac:(unfold parse_fuel; lia)).
  destruct (parseline buf (parse_fuel (length buf)) 0) as [[c' s]| |]; simpl in *; [|done..]. destruct Hl as [Hc _].
  destruct (skip_ws buf s =? length buf)%nat; [|done]. injection E as <- <-.
  split; [|by apply word_string]. unfold cmd_ok in Hc. rewrite Forall_forall in Hc. by apply Hc.
Qed.

(** ** Concrete instances *)

(** "echo hi>f" *)
Definition example_line : list Z := [101; 99; 104; 111; 32; 104; 105; 62; 102].

Example parse_example :
  parsecmd example_line =
  POk (REDIR (EXEC [(0, 4); (5, 7)])%nat (8, 9)%nat O_WRONLY_CREAT 1, [101; 99; 104; 111; 0; 104; 105; 0; 102; 0]).
Proof. vm_compute. reflexivity. Qed.

(** "(a;b)&|c" and the error cases "a)" and "<". *)
Example parse_more :
  parsecmd [40; 97; 59; 98; 41; 124; 99; 38] = 
    POk (BACK (PIPE (LIST (EXEC [(1, 2)]) (EXEC [(3, 4)])) (EXEC [(6, 7)]))%nat, [40; 97; 0; 98; 0; 124; 99; 0; 0]) /\
  parsecmd [97; 41] = PPanic /\ parsecmd [60] = PPanic.
Proof. split_and!; vm_compute; reflexivity. Qed.

Lemma parsecmd_ends_witness : parsecmd example_line <> PFuel.
Proof. apply (parsecmd_ends example_line). repeat constructor; discriminate. Defined.

Lemma parsecmd_words_witness :
  word_ok example_line (5, 7)%nat /\
  c_string (drop 5 [101; 99; 104; 111; 0; 104; 105; 0; 102; 0]) = text example_line (5, 7)%nat.
Proof.
  apply (parsecmd_words example_line (REDIR (EXEC [(0, 4); (5, 7)])%nat (8, 9)%nat O_WRONLY_CREAT 1)).
  - repeat constructor; discriminate.
  - vm_compute. reflexivity.
  - simpl. rewrite !elem_of_cons. tauto.
Defined.
